(* ===== verification/_CoqProject ===== *)
-Q . S2P
Prelude.v
Version.v
StateDB.v
LevelDB.v
StateLevelDB.v
RWSet.v
Merkle.v
Proto.v
Instances.v
RangeQuery.v
Validator.v
TxMgr.v
Serializability.v
BlockHash.v
BlockCodec.v
BlockFiles.v
BlockIndex.v
BlockMgr.v
BlockChain.v
BlockStore.v
BlockRecovery.v
BlockIterator.v
BlockTheorems.v
History.v
KVLedger.v
KVProvider.v
LedgerTheorems.v
OrdererStore.v
Bccsp.v
CAuthDSL.v
Policies.v
ConfigTx.v
ConfigTheorems.v
Filters.v
OrdererChain.v
Consensus.v
ChainFacts.v
KafkaSpec.v
KafkaFollows.v
KafkaSystem.v
OrdererTheorems.v
MsgValidation.v
Membership.v
MembershipFacts.v
PolicyChecker.v
VSCC.v
TxValidator.v
TxValidatorFacts.v
PeerCommit.v
PeerTheorems.v
CCPackages.v
Endorser.v
EndorserFacts.v
EndorserTheorems.v
LSCC.v
LifecycleFacts.v
LifecycleTheorems.v
MembershipTheorems.v
GossipMsgs.v
Mcs.v
GossipState.v
GossipPull.v
GossipChannel.v
OrdererLedgers.v
OrdererLedgerFacts.v
Deliver.v
DeliverTheorems.v
DeliverClient.v
DeliverClientTheorems.v
GossipPeer.v
GossipFacts.v
GossipTheorems.v
