(* ===== verification/Prelude.v ===== *)
(** * Verification of Hyperledger Fabric 1.0

    A shallow embedding of the parts of Fabric that decide what a ledger holds:
    ordering, delivery and gossip of blocks, validation, commit, endorsement, the
    life cycle of chaincodes, the configuration of channels, their policies and
    their members.  Definitions have the names of the Go functions that they
    translate.

    ** The program and the files

    A client sends a proposal to endorsing peers, which simulate a chaincode and
    sign the read-write set; of the responses the client makes a transaction and
    sends it to the orderers, which cut the transactions of a channel into a
    chain of blocks; peers get the blocks from the orderers and from each other,
    and each peer validates the transactions of a block and commits
    it to its ledger: block files with an index, the state and the history.

    Prelude      results of Go calls, state passing, bytes, sorted keys, lists

    The state and its validation (core/ledger/kvledger/txmgmt, common/ledger):
    Version        heights and the order-preserving varints (version.go, util.go)
    StateDB        values, update batches, the class [VersionedDB] (statedb.go)
    LevelDB        named databases over goleveldb (leveldbhelper)
    StateLevelDB   the state database over them (stateleveldb.go)
    RWSet, Merkle  read-write sets, hashes of range queries (rwsetutil)
    Proto          messages of protos/common and protos/peer, protos/utils
    Instances      concrete parameters, on which definitions are evaluated
    RangeQuery     iterators over state and updates, their validation
    Validator      concurrency control of a block (statebasedval)
    TxMgr          simulator and transaction manager (lockbasedtxmgr)
    Serializability  chaincodes as programs over the simulator

    The ledger (common/ledger/blkstorage/fsblkstorage, core/ledger/kvledger):
    BlockHash, BlockCodec   hashes and bytes of blocks (protos/common/block.go,
                   block_serialization.go)
    BlockFiles, BlockIndex, BlockMgr   files, index, manager
    BlockChain, BlockStore, BlockRecovery, BlockIterator   their invariants
    BlockTheorems  the theorems on the block store
    History        the history database (historydb)
    KVLedger, KVProvider, LedgerTheorems   the ledger, its recovery, creation

    Policies and configuration (common/cauthdsl, policies, configtx):
    CAuthDSL, Policies, ConfigTx, ConfigTheorems

    Keys and members (bccsp, msp, core/policy):
    Bccsp          signatures of the software provider (bccsp/sw)
    Membership, MembershipFacts   providers, managers and their configuration
                   (msp, common/config/msp)
    PolicyChecker  who may invoke a peer (msp/mgmt, core/policy)
    MembershipTheorems

    The ordering service (orderer):
    Filters        filters and the block cutter (orderer/common)
    OrdererChain   ledger, chain support (orderer/ledger, orderer/multichain)
    Consensus      the solo and the Kafka consenter (orderer/solo, kafka)
    ChainFacts, KafkaSpec, KafkaFollows, KafkaSystem   an abstract orderer, and
                   a set of orderers on one partition as a step relation
    OrdererStore   the block store of the file ledger as the orderers use it
                   (orderer/ledger/file/factory.go)
    OrdererTheorems
    OrdererLedgers, OrdererLedgerFacts   the ledgers in memory and as JSON, and
                   the class [LedgerReader] of ledgers to read from
    Deliver, DeliverTheorems   the streams of blocks to clients

    The peer (core):
    MsgValidation  form and signatures of messages (core/common/validation)
    VSCC           the validation chaincode (core/scc/vscc)
    TxValidator, TxValidatorFacts   the validation of a block (core/committer)
    PeerCommit, PeerTheorems        validation and ledger together
    CCPackages     chaincode packages (core/common/ccpackage, ccprovider)
    Endorser, EndorserFacts, EndorserTheorems   proposals, transactions, escc and
                   the endorser (protos/utils, core/scc/escc, core/endorser)
    LSCC, LifecycleFacts, LifecycleTheorems     lscc (core/scc/lscc)

    How blocks reach a peer (gossip, peer/gossip, core/deliverservice):
    GossipMsgs     messages and their stores (protos/gossip, gossip/msgstore)
    Mcs            who signed a block or a message (peer/gossip)
    GossipState    the buffer of blocks and the state transfer (gossip/state)
    GossipPull, GossipChannel   the pull protocol, the messages of a channel
                   (gossip/gossip)
    DeliverClient, DeliverClientTheorems   the client of the orderers
    GossipPeer     the committer and these parts together
    GossipFacts, GossipTheorems

    ** How code becomes definitions

    A function with an error result has the result type [res]: a value, an error
    with its message, or a panic, which is what dereferencing nil or indexing out
    of range gives.  Methods that change their receiver are state passing, [ST].
    Records are structs, type classes are interfaces with a class of laws beside
    them ([VersionedDB] and [VersionedDBSpec]; [BlockStore] with
    [ChainStoreSpec], for the ledger of a peer [BlockStoreSpec] and for that of an
    orderer [OrdererStoreSpec]; [ChainConfig] and [ChainConfigSpec]): clients are verified against the laws,
    and implementations are shown to have them.  Machine integers wrap around
    where the code can reach the bound ([wrap64], [uint8]).  Logging, metrics and
    locks are left out; where a lock or a goroutine matters the interleaving is a
    step relation (TxMgr, KafkaSystem, the iterators) or a machine whose events
    are the steps of the goroutines (GossipState, GossipPeer, Deliver), and where a crash or a
    failing disk matters every effect takes an element of a list of faults
    (BlockIndex, BlockRecovery, KVLedger).  A map that Go ranges over is visited
    in an order that is a parameter where the result could depend on it
    (TxValidator), and in the order of its sorted keys where the code sorts.

    Recursion that is not structural has fuel.  The fuel is the length of the
    input (varints, bytes of a block, the files of a directory), the depth of
    the configuration, the number of results of a query plus one, or a bound on
    the attempts of a client (DeliverClient, where twelve are shown to be
    enough) and on the blocks of a request (GossipState); theorems
    about such functions show a result, not only what a result would be, so
    that [OutOfFuel] does not occur under their hypotheses.  Loops of the code
    that do not end are those that run out of every fuel.

    Code that is not part of the repository is a parameter: goleveldb
    ([LevelDBSpec]), protobuf ([ProtoCodec], [RWSetCodec], [TxCodec],
    [PackageCodec] and the like, with the law that unmarshalling inverts
    marshalling where it is used), hashes ([CryptoHash], [Merkle.Hashing]) and
    the Kafka broker, which is a log, and the Go library for keys and certificates
    ([Primitives], [X509]).  The peer is verified over the classes [MSP] and
    [MSPManagers], of which Membership.MspManager and PolicyChecker.MspMgmt are
    the instances of the code.  Instances, EndorserTheorems.FieldCodec and the
    demonstration modules instantiate them; every theorem with a hypothesis is applied there.
    The law of [ChainConfigSpec] on reloading a configuration is assumed of the
    configuration of an orderer's channel.

    ** What the theorems show

    Concurrency control: a transaction that is found valid could have been run
    on the state that it is committed to (block_serializable); the state after a
    block is that of its valid transactions one after the other
    (committed_serially); what the validator decides (tx_validated,
    combined_iterator_scan, hashed_results_validated); simulations are isolated
    by the statements on the read-write lock (simulation_isolated); leveldb implements the state (state_commit).
    Ledger: the block store is an append-only chain under faults and crashes
    (store_refines_chain, store_answers, iterator_delivers_in_order); state and
    history follow it (ledger_commits, ledger_recovers, creation_recovers,
    ledger_history).
    Policies and configuration: policy_sound, policy_exact,
    applied_update_authorized, validated_config_applies.
    Members: who a channel accepts is certified and not revoked
    (channel_members_certified, admins_are_members), signatures of a member
    verify (member_signs) and have one form (signatures_low_s), and packages are
    installed by administrators (installed_by_admin).
    Ordering: the orderers of a channel, on the file ledger (OrdererStore) and as
    long as sizes fit the integers of the machine, write the same chain (kafka_agreement,
    kafka_total_order, kafka_chain_linked, kafka_orderer_restarts), of batches
    that lose nothing (ordered_batches); a client gets the blocks that it asks
    for (blocks_delivered).
    Delivery and gossip: whatever is sent to a peer, it commits the blocks of its
    channel in order, each signed as the channel asks (committed_blocks_signed);
    blocks that wait are committed (waiting_blocks_committed); requests for
    blocks are answered, but for one kind on which the loop does not end
    (state_requests_answered); the client of the orderers gives up
    (recv_gives_up).
    Peer: valid transactions are endorsed by the policies of what they write, but
    for the ways around them that the code leaves open (valid_tx_endorsed,
    committed_writes_endorsed); endorser transactions are not replayed (no_replay),
    and the flags do not depend on the order of maps (block_flags_decided).
    Endorsement: what is endorsed was checked (endorsement_safe), a transaction
    carries what was simulated (signed_tx_carries_simulation) and is then valid
    (endorsed_tx_valid).
    Life cycle: install_round_trip, cached_data_current, launched_code_recorded,
    deployment_validates, packages_collated.

    Executions in which the code does not do what its comments say are proved as
    examples beside the definitions that have them.

    ** Not modelled

    Network and process code: gRPC servers and clients (core/comm, the servers of
    orderer and peer, events), the command lines (peer, orderer main), docker
    (core/container).  The messages between a chaincode and its peer
    (core/chaincode, shim): executing a chaincode is a parameter of the endorser
    and of the validator.  Of gossip the connections, the membership of the
    network, the store of certificates and the election of leaders, whose
    behaviour is in timers and random choices; what a channel uses of them is an
    argument of its operations.  The stream of broadcasting clients and the table
    of channels of an orderer.  Generating and storing keys, encryption and
    PKCS#11 (bccsp), and reading a provider from a directory (msp).  CouchDB,
    whose queries run outside.  The values of the configuration (common/config),
    the handlers of which are a parameter of ConfigTx.  Generated code, tools, examples and tests. *)

From stdpp Require Import base gmap strings list fin_maps sorting.
From Stdlib Require Import Ascii ZArith Lia.

(** ** Results of Go calls

    A Go function of type [(T, error)] becomes a function into [res T]: a
    value, an error value, or a run-time panic.  [OutOfFuel] is the result of
    a loop or recursion whose fuel argument ran out; the theorems about such
    functions show that it is not produced for the fuel they name. *)

Inductive res (A : Type) : Type :=
| Ok (a : A)
| Err (e : string)
| Panic (m : string)
| OutOfFuel.
Arguments Ok {A} _.
Arguments Err {A} _.
Arguments Panic {A} _.
Arguments OutOfFuel {A}.

#[export] Instance res_ret : MRet res := @Ok.

#[export] Instance res_bind : MBind res := fun A B f r =>
  match r with
  | Ok a => f a
  | Err e => Err e
  | Panic m => Panic m
  | OutOfFuel => OutOfFuel
  end.

#[export] Instance res_eq_dec {A} `{EqDecision A} : EqDecision (res A).
Proof. solve_decision. Defined.

(** The error of a failed step, replaced. *)
Definition or_fail {A} (m : string) (r : res A) : res A := match r with Err _ => Err m | r => r end.

Lemma or_fail_Ok {A} m (r : res A) a : or_fail m r = Ok a <-> r = Ok a.
Proof. by destruct r. Qed.

(** [MarshalOrPanic] *)
Definition or_panic {A} (r : res A) : res A := match r with Err e => Panic e | r => r end.

(** A method that changes its receiver and may fail: the receiver after the
    call, and the result.  What was changed before a failure stays changed. *)
Definition ST (St A : Type) : Type := St -> St * res A.

#[export] Instance st_ret {St} : MRet (ST St) := fun A a s => (s, Ok a).

#[export] Instance st_bind {St} : MBind (ST St) := fun A B f m s =>
  let '(s, r) := m s in
  match r with
  | Ok a => f a s
  | Err e => (s, Err e)
  | Panic p => (s, Panic p)
  | OutOfFuel => (s, OutOfFuel)
  end.

Definition st_lift {St A} (r : res A) : ST St A := fun s => (s, r).
Definition st_get {St} : ST St St := fun s => (s, Ok s).
Definition st_modify {St} (f : St -> St) : ST St unit := fun s => (f s, Ok tt).

Lemma st_bind_Ok {St A B} (f : A -> ST St B) (m : ST St A) s s1 a :
  m s = (s1, Ok a) -> mbind f m s = f a s1.
Proof. intros E. unfold mbind, st_bind. by rewrite E. Qed.

Lemma st_bind_eq {St A B} (f : A -> ST St B) (m : ST St A) s s1 r :
  m s = (s1, r) ->
  mbind f m s = match r with
                | Ok a => f a s1
                | Err e => (s1, Err e)
                | Panic p => (s1, Panic p)
                | OutOfFuel => (s1, OutOfFuel)
                end.
Proof. intros E. unfold mbind, st_bind. by rewrite E. Qed.

Lemma st_bind_inv {St A B} (f : A -> ST St B) (m : ST St A) s s' b :
  mbind f m s = (s', Ok b) -> exists s1 a, m s = (s1, Ok a) /\ f a s1 = (s', Ok b).
Proof. unfold mbind, st_bind. destruct (m s) as [s1 [a| | |]]; try done. eauto. Qed.

(** [is_ok r] holds of a call that returned a value. *)
Definition is_ok {A} (r : res A) : Prop :=
  match r with Ok _ => True | _ => False end.

Lemma ok_pair {A B} (p : A * res B) : is_ok (snd p) -> exists u, p = (fst p, Ok u).
Proof. destruct p as [a [u| | |]]; cbn; [by exists u|done..]. Qed.

Lemma is_ok_iff {A} (r : res A) : is_ok r <-> exists a, r = Ok a.
Proof. destruct r; simpl; naive_solver. Qed.

Lemma Ok_inj {A} (a b : A) : Ok a = Ok b -> a = b.
Proof. by intros [= ->]. Qed.

Lemma res_ret_bind {A B} (a : A) (f : A -> res B) : (Ok a ≫= f) = f a.
Proof. done. Qed.

Lemma res_bind_Ok {A B} (r : res A) (f : A -> res B) (b : B) :
  (r ≫= f) = Ok b <-> exists a, r = Ok a /\ f a = Ok b.
Proof. destruct r; simpl; naive_solver. Qed.

(** Invert a chain of monadic binds that ended in [Ok]. *)
Ltac inv_bind :=
  repeat match goal with
  | H : (_ ≫= _) = Ok _ |- _ =>
      apply res_bind_Ok in H; destruct H as (? & ? & H)
  | H : mret _ = Ok _ |- _ => injection H as H
  | H : Ok _ = Ok _ |- _ => injection H as H
  | H : Err _ = Ok _ |- _ => discriminate H
  | H : Panic _ = Ok _ |- _ => discriminate H
  | H : OutOfFuel = Ok _ |- _ => discriminate H
  end.

(** ** Bytes

    A Go [byte] is an [ascii]; a byte slice that is never compared with [nil]
    is a [list ascii], one that is is an [option (list ascii)].  A Go [string]
    is a [string], and the conversions [[]byte(s)] and [string(b)] are
    [to_bytes] and [to_string]. *)

Abbreviation bytes := (list ascii).

Abbreviation to_bytes := String.list_ascii_of_string.
Abbreviation to_string := String.string_of_list_ascii.

Definition is_nil (b : bytes) : bool := match b with [] => true | _ => false end.

Lemma cons_bytes_inj (c d : ascii) (l k : bytes) : c :: l = d :: k -> c = d /\ l = k.
Proof. by intros [= -> ->]. Qed.

Lemma to_bytes_inj s1 s2 : to_bytes s1 = to_bytes s2 -> s1 = s2.
Proof.
  intros E. by rewrite <- (String.string_of_list_ascii_of_string s1), E, String.string_of_list_ascii_of_string.
Qed.

Lemma to_bytes_app (s t : string) : to_bytes (s +:+ t) = to_bytes s ++ to_bytes t.
Proof. induction s as [|c s IH]; [done|]. exact (f_equal (cons c) IH). Qed.

(** The value of a byte, and the conversion [uint8(z)]. *)
Definition byte_val (b : ascii) : Z := Z.of_N (N_of_ascii b).
Definition uint8 (z : Z) : ascii := ascii_of_N (Z.to_N (z `mod` 256)).

Lemma byte_val_range b : (0 <= byte_val b < 256)%Z.
Proof.
  unfold byte_val. pose proof (N_ascii_bounded b). lia.
Qed.

Lemma byte_val_uint8 z : byte_val (uint8 z) = (z `mod` 256)%Z.
Proof.
  unfold byte_val, uint8. pose proof (Z.mod_pos_bound z 256).
  rewrite N_ascii_embedding by lia. lia.
Qed.

Lemma byte_val_inj a b : byte_val a = byte_val b -> a = b.
Proof.
  unfold byte_val. intros H. apply N2Z.inj in H.
  by rewrite <- (ascii_N_embedding a), <- (ascii_N_embedding b), H.
Qed.

Lemma uint8_byte_val b : uint8 (byte_val b) = b.
Proof.
  apply byte_val_inj. rewrite byte_val_uint8.
  pose proof (byte_val_range b). rewrite Z.mod_small; lia.
Qed.

(** ** The order of byte strings

    [bytes.Compare], [strings.Compare] and the key order of a leveldb are all
    the lexicographic order of the bytes. *)

Fixpoint bytes_compare (a b : bytes) : comparison :=
  match a, b with
  | [], [] => Eq
  | [], _ :: _ => Lt
  | _ :: _, [] => Gt
  | x :: a', y :: b' =>
      match Ascii.compare x y with Eq => bytes_compare a' b' | c => c end
  end.

Lemma ascii_compare_val x y : Ascii.compare x y = (byte_val x ?= byte_val y)%Z.
Proof. unfold Ascii.compare, byte_val. by rewrite N2Z.inj_compare. Qed.

Lemma ascii_compare_refl x : Ascii.compare x x = Eq.
Proof. rewrite ascii_compare_val. apply Z.compare_refl. Qed.

Lemma bytes_compare_refl a : bytes_compare a a = Eq.
Proof. induction a as [|x a IH]; simpl; [done|]. by rewrite ascii_compare_refl. Qed.

Lemma bytes_compare_eq a b : bytes_compare a b = Eq <-> a = b.
Proof.
  split; [|intros ->; apply bytes_compare_refl].
  revert b; induction a as [|x a IH]; intros [|y b]; simpl; try done.
  destruct (Ascii.compare x y) eqn:E; try done.
  apply Ascii.compare_eq_iff in E as ->. intros ?. f_equal; auto.
Qed.

Lemma bytes_compare_antisym a b : bytes_compare a b = CompOpp (bytes_compare b a).
Proof.
  revert b; induction a as [|x a IH]; intros [|y b]; simpl; try done.
  rewrite !ascii_compare_val, (Z.compare_antisym (byte_val y)).
  destruct (_ ?= _)%Z; simpl; auto.
Qed.

(** A common prefix does not matter. *)
Lemma bytes_compare_app p a b : bytes_compare (p ++ a) (p ++ b) = bytes_compare a b.
Proof. induction p as [|x p IH]; simpl; [done|]. by rewrite ascii_compare_refl. Qed.

Lemma bytes_compare_lt_trans a b c :
  bytes_compare a b = Lt -> bytes_compare b c = Lt -> bytes_compare a c = Lt.
Proof.
  revert b c; induction a as [|x a IH]; intros [|y b] [|z c]; simpl; try done.
  rewrite !ascii_compare_val.
  destruct (byte_val x ?= byte_val y)%Z eqn:E1, (byte_val y ?= byte_val z)%Z eqn:E2;
    try done; rewrite ?Z.compare_eq_iff, ?Z.compare_lt_iff in *.
  - rewrite E1, E2, Z.compare_refl. eauto.
  - rewrite E1. intros _ _. by apply Z.compare_lt_iff in E2 as ->.
  - rewrite <- E2. intros _ _. by apply Z.compare_lt_iff in E1 as ->.
  - intros _ _. assert (byte_val x < byte_val z)%Z as H by lia.
    by apply Z.compare_lt_iff in H as ->.
Qed.

(** The order on Go strings agrees with the order on their bytes. *)
Lemma bytes_compare_string s1 s2 :
  bytes_compare (to_bytes s1) (to_bytes s2) = String.compare s1 s2.
Proof.
  revert s2; induction s1 as [|x s1 IH]; intros [|y s2]; simpl; try done.
  by rewrite IH.
Qed.

Definition bytes_lt (a b : bytes) : Prop := bytes_compare a b = Lt.
Definition bytes_le (a b : bytes) : Prop := bytes_compare a b <> Gt.

#[export] Instance bytes_lt_dec : RelDecision bytes_lt.
Proof. intros a b. unfold bytes_lt. apply _. Defined.
#[export] Instance bytes_le_dec : RelDecision bytes_le.
Proof. intros a b. unfold bytes_le. apply _. Defined.

Lemma bytes_le_lt_eq a b : bytes_le a b <-> bytes_lt a b \/ a = b.
Proof.
  unfold bytes_le, bytes_lt. rewrite <- bytes_compare_eq.
  destruct (bytes_compare a b); naive_solver.
Qed.

#[export] Instance bytes_lt_strict : StrictOrder bytes_lt.
Proof.
  split.
  - intros a. unfold complement, bytes_lt. by rewrite bytes_compare_refl.
  - intros a b c. apply bytes_compare_lt_trans.
Qed.

#[export] Instance bytes_le_po : PartialOrder bytes_le.
Proof.
  split; [split|].
  - intros a. apply bytes_le_lt_eq. by right.
  - intros a b c. rewrite !bytes_le_lt_eq. intros [?| ->] [?| ->]; auto.
    left. by etrans.
  - intros a b. rewrite !bytes_le_lt_eq. intros [H1| ->] [H2|H2]; auto.
    exfalso. apply (irreflexivity bytes_lt a). by etrans.
Qed.

#[export] Instance bytes_le_total : Total bytes_le.
Proof.
  intros a b. unfold bytes_le. rewrite (bytes_compare_antisym b a).
  destruct (bytes_compare a b); simpl; naive_solver.
Qed.

(** ** Machine integers

    A [uint64] is a [Z] in [0, 2^64); arithmetic wraps explicitly.  [int] is
    64 bits wide on the platforms the program is built for. *)

Definition u64 (z : Z) : Prop := (0 <= z < 2 ^ 64)%Z.

(** [uint64(z)] *)
Definition wrap64 (z : Z) : Z := (z `mod` 2 ^ 64)%Z.

(** [int(z)] of a [uint64] *)
Definition int64 (z : Z) : Z :=
  if (wrap64 z <? 2 ^ 63)%Z then wrap64 z else (wrap64 z - 2 ^ 64)%Z.

#[export] Instance u64_dec z : Decision (u64 z).
Proof. unfold u64. apply _. Defined.

Lemma wrap64_small z : u64 z -> wrap64 z = z.
Proof. apply Z.mod_small. Qed.

Lemma wrap64_u64 z : u64 (wrap64 z).
Proof. apply Z.mod_pos_bound. lia. Qed.

Lemma int64_small z : (0 <= z < 2 ^ 63)%Z -> int64 z = z.
Proof.
  intros H. unfold int64. rewrite wrap64_small by (unfold u64; lia).
  destruct (Z.ltb_spec z (2 ^ 63)); lia.
Qed.

Create HintDb fabric.
#[export] Hint Resolve wrap64_u64 : fabric.

(** ** Sorted string keys *)

Abbreviation str_le := String.le.

(** [s1 < s2] on Go strings *)
Definition str_lt (s1 s2 : string) : Prop := ~ str_le s2 s1.

#[export] Instance str_lt_dec : RelDecision str_lt.
Proof. intros s1 s2. unfold str_lt. apply _. Defined.

Lemma str_lt_le s1 s2 : str_lt s1 s2 -> str_le s1 s2.
Proof. unfold str_lt. destruct (total str_le s1 s2); naive_solver. Qed.

Lemma str_le_lt_eq s1 s2 : str_le s1 s2 <-> str_lt s1 s2 \/ s1 = s2.
Proof.
  split.
  - intros H. destruct (decide (str_le s2 s1)); [right; by apply (anti_symm str_le)|by left].
  - intros [H| ->]; [by apply str_lt_le|done].
Qed.

Lemma str_lt_le_trans s1 s2 s3 : str_lt s1 s2 -> str_le s2 s3 -> str_lt s1 s3.
Proof. unfold str_lt. intros H1 H2 H3. apply H1. by etrans. Qed.

Lemma str_le_lt_trans s1 s2 s3 : str_le s1 s2 -> str_lt s2 s3 -> str_lt s1 s3.
Proof. unfold str_lt. intros H1 H2 H3. apply H2. by etrans. Qed.

#[export] Instance str_lt_strict : StrictOrder str_lt.
Proof.
  split.
  - intros s H. by apply H.
  - intros s1 s2 s3 H1 H2. eapply str_lt_le_trans; [done|]. by apply str_lt_le.
Qed.

Lemma str_lt_irrefl s : ~ str_lt s s.
Proof. intros H. by apply H. Qed.

Lemma str_le_empty s : str_le "" s.
Proof. by destruct s. Qed.

(** The three-way comparison decides the order. *)
Lemma str_compare_spec s1 s2 :
  CompareSpec (s1 = s2) (str_lt s1 s2) (str_lt s2 s1) (String.compare s1 s2).
Proof.
  unfold str_lt, String.le, String.leb.
  rewrite (String.compare_antisym s2 s1).
  destruct (String.compare s1 s2) eqn:E; constructor; simpl; try (by intros []).
  by apply String.compare_eq_iff.
Qed.

(** Strictly increasing lists of keys. *)
Abbreviation sorted_keys := (StronglySorted str_lt).

Lemma sorted_keys_lookup (l : list string) i j x y :
  sorted_keys l -> l !! i = Some x -> l !! j = Some y -> i < j -> str_lt x y.
Proof.
  intros Hs. revert i j. induction Hs as [|a l Hs IH Hf]; intros i j Hi Hj Hij; [done|].
  destruct i as [|i], j as [|j]; simplify_eq/=; try lia.
  - rewrite Forall_forall in Hf. eapply Hf, list_elem_of_lookup_2, Hj.
  - eapply IH; [done..|lia].
Qed.

Lemma sorted_keys_lookup_le (l : list string) i j x y :
  sorted_keys l -> l !! i = Some x -> l !! j = Some y -> i <= j -> str_le x y.
Proof.
  intros Hs Hi Hj Hij. destruct (decide (i = j)) as [->|].
  - by simplify_eq.
  - eapply str_lt_le, sorted_keys_lookup; [done..|lia].
Qed.

(** The sorted keys of a map: [util.GetSortedKeys]
    (core/ledger/util/util.go). *)
Definition GetSortedKeys {V} (m : gmap string V) : list string :=
  merge_sort str_le ((map_to_list m).*1).

Lemma elem_of_GetSortedKeys {V} (m : gmap string V) k :
  k ∈ GetSortedKeys m <-> is_Some (m !! k).
Proof.
  unfold GetSortedKeys. rewrite merge_sort_Permutation, list_elem_of_fmap. split.
  - intros ([k' v] & -> & H). apply elem_of_map_to_list in H. eauto.
  - intros [v Hv]. exists (k, v). split; [done|]. by apply elem_of_map_to_list.
Qed.

Lemma NoDup_strict_sorted (l : list string) :
  StronglySorted str_le l -> NoDup l -> sorted_keys l.
Proof.
  induction 1 as [|a l Hs IH Hf]; intros Hd; [constructor|].
  apply NoDup_cons in Hd as [Hn Hd]. constructor; [auto|].
  rewrite Forall_forall in Hf |- *. intros x Hx.
  destruct (proj1 (str_le_lt_eq a x) (Hf x Hx)) as [| ->]; [done|naive_solver].
Qed.

Lemma GetSortedKeys_sorted {V} (m : gmap string V) : sorted_keys (GetSortedKeys m).
Proof.
  apply NoDup_strict_sorted.
  - apply StronglySorted_merge_sort; apply _.
  - unfold GetSortedKeys. rewrite merge_sort_Permutation. apply NoDup_fst_map_to_list.
Qed.

Lemma GetSortedKeys_empty {V} : GetSortedKeys (∅ : gmap string V) = [].
Proof. done. Qed.

Lemma GetSortedKeys_singleton {V} k (v : V) : GetSortedKeys {[k := v]} = [k].
Proof. unfold GetSortedKeys. by rewrite map_to_list_singleton. Qed.

(** [sort.SearchStrings]: the smallest index at which the key is at least [x],
    the length of the list if there is none. *)
Definition SearchStrings (a : list string) (x : string) : nat :=
  match list_find (fun s => str_le x s) a with
  | Some (i, _) => i
  | None => length a
  end.

Lemma SearchStrings_le a x : SearchStrings a x <= length a.
Proof.
  unfold SearchStrings. destruct (list_find _ a) as [[i y]|] eqn:E; [|done].
  apply list_find_Some in E as (Hi & _). apply lookup_lt_Some in Hi. lia.
Qed.

Lemma SearchStrings_spec a x i k :
  sorted_keys a -> a !! i = Some k -> SearchStrings a x <= i <-> str_le x k.
Proof.
  intros Hs Hi. unfold SearchStrings.
  destruct (list_find _ a) as [[j y]|] eqn:E.
  - apply list_find_Some in E as (Hj & Hxy & Hmin). split.
    + intros Hji. etrans; [exact Hxy|]. by eapply sorted_keys_lookup_le.
    + intros Hxk. destruct (decide (j <= i)); [done|].
      exfalso. eapply Hmin; [exact Hi|lia|done].
  - apply list_find_None in E. rewrite Forall_forall in E. split.
    + intros Hl. apply lookup_lt_Some in Hi. lia.
    + intros Hxk. exfalso. eapply E; [by eapply list_elem_of_lookup_2|done].
Qed.

(** ** Loops that may fail *)

(** [for _, a := range l { b, err = f(b, a); if err != nil { return } }] *)
Fixpoint foldM {A B} (f : B -> A -> res B) (b : B) (l : list A) : res B :=
  match l with
  | [] => Ok b
  | a :: l' => b' ← f b a; foldM f b' l'
  end.

Lemma elem_of_concat_fmap {A B} (f : A -> list B) (x : B) (l : list A) :
  x ∈ concat (f <$> l) <-> exists a, a ∈ l /\ x ∈ f a.
Proof.
  induction l as [|a l IH]; cbn.
  - split; [by intros ?%elem_of_nil|by intros (a & ?%elem_of_nil & _)].
  - rewrite elem_of_app, IH. setoid_rewrite elem_of_cons. naive_solver.
Qed.

Lemma foldM_app {A B} (f : B -> A -> res B) b l1 l2 :
  foldM f b (l1 ++ l2) = (b' ← foldM f b l1; foldM f b' l2).
Proof.
  revert b. induction l1 as [|a l1 IH]; intros b; [done|]. cbn.
  destruct (f b a); [|done..]. cbn. apply IH.
Qed.

(** A loop whose body always succeeds is a fold. *)
Lemma foldM_foldl {A B} (f : B -> A -> res B) (g : B -> A -> B) b l :
  (forall b a, a ∈ l -> f b a = Ok (g b a)) -> foldM f b l = Ok (foldl g b l).
Proof.
  revert b. induction l as [|a l IH]; intros b H; [done|]. cbn.
  rewrite H by left. cbn. apply IH. intros. apply H. by right.
Qed.

Fixpoint mapM_res {A B} (f : A -> res B) (l : list A) : res (list B) :=
  match l with
  | [] => Ok []
  | a :: l' => b ← f a; bs ← mapM_res f l'; Ok (b :: bs)
  end.

Lemma mapM_res_Forall2 {A B} (f : A -> res B) l l' : mapM_res f l = Ok l' -> Forall2 (fun a b => f a = Ok b) l l'.
Proof.
  revert l'. induction l as [|a l IH]; intros l' E; [injection E as <-; constructor|]. cbn in E.
  destruct (f a) as [b| | |] eqn:Eb; try done. cbn in E. destruct (mapM_res f l) as [bs| | |]; try done. injection E as <-. constructor; [done|by apply IH].
Qed.

Lemma mapM_res_fmap {A B} (f : A -> res B) (g : A -> B) l :
  (forall a, a ∈ l -> f a = Ok (g a)) -> mapM_res f l = Ok (g <$> l).
Proof.
  induction l as [|a l IH]; intros H; [done|]. cbn.
  rewrite H by left. cbn. rewrite IH; [done|]. intros. apply H. by right.
Qed.

Lemma length_omap_le {A B} (f : A -> option B) (l : list A) : length (omap f l) <= length l.
Proof. induction l as [|a l IH]; [done|]. cbn. destruct (f a); cbn; lia. Qed.

Lemma StronglySorted_filter {A} (R : relation A) (P : A -> Prop) `{forall x, Decision (P x)}
    (l : list A) : StronglySorted R l -> StronglySorted R (filter P l).
Proof.
  induction 1 as [|a l Hs IH Hf]; [constructor|].
  rewrite filter_cons. destruct (decide (P a)); [|done]. constructor; [done|].
  rewrite Forall_forall in Hf |- *. intros x [_ Hx]%list_elem_of_filter. auto.
Qed.

Lemma filter_all {A} (P : A -> Prop) `{forall x, Decision (P x)} (l : list A) :
  Forall P l -> filter P l = l.
Proof. induction 1 as [|x l Hx _ IH]; [done|]. by rewrite filter_cons_True, IH. Qed.

Lemma filter_none {A} (P : A -> Prop) `{forall x, Decision (P x)} (l : list A) :
  Forall (fun x => ~ P x) l -> filter P l = [].
Proof. induction 1 as [|x l Hx _ IH]; [done|]. by rewrite filter_cons_False. Qed.

(** A downward closed filter keeps a prefix of a sorted list. *)
Lemma filter_prefix {A} (R : relation A) (P : A -> Prop) `{forall x, Decision (P x)} (l : list A) :
  StronglySorted R l -> (forall x y, R x y -> P y -> P x) -> filter P l `prefix_of` l.
Proof.
  intros Hs HP. induction Hs as [|x l Hs IH Hf]; [done|]. rewrite filter_cons.
  destruct (decide (P x)) as [Hx|Hx]; [by apply prefix_cons|].
  rewrite filter_none; [apply prefix_nil|]. rewrite Forall_forall in Hf. apply Forall_forall.
  intros y Hy HPy. by apply Hx, (HP x y); [apply Hf|].
Qed.

(** ** Regular expressions *)

Fixpoint take_run (f : ascii -> bool) (s : bytes) : bytes :=
  match s with
  | c :: s => if f c then c :: take_run f s else []
  | [] => []
  end.

(** [FindString] of a class of first characters and a run of another: the
    leftmost match, which is as long as possible. *)
Fixpoint find_run (first rest : ascii -> bool) (s : bytes) : bytes :=
  match s with
  | c :: s => if first c then c :: take_run rest s else find_run first rest s
  | [] => []
  end.

Lemma take_run_length f s : (length (take_run f s) <= length s)%nat.
Proof. induction s as [|c s IH]; cbn; [lia|]. destruct (f c); cbn; lia. Qed.

Lemma take_run_all f s : length (take_run f s) = length s <-> Forall (fun c => f c = true) s.
Proof.
  induction s as [|c s IH]; cbn; [by split|]. rewrite Forall_cons. destruct (f c); cbn.
  - rewrite <- IH. split; [by intros [= ->]|by intros [_ ->]].
  - split; [done|]. by intros [? _].
Qed.

Lemma find_run_length f g s : (length (find_run f g s) <= length s)%nat.
Proof.
  induction s as [|c s IH]; cbn; [lia|]. destruct (f c); cbn; [|lia]. pose proof (take_run_length g s). lia.
Qed.

Lemma find_run_all f g s :
  length (find_run f g s) = length s <->
  match s with [] => True | c :: s => f c = true /\ Forall (fun c => g c = true) s end.
Proof.
  destruct s as [|c s]; cbn; [done|]. destruct (f c) eqn:E; cbn.
  - rewrite <- take_run_all. split; [by intros [= ->]|by intros [_ ->]].
  - pose proof (find_run_length f g s). split; [lia|]. by intros [? _].
Qed.
