(* ===== verification/Version.v ===== *)
(** * Versions

    The order-preserving variable-length encoding of block and transaction
    numbers (common/ledger/util/util.go, on top of the varints of
    golang/protobuf), and the heights that version every key of the state
    (core/ledger/kvledger/txmgmt/version/version.go). *)

From stdpp Require Import base strings list.
From Stdlib Require Import Ascii ZArith Lia.
From S2P Require Import Prelude.

Local Open Scope Z_scope.

(** ** Order preserving encoding *)

Module Varint.

(** [proto.EncodeVarint]: seven bits a byte, least significant group first.
    A [uint64] needs at most ten bytes ([maxVarintBytes]). *)
Fixpoint encode_loop (n : nat) (x : Z) : bytes :=
  match n with
  | O => [uint8 x]
  | S n' =>
      if 127 <? x
      then uint8 (Z.lor 128 (Z.land x 127)) :: encode_loop n' (Z.shiftr x 7)
      else [uint8 x]
  end.

Definition EncodeVarint (x : Z) : bytes := encode_loop 9 x.

(** [proto.DecodeVarint]: the value and the number of bytes consumed, (0, 0)
    if the bytes run out or the number has more than 64 bits. *)
Fixpoint decode_loop (fuel : nat) (shift x : Z) (n : nat) (buf : bytes) : Z * nat :=
  match fuel with
  | O => (0, 0%nat)
  | S fuel' =>
      match buf with
      | [] => (0, 0%nat)
      | c :: buf' =>
          let b := byte_val c in
          let x' := Z.lor x (wrap64 (Z.shiftl (Z.land b 127) shift)) in
          if Z.land b 128 =? 0 then (x', S n)
          else decode_loop fuel' (shift + 7) x' (S n) buf'
      end
  end.

(** [shift] runs over 0, 7, ..., 63: ten rounds. *)
Definition DecodeVarint (buf : bytes) : Z * nat := decode_loop 10 0 0 0 buf.

Lemma EncodeVarint_small x : 0 <= x < 128 -> EncodeVarint x = [uint8 x].
Proof.
  intros H. unfold EncodeVarint. cbn [encode_loop].
  destruct (Z.ltb_spec 127 x); [lia|done].
Qed.

Lemma DecodeVarint_small c buf :
  byte_val c < 128 -> DecodeVarint (c :: buf) = (byte_val c, 1%nat).
Proof.
  intros H. pose proof (byte_val_range c). unfold DecodeVarint. cbn [decode_loop].
  assert (Z.land (byte_val c) 127 = byte_val c) as E1.
  { change 127 with (Z.ones 7). rewrite Z.land_ones by lia. apply Z.mod_small. lia. }
  assert (Z.land (byte_val c) 128 = 0) as E2.
  { change 128 with (2 ^ 7). apply Z.bits_inj'. intros n Hn.
    rewrite Z.land_spec, Z.bits_0, Z.pow2_bits_eqb by lia.
    destruct (Z.eqb_spec 7 n) as [<-|]; [|by rewrite andb_false_r].
    rewrite andb_true_r. apply Z.bits_above_log2; [lia|].
    destruct (decide (byte_val c = 0)) as [->|]; [done|].
    apply Z.log2_lt_pow2; lia. }
  rewrite E1, E2, Z.eqb_refl, Z.shiftl_0_r, Z.lor_0_l. by rewrite wrap64_small by (unfold u64; lia).
Qed.

End Varint.

Module OrderPreserving.
Import Varint.

(** [binary.BigEndian.PutUint64] and [binary.BigEndian.Uint64], for any number
    of bytes. *)
Fixpoint be_put (n : nat) (v : Z) : bytes :=
  match n with
  | O => []
  | S n' => uint8 (Z.shiftr v (8 * Z.of_nat n')) :: be_put n' v
  end.

Fixpoint be_get (acc : Z) (bs : bytes) : Z :=
  match bs with
  | [] => acc
  | b :: bs' => be_get (Z.lor (Z.shiftl acc 8) (byte_val b)) bs'
  end.

Definition PutUint64 (v : Z) : bytes := be_put 8 v.
Definition Uint64 (bs : bytes) : Z := be_get 0 bs.

(** The loop of [EncodeOrderPreservingVarUint64]: the index of the first byte
    that is not zero. *)
Fixpoint first_nonzero (i : nat) (bs : bytes) : option nat :=
  match bs with
  | [] => None
  | b :: bs' => if byte_val b =? 0 then first_nonzero (S i) bs' else Some i
  end.

Definition EncodeOrderPreservingVarUint64 (number : Z) : res bytes :=
  let bs := PutUint64 number in
  let '(startingIndex, size) :=
    match first_nonzero 0 bs with
    | Some i => (i, (8 - i)%nat)
    | None => (0%nat, 0%nat)
    end in
  match EncodeVarint (Z.of_nat size) with
  | [sizeByte] => Ok (sizeByte :: take size (drop startingIndex bs))
  | _ => Panic "[]sizeBytes should not be more than one byte"
  end.

(** Go checks both slice expressions; the slice passed in is taken to have no
    spare capacity. *)
Definition DecodeOrderPreservingVarUint64 (bs : bytes) : res (Z * nat) :=
  let '(s, _) := DecodeVarint bs in
  let size := int64 s in
  if (size <? 0) || (8 <? size) then Panic "slice bounds out of range"
  else if Z.of_nat (length bs) <? size + 1 then Panic "slice bounds out of range"
  else
    let n := Z.to_nat size in
    let decodedBytes := replicate (8 - n) (uint8 0) ++ take n (drop 1 bs) in
    Ok (Uint64 decodedBytes, S n).

(** *** The reference encoding

    The number of significant bytes of [v], then those bytes. *)

Fixpoint sig_bytes (n : nat) (v : Z) : nat :=
  match n with
  | O => O
  | S n' => if v <? 2 ^ (8 * Z.of_nat n') then sig_bytes n' v else S n'
  end.

Definition enc (v : Z) : bytes :=
  uint8 (Z.of_nat (sig_bytes 8 v)) :: be_put (sig_bytes 8 v) v.

Lemma length_be_put n v : length (be_put n v) = n.
Proof. induction n as [|n IH]; simpl; auto. Qed.

Lemma pow8_pos n : 0 < 2 ^ (8 * Z.of_nat n).
Proof. apply Z.pow_pos_nonneg; lia. Qed.

Lemma pow8_S n : 2 ^ (8 * Z.of_nat (S n)) = 256 * 2 ^ (8 * Z.of_nat n).
Proof. rewrite Nat2Z.inj_succ, Z.mul_succ_r, Z.pow_add_r by lia. lia. Qed.

Lemma lor_byte acc b : Z.lor (Z.shiftl acc 8) (byte_val b) = acc * 256 + byte_val b.
Proof.
  pose proof (byte_val_range b).
  assert (Z.land (Z.shiftl acc 8) (byte_val b) = 0) as Hl.
  { apply Z.bits_inj'. intros n Hn. rewrite Z.land_spec, Z.bits_0.
    destruct (Z.ltb_spec n 8).
    - by rewrite Z.shiftl_spec_low by lia.
    - rewrite (Z.bits_above_log2 (byte_val b)), andb_false_r; [done|lia|].
      destruct (decide (byte_val b = 0)) as [->|]; [simpl; lia|].
      apply Z.log2_lt_pow2; [lia|].
      assert (2 ^ 8 <= 2 ^ n) by (apply Z.pow_le_mono_r; lia). lia. }
  rewrite <- Z.lxor_lor, <- Z.add_nocarry_lxor by done.
  rewrite Z.shiftl_mul_pow2 by lia. done.
Qed.

(** The leading byte of [be_put (S n) v] and its tail, as arithmetic. *)
Lemma mod_pow8_S n v :
  v mod 2 ^ (8 * Z.of_nat (S n)) =
  byte_val (uint8 (Z.shiftr v (8 * Z.of_nat n))) * 2 ^ (8 * Z.of_nat n)
  + v mod 2 ^ (8 * Z.of_nat n).
Proof.
  rewrite byte_val_uint8, Z.shiftr_div_pow2 by lia.
  rewrite pow8_S, (Z.mul_comm 256). pose proof (pow8_pos n).
  rewrite Z.rem_mul_r by lia. lia.
Qed.

Lemma be_get_put n v acc :
  be_get acc (be_put n v) = acc * 2 ^ (8 * Z.of_nat n) + v mod 2 ^ (8 * Z.of_nat n).
Proof.
  revert acc; induction n as [|n IH]; intros acc.
  - cbn [be_put be_get]. change (2 ^ (8 * Z.of_nat 0)) with 1. rewrite Z.mod_1_r. lia.
  - cbn [be_put be_get]. rewrite IH, lor_byte, mod_pow8_S, pow8_S. lia.
Qed.

Lemma be_get_zeros n bs : be_get 0 (replicate n (uint8 0) ++ bs) = be_get 0 bs.
Proof. induction n as [|n IH]; [done|]. exact IH. Qed.

Lemma sig_bytes_le n v : (sig_bytes n v <= n)%nat.
Proof.
  induction n as [|n IH]; cbn [sig_bytes]; [lia|].
  destruct (_ <? _); lia.
Qed.

Lemma sig_bytes_spec n v :
  0 <= v < 2 ^ (8 * Z.of_nat n) ->
  v < 2 ^ (8 * Z.of_nat (sig_bytes n v)) /\
  forall m, sig_bytes n v = S m -> 2 ^ (8 * Z.of_nat m) <= v.
Proof.
  induction n as [|n IH]; cbn [sig_bytes]; intros H; [split; [exact (proj2 H)|done]|].
  destruct (Z.ltb_spec v (2 ^ (8 * Z.of_nat n))) as [Hlt|Hge].
  - apply IH. lia.
  - split; [lia|]. intros m [= ->]. done.
Qed.

(** The leading bytes of a small number are zero. *)
Lemma be_put_zero n v :
  0 <= v < 2 ^ (8 * Z.of_nat n) -> be_put (S n) v = uint8 0 :: be_put n v.
Proof.
  intros H. cbn [be_put]. f_equal. f_equal.
  rewrite Z.shiftr_div_pow2 by lia. by apply Z.div_small.
Qed.

Lemma be_put_sig n v :
  0 <= v < 2 ^ (8 * Z.of_nat n) ->
  be_put n v = replicate (n - sig_bytes n v) (uint8 0) ++ be_put (sig_bytes n v) v.
Proof.
  induction n as [|n IH]; intros H; [done|].
  cbn [sig_bytes]. destruct (Z.ltb_spec v (2 ^ (8 * Z.of_nat n))) as [Hlt|Hge].
  - rewrite be_put_zero by lia. rewrite IH by lia.
    pose proof (sig_bytes_le n v).
    by replace (S n - sig_bytes n v)%nat with (S (n - sig_bytes n v)) by lia.
  - by rewrite Nat.sub_diag.
Qed.

Lemma first_nonzero_zeros i n bs :
  first_nonzero i (replicate n (uint8 0) ++ bs) = first_nonzero (i + n) bs.
Proof.
  revert i; induction n as [|n IH]; intros i; [by rewrite Nat.add_0_r|].
  simpl. change (byte_val (uint8 0) =? 0) with true. cbn match.
  rewrite IH. f_equal. lia.
Qed.

Lemma first_nonzero_sig i n v :
  0 <= v < 2 ^ (8 * Z.of_nat n) ->
  first_nonzero i (be_put (sig_bytes n v) v) =
  match sig_bytes n v with O => None | S _ => Some i end.
Proof.
  intros H. destruct (sig_bytes_spec n v H) as [Hlt Hge].
  destruct (sig_bytes n v) as [|m]; [done|].
  specialize (Hge m eq_refl). cbn [be_put first_nonzero].
  rewrite byte_val_uint8, Z.shiftr_div_pow2 by lia.
  rewrite pow8_S in Hlt. pose proof (pow8_pos m).
  assert (1 <= v / 2 ^ (8 * Z.of_nat m)) by (apply Z.div_le_lower_bound; lia).
  assert (v / 2 ^ (8 * Z.of_nat m) < 256) by (apply Z.div_lt_upper_bound; lia).
  rewrite Z.mod_small by lia. by destruct (Z.eqb_spec (v / 2 ^ (8 * Z.of_nat m)) 0); [lia|].
Qed.

(** The code computes the reference encoding. *)
Lemma Encode_enc v : u64 v -> EncodeOrderPreservingVarUint64 v = Ok (enc v).
Proof.
  intros H. unfold EncodeOrderPreservingVarUint64, PutUint64, enc.
  assert (0 <= v < 2 ^ (8 * Z.of_nat 8)) as H8 by exact H.
  rewrite (be_put_sig 8 v H8) at 1. rewrite first_nonzero_zeros, first_nonzero_sig by done.
  pose proof (sig_bytes_le 8 v) as Hle.
  destruct (sig_bytes 8 v) as [|m] eqn:E.
  - done.
  - rewrite Nat.add_0_l. replace (8 - (8 - S m))%nat with (S m) by lia.
    rewrite EncodeVarint_small by lia. do 2 f_equal.
    rewrite (be_put_sig 8 v H8), E. rewrite drop_app_length' by (rewrite length_replicate; lia).
    rewrite take_ge by (rewrite length_be_put; lia). done.
Qed.

Lemma length_enc v : length (enc v) = S (sig_bytes 8 v).
Proof. unfold enc. simpl. by rewrite length_be_put. Qed.

Lemma Decode_enc v rest :
  u64 v -> DecodeOrderPreservingVarUint64 (enc v ++ rest) = Ok (v, length (enc v)).
Proof.
  intros H. assert (0 <= v < 2 ^ (8 * Z.of_nat 8)) as H8 by exact H.
  unfold DecodeOrderPreservingVarUint64. rewrite length_enc.
  pose proof (sig_bytes_le 8 v) as Hle. unfold enc.
  set (n := sig_bytes 8 v) in *.
  assert (byte_val (uint8 (Z.of_nat n)) = Z.of_nat n) as Eb.
  { rewrite byte_val_uint8. apply Z.mod_small. lia. }
  rewrite <- app_comm_cons, DecodeVarint_small by lia. rewrite Eb.
  rewrite int64_small by lia.
  destruct (Z.ltb_spec (Z.of_nat n) 0); [lia|].
  destruct (Z.ltb_spec 8 (Z.of_nat n)); [lia|]. cbn [orb].
  cbn [length]. rewrite length_app, length_be_put.
  destruct (Z.ltb_spec (Z.of_nat (S (n + length rest))) (Z.of_nat n + 1)); [lia|].
  rewrite Nat2Z.id. rewrite skipn_cons, drop_0. rewrite take_app_length' by (by rewrite length_be_put).
  unfold Uint64. rewrite be_get_zeros, be_get_put.
  destruct (sig_bytes_spec 8 v H8) as [Hlt _].
  rewrite Z.mul_0_l, Z.add_0_l. fold n in Hlt. by rewrite Z.mod_small by lia.
Qed.

(** Comparing two big-endian numbers of the same width compares the numbers. *)
Lemma be_put_compare n a b x y :
  bytes_compare (be_put n a ++ x) (be_put n b ++ y) =
  match a mod 2 ^ (8 * Z.of_nat n) ?= b mod 2 ^ (8 * Z.of_nat n) with
  | Eq => bytes_compare x y
  | c => c
  end.
Proof.
  induction n as [|n IH].
  - cbn [be_put app]. change (2 ^ (8 * Z.of_nat 0)) with 1. by rewrite !Z.mod_1_r.
  - cbn [be_put]. rewrite <- !app_comm_cons. cbn [bytes_compare].
    rewrite ascii_compare_val, IH, !mod_pow8_S.
    set (ha := byte_val (uint8 (Z.shiftr a _))). set (hb := byte_val (uint8 (Z.shiftr b _))).
    pose proof (pow8_pos n) as Hp.
    pose proof (Z.mod_pos_bound a _ Hp). pose proof (Z.mod_pos_bound b _ Hp).
    set (p := 2 ^ (8 * Z.of_nat n)) in *.
    destruct (Z.compare_spec ha hb) as [->|Hl|Hl].
    + by rewrite Zcompare_plus_compat.
    + assert (ha * p + a mod p < hb * p + b mod p) as Hc by nia.
      by apply Z.compare_lt_iff in Hc as ->.
    + assert (hb * p + b mod p < ha * p + a mod p) as Hc by nia.
      by apply Z.compare_gt_iff in Hc as ->.
Qed.

Lemma sig_bytes_mono a b :
  u64 a -> u64 b -> (sig_bytes 8 a < sig_bytes 8 b)%nat -> a < b.
Proof.
  intros Ha Hb Hlt.
  destruct (sig_bytes_spec 8 a Ha) as [Hla _]. destruct (sig_bytes_spec 8 b Hb) as [_ Hgb].
  destruct (sig_bytes 8 b) as [|m]; [lia|]. specialize (Hgb m eq_refl).
  assert (2 ^ (8 * Z.of_nat (sig_bytes 8 a)) <= 2 ^ (8 * Z.of_nat m)); [|lia].
  apply Z.pow_le_mono_r; lia.
Qed.

Lemma enc_compare a b x y :
  u64 a -> u64 b ->
  bytes_compare (enc a ++ x) (enc b ++ y) =
  match a ?= b with Eq => bytes_compare x y | c => c end.
Proof.
  intros Ha Hb. unfold enc. rewrite <- !app_comm_cons. cbn [bytes_compare].
  pose proof (sig_bytes_le 8 a). pose proof (sig_bytes_le 8 b).
  rewrite ascii_compare_val, !byte_val_uint8, !Z.mod_small by lia.
  rewrite Nat2Z.inj_compare.
  destruct (Nat.compare_spec (sig_bytes 8 a) (sig_bytes 8 b)) as [E|Hl|Hl].
  - rewrite E, be_put_compare. destruct (sig_bytes_spec 8 a Ha) as [Hla _].
    destruct (sig_bytes_spec 8 b Hb) as [Hlb _]. rewrite E in Hla.
    unfold u64 in *. by rewrite !Z.mod_small by lia.
  - apply sig_bytes_mono in Hl; [|done..]. by apply Z.compare_lt_iff in Hl as ->.
  - apply sig_bytes_mono in Hl; [|done..]. by apply Z.compare_gt_iff in Hl as ->.
Qed.

Global Arguments enc : simpl never.
Global Arguments EncodeOrderPreservingVarUint64 : simpl never.
Global Arguments DecodeOrderPreservingVarUint64 : simpl never.

End OrderPreserving.

(** ** Heights *)

Module Height.
Import OrderPreserving.

Record Height := NewHeight { BlockNum : Z; TxNum : Z }.

#[global] Instance Height_eq_dec : EqDecision Height.
Proof. solve_decision. Defined.

(** Both components are [uint64]s. *)
Definition height_ok (h : Height) : Prop := u64 (BlockNum h) /\ u64 (TxNum h).

Definition NewHeightFromBytes (b : bytes) : res (Height * nat) :=
  '(blockNum, n1) ← DecodeOrderPreservingVarUint64 b;
  '(txNum, n2) ← DecodeOrderPreservingVarUint64 (drop n1 b);
  Ok (NewHeight blockNum txNum, (n1 + n2)%nat).

Definition ToBytes (h : Height) : res bytes :=
  blockNumBytes ← EncodeOrderPreservingVarUint64 (BlockNum h);
  txNumBytes ← EncodeOrderPreservingVarUint64 (TxNum h);
  Ok (blockNumBytes ++ txNumBytes).

(** The difference of two [uint64]s wraps, and is then read as an [int]. *)
Definition Compare (h h1 : Height) : Z :=
  let sign res := if 0 <? res then 1 else -1 in
  if negb (BlockNum h =? BlockNum h1) then sign (int64 (BlockNum h - BlockNum h1))
  else if negb (TxNum h =? TxNum h1) then sign (int64 (TxNum h - TxNum h1))
  else 0.

(** A [*Height] that may be nil is an [option Height]. *)
Definition AreSame (h1 h2 : option Height) : bool :=
  match h1, h2 with
  | None, None => true
  | None, Some _ => false
  | Some _, None => false
  | Some h1, Some h2 => Compare h1 h2 =? 0
  end.

(** *** Properties *)

(** The order of heights the code means: block first, then transaction. *)
Definition height_compare (h h1 : Height) : comparison :=
  match BlockNum h ?= BlockNum h1 with
  | Eq => TxNum h ?= TxNum h1
  | c => c
  end.

Definition height_bytes (h : Height) : bytes := enc (BlockNum h) ++ enc (TxNum h).

Lemma ToBytes_ok h : height_ok h -> ToBytes h = Ok (height_bytes h).
Proof. intros [H1 H2]. unfold ToBytes. by rewrite !Encode_enc. Qed.

Lemma NewHeightFromBytes_ok h rest :
  height_ok h ->
  NewHeightFromBytes (height_bytes h ++ rest) = Ok (h, length (height_bytes h)).
Proof.
  intros [H1 H2]. unfold NewHeightFromBytes, height_bytes.
  rewrite <- app_assoc, Decode_enc by done. cbn.
  rewrite drop_app_length, Decode_enc by done. cbn.
  rewrite length_app. by destruct h.
Qed.

Lemma height_bytes_compare h1 h2 x y :
  height_ok h1 -> height_ok h2 ->
  bytes_compare (height_bytes h1 ++ x) (height_bytes h2 ++ y) =
  match height_compare h1 h2 with Eq => bytes_compare x y | c => c end.
Proof.
  intros [H1 H2] [H3 H4]. unfold height_bytes, height_compare.
  rewrite <- !app_assoc, enc_compare by done.
  destruct (_ ?= _); [|done..]. by rewrite enc_compare.
Qed.

(** [Compare] distinguishes heights exactly, whatever the overflow. *)
Lemma Compare_eq h h1 : Compare h h1 = 0 <-> h = h1.
Proof.
  unfold Compare. destruct h as [b t], h1 as [b1 t1]. cbn.
  destruct (Z.eqb_spec b b1) as [->|Hb]; cbn; [|split; [destruct (_ <? _); lia|congruence]].
  destruct (Z.eqb_spec t t1) as [->|Ht]; cbn; [done|].
  split; [destruct (_ <? _); lia|congruence].
Qed.

Lemma AreSame_iff o1 o2 : AreSame o1 o2 = true <-> o1 = o2.
Proof.
  destruct o1 as [h1|], o2 as [h2|]; cbn; try (split; congruence).
  rewrite Z.eqb_eq, Compare_eq. split; congruence.
Qed.

Definition sign_of (c : comparison) : Z :=
  match c with Eq => 0 | Lt => -1 | Gt => 1 end.

Lemma int64_diff_sign a b :
  u64 a -> u64 b -> a <> b -> Z.abs (a - b) < 2 ^ 63 ->
  (if 0 <? int64 (a - b) then 1 else -1) = sign_of (a ?= b).
Proof.
  unfold u64. intros Ha Hb Hne Hd. unfold int64, wrap64.
  destruct (Z.compare_spec a b) as [->|Hlt|Hgt]; [lia| |].
  - rewrite <- (Z_mod_plus_full (a - b) 1), Z.mul_1_l, Z.mod_small by lia.
    destruct (Z.ltb_spec (a - b + 2 ^ 64) (2 ^ 63)); [lia|].
    by destruct (Z.ltb_spec 0 (a - b + 2 ^ 64 - 2 ^ 64)); [lia|].
  - rewrite Z.mod_small by lia.
    destruct (Z.ltb_spec (a - b) (2 ^ 63)); [|lia].
    by destruct (Z.ltb_spec 0 (a - b)); [|lia].
Qed.

End Height.

(** ** Theorems *)

Module VersionTheorems.
Import OrderPreserving Height.

(** A height survives its encoding: the bytes of [ToBytes], whatever
    follows them, are decoded by [NewHeightFromBytes] to the same height, and
    the number of bytes consumed is their length. *)
Theorem height_bytes_roundtrip h :
  height_ok h ->
  exists b, ToBytes h = Ok b /\
    forall rest, NewHeightFromBytes (b ++ rest) = Ok (h, length b).
Proof.
  intros Hh. exists (height_bytes h). split; [by apply ToBytes_ok|].
  intros rest. by apply NewHeightFromBytes_ok.
Qed.

Lemma height_bytes_roundtrip_witness :
  exists b, ToBytes (NewHeight 300 (2 ^ 64 - 1)) = Ok b /\
    forall rest, NewHeightFromBytes (b ++ rest) = Ok (NewHeight 300 (2 ^ 64 - 1), length b).
Proof. apply height_bytes_roundtrip. split; unfold u64; cbn; lia. Defined.

(** The encoding keeps the order: the byte strings of two heights, with
    anything appended, compare as the heights do, block number first.  A scan
    over encoded heights is therefore in commit order. *)
Theorem height_bytes_ordered h1 h2 b1 b2 :
  height_ok h1 -> height_ok h2 -> ToBytes h1 = Ok b1 -> ToBytes h2 = Ok b2 -> h1 <> h2 ->
  forall x y, bytes_compare (b1 ++ x) (b2 ++ y) = height_compare h1 h2.
Proof.
  intros H1 H2. rewrite !ToBytes_ok by done. intros [= <-] [= <-] Hne x y.
  rewrite height_bytes_compare by done. destruct (height_compare h1 h2) eqn:E; [|done..].
  exfalso. apply Hne. unfold height_compare in E. destruct h1 as [a b], h2 as [c d]; cbn in E.
  destruct (Z.compare_spec a c) as [->|?|?]; try done. by apply Z.compare_eq in E as ->.
Qed.

Lemma height_bytes_ordered_witness :
  exists b1 b2, ToBytes (NewHeight 255 70000) = Ok b1 /\ ToBytes (NewHeight 256 0) = Ok b2 /\
    forall x y, bytes_compare (b1 ++ x) (b2 ++ y) = Lt.
Proof.
  eexists _, _. split; [reflexivity|]. split; [reflexivity|].
  apply (height_bytes_ordered (NewHeight 255 70000) (NewHeight 256 0)); try done;
    split; unfold u64; cbn; lia.
Defined.

(** [Compare] orders heights whose numbers are less than 2^63 apart, and
    only those: the difference of the block numbers is taken as an unsigned
    number and read as a signed one, so a height that is 2^63 blocks or more
    after another compares as the smaller of the two. *)
Theorem Compare_signed_difference h h1 :
  height_ok h -> height_ok h1 ->
  (Z.abs (BlockNum h - BlockNum h1) < 2 ^ 63 -> Z.abs (TxNum h - TxNum h1) < 2 ^ 63 ->
     Compare h h1 = sign_of (height_compare h h1)) /\
  (BlockNum h1 + 2 ^ 63 <= BlockNum h -> Compare h h1 = -1 /\ height_compare h h1 = Gt).
Proof.
  intros [Hb Ht] [Hb1 Ht1]. unfold Compare, height_compare. split.
  - intros Db Dt. destruct (Z.eqb_spec (BlockNum h) (BlockNum h1)) as [E|E]; cbn [negb].
    + rewrite E, Z.compare_refl. destruct (Z.eqb_spec (TxNum h) (TxNum h1)) as [E1|E1]; cbn [negb].
      * by rewrite E1, Z.compare_refl.
      * by apply int64_diff_sign.
    + rewrite int64_diff_sign by done. by destruct (Z.compare_spec (BlockNum h) (BlockNum h1)).
  - intros D. unfold u64 in *. rewrite (proj2 (Z.eqb_neq _ _)) by lia. cbn [negb].
    rewrite (proj2 (Z.compare_gt_iff _ _)) by lia. split; [|done].
    unfold int64, wrap64. rewrite Z.mod_small by lia.
    rewrite (proj2 (Z.ltb_ge _ (2 ^ 63))) by lia. by rewrite (proj2 (Z.ltb_ge 0 _)) by lia.
Qed.

Lemma Compare_signed_difference_witness :
  Compare (NewHeight 7 1) (NewHeight 7 3) = -1 /\ Compare (NewHeight (2 ^ 63) 0) (NewHeight 0 0) = -1.
Proof.
  split.
  - refine (proj1 (Compare_signed_difference (NewHeight 7 1) (NewHeight 7 3) _ _) _ _);
      try (by vm_compute); split; unfold u64; cbn; lia.
  - refine (proj1 (proj2 (Compare_signed_difference (NewHeight (2 ^ 63) 0) (NewHeight 0 0) _ _) _));
      try (by vm_compute); split; unfold u64; cbn; lia.
Defined.

End VersionTheorems.
