(* ===== verification/StateDB.v ===== *)
(** * The versioned state database

    The data of core/ledger/kvledger/txmgmt/statedb: versioned values, the
    update batch a block produces and its range iterator (statedb.go), the
    value encoding (util.go), and the [VersionedDB] interface as a type class
    with the contract its implementations keep. *)

From stdpp Require Import base gmap strings list sorting.
From Stdlib Require Import Ascii ZArith Lia.
From S2P Require Import Prelude Version.
Export Height(Height, NewHeight, BlockNum, TxNum, height_ok).

(** ** Data *)

(** Every value of the code carries a non-nil version; a nil [Value] marks a
    deletion. *)
Record VersionedValue := mkVV { Value : option bytes; Version : Height }.

(** [VersionedKV] embeds a [CompositeKey] and a [VersionedValue]. *)
Record VersionedKV := mkVKV { Namespace : string; Key : string; VV : VersionedValue }.

#[export] Instance VersionedValue_eq_dec : EqDecision VersionedValue.
Proof. solve_decision. Defined.
#[export] Instance VersionedKV_eq_dec : EqDecision VersionedKV.
Proof. solve_decision. Defined.

Module ValueCodec.

Definition EncodeValue (value : option bytes) (version : Height) : res bytes :=
  encodedValue ← Height.ToBytes version;
  match value with
  | Some v => Ok (encodedValue ++ v)
  | None => Ok encodedValue
  end.

(** The decoded value is a slice of the encoded one, so it is never nil. *)
Definition DecodeValue (encodedValue : bytes) : res (option bytes * Height) :=
  '(version, n) ← Height.NewHeightFromBytes encodedValue;
  Ok (Some (drop n encodedValue), version).

Lemma DecodeValue_bytes h v :
  height_ok h -> DecodeValue (Height.height_bytes h ++ v) = Ok (Some v, h).
Proof.
  intros H. unfold DecodeValue. rewrite Height.NewHeightFromBytes_ok by done.
  cbn. by rewrite drop_app_length.
Qed.

End ValueCodec.

(** ** Iterators *)

(** The [ResultsIterator] interface: [Next] returns nil when exhausted.
    [remaining] is not in the source: it bounds the number of results an
    iterator has left, and so the rounds of a caller's loop. *)
Class ResultsIterator (I : Type) := {
  Next : I -> res (option VersionedKV * I);
  remaining : I -> nat
}.

(** The contract of an iterator: [rest] is what it has yet to deliver, and
    [Next] delivers it in order, then nil for ever. *)
Class ResultsIteratorSpec (I : Type) `{ResultsIterator I} := {
  itr_ok : I -> Prop;
  rest : I -> list VersionedKV;
  Next_spec i : itr_ok i ->
    exists i', Next i = Ok (head (rest i), i') /\ itr_ok i' /\ rest i' = tail (rest i);
  remaining_spec i : itr_ok i -> length (rest i) <= remaining i
}.

(** ** Update batches *)

Module Batch.

(** [UpdateBatch.updates] maps a namespace to its [nsUpdates]. *)
Abbreviation nsUpdates := (gmap string VersionedValue).
Abbreviation UpdateBatch := (gmap string (gmap string VersionedValue)).

Definition NewUpdateBatch : UpdateBatch := ∅.

Definition Get (batch : UpdateBatch) (ns key : string) : option VersionedValue :=
  match batch !! ns with
  | None => None
  | Some nsu => nsu !! key
  end.

Definition getOrCreateNsUpdates (batch : UpdateBatch) (ns : string) : nsUpdates :=
  match batch !! ns with
  | Some nsu => nsu
  | None => ∅
  end.

Definition Put (batch : UpdateBatch) (ns key : string) (value : option bytes)
    (version : Height) : res UpdateBatch :=
  match value with
  | None => Panic "Nil value not allowed"
  | Some _ =>
      Ok (<[ns := <[key := mkVV value version]> (getOrCreateNsUpdates batch ns)]> batch)
  end.

Definition Delete (batch : UpdateBatch) (ns key : string) (version : Height) : UpdateBatch :=
  <[ns := <[key := mkVV None version]> (getOrCreateNsUpdates batch ns)]> batch.

Definition Exists (batch : UpdateBatch) (ns key : string) : bool :=
  match batch !! ns with
  | None => false
  | Some nsu => match nsu !! key with Some _ => true | None => false end
  end.

(** Go iterates over the map in an unspecified order. *)
Definition GetUpdatedNamespaces (batch : UpdateBatch) : list string :=
  (map_to_list batch).*1.

Definition GetUpdates (batch : UpdateBatch) (ns : string) : nsUpdates :=
  match batch !! ns with
  | None => ∅
  | Some nsu => nsu
  end.

(** *** The range iterator of a batch *)

Record nsIterator := mkNsIterator {
  itr_ns : string;
  itr_updates : nsUpdates;
  itr_sortedKeys : list string;
  itr_nextIndex : nat;
  itr_lastIndex : nat
}.

Definition newNsIterator (ns startKey endKey : string) (batch : UpdateBatch) : nsIterator :=
  match batch !! ns with
  | None => mkNsIterator "" ∅ [] 0 0
  | Some nsu =>
      let sortedKeys := GetSortedKeys nsu in
      let nextIndex :=
        if decide (startKey = "") then 0 else SearchStrings sortedKeys startKey in
      let lastIndex :=
        if decide (endKey = "") then length sortedKeys
        else SearchStrings sortedKeys endKey in
      mkNsIterator ns nsu sortedKeys nextIndex lastIndex
  end.

Definition GetRangeScanIterator (batch : UpdateBatch) (ns startKey endKey : string) : nsIterator :=
  newNsIterator ns startKey endKey batch.

Definition nsNext (itr : nsIterator) : res (option VersionedKV * nsIterator) :=
  if decide (itr_lastIndex itr <= itr_nextIndex itr) then Ok (None, itr)
  else
    match itr_sortedKeys itr !! itr_nextIndex itr with
    | None => Panic "index out of range"
    | Some key =>
        match itr_updates itr !! key with
        | None => Panic "nil pointer dereference"
        | Some vv =>
            Ok (Some (mkVKV (itr_ns itr) key (mkVV (Value vv) (Version vv))),
                mkNsIterator (itr_ns itr) (itr_updates itr) (itr_sortedKeys itr)
                  (S (itr_nextIndex itr)) (itr_lastIndex itr))
        end
    end.

#[global] Instance nsIterator_itr : ResultsIterator nsIterator := {
  Next := nsNext;
  remaining itr := itr_lastIndex itr - itr_nextIndex itr
}.

End Batch.

Export Batch(UpdateBatch).

(** ** Views

    A view is what a reader sees: the value of each key of each namespace.
    [overlay batch v] is the view once [batch] is applied to [v]. *)

Definition view_t : Type := string -> string -> option VersionedValue.

Definition live (vv : VersionedValue) : option VersionedValue :=
  match Value vv with Some _ => Some vv | None => None end.

Definition overlay (batch : UpdateBatch) (v : view_t) : view_t := fun ns key =>
  match Batch.Get batch ns key with
  | Some vv => live vv
  | None => v ns key
  end.

(** [startKey] is inclusive, [endKey] is exclusive, and empty means open. *)
Definition in_range (startKey endKey key : string) : Prop :=
  str_le startKey key /\ (endKey = "" \/ str_lt key endKey).

#[export] Instance in_range_dec s e k : Decision (in_range s e k).
Proof. unfold in_range. apply _. Defined.

Definition kv_lt (a b : VersionedKV) : Prop := str_lt (Key a) (Key b).

(** [is_scan v ns s e l]: [l] is the content of [v] at [ns] between [s] and
    [e], in key order. *)
Definition is_scan (v : view_t) (ns startKey endKey : string) (l : list VersionedKV) : Prop :=
  StronglySorted kv_lt l /\
  forall kv, kv ∈ l <->
    Namespace kv = ns /\ v ns (Key kv) = Some (VV kv) /\ in_range startKey endKey (Key kv).

(** *** Scans are determined by the view *)

Lemma kv_lt_sorted_unique (l1 l2 : list VersionedKV) :
  StronglySorted kv_lt l1 -> StronglySorted kv_lt l2 ->
  (forall kv, kv ∈ l1 <-> kv ∈ l2) -> l1 = l2.
Proof.
  intros H1. revert l2. induction H1 as [|a l1 H1 IH Hf]; intros l2 H2 He.
  - destruct l2 as [|b l2]; [done|]. exfalso. eapply not_elem_of_nil, (proj2 (He b)). left.
  - destruct H2 as [|b l2 H2 Hg]; [exfalso; eapply not_elem_of_nil, (proj1 (He a)); left|].
    rewrite Forall_forall in Hf, Hg.
    assert (a = b) as ->.
    { assert (a ∈ b :: l2) as Ha by (apply He; left).
      assert (b ∈ a :: l1) as Hb by (apply He; left).
      apply elem_of_cons in Ha as [->|Ha]; [done|].
      apply elem_of_cons in Hb as [->|Hb]; [done|].
      exfalso. apply (str_lt_irrefl (Key a)).
      etrans; [by apply (Hf b)|by apply (Hg a)]. }
    f_equal. apply IH; [done|]. intros kv.
    specialize (He kv). rewrite !elem_of_cons in He. split; intros Hkv.
    + destruct (proj1 He (or_intror Hkv)) as [->|]; [|done].
      by destruct (str_lt_irrefl (Key b)); apply (Hf b).
    + destruct (proj2 He (or_intror Hkv)) as [->|]; [|done].
      by destruct (str_lt_irrefl (Key b)); apply (Hg b).
Qed.

Lemma is_scan_unique v ns s e l1 l2 : is_scan v ns s e l1 -> is_scan v ns s e l2 -> l1 = l2.
Proof.
  intros [S1 E1] [S2 E2]. apply kv_lt_sorted_unique; [done..|].
  intros kv. by rewrite E1, E2.
Qed.

Lemma is_scan_ext v1 v2 ns s e l :
  (forall k, v1 ns k = v2 ns k) -> is_scan v1 ns s e l -> is_scan v2 ns s e l.
Proof. intros Hv [HS HE]. split; [done|]. intros kv. by rewrite HE, Hv. Qed.

(** ** Batch lemmas *)

Module BatchFacts.
Import Batch.

Lemma Get_insert (batch : UpdateBatch) ns key vv ns' key' :
  Get (<[ns := <[key := vv]> (getOrCreateNsUpdates batch ns)]> batch) ns' key' =
  if decide (ns = ns' /\ key = key') then Some vv else Get batch ns' key'.
Proof.
  unfold Get, getOrCreateNsUpdates. rewrite lookup_insert.
  destruct (decide (ns = ns')) as [->|Hn].
  - rewrite lookup_insert. destruct (decide (key = key')) as [->|Hk].
    + by rewrite decide_True.
    + rewrite decide_False by naive_solver. by destruct (batch !! ns').
  - by rewrite decide_False by naive_solver.
Qed.

Lemma Get_Put batch ns key v h b' ns' key' :
  Put batch ns key (Some v) h = Ok b' ->
  Get b' ns' key' =
  if decide (ns = ns' /\ key = key') then Some (mkVV (Some v) h) else Get batch ns' key'.
Proof. intros [= <-]. apply Get_insert. Qed.

Lemma Get_Delete batch ns key h ns' key' :
  Get (Delete batch ns key h) ns' key' =
  if decide (ns = ns' /\ key = key') then Some (mkVV None h) else Get batch ns' key'.
Proof. apply Get_insert. Qed.

Lemma Get_new ns key : Get NewUpdateBatch ns key = None.
Proof. done. Qed.

Lemma Exists_Get batch ns key : Exists batch ns key = true <-> is_Some (Get batch ns key).
Proof.
  unfold Exists, Get. destruct (batch !! ns) as [nsu|]; [destruct (nsu !! key)|];
    split; intros H; try done; try (by destruct H); eauto.
Qed.

Lemma Exists_false batch ns key : Exists batch ns key = false <-> Get batch ns key = None.
Proof.
  rewrite <- not_true_iff_false, Exists_Get. symmetry. apply eq_None_not_Some.
Qed.

Lemma GetUpdates_lookup batch ns key : GetUpdates batch ns !! key = Get batch ns key.
Proof. unfold GetUpdates, Get. by destruct (batch !! ns). Qed.

(** *** The batch iterator keeps its contract *)

Definition ns_itr_ok (i : nsIterator) : Prop :=
  itr_lastIndex i <= length (itr_sortedKeys i) /\
  forall k, k ∈ itr_sortedKeys i -> is_Some (itr_updates i !! k).

Definition ns_item (i : nsIterator) (k : string) : list VersionedKV :=
  match itr_updates i !! k with Some vv => [mkVKV (itr_ns i) k vv] | None => [] end.

Definition ns_rest (i : nsIterator) : list VersionedKV :=
  take (itr_lastIndex i - itr_nextIndex i) (drop (itr_nextIndex i) (itr_sortedKeys i))
    ≫= ns_item i.

Lemma nsNext_spec i :
  ns_itr_ok i ->
  exists i', nsNext i = Ok (head (ns_rest i), i') /\ ns_itr_ok i' /\ ns_rest i' = tail (ns_rest i).
Proof.
  intros [Hlen Hall]. unfold nsNext, ns_rest.
  destruct (decide _) as [Hle|Hgt].
  { exists i. replace (itr_lastIndex i - itr_nextIndex i) with 0 by lia. done. }
  destruct (lookup_lt_is_Some_2 (itr_sortedKeys i) (itr_nextIndex i)) as [k Hk]; [lia|].
  rewrite Hk. destruct (Hall k) as [vv Hvv]; [by eapply list_elem_of_lookup_2|].
  rewrite Hvv. rewrite (drop_S _ _ _ Hk).
  destruct (itr_lastIndex i - itr_nextIndex i) as [|n] eqn:En; [lia|].
  assert (ns_item i k = [mkVKV (itr_ns i) k vv]) as Hi by (unfold ns_item; by rewrite Hvv).
  cbn [take mbind list_bind]. rewrite Hi. destruct vv as [val ver].
  eexists. split; [done|]. split; [done|]. cbn.
  by replace (itr_lastIndex i - S (itr_nextIndex i)) with n by lia.
Qed.

Lemma length_ns_items i (ks : list string) : length (ks ≫= ns_item i) <= length ks.
Proof.
  induction ks as [|k ks IH]; [done|]. cbn. rewrite length_app.
  assert (length (ns_item i k) <= 1); [|lia]. unfold ns_item. destruct (_ !! k); cbn; lia.
Qed.

Lemma length_ns_rest i : length (ns_rest i) <= itr_lastIndex i - itr_nextIndex i.
Proof. etrans; [apply length_ns_items|]. rewrite length_take. lia. Qed.

#[export] Instance nsIterator_spec : ResultsIteratorSpec nsIterator := {
  itr_ok := ns_itr_ok;
  rest := ns_rest;
  Next_spec := nsNext_spec;
  remaining_spec i _ := length_ns_rest i
}.

Lemma ns_item_elem i k kv :
  kv ∈ ns_item i k <->
  Namespace kv = itr_ns i /\ Key kv = k /\ itr_updates i !! k = Some (VV kv).
Proof.
  unfold ns_item. destruct (itr_updates i !! k) as [vv|] eqn:E.
  - rewrite list_elem_of_singleton. destruct kv; cbn. split; [intros [= -> -> ->]; auto|].
    intros (-> & -> & [= ->]). done.
  - rewrite elem_of_nil. naive_solver.
Qed.

(** A slice of the sorted keys delivers sorted items. *)
Lemma ns_items_sorted i ks :
  sorted_keys ks -> StronglySorted kv_lt (ks ≫= ns_item i).
Proof.
  induction 1 as [|k ks Hs IH Hf]; [constructor|]. cbn.
  unfold ns_item at 1. destruct (itr_updates i !! k) as [vv|]; [|done]. cbn.
  constructor; [done|]. apply Forall_forall. rewrite Forall_forall in Hf. intros kv Hkv.
  apply list_elem_of_bind in Hkv as (k' & Hk' & Hin).
  apply ns_item_elem in Hk' as (_ & <- & _). by apply Hf.
Qed.

Lemma sorted_keys_sublist (l : list string) n m : sorted_keys l -> sorted_keys (take m (drop n l)).
Proof.
  intros H.
  apply StronglySorted_app_1_l with (l2 := drop m (drop n l)). rewrite take_drop.
  apply StronglySorted_app_1_r with (l1 := take n l). by rewrite take_drop.
Qed.

Lemma elem_of_slice (l : list string) n m k :
  k ∈ take (m - n) (drop n l) <-> exists i, n <= i < m /\ l !! i = Some k.
Proof.
  rewrite list_elem_of_lookup. split.
  - intros [i Hi]. apply lookup_take_Some in Hi as [Hi Hlt]. rewrite lookup_drop in Hi.
    exists (n + i). split; [lia|done].
  - intros (i & Hi & Hl). exists (i - n). apply lookup_take_Some.
    rewrite lookup_drop. replace (n + (i - n)) with i by lia. split; [done|lia].
Qed.

(** The view of the batch alone, deletions included. *)
Definition batch_view (batch : UpdateBatch) : view_t := Get batch.

Lemma newNsIterator_spec batch ns s e :
  let i := GetRangeScanIterator batch ns s e in
  ns_itr_ok i /\ is_scan (batch_view batch) ns s e (ns_rest i).
Proof.
  unfold GetRangeScanIterator, newNsIterator, is_scan, batch_view, Get.
  destruct (batch !! ns) as [nsu|] eqn:Ens; cbn.
  2: { split; [split; [done|]; intros k Hk; by apply elem_of_nil in Hk|].
       split; [constructor|]. intros kv. rewrite elem_of_nil. naive_solver. }
  set (ks := GetSortedKeys nsu). pose proof (GetSortedKeys_sorted nsu) as Hs. fold ks in Hs.
  set (n := if decide (s = "") then _ else _). set (m := if decide (e = "") then _ else _).
  assert (forall i k, ks !! i = Some k -> n <= i <-> str_le s k) as Hn.
  { intros i k Hi. unfold n. destruct (decide (s = "")) as [->|].
    - split; [intros _; apply str_le_empty|lia].
    - by apply SearchStrings_spec. }
  assert (forall i k, ks !! i = Some k -> i < m <-> e = "" \/ str_lt k e) as Hm.
  { intros i k Hi. unfold m. destruct (decide (e = "")) as [->|He].
    - apply lookup_lt_Some in Hi. naive_solver.
    - pose proof (SearchStrings_spec ks e i k Hs Hi). unfold str_lt.
      destruct (decide (str_le e k)); split; intros; try tauto; try lia.
      all: destruct (decide (SearchStrings ks e <= i)); try lia; tauto. }
  split.
  - split; cbn.
    + unfold m. case_decide; [done|]. apply SearchStrings_le.
    + intros k Hk. by apply elem_of_GetSortedKeys.
  - unfold ns_rest; cbn. split; [by apply ns_items_sorted, sorted_keys_sublist|].
    intros kv. rewrite list_elem_of_bind. setoid_rewrite ns_item_elem. cbn.
    setoid_rewrite elem_of_slice. unfold in_range. split.
    + intros (k & (Hns & <- & Hl) & i & [Hi1 Hi2] & Hk).
      split; [done|]. split; [done|]. split; [by eapply Hn|by eapply Hm].
    + intros (Hns & Hl & H1 & H2). exists (Key kv). split; [done|].
      assert (Key kv ∈ ks) as [i Hi]%list_elem_of_lookup.
      { apply elem_of_GetSortedKeys. eauto. }
      exists i. split; [|done]. split; [by eapply Hn|by eapply Hm].
Qed.

End BatchFacts.

(** ** Draining an iterator *)

Section Drain.
Context {I : Type} `{ResultsIteratorSpec I}.

(** The caller's loop: call [Next] until it returns nil. *)
Fixpoint drain (fuel : nat) (i : I) : res (list VersionedKV) :=
  match fuel with
  | O => OutOfFuel
  | S fuel' =>
      '(r, i') ← Next i;
      match r with
      | None => Ok []
      | Some kv => l ← drain fuel' i'; Ok (kv :: l)
      end
  end.

Lemma drain_rest fuel i : itr_ok i -> length (rest i) < fuel -> drain fuel i = Ok (rest i).
Proof.
  revert i; induction fuel as [|fuel IH]; intros i Hok Hf; [lia|].
  cbn [drain]. destruct (Next_spec i Hok) as (i' & -> & Hok' & Hr). cbn.
  destruct (rest i) as [|kv l] eqn:E; [done|]. cbn in *.
  rewrite IH by (rewrite ?Hr; done || lia). cbn. by rewrite Hr.
Qed.

End Drain.

(** ** The [VersionedDB] interface

    [Open] and [Close] are bookkeeping of the handle and have no counterpart. *)

Class VersionedDB (DB : Type) := {
  DBItr : Type;
  DBItr_itr :: ResultsIterator DBItr;
  GetState : DB -> string -> string -> res (option VersionedValue);
  GetStateMultipleKeys : DB -> string -> list string -> res (list (option VersionedValue));
  GetStateRangeScanIterator : DB -> string -> string -> string -> res DBItr;
  ExecuteQuery : DB -> string -> string -> res DBItr;
  ApplyUpdates : DB -> UpdateBatch -> Height -> res DB;
  GetLatestSavePoint : DB -> res (option Height);
  ValidateKey : DB -> string -> res unit
}.

(** A namespace is a chaincode name: not empty, no NUL byte. *)
Definition NUL : ascii := ascii_of_N 0.

Definition ns_ok (ns : string) : Prop := ns <> "" /\ NUL ∉ to_bytes ns.

#[export] Instance ns_ok_dec ns : Decision (ns_ok ns).
Proof. unfold ns_ok. apply _. Defined.

Definition batch_ok (batch : UpdateBatch) : Prop :=
  (forall ns, is_Some (batch !! ns) -> ns_ok ns) /\
  (forall ns key vv, Batch.Get batch ns key = Some vv -> height_ok (Version vv)).

(** What a database that has no I/O failure ([db_ok]) promises: reads and
    scans agree with one view, which only [ApplyUpdates] changes. *)
Class VersionedDBSpec (DB : Type) `{VersionedDB DB} := {
  DBItr_spec :: ResultsIteratorSpec DBItr;
  db_ok : DB -> Prop;
  view : DB -> view_t;
  savepoint : DB -> option Height;
  view_live db ns key vv : db_ok db -> ns_ok ns -> view db ns key = Some vv ->
    is_Some (Value vv) /\ height_ok (Version vv);
  GetState_spec db ns key : db_ok db -> ns_ok ns ->
    GetState db ns key = Ok (view db ns key);
  GetStateMultipleKeys_spec db ns keys : db_ok db -> ns_ok ns ->
    GetStateMultipleKeys db ns keys = Ok (view db ns <$> keys);
  GetStateRangeScanIterator_spec db ns s e : db_ok db -> ns_ok ns ->
    exists i, GetStateRangeScanIterator db ns s e = Ok i /\ itr_ok i /\
              is_scan (view db) ns s e (rest i);
  ApplyUpdates_spec db batch h : db_ok db -> batch_ok batch -> height_ok h ->
    exists db', ApplyUpdates db batch h = Ok db' /\ db_ok db' /\ savepoint db' = Some h /\
      forall ns key, ns_ok ns -> view db' ns key = overlay batch (view db) ns key;
  GetLatestSavePoint_spec db : db_ok db -> GetLatestSavePoint db = Ok (savepoint db);
  (** the check of a key looks at the key only *)
  ValidateKey_spec db db' key : ValidateKey db key = ValidateKey db' key
}.

(** ** Theorems *)

Module StateDBTheorems.
Import Batch BatchFacts.

(** Draining the range iterator of an update batch ends, without a panic,
    and delivers every update of the namespace whose key is in the range
    (deletions included), once, in key order. *)
Theorem batch_iterator_scan (batch : UpdateBatch) (ns startKey endKey : string) :
  let i := GetRangeScanIterator batch ns startKey endKey in
  exists l, drain (S (remaining i)) i = Ok l /\ is_scan (Get batch) ns startKey endKey l.
Proof.
  intros i. destruct (newNsIterator_spec batch ns startKey endKey) as [Hok Hs].
  exists (ns_rest i). split; [|done]. change (drain (S (remaining i)) i = Ok (rest i)). apply drain_rest; [done|].
  pose proof (length_ns_rest i). cbn. unfold i in *. lia.
Qed.

End StateDBTheorems.
