(* ===== verification/LevelDB.v ===== *)
(** * Logical databases over one leveldb

    common/ledger/util/leveldbhelper: the wrapper of a goleveldb store
    (leveldb_helper.go) and the provider that keeps several named databases
    in it by prefixing every key with the name (leveldb_provider.go).
    goleveldb itself is a parameter: the class [LevelDB] has the operations
    the code calls, [LevelDBSpec] their documented behaviour, and [MemStore]
    is a store that has it. *)

From stdpp Require Import base gmap strings list sorting.
From Stdlib Require Import Ascii ZArith Lia.
From S2P Require Import Prelude StateDB.

(** ** The store *)

(** The result of [leveldb.DB.Get]: [ErrNotFound] is told apart from the other
    errors. *)
Inductive get_result :=
| Found (value : bytes)
| ErrNotFound
| ErrOther (e : string).

(** The records of a [leveldb.Batch], in the order they were added. *)
Inductive batch_op :=
| BPut (key value : bytes)
| BDelete (key : bytes).

Class LevelDB (S : Type) := {
  It : Type;
  ldb_get : S -> bytes -> get_result;
  ldb_put : S -> bytes -> bytes -> res S;
  ldb_delete : S -> bytes -> res S;
  ldb_write : S -> list batch_op -> res S;
  (** [NewIterator(&Range{Start, Limit})]; nil is open *)
  ldb_iter : S -> option bytes -> option bytes -> It;
  (** [Next()], with [Key()] and [Value()] of the record it moved to *)
  it_next : It -> option (bytes * bytes * It);
  (** a bound on the records left; not an operation of the library, it only
      bounds the rounds of a caller's loop *)
  it_bound : It -> nat
}.

Definition apply_op (m : gmap bytes bytes) (op : batch_op) : gmap bytes bytes :=
  match op with
  | BPut k v => <[k := v]> m
  | BDelete k => delete k m
  end.

Definition apply_ops (ops : list batch_op) (m : gmap bytes bytes) : gmap bytes bytes :=
  foldl apply_op m ops.

Definition rec_lt (a b : bytes * bytes) : Prop := bytes_lt (a.1) (b.1).

Definition in_brange (start limit : option bytes) (k : bytes) : Prop :=
  match start with Some s => bytes_le s k | None => True end /\
  match limit with Some e => bytes_lt k e | None => True end.

#[export] Instance in_brange_dec s e k : Decision (in_brange s e k).
Proof. destruct s, e; unfold in_brange; apply _. Defined.

(** The records of [m] between [start] and [limit] in key order. *)
Definition is_bscan (m : gmap bytes bytes) (start limit : option bytes)
    (l : list (bytes * bytes)) : Prop :=
  StronglySorted rec_lt l /\
  forall k v, (k, v) ∈ l <-> m !! k = Some v /\ in_brange start limit k.

Class LevelDBSpec (S : Type) `{LevelDB S} := {
  store_ok : S -> Prop;
  contents : S -> gmap bytes bytes;
  it_rest : It -> list (bytes * bytes);
  ldb_get_spec s k : store_ok s ->
    ldb_get s k = match contents s !! k with Some v => Found v | None => ErrNotFound end;
  ldb_write_spec s ops : store_ok s ->
    exists s', ldb_write s ops = Ok s' /\ store_ok s' /\ contents s' = apply_ops ops (contents s);
  ldb_put_spec s k v : store_ok s ->
    exists s', ldb_put s k v = Ok s' /\ store_ok s' /\ contents s' = <[k := v]> (contents s);
  ldb_delete_spec s k : store_ok s ->
    exists s', ldb_delete s k = Ok s' /\ store_ok s' /\ contents s' = delete k (contents s);
  ldb_iter_spec s start limit : store_ok s ->
    is_bscan (contents s) start limit (it_rest (ldb_iter s start limit));
  it_next_nil i : it_rest i = [] -> it_next i = None;
  it_next_cons i k v l : it_rest i = (k, v) :: l ->
    exists i', it_next i = Some (k, v, i') /\ it_rest i' = l;
  it_bound_spec i : length (it_rest i) <= it_bound i
}.

(** ** A store in memory *)

Module MemStore.

Abbreviation MemStore := (gmap bytes bytes).

Definition mem_iter (m : MemStore) (start limit : option bytes) : list (bytes * bytes) :=
  filter (fun kv => in_brange start limit kv.1)
    (merge_sort (fun a b => bytes_le a.1 b.1) (map_to_list m)).

#[global] Instance MemStore_ldb : LevelDB MemStore := {
  It := list (bytes * bytes);
  ldb_get m k := match m !! k with Some v => Found v | None => ErrNotFound end;
  ldb_put m k v := Ok (<[k := v]> m);
  ldb_delete m k := Ok (delete k m);
  ldb_write m ops := Ok (apply_ops ops m);
  ldb_iter := mem_iter;
  it_next l := match l with [] => None | (k, v) :: l' => Some (k, v, l') end;
  it_bound l := length l
}.

Lemma rec_sort_sorted (l : list (bytes * bytes)) :
  NoDup (l.*1) -> StronglySorted rec_lt (merge_sort (fun a b => bytes_le a.1 b.1) l).
Proof.
  intros Hd.
  assert (NoDup ((merge_sort (fun a b => bytes_le a.1 b.1) l).*1)) as Hd'.
  { by rewrite merge_sort_Permutation. }
  assert (StronglySorted (fun a b : bytes * bytes => bytes_le a.1 b.1)
            (merge_sort (fun a b => bytes_le a.1 b.1) l)) as Hs.
  { apply StronglySorted_merge_sort.
    - intros a b c H1 H2. by etrans.
    - intros a b. apply (total bytes_le). }
  revert Hd'. induction Hs as [|a l' Hs IH Hf]; intros Hd'; [constructor|].
  cbn in Hd'. apply NoDup_cons in Hd' as [Hn Hd']. constructor; [auto|].
  apply Forall_forall. rewrite Forall_forall in Hf. intros b Hb.
  specialize (Hf b Hb). apply bytes_le_lt_eq in Hf as [|E]; [done|].
  destruct Hn. rewrite E. by apply list_elem_of_fmap_2.
Qed.

Lemma mem_iter_spec m start limit : is_bscan m start limit (mem_iter m start limit).
Proof.
  split.
  - apply StronglySorted_filter, rec_sort_sorted, NoDup_fst_map_to_list.
  - intros k v. unfold mem_iter. rewrite list_elem_of_filter, merge_sort_Permutation.
    rewrite elem_of_map_to_list. cbn. tauto.
Qed.

#[global] Instance MemStore_spec : LevelDBSpec MemStore.
Proof.
  refine {| store_ok := fun _ => True; contents := fun m => m;
            it_rest := (fun l => l) : It -> _ |}; cbn; eauto.
  - intros s start limit _. apply mem_iter_spec.
  - by intros [|] ?.
  - intros i k v l ->. eauto.
Defined.

End MemStore.

(** ** The wrapper: leveldb_helper.go

    [Open] and [Close] manage the handle of the store; [sync] only affects
    durability. *)

Section Wrapper.
Context {S : Type} `{LevelDB S}.

Definition DB_Get (db : S) (key : bytes) : res (option bytes) :=
  match ldb_get db key with
  | Found value => Ok (Some value)
  | ErrNotFound => Ok None
  | ErrOther e => Err e
  end.

Definition DB_Put (db : S) (key value : bytes) (sync : bool) : res S := ldb_put db key value.

Definition DB_Delete (db : S) (key : bytes) (sync : bool) : res S := ldb_delete db key.

Definition DB_GetIterator (db : S) (startKey endKey : option bytes) : It :=
  ldb_iter db startKey endKey.

Definition DB_WriteBatch (db : S) (batch : list batch_op) (sync : bool) : res S :=
  ldb_write db batch.

End Wrapper.

(** ** Splitting at a separator *)

(** [bytes.SplitN(s, sep, 2)] for a separator that is not empty: the parts
    before and after its first occurrence; a single part if it does not
    occur. *)
Fixpoint SplitN2 (s sep : bytes) : list bytes :=
  if decide (sep `prefix_of` s) then [[]; drop (length sep) s]
  else
    match s with
    | [] => [[]]
    | c :: s' =>
        match SplitN2 s' sep with
        | [a; b] => [c :: a; b]
        | _ => [s]
        end
    end.

Lemma SplitN2_NUL p s : NUL ∉ p -> SplitN2 (p ++ NUL :: s) [NUL] = [p; s].
Proof.
  induction p as [|c p IH]; intros Hp; cbn [SplitN2 app].
  - rewrite decide_True by (by exists s). done.
  - apply not_elem_of_cons in Hp as [Hc Hp].
    rewrite decide_False by (intros [t [= E]]; congruence). by rewrite IH.
Qed.

(** ** Named databases: leveldb_provider.go *)

Module Provider.
Section Provider.
Context {S : Type} `{LevelDB S}.

(** [h_db] is the content of the one store all handles share. *)
Record DBHandle := mkDBHandle { h_dbName : string; h_db : S }.

(** [leveldbhelper.UpdateBatch]: nil is a deletion *)
Abbreviation KVBatch := (gmap bytes (option bytes)).

Definition dbNameKeySep : bytes := [NUL].
Definition lastKeyIndicator : ascii := uint8 1.

Definition constructLevelKey (dbName : string) (key : bytes) : bytes :=
  (to_bytes dbName ++ dbNameKeySep) ++ key.

Definition retrieveAppKey (levelKey : bytes) : res bytes :=
  match SplitN2 levelKey dbNameKeySep !! 1 with
  | Some k => Ok k
  | None => Panic "index out of range"
  end.

Definition Get (h : DBHandle) (key : bytes) : res (option bytes) :=
  DB_Get (h_db h) (constructLevelKey (h_dbName h) key).

Definition Put (h : DBHandle) (key value : bytes) (sync : bool) : res DBHandle :=
  s ← DB_Put (h_db h) (constructLevelKey (h_dbName h) key) value sync;
  Ok (mkDBHandle (h_dbName h) s).

Definition Delete (h : DBHandle) (key : bytes) (sync : bool) : res DBHandle :=
  s ← DB_Delete (h_db h) (constructLevelKey (h_dbName h) key) sync;
  Ok (mkDBHandle (h_dbName h) s).

Definition NewUpdateBatch : KVBatch := ∅.

Definition batch_Put (batch : KVBatch) (key : bytes) (value : option bytes) : res KVBatch :=
  match value with
  | None => Panic "Nil value not allowed"
  | Some v => Ok (<[key := Some v]> batch)
  end.

Definition batch_Delete (batch : KVBatch) (key : bytes) : KVBatch := <[key := None]> batch.

(** One record of the leveldb batch for each entry of the map, in the order of
    the map iteration. *)
Definition level_op (dbName : string) (kv : bytes * option bytes) : batch_op :=
  let key := constructLevelKey dbName (kv.1) in
  match kv.2 with
  | None => BDelete key
  | Some v => BPut key v
  end.

Definition WriteBatch (h : DBHandle) (batch : KVBatch) (sync : bool) : res DBHandle :=
  let levelBatch := level_op (h_dbName h) <$> map_to_list batch in
  s ← DB_WriteBatch (h_db h) levelBatch sync;
  Ok (mkDBHandle (h_dbName h) s).

(** [eKey[len(eKey)-1] = lastKeyIndicator] *)
Definition set_last (bs : bytes) (c : ascii) : bytes := <[pred (length bs) := c]> bs.

Definition GetIterator (h : DBHandle) (startKey endKey : option bytes) : It :=
  let sKey := constructLevelKey (h_dbName h) (default [] startKey) in
  let eKey := constructLevelKey (h_dbName h) (default [] endKey) in
  let eKey := match endKey with None => set_last eKey lastKeyIndicator | Some _ => eKey end in
  DB_GetIterator (h_db h) (Some sKey) (Some eKey).

(** [Iterator.Next], with the wrapped [Key] and [Value]. *)
Definition itr_Next (i : It) : res (option (bytes * bytes * It)) :=
  match it_next i with
  | None => Ok None
  | Some (levelKey, value, i') => key ← retrieveAppKey levelKey; Ok (Some (key, value, i'))
  end.

End Provider.
Arguments DBHandle : clear implicits.
Arguments mkDBHandle {S} _ _.

(** *** Keys of different databases never meet *)

Definition name_ok (dbName : string) : Prop := NUL ∉ to_bytes dbName.

Lemma retrieveAppKey_construct n k :
  name_ok n -> retrieveAppKey (constructLevelKey n k) = Ok k.
Proof.
  intros Hn. unfold retrieveAppKey, constructLevelKey, dbNameKeySep.
  rewrite <- app_assoc. cbn. by rewrite SplitN2_NUL.
Qed.

Lemma NUL_split_inj (p1 p2 s1 s2 : bytes) :
  NUL ∉ p1 -> NUL ∉ p2 -> p1 ++ NUL :: s1 = p2 ++ NUL :: s2 -> p1 = p2 /\ s1 = s2.
Proof.
  intros H1 H2 E. assert ([p1; s1] = [p2; s2]) as [= -> ->]; [|done].
  by rewrite <- (SplitN2_NUL p1 s1), <- (SplitN2_NUL p2 s2), E.
Qed.

Lemma constructLevelKey_inj n1 n2 k1 k2 :
  name_ok n1 -> name_ok n2 ->
  constructLevelKey n1 k1 = constructLevelKey n2 k2 -> n1 = n2 /\ k1 = k2.
Proof.
  intros H1 H2. unfold constructLevelKey, dbNameKeySep. rewrite <- !app_assoc. cbn.
  intros [E ->]%NUL_split_inj; [|done..]. split; [by apply to_bytes_inj|done].
Qed.

Lemma constructLevelKey_compare n k1 k2 :
  bytes_compare (constructLevelKey n k1) (constructLevelKey n k2) = bytes_compare k1 k2.
Proof. apply bytes_compare_app. Qed.

(** *** Batches *)

Definition op_key (op : batch_op) : bytes := match op with BPut k _ | BDelete k => k end.
Definition op_val (op : batch_op) : option bytes :=
  match op with BPut _ v => Some v | BDelete _ => None end.

Lemma apply_op_lookup m op k :
  apply_op m op !! k = if decide (op_key op = k) then op_val op else m !! k.
Proof. destruct op; cbn; [apply lookup_insert|apply lookup_delete]. Qed.

Lemma apply_ops_other ops m k : k ∉ op_key <$> ops -> apply_ops ops m !! k = m !! k.
Proof.
  unfold apply_ops. revert m. induction ops as [|op ops IH]; intros m Hk; [done|].
  cbn in *. apply not_elem_of_cons in Hk as [Hne Hk].
  rewrite IH by done. rewrite apply_op_lookup. by rewrite decide_False by congruence.
Qed.

Lemma apply_ops_same ops m op :
  NoDup (op_key <$> ops) -> op ∈ ops -> apply_ops ops m !! op_key op = op_val op.
Proof.
  revert m. induction ops as [|op' ops IH]; intros m Hd Hin; [by apply elem_of_nil in Hin|].
  cbn in Hd. apply NoDup_cons in Hd as [Hn Hd].
  apply elem_of_cons in Hin as [->|Hin]; [|by apply (IH (apply_op m op'))].
  change (apply_ops (op' :: ops) m) with (apply_ops ops (apply_op m op')).
  rewrite apply_ops_other by done. rewrite apply_op_lookup. by rewrite decide_True.
Qed.

Lemma op_key_level_op n kv : op_key (level_op n kv) = constructLevelKey n kv.1.
Proof. unfold level_op. by destruct (kv.2). Qed.

Lemma op_val_level_op n kv : op_val (level_op n kv) = kv.2.
Proof. unfold level_op. by destruct (kv.2). Qed.

Lemma level_ops_keys n (l : list (bytes * option bytes)) :
  op_key <$> (level_op n <$> l) = constructLevelKey n <$> l.*1.
Proof. rewrite <- !list_fmap_compose. apply list_fmap_ext. intros i kv _. apply op_key_level_op. Qed.

Lemma level_ops_NoDup (n : string) (batch : gmap bytes (option bytes)) :
  name_ok n -> NoDup (op_key <$> (level_op n <$> map_to_list batch)).
Proof.
  intros Hn. rewrite level_ops_keys. apply NoDup_fmap_2; [|apply NoDup_fst_map_to_list].
  intros k1 k2 E. by apply (constructLevelKey_inj n n) in E as [_ ?].
Qed.

Section ProviderFacts.
Context {S : Type} `{LevelDBSpec S}.

Definition handle_ok (h : DBHandle S) : Prop := name_ok (h_dbName h) /\ store_ok (h_db h).

(** The logical database behind a handle. *)
Definition handle_view (h : DBHandle S) (k : bytes) : option bytes :=
  contents (h_db h) !! constructLevelKey (h_dbName h) k.

Lemma Get_spec h k : handle_ok h -> Get h k = Ok (handle_view h k).
Proof.
  intros [_ Hs]. unfold Get, DB_Get, handle_view. rewrite ldb_get_spec by done.
  by destruct (contents _ !! _).
Qed.

Lemma WriteBatch_spec h batch sync :
  handle_ok h ->
  exists h', WriteBatch h batch sync = Ok h' /\ handle_ok h' /\ h_dbName h' = h_dbName h /\
    (forall k, handle_view h' k = match batch !! k with Some v => v | None => handle_view h k end) /\
    (forall n s k, name_ok n -> n <> h_dbName h -> h_db h = s ->
       contents (h_db h') !! constructLevelKey n k = contents s !! constructLevelKey n k).
Proof.
  intros [Hn Hs]. unfold WriteBatch, DB_WriteBatch.
  destruct (ldb_write_spec (h_db h) (level_op (h_dbName h) <$> map_to_list batch) Hs)
    as (s' & -> & Hs' & Hc).
  eexists. split; [done|]. split; [done|]. split; [done|].
  unfold handle_view; cbn. rewrite Hc. split.
  - intros k. destruct (batch !! k) as [v|] eqn:E.
    + pose proof (level_ops_NoDup (h_dbName h) batch Hn) as Hd.
      pose proof (apply_ops_same _ (contents (h_db h)) (level_op (h_dbName h) (k, v)) Hd) as HH.
      rewrite op_key_level_op, op_val_level_op in HH. apply HH.
      apply list_elem_of_fmap_2. by apply elem_of_map_to_list.
    + apply apply_ops_other. rewrite level_ops_keys.
      intros (k' & Ek & Hin)%list_elem_of_fmap.
      apply constructLevelKey_inj in Ek as [_ <-]; [|done..].
      apply list_elem_of_fmap in Hin as ([k'' v] & -> & Hin).
      apply elem_of_map_to_list in Hin. cbn in *. congruence.
  - intros n s k Hn' Hne <-. apply apply_ops_other. rewrite level_ops_keys.
    intros (k' & Ek & Hin)%list_elem_of_fmap.
    apply constructLevelKey_inj in Ek as [-> _]; done.
Qed.

End ProviderFacts.

(** *** Range scans stay inside a database *)

Lemma between_prefix (p a b k : bytes) :
  bytes_le (p ++ a) k -> bytes_lt k (p ++ b) ->
  exists c, k = p ++ c /\ bytes_le a c /\ bytes_lt c b.
Proof.
  revert k. induction p as [|x p IH]; intros k; [by exists k|].
  unfold bytes_le, bytes_lt. destruct k as [|y k]; [done|]. cbn.
  rewrite !ascii_compare_val, (Z.compare_antisym (byte_val x)).
  destruct (Z.compare_spec (byte_val x) (byte_val y)) as [E|Hlt|Hgt]; cbn; try done.
  intros H1 H2. apply byte_val_inj in E as ->.
  destruct (IH k H1 H2) as (c & -> & ? & ?). by exists c.
Qed.

Lemma between_last (n s k : bytes) :
  bytes_le (n ++ NUL :: s) k -> bytes_lt k (n ++ [lastKeyIndicator]) ->
  exists c, k = n ++ NUL :: c /\ bytes_le s c.
Proof.
  intros H1 H2. destruct (between_prefix n _ _ k H1 H2) as (c & -> & H3 & H4).
  destruct c as [|x c]; [done|].
  assert (x = NUL) as ->.
  { unfold bytes_lt in H4. cbn in H4. rewrite ascii_compare_val in H4.
    apply byte_val_inj. change (byte_val NUL) with 0%Z.
    change (byte_val lastKeyIndicator) with 1%Z in H4. pose proof (byte_val_range x).
    destruct (Z.compare_spec (byte_val x) 1); [by destruct c|lia|done]. }
  exists c. split; [done|]. unfold bytes_le in *. by cbn in H3.
Qed.

Lemma before_last (n c : bytes) : bytes_lt (n ++ NUL :: c) (n ++ [lastKeyIndicator]).
Proof. unfold bytes_lt. by rewrite bytes_compare_app. Qed.

Lemma set_last_level n c : set_last (constructLevelKey n []) c = to_bytes n ++ [c].
Proof.
  unfold set_last, constructLevelKey, dbNameKeySep. rewrite app_nil_r, length_app. cbn.
  replace (pred (length (to_bytes n) + 1)) with (length (to_bytes n) + 0) by lia.
  by rewrite insert_app_r.
Qed.

Section IteratorFacts.
Context {S : Type} `{LevelDBSpec S}.

(** The records of a logical database between two of its keys. *)
Definition is_hscan (h : DBHandle S) (s e : option bytes) (l : list (bytes * bytes)) : Prop :=
  StronglySorted rec_lt l /\
  forall k v, (k, v) ∈ l <-> handle_view h k = Some v /\ in_brange s e k.

Definition at_level (n : string) (kv : bytes * bytes) : bytes * bytes :=
  (constructLevelKey n kv.1, kv.2).

(** The upper bound [GetIterator] passes to the store. *)
Definition level_end (n : string) (e : option bytes) : bytes :=
  match e with
  | None => set_last (constructLevelKey n (default [] e)) lastKeyIndicator
  | Some _ => constructLevelKey n (default [] e)
  end.

Lemma level_range n s e k :
  in_brange (Some (constructLevelKey n (default [] s))) (Some (level_end n e)) k <->
  exists c, k = constructLevelKey n c /\ in_brange s e c.
Proof.
  unfold in_brange, level_end. destruct e as [e|]; cbn [default].
  - split.
    + intros [H1 H2]. destruct (between_prefix _ _ _ _ H1 H2) as (c & -> & H3 & H4).
      exists c. split; [done|]. split; [by destruct s|done].
    + intros (c & -> & H1 & H2). unfold bytes_le, bytes_lt.
      rewrite !constructLevelKey_compare. split; [by destruct s, c|done].
  - change (default [] None) with (@nil ascii). rewrite set_last_level.
    unfold constructLevelKey, dbNameKeySep. split.
    + rewrite <- app_assoc. intros [H1 H2].
      destruct (between_last _ _ _ H1 H2) as (c & -> & H3).
      exists c. rewrite <- app_assoc. split; [done|]. by destruct s.
    + intros (c & -> & H1 & _). rewrite <- !app_assoc. split; [|apply before_last].
      unfold bytes_le. rewrite bytes_compare_app. cbn. by destruct s, c.
Qed.

Lemma at_level_sorted n l :
  StronglySorted rec_lt (at_level n <$> l) -> StronglySorted rec_lt l.
Proof.
  induction l as [|a l IH]; intros Hs; [constructor|].
  inversion_clear Hs as [|?? Hs' Hf]. constructor; [auto|].
  rewrite Forall_fmap in Hf. eapply Forall_impl; [exact Hf|].
  intros b. unfold rec_lt, bytes_lt. cbn. by rewrite constructLevelKey_compare.
Qed.

Lemma at_level_all n R :
  Forall (fun kv : bytes * bytes => exists c, kv.1 = constructLevelKey n c) R ->
  exists l, R = at_level n <$> l.
Proof.
  induction 1 as [|[k v] R (c & Ec) _ [l ->]]; [by exists []|].
  cbn in Ec. subst k. by exists ((c, v) :: l).
Qed.

Lemma at_level_elem n k v (l : list (bytes * bytes)) :
  name_ok n -> (constructLevelKey n k, v) ∈ at_level n <$> l <-> (k, v) ∈ l.
Proof.
  intros Hn. rewrite list_elem_of_fmap. split.
  - intros ([k' v'] & [= Ek ->] & Hin). cbn in Ek.
    apply constructLevelKey_inj in Ek as [_ ->]; done.
  - intros Hin. by exists (k, v).
Qed.

Lemma GetIterator_spec h s e :
  handle_ok h ->
  exists l, it_rest (GetIterator h s e) = at_level (h_dbName h) <$> l /\ is_hscan h s e l.
Proof.
  intros [Hn Hs].
  destruct (ldb_iter_spec (h_db h) (Some (constructLevelKey (h_dbName h) (default [] s)))
    (Some (level_end (h_dbName h) e)) Hs) as [Hsort Hin].
  change (ldb_iter _ _ _) with (GetIterator h s e) in Hsort, Hin.
  setoid_rewrite level_range in Hin.
  destruct (at_level_all (h_dbName h) (it_rest (GetIterator h s e))) as [l El].
  { apply Forall_forall. intros [k v] Hkv. apply Hin in Hkv as (_ & c & -> & _). by exists c. }
  exists l. rewrite El in *. split; [done|]. split; [by eapply at_level_sorted|].
  intros k v. rewrite <- (at_level_elem (h_dbName h)), Hin by done. unfold handle_view.
  split; intros [Hl Hr]; split; try done.
  - destruct Hr as (c & Ec & Hr). by apply constructLevelKey_inj in Ec as [_ <-].
  - by exists k.
Qed.

Lemma itr_Next_nil i : it_rest i = [] -> itr_Next i = Ok None.
Proof. intros E. unfold itr_Next. by rewrite it_next_nil. Qed.

Lemma itr_Next_cons i n k v l :
  name_ok n -> it_rest i = at_level n <$> (k, v) :: l ->
  exists i', itr_Next i = Ok (Some (k, v, i')) /\ it_rest i' = at_level n <$> l.
Proof.
  intros Hn E. unfold itr_Next. destruct (it_next_cons i _ _ _ E) as (i' & -> & Hr).
  exists i'. by rewrite retrieveAppKey_construct.
Qed.

End IteratorFacts.
End Provider.

(** ** Theorems *)

Module LevelDBTheorems.
Import Provider.

(** Named databases in one store do not interfere.  After [WriteBatch] on
    a handle, [Get] on that handle sees the batch over the old content, and
    [Get] on a handle of any other name sees what it saw before. *)
Theorem named_databases_isolated {S : Type} `{LevelDBSpec S} (h : DBHandle S) batch sync :
  handle_ok h ->
  exists h', WriteBatch h batch sync = Ok h' /\ handle_ok h' /\ h_dbName h' = h_dbName h /\
    (forall k, Get h' k = match batch !! k with Some v => Ok v | None => Get h k end) /\
    (forall n k, name_ok n -> n <> h_dbName h ->
       Get (mkDBHandle n (h_db h')) k = Get (mkDBHandle n (h_db h)) k).
Proof.
  intros Hok. destruct (WriteBatch_spec h batch sync Hok) as (h' & E & Hok' & Hn & Hv & Ho).
  exists h'. split; [done|]. split; [done|]. split; [done|]. split.
  - intros k. rewrite !Get_spec, Hv by done. by destruct (batch !! k).
  - intros n k Hname Hne. destruct Hok as [_ Hs], Hok' as [_ Hs'].
    rewrite !Get_spec by done. unfold handle_view. cbn. f_equal. by apply Ho.
Qed.

Lemma named_databases_isolated_witness :
  exists h', WriteBatch (mkDBHandle "a" (∅ : MemStore.MemStore)) {[ to_bytes "k" := Some (to_bytes "v") ]} true = Ok h' /\
    Get h' (to_bytes "k") = Ok (Some (to_bytes "v")) /\
    Get (mkDBHandle "b" (h_db h')) (to_bytes "k") = Ok None.
Proof.
  assert (forall n, bool_decide (NUL ∉ to_bytes n) = true -> name_ok n) as Hname
    by (intros n; apply bool_decide_eq_true).
  destruct (named_databases_isolated (mkDBHandle "a" (∅ : MemStore.MemStore))
    {[ to_bytes "k" := Some (to_bytes "v") ]} true) as (h' & E & _ & _ & Hk & Ho).
  { split; [by apply Hname|done]. }
  exists h'. split; [done|]. split; [by rewrite Hk|].
  rewrite Ho; [by vm_compute|by apply Hname|done].
Defined.

End LevelDBTheorems.
