(* ===== verification/StateLevelDB.v ===== *)
(** * The leveldb state database

    core/ledger/kvledger/txmgmt/statedb/stateleveldb/stateleveldb.go: a
    [VersionedDB] in a logical leveldb.  The theorems show that it keeps the
    contract [VersionedDBSpec], so that whatever is proved of the validator
    and the transaction manager against the contract holds of this
    implementation. *)

From stdpp Require Import base gmap strings list sorting.
From Stdlib Require Import Ascii ZArith Lia.
From S2P Require Import Prelude Version StateDB LevelDB.

Module StateLevelDB.
Import Provider.

Definition compositeKeySep : bytes := [NUL].
Definition savePointKey : bytes := [NUL].

Definition constructCompositeKey (ns key : string) : bytes :=
  (to_bytes ns ++ compositeKeySep) ++ to_bytes key.

Definition splitCompositeKey (compositeKey : bytes) : res (string * string) :=
  let split := SplitN2 compositeKey compositeKeySep in
  match split !! 0, split !! 1 with
  | Some a, Some b => Ok (to_string a, to_string b)
  | _, _ => Panic "index out of range"
  end.

Section VersionedDB.
Context {S : Type} `{LevelDB S}.

(** [versionedDB.dbName] repeats the name in the handle. *)
Abbreviation versionedDB := (DBHandle S).

Definition GetState (vdb : versionedDB) (namespace key : string) : res (option VersionedValue) :=
  let compositeKey := constructCompositeKey namespace key in
  dbVal ← Provider.Get vdb compositeKey;
  match dbVal with
  | None => Ok None
  | Some dbVal =>
      '(val, ver) ← ValueCodec.DecodeValue dbVal;
      Ok (Some (mkVV val ver))
  end.

Definition GetStateMultipleKeys (vdb : versionedDB) (namespace : string) (keys : list string)
    : res (list (option VersionedValue)) :=
  mapM_res (GetState vdb namespace) keys.

Record kvScanner := mkKVScanner { sc_namespace : string; sc_dbItr : It }.

Definition GetStateRangeScanIterator (vdb : versionedDB) (namespace startKey endKey : string)
    : res kvScanner :=
  let compositeStartKey := constructCompositeKey namespace startKey in
  let compositeEndKey := constructCompositeKey namespace endKey in
  let compositeEndKey :=
    if decide (endKey = "") then set_last compositeEndKey lastKeyIndicator
    else compositeEndKey in
  let dbItr := Provider.GetIterator vdb (Some compositeStartKey) (Some compositeEndKey) in
  Ok (mkKVScanner namespace dbItr).

Definition ExecuteQuery (vdb : versionedDB) (namespace query : string) : res kvScanner :=
  Err "ExecuteQuery not supported for leveldb".

(** The body of the inner loop of [ApplyUpdates]. *)
Definition apply_update (ns : string) (dbBatch : gmap bytes (option bytes))
    (kv : string * VersionedValue) : res (gmap bytes (option bytes)) :=
  let '(k, vv) := kv in
  let compositeKey := constructCompositeKey ns k in
  match Value vv with
  | None => Ok (batch_Delete dbBatch compositeKey)
  | Some _ =>
      e ← ValueCodec.EncodeValue (Value vv) (Version vv);
      batch_Put dbBatch compositeKey (Some e)
  end.

Definition ApplyUpdates (vdb : versionedDB) (batch : UpdateBatch) (height : Height)
    : res versionedDB :=
  let namespaces := Batch.GetUpdatedNamespaces batch in
  dbBatch ← foldM (fun dbBatch ns =>
      let updates := Batch.GetUpdates batch ns in
      foldM (apply_update ns) dbBatch (map_to_list updates))
    NewUpdateBatch namespaces;
  heightBytes ← Height.ToBytes height;
  dbBatch ← batch_Put dbBatch savePointKey (Some heightBytes);
  Provider.WriteBatch vdb dbBatch true.

Definition GetLatestSavePoint (vdb : versionedDB) : res (option Height) :=
  versionBytes ← Provider.Get vdb savePointKey;
  match versionBytes with
  | None => Ok None
  | Some versionBytes =>
      '(version, _) ← Height.NewHeightFromBytes versionBytes;
      Ok (Some version)
  end.

Definition ValidateKey (vdb : versionedDB) (key : string) : res unit := Ok tt.

(** What [kvScanner.Next] makes of one record. *)
Definition scan_record (namespace : string) (dbKey dbVal : bytes) : res VersionedKV :=
  '(_, key) ← splitCompositeKey dbKey;
  '(value, version) ← ValueCodec.DecodeValue dbVal;
  Ok (mkVKV namespace key (mkVV value version)).

Definition kvScanner_Next (scanner : kvScanner) : res (option VersionedKV * kvScanner) :=
  r ← itr_Next (sc_dbItr scanner);
  match r with
  | None => Ok (None, scanner)
  | Some (dbKey, dbVal, i') =>
      kv ← scan_record (sc_namespace scanner) dbKey dbVal;
      Ok (Some kv, mkKVScanner (sc_namespace scanner) i')
  end.

#[global] Instance kvScanner_itr : ResultsIterator kvScanner := {
  Next := kvScanner_Next;
  remaining scanner := it_bound (sc_dbItr scanner)
}.

#[global] Instance stateleveldb : VersionedDB versionedDB := {
  DBItr := kvScanner;
  StateDB.GetState := GetState;
  StateDB.GetStateMultipleKeys := GetStateMultipleKeys;
  StateDB.GetStateRangeScanIterator := GetStateRangeScanIterator;
  StateDB.ExecuteQuery := ExecuteQuery;
  StateDB.ApplyUpdates := ApplyUpdates;
  StateDB.GetLatestSavePoint := GetLatestSavePoint;
  StateDB.ValidateKey := ValidateKey
}.

End VersionedDB.
Arguments kvScanner S {_}.

(** ** Composite keys *)

Lemma constructCompositeKey_level ns key :
  constructCompositeKey ns key = constructLevelKey ns (to_bytes key).
Proof. done. Qed.

Lemma to_string_bytes key : to_string (to_bytes key) = key.
Proof. apply String.string_of_list_ascii_of_string. Qed.

Lemma to_bytes_string b : to_bytes (to_string b) = b.
Proof. apply String.list_ascii_of_string_of_list_ascii. Qed.

Lemma splitCompositeKey_construct ns b :
  ns_ok ns -> splitCompositeKey (constructLevelKey ns b) = Ok (ns, to_string b).
Proof.
  intros [_ Hn]. unfold splitCompositeKey, constructLevelKey, dbNameKeySep.
  rewrite <- app_assoc. cbn [app]. rewrite SplitN2_NUL by done. cbn.
  by rewrite to_string_bytes.
Qed.

Lemma constructCompositeKey_inj ns1 ns2 k1 k2 :
  ns_ok ns1 -> ns_ok ns2 ->
  constructCompositeKey ns1 k1 = constructCompositeKey ns2 k2 -> ns1 = ns2 /\ k1 = k2.
Proof.
  intros [_ H1] [_ H2]. rewrite !constructCompositeKey_level.
  intros [-> E]%constructLevelKey_inj; [|done..]. split; [done|by apply to_bytes_inj].
Qed.

Lemma compositeKey_savePoint ns key : ns_ok ns -> constructCompositeKey ns key <> savePointKey.
Proof.
  intros [Hne _] E. apply Hne. unfold constructCompositeKey, savePointKey, compositeKeySep in E.
  destruct ns as [|c ns]; [done|]. cbn in E. by destruct (to_bytes ns).
Qed.

(** The order of composite keys of one namespace is the order of the keys. *)
Lemma bytes_le_str s1 s2 : bytes_le (to_bytes s1) (to_bytes s2) <-> str_le s1 s2.
Proof.
  unfold bytes_le, String.le, String.leb. rewrite bytes_compare_string.
  by destruct (String.compare s1 s2); cbn; split.
Qed.

Lemma bytes_lt_str s1 s2 : bytes_lt (to_bytes s1) (to_bytes s2) <-> str_lt s1 s2.
Proof.
  unfold bytes_lt. rewrite bytes_compare_string.
  destruct (str_compare_spec s1 s2) as [->|Hlt|Hgt].
  - split; [done|]. intros ?. by destruct (str_lt_irrefl s2).
  - done.
  - split; [done|]. intros ?. destruct (str_lt_irrefl s1). by etrans.
Qed.

(** ** The contract *)

Section Contract.
Context {S : Type} `{LevelDBSpec S}.

(** The bytes stored for a live value, and the batch entry for an update. *)
Definition stored (bs : bytes) : Prop := exists h v, height_ok h /\ bs = Height.height_bytes h ++ v.

Definition entry (vv : VersionedValue) : option bytes :=
  match Value vv with
  | None => None
  | Some v => Some (Height.height_bytes (Version vv) ++ v)
  end.

Definition decoded (bs : bytes) : option VersionedValue :=
  match ValueCodec.DecodeValue bs with
  | Ok (val, ver) => Some (mkVV val ver)
  | _ => None
  end.

Definition vdb_view (vdb : DBHandle S) : view_t := fun ns key =>
  handle_view vdb (constructCompositeKey ns key) ≫= decoded.

Definition vdb_savepoint (vdb : DBHandle S) : option Height :=
  match handle_view vdb savePointKey with
  | Some bs => match Height.NewHeightFromBytes bs with Ok (h, _) => Some h | _ => None end
  | None => None
  end.

Record vdb_ok (vdb : DBHandle S) : Prop := {
  vdb_handle : handle_ok vdb;
  vdb_stored ns key bs : ns_ok ns ->
    handle_view vdb (constructCompositeKey ns key) = Some bs -> stored bs;
  vdb_point bs : handle_view vdb savePointKey = Some bs ->
    exists h, height_ok h /\ bs = Height.height_bytes h
}.

Lemma DecodeValue_stored bs :
  stored bs -> exists v h, height_ok h /\ ValueCodec.DecodeValue bs = Ok (Some v, h).
Proof. intros (h & v & Hh & ->). exists v, h. by rewrite ValueCodec.DecodeValue_bytes. Qed.

Lemma vdb_GetState vdb ns key :
  vdb_ok vdb -> ns_ok ns -> GetState vdb ns key = Ok (vdb_view vdb ns key).
Proof.
  intros Hok Hns. unfold GetState, vdb_view, decoded.
  rewrite Get_spec by apply Hok. cbn.
  destruct (handle_view _ _) as [bs|] eqn:E; [|done]. cbn.
  destruct (DecodeValue_stored bs) as (v & h & _ & ->); [by eapply vdb_stored|]. done.
Qed.

Lemma vdb_view_live vdb ns key vv :
  vdb_ok vdb -> ns_ok ns -> vdb_view vdb ns key = Some vv ->
  is_Some (Value vv) /\ height_ok (Version vv).
Proof.
  intros Hok Hns. unfold vdb_view, decoded.
  destruct (handle_view _ _) as [bs|] eqn:E; [|done]. cbn.
  destruct (DecodeValue_stored bs) as (v & h & Hh & ->); [by eapply vdb_stored|].
  intros [= <-]. cbn. eauto.
Qed.

(** *** The batch that [ApplyUpdates] writes *)

Definition ns_entries (ns : string) (kvs : list (string * VersionedValue))
    : list (bytes * option bytes) :=
  (fun kv => (constructCompositeKey ns kv.1, entry kv.2)) <$> kvs.

Definition add_entry (b : gmap bytes (option bytes)) (e : bytes * option bytes) :=
  <[e.1 := e.2]> b.

Lemma apply_update_ok ns b k vv :
  height_ok (Version vv) ->
  apply_update ns b (k, vv) = Ok (add_entry b (constructCompositeKey ns k, entry vv)).
Proof.
  intros Hh. unfold apply_update, entry, ValueCodec.EncodeValue.
  destruct (Value vv); [|done]. by rewrite Height.ToBytes_ok.
Qed.

Lemma apply_ns_ok ns b kvs :
  Forall (fun kv : string * VersionedValue => height_ok (Version kv.2)) kvs ->
  foldM (apply_update ns) b kvs = Ok (foldl add_entry b (ns_entries ns kvs)).
Proof.
  intros Hf. rewrite (foldM_foldl _ (fun b kv => add_entry b (constructCompositeKey ns kv.1, entry kv.2))).
  - unfold ns_entries. by rewrite foldl_fmap.
  - intros b' [k vv] Hin. apply apply_update_ok. rewrite Forall_forall in Hf. by apply (Hf (k, vv)).
Qed.

Definition batch_entries (batch : UpdateBatch) : list (bytes * option bytes) :=
  Batch.GetUpdatedNamespaces batch ≫= fun ns => ns_entries ns (map_to_list (Batch.GetUpdates batch ns)).

Lemma apply_all_ok batch nss b :
  batch_ok batch ->
  foldM (fun b ns => foldM (apply_update ns) b (map_to_list (Batch.GetUpdates batch ns))) b nss =
  Ok (foldl add_entry b (nss ≫= fun ns => ns_entries ns (map_to_list (Batch.GetUpdates batch ns)))).
Proof.
  intros [_ Hh]. revert b. induction nss as [|ns nss IH]; intros b; [done|].
  cbn [foldM]. rewrite apply_ns_ok.
  - cbn. rewrite IH. by rewrite foldl_app.
  - apply Forall_forall. intros [k vv] Hin%elem_of_map_to_list. cbn.
    rewrite BatchFacts.GetUpdates_lookup in Hin. by eapply Hh.
Qed.

Lemma foldl_add_entry (l : list (bytes * option bytes)) b k v :
  NoDup (l.*1) ->
  (foldl add_entry b l) !! k = Some v <->
  (k, v) ∈ l \/ (~ (k ∈ (l.*1)) /\ b !! k = Some v).
Proof.
  revert b. induction l as [|[k' v'] l IH]; intros b Hd.
  - cbn. rewrite elem_of_nil. set_solver.
  - cbn in Hd. apply NoDup_cons in Hd as [Hn Hd]. cbn [foldl]. rewrite IH by done.
    unfold add_entry at 1. cbn [fst snd fmap list_fmap].
    rewrite elem_of_cons, not_elem_of_cons. destruct (decide (k' = k)) as [->|Hne].
    + rewrite lookup_insert_eq. split.
      * intros [Hin|[_ [= ->]]]; [|by left; left].
        destruct Hn. by apply (list_elem_of_fmap_2 fst _ (k, v)).
      * intros [[[= ->]|Hin]|[[? _] _]]; [by right|by left|done].
    + rewrite lookup_insert_ne by done. naive_solver.
Qed.

Lemma batch_entries_elem batch e vo :
  batch_ok batch ->
  (e, vo) ∈ batch_entries batch <->
  exists ns k vv, Batch.Get batch ns k = Some vv /\ e = constructCompositeKey ns k /\ vo = entry vv.
Proof.
  intros [Hns _]. unfold batch_entries. rewrite list_elem_of_bind. split.
  - intros (ns & He & Hn). apply list_elem_of_fmap in He as ([k vv] & [= -> ->] & Hkv).
    apply elem_of_map_to_list in Hkv. rewrite BatchFacts.GetUpdates_lookup in Hkv. eauto 6.
  - intros (ns & k & vv & Hg & -> & ->). exists ns. split.
    + apply list_elem_of_fmap. exists (k, vv). split; [done|].
      apply elem_of_map_to_list. by rewrite BatchFacts.GetUpdates_lookup.
    + unfold Batch.Get in Hg. destruct (batch !! ns) as [nsu|] eqn:E; [|done].
      apply list_elem_of_fmap. exists (ns, nsu). split; [done|]. by apply elem_of_map_to_list.
Qed.

Lemma ns_entries_NoDup ns (m : gmap string VersionedValue) :
  ns_ok ns -> NoDup ((ns_entries ns (map_to_list m)).*1).
Proof.
  intros Hns. unfold ns_entries. rewrite <- list_fmap_compose.
  change ((fst ∘ _)) with (constructCompositeKey ns ∘ @fst string VersionedValue).
  rewrite list_fmap_compose. apply NoDup_fmap_2_strong; [|apply NoDup_fst_map_to_list].
  intros k1 k2 _ _ E. by apply constructCompositeKey_inj in E as [_ ?].
Qed.

Lemma batch_entries_NoDup batch : batch_ok batch -> NoDup ((batch_entries batch).*1).
Proof.
  intros [Hns _]. unfold batch_entries, Batch.GetUpdatedNamespaces.
  pose proof (NoDup_fst_map_to_list batch) as Hd.
  assert (Forall ns_ok ((map_to_list batch).*1)) as Hall.
  { apply Forall_forall. intros ns ([ns' u] & -> & Hin)%list_elem_of_fmap.
    apply elem_of_map_to_list in Hin. apply Hns. cbn. eauto. }
  induction ((map_to_list batch).*1) as [|ns nss IH]; [constructor|].
  apply NoDup_cons in Hd as [Hn Hd]. apply Forall_cons in Hall as [Hok Hall].
  cbn. rewrite fmap_app. apply NoDup_app. split; [by apply ns_entries_NoDup|]. split; [|auto].
  intros e He He'. apply list_elem_of_fmap in He as ([e1 v1] & -> & He).
  apply list_elem_of_fmap in He as ([k vv] & [= -> ->] & _). cbn in He'.
  apply list_elem_of_fmap in He' as ([e2 v2] & E & He'). cbn in E. subst e2.
  apply list_elem_of_bind in He' as (ns2 & He' & Hin2).
  apply list_elem_of_fmap in He' as ([k2 vv2] & [= E _] & _). cbn in E.
  apply constructCompositeKey_inj in E as [-> _]; [done..|].
  rewrite Forall_forall in Hall. by apply Hall.
Qed.

Lemma ApplyUpdates_batch batch h vdb :
  batch_ok batch -> height_ok h ->
  exists b, ApplyUpdates vdb batch h = Provider.WriteBatch vdb b true /\
    b !! savePointKey = Some (Some (Height.height_bytes h)) /\
    forall ns k, ns_ok ns ->
      (b !! constructCompositeKey ns k) = (entry <$> Batch.Get batch ns k).
Proof.
  intros Hb Hh. unfold ApplyUpdates. rewrite apply_all_ok by done. cbn [mbind res_bind].
  rewrite Height.ToBytes_ok by done. cbn [mbind res_bind batch_Put].
  eexists. split; [done|]. split; [apply lookup_insert_eq|].
  intros ns k Hns. rewrite lookup_insert_ne by (symmetry; by apply compositeKey_savePoint).
  fold (batch_entries batch). pose proof (batch_entries_NoDup batch Hb) as Hd.
  destruct (Batch.Get batch ns k) as [vv|] eqn:E; cbn.
  - apply foldl_add_entry; [done|]. left. apply batch_entries_elem; [done|]. eauto 6.
  - apply eq_None_not_Some. intros [vo Hl]. apply foldl_add_entry in Hl; [|done].
    destruct Hl as [Hin|[_ Hl]]; [|by unfold NewUpdateBatch in Hl; rewrite lookup_empty in Hl].
    apply batch_entries_elem in Hin as (ns' & k' & vv & Hg & Ek & _); [|done].
    apply constructCompositeKey_inj in Ek as [-> ->]; [congruence|done|].
    apply Hb. unfold Batch.Get in Hg. destruct (batch !! ns'); [eauto|done].
Qed.

Lemma vdb_ApplyUpdates vdb batch h :
  vdb_ok vdb -> batch_ok batch -> height_ok h ->
  exists vdb', ApplyUpdates vdb batch h = Ok vdb' /\ vdb_ok vdb' /\
    vdb_savepoint vdb' = Some h /\
    forall ns key, ns_ok ns -> vdb_view vdb' ns key = overlay batch (vdb_view vdb) ns key.
Proof.
  intros [Hok Hst Hpt] Hb Hh. destruct (ApplyUpdates_batch batch h vdb Hb Hh) as (b & -> & Hsp & Hg).
  destruct (WriteBatch_spec vdb b true Hok) as (vdb' & -> & Hok' & _ & Hv & _).
  exists vdb'. split; [done|].
  assert (handle_view vdb' savePointKey = Some (Height.height_bytes h)) as Esp.
  { by rewrite Hv, Hsp. }
  assert (forall ns key, ns_ok ns -> handle_view vdb' (constructCompositeKey ns key) =
    match Batch.Get batch ns key with
    | Some vv => entry vv | None => handle_view vdb (constructCompositeKey ns key) end) as Hent.
  { intros ns key Hns. rewrite Hv, Hg by done. by destruct (Batch.Get batch ns key). }
  assert (forall ns key vv, Batch.Get batch ns key = Some vv -> height_ok (Version vv)) as Hver
    by apply Hb.
  split; [split|split].
  - done.
  - intros ns key bs Hns. rewrite Hent by done.
    destruct (Batch.Get batch ns key) as [vv|] eqn:E; [|by apply Hst].
    unfold entry. destruct (Value vv) as [v|]; [|done]. intros [= <-].
    exists (Version vv), v. eauto.
  - rewrite Esp. intros bs [= <-]. eauto.
  - unfold vdb_savepoint. rewrite Esp.
    rewrite <- (app_nil_r (Height.height_bytes h)), Height.NewHeightFromBytes_ok; done.
  - intros ns key Hns. unfold vdb_view at 1. rewrite Hent by done. unfold overlay, live.
    destruct (Batch.Get batch ns key) as [vv|] eqn:E; [|done].
    unfold entry, decoded. destruct (Value vv) as [v|] eqn:Ev; [|done]. cbn.
    rewrite ValueCodec.DecodeValue_bytes by eauto. destruct vv; cbn in *. by rewrite Ev.
Qed.

Lemma vdb_GetLatestSavePoint vdb : vdb_ok vdb -> GetLatestSavePoint vdb = Ok (vdb_savepoint vdb).
Proof.
  intros [Hok _ Hpt]. unfold GetLatestSavePoint, vdb_savepoint. rewrite Get_spec by done. cbn.
  destruct (handle_view vdb savePointKey) as [bs|]; [|done].
  destruct (Hpt bs eq_refl) as (h & Hh & ->).
  by rewrite <- (app_nil_r (Height.height_bytes h)), Height.NewHeightFromBytes_ok.
Qed.

(** *** The scanner *)

Definition rec_kv (ns : string) (kv : bytes * bytes) : option VersionedKV :=
  match scan_record ns kv.1 kv.2 with Ok r => Some r | _ => None end.

Definition raw_kv (ns : string) (kv : bytes * bytes) : option VersionedKV :=
  match retrieveAppKey kv.1 with Ok k => rec_kv ns (k, kv.2) | _ => None end.

Definition sc_rest (sc : kvScanner S) : list VersionedKV :=
  omap (raw_kv (sc_namespace sc)) (it_rest (sc_dbItr sc)).

Definition sc_ok (sc : kvScanner S) : Prop :=
  exists n l, name_ok n /\ it_rest (sc_dbItr sc) = at_level n <$> l /\
    Forall (fun kv => is_Some (rec_kv (sc_namespace sc) kv)) l.

Lemma sc_rest_level n ns (l : list (bytes * bytes)) :
  name_ok n -> omap (raw_kv ns) (at_level n <$> l) = omap (rec_kv ns) l.
Proof.
  intros Hn. induction l as [|[k v] l IH]; [done|]. cbn [fmap list_fmap omap list_omap].
  unfold raw_kv at 1. cbn [at_level fst snd]. rewrite retrieveAppKey_construct by done.
  cbn. by rewrite <- IH.
Qed.

Lemma kvScanner_Next_spec sc :
  sc_ok sc ->
  exists sc', kvScanner_Next sc = Ok (head (sc_rest sc), sc') /\ sc_ok sc' /\
              sc_rest sc' = tail (sc_rest sc).
Proof.
  intros (n & l & Hn & E & Hf). unfold kvScanner_Next, sc_rest at 1 3.
  rewrite E, sc_rest_level by done. destruct l as [|[k v] l].
  - rewrite itr_Next_nil by done. exists sc. split; [done|]. split; [by exists n, []|].
    unfold sc_rest. by rewrite E.
  - destruct (itr_Next_cons _ n k v l Hn E) as (i' & -> & E').
    apply Forall_cons in Hf as [[kv Hkv] Hf]. cbn [mbind res_bind omap list_omap].
    rewrite Hkv. unfold rec_kv in Hkv. cbn in Hkv.
    destruct (scan_record _ _ _) as [r| | |]; simplify_eq. cbn.
    exists (mkKVScanner (sc_namespace sc) i'). split; [done|]. split; [by exists n, l|].
    unfold sc_rest. cbn. by rewrite E', sc_rest_level.
Qed.

Lemma length_sc_rest sc : length (sc_rest sc) <= it_bound (sc_dbItr sc).
Proof. etrans; [apply length_omap_le|apply it_bound_spec]. Qed.

#[global] Instance kvScanner_spec : ResultsIteratorSpec (kvScanner S) := {
  itr_ok := sc_ok;
  rest := sc_rest;
  Next_spec := kvScanner_Next_spec;
  remaining_spec sc _ := length_sc_rest sc
}.

Lemma composite_range ns s e c :
  in_brange (Some (constructCompositeKey ns s))
    (Some (if decide (e = "") then set_last (constructCompositeKey ns e) lastKeyIndicator
           else constructCompositeKey ns e)) c <->
  exists k, c = constructCompositeKey ns k /\ in_range s e k.
Proof.
  rewrite !constructCompositeKey_level.
  pose proof (level_range ns (Some (to_bytes s))
    (if decide (e = "") then None else Some (to_bytes e)) c) as Hl.
  destruct (decide (e = "")) as [->|He]; cbn in Hl |- *; rewrite Hl; clear Hl; split.
  - intros (b & -> & Hb & _). exists (to_string b). rewrite constructCompositeKey_level, to_bytes_string.
    split; [done|]. split; [|by left]. apply bytes_le_str. by rewrite to_bytes_string.
  - intros (k & -> & Hk & _). exists (to_bytes k). split; [done|]. split; [by apply bytes_le_str|done].
  - intros (b & -> & Hb & Hb'). exists (to_string b). rewrite constructCompositeKey_level, to_bytes_string.
    split; [done|]. split; [|right].
    + apply bytes_le_str. by rewrite to_bytes_string.
    + apply bytes_lt_str. by rewrite to_bytes_string.
  - intros (k & -> & Hk & [?|Hk']); [done|]. exists (to_bytes k). split; [done|].
    split; [by apply bytes_le_str|by apply bytes_lt_str].
Qed.

Lemma rec_kv_composite ns k bs kv :
  ns_ok ns -> rec_kv ns (constructCompositeKey ns k, bs) = Some kv <->
  Namespace kv = ns /\ Key kv = k /\ decoded bs = Some (VV kv).
Proof.
  intros Hns. unfold rec_kv, scan_record, decoded. cbn [fst snd].
  rewrite constructCompositeKey_level, splitCompositeKey_construct, to_string_bytes by done.
  cbn. destruct (ValueCodec.DecodeValue bs) as [[val ver]| | |]; cbn; [|naive_solver..].
  destruct kv; cbn. naive_solver.
Qed.

Lemma rec_kv_sorted ns l :
  ns_ok ns -> Forall (fun kv : bytes * bytes => exists k, kv.1 = constructCompositeKey ns k) l ->
  StronglySorted rec_lt l -> StronglySorted kv_lt (omap (rec_kv ns) l).
Proof.
  intros Hns. induction l as [|[c bs] l IH]; intros Hall Hs; [constructor|].
  apply Forall_cons in Hall as [[k Ek] Hall]. cbn in Ek. subst c.
  inversion_clear Hs as [|?? Hs' Hf]. cbn [omap list_omap].
  destruct (rec_kv ns (constructCompositeKey ns k, bs)) as [kv|] eqn:E; [|by apply IH].
  constructor; [by apply IH|]. apply Forall_forall. intros kv' Hin.
  apply list_elem_of_omap in Hin as ([c' bs'] & Hin & E').
  rewrite Forall_forall in Hall, Hf. destruct (Hall _ Hin) as [k' Ek']. cbn in Ek'. subst c'.
  specialize (Hf _ Hin). apply rec_kv_composite in E as (_ & Ek & _); [|done].
  apply rec_kv_composite in E' as (_ & Ek' & _); [|done].
  unfold kv_lt. rewrite Ek, Ek'. apply bytes_lt_str. revert Hf.
  unfold rec_lt, bytes_lt. cbn. rewrite !constructCompositeKey_level.
  by rewrite constructLevelKey_compare.
Qed.

Lemma vdb_GetStateRangeScanIterator vdb ns s e :
  vdb_ok vdb -> ns_ok ns ->
  exists i, GetStateRangeScanIterator vdb ns s e = Ok i /\ sc_ok i /\
            is_scan (vdb_view vdb) ns s e (sc_rest i).
Proof.
  intros Hok Hns. unfold GetStateRangeScanIterator.
  set (ek := if decide (e = "") then _ else _).
  destruct (GetIterator_spec vdb (Some (constructCompositeKey ns s)) (Some ek)) as (l & El & Hs & Hin);
    [apply Hok|].
  unfold ek in Hin. setoid_rewrite composite_range in Hin. fold ek in Hin.
  assert (Forall (fun kv : bytes * bytes => exists k, kv.1 = constructCompositeKey ns k) l) as Hall.
  { apply Forall_forall. intros [c bs] Hc. apply Hin in Hc as (_ & k & -> & _). by exists k. }
  eexists. split; [done|]. unfold sc_ok, sc_rest. cbn. rewrite El.
  destruct (vdb_handle _ Hok) as [Hn _]. split.
  - exists (h_dbName vdb), l. split; [done|]. split; [done|].
    apply Forall_forall. intros [c bs] Hc. apply Hin in Hc as (Hb & k & -> & _).
    destruct (DecodeValue_stored bs) as (v & h & _ & Ed); [by eapply vdb_stored|].
    exists (mkVKV ns k (mkVV (Some v) h)). apply rec_kv_composite; [done|].
    unfold decoded. by rewrite Ed.
  - rewrite sc_rest_level by done. split; [by apply rec_kv_sorted|].
    intros kv. rewrite list_elem_of_omap. unfold vdb_view. split.
    + intros ([c bs] & Hc & E). apply Hin in Hc as (Hb & k & -> & Hr).
      apply rec_kv_composite in E as (<- & <- & Ed); [|done]. by rewrite Hb.
    + intros (Hkn & Hv & Hr). destruct (handle_view vdb _) as [bs|] eqn:Eb; [|done]. cbn in Hv.
      exists (constructCompositeKey ns (Key kv), bs). split.
      * apply Hin. eauto.
      * by apply rec_kv_composite.
Qed.

#[global] Instance stateleveldb_spec : VersionedDBSpec (DBHandle S).
Proof.
  refine {| db_ok := vdb_ok; view := vdb_view; savepoint := vdb_savepoint;
            DBItr_spec := kvScanner_spec : ResultsIteratorSpec DBItr |}.
  - exact vdb_view_live.
  - exact vdb_GetState.
  - intros vdb ns keys Hok Hns. apply mapM_res_fmap. intros k _. by apply vdb_GetState.
  - exact vdb_GetStateRangeScanIterator.
  - exact vdb_ApplyUpdates.
  - exact vdb_GetLatestSavePoint.
  - done.
Defined.

End Contract.
End StateLevelDB.

(** ** Theorems *)

Module StateLevelDBTheorems.
Import Provider StateLevelDB.

(** C37: Committing a batch to the leveldb state database.  [ApplyUpdates]
    succeeds; afterwards the save point is the given height, [GetState] of
    every namespace and key returns the batch's value over the old one (nothing
    for a deleted key), and a range scan delivers, in key order, just the live
    keys of the namespace in the range, none of another namespace. *)
Theorem state_commit {S : Type} `{LevelDBSpec S} (vdb : DBHandle S) batch h :
  vdb_ok vdb -> batch_ok batch -> height_ok h ->
  exists vdb', ApplyUpdates vdb batch h = Ok vdb' /\ vdb_ok vdb' /\
    GetLatestSavePoint vdb' = Ok (Some h) /\
    (forall ns key, ns_ok ns -> GetState vdb' ns key = Ok (overlay batch (vdb_view vdb) ns key)) /\
    (forall ns s e, ns_ok ns -> exists i l, GetStateRangeScanIterator vdb' ns s e = Ok i /\
       drain (1 + remaining i) i = Ok l /\ is_scan (overlay batch (vdb_view vdb)) ns s e l).
Proof.
  intros Hok Hb Hh. destruct (vdb_ApplyUpdates vdb batch h Hok Hb Hh) as (vdb' & E & Hok' & Hsp & Hv).
  exists vdb'. split; [done|]. split; [done|]. split; [by rewrite vdb_GetLatestSavePoint, Hsp|]. split.
  - intros ns key Hns. by rewrite vdb_GetState, Hv.
  - intros ns s e Hns. destruct (vdb_GetStateRangeScanIterator vdb' ns s e Hok' Hns) as (i & Ei & Hi & Hs).
    exists i, (sc_rest i). split; [done|]. split.
    + change (drain (1 + remaining i) i = Ok (rest i)). apply drain_rest; [done|]. pose proof (length_sc_rest i). cbn. lia.
    + eapply is_scan_ext; [|done]. intros k. by apply Hv.
Qed.

End StateLevelDBTheorems.
