(* ===== verification/RWSet.v ===== *)
(** * Read-write sets

    The messages of protos/ledger/rwset/kvrwset, and
    core/ledger/kvledger/txmgmt/rwsetutil: the builder that collects what a
    simulation reads and writes (rwset_builder.go) and the conversions of
    rwset_proto_util.go.  Protobuf marshalling is a parameter. *)

From stdpp Require Import base gmap strings list sorting.
From Stdlib Require Import Ascii ZArith Lia.
From S2P Require Import Prelude Version StateDB.

(** ** Messages *)

Module KV.

Record ProtoVersion := mkProtoVersion { pv_BlockNum : Z; pv_TxNum : Z }.

Record KVRead := mkKVRead { kvr_Key : string; kvr_Version : option ProtoVersion }.

Record KVWrite := mkKVWrite { kvw_Key : string; kvw_IsDelete : bool; kvw_Value : option bytes }.

Record QueryReadsMerkleSummary := mkSummary {
  MaxDegree : nat;
  MaxLevel : nat;
  MaxLevelHashes : list bytes
}.

(** The [oneof] field; [NoReads] is nil. *)
Inductive ReadsInfo :=
| NoReads
| RawReads (kvReads : list KVRead)
| ReadsMerkleHashes (summary : QueryReadsMerkleSummary).

Record RangeQueryInfo := mkRQI {
  StartKey : string;
  EndKey : string;
  ItrExhausted : bool;
  rqi_ReadsInfo : ReadsInfo
}.

Record KVRWSet := mkKVRWSet {
  Reads : list KVRead;
  RangeQueriesInfo : list RangeQueryInfo;
  Writes : list KVWrite
}.

(** protos/ledger/rwset/kvrwset/helper.go *)

Definition SetRawReads (rqi : RangeQueryInfo) (kvReads : list KVRead) : RangeQueryInfo :=
  mkRQI (StartKey rqi) (EndKey rqi) (ItrExhausted rqi) (RawReads kvReads).

Definition SetMerkelSummary (rqi : RangeQueryInfo) (summary : QueryReadsMerkleSummary)
    : RangeQueryInfo :=
  mkRQI (StartKey rqi) (EndKey rqi) (ItrExhausted rqi) (ReadsMerkleHashes summary).

(** The generated getters return nil on the other case of the [oneof]. *)
Definition GetRawReads (rqi : RangeQueryInfo) : list KVRead :=
  match rqi_ReadsInfo rqi with RawReads l => l | _ => [] end.

Definition GetReadsMerkleHashes (rqi : RangeQueryInfo) : option QueryReadsMerkleSummary :=
  match rqi_ReadsInfo rqi with ReadsMerkleHashes s => Some s | _ => None end.

(** The loop of [Equal] once the lengths agree. *)
Fixpoint hashes_equal (a b : list bytes) : bool :=
  match a, b with
  | [], _ => true
  | x :: a', y :: b' => bool_decide (x = y) && hashes_equal a' b'
  | _ :: _, [] => false
  end.

Definition Equal (ms : QueryReadsMerkleSummary) (anotherMS : option QueryReadsMerkleSummary) : bool :=
  match anotherMS with
  | None => false
  | Some an =>
      if negb (Nat.eqb (MaxDegree ms) (MaxDegree an))
         || negb (Nat.eqb (MaxLevel ms) (MaxLevel an))
         || negb (Nat.eqb (length (MaxLevelHashes ms)) (length (MaxLevelHashes an)))
      then false
      else hashes_equal (MaxLevelHashes ms) (MaxLevelHashes an)
  end.

#[global] Instance ProtoVersion_eq_dec : EqDecision ProtoVersion.
Proof. solve_decision. Defined.
#[global] Instance KVRead_eq_dec : EqDecision KVRead.
Proof. solve_decision. Defined.
#[global] Instance KVWrite_eq_dec : EqDecision KVWrite.
Proof. solve_decision. Defined.
#[global] Instance Summary_eq_dec : EqDecision QueryReadsMerkleSummary.
Proof. solve_decision. Defined.
#[global] Instance ReadsInfo_eq_dec : EqDecision ReadsInfo.
Proof. solve_decision. Defined.
#[global] Instance RangeQueryInfo_eq_dec : EqDecision RangeQueryInfo.
Proof. solve_decision. Defined.

Lemma hashes_equal_iff a b : length a = length b -> hashes_equal a b = true <-> a = b.
Proof.
  revert b. induction a as [|x a IH]; intros [|y b] Hl; try done.
  cbn. rewrite andb_true_iff, bool_decide_eq_true, IH by (injection Hl; lia).
  split; [intros [-> ->]; done|intros [= -> ->]; done].
Qed.

Lemma Equal_iff ms an : Equal ms an = true <-> an = Some ms.
Proof.
  unfold Equal. destruct an as [an|]; [|done]. destruct ms as [d l hs], an as [d' l' hs']. cbn.
  destruct (Nat.eqb_spec d d') as [->|]; cbn; [|split; congruence].
  destruct (Nat.eqb_spec l l') as [->|]; cbn; [|split; congruence].
  destruct (Nat.eqb_spec (length hs) (length hs')) as [El|El]; cbn.
  - rewrite hashes_equal_iff by done. split; congruence.
  - split; [done|]. intros [= ->]. done.
Qed.

End KV.

Export KV.

(** ** Conversions: rwset_proto_util.go *)

Module RWSetUtil.

Record NsRwSet := mkNsRwSet { NameSpace : string; KvRwSet : KVRWSet }.

(** [TxRwSet.NsRwSets] *)
Abbreviation TxRwSet := (list NsRwSet).

Definition newProtoVersion (height : option Height) : option ProtoVersion :=
  match height with
  | None => None
  | Some h => Some (mkProtoVersion (BlockNum h) (TxNum h))
  end.

Definition NewVersion (protoVersion : option ProtoVersion) : option Height :=
  match protoVersion with
  | None => None
  | Some v => Some (NewHeight (pv_BlockNum v) (pv_TxNum v))
  end.

Definition NewKVRead (key : string) (version : option Height) : KVRead :=
  mkKVRead key (newProtoVersion version).

Definition newKVWrite (key : string) (value : option bytes) : KVWrite :=
  mkKVWrite key (match value with None => true | Some _ => false end) value.

Lemma NewVersion_newProtoVersion o : NewVersion (newProtoVersion o) = o.
Proof. by destruct o as [[]|]. Qed.

Lemma newProtoVersion_inj o1 o2 : newProtoVersion o1 = newProtoVersion o2 -> o1 = o2.
Proof. intros E. by rewrite <- (NewVersion_newProtoVersion o1), E, NewVersion_newProtoVersion. Qed.

(** *** Serialization

    [proto.Marshal] and [proto.Unmarshal] of the two message types.  A byte
    field that is empty is not written, and comes back as nil. *)

Record NsReadWriteSet := mkNsReadWriteSet { ns_Namespace : string; ns_Rwset : bytes }.

Class RWSetCodec := {
  marshal_kvrwset : KVRWSet -> res bytes;
  unmarshal_kvrwset : bytes -> res KVRWSet;
  marshal_txrwset : list NsReadWriteSet -> res bytes;
  unmarshal_txrwset : bytes -> res (list NsReadWriteSet)
}.

Section Codec.
Context `{RWSetCodec}.

Definition ToProtoBytes (txRwSet : TxRwSet) : res bytes :=
  nsRwset ← mapM_res (fun nsRwSet =>
      protoRwSetBytes ← marshal_kvrwset (KvRwSet nsRwSet);
      Ok (mkNsReadWriteSet (NameSpace nsRwSet) protoRwSetBytes)) txRwSet;
  marshal_txrwset nsRwset.

Definition FromProtoBytes (protoBytes : bytes) : res TxRwSet :=
  protoNsRwSets ← unmarshal_txrwset protoBytes;
  mapM_res (fun protoNsRwSet =>
      protoKvRwSet ← unmarshal_kvrwset (ns_Rwset protoNsRwSet);
      Ok (mkNsRwSet (ns_Namespace protoNsRwSet) protoKvRwSet)) protoNsRwSets.

End Codec.

(** What is left of a message once marshalled and unmarshalled. *)
Definition norm_write (w : KVWrite) : KVWrite :=
  mkKVWrite (kvw_Key w) (kvw_IsDelete w)
    (match kvw_Value w with Some [] => None | v => v end).

Definition norm_kvrwset (s : KVRWSet) : KVRWSet :=
  mkKVRWSet (Reads s) (RangeQueriesInfo s) (norm_write <$> Writes s).

Class RWSetCodecSpec `{RWSetCodec} := {
  marshal_kvrwset_ok s : exists b, marshal_kvrwset s = Ok b /\
    unmarshal_kvrwset b = Ok (norm_kvrwset s);
  marshal_txrwset_ok l : exists b, marshal_txrwset l = Ok b /\ unmarshal_txrwset b = Ok l
}.

Lemma mapM_res_roundtrip {A B C} (f : A -> res B) (g : B -> res C) (h : A -> C) l :
  (forall a, a ∈ l -> exists b, f a = Ok b /\ g b = Ok (h a)) ->
  exists bs, mapM_res f l = Ok bs /\ mapM_res g bs = Ok (h <$> l).
Proof.
  induction l as [|a l IH]; intros Hl; [by exists []|].
  destruct (Hl a) as (b & Hf & Hg); [left|].
  destruct IH as (bs & Hfs & Hgs); [intros; apply Hl; by right|].
  exists (b :: bs). cbn. rewrite Hf; cbn. rewrite Hfs; cbn. by rewrite Hg; cbn; rewrite Hgs.
Qed.

Lemma ToProtoBytes_spec `{RWSetCodecSpec} (s : TxRwSet) :
  exists b, ToProtoBytes s = Ok b /\
    FromProtoBytes b = Ok ((fun ns => mkNsRwSet (NameSpace ns) (norm_kvrwset (KvRwSet ns))) <$> s).
Proof.
  unfold ToProtoBytes, FromProtoBytes.
  destruct (mapM_res_roundtrip
    (fun nsRwSet => protoRwSetBytes ← marshal_kvrwset (KvRwSet nsRwSet);
       Ok (mkNsReadWriteSet (NameSpace nsRwSet) protoRwSetBytes))
    (fun p => protoKvRwSet ← unmarshal_kvrwset (ns_Rwset p);
       Ok (mkNsRwSet (ns_Namespace p) protoKvRwSet))
    (fun ns => mkNsRwSet (NameSpace ns) (norm_kvrwset (KvRwSet ns))) s) as (l & E1 & E2).
  { intros ns _. destruct (marshal_kvrwset_ok (KvRwSet ns)) as (b & Eb & Eu).
    eexists. rewrite Eb. cbn. split; [done|]. cbn. by rewrite Eu. }
  destruct (marshal_txrwset_ok l) as (b & Eb & Eu). exists b.
  rewrite E1. cbn. split; [done|]. rewrite Eu. cbn. exact E2.
Qed.

End RWSetUtil.

Export RWSetUtil(NsRwSet, mkNsRwSet, NameSpace, KvRwSet, TxRwSet).

(** ** The builder: rwset_builder.go *)

Module Builder.
Import RWSetUtil.

(** [rangeQueryKey]: start key, end key, iterator exhausted *)
Abbreviation rangeQueryKey := (string * string * bool)%type.

Record nsRWs := mkNsRWs {
  readMap : gmap string KVRead;
  writeMap : gmap string KVWrite;
  rangeQueriesMap : gmap rangeQueryKey RangeQueryInfo;
  rangeQueriesKeys : list rangeQueryKey
}.

Definition newNsRWs : nsRWs := mkNsRWs ∅ ∅ ∅ [].

(** [RWSetBuilder.rwMap] *)
Abbreviation RWSetBuilder := (gmap string nsRWs).

Definition NewRWSetBuilder : RWSetBuilder := ∅.

(** The entry of [ns], and the builder in which it exists. *)
Definition getOrCreateNsRW (rws : RWSetBuilder) (ns : string) : nsRWs :=
  match rws !! ns with
  | Some n => n
  | None => newNsRWs
  end.

Definition AddToReadSet (rws : RWSetBuilder) (ns key : string) (version : option Height)
    : RWSetBuilder :=
  let n := getOrCreateNsRW rws ns in
  <[ns := mkNsRWs (<[key := NewKVRead key version]> (readMap n)) (writeMap n)
            (rangeQueriesMap n) (rangeQueriesKeys n)]> rws.

Definition AddToWriteSet (rws : RWSetBuilder) (ns key : string) (value : option bytes)
    : RWSetBuilder :=
  let n := getOrCreateNsRW rws ns in
  <[ns := mkNsRWs (readMap n) (<[key := newKVWrite key value]> (writeMap n))
            (rangeQueriesMap n) (rangeQueriesKeys n)]> rws.

Definition rqi_key (rqi : RangeQueryInfo) : rangeQueryKey :=
  (StartKey rqi, EndKey rqi, ItrExhausted rqi).

Definition AddToRangeQuerySet (rws : RWSetBuilder) (ns : string) (rqi : RangeQueryInfo)
    : RWSetBuilder :=
  let n := getOrCreateNsRW rws ns in
  let key := rqi_key rqi in
  let n' :=
    match rangeQueriesMap n !! key with
    | Some _ => n
    | None =>
        mkNsRWs (readMap n) (writeMap n) (<[key := rqi]> (rangeQueriesMap n))
          (rangeQueriesKeys n ++ [key])
    end in
  <[ns := n']> rws.

(** Looking a key up in a map; the key is always there (below), otherwise Go
    would append nil. *)
Definition get_all {K V} `{Countable K} (m : gmap K V) (keys : list K) : list V :=
  omap (fun k => m !! k) keys.

Definition GetTxReadWriteSet (rws : RWSetBuilder) : TxRwSet :=
  omap (fun ns =>
    match rws !! ns with
    | None => None
    | Some n =>
        let reads := get_all (readMap n) (GetSortedKeys (readMap n)) in
        let writes := get_all (writeMap n) (GetSortedKeys (writeMap n)) in
        let rangeQueriesInfo := get_all (rangeQueriesMap n) (rangeQueriesKeys n) in
        Some (mkNsRwSet ns (mkKVRWSet reads rangeQueriesInfo writes))
    end) (GetSortedKeys rws).

(** *** The content of a builder *)

Definition read_of (rws : RWSetBuilder) (ns key : string) : option KVRead :=
  rws !! ns ≫= fun n => readMap n !! key.
Definition write_of (rws : RWSetBuilder) (ns key : string) : option KVWrite :=
  rws !! ns ≫= fun n => writeMap n !! key.
Definition range_of (rws : RWSetBuilder) (ns : string) (k : rangeQueryKey) : option RangeQueryInfo :=
  rws !! ns ≫= fun n => rangeQueriesMap n !! k.

(** Every read, write and range query is filed under its own key, and the list
    of range query keys has no repetition. *)
Record builder_ok (rws : RWSetBuilder) : Prop := {
  reads_filed ns key r : read_of rws ns key = Some r -> kvr_Key r = key;
  writes_filed ns key w : write_of rws ns key = Some w ->
    kvw_Key w = key /\ (kvw_IsDelete w = true <-> kvw_Value w = None);
  ranges_filed ns k q : range_of rws ns k = Some q -> rqi_key q = k;
  ranges_listed ns n k : rws !! ns = Some n ->
    k ∈ rangeQueriesKeys n <-> is_Some (rangeQueriesMap n !! k);
  ranges_NoDup ns n : rws !! ns = Some n -> NoDup (rangeQueriesKeys n)
}.

Lemma new_ok : builder_ok NewRWSetBuilder.
Proof. split; intros; done. Qed.

Lemma read_of_AddToReadSet rws ns key v ns' key' :
  read_of (AddToReadSet rws ns key v) ns' key' =
  if decide (ns = ns' /\ key = key') then Some (NewKVRead key v) else read_of rws ns' key'.
Proof.
  unfold read_of, AddToReadSet, getOrCreateNsRW. rewrite lookup_insert.
  destruct (decide (ns = ns')) as [->|]; [|by rewrite decide_False by naive_solver].
  cbn. rewrite lookup_insert. destruct (decide (key = key')) as [->|].
  - by rewrite decide_True.
  - rewrite decide_False by naive_solver. by destruct (rws !! ns').
Qed.

Lemma write_of_AddToReadSet rws ns key v ns' key' :
  write_of (AddToReadSet rws ns key v) ns' key' = write_of rws ns' key'.
Proof.
  unfold write_of, AddToReadSet, getOrCreateNsRW. rewrite lookup_insert.
  destruct (decide (ns = ns')) as [->|]; [|done]. by destruct (rws !! ns').
Qed.

Lemma range_of_AddToReadSet rws ns key v ns' k :
  range_of (AddToReadSet rws ns key v) ns' k = range_of rws ns' k.
Proof.
  unfold range_of, AddToReadSet, getOrCreateNsRW. rewrite lookup_insert.
  destruct (decide (ns = ns')) as [->|]; [|done]. by destruct (rws !! ns').
Qed.

Lemma read_of_AddToWriteSet rws ns key v ns' key' :
  read_of (AddToWriteSet rws ns key v) ns' key' = read_of rws ns' key'.
Proof.
  unfold read_of, AddToWriteSet, getOrCreateNsRW. rewrite lookup_insert.
  destruct (decide (ns = ns')) as [->|]; [|done]. by destruct (rws !! ns').
Qed.

Lemma write_of_AddToWriteSet rws ns key v ns' key' :
  write_of (AddToWriteSet rws ns key v) ns' key' =
  if decide (ns = ns' /\ key = key') then Some (newKVWrite key v) else write_of rws ns' key'.
Proof.
  unfold write_of, AddToWriteSet, getOrCreateNsRW. rewrite lookup_insert.
  destruct (decide (ns = ns')) as [->|]; [|by rewrite decide_False by naive_solver].
  cbn. rewrite lookup_insert. destruct (decide (key = key')) as [->|].
  - by rewrite decide_True.
  - rewrite decide_False by naive_solver. by destruct (rws !! ns').
Qed.

Lemma range_of_AddToWriteSet rws ns key v ns' k :
  range_of (AddToWriteSet rws ns key v) ns' k = range_of rws ns' k.
Proof.
  unfold range_of, AddToWriteSet, getOrCreateNsRW. rewrite lookup_insert.
  destruct (decide (ns = ns')) as [->|]; [|done]. by destruct (rws !! ns').
Qed.

Lemma read_of_AddToRangeQuerySet rws ns q ns' key' :
  read_of (AddToRangeQuerySet rws ns q) ns' key' = read_of rws ns' key'.
Proof.
  unfold read_of, AddToRangeQuerySet, getOrCreateNsRW. rewrite lookup_insert.
  destruct (decide (ns = ns')) as [->|]; [|done].
  destruct (rws !! ns') as [n|]; cbn; [by destruct (rangeQueriesMap n !! _)|done].
Qed.

Lemma write_of_AddToRangeQuerySet rws ns q ns' key' :
  write_of (AddToRangeQuerySet rws ns q) ns' key' = write_of rws ns' key'.
Proof.
  unfold write_of, AddToRangeQuerySet, getOrCreateNsRW. rewrite lookup_insert.
  destruct (decide (ns = ns')) as [->|]; [|done].
  destruct (rws !! ns') as [n|]; cbn; [by destruct (rangeQueriesMap n !! _)|done].
Qed.

(** The first range query filed under a key stays. *)
Lemma range_of_AddToRangeQuerySet rws ns q ns' k :
  range_of (AddToRangeQuerySet rws ns q) ns' k =
  match range_of rws ns' k with
  | Some q' => Some q'
  | None => if decide (ns = ns' /\ rqi_key q = k) then Some q else None
  end.
Proof.
  unfold range_of, AddToRangeQuerySet, getOrCreateNsRW. rewrite lookup_insert.
  destruct (decide (ns = ns')) as [->|].
  2: { rewrite decide_False by naive_solver. by destruct (rws !! ns' ≫= _). }
  assert (forall m : gmap rangeQueryKey RangeQueryInfo,
    (match m !! rqi_key q with Some _ => m | None => <[rqi_key q := q]> m end) !! k =
    match m !! k with Some q' => Some q'
    | None => if decide (ns' = ns' /\ rqi_key q = k) then Some q else None end) as Hm.
  { intros m. destruct (decide (rqi_key q = k)) as [<-|Hne].
    - rewrite decide_True by done. destruct (m !! rqi_key q) eqn:E; [by rewrite E|].
      by rewrite lookup_insert_eq.
    - rewrite decide_False by naive_solver.
      destruct (m !! rqi_key q) eqn:E; [by destruct (m !! k)|].
      rewrite lookup_insert_ne by done. by destruct (m !! k). }
  destruct (rws !! ns') as [n|]; cbn.
  - rewrite <- Hm. by destruct (rangeQueriesMap n !! rqi_key q).
  - specialize (Hm ∅). rewrite !lookup_empty in Hm. exact Hm.
Qed.

(** *** The operations keep the invariant *)

Lemma getOrCreateNsRW_keys rws ns :
  builder_ok rws ->
  let n := getOrCreateNsRW rws ns in
  NoDup (rangeQueriesKeys n) /\
  forall k, k ∈ rangeQueriesKeys n <-> is_Some (rangeQueriesMap n !! k).
Proof.
  intros Hok. unfold getOrCreateNsRW. destruct (rws !! ns) as [n|] eqn:E.
  - split; [by eapply ranges_NoDup|]. intros k. by eapply ranges_listed.
  - split; [constructor|]. intros k. rewrite elem_of_nil. cbn. by split; [|intros []].
Qed.

Lemma AddToReadSet_ok rws ns key v : builder_ok rws -> builder_ok (AddToReadSet rws ns key v).
Proof.
  intros Hok. pose proof (getOrCreateNsRW_keys rws ns Hok) as [Hd Hk]. split.
  - intros ns' key' r. rewrite read_of_AddToReadSet. case_decide as Hc.
    + by destruct Hc; intros [= <-].
    + by apply Hok.
  - intros ns' key' w. rewrite write_of_AddToReadSet. by apply Hok.
  - intros ns' k q. rewrite range_of_AddToReadSet. by apply Hok.
  - intros ns' n k. unfold AddToReadSet. rewrite lookup_insert. case_decide.
    + intros [= <-]. apply Hk.
    + by apply Hok.
  - intros ns' n. unfold AddToReadSet. rewrite lookup_insert. case_decide.
    + by intros [= <-].
    + by apply Hok.
Qed.

Lemma AddToWriteSet_ok rws ns key v : builder_ok rws -> builder_ok (AddToWriteSet rws ns key v).
Proof.
  intros Hok. pose proof (getOrCreateNsRW_keys rws ns Hok) as [Hd Hk]. split.
  - intros ns' key' r. rewrite read_of_AddToWriteSet. by apply Hok.
  - intros ns' key' w. rewrite write_of_AddToWriteSet. case_decide as Hc.
    + destruct Hc as [_ <-]. intros [= <-]. cbn. by destruct v.
    + by apply Hok.
  - intros ns' k q. rewrite range_of_AddToWriteSet. by apply Hok.
  - intros ns' n k. unfold AddToWriteSet. rewrite lookup_insert. case_decide.
    + intros [= <-]. apply Hk.
    + by apply Hok.
  - intros ns' n. unfold AddToWriteSet. rewrite lookup_insert. case_decide.
    + by intros [= <-].
    + by apply Hok.
Qed.

Lemma AddToRangeQuerySet_ok rws ns q : builder_ok rws -> builder_ok (AddToRangeQuerySet rws ns q).
Proof.
  intros Hok. pose proof (getOrCreateNsRW_keys rws ns Hok) as [Hd Hk]. split.
  - intros ns' key' r. rewrite read_of_AddToRangeQuerySet. by apply Hok.
  - intros ns' key' w. rewrite write_of_AddToRangeQuerySet. by apply Hok.
  - intros ns' k q'. rewrite range_of_AddToRangeQuerySet.
    destruct (range_of rws ns' k) as [q''|] eqn:E.
    + intros [= <-]. by eapply Hok.
    + case_decide as Hc; [|done]. destruct Hc as [_ Hc]. by intros [= <-].
  - intros ns' n k. unfold AddToRangeQuerySet. rewrite lookup_insert. case_decide; [|by apply Hok].
    intros [= <-]. destruct (rangeQueriesMap _ !! rqi_key q) eqn:E; [apply Hk|]. cbn.
    rewrite elem_of_app, list_elem_of_singleton, Hk, lookup_insert.
    destruct (decide (rqi_key q = k)); split; intros; subst; eauto.
    destruct H0; [done|congruence].
  - intros ns' n. unfold AddToRangeQuerySet. rewrite lookup_insert. case_decide; [|by apply Hok].
    intros [= <-]. destruct (rangeQueriesMap _ !! rqi_key q) eqn:E; [done|]. cbn.
    apply NoDup_app. split; [done|]. split; [|apply NoDup_singleton].
    intros k Hin ->%list_elem_of_singleton. apply Hk in Hin as [? Hin]. congruence.
Qed.

(** *** What the read-write set contains *)

Lemma elem_of_get_all {K V} `{Countable K} (m : gmap K V) keys v :
  v ∈ get_all m keys <-> exists k, k ∈ keys /\ m !! k = Some v.
Proof. apply list_elem_of_omap. Qed.

Definition ns_set (n : nsRWs) : KVRWSet :=
  mkKVRWSet (get_all (readMap n) (GetSortedKeys (readMap n)))
    (get_all (rangeQueriesMap n) (rangeQueriesKeys n))
    (get_all (writeMap n) (GetSortedKeys (writeMap n))).

Lemma elem_of_GetTxReadWriteSet rws s :
  s ∈ GetTxReadWriteSet rws <-> exists n, rws !! NameSpace s = Some n /\ KvRwSet s = ns_set n.
Proof.
  unfold GetTxReadWriteSet. rewrite list_elem_of_omap. split.
  - intros (ns & _ & E). destruct (rws !! ns) as [n|] eqn:En; [|done].
    injection E as <-. by exists n.
  - intros (n & En & E). exists (NameSpace s). split; [apply elem_of_GetSortedKeys; eauto|].
    rewrite En. destruct s; cbn in *. by subst.
Qed.

Lemma rwset_read rws ns r :
  builder_ok rws ->
  (exists s, s ∈ GetTxReadWriteSet rws /\ NameSpace s = ns /\ r ∈ Reads (KvRwSet s)) <->
  read_of rws ns (kvr_Key r) = Some r.
Proof.
  intros Hok. unfold read_of. split.
  - intros (s & (n & En & Es)%elem_of_GetTxReadWriteSet & <- & Hr).
    rewrite Es in Hr. cbn in Hr. apply elem_of_get_all in Hr as (k & _ & Hk). rewrite En. cbn.
    enough (kvr_Key r = k) as -> by done. apply (reads_filed _ Hok (NameSpace s)).
    unfold read_of. by rewrite En.
  - destruct (rws !! ns) as [n|] eqn:En; [|done]. cbn. intros Hk.
    exists (mkNsRwSet ns (ns_set n)). split; [apply elem_of_GetTxReadWriteSet; by exists n|].
    split; [done|]. cbn. apply elem_of_get_all. exists (kvr_Key r). split; [|done].
    apply elem_of_GetSortedKeys. eauto.
Qed.

Lemma rwset_range rws ns q :
  builder_ok rws ->
  (exists s, s ∈ GetTxReadWriteSet rws /\ NameSpace s = ns /\ q ∈ RangeQueriesInfo (KvRwSet s)) <->
  range_of rws ns (rqi_key q) = Some q.
Proof.
  intros Hok. unfold range_of. split.
  - intros (s & (n & En & Es)%elem_of_GetTxReadWriteSet & <- & Hr).
    rewrite Es in Hr. cbn in Hr. apply elem_of_get_all in Hr as (k & _ & Hk). rewrite En. cbn.
    enough (rqi_key q = k) as -> by done. apply (ranges_filed _ Hok (NameSpace s)).
    unfold range_of. by rewrite En.
  - destruct (rws !! ns) as [n|] eqn:En; [|done]. cbn. intros Hk.
    exists (mkNsRwSet ns (ns_set n)). split; [apply elem_of_GetTxReadWriteSet; by exists n|].
    split; [done|]. cbn. apply elem_of_get_all. exists (rqi_key q). split; [|done].
    apply (ranges_listed _ Hok ns n _ En). eauto.
Qed.

Lemma rwset_write rws ns w :
  builder_ok rws ->
  (exists s, s ∈ GetTxReadWriteSet rws /\ NameSpace s = ns /\ w ∈ Writes (KvRwSet s)) <->
  write_of rws ns (kvw_Key w) = Some w.
Proof.
  intros Hok. unfold write_of. split.
  - intros (s & (n & En & Es)%elem_of_GetTxReadWriteSet & <- & Hr).
    rewrite Es in Hr. cbn in Hr. apply elem_of_get_all in Hr as (k & _ & Hk). rewrite En. cbn.
    enough (kvw_Key w = k) as -> by done. apply (writes_filed _ Hok (NameSpace s)).
    unfold write_of. by rewrite En.
  - destruct (rws !! ns) as [n|] eqn:En; [|done]. cbn. intros Hk.
    exists (mkNsRwSet ns (ns_set n)). split; [apply elem_of_GetTxReadWriteSet; by exists n|].
    split; [done|]. cbn. apply elem_of_get_all. exists (kvw_Key w). split; [|done].
    apply elem_of_GetSortedKeys. eauto.
Qed.

(** Listing the entries of a map by its keys gives the keys back. *)
Lemma get_all_keys {V} (m : gmap string V) (key : V -> string) ks :
  (forall k v, m !! k = Some v -> key v = k) -> (forall k, k ∈ ks -> is_Some (m !! k)) ->
  key <$> get_all m ks = ks.
Proof.
  intros Hk Hs. induction ks as [|k ks IH]; [done|]. unfold get_all in *. cbn.
  destruct (Hs k) as [v E]; [left|]. rewrite E. cbn. f_equal; [by apply Hk|].
  apply IH. intros k' Hk'. apply Hs. by right.
Qed.

Lemma GetTxReadWriteSet_names rws : NameSpace <$> GetTxReadWriteSet rws = GetSortedKeys rws.
Proof.
  unfold GetTxReadWriteSet. assert (forall k, k ∈ GetSortedKeys rws -> is_Some (rws !! k)) as Hs.
  { intros k Hk. by apply elem_of_GetSortedKeys. }
  induction (GetSortedKeys rws) as [|k ks IH]; [done|]. cbn.
  destruct (Hs k) as [n ->]; [left|]. cbn. f_equal. apply IH. intros. apply Hs. by right.
Qed.

Lemma ns_set_keys rws ns n :
  builder_ok rws -> rws !! ns = Some n ->
  kvr_Key <$> Reads (ns_set n) = GetSortedKeys (readMap n) /\
  kvw_Key <$> Writes (ns_set n) = GetSortedKeys (writeMap n).
Proof.
  intros Hok En. split; apply get_all_keys; try (intros k Hk; by apply elem_of_GetSortedKeys).
  - intros k r E. apply (reads_filed _ Hok ns). unfold read_of. by rewrite En.
  - intros k w E. apply (writes_filed _ Hok ns). unfold write_of. by rewrite En.
Qed.

(** *** Sequences of calls *)

Inductive call :=
| CRead (ns key : string) (version : option Height)
| CWrite (ns key : string) (value : option bytes)
| CRange (ns : string) (rqi : RangeQueryInfo).

Definition apply_call (rws : RWSetBuilder) (c : call) : RWSetBuilder :=
  match c with
  | CRead ns key version => AddToReadSet rws ns key version
  | CWrite ns key value => AddToWriteSet rws ns key value
  | CRange ns rqi => AddToRangeQuerySet rws ns rqi
  end.

Definition build (calls : list call) : RWSetBuilder := foldl apply_call NewRWSetBuilder calls.

Lemma build_ok calls : builder_ok (build calls).
Proof.
  unfold build. generalize new_ok. generalize NewRWSetBuilder.
  induction calls as [|c calls IH]; intros b Hb; [done|]. cbn. apply IH.
  destruct c; [by apply AddToReadSet_ok|by apply AddToWriteSet_ok|by apply AddToRangeQuerySet_ok].
Qed.

(** The value of the last write of a key. *)
Fixpoint last_write (calls : list call) (ns key : string) : option (option bytes) :=
  match calls with
  | [] => None
  | c :: calls' =>
      match last_write calls' ns key with
      | Some v => Some v
      | None =>
          match c with
          | CWrite ns' key' v => if decide (ns' = ns /\ key' = key) then Some v else None
          | _ => None
          end
      end
  end.

Lemma write_of_calls calls b ns key :
  write_of (foldl apply_call b calls) ns key =
  match last_write calls ns key with
  | Some v => Some (newKVWrite key v)
  | None => write_of b ns key
  end.
Proof.
  revert b. induction calls as [|c calls IH]; intros b; [done|]. cbn. rewrite IH.
  destruct (last_write calls ns key); [done|]. destruct c as [ns' key' ver|ns' key' v|ns' q]; cbn.
  - apply write_of_AddToReadSet.
  - rewrite write_of_AddToWriteSet. case_decide as Hc; [|done]. by destruct Hc as [_ ->].
  - apply write_of_AddToRangeQuerySet.
Qed.

End Builder.

(** ** Theorems *)

Module RWSetTheorems.
Import RWSetUtil Builder.

(** The read-write set of any sequence of builder calls.  The namespaces
    are in order, each once; in each the reads and the writes are in key order,
    each key once; and a namespace lists a write just if it is that of the
    last call that wrote the key, a deletion if its value was nil. *)
Theorem rwset_of_calls (calls : list call) :
  let rw := GetTxReadWriteSet (build calls) in
  sorted_keys (NameSpace <$> rw) /\
  (forall s, s ∈ rw -> sorted_keys (kvr_Key <$> Reads (KvRwSet s)) /\
                       sorted_keys (kvw_Key <$> Writes (KvRwSet s))) /\
  (forall ns w, (exists s, s ∈ rw /\ NameSpace s = ns /\ w ∈ Writes (KvRwSet s)) <->
     exists v, last_write calls ns (kvw_Key w) = Some v /\ w = newKVWrite (kvw_Key w) v).
Proof.
  intros rw. pose proof (build_ok calls) as Hok. split; [|split].
  - unfold rw. rewrite GetTxReadWriteSet_names. apply GetSortedKeys_sorted.
  - intros s (n & En & ->)%elem_of_GetTxReadWriteSet.
    destruct (ns_set_keys _ _ _ Hok En) as [-> ->]. split; apply GetSortedKeys_sorted.
  - intros ns w. unfold rw. rewrite rwset_write by done. unfold build. rewrite write_of_calls.
    destruct (last_write calls ns (kvw_Key w)) as [v|]; [|by split; [|intros (? & ? & _)]].
    split; [intros [= E]; by exists v|]. intros (v' & [= ->] & E). by rewrite <- E.
Qed.

End RWSetTheorems.
