(* ===== verification/Merkle.v ===== *)
(** * Hashing of range query results

    core/ledger/kvledger/txmgmt/rwsetutil/query_results_helper.go: the results
    of a range query are recorded raw up to [maxDegree] of them, and as the
    top level of a Merkle tree beyond.  The tree is built as the results
    arrive.  The hash function of the crypto provider and the serialization of
    the results are parameters. *)

From stdpp Require Import base gmap strings list.
From Stdlib Require Import Ascii ZArith Lia.
From S2P Require Import Prelude StateDB RWSet.

Module Merkle.

Class Hashing := {
  (** [bccspfactory.GetDefault().Hash(_, SHA256Opts)] *)
  hash : bytes -> res bytes;
  (** [proto.Marshal(&kvrwset.QueryReads{KvReads: kvReads})] *)
  serializeKVReads : list KVRead -> res bytes
}.

Section Tree.
Context `{Hashing}.

Definition leafLevel : nat := 1.

Record merkleTree := mkTree {
  tree : gmap nat (list bytes);
  maxLevel : nat;
  maxDegree : nat
}.

Definition newMerkleTree (maxDegree : nat) : res merkleTree :=
  if maxDegree <? 2 then Err "maxDegree should not be less than 2 in the merkle tree"
  else Ok (mkTree ∅ 1 maxDegree).

(** [m.tree[level]]: nil if absent *)
Definition level_hashes (t : gmap nat (list bytes)) (level : nat) : list bytes :=
  default [] (t !! level).

Definition computeCombinedHash (hashes : list bytes) : res bytes := hash (concat hashes).

(** Methods that fail half way leave the tree changed, so they return it with
    the result. *)
Fixpoint update_loop (fuel : nat) (m : merkleTree) (currentLevel : nat) : merkleTree * res unit :=
  match fuel with
  | O => (m, OutOfFuel)
  | S fuel' =>
      let currentLevelHashes := level_hashes (tree m) currentLevel in
      if length currentLevelHashes <=? maxDegree m then (m, Ok tt)
      else
        match computeCombinedHash currentLevelHashes with
        | Ok nextLevelHash =>
            let t := delete currentLevel (tree m) in
            let nextLevel := S currentLevel in
            let t := <[nextLevel := level_hashes t nextLevel ++ [nextLevelHash]]> t in
            update_loop fuel' (mkTree t (max (maxLevel m) nextLevel) (maxDegree m)) nextLevel
        | Err e => (m, Err e)
        | Panic p => (m, Panic p)
        | OutOfFuel => (m, OutOfFuel)
        end
  end.

(** The loop climbs one level a round and stops at the first level above
    [maxLevel] at the latest. *)
Definition update (m : merkleTree) (nextLeafLevelHash : bytes) : merkleTree * res unit :=
  let t := <[leafLevel := level_hashes (tree m) leafLevel ++ [nextLeafLevelHash]]> (tree m) in
  update_loop (S (maxLevel m)) (mkTree t (maxLevel m) (maxDegree m)) leafLevel.

(** The first loop of [done]; [n] is [maxLevel - currentLevel]. *)
Fixpoint done_loop (n : nat) (t : gmap nat (list bytes)) (currentLevel : nat)
    : gmap nat (list bytes) * res unit :=
  match n with
  | O => (t, Ok tt)
  | S n' =>
      let climb h :=
        let t := delete currentLevel t in
        done_loop n' (<[S currentLevel := level_hashes t (S currentLevel) ++ [h]]> t) (S currentLevel) in
      match level_hashes t currentLevel with
      | [] => done_loop n' t (S currentLevel)
      | [h] => climb h
      | currentLevelHashes =>
          match computeCombinedHash currentLevelHashes with
          | Ok h => climb h
          | Err e => (t, Err e)
          | Panic p => (t, Panic p)
          | OutOfFuel => (t, OutOfFuel)
          end
      end
  end.

Definition done (m : merkleTree) : merkleTree * res unit :=
  let '(t, r) := done_loop (maxLevel m - leafLevel) (tree m) leafLevel in
  let m := mkTree t (maxLevel m) (maxDegree m) in
  match r with
  | Ok _ =>
      let finalHashes := level_hashes (tree m) (maxLevel m) in
      if maxDegree m <? length finalHashes then
        let t := delete (maxLevel m) (tree m) in
        let m := mkTree t (S (maxLevel m)) (maxDegree m) in
        match computeCombinedHash finalHashes with
        | Ok combinedHash => (mkTree (<[maxLevel m := [combinedHash]]> t) (maxLevel m) (maxDegree m), Ok tt)
        | Err e => (m, Err e)
        | Panic p => (m, Panic p)
        | OutOfFuel => (m, OutOfFuel)
        end
      else (m, Ok tt)
  | _ => (m, r)
  end.

Definition getMaxLevelHashes (m : merkleTree) : list bytes := level_hashes (tree m) (maxLevel m).

Definition getSummery (m : merkleTree) : QueryReadsMerkleSummary :=
  mkSummary (maxDegree m) (maxLevel m) (getMaxLevelHashes m).

Definition isEmpty (m : merkleTree) : bool :=
  (maxLevel m =? 1) && (length (level_hashes (tree m) (maxLevel m)) =? 0).

(** ** The results helper

    [mt] is nil if hashing is disabled. *)

Record RangeQueryResultsHelper := mkHelper {
  pendingResults : list KVRead;
  mt : option merkleTree;
  hMaxDegree : nat;
  hashingEnabled : bool
}.

Definition NewRangeQueryResultsHelper (enableHashing : bool) (maxDegree : nat)
    : res RangeQueryResultsHelper :=
  if enableHashing then
    m ← newMerkleTree maxDegree;
    Ok (mkHelper [] (Some m) maxDegree enableHashing)
  else Ok (mkHelper [] None maxDegree enableHashing).

(** The error that [mt.update] returns is dropped. *)
Definition processPendingResults (helper : RangeQueryResultsHelper)
    : RangeQueryResultsHelper * res unit :=
  match serializeKVReads (pendingResults helper) with
  | Ok b =>
      let helper := mkHelper [] (mt helper) (hMaxDegree helper) (hashingEnabled helper) in
      match hash b with
      | Ok h =>
          match mt helper with
          | None => (helper, Panic "nil pointer dereference")
          | Some m =>
              let '(m', r) := update m h in
              (mkHelper [] (Some m') (hMaxDegree helper) (hashingEnabled helper),
               match r with Ok _ | Err _ => Ok tt | p => p end)
          end
      | Err e => (helper, Err e)
      | Panic p => (helper, Panic p)
      | OutOfFuel => (helper, OutOfFuel)
      end
  | Err e => (helper, Err e)
  | Panic p => (helper, Panic p)
  | OutOfFuel => (helper, OutOfFuel)
  end.

Definition AddResult (helper : RangeQueryResultsHelper) (kvRead : KVRead)
    : RangeQueryResultsHelper * res unit :=
  let helper := mkHelper (pendingResults helper ++ [kvRead]) (mt helper)
                  (hMaxDegree helper) (hashingEnabled helper) in
  if hashingEnabled helper && (hMaxDegree helper <? length (pendingResults helper))
  then processPendingResults helper
  else (helper, Ok tt).

(** The pending results and the summary that [Done] returns (nil is [] and
    [None]), and the helper after it.  The error of [mt.done] is dropped. *)
Definition Done (helper : RangeQueryResultsHelper)
    : RangeQueryResultsHelper * res (list KVRead * option QueryReadsMerkleSummary) :=
  if negb (hashingEnabled helper) then (helper, Ok (pendingResults helper, None))
  else
    match mt helper with
    | None => (helper, Panic "nil pointer dereference")
    | Some m =>
        if isEmpty m then (helper, Ok (pendingResults helper, None))
        else
          let '(helper, r) :=
            if negb (length (pendingResults helper) =? 0) then processPendingResults helper
            else (helper, Ok tt) in
          match r with
          | Ok _ =>
              match mt helper with
              | None => (helper, Panic "nil pointer dereference")
              | Some m =>
                  let '(m', r) := done m in
                  let helper := mkHelper (pendingResults helper) (Some m')
                                  (hMaxDegree helper) (hashingEnabled helper) in
                  match r with
                  | Ok _ | Err _ => (helper, Ok (pendingResults helper, Some (getSummery m')))
                  | Panic p => (helper, Panic p)
                  | OutOfFuel => (helper, OutOfFuel)
                  end
              end
          | Err e => (helper, Err e)
          | Panic p => (helper, Panic p)
          | OutOfFuel => (helper, OutOfFuel)
          end
    end.

Definition GetMerkleSummary (helper : RangeQueryResultsHelper) : option QueryReadsMerkleSummary :=
  if negb (hashingEnabled helper) then None
  else match mt helper with Some m => Some (getSummery m) | None => None end.

End Tree.

(** ** Properties

    SHA-256 and the serialization of the results do not fail. *)

Class HashingSpec `{Hashing} := {
  hash_fn : bytes -> bytes;
  serialize_fn : list KVRead -> bytes;
  hash_spec b : hash b = Ok (hash_fn b);
  serialize_spec l : serializeKVReads l = Ok (serialize_fn l)
}.

Section Facts.
Context `{HashingSpec}.

Lemma computeCombinedHash_ok hs : computeCombinedHash hs = Ok (hash_fn (concat hs)).
Proof. apply hash_spec. Qed.

Lemma level_hashes_insert t l hs l' :
  level_hashes (<[l := hs]> t) l' = if decide (l = l') then hs else level_hashes t l'.
Proof. unfold level_hashes. rewrite lookup_insert. by case_decide. Qed.

Lemma level_hashes_delete t l l' :
  level_hashes (delete l t) l' = if decide (l = l') then [] else level_hashes t l'.
Proof. unfold level_hashes. rewrite lookup_delete. by case_decide. Qed.

Lemma level_hashes_empty l : level_hashes ∅ l = [].
Proof. done. Qed.

(** *** The invariant of the tree between calls *)

Record tree_ok (m : merkleTree) : Prop := {
  degree_ok : 2 <= maxDegree m;
  level_ok : 1 <= maxLevel m;
  above_empty l : maxLevel m < l -> level_hashes (tree m) l = [];
  levels_short l : length (level_hashes (tree m) l) <= maxDegree m
}.

Lemma newMerkleTree_ok d m : newMerkleTree d = Ok m -> tree_ok m.
Proof.
  unfold newMerkleTree. destruct (Nat.ltb_spec d 2); [done|]. intros [= <-].
  split; cbn; intros; rewrite ?level_hashes_empty; cbn; lia || done.
Qed.

(** *** The summary only grows

    Either the top level rises, or it gains hashes at the end. *)
Definition summary_le (s1 s2 : QueryReadsMerkleSummary) : Prop :=
  MaxDegree s1 = MaxDegree s2 /\
  (MaxLevel s1 < MaxLevel s2 \/
   (MaxLevel s1 = MaxLevel s2 /\ MaxLevelHashes s1 `prefix_of` MaxLevelHashes s2)).

#[global] Instance summary_le_preorder : PreOrder summary_le.
Proof.
  split.
  - intros s. split; [done|]. by right.
  - intros s1 s2 s3 [D1 [L1|[L1 P1]]] [D2 [L2|[L2 P2]]]; (split; [congruence|]).
    + left. lia.
    + left. lia.
    + left. lia.
    + right. split; [congruence|]. by etrans.
Qed.

Definition append_at (t : gmap nat (list bytes)) (l : nat) (h : bytes) : gmap nat (list bytes) :=
  <[l := level_hashes t l ++ [h]]> t.

Lemma level_hashes_append t l h l' :
  level_hashes (append_at t l h) l' =
  if decide (l = l') then level_hashes t l ++ [h] else level_hashes t l'.
Proof. apply level_hashes_insert. Qed.

Lemma summary_append t l h ml d :
  summary_le (getSummery (mkTree t ml d)) (getSummery (mkTree (append_at t l h) ml d)).
Proof.
  unfold summary_le, getSummery, getMaxLevelHashes; cbn. split; [done|]. right. split; [done|].
  rewrite level_hashes_append. case_decide as E; [subst|done]. by apply prefix_app_r.
Qed.

(** One round up: level [c] is replaced by one hash at level [S c]. *)
Definition climb (t : gmap nat (list bytes)) (c : nat) (h : bytes) : gmap nat (list bytes) :=
  append_at (delete c t) (S c) h.

Lemma level_hashes_climb t c h l :
  level_hashes (climb t c h) l =
  if decide (l = c) then []
  else if decide (l = S c) then level_hashes t (S c) ++ [h] else level_hashes t l.
Proof.
  unfold climb. rewrite level_hashes_append, !level_hashes_delete.
  repeat case_decide; subst; done || lia.
Qed.

Lemma summary_climb t c h ml d :
  c <= ml ->
  summary_le (getSummery (mkTree t ml d)) (getSummery (mkTree (climb t c h) (max ml (S c)) d)).
Proof.
  intros Hc. unfold summary_le, getSummery, getMaxLevelHashes; cbn. split; [done|].
  destruct (decide (c = ml)) as [->|]; [left; lia|]. right. rewrite Nat.max_l by lia.
  split; [done|]. rewrite level_hashes_climb.
  repeat case_decide; subst; try lia; try done. by apply prefix_app_r.
Qed.

Record loop_ok (m : merkleTree) (c : nat) : Prop := {
  lo_degree : 2 <= maxDegree m;
  lo_c : 1 <= c <= maxLevel m;
  lo_above l : maxLevel m < l -> level_hashes (tree m) l = [];
  lo_short l : l <> c -> length (level_hashes (tree m) l) <= maxDegree m;
  lo_here : length (level_hashes (tree m) c) <= S (maxDegree m)
}.

Lemma loop_ok_climb m c h :
  loop_ok m c -> loop_ok (mkTree (climb (tree m) c h) (max (maxLevel m) (S c)) (maxDegree m)) (S c).
Proof.
  intros [Hd Hc Ha Hs Hh]. split; cbn; try lia; intros.
  - rewrite level_hashes_climb. repeat case_decide; subst; try done; try lia. apply Ha. lia.
  - rewrite level_hashes_climb. repeat case_decide; subst; cbn; try lia. by apply Hs.
  - rewrite level_hashes_climb. rewrite decide_False by lia. rewrite decide_True by done.
    rewrite length_app. cbn. specialize (Hs (S c)). lia.
Qed.

(** What one more leaf does to the top of the tree: nothing, one more hash, or
    a full top level is folded into the first hash of a new one. *)
Definition summary_step (s1 s2 : QueryReadsMerkleSummary) : Prop :=
  MaxDegree s1 = MaxDegree s2 /\
  ((MaxLevel s2 = MaxLevel s1 /\
      (MaxLevelHashes s2 = MaxLevelHashes s1 \/ exists h, MaxLevelHashes s2 = MaxLevelHashes s1 ++ [h])) \/
   (MaxLevel s2 = S (MaxLevel s1) /\ length (MaxLevelHashes s1) = MaxDegree s1 /\
      exists h, MaxLevelHashes s2 = [h])).

Lemma summary_step_le s1 s2 : summary_step s1 s2 -> summary_le s1 s2.
Proof.
  intros [Hd [[Hl Hh]|(Hl & _)]]; (split; [done|]); [right|left; lia].
  split; [done|]. destruct Hh as [->|[h ->]]; [done|]. by apply prefix_app_r.
Qed.

#[global] Instance summary_step_refl : Reflexive summary_step.
Proof. intros s. split; [done|]. left. split; [done|]. by left. Qed.

(** The loop at level [c] of a tree that may have one hash too many there. *)
Definition loop_step (m : merkleTree) (c : nat) (m' : merkleTree) : Prop :=
  if decide (c = maxLevel m) then
    (m' = m /\ length (level_hashes (tree m) c) <= maxDegree m) \/
    (maxLevel m' = S c /\ length (level_hashes (tree m) c) = S (maxDegree m) /\
       exists h, level_hashes (tree m') (S c) = [h])
  else summary_step (getSummery m) (getSummery m').

Lemma loop_step_climb m c h m' :
  loop_ok m c -> length (level_hashes (tree m) c) = S (maxDegree m) ->
  maxDegree m' = maxDegree m ->
  loop_step (mkTree (climb (tree m) c h) (max (maxLevel m) (S c)) (maxDegree m)) (S c) m' ->
  loop_step m c m'.
Proof.
  intros [Hd Hc Ha Hs Hh] Hlen Hdeg. unfold loop_step. cbn [maxLevel tree maxDegree].
  destruct (decide (c = maxLevel m)) as [->|Hne].
  - rewrite decide_True by lia. rewrite level_hashes_climb, decide_False, decide_True by lia.
    rewrite (Ha (S (maxLevel m))) by lia. cbn [app length].
    intros [[-> _]|(_ & ? & _)]; [|lia]. right. cbn [maxLevel tree].
    split; [lia|]. split; [done|]. exists h.
    by rewrite level_hashes_climb, decide_False, decide_True, (Ha (S (maxLevel m))) by lia.
  - rewrite Nat.max_l by lia. unfold getSummery, getMaxLevelHashes. cbn [maxLevel tree maxDegree].
    case_decide as Hsc.
    + rewrite level_hashes_climb, decide_False, decide_True by lia.
      rewrite length_app. cbn [length]. rewrite Hsc.
      intros [[-> _]|(Hl' & Hl & h' & Hh')]; cbn [maxLevel tree maxDegree].
      * split; [done|]. left. split; [done|]. right. exists h. cbn.
        rewrite level_hashes_climb, decide_False, decide_True by lia. by rewrite Hsc.
      * split; [done|]. right. cbn. rewrite Hl'. split; [done|]. split; [lia|]. by exists h'.
    + unfold summary_step; cbn. by rewrite level_hashes_climb, !decide_False by lia.
Qed.

Lemma update_loop_spec fuel m c :
  loop_ok m c -> maxLevel m - c + 2 <= fuel \/ (length (level_hashes (tree m) c) <= maxDegree m /\ 1 <= fuel) ->
  exists m', update_loop fuel m c = (m', Ok tt) /\ tree_ok m' /\
    maxDegree m' = maxDegree m /\ loop_step m c m'.
Proof.
  revert m c. induction fuel as [|fuel IH]; intros m c Hl Hf; [lia|].
  cbn [update_loop]. destruct Hl as [Hd Hc Ha Hs Hh] eqn:E; clear E.
  destruct (Nat.leb_spec (length (level_hashes (tree m) c)) (maxDegree m)) as [Hle|Hgt].
  - exists m. split; [done|]. split; [|split; [done|]].
    + split; [lia|lia|done|]. intros l. destruct (decide (l = c)) as [->|]; [done|by apply Hs].
    + unfold loop_step. case_decide; [by left|done].
  - rewrite computeCombinedHash_ok. set (h := hash_fn _).
    change (<[S c := level_hashes (delete c (tree m)) (S c) ++ [h]]> (delete c (tree m)))
      with (climb (tree m) c h).
    destruct (IH (mkTree (climb (tree m) c h) (max (maxLevel m) (S c)) (maxDegree m)) (S c))
      as (m' & Eu & Hok & Hdeg & Hstep).
    + by apply loop_ok_climb.
    + cbn. destruct Hf as [Hf|[? _]]; [|lia]. destruct (decide (c = maxLevel m)) as [Ec|].
      * right. split; [|lia]. rewrite level_hashes_climb.
        rewrite decide_False by lia. rewrite decide_True by done.
        rewrite Ha by lia. cbn. lia.
      * left. lia.
    + exists m'. split; [done|]. split; [done|]. split; [done|].
      apply (loop_step_climb m c h); done || lia.
Qed.

Lemma update_spec m h :
  tree_ok m ->
  exists m', update m h = (m', Ok tt) /\ tree_ok m' /\
    maxDegree m' = maxDegree m /\ summary_step (getSummery m) (getSummery m').
Proof.
  intros [Hd Hm Ha Hs]. unfold update.
  change (<[leafLevel := level_hashes (tree m) leafLevel ++ [h]]> (tree m))
    with (append_at (tree m) leafLevel h).
  destruct (update_loop_spec (S (maxLevel m))
    (mkTree (append_at (tree m) leafLevel h) (maxLevel m) (maxDegree m)) leafLevel)
    as (m' & Eu & Hok & Hdeg & Hstep).
  - unfold leafLevel. split; cbn; try lia; intros; rewrite level_hashes_append;
      repeat case_decide; try lia; auto.
    rewrite length_app. specialize (Hs 1). cbn. lia.
  - left. cbn. unfold leafLevel. lia.
  - exists m'. split; [done|]. split; [done|]. split; [done|]. revert Hstep.
    unfold loop_step, summary_step, getSummery, getMaxLevelHashes.
    cbn [maxLevel tree maxDegree MaxDegree MaxLevel MaxLevelHashes].
    case_decide as Hl.
    + rewrite level_hashes_append, decide_True, length_app, <- Hl by done.
      intros [[-> _]|(Hl' & Hlen & h' & Hh')]; (split; [done|]); cbn [length maxLevel tree] in *.
      * left. split; [done|]. right. exists h.
        by rewrite Hl, level_hashes_append, decide_True.
      * right. rewrite Hl'. split; [done|]. split; [lia|]. by exists h'.
    + by rewrite level_hashes_append, decide_False.
Qed.

(** *** Completing the tree *)

Lemma done_loop_spec n t c ml d :
  ml = c + n ->
  exists t', done_loop n t c = (t', Ok tt) /\
    summary_le (getSummery (mkTree t ml d)) (getSummery (mkTree t' ml d)).
Proof.
  revert t c. induction n as [|n IH]; intros t c Hml; [by exists t|].
  assert (forall h, summary_le (getSummery (mkTree t ml d)) (getSummery (mkTree (climb t c h) ml d))) as Hcl.
  { intros h. pose proof (summary_climb t c h ml d) as Hs. rewrite Nat.max_l in Hs by lia.
    apply Hs. lia. }
  assert (forall h, exists t', done_loop n (climb t c h) (S c) = (t', Ok tt) /\
    summary_le (getSummery (mkTree t ml d)) (getSummery (mkTree t' ml d))) as Hgo.
  { intros h. destruct (IH (climb t c h) (S c)) as (t' & E & Hs); [lia|].
    exists t'. split; [done|]. etrans; [apply Hcl|exact Hs]. }
  cbn [done_loop]. destruct (level_hashes t c) as [|h [|h' hs]].
  - destruct (IH t (S c)) as (t' & E & Hs); [lia|]. by exists t'.
  - apply (Hgo h).
  - rewrite computeCombinedHash_ok. apply Hgo.
Qed.

Lemma done_spec m :
  tree_ok m ->
  exists m', done m = (m', Ok tt) /\ maxDegree m' = maxDegree m /\
    summary_le (getSummery m) (getSummery m').
Proof.
  intros [Hd Hm Ha Hs]. unfold done.
  destruct (done_loop_spec (maxLevel m - leafLevel) (tree m) leafLevel (maxLevel m) (maxDegree m))
    as (t' & -> & Hsum); [unfold leafLevel; lia|].
  cbn [maxLevel maxDegree tree]. destruct (maxDegree m <? _).
  - rewrite computeCombinedHash_ok. eexists. split; [done|]. split; [done|].
    split; [done|]. left. cbn. lia.
  - eexists. split; [done|]. split; [done|]. by destruct m.
Qed.

(** *** The helper *)

Record helper_ok (h : RangeQueryResultsHelper) (m : merkleTree) : Prop := {
  ho_enabled : hashingEnabled h = true;
  ho_mt : mt h = Some m;
  ho_tree : tree_ok m;
  ho_degree : hMaxDegree h = maxDegree m
}.

Lemma NewRangeQueryResultsHelper_ok d :
  2 <= d ->
  exists h, NewRangeQueryResultsHelper true d = Ok h /\ helper_ok h (mkTree ∅ 1 d) /\
            pendingResults h = [].
Proof.
  intros Hd. unfold NewRangeQueryResultsHelper, newMerkleTree.
  destruct (Nat.ltb_spec d 2); [lia|]. eexists. split; [done|]. split; [|done]. split; try done.
  split; cbn; intros; rewrite ?level_hashes_empty; cbn; lia || done.
Qed.

Lemma processPendingResults_spec h m :
  helper_ok h m ->
  exists h' m', processPendingResults h = (h', Ok tt) /\ helper_ok h' m' /\
    pendingResults h' = [] /\ maxDegree m' = maxDegree m /\ summary_step (getSummery m) (getSummery m').
Proof.
  intros [He Hm Ht Hd]. unfold processPendingResults. rewrite serialize_spec. cbn [mt].
  rewrite hash_spec, Hm. destruct (update_spec m (hash_fn (serialize_fn (pendingResults h))) Ht)
    as (m' & -> & Hok & Hdeg & Hs).
  eexists _, m'. split; [done|].
  split; [|by split; [|split]]. split; cbn; try done. congruence.
Qed.

Lemma update_nonempty m h m' :
  tree_ok m -> update m h = (m', Ok tt) -> isEmpty m' = false.
Proof.
  intros Hok E. destruct (update_spec m h Hok) as (m1 & E1 & Hok1 & _ & [_ Hs]).
  rewrite E in E1. injection E1 as <-. cbn in Hs. unfold isEmpty.
  destruct (Nat.eqb_spec (maxLevel m') 1) as [Hl|]; [|done]. cbn.
  change (level_hashes (tree m') (maxLevel m')) with (getMaxLevelHashes m').
  destruct Hs as [[Hl1 _]|(_ & _ & x & ->)]; [|done].
  (* still one level: the new leaf is there *)
  revert E. unfold update. cbn [update_loop tree]. rewrite level_hashes_insert, decide_True by done.
  cbn [maxDegree]. destruct (_ <=? _).
  - intros [= <-]. unfold getMaxLevelHashes. cbn [tree maxLevel].
    cbn [maxLevel] in Hl. rewrite Hl, level_hashes_insert, decide_True, length_app by done.
    apply Nat.eqb_neq. cbn. lia.
  - rewrite computeCombinedHash_ok. intros E. exfalso.
    assert (forall fuel m c m2, update_loop fuel m c = (m2, Ok tt) -> maxLevel m <= maxLevel m2) as Hmono.
    { clear -H0. induction fuel as [|fuel IH]; intros m c m2; [done|]. cbn [update_loop].
      destruct (_ <=? _); [by intros [= <-]|]. rewrite computeCombinedHash_ok.
      intros E%IH. cbn in E. lia. }
    apply Hmono in E. cbn in E. unfold leafLevel in E. lia.
Qed.

Lemma processPendingResults_flush h m :
  helper_ok h m ->
  exists h' m', processPendingResults h = (h', Ok tt) /\ helper_ok h' m' /\ isEmpty m' = false.
Proof.
  intros Hh. destruct (processPendingResults_spec h m Hh) as (h' & m' & E & Hh' & _).
  exists h', m'. split; [done|]. split; [done|]. revert E. unfold processPendingResults.
  rewrite serialize_spec. cbn [mt]. rewrite hash_spec, (ho_mt _ _ Hh).
  destruct (update m _) as [m1 r] eqn:Eu. intros [= <- Er].
  destruct (update_spec m (hash_fn (serialize_fn (pendingResults h))) (ho_tree _ _ Hh)) as (m2 & E2 & _).
  rewrite Eu in E2. injection E2 as -> ->. pose proof (ho_mt _ _ Hh') as [= <-].
  by eapply update_nonempty; [apply Hh|].
Qed.

Lemma AddResult_spec h m r :
  helper_ok h m ->
  exists h' m', AddResult h r = (h', Ok tt) /\ helper_ok h' m' /\
    maxDegree m' = maxDegree m /\ summary_step (getSummery m) (getSummery m').
Proof.
  intros Hh. unfold AddResult. cbn [hashingEnabled hMaxDegree pendingResults].
  assert (forall p, helper_ok (mkHelper p (mt h) (hMaxDegree h) (hashingEnabled h)) m) as Hp.
  { intros p. by destruct Hh. }
  destruct (_ && _).
  - destruct (processPendingResults_spec _ m (Hp (pendingResults h ++ [r])))
      as (h' & m' & E & Hok & _ & Hdeg & Hs). by exists h', m'.
  - eexists _, m. by split; [|split].
Qed.

Lemma Done_spec h m :
  helper_ok h m ->
  exists h' p s, Done h = (h', Ok (p, s)) /\
    match s with
    | None => isEmpty m = true /\ p = pendingResults h
    | Some s => isEmpty m = false /\ p = [] /\ summary_le (getSummery m) s
    end.
Proof.
  intros Hh. destruct Hh as [He Hm Ht Hd] eqn:E; clear E. unfold Done. rewrite He, Hm. cbn [negb].
  destruct (isEmpty m) eqn:Ee; [by eexists _, _, None|].
  assert (exists h1 m1, (if negb (length (pendingResults h) =? 0) then processPendingResults h
    else (h, Ok tt)) = (h1, Ok tt) /\ helper_ok h1 m1 /\ pendingResults h1 = [] /\
      summary_le (getSummery m) (getSummery m1))
    as (h1 & m1 & -> & [He1 Hm1 Ht1 Hd1] & Hp1 & Hs1).
  { destruct (pendingResults h) eqn:Ep; [by exists h, m|].
    destruct (processPendingResults_spec h m Hh) as (h1 & m1 & E1 & Hok & Hp & _ & Hs).
    exists h1, m1. split; [done|]. split; [done|]. split; [done|]. by apply summary_step_le. }
  rewrite Hm1. destruct (done_spec m1 Ht1) as (m2 & -> & Hd2 & Hs2).
  eexists _, _, (Some _). split; [done|]. split; [done|]. split; [done|]. by etrans.
Qed.

Lemma isEmpty_le m m' :
  isEmpty m = false -> summary_le (getSummery m) (getSummery m') -> 1 <= maxLevel m -> isEmpty m' = false.
Proof.
  unfold isEmpty. intros He [_ Hs] Hm. cbn in Hs. unfold getMaxLevelHashes in Hs.
  destruct Hs as [Hl|[Hl [k Hk]]].
  - destruct (Nat.eqb_spec (maxLevel m') 1); [lia|done].
  - rewrite <- Hl. rewrite <- Hl in Hk. destruct (Nat.eqb_spec (maxLevel m) 1); [|done]. cbn in *.
    rewrite Hk, length_app. apply Nat.eqb_neq. apply Nat.eqb_neq in He. lia.
Qed.

Lemma GetMerkleSummary_spec h m : helper_ok h m -> GetMerkleSummary h = Some (getSummery m).
Proof. intros [He Hm _ _]. unfold GetMerkleSummary. by rewrite He, Hm. Qed.

(** The results a caller feeds to a helper, and what [Done] makes of them. *)
Definition add_results (h : RangeQueryResultsHelper) (l : list KVRead) : RangeQueryResultsHelper :=
  foldl (fun h r => fst (AddResult h r)) h l.

Lemma add_results_ok h m l :
  helper_ok h m ->
  exists m', helper_ok (add_results h l) m' /\ summary_le (getSummery m) (getSummery m').
Proof.
  revert h m. induction l as [|r l IH]; intros h m Hh; [by exists m|].
  destruct (AddResult_spec h m r Hh) as (h1 & m1 & E & Hok & _ & Hs).
  cbn. rewrite E. destruct (IH h1 m1 Hok) as (m' & Hok' & Hs'). exists m'. split; [done|].
  etrans; [by apply summary_step_le|done].
Qed.

(** Up to the degree the results are kept as they are. *)
Lemma add_results_short h m l :
  helper_ok h m -> length (pendingResults h) + length l <= hMaxDegree h ->
  add_results h l = mkHelper (pendingResults h ++ l) (mt h) (hMaxDegree h) (hashingEnabled h).
Proof.
  revert h. induction l as [|r l IH]; intros h Hh Hl; cbn [length] in Hl.
  { rewrite app_nil_r. by destruct h. }
  cbn [add_results foldl]. unfold AddResult. cbn [hashingEnabled hMaxDegree pendingResults mt].
  rewrite (ho_enabled _ _ Hh), length_app. cbn [length andb].
  rewrite (proj2 (Nat.ltb_ge _ _)) by lia. cbn [fst].
  unfold add_results in IH. rewrite IH.
  - cbn. by rewrite <- app_assoc.
  - split; cbn; [done|apply Hh..].
  - cbn. rewrite length_app. cbn. lia.
Qed.

(** Beyond it the tree is never empty again. *)
Lemma add_results_long h m l :
  helper_ok h m -> hMaxDegree h < length (pendingResults h) + length l ->
  length (pendingResults h) <= hMaxDegree h ->
  exists m', helper_ok (add_results h l) m' /\ isEmpty m' = false.
Proof.
  revert h m. induction l as [|r l IH]; intros h m Hh Hl Hp; cbn [length] in Hl; [lia|].
  destruct (decide (length (pendingResults h) = hMaxDegree h)) as [Hfull|Hroom].
  - cbn [add_results foldl]. unfold AddResult. cbn [hashingEnabled hMaxDegree pendingResults mt].
    rewrite (ho_enabled _ _ Hh), length_app. cbn [length andb].
    rewrite (proj2 (Nat.ltb_lt _ _)) by lia.
    set (h1 := mkHelper _ _ _ _).
    assert (helper_ok h1 m) as Hh1 by (split; cbn; [done|apply Hh..]).
    destruct (processPendingResults_flush h1 m Hh1) as (h2 & m2 & -> & Hh2 & He). cbn [fst].
    destruct (add_results_ok h2 m2 l Hh2) as (m' & Hm' & Hs). exists m'. split; [done|].
    eapply isEmpty_le; [done|done|]. apply Hh2.
  - cbn [add_results foldl]. unfold AddResult. cbn [hashingEnabled hMaxDegree pendingResults mt].
    rewrite (ho_enabled _ _ Hh), length_app. cbn [length andb].
    rewrite (proj2 (Nat.ltb_ge _ _)) by lia. cbn [fst]. eapply IH.
    + split; cbn; [done|apply Hh..].
    + cbn. rewrite length_app. cbn. lia.
    + cbn. rewrite length_app. cbn. lia.
Qed.

End Facts.
End Merkle.
