(* ===== verification/Proto.v ===== *)
(** * Envelopes and blocks

    The messages of protos/common and protos/peer that the ledger and the
    orderer read, and the accessors of protos/utils.  The generated
    unmarshalling code is a parameter, [ProtoCodec]. *)

From stdpp Require Import base gmap strings list.
From Stdlib Require Import Ascii ZArith Lia.
From S2P Require Import Prelude.

(** ** Marshalling *)

(** [proto.Marshal] of a type of message *)
Class Message (T : Type) := marshal : T -> res bytes.

(** What the generated code promises of the [proper] messages of a type: the
    bytes of a message are unmarshalled to it, and only the message with the
    default values has no bytes. *)
Class MessageSpec (T : Type) `{Message T} (unmarshal : bytes -> res T) (zero : T) (proper : T -> Prop) : Prop := {
  marshal_roundtrip t : proper t -> exists b, marshal t = Ok b /\ unmarshal b = Ok t;
  marshal_empty t : proper t -> marshal t = Ok [] -> t = zero
}.

(** ** Messages *)

Record Envelope := mkEnvelope { env_Payload : bytes; env_Signature : bytes }.

Record Header := mkHeader { hdr_ChannelHeader : bytes; hdr_SignatureHeader : bytes }.

(** [Header] may be nil. *)
Record Payload := mkPayload { pl_Header : option Header; pl_Data : bytes }.

(** [common.HeaderType] *)
Inductive HeaderType :=
| MESSAGE | CONFIG | CONFIG_UPDATE | ENDORSER_TRANSACTION | ORDERER_TRANSACTION
| DELIVER_SEEK_INFO | CHAINCODE_PACKAGE | OTHER_TYPE (t : Z).

Record ChannelHeader := mkChannelHeader {
  ch_Type : HeaderType;
  ch_Timestamp : Z;
  ch_ChannelId : string;
  ch_TxId : string;
  ch_Epoch : Z;
  ch_Extension : bytes
}.

Record TransactionAction := mkTransactionAction { ta_Header : bytes; ta_Payload : bytes }.

Record Transaction := mkTransaction { tx_Actions : list TransactionAction }.

Record Endorsement := mkEndorsement { end_Endorser : bytes; end_Signature : bytes }.

(** [ProposalResponsePayload] may be nil. *)
Record ChaincodeEndorsedAction := mkCEA {
  cea_ProposalResponsePayload : option bytes;
  cea_Endorsements : list Endorsement
}.

(** [Action] may be nil. *)
Record ChaincodeActionPayload := mkCAP {
  cap_ChaincodeProposalPayload : bytes;
  cap_Action : option ChaincodeEndorsedAction
}.

Record ProposalResponsePayload := mkPRP { prp_ProposalHash : bytes; prp_Extension : option bytes }.

Record ChaincodeID := mkChaincodeID { cid_Name : string; cid_Version : string }.

Record Response := mkResponse { resp_Status : Z; resp_Message : string; resp_Payload : bytes }.

Record ChaincodeAction := mkCA {
  ca_Results : bytes;
  ca_Events : bytes;
  ca_Response : option Response;
  ca_ChaincodeId : option ChaincodeID
}.

Record BlockHeader := mkBlockHeader {
  Number : Z;
  PreviousHash : bytes;
  DataHash : bytes
}.

(** [Data] and [Metadata] are the byte slices inside the messages of the same
    name. *)
Record Block := mkBlock {
  blk_Header : BlockHeader;
  blk_Data : list bytes;
  blk_Metadata : list bytes
}.

#[export] Instance HeaderType_eq_dec : EqDecision HeaderType.
Proof. solve_decision. Defined.
#[export] Instance Envelope_eq_dec : EqDecision Envelope.
Proof. solve_decision. Defined.
#[export] Instance BlockHeader_eq_dec : EqDecision BlockHeader.
Proof. solve_decision. Defined.
#[export] Instance Block_eq_dec : EqDecision Block.
Proof. solve_decision. Defined.

(** [common.BlockMetadataIndex] *)
Definition SIGNATURES : nat := 0.
Definition LAST_CONFIG : nat := 1.
Definition TRANSACTIONS_FILTER : nat := 2.
Definition ORDERER : nat := 3.

(** ** Unmarshalling *)

Class ProtoCodec := {
  unmarshal_Envelope : bytes -> res Envelope;
  unmarshal_Payload : bytes -> res Payload;
  unmarshal_ChannelHeader : bytes -> res ChannelHeader;
  unmarshal_Transaction : bytes -> res Transaction;
  unmarshal_ChaincodeActionPayload : bytes -> res ChaincodeActionPayload;
  unmarshal_ProposalResponsePayload : bytes -> res ProposalResponsePayload;
  unmarshal_ChaincodeAction : bytes -> res ChaincodeAction
}.

Module ProtoUtils.
Section ProtoUtils.
Context `{ProtoCodec}.

Definition GetEnvelopeFromBlock (data : bytes) : res Envelope :=
  match unmarshal_Envelope data with
  | Err e => Err ("Error getting envelope(" +:+ e +:+ ")")
  | r => r
  end.

Definition GetPayload (e : Envelope) : res Payload := unmarshal_Payload (env_Payload e).

Definition GetTransaction (txBytes : bytes) : res Transaction := unmarshal_Transaction txBytes.

Definition UnmarshalChannelHeader (bs : bytes) : res ChannelHeader :=
  match unmarshal_ChannelHeader bs with
  | Err e => Err ("UnmarshalChannelHeader failed, err " +:+ e)
  | r => r
  end.

(** [payload.Header.ChannelHeader]; the field access panics on a nil header. *)
Definition payload_ChannelHeader (p : Payload) : res bytes :=
  match pl_Header p with
  | None => Panic "nil pointer dereference"
  | Some h => Ok (hdr_ChannelHeader h)
  end.

(** The first component of the result of the source is the action payload; its
    callers here drop it. *)
Definition GetPayloads (txAction : TransactionAction) : res ChaincodeAction :=
  ccPayload ← unmarshal_ChaincodeActionPayload (ta_Payload txAction);
  match cap_Action ccPayload with
  | None | Some (mkCEA None _) => Err "no payload in ChaincodeActionPayload"
  | Some (mkCEA (Some prp) _) =>
      pRespPayload ← unmarshal_ProposalResponsePayload prp;
      match prp_Extension pRespPayload with
      | None => Err "response payload is missing extension"
      | Some ext => unmarshal_ChaincodeAction ext
      end
  end.

Definition GetActionFromEnvelope (envBytes : bytes) : res ChaincodeAction :=
  env ← GetEnvelopeFromBlock envBytes;
  payl ← GetPayload env;
  tx ← GetTransaction (pl_Data payl);
  match tx_Actions tx with
  | [] => Err "At least one TransactionAction is required"
  | a :: _ => GetPayloads a
  end.

(** [block.Metadata == nil] is the empty list. *)
Definition InitBlockMetadata (block : Block) : Block :=
  let md := blk_Metadata block in
  mkBlock (blk_Header block) (blk_Data block)
    (md ++ replicate (TRANSACTIONS_FILTER + 1 - length md) []).

End ProtoUtils.
End ProtoUtils.
