(* ===== verification/Instances.v ===== *)
(** * Concrete parameters

    Instances of the parameters of the development, on which its definitions
    can be evaluated: a serialization of the messages, a hash function, and
    small state databases over a store in memory.  They show that the laws the
    theorems assume of the parameters can hold. *)

From stdpp Require Import base gmap strings list countable.
From Stdlib Require Import Ascii ZArith Lia.
From S2P Require Import Prelude Version StateDB LevelDB StateLevelDB RWSet Merkle Proto.
Import RWSetUtil.

(** ** A serialization for every countable type

    The bits of the number of a value, one per byte. *)

Module Bits.

Fixpoint pos_bytes (p : positive) : bytes :=
  match p with
  | xH => []
  | xO p => "0"%char :: pos_bytes p
  | xI p => "1"%char :: pos_bytes p
  end.

Fixpoint bytes_pos (b : bytes) : positive :=
  match b with
  | [] => xH
  | c :: b => if decide (c = "1"%char) then xI (bytes_pos b) else xO (bytes_pos b)
  end.

Lemma bytes_pos_bytes p : bytes_pos (pos_bytes p) = p.
Proof. induction p as [p IH|p IH|]; cbn; [by rewrite IH..|done]. Qed.

Definition to_bits {A} `{Countable A} (a : A) : bytes := pos_bytes (encode a).

Definition from_bits {A} `{Countable A} (b : bytes) : res A :=
  match decode (bytes_pos b) with
  | Some a => Ok a
  | None => Err "proto: cannot parse message"
  end.

Lemma from_to_bits {A} `{Countable A} (a : A) : from_bits (to_bits a) = Ok a.
Proof. unfold from_bits, to_bits. by rewrite bytes_pos_bytes, decode_encode. Qed.

End Bits.
Import Bits.

(** ** Messages made of byte fields

    A field is its bytes, each after a mark, and an end mark. *)

Module Fields.

Fixpoint put_field (b : bytes) : bytes :=
  match b with
  | [] => ["0"%char]
  | c :: b => "1"%char :: c :: put_field b
  end.

Fixpoint put_fields (l : list bytes) : bytes :=
  match l with
  | [] => []
  | f :: l => put_field f ++ put_fields l
  end.

(** [cur] is the field being read, backwards. *)
Fixpoint get_fields (cur : bytes) (b : bytes) : list bytes :=
  match b with
  | [] => []
  | m :: b' =>
      if decide (m = "0"%char) then reverse cur :: get_fields [] b'
      else match b' with [] => [] | c :: b'' => get_fields (c :: cur) b'' end
  end.

Lemma get_put_field cur f rest :
  get_fields cur (put_field f ++ rest) = (reverse cur ++ f) :: get_fields [] rest.
Proof.
  revert cur. induction f as [|c f IH]; intros cur.
  - cbn [put_field app get_fields]. rewrite decide_True by done. by rewrite app_nil_r.
  - cbn [put_field app get_fields]. rewrite decide_False by done. rewrite IH.
    by rewrite reverse_cons, <- app_assoc.
Qed.

Lemma get_put_fields l : get_fields [] (put_fields l) = l.
Proof. induction l as [|f l IH]; [done|]. cbn [put_fields]. by rewrite get_put_field, IH. Qed.

Fixpoint ns_fields (l : list NsReadWriteSet) : list bytes :=
  match l with
  | [] => []
  | s :: l => to_bytes (ns_Namespace s) :: ns_Rwset s :: ns_fields l
  end.

Fixpoint fields_ns (l : list bytes) : list NsReadWriteSet :=
  match l with
  | ns :: rw :: l => mkNsReadWriteSet (to_string ns) rw :: fields_ns l
  | _ => []
  end.

Lemma fields_ns_fields l : fields_ns (ns_fields l) = l.
Proof.
  induction l as [|[ns rw] l IH]; [done|]. cbn. by rewrite IH, String.string_of_list_ascii_of_string.
Qed.

End Fields.
Import Fields.

(** ** The messages are countable *)

#[global] Instance ProtoVersion_countable : Countable ProtoVersion.
Proof.
  apply (inj_countable' (fun v => (pv_BlockNum v, pv_TxNum v)) (fun p => mkProtoVersion p.1 p.2)).
  by intros [].
Defined.

#[global] Instance KVRead_countable : Countable KVRead.
Proof.
  apply (inj_countable' (fun r => (kvr_Key r, kvr_Version r)) (fun p => mkKVRead p.1 p.2)).
  by intros [].
Defined.

#[global] Instance KVWrite_countable : Countable KVWrite.
Proof.
  apply (inj_countable' (fun w => (kvw_Key w, kvw_IsDelete w, kvw_Value w))
    (fun p => mkKVWrite p.1.1 p.1.2 p.2)).
  by intros [].
Defined.

#[global] Instance Summary_countable : Countable QueryReadsMerkleSummary.
Proof.
  apply (inj_countable' (fun s => (MaxDegree s, MaxLevel s, MaxLevelHashes s))
    (fun p => mkSummary p.1.1 p.1.2 p.2)).
  by intros [].
Defined.

#[global] Instance ReadsInfo_countable : Countable ReadsInfo.
Proof.
  apply (inj_countable'
    (fun r => match r with NoReads => inl () | RawReads l => inr (inl l)
                         | ReadsMerkleHashes s => inr (inr s) end)
    (fun x => match x with inl _ => NoReads | inr (inl l) => RawReads l
                         | inr (inr s) => ReadsMerkleHashes s end)).
  by intros [].
Defined.

#[global] Instance RangeQueryInfo_countable : Countable RangeQueryInfo.
Proof.
  apply (inj_countable' (fun q => (StartKey q, EndKey q, ItrExhausted q, rqi_ReadsInfo q))
    (fun p => mkRQI p.1.1.1 p.1.1.2 p.1.2 p.2)).
  by intros [].
Defined.

#[global] Instance KVRWSet_eq_dec : EqDecision KVRWSet.
Proof. solve_decision. Defined.

#[global] Instance KVRWSet_countable : Countable KVRWSet.
Proof.
  apply (inj_countable' (fun s => (Reads s, RangeQueriesInfo s, Writes s))
    (fun p => mkKVRWSet p.1.1 p.1.2 p.2)).
  by intros [].
Defined.

Definition header_type_num (t : HeaderType) : nat * Z :=
  match t with
  | MESSAGE => (0, 0%Z) | CONFIG => (1, 0%Z) | CONFIG_UPDATE => (2, 0%Z)
  | ENDORSER_TRANSACTION => (3, 0%Z) | ORDERER_TRANSACTION => (4, 0%Z)
  | DELIVER_SEEK_INFO => (5, 0%Z) | CHAINCODE_PACKAGE => (6, 0%Z)
  | OTHER_TYPE z => (7, z)
  end.

Definition header_type_of (p : nat * Z) : HeaderType :=
  match p.1 with
  | 0 => MESSAGE | 1 => CONFIG | 2 => CONFIG_UPDATE | 3 => ENDORSER_TRANSACTION
  | 4 => ORDERER_TRANSACTION | 5 => DELIVER_SEEK_INFO | 6 => CHAINCODE_PACKAGE
  | _ => OTHER_TYPE p.2
  end.

#[global] Instance HeaderType_countable : Countable HeaderType.
Proof. apply (inj_countable' header_type_num header_type_of). by intros []. Defined.

#[global] Instance ChannelHeader_eq_dec : EqDecision ChannelHeader.
Proof. solve_decision. Defined.
#[global] Instance ChannelHeader_countable : Countable ChannelHeader.
Proof.
  apply (inj_countable' (fun c => (ch_Type c, ch_Timestamp c, ch_ChannelId c, ch_TxId c, ch_Epoch c, ch_Extension c))
    (fun p => mkChannelHeader p.1.1.1.1.1 p.1.1.1.1.2 p.1.1.1.2 p.1.1.2 p.1.2 p.2)).
  by intros [].
Defined.

(** ** The codecs *)

(** The actions of a transaction and the endorsements of an action, two fields
    each. *)
Fixpoint fields_actions (l : list bytes) : list TransactionAction :=
  match l with h :: p :: l => mkTransactionAction h p :: fields_actions l | _ => [] end.

Fixpoint fields_endorsements (l : list bytes) : list Endorsement :=
  match l with e :: s :: l => mkEndorsement e s :: fields_endorsements l | _ => [] end.

#[global] Instance bits_rwset_codec : RWSetCodec := {
  marshal_kvrwset s := Ok (to_bits (norm_kvrwset s));
  unmarshal_kvrwset := from_bits;
  marshal_txrwset l := Ok (put_fields (ns_fields l));
  unmarshal_txrwset b := Ok (fields_ns (get_fields [] b))
}.

#[global] Instance bits_rwset_codec_spec : RWSetCodecSpec.
Proof.
  split; intros; eexists; (split; [done|]); [apply from_to_bits|].
  cbn. by rewrite get_put_fields, fields_ns_fields.
Qed.

#[global] Instance bits_proto_codec : ProtoCodec := {
  unmarshal_Envelope b :=
    match get_fields [] b with
    | [payload; sig] => Ok (mkEnvelope payload sig)
    | _ => Err "proto: Envelope"
    end;
  unmarshal_Payload b :=
    match get_fields [] b with
    | [data] => Ok (mkPayload None data)
    | [data; ch; sh] => Ok (mkPayload (Some (mkHeader ch sh)) data)
    | _ => Err "proto: Payload"
    end;
  unmarshal_ChannelHeader := from_bits;
  unmarshal_Transaction b := Ok (mkTransaction (fields_actions (get_fields [] b)));
  unmarshal_ChaincodeActionPayload b :=
    Ok (match get_fields [] b with
        | [] => mkCAP [] None
        | [cpp] => mkCAP cpp (Some (mkCEA None []))
        | cpp :: prp :: l => mkCAP cpp (Some (mkCEA (Some prp) (fields_endorsements l)))
        end);
  unmarshal_ProposalResponsePayload b :=
    Ok (match get_fields [] b with
        | [] => mkPRP [] None
        | [h] => mkPRP h None
        | h :: ext :: _ => mkPRP h (Some ext)
        end);
  unmarshal_ChaincodeAction b :=
    Ok (match get_fields [] b with
        | r :: name :: ver :: _ => mkCA r [] None (Some (mkChaincodeID (to_string name) (to_string ver)))
        | r :: _ => mkCA r [] None None
        | [] => mkCA [] [] None None
        end)
}.

(** An endorser transaction with the given results. *)
Definition mk_endorser_tx (txId : string) (results : bytes) : bytes :=
  let ca := put_fields [results] in
  let prp := put_fields [[]; ca] in
  let cap := put_fields [[]; prp] in
  let tx := put_fields [[]; cap] in
  let chdr := to_bits (mkChannelHeader ENDORSER_TRANSACTION 0 "ch" txId 0 []) in
  let payload := put_fields [tx; chdr; []] in
  put_fields [payload; []].

Definition rwset_tx (txId : string) (rw : TxRwSet) : bytes :=
  match ToProtoBytes rw with
  | Ok b => mk_endorser_tx txId b
  | _ => []
  end.

(** ** A hash

    One byte: the sum of the bytes, weighted by their position. *)

Fixpoint checksum (i acc : Z) (b : bytes) : Z :=
  match b with
  | [] => acc
  | c :: b => checksum (i + 1) (acc + i * (1 + byte_val c)) b
  end.

#[global] Instance sum_hashing : Merkle.Hashing := {
  hash b := Ok [uint8 (checksum 1 0 b)];
  serializeKVReads l := Ok (to_bits l)
}.

#[global] Instance sum_hashing_spec : Merkle.HashingSpec := {
  hash_fn b := [uint8 (checksum 1 0 b)];
  serialize_fn l := to_bits l;
  hash_spec b := eq_refl;
  serialize_spec l := eq_refl
}.

(** ** State databases *)

Definition mem_db : Type := Provider.DBHandle MemStore.MemStore.

Definition empty_db : mem_db := Provider.mkDBHandle "ch" ∅.

Lemma empty_db_ok : db_ok empty_db.
Proof.
  split.
  - split; [|done]. apply (bool_decide_unpack _). by vm_compute.
  - intros ns key bs _ E. done.
  - intros bs E. done.
Qed.

(** Puts and deletions applied as one block. *)
Definition put_entry (b : UpdateBatch) (e : string * string * option bytes * Height) : UpdateBatch :=
  let '(ns, k, v, h) := e in
  match v with
  | Some v => match Batch.Put b ns k (Some v) h with Ok b => b | _ => b end
  | None => Batch.Delete b ns k h
  end.

Definition batch_of (l : list (string * string * option bytes * Height)) : UpdateBatch :=
  foldl put_entry Batch.NewUpdateBatch l.

Definition apply_batch (db : mem_db) (b : UpdateBatch) (h : Height) : mem_db :=
  match ApplyUpdates db b h with Ok db' => db' | _ => db end.

Lemma apply_batch_ok db b h : db_ok db -> batch_ok b -> height_ok h -> db_ok (apply_batch db b h).
Proof.
  intros Hdb Hb Hh. destruct (ApplyUpdates_spec db b h Hdb Hb Hh) as (db' & E & Hok & _).
  unfold apply_batch. by rewrite E.
Qed.

Definition entry_ok (e : string * string * option bytes * Height) : Prop :=
  ns_ok e.1.1.1 /\ height_ok e.2.

#[global] Instance height_ok_dec h : Decision (height_ok h).
Proof. unfold height_ok, u64. apply _. Defined.
#[global] Instance entry_ok_dec e : Decision (entry_ok e).
Proof. unfold entry_ok. apply _. Defined.

Lemma batch_insert_ok (b : UpdateBatch) ns k val h :
  batch_ok b -> ns_ok ns -> height_ok h ->
  batch_ok (<[ns := <[k := mkVV val h]> (Batch.getOrCreateNsUpdates b ns)]> b).
Proof.
  intros [Hn Hv] Hns Hh. split.
  - intros ns' [nsu E]. rewrite lookup_insert in E. case_decide; [by subst|]. apply Hn. eauto.
  - intros ns' k' vv. rewrite BatchFacts.Get_insert. case_decide; [by intros [= <-]|]. apply Hv.
Qed.

Lemma batch_of_ok l : Forall entry_ok l -> batch_ok (batch_of l).
Proof.
  unfold batch_of. assert (batch_ok Batch.NewUpdateBatch) as Hb by (split; [by intros ? []|done]).
  revert Hb. generalize Batch.NewUpdateBatch. induction l as [|[[[ns k] v] h] l IH]; intros b Hb Hl; [done|].
  inversion_clear Hl as [|? ? [Hns Hh] Hl2]. cbn. apply IH; [|done].
  destruct v as [v|]; by apply batch_insert_ok.
Qed.

(** The state after one block of the given writes. *)
Definition demo_db (l : list (string * string * option bytes * Height)) (h : Height) : mem_db :=
  apply_batch empty_db (batch_of l) h.

Lemma demo_db_ok l h : bool_decide (Forall entry_ok l /\ height_ok h) = true -> db_ok (demo_db l h).
Proof.
  intros [Hl Hh]%bool_decide_eq_true. apply apply_batch_ok; [apply empty_db_ok|by apply batch_of_ok|done].
Qed.

(** What a database made of one batch holds. *)
Lemma batch_of_entry l ns k vv :
  Batch.Get (batch_of l) ns k = Some vv -> exists v, (ns, k, v, Version vv) ∈ l.
Proof.
  unfold batch_of.
  assert (forall b, Batch.Get (foldl put_entry b l) ns k = Some vv ->
    Batch.Get b ns k = Some vv \/ exists v, (ns, k, v, Version vv) ∈ l) as Hl.
  2: { intros Hg. destruct (Hl _ Hg); done. }
  induction l as [|[[[ns' k'] v] h] l IH]; intros b Hg; [by left|]. cbn in Hg.
  destruct (IH _ Hg) as [Hb|[v' Hv']]; [|right; exists v'; by right].
  assert (Batch.Get b ns k = Some vv \/ (ns' = ns /\ k' = k /\ Version vv = h)) as [Hb'|(-> & -> & ->)].
  { destruct v as [v|]; cbn in Hb; unfold Batch.Delete in Hb; rewrite BatchFacts.Get_insert in Hb;
      case_decide as Hd; try (by left); right; destruct Hd; injection Hb as <-; done. }
  - by left.
  - right. exists v. left.
Qed.

Lemma demo_db_entry l h ns k vv :
  bool_decide (Forall entry_ok l /\ height_ok h) = true -> ns_ok ns ->
  view (demo_db l h) ns k = Some vv -> exists v, (ns, k, v, Version vv) ∈ l.
Proof.
  intros [Hl Hh]%bool_decide_eq_true Hns.
  destruct (ApplyUpdates_spec empty_db (batch_of l) h empty_db_ok (batch_of_ok l Hl) Hh)
    as (db' & E & _ & _ & Hv).
  unfold demo_db, apply_batch. rewrite E, Hv by done. unfold overlay.
  destruct (Batch.Get (batch_of l) ns k) as [vv'|] eqn:Eg; [|done].
  unfold live. destruct (Value vv'); [|done]. intros [= <-]. by eapply batch_of_entry.
Qed.

Module InstancesWitnesses.

Lemma state_commit_witness :
  exists vdb', StateLevelDB.ApplyUpdates empty_db
      (batch_of [("cc", "k", Some (to_bytes "v"), NewHeight 1 0); ("cc", "l", None, NewHeight 1 1)])
      (NewHeight 1 1) = Ok vdb' /\
    StateLevelDB.GetLatestSavePoint vdb' = Ok (Some (NewHeight 1 1)) /\
    StateLevelDB.GetState vdb' "cc" "k" = Ok (Some (mkVV (Some (to_bytes "v")) (NewHeight 1 0))).
Proof.
  destruct (StateLevelDBTheorems.state_commit empty_db
    (batch_of [("cc", "k", Some (to_bytes "v"), NewHeight 1 0); ("cc", "l", None, NewHeight 1 1)])
    (NewHeight 1 1)) as (vdb' & E & _ & Hsp & Hg & _).
  - apply empty_db_ok.
  - apply batch_of_ok, (bool_decide_unpack _). by vm_compute.
  - apply (bool_decide_unpack _). by vm_compute.
  - exists vdb'. split; [exact E|]. split; [exact Hsp|].
    rewrite Hg; [by vm_compute|]. apply (bool_decide_unpack _). by vm_compute.
Defined.

End InstancesWitnesses.
