(* ===== verification/RangeQuery.v ===== *)
(** * Range queries under validation

    core/ledger/kvledger/txmgmt/validator/statebasedval: the iterator over
    "committed state plus the updates of the preceding transactions"
    (combined_iterator.go), and the validators that compare what it delivers
    with the results recorded at simulation (range_query_validator.go). *)

From stdpp Require Import base gmap strings list sorting.
From Stdlib Require Import Ascii ZArith Lia.
From S2P Require Import Prelude Version StateDB RWSet Merkle Instances.
Import Batch RWSetUtil.

(** ** The combined iterator *)

Module Combined.
Section Combined.
Context {DB : Type} `{VersionedDB DB}.

Record combinedIterator := mkCI {
  ci_ns : string;
  ci_db : DB;
  ci_updates : UpdateBatch;
  ci_endKey : string;
  ci_includeEndKey : bool;
  ci_dbItr : DBItr;
  ci_updatesItr : nsIterator;
  ci_dbItem : option VersionedKV;
  ci_updatesItem : option VersionedKV;
  ci_endKeyServed : bool
}.

Definition newCombinedIterator (db : DB) (updates : UpdateBatch) (ns startKey endKey : string)
    (includeEndKey : bool) : res combinedIterator :=
  dbItr ← GetStateRangeScanIterator db ns startKey endKey;
  let updatesItr := GetRangeScanIterator updates ns startKey endKey in
  '(dbItem, dbItr) ← Next dbItr;
  '(updatesItem, updatesItr) ← Next updatesItr;
  Ok (mkCI ns db updates endKey includeEndKey dbItr updatesItr dbItem updatesItem false).

(** The result of [strings.Compare] as a [comparison]. *)
Definition compareKeys (item1 item2 : option VersionedKV) : comparison :=
  match item1, item2 with
  | None, None => Eq
  | None, Some _ => Gt
  | Some _, None => Lt
  | Some kv1, Some kv2 => String.compare (Key kv1) (Key kv2)
  end.

(** The type assertion panics on a nil item. *)
Definition isDelete (item : option VersionedKV) : res bool :=
  match item with
  | None => Panic "interface conversion: interface is nil"
  | Some kv => Ok (match Value (VV kv) with None => true | Some _ => false end)
  end.

Definition serveEndKeyIfNeeded (itr : combinedIterator)
    : res (option VersionedKV * combinedIterator) :=
  if negb (ci_includeEndKey itr) || ci_endKeyServed itr then Ok (None, itr)
  else
    vv ← match Batch.Get (ci_updates itr) (ci_ns itr) (ci_endKey itr) with
         | Some vv => Ok (Some vv)
         | None => GetState (ci_db itr) (ci_ns itr) (ci_endKey itr)
         end;
    let itr := mkCI (ci_ns itr) (ci_db itr) (ci_updates itr) (ci_endKey itr)
                 (ci_includeEndKey itr) (ci_dbItr itr) (ci_updatesItr itr)
                 (ci_dbItem itr) (ci_updatesItem itr) true in
    match vv with
    | None => Ok (None, itr)
    | Some vv =>
        let vkv := mkVKV (ci_ns itr) (ci_endKey itr) (mkVV (Value vv) (Version vv)) in
        d ← isDelete (Some vkv);
        if (d : bool) then Ok (None, itr) else Ok (Some vkv, itr)
    end.

(** [Next] calls itself when the selected item is a deletion. *)
Fixpoint ci_Next (fuel : nat) (itr : combinedIterator)
    : res (option VersionedKV * combinedIterator) :=
  match fuel with
  | O => OutOfFuel
  | S fuel' =>
      match ci_dbItem itr, ci_updatesItem itr with
      | None, None => serveEndKeyIfNeeded itr
      | _, _ =>
          let '(selectedItem, moveDBItr, moveUpdatesItr) :=
            match compareKeys (ci_dbItem itr) (ci_updatesItem itr) with
            | Lt => (ci_dbItem itr, true, false)
            | Eq => (ci_updatesItem itr, true, true)
            | Gt => (ci_updatesItem itr, false, true)
            end in
          '(dbItem, dbItr) ←
            (if (moveDBItr : bool) then Next (ci_dbItr itr)
             else Ok (ci_dbItem itr, ci_dbItr itr));
          '(updatesItem, updatesItr) ←
            (if (moveUpdatesItr : bool) then Next (ci_updatesItr itr)
             else Ok (ci_updatesItem itr, ci_updatesItr itr));
          let itr := mkCI (ci_ns itr) (ci_db itr) (ci_updates itr) (ci_endKey itr)
                       (ci_includeEndKey itr) dbItr updatesItr dbItem updatesItem
                       (ci_endKeyServed itr) in
          d ← isDelete selectedItem;
          if (d : bool) then ci_Next fuel' itr else Ok (selectedItem, itr)
      end
  end.

(** A deletion consumes an item of the batch, so as many rounds as the batch
    iterator has items left, and two, are enough. *)
Definition ci_fuel (itr : combinedIterator) : nat :=
  3 + (itr_lastIndex (ci_updatesItr itr) - itr_nextIndex (ci_updatesItr itr)).

#[global] Instance combinedIterator_itr : ResultsIterator combinedIterator := {
  Next := fun itr => ci_Next (ci_fuel itr) itr;
  remaining itr := 3 + remaining (ci_dbItr itr) + remaining (ci_updatesItr itr)
}.

End Combined.
Arguments combinedIterator DB {_}.

(** *** The merge of two scans *)

Definition live_item (kv : VersionedKV) : list VersionedKV :=
  match Value (VV kv) with Some _ => [kv] | None => [] end.

(** What the iterator delivers from the remaining items [dbl] and [upl]. *)
Fixpoint merge_items (dbl : list VersionedKV) : list VersionedKV -> list VersionedKV :=
  fix go upl :=
    match dbl, upl with
    | [], [] => []
    | d :: dbl', [] => live_item d ++ merge_items dbl' []
    | [], u :: upl' => live_item u ++ go upl'
    | d :: dbl', u :: upl' =>
        match String.compare (Key d) (Key u) with
        | Lt => live_item d ++ merge_items dbl' upl
        | Eq => live_item u ++ merge_items dbl' upl'
        | Gt => live_item u ++ go upl'
        end
    end.

Lemma merge_items_nil_r dbl : merge_items dbl [] = dbl ≫= live_item.
Proof. induction dbl as [|d dbl IH]; [done|]. cbn. by f_equal. Qed.

Lemma merge_items_nil_l upl : merge_items [] upl = upl ≫= live_item.
Proof. induction upl as [|u upl IH]; [done|]. cbn in *. by f_equal. Qed.

Lemma merge_items_cons d dbl u upl :
  merge_items (d :: dbl) (u :: upl) =
  match String.compare (Key d) (Key u) with
  | Lt => live_item d ++ merge_items dbl (u :: upl)
  | Eq => live_item u ++ merge_items dbl upl
  | Gt => live_item u ++ merge_items (d :: dbl) upl
  end.
Proof. done. Qed.

Lemma length_live_item kv : length (live_item kv) <= 1.
Proof. unfold live_item. destruct (Value _); cbn; lia. Qed.

Lemma length_live_items l : length (l ≫= live_item) <= length l.
Proof.
  induction l as [|kv l IH]; [done|]. cbn. rewrite length_app.
  pose proof (length_live_item kv). lia.
Qed.

Lemma length_merge_items dbl upl : length (merge_items dbl upl) <= length dbl + length upl.
Proof.
  revert upl. induction dbl as [|d dbl IHd]; intros upl.
  { rewrite merge_items_nil_l. apply length_live_items. }
  induction upl as [|u upl IHu].
  { rewrite merge_items_nil_r. pose proof (length_live_items (d :: dbl)). lia. }
  rewrite merge_items_cons. pose proof (length_live_item d). pose proof (length_live_item u).
  destruct (String.compare _ _); rewrite length_app.
  - specialize (IHd upl). cbn in *. lia.
  - specialize (IHd (u :: upl)). cbn in *. lia.
  - cbn in *. lia.
Qed.

Lemma elem_of_live_item kv x : x ∈ live_item kv <-> x = kv /\ is_Some (Value (VV kv)).
Proof.
  unfold live_item. destruct (Value (VV kv)).
  - rewrite list_elem_of_singleton. split; [eauto|by intros []].
  - rewrite elem_of_nil. split; [done|]. by intros [_ []].
Qed.

Lemma elem_of_live_items l x : x ∈ l ≫= live_item <-> x ∈ l /\ is_Some (Value (VV x)).
Proof.
  rewrite list_elem_of_bind. setoid_rewrite elem_of_live_item. naive_solver.
Qed.

Lemma sorted_live_items l : StronglySorted kv_lt l -> StronglySorted kv_lt (l ≫= live_item).
Proof.
  induction 1 as [|a l Hs IH Hf]; [constructor|]. cbn. unfold live_item at 1.
  destruct (Value (VV a)); [|done]. cbn. constructor; [done|].
  rewrite Forall_forall in Hf |- *. intros x [Hx _]%elem_of_live_items. auto.
Qed.

(** Everything the merge delivers comes from one of the lists. *)
Lemma merge_items_sub dbl upl x : x ∈ merge_items dbl upl -> x ∈ dbl \/ x ∈ upl.
Proof.
  revert upl. induction dbl as [|d dbl IHd]; intros upl.
  - rewrite merge_items_nil_l. intros [? _]%elem_of_live_items. by right.
  - induction upl as [|u upl IHu].
    + rewrite merge_items_nil_r. intros [? _]%elem_of_live_items. by left.
    + rewrite merge_items_cons. destruct (String.compare _ _).
      all: intros [Hx|Hx]%elem_of_app;
        [apply elem_of_live_item in Hx as [-> _]; set_solver|].
      * destruct (IHd upl Hx); set_solver.
      * destruct (IHd (u :: upl) Hx); set_solver.
      * destruct (IHu Hx); set_solver.
Qed.

(** The batch wins over the database. *)
Lemma elem_of_merge_items dbl upl x :
  StronglySorted kv_lt dbl -> StronglySorted kv_lt upl ->
  x ∈ merge_items dbl upl <->
  is_Some (Value (VV x)) /\
  (x ∈ upl \/ (x ∈ dbl /\ forall u, u ∈ upl -> Key u <> Key x)).
Proof.
  revert upl. induction dbl as [|d dbl IHd]; intros upl Hd Hu.
  { rewrite merge_items_nil_l, elem_of_live_items. set_solver. }
  inversion_clear Hd as [|?? Hd' Hdf]. rewrite Forall_forall in Hdf.
  induction upl as [|u upl IHu].
  { rewrite merge_items_nil_r, elem_of_live_items. set_solver. }
  inversion_clear Hu as [|?? Hu' Huf]. rewrite Forall_forall in Huf.
  assert (forall a b, kv_lt a b -> Key a <> Key b) as Hne.
  { intros a b Hab E. unfold kv_lt in Hab. rewrite E in Hab. by apply str_lt_irrefl in Hab. }
  rewrite merge_items_cons.
  destruct (str_compare_spec (Key d) (Key u)) as [E|Hlt|Hgt];
    rewrite elem_of_app, elem_of_live_item, !elem_of_cons.
  - rewrite IHd by done. split.
    + intros [[-> Hv]|[Hv [Hx|[Hx Hn]]]]; split; try done; [by left; left|by left; right|].
      right. split; [by right|]. intros u' [->|Hu'']%elem_of_cons; [|auto].
      rewrite <- E. by apply Hne, Hdf.
    + intros [Hv [[->|Hx]|[[->|Hx] Hn]]]; [by left|by right; auto| |].
      * destruct (Hn u); [by left|done].
      * right. split; [done|]. right. split; [done|]. intros u' ?. apply Hn. by right.
  - rewrite IHd by (done || by constructor; [|rewrite Forall_forall]). rewrite !elem_of_cons. split.
    + intros [[-> Hv]|[Hv [Hx|[Hx Hn]]]]; split; try done; [|by left|by right; auto].
      right. split; [by left|]. intros u' [->|Hu'']%elem_of_cons.
      * intros E. rewrite E in Hlt. by apply str_lt_irrefl in Hlt.
      * intros E. specialize (Huf _ Hu''). unfold kv_lt in Huf. rewrite E in Huf.
        apply (str_lt_irrefl (Key d)). by etrans.
    + intros [Hv [Hx|[[->|Hx] Hn]]]; [by right; auto|by left|by right; auto].
  - rewrite IHu by done. rewrite !elem_of_cons. split.
    + intros [[-> Hv]|[Hv [Hx|[Hx Hn]]]]; split; try done; [by left; left|by left; right|].
      right. split; [done|]. intros u' [->|Hu'']%elem_of_cons; [|auto].
      intros E. destruct Hx as [->|Hx].
      * rewrite E in Hgt. by apply str_lt_irrefl in Hgt.
      * specialize (Hdf _ Hx). unfold kv_lt in Hdf. rewrite <- E in Hdf.
        apply (str_lt_irrefl (Key u)). by etrans.
    + intros [Hv [[->|Hx]|[Hx Hn]]]; [by left|by right; auto|].
      right. split; [done|]. right. split; [done|]. intros u' ?. apply Hn. by right.
Qed.

Lemma sorted_app_live a l :
  (forall x, x ∈ l -> kv_lt a x) -> StronglySorted kv_lt l -> StronglySorted kv_lt (live_item a ++ l).
Proof.
  intros Hl Hs. unfold live_item. destruct (Value (VV a)); [|done]. cbn.
  constructor; [done|]. by apply Forall_forall.
Qed.

Lemma merge_items_sorted dbl upl :
  StronglySorted kv_lt dbl -> StronglySorted kv_lt upl ->
  StronglySorted kv_lt (merge_items dbl upl).
Proof.
  revert upl. induction dbl as [|d dbl IHd]; intros upl Hd Hu.
  { rewrite merge_items_nil_l. by apply sorted_live_items. }
  induction upl as [|u upl IHu].
  { rewrite merge_items_nil_r. by apply sorted_live_items. }
  rewrite merge_items_cons. pose proof Hd as Hd0. pose proof Hu as Hu0.
  inversion_clear Hd as [|?? Hd' Hdf]. rewrite Forall_forall in Hdf.
  inversion_clear Hu as [|?? Hu' Huf]. rewrite Forall_forall in Huf.
  destruct (str_compare_spec (Key d) (Key u)) as [E|Hlt|Hgt].
  - apply sorted_app_live; [|by auto].
    intros x [Hx|Hx]%merge_items_sub; [|by apply Huf].
    specialize (Hdf _ Hx). unfold kv_lt in *. by rewrite <- E.
  - apply sorted_app_live; [|by auto].
    intros x [Hx|Hx]%merge_items_sub; [by apply Hdf|].
    apply elem_of_cons in Hx as [->|Hx]; [done|]. unfold kv_lt. etrans; [done|]. by apply Huf.
  - apply sorted_app_live; [|by auto].
    intros x [Hx|Hx]%merge_items_sub; [|by apply Huf].
    apply elem_of_cons in Hx as [->|Hx]; [done|]. unfold kv_lt. etrans; [done|]. by apply Hdf.
Qed.

(** Merging the scan of a view with the scan of a batch is the scan of the
    overlay. *)
Lemma merge_items_scan (v : view_t) (b : UpdateBatch) ns s e dbl upl :
  (forall k vv, v ns k = Some vv -> is_Some (Value vv)) ->
  is_scan v ns s e dbl -> is_scan (BatchFacts.batch_view b) ns s e upl ->
  is_scan (overlay b v) ns s e (merge_items dbl upl).
Proof.
  intros Hlive [Hds Hde] [Hus Hue]. split; [by apply merge_items_sorted|].
  intros kv. rewrite elem_of_merge_items, Hde by done. unfold overlay, BatchFacts.batch_view in *.
  split.
  - intros [[val Hv] [Hu|[(Hn & Hk & Hr) Hno]]].
    + apply Hue in Hu as (Hn & -> & Hr). split; [done|]. split; [|done]. unfold live. by rewrite Hv.
    + split; [done|]. destruct (Batch.Get b ns (Key kv)) as [vv|] eqn:E; [|done].
      destruct (Hno (mkVKV ns (Key kv) vv)); [|done]. by apply Hue.
  - intros (Hn & Hv & Hr). destruct (Batch.Get b ns (Key kv)) as [vv|] eqn:E.
    + unfold live in Hv. destruct (Value vv) eqn:Ev; [|done]. injection Hv as ->.
      split; [eauto|]. left. by apply Hue.
    + split; [by eapply Hlive|]. right. split; [done|].
      intros u Hu Ek. apply Hue in Hu as (_ & Hu & _). congruence.
Qed.

(** *** The iterator keeps its contract *)

(** An item fetched ahead, and the rest of its iterator. *)
Definition items (o : option VersionedKV) (l : list VersionedKV) : list VersionedKV :=
  match o with Some x => x :: l | None => [] end.

Lemma items_head_tail l : items (head l) (tail l) = l.
Proof. by destruct l. Qed.

Section Spec.
Context {DB : Type} `{VersionedDBSpec DB}.
Import BatchFacts.

Definition end_items (i : combinedIterator DB) : list VersionedKV :=
  if negb (ci_includeEndKey i) || ci_endKeyServed i then []
  else
    match match Batch.Get (ci_updates i) (ci_ns i) (ci_endKey i) with
          | Some vv => Some vv
          | None => view (ci_db i) (ci_ns i) (ci_endKey i)
          end with
    | Some vv => live_item (mkVKV (ci_ns i) (ci_endKey i) vv)
    | None => []
    end.

Definition ci_rest (i : combinedIterator DB) : list VersionedKV :=
  merge_items (items (ci_dbItem i) (rest (ci_dbItr i)))
    (items (ci_updatesItem i) (rest (ci_updatesItr i))) ++ end_items i.

Record ci_ok (i : combinedIterator DB) : Prop := {
  ci_db_ok : db_ok (ci_db i);
  ci_ns_ok : ns_ok (ci_ns i);
  ci_dbItr_ok : itr_ok (ci_dbItr i);
  ci_updatesItr_ok : itr_ok (ci_updatesItr i);
  ci_live : Forall (fun kv => is_Some (Value (VV kv))) (items (ci_dbItem i) (rest (ci_dbItr i)))
}.

(** The state after moving one or both of the iterators. *)
Definition moved (i : combinedIterator DB) dbItr updatesItr dbItem updatesItem :=
  mkCI (ci_ns i) (ci_db i) (ci_updates i) (ci_endKey i) (ci_includeEndKey i)
    dbItr updatesItr dbItem updatesItem (ci_endKeyServed i).

Ltac ci_cbn := cbn [moved ci_ns ci_db ci_updates ci_endKey ci_includeEndKey ci_dbItr
  ci_updatesItr ci_dbItem ci_updatesItem ci_endKeyServed].

Lemma end_items_moved i a b c d : end_items (moved i a b c d) = end_items i.
Proof. done. Qed.

Lemma serve_spec i :
  ci_ok i -> ci_dbItem i = None -> ci_updatesItem i = None ->
  exists i', serveEndKeyIfNeeded i = Ok (head (ci_rest i), i') /\ ci_ok i' /\
             ci_rest i' = tail (ci_rest i).
Proof.
  intros Hok Ed Eu. assert (ci_rest i = end_items i) as -> by (unfold ci_rest; by rewrite Ed, Eu).
  unfold serveEndKeyIfNeeded, end_items.
  destruct (negb (ci_includeEndKey i) || ci_endKeyServed i) eqn:En.
  { exists i. split; [done|]. split; [done|]. unfold ci_rest, end_items. by rewrite Ed, Eu, En. }
  set (i' := mkCI _ _ _ _ _ _ _ _ _ true).
  assert (ci_ok i') as Hok' by (destruct Hok; by split).
  assert (ci_rest i' = []) as Hr'.
  { unfold ci_rest, end_items, i'. ci_cbn. rewrite Ed, Eu. by rewrite orb_true_r. }
  set (o := match Batch.Get _ _ _ with Some vv => Some vv | None => _ end).
  assert (match Batch.Get (ci_updates i) (ci_ns i) (ci_endKey i) with
     | Some vv => Ok (Some vv)
     | None => GetState (ci_db i) (ci_ns i) (ci_endKey i)
     end = Ok o) as ->.
  { unfold o. destruct (Batch.Get _ _ _); [done|]. apply GetState_spec; apply Hok. }
  cbn. destruct o as [vv|]; [|by exists i'; rewrite Hr'].
  unfold live_item. destruct vv as [[val|] ver]; cbn; by exists i'; rewrite Hr'.
Qed.

Lemma ci_Next_db fuel i d :
  ci_ok i -> ci_dbItem i = Some d -> compareKeys (Some d) (ci_updatesItem i) = Lt ->
  exists i', ci_Next (S fuel) i = Ok (Some d, i') /\ ci_ok i' /\
    ci_rest i = d :: ci_rest i'.
Proof.
  intros [Hdb Hns Hdi Hui Hl] Ed Hc.
  destruct (Next_spec (ci_dbItr i) Hdi) as (di' & En & Hdi' & Hr).
  rewrite Ed in Hl. apply Forall_cons in Hl as [[val Hv] Hl].
  exists (moved i di' (ci_updatesItr i) (head (rest (ci_dbItr i))) (ci_updatesItem i)).
  cbn [ci_Next]. rewrite Ed, Hc. rewrite En. cbn. rewrite Hv. split; [done|]. split.
  - split; ci_cbn; try done. by rewrite Hr, items_head_tail.
  - unfold ci_rest. rewrite end_items_moved. ci_cbn. rewrite Ed, Hr, items_head_tail. cbn [items].
    unfold compareKeys in Hc. destruct (ci_updatesItem i) as [u|]; cbn [items].
    + rewrite merge_items_cons, Hc. unfold live_item. by rewrite Hv.
    + rewrite !merge_items_nil_r. cbn. unfold live_item at 1. by rewrite Hv.
Qed.

(** Taking an item of the batch: it is delivered or, if it is a deletion, the
    iterator goes on from the state after it. *)
Lemma ci_Next_batch fuel i u :
  ci_ok i -> ci_updatesItem i = Some u -> compareKeys (ci_dbItem i) (Some u) <> Lt ->
  exists i', ci_ok i' /\ ci_rest i = live_item u ++ ci_rest i' /\
    items (ci_updatesItem i') (rest (ci_updatesItr i')) = rest (ci_updatesItr i) /\
    ci_Next (S fuel) i =
      match Value (VV u) with Some _ => Ok (Some u, i') | None => ci_Next fuel i' end.
Proof.
  intros [Hdb Hns Hdi Hui Hl] Eu Hc.
  destruct (Next_spec (ci_updatesItr i) Hui) as (ui' & En & Hui' & Hru).
  destruct (Next_spec (ci_dbItr i) Hdi) as (di' & Ed & Hdi' & Hrd).
  destruct (compareKeys (ci_dbItem i) (Some u)) eqn:Ec; [| done |].
  - destruct (ci_dbItem i) as [d|] eqn:Edb; [|done].
    exists (moved i di' ui' (head (rest (ci_dbItr i))) (head (rest (ci_updatesItr i)))).
    split; [|split; [|split]].
    + split; ci_cbn; try done. rewrite Hrd, items_head_tail. by apply Forall_cons in Hl as [_ ?].
    + unfold ci_rest. rewrite end_items_moved. ci_cbn. rewrite Edb, Eu, Hru, Hrd, !items_head_tail.
      cbn [items]. rewrite merge_items_cons. cbn in Ec. rewrite Ec. by rewrite <- app_assoc.
    + ci_cbn. by rewrite Hru, items_head_tail.
    + cbn [ci_Next]. rewrite Edb, Eu, Ec, Ed. cbn [mbind res_bind]. rewrite En. cbn.
      by destruct (Value (VV u)).
  - exists (moved i (ci_dbItr i) ui' (ci_dbItem i) (head (rest (ci_updatesItr i)))).
    split; [|split; [|split]].
    + by split.
    + unfold ci_rest. rewrite end_items_moved. ci_cbn. rewrite Eu, Hru, !items_head_tail.
      destruct (ci_dbItem i) as [d|]; cbn [items].
      * rewrite merge_items_cons. cbn in Ec. rewrite Ec. by rewrite <- app_assoc.
      * rewrite !merge_items_nil_l. cbn. by rewrite <- app_assoc.
    + ci_cbn. by rewrite Hru, items_head_tail.
    + cbn [ci_Next]. rewrite Eu. destruct (ci_dbItem i) as [d|] eqn:Edb; rewrite Ec; cbn [mbind res_bind];
        rewrite En; cbn; by destruct (Value (VV u)).
Qed.

Lemma ci_Next_spec fuel i :
  ci_ok i -> length (items (ci_updatesItem i) (rest (ci_updatesItr i))) < fuel ->
  exists i', ci_Next fuel i = Ok (head (ci_rest i), i') /\ ci_ok i' /\ ci_rest i' = tail (ci_rest i).
Proof.
  revert i. induction fuel as [|fuel IH]; intros i Hok Hf; [lia|].
  destruct (ci_updatesItem i) as [u|] eqn:Eu.
  - destruct (decide (compareKeys (ci_dbItem i) (Some u) = Lt)) as [Hc|Hc].
    + destruct (ci_dbItem i) as [d|] eqn:Ed; [|done].
      destruct (ci_Next_db fuel i d Hok Ed) as (i' & -> & Hok' & ->); [by rewrite Eu|]. by exists i'.
    + destruct (ci_Next_batch fuel i u Hok Eu Hc) as (i' & Hok' & -> & Hi & ->).
      unfold live_item. destruct (Value (VV u)); [by exists i'|]. cbn.
      apply IH; [done|]. rewrite Hi. cbn [items length] in Hf. lia.
  - destruct (ci_dbItem i) as [d|] eqn:Ed.
    + destruct (ci_Next_db fuel i d Hok Ed) as (i' & -> & Hok' & ->); [by rewrite Eu|]. by exists i'.
    + cbn [ci_Next]. rewrite Ed, Eu. by apply serve_spec.
Qed.

Lemma ci_fuel_enough i :
  length (items (ci_updatesItem i) (rest (ci_updatesItr i))) < ci_fuel i.
Proof.
  unfold ci_fuel. destruct (ci_updatesItem i); cbn; [|lia].
  pose proof (length_ns_rest (ci_updatesItr i)). lia.
Qed.

Lemma ci_remaining i : ci_ok i -> length (ci_rest i) <= remaining i.
Proof.
  intros Hok. unfold ci_rest. rewrite length_app.
  assert (length (end_items i) <= 1).
  { unfold end_items. destruct (_ || _); [cbn; lia|].
    destruct (match Batch.Get _ _ _ with Some _ => _ | None => _ end); [|cbn; lia].
    unfold live_item. destruct (Value _); cbn; lia. }
  pose proof (length_merge_items (items (ci_dbItem i) (rest (ci_dbItr i)))
    (items (ci_updatesItem i) (rest (ci_updatesItr i)))).
  assert (forall o l, length (items o l) <= S (length l)) as Hi by (intros [] l; cbn; lia).
  pose proof (Hi (ci_dbItem i) (rest (ci_dbItr i))).
  pose proof (Hi (ci_updatesItem i) (rest (ci_updatesItr i))).
  pose proof (remaining_spec (ci_dbItr i) (ci_dbItr_ok i Hok)).
  pose proof (remaining_spec (ci_updatesItr i) (ci_updatesItr_ok i Hok)).
  change (remaining i) with (3 + remaining (ci_dbItr i) + remaining (ci_updatesItr i)). lia.
Qed.

#[global] Instance combinedIterator_spec : ResultsIteratorSpec (combinedIterator DB).
Proof.
  refine {| itr_ok := ci_ok; rest := ci_rest |}.
  - intros i Hok. apply ci_Next_spec; [done|]. apply ci_fuel_enough.
  - apply ci_remaining.
Defined.

(** What a combined iterator delivers: the scan of the database with the batch
    applied, then the end key if it is asked for and live. *)
Lemma newCombinedIterator_spec db updates ns s e incl :
  db_ok db -> ns_ok ns ->
  exists i l, newCombinedIterator db updates ns s e incl = Ok i /\ ci_ok i /\
    ci_rest i = l ++ (if incl then match overlay updates (view db) ns e with
                                   | Some vv => [mkVKV ns e vv]
                                   | None => []
                                   end else []) /\
    is_scan (overlay updates (view db)) ns s e l.
Proof.
  intros Hdb Hns. unfold newCombinedIterator.
  destruct (GetStateRangeScanIterator_spec db ns s e Hdb Hns) as (di & -> & Hdi & Hds).
  destruct (Next_spec di Hdi) as (di' & Ed & Hdi' & Hrd).
  destruct (newNsIterator_spec updates ns s e) as [Hui Hus].
  set (ui := GetRangeScanIterator updates ns s e) in *.
  change (itr_ok ui) in Hui. change (ns_rest ui) with (rest ui) in Hus.
  destruct (Next_spec ui Hui) as (ui' & Eu & Hui' & Hru).
  cbn [mbind res_bind]. rewrite Ed. cbn [mbind res_bind]. rewrite Eu. cbn [mbind res_bind].
  assert (forall k vv, view db ns k = Some vv -> is_Some (Value vv)) as Hlive.
  { intros k vv Hv. by eapply view_live in Hv as [? _]. }
  eexists _, (merge_items (rest di) (rest ui)). split; [done|]. split; [|split].
  - split; cbn [ci_db ci_ns ci_dbItr ci_updatesItr ci_dbItem]; try done.
    rewrite Hrd, items_head_tail. apply Forall_forall. intros kv Hkv.
    apply Hds in Hkv as (_ & Hv & _). by eapply Hlive.
  - unfold ci_rest, end_items.
    cbn [ci_dbItem ci_dbItr ci_updatesItem ci_updatesItr ci_includeEndKey ci_endKeyServed ci_updates ci_ns ci_endKey ci_db].
    rewrite Hrd, Hru, !items_head_tail. f_equal. rewrite orb_false_r.
    destruct incl; [|done]. cbn [negb]. unfold overlay.
    destruct (Batch.Get updates ns e) as [vv|].
    + unfold live_item, live. cbn. by destruct (Value vv).
    + destruct (view db ns e) as [vv|] eqn:Ev; [|done].
      unfold live_item. cbn. by destruct (Hlive _ _ Ev) as [? ->].
  - by apply merge_items_scan.
Qed.

End Spec.
End Combined.

(** ** The validators: range_query_validator.go *)

Module RangeValidator.
Import Merkle.

(** The field access panics on a nil version. *)
Definition convertToVersionHeight (v : option ProtoVersion) : res Height :=
  match v with
  | None => Panic "nil pointer dereference"
  | Some v => Ok (NewHeight (pv_BlockNum v) (pv_TxNum v))
  end.

Section Validators.
Context {I : Type} `{ResultsIterator I} `{Hashing}.

(** The loop over the recorded results; [result] is the current result of the
    iterator. *)
Fixpoint results_loop (rqResults : list KVRead) (result : option VersionedKV) (itr : I) : res bool :=
  match rqResults with
  | [] => Ok (match result with Some _ => false | None => true end)
  | kvRead :: rqResults' =>
      match result with
      | None => Ok false
      | Some versionedKV =>
          if bool_decide (Key versionedKV <> kvr_Key kvRead) then Ok false
          else
            h ← convertToVersionHeight (kvr_Version kvRead);
            if negb (Height.AreSame (Some (Version (VV versionedKV))) (Some h)) then Ok false
            else
              '(result, itr) ← Next itr;
              results_loop rqResults' result itr
      end
  end.

(** [rangeQueryResultsValidator.validate] *)
Definition results_validate (rqInfo : RangeQueryInfo) (itr : I) : res bool :=
  let rqResults := GetRawReads rqInfo in
  '(result, itr) ← Next itr;
  match rqResults with
  | [] => Ok (match result with Some _ => false | None => true end)
  | _ => results_loop rqResults result itr
  end.

(** [rangeQueryHashValidator.init] *)
Definition hash_init (inMerkle : QueryReadsMerkleSummary) : res RangeQueryResultsHelper :=
  NewRangeQueryResultsHelper true (MaxDegree inMerkle).

(** The loop of [rangeQueryHashValidator.validate].  [matched] is
    [lastMatchedIndex + 1].  The error of [AddResult] is dropped. *)
Fixpoint hash_loop (fuel : nat) (inMerkle : QueryReadsMerkleSummary)
    (helper : RangeQueryResultsHelper) (itr : I) (matched : nat) : res bool :=
  match fuel with
  | O => OutOfFuel
  | S fuel' =>
      '(result, itr) ← Next itr;
      match result with
      | None =>
          '(_, merkle) ← snd (Done helper);
          Ok (Equal inMerkle merkle)
      | Some versionedKV =>
          let '(helper, r) := AddResult helper
            (NewKVRead (Key versionedKV) (Some (Version (VV versionedKV)))) in
          match r with
          | Panic p => Panic p
          | OutOfFuel => OutOfFuel
          | Ok _ | Err _ =>
              match GetMerkleSummary helper with
              | None => Panic "nil pointer dereference"
              | Some merkle =>
                  if MaxLevel merkle <? MaxLevel inMerkle then
                    hash_loop fuel' inMerkle helper itr matched
                  else if matched =? length (MaxLevelHashes merkle) then
                    hash_loop fuel' inMerkle helper itr matched
                  else if length (MaxLevelHashes inMerkle) <? length (MaxLevelHashes merkle) then
                    Ok false
                  else
                    match MaxLevelHashes merkle !! matched, MaxLevelHashes inMerkle !! matched with
                    | Some a, Some b =>
                        if bool_decide (a = b) then hash_loop fuel' inMerkle helper itr (S matched)
                        else Ok false
                    | _, _ => Panic "index out of range"
                    end
              end
          end
      end
  end.

(** [rangeQueryHashValidator.validate] on the helper that [init] left: nil if
    it failed, since the caller drops the error. *)
Definition hash_validate (inMerkle : QueryReadsMerkleSummary)
    (resultsHelper : option RangeQueryResultsHelper) (itr : I) : res bool :=
  match resultsHelper with
  | Some helper => hash_loop (S (remaining itr)) inMerkle helper itr 0
  | None =>
      '(result, _) ← Next itr;
      Panic "nil pointer dereference"
  end.

End Validators.

(** *** What the validators decide *)

Definition kv_read (kv : VersionedKV) : KVRead := NewKVRead (Key kv) (Some (Version (VV kv))).

Section Facts.
Context {I : Type} `{ResultsIteratorSpec I} `{HashingSpec}.

Lemma results_loop_spec reads (itr : I) result :
  Forall (fun r => is_Some (kvr_Version r)) reads -> itr_ok itr ->
  results_loop reads result itr =
  Ok (bool_decide (reads = kv_read <$> match result with Some kv => kv :: rest itr | None => [] end))
  \/ (reads = [] /\ results_loop reads result itr = Ok (bool_decide (result = None))).
Proof.
  intros Hv. revert itr result. induction Hv as [|r reads [v Hr] Hv IH]; intros itr result Hok.
  { right. split; [done|]. cbn. by destruct result. }
  left. destruct result as [kv|]; [|by rewrite bool_decide_false].
  cbn [results_loop]. destruct (decide (Key kv = kvr_Key r)) as [Ek|Hne].
  2: { rewrite bool_decide_true by done. rewrite bool_decide_false; [done|].
       cbn. intros [= -> _]. done. }
  rewrite bool_decide_false by naive_solver. rewrite Hr. cbn [convertToVersionHeight mbind res_bind].
  destruct (Height.AreSame _ _) eqn:Es; cbn [negb].
  2: { rewrite bool_decide_false; [done|]. cbn. intros [= -> _]. cbn in Hr.
       injection Hr as <-. apply not_true_iff_false in Es. apply Es, Height.AreSame_iff.
       cbn. by destruct (Version (VV kv)). }
  apply Height.AreSame_iff in Es. injection Es as Es.
  destruct (Next_spec itr Hok) as (itr' & -> & Hok' & Hrest). cbn [mbind res_bind].
  assert (kv_read kv = r) as Hkv.
  { unfold kv_read, NewKVRead. rewrite Ek, Es. cbn. destruct r as [k ?], v; cbn in *. congruence. }
  destruct (IH itr' (head (rest itr)) Hok') as [->|[-> ->]].
  - rewrite Hrest. f_equal. apply bool_decide_ext. cbn [fmap list_fmap]. rewrite Hkv.
    destruct (rest itr); cbn; split; congruence.
  - f_equal. apply bool_decide_ext. cbn [fmap list_fmap]. rewrite Hkv.
    destruct (rest itr); cbn; split; congruence.
Qed.

Lemma results_validate_spec rqInfo (itr : I) :
  Forall (fun r => is_Some (kvr_Version r)) (GetRawReads rqInfo) -> itr_ok itr ->
  results_validate rqInfo itr = Ok (bool_decide (GetRawReads rqInfo = kv_read <$> rest itr)).
Proof.
  intros Hv Hok. unfold results_validate.
  destruct (Next_spec itr Hok) as (itr' & -> & Hok' & Hrest). cbn [mbind res_bind].
  destruct (GetRawReads rqInfo) as [|r reads] eqn:E.
  - by destruct (rest itr).
  - destruct (results_loop_spec (r :: reads) itr' (head (rest itr)) Hv Hok') as [->|[? _]]; [|done].
    rewrite Hrest. by destruct (rest itr).
Qed.

(** No assumption is needed on the recorded versions if the answer is yes. *)
Lemma results_loop_sound reads (itr : I) result :
  itr_ok itr -> results_loop reads result itr = Ok true ->
  match result with Some kv => reads <> [] | None => True end ->
  reads = kv_read <$> match result with Some kv => kv :: rest itr | None => [] end.
Proof.
  intros Hok Hl Hne.
  assert (Forall (fun r => is_Some (kvr_Version r)) reads) as Hv.
  { clear Hne. revert itr result Hok Hl. induction reads as [|r reads IH]; intros itr result Hok Hl; [constructor|].
    cbn [results_loop] in Hl. destruct result as [kv|]; [|done].
    case_bool_decide; [done|]. destruct (kvr_Version r) eqn:Er; [|done]. cbn in Hl.
    destruct (negb _); [done|]. destruct (Next_spec itr Hok) as (i' & E & Hok' & _).
    rewrite E in Hl. constructor; [by rewrite Er|]. by eapply IH. }
  destruct (results_loop_spec reads itr result Hv Hok) as [E|[-> E]]; rewrite E in Hl; injection Hl.
  - by intros ?%bool_decide_eq_true.
  - intros ->%bool_decide_eq_true. done.
Qed.

Lemma results_validate_sound rqInfo (itr : I) :
  itr_ok itr -> results_validate rqInfo itr = Ok true ->
  GetRawReads rqInfo = kv_read <$> rest itr.
Proof.
  intros Hok. unfold results_validate.
  destruct (Next_spec itr Hok) as (itr' & -> & Hok' & Hrest). cbn [mbind res_bind].
  destruct (GetRawReads rqInfo) as [|r reads] eqn:E.
  - by destruct (rest itr).
  - intros Hl. apply results_loop_sound in Hl; [|done|by destruct (head _)].
    rewrite Hl, Hrest. by destruct (rest itr).
Qed.

(** The summary of a list of results. *)
Definition summary_of (h : RangeQueryResultsHelper) (l : list VersionedKV)
    : option QueryReadsMerkleSummary :=
  match snd (Done (add_results h (kv_read <$> l))) with
  | Ok (_, s) => s
  | _ => None
  end.

(** A summary the current one has gone past cannot be the final one. *)
Lemma summary_past inm s h m l :
  helper_ok h m -> s = getSummery m ->
  MaxLevel inm <= MaxLevel s ->
  length (MaxLevelHashes inm) < length (MaxLevelHashes s) \/
  (exists i a b, MaxLevelHashes s !! i = Some a /\ MaxLevelHashes inm !! i = Some b /\ a <> b) ->
  Equal inm (summary_of h l) = false.
Proof.
  intros Hh -> Hl Hbad. apply not_true_iff_false. rewrite Equal_iff. unfold summary_of.
  destruct (add_results_ok h m (kv_read <$> l) Hh) as (m' & Hh' & Hs).
  destruct (Done_spec _ m' Hh') as (h2 & p & o & -> & Ho). cbn [snd]. intros ->.
  destruct Ho as (_ & _ & Ho). assert (summary_le (getSummery m) inm) as [_ [Hlt|[_ [k Hpre]]]] by (by etrans).
  - lia.
  - destruct Hbad as [Hlen|(i & a & b & Ha & Hb & Hab)].
    + rewrite Hpre, length_app in Hlen. lia.
    + rewrite Hpre, (lookup_app_l_Some _ _ _ _ Ha) in Hb. congruence.
Qed.

Lemma summary_of_cons h m kv l h' :
  AddResult h (kv_read kv) = (h', m) -> summary_of h (kv :: l) = summary_of h' l.
Proof. intros E. unfold summary_of. cbn. by rewrite E. Qed.

Lemma hash_init_ok inm h : hash_init inm = Ok h -> helper_ok h (mkTree ∅ 1 (MaxDegree inm)).
Proof.
  unfold hash_init. intros E.
  destruct (Nat.lt_ge_cases (MaxDegree inm) 2) as [Hlt|Hge].
  - unfold NewRangeQueryResultsHelper, newMerkleTree in E.
    by rewrite (proj2 (Nat.ltb_lt _ _) Hlt) in E.
  - destruct (NewRangeQueryResultsHelper_ok _ Hge) as (h' & E' & Hh & _).
    rewrite E' in E. by injection E as <-.
Qed.

(** If the loop returns, it returns whether the summary of everything the
    iterator delivers is the recorded one, in spite of its early exits. *)
Lemma hash_loop_sound fuel inm h m (itr : I) matched b :
  helper_ok h m -> itr_ok itr -> hash_loop fuel inm h itr matched = Ok b ->
  b = Equal inm (summary_of h (rest itr)).
Proof.
  revert h m itr matched. induction fuel as [|fuel IH]; intros h m itr matched Hh Hok; [done|].
  cbn [hash_loop]. destruct (Next_spec itr Hok) as (itr' & -> & Hok' & Hrest). cbn [mbind res_bind].
  destruct (rest itr) as [|kv l]; cbn [head] in *.
  - destruct (Done_spec h m Hh) as (h2 & p & o & Ed & _). unfold summary_of. cbn.
    rewrite Ed. cbn. by intros [= <-].
  - fold (kv_read kv). destruct (AddResult_spec h m (kv_read kv) Hh) as (h1 & m1 & Ea & Hh1 & _ & _).
    rewrite (summary_of_cons _ _ _ _ _ Ea), Ea, (GetMerkleSummary_spec _ _ Hh1).
    cbn [tail] in Hrest. rewrite <- Hrest.
    destruct (Nat.ltb_spec (MaxLevel (getSummery m1)) (MaxLevel inm)) as [?|Hlvl]; [by apply (IH h1 m1)|].
    destruct (_ =? _); [by apply (IH h1 m1)|].
    destruct (Nat.ltb_spec (length (MaxLevelHashes inm)) (length (MaxLevelHashes (getSummery m1)))) as [?|_].
    { intros [= <-]. symmetry. eapply (summary_past inm _ h1 m1); eauto. }
    destruct (MaxLevelHashes (getSummery m1) !! matched) as [a|] eqn:Ha; [|done].
    destruct (MaxLevelHashes inm !! matched) as [c|] eqn:Hc; [|done].
    case_bool_decide; [by apply (IH h1 m1)|]. intros [= <-]. symmetry.
    eapply (summary_past inm _ h1 m1); eauto 10.
Qed.

(** *** When the loop cannot fail

    With fewer recorded hashes than the degree, every entry the tree gains is
    compared before the level can fill up and be folded. *)

Record loop_inv (inm : QueryReadsMerkleSummary) (h : RangeQueryResultsHelper) (m : merkleTree)
    (matched : nat) : Prop := {
  li_ok : helper_ok h m;
  li_degree : maxDegree m = MaxDegree inm;
  li_matched :
    (maxLevel m < MaxLevel inm /\ matched = 0) \/
    (MaxLevel inm <= maxLevel m /\ matched = length (getMaxLevelHashes m) /\
       matched <= length (MaxLevelHashes inm))
}.

Lemma loop_inv_step inm h m matched h' m' :
  length (MaxLevelHashes inm) < MaxDegree inm ->
  loop_inv inm h m matched -> helper_ok h' m' -> maxDegree m' = maxDegree m ->
  summary_step (getSummery m) (getSummery m') ->
  (maxLevel m' < MaxLevel inm /\ loop_inv inm h' m' matched) \/
  (MaxLevel inm <= maxLevel m' /\
     (length (getMaxLevelHashes m') = matched /\ loop_inv inm h' m' matched \/
      length (getMaxLevelHashes m') = S matched)).
Proof.
  intros Hin [Hok Hd Hm] Hok' Hd' [_ Hs]. cbn in Hs.
  destruct (Nat.lt_ge_cases (maxLevel m') (MaxLevel inm)) as [Hlt|Hge].
  - left. split; [done|]. split; [done|congruence|]. left. split; [done|]. destruct Hm; lia.
  - right. split; [done|].
    destruct Hs as [[Hl [Hh|[x Hh]]]|(Hl & Hlen & x & Hh)].
    + left. destruct Hm as [|(? & Hm & ?)]; [lia|]. rewrite Hh. split; [done|].
      split; [done|congruence|]. right. by rewrite Hh.
    + right. destruct Hm as [|(? & Hm & ?)]; [lia|]. rewrite Hh, length_app, <- Hm. cbn. lia.
    + right. destruct Hm as [[? ->]|(? & Hm & ?)]; [by rewrite Hh|lia].
Qed.

Lemma hash_loop_total fuel inm h m (itr : I) matched :
  length (MaxLevelHashes inm) < MaxDegree inm ->
  loop_inv inm h m matched -> itr_ok itr -> length (rest itr) < fuel ->
  exists b, hash_loop fuel inm h itr matched = Ok b.
Proof.
  intros Hin. revert h m itr matched. induction fuel as [|fuel IH]; intros h m itr matched Hinv Hok Hf; [lia|].
  cbn [hash_loop]. destruct (Next_spec itr Hok) as (itr' & -> & Hok' & Hrest). cbn [mbind res_bind].
  destruct (rest itr) as [|kv l]; cbn [head] in *.
  - destruct (Done_spec h m (li_ok _ _ _ _ Hinv)) as (h2 & p & o & Ed & _). rewrite Ed. cbn. eauto.
  - fold (kv_read kv).
    destruct (AddResult_spec h m (kv_read kv) (li_ok _ _ _ _ Hinv)) as (h1 & m1 & -> & Hh1 & Hd1 & Hs1).
    rewrite (GetMerkleSummary_spec _ _ Hh1). cbn [tail length] in *. subst l.
    change (MaxLevel (getSummery m1)) with (maxLevel m1).
    change (MaxLevelHashes (getSummery m1)) with (getMaxLevelHashes m1).
    destruct (loop_inv_step _ _ _ _ _ _ Hin Hinv Hh1 Hd1 Hs1) as [[Hl Hinv']|[Hl Hc]].
    { rewrite (proj2 (Nat.ltb_lt _ _) Hl). apply (IH h1 m1); done || lia. }
    rewrite (proj2 (Nat.ltb_ge _ _) Hl).
    destruct Hc as [[Hc Hinv']|Hc]; rewrite Hc.
    { rewrite Nat.eqb_refl. apply (IH h1 m1); done || lia. }
    rewrite (proj2 (Nat.eqb_neq _ _)) by lia.
    destruct (Nat.ltb_spec (length (MaxLevelHashes inm)) (S matched)); [eauto|].
    destruct (lookup_lt_is_Some_2 (getMaxLevelHashes m1) matched) as [a ->]; [lia|].
    destruct (lookup_lt_is_Some_2 (MaxLevelHashes inm) matched) as [b ->]; [lia|].
    case_bool_decide; [|eauto]. apply (IH h1 m1); try done; try lia.
    split; [done| |right; split; [done|]; rewrite Hc; lia].
    rewrite Hd1. apply Hinv.
Qed.

Lemma hash_validate_total inm (itr : I) :
  2 <= MaxDegree inm -> length (MaxLevelHashes inm) < MaxDegree inm -> itr_ok itr ->
  exists h, hash_init inm = Ok h /\
    hash_validate inm (Some h) itr = Ok (Equal inm (summary_of h (rest itr))).
Proof.
  intros Hd Hin Hok. unfold hash_init.
  destruct (NewRangeQueryResultsHelper_ok (MaxDegree inm) Hd) as (h & E & Hh & _).
  exists h. split; [done|]. cbn [hash_validate].
  destruct (hash_loop_total (S (remaining itr)) inm h (mkTree ∅ 1 (MaxDegree inm)) itr 0 Hin) as [b Eb].
  - split; [done|done|]. cbn [maxLevel].
    destruct (Nat.lt_ge_cases 1 (MaxLevel inm)); [by left|right].
    split; [done|]. split; [done|lia].
  - done.
  - pose proof (remaining_spec itr Hok). lia.
  - rewrite Eb. f_equal. by eapply hash_loop_sound.
Qed.

End Facts.
End RangeValidator.

(** ** Theorems *)

Module RangeQueryTheorems.
Import Merkle Combined RangeValidator BatchFacts.

(** C20: The combined iterator delivers what a scan of the committed state would
    deliver once the updates are applied: the live keys of the namespace in the
    range, with the updates' values where there are any, in key order and
    without the deleted ones; and after them the end key, if it was to be
    included and is live.  Draining it ends within the rounds given. *)
Theorem combined_iterator_scan {DB : Type} `{VersionedDBSpec DB} (db : DB) updates ns startKey endKey
    (includeEndKey : bool) :
  db_ok db -> ns_ok ns ->
  exists i l, newCombinedIterator db updates ns startKey endKey includeEndKey = Ok i /\
    is_scan (overlay updates (view db)) ns startKey endKey l /\
    drain (1 + remaining i) i =
      Ok (l ++ if includeEndKey then
                 match overlay updates (view db) ns endKey with
                 | Some vv => [mkVKV ns endKey vv]
                 | None => []
                 end
               else []).
Proof.
  intros Hdb Hns.
  destruct (newCombinedIterator_spec db updates ns startKey endKey includeEndKey Hdb Hns)
    as (i & l & E & Hok & Hr & Hs).
  exists i, l. split; [done|]. split; [done|]. rewrite <- Hr.
  change (drain (1 + remaining i) i = Ok (rest i)). apply drain_rest; [done|].
  pose proof (remaining_spec i Hok). lia.
Qed.

Definition w_db : mem_db :=
  demo_db [("cc", "a", Some (to_bytes "1"), NewHeight 1 0);
           ("cc", "b", Some (to_bytes "2"), NewHeight 1 1);
           ("cc", "d", Some (to_bytes "4"), NewHeight 1 2);
           ("other", "c", Some (to_bytes "9"), NewHeight 1 3)] (NewHeight 1 3).

Definition w_updates : UpdateBatch :=
  batch_of [("cc", "b", None, NewHeight 2 0); ("cc", "c", Some (to_bytes "3"), NewHeight 2 1)].

Lemma combined_iterator_scan_witness :
  exists i, newCombinedIterator w_db w_updates "cc" "a" "d" true = Ok i /\
    exists l, drain (1 + remaining i) i = Ok l /\ Key <$> l = ["a"; "c"; "d"].
Proof.
  destruct (combined_iterator_scan w_db w_updates "cc" "a" "d" true) as (i & l & E & _ & D).
  { apply demo_db_ok. by vm_compute. }
  { apply (bool_decide_unpack _). by vm_compute. }
  exists i. split; [done|]. eexists. split; [exact D|].
  assert ((j ← newCombinedIterator w_db w_updates "cc" "a" "d" true; drain (1 + remaining j) j) =
    Ok (l ++ match overlay w_updates (view w_db) "cc" "d" with
             | Some vv => [mkVKV "cc" "d" vv] | None => [] end)) as E1.
  { rewrite E. exact D. }
  assert ((Key <$> match (j ← newCombinedIterator w_db w_updates "cc" "a" "d" true;
     drain (1 + remaining j) j) with Ok l => l | _ => [] end) = ["a"; "c"; "d"]) as E2
    by (by vm_compute).
  rewrite E1 in E2. exact E2.
Defined.

(** The validation of a range query whose results were recorded as they
    are: it returns, and returns true just if the recorded keys and versions
    are those the iterator delivers, all of them and no more. *)
Theorem raw_results_validated {I : Type} `{ResultsIteratorSpec I} (rqInfo : RangeQueryInfo) (itr : I) :
  itr_ok itr -> Forall (fun r => is_Some (kvr_Version r)) (GetRawReads rqInfo) ->
  exists b : bool, results_validate rqInfo itr = Ok b /\
    (b = true <-> GetRawReads rqInfo =
       (fun kv => NewKVRead (Key kv) (Some (Version (VV kv)))) <$> rest itr).
Proof.
  intros Hok Hv. rewrite results_validate_spec by done. eexists. split; [done|].
  apply bool_decide_eq_true.
Qed.

Lemma raw_results_validated_witness :
  exists b : bool, results_validate
      (mkRQI "a" "z" true (RawReads [NewKVRead "b" (Some (NewHeight 2 0)); NewKVRead "c" (Some (NewHeight 2 1))]))
      (GetRangeScanIterator w_updates "cc" "a" "z") = Ok b /\ b = true.
Proof.
  destruct (raw_results_validated (I := nsIterator)
    (mkRQI "a" "z" true (RawReads [NewKVRead "b" (Some (NewHeight 2 0)); NewKVRead "c" (Some (NewHeight 2 1))]))
    (GetRangeScanIterator w_updates "cc" "a" "z")) as (b & E & Hb).
  { apply BatchFacts.newNsIterator_spec. }
  { repeat constructor; eauto. }
  exists b. split; [done|]. apply Hb. by vm_compute.
Defined.

(** C39: The validation of a range query whose results were recorded as a Merkle
    summary, of a degree of at least 2 and with fewer hashes in its top level than
    that degree.  For such a summary the validation returns, without an error or a
    panic; and its answer, early exits included, is whether the summary of
    everything the iterator delivers is the recorded one.  (A summary with a full
    top level can make the code panic, [hashed_results_panic].) *)
Theorem hashed_results_validated {I : Type} `{ResultsIteratorSpec I} `{HashingSpec}
    (inMerkle : QueryReadsMerkleSummary) (itr : I) :
  itr_ok itr -> 2 <= MaxDegree inMerkle -> length (MaxLevelHashes inMerkle) < MaxDegree inMerkle ->
  exists h (b : bool), hash_init inMerkle = Ok h /\ hash_validate inMerkle (Some h) itr = Ok b /\
    (b = true <-> summary_of h (rest itr) = Some inMerkle).
Proof.
  intros Hok Hd Hl. destruct (hash_validate_total inMerkle itr Hd Hl Hok) as (h & Eh & Ev).
  eexists h, _. split; [done|]. split; [done|]. apply Equal_iff.
Qed.

(** A batch of [n] keys, and the summary of its results at degree 2. *)
Definition w_key (i : nat) : string := String (ascii_of_nat (65 + i)) EmptyString.

Definition w_batch (n : nat) : UpdateBatch :=
  batch_of ((fun i => ("cc", w_key i, Some (to_bytes "v"), NewHeight 1 (Z.of_nat i))) <$> seq 0 n).

Definition w_itr (n : nat) : nsIterator := GetRangeScanIterator (w_batch n) "cc" "" "".

Definition w_summary (n : nat) : QueryReadsMerkleSummary :=
  default (mkSummary 0 0 [])
    (summary_of (mkHelper [] (Some (mkTree ∅ 1 2)) 2 true) (BatchFacts.ns_rest (w_itr n))).

Lemma hashed_results_validated_witness :
  exists h (b : bool), hash_init (w_summary 9) = Ok h /\
    hash_validate (w_summary 9) (Some h) (w_itr 12) = Ok b /\ b = false.
Proof.
  destruct (hashed_results_validated (w_summary 9) (w_itr 12)) as (h & b & Eh & Ev & Hb).
  { apply BatchFacts.newNsIterator_spec. }
  { vm_compute. lia. }
  { vm_compute. lia. }
  exists h, b. split; [done|]. split; [done|]. apply not_true_iff_false. rewrite Hb.
  assert (hash_init (w_summary 9) = Ok (mkHelper [] (Some (mkTree ∅ 1 2)) 2 true)) as E0
    by (by vm_compute).
  rewrite E0 in Eh. injection Eh as <-. by vm_compute.
Defined.

(** When the recorded top level is full and all its hashes match, and the
    range has grown, the tree under construction rises by a level, and the
    validation panics at an index out of range: at degree 2, with six results
    recorded and nine now. *)
Theorem hashed_results_panic :
  MaxLevelHashes (w_summary 6) <> [] /\
  exists h m, hash_init (w_summary 6) = Ok h /\
    hash_validate (w_summary 6) (Some h) (w_itr 9) = Panic m.
Proof.
  split; [by vm_compute|]. exists (mkHelper [] (Some (mkTree ∅ 1 2)) 2 true). eexists.
  split; by vm_compute.
Qed.

End RangeQueryTheorems.
