(* ===== verification/Validator.v ===== *)
(** * Validation of a block against the state

    core/ledger/util/txvalidationflags.go and
    core/ledger/kvledger/txmgmt/validator/statebasedval/state_based_validator.go:
    multi-version concurrency control.  The transactions of a block are taken
    in order; one whose reads or range queries are not current, given the
    committed state and the writes of the valid transactions before it, is
    flagged, and the writes of the others make the update batch. *)

From stdpp Require Import base gmap strings list sorting.
From Stdlib Require Import Ascii ZArith Lia.
From S2P Require Import Prelude Version StateDB RWSet Merkle Proto Instances RangeQuery.
Import Batch RWSetUtil.

(** ** Validation codes and flags *)

Module Flags.

(** [peer.TxValidationCode] *)
Definition TxValidationCode_VALID : Z := 0.
Definition TxValidationCode_NIL_ENVELOPE : Z := 1.
Definition TxValidationCode_BAD_PAYLOAD : Z := 2.
Definition TxValidationCode_BAD_COMMON_HEADER : Z := 3.
Definition TxValidationCode_BAD_CREATOR_SIGNATURE : Z := 4.
Definition TxValidationCode_INVALID_ENDORSER_TRANSACTION : Z := 5.
Definition TxValidationCode_INVALID_CONFIG_TRANSACTION : Z := 6.
Definition TxValidationCode_UNSUPPORTED_TX_PAYLOAD : Z := 7.
Definition TxValidationCode_BAD_PROPOSAL_TXID : Z := 8.
Definition TxValidationCode_DUPLICATE_TXID : Z := 9.
Definition TxValidationCode_ENDORSEMENT_POLICY_FAILURE : Z := 10.
Definition TxValidationCode_MVCC_READ_CONFLICT : Z := 11.
Definition TxValidationCode_PHANTOM_READ_CONFLICT : Z := 12.
Definition TxValidationCode_UNKNOWN_TX_TYPE : Z := 13.
Definition TxValidationCode_TARGET_CHAIN_NOT_FOUND : Z := 14.
Definition TxValidationCode_MARSHAL_TX_ERROR : Z := 15.
Definition TxValidationCode_NIL_TXACTION : Z := 16.
Definition TxValidationCode_EXPIRED_CHAINCODE : Z := 17.
Definition TxValidationCode_CHAINCODE_VERSION_CONFLICT : Z := 18.
Definition TxValidationCode_BAD_HEADER_EXTENSION : Z := 19.
Definition TxValidationCode_BAD_CHANNEL_HEADER : Z := 20.
Definition TxValidationCode_BAD_RESPONSE_PAYLOAD : Z := 21.
Definition TxValidationCode_BAD_RWSET : Z := 22.
Definition TxValidationCode_ILLEGAL_WRITESET : Z := 23.
Definition TxValidationCode_INVALID_OTHER_REASON : Z := 255.

Definition NewTxValidationFlags (size : nat) : bytes := replicate size (uint8 0).

(** Indexing out of range panics. *)
Definition SetFlag (obj : bytes) (txIndex : nat) (flag : Z) : res bytes :=
  if txIndex <? length obj then Ok (<[txIndex := uint8 flag]> obj)
  else Panic "index out of range".

Definition Flag (obj : bytes) (txIndex : nat) : res Z :=
  match obj !! txIndex with
  | Some b => Ok (byte_val b)
  | None => Panic "index out of range"
  end.

Definition IsSetTo (obj : bytes) (txIndex : nat) (flag : Z) : res bool :=
  f ← Flag obj txIndex; Ok (Z.eqb f flag).

Definition IsValid (obj : bytes) (txIndex : nat) : res bool :=
  IsSetTo obj txIndex TxValidationCode_VALID.

Definition IsInvalid (obj : bytes) (txIndex : nat) : res bool :=
  v ← IsValid obj txIndex; Ok (negb v).

Lemma SetFlag_inv obj i f obj' :
  SetFlag obj i f = Ok obj' -> i < length obj /\ obj' = <[i := uint8 f]> obj.
Proof. unfold SetFlag. destruct (Nat.ltb_spec i (length obj)); [|done]. by intros [= <-]. Qed.

Lemma IsInvalid_lookup obj i b :
  obj !! i = Some b -> IsInvalid obj i = Ok (negb (Z.eqb (byte_val b) 0)).
Proof. intros E. unfold IsInvalid, IsValid, IsSetTo, Flag. by rewrite E. Qed.

Lemma IsInvalid_inv obj i r :
  IsInvalid obj i = Ok r -> exists b, obj !! i = Some b /\ r = negb (Z.eqb (byte_val b) 0).
Proof.
  unfold IsInvalid, IsValid, IsSetTo, Flag. destruct (obj !! i) as [b|]; [|done].
  cbn. intros [= <-]. eauto.
Qed.

End Flags.

(** ** The validator *)

Module Validator.
Import Flags Merkle Combined RangeValidator.

Section Validator.
Context {DB : Type} `{VersionedDB DB} `{Hashing} `{RWSetCodec} `{ProtoCodec}.

Definition validateKVRead (db : DB) (ns : string) (kvRead : KVRead) (updates : UpdateBatch)
    : res bool :=
  if Exists updates ns (kvr_Key kvRead) then Ok false
  else
    versionedValue ← GetState db ns (kvr_Key kvRead);
    let committedVersion := Version <$> versionedValue in
    Ok (Height.AreSame committedVersion (NewVersion (kvr_Version kvRead))).

Fixpoint validateReadSet (db : DB) (ns : string) (kvReads : list KVRead) (updates : UpdateBatch)
    : res bool :=
  match kvReads with
  | [] => Ok true
  | kvRead :: kvReads' =>
      valid ← validateKVRead db ns kvRead updates;
      if (valid : bool) then validateReadSet db ns kvReads' updates else Ok false
  end.

(** The error of the validator's [init] is dropped: it leaves the helper nil. *)
Definition validateRangeQuery (db : DB) (ns : string) (rangeQueryInfo : RangeQueryInfo)
    (updates : UpdateBatch) : res bool :=
  let includeEndKey := negb (ItrExhausted rangeQueryInfo) in
  combinedItr ← newCombinedIterator db updates ns (StartKey rangeQueryInfo)
                  (EndKey rangeQueryInfo) includeEndKey;
  match GetReadsMerkleHashes rangeQueryInfo with
  | Some inMerkle =>
      match hash_init inMerkle with
      | Ok helper => hash_validate inMerkle (Some helper) combinedItr
      | Err _ => hash_validate inMerkle None combinedItr
      | Panic p => Panic p
      | OutOfFuel => OutOfFuel
      end
  | None => results_validate rangeQueryInfo combinedItr
  end.

Fixpoint validateRangeQueries (db : DB) (ns : string) (rangeQueriesInfo : list RangeQueryInfo)
    (updates : UpdateBatch) : res bool :=
  match rangeQueriesInfo with
  | [] => Ok true
  | rqi :: rangeQueriesInfo' =>
      valid ← validateRangeQuery db ns rqi updates;
      if (valid : bool) then validateRangeQueries db ns rangeQueriesInfo' updates else Ok false
  end.

Fixpoint validateTx (db : DB) (txRWSet : TxRwSet) (updates : UpdateBatch) : res Z :=
  match txRWSet with
  | [] => Ok TxValidationCode_VALID
  | nsRWSet :: txRWSet' =>
      let ns := NameSpace nsRWSet in
      valid ← validateReadSet db ns (Reads (KvRwSet nsRWSet)) updates;
      if negb valid then Ok TxValidationCode_MVCC_READ_CONFLICT
      else
        valid ← validateRangeQueries db ns (RangeQueriesInfo (KvRwSet nsRWSet)) updates;
        if negb valid then Ok TxValidationCode_PHANTOM_READ_CONFLICT
        else validateTx db txRWSet' updates
  end.

Definition add_write (ns : string) (txHeight : Height) (batch : UpdateBatch) (kvWrite : KVWrite)
    : res UpdateBatch :=
  if kvw_IsDelete kvWrite then Ok (Delete batch ns (kvw_Key kvWrite) txHeight)
  else Put batch ns (kvw_Key kvWrite) (kvw_Value kvWrite) txHeight.

Definition addWriteSetToBatch (txRWSet : TxRwSet) (txHeight : Height) (batch : UpdateBatch)
    : res UpdateBatch :=
  foldM (fun batch nsRWSet =>
      foldM (add_write (NameSpace nsRWSet) txHeight) batch (Writes (KvRwSet nsRWSet)))
    batch txRWSet.

(** A nil read-write set is [None]. *)
Definition validateEndorserTX (db : DB) (envBytes : bytes) (doMVCCValidation : bool)
    (updates : UpdateBatch) : res (option TxRwSet * Z) :=
  match ProtoUtils.GetActionFromEnvelope envBytes with
  | Panic p => Panic p
  | OutOfFuel => OutOfFuel
  | Err _ => Ok (None, TxValidationCode_NIL_TXACTION)
  | Ok respPayload =>
      match FromProtoBytes (ca_Results respPayload) with
      | Panic p => Panic p
      | OutOfFuel => OutOfFuel
      | Err _ => Ok (None, TxValidationCode_INVALID_OTHER_REASON)
      | Ok txRWSet =>
          if doMVCCValidation then
            txResult ← validateTx db txRWSet updates;
            if negb (Z.eqb txResult TxValidationCode_VALID) then Ok (None, txResult)
            else Ok (Some txRWSet, txResult)
          else Ok (Some txRWSet, TxValidationCode_VALID)
      end
  end.

(** The type of the transaction in an envelope. *)
Definition envelope_type (envBytes : bytes) : res HeaderType :=
  env ← ProtoUtils.GetEnvelopeFromBlock envBytes;
  payload ← ProtoUtils.GetPayload env;
  hdr ← ProtoUtils.payload_ChannelHeader payload;
  chdr ← ProtoUtils.UnmarshalChannelHeader hdr;
  Ok (ch_Type chdr).

(** One round of the loop of [ValidateAndPrepareBatch]. *)
Definition validate_one (db : DB) (number : Z) (doMVCCValidation : bool) (txIndex : nat)
    (envBytes : bytes) (txsFilter : bytes) (updates : UpdateBatch) : res (bytes * UpdateBatch) :=
  invalid ← IsInvalid txsFilter txIndex;
  if (invalid : bool) then Ok (txsFilter, updates)
  else
    txType ← envelope_type envBytes;
    if negb (bool_decide (txType = ENDORSER_TRANSACTION)) then Ok (txsFilter, updates)
    else
      '(txRWSet, txResult) ← validateEndorserTX db envBytes doMVCCValidation updates;
      txsFilter ← SetFlag txsFilter txIndex txResult;
      match txRWSet with
      | Some txRWSet =>
          let committingTxHeight := NewHeight number (Z.of_nat txIndex) in
          updates ← addWriteSetToBatch txRWSet committingTxHeight updates;
          txsFilter ← SetFlag txsFilter txIndex TxValidationCode_VALID;
          Ok (txsFilter, updates)
      | None => Ok (txsFilter, updates)
      end.

(** The loop.  [txsFilter] is the array in the block's metadata, so the flags
    set before an error stay. *)
Fixpoint validate_loop (db : DB) (number : Z) (doMVCCValidation : bool) (txIndex : nat)
    (data : list bytes) (txsFilter : bytes) (updates : UpdateBatch) : bytes * res UpdateBatch :=
  match data with
  | [] => (txsFilter, Ok updates)
  | envBytes :: data' =>
      match validate_one db number doMVCCValidation txIndex envBytes txsFilter updates with
      | Ok (txsFilter, updates) =>
          validate_loop db number doMVCCValidation (S txIndex) data' txsFilter updates
      | Err e => (txsFilter, Err e)
      | Panic p => (txsFilter, Panic p)
      | OutOfFuel => (txsFilter, OutOfFuel)
      end
  end.

Definition set_filter (block : Block) (txsFilter : bytes) : Block :=
  mkBlock (blk_Header block) (blk_Data block)
    (<[TRANSACTIONS_FILTER := txsFilter]> (blk_Metadata block)).

(** The block, with the flags in its metadata, and the batch. *)
Definition ValidateAndPrepareBatch (db : DB) (block : Block) (doMVCCValidation : bool)
    : Block * res UpdateBatch :=
  match blk_Metadata block !! TRANSACTIONS_FILTER with
  | None => (block, Panic "index out of range")
  | Some txsFilter =>
      let txsFilter :=
        if length txsFilter =? 0 then NewTxValidationFlags (length (blk_Data block))
        else txsFilter in
      let '(txsFilter, r) :=
        validate_loop db (Number (blk_Header block)) doMVCCValidation 0 (blk_Data block)
          txsFilter NewUpdateBatch in
      (set_filter block txsFilter, r)
  end.

End Validator.

(** ** What is current *)

Section Spec.
Context {DB : Type} `{VersionedDBSpec DB} `{HashingSpec} `{RWSetCodec} `{ProtoCodec}.

Definition read_current (v : view_t) (updates : UpdateBatch) (ns : string) (r : KVRead) : Prop :=
  Batch.Get updates ns (kvr_Key r) = None /\
  Version <$> v ns (kvr_Key r) = NewVersion (kvr_Version r).

(** What a range query delivers: the scan, and the end key if the caller
    stopped at it. *)
Definition is_result (v : view_t) (ns : string) (q : RangeQueryInfo) (l : list VersionedKV) : Prop :=
  exists l0, is_scan v ns (StartKey q) (EndKey q) l0 /\
    l = l0 ++ (if negb (ItrExhausted q)
               then match v ns (EndKey q) with Some vv => [mkVKV ns (EndKey q) vv] | None => [] end
               else []).

(** The recorded results are those [l] would be recorded as. *)
Definition records (q : RangeQueryInfo) (l : list VersionedKV) : Prop :=
  match GetReadsMerkleHashes q with
  | Some inm => exists h, hash_init inm = Ok h /\ summary_of h l = Some inm
  | None => GetRawReads q = kv_read <$> l
  end.

Definition query_current (v : view_t) (ns : string) (q : RangeQueryInfo) : Prop :=
  exists l, is_result v ns q l /\ records q l.

Definition tx_current (v : view_t) (updates : UpdateBatch) (rw : TxRwSet) : Prop :=
  forall s, s ∈ rw ->
    (forall r, r ∈ Reads (KvRwSet s) -> read_current v updates (NameSpace s) r) /\
    (forall q, q ∈ RangeQueriesInfo (KvRwSet s) -> query_current (overlay updates v) (NameSpace s) q).

(** Read-write sets on which validation cannot panic: the recorded results
    have versions, and a recorded Merkle level is not full. *)
Definition query_wf (q : RangeQueryInfo) : Prop :=
  match rqi_ReadsInfo q with
  | NoReads => True
  | RawReads l => Forall (fun r => is_Some (kvr_Version r)) l
  | ReadsMerkleHashes s => 2 <= MaxDegree s /\ length (MaxLevelHashes s) < MaxDegree s
  end.

Definition rwset_wf (rw : TxRwSet) : Prop :=
  forall s, s ∈ rw -> ns_ok (NameSpace s) /\ forall q, q ∈ RangeQueriesInfo (KvRwSet s) -> query_wf q.

Lemma is_result_unique v ns q l1 l2 : is_result v ns q l1 -> is_result v ns q l2 -> l1 = l2.
Proof.
  intros (a & Ha & ->) (b & Hb & ->). f_equal. by eapply is_scan_unique.
Qed.

Lemma validateKVRead_spec db ns r updates :
  db_ok db -> ns_ok ns ->
  exists b : bool, validateKVRead db ns r updates = Ok b /\
    (b = true <-> read_current (view db) updates ns r).
Proof.
  intros Hdb Hns. unfold validateKVRead, read_current.
  destruct (Exists _ _ _) eqn:E.
  - exists false. split; [done|]. split; [done|]. intros [Hg _].
    apply BatchFacts.Exists_false in Hg. congruence.
  - apply BatchFacts.Exists_false in E. rewrite GetState_spec by done. cbn.
    eexists. split; [done|]. rewrite Height.AreSame_iff. naive_solver.
Qed.

Lemma validateReadSet_spec db ns rs updates :
  db_ok db -> ns_ok ns ->
  exists b : bool, validateReadSet db ns rs updates = Ok b /\
    (b = true <-> forall r, r ∈ rs -> read_current (view db) updates ns r).
Proof.
  intros Hdb Hns. induction rs as [|r rs (b & IH & Hb)]; cbn [validateReadSet].
  { exists true. split; [done|]. split; [|done]. intros _ r Hr. by apply elem_of_nil in Hr. }
  destruct (validateKVRead_spec db ns r updates Hdb Hns) as (b1 & -> & Hb1). cbn.
  destruct b1.
  - exists b. split; [done|]. rewrite Hb. set_solver.
  - exists false. split; [done|]. split; [done|]. intros Hall. apply Hb1, Hall. left.
Qed.

(** *** Range queries *)

Lemma combined_result db updates ns q :
  db_ok db -> ns_ok ns ->
  exists i, newCombinedIterator db updates ns (StartKey q) (EndKey q) (negb (ItrExhausted q)) = Ok i /\
    itr_ok i /\ is_result (overlay updates (view db)) ns q (rest i).
Proof.
  intros Hdb Hns.
  destruct (newCombinedIterator_spec db updates ns (StartKey q) (EndKey q) (negb (ItrExhausted q)) Hdb Hns)
    as (i & l & E & Hok & Hr & Hs).
  exists i. split; [done|]. split; [done|]. by exists l.
Qed.

Lemma validateRangeQuery_sound db ns q updates :
  db_ok db -> ns_ok ns -> validateRangeQuery db ns q updates = Ok true ->
  query_current (overlay updates (view db)) ns q.
Proof.
  intros Hdb Hns. unfold validateRangeQuery, query_current, records.
  destruct (combined_result db updates ns q Hdb Hns) as (i & -> & Hok & Hres).
  cbn [mbind res_bind]. intros Hv. exists (rest i). split; [done|].
  destruct (GetReadsMerkleHashes q) as [inm|].
  - destruct (hash_init inm) as [h|e|p|] eqn:Eh; [| |done|done].
    + exists h. split; [done|]. apply Equal_iff. symmetry.
      eapply hash_loop_sound; [by apply hash_init_ok|done|exact Hv].
    + cbn [hash_validate] in Hv. destruct (Next_spec i Hok) as (i' & E' & _).
      rewrite E' in Hv. done.
  - by apply results_validate_sound.
Qed.

Lemma validateRangeQuery_spec db ns q updates :
  db_ok db -> ns_ok ns -> query_wf q ->
  exists b : bool, validateRangeQuery db ns q updates = Ok b /\
    (b = true <-> query_current (overlay updates (view db)) ns q).
Proof.
  intros Hdb Hns Hwf. unfold validateRangeQuery, query_current.
  destruct (combined_result db updates ns q Hdb Hns) as (i & -> & Hok & Hres).
  cbn [mbind res_bind].
  assert (forall P : list VersionedKV -> Prop,
    (exists l, is_result (overlay updates (view db)) ns q l /\ P l) <-> P (rest i)) as Huniq.
  { intros P. split; [|eauto]. intros (l & Hl & HP). by rewrite (is_result_unique _ _ _ _ _ Hres Hl). }
  setoid_rewrite (Huniq (records q)). unfold records. destruct (GetReadsMerkleHashes q) as [inm|] eqn:Eq.
  - assert (2 <= MaxDegree inm /\ length (MaxLevelHashes inm) < MaxDegree inm) as [Hd Hlen].
    { unfold GetReadsMerkleHashes, query_wf in *. destruct (rqi_ReadsInfo q); by simplify_eq. }
    destruct (hash_validate_total inm i Hd Hlen Hok) as (h & -> & ->).
    eexists. split; [done|]. rewrite Equal_iff. split; [eauto|]. by intros (h' & [= <-] & ?).
  - rewrite results_validate_spec; [|clear -Hwf|done].
    + eexists. split; [done|]. apply bool_decide_eq_true.
    + unfold GetRawReads, query_wf in *. by destruct (rqi_ReadsInfo q).
Qed.

Lemma validateRangeQueries_spec db ns qs updates :
  db_ok db -> ns_ok ns -> (forall q, q ∈ qs -> query_wf q) ->
  exists b : bool, validateRangeQueries db ns qs updates = Ok b /\
    (b = true <-> forall q, q ∈ qs -> query_current (overlay updates (view db)) ns q).
Proof.
  intros Hdb Hns. induction qs as [|q qs IH]; intros Hwf; cbn [validateRangeQueries].
  { exists true. split; [done|]. split; [|done]. intros _ q Hq. by apply elem_of_nil in Hq. }
  destruct IH as (b & IH & Hb); [intros; apply Hwf; by right|].
  destruct (validateRangeQuery_spec db ns q updates Hdb Hns) as (b1 & -> & Hb1); [apply Hwf; left|].
  cbn. destruct b1.
  - exists b. split; [done|]. rewrite Hb. set_solver.
  - exists false. split; [done|]. split; [done|]. intros Hall. apply Hb1, Hall. left.
Qed.

Lemma validateRangeQueries_sound db ns qs updates q :
  db_ok db -> ns_ok ns -> validateRangeQueries db ns qs updates = Ok true -> q ∈ qs ->
  query_current (overlay updates (view db)) ns q.
Proof.
  intros Hdb Hns. induction qs as [|q' qs IH]; intros Hv Hq; [by apply elem_of_nil in Hq|].
  cbn [validateRangeQueries] in Hv.
  destruct (validateRangeQuery db ns q' updates) as [[]| | |] eqn:E; try done. cbn in Hv.
  apply elem_of_cons in Hq as [->|Hq]; [by apply validateRangeQuery_sound|by apply IH].
Qed.

(** *** Transactions *)

Lemma tx_current_cons v updates s rw :
  tx_current v updates (s :: rw) <->
  (forall r, r ∈ Reads (KvRwSet s) -> read_current v updates (NameSpace s) r) /\
  (forall q, q ∈ RangeQueriesInfo (KvRwSet s) -> query_current (overlay updates v) (NameSpace s) q) /\
  tx_current v updates rw.
Proof.
  unfold tx_current. split.
  - intros Hall. destruct (Hall s) as [? ?]; [left|]. split; [done|]. split; [done|].
    intros s' Hs'. apply Hall. by right.
  - intros (Hr & Hq & Hall) s' [->|Hs']%elem_of_cons; [done|]. by apply Hall.
Qed.

(** On a well-formed read-write set validation returns, and returns [VALID]
    just if everything the transaction read is current. *)
Lemma validateTx_spec db rw updates :
  db_ok db -> rwset_wf rw ->
  exists c, validateTx db rw updates = Ok c /\
    (c = TxValidationCode_VALID <-> tx_current (view db) updates rw) /\
    c ∈ [TxValidationCode_VALID; TxValidationCode_MVCC_READ_CONFLICT;
         TxValidationCode_PHANTOM_READ_CONFLICT].
Proof.
  intros Hdb. induction rw as [|s rw IH]; intros Hwf; cbn [validateTx].
  { exists TxValidationCode_VALID. split; [done|]. split; [|left]. split; [|done].
    intros _ s Hs. by apply elem_of_nil in Hs. }
  destruct (Hwf s) as [Hns Hq]; [left|].
  destruct IH as (c & -> & Hc & Hin); [intros s' Hs'; apply Hwf; by right|].
  destruct (validateReadSet_spec db (NameSpace s) (Reads (KvRwSet s)) updates Hdb Hns) as (b1 & -> & Hb1).
  destruct (validateRangeQueries_spec db (NameSpace s) (RangeQueriesInfo (KvRwSet s)) updates Hdb Hns Hq)
    as (b2 & -> & Hb2).
  setoid_rewrite tx_current_cons. cbn [mbind res_bind]. destruct b1; cbn [negb].
  - destruct b2; cbn [negb].
    + exists c. split; [done|]. split; [|done]. rewrite Hc. naive_solver.
    + exists TxValidationCode_PHANTOM_READ_CONFLICT. split; [done|]. split; [|set_solver].
      split; [done|]. intros (_ & Hall & _). apply Hb2 in Hall. done.
  - exists TxValidationCode_MVCC_READ_CONFLICT. split; [done|]. split; [|set_solver].
    split; [done|]. intros (Hall & _). apply Hb1 in Hall. done.
Qed.

Lemma validateTx_sound db rw updates :
  db_ok db -> (forall s, s ∈ rw -> ns_ok (NameSpace s)) ->
  validateTx db rw updates = Ok TxValidationCode_VALID -> tx_current (view db) updates rw.
Proof.
  intros Hdb. induction rw as [|s rw IH]; intros Hns Hv.
  { intros s Hs. by apply elem_of_nil in Hs. }
  cbn [validateTx] in Hv. assert (ns_ok (NameSpace s)) as Hs by (apply Hns; left).
  destruct (validateReadSet_spec db (NameSpace s) (Reads (KvRwSet s)) updates Hdb Hs) as (b1 & E1 & Hb1).
  rewrite E1 in Hv. cbn in Hv. destruct b1; [|done]. cbn in Hv.
  destruct (validateRangeQueries db (NameSpace s) _ updates) as [b2| | |] eqn:E2; try done.
  cbn in Hv. destruct b2; [|done]. cbn in Hv. apply tx_current_cons. split; [by apply Hb1|].
  split; [intros q; by apply validateRangeQueries_sound|].
  apply IH; [|done]. intros. apply Hns. by right.
Qed.

End Spec.

(** ** The writes of a transaction *)

(** What a write does to a view. *)
Definition write_view (ns : string) (h : Height) (v : view_t) (w : KVWrite) : view_t :=
  fun ns' k' =>
    if decide (ns = ns' /\ kvw_Key w = k') then
      if kvw_IsDelete w then None else live (mkVV (kvw_Value w) h)
    else v ns' k'.

Definition commit_view (rw : TxRwSet) (h : Height) (v : view_t) : view_t :=
  foldl (fun v s => foldl (write_view (NameSpace s) h) v (Writes (KvRwSet s))) v rw.

Definition view_eq (v1 v2 : view_t) : Prop := forall ns k, v1 ns k = v2 ns k.

#[global] Instance view_eq_equiv : Equivalence view_eq.
Proof.
  split; [done| |].
  - intros v1 v2 H12 ns k. done.
  - intros v1 v2 v3 H12 H23 ns k. by rewrite H12.
Qed.

#[global] Instance write_view_proper ns h : Proper (view_eq ==> (=) ==> view_eq) (write_view ns h).
Proof. intros v1 v2 Hv w ? <- ns' k'. unfold write_view. case_decide; [done|apply Hv]. Qed.

Lemma write_views_proper ns h ws v1 v2 :
  view_eq v1 v2 -> view_eq (foldl (write_view ns h) v1 ws) (foldl (write_view ns h) v2 ws).
Proof.
  revert v1 v2. induction ws as [|w ws IH]; intros v1 v2 Hv; [done|].
  cbn. apply IH. by rewrite Hv.
Qed.

#[global] Instance commit_view_proper rw h : Proper (view_eq ==> view_eq) (commit_view rw h).
Proof.
  induction rw as [|s rw IH]; intros v1 v2 Hv; [done|]. cbn. apply IH. by apply write_views_proper.
Qed.

#[global] Instance overlay_proper b : Proper (view_eq ==> view_eq) (overlay b).
Proof. intros v1 v2 Hv ns k. unfold overlay. destruct (Batch.Get b ns k); [done|apply Hv]. Qed.

(** A write that is not a deletion has a value. *)
Definition write_ok (w : KVWrite) : Prop := kvw_IsDelete w = true \/ is_Some (kvw_Value w).

Lemma add_write_spec ns h b w :
  write_ok w -> exists b', add_write ns h b w = Ok b'.
Proof. unfold add_write, write_ok. intros [->|[v ->]]; [eauto|]. destruct (kvw_IsDelete w); cbn; eauto. Qed.

Lemma add_write_overlay ns h b w b' v :
  add_write ns h b w = Ok b' -> view_eq (overlay b' v) (write_view ns h (overlay b v) w).
Proof.
  unfold add_write, write_view. intros E ns' k'. unfold overlay at 1.
  destruct (kvw_IsDelete w).
  - injection E as <-. rewrite BatchFacts.Get_Delete. by case_decide.
  - destruct (kvw_Value w) as [val|] eqn:Ev; [|done]. rewrite (BatchFacts.Get_Put _ _ _ _ _ _ ns' k' E).
    by case_decide.
Qed.

Lemma add_write_Get ns h b w b' ns' k' :
  add_write ns h b w = Ok b' ->
  (Batch.Get b' ns' k' = Batch.Get b ns' k' /\ ~ (ns = ns' /\ kvw_Key w = k')) \/
  (ns = ns' /\ kvw_Key w = k' /\ exists val, Batch.Get b' ns' k' = Some (mkVV val h)).
Proof.
  unfold add_write. destruct (kvw_IsDelete w).
  - intros [= <-]. rewrite BatchFacts.Get_Delete. case_decide as Hd; [right|by left].
    destruct Hd. eauto.
  - destruct (kvw_Value w) as [val|]; [|done]. intros E.
    rewrite (BatchFacts.Get_Put _ _ _ _ _ _ ns' k' E). case_decide as Hd; [right|by left].
    destruct Hd. eauto.
Qed.

(** A property of batches that each write keeps. *)
Lemma addWriteSetToBatch_ind (P : UpdateBatch -> Prop) rw h b b' :
  (forall s w b b', s ∈ rw -> w ∈ Writes (KvRwSet s) ->
     add_write (NameSpace s) h b w = Ok b' -> P b -> P b') ->
  addWriteSetToBatch rw h b = Ok b' -> P b -> P b'.
Proof.
  unfold addWriteSetToBatch. revert b. induction rw as [|s rw IH]; intros b Hw E Hb.
  { by injection E as <-. }
  cbn in E. destruct (foldM _ b (Writes (KvRwSet s))) as [b1| | |] eqn:E1; try done. cbn in E.
  apply (IH b1); [intros; eapply Hw; eauto; by right|done|].
  assert (forall ws b, (forall w, w ∈ ws -> w ∈ Writes (KvRwSet s)) ->
    foldM (add_write (NameSpace s) h) b ws = Ok b1 -> P b -> P b1) as Hin.
  { clear IH E E1 Hb b. induction ws as [|w ws IHw]; intros b Hsub E Hb; [by injection E as <-|].
    cbn in E. destruct (add_write _ _ b w) as [b2| | |] eqn:E2; try done. cbn in E.
    apply (IHw b2); [intros; apply Hsub; by right|done|].
    eapply (Hw s w b); [left|apply Hsub; left|done|done]. }
  by apply (Hin (Writes (KvRwSet s)) b).
Qed.

Lemma addWriteSetToBatch_overlay rw h b b' v :
  addWriteSetToBatch rw h b = Ok b' -> view_eq (overlay b' v) (commit_view rw h (overlay b v)).
Proof.
  unfold addWriteSetToBatch, commit_view. revert b. induction rw as [|s rw IH]; intros b E.
  { injection E as <-. done. }
  cbn in E |- *. destruct (foldM _ b (Writes (KvRwSet s))) as [b1| | |] eqn:E1; try done. cbn in E.
  rewrite (IH b1 E). apply (commit_view_proper rw h).
  clear IH E. revert b E1. induction (Writes (KvRwSet s)) as [|w ws IHw]; intros b E; [by injection E as <-|].
  cbn in E. destruct (add_write _ _ b w) as [b2| | |] eqn:E2; try done. cbn in E |- *.
  rewrite (IHw b2 E). apply write_views_proper. by apply add_write_overlay.
Qed.

Lemma addWriteSetToBatch_total rw h b :
  (forall s w, s ∈ rw -> w ∈ Writes (KvRwSet s) -> write_ok w) ->
  exists b', addWriteSetToBatch rw h b = Ok b'.
Proof.
  unfold addWriteSetToBatch. revert b. induction rw as [|s rw IH]; intros b Hw; [by eexists|].
  cbn. assert (exists b1, foldM (add_write (NameSpace s) h) b (Writes (KvRwSet s)) = Ok b1) as [b1 ->].
  { assert (forall w, w ∈ Writes (KvRwSet s) -> write_ok w) as Hs by (intros; eapply Hw; [left|done]).
    clear Hw IH. revert b. induction (Writes (KvRwSet s)) as [|w ws IHw]; intros b; [by eexists|].
    cbn. destruct (add_write_spec (NameSpace s) h b w) as [b1 ->]; [apply Hs; left|]. cbn.
    apply IHw. intros. apply Hs. by right. }
  cbn. apply IH. intros. eapply Hw; [by right|done].
Qed.

(** ** The outcome of a block *)

Section Outcome.
Context `{RWSetCodec} `{ProtoCodec}.

(** The read-write set an envelope carries. *)
Definition rwset_of (envBytes : bytes) : res TxRwSet :=
  respPayload ← ProtoUtils.GetActionFromEnvelope envBytes;
  FromProtoBytes (ca_Results respPayload).

(** What happens to one transaction; [cur] says which read-write sets are
    current given the updates so far. *)
Inductive tx_outcome (cur : TxRwSet -> UpdateBatch -> Prop) (number : Z) (i : nat) (env : bytes)
    (f : bytes) (u : UpdateBatch) : bytes -> UpdateBatch -> Prop :=
| to_flagged b :
    f !! i = Some b -> byte_val b <> 0%Z -> tx_outcome cur number i env f u f u
| to_other b t :
    f !! i = Some b -> byte_val b = 0%Z -> envelope_type env = Ok t -> t <> ENDORSER_TRANSACTION ->
    tx_outcome cur number i env f u f u
| to_malformed b c e :
    f !! i = Some b -> byte_val b = 0%Z -> envelope_type env = Ok ENDORSER_TRANSACTION ->
    rwset_of env = Err e ->
    c ∈ [TxValidationCode_NIL_TXACTION; TxValidationCode_INVALID_OTHER_REASON] ->
    tx_outcome cur number i env f u (<[i := uint8 c]> f) u
| to_conflict b c rw :
    f !! i = Some b -> byte_val b = 0%Z -> envelope_type env = Ok ENDORSER_TRANSACTION ->
    rwset_of env = Ok rw -> ~ cur rw u ->
    c ∈ [TxValidationCode_MVCC_READ_CONFLICT; TxValidationCode_PHANTOM_READ_CONFLICT] ->
    tx_outcome cur number i env f u (<[i := uint8 c]> f) u
| to_valid b rw u' :
    f !! i = Some b -> byte_val b = 0%Z -> envelope_type env = Ok ENDORSER_TRANSACTION ->
    rwset_of env = Ok rw -> cur rw u ->
    addWriteSetToBatch rw (NewHeight number (Z.of_nat i)) u = Ok u' ->
    tx_outcome cur number i env f u (<[i := uint8 TxValidationCode_VALID]> f) u'.

Inductive block_outcome (cur : TxRwSet -> UpdateBatch -> Prop) (number : Z)
    : nat -> list bytes -> bytes -> UpdateBatch -> bytes -> UpdateBatch -> Prop :=
| bo_nil i f u : block_outcome cur number i [] f u f u
| bo_cons i env data f u f1 u1 f' u' :
    tx_outcome cur number i env f u f1 u1 ->
    block_outcome cur number (S i) data f1 u1 f' u' ->
    block_outcome cur number i (env :: data) f u f' u'.

(** *** Flags *)

Lemma tx_outcome_flags cur number i env f u f1 u1 :
  tx_outcome cur number i env f u f1 u1 ->
  i < length f /\ length f1 = length f /\ forall k, k <> i -> f1 !! k = f !! k.
Proof.
  destruct 1 as [b E|b t E|b c e E|b c rw E|b rw u' E]; apply lookup_lt_Some in E;
    (split; [done|]); rewrite ?length_insert; (split; [done|]); intros k Hk; try done;
    by rewrite list_lookup_insert_ne.
Qed.

Lemma block_outcome_flags cur number i data f u f' u' :
  block_outcome cur number i data f u f' u' ->
  length f' = length f /\ (data <> [] -> i + length data <= length f) /\
  forall k, k < i \/ i + length data <= k -> f' !! k = f !! k.
Proof.
  induction 1 as [|i env data f u f1 u1 f' u' Ht Hb (IHl & IHd & IHk)]; [done|].
  apply tx_outcome_flags in Ht as (Hi & Hl & Hk). split; [congruence|]. cbn [length] in *. split.
  - intros _. destruct data; cbn in *; [lia|]. rewrite Hl in IHd. specialize (IHd ltac:(done)). lia.
  - intros k Hki. rewrite IHk by lia. apply Hk. lia.
Qed.

(** Each transaction has its own step, at the end of which its flag is final. *)
Lemma block_outcome_step cur number i data f u f' u' k env :
  block_outcome cur number i data f u f' u' -> data !! k = Some env ->
  exists f0 u0 f1 u1,
    block_outcome cur number i (take k data) f u f0 u0 /\
    tx_outcome cur number (i + k) env f0 u0 f1 u1 /\ f1 !! (i + k) = f' !! (i + k) /\
    block_outcome cur number (S (i + k)) (drop (S k) data) f1 u1 f' u'.
Proof.
  intros Hb. revert k. induction Hb as [|i e data f u f1 u1 f' u' Ht Hb IH]; intros k Hk; [done|].
  destruct k as [|k]; cbn in Hk.
  - injection Hk as ->. exists f, u, f1, u1. rewrite Nat.add_0_r. split; [constructor|].
    split; [done|]. split; [|done]. apply block_outcome_flags in Hb as (_ & _ & Hk).
    symmetry. apply Hk. lia.
  - destruct (IH k Hk) as (g0 & v0 & g1 & v1 & H1 & H2 & H3 & H4).
    replace (i + S k) with (S i + k) by lia.
    exists g0, v0, g1, v1. split; [by econstructor|]. auto.
Qed.

End Outcome.

Section Loop.
Context {DB : Type} `{VersionedDB DB} `{Hashing} `{RWSetCodec} `{ProtoCodec}.

Definition cur_of (db : DB) (doMVCC : bool) (rw : TxRwSet) (u : UpdateBatch) : Prop :=
  if doMVCC then validateTx db rw u = Ok TxValidationCode_VALID else True.

Lemma validateTx_codes db rw u c :
  validateTx db rw u = Ok c ->
  c = TxValidationCode_VALID \/
  c ∈ [TxValidationCode_MVCC_READ_CONFLICT; TxValidationCode_PHANTOM_READ_CONFLICT].
Proof.
  induction rw as [|s rw IH]; cbn [validateTx]; [intros [= <-]; by left|].
  destruct (validateReadSet _ _ _ _) as [[]| | |]; cbn; try done; [|intros [= <-]; right; left].
  destruct (validateRangeQueries _ _ _ _) as [[]| | |]; cbn; try done.
  intros [= <-]. right. right. left.
Qed.

Lemma validateEndorserTX_cases db env mvcc u o c :
  validateEndorserTX db env mvcc u = Ok (o, c) ->
  (exists e, rwset_of env = Err e /\ o = None /\
     c ∈ [TxValidationCode_NIL_TXACTION; TxValidationCode_INVALID_OTHER_REASON]) \/
  (exists rw, rwset_of env = Ok rw /\
     ((o = Some rw /\ c = TxValidationCode_VALID /\ cur_of db mvcc rw u) \/
      (o = None /\ ~ cur_of db mvcc rw u /\
       c ∈ [TxValidationCode_MVCC_READ_CONFLICT; TxValidationCode_PHANTOM_READ_CONFLICT]))).
Proof.
  unfold validateEndorserTX, rwset_of.
  destruct (ProtoUtils.GetActionFromEnvelope env) as [a|e| |]; cbn [mbind res_bind]; try done.
  2: { intros [= <- <-]. left. eexists. split; [done|]. split; [done|]. left. }
  destruct (FromProtoBytes (ca_Results a)) as [rw|e| |]; try done.
  2: { intros [= <- <-]. left. eexists. split; [done|]. split; [done|]. right. left. }
  intros E. right. exists rw. split; [done|]. unfold cur_of. destruct mvcc.
  - destruct (validateTx db rw u) as [c'| | |] eqn:Ev; cbn in E; try done.
    destruct (Z.eqb_spec c' TxValidationCode_VALID) as [->|Hne]; injection E as <- <-; [by left|right].
    split; [done|]. split; [congruence|]. by destruct (validateTx_codes _ _ _ _ Ev).
  - injection E as <- <-. by left.
Qed.

Lemma validate_one_outcome db number mvcc i env f u f1 u1 :
  validate_one db number mvcc i env f u = Ok (f1, u1) ->
  tx_outcome (cur_of db mvcc) number i env f u f1 u1.
Proof.
  unfold validate_one. destruct (IsInvalid f i) as [inv| | |] eqn:Ei; cbn [mbind res_bind]; try done.
  apply IsInvalid_inv in Ei as (b & Eb & ->).
  destruct (Z.eqb_spec (byte_val b) 0) as [Hb|Hb]; cbn [negb].
  2: { intros [= <- <-]. by eapply to_flagged. }
  destruct (envelope_type env) as [t| | |] eqn:Et; cbn [mbind res_bind]; try done.
  case_bool_decide as Ht; cbn [negb].
  2: { intros [= <- <-]. by eapply to_other. }
  subst t. destruct (validateEndorserTX db env mvcc u) as [[o c]| | |] eqn:Ev; cbn [mbind res_bind]; try done.
  destruct (SetFlag f i c) as [f2| | |] eqn:Ef; cbn [mbind res_bind]; try done.
  apply SetFlag_inv in Ef as [Hi ->].
  apply validateEndorserTX_cases in Ev as [(e & Er & -> & Hc)|(rw & Er & [(-> & -> & Hcur)|(-> & Hcur & Hc)])].
  - intros [= <- <-]. by eapply to_malformed.
  - destruct (addWriteSetToBatch _ _ u) as [u2| | |] eqn:Ea; cbn [mbind res_bind]; try done.
    destruct (SetFlag _ i _) as [f2| | |] eqn:Ef; cbn [mbind res_bind]; try done.
    apply SetFlag_inv in Ef as [_ ->]. intros [= <- <-]. rewrite list_insert_insert_eq.
    by eapply to_valid.
  - intros [= <- <-]. by eapply to_conflict.
Qed.

Lemma validate_loop_outcome db number mvcc i data f u f' u' :
  validate_loop db number mvcc i data f u = (f', Ok u') ->
  block_outcome (cur_of db mvcc) number i data f u f' u'.
Proof.
  revert i f u. induction data as [|env data IH]; intros i f u; cbn [validate_loop].
  { intros [= <- <-]. constructor. }
  destruct (validate_one _ _ _ _ _ _ _) as [[f1 u1]| | |] eqn:E; try done.
  intros Hl. econstructor; [by apply validate_one_outcome|by apply IH].
Qed.

(** *** Replaying a flagged block *)

Lemma uint8_codes c :
  c ∈ [TxValidationCode_NIL_TXACTION; TxValidationCode_INVALID_OTHER_REASON;
       TxValidationCode_MVCC_READ_CONFLICT; TxValidationCode_PHANTOM_READ_CONFLICT] ->
  byte_val (uint8 c) <> 0%Z.
Proof. intros Hc. repeat (apply elem_of_cons in Hc as [->|Hc]; [by vm_compute|]). by apply elem_of_nil in Hc. Qed.

Lemma replay_one db db' number mvcc i env f u f1 u1 f' :
  tx_outcome (cur_of db mvcc) number i env f u f1 u1 -> f1 !! i = f' !! i ->
  validate_one db' number false i env f' u = Ok (f', u1).
Proof.
  intros Ht Hi. unfold validate_one.
  assert (forall b, f' !! i = Some b -> byte_val b <> 0%Z ->
    validate_one db' number false i env f' u = Ok (f', u)) as Hskip.
  { intros b Eb Hb. unfold validate_one. rewrite (IsInvalid_lookup _ _ _ Eb). cbn.
    by destruct (Z.eqb_spec (byte_val b) 0). }
  destruct Ht as [b E Hb|b t E Hb Et Hne|b c e E Hb Et Er Hc|b c rw E Hb Et Er Hcur Hc|b rw u' E Hb Et Er Hcur Ea].
  - rewrite E in Hi. by apply (Hskip b).
  - rewrite E in Hi. rewrite (IsInvalid_lookup _ _ _ (eq_sym Hi)), Hb. cbn. rewrite Et. cbn.
    by rewrite bool_decide_false.
  - rewrite list_lookup_insert_eq in Hi by (by eapply lookup_lt_Some).
    apply (Hskip (uint8 c)); [done|]. apply uint8_codes. set_solver.
  - rewrite list_lookup_insert_eq in Hi by (by eapply lookup_lt_Some).
    apply (Hskip (uint8 c)); [done|]. apply uint8_codes. set_solver.
  - rewrite list_lookup_insert_eq in Hi by (by eapply lookup_lt_Some). symmetry in Hi.
    rewrite (IsInvalid_lookup _ _ _ Hi). cbn [mbind res_bind]. 
    change (byte_val (uint8 TxValidationCode_VALID)) with 0%Z. cbn [Z.eqb negb]. rewrite Et. cbn [mbind res_bind]. rewrite bool_decide_true by done. cbn [negb].
    assert (validateEndorserTX db' env false u = Ok (Some rw, TxValidationCode_VALID)) as ->.
    { unfold rwset_of in Er. unfold validateEndorserTX.
      destruct (ProtoUtils.GetActionFromEnvelope env); cbn in Er; try done. by rewrite Er. }
    cbn [mbind res_bind].
    assert (SetFlag f' i TxValidationCode_VALID = Ok f') as Hs.
    { unfold SetFlag. rewrite (proj2 (Nat.ltb_lt _ _)) by (by eapply lookup_lt_Some).
      by rewrite list_insert_id. }
    rewrite Hs. cbn [mbind res_bind]. rewrite Ea. cbn [mbind res_bind]. by rewrite Hs.
Qed.

Lemma replay_loop db db' number mvcc i data f u f' u' :
  block_outcome (cur_of db mvcc) number i data f u f' u' ->
  validate_loop db' number false i data f' u = (f', Ok u').
Proof.
  induction 1 as [|i env data f u f1 u1 f' u' Ht Hb IH]; [done|].
  cbn [validate_loop]. rewrite (replay_one _ _ _ _ _ _ _ _ _ _ f' Ht); [done|].
  apply block_outcome_flags in Hb as (_ & _ & Hk). symmetry. apply Hk. lia.
Qed.

(** Every successful run is the outcome of the loop from some flags. *)
Lemma ValidateAndPrepareBatch_outcome db block mvcc block' u :
  ValidateAndPrepareBatch db block mvcc = (block', Ok u) ->
  exists f f', block' = set_filter block f' /\ is_Some (blk_Metadata block !! TRANSACTIONS_FILTER) /\
    block_outcome (cur_of db mvcc) (Number (blk_Header block)) 0 (blk_Data block) f NewUpdateBatch f' u.
Proof.
  unfold ValidateAndPrepareBatch.
  destruct (blk_Metadata block !! TRANSACTIONS_FILTER) as [f0|]; [|done].
  destruct (validate_loop _ _ _ _ _ _ _) as [f' r] eqn:E. intros [= <- ->].
  eexists _, f'. split; [done|]. split; [done|]. by apply validate_loop_outcome.
Qed.

(** *** Writes stay in the batch *)

Lemma addWriteSetToBatch_keeps rw h u u' ns k :
  addWriteSetToBatch rw h u = Ok u' -> is_Some (Batch.Get u ns k) -> is_Some (Batch.Get u' ns k).
Proof.
  intros E. apply (addWriteSetToBatch_ind (fun b => is_Some (Batch.Get b ns k)) rw h u u'); [|done].
  intros s w b b' _ _ Ea Hb.
  destruct (add_write_Get _ _ _ _ _ ns k Ea) as [[-> _]|(_ & _ & val & ->)]; [done|eauto].
Qed.

Lemma addWriteSetToBatch_writes rw h u u' s w :
  addWriteSetToBatch rw h u = Ok u' -> s ∈ rw -> w ∈ Writes (KvRwSet s) ->
  is_Some (Batch.Get u' (NameSpace s) (kvw_Key w)).
Proof.
  unfold addWriteSetToBatch. intros E Hs Hw. apply list_elem_of_split in Hs as (rw1 & rw2 & ->).
  rewrite foldM_app in E. destruct (foldM _ u rw1) as [u1| | |] eqn:E1; try done. cbn in E.
  apply list_elem_of_split in Hw as (w1 & w2 & Hw). rewrite Hw, foldM_app in E.
  destruct (foldM _ u1 w1) as [u2| | |] eqn:E2; try done. cbn in E.
  destruct (add_write (NameSpace s) h u2 w) as [u3| | |] eqn:E3; try done. cbn in E.
  assert (is_Some (Batch.Get u3 (NameSpace s) (kvw_Key w))) as H3.
  { destruct (add_write_Get _ _ _ _ _ (NameSpace s) (kvw_Key w) E3) as [[_ Hn]|(_ & _ & val & ->)];
      [by destruct Hn|eauto]. }
  destruct (foldM _ u3 w2) as [u4| | |] eqn:E4; try done. cbn in E.
  eapply addWriteSetToBatch_keeps; [exact E|].
  eapply (addWriteSetToBatch_keeps [mkNsRwSet (NameSpace s) (mkKVRWSet [] [] w2)] h u3); [|done].
  unfold addWriteSetToBatch. cbn. by rewrite E4.
Qed.

Lemma tx_outcome_keeps cur number i env f u f1 u1 ns k :
  tx_outcome cur number i env f u f1 u1 -> is_Some (Batch.Get u ns k) -> is_Some (Batch.Get u1 ns k).
Proof.
  destruct 1 as [| | | |b rw u' _ _ _ _ _ Ea]; try done. by eapply addWriteSetToBatch_keeps.
Qed.

Lemma block_outcome_keeps cur number i data f u f1 u1 ns k :
  block_outcome cur number i data f u f1 u1 ->
  is_Some (Batch.Get u ns k) -> is_Some (Batch.Get u1 ns k).
Proof. induction 1; [done|]. intros Hk. eauto using tx_outcome_keeps. Qed.

(** The step of a transaction that ends up flagged valid. *)
Lemma valid_outcome cur number i env f u f1 u1 b rw :
  tx_outcome cur number i env f u f1 u1 -> f1 !! i = Some b -> byte_val b = 0%Z ->
  envelope_type env = Ok ENDORSER_TRANSACTION -> rwset_of env = Ok rw ->
  cur rw u /\ addWriteSetToBatch rw (NewHeight number (Z.of_nat i)) u = Ok u1.
Proof.
  intros Ht Eb Hb Et Er.
  destruct Ht as [b' E Hb'|b' t E Hb' Et' Hne|b' c e E _ _ Er' Hc|b' c rw' E _ _ Er' Hcur Hc|b' rw' u' E _ _ Er' Hcur Ea].
  - congruence.
  - congruence.
  - rewrite Er in Er'. done.
  - rewrite list_lookup_insert_eq in Eb by (by eapply lookup_lt_Some). injection Eb as <-.
    exfalso. revert Hb. apply uint8_codes. set_solver.
  - rewrite Er in Er'. by injection Er' as <-.
Qed.

Lemma validateReadSet_exists db ns rs u r :
  validateReadSet db ns rs u = Ok true -> r ∈ rs -> Exists u ns (kvr_Key r) = false.
Proof.
  induction rs as [|r' rs IH]; intros Hv Hr; [by apply elem_of_nil in Hr|].
  cbn in Hv. destruct (validateKVRead db ns r' u) as [[]| | |] eqn:E; try done. cbn in Hv.
  apply elem_of_cons in Hr as [->|Hr]; [|by apply IH].
  unfold validateKVRead in E. by destruct (Exists u ns (kvr_Key r')).
Qed.

Lemma validateTx_exists db rw u s r :
  validateTx db rw u = Ok TxValidationCode_VALID -> s ∈ rw -> r ∈ Reads (KvRwSet s) ->
  Exists u (NameSpace s) (kvr_Key r) = false.
Proof.
  induction rw as [|s' rw IH]; intros Hv Hs Hr; [by apply elem_of_nil in Hs|].
  cbn in Hv. destruct (validateReadSet db _ _ u) as [[]| | |] eqn:E; try done. cbn in Hv.
  destruct (validateRangeQueries db _ _ u) as [[]| | |]; try done. cbn in Hv.
  apply elem_of_cons in Hs as [->|Hs]; [by eapply validateReadSet_exists|by apply IH].
Qed.

Lemma set_filter_lookup block f :
  is_Some (blk_Metadata block !! TRANSACTIONS_FILTER) ->
  blk_Metadata (set_filter block f) !! TRANSACTIONS_FILTER = Some f.
Proof. intros [x E]. cbn. apply list_lookup_insert_eq. by eapply lookup_lt_Some. Qed.

Lemma replay_batch db db' block mvcc block' u :
  ValidateAndPrepareBatch db block mvcc = (block', Ok u) ->
  ValidateAndPrepareBatch db' block' false = (block', Ok u).
Proof.
  intros E. apply ValidateAndPrepareBatch_outcome in E as (f & f' & -> & Hmd & Hb).
  unfold ValidateAndPrepareBatch. rewrite set_filter_lookup by done.
  assert ((if length f' =? 0 then NewTxValidationFlags (length (blk_Data (set_filter block f'))) else f') = f') as ->.
  { destruct (Nat.eqb_spec (length f') 0) as [Hl|]; [|done]. cbn.
    apply block_outcome_flags in Hb as (Hlen & Hd & _).
    destruct (blk_Data block) as [|e data]; [by destruct f'|].
    exfalso. assert (0 + length (e :: data) <= length f) by (by apply Hd). cbn in *. lia. }
  cbn. rewrite (replay_loop _ db' _ _ _ _ _ _ _ _ Hb). unfold set_filter. cbn.
  by rewrite list_insert_insert_eq.
Qed.

End Loop.

End Validator.

(** ** Theorems *)

Module ValidatorTheorems.
Import Flags Merkle Combined RangeValidator Validator.

(** C13: Validation of a transaction against the committed state and the updates
    of the block so far.  On a well-formed read-write set it returns, and the
    code is [VALID] just if no key it read has been updated in the block, each
    has the recorded version in the state, and each range query has, over the
    state with the updates, the recorded results; otherwise the code is one of
    the two conflicts. *)
Theorem tx_validated {DB : Type} `{VersionedDBSpec DB} `{HashingSpec} (db : DB) rw updates :
  db_ok db -> rwset_wf rw ->
  exists c, validateTx db rw updates = Ok c /\
    (c = TxValidationCode_VALID <->
     forall s, s ∈ rw ->
       (forall r, r ∈ Reads (KvRwSet s) ->
          Batch.Get updates (NameSpace s) (kvr_Key r) = None /\
          Version <$> view db (NameSpace s) (kvr_Key r) = NewVersion (kvr_Version r)) /\
       (forall q, q ∈ RangeQueriesInfo (KvRwSet s) ->
          exists l, is_result (overlay updates (view db)) (NameSpace s) q l /\ records q l)) /\
    (c <> TxValidationCode_VALID ->
     c = TxValidationCode_MVCC_READ_CONFLICT \/ c = TxValidationCode_PHANTOM_READ_CONFLICT).
Proof.
  intros Hdb Hwf. destruct (validateTx_spec db rw updates Hdb Hwf) as (c & E & Hc & Hin).
  exists c. split; [done|]. split; [done|]. set_solver.
Qed.

Definition w_rw : TxRwSet :=
  [mkNsRwSet "cc" (mkKVRWSet
     [mkKVRead "a" (Some (mkProtoVersion 1 0))]
     [mkRQI "c" "z" true (RawReads [mkKVRead "c" (Some (mkProtoVersion 2 1)); mkKVRead "d" (Some (mkProtoVersion 1 2))])]
     [mkKVWrite "a" false (Some (to_bytes "5"))])].

Lemma tx_validated_witness :
  exists c, validateTx RangeQueryTheorems.w_db w_rw RangeQueryTheorems.w_updates = Ok c /\
    (c <> TxValidationCode_VALID ->
     c = TxValidationCode_MVCC_READ_CONFLICT \/ c = TxValidationCode_PHANTOM_READ_CONFLICT) /\ c = 0%Z.
Proof.
  destruct (tx_validated RangeQueryTheorems.w_db w_rw RangeQueryTheorems.w_updates) as (c & E & _ & Hc).
  { apply demo_db_ok. by vm_compute. }
  { intros s ->%list_elem_of_singleton. split; [apply (bool_decide_unpack _); by vm_compute|].
    intros q ->%list_elem_of_singleton. cbn. repeat constructor; eauto. }
  exists c. split; [done|]. split; [done|].
  assert (validateTx RangeQueryTheorems.w_db w_rw RangeQueryTheorems.w_updates = Ok 0%Z) as E0
    by (by vm_compute).
  congruence.
Defined.

(** The [i]-th transaction of a block is flagged valid and has the read-write
    set [rw]. *)
Definition valid_tx `{RWSetCodec} `{ProtoCodec} (block : Block) (i : nat) (rw : TxRwSet) : Prop :=
  exists env flags b, blk_Data block !! i = Some env /\
    envelope_type env = Ok ENDORSER_TRANSACTION /\ rwset_of env = Ok rw /\
    blk_Metadata block !! TRANSACTIONS_FILTER = Some flags /\ flags !! i = Some b /\
    byte_val b = TxValidationCode_VALID.

(** In a validated block no valid transaction has read a key that a valid
    transaction before it in the block writes. *)
Theorem no_read_of_earlier_write {DB : Type} `{VersionedDB DB} `{Hashing} `{RWSetCodec} `{ProtoCodec}
    (db : DB) block block' u i j rwi rwj si w sj r :
  ValidateAndPrepareBatch db block true = (block', Ok u) ->
  i < j -> valid_tx block' i rwi -> valid_tx block' j rwj ->
  si ∈ rwi -> w ∈ Writes (KvRwSet si) -> sj ∈ rwj -> r ∈ Reads (KvRwSet sj) ->
  NameSpace si = NameSpace sj -> kvw_Key w <> kvr_Key r.
Proof.
  intros E Hij (ei & flags & bi & Ei & Ti & Ri & Ef & Fi & Bi) (ej & flags' & bj & Ej & Tj & Rj & Ef' & Fj & Bj)
    Hsi Hw Hsj Hr Hns Hk.
  rewrite Ef in Ef'. injection Ef' as <-.
  apply ValidateAndPrepareBatch_outcome in E as (f & f' & -> & Hmd & Hb).
  rewrite set_filter_lookup in Ef by done. injection Ef as ->.
  destruct (block_outcome_step _ _ _ _ _ _ _ _ j ej Hb Ej) as (f0 & u0 & f1 & u1 & Hpre & Htj & Hfj & Hpost).
  cbn [Nat.add] in *. rewrite Fj in Hfj.
  destruct (valid_outcome _ _ _ _ _ _ _ _ _ _ Htj Hfj Bj Tj Rj) as [Hcur _].
  pose proof (validateTx_exists _ _ _ _ _ Hcur Hsj Hr) as Hex.
  apply BatchFacts.Exists_false in Hex.
  assert (take j (blk_Data block) !! i = Some ei) as Ei' by (by rewrite lookup_take_lt).
  destruct (block_outcome_step _ _ _ _ _ _ _ _ i ei Hpre Ei') as (g0 & w0 & g1 & w1 & _ & Hti & Hfi & Hmid).
  cbn [Nat.add] in *.
  assert (f0 !! i = flags !! i) as Hf0.
  { apply tx_outcome_flags in Htj as (_ & _ & Hk0). apply block_outcome_flags in Hpost as (_ & _ & Hk1).
    rewrite Hk1 by lia. symmetry. apply Hk0. lia. }
  rewrite Hf0, Fi in Hfi. destruct (valid_outcome _ _ _ _ _ _ _ _ _ _ Hti Hfi Bi Ti Ri) as [_ Ha].
  pose proof (addWriteSetToBatch_writes _ _ _ _ _ _ Ha Hsi Hw) as Hg.
  eapply (block_outcome_keeps _ _ _ _ _ _ _ _ _ _ Hmid) in Hg.
  rewrite Hns, Hk, Hex in Hg. by destruct Hg.
Qed.

(** A block of two transactions that write, one after the other, what the other
    does not read. *)
Definition w_write (k : string) (reads : list KVRead) : TxRwSet :=
  [mkNsRwSet "cc" (mkKVRWSet reads [] [mkKVWrite k false (Some (to_bytes "x"))])].

Definition w_block : Block :=
  mkBlock (mkBlockHeader 2 [] [])
    [rwset_tx "t0" (w_write "b" []); rwset_tx "t1" (w_write "c" [mkKVRead "a" (Some (mkProtoVersion 1 0))]);
     rwset_tx "t2" (w_write "e" [mkKVRead "b" (Some (mkProtoVersion 1 1))])]
    [[]; []; []].

Definition w_flagged : Block := fst (ValidateAndPrepareBatch RangeQueryTheorems.w_db w_block true).

Lemma w_flagged_ok :
  exists u, ValidateAndPrepareBatch RangeQueryTheorems.w_db w_block true = (w_flagged, Ok u).
Proof. apply ok_pair. by vm_compute. Qed.

Lemma valid_tx_intro {DB : Type} `{VersionedDB DB} `{Hashing} `{RWSetCodec} `{ProtoCodec}
    (db : DB) block block' u i env rw b :
  ValidateAndPrepareBatch db block true = (block', Ok u) -> blk_Data block !! i = Some env ->
  envelope_type env = Ok ENDORSER_TRANSACTION -> rwset_of env = Ok rw ->
  (blk_Metadata block' !! TRANSACTIONS_FILTER ≫= fun f => f !! i) = Some b ->
  byte_val b = TxValidationCode_VALID -> valid_tx block' i rw.
Proof.
  intros E Ed Et Er Ef Hb.
  destruct (blk_Metadata block' !! TRANSACTIONS_FILTER) as [flags|] eqn:Em; [|done].
  apply ValidateAndPrepareBatch_outcome in E as (f & f' & -> & _).
  exists env, flags, b. do 4 (split; [done|]). by split.
Qed.

Lemma no_read_of_earlier_write_witness :
  exists u, ValidateAndPrepareBatch RangeQueryTheorems.w_db w_block true = (w_flagged, Ok u) /\
    blk_Metadata w_flagged !! TRANSACTIONS_FILTER = Some [uint8 0; uint8 0; uint8 11] /\ "b"%string <> "a"%string.
Proof.
  destruct w_flagged_ok as [u E].
  exists u. split; [exact E|]. split; [by vm_compute|].
  apply (no_read_of_earlier_write RangeQueryTheorems.w_db w_block w_flagged u 0 1
    (w_write "b" []) (w_write "c" [mkKVRead "a" (Some (mkProtoVersion 1 0))])
    (mkNsRwSet "cc" (mkKVRWSet [] [] [mkKVWrite "b" false (Some (to_bytes "x"))]))
    (mkKVWrite "b" false (Some (to_bytes "x")))
    (mkNsRwSet "cc" (mkKVRWSet [mkKVRead "a" (Some (mkProtoVersion 1 0))] [] [mkKVWrite "c" false (Some (to_bytes "x"))]))
    (mkKVRead "a" (Some (mkProtoVersion 1 0))) E); [lia| | |left..|reflexivity].
  - eapply (valid_tx_intro _ _ _ _ _ _ _ (uint8 0) E); [reflexivity|by vm_compute..].
  - eapply (valid_tx_intro _ _ _ _ _ _ _ (uint8 0) E); [reflexivity|by vm_compute..].
Defined.

(** Recovery replays a block faithfully.  A block that was validated, with
    or without the concurrency checks, carries its flags; validating it again
    without the checks, against any state, leaves the flags as they are and
    gives the same update batch. *)
Theorem flagged_block_replays {DB : Type} `{VersionedDB DB} `{Hashing} `{RWSetCodec} `{ProtoCodec}
    (db db' : DB) block mvcc block' u :
  ValidateAndPrepareBatch db block mvcc = (block', Ok u) ->
  ValidateAndPrepareBatch db' block' false = (block', Ok u).
Proof. apply replay_batch. Qed.

Lemma flagged_block_replays_witness :
  exists u, ValidateAndPrepareBatch empty_db w_flagged false = (w_flagged, Ok u).
Proof.
  destruct w_flagged_ok as [u E]. exists u.
  exact (flagged_block_replays RangeQueryTheorems.w_db empty_db w_block true w_flagged u E).
Defined.

(** A write of an empty value is not a deletion when it is recorded, but
    the value is nil once the read-write set has been serialized, and adding
    the write to the batch panics: committing the transaction does. *)
Theorem empty_value_write_panics `{RWSetCodecSpec} (ns key : string) (h : Height) (batch : UpdateBatch) :
  exists b rw, ToProtoBytes (Builder.GetTxReadWriteSet
      (Builder.AddToWriteSet Builder.NewRWSetBuilder ns key (Some []))) = Ok b /\
    FromProtoBytes b = Ok rw /\
    addWriteSetToBatch rw h batch = Panic "Nil value not allowed".
Proof.
  set (rw0 := Builder.GetTxReadWriteSet _).
  assert (rw0 = [mkNsRwSet ns (mkKVRWSet [] [] [mkKVWrite key false (Some [])])]) as ->.
  { unfold rw0, Builder.GetTxReadWriteSet, Builder.AddToWriteSet, Builder.NewRWSetBuilder,
      Builder.getOrCreateNsRW. rewrite lookup_empty, insert_empty, GetSortedKeys_singleton. cbn.
    rewrite lookup_singleton_eq. cbn. rewrite insert_empty, GetSortedKeys_singleton, GetSortedKeys_empty.
    unfold Builder.get_all. cbn. by rewrite lookup_singleton_eq. }
  destruct (ToProtoBytes_spec [mkNsRwSet ns (mkKVRWSet [] [] [mkKVWrite key false (Some [])])])
    as (b & Eb & Ef). exists b. eexists. by split; [|split; [exact Ef|]].
Qed.

Lemma empty_value_write_panics_witness :
  exists b rw, ToProtoBytes (Builder.GetTxReadWriteSet
      (Builder.AddToWriteSet Builder.NewRWSetBuilder "cc" "k" (Some []))) = Ok b /\
    FromProtoBytes b = Ok rw /\
    addWriteSetToBatch rw (NewHeight 1 0) NewUpdateBatch = Panic "Nil value not allowed".
Proof. apply (empty_value_write_panics "cc" "k" (NewHeight 1 0) NewUpdateBatch). Defined.

(** A range query recorded with a Merkle degree below 2 makes validation
    panic, whatever the state: the error of the validator's initialization is
    dropped and its helper is nil. *)
Theorem bad_degree_panics {DB : Type} `{VersionedDBSpec DB} `{Hashing} (db : DB) ns s e ex inMerkle updates :
  db_ok db -> ns_ok ns -> MaxDegree inMerkle < 2 ->
  exists m, validateRangeQuery db ns (mkRQI s e ex (ReadsMerkleHashes inMerkle)) updates = Panic m.
Proof.
  intros Hdb Hns Hd. unfold validateRangeQuery. cbn [StartKey EndKey ItrExhausted].
  destruct (combined_result db updates ns (mkRQI s e ex NoReads) Hdb Hns) as (i & E & Hok & _).
  cbn in E. rewrite E. cbn [mbind res_bind]. unfold GetReadsMerkleHashes. cbn [rqi_ReadsInfo].
  unfold hash_init, NewRangeQueryResultsHelper, newMerkleTree. rewrite (proj2 (Nat.ltb_lt _ _) Hd).
  cbn [mbind res_bind hash_validate]. destruct (Next_spec i Hok) as (i' & -> & _). cbn. eauto.
Qed.

Lemma bad_degree_panics_witness :
  exists m, validateRangeQuery empty_db "cc" (mkRQI "a" "b" true (ReadsMerkleHashes (mkSummary 1 1 [])))
    (∅ : UpdateBatch) = Panic m.
Proof.
  apply bad_degree_panics; [apply empty_db_ok|apply (bool_decide_unpack _); by vm_compute|cbn; lia].
Defined.

End ValidatorTheorems.
