(* ===== verification/TxMgr.v ===== *)
(** * Simulation and commit

    core/ledger/kvledger/txmgmt/txmgr/lockbasedtxmgr: the query helper and the
    transaction simulator, which run a chaincode against the committed state
    and record what it read and wrote (helper.go, lockbased_tx_simulator.go,
    lockbased_query_executer.go), and the manager that validates and commits
    blocks under a read-write lock (lockbased_txmgr.go). *)

From stdpp Require Import base gmap strings list sorting.
From Stdlib Require Import Ascii ZArith Lia.
From S2P Require Import Prelude Version StateDB RWSet Merkle Proto Instances RangeQuery Validator.
Import Batch RWSetUtil Merkle Builder.

(** core/ledger/ledgerconfig/ledger_config.go *)
Definition IsQueryReadsHashingEnabled : bool := true.
Definition GetMaxDegreeQueryReadsHashing : nat := 50.

(** [queryresult.KV] *)
Record KV := mkKV { kv_Namespace : string; kv_Key : string; kv_Value : option bytes }.

#[global] Instance KV_eq_dec : EqDecision KV.
Proof. solve_decision. Defined.

Module QueryHelper.
Section QueryHelper.
Context {DB : Type} `{VersionedDB DB} `{Hashing} `{RWSetCodec}.

(** The last two fields are nil outside a simulation. *)
Record resultsItr := mkResultsItr {
  ri_ns : string;
  ri_endKey : string;
  ri_dbItr : DBItr;
  ri_rangeQueryInfo : option RangeQueryInfo;
  ri_rangeQueryResultsHelper : option RangeQueryResultsHelper
}.

(** [rwsetBuilder] is nil for a query executor.  The iterators are shared with
    the caller, which names one by its index in [itrs].  The database does
    not change during a simulation (the read lock), and is an argument. *)
Record queryHelper := mkQueryHelper {
  rwsetBuilder : option RWSetBuilder;
  itrs : list resultsItr;
  qh_err : option string;
  doneInvoked : bool
}.

Definition set_builder (h : queryHelper) (b : option RWSetBuilder) : queryHelper :=
  mkQueryHelper b (itrs h) (qh_err h) (doneInvoked h).
Definition set_itrs (h : queryHelper) (l : list resultsItr) : queryHelper :=
  mkQueryHelper (rwsetBuilder h) l (qh_err h) (doneInvoked h).

Definition decomposeVersionedValue (versionedValue : option VersionedValue)
    : option bytes * option Height :=
  match versionedValue with
  | Some vv => (Value vv, Some (Version vv))
  | None => (None, None)
  end.

Definition checkDone : ST queryHelper unit :=
  h ← st_get;
  if doneInvoked h then st_lift (Panic "This instance should not be used after calling Done()")
  else mret tt.

(** [if h.rwsetBuilder != nil { h.rwsetBuilder.AddToReadSet(ns, key, ver) }] *)
Definition add_read (ns key : string) (ver : option Height) : ST queryHelper unit :=
  st_modify (fun h => set_builder h ((fun b => AddToReadSet b ns key ver) <$> rwsetBuilder h)).

Definition getState (db : DB) (ns key : string) : ST queryHelper (option bytes) :=
  _ ← checkDone;
  versionedValue ← st_lift (GetState db ns key);
  let '(val, ver) := decomposeVersionedValue versionedValue in
  _ ← add_read ns key ver;
  mret val.

(** The loop; [keys[i]] panics if there are fewer keys than values. *)
Fixpoint multiple_loop (namespace : string) (versionedValues : list (option VersionedValue))
    (keys : list string) : ST queryHelper (list (option bytes)) :=
  match versionedValues with
  | [] => mret []
  | versionedValue :: vvs =>
      let '(val, ver) := decomposeVersionedValue versionedValue in
      match keys with
      | [] => st_lift (Panic "index out of range")
      | key :: keys =>
          _ ← add_read namespace key ver;
          values ← multiple_loop namespace vvs keys;
          mret (val :: values)
      end
  end.

(** An error of the database is dropped: the result is [nil, nil]. *)
Definition getStateMultipleKeys (db : DB) (namespace : string) (keys : list string)
    : ST queryHelper (list (option bytes)) :=
  _ ← checkDone;
  match GetStateMultipleKeys db namespace keys with
  | Ok versionedValues => multiple_loop namespace versionedValues keys
  | Err _ => mret []
  | Panic p => st_lift (Panic p)
  | OutOfFuel => st_lift OutOfFuel
  end.

Definition newResultsItr (ns startKey endKey : string) (db : DB) (simulation : bool)
    (enableHashing : bool) (maxDegree : nat) : res resultsItr :=
  dbItr ← GetStateRangeScanIterator db ns startKey endKey;
  if simulation then
    resultsHelper ← NewRangeQueryResultsHelper enableHashing maxDegree;
    Ok (mkResultsItr ns endKey dbItr (Some (mkRQI startKey "" false NoReads)) (Some resultsHelper))
  else Ok (mkResultsItr ns "" dbItr None None).

Definition getStateRangeScanIterator (db : DB) (namespace startKey endKey : string)
    : ST queryHelper nat :=
  _ ← checkDone;
  h ← st_get;
  itr ← st_lift (newResultsItr namespace startKey endKey db
                   (match rwsetBuilder h with Some _ => true | None => false end)
                   IsQueryReadsHashingEnabled GetMaxDegreeQueryReadsHashing);
  _ ← st_modify (fun h => set_itrs h (itrs h ++ [itr]));
  mret (length (itrs h)).

(** The error of [AddResult] is dropped. *)
Definition updateRangeQueryInfo (itr : resultsItr) (queryResult : option VersionedKV) : res resultsItr :=
  match ri_rangeQueryInfo itr, ri_rangeQueryResultsHelper itr with
  | Some info, Some helper =>
      match queryResult with
      | None =>
          Ok (mkResultsItr (ri_ns itr) (ri_endKey itr) (ri_dbItr itr)
                (Some (mkRQI (StartKey info) (ri_endKey itr) true (rqi_ReadsInfo info))) (Some helper))
      | Some versionedKV =>
          let '(helper, r) :=
            AddResult helper (NewKVRead (Key versionedKV) (Some (Version (VV versionedKV)))) in
          match r with
          | Ok _ | Err _ =>
              Ok (mkResultsItr (ri_ns itr) (ri_endKey itr) (ri_dbItr itr)
                    (Some (mkRQI (StartKey info) (Key versionedKV) (ItrExhausted info) (rqi_ReadsInfo info)))
                    (Some helper))
          | Panic p => Panic p
          | OutOfFuel => OutOfFuel
          end
      end
  | _, _ => Ok itr
  end.

(** [resultsItr.Next] on the iterator the caller got as the [i]-th. *)
Definition resultsItr_Next (i : nat) : ST queryHelper (option KV) :=
  h ← st_get;
  match itrs h !! i with
  | None => st_lift (Panic "nil pointer dereference")
  | Some itr =>
      '(queryResult, dbItr) ← st_lift (Next (ri_dbItr itr));
      itr ← st_lift (updateRangeQueryInfo
                       (mkResultsItr (ri_ns itr) (ri_endKey itr) dbItr
                          (ri_rangeQueryInfo itr) (ri_rangeQueryResultsHelper itr)) queryResult);
      _ ← st_modify (fun h => set_itrs h (<[i := itr]> (itrs h)));
      mret (match queryResult with
            | None => None
            | Some versionedKV =>
                Some (mkKV (Namespace versionedKV) (Key versionedKV) (Value (VV versionedKV)))
            end)
  end.

Definition executeQuery (db : DB) (namespace query : string) : res DBItr :=
  ExecuteQuery db namespace query.

(** [queryResultsItr.Next]: every record is a read. *)
Definition queryResultsItr_Next (itr : DBItr) : ST queryHelper (option KV * DBItr) :=
  '(queryResult, itr) ← st_lift (Next itr);
  match queryResult with
  | None => mret (None, itr)
  | Some r =>
      _ ← add_read (Namespace r) (Key r) (Some (Version (VV r)));
      mret (Some (mkKV (Namespace r) (Key r) (Value (VV r))), itr)
  end.

(** The loop of [done].  It stops at the first error, which is kept. *)
Fixpoint done_itrs (l : list resultsItr) (b : RWSetBuilder) : RWSetBuilder * res unit :=
  match l with
  | [] => (b, Ok tt)
  | itr :: l' =>
      match ri_rangeQueryInfo itr, ri_rangeQueryResultsHelper itr with
      | Some info, Some helper =>
          match snd (Done helper) with
          | Ok (results, hash) =>
              let info := match results with [] => info | _ => SetRawReads info results end in
              let info := match hash with Some s => SetMerkelSummary info s | None => info end in
              done_itrs l' (AddToRangeQuerySet b (ri_ns itr) info)
          | Err e => (b, Err e)
          | Panic p => (b, Panic p)
          | OutOfFuel => (b, OutOfFuel)
          end
      | _, _ => (b, Panic "nil pointer dereference")
      end
  end.

Definition done : ST queryHelper unit := fun h =>
  if doneInvoked h then (h, Ok tt)
  else
    match rwsetBuilder h with
    | None => (mkQueryHelper None (itrs h) (qh_err h) true, Ok tt)
    | Some b =>
        let '(b, r) := done_itrs (itrs h) b in
        let h' err := mkQueryHelper (Some b) (itrs h) err true in
        match r with
        | Ok _ => (h' (qh_err h), Ok tt)
        | Err e => (h' (Some e), Ok tt)
        | Panic p => (h' (qh_err h), Panic p)
        | OutOfFuel => (h' (qh_err h), OutOfFuel)
        end
    end.

(** ** The simulator: lockbased_tx_simulator.go *)

Definition newQueryExecutor : queryHelper := mkQueryHelper None [] None false.

Definition newLockBasedTxSimulator : queryHelper :=
  mkQueryHelper (Some NewRWSetBuilder) [] None false.

Definition SetState (db : DB) (ns key : string) (value : option bytes) : ST queryHelper unit :=
  _ ← checkDone;
  _ ← st_lift (ValidateKey db key);
  st_modify (fun h => set_builder h ((fun b => AddToWriteSet b ns key value) <$> rwsetBuilder h)).

Definition DeleteState (db : DB) (ns key : string) : ST queryHelper unit := SetState db ns key None.

(** The order in which Go takes the entries of the map is unspecified. *)
Fixpoint SetStateMultipleKeys (db : DB) (namespace : string) (kvs : list (string * option bytes))
    : ST queryHelper unit :=
  match kvs with
  | [] => mret tt
  | (k, v) :: kvs =>
      _ ← SetState db namespace k v;
      SetStateMultipleKeys db namespace kvs
  end.

Definition GetTxSimulationResults : ST queryHelper bytes :=
  _ ← done;
  h ← st_get;
  match qh_err h with
  | Some e => st_lift (Err e)
  | None =>
      st_lift (match rwsetBuilder h with
               | Some b => ToProtoBytes (GetTxReadWriteSet b)
               | None => Panic "nil pointer dereference"
               end)
  end.

End QueryHelper.
Arguments resultsItr DB {_}.
Arguments queryHelper DB {_}.
End QueryHelper.

(** ** The manager: lockbased_txmgr.go *)

Module TxMgr.
Import Validator.
Section TxMgr.
Context {DB : Type} `{VersionedDB DB} `{Hashing} `{RWSetCodec} `{ProtoCodec}.

(** nil is [None]; [commitRWLock] is below. *)
Record LockBasedTxMgr := mkTxMgr {
  db : DB;
  batch : option UpdateBatch;
  currentBlock : option Block
}.

Definition NewLockBasedTxMgr (db : DB) : LockBasedTxMgr := mkTxMgr db None None.

Definition GetLastSavepoint (txmgr : LockBasedTxMgr) : res (option Height) :=
  GetLatestSavePoint (db txmgr).

(** The manager, the block with its flags, and the error. *)
Definition ValidateAndPrepare (txmgr : LockBasedTxMgr) (block : Block) (doMVCCValidation : bool)
    : LockBasedTxMgr * Block * res unit :=
  let '(block, r) := ValidateAndPrepareBatch (db txmgr) block doMVCCValidation in
  match r with
  | Ok batch => (mkTxMgr (db txmgr) (Some batch) (Some block), block, Ok tt)
  | Err e => (txmgr, block, Err e)
  | Panic p => (txmgr, block, Panic p)
  | OutOfFuel => (txmgr, block, OutOfFuel)
  end.

(** [uint64(len(data) - 1)] *)
Definition last_tx_num (block : Block) : Z := wrap64 (Z.of_nat (length (blk_Data block)) - 1).

Definition Commit : ST LockBasedTxMgr unit := fun txmgr =>
  match batch txmgr with
  | None => (txmgr, Panic "validateAndPrepare() method should have been called before calling commit()")
  | Some b =>
      match currentBlock txmgr with
      | None => (mkTxMgr (db txmgr) None None, Panic "nil pointer dereference")
      | Some blk =>
          match ApplyUpdates (db txmgr) b (NewHeight (Number (blk_Header blk)) (last_tx_num blk)) with
          | Ok db' => (mkTxMgr db' None (currentBlock txmgr), Ok tt)
          | Err e => (mkTxMgr (db txmgr) None (currentBlock txmgr), Err e)
          | Panic p => (mkTxMgr (db txmgr) None (currentBlock txmgr), Panic p)
          | OutOfFuel => (mkTxMgr (db txmgr) None (currentBlock txmgr), OutOfFuel)
          end
      end
  end.

Definition Rollback (txmgr : LockBasedTxMgr) : LockBasedTxMgr :=
  mkTxMgr (db txmgr) None (currentBlock txmgr).

Definition ShouldRecover (txmgr : LockBasedTxMgr) (lastAvailableBlock : Z) : res (bool * Z) :=
  savepoint ← GetLastSavepoint txmgr;
  match savepoint with
  | None => Ok (true, 0%Z)
  | Some sp => Ok (negb (Z.eqb (BlockNum sp) lastAvailableBlock), wrap64 (BlockNum sp + 1))
  end.

Definition CommitLostBlock (block : Block) : ST LockBasedTxMgr unit := fun txmgr =>
  let '(txmgr, _, r) := ValidateAndPrepare txmgr block false in
  match r with
  | Ok _ => Commit txmgr
  | r => (txmgr, r)
  end.

End TxMgr.
Arguments LockBasedTxMgr DB : clear implicits.
End TxMgr.

(** ** The lock

    [commitRWLock]: [NewTxSimulator] and [NewQueryExecutor] take the read lock,
    [done] releases it, and [Commit] applies the updates between [Lock] and
    [Unlock].  The goroutines run the statements of these methods one at a
    time, in any order. *)

Module RWMutex.

(** [sync.RWMutex]: the read locks that are held, and whether the write lock
    is.  [None]: the caller waits, or the runtime stops the program because the
    lock is not held. *)
Record RWMutex := mkRWMutex { readers : nat; writing : bool }.

Definition RLock (l : RWMutex) : option RWMutex :=
  if writing l then None else Some (mkRWMutex (S (readers l)) false).

Definition RUnlock (l : RWMutex) : option RWMutex :=
  match readers l with O => None | S n => Some (mkRWMutex n (writing l)) end.

Definition Lock (l : RWMutex) : option RWMutex :=
  if writing l || (0 <? readers l) then None else Some (mkRWMutex 0 true).

Definition Unlock (l : RWMutex) : option RWMutex :=
  if writing l then Some (mkRWMutex (readers l) false) else None.

End RWMutex.

Module Locking.
Import QueryHelper TxMgr RWMutex.

Section Locking.
Context {DB : Type} `{VersionedDB DB} `{Hashing} `{RWSetCodec} `{ProtoCodec}.

(** A simulator or query executor, and the iterators of its rich queries. *)
Definition simulation : Type := queryHelper DB * list DBItr.

(** A call of one of its methods. *)
Inductive sim_call (db : DB) : simulation -> simulation -> Prop :=
| sc_getState ns key h qs h' r : getState db ns key h = (h', r) -> sim_call db (h, qs) (h', qs)
| sc_getStateMultipleKeys ns keys h qs h' r :
    getStateMultipleKeys db ns keys h = (h', r) -> sim_call db (h, qs) (h', qs)
| sc_range ns s e h qs h' r : getStateRangeScanIterator db ns s e h = (h', r) -> sim_call db (h, qs) (h', qs)
| sc_next i h qs h' r : resultsItr_Next i h = (h', r) -> sim_call db (h, qs) (h', qs)
| sc_executeQuery ns query h qs itr :
    executeQuery db ns query = Ok itr -> sim_call db (h, qs) (h, qs ++ [itr])
| sc_queryNext k itr h qs h' kv itr' :
    qs !! k = Some itr -> queryResultsItr_Next itr h = (h', Ok (kv, itr')) -> sim_call db (h, qs) (h', <[k := itr']> qs)
| sc_setState ns key value h qs h' r : SetState db ns key value h = (h', r) -> sim_call db (h, qs) (h', qs)
| sc_setStateMultipleKeys ns kvs h qs h' r :
    SetStateMultipleKeys db ns kvs h = (h', r) -> sim_call db (h, qs) (h', qs).

(** The statements of the methods that use the lock. *)
Inductive statement :=
| SNew (h : queryHelper DB)   (* the simulator or executor is constructed *)
| SRLock
| SReturn                     (* it is returned *)
| SRecord                     (* the loop of [done] *)
| SRUnlock
| SSetDone                    (* [h.doneInvoked = true] *)
| SLock
| SCommit                     (* the updates are applied *)
| SUnlock.

Definition NewQueryExecutor : list statement := [SNew newQueryExecutor; SRLock; SReturn].
Definition NewTxSimulator : list statement := [SNew newLockBasedTxSimulator; SRLock; SReturn].

(** [Done] and [GetTxSimulationResults] run [done]: its deferred function
    releases the lock and then sets the flag. *)
Definition Done (h : queryHelper DB) : list statement :=
  if doneInvoked h then [] else [SRecord; SRUnlock; SSetDone].

(** The deferred [Unlock] runs whatever the rest of the method does. *)
Definition CommitLocked : list statement := [SLock; SCommit; SUnlock].

(** A goroutine: what is left of the method it runs, its simulator or executor,
    and the database when that was returned to it. *)
Record goroutine := mkGoroutine {
  g_code : list statement;
  g_sim : option simulation;
  g_seen : option DB
}.

Definition set_done (b : bool) (h : queryHelper DB) : queryHelper DB :=
  mkQueryHelper (rwsetBuilder h) (itrs h) (qh_err h) b.

Definition on_helper (f : queryHelper DB -> queryHelper DB) (t : goroutine) : goroutine :=
  mkGoroutine (g_code t) ((fun s : simulation => (f s.1, s.2)) <$> g_sim t) (g_seen t).

(** A statement; [t] has the code that follows. *)
Definition exec (i : statement) (m : LockBasedTxMgr DB) (l : RWMutex) (t : goroutine) :
    option (LockBasedTxMgr DB * RWMutex * goroutine) :=
  match i with
  | SNew h => Some (m, l, mkGoroutine (g_code t) (Some (h, [])) (g_seen t))
  | SRLock => l ← RLock l; Some (m, l, t)
  | SReturn => Some (m, l, mkGoroutine (g_code t) (g_sim t) (Some (db m)))
  | SRecord => Some (m, l, on_helper (fun h => set_done false (done h).1) t)
  | SRUnlock => l ← RUnlock l; Some (m, l, t)
  | SSetDone => Some (m, l, on_helper (set_done true) t)
  | SLock => l ← Lock l; Some (m, l, t)
  | SCommit => Some ((Commit m).1, l, t)
  | SUnlock => l ← Unlock l; Some (m, l, t)
  end.

Record system := mkSystem {
  sy_mgr : LockBasedTxMgr DB;
  sy_lock : RWMutex;
  sy_threads : gmap nat goroutine
}.

(** A goroutine starts a method, executes its next statement, or calls a method
    of the simulator that it has; the validation does not use the lock. *)
Inductive step : system -> system -> Prop :=
| step_start id code m l ts :
    ts !! id = None -> code ∈ [NewTxSimulator; NewQueryExecutor; CommitLocked] ->
    step (mkSystem m l ts) (mkSystem m l (<[id := mkGoroutine code None None]> ts))
| step_exec id i code sim seen m l ts m' l' t' :
    ts !! id = Some (mkGoroutine (i :: code) sim seen) -> exec i m l (mkGoroutine code sim seen) = Some (m', l', t') ->
    step (mkSystem m l ts) (mkSystem m' l' (<[id := t']> ts))
| step_call id sim sim' seen m l ts :
    ts !! id = Some (mkGoroutine [] (Some sim) seen) -> sim_call (db m) sim sim' ->
    step (mkSystem m l ts) (mkSystem m l (<[id := mkGoroutine [] (Some sim') seen]> ts))
| step_done id h qs seen m l ts :
    ts !! id = Some (mkGoroutine [] (Some (h, qs)) seen) ->
    step (mkSystem m l ts) (mkSystem m l (<[id := mkGoroutine (Done h) (Some (h, qs)) seen]> ts))
| step_prepare block mvcc m m' block' r l ts :
    ValidateAndPrepare m block mvcc = (m', block', r) -> step (mkSystem m l ts) (mkSystem m' l ts)
| step_rollback m l ts : step (mkSystem m l ts) (mkSystem (Rollback m) l ts).

Definition initial (m : LockBasedTxMgr DB) : system := mkSystem m (mkRWMutex 0 false) ∅.

(** A simulation as a sequence of calls on one database has left it. *)
Inductive called (g : DB) : simulation -> Prop :=
| called_new h : h ∈ [newLockBasedTxSimulator; newQueryExecutor] -> called g (h, [])
| called_call s s' : called g s -> sim_call g s s' -> called g s'.

(** *** The invariant *)

(** The locks that a goroutine holds. *)
Definition open_sim (sim : option simulation) : nat :=
  match sim with Some (h, _) => if doneInvoked h then 0 else 1 | None => 0 end.

Definition read_locks (t : goroutine) : nat :=
  match g_code t with
  | [] => open_sim (g_sim t)
  | SReturn :: _ | SRecord :: _ | SRUnlock :: _ => 1
  | _ => 0
  end.

Definition write_locks (t : goroutine) : nat :=
  match g_code t with SCommit :: _ | SUnlock :: _ => 1 | _ => 0 end.

(** Where a goroutine can be, on the database [d]. *)
Inductive located (d : DB) : goroutine -> Prop :=
| at_new h : h ∈ [newLockBasedTxSimulator; newQueryExecutor] -> located d (mkGoroutine [SNew h; SRLock; SReturn] None None)
| at_rlock h : h ∈ [newLockBasedTxSimulator; newQueryExecutor] -> located d (mkGoroutine [SRLock; SReturn] (Some (h, [])) None)
| at_return h : h ∈ [newLockBasedTxSimulator; newQueryExecutor] -> located d (mkGoroutine [SReturn] (Some (h, [])) None)
| at_open h qs : doneInvoked h = false -> called d (h, qs) -> located d (mkGoroutine [] (Some (h, qs)) (Some d))
| at_record h qs seen : located d (mkGoroutine [SRecord; SRUnlock; SSetDone] (Some (h, qs)) seen)
| at_runlock h qs seen : located d (mkGoroutine [SRUnlock; SSetDone] (Some (h, qs)) seen)
| at_set_done h qs seen : located d (mkGoroutine [SSetDone] (Some (h, qs)) seen)
| at_done h qs seen : doneInvoked h = true -> located d (mkGoroutine [] (Some (h, qs)) seen)
| at_lock : located d (mkGoroutine [SLock; SCommit; SUnlock] None None)
| at_commit : located d (mkGoroutine [SCommit; SUnlock] None None)
| at_unlock : located d (mkGoroutine [SUnlock] None None)
| at_end : located d (mkGoroutine [] None None).

Definition total (f : goroutine -> nat) (ts : gmap nat goroutine) : nat := map_fold (fun _ t n => f t + n) 0 ts.

Lemma total_new f id t ts : ts !! id = None -> total f (<[id := t]> ts) = f t + total f ts.
Proof. intros Hid. unfold total. rewrite map_fold_insert_L; [done|intros; lia|done]. Qed.

Lemma total_update f id t t' ts :
  ts !! id = Some t -> total f (<[id := t']> ts) + f t = total f ts + f t'.
Proof.
  intros Hid. rewrite <- (insert_delete_id ts id t Hid) at 2. rewrite <- (insert_delete_eq ts id t').
  rewrite !total_new by apply lookup_delete_eq. lia.
Qed.

Lemma total_ge f id t ts : ts !! id = Some t -> f t <= total f ts.
Proof. intros Hid. rewrite <- (insert_delete_id ts id t Hid), total_new by apply lookup_delete_eq. lia. Qed.

Record inv (s : system) : Prop := {
  iv_located : map_Forall (fun _ => located (db (sy_mgr s))) (sy_threads s);
  iv_readers : readers (sy_lock s) = total read_locks (sy_threads s);
  iv_writers : total write_locks (sy_threads s) = if writing (sy_lock s) then 1 else 0;
  iv_excl : writing (sy_lock s) = true -> readers (sy_lock s) = 0
}.

(** The methods do not change the flag. *)
Definition keeps_done {A} (f : ST (queryHelper DB) A) : Prop := forall h, doneInvoked (f h).1 = doneInvoked h.

Lemma keeps_done_bind {A B} (f : ST (queryHelper DB) A) (k : A -> ST (queryHelper DB) B) :
  keeps_done f -> (forall a, keeps_done (k a)) -> keeps_done (mbind k f).
Proof.
  intros Hf Hk h. unfold mbind, st_bind. specialize (Hf h). destruct (f h) as [h1 [a| | |]]; try done. by rewrite Hk.
Qed.

Lemma checkDone_keeps : keeps_done checkDone.
Proof. intros h. unfold checkDone, mbind, st_bind. cbn. by destruct (doneInvoked h) eqn:E. Qed.

Lemma multiple_loop_keeps ns vvs keys : keeps_done (multiple_loop ns vvs keys).
Proof.
  revert keys. induction vvs as [|vv vvs IH]; intros keys; [done|]. cbn [multiple_loop].
  destruct (decomposeVersionedValue vv) as [val ver]. destruct keys as [|key keys]; [done|].
  apply keeps_done_bind; [done|intros _]. by apply keeps_done_bind.
Qed.

Lemma SetState_keeps d ns key value : keeps_done (SetState d ns key value).
Proof. apply keeps_done_bind; [apply checkDone_keeps|intros _]. by apply keeps_done_bind. Qed.

Lemma SetStateMultipleKeys_keeps d ns kvs : keeps_done (SetStateMultipleKeys d ns kvs).
Proof.
  induction kvs as [|[k v] kvs IH]; [done|]. cbn [SetStateMultipleKeys]. by apply keeps_done_bind; [apply SetState_keeps|].
Qed.

Lemma sim_call_done d s s' : sim_call d s s' -> doneInvoked s'.1 = doneInvoked s.1.
Proof.
  assert (forall A (f : ST (queryHelper DB) A) h h' r, keeps_done f -> f h = (h', r) -> doneInvoked h' = doneInvoked h) as Hk.
  { intros A f h h' r Hf E. specialize (Hf h). by rewrite E in Hf. }
  intros []; cbn [fst]; try done; eapply Hk; try eassumption.
  - apply keeps_done_bind; [apply checkDone_keeps|intros _]. apply keeps_done_bind; [done|intros vv].
    destruct (decomposeVersionedValue vv). by apply keeps_done_bind.
  - apply keeps_done_bind; [apply checkDone_keeps|intros _].
    destruct (GetStateMultipleKeys d ns keys); try done. apply multiple_loop_keeps.
  - apply keeps_done_bind; [apply checkDone_keeps|intros _]. apply keeps_done_bind; [done|intros h0].
    by apply keeps_done_bind; [|intros itr; apply keeps_done_bind].
  - apply keeps_done_bind; [done|intros h0]. destruct (itrs h0 !! i) as [itr|]; [|done].
    apply keeps_done_bind; [done|intros [qr dbItr]]. by apply keeps_done_bind; [|intros itr'; apply keeps_done_bind].
  - apply keeps_done_bind; [done|intros [[v|] itr0]]; [|done]. by apply keeps_done_bind.
  - apply SetState_keeps.
  - apply SetStateMultipleKeys_keeps.
Qed.

Lemma located_start d code : code ∈ [NewTxSimulator; NewQueryExecutor; CommitLocked] ->
  located d (mkGoroutine code None None) /\ read_locks (mkGoroutine code None None) = 0 /\
  write_locks (mkGoroutine code None None) = 0.
Proof.
  intros [->|[->|[->|[]%elem_of_nil]%elem_of_cons]%elem_of_cons]%elem_of_cons; split; try done; constructor; set_solver.
Qed.

(** A goroutine without a read lock does not depend on the database. *)
Lemma located_change d d' t : read_locks t = 0 -> located d t -> located d' t.
Proof.
  intros Hr Hl. destruct Hl; try by constructor. unfold read_locks, open_sim in Hr. cbn in Hr.
  match goal with Hd : doneInvoked _ = false |- _ => by rewrite Hd in Hr end.
Qed.

Definition locks (l : RWMutex) : nat := if writing l then 1 else 0.

Lemma update_inv m l l' ts id t t' :
  inv (mkSystem m l ts) -> ts !! id = Some t -> located (db m) t' ->
  readers l' + read_locks t = readers l + read_locks t' -> locks l' + write_locks t = locks l + write_locks t' ->
  (writing l' = true -> readers l' = 0) -> inv (mkSystem m l' (<[id := t']> ts)).
Proof.
  intros [Hl Hr Hw Hx] Hid Ht' Er Ew Hx'. cbn in *. unfold locks in Ew.
  pose proof (total_update read_locks id t t' ts Hid). pose proof (total_update write_locks id t t' ts Hid).
  split; cbn; [by apply map_Forall_insert_2|lia| |done]. rewrite Hw in *. destruct (writing l), (writing l'); lia.
Qed.

Lemma commit_inv m m' l ts id :
  inv (mkSystem m l ts) -> ts !! id = Some (mkGoroutine [SCommit; SUnlock] None None) ->
  inv (mkSystem m' l (<[id := mkGoroutine [SUnlock] None None]> ts)).
Proof.
  intros I Hid. destruct (update_inv m l l ts id _ (mkGoroutine [SUnlock] None None) I Hid) as [Hl Hr Hw Hx];
    [constructor|done|done|apply (iv_excl _ I)|]. split; cbn in *; try done.
  pose proof (total_ge write_locks id _ ts Hid) as Hge. cbn in Hge. pose proof (iv_writers _ I) as Hw0. cbn in Hw0.
  destruct (writing l); [|lia]. specialize (Hx eq_refl). intros id' t Ht. cbn.
  pose proof (total_ge read_locks id' t _ Ht). apply (located_change (db m)); [lia|exact (Hl _ _ Ht)].
Qed.

Lemma exec_inv id i code sim seen m l ts m' l' t' :
  inv (mkSystem m l ts) -> ts !! id = Some (mkGoroutine (i :: code) sim seen) ->
  exec i m l (mkGoroutine code sim seen) = Some (m', l', t') -> inv (mkSystem m' l' (<[id := t']> ts)).
Proof.
  intros I Hid E. pose proof (iv_located _ I id _ Hid) as Ht. cbn in Ht. pose proof (iv_excl _ I) as Hx. cbn in Hx.
  pose proof (total_ge read_locks id _ ts Hid) as Hr. pose proof (iv_readers _ I) as Hrd. cbn in Hrd. rewrite <- Hrd in Hr.
  inversion Ht; subst; cbn in E; try (injection E as <- <- <-); try (by eapply (commit_inv m));
    try (unfold RLock, RUnlock, Lock, Unlock in E; unfold read_locks in Hr; cbn in Hr).
  - eapply (update_inv m); [done|done|by constructor|done|done|done].
  - destruct (writing l) eqn:Ew; [done|]. injection E as <- <- <-.
    eapply (update_inv m); [done|done|by constructor| |unfold locks; cbn; by rewrite Ew|done]. cbn. unfold read_locks. cbn. lia.
  - assert (doneInvoked h = false) as Hd
      by (match goal with Hin : h ∈ _ |- _ => by apply elem_of_cons in Hin as [->|Hin%list_elem_of_singleton]; [|subst h] end).
    eapply (update_inv m); [done|done|apply at_open; [done|by constructor]| |done|done].
    unfold read_locks, open_sim. cbn. by rewrite Hd.
  - eapply (update_inv m); [done|done|constructor|done|done|done].
  - destruct (readers l) as [|n] eqn:En; [lia|]. injection E as <- <- <-.
    eapply (update_inv m); [done|done|constructor| |done|]; cbn; [unfold read_locks; cbn; lia|].
    intros Hw. specialize (Hx Hw). lia.
  - eapply (update_inv m); [done|done|by constructor|done|done|done].
  - destruct (writing l || (0 <? readers l)) eqn:Ew; [done|]. injection E as <- <- <-.
    apply orb_false_iff in Ew as [Ew Hz]. apply Nat.ltb_ge in Hz.
    eapply (update_inv m); [done|done|constructor| |unfold locks; cbn; by rewrite Ew|done]. cbn. unfold read_locks. cbn. lia.
  - destruct (writing l) eqn:Ew; [|done]. injection E as <- <- <-.
    eapply (update_inv m); [done|done|constructor|done|unfold locks; cbn; by rewrite Ew|done].
Qed.

Lemma ValidateAndPrepare_db m block mvcc m' block' r :
  ValidateAndPrepare m block mvcc = (m', block', r) -> db m' = db m.
Proof.
  unfold ValidateAndPrepare. destruct (Validator.ValidateAndPrepareBatch _ _ _) as [b o].
  destruct o; by intros [= <- <- <-].
Qed.

Lemma step_inv s s' : step s s' -> inv s -> inv s'.
Proof.
  intros Hs I. destruct Hs as [id code m l ts Hn Hc|id i code sim seen m l ts m' l' t' Hid E|id sim sim' seen m l ts Hid Hc
    |id h qs seen m l ts Hid|block mvcc m m' block' r l ts E|m l ts].
  - destruct (located_start (db m) code Hc) as (Hl & Hr & Hw). destruct I as [I1 I2 I3 I4]. cbn in *.
    split; cbn; [by apply map_Forall_insert_2|by rewrite total_new, Hr|by rewrite total_new, Hw|done].
  - by eapply exec_inv.
  - pose proof (iv_located _ I id _ Hid) as Ht. cbn in Ht. pose proof (sim_call_done _ _ _ Hc) as Hd.
    destruct sim as [h qs], sim' as [h' qs']. cbn in Hd. pose proof (iv_excl _ I) as Hx. cbn in Hx.
    eapply (update_inv m); [done|done| | |done|done].
    + inversion Ht; subst; [apply at_open; [congruence|by eapply called_call]|apply at_done; congruence].
    + unfold read_locks, open_sim. cbn. by rewrite Hd.
  - pose proof (iv_located _ I id _ Hid) as Ht. cbn in Ht. pose proof (iv_excl _ I) as Hx. cbn in Hx. unfold Done.
    destruct (doneInvoked h) eqn:Ed; [by rewrite insert_id|].
    eapply (update_inv m); [done|done|constructor| |done|done]. unfold read_locks, open_sim. cbn. by rewrite Ed.
  - destruct I as [I1 I2 I3 I4]. split; cbn in *; try done. by rewrite (ValidateAndPrepare_db _ _ _ _ _ _ E).
  - by destruct I as [I1 I2 I3 I4].
Qed.

Lemma locking_initial m : inv (initial m).
Proof. by split. Qed.

Lemma locking_reachable m s : rtc step (initial m) s -> inv s.
Proof.
  intros Hs. pose proof (locking_initial m) as I. revert I. induction Hs as [|s1 s2 s3 H12 _ IH]; [done|].
  intros I. by apply IH, (step_inv s1).
Qed.

End Locking.
End Locking.

(** ** Theorems *)

Module TxMgrTheorems.
Import QueryHelper TxMgr RWMutex Locking.

(** C34: A simulation sees one committed state.  The goroutines execute the
    statements of [NewTxSimulator], [NewQueryExecutor], [done] and [Commit],
    with their operations on the read-write lock, and the calls of the
    simulators, validations and rollbacks in any interleaving.  Whenever a
    goroutine is between two calls of a simulator or query executor that it has
    not ended, the database is the one there was when the simulator was
    returned to it, and the simulator is as calls on that database alone have
    left it.  (A simulator is used by one goroutine; calls on the database are
    atomic.) *)
Theorem simulation_isolated {DB : Type} `{VersionedDB DB} `{Hashing} `{RWSetCodec} `{ProtoCodec}
    (m : LockBasedTxMgr DB) s id h qs seen :
  rtc step (initial m) s -> sy_threads s !! id = Some (mkGoroutine [] (Some (h, qs)) seen) ->
  doneInvoked h = false ->
  seen = Some (db (sy_mgr s)) /\ called (db (sy_mgr s)) (h, qs).
Proof.
  intros Hs Hid Hd. pose proof (iv_located _ (locking_reachable _ _ Hs) id _ Hid) as Hl. cbn in Hl.
  inversion Hl; subst; [done|congruence].
Qed.

(** A simulator is open, and a commit waits. *)
Lemma simulation_isolated_witness :
  exists s : system (DB := mem_db),
    rtc step (initial (NewLockBasedTxMgr empty_db)) s /\
    sy_threads s !! 1 = Some (mkGoroutine CommitLocked None None) /\
    Lock (sy_lock s) = None /\
    called (db (sy_mgr s)) (newLockBasedTxSimulator, []).
Proof.
  set (m := NewLockBasedTxMgr empty_db).
  set (t := mkGoroutine [] (Some (newLockBasedTxSimulator, [])) (Some empty_db)).
  set (s := mkSystem m (mkRWMutex 1 false) (<[0 := t]> (<[1 := mkGoroutine CommitLocked None None]> ∅))).
  assert (rtc step (initial m) s) as Hs.
  { eapply rtc_l; [apply (step_start 1 CommitLocked); [done|set_solver]|].
    eapply rtc_l; [apply (step_start 0 NewTxSimulator); [done|set_solver]|].
    do 3 (eapply rtc_l; [eapply (step_exec 0); [apply lookup_insert_eq|reflexivity]|]; cbn [g_code g_sim g_seen];
      rewrite insert_insert_eq).
    apply rtc_refl. }
  exists s. split; [exact Hs|]. split; [done|]. split; [done|].
  apply (simulation_isolated m s 0 newLockBasedTxSimulator [] (Some empty_db) Hs); done.
Defined.

(** A block lost by a crash before the state database was updated is
    recovered.  If a block was validated and committed, then recommitting the
    block with its flags on the state it was validated against succeeds and
    gives the very same database. *)
Theorem lost_block_recovered {DB : Type} `{VersionedDB DB} `{Hashing} `{RWSetCodec} `{ProtoCodec}
    (db0 : DB) block m1 block1 m2 :
  ValidateAndPrepare (NewLockBasedTxMgr db0) block true = (m1, block1, Ok tt) ->
  Commit m1 = (m2, Ok tt) ->
  exists m3, CommitLostBlock block1 (NewLockBasedTxMgr db0) = (m3, Ok tt) /\ db m3 = db m2.
Proof.
  unfold CommitLostBlock, ValidateAndPrepare. cbn [db NewLockBasedTxMgr].
  destruct (Validator.ValidateAndPrepareBatch db0 block true) as [b [u| | |]] eqn:E; try done.
  intros [= <- <-]. rewrite (Validator.replay_batch _ db0 _ _ _ _ E). cbn [TxMgr.db].
  intros Hc. exists m2. done.
Qed.

Lemma lost_block_recovered_witness :
  exists m1 m2 m3,
    ValidateAndPrepare (NewLockBasedTxMgr RangeQueryTheorems.w_db) ValidatorTheorems.w_block true
      = (m1, ValidatorTheorems.w_flagged, Ok tt) /\
    Commit m1 = (m2, Ok tt) /\
    CommitLostBlock ValidatorTheorems.w_flagged (NewLockBasedTxMgr RangeQueryTheorems.w_db) = (m3, Ok tt) /\
    db m3 = db m2.
Proof.
  destruct ValidatorTheorems.w_flagged_ok as [u E].
  set (m1 := mkTxMgr RangeQueryTheorems.w_db (Some u) (Some ValidatorTheorems.w_flagged)).
  assert (ValidateAndPrepare (NewLockBasedTxMgr RangeQueryTheorems.w_db) ValidatorTheorems.w_block true
      = (m1, ValidatorTheorems.w_flagged, Ok tt)) as Ev.
  { unfold ValidateAndPrepare. cbn [db NewLockBasedTxMgr]. by rewrite E. }
  assert (is_ok (snd (Commit m1))) as Hc.
  { assert (is_ok (snd (match ValidateAndPrepare (NewLockBasedTxMgr RangeQueryTheorems.w_db)
      ValidatorTheorems.w_block true with (m, _, _) => Commit m end))) as Hv by (by vm_compute).
    by rewrite Ev in Hv. }
  apply ok_pair in Hc as [[] Ec].
  destruct (lost_block_recovered _ _ _ _ _ Ev Ec) as (m3 & E3 & Ed).
  exists m1, (fst (Commit m1)), m3. split; [exact Ev|]. split; [exact Ec|]. split; [exact E3|exact Ed].
Defined.

End TxMgrTheorems.
