(* ===== verification/Serializability.v ===== *)
(** * Serializability

    What concurrency control is for: a transaction that validation lets through
    could have been run on the state it is committed to, with the same response
    and the same read-write set.  The chaincode is a program that calls the
    simulator; the simulator is shown to implement an abstract one over a view;
    a run of the abstract one is the same on every view that agrees with what
    it recorded; and validation checks just that. *)

From stdpp Require Import base gmap strings list sorting.
From Stdlib Require Import Ascii ZArith Lia.
From S2P Require Import Prelude Version StateDB RWSet Merkle Proto Instances RangeQuery Validator TxMgr.
Import Batch RWSetUtil Merkle Builder.

(** ** Chaincodes

    A chaincode run as the sequence of calls it makes of the simulator; what it
    does next depends on the answers.  [R] is its response. *)

Inductive prog (R : Type) : Type :=
| PRet (r : R)
| PGet (ns key : string) (k : option bytes -> prog R)
| PSet (ns key : string) (value : option bytes) (k : prog R)
| PRange (ns startKey endKey : string) (k : nat -> prog R)
| PNext (itr : nat) (k : option KV -> prog R).
Arguments PRet {R}.
Arguments PGet {R}.
Arguments PSet {R}.
Arguments PRange {R}.
Arguments PNext {R}.

(** The namespaces a chaincode names are chaincode names. *)
Fixpoint prog_ok {R} (p : prog R) : Prop :=
  match p with
  | PRet _ => True
  | PGet ns _ k => ns_ok ns /\ forall x, prog_ok (k x)
  | PSet ns _ _ k => ns_ok ns /\ prog_ok k
  | PRange ns _ _ k => ns_ok ns /\ forall i, prog_ok (k i)
  | PNext _ k => forall x, prog_ok (k x)
  end.

Module Simulation.
Import QueryHelper RangeValidator Validator.

Section Run.
Context {DB : Type} `{VersionedDB DB} `{Hashing} `{RWSetCodec}.

Fixpoint run {R} (db : DB) (p : prog R) : ST (queryHelper DB) R :=
  match p with
  | PRet r => mret r
  | PGet ns key k => v ← getState db ns key; run db (k v)
  | PSet ns key value k => _ ← SetState db ns key value; run db k
  | PRange ns s e k => i ← getStateRangeScanIterator db ns s e; run db (k i)
  | PNext i k => r ← resultsItr_Next i; run db (k r)
  end.

(** Run a chaincode and take the results. *)
Definition simulate {R} (db : DB) (p : prog R) : res (R * bytes) :=
  snd ((r ← run db p; b ← GetTxSimulationResults; mret (r, b)) newLockBasedTxSimulator).

End Run.

(** ** The abstract simulator

    The same chaincode over a view.  Of an iterator it keeps what was
    delivered and whether its end was reached. *)

Record aitr := mkAItr {
  ai_ns : string;
  ai_start : string;
  ai_end : string;
  ai_seen : list VersionedKV;
  ai_exhausted : bool
}.

Record astate := mkAState { a_builder : RWSetBuilder; a_itrs : list aitr }.

Definition ai_advance (ai : aitr) (r : option VersionedKV) : aitr :=
  match r with
  | Some kv => mkAItr (ai_ns ai) (ai_start ai) (ai_end ai) (ai_seen ai ++ [kv]) (ai_exhausted ai)
  | None => mkAItr (ai_ns ai) (ai_start ai) (ai_end ai) (ai_seen ai) true
  end.

Definition kv_of (kv : VersionedKV) : KV := mkKV (Namespace kv) (Key kv) (Value (VV kv)).

(** [vk] is the check of a key that [SetState] makes. *)
Inductive arun {R} (vk : string -> res unit) (v : view_t) : prog R -> astate -> astate -> R -> Prop :=
| AR_ret r a : arun vk v (PRet r) a a r
| AR_get ns key k a a' r :
    arun vk v (k (v ns key ≫= Value))
      (mkAState (AddToReadSet (a_builder a) ns key (Version <$> v ns key)) (a_itrs a)) a' r ->
    arun vk v (PGet ns key k) a a' r
| AR_set ns key value k a a' r :
    vk key = Ok tt ->
    arun vk v k (mkAState (AddToWriteSet (a_builder a) ns key value) (a_itrs a)) a' r ->
    arun vk v (PSet ns key value k) a a' r
| AR_range ns s e k a a' r :
    arun vk v (k (length (a_itrs a)))
      (mkAState (a_builder a) (a_itrs a ++ [mkAItr ns s e [] false])) a' r ->
    arun vk v (PRange ns s e k) a a' r
| AR_next i ai l k a a' r :
    a_itrs a !! i = Some ai ->
    is_scan v (ai_ns ai) (ai_start ai) (ai_end ai) l ->
    arun vk v (k (kv_of <$> l !! length (ai_seen ai)))
      (mkAState (a_builder a) (<[i := ai_advance ai (l !! length (ai_seen ai))]> (a_itrs a))) a' r ->
    arun vk v (PNext i k) a a' r.

(** *** Running on a view that agrees where it matters *)

(** [ai'] is a later state of [ai]. *)
Definition ai_le (ai ai' : aitr) : Prop :=
  ai_ns ai = ai_ns ai' /\ ai_start ai = ai_start ai' /\ ai_end ai = ai_end ai' /\
  ai_seen ai `prefix_of` ai_seen ai' /\ (ai_exhausted ai = true -> ai_exhausted ai' = true).

#[global] Instance ai_le_preorder : PreOrder ai_le.
Proof.
  split; [by intros ai|].
  intros a b c (?&?&?&?&?) (?&?&?&?&?). repeat split; try congruence; [by etrans|auto].
Qed.

Lemma ai_le_advance ai r : ai_le ai (ai_advance ai r).
Proof. destruct r; repeat split; cbn; try done. by apply prefix_app_r. Qed.

Definition a_le (a a' : astate) : Prop :=
  (forall ns key, is_Some (read_of (a_builder a) ns key) -> is_Some (read_of (a_builder a') ns key)) /\
  (forall i ai, a_itrs a !! i = Some ai -> exists ai', a_itrs a' !! i = Some ai' /\ ai_le ai ai').

#[global] Instance a_le_preorder : PreOrder a_le.
Proof.
  split.
  - intros a. split; [done|]. intros i ai Hi. by exists ai.
  - intros a b c [H1 H2] [H3 H4]. split; [auto|]. intros i ai Hi.
    destruct (H2 i ai Hi) as (ai1 & Hi1 & Hle1). destruct (H4 i ai1 Hi1) as (ai2 & Hi2 & Hle2).
    exists ai2. split; [done|]. by etrans.
Qed.

Lemma arun_le {R} vk v (p : prog R) a a' r : arun vk v p a a' r -> a_le a a'.
Proof.
  induction 1 as [|ns key k a a' r _ IH|ns key value k a a' r _ _ IH|ns s e k a a' r _ IH
                 |i ai l k a a' r Hi _ _ IH]; [done| | | |]; (etrans; [|exact IH]); split; cbn; try done;
    try (intros i0 ai0 Hi0; by exists ai0).
  - intros ns' key' Hs. rewrite read_of_AddToReadSet. by case_decide.
  - intros ns' key' Hs. by rewrite read_of_AddToWriteSet.
  - intros i ai Hi. exists ai. split; [|done]. by apply lookup_app_l_Some.
  - intros j aj Hj. destruct (decide (i = j)) as [<-|Hne].
    + rewrite Hi in Hj. injection Hj as <-. rewrite list_lookup_insert_eq by (by eapply lookup_lt_Some).
      eexists. split; [done|]. apply ai_le_advance.
    + rewrite list_lookup_insert_ne by done. by exists aj.
Qed.

(** Two views give the same answers to everything in [a]: the values of the
    keys read, and the results the iterators have delivered. *)
Record agree (v0 v1 : view_t) (a : astate) : Prop := {
  agree_reads ns key : is_Some (read_of (a_builder a) ns key) -> v0 ns key = v1 ns key;
  agree_itrs ai : ai ∈ a_itrs a ->
    exists l, is_scan v1 (ai_ns ai) (ai_start ai) (ai_end ai) l /\
      ai_seen ai `prefix_of` l /\ (ai_exhausted ai = true -> ai_seen ai = l)
}.

(** What the iterators have seen is a prefix of the scan, all of it at the end. *)
Definition seen_ok (v : view_t) (a : astate) : Prop :=
  forall ai, ai ∈ a_itrs a ->
    exists l, is_scan v (ai_ns ai) (ai_start ai) (ai_end ai) l /\
      ai_seen ai `prefix_of` l /\ (ai_exhausted ai = true -> ai_seen ai = l).

Lemma prefix_lookup_length {A} (l1 l2 : list A) : l1 `prefix_of` l2 -> l2 !! length l1 = None -> l1 = l2.
Proof.
  intros [k ->] Hn. rewrite lookup_app_r, Nat.sub_diag in Hn by done.
  destruct k; [by rewrite app_nil_r|done].
Qed.

Lemma ai_advance_next v a i ai l :
  seen_ok v a -> a_itrs a !! i = Some ai -> is_scan v (ai_ns ai) (ai_start ai) (ai_end ai) l ->
  ai_seen ai `prefix_of` l /\ (ai_exhausted ai = true -> ai_seen ai = l).
Proof.
  intros Hs Hi Hl. destruct (Hs ai) as (l' & Hl' & Hp); [by eapply list_elem_of_lookup_2|].
  by rewrite (is_scan_unique _ _ _ _ _ _ Hl Hl').
Qed.

Lemma seen_ok_next v a i ai l b :
  seen_ok v a -> a_itrs a !! i = Some ai -> is_scan v (ai_ns ai) (ai_start ai) (ai_end ai) l ->
  seen_ok v (mkAState b (<[i := ai_advance ai (l !! length (ai_seen ai))]> (a_itrs a))).
Proof.
  intros Hs Hi Hl aj Hj. cbn in Hj. apply list_elem_of_lookup in Hj as [j Hj].
  destruct (decide (i = j)) as [<-|Hne].
  2: { rewrite list_lookup_insert_ne in Hj by done. apply Hs. by eapply list_elem_of_lookup_2. }
  rewrite list_lookup_insert_eq in Hj by (by eapply lookup_lt_Some). injection Hj as <-.
  destruct (ai_advance_next v a i ai l Hs Hi Hl) as [Hp He].
  exists l. destruct (l !! length (ai_seen ai)) as [kv|] eqn:E; cbn; (split; [done|]).
  - split.
    + destruct Hp as [k ->]. rewrite lookup_app_r, Nat.sub_diag in E by done.
      destruct k as [|x k]; [done|]. injection E as ->. exists k. by rewrite <- app_assoc.
    + intros Hex. rewrite <- (He Hex) in E. apply lookup_lt_Some in E. lia.
  - split; [done|]. intros _. by apply prefix_lookup_length.
Qed.

(** Every range has a scan: the view is that of a database. *)
Definition has_scans (v : view_t) : Prop :=
  forall ns s e, ns_ok ns -> exists l, is_scan v ns s e l.

Lemma seen_ok_range v a ns s e b :
  has_scans v -> ns_ok ns -> seen_ok v a -> seen_ok v (mkAState b (a_itrs a ++ [mkAItr ns s e [] false])).
Proof.
  intros Hv Hns Hs ai. cbn. rewrite elem_of_app, list_elem_of_singleton. intros [Hai| ->]; [by apply Hs|].
  destruct (Hv ns s e Hns) as [l Hl]. exists l. cbn. split; [done|]. split; [apply prefix_nil|done].
Qed.

Lemma arun_seen_ok {R} vk v (p : prog R) a a' r :
  has_scans v -> prog_ok p -> arun vk v p a a' r -> seen_ok v a -> seen_ok v a'.
Proof.
  intros Hv Hp Hr. induction Hr as [|ns key k a a' r _ IH|ns key value k a a' r _ _ IH|ns s e k a a' r _ IH
                 |i ai l k a a' r Hi Hl _ IH]; intros Hs; cbn in Hp; try done.
  - by apply IH; [apply Hp|].
  - by apply IH; [apply Hp|].
  - apply IH; [apply Hp|]. by apply seen_ok_range; [|apply Hp|].
  - apply IH; [apply Hp|]. by apply seen_ok_next.
Qed.

(** The heart of serializability: a run is the same on every view that agrees
    with what it has recorded at its end. *)
Lemma arun_agree {R} vk v0 v1 (p : prog R) a a' r :
  has_scans v0 -> prog_ok p -> seen_ok v0 a -> arun vk v0 p a a' r -> agree v0 v1 a' -> arun vk v1 p a a' r.
Proof.
  intros Hv Hp Hs Hr Hag. induction Hr as [r a|ns key k a a' r Hr IH|ns key value k a a' r Hk Hr IH
    |ns s e k a a' r Hr IH|i ai l k a a' r Hi Hl Hr IH]; cbn in Hp.
  - constructor.
  - constructor. assert (v0 ns key = v1 ns key) as <-.
    { apply (agree_reads _ _ _ Hag). apply arun_le in Hr as [Hr _]. apply Hr. cbn.
      rewrite read_of_AddToReadSet. by rewrite decide_True. }
    by apply IH; [apply Hp| |].
  - constructor; [done|]. by apply IH; [apply Hp| |].
  - constructor. apply IH; [apply Hp| |done]. by apply seen_ok_range; [|apply Hp|].
  - pose proof (seen_ok_next v0 a i ai l (a_builder a) Hs Hi Hl) as Hs'.
    pose proof (arun_seen_ok _ _ _ _ _ _ Hv (Hp _) Hr Hs') as Hsf.
    destruct (arun_le _ _ _ _ _ _ Hr) as [_ Hle]. cbn in Hle.
    destruct (Hle i (ai_advance ai (l !! length (ai_seen ai)))) as (ai' & Hi' & En & Es & Ee & Hpre & Hex).
    { by rewrite list_lookup_insert_eq by (by eapply lookup_lt_Some). }
    apply list_elem_of_lookup_2 in Hi'.
    destruct (agree_itrs _ _ _ Hag ai' Hi') as (l1 & Hl1 & Hp1 & He1).
    destruct (Hsf ai' Hi') as (l0 & Hl0 & Hp0 & He0).
    destruct (l !! length (ai_seen ai)) as [kv|] eqn:E; cbn in *.
    + rewrite <- En, <- Es, <- Ee in Hl1. assert (l1 !! length (ai_seen ai) = Some kv) as E1.
      { destruct (transitivity Hpre Hp1) as [t ->]. rewrite <- app_assoc.
        by rewrite lookup_app_r, Nat.sub_diag by done. }
      eapply (AR_next vk v1 i ai l1); [done|done|]. rewrite E1. by apply IH.
    + rewrite <- En, <- Es, <- Ee in *. specialize (Hex eq_refl).
      pose proof (is_scan_unique _ _ _ _ _ _ Hl Hl0) as ->.
      destruct (ai_advance_next v0 a i ai l0 Hs Hi Hl) as [Hpl _].
      assert (ai_seen ai = l0) as Hseen by (by apply prefix_lookup_length).
      rewrite (He0 Hex) in He1. specialize (He1 Hex). subst l1.
      eapply (AR_next vk v1 i ai l0); [done|done|]. rewrite E. by apply IH.
Qed.

(** ** The simulator implements the abstract one *)

Section Refinement.
Context {DB : Type} `{VersionedDBSpec DB} `{HashingSpec} `{RWSetCodec}.

(** The helper of a new iterator. *)
Definition helper0 : RangeQueryResultsHelper :=
  mkHelper [] (Some (mkTree ∅ 1 GetMaxDegreeQueryReadsHashing)) GetMaxDegreeQueryReadsHashing true.

Lemma helper0_ok : helper_ok helper0 (mkTree ∅ 1 GetMaxDegreeQueryReadsHashing).
Proof.
  destruct (NewRangeQueryResultsHelper_ok GetMaxDegreeQueryReadsHashing) as (h & E & Hh & _);
    [unfold GetMaxDegreeQueryReadsHashing; lia|]. by injection E as <-.
Qed.

(** The end key recorded for an iterator. *)
Definition ai_endKey (ai : aitr) : string :=
  if ai_exhausted ai then ai_end ai
  else match last (ai_seen ai) with Some kv => Key kv | None => "" end.

Record itr_rel (db : DB) (it : resultsItr DB) (ai : aitr) : Prop := {
  ir_ns : ri_ns it = ai_ns ai;
  ir_ns_ok : ns_ok (ai_ns ai);
  ir_end : ri_endKey it = ai_end ai;
  ir_itr : itr_ok (ri_dbItr it);
  ir_scan : is_scan (view db) (ai_ns ai) (ai_start ai) (ai_end ai) (ai_seen ai ++ rest (ri_dbItr it));
  ir_exhausted : ai_exhausted ai = true -> rest (ri_dbItr it) = [];
  ir_helper : ri_rangeQueryResultsHelper it = Some (add_results helper0 (kv_read <$> ai_seen ai));
  ir_info : ri_rangeQueryInfo it = Some (mkRQI (ai_start ai) (ai_endKey ai) (ai_exhausted ai) NoReads)
}.

Record sim_rel (db : DB) (h : queryHelper DB) (a : astate) : Prop := {
  sr_builder : rwsetBuilder h = Some (a_builder a);
  sr_itrs : Forall2 (itr_rel db) (itrs h) (a_itrs a);
  sr_err : qh_err h = None;
  sr_done : doneInvoked h = false
}.

Definition a_init : astate := mkAState NewRWSetBuilder [].

Lemma sim_rel_init db : sim_rel db newLockBasedTxSimulator a_init.
Proof. by split. Qed.

Lemma checkDone_ok db h a : sim_rel db h a -> checkDone h = (h, Ok tt).
Proof. intros Hr. unfold checkDone, st_get, mbind, st_bind. by rewrite (sr_done _ _ _ Hr). Qed.

Lemma getState_step db h a ns key :
  db_ok db -> ns_ok ns -> sim_rel db h a ->
  exists h', getState db ns key h = (h', Ok (view db ns key ≫= Value)) /\
    sim_rel db h' (mkAState (AddToReadSet (a_builder a) ns key (Version <$> view db ns key)) (a_itrs a)).
Proof.
  intros Hdb Hns Hr. unfold getState. rewrite (st_bind_Ok _ _ _ _ _ (checkDone_ok _ _ _ Hr)).
  rewrite GetState_spec by done. cbn. destruct Hr as [Hb Hi He Hd].
  destruct (view db ns key) as [vv|]; cbn; eexists; (split; [done|]); split; cbn; try done; by rewrite Hb.
Qed.

Lemma SetState_step db h a ns key value :
  sim_rel db h a ->
  match ValidateKey db key with
  | Ok _ => exists h', SetState db ns key value h = (h', Ok tt) /\
      sim_rel db h' (mkAState (AddToWriteSet (a_builder a) ns key value) (a_itrs a))
  | _ => forall h' r, SetState db ns key value h <> (h', Ok r)
  end.
Proof.
  intros Hr. unfold SetState. rewrite (st_bind_Ok _ _ _ _ _ (checkDone_ok _ _ _ Hr)).
  destruct (ValidateKey db key) as [[]| | |]; cbn; try done.
  destruct Hr as [Hb Hi He Hd]. eexists. split; [done|]. split; cbn; try done. by rewrite Hb.
Qed.

Lemma getStateRangeScanIterator_step db h a ns s e :
  db_ok db -> ns_ok ns -> sim_rel db h a ->
  exists h', getStateRangeScanIterator db ns s e h = (h', Ok (length (a_itrs a))) /\
    sim_rel db h' (mkAState (a_builder a) (a_itrs a ++ [mkAItr ns s e [] false])).
Proof.
  intros Hdb Hns Hr. unfold getStateRangeScanIterator.
  rewrite (st_bind_Ok _ _ _ _ _ (checkDone_ok _ _ _ Hr)).
  destruct Hr as [Hb Hi He Hd]. unfold st_get, mbind, st_bind. rewrite Hb. unfold newResultsItr.
  destruct (GetStateRangeScanIterator_spec db ns s e Hdb Hns) as (it & -> & Hok & Hs). cbn.
  eexists. split; [by rewrite (Forall2_length _ _ _ Hi)|]. split; cbn; try done.
  apply Forall2_app; [done|]. constructor; [|constructor]. by split.
Qed.

Lemma updateRangeQueryInfo_step (it : resultsItr DB) ai it' r :
  ri_rangeQueryInfo it = Some (mkRQI (ai_start ai) (ai_endKey ai) (ai_exhausted ai) NoReads) ->
  ri_rangeQueryResultsHelper it = Some (add_results helper0 (kv_read <$> ai_seen ai)) ->
  ri_endKey it = ai_end ai -> (ai_exhausted ai = true -> r = None) ->
  updateRangeQueryInfo it r = Ok it' ->
  ri_ns it' = ri_ns it /\ ri_endKey it' = ri_endKey it /\ ri_dbItr it' = ri_dbItr it /\
  ri_rangeQueryResultsHelper it' =
    Some (add_results helper0 (kv_read <$> ai_seen (ai_advance ai r))) /\
  ri_rangeQueryInfo it' =
    Some (mkRQI (ai_start ai) (ai_endKey (ai_advance ai r)) (ai_exhausted (ai_advance ai r)) NoReads).
Proof.
  intros Hi Hh He Hex. unfold updateRangeQueryInfo. rewrite Hi, Hh. destruct r as [kv|].
  - fold (kv_read kv). assert (ai_exhausted ai = false) as Hf.
    { destruct (ai_exhausted ai); [by specialize (Hex eq_refl)|done]. }
    destruct (add_results_ok helper0 _ (kv_read <$> ai_seen ai) helper0_ok) as (m & Hm & _).
    destruct (AddResult_spec _ m (kv_read kv) Hm) as (h' & m' & Ea & _).
    rewrite Ea. intros [= <-]. cbn. repeat split.
    + unfold add_results. rewrite fmap_app, foldl_app. cbn. unfold add_results in Ea. by rewrite Ea.
    + unfold ai_endKey. cbn. by rewrite Hf, last_snoc.
  - intros [= <-]. cbn. by rewrite He.
Qed.

Lemma resultsItr_Next_step db h a i ai :
  sim_rel db h a -> a_itrs a !! i = Some ai ->
  exists h' l, is_scan (view db) (ai_ns ai) (ai_start ai) (ai_end ai) l /\
    resultsItr_Next i h = (h', Ok (kv_of <$> l !! length (ai_seen ai))) /\
    sim_rel db h' (mkAState (a_builder a) (<[i := ai_advance ai (l !! length (ai_seen ai))]> (a_itrs a))).
Proof.
  intros [Hb Hi He Hd] Hai. destruct (Forall2_lookup_r _ _ _ _ _ Hi Hai) as (it & Hit & Hrel).
  destruct Hrel as [Rns Rok Rend Ritr Rscan Rex Rh Rinfo].
  destruct (Next_spec (ri_dbItr it) Ritr) as (di & En & Hdi & Hrest).
  assert ((ai_seen ai ++ rest (ri_dbItr it)) !! length (ai_seen ai) = head (rest (ri_dbItr it))) as El.
  { rewrite lookup_app_r, Nat.sub_diag by done. by destruct (rest (ri_dbItr it)). }
  unfold resultsItr_Next, st_get, st_lift, mbind, st_bind. rewrite Hit, En. cbn.
  set (it1 := mkResultsItr _ _ di _ _).
  assert (exists it', updateRangeQueryInfo it1 (head (rest (ri_dbItr it))) = Ok it') as [it' Eu].
  { unfold updateRangeQueryInfo, it1. cbn. rewrite Rinfo, Rh. destruct (head _) as [kv|]; [|eauto].
    destruct (add_results_ok helper0 _ (kv_read <$> ai_seen ai) helper0_ok) as (m & Hm & _).
    destruct (AddResult_spec _ m (NewKVRead (Key kv) (Some (Version (VV kv)))) Hm) as (h' & m' & -> & _).
    eauto. }
  rewrite Eu. eexists _, (ai_seen ai ++ rest (ri_dbItr it)). rewrite El.
  split; [done|]. split; [by destruct (head _)|].
  assert (ai_exhausted ai = true -> head (rest (ri_dbItr it)) = None) as Hex by (intros Hx; by rewrite Rex).
  destruct (updateRangeQueryInfo_step it1 ai it' _ Rinfo Rh Rend Hex Eu) as (Q1 & Q2 & Q3 & Q4 & Q5).
  split; cbn; try done. apply Forall2_insert; [done|].
  split; try done; rewrite ?Q1, ?Q2, ?Q3; cbn; destruct (rest (ri_dbItr it)) as [|kv l] eqn:Er;
    cbn in *; try done; try (by rewrite Hrest).
  - by rewrite Hrest, <- app_assoc.
  - intros Hx. by specialize (Hex Hx).
Qed.

Lemma run_refines {R} db (p : prog R) h a h' r :
  db_ok db -> prog_ok p -> sim_rel db h a -> run db p h = (h', Ok r) ->
  exists a', arun (ValidateKey db) (view db) p a a' r /\ sim_rel db h' a'.
Proof.
  intros Hdb. revert h a. induction p as [r0|ns key k IH|ns key value k IH|ns s e k IH|i k IH];
    intros h a Hp Hr E; cbn in Hp.
  - injection E as <- <-. exists a. split; [constructor|done].
  - destruct Hp as [Hns Hp]. cbn in E.
    destruct (getState_step db h a ns key Hdb Hns Hr) as (h1 & E1 & Hr1).
    rewrite (st_bind_Ok _ _ _ _ _ E1) in E.
    destruct (IH _ _ _ (Hp _) Hr1 E) as (a' & Ha & Hr'). exists a'. split; [by constructor|done].
  - destruct Hp as [Hns Hp]. cbn in E. pose proof (SetState_step db h a ns key value Hr) as Hs.
    destruct (ValidateKey db key) as [[]| | |] eqn:Ek.
    2-4: apply st_bind_inv in E as (? & ? & E1 & _); by apply Hs in E1.
    destruct Hs as (h1 & E1 & Hr1). rewrite (st_bind_Ok _ _ _ _ _ E1) in E.
    destruct (IH _ _ Hp Hr1 E) as (a' & Ha & Hr'). exists a'. split; [by constructor|done].
  - destruct Hp as [Hns Hp]. cbn in E.
    destruct (getStateRangeScanIterator_step db h a ns s e Hdb Hns Hr) as (h1 & E1 & Hr1).
    rewrite (st_bind_Ok _ _ _ _ _ E1) in E.
    destruct (IH _ _ _ (Hp _) Hr1 E) as (a' & Ha & Hr'). exists a'. split; [by constructor|done].
  - cbn in E. destruct (a_itrs a !! i) as [ai|] eqn:Ei.
    + destruct (resultsItr_Next_step db h a i ai Hr Ei) as (h1 & l & Hl & E1 & Hr1).
      rewrite (st_bind_Ok _ _ _ _ _ E1) in E.
      destruct (IH _ _ _ (Hp _) Hr1 E) as (a' & Ha & Hr'). exists a'. split; [by econstructor|done].
    + apply st_bind_inv in E as (? & ? & E1 & _). exfalso. revert E1.
      unfold resultsItr_Next, st_get, mbind, st_bind.
      destruct (itrs h !! i) eqn:Ei'; [|done].
      destruct (Forall2_lookup_l _ _ _ _ _ (sr_itrs _ _ _ Hr) Ei') as (? & ? & _). congruence.
Qed.

Lemma arun_run {R} db (p : prog R) h a a' r :
  db_ok db -> prog_ok p -> sim_rel db h a -> arun (ValidateKey db) (view db) p a a' r ->
  exists h', run db p h = (h', Ok r) /\ sim_rel db h' a'.
Proof.
  intros Hdb Hp Hr Ha. revert h Hp Hr.
  induction Ha as [r a|ns key k a a' r Ha IH|ns key value k a a' r Hk Ha IH
    |ns s e k a a' r Ha IH|i ai l k a a' r Hi Hl Ha IH]; intros h Hp Hr; cbn in Hp |- *.
  - by exists h.
  - destruct Hp as [Hns Hp]. destruct (getState_step db h a ns key Hdb Hns Hr) as (h1 & E1 & Hr1).
    rewrite (st_bind_Ok _ _ _ _ _ E1). by apply IH.
  - destruct Hp as [Hns Hp]. pose proof (SetState_step db h a ns key value Hr) as Hs. rewrite Hk in Hs.
    destruct Hs as (h1 & E1 & Hr1). rewrite (st_bind_Ok _ _ _ _ _ E1). by apply IH.
  - destruct Hp as [Hns Hp].
    destruct (getStateRangeScanIterator_step db h a ns s e Hdb Hns Hr) as (h1 & E1 & Hr1).
    rewrite (st_bind_Ok _ _ _ _ _ E1). by apply IH.
  - destruct (resultsItr_Next_step db h a i ai Hr Hi) as (h1 & l1 & Hl1 & E1 & Hr1).
    rewrite (is_scan_unique _ _ _ _ _ _ Hl1 Hl) in E1, Hr1.
    rewrite (st_bind_Ok _ _ _ _ _ E1). by apply IH.
Qed.

(** *** The results of a simulation *)

(** What [done] records for an iterator. *)
Definition reads_info (seen : list VersionedKV) : ReadsInfo :=
  match summary_of helper0 seen with
  | Some s => ReadsMerkleHashes s
  | None => match seen with [] => NoReads | _ => RawReads (kv_read <$> seen) end
  end.

Definition ai_info (ai : aitr) : RangeQueryInfo :=
  mkRQI (ai_start ai) (ai_endKey ai) (ai_exhausted ai) (reads_info (ai_seen ai)).

Definition a_final (a : astate) : RWSetBuilder :=
  foldl (fun b ai => AddToRangeQuerySet b (ai_ns ai) (ai_info ai)) (a_builder a) (a_itrs a).

(** [Done] on the results of an iterator: as they are, or their summary. *)
Lemma Done_results seen :
  exists results, snd (Done (add_results helper0 (kv_read <$> seen))) = Ok (results, summary_of helper0 seen) /\
    match summary_of helper0 seen with
    | None => results = kv_read <$> seen
    | Some s => results = [] /\ MaxDegree s = GetMaxDegreeQueryReadsHashing
    end.
Proof.
  unfold summary_of. set (h := add_results helper0 (kv_read <$> seen)).
  destruct (add_results_ok helper0 _ (kv_read <$> seen) helper0_ok) as (m & Hm & [Hd Hs]).
  destruct (Done_spec h m Hm) as (h' & p & o & -> & Ho). cbn [snd]. exists p. split; [done|].
  destruct o as [s|].
  - destruct Ho as (_ & -> & [Hd' _]). split; [done|]. rewrite <- Hd', <- Hd. done.
  - destruct Ho as [He ->]. unfold h.
    destruct (Nat.le_gt_cases (length seen) GetMaxDegreeQueryReadsHashing) as [Hle|Hgt].
    + rewrite (add_results_short helper0 _ _ helper0_ok); [done|].
      rewrite length_fmap. cbn. done.
    + destruct (add_results_long helper0 _ (kv_read <$> seen) helper0_ok) as (m' & Hm' & He').
      * rewrite length_fmap. exact Hgt.
      * cbn. lia.
      * pose proof (ho_mt _ _ Hm) as E1. pose proof (ho_mt _ _ Hm') as E2. congruence.
Qed.

Lemma done_itrs_final db l ais b :
  Forall2 (itr_rel db) l ais ->
  done_itrs l b = (foldl (fun b ai => AddToRangeQuerySet b (ai_ns ai) (ai_info ai)) b ais, Ok tt).
Proof.
  intros Hl. revert b. induction Hl as [|it ai l ais Hrel Hl IH]; intros b; [done|].
  cbn [done_itrs foldl]. rewrite (ir_info _ _ _ Hrel), (ir_helper _ _ _ Hrel), (ir_ns _ _ _ Hrel).
  destruct (Done_results (ai_seen ai)) as (results & -> & Hres). rewrite IH. do 3 f_equal.
  unfold ai_info, reads_info. destruct (summary_of helper0 (ai_seen ai)) as [s|].
  - by destruct Hres as [-> _].
  - rewrite Hres. by destruct (ai_seen ai).
Qed.

Lemma GetTxSimulationResults_final db h a :
  sim_rel db h a ->
  snd (GetTxSimulationResults h) = ToProtoBytes (GetTxReadWriteSet (a_final a)).
Proof.
  intros [Hb Hi He Hd]. unfold GetTxSimulationResults, done, mbind, st_bind. rewrite Hd, Hb.
  rewrite (done_itrs_final db _ _ _ Hi). cbn. by rewrite He.
Qed.

(** A simulation that succeeds, as an abstract run. *)
Lemma simulate_arun {R} db (p : prog R) r b :
  db_ok db -> prog_ok p -> simulate db p = Ok (r, b) ->
  exists a, arun (ValidateKey db) (view db) p a_init a r /\
            ToProtoBytes (GetTxReadWriteSet (a_final a)) = Ok b.
Proof.
  intros Hdb Hp. unfold simulate. match goal with |- snd ?c = _ -> _ => destruct c as [h2 o] eqn:E end. cbn. intros ->.
  apply st_bind_inv in E as (h & r' & E1 & E2).
  destruct (run_refines _ _ _ _ _ _ Hdb Hp (sim_rel_init db) E1) as (a & Ha & Hr).
  apply st_bind_inv in E2 as (h1 & b' & E2 & E3). injection E3 as <- -> ->.
  exists a. split; [done|]. pose proof (GetTxSimulationResults_final db h a Hr) as Hf.
  by rewrite E2 in Hf.
Qed.

Lemma arun_simulate {R} db (p : prog R) a r b :
  db_ok db -> prog_ok p -> arun (ValidateKey db) (view db) p a_init a r ->
  ToProtoBytes (GetTxReadWriteSet (a_final a)) = Ok b -> simulate db p = Ok (r, b).
Proof.
  intros Hdb Hp Ha Hb. destruct (arun_run _ _ _ _ _ _ Hdb Hp (sim_rel_init db) Ha) as (h & E & Hr).
  unfold simulate. rewrite (st_bind_Ok _ _ _ _ _ E).
  pose proof (GetTxSimulationResults_final db h a Hr) as Hf. rewrite Hb in Hf.
  unfold mbind, st_bind. destruct (GetTxSimulationResults h) as [h1 o]. cbn in Hf. by subst.
Qed.

End Refinement.

(** ** What the recorded set contains *)

(** The reads of a run are at the versions of the view; no range query is
    filed before the end. *)
Record recorded (v : view_t) (b : RWSetBuilder) : Prop := {
  rec_ok : builder_ok b;
  rec_reads ns key r : read_of b ns key = Some r -> r = NewKVRead key (Version <$> v ns key);
  rec_ranges ns k : range_of b ns k = None
}.

Lemma recorded_init v : recorded v (a_builder a_init).
Proof. split; [apply new_ok|done|done]. Qed.

Lemma arun_recorded {R} vk v (p : prog R) a a' r :
  arun vk v p a a' r -> recorded v (a_builder a) -> recorded v (a_builder a').
Proof.
  induction 1 as [|ns key k a a' r _ IH|ns key value k a a' r _ _ IH|ns s e k a a' r _ IH
                 |i ai l k a a' r Hi _ _ IH]; intros Hrec; auto; apply IH; destruct Hrec as [Hok Hr Hq]; cbn.
  - split; [by apply AddToReadSet_ok| |].
    + intros ns' key' r'. rewrite read_of_AddToReadSet. case_decide as Hc; [|apply Hr].
      destruct Hc as [<- <-]. by intros [= <-].
    + intros ns' k'. by rewrite range_of_AddToReadSet.
  - split; [by apply AddToWriteSet_ok| |].
    + intros ns' key' r'. rewrite read_of_AddToWriteSet. apply Hr.
    + intros ns' k'. by rewrite range_of_AddToWriteSet.
Qed.

Section Final.
Context `{Hashing}.

Definition file_ranges (b : RWSetBuilder) (ais : list aitr) : RWSetBuilder :=
  foldl (fun b ai => AddToRangeQuerySet b (ai_ns ai) (ai_info ai)) b ais.

Lemma file_ranges_ok b ais : builder_ok b -> builder_ok (file_ranges b ais).
Proof.
  revert b. induction ais as [|ai ais IH]; intros b Hb; [done|]. cbn.
  apply IH. by apply AddToRangeQuerySet_ok.
Qed.

Lemma file_ranges_read b ais ns key : read_of (file_ranges b ais) ns key = read_of b ns key.
Proof.
  revert b. induction ais as [|ai ais IH]; intros b; [done|]. cbn. unfold file_ranges in IH.
  by rewrite IH, read_of_AddToRangeQuerySet.
Qed.

Lemma file_ranges_keep b ais ns k q :
  range_of b ns k = Some q -> range_of (file_ranges b ais) ns k = Some q.
Proof.
  revert b. induction ais as [|ai ais IH]; intros b Hb; [done|]. cbn. apply IH.
  by rewrite range_of_AddToRangeQuerySet, Hb.
Qed.

(** Every iterator has a range query filed under its key, its own or that of
    an iterator with the same key. *)
Lemma file_ranges_range b (ais : list aitr) ai :
  (forall ns k, range_of b ns k = None \/ exists ai2, range_of b ns k = Some (ai_info ai2) /\
     ai_ns ai2 = ns /\ ai2 ∈ ais) -> ai ∈ ais ->
  forall todo, ai ∈ todo -> (forall x, x ∈ todo -> x ∈ ais) -> builder_ok b ->
  exists ai2, ai2 ∈ ais /\ ai_ns ai2 = ai_ns ai /\ rqi_key (ai_info ai2) = rqi_key (ai_info ai) /\
    range_of (file_ranges b todo) (ai_ns ai) (rqi_key (ai_info ai)) = Some (ai_info ai2).
Proof.
  intros Hb Hin todo. revert b Hb. induction todo as [|x todo IH]; intros b Hb Ht Hsub Hok.
  { by apply elem_of_nil in Ht. }
  cbn. set (b1 := AddToRangeQuerySet b (ai_ns x) (ai_info x)).
  assert (builder_ok b1) as Hok1 by (by apply AddToRangeQuerySet_ok).
  assert (forall ns k, range_of b1 ns k = None \/ exists ai2, range_of b1 ns k = Some (ai_info ai2) /\
     ai_ns ai2 = ns /\ ai2 ∈ ais) as Hb1.
  { intros ns k. unfold b1. rewrite range_of_AddToRangeQuerySet.
    destruct (Hb ns k) as [->|(ai2 & -> & ?)]; [|right; eauto].
    case_decide as Hc; [|by left]. right. exists x. destruct Hc. split; [done|]. split; [done|].
    apply Hsub. left. }
  apply elem_of_cons in Ht as [<-|Ht].
  2: { apply IH; try done. intros y Hy. apply Hsub. by right. }
  destruct (Hb1 (ai_ns ai) (rqi_key (ai_info ai))) as [Hn|(ai2 & E2 & Hns & Hai2)].
  - exfalso. unfold b1 in Hn. rewrite range_of_AddToRangeQuerySet in Hn.
    destruct (range_of b _ _); [done|]. by rewrite decide_True in Hn.
  - exists ai2. split; [done|]. split; [done|].
    split; [by eapply (ranges_filed _ Hok1)|]. by apply file_ranges_keep.
Qed.

End Final.

(** ** Scans and prefixes *)

(** The results of the query that stopped at key [K] are those of the whole
    scan up to [K]. *)
Lemma is_result_upto v ns s e l K q :
  is_scan v ns s e l -> in_range s e K -> K <> "" ->
  StartKey q = s -> EndKey q = K -> ItrExhausted q = false ->
  is_result v ns q (filter (fun kv => str_le (Key kv) K) l).
Proof.
  intros [Hsort Hl] [HsK HKe] HK Es Ek Ex. unfold is_result. rewrite Es, Ek, Ex. cbn [negb].
  exists (filter (fun kv => str_lt (Key kv) K) l).
  assert (forall k, str_lt k K -> e = "" \/ str_lt k e) as Hlt.
  { intros k Hk. destruct HKe as [->|HKe]; [by left|right]. by etrans. }
  split.
  - split; [by apply StronglySorted_filter|]. intros kv. rewrite list_elem_of_filter, Hl.
    unfold in_range. split.
    + intros (Hk & Hn & Hv & Hs & _). auto.
    + intros (Hn & Hv & Hs & [?|Hk]); [done|]. do 4 (split; [done|]). by apply Hlt.
  - set (fin := match v ns K with Some vv => [mkVKV ns K vv] | None => [] end).
    assert (forall x, x ∈ fin <-> Namespace x = ns /\ Key x = K /\ v ns K = Some (VV x)) as Hfin.
    { intros [xn xk xv]. unfold fin. destruct (v ns K) as [vv|] eqn:Ev.
      - rewrite list_elem_of_singleton. cbn. split; [intros [= -> -> ->]; auto|].
        intros (-> & -> & [= ->]). done.
      - rewrite elem_of_nil. naive_solver. }
    apply kv_lt_sorted_unique.
    + by apply StronglySorted_filter.
    + apply StronglySorted_app. split; [|split; [by apply StronglySorted_filter|]].
      * intros a b Ha Hb. apply list_elem_of_filter in Ha as [Ha _].
        apply Hfin in Hb as (_ & E & _). unfold kv_lt. by rewrite E.
      * unfold fin. destruct (v ns K); repeat constructor.
    + intros kv. rewrite elem_of_app, Hfin, !list_elem_of_filter, !Hl. unfold in_range. split.
      * intros (Hle & Hn & Hv & Hs & He).
        apply str_le_lt_eq in Hle as [Hlt'|E]; [by left|right]. by rewrite <- E.
      * intros [(Hk & Hn & Hv & Hs & He)|(Hn & Hk & Hv)].
        -- split; [by apply str_lt_le|auto].
        -- rewrite Hk. split; [done|auto].
Qed.

(** A prefix of a scan holds everything up to its last key. *)
Lemma prefix_filter (init rest : list VersionedKV) x :
  StronglySorted kv_lt ((init ++ [x]) ++ rest) ->
  filter (fun kv => str_le (Key kv) (Key x)) ((init ++ [x]) ++ rest) = init ++ [x].
Proof.
  intros Hs. apply StronglySorted_app in Hs as (Hcross & Hi & _).
  apply StronglySorted_app in Hi as (Hix & _ & _).
  rewrite !filter_app, filter_cons_True, filter_nil by done.
  rewrite (filter_all _ init), (filter_none _ rest).
  - by rewrite app_nil_r.
  - apply Forall_forall. intros y Hy Hle. assert (kv_lt x y) as Hxy by (apply Hcross; [set_solver|done]).
    by apply Hxy.
  - apply Forall_forall. intros y Hy. apply str_lt_le. apply Hix; [done|set_solver].
Qed.

(** ** Validated means repeatable *)

Section Repeatable.
Context {DB : Type} `{VersionedDBSpec DB} `{HashingSpec} `{RWSetCodecSpec}.

(** A version is written once: it determines the value. *)
Definition version_determines (v0 v1 : view_t) : Prop :=
  forall ns k, ns_ok ns -> Version <$> v0 ns k = Version <$> v1 ns k -> v0 ns k = v1 ns k.

Definition keys_nonempty (v : view_t) : Prop := forall ns, ns_ok ns -> v ns "" = None.

(** The hash does not confuse the results a query had with those it has now. *)
Definition no_collision (v0 v1 : view_t) (rw : TxRwSet) : Prop :=
  forall s q l0 l1, s ∈ rw -> q ∈ RangeQueriesInfo (KvRwSet s) -> is_Some (GetReadsMerkleHashes q) ->
    is_result v0 (NameSpace s) q l0 -> is_result v1 (NameSpace s) q l1 ->
    summary_of helper0 l0 = summary_of helper0 l1 -> l0 = l1.

Lemma view_has_scans db : db_ok db -> has_scans (view db).
Proof.
  intros Hdb ns s e Hns. destruct (GetStateRangeScanIterator_spec db ns s e Hdb Hns) as (i & _ & _ & Hs).
  eauto.
Qed.

Lemma overlay_has_scans db b : db_ok db -> has_scans (overlay b (view db)).
Proof.
  intros Hdb ns s e Hns.
  destruct (Combined.newCombinedIterator_spec db b ns s e false Hdb Hns) as (i & l & _ & _ & _ & Hs). eauto.
Qed.

(** The namespaces of a run. *)
Record names_ok (a : astate) : Prop := {
  no_itrs ai : ai ∈ a_itrs a -> ns_ok (ai_ns ai);
  no_builder ns : is_Some (a_builder a !! ns) -> ns_ok ns
}.

(** What an iterator has seen is the result of the query recorded for it. *)
Lemma seen_result v a ai :
  keys_nonempty v -> names_ok a -> seen_ok v a -> ai ∈ a_itrs a -> ai_exhausted ai = true \/ ai_seen ai <> [] ->
  is_result v (ai_ns ai) (ai_info ai) (ai_seen ai).
Proof.
  intros Hne Hn Hs Hai Hc. destruct (Hs ai Hai) as (l & Hl & [tl Hp] & He).
  destruct (ai_exhausted ai) eqn:Ex.
  - exists (ai_seen ai). cbn. unfold ai_endKey. rewrite Ex. rewrite He at 1 by done.
    split; [done|]. by rewrite app_nil_r.
  - destruct Hc as [|Hc]; [done|]. destruct (last (ai_seen ai)) as [x|] eqn:El.
    2: { by apply last_None in El. }
    apply last_Some in El as [init Ei].
    assert (x ∈ l) as Hx by (rewrite Hp, Ei; set_solver). apply Hl in Hx as (_ & Hv & Hr).
    assert (ai_seen ai = filter (fun kv => str_le (Key kv) (Key x)) l) as ->.
    { rewrite Hp, Ei. symmetry. apply prefix_filter. rewrite <- Ei, <- Hp. apply Hl. }
    apply is_result_upto with (s := ai_start ai) (e := ai_end ai); try done.
    + intros E. by rewrite E, Hne in Hv by (by apply Hn).
    + cbn. unfold ai_endKey. by rewrite Ex, Ei, last_snoc.
Qed.

Lemma seen_nil_endKey v a ai :
  keys_nonempty v -> names_ok a -> seen_ok v a -> ai ∈ a_itrs a -> ai_exhausted ai = false ->
  ai_seen ai = [] <-> ai_endKey ai = "".
Proof.
  intros Hne Hn Hs Hai Ex. unfold ai_endKey. rewrite Ex. split; [by intros ->|].
  destruct (last (ai_seen ai)) as [x|] eqn:El; [|by apply last_None in El].
  intros E. destruct (Hs ai Hai) as (l & Hl & Hp & _). apply last_Some in El as [init Ei].
  assert (x ∈ l) as Hx by (destruct Hp as [tl ->]; rewrite Ei; set_solver).
  apply Hl in Hx as (_ & Hv & _). by rewrite E, Hne in Hv by (by apply Hn).
Qed.

Lemma same_key_same_seen v a ai ai2 :
  keys_nonempty v -> names_ok a -> seen_ok v a -> ai ∈ a_itrs a -> ai2 ∈ a_itrs a ->
  ai_ns ai2 = ai_ns ai -> rqi_key (ai_info ai2) = rqi_key (ai_info ai) -> ai_seen ai2 = ai_seen ai.
Proof.
  intros Hne Hn Hs Ha1 Ha2 Hns. unfold rqi_key. cbn. intros [= Es Ee Ex].
  assert (forall l, is_result v (ai_ns ai) (ai_info ai2) l -> is_result v (ai_ns ai) (ai_info ai) l) as Hres.
  { intros l (l0 & Hl0 & Hl). exists l0. cbn in *. by rewrite <- Es, <- Ee, <- Ex. }
  destruct (ai_exhausted ai) eqn:Ea.
  - eapply is_result_unique; [apply Hres; rewrite <- Hns|].
    + apply (seen_result v a); auto.
    + apply (seen_result v a); auto.
  - pose proof (seen_nil_endKey v a ai Hne Hn Hs Ha1 Ea) as N1.
    pose proof (seen_nil_endKey v a ai2 Hne Hn Hs Ha2 Ex) as N2. rewrite Ee in N2.
    destruct (decide (ai_endKey ai = "")) as [E|E].
    + rewrite (proj2 N1 E). by apply N2.
    + eapply is_result_unique; [apply Hres; rewrite <- Hns|]; apply (seen_result v a); auto; right; tauto.
Qed.

(** The recorded results are those of the query now, so the values are. *)
Lemma kv_read_same v0 v1 ns (l0 l1 : list VersionedKV) :
  ns_ok ns -> version_determines v0 v1 ->
  (forall kv, kv ∈ l0 -> Namespace kv = ns /\ v0 ns (Key kv) = Some (VV kv)) ->
  (forall kv, kv ∈ l1 -> Namespace kv = ns /\ v1 ns (Key kv) = Some (VV kv)) ->
  kv_read <$> l0 = kv_read <$> l1 -> l0 = l1.
Proof.
  intros Hns Hvd. revert l1. induction l0 as [|x l0 IH]; intros [|y l1] H0' H1' E; try done.
  injection E as Ek Eb Et E. f_equal.
  - destruct (H0' x) as [Nx Vx]; [left|]. destruct (H1' y) as [Ny Vy]; [left|].
    assert (Version (VV x) = Version (VV y)) as Ev.
    { destruct (Version (VV x)), (Version (VV y)). cbn in *. congruence. }
    destruct x as [xn xk xv], y as [yn yk yv]. cbn in *. subst yk xn yn.
    assert (v0 ns xk = v1 ns xk) as Hv by (apply Hvd; [done|]; rewrite Vx, Vy; cbn; congruence). congruence.
  - apply IH; [intros; apply H0'; by right|intros; apply H1'; by right|done].
Qed.

Lemma is_result_elem v ns q l kv :
  is_result v ns q l -> kv ∈ l -> Namespace kv = ns /\ v ns (Key kv) = Some (VV kv).
Proof.
  intros (l0 & [_ Hl0] & ->) [Hkv|Hkv]%elem_of_app; [apply Hl0 in Hkv; naive_solver|].
  destruct (negb _); [|by apply elem_of_nil in Hkv].
  destruct (v ns (EndKey q)) as [vv|] eqn:E; [|by apply elem_of_nil in Hkv].
  apply list_elem_of_singleton in Hkv as ->. done.
Qed.

Lemma records_info seen s inm l :
  reads_info seen = ReadsMerkleHashes inm -> GetReadsMerkleHashes s = Some inm -> records s l ->
  summary_of helper0 seen = summary_of helper0 l.
Proof.
  unfold reads_info, records. intros Hi ->. destruct (summary_of helper0 seen) as [s0|] eqn:E.
  - injection Hi as ->. intros (h & Eh & Es).
    destruct (Done_results seen) as (res & _ & Hd). rewrite E in Hd. destruct Hd as [_ Hd].
    unfold hash_init in Eh. rewrite Hd in Eh. injection Eh as <-. by rewrite <- Es.
  - by destruct seen.
Qed.

Lemma arun_names {R} vk v (p : prog R) a a' r :
  prog_ok p -> arun vk v p a a' r -> names_ok a -> names_ok a'.
Proof.
  intros Hp Hr. induction Hr as [|ns key k a a' r _ IH|ns key value k a a' r _ _ IH|ns s e k a a' r _ IH
    |i ai l k a a' r Hi _ _ IH]; intros Hn; cbn in Hp; try done.
  - destruct Hp as [Hns Hp]. apply IH; [apply Hp|]. split; [apply Hn|]. cbn.
    intros ns' [n E]. unfold AddToReadSet in E. rewrite lookup_insert in E.
    case_decide; [by subst|]. apply Hn. eauto.
  - destruct Hp as [Hns Hp]. apply IH; [apply Hp|]. split; [apply Hn|]. cbn.
    intros ns' [n E]. unfold AddToWriteSet in E. rewrite lookup_insert in E.
    case_decide; [by subst|]. apply Hn. eauto.
  - destruct Hp as [Hns Hp]. apply IH; [apply Hp|]. split; [|apply Hn]. cbn.
    intros ai. rewrite elem_of_app, list_elem_of_singleton. intros [Hai| ->]; [by apply Hn|done].
  - apply IH; [apply Hp|]. split; [|apply Hn]. cbn. intros aj [j Hj]%list_elem_of_lookup.
    apply list_lookup_insert_Some in Hj as [(_ & <- & _)|[_ Hj]].
    + assert (ai_ns (ai_advance ai (l !! length (ai_seen ai))) = ai_ns ai) as -> by (by destruct (l !! _)).
      apply Hn. by eapply list_elem_of_lookup_2.
    + apply Hn. by eapply list_elem_of_lookup_2.
Qed.

(** Everything a successful run leaves behind. *)
Record run_facts (v : view_t) (a : astate) : Prop := {
  rf_rec : recorded v (a_builder a);
  rf_seen : seen_ok v a;
  rf_names : names_ok a
}.

Lemma arun_facts {R} vk v (p : prog R) a r :
  has_scans v -> prog_ok p -> arun vk v p a_init a r -> run_facts v a.
Proof.
  intros Hv Hp Ha. split.
  - eapply arun_recorded; [done|apply recorded_init].
  - eapply arun_seen_ok; [done..|]. intros ai Hai. by apply elem_of_nil in Hai.
  - eapply arun_names; [done..|]. split; [intros ai Hai; by apply elem_of_nil in Hai|].
    intros ns [n E]. done.
Qed.

(** The read-write set as it comes back from the bytes. *)
Definition norm_rw (rw : TxRwSet) : TxRwSet :=
  (fun ns => mkNsRwSet (NameSpace ns) (norm_kvrwset (KvRwSet ns))) <$> rw.

Lemma final_names a s :
  names_ok a -> s ∈ GetTxReadWriteSet (a_final a) -> ns_ok (NameSpace s).
Proof.
  intros Hn (n & E & _)%elem_of_GetTxReadWriteSet.
  assert (forall ais b ns, (forall ai, ai ∈ ais -> ns_ok (ai_ns ai)) ->
    (forall ns, is_Some (b !! ns) -> ns_ok ns) -> is_Some (file_ranges b ais !! ns) -> ns_ok ns) as Hf.
  { clear. induction ais as [|ai ais IH]; intros b ns Ha Hb Hs; [by apply Hb|].
    cbn in Hs. apply IH in Hs; [done|intros; apply Ha; by right|].
    intros ns' [n E]. unfold AddToRangeQuerySet in E. rewrite lookup_insert in E.
    case_decide; [subst; apply Ha; left|]. apply Hb. eauto. }
  eapply Hf; [apply Hn|apply Hn|eauto].
Qed.

Lemma validated_itr v0 v1 a ai :
  keys_nonempty v0 -> version_determines v0 v1 -> has_scans v1 ->
  run_facts v0 a -> no_collision v0 v1 (norm_rw (GetTxReadWriteSet (a_final a))) ->
  (forall s q, s ∈ norm_rw (GetTxReadWriteSet (a_final a)) -> q ∈ RangeQueriesInfo (KvRwSet s) ->
     query_current v1 (NameSpace s) q) ->
  ai ∈ a_itrs a -> ai_exhausted ai = true \/ ai_seen ai <> [] ->
  is_result v1 (ai_ns ai) (ai_info ai) (ai_seen ai).
Proof.
  intros Hne Hvd Hsc [[Hok Hrd Hrg] Hs Hn] Hnc Hcur Hai Hc.
  destruct (file_ranges_range (a_builder a) (a_itrs a) ai) with (todo := a_itrs a)
    as (ai2 & Hai2 & Hns & Hkey & Hrange); [intros ns k; left; apply Hrg|done..|].
  pose proof (same_key_same_seen v0 a ai ai2 Hne Hn Hs Hai Hai2 Hns Hkey) as Hseen.
  assert (ai_info ai2 = ai_info ai) as Hinfo.
  { unfold rqi_key in Hkey. cbn in Hkey. injection Hkey as E1 E2 E3. unfold ai_info. congruence. }
  rewrite Hinfo in Hrange.
  assert (exists s, s ∈ norm_rw (GetTxReadWriteSet (a_final a)) /\ NameSpace s = ai_ns ai /\
    ai_info ai ∈ RangeQueriesInfo (KvRwSet s)) as (s & Hsin & Hsn & Hq).
  { apply rwset_range in Hrange as (s & Hsin & Hsn & Hq); [|by apply file_ranges_ok].
    exists (mkNsRwSet (NameSpace s) (norm_kvrwset (KvRwSet s))). split; [|done].
    apply list_elem_of_fmap. eauto. }
  destruct (Hcur s _ Hsin Hq) as (l1 & Hl1 & Hrec). rewrite Hsn in Hl1.
  pose proof (seen_result v0 a ai Hne Hn Hs Hai Hc) as Hres0.
  enough (ai_seen ai = l1) as -> by done.
  destruct (reads_info (ai_seen ai)) as [|raw|inm] eqn:Ei.
  - unfold records, GetReadsMerkleHashes, GetRawReads in Hrec. cbn in Hrec. rewrite Ei in Hrec.
    unfold reads_info in Ei. destruct (summary_of _ _); [done|]. destruct (ai_seen ai); [|done].
    symmetry in Hrec. by apply fmap_nil_inv in Hrec as ->.
  - unfold records, GetReadsMerkleHashes, GetRawReads in Hrec. cbn in Hrec. rewrite Ei in Hrec.
    unfold reads_info in Ei. destruct (summary_of _ _); [done|].
    assert (raw = kv_read <$> ai_seen ai) as -> by (destruct (ai_seen ai); congruence).
    eapply (kv_read_same v0 v1 (ai_ns ai)); [by apply Hn|done| | |done]; intros kv Hkv;
      by eapply is_result_elem.
  - eapply (Hnc s (ai_info ai)); try done; try (by rewrite Hsn).
    + unfold GetReadsMerkleHashes. cbn. by rewrite Ei.
    + eapply (records_info _ (ai_info ai)); [done| |done].
      unfold GetReadsMerkleHashes. cbn. by rewrite Ei.
Qed.

Lemma validated_agree v0 v a updates :
  let v1 := overlay updates v in
  keys_nonempty v0 -> version_determines v0 v1 -> has_scans v1 ->
  run_facts v0 a -> no_collision v0 v1 (norm_rw (GetTxReadWriteSet (a_final a))) ->
  tx_current v updates (norm_rw (GetTxReadWriteSet (a_final a))) ->
  agree v0 v1 a.
Proof.
  intros v1 Hne Hvd Hsc Hf Hnc Hcur. destruct Hf as [[Hok Hrd Hrg] Hs Hn] eqn:E; clear E. split.
  - intros ns key [r Hr]. pose proof Hr as Hr0.
    assert (ns_ok ns) as Hns.
    { apply (no_builder _ Hn). unfold read_of in Hr. destruct (a_builder a !! ns); [eauto|done]. }
    rewrite <- (file_ranges_read _ (a_itrs a)) in Hr.
    pose proof (reads_filed _ Hok _ _ _ Hr0) as Hk. rewrite <- Hk in Hr.
    apply rwset_read in Hr as (s & Hsin & Hsn & Hrin); [|by apply file_ranges_ok].
    destruct (Hcur (mkNsRwSet (NameSpace s) (norm_kvrwset (KvRwSet s)))) as [Hcr _].
    { apply list_elem_of_fmap. eauto. }
    destruct (Hcr r Hrin) as [Hg Hv]. cbn in Hg, Hv. rewrite Hk, Hsn in Hg, Hv.
    apply Hvd; [done|]. unfold v1, overlay. rewrite Hg, Hv.
    rewrite (Hrd _ _ _ Hr0). unfold NewKVRead. cbn. by rewrite NewVersion_newProtoVersion.
  - intros ai Hai. destruct (Hsc (ai_ns ai) (ai_start ai) (ai_end ai)) as [l Hl]; [by apply Hn|].
    assert (ai_exhausted ai = true \/ ai_seen ai <> [] -> is_result v1 (ai_ns ai) (ai_info ai) (ai_seen ai)) as Hres.
    { intros Hc. apply (validated_itr v0 v1 a); try done. intros s q Hsin Hq.
      by apply (proj2 (Hcur s Hsin)). }
    exists l. split; [done|]. destruct (ai_exhausted ai) eqn:Ex.
    + destruct Hres as (l0 & Hl0 & El); [by left|]. cbn in Hl0, El. rewrite Ex in El. unfold ai_endKey in Hl0.
      rewrite Ex in Hl0. cbn in El. rewrite app_nil_r in El. rewrite El.
      by rewrite (is_scan_unique _ _ _ _ _ _ Hl0 Hl).
    + split; [|done]. destruct (decide (ai_seen ai = [])) as [->|Hseen]; [apply prefix_nil|].
      destruct (last (ai_seen ai)) as [x|] eqn:El; [|by apply last_None in El].
      destruct (Hs ai Hai) as (l0 & Hl0 & [tl Hp] & _). apply last_Some in El as [init Ei].
      assert (x ∈ l0) as Hx by (rewrite Hp, Ei; set_solver). apply Hl0 in Hx as (_ & Hv & Hr).
      assert (is_result v1 (ai_ns ai) (ai_info ai) (filter (fun kv => str_le (Key kv) (Key x)) l)) as Hup.
      { apply is_result_upto with (s := ai_start ai) (e := ai_end ai); try done.
        - intros E. by rewrite E, Hne in Hv by (by apply Hn).
        - cbn. unfold ai_endKey. by rewrite Ex, Ei, last_snoc. }
      rewrite (is_result_unique _ _ _ _ _ (Hres (or_intror Hseen)) Hup). apply (filter_prefix kv_lt); [apply Hl|].
      intros a1 a2 H12 Hle. apply str_lt_le in H12. by etrans.
Qed.

Lemma agree_ext v0 v1 v2 a :
  (forall ns k, ns_ok ns -> v2 ns k = v1 ns k) -> names_ok a -> agree v0 v1 a -> agree v0 v2 a.
Proof.
  intros He Hn [Hr Hi]. split.
  - intros ns key Hk. rewrite He; [by apply Hr|]. apply (no_builder _ Hn).
    destruct Hk as [r Hk]. unfold read_of in Hk. destruct (a_builder a !! ns); [eauto|done].
  - intros ai Hai. destruct (Hi ai Hai) as (l & Hl & Hp). exists l. split; [|done].
    eapply is_scan_ext; [|done]. intros k. symmetry. apply He. by apply Hn.
Qed.

Lemma FromProtoBytes_final a b rw :
  ToProtoBytes (GetTxReadWriteSet (a_final a)) = Ok b -> FromProtoBytes b = Ok rw ->
  rw = norm_rw (GetTxReadWriteSet (a_final a)).
Proof.
  intros Eb Er. destruct (ToProtoBytes_spec (GetTxReadWriteSet (a_final a))) as (b' & Eb' & Ef).
  rewrite Eb in Eb'. injection Eb' as <-. rewrite Er in Ef. by injection Ef.
Qed.

(** A transaction simulated on [db0] and found current on [v] with [updates]
    is repeated, byte for byte, on any database with that state. *)
Lemma current_repeats {R} db0 db2 v updates (p : prog R) r b rw :
  db_ok db0 -> db_ok db2 -> prog_ok p -> keys_nonempty (view db0) ->
  simulate db0 p = Ok (r, b) -> FromProtoBytes b = Ok rw ->
  tx_current v updates rw ->
  has_scans (overlay updates v) ->
  version_determines (view db0) (overlay updates v) ->
  no_collision (view db0) (overlay updates v) rw ->
  (forall ns k, ns_ok ns -> view db2 ns k = overlay updates v ns k) ->
  simulate db2 p = Ok (r, b).
Proof.
  intros Hdb0 Hdb2 Hp Hne Hsim Hrw Hcur Hsc Hvd Hnc He.
  destruct (simulate_arun db0 p r b Hdb0 Hp Hsim) as (a & Ha & Hb).
  pose proof (FromProtoBytes_final a b rw Hb Hrw) as ->.
  pose proof (arun_facts _ _ _ _ _ (view_has_scans _ Hdb0) Hp Ha) as Hf.
  assert (agree (view db0) (view db2) a) as Hag.
  { eapply agree_ext; [exact He|apply Hf|]. by apply validated_agree. }
  apply (arun_simulate db2 p a); [done|done| |done].
  apply (arun_agree _ (view db0)); [by apply view_has_scans|done|intros ai Hai; by apply elem_of_nil in Hai| |done].
  clear -Ha. assert (forall vk vk', (forall k, vk k = vk' k) -> forall v (p : prog R) a a' r,
    arun vk v p a a' r -> arun vk' v p a a' r) as Hvk.
  { intros vk vk' Hk v0 q a1 a2 r0. induction 1; econstructor; eauto. by rewrite <- Hk. }
  eapply Hvk; [|exact Ha]. intros k. apply ValidateKey_spec.
Qed.

(** The namespaces of a simulated read-write set. *)
Lemma simulated_names {R} db0 (p : prog R) r b rw s :
  db_ok db0 -> prog_ok p -> simulate db0 p = Ok (r, b) -> FromProtoBytes b = Ok rw ->
  s ∈ rw -> ns_ok (NameSpace s).
Proof.
  intros Hdb Hp Hsim Hrw Hs. destruct (simulate_arun db0 p r b Hdb Hp Hsim) as (a & Ha & Hb).
  pose proof (FromProtoBytes_final a b rw Hb Hrw) as ->.
  pose proof (arun_facts _ _ _ _ _ (view_has_scans _ Hdb) Hp Ha) as Hf.
  apply list_elem_of_fmap in Hs as (s0 & -> & Hs0). cbn. eapply final_names; [apply Hf|done].
Qed.

End Repeatable.
End Simulation.

(** ** The chain of states *)

Module Chain.
Import Simulation Flags Validator.

Section Chain.
Context {DB : Type} `{VersionedDBSpec DB}.

(** The values of [b] were written by block [n]. *)
Definition batch_at (n : Z) (b : UpdateBatch) : Prop :=
  forall ns k vv, Batch.Get b ns k = Some vv -> BlockNum (Version vv) = n.

(** The values of [db] were written by block [n] at the latest. *)
Definition written_by (n : Z) (db : DB) : Prop :=
  forall ns k vv, ns_ok ns -> view db ns k = Some vv -> (BlockNum (Version vv) <= n)%Z.

(** [later n0 db0 n1 db1]: [db1] is the state after block [n1] on the chain
    where [db0] is the state after block [n0]. *)
Inductive later (n0 : Z) (db0 : DB) : Z -> DB -> Prop :=
| later_refl : later n0 db0 n0 db0
| later_block n1 db1 b h db2 :
    later n0 db0 n1 db1 -> batch_ok b -> batch_at (n1 + 1) b -> height_ok h ->
    ApplyUpdates db1 b h = Ok db2 -> later n0 db0 (n1 + 1) db2.

Lemma later_ok n0 db0 n1 db1 : later n0 db0 n1 db1 -> db_ok db0 -> db_ok db1 /\ (n0 <= n1)%Z.
Proof.
  intros Hl Hdb. induction Hl as [|n1 db1 b h db2 Hl [IH Hn] Hb Hat Hh E]; [done|].
  destruct (ApplyUpdates_spec db1 b h IH Hb Hh) as (db' & E' & Hok & _).
  rewrite E in E'. injection E' as <-. split; [done|lia].
Qed.

(** Where the value has changed, the version is newer. *)
Definition changed_after (n : Z) (v0 v1 : view_t) : Prop :=
  forall ns k, ns_ok ns ->
    v1 ns k = v0 ns k \/ match v1 ns k with Some vv => (n < BlockNum (Version vv))%Z | None => True end.

Lemma changed_after_overlay n n1 v0 v1 b :
  changed_after n v0 v1 -> (n < n1)%Z -> batch_at n1 b -> changed_after n v0 (overlay b v1).
Proof.
  intros Hc Hn Hb ns k Hns. unfold overlay. destruct (Batch.Get b ns k) as [vv|] eqn:E; [|by apply Hc].
  right. unfold live. destruct (Value vv); [|done]. rewrite (Hb _ _ _ E). done.
Qed.

Lemma later_changed n0 db0 n1 db1 :
  db_ok db0 -> later n0 db0 n1 db1 -> changed_after n0 (view db0) (view db1).
Proof.
  intros Hdb Hl. induction Hl as [|n1 db1 b h db2 Hl IH Hb Hat Hh E]; [by left|].
  destruct (later_ok _ _ _ _ Hl Hdb) as [Hok Hn].
  destruct (ApplyUpdates_spec db1 b h Hok Hb Hh) as (db' & E' & _ & _ & Hv).
  rewrite E in E'. injection E' as <-. intros ns k Hns. rewrite Hv by done.
  by apply (changed_after_overlay n0 (n1 + 1) _ _ b IH); [lia| |].
Qed.

(** On one chain a version determines the value. *)
Lemma changed_version_determines n0 db0 v1 :
  written_by n0 db0 -> changed_after n0 (view db0) v1 -> version_determines (view db0) v1.
Proof.
  intros Hw Hc ns k Hns E. destruct (Hc ns k Hns) as [->|Hch]; [done|].
  destruct (v1 ns k) as [vv1|]; destruct (view db0 ns k) as [vv0|] eqn:E0; try done.
  injection E as E. pose proof (Hw ns k vv0 Hns E0). rewrite E in *. lia.
Qed.

End Chain.

Section Block.
Context `{Hashing} `{RWSetCodec} `{ProtoCodec}.

Lemma addWriteSetToBatch_at rw n i u u' :
  batch_at n u -> addWriteSetToBatch rw (NewHeight n i) u = Ok u' -> batch_at n u'.
Proof.
  intros Hu E. eapply (addWriteSetToBatch_ind (batch_at n)); [|exact E|done].
  intros s w b b' _ _ Ea Hb ns k vv Hg.
  destruct (add_write_Get _ _ _ _ _ ns k Ea) as [[Eg _]|(_ & _ & val & Eg)]; rewrite Eg in Hg.
  - by eapply Hb.
  - by injection Hg as <-.
Qed.

Lemma block_outcome_at cur number i data f u f' u' :
  block_outcome cur number i data f u f' u' -> batch_at number u -> batch_at number u'.
Proof.
  induction 1 as [|i env data f u f1 u1 f' u' Ht Hb IH]; [done|]. intros Hu. apply IH.
  destruct Ht as [| | | |b rw u1 _ _ _ _ _ Ea]; try done. by eapply addWriteSetToBatch_at.
Qed.

Lemma addWriteSetToBatch_batch_ok rw h u u' :
  batch_ok u -> height_ok h -> (forall s, s ∈ rw -> ns_ok (NameSpace s)) ->
  addWriteSetToBatch rw h u = Ok u' -> batch_ok u'.
Proof.
  intros Hu Hh Hn E. eapply (addWriteSetToBatch_ind batch_ok); [|exact E|done].
  intros s w b b' Hs _ Ea Hb. unfold add_write in Ea. destruct (kvw_IsDelete w).
  - injection Ea as <-. apply batch_insert_ok; auto.
  - destruct (kvw_Value w); [|done]. injection Ea as <-. apply batch_insert_ok; auto.
Qed.

Lemma block_outcome_batch_ok cur number i data f u f' u' :
  block_outcome cur number i data f u f' u' -> batch_ok u -> u64 number ->
  u64 (Z.of_nat (i + length data)) ->
  (forall env rw s, env ∈ data -> rwset_of env = Ok rw -> s ∈ rw -> ns_ok (NameSpace s)) ->
  batch_ok u'.
Proof.
  induction 1 as [|i env data f u f1 u1 f' u' Ht Hb IH]; [done|]. intros Hu Hnum Hi Hn. cbn in Hi.
  apply IH; [|done| |].
  - destruct Ht as [| | | |b rw u1 _ _ _ Er _ Ea]; try done.
    eapply addWriteSetToBatch_batch_ok; [exact Hu| | |exact Ea].
    + split; [done|]. unfold u64 in *. cbn. lia.
    + intros s Hs. eapply Hn; [left|done|done].
  - unfold u64 in *. lia.
  - intros env' rw s He. apply Hn. by right.
Qed.

(** The state after the transactions of [data] whose flag says valid, taken one
    after the other from the state [v]. *)
Fixpoint serial_view (v : view_t) (number : Z) (flags : bytes) (i : nat) (data : list bytes) : view_t :=
  match data with
  | [] => v
  | env :: data' =>
      let v' :=
        match flags !! i, envelope_type env, rwset_of env with
        | Some b, Ok ENDORSER_TRANSACTION, Ok rw =>
            if Z.eqb (byte_val b) 0 then commit_view rw (NewHeight number (Z.of_nat i)) v else v
        | _, _, _ => v
        end in
      serial_view v' number flags (S i) data'
  end.

Lemma serial_view_proper v1 v2 number flags i data :
  view_eq v1 v2 -> view_eq (serial_view v1 number flags i data) (serial_view v2 number flags i data).
Proof.
  revert v1 v2 i. induction data as [|env data IH]; intros v1 v2 i Hv; [done|]. cbn. apply IH.
  destruct (flags !! i) as [b|]; [|done]. destruct (envelope_type env) as [[]| | |]; try done.
  destruct (rwset_of env); try done. destruct (_ =? _)%Z; [|done]. by rewrite Hv.
Qed.

(** Only the flags of [data] count. *)
Lemma serial_view_flags v number f1 f2 i data :
  (forall k, i <= k < i + length data -> f1 !! k = f2 !! k) ->
  serial_view v number f1 i data = serial_view v number f2 i data.
Proof.
  revert v i. induction data as [|env data IH]; intros v i Hf; [done|]. cbn.
  rewrite (Hf i) by (cbn; lia). apply IH. intros k Hk. apply Hf. cbn. lia.
Qed.

Lemma tx_outcome_serial cur number i env f u f1 u1 v :
  tx_outcome cur number i env f u f1 u1 ->
  view_eq (overlay u1 v)
    (match f1 !! i, envelope_type env, rwset_of env with
     | Some b, Ok ENDORSER_TRANSACTION, Ok rw =>
         if Z.eqb (byte_val b) 0 then commit_view rw (NewHeight number (Z.of_nat i)) (overlay u v)
         else overlay u v
     | _, _, _ => overlay u v
     end).
Proof.
  destruct 1 as [b E Hb|b t E Hb Et Hne|b c e E Hb Et Er Hc|b c rw E Hb Et Er Hcur Hc|b rw u' E Hb Et Er Hcur Ea].
  - rewrite E. destruct (envelope_type env) as [[]| | |]; try done. destruct (rwset_of env); try done.
    by destruct (Z.eqb_spec (byte_val b) 0).
  - rewrite E, Et. by destruct t.
  - rewrite Et, Er. by destruct (<[i:=uint8 c]> f !! i).
  - rewrite list_lookup_insert_eq by (by eapply lookup_lt_Some). rewrite Et, Er.
    destruct (Z.eqb_spec (byte_val (uint8 c)) 0) as [Hz|]; [|done].
    exfalso. revert Hz. apply uint8_codes. set_solver.
  - rewrite list_lookup_insert_eq by (by eapply lookup_lt_Some). rewrite Et, Er.
    change (byte_val (uint8 TxValidationCode_VALID) =? 0)%Z with true. cbv iota.
    by apply addWriteSetToBatch_overlay.
Qed.

Lemma block_outcome_serial cur number i data f u f' u' v :
  block_outcome cur number i data f u f' u' ->
  view_eq (overlay u' v) (serial_view (overlay u v) number f' i data).
Proof.
  induction 1 as [|i env data f u f1 u1 f' u' Ht Hb IH]; [done|]. cbn. rewrite IH.
  apply serial_view_proper. rewrite (tx_outcome_serial _ _ _ _ _ _ _ _ v Ht).
  apply block_outcome_flags in Hb as (_ & _ & Hk). by rewrite (Hk i) by lia.
Qed.

End Block.
End Chain.

(** ** Theorems *)

Module SerializabilityTheorems.
Import QueryHelper Flags Validator TxMgr Simulation Chain ValidatorTheorems.

Lemma is_result_ext v1 v2 ns q l :
  (forall k, v1 ns k = v2 ns k) -> is_result v1 ns q l -> is_result v2 ns q l.
Proof.
  intros Hv (l0 & Hl & ->). exists l0. split; [by eapply is_scan_ext|]. by rewrite Hv.
Qed.

(** The transaction before which the block's state was [overlay u0 v]. *)
Lemma valid_tx_step {DB : Type} `{VersionedDB DB} `{Hashing} `{RWSetCodec} `{ProtoCodec}
    (db : DB) block block' u j rw flags v :
  ValidateAndPrepareBatch db block true = (block', Ok u) -> valid_tx block' j rw ->
  blk_Metadata block' !! TRANSACTIONS_FILTER = Some flags ->
  exists u0, validateTx db rw u0 = Ok TxValidationCode_VALID /\
    batch_at (Number (blk_Header block)) u0 /\
    view_eq (overlay u0 v)
      (serial_view v (Number (blk_Header block)) flags 0 (take j (blk_Data block))).
Proof.
  intros E (env & fl & b & Ed & Et & Er & Ef & Fj & Bj) Ef'. rewrite Ef in Ef'. injection Ef' as ->.
  apply ValidateAndPrepareBatch_outcome in E as (f & f' & -> & Hmd & Hb).
  rewrite set_filter_lookup in Ef by done. injection Ef as ->. cbn in Ed.
  destruct (block_outcome_step _ _ _ _ _ _ _ _ j env Hb Ed) as (f0 & u0 & f1 & u1 & Hpre & Ht & Hfj & Hpost).
  cbn [Nat.add] in *. rewrite Fj in Hfj.
  destruct (valid_outcome _ _ _ _ _ _ _ _ _ _ Ht Hfj Bj Et Er) as [Hcur _].
  exists u0. split; [done|]. split; [by eapply block_outcome_at|].
  rewrite (block_outcome_serial _ _ _ _ _ _ _ _ v Hpre). cbn.
  rewrite (serial_view_flags v _ f0 flags 0); [done|].
  intros k Hk. rewrite length_take in Hk.
  apply tx_outcome_flags in Ht as (_ & _ & Hk0). apply block_outcome_flags in Hpost as (_ & _ & Hk1).
  rewrite Hk1 by lia. symmetry. apply Hk0. lia.
Qed.

(** C1: Serializability.  Let a chaincode be simulated on the state [db0] of a
    chain, and its results be a transaction of a later block.  If validation
    flags the transaction valid, then simulating the chaincode again on the
    state in which it is committed (the state of the block before, with the
    writes of the valid transactions ahead of it in the block applied one by
    one) gives the same response and, byte for byte, the same read-write set.
    The hash is assumed not to confuse the results a range query had with
    those it has now. *)
Theorem block_serializable {DB : Type} `{VersionedDBSpec DB} `{HashingSpec} `{RWSetCodecSpec} `{ProtoCodec}
    {R : Type} n0 (db0 : DB) n1 db1 block block' u flags j (p : prog R) r b rw db2 :
  db_ok db0 -> written_by n0 db0 -> keys_nonempty (view db0) -> later n0 db0 n1 db1 ->
  prog_ok p -> simulate db0 p = Ok (r, b) -> FromProtoBytes b = Ok rw ->
  Number (blk_Header block) = (n1 + 1)%Z ->
  ValidateAndPrepareBatch db1 block true = (block', Ok u) -> valid_tx block' j rw ->
  blk_Metadata block' !! TRANSACTIONS_FILTER = Some flags ->
  let v := serial_view (view db1) (n1 + 1) flags 0 (take j (blk_Data block)) in
  no_collision (view db0) v rw ->
  db_ok db2 -> (forall ns k, ns_ok ns -> view db2 ns k = v ns k) ->
  simulate db2 p = Ok (r, b).
Proof.
  intros Hdb0 Hw Hne Hl Hp Hsim Hrw Hnum E Hv Ef v Hnc Hdb2 He.
  destruct (later_ok _ _ _ _ Hl Hdb0) as [Hdb1 Hn].
  destruct (valid_tx_step _ _ _ _ _ _ _ (view db1) E Hv Ef) as (u0 & Hcur & Hat & Hserial).
  rewrite Hnum in Hat, Hserial. change (view_eq (overlay u0 (view db1)) v) in Hserial.
  apply (current_repeats db0 db2 (view db1) u0 p r b rw); try done.
  - apply (validateTx_sound db1); [done| |done]. intros s. by apply (simulated_names db0 p r b).
  - by apply overlay_has_scans.
  - apply (changed_version_determines n0); [done|].
    apply (changed_after_overlay n0 (n1 + 1)); [by apply (later_changed n0 db0 n1)|lia|done].
  - intros s q l0 l1 Hs Hq Hm H0' H1'. apply (Hnc s q l0 l1 Hs Hq Hm H0').
    eapply is_result_ext; [|exact H1']. intros k. apply Hserial.
  - intros ns k Hns. rewrite He by done. symmetry. apply Hserial.
Qed.

(** *** A chain, a chaincode and a block *)

Definition w_prog : prog (option bytes * list (option KV)) :=
  PGet "cc" "a" (fun va =>
  PRange "cc" "b" "z" (fun i =>
  PNext i (fun r1 =>
  PNext i (fun r2 =>
  PSet "cc" "e" va (PRet (va, [r1; r2])))))).

Definition w_results : (option bytes * list (option KV)) * bytes :=
  match simulate RangeQueryTheorems.w_db w_prog with Ok rb => rb | _ => (None, [], []) end.

Definition w_simulated : TxRwSet :=
  match FromProtoBytes (snd w_results) with Ok rw => rw | _ => [] end.

Definition w_block2 : Block :=
  mkBlock (mkBlockHeader 2 [] [])
    [rwset_tx "t0" (w_write "q" []); mk_endorser_tx "t1" (snd w_results)] [[]; []; []].

Definition w_flagged2 : Block := fst (ValidateAndPrepareBatch RangeQueryTheorems.w_db w_block2 true).

Definition w_db2 : mem_db :=
  apply_batch RangeQueryTheorems.w_db (batch_of [("cc", "q", Some (to_bytes "x"), NewHeight 2 0)])
    (NewHeight 2 0).

Lemma ok_value {A} (r : res A) d : is_ok r -> r = Ok (match r with Ok a => a | _ => d end).
Proof. by destruct r. Qed.

Definition no_merkle (rw : TxRwSet) : bool :=
  forallb (fun s => forallb (fun q => match GetReadsMerkleHashes q with None => true | _ => false end)
    (RangeQueriesInfo (KvRwSet s))) rw.

Lemma no_merkle_no_collision `{Hashing} v0 v1 rw : no_merkle rw = true -> no_collision v0 v1 rw.
Proof.
  intros Hm s q l0 l1 Hs Hq [x Hx] _ _ _. exfalso. unfold no_merkle in Hm.
  rewrite forallb_forall in Hm. apply list_elem_of_In in Hs. specialize (Hm s Hs).
  rewrite forallb_forall in Hm. apply list_elem_of_In in Hq. specialize (Hm q Hq). by rewrite Hx in Hm.
Qed.

Lemma serial_view_one `{RWSetCodec} `{ProtoCodec} v n flags env b rw :
  flags !! 0 = Some b -> byte_val b = 0%Z -> envelope_type env = Ok ENDORSER_TRANSACTION ->
  rwset_of env = Ok rw -> serial_view v n flags 0 [env] = commit_view rw (NewHeight n 0) v.
Proof. intros Ef Hb Et Er. cbn [serial_view]. by rewrite Ef, Et, Er, Hb. Qed.

Lemma w_db_ok : db_ok RangeQueryTheorems.w_db.
Proof. apply demo_db_ok. by vm_compute. Qed.

Lemma w_db_written : written_by 1 RangeQueryTheorems.w_db.
Proof.
  intros ns k vv Hns Hv. apply demo_db_entry in Hv as [v Hin]; [|by vm_compute|done].
  repeat (apply elem_of_cons in Hin as [[= _ _ _ ->]|Hin]; [done|]). by apply elem_of_nil in Hin.
Qed.

Lemma w_db_nonempty : keys_nonempty (view RangeQueryTheorems.w_db).
Proof.
  intros ns Hns. destruct (view _ ns "") as [vv|] eqn:Hv; [|done]. exfalso.
  apply demo_db_entry in Hv as [v Hin]; [|by vm_compute|done].
  repeat (apply elem_of_cons in Hin as [Hin|Hin]; [congruence|]). by apply elem_of_nil in Hin.
Qed.

Lemma w_flagged2_ok :
  exists u, ValidateAndPrepareBatch RangeQueryTheorems.w_db w_block2 true = (w_flagged2, Ok u).
Proof. apply ok_pair. by vm_compute. Qed.

Lemma w_simulate :
  simulate RangeQueryTheorems.w_db w_prog = Ok (fst w_results, snd w_results) /\
  FromProtoBytes (snd w_results) = Ok w_simulated.
Proof.
  split.
  - rewrite <- surjective_pairing. apply ok_value. by vm_compute.
  - apply ok_value. by vm_compute.
Qed.

Lemma w_db2_ok :
  db_ok w_db2 /\ forall ns k, ns_ok ns ->
    view w_db2 ns k =
    commit_view (w_write "q" []) (NewHeight 2 0) (view RangeQueryTheorems.w_db) ns k.
Proof.
  destruct (ApplyUpdates_spec RangeQueryTheorems.w_db
    (batch_of [("cc", "q", Some (to_bytes "x"), NewHeight 2 0)]) (NewHeight 2 0)) as (db' & E & Hok & _ & Hv).
  - apply w_db_ok.
  - apply batch_of_ok. apply (bool_decide_unpack _). by vm_compute.
  - apply (bool_decide_unpack _). by vm_compute.
  - unfold w_db2, apply_batch. rewrite E. split; [done|]. intros ns k Hns. rewrite Hv by done.
    assert (addWriteSetToBatch (w_write "q" []) (NewHeight 2 0) ∅ =
      Ok (batch_of [("cc", "q", Some (to_bytes "x"), NewHeight 2 0)])) as Ea by (by vm_compute).
    exact (addWriteSetToBatch_overlay _ _ _ _ (view RangeQueryTheorems.w_db) Ea ns k).
Qed.

Lemma block_serializable_witness :
  simulate w_db2 w_prog = Ok (fst w_results, snd w_results) /\
  snd (fst w_results) = [Some (mkKV "cc" "b" (Some (to_bytes "2"))); Some (mkKV "cc" "d" (Some (to_bytes "4")))].
Proof.
  split; [|by vm_compute].
  destruct w_flagged2_ok as [u E]. destruct w_simulate as [Es Er]. destruct w_db2_ok as [Hok Hv].
  assert (serial_view (view RangeQueryTheorems.w_db) (1 + 1) [uint8 0; uint8 0] 0 (take 1 (blk_Data w_block2)) =
    commit_view (w_write "q" []) (NewHeight 2 0) (view RangeQueryTheorems.w_db)) as Ev.
  { apply (serial_view_one _ _ _ _ (uint8 0)); [reflexivity|by vm_compute..]. }
  apply (block_serializable 1 RangeQueryTheorems.w_db 1 RangeQueryTheorems.w_db w_block2 w_flagged2 u
    [uint8 0; uint8 0] 1 w_prog (fst w_results) (snd w_results) w_simulated w_db2
    w_db_ok w_db_written w_db_nonempty (later_refl _ _)).
  - cbn. assert (ns_ok "cc") as Hns by (apply (bool_decide_unpack _); by vm_compute). auto 10.
  - exact Es.
  - exact Er.
  - reflexivity.
  - exact E.
  - eapply (valid_tx_intro _ _ _ _ _ _ _ (uint8 0) E); [reflexivity|by vm_compute..].
  - by vm_compute.
  - apply no_merkle_no_collision. by vm_compute.
  - exact Hok.
  - intros ns k Hns. rewrite Ev. by apply Hv.
Defined.

(** The commit of a validated block. *)
Lemma commit_serial {DB : Type} `{VersionedDBSpec DB} `{Hashing} `{RWSetCodec} `{ProtoCodec}
    (m : LockBasedTxMgr DB) block mvcc m1 block1 flags :
  db_ok (db m) -> u64 (Number (blk_Header block)) -> u64 (Z.of_nat (length (blk_Data block))) ->
  (forall env rw s, env ∈ blk_Data block -> rwset_of env = Ok rw -> s ∈ rw -> ns_ok (NameSpace s)) ->
  ValidateAndPrepare m block mvcc = (m1, block1, Ok tt) ->
  blk_Metadata block1 !! TRANSACTIONS_FILTER = Some flags ->
  exists m2, Commit m1 = (m2, Ok tt) /\ db_ok (db m2) /\ batch m2 = None /\
    savepoint (db m2) = Some (NewHeight (Number (blk_Header block)) (last_tx_num block)) /\
    forall ns k, ns_ok ns ->
      view (db m2) ns k = serial_view (view (db m)) (Number (blk_Header block)) flags 0 (blk_Data block) ns k.
Proof.
  intros Hdb Hnum Hlen Hnames. unfold ValidateAndPrepare.
  destruct (ValidateAndPrepareBatch (db m) block mvcc) as [b1 [u| | |]] eqn:E; try done.
  intros [= <- <-] Ef. apply ValidateAndPrepareBatch_outcome in E as (f & f' & -> & Hmd & Hb).
  rewrite set_filter_lookup in Ef by done. injection Ef as ->.
  destruct (ApplyUpdates_spec (db m) u (NewHeight (Number (blk_Header block)) (last_tx_num block)) Hdb)
    as (db' & Ea & Hok & Hsp & Hview).
  - eapply block_outcome_batch_ok; [exact Hb|..]; try done.
    by split; [intros ns [? ?]|].
  - split; [done|]. apply wrap64_u64.
  - exists (mkTxMgr db' None (Some (set_filter block flags))). unfold Commit. cbn [batch currentBlock].
    change (last_tx_num (set_filter block flags)) with (last_tx_num block).
    change (blk_Header (set_filter block flags)) with (blk_Header block). cbn [TxMgr.db]. rewrite Ea.
    split; [done|]. split; [done|]. split; [done|]. split; [done|].
    intros ns k Hns. cbn [TxMgr.db]. rewrite Hview by done.
    apply (block_outcome_serial _ _ _ _ _ _ _ _ (view (db m)) Hb).
Qed.

(** C10: What committing a block does.  Once a block is validated, [Commit]
    succeeds; the state is then that of the valid transactions' writes, applied
    one transaction after the other to the state before; the save point is the
    block's number and its last transaction; and no batch is pending. *)
Theorem committed_serially {DB : Type} `{VersionedDBSpec DB} `{Hashing} `{RWSetCodec} `{ProtoCodec}
    (m : LockBasedTxMgr DB) block mvcc m1 block1 flags :
  db_ok (db m) -> u64 (Number (blk_Header block)) -> u64 (Z.of_nat (length (blk_Data block))) ->
  (forall env rw s, env ∈ blk_Data block -> rwset_of env = Ok rw -> s ∈ rw -> ns_ok (NameSpace s)) ->
  ValidateAndPrepare m block mvcc = (m1, block1, Ok tt) ->
  blk_Metadata block1 !! TRANSACTIONS_FILTER = Some flags ->
  exists m2, Commit m1 = (m2, Ok tt) /\ db_ok (db m2) /\ batch m2 = None /\
    savepoint (db m2) = Some (NewHeight (Number (blk_Header block)) (last_tx_num block)) /\
    forall ns k, ns_ok ns ->
      view (db m2) ns k = serial_view (view (db m)) (Number (blk_Header block)) flags 0 (blk_Data block) ns k.
Proof. apply commit_serial. Qed.

Lemma committed_serially_witness :
  exists m1 m2 k,
    ValidateAndPrepare (NewLockBasedTxMgr RangeQueryTheorems.w_db) w_block true = (m1, w_flagged, Ok tt) /\
    Commit m1 = (m2, Ok tt) /\ savepoint (db m2) = Some (NewHeight 2 k).
Proof.
  destruct w_flagged_ok as [u E].
  assert (ValidateAndPrepare (NewLockBasedTxMgr RangeQueryTheorems.w_db) w_block true
      = (mkTxMgr RangeQueryTheorems.w_db (Some u) (Some w_flagged), w_flagged, Ok tt)) as Ev.
  { unfold ValidateAndPrepare. cbn [db NewLockBasedTxMgr]. by rewrite E. }
  destruct (committed_serially (NewLockBasedTxMgr RangeQueryTheorems.w_db) w_block true
    (mkTxMgr RangeQueryTheorems.w_db (Some u) (Some w_flagged)) w_flagged
    [uint8 0; uint8 0; uint8 11] w_db_ok) as (m2 & Ec & _ & _ & Hsp & _).
  - split; cbn; lia.
  - split; cbn; lia.
  - intros env rw s Henv Hrw Hs.
    assert (forallb (fun env => match rwset_of env with
      Ok rw => forallb (fun s => bool_decide (ns_ok (NameSpace s))) rw | _ => true end) (blk_Data w_block) = true) as Hall
      by (by vm_compute).
    rewrite forallb_forall in Hall. apply list_elem_of_In in Henv. specialize (Hall env Henv).
    rewrite Hrw, forallb_forall in Hall. apply list_elem_of_In in Hs. specialize (Hall s Hs).
    by apply bool_decide_eq_true in Hall.
  - exact Ev.
  - by vm_compute.
  - eexists _, m2, _. split; [exact Ev|]. split; [exact Ec|exact Hsp].
Defined.

(** A range iterator that is opened and never advanced makes the
    transaction conflict with nothing at all: it is recorded as an open-ended
    query with no results, so validating the transaction against the very
    state it was simulated on, with no updates, reports a phantom read if the
    namespace has any key from the start key on. *)
Theorem unread_iterator_conflicts :
  exists b rw, simulate RangeQueryTheorems.w_db (PRange "cc" "a" "c" (fun _ => PRet tt)) = Ok (tt, b) /\
    FromProtoBytes b = Ok rw /\
    validateTx RangeQueryTheorems.w_db rw NewUpdateBatch = Ok TxValidationCode_PHANTOM_READ_CONFLICT.
Proof.
  set (sim := simulate RangeQueryTheorems.w_db (PRange "cc" "a" "c" (fun _ => PRet tt))).
  set (rwr := match sim with Ok (_, b) => FromProtoBytes b | _ => Ok [] end).
  assert (is_ok sim) as Hs by (by vm_compute). assert (is_ok rwr) as Hr by (by vm_compute).
  assert (match rwr with Ok rw => validateTx RangeQueryTheorems.w_db rw NewUpdateBatch | _ => Ok 0%Z end =
    Ok TxValidationCode_PHANTOM_READ_CONFLICT) as Hv by (by vm_compute).
  destruct sim as [[[] b]| | |]; try done. destruct rwr as [rw| | |] eqn:Er; try done.
  exists b, rw. auto.
Qed.

End SerializabilityTheorems.
