(* ===== verification/BlockHash.v ===== *)
(** * Block hashes

    protos/common/block.go: new blocks, the ASN.1 bytes of a block header, the
    bytes of the block data and their hashes; the helpers of
    common/util/utils.go they call.  The hash of the crypto provider is a
    parameter; the DER encoding of encoding/asn1 is written out for the one
    type it is used with. *)

From stdpp Require Import base strings list.
From Stdlib Require Import Ascii ZArith Lia.
From S2P Require Import Prelude Version Proto.

Local Open Scope Z_scope.

(** [factory.GetDefault().Hash(_, &bccsp.SHA256Opts{})] *)
Class CryptoHash := { bccsp_Hash : bytes -> res bytes }.

(** The provider's SHA-256 never fails. *)
Class CryptoHashSpec `{CryptoHash} := {
  sha256 : bytes -> bytes;
  bccsp_Hash_spec b : bccsp_Hash b = Ok (sha256 b)
}.

(** ** common/util/utils.go *)

Module CommonUtil.
Section CommonUtil.
Context `{CryptoHash}.

Definition ComputeSHA256 (data : bytes) : res bytes :=
  match bccsp_Hash data with
  | Err _ => Panic "Failed computing SHA256"
  | r => r
  end.

End CommonUtil.

(** The bytes are copied one by one to their place in a slice of the final
    length. *)
Fixpoint copy_slice (result : bytes) (last : nat) (slice : bytes) : bytes :=
  match slice with
  | [] => result
  | c :: slice' => copy_slice (<[last := c]> result) (S last) slice'
  end.

Fixpoint copy_slices (result : bytes) (last : nat) (data : list bytes) : bytes :=
  match data with
  | [] => result
  | slice :: data' => copy_slices (copy_slice result last slice) (last + length slice) data'
  end.

Definition ConcatenateBytes (data : list bytes) : bytes :=
  let finalLength := foldl (fun n slice => n + length slice)%nat 0%nat data in
  copy_slices (replicate finalLength (uint8 0)) 0 data.

Lemma copy_slice_app (p slice r : bytes) last :
  length p = last -> (length slice <= length r)%nat ->
  copy_slice (p ++ r) last slice = p ++ slice ++ drop (length slice) r.
Proof.
  revert p r last. induction slice as [|c slice IH]; intros p r last Hp Hl; [done|].
  destruct r as [|x r]; [cbn in Hl; lia|]. cbn [copy_slice length] in *.
  replace last with (length p + 0)%nat at 1 by lia. rewrite insert_app_r. cbn.
  rewrite (app_assoc p [c] r : p ++ c :: r = _). rewrite IH; [by rewrite <- app_assoc| |lia].
  rewrite length_app. cbn. lia.
Qed.

Lemma copy_slices_app data (p r : bytes) last :
  length p = last -> length r = length (concat data) ->
  copy_slices (p ++ r) last data = p ++ concat data.
Proof.
  revert p r last. induction data as [|s data IH]; intros p r last Hp Hr.
  { apply length_zero_iff_nil in Hr as ->. done. }
  cbn in *. rewrite length_app in Hr. rewrite copy_slice_app by (done || lia).
  rewrite app_assoc, IH; [by rewrite app_assoc| |].
  - rewrite length_app. lia.
  - rewrite length_drop. lia.
Qed.

Lemma ConcatenateBytes_concat data : ConcatenateBytes data = concat data.
Proof.
  unfold ConcatenateBytes. apply (copy_slices_app data []); [done|]. rewrite length_replicate.
  assert (forall n, foldl (fun n (s : bytes) => n + length s)%nat n data =
                    (n + length (concat data))%nat) as E; [|by rewrite E].
  induction data as [|s data IH]; intros n; cbn; [lia|]. rewrite IH, length_app. lia.
Qed.

End CommonUtil.

(** ** encoding/asn1 *)

Module Asn1.
Import OrderPreserving.

(** The number of bytes of an [int64] that is not negative. *)
Fixpoint int_len (fuel : nat) (i : Z) : nat :=
  match fuel with
  | O => 1
  | S fuel' => if 127 <? i then S (int_len fuel' (Z.shiftr i 8)) else 1
  end.

Definition int64_len (i : Z) : nat := int_len 7 i.

(** The length octets: one byte below 128, else the number of length bytes
    and the bytes. *)
Fixpoint length_len (fuel : nat) (i : Z) : nat :=
  match fuel with
  | O => 1
  | S fuel' => if 255 <? i then S (length_len fuel' (Z.shiftr i 8)) else 1
  end.

Definition der_length (n : Z) : bytes :=
  if 128 <=? n
  then let k := length_len 7 n in uint8 (Z.lor 128 (Z.of_nat k)) :: be_put k n
  else [uint8 n].

Definition tlv (tag : Z) (content : bytes) : bytes :=
  uint8 tag :: der_length (Z.of_nat (length content)) ++ content.

Definition tag_integer : Z := 2.
Definition tag_octet_string : Z := 4.
Definition tag_sequence : Z := 48.

Definition der_int64 (i : Z) : bytes := tlv tag_integer (be_put (int64_len i) i).
Definition der_octets (b : bytes) : bytes := tlv tag_octet_string b.

(** *** Unique decoding *)

Lemma int_len_bound n i :
  0 <= i < 2 ^ (8 * Z.of_nat (S n)) -> i < 2 ^ (8 * Z.of_nat (int_len n i)).
Proof.
  revert i. induction n as [|n IH]; intros i Hi; [cbn; lia|]. cbn [int_len].
  destruct (Z.ltb_spec 127 i); [|change (2 ^ (8 * Z.of_nat 1)) with 256; lia].
  rewrite pow8_S in Hi. rewrite pow8_S. rewrite Z.shiftr_div_pow2 by lia.
  change (2 ^ 8) with 256. pose proof (Z.div_mod i 256). pose proof (Z.mod_pos_bound i 256).
  assert (i / 256 < 2 ^ (8 * Z.of_nat (int_len n (i / 256)))); [|lia].
  apply IH. split; [apply Z.div_pos; lia|]. apply Z.div_lt_upper_bound; lia.
Qed.

Lemma int64_len_bound i : 0 <= i < 2 ^ 63 -> i < 2 ^ (8 * Z.of_nat (int64_len i)).
Proof. intros Hi. apply int_len_bound. change (8 * Z.of_nat 8) with 64. lia. Qed.

Lemma length_len_bound n i :
  0 <= i < 2 ^ (8 * Z.of_nat (S n)) ->
  i < 2 ^ (8 * Z.of_nat (length_len n i)) /\ (length_len n i <= S n)%nat.
Proof.
  revert i. induction n as [|n IH]; intros i Hi; [cbn; lia|]. cbn [length_len].
  destruct (Z.ltb_spec 255 i); [|change (2 ^ (8 * Z.of_nat 1)) with 256; lia].
  rewrite pow8_S in Hi. rewrite pow8_S. rewrite Z.shiftr_div_pow2 by lia.
  change (2 ^ 8) with 256. pose proof (Z.div_mod i 256). pose proof (Z.mod_pos_bound i 256).
  assert (i / 256 < 2 ^ (8 * Z.of_nat (length_len n (i / 256))) /\
          (length_len n (i / 256) <= S n)%nat); [|lia].
  apply IH. split; [apply Z.div_pos; lia|]. apply Z.div_lt_upper_bound; lia.
Qed.

Lemma be_put_inj n a b :
  0 <= a < 2 ^ (8 * Z.of_nat n) -> 0 <= b < 2 ^ (8 * Z.of_nat n) ->
  be_put n a = be_put n b -> a = b.
Proof.
  intros Ha Hb E. apply (f_equal (be_get 0)) in E. rewrite !be_get_put in E.
  rewrite !Z.mod_small in E by lia. lia.
Qed.

Lemma lor_128 k : 0 <= k <= 8 -> Z.lor 128 k = 128 + k.
Proof.
  intros Hk. assert (k = 0 \/ k = 1 \/ k = 2 \/ k = 3 \/ k = 4 \/ k = 5 \/ k = 6 \/ k = 7 \/ k = 8)
    as H by lia. by repeat destruct H as [->|H]; subst.
Qed.

Lemma der_length_inj a b x y :
  0 <= a < 2 ^ 63 -> 0 <= b < 2 ^ 63 ->
  der_length a ++ x = der_length b ++ y -> a = b /\ x = y.
Proof.
  intros Ha Hb. unfold der_length.
  destruct (length_len_bound 7 a) as [La Ka]; [change (8 * Z.of_nat 8) with 64; lia|].
  destruct (length_len_bound 7 b) as [Lb Kb]; [change (8 * Z.of_nat 8) with 64; lia|].
  assert (forall k, (k <= 8)%nat -> byte_val (uint8 (Z.lor 128 (Z.of_nat k))) = 128 + Z.of_nat k) as Ek.
  { intros k Hk. rewrite lor_128, byte_val_uint8, Z.mod_small by lia. done. }
  destruct (Z.leb_spec 128 a), (Z.leb_spec 128 b); cbn [app]; intros [E Et]%cons_bytes_inj;
    apply (f_equal byte_val) in E; rewrite ?Ek, ?byte_val_uint8 in E by done.
  - assert (length_len 7 a = length_len 7 b) as E2 by lia. rewrite E2 in *.
    apply app_inj_1 in Et as [E3 ->]; [|by rewrite !length_be_put].
    apply be_put_inj in E3; [done|lia..].
  - rewrite Z.mod_small in E by lia. lia.
  - rewrite Z.mod_small in E by lia. lia.
  - rewrite !Z.mod_small in E by lia. done.
Qed.

Lemma tlv_inj tag a b x y :
  Z.of_nat (length a) < 2 ^ 63 -> Z.of_nat (length b) < 2 ^ 63 ->
  tlv tag a ++ x = tlv tag b ++ y -> a = b /\ x = y.
Proof.
  intros Ha Hb. unfold tlv. cbn [app]. rewrite <- !app_assoc. intros [_ E]%cons_bytes_inj.
  apply der_length_inj in E as [El E]; [|lia..]. apply app_inj_1 in E; [done|lia].
Qed.

Lemma tlv_inj_nil tag a b :
  Z.of_nat (length a) < 2 ^ 63 -> Z.of_nat (length b) < 2 ^ 63 ->
  tlv tag a = tlv tag b -> a = b.
Proof.
  intros Ha Hb E. apply (f_equal (fun l => l ++ [])) in E.
  by apply (tlv_inj tag a b [] []) in E as [-> _].
Qed.

Lemma der_int64_inj a b x y :
  0 <= a < 2 ^ 63 -> 0 <= b < 2 ^ 63 -> der_int64 a ++ x = der_int64 b ++ y -> a = b /\ x = y.
Proof.
  intros Ha Hb E. unfold der_int64 in E.
  assert (forall i, (int64_len i <= 8)%nat) as Hl.
  { intros i. unfold int64_len. cbn [int_len]. repeat case_match; lia. }
  apply tlv_inj in E as [E ->].
  - pose proof (f_equal length E) as El. rewrite !length_be_put in El. rewrite El in E.
    split; [|done]. apply (be_put_inj (int64_len b)); [|split; [lia|]; by apply int64_len_bound|done].
    split; [lia|]. rewrite <- El. by apply int64_len_bound.
  - rewrite length_be_put. pose proof (Hl a). lia.
  - rewrite length_be_put. pose proof (Hl b). lia.
Qed.

End Asn1.

(** ** protos/common/block.go *)

Module BlockHash.
Import CommonUtil Asn1.

Definition NewBlock (seqNum : Z) (previousHash : bytes) : Block :=
  mkBlock (mkBlockHeader seqNum previousHash []) [] (replicate 4 []).

(** [asn1.Marshal] of an [asn1Header] does not fail. *)
Definition header_Bytes (b : BlockHeader) : res bytes :=
  if 2 ^ 63 - 1 <? Number b
  then Panic "Golang does not currently support encoding uint64 to asn1"
  else Ok (tlv tag_sequence
             (der_int64 (Number b) ++ der_octets (PreviousHash b) ++ der_octets (DataHash b))).

Definition data_Bytes (data : list bytes) : bytes := ConcatenateBytes data.

Section Hash.
Context `{CryptoHash}.

Definition header_Hash (b : BlockHeader) : res bytes := bs ← header_Bytes b; ComputeSHA256 bs.
Definition data_Hash (data : list bytes) : res bytes := ComputeSHA256 (data_Bytes data).

End Hash.

(** Sizes for which no Go slice length overflows. *)
Definition header_wf (h : BlockHeader) : Prop :=
  0 <= Number h < 2 ^ 63 /\
  Z.of_nat (length (PreviousHash h)) < 2 ^ 32 /\ Z.of_nat (length (DataHash h)) < 2 ^ 32.

#[export] Instance header_wf_dec h : Decision (header_wf h).
Proof. unfold header_wf. apply _. Defined.

Lemma length_der_octets b : Z.of_nat (length b) < 2 ^ 32 -> Z.of_nat (length (der_octets b)) < 2 ^ 33.
Proof.
  intros Hb. unfold der_octets, tlv. cbn [length]. rewrite length_app.
  enough (length (der_length (Z.of_nat (length b))) <= 9)%nat by lia.
  unfold der_length. destruct (128 <=? _); [|cbn; lia].
  destruct (length_len_bound 7 (Z.of_nat (length b))) as [_ Hk];
    [change (8 * Z.of_nat 8) with 64; lia|].
  cbn [length]. rewrite OrderPreserving.length_be_put. lia.
Qed.

Lemma length_der_int64 i : (length (der_int64 i) <= 20)%nat.
Proof.
  unfold der_int64, tlv. cbn [length]. rewrite length_app, OrderPreserving.length_be_put.
  assert (int64_len i <= 8)%nat by (unfold int64_len; cbn [int_len]; repeat case_match; lia).
  unfold der_length. rewrite (proj2 (Z.leb_gt _ _)) by lia. cbn [length]. lia.
Qed.

Lemma header_Bytes_inj h1 h2 bs :
  header_wf h1 -> header_wf h2 -> header_Bytes h1 = Ok bs -> header_Bytes h2 = Ok bs -> h1 = h2.
Proof.
  intros (Hn1 & Hp1 & Hd1) (Hn2 & Hp2 & Hd2). unfold header_Bytes.
  rewrite !(proj2 (Z.ltb_ge _ _)) by lia. intros E1 E2.
  pose proof (eq_trans E1 (eq_sym E2)) as E%Ok_inj. clear E1 E2.
  pose proof (length_der_octets _ Hp1). pose proof (length_der_octets _ Hd1).
  pose proof (length_der_octets _ Hp2). pose proof (length_der_octets _ Hd2).
  pose proof (length_der_int64 (Number h1)). pose proof (length_der_int64 (Number h2)).
  apply tlv_inj_nil in E; [|rewrite !length_app; lia..].
  apply der_int64_inj in E as [En E]; [|done..].
  apply tlv_inj in E as [Ep E]; [|lia..].
  apply tlv_inj_nil in E as Ed; [|lia..].
  destruct h1, h2; cbn in *. congruence.
Qed.

Section Facts.
Context `{CryptoHashSpec}.

Lemma header_Hash_ok h : Number h < 2 ^ 63 ->
  exists bs, header_Bytes h = Ok bs /\ header_Hash h = Ok (sha256 bs).
Proof.
  intros Hn. unfold header_Hash, header_Bytes. rewrite (proj2 (Z.ltb_ge _ _)) by lia.
  eexists. split; [done|]. cbn. unfold ComputeSHA256. by rewrite bccsp_Hash_spec.
Qed.

Lemma data_Hash_ok data : data_Hash data = Ok (sha256 (concat data)).
Proof.
  unfold data_Hash, data_Bytes, ComputeSHA256.
  by rewrite ConcatenateBytes_concat, bccsp_Hash_spec.
Qed.

End Facts.
End BlockHash.
