(* ===== verification/BlockCodec.v ===== *)
(** * The on-disk form of a block

    The protobuf buffers the block files are written with (vendored
    golang/protobuf, wrapped by common/ledger/util/protobuf_util.go) and the
    serialization of a block with the placement of its transactions
    (common/ledger/blkstorage/fsblkstorage/block_serialization.go). *)

From stdpp Require Import base strings list.
From Stdlib Require Import Ascii ZArith Lia.
From S2P Require Import Prelude Version Proto.

Local Open Scope Z_scope.

(** ** Varints *)

Module Buf.
Import Varint.

(** [proto.SizeVarint]; ten groups of seven bits hold a [uint64]. *)
Fixpoint size_loop (fuel : nat) (x : Z) : nat :=
  match fuel with
  | O => 1
  | S fuel' => let x := Z.shiftr x 7 in if x =? 0 then 1 else S (size_loop fuel' x)
  end.

Definition SizeVarint (x : Z) : nat := size_loop 9 x.

(** [Buffer.DecodeVarint]: the value and the unread bytes.  The method has the
    loop of [proto.DecodeVarint] unrolled. *)
Definition buf_DecodeVarint (p : bytes) : res (Z * bytes) :=
  match DecodeVarint p with
  | (x, S n) => Ok (x, drop (S n) p)
  | (_, O) =>
      if decide (10 <= length p)%nat then Err "proto: integer overflow" else Err "unexpected EOF"
  end.

(** [Buffer.EncodeRawBytes] appends this to the buffer. *)
Definition EncodeRawBytes (b : bytes) : bytes := EncodeVarint (Z.of_nat (length b)) ++ b.

(** [Buffer.DecodeRawBytes]; [len] is the length of the whole buffer, which
    bounds the sum of the index and the decoded length. *)
Definition buf_DecodeRawBytes (p : bytes) : res (bytes * bytes) :=
  '(n, p) ← buf_DecodeVarint p;
  let nb := int64 n in
  if nb <? 0 then Err "proto: bad byte length"
  else if Z.of_nat (length p) <? nb then Err "unexpected EOF"
  else Ok (take (Z.to_nat nb) p, drop (Z.to_nat nb) p).

(** [ledgerutil.Buffer]: [b_buf] is the unread part of the buffer. *)
Record Buffer := mkBuffer { b_buf : bytes; b_position : nat }.

Definition NewBuffer (b : bytes) : Buffer := mkBuffer b 0.

Definition buffer_DecodeVarint (b : Buffer) : res (Z * Buffer) :=
  '(val, rest) ← buf_DecodeVarint (b_buf b);
  Ok (val, mkBuffer rest (b_position b + SizeVarint val)).

Definition DecodeRawBytes (b : Buffer) (alloc : bool) : res (bytes * Buffer) :=
  '(val, rest) ← buf_DecodeRawBytes (b_buf b);
  Ok (val, mkBuffer rest
             (b_position b + (SizeVarint (Z.of_nat (length val)) + length val))).

Definition GetBytesConsumed (b : Buffer) : nat := b_position b.

(** *** Round trips *)

Lemma lor_disjoint x y s : 0 <= s -> 0 <= x < 2 ^ s -> Z.lor x (y * 2 ^ s) = x + y * 2 ^ s.
Proof.
  intros Hs Hx. rewrite <- Z.add_lor_land.
  enough (Z.land x (y * 2 ^ s) = 0) as -> by lia.
  destruct (decide (x = 0)) as [->|Hnz]; [done|]. apply Z.bits_inj'. intros n Hn. rewrite Z.land_spec, Z.bits_0.
  destruct (Z.ltb_spec n s).
  - by rewrite (Z.mul_pow2_bits_low y s n), andb_false_r by lia.
  - rewrite (Z.bits_above_log2 x); [done|lia|].
    apply Z.log2_lt_pow2; [lia|]. assert (2 ^ s <= 2 ^ n) by (apply Z.pow_le_mono_r; lia). lia.
Qed.

(** The bytes of a varint: seven bits, and the top bit on all but the last. *)
Lemma group_byte x : 0 <= x -> byte_val (uint8 (Z.lor 128 (Z.land x 127))) = x mod 128 + 128.
Proof.
  intros Hx. change 127 with (Z.ones 7). rewrite Z.land_ones by lia.
  change (2 ^ 7) with 128. pose proof (Z.mod_pos_bound x 128).
  rewrite Z.lor_comm. change 128 with (1 * 2 ^ 7) at 2.
  rewrite lor_disjoint by lia. rewrite byte_val_uint8, Z.mod_small; lia.
Qed.

Lemma land_group y : 0 <= y < 128 -> Z.land (y + 128) 127 = y /\ Z.land (y + 128) 128 = 128.
Proof.
  intros Hy. split.
  - change 127 with (Z.ones 7). rewrite Z.land_ones by lia. change (2 ^ 7) with 128.
    rewrite <- (Z.mod_small y 128) at 2 by lia. change 128 with (1 * 128) at 1.
    by rewrite Z.mod_add by lia.
  - replace (y + 128) with (Z.lor y (1 * 2 ^ 7)) by (rewrite lor_disjoint; lia).
    rewrite Z.land_lor_distr_l. change (1 * 2 ^ 7) with 128. rewrite Z.land_diag.
    enough (Z.land y 128 = 0) as -> by done. change 128 with (2 ^ 7).
    apply Z.bits_inj'. intros n Hn. rewrite Z.land_spec, Z.bits_0, Z.pow2_bits_eqb by lia.
    destruct (Z.eqb_spec 7 n) as [<-|]; [|by rewrite andb_false_r].
    rewrite andb_true_r. destruct (decide (y = 0)) as [->|]; [done|].
    apply Z.bits_above_log2; [lia|]. apply Z.log2_lt_pow2; lia.
Qed.

Lemma land_last y : 0 <= y < 128 -> Z.land y 127 = y /\ Z.land y 128 = 0.
Proof.
  intros Hy. destruct (land_group y Hy) as [E1 E2]. split.
  - change 127 with (Z.ones 7). rewrite Z.land_ones by lia. apply Z.mod_small. lia.
  - rewrite <- (Z.lor_0_r 0). change 128 with (2 ^ 7).
    apply Z.bits_inj'. intros n Hn. rewrite Z.land_spec, Z.pow2_bits_eqb by lia.
    destruct (Z.eqb_spec 7 n) as [<-|]; [|by rewrite andb_false_r, Z.bits_0].
    rewrite andb_true_r. destruct (decide (y = 0)) as [->|]; [done|].
    rewrite Z.bits_0. apply Z.bits_above_log2; [lia|]. apply Z.log2_lt_pow2; lia.
Qed.

(** One round of [DecodeVarint] on a byte of [EncodeVarint]. *)
Lemma decode_group fuel s acc k x rest :
  0 <= s -> 0 <= acc < 2 ^ s -> 0 <= x -> x * 2 ^ s < 2 ^ 64 ->
  decode_loop (S fuel) s acc k (uint8 (Z.lor 128 (Z.land x 127)) :: rest) =
  decode_loop fuel (s + 7) (acc + x mod 128 * 2 ^ s) (S k) rest.
Proof.
  intros Hs Ha Hx Hb. cbn [decode_loop]. rewrite group_byte by done.
  pose proof (Z.mod_pos_bound x 128). assert (x mod 128 <= x) by (apply Z.mod_le; lia).
  destruct (land_group (x mod 128)) as [-> ->]; [lia|]. cbn [Z.eqb].
  rewrite Z.shiftl_mul_pow2 by lia. rewrite wrap64_small by (unfold u64; nia).
  by rewrite lor_disjoint.
Qed.

Lemma decode_last fuel s acc k x rest :
  0 <= s -> 0 <= acc < 2 ^ s -> 0 <= x < 128 -> x * 2 ^ s < 2 ^ 64 ->
  decode_loop (S fuel) s acc k (uint8 x :: rest) = (acc + x * 2 ^ s, S k).
Proof.
  intros Hs Ha Hx Hb. cbn [decode_loop]. rewrite byte_val_uint8, Z.mod_small by lia.
  destruct (land_last x Hx) as [-> ->]. cbn [Z.eqb].
  rewrite Z.shiftl_mul_pow2 by lia. rewrite wrap64_small by (unfold u64; nia).
  by rewrite lor_disjoint.
Qed.

Lemma decode_encode n s acc k x rest :
  0 <= s -> 0 <= acc < 2 ^ s -> 0 <= x < 2 ^ (7 * (Z.of_nat n + 1)) -> x * 2 ^ s < 2 ^ 64 ->
  decode_loop (S n) s acc k (encode_loop n x ++ rest) =
  (acc + x * 2 ^ s, (k + length (encode_loop n x))%nat).
Proof.
  revert s acc k x. induction n as [|n IH]; intros s acc k x Hs Ha Hx Hb.
  { change (encode_loop 0 x) with [uint8 x]. cbn [app length].
    rewrite decode_last by (done || (change (2 ^ (7 * (Z.of_nat 0 + 1))) with 128 in Hx; lia)).
    f_equal. lia. }
  cbn [encode_loop]. destruct (Z.ltb_spec 127 x) as [Hl|Hl].
  2: { cbn [app length]. rewrite decode_last by (done || lia). f_equal. lia. }
  cbn [app length]. rewrite decode_group by (done || lia).
  assert (0 < 2 ^ s) by (apply Z.pow_pos_nonneg; lia).
  assert (2 ^ (s + 7) = 2 ^ s * 128) as E7 by (rewrite Z.pow_add_r by lia; done).
  pose proof (Z.mod_pos_bound x 128). pose proof (Z.div_mod x 128).
  rewrite Z.shiftr_div_pow2 by lia. change (2 ^ 7) with 128.
  assert (0 <= x / 128) by (apply Z.div_pos; lia).
  rewrite IH.
  - f_equal; [rewrite E7; nia|lia].
  - lia.
  - rewrite E7. nia.
  - split; [done|]. apply Z.div_lt_upper_bound; [lia|].
    replace (7 * (Z.of_nat (S n) + 1)) with (7 + 7 * (Z.of_nat n + 1)) in Hx by lia.
    rewrite Z.pow_add_r in Hx by lia. change (2 ^ 7) with 128 in Hx. lia.
  - rewrite E7. nia.
Qed.

Lemma DecodeVarint_encode x rest :
  u64 x -> DecodeVarint (EncodeVarint x ++ rest) = (x, length (EncodeVarint x)).
Proof.
  intros [H0 H1]. unfold DecodeVarint, EncodeVarint.
  rewrite (decode_encode 9 0 0 0 x rest) by (change (7 * (Z.of_nat 9 + 1)) with 70; lia).
  f_equal. lia.
Qed.

(** A varint cut short is not decoded. *)
Lemma decode_cut n s acc k x p :
  0 <= s -> 0 <= acc < 2 ^ s -> 0 <= x -> x * 2 ^ s < 2 ^ 64 ->
  p `prefix_of` encode_loop n x -> p <> encode_loop n x ->
  decode_loop (S n) s acc k p = (0, 0%nat).
Proof.
  revert s acc k x p. induction n as [|n IH]; intros s acc k x p Hs Ha Hx Hb Hp Hne.
  all: destruct p as [|c p]; [done|].
  { change (encode_loop 0 x) with [uint8 x] in *.
    apply prefix_cons_inv_1 in Hp as Hc. apply prefix_cons_inv_2, prefix_nil_inv in Hp.
    subst. done. }
  cbn [encode_loop] in *. destruct (Z.ltb_spec 127 x) as [Hl|Hl].
  2: { apply prefix_cons_inv_1 in Hp as Hc. apply prefix_cons_inv_2, prefix_nil_inv in Hp.
       subst. done. }
  apply prefix_cons_inv_1 in Hp as Hc. apply prefix_cons_inv_2 in Hp. subst c.
  rewrite decode_group by (done || lia).
  assert (0 < 2 ^ s) by (apply Z.pow_pos_nonneg; lia).
  assert (2 ^ (s + 7) = 2 ^ s * 128) as E7 by (rewrite Z.pow_add_r by lia; done).
  pose proof (Z.mod_pos_bound x 128). pose proof (Z.div_mod x 128).
  rewrite Z.shiftr_div_pow2 in * by lia. change (2 ^ 7) with 128 in *.
  assert (0 <= x / 128) by (apply Z.div_pos; lia).
  apply (IH _ _ _ (x / 128)); [lia|rewrite E7; nia|done|rewrite E7; nia|done|congruence].
Qed.

Lemma DecodeVarint_cut x p :
  u64 x -> p `prefix_of` EncodeVarint x -> p <> EncodeVarint x -> DecodeVarint p = (0, 0%nat).
Proof. intros [H0 H1]. apply (decode_cut 9 0 0 0 x p); lia. Qed.

Lemma length_encode_loop n x :
  0 <= x -> length (encode_loop n x) = size_loop n x.
Proof.
  revert x. induction n as [|n IH]; intros x Hx; [done|]. cbn [encode_loop size_loop].
  rewrite Z.shiftr_div_pow2 by lia. change (2 ^ 7) with 128.
  destruct (Z.ltb_spec 127 x), (Z.eqb_spec (x / 128) 0) as [E|E].
  - pose proof (Z.div_str_pos x 128). lia.
  - cbn [length]. by rewrite IH by (apply Z.div_pos; lia).
  - done.
  - rewrite Z.div_small in E by lia. lia.
Qed.

Lemma length_EncodeVarint x : u64 x -> length (EncodeVarint x) = SizeVarint x.
Proof. intros [H _]. by apply length_encode_loop. Qed.

Lemma length_encode_le n m x :
  0 <= x < 2 ^ (7 * (Z.of_nat m + 1)) -> (length (encode_loop n x) <= S m)%nat.
Proof.
  revert m x. induction n as [|n IH]; intros m x Hx; [cbn; lia|]. cbn [encode_loop].
  destruct (Z.ltb_spec 127 x); [|cbn; lia]. destruct m as [|m].
  { change (2 ^ (7 * (Z.of_nat 0 + 1))) with 128 in Hx. lia. }
  cbn [length]. apply le_n_S. apply IH. rewrite Z.shiftr_div_pow2 by lia. change (2 ^ 7) with 128.
  split; [apply Z.div_pos; lia|]. apply Z.div_lt_upper_bound; [lia|].
  replace (7 * (Z.of_nat (S m) + 1)) with (7 + 7 * (Z.of_nat m + 1)) in Hx by lia.
  rewrite Z.pow_add_r in Hx by lia. change (2 ^ 7) with 128 in Hx. lia.
Qed.

Lemma EncodeVarint_pos x : (0 < length (EncodeVarint x))%nat.
Proof. unfold EncodeVarint. cbn [encode_loop]. destruct (127 <? x); cbn; lia. Qed.

Lemma buf_DecodeVarint_encode x rest :
  u64 x -> buf_DecodeVarint (EncodeVarint x ++ rest) = Ok (x, rest).
Proof.
  intros Hx. unfold buf_DecodeVarint. rewrite DecodeVarint_encode by done.
  pose proof (EncodeVarint_pos x). destruct (length (EncodeVarint x)) as [|n] eqn:E; [lia|].
  by rewrite <- E, drop_app_length.
Qed.

(** The length of a Go slice. *)
Definition len_ok (b : bytes) : Prop := Z.of_nat (length b) < 2 ^ 63.

Lemma buf_DecodeRawBytes_encode b rest :
  len_ok b -> buf_DecodeRawBytes (EncodeRawBytes b ++ rest) = Ok (b, rest).
Proof.
  unfold len_ok. intros Hb. unfold buf_DecodeRawBytes, EncodeRawBytes. rewrite <- app_assoc.
  rewrite buf_DecodeVarint_encode by (unfold u64; lia). cbn.
  rewrite int64_small by lia. rewrite length_app.
  destruct (Z.ltb_spec (Z.of_nat (length b)) 0); [lia|].
  destruct (Z.ltb_spec (Z.of_nat (length b + length rest)) (Z.of_nat (length b))); [lia|].
  by rewrite Nat2Z.id, take_app_length, drop_app_length.
Qed.

Lemma buffer_DecodeVarint_encode x rest pos :
  u64 x ->
  buffer_DecodeVarint (mkBuffer (EncodeVarint x ++ rest) pos) =
  Ok (x, mkBuffer rest (pos + length (EncodeVarint x))).
Proof.
  intros Hx. unfold buffer_DecodeVarint. cbn [b_buf b_position].
  rewrite buf_DecodeVarint_encode by done. cbn -[EncodeVarint]. by rewrite length_EncodeVarint.
Qed.

Lemma DecodeRawBytes_encode b rest pos alloc :
  len_ok b ->
  DecodeRawBytes (mkBuffer (EncodeRawBytes b ++ rest) pos) alloc =
  Ok (b, mkBuffer rest (pos + length (EncodeRawBytes b))).
Proof.
  intros Hb. unfold DecodeRawBytes. cbn [b_buf b_position].
  rewrite buf_DecodeRawBytes_encode by done. unfold EncodeRawBytes, len_ok in *.
  cbn -[EncodeVarint].
  by rewrite length_app, length_EncodeVarint by (unfold u64; lia).
Qed.

End Buf.

(** ** block_serialization.go *)

Module BlockSerialization.
Import Varint Buf ProtoUtils.

(** [locPointer] (blockindex.go) *)
Record locPointer := mkLoc { offset : Z; bytesLength : Z }.

Record txindexInfo := mkTxindexInfo { ti_txID : string; ti_loc : locPointer }.

Record serializedBlockInfo := mkSerializedBlockInfo {
  si_blockHeader : BlockHeader;
  si_txOffsets : list txindexInfo;
  si_metadata : list bytes
}.

Section BlockSerialization.
Context `{ProtoCodec}.

(** An envelope whose payload does not decode has the empty id. *)
Definition extractTxID (txEnvelopBytes : bytes) : res string :=
  txEnvelope ← GetEnvelopeFromBlock txEnvelopBytes;
  match GetPayload txEnvelope with
  | Err _ => Ok ""%string
  | Panic m => Panic m
  | OutOfFuel => OutOfFuel
  | Ok txPayload =>
      ch ← payload_ChannelHeader txPayload;
      chdr ← UnmarshalChannelHeader ch;
      Ok (ch_TxId chdr)
  end.

(** The [add...] functions append to the buffer. *)
Definition addHeaderBytes (blockHeader : BlockHeader) (buf : bytes) : bytes :=
  let buf := buf ++ EncodeVarint (Number blockHeader) in
  let buf := buf ++ EncodeRawBytes (DataHash blockHeader) in
  buf ++ EncodeRawBytes (PreviousHash blockHeader).

Definition add_tx (st : bytes * list txindexInfo) (txEnvelopeBytes : bytes) :
    res (bytes * list txindexInfo) :=
  let '(buf, txOffsets) := st in
  let offset := Z.of_nat (length buf) in
  txid ← extractTxID txEnvelopeBytes;
  let buf := buf ++ EncodeRawBytes txEnvelopeBytes in
  let idxInfo := mkTxindexInfo txid (mkLoc offset (Z.of_nat (length buf) - offset)) in
  Ok (buf, txOffsets ++ [idxInfo]).

Definition addDataBytes (blockData : list bytes) (buf : bytes) : res (bytes * list txindexInfo) :=
  let buf := buf ++ EncodeVarint (Z.of_nat (length blockData)) in
  foldM add_tx (buf, []) blockData.

Definition addMetadataBytes (blockMetadata : list bytes) (buf : bytes) : bytes :=
  let buf := buf ++ EncodeVarint (Z.of_nat (length blockMetadata)) in
  foldl (fun buf b => buf ++ EncodeRawBytes b) buf blockMetadata.

Definition serializeBlock (block : Block) : res (bytes * serializedBlockInfo) :=
  let buf := addHeaderBytes (blk_Header block) [] in
  '(buf, txOffsets) ← addDataBytes (blk_Data block) buf;
  let buf := addMetadataBytes (blk_Metadata block) buf in
  Ok (buf, mkSerializedBlockInfo (blk_Header block) txOffsets (blk_Metadata block)).

Definition extractHeader (buf : Buffer) : res (BlockHeader * Buffer) :=
  '(number, buf) ← buffer_DecodeVarint buf;
  '(dataHash, buf) ← DecodeRawBytes buf false;
  '(previousHash, buf) ← DecodeRawBytes buf false;
  Ok (mkBlockHeader number previousHash dataHash, buf).

(** The loop of [extractData] from item [i]; every item takes at least a byte
    of the buffer. *)
Fixpoint extract_data_loop (fuel : nat) (i numItems : Z) (buf : Buffer)
    (data : list bytes) (txOffsets : list txindexInfo) :
    res (list bytes * list txindexInfo * Buffer) :=
  if numItems <=? i then Ok (data, txOffsets, buf)
  else
    match fuel with
    | O => OutOfFuel
    | S fuel' =>
        let txOffset := Z.of_nat (GetBytesConsumed buf) in
        '(txEnvBytes, buf) ← DecodeRawBytes buf false;
        txid ← extractTxID txEnvBytes;
        let idxInfo := mkTxindexInfo txid
          (mkLoc txOffset (Z.of_nat (GetBytesConsumed buf) - txOffset)) in
        extract_data_loop fuel' (i + 1) numItems buf (data ++ [txEnvBytes])
          (txOffsets ++ [idxInfo])
    end.

Definition extractData (buf : Buffer) : res (list bytes * list txindexInfo * Buffer) :=
  '(numItems, buf) ← buffer_DecodeVarint buf;
  extract_data_loop (S (length (b_buf buf))) 0 numItems buf [] [].

Fixpoint extract_metadata_loop (fuel : nat) (i numItems : Z) (buf : Buffer)
    (metadata : list bytes) : res (list bytes * Buffer) :=
  if numItems <=? i then Ok (metadata, buf)
  else
    match fuel with
    | O => OutOfFuel
    | S fuel' =>
        '(metadataEntry, buf) ← DecodeRawBytes buf false;
        extract_metadata_loop fuel' (i + 1) numItems buf (metadata ++ [metadataEntry])
    end.

Definition extractMetadata (buf : Buffer) : res (list bytes * Buffer) :=
  '(numItems, buf) ← buffer_DecodeVarint buf;
  extract_metadata_loop (S (length (b_buf buf))) 0 numItems buf [].

Definition deserializeBlock (serializedBlockBytes : bytes) : res Block :=
  let b := NewBuffer serializedBlockBytes in
  '(header, b) ← extractHeader b;
  '(data, _, b) ← extractData b;
  '(metadata, b) ← extractMetadata b;
  Ok (mkBlock header data metadata).

Definition extractSerializedBlockInfo (serializedBlockBytes : bytes) : res serializedBlockInfo :=
  let b := NewBuffer serializedBlockBytes in
  '(blockHeader, b) ← extractHeader b;
  '(_, txOffsets, b) ← extractData b;
  '(metadata, b) ← extractMetadata b;
  Ok (mkSerializedBlockInfo blockHeader txOffsets metadata).

(** *** Round trip *)

(** What holds of every block in memory: numbers and slice lengths fit their
    types. *)
Definition block_wf (b : Block) : Prop :=
  u64 (Number (blk_Header b)) /\ len_ok (DataHash (blk_Header b)) /\
  len_ok (PreviousHash (blk_Header b)) /\
  Forall len_ok (blk_Data b) /\ Z.of_nat (length (blk_Data b)) < 2 ^ 63 /\
  Forall len_ok (blk_Metadata b) /\ Z.of_nat (length (blk_Metadata b)) < 2 ^ 63.

Definition header_bytes (h : BlockHeader) : bytes :=
  EncodeVarint (Number h) ++ EncodeRawBytes (DataHash h) ++ EncodeRawBytes (PreviousHash h).

Definition items_bytes (l : list bytes) : bytes := concat (EncodeRawBytes <$> l).

Definition block_bytes (b : Block) : bytes :=
  header_bytes (blk_Header b) ++
  (EncodeVarint (Z.of_nat (length (blk_Data b))) ++ items_bytes (blk_Data b)) ++
  (EncodeVarint (Z.of_nat (length (blk_Metadata b))) ++ items_bytes (blk_Metadata b)).

(** The placement of the transactions [txs] from offset [pos] on. *)
Fixpoint placement (pos : Z) (txs : list (string * bytes)) : list txindexInfo :=
  match txs with
  | [] => []
  | (txid, tx) :: txs' =>
      let n := Z.of_nat (length (EncodeRawBytes tx)) in
      mkTxindexInfo txid (mkLoc pos n) :: placement (pos + n) txs'
  end.

(** [ids] are the ids of the transactions of the block. *)
Definition tx_ids (txs : list bytes) (ids : list string) : Prop :=
  Forall2 (fun tx id => extractTxID tx = Ok id) txs ids.

Definition data_offset (b : Block) : Z :=
  Z.of_nat (length (header_bytes (blk_Header b) ++
                    EncodeVarint (Z.of_nat (length (blk_Data b))))).

Definition block_info (b : Block) (ids : list string) : serializedBlockInfo :=
  mkSerializedBlockInfo (blk_Header b) (placement (data_offset b) (zip ids (blk_Data b)))
    (blk_Metadata b).

Lemma add_tx_loop txs ids buf offs :
  tx_ids txs ids ->
  foldM add_tx (buf, offs) txs =
  Ok (buf ++ items_bytes txs, offs ++ placement (Z.of_nat (length buf)) (zip ids txs)).
Proof.
  intros Ht. revert buf offs. induction Ht as [|tx id txs ids Hid _ IH]; intros buf offs; cbn.
  { by rewrite !app_nil_r. }
  rewrite Hid. cbn -[EncodeRawBytes]. rewrite IH. unfold items_bytes. cbn -[EncodeRawBytes].
  rewrite <- !app_assoc. cbn [app]. rewrite length_app.
  f_equal. f_equal. f_equal. f_equal; [f_equal; f_equal; lia|]. f_equal. lia.
Qed.

Lemma add_tx_loop_inv txs buf offs r :
  foldM add_tx (buf, offs) txs = Ok r -> exists ids, tx_ids txs ids.
Proof.
  revert buf offs. induction txs as [|tx txs IH]; intros buf offs E; [by exists []; constructor|].
  cbn in E. destruct (extractTxID tx) as [id| | |] eqn:Eid; try discriminate E.
  apply IH in E as [ids Hids]. exists (id :: ids). by constructor.
Qed.

Lemma addMetadata_bytes md buf :
  addMetadataBytes md buf =
  buf ++ EncodeVarint (Z.of_nat (length md)) ++ items_bytes md.
Proof.
  unfold addMetadataBytes. rewrite app_assoc.
  generalize (buf ++ EncodeVarint (Z.of_nat (length md))) as b.
  unfold items_bytes. induction md as [|x md IH]; intros b; cbn -[EncodeRawBytes].
  - by rewrite app_nil_r.
  - by rewrite IH, <- app_assoc.
Qed.

(** What [serializeBlock] returns, given the ids of the transactions. *)
Lemma serializeBlock_ok b ids :
  tx_ids (blk_Data b) ids -> serializeBlock b = Ok (block_bytes b, block_info b ids).
Proof.
  intros Ht. unfold serializeBlock, addDataBytes. rewrite (add_tx_loop _ ids) by done.
  cbn -[EncodeRawBytes EncodeVarint addHeaderBytes addMetadataBytes placement].
  rewrite addMetadata_bytes. unfold block_bytes, block_info, data_offset.
  assert (addHeaderBytes (blk_Header b) [] = header_bytes (blk_Header b)) as ->.
  { unfold addHeaderBytes, header_bytes. by rewrite <- app_assoc. }
  by rewrite <- !app_assoc.
Qed.

Lemma serializeBlock_inv b bs info :
  serializeBlock b = Ok (bs, info) ->
  exists ids, tx_ids (blk_Data b) ids /\ bs = block_bytes b /\ info = block_info b ids.
Proof.
  intros E. assert (exists ids, tx_ids (blk_Data b) ids) as [ids Hids].
  { unfold serializeBlock, addDataBytes in E. apply res_bind_Ok in E as (r & E & _).
    by eapply add_tx_loop_inv. }
  exists ids. rewrite (serializeBlock_ok _ ids) in E by done. by injection E as <- <-.
Qed.

Lemma extract_header_ok h rest pos :
  u64 (Number h) -> len_ok (DataHash h) -> len_ok (PreviousHash h) ->
  extractHeader (mkBuffer (header_bytes h ++ rest) pos) =
  Ok (h, mkBuffer rest (pos + length (header_bytes h))).
Proof.
  intros Hn Hd Hp. unfold extractHeader, header_bytes. rewrite <- !app_assoc.
  rewrite buffer_DecodeVarint_encode by done. cbn -[DecodeRawBytes EncodeRawBytes EncodeVarint].
  rewrite DecodeRawBytes_encode by done. cbn -[DecodeRawBytes EncodeRawBytes EncodeVarint].
  rewrite DecodeRawBytes_encode by done. cbn -[DecodeRawBytes EncodeRawBytes EncodeVarint].
  rewrite !length_app, !Nat.add_assoc. by destruct h.
Qed.

Lemma EncodeRawBytes_pos b : (0 < length (EncodeRawBytes b))%nat.
Proof. unfold EncodeRawBytes. rewrite length_app. pose proof (EncodeVarint_pos (Z.of_nat (length b))). lia. Qed.

Lemma extract_data_loop_ok fuel i n txs ids rest pos data offs :
  tx_ids txs ids -> Forall len_ok txs -> n = i + Z.of_nat (length txs) ->
  (length (items_bytes txs) <= fuel)%nat ->
  extract_data_loop fuel i n (mkBuffer (items_bytes txs ++ rest) pos) data offs =
  Ok (data ++ txs, offs ++ placement (Z.of_nat pos) (zip ids txs),
      mkBuffer rest (pos + length (items_bytes txs))).
Proof.
  intros Ht. revert fuel i pos data offs.
  induction Ht as [|tx id txs ids Hid _ IH]; intros fuel i pos data offs Hl -> Hf.
  { assert (forall f, extract_data_loop f i (i + Z.of_nat 0) (mkBuffer rest pos) data offs =
                      Ok (data, offs, mkBuffer rest pos)) as E.
    { intros [|f]; cbn [extract_data_loop]; by rewrite (proj2 (Z.leb_le _ _)) by lia. }
    cbn. rewrite E. by rewrite !app_nil_r, Nat.add_0_r. }
  apply Forall_cons in Hl as [Hl1 Hl]. unfold items_bytes in *.
  cbn -[EncodeRawBytes] in Hf |- *. rewrite length_app in Hf.
  pose proof (EncodeRawBytes_pos tx). destruct fuel as [|fuel]; [lia|].
  cbn [extract_data_loop]. rewrite (proj2 (Z.leb_gt _ _)) by lia. rewrite <- app_assoc.
  rewrite DecodeRawBytes_encode by done. cbn -[EncodeRawBytes extract_data_loop Z.add Z.of_nat].
  rewrite Hid. cbn -[EncodeRawBytes extract_data_loop Z.add Z.of_nat].
  rewrite IH; [|done|cbn [length]; lia|lia]. rewrite <- !app_assoc, length_app. cbn [app].
  rewrite Nat.add_assoc, Nat2Z.inj_add. do 7 f_equal. lia.
Qed.

Lemma extract_metadata_loop_ok fuel i n md rest pos acc :
  Forall len_ok md -> n = i + Z.of_nat (length md) ->
  (length (items_bytes md) <= fuel)%nat ->
  extract_metadata_loop fuel i n (mkBuffer (items_bytes md ++ rest) pos) acc =
  Ok (acc ++ md, mkBuffer rest (pos + length (items_bytes md))).
Proof.
  revert fuel i pos acc. induction md as [|x md IH]; intros fuel i pos acc Hl -> Hf.
  { assert (forall f, extract_metadata_loop f i (i + Z.of_nat 0) (mkBuffer rest pos) acc =
                      Ok (acc, mkBuffer rest pos)) as E.
    { intros [|f]; cbn [extract_metadata_loop]; by rewrite (proj2 (Z.leb_le _ _)) by lia. }
    cbn. rewrite E. by rewrite !app_nil_r, Nat.add_0_r. }
  apply Forall_cons in Hl as [Hl1 Hl]. unfold items_bytes in *.
  cbn -[EncodeRawBytes] in Hf |- *. rewrite length_app in Hf.
  pose proof (EncodeRawBytes_pos x). destruct fuel as [|fuel]; [lia|].
  cbn [extract_metadata_loop]. rewrite (proj2 (Z.leb_gt _ _)) by lia. rewrite <- app_assoc.
  rewrite DecodeRawBytes_encode by done. cbn -[EncodeRawBytes extract_metadata_loop Z.add Z.of_nat].
  rewrite IH; [|done|cbn [length]; lia|lia]. rewrite <- !app_assoc, length_app. cbn [app].
  by rewrite Nat.add_assoc.
Qed.

(** The three parts of a serialized block, whatever follows it. *)
Lemma extract_parts b ids rest :
  block_wf b -> tx_ids (blk_Data b) ids ->
  exists b1 b2 b3,
    extractHeader (NewBuffer (block_bytes b ++ rest)) = Ok (blk_Header b, b1) /\
    extractData b1 = Ok (blk_Data b, si_txOffsets (block_info b ids), b2) /\
    extractMetadata b2 = Ok (blk_Metadata b, b3).
Proof.
  intros (Hn & Hdh & Hph & Hd & Hdl & Hm & Hml) Ht. unfold block_bytes, NewBuffer.
  rewrite <- !app_assoc. do 3 eexists. split; [by apply extract_header_ok|]. split.
  - unfold extractData. rewrite buffer_DecodeVarint_encode by (unfold u64; lia).
    cbn -[EncodeVarint extract_data_loop header_bytes].
    rewrite (extract_data_loop_ok _ 0 _ _ ids); [|done|done|lia|rewrite length_app; lia].
    unfold block_info, data_offset. cbn [si_txOffsets app]. rewrite length_app. reflexivity.
  - unfold extractMetadata. rewrite buffer_DecodeVarint_encode by (unfold u64; lia).
    cbn -[EncodeVarint extract_metadata_loop header_bytes].
    rewrite (extract_metadata_loop_ok _ 0); [reflexivity|done|lia|rewrite length_app; lia].
Qed.

Lemma deserialize_ok b ids rest :
  block_wf b -> tx_ids (blk_Data b) ids -> deserializeBlock (block_bytes b ++ rest) = Ok b.
Proof.
  intros Hb Ht. destruct (extract_parts b ids rest Hb Ht) as (b1 & b2 & b3 & E1 & E2 & E3).
  unfold deserializeBlock. rewrite E1. cbn -[extractData extractMetadata]. rewrite E2.
  cbn -[extractMetadata]. rewrite E3. by destruct b.
Qed.

Lemma extract_info_ok b ids rest :
  block_wf b -> tx_ids (blk_Data b) ids ->
  extractSerializedBlockInfo (block_bytes b ++ rest) = Ok (block_info b ids).
Proof.
  intros Hb Ht. destruct (extract_parts b ids rest Hb Ht) as (b1 & b2 & b3 & E1 & E2 & E3).
  unfold extractSerializedBlockInfo. rewrite E1. cbn -[extractData extractMetadata]. rewrite E2.
  cbn -[extractMetadata]. rewrite E3. done.
Qed.

End BlockSerialization.
End BlockSerialization.
