(* ===== verification/BlockFiles.v ===== *)
(** * Block files

    The files a ledger's blocks are appended to: their names and the scan of
    the directory (blockfile_helper.go, blockfile_mgr.go), the writer and the
    reader (blockfile_rw.go) and the streams that read blocks back
    (block_stream.go), all of common/ledger/blkstorage/fsblkstorage.

    A [disk] is the content of the ledger's block directory, which holds
    regular files only; paths are relative to it. *)

From stdpp Require Import base gmap strings list.
From Stdlib Require Import Ascii ZArith Lia DecimalString DecimalN.
From S2P Require Import Prelude Version Proto BlockCodec.

Local Open Scope Z_scope.

Abbreviation disk := (gmap string bytes).

(** ** File names *)

Module FileName.

Definition blockfilePrefix : string := "blockfile_".

Definition digits (n : N) : string := NilEmpty.string_of_uint (N.to_uint n).

Fixpoint zeros (n : nat) : string :=
  match n with O => ""%string | S n' => String "0" (zeros n') end.

Definition pad (width : nat) (s : string) : string := zeros (width - String.length s) +:+ s.

(** [fmt.Sprintf("%06d", z)]: the sign counts towards the width. *)
Definition Sprintf06d (z : Z) : string :=
  if z <? 0 then "-" +:+ pad 5 (digits (Z.to_N (- z))) else pad 6 (digits (Z.to_N z)).

Definition deriveBlockfilePath (suffixNum : Z) : string :=
  blockfilePrefix +:+ Sprintf06d suffixNum.

(** [strings.HasPrefix] and [strings.TrimPrefix] *)
Fixpoint strip_prefix (p s : string) : option string :=
  match p, s with
  | EmptyString, _ => Some s
  | String a p', String b s' => if decide (a = b) then strip_prefix p' s' else None
  | _, _ => None
  end.

Definition TrimPrefix (s p : string) : string := default s (strip_prefix p s).

Definition isBlockFileName (name : string) : bool :=
  match strip_prefix blockfilePrefix name with Some _ => true | None => false end.

(** [strconv.Atoi]: an optional sign and decimal digits, in the range of an
    [int]. *)
Definition Atoi (s : string) : res Z :=
  let '(neg, s) :=
    match s with
    | String c s' =>
        if decide (c = "-"%char) then (true, s')
        else if decide (c = "+"%char) then (false, s') else (false, s)
    | EmptyString => (false, s)
    end in
  match s with
  | EmptyString => Err "invalid syntax"
  | _ =>
      match NilEmpty.uint_of_string s with
      | None => Err "invalid syntax"
      | Some d =>
          let z := Z.of_N (N.of_uint d) in
          let z := if (neg : bool) then - z else z in
          if (z <? - 2 ^ 63) || (2 ^ 63 - 1 <? z) then Err "value out of range" else Ok z
      end
  end.

(** *** The number in a file name *)

Lemma strip_prefix_app p s : strip_prefix p (p +:+ s) = Some s.
Proof. induction p as [|c p IH]; [done|].
  change (String c p +:+ s) with (String c (p +:+ s)). cbn [strip_prefix]. by rewrite decide_True. Qed.

Lemma isBlockFileName_derive z : isBlockFileName (deriveBlockfilePath z) = true.
Proof. unfold isBlockFileName, deriveBlockfilePath. by rewrite strip_prefix_app. Qed.

Lemma uint_of_zeros n s :
  NilEmpty.uint_of_string (zeros n +:+ s) =
  Nat.iter n (option_map Decimal.D0) (NilEmpty.uint_of_string s).
Proof.
  induction n as [|n IH]; [done|].
  change (zeros (S n) +:+ s) with (String "0" (zeros n +:+ s)).
  change (Nat.iter (S n) ?f ?x) with (f (Nat.iter n f x)). rewrite <- IH. cbn.
  by destruct (NilEmpty.uint_of_string _).
Qed.

Lemma of_uint_zeros n d : N.of_uint (Nat.iter n Decimal.D0 d) = N.of_uint d.
Proof. by induction n. Qed.

Lemma uint_of_pad w n :
  exists d, NilEmpty.uint_of_string (pad w (digits n)) = Some d /\ N.of_uint d = n.
Proof.
  unfold pad, digits. rewrite uint_of_zeros, NilEmpty.usu.
  set (k := (w - _)%nat). exists (Nat.iter k Decimal.D0 (N.to_uint n)). split.
  - clearbody k. induction k as [|k IH]; [done|].
    change (Nat.iter (S k) ?f ?x) with (f (Nat.iter k f x)). by rewrite IH.
  - by rewrite of_uint_zeros, Unsigned.of_to.
Qed.

(** A digit string starts with neither sign. *)
Lemma uint_string_head s d c s' :
  NilEmpty.uint_of_string s = Some d -> s = String c s' -> c <> "-"%char /\ c <> "+"%char.
Proof. intros E ->. split; intros ->; cbn in E; by destruct (NilEmpty.uint_of_string s'). Qed.

Lemma Atoi_pad w z : (0 < w)%nat -> 0 <= z < 2 ^ 63 -> Atoi (pad w (digits (Z.to_N z))) = Ok z.
Proof.
  intros Hw Hz. destruct (uint_of_pad w (Z.to_N z)) as (d & Ed & En).
  assert (pad w (digits (Z.to_N z)) <> ""%string) as Hne.
  { unfold pad. destruct (digits (Z.to_N z)) as [|c s]; [|by destruct (w - _)%nat].
    destruct w; [lia|done]. }
  unfold Atoi. destruct (pad w (digits (Z.to_N z))) as [|c s] eqn:E; [done|].
  destruct (uint_string_head _ _ _ _ Ed eq_refl) as [H1 H2].
  rewrite !decide_False by done. rewrite Ed, En, Z2N.id by lia.
  destruct (Z.ltb_spec z (- 2 ^ 63)); [lia|]. destruct (Z.ltb_spec (2 ^ 63 - 1) z); [lia|]. done.
Qed.

Lemma Atoi_suffix z :
  0 <= z < 2 ^ 63 -> Atoi (TrimPrefix (deriveBlockfilePath z) blockfilePrefix) = Ok z.
Proof.
  intros Hz. unfold TrimPrefix, deriveBlockfilePath. rewrite strip_prefix_app. cbn.
  unfold Sprintf06d. destruct (Z.ltb_spec z 0); [lia|]. apply Atoi_pad; [lia|done].
Qed.

Lemma deriveBlockfilePath_inj a b :
  0 <= a < 2 ^ 63 -> 0 <= b < 2 ^ 63 -> deriveBlockfilePath a = deriveBlockfilePath b -> a = b.
Proof.
  intros Ha Hb E. apply Ok_inj. by rewrite <- (Atoi_suffix a), <- (Atoi_suffix b), E.
Qed.

Global Arguments deriveBlockfilePath : simpl never.
Global Opaque deriveBlockfilePath.

End FileName.

(** ** Reading: block_stream.go, blockfile_rw.go *)

Module Streams.
Import FileName Varint.

Definition ErrUnexpectedEndOfBlockfile : string := "unexpected end of blockfile".

(** The descriptor and its buffered reader stand at [s_currentOffset]; a read
    sees the file as it is then, since a block file only grows while it is
    read. *)
Record blockfileStream := mkBlockfileStream { s_fileNum : Z; s_currentOffset : Z }.

Record blockPlacementInfo := mkPlacement {
  pi_fileNum : Z;
  pi_blockStartOffset : Z;
  pi_blockBytesOffset : Z
}.

Record blockStream := mkBlockStream {
  bs_currentFileNum : Z;
  bs_endFileNum : Z;
  bs_currentFileStream : blockfileStream
}.

Definition newBlockfileStream (d : disk) (fileNum startOffset : Z) : res blockfileStream :=
  match d !! deriveBlockfilePath fileNum with
  | None => Err "no such file or directory"
  | Some _ =>
      if startOffset <? 0 then Err "invalid argument"
      else Ok (mkBlockfileStream fileNum startOffset)
  end.

(** [None] is a nil block: the file is read to its end. *)
Definition file_nextBlockBytesAndPlacementInfo (d : disk) (s : blockfileStream) :
    res (option (bytes * blockPlacementInfo) * blockfileStream) :=
  let file := default [] (d !! deriveBlockfilePath (s_fileNum s)) in
  let size := Z.of_nat (length file) in
  if s_currentOffset s =? size then Ok (None, s)
  else
    let remainingBytes := size - s_currentOffset s in
    let '(peekBytes, moreContentAvailable) :=
      if remainingBytes <? 8 then (remainingBytes, false) else (8, true) in
    if peekBytes <? 0 then Err "bufio: negative count"
    else
      let rest := drop (Z.to_nat (s_currentOffset s)) file in
      let lenBytes := take (Z.to_nat peekBytes) rest in
      let '(length, n) := DecodeVarint lenBytes in
      if decide (n = O) then
        if (moreContentAvailable : bool) then Panic "Error in decoding varint bytes"
        else Err ErrUnexpectedEndOfBlockfile
      else
        let bytesExpected := Z.of_nat n + int64 length in
        if remainingBytes <? bytesExpected then Err ErrUnexpectedEndOfBlockfile
        else if 2 ^ 63 <=? length then Panic "makeslice: len out of range"
        else
          let blockBytes := take (Z.to_nat length) (drop n rest) in
          let placement := mkPlacement (s_fileNum s) (s_currentOffset s)
                             (s_currentOffset s + Z.of_nat n) in
          Ok (Some (blockBytes, placement),
              mkBlockfileStream (s_fileNum s) (s_currentOffset s + (Z.of_nat n + length))).

Definition file_nextBlockBytes (d : disk) (s : blockfileStream) :
    res (option bytes * blockfileStream) :=
  '(r, s) ← file_nextBlockBytesAndPlacementInfo d s; Ok (option_map fst r, s).

Definition newBlockStream (d : disk) (startFileNum startOffset endFileNum : Z) : res blockStream :=
  startFileStream ← newBlockfileStream d startFileNum startOffset;
  Ok (mkBlockStream startFileNum endFileNum startFileStream).

Definition moveToNextBlockfileStream (d : disk) (s : blockStream) : res blockStream :=
  let currentFileNum := bs_currentFileNum s + 1 in
  st ← newBlockfileStream d currentFileNum 0;
  Ok (mkBlockStream currentFileNum (bs_endFileNum s) st).

(** Each recursive call needs the next file to exist, so as many as there are
    files suffice. *)
Fixpoint next_block_loop (fuel : nat) (d : disk) (s : blockStream) :
    res (option (bytes * blockPlacementInfo) * blockStream) :=
  match fuel with
  | O => OutOfFuel
  | S fuel' =>
      '(r, fs) ← file_nextBlockBytesAndPlacementInfo d (bs_currentFileStream s);
      let s := mkBlockStream (bs_currentFileNum s) (bs_endFileNum s) fs in
      match r with
      | None =>
          if (bs_currentFileNum s <? bs_endFileNum s) || (bs_endFileNum s <? 0) then
            s ← moveToNextBlockfileStream d s;
            next_block_loop fuel' d s
          else Ok (None, s)
      | Some _ => Ok (r, s)
      end
  end.

Definition nextBlockBytesAndPlacementInfo (d : disk) (s : blockStream) :
    res (option (bytes * blockPlacementInfo) * blockStream) :=
  next_block_loop (S (size d)) d s.

Definition nextBlockBytes (d : disk) (s : blockStream) : res (option bytes * blockStream) :=
  '(r, s) ← nextBlockBytesAndPlacementInfo d s; Ok (option_map fst r, s).

(** [blockfileReader.read]; [ReadAt] fails at the end of the file. *)
Definition reader_read (d : disk) (filePath : string) (offset length_ : Z) : res bytes :=
  match d !! filePath with
  | None => Err "no such file or directory"
  | Some file =>
      if length_ <? 0 then Panic "makeslice: len out of range"
      else if offset <? 0 then Err "negative offset"
      else if Z.of_nat (length file) <? offset + length_ then Err "EOF"
      else Ok (take (Z.to_nat length_) (drop (Z.to_nat offset) file))
  end.

(** ** Finding the end of the chain: blockfile_helper.go, blockfile_mgr.go *)

(** The scan loop; every round reads at least a byte.  The error is [None] for
    nil. *)
Fixpoint scan_loop (fuel : nat) (d : disk) (s : blockfileStream) (lastBlockBytes : option bytes)
    (numBlocks : Z) : res (option bytes * Z * Z * option string) :=
  match fuel with
  | O => OutOfFuel
  | S fuel' =>
      match file_nextBlockBytes d s with
      | Ok (Some blockBytes, s) => scan_loop fuel' d s (Some blockBytes) (numBlocks + 1)
      | Ok (None, s) => Ok (lastBlockBytes, s_currentOffset s, numBlocks, None)
      | Err e => Ok (lastBlockBytes, s_currentOffset s, numBlocks, Some e)
      | Panic m => Panic m
      | OutOfFuel => OutOfFuel
      end
  end.

Definition scanForLastCompleteBlock (d : disk) (fileNum startingOffset : Z) :
    res (option bytes * Z * Z) :=
  stream ← newBlockfileStream d fileNum startingOffset;
  let file := default [] (d !! deriveBlockfilePath fileNum) in
  '(lastBlockBytes, currentOffset, numBlocks, errRead) ← scan_loop (S (length file)) d stream None 0;
  match errRead with
  | None => Ok (lastBlockBytes, currentOffset, numBlocks)
  | Some e =>
      if decide (e = ErrUnexpectedEndOfBlockfile) then Ok (lastBlockBytes, currentOffset, numBlocks)
      else Err e
  end.

Definition last_suffix_step (biggestFileNum : Z) (name : string) : res Z :=
  if negb (isBlockFileName name) then Ok biggestFileNum
  else
    fileNum ← Atoi (TrimPrefix name blockfilePrefix);
    Ok (if biggestFileNum <? fileNum then fileNum else biggestFileNum).

(** [ioutil.ReadDir] lists the names in order. *)
Definition retrieveLastFileSuffix (d : disk) : res Z :=
  foldM last_suffix_step (-1) (GetSortedKeys d).

(** [os.Lstat] succeeds for a file that exists. *)
Definition getFileInfoOrPanic (d : disk) (fileNum : Z) : res Z :=
  match d !! deriveBlockfilePath fileNum with
  | None => Panic "Error in retrieving file info"
  | Some file => Ok (Z.of_nat (length file))
  end.

(** *** Files that hold whole blocks *)

(** A block in a file: its length, then its bytes. *)
Definition frame (b : bytes) : bytes := EncodeVarint (Z.of_nat (length b)) ++ b.
Definition frames (l : list bytes) : bytes := concat (frame <$> l).

(** The stream reads a length from eight bytes. *)
Definition frame_ok (b : bytes) : Prop := Z.of_nat (length b) < 2 ^ 56.

Lemma frames_app l1 l2 : frames (l1 ++ l2) = frames l1 ++ frames l2.
Proof. unfold frames. by rewrite fmap_app, concat_app. Qed.

Lemma frames_snoc l b : frames (l ++ [b]) = frames l ++ frame b.
Proof. rewrite frames_app. unfold frames. cbn. by rewrite app_nil_r. Qed.

Lemma frame_u64 b : frame_ok b -> u64 (Z.of_nat (length b)).
Proof. unfold frame_ok, u64. lia. Qed.

Lemma frame_varint b :
  frame_ok b -> (0 < length (EncodeVarint (Z.of_nat (length b))) <= 8)%nat.
Proof.
  intros Hb. split; [apply Buf.EncodeVarint_pos|]. apply (Buf.length_encode_le 9 7).
  change (7 * (Z.of_nat 7 + 1)) with 56. unfold frame_ok in Hb. lia.
Qed.

Lemma length_frame b : length (frame b) = (length (EncodeVarint (Z.of_nat (length b))) + length b)%nat.
Proof. apply length_app. Qed.

(** The file [fileNum] as the stream sees it. *)
Definition file_is (d : disk) (fileNum : Z) (content : bytes) : Prop :=
  d !! deriveBlockfilePath fileNum = Some content.

Lemma newBlockfileStream_ok d f content off :
  file_is d f content -> 0 <= off -> newBlockfileStream d f off = Ok (mkBlockfileStream f off).
Proof.
  intros Hf Ho. unfold newBlockfileStream. rewrite Hf. destruct (Z.ltb_spec off 0); [lia|done].
Qed.

Lemma next_at_end d f content off :
  file_is d f content -> off = Z.of_nat (length content) ->
  file_nextBlockBytesAndPlacementInfo d (mkBlockfileStream f off) =
  Ok (None, mkBlockfileStream f off).
Proof.
  intros Hf ->. unfold file_nextBlockBytesAndPlacementInfo. cbv zeta. cbn [s_fileNum s_currentOffset].
  unfold file_is in Hf. rewrite !Hf. change (default [] (Some ?x)) with x. by rewrite Z.eqb_refl.
Qed.

Lemma next_at_frame d f pre b post off :
  file_is d f (pre ++ frame b ++ post) -> off = Z.of_nat (length pre) -> frame_ok b ->
  file_nextBlockBytesAndPlacementInfo d (mkBlockfileStream f off) =
  Ok (Some (b, mkPlacement f off (off + Z.of_nat (length (EncodeVarint (Z.of_nat (length b)))))),
      mkBlockfileStream f (off + Z.of_nat (length (frame b)))).
Proof.
  intros Hf -> Hb. unfold file_nextBlockBytesAndPlacementInfo. cbv zeta. cbn [s_fileNum s_currentOffset].
  unfold file_is in Hf. rewrite !Hf. change (default [] (Some ?x)) with x. pose proof (frame_varint b Hb) as Hn.
  pose proof (frame_u64 b Hb) as Hu. rewrite !length_app, length_frame.
  set (v := EncodeVarint (Z.of_nat (length b))) in *.
  rewrite (proj2 (Z.eqb_neq _ _)) by lia.
  replace (Z.of_nat (length pre + (length v + length b + length post)) - Z.of_nat (length pre))
    with (Z.of_nat (length v + length b + length post)) by lia.
  set (rem := Z.of_nat (length v + length b + length post)).
  assert (exists pk more, (if rem <? 8 then (rem, false) else (8, true)) = (pk, more) /\
            0 <= pk /\ (length v <= Z.to_nat pk)%nat) as (pk & more & Epk & Hpk & Hvp).
  { destruct (Z.ltb_spec rem 8); [exists rem, false|exists 8, true]; split; auto; lia. }
  rewrite Epk. rewrite (proj2 (Z.ltb_ge _ _)) by lia.
  rewrite Nat2Z.id, drop_app_length. unfold frame. fold v. rewrite <- app_assoc.
  rewrite take_app_ge by done. unfold v at 1. rewrite Buf.DecodeVarint_encode by done. fold v.
  rewrite decide_False by lia. unfold frame_ok in Hb. rewrite int64_small by lia.
  rewrite (proj2 (Z.ltb_ge _ _)) by lia. rewrite (proj2 (Z.leb_gt _ _)) by lia.
  rewrite Nat2Z.id, drop_app_length, take_app_length. do 3 f_equal. lia.
Qed.

(** A block whose tail is missing. *)
Lemma next_at_cut d f pre b p off :
  file_is d f (pre ++ p) -> off = Z.of_nat (length pre) -> frame_ok b ->
  p `prefix_of` frame b -> p <> [] -> p <> frame b ->
  file_nextBlockBytesAndPlacementInfo d (mkBlockfileStream f off) =
  Err ErrUnexpectedEndOfBlockfile.
Proof.
  intros Hf -> Hb Hp Hne1 Hne2. unfold file_nextBlockBytesAndPlacementInfo.
  cbv zeta. cbn [s_fileNum s_currentOffset]. unfold file_is in Hf. rewrite !Hf. change (default [] (Some ?x)) with x.
  pose proof (frame_varint b Hb) as Hn. pose proof (frame_u64 b Hb) as Hu.
  assert (0 < length p)%nat as Hpos by (destruct p; [done|cbn; lia]).
  assert (length p < length (frame b))%nat as Hlt.
  { destruct Hp as [q Eq]. rewrite Eq, length_app. destruct q; [|cbn; lia].
    rewrite app_nil_r in Eq. congruence. }
  rewrite length_app, length_frame in *. set (v := EncodeVarint (Z.of_nat (length b))) in *.
  rewrite (proj2 (Z.eqb_neq _ _)) by lia.
  replace (Z.of_nat (length pre + length p) - Z.of_nat (length pre)) with (Z.of_nat (length p)) by lia.
  rewrite Nat2Z.id, drop_app_length. unfold frame in Hp. fold v in Hp.
  destruct (decide (length v <= length p)%nat) as [Hl|Hl].
  - assert (exists p', p = v ++ p') as [p' ->].
    { destruct (prefix_weak_total p v _ Hp (prefix_app_r v v b (reflexivity v))) as [Hpv|[p' ->]].
      - exists []. rewrite app_nil_r. by apply prefix_length_eq.
      - by exists p'. }
    rewrite length_app in *. set (rem := Z.of_nat (length v + length p')).
    assert (exists pk more, (if rem <? 8 then (rem, false) else (8, true)) = (pk, more) /\
              0 <= pk /\ (length v <= Z.to_nat pk)%nat) as (pk & more & Epk & Hpk & Hvp).
    { destruct (Z.ltb_spec rem 8); [exists rem, false|exists 8, true]; split; auto; lia. }
    rewrite Epk. rewrite (proj2 (Z.ltb_ge _ _)) by lia. rewrite take_app_ge by done.
    unfold v at 1. rewrite Buf.DecodeVarint_encode by done. fold v.
    rewrite decide_False by lia. unfold frame_ok in Hb. rewrite int64_small by lia.
    by rewrite (proj2 (Z.ltb_lt _ _)) by lia.
  - rewrite (proj2 (Z.ltb_lt (Z.of_nat (length p)) 8)) by lia.
    rewrite (proj2 (Z.ltb_ge _ _)) by lia. rewrite Nat2Z.id, firstn_all.
    rewrite (Buf.DecodeVarint_cut (Z.of_nat (length b))); [done|done| |].
    + destruct (prefix_weak_total p v _ Hp (prefix_app_r v v b (reflexivity v))) as [Hpv|Hvp];
        [done|]. apply prefix_length in Hvp. lia.
    + intros ->. fold v in Hl. lia.
Qed.

(** What may follow the last whole block of a file: the beginning of a block
    that was being written. *)
Definition cut (tl : bytes) : Prop :=
  exists b, frame_ok b /\ tl `prefix_of` frame b /\ tl <> frame b.

Lemma frame_pos b : (0 < length (frame b))%nat.
Proof. rewrite length_frame. pose proof (Buf.EncodeVarint_pos (Z.of_nat (length b))). lia. Qed.

Lemma cut_nil : cut [].
Proof.
  exists []. split; [unfold frame_ok; cbn; lia|]. split; [apply prefix_nil|].
  intros E. pose proof (frame_pos []) as H. rewrite <- E in H. cbn in H. lia.
Qed.

Lemma length_le_frames l : (length l <= length (frames l))%nat.
Proof.
  induction l as [|b l IH]; [done|]. unfold frames in *. cbn -[frame]. rewrite length_app.
  pose proof (frame_pos b). lia.
Qed.

Lemma scan_loop_ok d f l pre tl fuel off lb n :
  file_is d f (pre ++ frames l ++ tl) -> off = Z.of_nat (length pre) -> Forall frame_ok l ->
  cut tl -> (length l < fuel)%nat ->
  scan_loop fuel d (mkBlockfileStream f off) lb n =
  Ok (match last l with Some b => Some b | None => lb end, off + Z.of_nat (length (frames l)),
      n + Z.of_nat (length l), if decide (tl = []) then None else Some ErrUnexpectedEndOfBlockfile).
Proof.
  revert pre fuel off lb n. induction l as [|b l IH]; intros pre fuel off lb n Hf -> Hl Hc Hfuel.
  all: destruct fuel as [|fuel]; [lia|]; cbn [scan_loop]; unfold file_nextBlockBytes.
  - cbn in Hf. rewrite !Z.add_0_r. destruct (decide (tl = [])) as [->|Hne].
    + rewrite (next_at_end d f (pre ++ [])) by (done || by rewrite app_nil_r). done.
    + destruct Hc as (b & Hb & Hp & Hnf). by rewrite (next_at_cut d f pre b tl).
  - apply Forall_cons in Hl as [Hb Hl].
    change (frames (b :: l)) with (frame b ++ frames l) in *. rewrite <- app_assoc in Hf.
    rewrite (next_at_frame d f pre b (frames l ++ tl)) by done. cbn -[frame last].
    rewrite (IH (pre ++ frame b)); [| |by rewrite length_app, Nat2Z.inj_add|done|done|cbn in Hfuel; lia].
    + rewrite last_cons, length_app. cbn [length].
      rewrite Nat2Z.inj_add, Nat2Z.inj_succ, Z.add_assoc, <- Z.add_1_l, (Z.add_assoc n).
      by destruct (last l).
    + by rewrite <- app_assoc.
Qed.

Lemma scan_ok d f l pre tl off :
  file_is d f (pre ++ frames l ++ tl) -> off = Z.of_nat (length pre) -> Forall frame_ok l -> cut tl ->
  scanForLastCompleteBlock d f off =
  Ok (last l, off + Z.of_nat (length (frames l)), Z.of_nat (length l)).
Proof.
  intros Hf Ho Hl Hc. unfold scanForLastCompleteBlock.
  rewrite (newBlockfileStream_ok d f _ off Hf) by lia. cbn -[scan_loop].
  rewrite (scan_loop_ok d f l pre tl _ off None 0); [|done..|].
  - cbn -[decide]. destruct (decide (tl = [])); cbn -[decide]; [by destruct (last l)|].
    rewrite decide_True by done. by destruct (last l).
  - unfold file_is in Hf. rewrite Hf. change (default [] (Some ?x)) with x.
    rewrite !length_app. pose proof (length_le_frames l). lia.
Qed.

(** *** Directories of block files *)

(** The directory has the files [0], [1], ... with the blocks of [segs]; [tl]
    is what follows the last block of the last file. *)
Record layout (d : disk) (segs : list (list bytes)) (tl : bytes) : Prop := {
  layout_file i seg : segs !! i = Some seg ->
    file_is d (Z.of_nat i) (frames seg ++ (if decide (S i = length segs) then tl else []));
  layout_frames : Forall (Forall frame_ok) segs;
  layout_size : Z.of_nat (length segs) < 2 ^ 62
}.

(** The directory has no other block files. *)
Definition only_files (d : disk) (n : nat) : Prop :=
  forall name, is_Some (d !! name) -> isBlockFileName name = true ->
    exists i, (i < n)%nat /\ name = deriveBlockfilePath (Z.of_nat i).

(** The files of a layout without its last one. *)
Lemma layout_last d segs seg tl :
  layout d (segs ++ [seg]) tl -> file_is d (Z.of_nat (length segs)) (frames seg ++ tl).
Proof.
  intros L. pose proof (layout_file _ _ _ L (length segs) seg) as Hf.
  rewrite length_app in Hf. cbn in Hf. rewrite decide_True in Hf by lia. apply Hf.
  by rewrite lookup_app_r, Nat.sub_diag by lia.
Qed.

Lemma layout_before d segs seg tl i seg' :
  layout d (segs ++ [seg]) tl -> segs !! i = Some seg' ->
  file_is d (Z.of_nat i) (frames seg').
Proof.
  intros L Hi. pose proof (lookup_lt_Some _ _ _ Hi).
  pose proof (layout_file _ _ _ L i seg') as Hf. rewrite length_app in Hf. cbn in Hf.
  rewrite decide_False in Hf by lia. rewrite app_nil_r in Hf. apply Hf.
  by rewrite lookup_app_l by lia.
Qed.

(** The last file is replaced, or a new one is added. *)
Lemma layout_set_last d segs seg tl seg' tl' :
  layout d (segs ++ [seg]) tl -> Forall frame_ok seg' ->
  layout (<[deriveBlockfilePath (Z.of_nat (length segs)) := frames seg' ++ tl']> d)
    (segs ++ [seg']) tl'.
Proof.
  intros L Hs. pose proof (layout_size _ _ _ L) as Hz. rewrite length_app in Hz. cbn in Hz. split.
  - intros i x Hi. rewrite length_app. cbn. unfold file_is.
    destruct (decide (i = length segs)) as [->|Hne].
    + rewrite lookup_app_r, Nat.sub_diag in Hi by lia. injection Hi as <-.
      by rewrite lookup_insert_eq, decide_True by lia.
    + pose proof (lookup_lt_Some _ _ _ Hi) as Hlt. rewrite length_app in Hlt. cbn in Hlt.
      rewrite lookup_app_l in Hi by lia. rewrite decide_False, app_nil_r by lia.
      rewrite lookup_insert_ne; [by eapply layout_before|].
      intros E. apply deriveBlockfilePath_inj in E; lia.
  - pose proof (layout_frames _ _ _ L) as Hf. apply Forall_app in Hf as [Hf _].
    apply Forall_app. split; [done|]. by apply Forall_singleton.
  - rewrite length_app. cbn. lia.
Qed.

Lemma layout_add d segs :
  layout d segs [] -> Z.of_nat (length segs) + 1 < 2 ^ 62 ->
  layout (<[deriveBlockfilePath (Z.of_nat (length segs)) := []]> d) (segs ++ [[]]) [].
Proof.
  intros L Hz. split.
  - intros i x Hi. unfold file_is. replace (if decide _ then [] else []) with (@nil ascii) by (by case_decide).
    rewrite app_nil_r. destruct (decide (i = length segs)) as [->|Hne].
    + rewrite lookup_app_r, Nat.sub_diag in Hi by lia. injection Hi as <-. by rewrite lookup_insert_eq.
    + pose proof (lookup_lt_Some _ _ _ Hi) as Hlt. rewrite length_app in Hlt. cbn in Hlt.
      rewrite lookup_app_l in Hi by lia.
      rewrite lookup_insert_ne by (intros E; apply deriveBlockfilePath_inj in E; lia).
      pose proof (layout_file _ _ _ L i x Hi) as Hf. unfold file_is in Hf. rewrite Hf.
      case_decide; by rewrite app_nil_r.
  - apply Forall_app. split; [apply (layout_frames _ _ _ L)|]. by apply Forall_singleton.
  - rewrite length_app. cbn. lia.
Qed.

Lemma last_suffix_loop (names : list string) n m :
  Z.of_nat n < 2 ^ 62 ->
  Forall (fun name => isBlockFileName name = true ->
            exists i, (i < n)%nat /\ name = deriveBlockfilePath (Z.of_nat i)) names ->
  exists r, foldM last_suffix_step m names = Ok r /\ m <= r /\
    (forall i, (i < n)%nat -> deriveBlockfilePath (Z.of_nat i) ∈ names -> Z.of_nat i <= r) /\
    (r = m \/ r < Z.of_nat n).
Proof.
  intros Hn Hf. revert m. induction Hf as [|name names Hx _ IH]; intros m.
  { exists m. split; [done|]. split; [lia|]. split; [|by left].
    intros i _ H. by apply elem_of_nil in H. }
  cbn [foldM]. pose proof (eq_refl (last_suffix_step m name)) as E.
  unfold last_suffix_step in E at 2. rewrite E. clear E.
  destruct (isBlockFileName name) eqn:Eb; cbn [negb].
  2: { rewrite res_ret_bind. destruct (IH m) as (r & -> & Hm & Hi & Hr). exists r. split; [done|]. split; [done|].
       split; [|done]. intros i Hlt [E|Hin]%elem_of_cons; [|by apply Hi].
       by rewrite <- E, isBlockFileName_derive in Eb. }
  destruct (Hx eq_refl) as (k & Hk & ->). rewrite Atoi_suffix, res_ret_bind by lia. rewrite res_ret_bind.
  set (m' := if m <? Z.of_nat k then Z.of_nat k else m).
  assert (m <= m' /\ Z.of_nat k <= m' /\ (m' = m \/ m' = Z.of_nat k)) as (H1 & H2 & H3)
    by (unfold m'; destruct (Z.ltb_spec m (Z.of_nat k)); lia).
  destruct (IH m') as (r & -> & Hm & Hi & Hr). exists r. split; [done|]. split; [lia|].
  split; [|lia]. intros i Hlt [E|Hin]%elem_of_cons; [|by apply Hi].
  apply deriveBlockfilePath_inj in E; lia.
Qed.

Lemma retrieveLastFileSuffix_ok d segs tl :
  layout d segs tl -> only_files d (length segs) ->
  retrieveLastFileSuffix d = Ok (Z.of_nat (length segs) - 1).
Proof.
  intros L Honly. pose proof (layout_size _ _ _ L). unfold retrieveLastFileSuffix.
  destruct (last_suffix_loop (GetSortedKeys d) (length segs) (-1)) as (r & -> & Hm & Hi & Hr).
  - done.
  - apply Forall_forall. intros name Hn%elem_of_GetSortedKeys Hb. by apply Honly.
  - f_equal. destruct (length segs) as [|n] eqn:E; [lia|].
    assert (Z.of_nat n <= r); [|lia]. apply Hi; [lia|]. apply elem_of_GetSortedKeys.
    destruct (lookup_lt_is_Some_2 segs n) as [seg Hseg]; [lia|].
    rewrite (layout_file _ _ _ L n seg Hseg). eauto.
Qed.

(** *** The blocks of a directory, with their places *)

Fixpoint place_seg (f off : Z) (seg : list bytes) : list (Z * Z * bytes) :=
  match seg with
  | [] => []
  | b :: seg' => (f, off, b) :: place_seg f (off + Z.of_nat (length (frame b))) seg'
  end.

Fixpoint place (f : Z) (segs : list (list bytes)) : list (Z * Z * bytes) :=
  match segs with
  | [] => []
  | seg :: segs' => place_seg f 0 seg ++ place (f + 1) segs'
  end.

(** The stream stands before the blocks [rest]. *)
Definition stream_at (segs : list (list bytes)) (s : blockStream) (rest : list (Z * Z * bytes)) : Prop :=
  exists i pre post,
    segs !! i = Some (pre ++ post) /\ bs_currentFileNum s = Z.of_nat i /\
    bs_currentFileStream s = mkBlockfileStream (Z.of_nat i) (Z.of_nat (length (frames pre))) /\
    rest = place_seg (Z.of_nat i) (Z.of_nat (length (frames pre))) post ++
           place (Z.of_nat i + 1) (drop (S i) segs).

(** The placement a stream reports for a block. *)
Definition placement_of (p : Z * Z * bytes) : blockPlacementInfo :=
  let '(f, off, b) := p in
  mkPlacement f off (off + Z.of_nat (length (EncodeVarint (Z.of_nat (length b))))).

Lemma layout_file_nil d segs i seg :
  layout d segs [] -> segs !! i = Some seg -> file_is d (Z.of_nat i) (frames seg).
Proof.
  intros L Hi. pose proof (layout_file _ _ _ L i seg Hi) as Hf.
  by destruct (decide _); rewrite app_nil_r in Hf.
Qed.

Lemma next_block_loop_some d segs s p rest fuel :
  layout d segs [] -> stream_at segs s (p :: rest) ->
  bs_endFileNum s < 0 \/ bs_endFileNum s = Z.of_nat (length segs) - 1 ->
  (length segs - Z.to_nat (bs_currentFileNum s) <= fuel)%nat ->
  exists s', next_block_loop fuel d s = Ok (Some (p.2, placement_of p), s') /\
    stream_at segs s' rest /\ bs_endFileNum s' = bs_endFileNum s.
Proof.
  intros L. revert s. induction fuel as [|fuel IH]; intros s (i & pre & post & Hi & Ec & Es & Er) He Hf.
  { apply lookup_lt_Some in Hi. lia. }
  cbn [next_block_loop]. rewrite Es. pose proof (layout_file_nil _ _ _ _ L Hi) as Hfile.
  rewrite frames_app in Hfile. destruct post as [|b post].
  - rewrite (next_at_end _ _ _ _ Hfile) by (rewrite length_app; cbn; lia). rewrite res_ret_bind.
    cbn [place_seg app] in Er. destruct (drop (S i) segs) as [|seg2 segs2] eqn:Ed; [done|].
    assert (segs !! S i = Some seg2) as Hi2 by (by rewrite <- (Nat.add_0_r (S i)), <- lookup_drop, Ed).
    pose proof (lookup_lt_Some _ _ _ Hi2). cbn [bs_currentFileNum bs_endFileNum].
    replace ((bs_currentFileNum s <? bs_endFileNum s) || (bs_endFileNum s <? 0)) with true; cycle 1.
    { symmetry. apply orb_true_iff. rewrite !Z.ltb_lt. lia. }
    unfold moveToNextBlockfileStream. cbn [bs_currentFileNum bs_endFileNum].
    rewrite Ec. replace (Z.of_nat i + 1) with (Z.of_nat (S i)) in * by lia.
    rewrite (newBlockfileStream_ok _ _ _ 0 (layout_file_nil _ _ _ _ L Hi2)) by lia.
    rewrite res_ret_bind. apply (IH (mkBlockStream (Z.of_nat (S i)) (bs_endFileNum s) _));
      [|done|cbn [bs_currentFileNum]; lia].
    exists (S i), [], seg2. cbn. split; [done|]. split; [done|]. split; [done|].
    rewrite Er. cbn [place]. assert (drop (S (S i)) segs = segs2) as ->; [|done].
    change (S (S i)) with (1 + S i)%nat. by rewrite Nat.add_comm, <- drop_drop, Ed.
  - change (frames (b :: post)) with (frame b ++ frames post) in Hfile.
    assert (frame_ok b) as Hb.
    { pose proof (layout_frames _ _ _ L) as HF. rewrite Forall_forall in HF.
      pose proof (HF _ (list_elem_of_lookup_2 _ _ _ Hi)) as HF2.
      apply Forall_app in HF2 as [_ HF2]. by apply Forall_cons in HF2 as [? _]. }
    rewrite (next_at_frame _ _ _ _ _ _ Hfile eq_refl Hb). rewrite res_ret_bind.
    cbn [place_seg app] in Er. injection Er as -> ->. cbn [snd placement_of].
    eexists. split; [done|]. split; [|done].
    exists i, (pre ++ [b]), post. cbn [bs_currentFileNum bs_currentFileStream].
    rewrite <- app_assoc, frames_snoc, length_app, Nat2Z.inj_add. done.
Qed.

Lemma next_block_loop_none d segs s fuel :
  layout d segs [] -> stream_at segs s [] ->
  bs_endFileNum s = Z.of_nat (length segs) - 1 ->
  (length segs - Z.to_nat (bs_currentFileNum s) <= fuel)%nat ->
  exists s', next_block_loop fuel d s = Ok (None, s').
Proof.
  intros L. revert s. induction fuel as [|fuel IH]; intros s (i & pre & post & Hi & Ec & Es & Er) He Hf.
  { apply lookup_lt_Some in Hi. lia. }
  cbn [next_block_loop]. rewrite Es. pose proof (layout_file_nil _ _ _ _ L Hi) as Hfile.
  symmetry in Er. apply app_nil in Er as [Ep Er]. destruct post; [|done].
  rewrite (next_at_end _ _ _ _ Hfile) by (by rewrite app_nil_r). rewrite res_ret_bind.
  cbn [bs_currentFileNum bs_endFileNum]. pose proof (lookup_lt_Some _ _ _ Hi) as Hlt.
  destruct (drop (S i) segs) as [|seg2 segs2] eqn:Ed.
  - apply (f_equal length) in Ed. rewrite length_drop in Ed. cbn in Ed.
    replace ((bs_currentFileNum s <? bs_endFileNum s) || (bs_endFileNum s <? 0)) with false; [eauto|].
    symmetry. apply orb_false_iff. rewrite !Z.ltb_ge. lia.
  - assert (segs !! S i = Some seg2) as Hi2 by (by rewrite <- (Nat.add_0_r (S i)), <- lookup_drop, Ed).
    pose proof (lookup_lt_Some _ _ _ Hi2).
    replace ((bs_currentFileNum s <? bs_endFileNum s) || (bs_endFileNum s <? 0)) with true; cycle 1.
    { symmetry. apply orb_true_iff. rewrite !Z.ltb_lt. lia. }
    unfold moveToNextBlockfileStream. cbn [bs_currentFileNum bs_endFileNum].
    rewrite Ec. replace (Z.of_nat i + 1) with (Z.of_nat (S i)) in * by lia.
    rewrite (newBlockfileStream_ok _ _ _ 0 (layout_file_nil _ _ _ _ L Hi2)) by lia.
    rewrite !res_ret_bind. apply (IH (mkBlockStream (Z.of_nat (S i)) (bs_endFileNum s) _));
      [|done|cbn [bs_currentFileNum]; lia].
    exists (S i), [], seg2. cbn. split; [done|]. split; [done|]. split; [done|].
    rewrite <- Er. cbn [place]. assert (drop (S (S i)) segs = segs2) as ->; [|done].
    change (S (S i)) with (1 + S i)%nat. by rewrite Nat.add_comm, <- drop_drop, Ed.
Qed.

Lemma layout_fuel d segs tl : layout d segs tl -> (length segs <= size d)%nat.
Proof.
  intros L. set (names := (fun i => deriveBlockfilePath (Z.of_nat i)) <$> seq 0 (length segs)).
  assert (NoDup names) as Hd.
  { apply NoDup_fmap_2_strong; [|apply NoDup_seq]. intros i j Hi%elem_of_seq Hj%elem_of_seq E.
    pose proof (layout_size _ _ _ L). apply deriveBlockfilePath_inj in E; lia. }
  assert ((list_to_set names : gset string) ⊆ dom d) as Hs.
  { intros name Hn%elem_of_list_to_set. apply list_elem_of_fmap in Hn as (i & -> & Hi%elem_of_seq).
    destruct (lookup_lt_is_Some_2 segs i) as [seg Hseg]; [lia|].
    apply elem_of_dom. rewrite (layout_file _ _ _ L i seg Hseg). eauto. }
  apply subseteq_size in Hs. rewrite size_list_to_set in Hs by done. rewrite size_dom in Hs.
  unfold names in Hs. by rewrite length_fmap, length_seq in Hs.
Qed.

Lemma nextBlock_some d segs s p rest :
  layout d segs [] -> stream_at segs s (p :: rest) ->
  bs_endFileNum s < 0 \/ bs_endFileNum s = Z.of_nat (length segs) - 1 ->
  exists s', nextBlockBytesAndPlacementInfo d s = Ok (Some (p.2, placement_of p), s') /\
    stream_at segs s' rest /\ bs_endFileNum s' = bs_endFileNum s.
Proof.
  intros L Hs He. apply next_block_loop_some; [done..|]. pose proof (layout_fuel _ _ _ L). lia.
Qed.

Lemma nextBlock_none d segs s :
  layout d segs [] -> stream_at segs s [] -> bs_endFileNum s = Z.of_nat (length segs) - 1 ->
  exists s', nextBlockBytesAndPlacementInfo d s = Ok (None, s').
Proof.
  intros L Hs He. eapply next_block_loop_none; [done..|]. pose proof (layout_fuel _ _ _ L). lia.
Qed.

(** *** Looking up a place *)

Lemma place_seg_app f off l1 l2 :
  place_seg f off (l1 ++ l2) =
  place_seg f off l1 ++ place_seg f (off + Z.of_nat (length (frames l1))) l2.
Proof.
  revert off. induction l1 as [|b l1 IH]; intros off; [by rewrite Z.add_0_r|].
  cbn -[frame]. rewrite IH. change (frames (b :: l1)) with (frame b ++ frames l1).
  by rewrite length_app, Nat2Z.inj_add, Z.add_assoc.
Qed.

Lemma place_app f segs1 segs2 :
  place f (segs1 ++ segs2) = place f segs1 ++ place (f + Z.of_nat (length segs1)) segs2.
Proof.
  revert f. induction segs1 as [|seg segs1 IH]; intros f; [by rewrite Z.add_0_r|].
  cbn -[Z.of_nat]. rewrite IH, <- app_assoc. do 3 f_equal. lia.
Qed.

Lemma place_blocks f segs : (place f segs).*2 = concat segs.
Proof.
  assert (forall seg f off, (place_seg f off seg).*2 = seg) as H.
  { induction seg as [|b seg IH]; intros; [done|]. cbn. by rewrite IH. }
  revert f. induction segs as [|seg segs IH]; intros f; [done|]. cbn. by rewrite fmap_app, H, IH.
Qed.

Lemma place_seg_split f off seg k p :
  place_seg f off seg !! k = Some p ->
  exists pre b post, seg = pre ++ b :: post /\ p = (f, off + Z.of_nat (length (frames pre)), b) /\
    place_seg f off seg = take k (place_seg f off seg) ++
      place_seg f (off + Z.of_nat (length (frames pre))) (b :: post).
Proof.
  revert off k. induction seg as [|b seg IH]; intros off k Hk; [done|].
  destruct k as [|k]; cbn [place_seg lookup list_lookup] in Hk.
  - injection Hk as <-. exists [], b, seg. by rewrite Z.add_0_r.
  - destruct (IH _ _ Hk) as (pre & b' & post & -> & -> & E). exists (b :: pre), b', post.
    change (frames (b :: pre)) with (frame b ++ frames pre).
    rewrite length_app, Nat2Z.inj_add, Z.add_assoc. split; [done|]. split; [done|].
    cbn [place_seg take app]. f_equal. exact E.
Qed.

(** The [k]-th block of the directory, and a stream opened at its place. *)
Lemma place_split segs k p :
  place 0 segs !! k = Some p ->
  exists i pre b post,
    segs !! i = Some (pre ++ b :: post) /\ p = (Z.of_nat i, Z.of_nat (length (frames pre)), b) /\
    drop k (place 0 segs) =
      place_seg (Z.of_nat i) (Z.of_nat (length (frames pre))) (b :: post) ++
      place (Z.of_nat i + 1) (drop (S i) segs).
Proof.
  assert (forall f, place f segs !! k = Some p -> exists i pre b post,
    segs !! i = Some (pre ++ b :: post) /\
    p = (f + Z.of_nat i, Z.of_nat (length (frames pre)), b) /\
    drop k (place f segs) =
      place_seg (f + Z.of_nat i) (Z.of_nat (length (frames pre))) (b :: post) ++
      place (f + Z.of_nat i + 1) (drop (S i) segs)) as H; [|exact (H 0)].
  revert k. induction segs as [|seg segs IH]; intros k f Hk; [done|]. cbn [place] in *.
  apply lookup_app_Some in Hk as [Hk|[Hlen Hk]].
  - destruct (place_seg_split _ _ _ _ _ Hk) as (pre & b & post & -> & -> & E).
    exists 0%nat, pre, b, post. rewrite Z.add_0_r, Z.add_0_l in *. split; [done|]. split; [done|].
    cbn [drop]. rewrite drop_0, drop_app_le by (apply lookup_lt_Some in Hk; lia). f_equal.
    rewrite E at 1. rewrite drop_app_length'; [done|].
    rewrite length_take. apply lookup_lt_Some in Hk. lia.
  - destruct (IH _ _ Hk) as (i & pre & b & post & Hi & -> & E). exists (S i), pre, b, post.
    replace (f + Z.of_nat (S i)) with (f + 1 + Z.of_nat i) by lia. split; [done|]. split; [done|].
    rewrite drop_app_ge by done. exact E.
Qed.

Lemma stream_at_place d segs k p endNum :
  layout d segs [] -> place 0 segs !! k = Some p ->
  exists s, newBlockStream d p.1.1 p.1.2 endNum = Ok s /\
    stream_at segs s (drop k (place 0 segs)) /\ bs_endFileNum s = endNum.
Proof.
  intros L Hk. destruct (place_split _ _ _ Hk) as (i & pre & b & post & Hi & -> & E).
  unfold newBlockStream. cbn [fst snd].
  rewrite (newBlockfileStream_ok _ _ _ _ (layout_file_nil _ _ _ _ L Hi)) by lia.
  rewrite res_ret_bind. eexists. split; [done|]. split; [|done].
  exists i, pre, (b :: post). cbn [bs_currentFileNum bs_currentFileStream]. by rewrite E.
Qed.

Lemma stream_at_start d segs endNum :
  layout d segs [] -> segs <> [] ->
  exists s, newBlockStream d 0 0 endNum = Ok s /\
    stream_at segs s (place 0 segs) /\ bs_endFileNum s = endNum.
Proof.
  intros L Hne. destruct segs as [|seg segs]; [done|].
  pose proof (layout_file_nil _ _ 0%nat _ L eq_refl) as Hf. unfold newBlockStream.
  rewrite (newBlockfileStream_ok _ _ _ _ Hf) by lia. rewrite res_ret_bind.
  eexists. split; [done|]. split; [|done]. exists 0%nat, [], seg. cbn. by rewrite drop_0.
Qed.

(** Reading one block at its place. *)
Lemma fetch_at_place d segs k p :
  layout d segs [] -> place 0 segs !! k = Some p ->
  exists s, newBlockfileStream d p.1.1 p.1.2 = Ok s /\
    exists s', file_nextBlockBytes d s = Ok (Some p.2, s').
Proof.
  intros L Hk. destruct (place_split _ _ _ Hk) as (i & pre & b & post & Hi & -> & E).
  pose proof (layout_file_nil _ _ _ _ L Hi) as Hf. cbn [fst snd].
  rewrite (newBlockfileStream_ok _ _ _ _ Hf) by lia. eexists. split; [done|].
  rewrite frames_app in Hf. change (frames (b :: post)) with (frame b ++ frames post) in Hf.
  unfold file_nextBlockBytes. rewrite (next_at_frame _ _ _ _ _ _ Hf); [|done|].
  - rewrite res_ret_bind. cbn. eauto.
  - pose proof (layout_frames _ _ _ L) as HF. rewrite Forall_forall in HF.
    pose proof (HF _ (list_elem_of_lookup_2 _ _ _ Hi)) as HF2.
    apply Forall_app in HF2 as [_ HF2]. by apply Forall_cons in HF2 as [? _].
Qed.

(** Reading part of a block. *)
Lemma read_at_place d segs k p off n x y :
  layout d segs [] -> place 0 segs !! k = Some p ->
  frame p.2 = x ++ n ++ y -> off = Z.of_nat (length x) ->
  reader_read d (deriveBlockfilePath p.1.1) (p.1.2 + off) (Z.of_nat (length n)) = Ok n.
Proof.
  intros L Hk Ef ->. destruct (place_split _ _ _ Hk) as (i & pre & b & post & Hi & -> & E).
  pose proof (layout_file_nil _ _ _ _ L Hi) as Hf. cbn [fst snd] in *.
  rewrite frames_app in Hf. change (frames (b :: post)) with (frame b ++ frames post) in Hf.
  unfold reader_read. rewrite Hf, Ef, !length_app.
  rewrite (proj2 (Z.ltb_ge _ _)) by lia. rewrite (proj2 (Z.ltb_ge _ _)) by lia.
  rewrite (proj2 (Z.ltb_ge _ _)) by lia. f_equal.
  replace (Z.to_nat (Z.of_nat (length (frames pre)) + Z.of_nat (length x)))
    with (length (frames pre ++ x)) by (rewrite length_app; lia).
  rewrite Nat2Z.id, <- app_assoc, app_assoc, drop_app_length, <- app_assoc. apply take_app_length.
Qed.

End Streams.
