(* ===== verification/BlockIndex.v ===== *)
(** * The index of the block files

    common/ledger/blkstorage/fsblkstorage/blockindex.go: where each block and
    transaction is, by number, hash and transaction id, in a named leveldb.
    The operations that reach the disk or the database run on a [World] with a
    list of faults, one for each of them: it fails, or the process dies in the
    middle of it. *)

From stdpp Require Import base gmap strings list.
From Stdlib Require Import Ascii ZArith Lia.
From S2P Require Import Prelude Version LevelDB Proto Validator BlockCodec BlockFiles.

Local Open Scope Z_scope.

(** [leveldbhelper.UpdateBatch] *)
Abbreviation KVBatch := (gmap bytes (option bytes)).

(** ** Disk, database and faults *)

Inductive fault :=
| NoFault
(** the process dies: [k] bytes of a write reach the file, any other
    operation has taken place unless [k] is 0 *)
| Crash (k : nat)
(** [Write] returns an error after [k] bytes, [Sync] after the write *)
| WriteFails (k : nat)
| SyncFails
| OpenFails
| TruncateFails
(** an error of the database on a single key or on a batch *)
| PutFails
| BatchFails.

Module World.
Import Provider.

Section World.
Context {S : Type} `{LevelDB S}.

Record World := mkWorld {
  w_disk : disk;
  w_db : DBHandle S;
  w_faults : list fault
}.

Definition next_fault : ST World fault := fun w =>
  match w_faults w with
  | [] => (w, Ok NoFault)
  | f :: fs => (mkWorld (w_disk w) (w_db w) fs, Ok f)
  end.

Definition set_disk (d : disk) : ST World unit :=
  st_modify (fun w => mkWorld d (w_db w) (w_faults w)).

Definition set_db (db : DBHandle S) : ST World unit :=
  st_modify (fun w => mkWorld (w_disk w) db (w_faults w)).

Definition die {A} : ST World A := st_lift (Panic "the process died").

(** An operation that takes place, fails or is cut short by a crash. *)
Definition effect (act : ST World unit) (fails : fault -> bool) (msg : string) : ST World unit :=
  f ← next_fault;
  match f with
  | Crash k => if decide (k = O) then die else act;; die
  | _ => if fails f then st_lift (Err msg) else act
  end.

(** [DBHandle.Get], [Put] and [WriteBatch] on the database of the world. *)
Definition db_Get (key : bytes) : ST World (option bytes) :=
  w ← st_get; st_lift (Get (w_db w) key).

Definition db_Put (key value : bytes) (sync : bool) : ST World unit :=
  effect (w ← st_get; db ← st_lift (Put (w_db w) key value sync); set_db db)
    (fun f => match f with PutFails => true | _ => false end) "leveldb: put failed".

Definition db_WriteBatch (batch : KVBatch) (sync : bool) : ST World unit :=
  effect (w ← st_get; db ← st_lift (WriteBatch (w_db w) batch sync); set_db db)
    (fun f => match f with BatchFails => true | _ => false end) "leveldb: write failed".

(** ** The writer: blockfile_rw.go *)

(** A writer is known by its path; [O_CREATE] makes the file if there is
    none. *)
Definition newBlockfileWriter (filePath : string) : ST World string :=
  effect (w ← st_get;
          set_disk (match w_disk w !! filePath with
                    | Some _ => w_disk w
                    | None => <[filePath := []]> (w_disk w)
                    end))
    (fun f => match f with OpenFails => true | _ => false end) "open failed";;
  mret filePath.

Definition write_bytes (path : string) (b : bytes) : ST World unit :=
  w ← st_get; set_disk (<[path := default [] (w_disk w !! path) ++ b]> (w_disk w)).

Definition append (path : string) (b : bytes) (sync : bool) : ST World unit :=
  f ← next_fault;
  match f with
  | Crash k => write_bytes path (take k b);; die
  | WriteFails k => write_bytes path (take k b);; st_lift (Err "write failed")
  | SyncFails => write_bytes path b;; if sync then st_lift (Err "sync failed") else mret tt
  | _ => write_bytes path b
  end.

(** The error of [Truncate] is dropped. *)
Definition truncateFile (path : string) (targetSize : Z) : ST World unit :=
  w ← st_get;
  let file := default [] (w_disk w !! path) in
  if targetSize <? Z.of_nat (length file) then
    f ← next_fault;
    match f with
    | Crash _ => die
    | TruncateFails => mret tt
    | _ => set_disk (<[path := take (Z.to_nat targetSize) file]> (w_disk w))
    end
  else mret tt.

End World.
Arguments World : clear implicits.

(** *** What an operation leaves behind *)

Section WorldFacts.
Context {S : Type} `{LevelDBSpec S}.

Definition view (w : World S) : bytes -> option bytes := handle_view (w_db w).
Definition world_ok (w : World S) : Prop := handle_ok (w_db w).

(** The possible faults are those listed. *)
Definition may_crash (w : World S) : Prop := exists k, Crash k ∈ w_faults w.

Lemma Put_spec (h : DBHandle S) k v sync :
  handle_ok h ->
  exists h', Put h k v sync = Ok h' /\ handle_ok h' /\
    forall k', handle_view h' k' = if decide (k' = k) then Some v else handle_view h k'.
Proof.
  intros [Hn Hs]. unfold Put, DB_Put.
  destruct (ldb_put_spec (h_db h) (constructLevelKey (h_dbName h) k) v Hs) as (s' & -> & Hs' & Hc).
  eexists. split; [done|]. split; [done|]. intros k'. unfold handle_view. cbn. rewrite Hc.
  destruct (decide (k' = k)) as [->|Hne]; [apply lookup_insert_eq|].
  apply lookup_insert_ne. intros E. by apply constructLevelKey_inj in E as [_ ?].
Qed.

(** An operation [act] run with the head of the fault list: it succeeded, it
    failed and did nothing, or the process died before or after it. *)
Lemma effect_cases (act : ST (World S) unit) fails msg (w : World S) (post : World S -> Prop) :
  fails NoFault = false ->
  (forall w1, w_disk w1 = w_disk w -> w_db w1 = w_db w ->
     exists w2, act w1 = (w2, Ok tt) /\ w_faults w2 = w_faults w1 /\ post w2) ->
  exists w' r, effect act fails msg w = (w', r) /\ w_faults w' = tail (w_faults w) /\
    ((r = Ok tt /\ post w') \/
     (r = Err msg /\ w_disk w' = w_disk w /\ w_db w' = w_db w /\
        exists f, f ∈ w_faults w /\ fails f = true) \/
     (r = Panic "the process died" /\ may_crash w /\
        (post w' \/ w_disk w' = w_disk w /\ w_db w' = w_db w))).
Proof.
  intros Hno Hact. set (w1 := mkWorld (w_disk w) (w_db w) (tail (w_faults w))).
  set (f := hd NoFault (w_faults w)).
  assert (next_fault w = (w1, Ok f)) as En.
  { unfold next_fault, w1, f. destruct w as [d h [|g fs]]; done. }
  assert (f = NoFault \/ f ∈ w_faults w) as Hin.
  { unfold f. destruct (w_faults w) as [|g fs]; [by left|]. right. left. }
  clearbody f. destruct (Hact w1 eq_refl eq_refl) as (w2 & Ea & Ef & Hp).
  unfold effect. rewrite (st_bind_Ok _ _ _ _ _ En).
  assert ((exists k, f = Crash k) \/ forall k, f <> Crash k) as [[k E]|Hnc].
  { destruct f; first [left; by eexists|right; discriminate]. }
  - rewrite E in *. destruct Hin as [|Hin]; [done|]. assert (may_crash w) as Hc by (by exists k).
    destruct (decide (k = O)).
    + exists w1, (Panic "the process died"). split; [done|]. split; [done|]. right. right. auto.
    + exists w2, (Panic "the process died"). rewrite (st_bind_Ok _ _ _ _ _ Ea).
      split; [done|]. split; [by rewrite Ef|]. right. right. auto.
  - destruct (fails f) eqn:Efl.
    + destruct Hin as [Hin|Hin]; [congruence|]. exists w1, (Err msg).
      split; [destruct f as [|k|k| | | | |]; first [done|exfalso; by eapply Hnc]|].
      split; [done|]. right. left. eauto 10.
    + exists w2, (Ok tt). split; [destruct f as [|k|k| | | | |]; first [done|exfalso; by eapply Hnc]|].
      split; [by rewrite Ef|]. by left.
Qed.

(** The world after an operation: the faults it used are gone. *)
Definition fewer_faults (w w' : World S) : Prop := w_faults w' `suffix_of` w_faults w.

#[global] Instance fewer_faults_po : PreOrder fewer_faults.
Proof.
  split; [intros w; unfold fewer_faults; done|].
  intros w1 w2 w3. unfold fewer_faults. intros ??. by etrans.
Qed.

Lemma tail_suffix {A} (l : list A) : tail l `suffix_of` l.
Proof. destruct l as [|a l]; [done|]. by exists [a]. Qed.

(** An operation on the database: it took place and [Q] holds of the new
    content, or nothing changed. *)
Lemma db_effect_cases (act : ST (World S) unit) fails msg (w : World S)
    (Q : (bytes -> option bytes) -> Prop) :
  world_ok w -> fails NoFault = false ->
  (forall w1, w_disk w1 = w_disk w -> w_db w1 = w_db w ->
     exists h', act w1 = (mkWorld (w_disk w1) h' (w_faults w1), Ok tt) /\ handle_ok h' /\
       Q (handle_view h')) ->
  exists w' r, effect act fails msg w = (w', r) /\ fewer_faults w w' /\ world_ok w' /\
    w_disk w' = w_disk w /\
    (Q (view w') /\ (r = Ok tt \/ may_crash w /\ exists m, r = Panic m) \/
     view w' = view w /\
       ((exists f, f ∈ w_faults w /\ fails f = true) /\ (exists e, r = Err e) \/
        may_crash w /\ exists m, r = Panic m)).
Proof.
  intros Hw Hno Hact.
  destruct (effect_cases act fails msg w
    (fun w' => world_ok w' /\ w_disk w' = w_disk w /\ Q (view w'))) as (w' & r & E & Hf & Hr).
  - done.
  - intros w1 Ed Eb. destruct (Hact w1 Ed Eb) as (h' & Ea & Hok & HQ).
    eexists. split; [exact Ea|]. by rewrite Ed.
  - exists w', r. split; [exact E|]. split; [unfold fewer_faults; rewrite Hf; apply tail_suffix|].
    destruct Hr as [(-> & Hok & Ed & HQ)|[(-> & Ed & Eb & Hin)|(-> & Hc & [(Hok & Ed & HQ)|[Ed Eb]])]].
    + auto 6.
    + unfold world_ok, view. rewrite Eb. eauto 8.
    + eauto 8.
    + unfold world_ok, view. rewrite Eb. eauto 8.
Qed.

Lemma db_Put_cases (w : World S) k v sync :
  world_ok w ->
  exists w' r, db_Put k v sync w = (w', r) /\ fewer_faults w w' /\ world_ok w' /\
    w_disk w' = w_disk w /\
    ((forall k', view w' k' = if decide (k' = k) then Some v else view w k') /\
       (r = Ok tt \/ may_crash w /\ exists m, r = Panic m) \/
     view w' = view w /\
       ((exists f, f ∈ w_faults w /\ match f with PutFails => true | _ => false end = true) /\
          (exists e, r = Err e) \/ may_crash w /\ exists m, r = Panic m)).
Proof.
  intros Hw. apply (db_effect_cases _ _ _ w
    (fun vw => forall k', vw k' = if decide (k' = k) then Some v else view w k')); [done..|].
  intros w1 Ed Eb. destruct (Put_spec (w_db w) k v sync Hw) as (h' & EP & Hok & Hv).
  exists h'. split; [|done]. unfold mbind, st_bind, st_get, st_lift. by rewrite Eb, EP.
Qed.

Lemma db_WriteBatch_cases (w : World S) batch sync :
  world_ok w ->
  exists w' r, db_WriteBatch batch sync w = (w', r) /\ fewer_faults w w' /\ world_ok w' /\
    w_disk w' = w_disk w /\
    ((forall k, view w' k = match batch !! k with Some v => v | None => view w k end) /\
       (r = Ok tt \/ may_crash w /\ exists m, r = Panic m) \/
     view w' = view w /\
       ((exists f, f ∈ w_faults w /\ match f with BatchFails => true | _ => false end = true) /\
          (exists e, r = Err e) \/ may_crash w /\ exists m, r = Panic m)).
Proof.
  intros Hw. apply (db_effect_cases _ _ _ w
    (fun vw => forall k, vw k = match batch !! k with Some v => v | None => view w k end)); [done..|].
  intros w1 Ed Eb. destruct (WriteBatch_spec (w_db w) batch sync Hw) as (h' & EP & Hok & _ & Hv & _).
  exists h'. split; [|done]. unfold mbind, st_bind, st_get, st_lift. by rewrite Eb, EP.
Qed.

(** Opening a writer on a new file. *)
Lemma newBlockfileWriter_cases (w : World S) path :
  world_ok w ->
  exists w' r, newBlockfileWriter path w = (w', r) /\ fewer_faults w w' /\ world_ok w' /\
    w_db w' = w_db w /\
    (w_disk w' = match w_disk w !! path with
                 | Some _ => w_disk w | None => <[path := []]> (w_disk w) end /\
       (r = Ok path \/ may_crash w /\ exists m, r = Panic m) \/
     w_disk w' = w_disk w /\
       ((exists f, f ∈ w_faults w /\ match f with OpenFails => true | _ => false end = true) /\
          (exists e, r = Err e) \/ may_crash w /\ exists m, r = Panic m)).
Proof.
  intros Hw. unfold newBlockfileWriter.
  destruct (effect_cases
    (w ← st_get; set_disk (match w_disk w !! path with
                           | Some _ => w_disk w | None => <[path := []]> (w_disk w) end))
    (fun f => match f with OpenFails => true | _ => false end) "open failed" w
    (fun w' => w_db w' = w_db w /\
       w_disk w' = match w_disk w !! path with
                   | Some _ => w_disk w | None => <[path := []]> (w_disk w) end))
    as (w' & r & E & Hf & Hr).
  - done.
  - intros w1 Ed Eb. eexists. split; [reflexivity|]. cbn. by rewrite Ed.
  - assert (fewer_faults w w') as Hff by (unfold fewer_faults; rewrite Hf; apply tail_suffix).
    rewrite (st_bind_eq _ _ _ _ _ E).
    destruct Hr as [(-> & Eb & Ed)|[(-> & Ed & Eb & Hin)|(-> & Hc & [(Eb & Ed)|[Ed Eb]])]];
      unfold world_ok in *; rewrite <- Eb in Hw; eexists _, _; (split; [reflexivity|]); eauto 10.
Qed.

(** Bytes that reach the file are a prefix of those written. *)
Lemma append_cases (w : World S) path b sync :
  world_ok w ->
  exists w' r p, append path b sync w = (w', r) /\ fewer_faults w w' /\ w_db w' = w_db w /\
    p `prefix_of` b /\
    w_disk w' = <[path := default [] (w_disk w !! path) ++ p]> (w_disk w) /\
    (r = Ok tt /\ p = b \/
     (exists f, f ∈ w_faults w /\ f <> NoFault) /\ (exists e, r = Err e) \/
     may_crash w /\ exists m, r = Panic m).
Proof.
  intros Hw. set (w1 := mkWorld (w_disk w) (w_db w) (tail (w_faults w))).
  set (f := hd NoFault (w_faults w)).
  assert (next_fault w = (w1, Ok f)) as En.
  { unfold next_fault, w1, f. destruct w as [d h [|g fs]]; done. }
  assert (f = NoFault \/ f ∈ w_faults w) as Hin.
  { unfold f. destruct (w_faults w) as [|g fs]; [by left|]. right. left. }
  unfold append. rewrite (st_bind_Ok _ _ _ _ _ En). clearbody f.
  assert (forall w', w_faults w' = w_faults w1 -> fewer_faults w w') as Hff.
  { intros w' E. unfold fewer_faults. rewrite E. apply tail_suffix. }
  pose proof (fun k => prefix_take b k) as Hpre.
  destruct f as [|k|k| | | | |]; (destruct Hin as [Hin|Hin]; [try discriminate Hin|]).
  all: try (eexists _, _, b; split; [reflexivity|]; split; [by apply Hff|]; by eauto 8).
  - eexists _, _, (take k b). split; [reflexivity|]. split; [by apply Hff|].
    split; [done|]. split; [done|]. split; [done|]. right. right. split; [by exists k|eauto].
  - eexists _, _, (take k b). split; [reflexivity|]. split; [by apply Hff|].
    split; [done|]. split; [done|]. split; [done|]. right. left.
    split; [by exists (WriteFails k)|eauto].
  - destruct sync; eexists _, _, b; (split; [reflexivity|]); (split; [by apply Hff|]);
      (split; [done|]); (split; [done|]); (split; [done|]); [|by left].
    right. left. split; [by exists SyncFails|eauto].
Qed.

Lemma truncate_cases (w : World S) path file n :
  w_disk w !! path = Some file -> TruncateFails ∉ w_faults w ->
  exists w' r, truncateFile path (Z.of_nat n) w = (w', r) /\ fewer_faults w w' /\ w_db w' = w_db w /\
    (w_disk w' = <[path := take n file]> (w_disk w) /\ r = Ok tt \/
     w_disk w' = w_disk w /\ may_crash w /\ exists m, r = Panic m).
Proof.
  intros Hfile Hnt. unfold truncateFile, mbind, st_bind at 1, st_get. rewrite Hfile.
  change (default [] (Some ?x)) with x.
  destruct (Z.ltb_spec (Z.of_nat n) (Z.of_nat (length file))) as [Hl|Hl].
  2: { exists w, (Ok tt). split; [done|]. split; [reflexivity|]. split; [done|]. left. split; [|done].
       rewrite take_ge by lia. by rewrite insert_id. }
  unfold next_fault, fewer_faults, may_crash. rewrite Nat2Z.id.
  destruct w as [d h [|g fs]]; cbn [w_faults w_disk w_db] in *.
  { eexists _, _. split; [reflexivity|]. cbn. auto 6. }
  apply not_elem_of_cons in Hnt as [Hg Hnt].
  assert (fs `suffix_of` g :: fs) as Hsuf by (by exists [g]).
  destruct g as [|k|k| | | | |]; try done;
    (eexists _, _; split; [reflexivity|]; cbn; split; [done|]; split; [done|]).
  all: try by left. right. split; [done|]. split; [|eauto]. exists k. left.
Qed.

End WorldFacts.

(** Turn an error of a call into a value, or into a panic. *)
Definition st_try {St A} (m : ST St A) : ST St (A + string) := fun s =>
  let '(s, r) := m s in
  match r with
  | Ok a => (s, Ok (inl a))
  | Err e => (s, Ok (inr e))
  | Panic p => (s, Panic p)
  | OutOfFuel => (s, OutOfFuel)
  end.

Definition or_panic {St A} (m : ST St A) : ST St A := fun s =>
  let '(s, r) := m s in
  match r with
  | Err e => (s, Panic e)
  | r => (s, r)
  end.

End World.

(** ** blockindex.go *)

Module BlockIndex.
Import World Provider Varint Buf OrderPreserving BlockSerialization.

Inductive IndexableAttr :=
| IndexableAttrBlockNum
| IndexableAttrBlockHash
| IndexableAttrTxID
| IndexableAttrBlockNumTranNum
| IndexableAttrBlockTxID
| IndexableAttrTxValidationCode.

#[export] Instance IndexableAttr_eq_dec : EqDecision IndexableAttr.
Proof. solve_decision. Defined.

Definition ErrNotFoundInIndex : string := "Entry not found in index".
Definition ErrAttrNotIndexed : string := "Attribute not indexed".
Definition errIndexEmpty : string := "NoBlockIndexed".

Definition indexCheckpointKey : bytes := to_bytes "indexCheckpointKey".

Record fileLocPointer := mkFLP { fileSuffixNum : Z; flp_loc : locPointer }.

Record blockIdxInfo := mkBlockIdxInfo {
  bi_blockNum : Z;
  bi_blockHash : bytes;
  bi_flp : fileLocPointer;
  bi_txOffsets : list txindexInfo;
  bi_metadata : list bytes
}.

Definition newFileLocationPointer (fileSuffixNum beginningOffset : Z) (relativeLP : locPointer) :
    fileLocPointer :=
  mkFLP fileSuffixNum (mkLoc (beginningOffset + offset relativeLP) (bytesLength relativeLP)).

Definition flp_marshal (flp : fileLocPointer) : bytes :=
  EncodeVarint (wrap64 (fileSuffixNum flp)) ++ EncodeVarint (wrap64 (offset (flp_loc flp))) ++
  EncodeVarint (wrap64 (bytesLength (flp_loc flp))).

(** The receiver after the call, with the fields that were decoded before an
    error, and the error. *)
Definition flp_unmarshal (b : bytes) : fileLocPointer * res unit :=
  match buf_DecodeVarint b with
  | Ok (i, b) =>
      let f := int64 i in
      match buf_DecodeVarint b with
      | Ok (i, b) =>
          let off := int64 i in
          match buf_DecodeVarint b with
          | Ok (i, _) => (mkFLP f (mkLoc off (int64 i)), Ok tt)
          | r => (mkFLP f (mkLoc off 0), _ ← r; Ok tt)
          end
      | r => (mkFLP f (mkLoc 0 0), _ ← r; Ok tt)
      end
  | r => (mkFLP 0 (mkLoc 0 0), _ ← r; Ok tt)
  end.

Definition constructBlockNumKey (blockNum : Z) : res bytes :=
  blkNumBytes ← EncodeOrderPreservingVarUint64 blockNum; Ok ("n"%char :: blkNumBytes).

Definition constructBlockHashKey (blockHash : bytes) : bytes := "h"%char :: blockHash.
Definition constructTxIDKey (txID : string) : bytes := "t"%char :: to_bytes txID.
Definition constructBlockTxIDKey (txID : string) : bytes := "b"%char :: to_bytes txID.
Definition constructTxValidationCodeIDKey (txID : string) : bytes := "v"%char :: to_bytes txID.

Definition constructBlockNumTranNumKey (blockNum txNum : Z) : res bytes :=
  blkNumBytes ← EncodeOrderPreservingVarUint64 blockNum;
  tranNumBytes ← EncodeOrderPreservingVarUint64 txNum;
  Ok ("a"%char :: blkNumBytes ++ tranNumBytes).

Definition encodeBlockNum (blockNum : Z) : bytes := EncodeVarint blockNum.
Definition decodeBlockNum (blockNumBytes : bytes) : Z := fst (DecodeVarint blockNumBytes).

(** [blockIndex]: the attributes that are indexed; the database is that of the
    world. *)
Abbreviation index_items := (list IndexableAttr).

Definition newBlockIndex (AttrsToIndex : list IndexableAttr) : index_items := AttrsToIndex.

Definition indexed (items : index_items) (a : IndexableAttr) : bool := bool_decide (a ∈ items).

Definition put_batch (batch : KVBatch) (kv : bytes * bytes) : res KVBatch :=
  batch_Put batch kv.1 (Some kv.2).

(** The entry of one transaction in each of the indexes 3 to 6. *)
Definition txid_entry (flp : fileLocPointer) (txoffset : txindexInfo) : bytes * bytes :=
  (constructTxIDKey (ti_txID txoffset),
   flp_marshal (newFileLocationPointer (fileSuffixNum flp) (offset (flp_loc flp)) (ti_loc txoffset))).

Definition trannum_entry (blockNum : Z) (flp : fileLocPointer) (txIterator : nat)
    (txoffset : txindexInfo) : res (bytes * bytes) :=
  key ← constructBlockNumTranNumKey blockNum (Z.of_nat txIterator);
  Ok (key,
      flp_marshal (newFileLocationPointer (fileSuffixNum flp) (offset (flp_loc flp)) (ti_loc txoffset))).

Definition code_entry (txsfltr : bytes) (idx : nat) (txoffset : txindexInfo) : res (bytes * bytes) :=
  flag ← Flags.Flag txsfltr idx;
  Ok (constructTxValidationCodeIDKey (ti_txID txoffset), [uint8 flag]).

Fixpoint mapi_res {A B} (f : nat -> A -> res B) (i : nat) (l : list A) : res (list B) :=
  match l with
  | [] => Ok []
  | a :: l' => b ← f i a; bs ← mapi_res f (Datatypes.S i) l'; Ok (b :: bs)
  end.

(** The batch [indexBlock] writes, from the guards of the six indexes. *)
Definition index_batch (items : index_items) (info : blockIdxInfo) : res KVBatch :=
  let flp := bi_flp info in
  let txOffsets := bi_txOffsets info in
  txsfltr ← match bi_metadata info !! TRANSACTIONS_FILTER with
            | Some f => Ok f
            | None => Panic "index out of range"
            end;
  let batch := NewUpdateBatch in
  let flpBytes := flp_marshal flp in
  batch ← if indexed items IndexableAttrBlockHash
          then put_batch batch (constructBlockHashKey (bi_blockHash info), flpBytes)
          else Ok batch;
  batch ← if indexed items IndexableAttrBlockNum
          then key ← constructBlockNumKey (bi_blockNum info); put_batch batch (key, flpBytes)
          else Ok batch;
  batch ← if indexed items IndexableAttrTxID
          then foldM put_batch batch (txid_entry flp <$> txOffsets)
          else Ok batch;
  batch ← if indexed items IndexableAttrBlockNumTranNum
          then es ← mapi_res (trannum_entry (bi_blockNum info) flp) 0 txOffsets;
               foldM put_batch batch es
          else Ok batch;
  batch ← if indexed items IndexableAttrBlockTxID
          then foldM put_batch batch
                 ((fun t => (constructBlockTxIDKey (ti_txID t), flpBytes)) <$> txOffsets)
          else Ok batch;
  batch ← if indexed items IndexableAttrTxValidationCode
          then es ← mapi_res (code_entry txsfltr) 0 txOffsets; foldM put_batch batch es
          else Ok batch;
  put_batch batch (indexCheckpointKey, encodeBlockNum (bi_blockNum info)).

Section BlockIndex.
Context {S : Type} `{LevelDB S}.

Definition indexBlock (items : index_items) (info : blockIdxInfo) : ST (World S) unit :=
  match items with
  | [] => mret tt
  | _ =>
      batch ← st_lift (index_batch items info);
      db_WriteBatch batch true
  end.

Definition getLastBlockIndexed (db : DBHandle S) : res Z :=
  blockNumBytes ← Get db indexCheckpointKey;
  match blockNumBytes with
  | None => Err errIndexEmpty
  | Some b => Ok (decodeBlockNum b)
  end.

(** The error of [unmarshal] is dropped. *)
Definition get_loc (db : DBHandle S) (key : bytes) : res fileLocPointer :=
  b ← Get db key;
  match b with
  | None => Err ErrNotFoundInIndex
  | Some b => Ok (fst (flp_unmarshal b))
  end.

Definition getBlockLocByHash (items : index_items) (db : DBHandle S) (blockHash : bytes) :
    res fileLocPointer :=
  if negb (indexed items IndexableAttrBlockHash) then Err ErrAttrNotIndexed
  else get_loc db (constructBlockHashKey blockHash).

Definition getBlockLocByBlockNum (items : index_items) (db : DBHandle S) (blockNum : Z) :
    res fileLocPointer :=
  if negb (indexed items IndexableAttrBlockNum) then Err ErrAttrNotIndexed
  else key ← constructBlockNumKey blockNum; get_loc db key.

Definition getTxLoc (items : index_items) (db : DBHandle S) (txID : string) : res fileLocPointer :=
  if negb (indexed items IndexableAttrTxID) then Err ErrAttrNotIndexed
  else get_loc db (constructTxIDKey txID).

Definition getBlockLocByTxID (items : index_items) (db : DBHandle S) (txID : string) :
    res fileLocPointer :=
  if negb (indexed items IndexableAttrBlockTxID) then Err ErrAttrNotIndexed
  else get_loc db (constructBlockTxIDKey txID).

Definition getTXLocByBlockNumTranNum (items : index_items) (db : DBHandle S) (blockNum tranNum : Z) :
    res fileLocPointer :=
  if negb (indexed items IndexableAttrBlockNumTranNum) then Err ErrAttrNotIndexed
  else key ← constructBlockNumTranNumKey blockNum tranNum; get_loc db key.

Definition getTxValidationCodeByTxID (items : index_items) (db : DBHandle S) (txID : string) :
    res Z :=
  if negb (indexed items IndexableAttrTxValidationCode) then Err ErrAttrNotIndexed
  else
    raw ← Get db (constructTxValidationCodeIDKey txID);
    match raw with
    | None => Err ErrNotFoundInIndex
    | Some [b] => Ok (byte_val b)
    | Some _ => Err "Invalid value in indexItems"
    end.

End BlockIndex.

(** *** What a block adds to the index *)

Definition key_num (n : Z) : bytes := "n"%char :: enc n.
Definition key_tran (n t : Z) : bytes := "a"%char :: enc n ++ enc t.

Definition tx_flp (flp : fileLocPointer) (t : txindexInfo) : bytes :=
  flp_marshal (newFileLocationPointer (fileSuffixNum flp) (offset (flp_loc flp)) (ti_loc t)).

Definition when (b : bool) (l : list (bytes * bytes)) : list (bytes * bytes) := if b then l else [].

Definition block_entries (items : index_items) (info : blockIdxInfo) : list (bytes * bytes) :=
  let flpBytes := flp_marshal (bi_flp info) in
  let txs := bi_txOffsets info in
  let flags := default [] (bi_metadata info !! TRANSACTIONS_FILTER) in
  when (indexed items IndexableAttrBlockHash)
    [(constructBlockHashKey (bi_blockHash info), flpBytes)] ++
  when (indexed items IndexableAttrBlockNum) [(key_num (bi_blockNum info), flpBytes)] ++
  when (indexed items IndexableAttrTxID) (txid_entry (bi_flp info) <$> txs) ++
  when (indexed items IndexableAttrBlockNumTranNum)
    (imap (fun i t => (key_tran (bi_blockNum info) (Z.of_nat i), tx_flp (bi_flp info) t)) txs) ++
  when (indexed items IndexableAttrBlockTxID)
    ((fun t => (constructBlockTxIDKey (ti_txID t), flpBytes)) <$> txs) ++
  when (indexed items IndexableAttrTxValidationCode)
    (imap (fun i t => (constructTxValidationCodeIDKey (ti_txID t), [default (uint8 0) (flags !! i)])) txs) ++
  [(indexCheckpointKey, encodeBlockNum (bi_blockNum info))].

(** The metadata has the entry of the flags, with a flag for every transaction
    if the flags are indexed. *)
Definition info_wf (items : index_items) (info : blockIdxInfo) : Prop :=
  u64 (bi_blockNum info) /\ u64 (Z.of_nat (length (bi_txOffsets info))) /\
  exists flags, bi_metadata info !! TRANSACTIONS_FILTER = Some flags /\
    (indexed items IndexableAttrTxValidationCode = true -> (length (bi_txOffsets info) <= length flags)%nat).

Definition put_entry (m : gmap bytes bytes) (kv : bytes * bytes) : gmap bytes bytes :=
  <[kv.1 := kv.2]> m.

Definition put_entries (kvs : list (bytes * bytes)) (m : gmap bytes bytes) : gmap bytes bytes :=
  foldl put_entry m kvs.

Definition add_entries (batch : KVBatch) (kvs : list (bytes * bytes)) : KVBatch :=
  foldl (fun b kv => <[kv.1 := Some kv.2]> b) batch kvs.

Lemma put_batch_loop batch kvs : foldM put_batch batch kvs = Ok (add_entries batch kvs).
Proof. apply foldM_foldl. by intros b [k v] _. Qed.

Lemma mapi_res_imap {A B} (f : nat -> A -> res B) (g : nat -> A -> B) i l :
  (forall j a, l !! j = Some a -> f (i + j)%nat a = Ok (g (i + j)%nat a)) ->
  mapi_res f i l = Ok (imap (fun j => g (i + j)%nat) l).
Proof.
  revert i. induction l as [|a l IH]; intros i Hf; [done|]. cbn [mapi_res imap].
  rewrite <- (Nat.add_0_r i) at 1. rewrite (Hf 0%nat a eq_refl). rewrite res_ret_bind.
  rewrite IH by (intros j b Hj; rewrite Nat.add_succ_comm; by apply (Hf (Datatypes.S j))).
  rewrite res_ret_bind. do 2 f_equal. apply imap_ext. intros j b _. cbn.
  by rewrite Nat.add_succ_r.
Qed.

Lemma add_entries_app batch l1 l2 :
  add_entries batch (l1 ++ l2) = add_entries (add_entries batch l1) l2.
Proof. apply foldl_app. Qed.

Lemma add_when (b : bool) batch l :
  (if b then Ok (add_entries batch l) else Ok batch) = Ok (add_entries batch (when b l)) :> res KVBatch.
Proof. by destruct b. Qed.

Lemma index_batch_ok items info :
  info_wf items info -> index_batch items info = Ok (add_entries ∅ (block_entries items info)).
Proof.
  intros (Hn & Hl & flags & Ef & Hlen). unfold index_batch. rewrite Ef, res_ret_bind.
  assert (constructBlockNumKey (bi_blockNum info) = Ok (key_num (bi_blockNum info))) as Ek.
  { unfold constructBlockNumKey. by rewrite Encode_enc by done. }
  assert (mapi_res (trannum_entry (bi_blockNum info) (bi_flp info)) 0 (bi_txOffsets info) =
    Ok (imap (fun i t => (key_tran (bi_blockNum info) (Z.of_nat i), tx_flp (bi_flp info) t))
          (bi_txOffsets info))) as Et.
  { rewrite (mapi_res_imap _ (fun i t => (key_tran (bi_blockNum info) (Z.of_nat i), tx_flp (bi_flp info) t)));
      [done|].
    intros j t Hj. apply lookup_lt_Some in Hj. unfold trannum_entry, constructBlockNumTranNumKey.
    by rewrite !Encode_enc by (done || (unfold u64 in *; cbn; lia)). }
  assert (indexed items IndexableAttrTxValidationCode = true -> mapi_res (code_entry flags) 0 (bi_txOffsets info) =
    Ok (imap (fun i t => (constructTxValidationCodeIDKey (ti_txID t), [default (uint8 0) (flags !! i)]))
          (bi_txOffsets info))) as Ec.
  { intros Hi. specialize (Hlen Hi). rewrite (mapi_res_imap _
      (fun i t => (constructTxValidationCodeIDKey (ti_txID t), [default (uint8 0) (flags !! i)]))); [done|].
    intros j t Hj. apply lookup_lt_Some in Hj. unfold code_entry, Flags.Flag. cbn.
    destruct (lookup_lt_is_Some_2 flags j) as [b Hb]; [lia|]. rewrite Hb. cbn.
    by rewrite uint8_byte_val. }
  unfold block_entries. rewrite Ef. change (default [] (Some ?x)) with x.
  change (put_batch ?b ?kv) with (Ok (add_entries b [kv]) : res KVBatch).
  rewrite add_when, res_ret_bind. rewrite Ek, res_ret_bind.
  change (put_batch ?b ?kv) with (Ok (add_entries b [kv]) : res KVBatch).
  rewrite add_when, res_ret_bind. rewrite put_batch_loop, add_when, res_ret_bind.
  rewrite Et, res_ret_bind, put_batch_loop, add_when, res_ret_bind.
  rewrite put_batch_loop, add_when, res_ret_bind.
  destruct (indexed items IndexableAttrTxValidationCode);
    [rewrite Ec, res_ret_bind, put_batch_loop, res_ret_bind by done|rewrite res_ret_bind].
  all: change (put_batch ?b ?kv) with (Ok (add_entries b [kv]) : res KVBatch).
  all: by rewrite !add_entries_app.
Qed.

(** The batch and the map of the entries agree. *)
Lemma add_entries_lookup (kvs : list (bytes * bytes)) (m : gmap bytes bytes) (v : bytes -> option bytes) k :
  v k = m !! k ->
  match add_entries ∅ kvs !! k with Some x => x | None => v k end = put_entries kvs m !! k.
Proof.
  intros Ev. unfold add_entries, put_entries.
  assert (forall (b : KVBatch) (m' : gmap bytes bytes), match b !! k with Some x => x | None => v k end = m' !! k ->
    match foldl (fun b kv => <[kv.1 := Some kv.2]> b) b kvs !! k with Some x => x | None => v k end =
    foldl put_entry m' kvs !! k) as HH; [|apply HH; by rewrite lookup_empty].
  clear m Ev. induction kvs as [|[k' x] kvs IH]; intros b m' E; [done|]. cbn [foldl]. apply IH.
  unfold put_entry. cbn. destruct (decide (k' = k)) as [->|Hne].
  - by rewrite !lookup_insert_eq.
  - by rewrite !lookup_insert_ne.
Qed.

Lemma put_entries_notin (kvs : list (bytes * bytes)) (m : gmap bytes bytes) k : k ∉ kvs.*1 -> put_entries kvs m !! k = m !! k.
Proof.
  unfold put_entries. revert m. induction kvs as [|[k' x] kvs IH]; intros m Hk; [done|].
  cbn in *. apply not_elem_of_cons in Hk as [Hne Hk]. rewrite IH by done.
  by rewrite lookup_insert_ne.
Qed.

Lemma put_entries_app l1 l2 m : put_entries (l1 ++ l2) m = put_entries l2 (put_entries l1 m).
Proof. apply foldl_app. Qed.

(** The last entry of a key counts. *)
Lemma put_entries_last (l1 l2 : list (bytes * bytes)) (m : gmap bytes bytes) k v :
  k ∉ l2.*1 -> put_entries (l1 ++ (k, v) :: l2) m !! k = Some v.
Proof.
  intros Hk. rewrite put_entries_app. change ((k, v) :: l2) with ([(k, v)] ++ l2).
  rewrite put_entries_app, put_entries_notin by done. apply lookup_insert_eq.
Qed.

(** Only the entries of the same kind matter. *)
Definition same_head (k : bytes) (kv : bytes * bytes) : Prop := head kv.1 = head k.

#[global] Instance same_head_dec k kv : Decision (same_head k kv).
Proof. unfold same_head. apply _. Defined.

Lemma put_entries_filter (kvs : list (bytes * bytes)) (m : gmap bytes bytes) k :
  put_entries kvs m !! k = put_entries (filter (same_head k) kvs) m !! k.
Proof.
  unfold put_entries.
  assert (forall m1 m2 : gmap bytes bytes, m1 !! k = m2 !! k ->
    foldl put_entry m1 kvs !! k = foldl put_entry m2 (filter (same_head k) kvs) !! k) as HH;
    [|by apply HH].
  induction kvs as [|[k' x] kvs IH]; intros m1 m2 E; [done|]. rewrite filter_cons. cbn [foldl].
  destruct (decide (same_head k (k', x))) as [Hs|Hs].
  - cbn [foldl]. apply IH. unfold put_entry. cbn. destruct (decide (k' = k)) as [->|Hne].
    + by rewrite !lookup_insert_eq.
    + by rewrite !lookup_insert_ne.
  - apply IH. unfold put_entry. cbn. rewrite lookup_insert_ne; [done|]. intros ->. by apply Hs.
Qed.

(** *** Locations *)

Definition flp_ok (flp : fileLocPointer) : Prop :=
  0 <= fileSuffixNum flp < 2 ^ 63 /\ 0 <= offset (flp_loc flp) < 2 ^ 63 /\
  0 <= bytesLength (flp_loc flp) < 2 ^ 63.

Lemma flp_roundtrip flp : flp_ok flp -> flp_unmarshal (flp_marshal flp) = (flp, Ok tt).
Proof.
  intros (H1 & H2 & H3). unfold flp_unmarshal, flp_marshal.
  rewrite !wrap64_small by (unfold u64; lia).
  rewrite buf_DecodeVarint_encode by (unfold u64; lia).
  rewrite buf_DecodeVarint_encode by (unfold u64; lia).
  rewrite <- (app_nil_r (EncodeVarint (bytesLength _))).
  rewrite buf_DecodeVarint_encode by (unfold u64; lia).
  rewrite !int64_small by lia. by destruct flp as [f [o l]].
Qed.

Global Arguments flp_marshal : simpl never.
Global Arguments flp_unmarshal : simpl never.
Global Arguments key_num : simpl never.
Global Arguments key_tran : simpl never.

End BlockIndex.
