(* ===== verification/BlockMgr.v ===== *)
(** * The block file manager

    common/ledger/blkstorage/fsblkstorage: the manager that appends blocks,
    keeps the checkpoint and the index and recovers them on start
    (blockfile_mgr.go, blockfile_helper.go), the block iterator
    (blocks_itr.go), the store and its configuration (fs_blockstore.go,
    config.go). *)

From stdpp Require Import base gmap strings list.
From Stdlib Require Import Ascii ZArith Lia.
From S2P Require Import Prelude Version LevelDB Proto BlockHash BlockCodec BlockFiles BlockIndex.

Local Open Scope Z_scope.

Module BlockMgr.
Import FileName Streams World Provider Varint Buf BlockSerialization BlockIndex BlockHash ProtoUtils.

(** ** Checkpoints *)

Record checkpointInfo := mkCheckpointInfo {
  latestFileChunkSuffixNum : Z;
  latestFileChunksize : Z;
  isChainEmpty : bool;
  lastBlockNumber : Z
}.

Definition blkMgrInfoKey : bytes := to_bytes "blkMgrInfo".

Definition cp_marshal (i : checkpointInfo) : bytes :=
  EncodeVarint (wrap64 (latestFileChunkSuffixNum i)) ++
  EncodeVarint (wrap64 (latestFileChunksize i)) ++
  EncodeVarint (lastBlockNumber i) ++
  EncodeVarint (if isChainEmpty i then 1 else 0).

Definition cp_unmarshal (b : bytes) : res checkpointInfo :=
  '(suffix, b) ← buf_DecodeVarint b;
  '(size, b) ← buf_DecodeVarint b;
  '(last, b) ← buf_DecodeVarint b;
  '(chainEmptyMarker, b) ← buf_DecodeVarint b;
  Ok (mkCheckpointInfo (int64 suffix) (int64 size) (chainEmptyMarker =? 1) last).

(** [common.BlockchainInfo] *)
Record BlockchainInfo := mkBlockchainInfo {
  Height : Z;
  CurrentBlockHash : bytes;
  PreviousBlockHash : bytes
}.

(** [NewConf] *)
Definition defaultMaxBlockfileSize : Z := 64 * 1024 * 1024.

Definition NewConf (maxBlockfileSize : Z) : Z :=
  if maxBlockfileSize <=? 0 then defaultMaxBlockfileSize else maxBlockfileSize.

(** [scanForLastCompleteBlock] returns no error for a cut block; other errors
    panic here. *)
Definition syncCPInfoFromFS (d : disk) (cpInfo : checkpointInfo) : res checkpointInfo :=
  match d !! deriveBlockfilePath (latestFileChunkSuffixNum cpInfo) with
  | None => Ok cpInfo
  | Some file =>
      if Z.of_nat (length file) =? latestFileChunksize cpInfo then Ok cpInfo
      else
        match scanForLastCompleteBlock d (latestFileChunkSuffixNum cpInfo)
                (latestFileChunksize cpInfo) with
        | Ok (_, endOffsetLastBlock, numBlocks) =>
            if numBlocks =? 0 then
              Ok (mkCheckpointInfo (latestFileChunkSuffixNum cpInfo) endOffsetLastBlock
                    (isChainEmpty cpInfo) (lastBlockNumber cpInfo))
            else
              Ok (mkCheckpointInfo (latestFileChunkSuffixNum cpInfo) endOffsetLastBlock false
                    (if isChainEmpty cpInfo then numBlocks - 1
                     else wrap64 (lastBlockNumber cpInfo + numBlocks)))
        | Err e => Panic "Could not open current file for detecting last block in the file"
        | Panic m => Panic m
        | OutOfFuel => OutOfFuel
        end
  end.

Section Construct.
Context `{ProtoCodec}.

Definition constructCheckpointInfoFromBlockFiles (d : disk) : res checkpointInfo :=
  lastFileNum ← retrieveLastFileSuffix d;
  if lastFileNum =? -1 then Ok (mkCheckpointInfo 0 0 true 0)
  else
    _ ← getFileInfoOrPanic d lastFileNum;
    '(lastBlockBytes, endOffsetLastBlock, numBlocksInFile) ←
      scanForLastCompleteBlock d lastFileNum 0;
    lastBlockBytes ←
      (if (numBlocksInFile =? 0) && (0 <? lastFileNum) then
         let secondLastFileNum := lastFileNum - 1 in
         _ ← getFileInfoOrPanic d secondLastFileNum;
         '(lastBlockBytes, _, _) ← scanForLastCompleteBlock d secondLastFileNum 0;
         Ok lastBlockBytes
       else Ok lastBlockBytes);
    lastBlockNumber ←
      match lastBlockBytes with
      | None => Ok 0
      | Some bs => lastBlock ← deserializeBlock bs; Ok (Number (blk_Header lastBlock))
      end;
    Ok (mkCheckpointInfo lastFileNum endOffsetLastBlock
          ((lastFileNum =? 0) && (numBlocksInFile =? 0)) lastBlockNumber).

End Construct.

Section BlockMgr.
Context {S : Type} `{LevelDB S} `{ProtoCodec} `{CryptoHash}.

(** ** The manager *)

Record blockfileMgr := mkMgr {
  maxBlockfileSize : Z;
  index : index_items;
  cpInfo : checkpointInfo;
  currentFileWriter : string;
  bcInfo : BlockchainInfo
}.

Abbreviation MS := (blockfileMgr * World S)%type.

Definition on_world {A} (m : ST (World S) A) : ST MS A := fun s =>
  let '(g, w) := s in let '(w, r) := m w in ((g, w), r).

Definition set_mgr (f : blockfileMgr -> blockfileMgr) : ST MS unit :=
  st_modify (fun s => (f s.1, s.2)).

Definition loadCurrentInfo : ST (World S) (option checkpointInfo) :=
  b ← db_Get blkMgrInfoKey;
  match b with
  | None => mret None
  | Some b => i ← st_lift (cp_unmarshal b); mret (Some i)
  end.

Definition saveCurrentInfo (i : checkpointInfo) (sync : bool) : ST (World S) unit :=
  db_Put blkMgrInfoKey (cp_marshal i) sync.

Definition updateCheckpoint (cp : checkpointInfo) : ST MS unit :=
  set_mgr (fun g => mkMgr (maxBlockfileSize g) (index g) cp (currentFileWriter g) (bcInfo g)).

Definition updateBlockchainInfo (latestBlockHash : bytes) (latestBlock : Block) : ST MS unit :=
  set_mgr (fun g =>
    mkMgr (maxBlockfileSize g) (index g) (cpInfo g) (currentFileWriter g)
      (mkBlockchainInfo (wrap64 (Height (bcInfo g) + 1)) latestBlockHash
         (PreviousHash (blk_Header latestBlock)))).

Definition moveToNextFile : ST MS unit :=
  s ← st_get;
  let old := cpInfo s.1 in
  let cp := mkCheckpointInfo (latestFileChunkSuffixNum old + 1) 0 false (lastBlockNumber old) in
  nextFileWriter ← on_world (or_panic (newBlockfileWriter
                     (deriveBlockfilePath (latestFileChunkSuffixNum cp))));
  on_world (or_panic (saveCurrentInfo cp true));;
  set_mgr (fun g => mkMgr (maxBlockfileSize g) (index g) (cpInfo g) nextFileWriter (bcInfo g));;
  updateCheckpoint cp.

(** [txOffset.loc.offset += n] *)
Definition shift_loc (n : Z) (t : txindexInfo) : txindexInfo :=
  mkTxindexInfo (ti_txID t) (mkLoc (offset (ti_loc t) + n) (bytesLength (ti_loc t))).

(** Write the bytes, the checkpoint and the index of a block.  The error of
    [indexBlock] is dropped. *)
Definition write_block (block : Block) (blockBytes : bytes) (info : serializedBlockInfo)
    (blockHash : bytes) (currentOffset : Z) : ST MS unit :=
  s ← st_get;
  let writer := currentFileWriter s.1 in
  let currentCPInfo := cpInfo s.1 in
  let blockBytesLen := Z.of_nat (length blockBytes) in
  let blockBytesEncodedLen := EncodeVarint blockBytesLen in
  let totalBytesToAppend := blockBytesLen + Z.of_nat (length blockBytesEncodedLen) in
  r ← st_try (on_world (append writer blockBytesEncodedLen false;; append writer blockBytes true));
  match r with
  | inr err =>
      on_world (or_panic (truncateFile writer (latestFileChunksize currentCPInfo)));;
      st_lift (Err ("Error while appending block to file: " +:+ err))
  | inl _ =>
      let newCPInfo :=
        mkCheckpointInfo (latestFileChunkSuffixNum currentCPInfo)
          (latestFileChunksize currentCPInfo + totalBytesToAppend) false
          (Number (blk_Header block)) in
      r ← st_try (on_world (saveCurrentInfo newCPInfo false));
      match r with
      | inr err =>
          on_world (or_panic (truncateFile writer (latestFileChunksize currentCPInfo)));;
          st_lift (Err ("Error while saving current file info to db: " +:+ err))
      | inl _ =>
          let blockFLP := mkFLP (latestFileChunkSuffixNum newCPInfo) (mkLoc currentOffset 0) in
          let txOffsets :=
            shift_loc (Z.of_nat (length blockBytesEncodedLen)) <$> si_txOffsets info in
          _ ← st_try (on_world (indexBlock (index s.1)
                 (mkBlockIdxInfo (Number (blk_Header block)) blockHash blockFLP txOffsets
                    (blk_Metadata block))));
          updateCheckpoint newCPInfo;;
          updateBlockchainInfo blockHash block
      end
  end.

Definition addBlock (block : Block) : ST MS unit :=
  s ← st_get;
  if negb (Number (blk_Header block) =? Height (bcInfo s.1))
  then st_lift (Err "Block number should have been the height of the chain")
  else
    ser ← st_lift (match serializeBlock block with
                   | Err err => Err ("Error while serializing block: " +:+ err)
                   | r => r
                   end);
    let '(blockBytes, info) := ser in
    blockHash ← st_lift (header_Hash (blk_Header block));
    let currentOffset := latestFileChunksize (cpInfo s.1) in
    let blockBytesLen := Z.of_nat (length blockBytes) in
    let blockBytesEncodedLen := EncodeVarint blockBytesLen in
    let totalBytesToAppend := blockBytesLen + Z.of_nat (length blockBytesEncodedLen) in
    currentOffset ←
      (if maxBlockfileSize s.1 <? currentOffset + totalBytesToAppend
       then moveToNextFile;; mret 0
       else mret currentOffset);
    write_block block blockBytes info blockHash currentOffset.

(** ** Reading *)

Definition getBlockchainInfo (g : blockfileMgr) : BlockchainInfo := bcInfo g.

Definition fetchBlockBytes (d : disk) (lp : fileLocPointer) : res bytes :=
  stream ← newBlockfileStream d (fileSuffixNum lp) (offset (flp_loc lp));
  '(b, _) ← file_nextBlockBytes d stream;
  Ok (default [] b).

Definition fetchBlock (d : disk) (lp : fileLocPointer) : res Block :=
  blockBytes ← fetchBlockBytes d lp;
  deserializeBlock blockBytes.

Definition fetchRawBytes (d : disk) (lp : fileLocPointer) : res bytes :=
  reader_read d (deriveBlockfilePath (fileSuffixNum lp)) (offset (flp_loc lp))
    (bytesLength (flp_loc lp)).

Definition fetchTransactionEnvelope (d : disk) (lp : fileLocPointer) : res Envelope :=
  txEnvelopeBytes ← fetchRawBytes d lp;
  let '(_, n) := DecodeVarint txEnvelopeBytes in
  GetEnvelopeFromBlock (drop n txEnvelopeBytes).

Definition MaxUint64 : Z := 2 ^ 64 - 1.

Definition retrieveBlockByHash (s : MS) (blockHash : bytes) : res Block :=
  loc ← getBlockLocByHash (index s.1) (w_db s.2) blockHash;
  fetchBlock (w_disk s.2) loc.

Definition retrieveBlockByNumber (s : MS) (blockNum : Z) : res Block :=
  let blockNum :=
    if blockNum =? MaxUint64 then wrap64 (Height (getBlockchainInfo s.1) - 1) else blockNum in
  loc ← getBlockLocByBlockNum (index s.1) (w_db s.2) blockNum;
  fetchBlock (w_disk s.2) loc.

Definition retrieveBlockByTxID (s : MS) (txID : string) : res Block :=
  loc ← getBlockLocByTxID (index s.1) (w_db s.2) txID;
  fetchBlock (w_disk s.2) loc.

Definition retrieveTxValidationCodeByTxID (s : MS) (txID : string) : res Z :=
  getTxValidationCodeByTxID (index s.1) (w_db s.2) txID.

Definition retrieveBlockHeaderByNumber (s : MS) (blockNum : Z) : res BlockHeader :=
  loc ← getBlockLocByBlockNum (index s.1) (w_db s.2) blockNum;
  blockBytes ← fetchBlockBytes (w_disk s.2) loc;
  info ← extractSerializedBlockInfo blockBytes;
  Ok (si_blockHeader info).

Definition retrieveTransactionByID (s : MS) (txID : string) : res Envelope :=
  loc ← getTxLoc (index s.1) (w_db s.2) txID;
  fetchTransactionEnvelope (w_disk s.2) loc.

Definition retrieveTransactionByBlockNumTranNum (s : MS) (blockNum tranNum : Z) : res Envelope :=
  loc ← getTXLocByBlockNumTranNum (index s.1) (w_db s.2) blockNum tranNum;
  fetchTransactionEnvelope (w_disk s.2) loc.

(** ** Starting *)

(** The loop of [syncIndex] over the blocks that are left in the stream. *)
Fixpoint sync_loop (fuel : nat) (stream : blockStream) : ST MS unit :=
  match fuel with
  | O => st_lift OutOfFuel
  | Datatypes.S fuel' =>
      s ← st_get;
      r ← st_lift (nextBlockBytesAndPlacementInfo (w_disk s.2) stream);
      let '(blk, stream) := r in
      match blk with
      | None => mret tt
      | Some (blockBytes, pinfo) =>
          info ← st_lift (extractSerializedBlockInfo blockBytes);
          let numBytesToShift := pi_blockBytesOffset pinfo - pi_blockStartOffset pinfo in
          let txOffsets := shift_loc numBytesToShift <$> si_txOffsets info in
          blockHash ← st_lift (header_Hash (si_blockHeader info));
          on_world (indexBlock (index s.1)
            (mkBlockIdxInfo (Number (si_blockHeader info)) blockHash
               (mkFLP (pi_fileNum pinfo) (mkLoc (pi_blockStartOffset pinfo) 0)) txOffsets
               (si_metadata info)));;
          sync_loop fuel' stream
      end
  end.

(** The bytes of all files bound the number of blocks. *)
Definition disk_bytes (d : disk) : nat :=
  sum_list ((fun kv : string * bytes => length kv.2) <$> map_to_list d).

Definition syncIndex : ST MS unit :=
  s ← st_get;
  lastIndexed ← st_lift (match getLastBlockIndexed (w_db s.2) with
                         | Err e => if decide (e = errIndexEmpty) then Ok None else Err e
                         | Ok n => Ok (Some n)
                         | Panic m => Panic m
                         | OutOfFuel => OutOfFuel
                         end);
  let endFileNum := latestFileChunkSuffixNum (cpInfo s.1) in
  let fuel := Datatypes.S (disk_bytes (w_disk s.2)) in
  match lastIndexed with
  | Some lastBlockIndexed =>
      if lastBlockIndexed =? lastBlockNumber (cpInfo s.1) then mret tt
      else
        flp ← st_lift (getBlockLocByBlockNum (index s.1) (w_db s.2) lastBlockIndexed);
        stream ← st_lift (newBlockStream (w_disk s.2) (fileSuffixNum flp)
                            (offset (flp_loc flp)) endFileNum);
        r ← st_lift (nextBlockBytesAndPlacementInfo (w_disk s.2) stream);
        let '(blk, stream) := r in
        match blk with
        | None => st_lift (Err "block bytes should not be nil here")
        | Some _ => sync_loop fuel stream
        end
  | None =>
      stream ← st_lift (newBlockStream (w_disk s.2) 0 0 endFileNum);
      sync_loop fuel stream
  end.

(** The second half of [newBlockfileMgr], once the checkpoint is known and the
    writer open.  The error of [syncIndex] is dropped. *)
Definition start_mgr (conf : Z) (indexConfig : list IndexableAttr) (cp : checkpointInfo)
    (writer : string) : ST (World S) blockfileMgr :=
  or_panic (truncateFile writer (latestFileChunksize cp));;
  let mgr := mkMgr conf (newBlockIndex indexConfig) cp writer (mkBlockchainInfo 0 [] []) in
  if isChainEmpty cp then mret mgr
  else
    fun w =>
      let '((mgr, w), r) := st_try syncIndex (mgr, w) in
      match r with
      | Ok _ =>
          match retrieveBlockHeaderByNumber (mgr, w) (lastBlockNumber cp) with
          | Ok lastBlockHeader =>
              match header_Hash lastBlockHeader with
              | Ok lastBlockHash =>
                  (w, Ok (mkMgr conf (index mgr) cp writer
                            (mkBlockchainInfo (wrap64 (lastBlockNumber cp + 1)) lastBlockHash
                               (PreviousHash lastBlockHeader))))
              | Err e => (w, Err e) | Panic m => (w, Panic m) | OutOfFuel => (w, OutOfFuel)
              end
          | Err e => (w, Panic "Could not retrieve header of the last block form file")
          | Panic m => (w, Panic m)
          | OutOfFuel => (w, OutOfFuel)
          end
      | Err e => (w, Err e)
      | Panic m => (w, Panic m)
      | OutOfFuel => (w, OutOfFuel)
      end.

Definition newBlockfileMgr (conf : Z) (indexConfig : list IndexableAttr) :
    ST (World S) blockfileMgr :=
  cp ← or_panic loadCurrentInfo;
  w ← st_get;
  cp ← st_lift (match cp with
                | None =>
                    match constructCheckpointInfoFromBlockFiles (w_disk w) with
                    | Err e => Panic "Could not build checkpoint info from block files"
                    | r => r
                    end
                | Some cp => syncCPInfoFromFS (w_disk w) cp
                end);
  or_panic (saveCurrentInfo cp true);;
  writer ← or_panic (newBlockfileWriter (deriveBlockfilePath (latestFileChunkSuffixNum cp)));
  start_mgr conf indexConfig cp writer.

(** ** The iterator: blocks_itr.go *)

Record blocksItr := mkBlocksItr {
  maxBlockNumAvailable : Z;
  blockNumToRetrieve : Z;
  stream : option blockStream;
  closeMarker : bool
}.

Definition newBlockItr (g : blockfileMgr) (startBlockNum : Z) : blocksItr :=
  mkBlocksItr (lastBlockNumber (cpInfo g)) startBlockNum None false.

(** [None]: the call waits for the next block or for [Close]. *)
Definition waitForBlock (g : blockfileMgr) (itr : blocksItr) (blockNum : Z) : option Z :=
  if (lastBlockNumber (cpInfo g) <? blockNum) && negb (closeMarker itr) then None
  else Some (lastBlockNumber (cpInfo g)).

Definition initStream (s : MS) (itr : blocksItr) : res blockStream :=
  lp ← getBlockLocByBlockNum (index s.1) (w_db s.2) (blockNumToRetrieve itr);
  newBlockStream (w_disk s.2) (fileSuffixNum lp) (offset (flp_loc lp)) (-1).

(** The result of [Next]: it waits, it returns nil because the iterator was
    closed, or it returns a block. *)
Inductive next_result := Waits | Closed | Delivers (b : Block).

Definition itr_Next (s : MS) (itr : blocksItr) : blocksItr * res next_result :=
  let avail :=
    if maxBlockNumAvailable itr <? blockNumToRetrieve itr
    then waitForBlock s.1 itr (blockNumToRetrieve itr)
    else Some (maxBlockNumAvailable itr) in
  match avail with
  | None => (itr, Ok Waits)
  | Some m =>
      let itr := mkBlocksItr m (blockNumToRetrieve itr) (stream itr) (closeMarker itr) in
      if closeMarker itr then (itr, Ok Closed)
      else
        match (match stream itr with None => initStream s itr | Some st => Ok st end) with
        | Ok st =>
            match nextBlockBytes (w_disk s.2) st with
            | Ok (nextBytes, st) =>
                let itr := mkBlocksItr m (wrap64 (blockNumToRetrieve itr + 1)) (Some st) false in
                (itr, b ← deserializeBlock (default [] nextBytes); Ok (Delivers b))
            | Err e => (mkBlocksItr m (blockNumToRetrieve itr) (Some st) false, Err e)
            | Panic p => (itr, Panic p)
            | OutOfFuel => (itr, OutOfFuel)
            end
        | Err e => (itr, Err e)
        | Panic p => (itr, Panic p)
        | OutOfFuel => (itr, OutOfFuel)
        end
  end.

Definition itr_Close (itr : blocksItr) : blocksItr :=
  mkBlocksItr (maxBlockNumAvailable itr) (blockNumToRetrieve itr) (stream itr) true.

Definition retrieveBlocks (g : blockfileMgr) (startNum : Z) : blocksItr := newBlockItr g startNum.

End BlockMgr.
End BlockMgr.

(** ** The store the ledger uses: fs_blockstore.go *)

Module FsBlockStore.
Import BlockHash Proto World BlockIndex BlockMgr.
Section FsBlockStore.
Context {S : Type} `{LevelDB S} `{ProtoCodec} `{CryptoHash}.

Definition fsBlockStore : Type := blockfileMgr.

Definition newFsBlockStore (conf : Z) (indexConfig : list IndexableAttr) :
    ST (World S) fsBlockStore := newBlockfileMgr conf indexConfig.
Definition AddBlock (block : Block) : ST (fsBlockStore * World S) unit := addBlock block.
Definition GetBlockchainInfo (store : fsBlockStore) : BlockchainInfo := getBlockchainInfo store.
Definition RetrieveBlocks (store : fsBlockStore) (startNum : Z) : blocksItr :=
  retrieveBlocks store startNum.
Definition RetrieveBlockByHash (s : fsBlockStore * World S) (blockHash : bytes) : res Block :=
  retrieveBlockByHash s blockHash.
Definition RetrieveBlockByNumber (s : fsBlockStore * World S) (blockNum : Z) : res Block :=
  retrieveBlockByNumber s blockNum.
Definition RetrieveTxByID (s : fsBlockStore * World S) (txID : string) : res Envelope :=
  retrieveTransactionByID s txID.
Definition RetrieveTxByBlockNumTranNum (s : fsBlockStore * World S) (blockNum tranNum : Z) :
    res Envelope := retrieveTransactionByBlockNumTranNum s blockNum tranNum.
Definition RetrieveBlockByTxID (s : fsBlockStore * World S) (txID : string) : res Block :=
  retrieveBlockByTxID s txID.
Definition RetrieveTxValidationCodeByTxID (s : fsBlockStore * World S) (txID : string) : res Z :=
  retrieveTxValidationCodeByTxID s txID.

End FsBlockStore.
End FsBlockStore.
