(* ===== verification/BlockChain.v ===== *)
(** * Chains in block files

    What it means for the files, the index and the checkpoint of a block file
    manager to hold a chain of blocks, and what the manager's lookups return
    then. *)

From stdpp Require Import base gmap strings list.
From Stdlib Require Import Ascii ZArith Lia.
From S2P Require Import Prelude Version LevelDB Proto BlockHash BlockCodec BlockFiles BlockIndex BlockMgr.

Local Open Scope Z_scope.

Module BlockChain.
Import FileName Streams World Provider Varint Buf OrderPreserving BlockSerialization BlockIndex
  BlockHash ProtoUtils BlockMgr.

(** ** The entries of a list of indexed blocks *)

Lemma filter_family k c (fam : list (bytes * bytes)) :
  Forall (fun kv => head kv.1 = Some c) fam ->
  filter (same_head k) fam = if decide (head k = Some c) then fam else [].
Proof.
  intros Hf. case_decide as Hc.
  - apply filter_all. eapply Forall_impl; [exact Hf|]. intros kv E. unfold same_head. congruence.
  - apply filter_none. eapply Forall_impl; [exact Hf|]. intros kv E Hs. unfold same_head in Hs. congruence.
Qed.

Lemma Forall_when (P : bytes * bytes -> Prop) (b : bool) l : Forall P l -> Forall P (when b l).
Proof. by destruct b; [|constructor]. Qed.

Lemma Forall_fmap_true {A} (P : bytes * bytes -> Prop) (f : A -> bytes * bytes) l :
  (forall a, P (f a)) -> Forall P (f <$> l).
Proof. intros Hf. apply Forall_fmap, Forall_true. done. Qed.

Lemma Forall_imap_true {A} (P : bytes * bytes -> Prop) (f : nat -> A -> bytes * bytes) l :
  (forall i a, P (f i a)) -> Forall P (imap f l).
Proof.
  intros Hf. apply Forall_lookup. intros i x Hi. rewrite list_lookup_imap in Hi.
  apply fmap_Some in Hi as (a & _ & ->). apply Hf.
Qed.

(** The entries of a block whose keys start like [k]. *)
Definition family (items : index_items) (k : bytes) (info : blockIdxInfo) : list (bytes * bytes) :=
  filter (same_head k) (block_entries items info).

Ltac family_heads :=
  repeat match goal with
  | |- Forall _ (when _ _) => apply Forall_when
  | |- Forall _ (_ <$> _) => apply Forall_fmap_true; intros
  | |- Forall _ (imap _ _) => apply Forall_imap_true; intros
  | |- Forall _ [_] => apply Forall_singleton
  end; reflexivity.

Ltac solve_family :=
  intros; unfold family, block_entries; cbv zeta; rewrite !filter_app;
  rewrite (filter_family _ "h"%char) by family_heads;
  rewrite (filter_family _ "n"%char) by family_heads;
  rewrite (filter_family _ "t"%char) by family_heads;
  rewrite (filter_family _ "a"%char) by family_heads;
  rewrite (filter_family _ "b"%char) by family_heads;
  rewrite (filter_family _ "v"%char) by family_heads;
  rewrite (filter_family _ "i"%char) by family_heads;
  repeat case_decide; try done; by rewrite ?app_nil_r.

Lemma family_num items n info :
  family items (key_num n) info =
  when (indexed items IndexableAttrBlockNum) [(key_num (bi_blockNum info), flp_marshal (bi_flp info))].
Proof. solve_family. Qed.

Lemma family_hash items hash info :
  family items (constructBlockHashKey hash) info =
  when (indexed items IndexableAttrBlockHash)
    [(constructBlockHashKey (bi_blockHash info), flp_marshal (bi_flp info))].
Proof. solve_family. Qed.

Lemma family_txid items id info :
  family items (constructTxIDKey id) info =
  when (indexed items IndexableAttrTxID) (txid_entry (bi_flp info) <$> bi_txOffsets info).
Proof. solve_family. Qed.

Lemma family_tran items n t info :
  family items (key_tran n t) info =
  when (indexed items IndexableAttrBlockNumTranNum)
    (imap (fun i t => (key_tran (bi_blockNum info) (Z.of_nat i), tx_flp (bi_flp info) t))
       (bi_txOffsets info)).
Proof. solve_family. Qed.

Lemma family_btx items id info :
  family items (constructBlockTxIDKey id) info =
  when (indexed items IndexableAttrBlockTxID)
    ((fun t => (constructBlockTxIDKey (ti_txID t), flp_marshal (bi_flp info))) <$> bi_txOffsets info).
Proof. solve_family. Qed.

Lemma family_code items id info :
  family items (constructTxValidationCodeIDKey id) info =
  when (indexed items IndexableAttrTxValidationCode)
    (imap (fun i t => (constructTxValidationCodeIDKey (ti_txID t),
             [default (uint8 0) (default [] (bi_metadata info !! TRANSACTIONS_FILTER) !! i)]))
       (bi_txOffsets info)).
Proof. solve_family. Qed.

Lemma family_checkpoint items info :
  family items indexCheckpointKey info = [(indexCheckpointKey, encodeBlockNum (bi_blockNum info))].
Proof. solve_family. Qed.

(** The content of the index after a list of blocks. *)
Definition index_map (items : index_items) (l : list blockIdxInfo) : gmap bytes bytes :=
  put_entries (concat (block_entries items <$> l)) ∅.

Lemma index_map_family items l k :
  index_map items l !! k = put_entries (concat (family items k <$> l)) ∅ !! k.
Proof.
  unfold index_map. rewrite put_entries_filter. f_equal. f_equal.
  induction l as [|info l IH]; [done|]. cbn. by rewrite filter_app, IH.
Qed.

Lemma index_map_snoc items l info :
  index_map items (l ++ [info]) = put_entries (block_entries items info) (index_map items l).
Proof.
  unfold index_map. rewrite fmap_app, concat_app, put_entries_app. cbn. by rewrite app_nil_r.
Qed.

(** Block [i] of the list has number [i]. *)
Definition numbered (l : list blockIdxInfo) : Prop :=
  forall i info, l !! i = Some info -> bi_blockNum info = Z.of_nat i /\ u64 (Z.of_nat i).

Lemma key_num_inj a b : u64 a -> u64 b -> key_num a = key_num b -> a = b.
Proof.
  intros Ha Hb E. apply cons_bytes_inj in E as [_ E].
  pose proof (Decode_enc a [] Ha) as Da. pose proof (Decode_enc b [] Hb) as Db.
  rewrite E, Db in Da. by injection Da as ->.
Qed.

Lemma key_tran_inj a b c d :
  u64 a -> u64 b -> u64 c -> u64 d -> key_tran a b = key_tran c d -> a = c /\ b = d.
Proof.
  intros Ha Hb Hc Hd E. apply cons_bytes_inj in E as [_ E].
  pose proof (Decode_enc a (enc b) Ha) as Da. pose proof (Decode_enc c (enc d) Hc) as Dc.
  rewrite E, Dc in Da. injection Da as -> El. apply app_inj_1 in E as [_ E]; [|done].
  split; [done|]. apply key_num_inj; [done..|]. unfold key_num. by rewrite E.
Qed.

Lemma concat_family_notin items (l : list blockIdxInfo) k :
  (forall info, info ∈ l -> k ∉ (family items k info).*1) -> k ∉ (concat (family items k <$> l)).*1.
Proof.
  induction l as [|info l IH]; intros Hn; cbn; [apply not_elem_of_nil|].
  rewrite fmap_app, elem_of_app. intros [Hin|Hin].
  - eapply (Hn info); [left|done].
  - apply IH; [|done]. intros x Hx. apply Hn. by right.
Qed.

(** Keys of one block only. *)
Lemma index_map_unique items l i info k l1 v l2 :
  l !! i = Some info -> family items k info = l1 ++ (k, v) :: l2 -> k ∉ l2.*1 ->
  (forall j info', l !! j = Some info' -> (i < j)%nat -> k ∉ (family items k info').*1) ->
  index_map items l !! k = Some v.
Proof.
  intros Hi Ef Hk2 Hlater. rewrite index_map_family.
  rewrite <- (take_drop_middle l i info Hi), fmap_app, concat_app. cbn. rewrite Ef, <- !app_assoc.
  cbn. rewrite app_assoc. apply put_entries_last. rewrite fmap_app, elem_of_app.
  intros [Hin|Hin]; [done|]. revert Hin. apply concat_family_notin.
  intros info' Hin'. apply list_elem_of_lookup in Hin' as [j Hj]. rewrite lookup_drop in Hj.
  by apply (Hlater _ _ Hj); lia.
Qed.

Lemma index_map_absent items l k :
  (forall info, info ∈ l -> k ∉ (family items k info).*1) -> index_map items l !! k = None.
Proof.
  intros Hn. rewrite index_map_family, put_entries_notin; [apply lookup_empty|].
  by apply concat_family_notin.
Qed.

Section Lookups.
Context (items : index_items) (l : list blockIdxInfo) (Hl : numbered l).

Lemma index_num i info :
  indexed items IndexableAttrBlockNum = true -> l !! i = Some info ->
  index_map items l !! key_num (Z.of_nat i) = Some (flp_marshal (bi_flp info)).
Proof.
  intros Hx Hi. destruct (Hl i info Hi) as [En Hu].
  apply (index_map_unique items l i info _ [] _ []); [done| |apply not_elem_of_nil|].
  - by rewrite family_num, Hx, En.
  - intros j info' Hj Hlt. rewrite family_num, Hx. cbn. intros E%list_elem_of_singleton.
    destruct (Hl j info' Hj) as [En' Hu']. rewrite En' in E. apply key_num_inj in E; [lia|done..].
Qed.

Lemma index_num_absent n :
  u64 n -> Z.of_nat (length l) <= n -> index_map items l !! key_num n = None.
Proof.
  intros Hn Hge. apply index_map_absent. intros info Hin. rewrite family_num.
  destruct (indexed _ _); cbn; [|apply not_elem_of_nil]. intros E%list_elem_of_singleton.
  apply list_elem_of_lookup in Hin as [i Hi]. destruct (Hl i info Hi) as [En Hu].
  rewrite En in E. apply key_num_inj in E; [|done..]. apply lookup_lt_Some in Hi. lia.
Qed.

Lemma index_tran i info j t :
  indexed items IndexableAttrBlockNumTranNum = true -> l !! i = Some info ->
  u64 (Z.of_nat (length (bi_txOffsets info))) ->
  (forall info', info' ∈ l -> u64 (Z.of_nat (length (bi_txOffsets info')))) ->
  bi_txOffsets info !! j = Some t ->
  index_map items l !! key_tran (Z.of_nat i) (Z.of_nat j) = Some (tx_flp (bi_flp info) t).
Proof.
  intros Hx Hi Hlen Hlens Hj. destruct (Hl i info Hi) as [En Hu].
  pose proof (lookup_lt_Some _ _ _ Hj) as Hjlt.
  set (F := fun i0 t0 => (key_tran (bi_blockNum info) (Z.of_nat i0), tx_flp (bi_flp info) t0)).
  assert (imap F (bi_txOffsets info) !! j =
          Some (key_tran (Z.of_nat i) (Z.of_nat j), tx_flp (bi_flp info) t)) as Hij.
  { rewrite list_lookup_imap, Hj. unfold F. cbn. by rewrite En. }
  apply (index_map_unique items l i info _ (take j (imap F (bi_txOffsets info))) _
           (drop (Datatypes.S j) (imap F (bi_txOffsets info)))); [done| | |].
  - rewrite family_tran, Hx. symmetry. by apply take_drop_middle.
  - intros ([k v] & Ek & Hin)%list_elem_of_fmap. cbn in Ek. subst k.
    apply list_elem_of_lookup in Hin as [m Hm]. rewrite lookup_drop, list_lookup_imap in Hm.
    apply fmap_Some in Hm as (t' & Ht' & Ek%(f_equal fst)). unfold compose in Ek. cbn [fst F] in Ek. rewrite En in Ek.
    apply lookup_lt_Some in Ht'. unfold u64 in *. apply key_tran_inj in Ek; unfold u64; lia.
  - intros j' info' Hj' Hlt. rewrite family_tran, Hx.
    intros ([k v] & Ek & Hin)%list_elem_of_fmap. cbn in Ek, Hin. subst k.
    apply list_elem_of_lookup in Hin as [m Hm]. rewrite list_lookup_imap in Hm.
    apply fmap_Some in Hm as (t' & Ht' & Ek%(f_equal fst)). unfold compose in Ek. cbn [fst F] in Ek. destruct (Hl j' info' Hj') as [En' Hu'].
    rewrite En' in Ek. apply lookup_lt_Some in Ht'.
    pose proof (Hlens info' (list_elem_of_lookup_2 _ _ _ Hj')). unfold u64 in *.
    apply key_tran_inj in Ek; unfold u64; lia.
Qed.

(** The last block indexed. *)
Lemma index_checkpoint :
  index_map items l !! indexCheckpointKey =
  match last l with Some info => Some (encodeBlockNum (bi_blockNum info)) | None => None end.
Proof.
  destruct (last l) as [info|] eqn:E.
  - rewrite last_lookup in E. pose proof (lookup_lt_Some _ _ _ E).
    apply (index_map_unique items l _ info _ [] _ [] E (family_checkpoint items info));
      [apply not_elem_of_nil|]. intros j info' Hj Hlt. apply lookup_lt_Some in Hj. lia.
  - apply last_None in E as E'. rewrite E'. by apply index_map_absent; intros ? ?%elem_of_nil.
Qed.

End Lookups.

(** *** Keys that occur in several blocks: the last occurrence counts *)

Record last_tx (l : list blockIdxInfo) (i j : nat) (info : blockIdxInfo) (t : txindexInfo) : Prop := {
  lt_block : l !! i = Some info;
  lt_tx : bi_txOffsets info !! j = Some t;
  lt_same j' t' : (j < j')%nat -> bi_txOffsets info !! j' = Some t' -> ti_txID t' <> ti_txID t;
  lt_later i' info' t' : (i < i')%nat -> l !! i' = Some info' -> t' ∈ bi_txOffsets info' ->
    ti_txID t' <> ti_txID t
}.

(** A family with one entry for each transaction, keyed by its id. *)
Lemma index_by_txid items l i j info t (key : string -> bytes)
    (F : blockIdxInfo -> nat -> txindexInfo -> bytes) :
  (forall id id', key id = key id' -> id = id') ->
  (forall info', family items (key (ti_txID t)) info' =
     imap (fun n t' => (key (ti_txID t'), F info' n t')) (bi_txOffsets info')) ->
  last_tx l i j info t ->
  index_map items l !! key (ti_txID t) = Some (F info j t).
Proof.
  intros Hinj Hfam L. set (G := fun n t' => (key (ti_txID t'), F info n t')).
  assert (imap G (bi_txOffsets info) !! j = Some (key (ti_txID t), F info j t)) as Hj.
  { by rewrite list_lookup_imap, (lt_tx _ _ _ _ _ L). }
  apply (index_map_unique items l i info _ (take j (imap G (bi_txOffsets info))) _
           (drop (Datatypes.S j) (imap G (bi_txOffsets info)))).
  - apply (lt_block _ _ _ _ _ L).
  - rewrite Hfam. symmetry. by apply take_drop_middle.
  - intros ([k v] & Ek & Hin)%list_elem_of_fmap. cbn in Ek. subst k.
    apply list_elem_of_lookup in Hin as [m Hm]. rewrite lookup_drop, list_lookup_imap in Hm.
    apply fmap_Some in Hm as (t' & Ht' & Ek%(f_equal fst)). apply Hinj in Ek.
    eapply (lt_same _ _ _ _ _ L); [|exact Ht'|done]. lia.
  - intros i' info' Hi' Hlt. rewrite Hfam. intros ([k v] & Ek & Hin)%list_elem_of_fmap.
    cbn in Ek. subst k. apply list_elem_of_lookup in Hin as [m Hm]. rewrite list_lookup_imap in Hm.
    apply fmap_Some in Hm as (t' & Ht' & Ek%(f_equal fst)). apply Hinj in Ek.
    eapply (lt_later _ _ _ _ _ L); [exact Hlt|exact Hi'|by eapply list_elem_of_lookup_2|done].
Qed.

Lemma txid_key_inj c id id' : c :: to_bytes id = c :: to_bytes id' -> id = id'.
Proof. intros [_ E]%cons_bytes_inj. by apply to_bytes_inj. Qed.

Lemma imap_const {A B} (f : A -> B) (l : list A) : imap (fun _ => f) l = f <$> l.
Proof. induction l as [|a l IH]; [done|]. cbn. f_equal. exact IH. Qed.

Lemma index_txid items l i j info t :
  indexed items IndexableAttrTxID = true -> last_tx l i j info t ->
  index_map items l !! constructTxIDKey (ti_txID t) = Some (tx_flp (bi_flp info) t).
Proof.
  intros Hx L. apply (index_by_txid items l i j info t constructTxIDKey
    (fun info' _ t' => tx_flp (bi_flp info') t')); [apply txid_key_inj| |done].
  intros info'. rewrite family_txid, Hx. cbn [when]. by rewrite <- imap_const.
Qed.

Lemma index_btx items l i j info t :
  indexed items IndexableAttrBlockTxID = true -> last_tx l i j info t ->
  index_map items l !! constructBlockTxIDKey (ti_txID t) = Some (flp_marshal (bi_flp info)).
Proof.
  intros Hx L. apply (index_by_txid items l i j info t constructBlockTxIDKey
    (fun info' _ _ => flp_marshal (bi_flp info'))); [apply txid_key_inj| |done].
  intros info'. rewrite family_btx, Hx. cbn [when]. by rewrite <- imap_const.
Qed.

Lemma index_code items l i j info t :
  indexed items IndexableAttrTxValidationCode = true -> last_tx l i j info t ->
  index_map items l !! constructTxValidationCodeIDKey (ti_txID t) =
  Some [default (uint8 0) (default [] (bi_metadata info !! TRANSACTIONS_FILTER) !! j)].
Proof.
  intros Hx L. apply (index_by_txid items l i j info t constructTxValidationCodeIDKey
    (fun info' n _ => [default (uint8 0) (default [] (bi_metadata info' !! TRANSACTIONS_FILTER) !! n)]));
    [apply txid_key_inj| |done].
  intros info'. by rewrite family_code, Hx.
Qed.

Lemma index_hash items l i info :
  indexed items IndexableAttrBlockHash = true -> l !! i = Some info ->
  (forall i' info', (i < i')%nat -> l !! i' = Some info' -> bi_blockHash info' <> bi_blockHash info) ->
  index_map items l !! constructBlockHashKey (bi_blockHash info) = Some (flp_marshal (bi_flp info)).
Proof.
  intros Hx Hi Hlater. apply (index_map_unique items l i info _ [] _ []); [done| |apply not_elem_of_nil|].
  - by rewrite family_hash, Hx.
  - intros j info' Hj Hlt. rewrite family_hash, Hx. cbn. intros E%list_elem_of_singleton.
    apply cons_bytes_inj in E as [_ E]. by apply (Hlater _ _ Hlt Hj).
Qed.

(** ** Chains *)

Section Chains.
Context {S : Type} `{LevelDBSpec S} `{ProtoCodec} `{CryptoHash}.

Definition ids_of (b : Block) : list string :=
  (fun tx => match extractTxID tx with Ok id => id | _ => ""%string end) <$> blk_Data b.

Definition hash_of (h : BlockHeader) : bytes :=
  match header_Hash h with Ok x => x | _ => [] end.

(** What the manager needs of a block that it can serialize: its fields have
    the sizes of Go values, its header can be hashed, it is short enough for the
    length prefix of the files, and its metadata has the entry of the flags,
    with a flag for every transaction if the flags are indexed.  A transaction
    id [lkMgrInfo] would be indexed under the key of the checkpoint. *)
Record block_sized (items : index_items) (b : Block) : Prop := {
  bg_wf : block_wf b;
  bg_hash : is_ok (header_Hash (blk_Header b));
  bg_frame : frame_ok (block_bytes b);
  bg_flags : exists flags, blk_Metadata b !! TRANSACTIONS_FILTER = Some flags /\
    (IndexableAttrTxValidationCode ∈ items -> (length (blk_Data b) <= length flags)%nat);
  bg_key : IndexableAttrBlockTxID ∈ items -> "lkMgrInfo"%string ∉ ids_of b
}.

(** The ids of its transactions can be read. *)
Definition parsable (b : Block) : Prop := Forall (fun tx => is_ok (extractTxID tx)) (blk_Data b).

#[export] Instance parsable_dec b : Decision (parsable b).
Proof. refine (Forall_dec _ _). intros tx. destruct (extractTxID tx); [by left|right; cbn; tauto..]. Defined.

Record block_good (items : index_items) (b : Block) : Prop := {
  bg_sized :> block_sized items b;
  bg_ids : parsable b
}.

Definition chain (items : index_items) (bs : list Block) : Prop :=
  forall i b, bs !! i = Some b -> block_good items b /\ Number (blk_Header b) = Z.of_nat i.

Lemma ids_of_ok items b : block_good items b -> tx_ids (blk_Data b) (ids_of b).
Proof.
  intros G. unfold tx_ids, ids_of.
  pose proof (bg_ids _ _ G) as Hf. induction Hf as [|tx txs Htx _ IH]; constructor; [|exact IH].
  by destruct (extractTxID tx).
Qed.

Lemma hash_of_ok items b : block_good items b -> header_Hash (blk_Header b) = Ok (hash_of (blk_Header b)).
Proof. intros G. pose proof (bg_hash _ _ G) as Hh. unfold hash_of. by destruct (header_Hash _). Qed.

Lemma serialize_good items b :
  block_good items b -> serializeBlock b = Ok (block_bytes b, block_info b (ids_of b)).
Proof. intros G. by apply serializeBlock_ok, (ids_of_ok items). Qed.

(** The index information of the block at a place. *)
Definition idx_info (p : Z * Z * bytes) (b : Block) : blockIdxInfo :=
  let '(f, off, bs) := p in
  mkBlockIdxInfo (Number (blk_Header b)) (hash_of (blk_Header b)) (mkFLP f (mkLoc off 0))
    (shift_loc (Z.of_nat (length (EncodeVarint (Z.of_nat (length bs))))) <$>
       si_txOffsets (block_info b (ids_of b)))
    (blk_Metadata b).

Definition infos (segs : list (list bytes)) (bs : list Block) : list blockIdxInfo :=
  zip_with idx_info (place 0 segs) bs.

(** The files hold exactly the blocks of the chain. *)
Definition holds (segs : list (list bytes)) (bs : list Block) : Prop :=
  concat segs = block_bytes <$> bs.

Lemma holds_place segs bs i p :
  holds segs bs -> place 0 segs !! i = Some p ->
  exists b, bs !! i = Some b /\ p.2 = block_bytes b.
Proof.
  intros Hh Hp. assert (concat segs !! i = Some p.2) as Hc.
  { rewrite <- (place_blocks 0). by rewrite list_lookup_fmap, Hp. }
  rewrite Hh, list_lookup_fmap in Hc. apply fmap_Some in Hc as (b & Hb & E). eauto.
Qed.

Lemma holds_length segs bs : holds segs bs -> length (place 0 segs) = length bs.
Proof.
  intros Hh. rewrite <- (length_fmap snd (place 0 segs)), place_blocks, Hh. apply length_fmap.
Qed.

Lemma holds_block segs bs i b :
  holds segs bs -> bs !! i = Some b ->
  exists f off, place 0 segs !! i = Some (f, off, block_bytes b).
Proof.
  intros Hh Hb. pose proof (lookup_lt_Some _ _ _ Hb) as Hlt. rewrite <- (holds_length segs bs) in Hlt by done.
  apply lookup_lt_is_Some_2 in Hlt as [[[f off] bs'] Hp].
  destruct (holds_place _ _ _ _ Hh Hp) as (b' & Hb' & E). cbn [snd] in E.
  exists f, off. rewrite Hp. congruence.
Qed.

Lemma infos_lookup segs bs i b :
  holds segs bs -> bs !! i = Some b ->
  exists p, place 0 segs !! i = Some p /\ p.2 = block_bytes b /\ infos segs bs !! i = Some (idx_info p b).
Proof.
  intros Hh Hb. destruct (holds_block _ _ _ _ Hh Hb) as (f & off & Hp).
  exists (f, off, block_bytes b). split; [done|]. split; [done|].
  unfold infos. by rewrite lookup_zip_with, Hp, Hb.
Qed.

Lemma infos_inv segs bs i info :
  holds segs bs -> infos segs bs !! i = Some info ->
  exists p b, place 0 segs !! i = Some p /\ bs !! i = Some b /\ p.2 = block_bytes b /\
    info = idx_info p b.
Proof.
  intros Hh Hi. unfold infos in Hi. rewrite lookup_zip_with in Hi.
  destruct (place 0 segs !! i) as [p|] eqn:Hp; [|done]. cbn in Hi.
  destruct (bs !! i) as [b|] eqn:Hb; [|done]. cbn in Hi. injection Hi as <-.
  destruct (holds_place _ _ _ _ Hh Hp) as (b' & Hb' & E). exists p, b.
  split; [done|]. split; [done|]. split; [congruence|done].
Qed.

Lemma infos_numbered items segs bs :
  holds segs bs -> chain items bs -> Z.of_nat (length bs) < 2 ^ 62 -> numbered (infos segs bs).
Proof.
  intros Hh Hc Hl i info Hi. destruct (infos_inv _ _ _ _ Hh Hi) as ([[f off] x] & b & _ & Hb & _ & ->).
  destruct (Hc i b Hb) as [_ En]. apply lookup_lt_Some in Hb. unfold u64. cbn. split; [done|lia].
Qed.

Lemma length_placement pos txs : length (placement pos txs) = length txs.
Proof. revert pos. induction txs as [|[id tx] txs IH]; intros pos; [done|]. cbn. by rewrite IH. Qed.

Lemma length_ids b : length (ids_of b) = length (blk_Data b).
Proof. apply length_fmap. Qed.

Lemma length_idx_txs p b : length (bi_txOffsets (idx_info p b)) = length (blk_Data b).
Proof.
  destruct p as [[f off] x]. cbn. rewrite length_fmap, length_placement, length_zip, length_ids. lia.
Qed.

Lemma idx_info_wf items i p b :
  block_good items b -> Number (blk_Header b) = Z.of_nat i -> info_wf items (idx_info p b).
Proof.
  intros G En. pose proof (bg_wf _ _ G) as (Hn & _ & _ & _ & Hl & _). unfold info_wf.
  rewrite length_idx_txs. destruct p as [[f off] x]. cbn. split; [done|].
  split; [unfold u64; lia|]. destruct (bg_flags _ _ G) as (flags & Ef & Hf). exists flags. split; [done|].
  intros Hi. apply Hf. by apply bool_decide_eq_true in Hi.
Qed.

(** *** The transactions inside a block *)

Lemma placement_lookup pos ids txs j tx id :
  ids !! j = Some id -> txs !! j = Some tx ->
  placement pos (zip ids txs) !! j =
  Some (mkTxindexInfo id (mkLoc (pos + Z.of_nat (length (items_bytes (take j txs))))
          (Z.of_nat (length (EncodeRawBytes tx))))).
Proof.
  revert pos ids j. induction txs as [|tx' txs IH]; intros pos ids j Hid Htx; [done|].
  destruct ids as [|id' ids]; [done|]. destruct j as [|j]; cbn in Hid, Htx.
  - injection Hid as ->. injection Htx as ->. cbn. by rewrite Z.add_0_r.
  - cbn [zip_with placement lookup list_lookup]. rewrite IH by done. unfold items_bytes. cbn [take fmap list_fmap concat].
    rewrite length_app. do 3 f_equal. rewrite Nat2Z.inj_add. apply Z.add_assoc || lia.
Qed.

Lemma block_bytes_tx b j tx :
  blk_Data b !! j = Some tx ->
  exists x y, block_bytes b = x ++ EncodeRawBytes tx ++ y /\
    Z.of_nat (length x) = data_offset b + Z.of_nat (length (items_bytes (take j (blk_Data b)))).
Proof.
  intros Hj. unfold block_bytes, data_offset.
  assert (items_bytes (blk_Data b) =
    items_bytes (take j (blk_Data b)) ++ EncodeRawBytes tx ++
    items_bytes (drop (Datatypes.S j) (blk_Data b))) as E.
  { unfold items_bytes. rewrite <- (take_drop_middle _ _ _ Hj) at 1.
    by rewrite fmap_app, concat_app. }
  rewrite E. eexists (header_bytes (blk_Header b) ++ EncodeVarint (Z.of_nat (length (blk_Data b))) ++
    items_bytes (take j (blk_Data b))), _. split; [by rewrite <- !app_assoc|].
  rewrite !length_app. lia.
Qed.

End Chains.
End BlockChain.
