(* ===== verification/BlockStore.v ===== *)
(** * The block store holds a chain

    The invariant of the block file manager and the results of its lookups and
    of its iterator in terms of the chain it holds. *)

From stdpp Require Import base gmap strings list.
From Stdlib Require Import Ascii ZArith Lia.
From S2P Require Import Prelude Version LevelDB Proto BlockHash BlockCodec BlockFiles BlockIndex BlockMgr.
From S2P Require Import BlockChain.

Local Open Scope Z_scope.

Module BlockStore.
Import FileName Streams World Provider Varint Buf OrderPreserving BlockSerialization BlockIndex
  BlockHash ProtoUtils BlockMgr BlockChain.

Section BlockStore.
Context {S : Type} `{LevelDBSpec S} `{ProtoCodec} `{CryptoHash}.

(** The checkpoint after [c] blocks, the last file being number [n] with the
    blocks [pre]. *)
Definition cp_at (n : nat) (pre : list bytes) (c : nat) : checkpointInfo :=
  mkCheckpointInfo (Z.of_nat n) (Z.of_nat (length (frames pre))) (bool_decide (c = O))
    (Z.of_nat (pred c)).

(** The files from number [n] on are empty or do not exist. *)
Definition next_free (d : disk) (n : nat) : Prop :=
  forall i, (n <= i)%nat -> Z.of_nat i < 2 ^ 63 ->
    default [] (d !! deriveBlockfilePath (Z.of_nat i)) = [].

Definition size_ok (sg : list bytes) : Prop := Z.of_nat (length (frames sg)) < 2 ^ 62.

(** What is on the disk and in the database: the chain [bs] in the files
    [segs] and [seg], followed by the beginning [tl] of another block; a
    checkpoint that may miss the blocks [post] of the last file, and an index
    of the first [m] blocks. *)
Record durable (items : index_items) (w : World S) (segs : list (list bytes)) (seg : list bytes)
    (tl : bytes) (bs : list Block) (post : list bytes) (m : nat) : Prop := {
  d_world : world_ok w;
  d_layout : layout (w_disk w) (segs ++ [seg]) tl;
  d_cut : cut tl;
  d_sizes : Forall size_ok (segs ++ [seg]);
  d_next : next_free (w_disk w) (length (segs ++ [seg]));
  d_chain : chain items bs;
  d_holds : holds (segs ++ [seg]) bs;
  d_len : Z.of_nat (length bs) < 2 ^ 62;
  d_cp : exists pre, seg = pre ++ post /\
    view w blkMgrInfoKey = Some (cp_marshal (cp_at (length segs) pre (length bs - length post)));
  d_index k : k <> blkMgrInfoKey ->
    view w k = index_map items (take m (infos (segs ++ [seg]) bs)) !! k;
  d_m : (m <= length bs)%nat
}.

Definition info_of (bs : list Block) : BlockchainInfo :=
  match last bs with
  | None => mkBlockchainInfo 0 [] []
  | Some b => mkBlockchainInfo (Z.of_nat (length bs)) (hash_of (blk_Header b))
                (PreviousHash (blk_Header b))
  end.

(** The manager [g] over the world [w] holds the chain [bs]. *)
Record rep (g : blockfileMgr) (w : World S) (segs : list (list bytes)) (seg : list bytes)
    (bs : list Block) : Prop := {
  r_durable : durable (index g) w segs seg [] bs [] (length bs);
  r_max : maxBlockfileSize g < 2 ^ 62;
  r_cp : cpInfo g = cp_at (length segs) seg (length bs);
  r_writer : currentFileWriter g = deriveBlockfilePath (Z.of_nat (length segs));
  r_info : bcInfo g = info_of bs
}.

(** ** Places *)

Section Durable.
Context (items : index_items) (w : World S) (segs : list (list bytes)) (seg : list bytes)
  (bs : list Block) (post : list bytes) (m : nat).
Context (D : durable items w segs seg [] bs post m).

Let full := segs ++ [seg].

Lemma place_bounds k p :
  place 0 full !! k = Some p ->
  0 <= p.1.1 < 2 ^ 62 /\ 0 <= p.1.2 /\ p.1.2 + Z.of_nat (length (frame p.2)) < 2 ^ 62.
Proof.
  intros Hk. destruct (place_split _ _ _ Hk) as (i & pre & b & post' & Hi & -> & _). cbn [fst snd].
  pose proof (layout_size _ _ _ (d_layout _ _ _ _ _ _ _ _ D)) as Hs. fold full in Hs.
  pose proof (lookup_lt_Some _ _ _ Hi).
  pose proof (d_sizes _ _ _ _ _ _ _ _ D) as Hz. rewrite Forall_forall in Hz.
  pose proof (Hz _ (list_elem_of_lookup_2 _ _ _ Hi)) as Hb. unfold size_ok in Hb.
  rewrite frames_app in Hb. change (frames (b :: post')) with (frame b ++ frames post') in Hb.
  rewrite !length_app in Hb. lia.
Qed.

Lemma get_block_loc key k p b :
  place 0 full !! k = Some p -> view w key = Some (flp_marshal (bi_flp (idx_info p b))) ->
  get_loc (w_db w) key = Ok (mkFLP p.1.1 (mkLoc p.1.2 0)).
Proof.
  intros Hk Hv. unfold get_loc. rewrite Get_spec by apply (d_world _ _ _ _ _ _ _ _ D).
  unfold view in Hv. rewrite Hv, res_ret_bind. destruct (place_bounds k p Hk) as (Hp1 & Hp2 & Hp3).
  destruct p as [[f off] x]. cbn [bi_flp idx_info fst snd] in *.
  rewrite flp_roundtrip; [done|]. unfold flp_ok. cbn. lia.
Qed.

Lemma get_tx_loc key k p t :
  place 0 full !! k = Some p ->
  0 <= offset (ti_loc t) -> 0 <= bytesLength (ti_loc t) ->
  offset (ti_loc t) + bytesLength (ti_loc t) <= Z.of_nat (length (frame p.2)) ->
  view w key = Some (tx_flp (mkFLP p.1.1 (mkLoc p.1.2 0)) t) ->
  get_loc (w_db w) key =
  Ok (mkFLP p.1.1 (mkLoc (p.1.2 + offset (ti_loc t)) (bytesLength (ti_loc t)))).
Proof.
  intros Hk Ho Hb Hs Hv. unfold get_loc. rewrite Get_spec by apply (d_world _ _ _ _ _ _ _ _ D).
  unfold view in Hv. rewrite Hv, res_ret_bind. destruct (place_bounds k p Hk) as (Hp1 & Hp2 & Hp3).
  unfold tx_flp, newFileLocationPointer. cbn [fileSuffixNum flp_loc offset].
  rewrite flp_roundtrip; [done|]. unfold flp_ok. cbn. lia.
Qed.

Lemma fetch_block_bytes k p :
  place 0 full !! k = Some p ->
  fetchBlockBytes (w_disk w) (mkFLP p.1.1 (mkLoc p.1.2 0)) = Ok p.2.
Proof.
  intros Hk. destruct (fetch_at_place _ _ _ _ (d_layout _ _ _ _ _ _ _ _ D) Hk) as (s & Es & s' & En).
  unfold fetchBlockBytes. cbn [fileSuffixNum flp_loc offset]. rewrite Es, res_ret_bind, En, res_ret_bind.
  done.
Qed.

Lemma fetch_block k p b :
  place 0 full !! k = Some p -> bs !! k = Some b -> p.2 = block_bytes b ->
  fetchBlock (w_disk w) (mkFLP p.1.1 (mkLoc p.1.2 0)) = Ok b.
Proof.
  intros Hk Hb Ep. unfold fetchBlock. rewrite (fetch_block_bytes k p Hk), res_ret_bind, Ep.
  destruct (d_chain _ _ _ _ _ _ _ _ D k b Hb) as [G _].
  rewrite <- (app_nil_r (block_bytes b)).
  apply (deserialize_ok b (ids_of b) []); [apply (bg_wf _ _ G)|by apply (ids_of_ok items)].
Qed.

(** A transaction of a block, as the index locates it. *)
Definition tx_info (p : Z * Z * bytes) (b : Block) (j : nat) (tx : bytes) (id : string) : txindexInfo :=
  mkTxindexInfo id
    (mkLoc (data_offset b + Z.of_nat (length (items_bytes (take j (blk_Data b)))) +
            Z.of_nat (length (EncodeVarint (Z.of_nat (length p.2)))))
       (Z.of_nat (length (EncodeRawBytes tx)))).

Lemma idx_info_tx p b j tx id :
  blk_Data b !! j = Some tx -> ids_of b !! j = Some id ->
  bi_txOffsets (idx_info p b) !! j = Some (tx_info p b j tx id).
Proof.
  intros Htx Hid. destruct p as [[f off] x]. unfold tx_info. cbn [idx_info bi_txOffsets snd].
  rewrite list_lookup_fmap. unfold block_info. cbn [si_txOffsets].
  by rewrite (placement_lookup _ _ _ _ _ _ Hid Htx).
Qed.

Lemma fetch_tx k p b j tx id t :
  place 0 full !! k = Some p -> p.2 = block_bytes b -> blk_Data b !! j = Some tx ->
  len_ok tx -> t = tx_info p b j tx id ->
  offset (ti_loc t) + bytesLength (ti_loc t) <= Z.of_nat (length (frame p.2)) /\
  0 <= offset (ti_loc t) /\ 0 <= bytesLength (ti_loc t) /\
  fetchTransactionEnvelope (w_disk w)
    (mkFLP p.1.1 (mkLoc (p.1.2 + offset (ti_loc t)) (bytesLength (ti_loc t)))) =
  GetEnvelopeFromBlock tx.
Proof.
  intros Hk Ep Htx Hlen ->. destruct (block_bytes_tx b j tx Htx) as (x & y & Eb & Ex).
  set (v := EncodeVarint (Z.of_nat (length p.2))).
  assert (frame p.2 = (v ++ x) ++ EncodeRawBytes tx ++ y) as Ef.
  { unfold frame. fold v. by rewrite Ep, Eb, <- app_assoc. }
  cbn [tx_info ti_loc offset bytesLength]. fold v. split; [|split; [lia|split; [lia|]]].
  - rewrite Ef, !length_app. lia.
  - unfold fetchTransactionEnvelope, fetchRawBytes. cbn [fileSuffixNum flp_loc offset bytesLength].
    rewrite (read_at_place _ _ _ _ _ _ _ _ (d_layout _ _ _ _ _ _ _ _ D) Hk Ef)
      by (rewrite length_app; lia).
    rewrite res_ret_bind. unfold EncodeRawBytes at 1.
    rewrite DecodeVarint_encode by (unfold u64, len_ok in *; lia).
    unfold EncodeRawBytes. by rewrite drop_app_length.
Qed.

End Durable.

(** ** Lookups *)

Section Rep.
Context (g : blockfileMgr) (w : World S) (segs : list (list bytes)) (seg : list bytes)
  (bs : list Block).
Context (R : rep g w segs seg bs).

Let full := segs ++ [seg].
Let D : durable (index g) w segs seg [] bs [] (length bs) := r_durable _ _ _ _ _ R.

Lemma rep_infos_length : length (infos full bs) = length bs.
Proof.
  unfold infos. rewrite length_zip_with, (holds_length _ bs) by apply (d_holds _ _ _ _ _ _ _ _ D). lia.
Qed.

Lemma rep_view k : k <> blkMgrInfoKey -> view w k = index_map (index g) (infos full bs) !! k.
Proof.
  intros Hk. rewrite (d_index _ _ _ _ _ _ _ _ D k Hk), take_ge; [done|].
  fold full. by rewrite rep_infos_length.
Qed.

Lemma rep_numbered : numbered (infos full bs).
Proof.
  eapply infos_numbered; [apply (d_holds _ _ _ _ _ _ _ _ D)|apply (d_chain _ _ _ _ _ _ _ _ D)|
    apply (d_len _ _ _ _ _ _ _ _ D)].
Qed.

Lemma head_ne (c d : ascii) (k : bytes) : c <> d -> c :: k <> d :: to_bytes "lkMgrInfo".
Proof. intros Hne E. by apply cons_bytes_inj in E as [? _]. Qed.

Lemma rep_block k b :
  bs !! k = Some b ->
  exists p, place 0 full !! k = Some p /\ p.2 = block_bytes b /\
    infos full bs !! k = Some (idx_info p b).
Proof. intros Hb. apply infos_lookup; [apply (d_holds _ _ _ _ _ _ _ _ D)|done]. Qed.

(** The location of a block by its number. *)
Lemma rep_loc_num k b :
  indexed (index g) IndexableAttrBlockNum = true -> bs !! k = Some b ->
  exists p, place 0 full !! k = Some p /\ p.2 = block_bytes b /\
    getBlockLocByBlockNum (index g) (w_db w) (Z.of_nat k) = Ok (mkFLP p.1.1 (mkLoc p.1.2 0)).
Proof.
  intros Hx Hb. destruct (rep_block k b Hb) as (p & Hp & Ep & Hi). exists p.
  split; [done|]. split; [done|]. unfold getBlockLocByBlockNum, constructBlockNumKey. rewrite Hx. cbn [negb].
  destruct (rep_numbered k _ Hi) as [_ Hu]. rewrite Encode_enc by done. rewrite !res_ret_bind.
  change ("n"%char :: enc (Z.of_nat k)) with (key_num (Z.of_nat k)).
  apply (get_block_loc _ _ _ _ _ _ _ D _ k p b Hp). rewrite rep_view by (by apply head_ne).
  by apply index_num; [apply rep_numbered|..].
Qed.

Lemma retrieve_number k b :
  indexed (index g) IndexableAttrBlockNum = true -> bs !! k = Some b ->
  retrieveBlockByNumber (g, w) (Z.of_nat k) = Ok b.
Proof.
  intros Hx Hb. destruct (rep_loc_num k b Hx Hb) as (p & Hp & Ep & El).
  unfold retrieveBlockByNumber. cbn [fst snd].
  pose proof (d_len _ _ _ _ _ _ _ _ D). apply lookup_lt_Some in Hb as Hlt.
  rewrite (proj2 (Z.eqb_neq _ _)) by (unfold MaxUint64; lia). rewrite El, res_ret_bind.
  by apply (fetch_block _ _ _ _ _ _ _ D k).
Qed.

Lemma retrieve_header k b :
  indexed (index g) IndexableAttrBlockNum = true -> bs !! k = Some b ->
  retrieveBlockHeaderByNumber (g, w) (Z.of_nat k) = Ok (blk_Header b).
Proof.
  intros Hx Hb. destruct (rep_loc_num k b Hx Hb) as (p & Hp & Ep & El).
  unfold retrieveBlockHeaderByNumber. cbn [fst snd]. rewrite El, res_ret_bind.
  rewrite (fetch_block_bytes _ _ _ _ _ _ _ D k p Hp), res_ret_bind, Ep.
  destruct (d_chain _ _ _ _ _ _ _ _ D k b Hb) as [G _]. rewrite <- (app_nil_r (block_bytes b)).
  by rewrite (extract_info_ok b (ids_of b) [] (bg_wf _ _ G) (ids_of_ok _ _ G)).
Qed.

(** The largest number asks for the last block; in an empty chain there is
    none. *)
Lemma retrieve_number_last b :
  indexed (index g) IndexableAttrBlockNum = true -> last bs = Some b ->
  retrieveBlockByNumber (g, w) MaxUint64 = Ok b.
Proof.
  intros Hx Hb. pose proof (d_len _ _ _ _ _ _ _ _ D).
  rewrite last_lookup in Hb. pose proof (lookup_lt_Some _ _ _ Hb) as Hlt.
  rewrite <- (retrieve_number _ _ Hx Hb). unfold retrieveBlockByNumber, getBlockchainInfo. cbn [fst snd].
  rewrite (r_info _ _ _ _ _ R). unfold info_of. rewrite last_lookup, Hb. cbn [Height].
  rewrite Z.eqb_refl, (proj2 (Z.eqb_neq _ _)) by (unfold MaxUint64; lia).
  rewrite wrap64_small by (unfold u64; lia). do 3 f_equal. lia.
Qed.

Lemma retrieve_number_absent n :
  indexed (index g) IndexableAttrBlockNum = true -> u64 n -> n <> MaxUint64 ->
  Z.of_nat (length bs) <= n -> retrieveBlockByNumber (g, w) n = Err ErrNotFoundInIndex.
Proof.
  intros Hx Hu Hn Hge. unfold retrieveBlockByNumber. cbn [fst snd].
  rewrite (proj2 (Z.eqb_neq _ _)) by done.
  unfold getBlockLocByBlockNum, constructBlockNumKey. rewrite Hx. cbn [negb].
  rewrite Encode_enc by done. rewrite !res_ret_bind. unfold get_loc.
  rewrite Get_spec by apply (d_world _ _ _ _ _ _ _ _ D). rewrite res_ret_bind.
  change (handle_view (w_db w)) with (view w). change ("n"%char :: enc n) with (key_num n).
  rewrite rep_view by (by apply head_ne).
  rewrite index_num_absent; [done|apply rep_numbered|done|by rewrite rep_infos_length].
Qed.

Lemma retrieve_hash k b :
  indexed (index g) IndexableAttrBlockHash = true -> bs !! k = Some b ->
  (forall k' b', (k < k')%nat -> bs !! k' = Some b' ->
     hash_of (blk_Header b') <> hash_of (blk_Header b)) ->
  retrieveBlockByHash (g, w) (hash_of (blk_Header b)) = Ok b.
Proof.
  intros Hx Hb Hlater. destruct (rep_block k b Hb) as (p & Hp & Ep & Hi).
  unfold retrieveBlockByHash, getBlockLocByHash. cbn [fst snd]. rewrite Hx. cbn [negb].
  rewrite (get_block_loc _ _ _ _ _ _ _ D _ k p b Hp), res_ret_bind.
  { by apply (fetch_block _ _ _ _ _ _ _ D k). }
  rewrite rep_view by (by apply head_ne).
  assert (forall p b, bi_blockHash (idx_info p b) = hash_of (blk_Header b)) as Eh by (by intros [[??]?] ?).
  rewrite <- (Eh p b). apply (index_hash _ _ k); [done..|].
  intros k' info' Hlt Hi'. destruct (infos_inv _ _ _ _ (d_holds _ _ _ _ _ _ _ _ D) Hi')
    as (p' & b' & _ & Hb' & _ & ->). rewrite !Eh. by apply (Hlater k').
Qed.

(** A transaction by the number of its block and its place in it. *)
Lemma retrieve_tran k b j tx :
  indexed (index g) IndexableAttrBlockNumTranNum = true ->
  bs !! k = Some b -> blk_Data b !! j = Some tx ->
  retrieveTransactionByBlockNumTranNum (g, w) (Z.of_nat k) (Z.of_nat j) = GetEnvelopeFromBlock tx.
Proof.
  intros Hx Hb Htx. destruct (rep_block k b Hb) as (p & Hp & Ep & Hi).
  destruct (d_chain _ _ _ _ _ _ _ _ D k b Hb) as [G En].
  pose proof (bg_wf _ _ G) as (_ & _ & _ & Hdl & Hlen & _).
  destruct (lookup_lt_is_Some_2 (ids_of b) j) as [id Hid].
  { rewrite length_ids. by eapply lookup_lt_Some. }
  pose proof (idx_info_tx p b j tx id Htx Hid) as Ht.
  assert (len_ok tx) as Htl by (rewrite Forall_forall in Hdl; by eapply Hdl, list_elem_of_lookup_2).
  destruct (fetch_tx _ _ _ _ _ _ _ D k p b j tx id _ Hp Ep Htx Htl eq_refl) as (Hs & Ho & Hbl & Ef).
  unfold retrieveTransactionByBlockNumTranNum, getTXLocByBlockNumTranNum, constructBlockNumTranNumKey.
  cbn [fst snd]. rewrite Hx. cbn [negb]. pose proof (d_len _ _ _ _ _ _ _ _ D).
  apply lookup_lt_Some in Htx as Hjl. apply lookup_lt_Some in Hb as Hkl.
  rewrite !Encode_enc by (unfold u64; lia). rewrite !res_ret_bind.
  change ("a"%char :: _) with (key_tran (Z.of_nat k) (Z.of_nat j)).
  rewrite (get_tx_loc _ _ _ _ _ _ _ D _ k p _ Hp Ho Hbl Hs), res_ret_bind; [done|].
  rewrite rep_view by (by apply head_ne).
  rewrite (index_tran _ _ rep_numbered k (idx_info p b) j (tx_info p b j tx id) Hx Hi); [|..|exact Ht].
  - by destruct p as [[??]?].
  - rewrite length_idx_txs. unfold u64. lia.
  - intros info' Hin. apply list_elem_of_lookup in Hin as [i' Hi'].
    destruct (infos_inv _ _ _ _ (d_holds _ _ _ _ _ _ _ _ D) Hi') as (p' & b' & _ & Hb' & _ & ->).
    destruct (d_chain _ _ _ _ _ _ _ _ D i' b' Hb') as [G' _].
    pose proof (bg_wf _ _ G') as (_ & _ & _ & _ & Hlen' & _). rewrite length_idx_txs. unfold u64. lia.
Qed.

(** Transaction [j] of block [k] is the last of the chain with its id. *)
Record last_with_id (k j : nat) (b : Block) (tx : bytes) (id : string) : Prop := {
  lw_block : bs !! k = Some b;
  lw_tx : blk_Data b !! j = Some tx;
  lw_id : ids_of b !! j = Some id;
  lw_same j' : (j < j')%nat -> ids_of b !! j' <> Some id;
  lw_later k' b' : (k < k')%nat -> bs !! k' = Some b' -> id ∉ ids_of b'
}.

Lemma idx_info_ids p b j t :
  bi_txOffsets (idx_info p b) !! j = Some t -> ids_of b !! j = Some (ti_txID t).
Proof.
  intros Ht. pose proof (lookup_lt_Some _ _ _ Ht) as Hlt. rewrite length_idx_txs in Hlt.
  destruct (lookup_lt_is_Some_2 _ _ Hlt) as [tx Htx].
  destruct (lookup_lt_is_Some_2 (ids_of b) j) as [id Hid]; [by rewrite length_ids|].
  rewrite (idx_info_tx p b j tx id Htx Hid) in Ht. by injection Ht as <-.
Qed.

Lemma last_with_id_tx k j b tx id p :
  last_with_id k j b tx id -> infos full bs !! k = Some (idx_info p b) ->
  last_tx (infos full bs) k j (idx_info p b) (tx_info p b j tx id).
Proof.
  intros L Hi. split.
  - done.
  - apply idx_info_tx; apply L.
  - intros j' t' Hlt Ht' E. apply idx_info_ids in Ht'. cbn in E.
    apply (lw_same _ _ _ _ _ L j' Hlt). congruence.
  - intros k' info' t' Hlt Hi' Hin E. cbn in E.
    destruct (infos_inv _ _ _ _ (d_holds _ _ _ _ _ _ _ _ D) Hi') as (p' & b' & _ & Hb' & _ & ->).
    apply list_elem_of_lookup in Hin as [j' Hj']. apply idx_info_ids in Hj'.
    apply (lw_later _ _ _ _ _ L k' b' Hlt Hb'). rewrite <- E. by eapply list_elem_of_lookup_2.
Qed.

Lemma retrieve_txid k j b tx id :
  indexed (index g) IndexableAttrTxID = true -> last_with_id k j b tx id ->
  retrieveTransactionByID (g, w) id = GetEnvelopeFromBlock tx.
Proof.
  intros Hx L. destruct (rep_block k b (lw_block _ _ _ _ _ L)) as (p & Hp & Ep & Hi).
  destruct (d_chain _ _ _ _ _ _ _ _ D k b (lw_block _ _ _ _ _ L)) as [G _].
  pose proof (bg_wf _ _ G) as (_ & _ & _ & Hdl & _). pose proof (lw_tx _ _ _ _ _ L) as Htx.
  assert (len_ok tx) as Htl by (rewrite Forall_forall in Hdl; by eapply Hdl, list_elem_of_lookup_2).
  destruct (fetch_tx _ _ _ _ _ _ _ D k p b j tx id _ Hp Ep Htx Htl eq_refl) as (Hs & Ho & Hbl & Ef).
  unfold retrieveTransactionByID, getTxLoc. cbn [fst snd]. rewrite Hx. cbn [negb].
  rewrite (get_tx_loc _ _ _ _ _ _ _ D _ k p _ Hp Ho Hbl Hs), res_ret_bind; [done|].
  rewrite rep_view by (by apply head_ne).
  change id with (ti_txID (tx_info p b j tx id)) at 1.
  rewrite (index_txid _ _ k j _ _ Hx (last_with_id_tx _ _ _ _ _ p L Hi)). by destruct p as [[??]?].
Qed.

Lemma retrieve_block_txid k j b tx id :
  indexed (index g) IndexableAttrBlockTxID = true -> last_with_id k j b tx id ->
  retrieveBlockByTxID (g, w) id = Ok b.
Proof.
  intros Hx L. destruct (rep_block k b (lw_block _ _ _ _ _ L)) as (p & Hp & Ep & Hi).
  unfold retrieveBlockByTxID, getBlockLocByTxID. cbn [fst snd]. rewrite Hx. cbn [negb].
  rewrite (get_block_loc _ _ _ _ _ _ _ D _ k p b Hp), res_ret_bind.
  { apply (fetch_block _ _ _ _ _ _ _ D k); [done|apply L|done]. }
  rewrite rep_view.
  - change id with (ti_txID (tx_info p b j tx id)).
    by rewrite (index_btx _ _ k j _ _ Hx (last_with_id_tx _ _ _ _ _ p L Hi)).
  - intros E. apply cons_bytes_inj in E as [_ E].
    change (to_bytes id = to_bytes "lkMgrInfo") in E. apply to_bytes_inj in E. subst id.
    destruct (d_chain _ _ _ _ _ _ _ _ D k b (lw_block _ _ _ _ _ L)) as [G _].
    apply (bg_key _ _ G); [by apply bool_decide_eq_true in Hx|].
    eapply list_elem_of_lookup_2, (lw_id _ _ _ _ _ L).
Qed.

Lemma retrieve_code k j b tx id :
  indexed (index g) IndexableAttrTxValidationCode = true -> last_with_id k j b tx id ->
  exists flags c, blk_Metadata b !! TRANSACTIONS_FILTER = Some flags /\ flags !! j = Some c /\
    retrieveTxValidationCodeByTxID (g, w) id = Ok (byte_val c).
Proof.
  intros Hx L. destruct (rep_block k b (lw_block _ _ _ _ _ L)) as (p & Hp & Ep & Hi).
  destruct (d_chain _ _ _ _ _ _ _ _ D k b (lw_block _ _ _ _ _ L)) as [G _].
  destruct (bg_flags _ _ G) as (flags & Ef & Hlen). specialize (Hlen (proj1 (bool_decide_eq_true _) Hx)).
  destruct (lookup_lt_is_Some_2 flags j) as [c Hc].
  { pose proof (lookup_lt_Some _ _ _ (lw_tx _ _ _ _ _ L)). lia. }
  exists flags, c. split; [done|]. split; [done|].
  unfold retrieveTxValidationCodeByTxID, getTxValidationCodeByTxID. cbn [fst snd]. rewrite Hx. cbn [negb].
  rewrite Get_spec by apply (d_world _ _ _ _ _ _ _ _ D). rewrite res_ret_bind.
  change (handle_view (w_db w)) with (view w). rewrite rep_view by (by apply head_ne).
  change id with (ti_txID (tx_info p b j tx id)).
  rewrite (index_code _ _ k j _ _ Hx (last_with_id_tx _ _ _ _ _ p L Hi)).
  assert (bi_metadata (idx_info p b) = blk_Metadata b) as -> by (by destruct p as [[??]?]).
  rewrite Ef. change (default [] (Some flags)) with flags. by rewrite Hc.
Qed.

End Rep.
End BlockStore.
End BlockStore.
