(* ===== verification/BlockRecovery.v ===== *)
(** * Appending blocks and starting again

    [addBlock] under any faults leaves the chain as it was or one block
    longer, in memory, on disk and in the database; a restart finds that
    chain. *)

From stdpp Require Import base gmap strings list.
From Stdlib Require Import Ascii ZArith Lia.
From S2P Require Import Prelude Version LevelDB Proto BlockHash BlockCodec BlockFiles BlockIndex BlockMgr.
From S2P Require Import BlockChain BlockStore.

Local Open Scope Z_scope.

Module BlockRecovery.
Import FileName Streams World Provider Varint Buf OrderPreserving BlockSerialization BlockIndex
  BlockHash ProtoUtils BlockMgr BlockChain BlockStore.

Lemma cp_roundtrip n pre c :
  Z.of_nat n < 2 ^ 62 -> size_ok pre -> Z.of_nat c < 2 ^ 63 ->
  cp_unmarshal (cp_marshal (cp_at n pre c)) = Ok (cp_at n pre c).
Proof.
  intros Hn Hs Hc. unfold size_ok in Hs. unfold cp_unmarshal, cp_marshal, cp_at.
  cbn [latestFileChunkSuffixNum latestFileChunksize isChainEmpty lastBlockNumber].
  rewrite !wrap64_small by (unfold u64; lia).
  do 3 (rewrite buf_DecodeVarint_encode by (unfold u64; lia); rewrite res_ret_bind).
  set (mk := if bool_decide (c = O) then 1 else 0).
  rewrite <- (app_nil_r (EncodeVarint mk)). unfold mk.
  rewrite buf_DecodeVarint_encode by (case_bool_decide; unfold u64; lia). rewrite res_ret_bind.
  rewrite !int64_small by lia. by case_bool_decide.
Qed.

(** ** The index after one more block *)

Lemma place_snoc segs seg b :
  place 0 (segs ++ [seg ++ [b]]) =
  place 0 (segs ++ [seg]) ++ [(Z.of_nat (length segs), Z.of_nat (length (frames seg)), b)].
Proof.
  rewrite !place_app. cbn [place]. rewrite !app_nil_r, place_seg_app, <- app_assoc.
  cbn [place_seg]. by rewrite !Z.add_0_l.
Qed.

Lemma place_new_file segs seg : place 0 ((segs ++ [seg]) ++ [[]]) = place 0 (segs ++ [seg]).
Proof. rewrite place_app. cbn. by rewrite app_nil_r. Qed.

Section Recovery.
Context {S : Type} `{LevelDBSpec S} `{ProtoCodec} `{CryptoHash}.

Lemma infos_snoc segs seg bs b :
  holds (segs ++ [seg]) bs ->
  infos (segs ++ [seg ++ [block_bytes b]]) (bs ++ [b]) =
  infos (segs ++ [seg]) bs ++
  [idx_info (Z.of_nat (length segs), Z.of_nat (length (frames seg)), block_bytes b) b].
Proof.
  intros Hh. unfold infos. rewrite place_snoc, zip_with_app by (by apply holds_length). done.
Qed.

Lemma infos_new_file segs seg bs : infos ((segs ++ [seg]) ++ [[]]) bs = infos (segs ++ [seg]) bs.
Proof. unfold infos. by rewrite place_new_file. Qed.

Lemma holds_snoc segs seg bs b :
  holds (segs ++ [seg]) bs -> holds (segs ++ [seg ++ [block_bytes b]]) (bs ++ [b]).
Proof.
  unfold holds. rewrite !concat_app. cbn. rewrite !app_nil_r, app_assoc, fmap_app. by intros ->.
Qed.

Lemma holds_new_file segs seg bs : holds (segs ++ [seg]) bs -> holds ((segs ++ [seg]) ++ [[]]) bs.
Proof. unfold holds. rewrite (concat_app (segs ++ [seg])). cbn. by rewrite app_nil_r. Qed.

Lemma infos_length segs bs : holds segs bs -> length (infos segs bs) = length bs.
Proof. intros Hh. unfold infos. rewrite length_zip_with, (holds_length _ _ Hh). lia. Qed.

Lemma chain_snoc items bs b :
  chain items bs -> block_good items b -> Number (blk_Header b) = Z.of_nat (length bs) ->
  chain items (bs ++ [b]).
Proof.
  intros Hc G En i x Hi. apply lookup_app_Some in Hi as [Hi|[Hge Hi]]; [by apply Hc|].
  apply list_lookup_singleton_Some in Hi as [E <-]. split; [done|]. rewrite En. f_equal. lia.
Qed.

(** The checkpoint key is not among the keys of a good block. *)
Lemma entries_not_checkpoint items p b :
  block_good items b -> blkMgrInfoKey ∉ (block_entries items (idx_info p b)).*1.
Proof.
  intros G Hin.
  assert (blkMgrInfoKey ∈ (family items (constructBlockTxIDKey "lkMgrInfo") (idx_info p b)).*1) as Hf.
  { apply list_elem_of_fmap in Hin as ([k v] & Ek & Hin). cbn in Ek. subst k.
    apply list_elem_of_fmap. exists (blkMgrInfoKey, v). split; [done|].
    by apply list_elem_of_filter. }
  rewrite family_btx in Hf. destruct (indexed items IndexableAttrBlockTxID) eqn:Ex; [|by apply elem_of_nil in Hf].
  apply bool_decide_eq_true in Ex. cbn [when] in Hf.
  apply list_elem_of_fmap in Hf as (kv & Ek & Hf). apply list_elem_of_fmap in Hf as (t & -> & Ht).
  cbn [fst] in Ek. apply cons_bytes_inj in Ek as [_ Ek].
  change (to_bytes "lkMgrInfo" = to_bytes (ti_txID t)) in Ek. apply to_bytes_inj in Ek.
  apply list_elem_of_lookup in Ht as [j Hj]. apply idx_info_ids in Hj.
  apply (bg_key _ _ G Ex). rewrite Ek. by eapply list_elem_of_lookup_2.
Qed.

(** ** Pieces of [addBlock] *)

Definition durable_ex (items : index_items) (w : World S) (bs : list Block) : Prop :=
  exists segs seg tl post m, durable items w segs seg tl bs post m.

Definition rep_ex (g : blockfileMgr) (w : World S) (bs : list Block) : Prop :=
  exists segs seg, rep g w segs seg bs.

Lemma rep_durable_ex g w bs : rep_ex g w bs -> durable_ex (index g) w bs.
Proof. intros (segs & seg & R). exists segs, seg, [], [], (length bs). apply R. Qed.

(** Faults that [addBlock] does not survive are those whose error it drops. *)
Definition handled (w : World S) : Prop :=
  (TruncateFails ∉ w_faults w) /\ (BatchFails ∉ w_faults w).

Lemma handled_fewer (w w' : World S) : fewer_faults w w' -> handled w -> handled w'.
Proof.
  intros [p Ef] [Ht Hb]. unfold handled. rewrite Ef in Ht, Hb.
  rewrite !elem_of_app in *. naive_solver.
Qed.

Lemma fewer_nil (w w' : World S) : fewer_faults w w' -> w_faults w' <> [] -> w_faults w <> [].
Proof. intros [p E] Hne E2. rewrite E2 in E. symmetry in E. by apply app_nil in E as [_ ?]. Qed.

Lemma may_crash_nonempty (w : World S) : may_crash w -> w_faults w <> [].
Proof. intros [k Hk] E. rewrite E in Hk. by apply elem_of_nil in Hk. Qed.

Lemma fault_nonempty (w : World S) (P : fault -> Prop) :
  (exists f, f ∈ w_faults w /\ P f) -> w_faults w <> [].
Proof. intros (f & Hf & _) E. rewrite E in Hf. by apply elem_of_nil in Hf. Qed.

(** Replacing the disk or the checkpoint of a durable state. *)
Lemma durable_same items (w w' : World S) segs seg tl bs post m :
  durable items w segs seg tl bs post m ->
  world_ok w' -> w_disk w' = w_disk w -> view w' = view w ->
  durable items w' segs seg tl bs post m.
Proof.
  intros D Hw Ed Ev. destruct D. split; try rewrite Ed; by rewrite ?Ev.
Qed.

(** The file cut short after [p]. *)
Lemma durable_partial items (w w' : World S) segs seg bs b p :
  durable items w segs seg [] bs [] (length bs) ->
  block_good items b -> Number (blk_Header b) = Z.of_nat (length bs) ->
  Z.of_nat (length bs) + 1 < 2 ^ 62 -> size_ok (seg ++ [block_bytes b]) ->
  w_db w' = w_db w -> p `prefix_of` frame (block_bytes b) ->
  w_disk w' = <[deriveBlockfilePath (Z.of_nat (length segs)) := frames seg ++ p]> (w_disk w) ->
  (p <> frame (block_bytes b) /\ durable items w' segs seg p bs [] (length bs)) \/
  (p = frame (block_bytes b) /\
   durable items w' segs (seg ++ [block_bytes b]) [] (bs ++ [b]) [block_bytes b] (length bs)).
Proof.
  intros D G En Hl Hsz Eb Hp Ed. destruct D as [Dw Dl Dc Ds Dn Dch Dh Dlen (pre & Epre & Dcp) Di Dm].
  assert (view w' = view w) as Ev by (unfold view; by rewrite Eb).
  assert (world_ok w') as Hw' by (unfold world_ok; by rewrite Eb).
  assert (forall x, next_free (w_disk w') (length (segs ++ [x]))) as Hnext.
  { intros x i Hi Hi2. rewrite Ed. rewrite length_app in Hi. cbn in Hi.
    rewrite lookup_insert_ne.
    - apply Dn; [|done]. rewrite length_app. done.
    - intros E. apply deriveBlockfilePath_inj in E; lia. }
  pose proof (layout_frames _ _ _ Dl) as Hfr. apply Forall_app in Hfr as [Hfr1 Hfr2]. rewrite Forall_singleton in Hfr2.
  destruct (decide (p = frame (block_bytes b))) as [->|Hne]; [right|left]; (split; [done|]).
  - split.
    + done.
    + rewrite Ed, <- frames_snoc, <- (app_nil_r (frames (seg ++ [block_bytes b]))).
      eapply (layout_set_last _ segs seg); [exact Dl|]. apply Forall_app. split; [exact Hfr2|].
      apply Forall_singleton, (bg_frame _ _ G).
    + apply cut_nil.
    + apply Forall_app in Ds as [Ds _]. apply Forall_app. split; [done|]. by apply Forall_singleton.
    + apply Hnext.
    + by apply chain_snoc.
    + by apply holds_snoc.
    + rewrite length_app. cbn. lia.
    + exists seg. split; [done|]. rewrite Ev, Dcp, Epre, app_nil_r, length_app. cbn [length].
      do 3 f_equal. lia.
    + intros k Hk. rewrite Ev, Di by done. rewrite infos_snoc by done.
      by rewrite !take_ge, take_app_le, take_ge by (rewrite ?infos_length by done; lia).
    + rewrite length_app. lia.
  - split; try done.
    + rewrite Ed. by eapply layout_set_last.
    + exists (block_bytes b). split; [apply (bg_frame _ _ G)|done].
    + exists pre. by rewrite Ev.
    + intros k Hk. by rewrite Ev, Di.
Qed.

(** Saving the checkpoint and then the index of the new block. *)
Lemma durable_saved items (w w' : World S) segs seg tl bs post m :
  durable items w segs seg tl bs post m -> world_ok w' -> w_disk w' = w_disk w ->
  (forall k, view w' k = if decide (k = blkMgrInfoKey)
     then Some (cp_marshal (cp_at (length segs) seg (length bs))) else view w k) ->
  durable items w' segs seg tl bs [] m.
Proof.
  intros D Hw Ed Ev. destruct D as [Dw Dl Dc Ds Dn Dch Dh Dlen _ Di Dm]. split; try rewrite Ed; try done.
  - exists seg. split; [by rewrite app_nil_r|].
    rewrite Ev, decide_True by done. cbn [length]. by rewrite Nat.sub_0_r.
  - intros k Hk. rewrite Ev, decide_False by done. by apply Di.
Qed.

Lemma durable_indexed items (w w' : World S) segs seg bs b batch :
  holds (segs ++ [seg]) bs ->
  durable items w segs (seg ++ [block_bytes b]) [] (bs ++ [b]) [] (length bs) ->
  world_ok w' -> w_disk w' = w_disk w ->
  batch = add_entries ∅ (block_entries items
    (idx_info (Z.of_nat (length segs), Z.of_nat (length (frames seg)), block_bytes b) b)) ->
  (forall k, view w' k = match batch !! k with Some v => v | None => view w k end) ->
  durable items w' segs (seg ++ [block_bytes b]) [] (bs ++ [b]) [] (length (bs ++ [b])).
Proof.
  intros Hh0 D Hw Ed -> Ev. destruct D as [Dw Dl Dc Ds Dn Dch Dh Dlen (pre & Epre & Dcp) Di Dm].
  set (p := (Z.of_nat (length segs), Z.of_nat (length (frames seg)), block_bytes b)) in *.
  destruct (Dch (length bs) b) as [G _]; [by rewrite lookup_app_r, Nat.sub_diag by lia|].
  split; try rewrite Ed; try done.
  - exists pre. split; [done|]. rewrite Ev.
    rewrite (add_entries_lookup _ {[blkMgrInfoKey := cp_marshal (cp_at (length segs) pre
        (length (bs ++ [b]) - length (@nil bytes)))]}).
    + rewrite put_entries_notin by (by apply entries_not_checkpoint). apply lookup_singleton_eq.
    + rewrite Dcp. symmetry. apply lookup_singleton_eq.
  - intros k Hk. rewrite Ev.
    rewrite (add_entries_lookup _ (index_map items (infos (segs ++ [seg]) bs))).
    + rewrite infos_snoc by done. rewrite take_ge; [by rewrite index_map_snoc|].
      rewrite !length_app, infos_length by done. cbn. lia.
    + rewrite Di by done. rewrite infos_snoc by done.
      by rewrite take_app_le, take_ge by (rewrite infos_length by done; lia).
Qed.


(** ** Running the pieces *)

Lemma on_world_eq {A} (m : ST (World S) A) g w w' r :
  m w = (w', r) -> on_world m (g, w) = ((g, w'), r).
Proof. intros E. unfold on_world. by rewrite E. Qed.

Lemma or_panic_eq {St A} (m : ST St A) s s' r :
  m s = (s', r) -> or_panic m s = (s', match r with Err e => Panic e | r => r end).
Proof. intros E. unfold or_panic. rewrite E. by destruct r. Qed.

Lemma st_try_eq {St A} (m : ST St A) s s' r :
  m s = (s', r) ->
  st_try m s = (s', match r with
                    | Ok a => Ok (inl a) | Err e => Ok (inr e)
                    | Panic p => Panic p | OutOfFuel => OutOfFuel end).
Proof. intros E. unfold st_try. rewrite E. by destruct r. Qed.

Lemma layout_other d segs tl n c :
  layout d segs tl -> (length segs <= n)%nat -> Z.of_nat n < 2 ^ 63 ->
  layout (<[deriveBlockfilePath (Z.of_nat n) := c]> d) segs tl.
Proof.
  intros L Hn Hn2. destruct L as [Lf Lfr Ls]. split; [|done..].
  intros i sg Hi. unfold file_is. rewrite lookup_insert_ne; [by apply Lf|].
  apply lookup_lt_Some in Hi. intros E. apply deriveBlockfilePath_inj in E; lia.
Qed.

(** Opening the next file. *)
Definition opened (d : disk) (n : nat) : disk :=
  match d !! deriveBlockfilePath (Z.of_nat n) with
  | Some _ => d | None => <[deriveBlockfilePath (Z.of_nat n) := []]> d end.

Lemma opened_insert d n :
  next_free d n -> Z.of_nat n < 2 ^ 63 -> opened d n = <[deriveBlockfilePath (Z.of_nat n) := []]> d.
Proof.
  intros Hf Hn. unfold opened. specialize (Hf n ltac:(lia) Hn).
  destruct (d !! _) as [c|] eqn:E; [|done]. cbn in Hf. subst c. by rewrite insert_id.
Qed.

Lemma next_free_insert d n m :
  next_free d n -> Z.of_nat m < 2 ^ 63 ->
  next_free (<[deriveBlockfilePath (Z.of_nat m) := []]> d) n.
Proof.
  intros Hf Hm i Hi Hi2. destruct (decide (i = m)) as [->|Hne]; [by rewrite lookup_insert_eq|].
  rewrite lookup_insert_ne; [by apply Hf|]. intros E. apply deriveBlockfilePath_inj in E; lia.
Qed.

Lemma durable_opened items (w w' : World S) segs seg bs :
  durable items w segs seg [] bs [] (length bs) -> Z.of_nat (length segs) + 3 < 2 ^ 62 ->
  world_ok w' -> w_db w' = w_db w -> w_disk w' = opened (w_disk w) (length (segs ++ [seg])) ->
  durable items w' segs seg [] bs [] (length bs).
Proof.
  intros D Hz Hw Eb Ed. assert (view w' = view w) as Ev by (unfold view; by rewrite Eb).
  destruct D as [Dw Dl Dc Ds Dn Dch Dh Dlen Dcp Di Dm].
  assert (Z.of_nat (length (segs ++ [seg])) < 2 ^ 63) by (rewrite length_app; cbn; lia).
  rewrite opened_insert in Ed by done. split; try rewrite Ed; rewrite ?Ev; try done.
  - by apply layout_other.
  - by apply next_free_insert.
Qed.

Lemma durable_moved items (w w' : World S) segs seg bs :
  durable items w segs seg [] bs [] (length bs) -> Z.of_nat (length segs) + 3 < 2 ^ 62 ->
  world_ok w' -> w_disk w' = opened (w_disk w) (length (segs ++ [seg])) ->
  (forall k, view w' k = if decide (k = blkMgrInfoKey)
     then Some (cp_marshal (cp_at (length (segs ++ [seg])) [] (length bs))) else view w k) ->
  durable items w' (segs ++ [seg]) [] [] bs [] (length bs).
Proof.
  intros D Hz Hw Ed Ev. destruct D as [Dw Dl Dc Ds Dn Dch Dh Dlen Dcp Di Dm].
  assert (Z.of_nat (length (segs ++ [seg])) < 2 ^ 63) by (rewrite length_app; cbn; lia).
  rewrite opened_insert in Ed by done. split; try rewrite Ed; try done.
  - apply layout_add; [done|]. rewrite length_app. cbn. lia.
  - apply Forall_app. split; [done|]. apply Forall_singleton. unfold size_ok. cbn. lia.
  - intros i Hi Hi2. rewrite length_app in Hi. cbn in Hi.
    rewrite lookup_insert_ne; [apply Dn; lia|]. intros E. apply deriveBlockfilePath_inj in E; lia.
  - by apply holds_new_file.
  - exists []. split; [done|]. rewrite Ev, decide_True by done. cbn [length]. by rewrite Nat.sub_0_r.
  - intros k Hk. rewrite Ev, decide_False by done. rewrite infos_new_file. by apply Di.
Qed.

Lemma move_cases g w segs seg bs :
  rep g w segs seg bs -> bs <> [] -> Z.of_nat (length segs) + 3 < 2 ^ 62 ->
  exists g' w' r, moveToNextFile (g, w) = ((g', w'), r) /\ fewer_faults w w' /\ index g' = index g /\
    ((r = Ok tt /\ rep g' w' (segs ++ [seg]) [] bs /\ maxBlockfileSize g' = maxBlockfileSize g) \/
     ((exists m, r = Panic m) /\ w_faults w <> [] /\ durable_ex (index g) w' bs)).
Proof.
  intros R Hne Hz. pose proof (r_durable _ _ _ _ _ R) as D.
  set (n := length (segs ++ [seg])).
  assert (Z.of_nat (length segs) + 1 = Z.of_nat n) as En by (unfold n; rewrite length_app; cbn; lia).
  set (cp := cp_at n [] (length bs)).
  assert (mkCheckpointInfo (latestFileChunkSuffixNum (cpInfo g) + 1) 0 false
            (lastBlockNumber (cpInfo g)) = cp) as Ecp.
  { rewrite (r_cp _ _ _ _ _ R). unfold cp, cp_at. cbn. rewrite En.
    rewrite bool_decide_eq_false_2; [done|]. by destruct bs. }
  unfold moveToNextFile. rewrite (st_bind_Ok _ _ (g, w) (g, w) _ eq_refl). cbn [fst]. rewrite Ecp.
  destruct (newBlockfileWriter_cases w (deriveBlockfilePath (Z.of_nat n)) (d_world _ _ _ _ _ _ _ _ D))
    as (w1 & r1 & E1 & Hf1 & Hw1 & Eb1 & Hr1).
  rewrite (st_bind_eq _ _ _ _ _ (on_world_eq _ g _ _ _ (or_panic_eq _ _ _ _ E1))).
  assert (w_disk w1 = opened (w_disk w) n -> durable (index g) w1 segs seg [] bs [] (length bs)) as Hop.
  { intros Ed. by eapply (durable_opened _ w). }
  assert (w_disk w1 = w_disk w -> durable (index g) w1 segs seg [] bs [] (length bs)) as Hsame.
  { intros Ed. eapply durable_same; [exact D|done|done|]. unfold view. by rewrite Eb1. }
  assert (durable (index g) w1 segs seg [] bs [] (length bs) -> durable_ex (index g) w1 bs) as Hex
    by (intros; by eexists _, _, _, _, _).
  destruct Hr1 as [[Ed1 Hr1]|[Ed1 Hr1]].
  2: { exists g, w1. destruct Hr1 as [[Hin [e ->]]|[Hc [m ->]]]; eexists; (split; [reflexivity|]);
       (split; [done|]); (split; [done|]); right; (split; [by eexists|]);
       (split; [first [exact (fault_nonempty _ _ Hin)|by apply may_crash_nonempty]|]); auto. }
  destruct Hr1 as [->|[Hc [m ->]]].
  2: { exists g, w1, (Panic m). split; [done|]. split; [done|]. split; [done|]. right.
       split; [by eexists|]. split; [by apply may_crash_nonempty|auto]. }
  destruct (db_Put_cases w1 blkMgrInfoKey (cp_marshal cp) true Hw1)
    as (w2 & r2 & E2 & Hf2 & Hw2 & Ed2 & Hr2).
  rewrite (st_bind_eq _ _ _ _ _ (on_world_eq _ g _ _ _ (or_panic_eq _ _ _ _ E2))).
  assert (fewer_faults w w2) as Hf by (by etrans).
  destruct Hr2 as [[Ev2 Hr2]|[Ev2 Hr2]].
  2: { exists g, w2.
       assert (durable_ex (index g) w2 bs).
       { eexists _, _, _, _, _. eapply durable_same; [by apply Hop|done..]. }
       destruct Hr2 as [[Hin [e ->]]|[Hc [m ->]]]; eexists; (split; [reflexivity|]);
       (split; [done|]); (split; [done|]); right; (split; [by eexists|]); (split; [|done]);
       (eapply fewer_nil; [exact Hf1|]); first [exact (fault_nonempty _ _ Hin)|by apply may_crash_nonempty]. }
  assert (durable (index g) w2 (segs ++ [seg]) [] [] bs [] (length bs)) as D2.
  { eapply (durable_moved _ w); [done..|by rewrite Ed2|]. intros k. rewrite Ev2. unfold view.
    by rewrite Eb1. }
  destruct Hr2 as [->|[Hc [m ->]]].
  2: { exists g, w2, (Panic m). split; [done|]. split; [done|]. split; [done|]. right.
       split; [by eexists|]. split; [|by eexists _, _, _, _, _].
       eapply fewer_nil; [exact Hf1|]. by apply may_crash_nonempty. }
  eexists _, w2, (Ok tt). split; [reflexivity|]. split; [done|]. split; [done|]. left.
  split; [done|]. split; [|done]. split; cbn; [exact D2|apply R|done|done|apply R].
Qed.


(** The length and the bytes of a block, one after the other. *)
Lemma append2_cases (w : World S) path x y :
  world_ok w ->
  exists w' r p, (append path x false;; append path y true) w = (w', r) /\ fewer_faults w w' /\
    w_db w' = w_db w /\ p `prefix_of` x ++ y /\
    w_disk w' = <[path := default [] (w_disk w !! path) ++ p]> (w_disk w) /\
    (r = Ok tt /\ p = x ++ y \/
     w_faults w <> [] /\ ((exists e, r = Err e) \/ exists m, r = Panic m)).
Proof.
  intros Hw. destruct (append_cases w path x false Hw) as (w1 & r1 & p1 & E1 & Hf1 & Eb1 & Hp1 & Ed1 & Hr1).
  rewrite (st_bind_eq _ _ _ _ _ E1).
  destruct Hr1 as [[-> ->]|Hr1].
  2: { exists w1, r1, p1.
       assert (p1 `prefix_of` x ++ y) by (by apply prefix_app_r).
       destruct Hr1 as [[Hin [e ->]]|[Hc [m ->]]]; (split; [done|]);
         (split; [done|]); (split; [done|]); (split; [done|]); (split; [done|]); right.
       - split; [exact (fault_nonempty _ _ Hin)|eauto].
       - split; [by apply may_crash_nonempty|eauto]. }
  assert (world_ok w1) as Hw1 by (unfold world_ok; by rewrite Eb1).
  destruct (append_cases w1 path y true Hw1) as (w2 & r2 & p2 & E2 & Hf2 & Eb2 & Hp2 & Ed2 & Hr2).
  exists w2, r2, (x ++ p2). split; [exact E2|]. split; [by etrans|]. split; [congruence|].
  split; [by apply prefix_app|].
  split.
  { rewrite Ed2, Ed1, lookup_insert_eq. cbn. by rewrite insert_insert_eq, app_assoc. }
  destruct Hr2 as [[-> ->]|[[Hin [e ->]]|[Hc [m ->]]]]; [by left|right..].
  - split; [|eauto]. eapply fewer_nil; [exact Hf1|exact (fault_nonempty _ _ Hin)].
  - split; [|eauto]. eapply fewer_nil; [exact Hf1|by apply may_crash_nonempty].
Qed.

Lemma rep_same g (w w' : World S) segs seg bs :
  rep g w segs seg bs -> world_ok w' -> w_disk w' = w_disk w -> view w' = view w ->
  rep g w' segs seg bs.
Proof.
  intros R Hw Ed Ev. destruct R as [D ????]. split; [|done..]. by eapply durable_same.
Qed.

(** The files only grow: bytes are added to the last one, or after it. *)
Definition grows (a b : list (list bytes)) : Prop :=
  exists l x y m, a = l ++ [x] /\ b = l ++ (x ++ y) :: m.

Lemma grows_refl l x : grows (l ++ [x]) (l ++ [x]).
Proof. exists l, x, [], []. by rewrite app_nil_r. Qed.

Lemma grows_last l x y : grows (l ++ [x]) (l ++ [x ++ y]).
Proof. by exists l, x, y, []. Qed.

Lemma grows_file l x y : grows (l ++ [x]) ((l ++ [x]) ++ [y]).
Proof. exists l, x, [], [y]. by rewrite app_nil_r, <- app_assoc. Qed.

Lemma grows_trans a b c : grows a b -> grows b c -> grows a c.
Proof.
  intros (l & x & y & m & -> & ->) (l' & x' & y' & m' & E & ->).
  destruct m as [|x2 m _] using rev_ind.
  - apply app_inj_tail in E as [<- <-]. exists l, x, (y ++ y'), m'. by rewrite app_assoc.
  - rewrite app_comm_cons, app_assoc in E. apply app_inj_tail in E as [<- <-].
    exists l, x, y, (m ++ (x2 ++ y') :: m'). by rewrite <- app_assoc.
Qed.

(** The manager holds [bs] in files that have grown from [a]. *)
Definition rep_from (a : list (list bytes)) (g : blockfileMgr) (w : World S) (bs : list Block) : Prop :=
  exists segs seg, rep g w segs seg bs /\ grows a (segs ++ [seg]).

Definition add_outcome (a : list (list bytes)) (g : blockfileMgr) (w : World S) (bs : list Block)
    (b : Block) (g' : blockfileMgr) (w' : World S) (r : res unit) : Prop :=
  (r = Ok tt /\ rep_from a g' w' (bs ++ [b])) \/
  ((exists e, r = Err e) /\ w_faults w <> [] /\ rep_from a g' w' bs) \/
  ((exists m, r = Panic m) /\ w_faults w <> [] /\
     (durable_ex (index g) w' bs \/ durable_ex (index g) w' (bs ++ [b]))).

(** Undoing an append that failed or whose checkpoint could not be saved. *)
Lemma undo_append g (w0 w : World S) segs seg bs b p msg :
  rep g w0 segs seg bs -> block_good (index g) b -> Number (blk_Header b) = Z.of_nat (length bs) ->
  Z.of_nat (length bs) + 1 < 2 ^ 62 -> size_ok (seg ++ [block_bytes b]) ->
  p `prefix_of` frame (block_bytes b) -> world_ok w -> view w = view w0 ->
  w_disk w = <[deriveBlockfilePath (Z.of_nat (length segs)) := frames seg ++ p]> (w_disk w0) ->
  handled w -> w_faults w0 <> [] ->
  exists g' w' r,
    (on_world (or_panic (truncateFile (deriveBlockfilePath (Z.of_nat (length segs)))
       (Z.of_nat (length (frames seg)))));; st_lift (Err msg)) (g, w) = ((g', w'), r) /\
    index g' = index g /\ add_outcome (segs ++ [seg]) g w0 bs b g' w' r.
Proof.
  intros R G En Hl Hsz Hp Hw Ev Ed [Hnt _] Hne. pose proof (r_durable _ _ _ _ _ R) as D.
  destruct (truncate_cases w (deriveBlockfilePath (Z.of_nat (length segs))) (frames seg ++ p)
    (length (frames seg))) as (w1 & r1 & E1 & Hf1 & Eb1 & Hr1).
  { by rewrite Ed, lookup_insert_eq. }
  { done. }
  rewrite (st_bind_eq _ _ _ _ _ (on_world_eq _ g _ _ _ (or_panic_eq _ _ _ _ E1))).
  assert (world_ok w1) as Hw1 by (unfold world_ok; by rewrite Eb1).
  assert (view w1 = view w0) as Ev1 by (rewrite <- Ev; unfold view; by rewrite Eb1).
  destruct Hr1 as [[Ed1 ->]|(Ed1 & Hc & m & ->)].
  - eexists g, w1, _. split; [reflexivity|]. split; [done|]. right. left. split; [by eexists|].
    split; [done|]. exists segs, seg. split; [|apply grows_refl]. eapply rep_same; [exact R|done| |done].
    rewrite Ed1, Ed, take_app_length, insert_insert_eq. apply insert_id.
    pose proof (layout_last _ _ _ _ (d_layout _ _ _ _ _ _ _ _ D)) as Hf.
    by rewrite app_nil_r in Hf.
  - eexists g, w1, _. split; [reflexivity|]. split; [done|]. right. right. split; [by eexists|].
    split; [done|]. set (wd := mkWorld (w_disk w1) (w_db w0) (w_faults w1)).
    assert (forall bs' sg tl post k, durable (index g) wd segs sg tl bs' post k ->
              durable_ex (index g) w1 bs') as Hd.
    { intros bs' sg tl post k Hd. eexists _, _, _, _, _. eapply durable_same; [exact Hd|done..]. }
    destruct (durable_partial (index g) w0 wd segs seg bs b p D) as [[_ Hd']|[_ Hd']];
      [done..|cbn; congruence| |]; [left|right]; by eapply Hd.
Qed.

Lemma indexBlock_eq items info (w : World S) :
  items <> [] -> info_wf items info ->
  indexBlock items info w = db_WriteBatch (add_entries ∅ (block_entries items info)) true w.
Proof.
  intros Hne Hwf. unfold indexBlock. rewrite (index_batch_ok _ _ Hwf). by destruct items.
Qed.

(** The last phase: the bytes and the checkpoint are written, the index is
    next. *)
Lemma index_phase g (w0 w : World S) segs seg bs b :
  rep g w0 segs seg bs -> block_good (index g) b -> Number (blk_Header b) = Z.of_nat (length bs) ->
  index g <> [] -> maxBlockfileSize g < 2 ^ 62 -> fewer_faults w0 w -> handled w ->
  durable (index g) w segs (seg ++ [block_bytes b]) [] (bs ++ [b]) [] (length bs) ->
  exists g' w' r,
    (_ ← st_try (on_world (indexBlock (index g)
        (idx_info (Z.of_nat (length segs), Z.of_nat (length (frames seg)), block_bytes b) b)));
     updateCheckpoint (cp_at (length segs) (seg ++ [block_bytes b]) (length (bs ++ [b])));;
     updateBlockchainInfo (hash_of (blk_Header b)) b) (g, w) = ((g', w'), r) /\
    index g' = index g /\ add_outcome (segs ++ [seg]) g w0 bs b g' w' r.
Proof.
  intros R G En Hix Hmax Hff [_ Hnb] D2. pose proof (r_durable _ _ _ _ _ R) as D.
  set (info := idx_info _ b). pose proof (d_world _ _ _ _ _ _ _ _ D2) as Hw.
  assert (indexBlock (index g) info w =
    db_WriteBatch (add_entries ∅ (block_entries (index g) info)) true w) as Ei.
  { by apply indexBlock_eq, (idx_info_wf (index g) (length bs) _ b G En). }
  destruct (db_WriteBatch_cases w (add_entries ∅ (block_entries (index g) info)) true Hw)
    as (w1 & r1 & E1 & Hf1 & Hw1 & Ed1 & Hr1). rewrite <- Ei in E1.
  rewrite (st_bind_eq _ _ _ _ _ (st_try_eq _ _ _ _ (on_world_eq _ g _ _ _ E1))).
  destruct Hr1 as [[Ev1 Hr1]|[Ev1 Hr1]].
  2: { destruct Hr1 as [[(f & Hin & Hm) _]|[Hc [m ->]]]; [by destruct f|].
       eexists g, w1, _. split; [reflexivity|]. split; [done|]. right. right. split; [by eexists|].
       split; [eapply fewer_nil; [exact Hff|by apply may_crash_nonempty]|]. right.
       eexists _, _, _, _, _. eapply durable_same; [exact D2|done..]. }
  assert (durable (index g) w1 segs (seg ++ [block_bytes b]) [] (bs ++ [b]) [] (length (bs ++ [b]))) as D3.
  { eapply (durable_indexed _ w w1 segs seg bs b); [apply (d_holds _ _ _ _ _ _ _ _ D)|done..]. }
  destruct Hr1 as [->|[Hc [m ->]]].
  2: { eexists g, w1, _. split; [reflexivity|]. split; [done|]. right. right. split; [by eexists|].
       split; [eapply fewer_nil; [exact Hff|by apply may_crash_nonempty]|]. right.
       by eexists _, _, _, _, _. }
  eexists _, w1, (Ok tt). split; [reflexivity|]. split; [done|]. left. split; [done|].
  exists segs, (seg ++ [block_bytes b]). split; [|apply grows_last].
  split; cbn; [exact D3|done|done|apply R|].
  unfold info_of. rewrite last_snoc. f_equal. rewrite (r_info _ _ _ _ _ R).
  assert (Height (info_of bs) = Z.of_nat (length bs)) as ->.
  { unfold info_of. destruct (last bs) eqn:El; [done|]. by apply last_None in El as ->. }
  pose proof (d_len _ _ _ _ _ _ _ _ D). rewrite wrap64_small by (unfold u64; lia).
  rewrite length_app. cbn. lia.
Qed.

Lemma write_cases g (w : World S) segs seg bs b :
  rep g w segs seg bs -> block_good (index g) b -> Number (blk_Header b) = Z.of_nat (length bs) ->
  index g <> [] -> Z.of_nat (length bs) + 1 < 2 ^ 62 -> size_ok (seg ++ [block_bytes b]) ->
  handled w ->
  exists g' w' r,
    write_block b (block_bytes b) (block_info b (ids_of b)) (hash_of (blk_Header b))
      (Z.of_nat (length (frames seg))) (g, w) = ((g', w'), r) /\
    index g' = index g /\ add_outcome (segs ++ [seg]) g w bs b g' w' r.
Proof.
  intros R G En Hix Hl Hsz Hh. pose proof (r_durable _ _ _ _ _ R) as D.
  pose proof (d_world _ _ _ _ _ _ _ _ D) as Hw.
  pose proof (layout_last _ _ _ _ (d_layout _ _ _ _ _ _ _ _ D)) as Hfile.
  unfold file_is in Hfile. rewrite app_nil_r in Hfile.
  unfold write_block. rewrite (st_bind_Ok _ _ (g, w) (g, w) _ eq_refl). cbn [fst].
  rewrite (r_writer _ _ _ _ _ R), (r_cp _ _ _ _ _ R).
  set (v := EncodeVarint (Z.of_nat (length (block_bytes b)))).
  destruct (append2_cases w (deriveBlockfilePath (Z.of_nat (length segs))) v (block_bytes b) Hw)
    as (w1 & r1 & p & E1 & Hf1 & Eb1 & Hp & Ed1 & Hr1).
  rewrite (st_bind_eq _ _ _ _ _ (st_try_eq _ _ _ _ (on_world_eq _ g _ _ _ E1))).
  rewrite Hfile in Ed1. change (default [] (Some ?x)) with x in Ed1.
  change (v ++ block_bytes b) with (frame (block_bytes b)) in *.
  assert (world_ok w1) as Hw1 by (unfold world_ok; by rewrite Eb1).
  assert (view w1 = view w) as Ev1 by (unfold view; by rewrite Eb1).
  pose proof (handled_fewer _ _ Hf1 Hh) as Hh1.
  pose proof (durable_partial (index g) w w1 segs seg bs b p D G En Hl Hsz Eb1 Hp Ed1) as Hpart.
  destruct Hr1 as [[-> ->]|[Hne Hr1]]; cycle 1.
  { destruct Hr1 as [[e ->]|[m ->]].
    - cbn [cp_at latestFileChunksize]. by eapply (undo_append g w w1 segs seg bs b p).
    - eexists g, w1, _. split; [reflexivity|]. split; [done|]. right. right. split; [by eexists|].
      split; [done|]. destruct Hpart as [[_ Hd]|[_ Hd]]; [left|right]; by eexists _, _, _, _, _. }
  destruct Hpart as [[Hcon _]|[_ Dpost]]; [done|].
  assert (mkCheckpointInfo (latestFileChunkSuffixNum (cp_at (length segs) seg (length bs)))
      (latestFileChunksize (cp_at (length segs) seg (length bs)) +
       (Z.of_nat (length (block_bytes b)) + Z.of_nat (length v))) false (Number (blk_Header b)) =
    cp_at (length segs) (seg ++ [block_bytes b]) (length (bs ++ [b]))) as Ecp.
  { unfold cp_at. cbn [latestFileChunkSuffixNum latestFileChunksize]. rewrite En, frames_snoc, !length_app.
    rewrite length_frame. fold v. rewrite bool_decide_eq_false_2 by (cbn; lia).
    f_equal; cbn; lia. }
  rewrite Ecp. set (cp := cp_at (length segs) (seg ++ [block_bytes b]) (length (bs ++ [b]))).
  destruct (db_Put_cases w1 blkMgrInfoKey (cp_marshal cp) false Hw1)
    as (w2 & r2 & E2 & Hf2 & Hw2 & Ed2 & Hr2).
  rewrite (st_bind_eq _ _ _ _ _ (st_try_eq _ _ _ _ (on_world_eq _ g _ _ _ E2))).
  assert (fewer_faults w w2) as Hf by (by etrans). pose proof (handled_fewer _ _ Hf Hh) as Hh2.
  destruct Hr2 as [[Ev2 Hr2]|[Ev2 Hr2]]; cycle 1.
  { destruct Hr2 as [[Hin [e ->]]|[Hc [m ->]]].
    - cbn [cp_at latestFileChunksize].
      eapply (undo_append g w w2 segs seg bs b (frame (block_bytes b))); try done.
      + by rewrite Ev2.
      + by rewrite Ed2.
      + eapply fewer_nil; [exact Hf1|exact (fault_nonempty _ _ Hin)].
    - eexists g, w2, _. split; [reflexivity|]. split; [done|]. right. right. split; [by eexists|].
      split; [eapply fewer_nil; [exact Hf1|by apply may_crash_nonempty]|]. right.
      eexists _, _, _, _, _. eapply durable_same; [exact Dpost|done..]. }
  pose proof (durable_saved _ _ _ _ _ _ _ _ _ Dpost Hw2 Ed2 Ev2) as Dsaved.
  destruct Hr2 as [->|[Hc [m ->]]]; cycle 1.
  { eexists g, w2, _. split; [reflexivity|]. split; [done|]. right. right. split; [by eexists|].
    split; [eapply fewer_nil; [exact Hf1|by apply may_crash_nonempty]|]. right.
    by eexists _, _, _, _, _. }
  by apply (index_phase g w w2 segs seg bs b R G En Hix (r_max _ _ _ _ _ R) Hf Hh2 Dsaved).
Qed.

(** A block is added after the last file, or to a new one. *)
Definition fits (g : blockfileMgr) (b : Block) : Prop :=
  latestFileChunksize (cpInfo g) + Z.of_nat (length (frame (block_bytes b))) <= maxBlockfileSize g.

Lemma add_cases g (w : World S) segs seg bs b :
  rep g w segs seg bs -> block_good (index g) b -> Number (blk_Header b) = Z.of_nat (length bs) ->
  index g <> [] -> Z.of_nat (length bs) + 1 < 2 ^ 62 -> Z.of_nat (length segs) + 3 < 2 ^ 62 ->
  (bs <> [] \/ fits g b) -> handled w ->
  exists g' w' r, addBlock b (g, w) = ((g', w'), r) /\ index g' = index g /\
    add_outcome (segs ++ [seg]) g w bs b g' w' r.
Proof.
  intros R G En Hix Hl Hz Hfit Hh.
  assert (Height (bcInfo g) = Z.of_nat (length bs)) as Eh.
  { rewrite (r_info _ _ _ _ _ R). unfold info_of. destruct (last bs) eqn:El; [done|].
    by apply last_None in El as ->. }
  unfold addBlock. rewrite (st_bind_Ok _ _ (g, w) (g, w) _ eq_refl). cbn [fst].
  rewrite Eh, En, Z.eqb_refl. cbn [negb]. rewrite (serialize_good _ _ G).
  rewrite (st_bind_Ok _ _ _ (g, w) _ eq_refl). rewrite (hash_of_ok _ _ G).
  rewrite (st_bind_Ok _ _ _ (g, w) _ eq_refl). cbv zeta.
  assert (Z.of_nat (length (block_bytes b)) +
    Z.of_nat (length (EncodeVarint (Z.of_nat (length (block_bytes b))))) =
    Z.of_nat (length (frame (block_bytes b)))) as -> by (rewrite length_frame; lia).
  pose proof (r_max _ _ _ _ _ R) as Hmax. pose proof (bg_frame _ _ G) as Hbf. unfold frame_ok in Hbf.
  pose proof (frame_varint _ (bg_frame _ _ G)) as Hv. unfold fits in Hfit.
  destruct (Z.ltb_spec (maxBlockfileSize g)
    (latestFileChunksize (cpInfo g) + Z.of_nat (length (frame (block_bytes b))))) as [Hbig|Hsmall].
  - destruct Hfit as [Hne|]; [|lia].
    destruct (move_cases g w segs seg bs R Hne Hz) as (g1 & w1 & r1 & E1 & Hf1 & Ei1 & Hr1).
    rewrite (st_bind_eq _ _ _ (g1, w1) (match r1 with Ok _ => Ok 0 | Err e => Err e
       | Panic p => Panic p | OutOfFuel => OutOfFuel end)); cycle 1.
    { rewrite (st_bind_eq _ _ _ _ _ E1). by destruct r1. }
    destruct Hr1 as [(-> & R1 & Em)|([m ->] & Hne1 & Hd)].
    + destruct (write_cases g1 w1 (segs ++ [seg]) [] bs b R1) as (g2 & w2 & r2 & E2 & Ei2 & Hout).
      * by rewrite Ei1.
      * done.
      * by rewrite Ei1.
      * done.
      * unfold size_ok. rewrite frames_snoc, length_app, length_frame. change (length (frames [])) with 0%nat. lia.
      * by eapply handled_fewer.
      * exists g2, w2, r2. split; [exact E2|]. split; [congruence|].
        assert (forall l, rep_from ((segs ++ [seg]) ++ [[]]) g2 w2 l -> rep_from (segs ++ [seg]) g2 w2 l)
          as Hgr.
        { intros l (sg & sl & Hr & Hg). exists sg, sl. split; [done|].
          by eapply grows_trans; [apply grows_file|]. }
        destruct Hout as [[Eo Hr]|[(He & Hn & Hr)|(Hp & Hn & Hd)]]; [left; auto|right; left|right; right].
        -- split; [done|]. split; [by eapply fewer_nil|auto].
        -- split; [done|]. split; [by eapply fewer_nil|]. by rewrite Ei1 in Hd.
    + eexists g1, w1, _. split; [reflexivity|]. split; [done|]. right. right. split; [by eexists|].
      split; [done|]. by left.
  - rewrite (st_bind_Ok _ _ _ (g, w) _ eq_refl). rewrite (r_cp _ _ _ _ _ R) in Hsmall |- *.
    cbn [cp_at latestFileChunksize] in Hsmall |- *.
    destruct (write_cases g w segs seg bs b R G En Hix Hl) as (g2 & w2 & r2 & E2 & Ei2 & Hout);
      [|done|by exists g2, w2, r2].
    unfold size_ok. rewrite frames_snoc, length_app. lia.
Qed.

(** ** Starting *)

Lemma no_faults_crash (w : World S) : w_faults w = [] -> may_crash w -> False.
Proof. intros E [k Hk]. rewrite E in Hk. by apply elem_of_nil in Hk. Qed.

Lemma no_faults_any (w : World S) (P : fault -> Prop) :
  w_faults w = [] -> (exists f, f ∈ w_faults w /\ P f) -> False.
Proof. intros E (f & Hf & _). rewrite E in Hf. by apply elem_of_nil in Hf. Qed.

Lemma no_faults_fewer (w w' : World S) : fewer_faults w w' -> w_faults w = [] -> w_faults w' = [].
Proof. intros [p E] E2. rewrite E2 in E. symmetry in E. by apply app_nil in E as [_ ?]. Qed.

Lemma db_Put_ok (w : World S) k v sync :
  world_ok w -> w_faults w = [] ->
  exists w', db_Put k v sync w = (w', Ok tt) /\ w_faults w' = [] /\ world_ok w' /\
    w_disk w' = w_disk w /\
    forall k', view w' k' = if decide (k' = k) then Some v else view w k'.
Proof.
  intros Hw Hf. destruct (db_Put_cases w k v sync Hw) as (w' & r & E & Hff & Hw' & Ed & Hr).
  assert (w_faults w' = []) by (by eapply no_faults_fewer). exists w'.
  destruct Hr as [[Ev [->|[Hc _]]]|[_ [[Hin _]|[Hc _]]]];
    [done|by destruct (no_faults_crash w)|by destruct (no_faults_any w _ Hf Hin)|
     by destruct (no_faults_crash w)].
Qed.

Lemma db_WriteBatch_ok (w : World S) batch sync :
  world_ok w -> w_faults w = [] ->
  exists w', db_WriteBatch batch sync w = (w', Ok tt) /\ w_faults w' = [] /\ world_ok w' /\
    w_disk w' = w_disk w /\
    forall k, view w' k = match batch !! k with Some v => v | None => view w k end.
Proof.
  intros Hw Hf. destruct (db_WriteBatch_cases w batch sync Hw) as (w' & r & E & Hff & Hw' & Ed & Hr).
  assert (w_faults w' = []) by (by eapply no_faults_fewer). exists w'.
  destruct Hr as [[Ev [->|[Hc _]]]|[_ [[Hin _]|[Hc _]]]];
    [done|by destruct (no_faults_crash w)|by destruct (no_faults_any w _ Hf Hin)|
     by destruct (no_faults_crash w)].
Qed.

(** *** The checkpoint *)

Lemma frames_length_nil l : length (frames l) = 0%nat -> l = [].
Proof. destruct l as [|b l]; [done|]. pose proof (length_le_frames (b :: l)). cbn [length] in *. lia. Qed.

Lemma holds_post segs seg bs pre post :
  holds (segs ++ [seg]) bs -> seg = pre ++ post -> (length post <= length bs)%nat.
Proof.
  intros Hh ->. apply (f_equal length) in Hh. rewrite length_fmap, concat_app in Hh.
  cbn in Hh. rewrite app_nil_r, !length_app in Hh. lia.
Qed.

Lemma syncCP_ok items (w : World S) segs seg tl bs pre post m :
  durable items w segs seg tl bs post m -> seg = pre ++ post ->
  syncCPInfoFromFS (w_disk w) (cp_at (length segs) pre (length bs - length post)) =
  Ok (cp_at (length segs) seg (length bs)).
Proof.
  intros D Eseg. pose proof (holds_post _ _ _ _ _ (d_holds _ _ _ _ _ _ _ _ D) Eseg) as Hlen.
  pose proof (layout_last _ _ _ _ (d_layout _ _ _ _ _ _ _ _ D)) as Hfile.
  pose proof (layout_frames _ _ _ (d_layout _ _ _ _ _ _ _ _ D)) as Hfr.
  apply Forall_app in Hfr as [_ Hfr]. rewrite Forall_singleton in Hfr.
  rewrite Eseg in Hfr. apply Forall_app in Hfr as [_ Hfr].
  unfold syncCPInfoFromFS. cbn [cp_at latestFileChunkSuffixNum latestFileChunksize].
  pose proof Hfile as Hfile'. unfold file_is in Hfile'. rewrite Hfile'.
  rewrite Eseg, frames_app, !length_app.
  destruct (Z.eqb_spec (Z.of_nat (length (frames pre) + length (frames post) + length tl))
              (Z.of_nat (length (frames pre)))) as [E|Hne].
  { assert (post = []) as -> by (apply frames_length_nil; lia). rewrite !app_nil_r.
    by rewrite Nat.sub_0_r. }
  rewrite Eseg, frames_app, <- app_assoc in Hfile.
  rewrite (scan_ok _ _ post (frames pre) tl) by (done || apply (d_cut _ _ _ _ _ _ _ _ D)).
  cbn [isChainEmpty lastBlockNumber]. pose proof (d_len _ _ _ _ _ _ _ _ D).
  destruct (Z.eqb_spec (Z.of_nat (length post)) 0) as [E0|Hn0].
  - assert (post = []) as -> by (destruct post; [done|cbn in E0; lia]). rewrite !app_nil_r. cbn [length].
    by rewrite Nat.sub_0_r, Z.add_0_r.
  - unfold cp_at. rewrite frames_app, length_app, Nat2Z.inj_add.
    rewrite (bool_decide_eq_false_2 (length bs = 0%nat)) by lia. do 2 f_equal.
    cbn [isChainEmpty lastBlockNumber]. case_bool_decide; [lia|].
    rewrite wrap64_small by (unfold u64; lia). lia.
Qed.

(** *** The index *)

Lemma durable_step items (w w' : World S) segs seg bs m p b :
  durable items w segs seg [] bs [] m -> place 0 (segs ++ [seg]) !! m = Some p -> bs !! m = Some b ->
  world_ok w' -> w_disk w' = w_disk w ->
  (forall k, view w' k = match add_entries ∅ (block_entries items (idx_info p b)) !! k with
                         | Some v => v | None => view w k end) ->
  durable items w' segs seg [] bs [] (Datatypes.S m).
Proof.
  intros D Hp Hb Hw Ed Ev. destruct D as [Dw Dl Dc Ds Dn Dch Dh Dlen (pre & Epre & Dcp) Di Dm].
  destruct (Dch m b Hb) as [G _].
  split; try rewrite Ed; try done.
  - exists pre. split; [done|]. rewrite Ev.
    rewrite (add_entries_lookup _ {[blkMgrInfoKey := cp_marshal (cp_at (length segs) pre
        (length bs - length (@nil bytes)))]}).
    + rewrite put_entries_notin by (by apply entries_not_checkpoint). apply lookup_singleton_eq.
    + rewrite Dcp. symmetry. apply lookup_singleton_eq.
  - intros k Hk. rewrite Ev.
    rewrite (add_entries_lookup _ (index_map items (take m (infos (segs ++ [seg]) bs)))) by (by apply Di).
    rewrite (take_S_r _ _ (idx_info p b)); [by rewrite index_map_snoc|].
    unfold infos. by rewrite lookup_zip_with, Hp, Hb.
  - apply lookup_lt_Some in Hb. lia.
Qed.

Lemma sync_loop_ok g segs seg bs fuel (w : World S) m s :
  durable (index g) w segs seg [] bs [] m -> w_faults w = [] -> index g <> [] ->
  stream_at (segs ++ [seg]) s (drop m (place 0 (segs ++ [seg]))) ->
  bs_endFileNum s = Z.of_nat (length segs) -> (length bs - m < fuel)%nat ->
  exists w', sync_loop fuel s (g, w) = ((g, w'), Ok tt) /\ w_faults w' = [] /\
    w_disk w' = w_disk w /\ durable (index g) w' segs seg [] bs [] (length bs).
Proof.
  revert w m s. induction fuel as [|fuel IH]; intros w m s D Hf Hix Hs He Hfuel; [lia|].
  pose proof (holds_length _ _ (d_holds _ _ _ _ _ _ _ _ D)) as Hlen.
  pose proof (d_m _ _ _ _ _ _ _ _ D) as Hm. pose proof (d_layout _ _ _ _ _ _ _ _ D) as L.
  assert (bs_endFileNum s = Z.of_nat (length (segs ++ [seg])) - 1) as He'
    by (rewrite length_app; cbn; lia).
  cbn [sync_loop]. rewrite (st_bind_Ok _ _ (g, w) (g, w) _ eq_refl). cbn [fst snd].
  destruct (decide (m = length bs)) as [->|Hlt].
  - rewrite drop_ge in Hs by lia. destruct (nextBlock_none _ _ _ L Hs He') as [s' En].
    rewrite En, (st_bind_Ok _ _ _ (g, w) _ eq_refl). by exists w.
  - destruct (lookup_lt_is_Some_2 (place 0 (segs ++ [seg])) m) as [p Hp]; [lia|].
    rewrite (drop_S _ _ _ Hp) in Hs.
    destruct (nextBlock_some _ _ _ _ _ L Hs (or_intror He')) as (s' & En & Hs' & Es').
    rewrite En, (st_bind_Ok _ _ _ (g, w) _ eq_refl).
    destruct (holds_place _ _ _ _ (d_holds _ _ _ _ _ _ _ _ D) Hp) as (b & Hb & Ep).
    destruct (d_chain _ _ _ _ _ _ _ _ D m b Hb) as [G Enum].
    assert (extractSerializedBlockInfo p.2 = Ok (block_info b (ids_of b))) as Ex.
    { rewrite Ep, <- (app_nil_r (block_bytes b)).
      apply extract_info_ok; [apply (bg_wf _ _ G)|by apply (ids_of_ok (index g))]. }
    rewrite Ex, (st_bind_Ok _ _ _ (g, w) _ eq_refl).
    change (si_blockHeader (block_info b (ids_of b))) with (blk_Header b).
    rewrite (hash_of_ok _ _ G), (st_bind_Ok _ _ _ (g, w) _ eq_refl).
    assert (mkBlockIdxInfo (Number (blk_Header b)) (hash_of (blk_Header b))
        (mkFLP (pi_fileNum (placement_of p)) (mkLoc (pi_blockStartOffset (placement_of p)) 0))
        (shift_loc (pi_blockBytesOffset (placement_of p) - pi_blockStartOffset (placement_of p)) <$>
           si_txOffsets (block_info b (ids_of b))) (si_metadata (block_info b (ids_of b))) =
      idx_info p b) as Ei.
    { destruct p as [[f off] x]. cbn -[EncodeVarint]. do 3 f_equal. lia. }
    rewrite Ei.
    destruct (db_WriteBatch_ok w (add_entries ∅ (block_entries (index g) (idx_info p b))) true)
      as (w1 & E1 & Hf1 & Hw1 & Ed1 & Ev1); [apply (d_world _ _ _ _ _ _ _ _ D)|done|].
    rewrite <- indexBlock_eq in E1 by (done || by eapply idx_info_wf).
    rewrite (st_bind_Ok _ _ _ _ _ (on_world_eq _ g _ _ _ E1)).
    destruct (IH w1 (Datatypes.S m) s') as (w2 & E2 & Hf2 & Ed2 & D2);
      [by eapply durable_step|done|done|done|congruence|lia|].
    exists w2. split; [exact E2|]. split; [done|]. split; [congruence|done].
Qed.

Lemma disk_bytes_blocks d (l : list (list bytes)) :
  Z.of_nat (length l) < 2 ^ 63 ->
  (forall i seg, l !! i = Some seg -> file_is d (Z.of_nat i) (frames seg)) ->
  (length (concat l) <= disk_bytes d)%nat.
Proof.
  revert d. induction l as [|seg l IH] using rev_ind; intros d Hn Hd; [cbn; lia|].
  rewrite length_app in Hn. cbn in Hn. set (k := deriveBlockfilePath (Z.of_nat (length l))).
  assert (d !! k = Some (frames seg)) as Hk.
  { apply Hd. by rewrite lookup_app_r, Nat.sub_diag by lia. }
  assert (disk_bytes d = length (frames seg) + disk_bytes (delete k d))%nat as ->.
  { unfold disk_bytes. by rewrite <- (map_to_list_delete d _ _ Hk). }
  assert (length (concat l) <= disk_bytes (delete k d))%nat.
  { apply IH; [lia|]. intros i sg Hi. pose proof (lookup_lt_Some _ _ _ Hi). unfold file_is, k.
    rewrite lookup_delete_ne; [apply Hd; by rewrite lookup_app_l|].
    intros E. apply deriveBlockfilePath_inj in E; lia. }
  rewrite concat_app, length_app. cbn. rewrite app_nil_r. pose proof (length_le_frames seg). lia.
Qed.

Lemma durable_fuel items (w : World S) segs seg bs post m :
  durable items w segs seg [] bs post m -> (length bs <= disk_bytes (w_disk w))%nat.
Proof.
  intros D. pose proof (d_layout _ _ _ _ _ _ _ _ D) as L.
  pose proof (d_holds _ _ _ _ _ _ _ _ D) as Hh. apply (f_equal length) in Hh.
  rewrite length_fmap in Hh. rewrite <- Hh. apply disk_bytes_blocks.
  - pose proof (layout_size _ _ _ L). lia.
  - intros i sg. apply layout_file_nil, L.
Qed.

Lemma last_indexed items (w : World S) segs seg bs m :
  durable items w segs seg [] bs [] m ->
  getLastBlockIndexed (w_db w) =
  match m with O => Err errIndexEmpty | Datatypes.S m' => Ok (Z.of_nat m') end.
Proof.
  intros D. pose proof (d_m _ _ _ _ _ _ _ _ D) as Hm.
  pose proof (holds_length _ _ (d_holds _ _ _ _ _ _ _ _ D)) as Hlen.
  unfold getLastBlockIndexed. rewrite Get_spec by apply (d_world _ _ _ _ _ _ _ _ D).
  pose proof (d_index _ _ _ _ _ _ _ _ D indexCheckpointKey) as Ev. unfold view in Ev.
  rewrite Ev, res_ret_bind by done. clear Ev.
  assert (numbered (infos (segs ++ [seg]) bs)) as Hn by (eapply infos_numbered; apply D).
  rewrite index_checkpoint. destruct m as [|m]; [done|].
  destruct (lookup_lt_is_Some_2 (infos (segs ++ [seg]) bs) m) as [info Hi].
  { unfold infos. rewrite length_zip_with. lia. }
  rewrite (take_S_r _ _ _ Hi), last_snoc. destruct (Hn m info Hi) as [-> Hu]. f_equal.
  unfold decodeBlockNum, encodeBlockNum. by rewrite <- (app_nil_r (EncodeVarint _)), DecodeVarint_encode.
Qed.

Lemma indexed_loc items (w : World S) segs seg bs m k p :
  durable items w segs seg [] bs [] m -> indexed items IndexableAttrBlockNum = true -> (k < m)%nat ->
  place 0 (segs ++ [seg]) !! k = Some p ->
  getBlockLocByBlockNum items (w_db w) (Z.of_nat k) = Ok (mkFLP p.1.1 (mkLoc p.1.2 0)).
Proof.
  intros D Hx Hk Hp. destruct (holds_place _ _ _ _ (d_holds _ _ _ _ _ _ _ _ D) Hp) as (b & Hb & _).
  assert (numbered (infos (segs ++ [seg]) bs)) as Hn by (eapply infos_numbered; apply D).
  assert (infos (segs ++ [seg]) bs !! k = Some (idx_info p b)) as Hi
    by (unfold infos; by rewrite lookup_zip_with, Hp, Hb).
  unfold getBlockLocByBlockNum, constructBlockNumKey. rewrite Hx. cbn [negb].
  destruct (Hn k _ Hi) as [_ Hu]. rewrite Encode_enc by done. rewrite !res_ret_bind.
  change ("n"%char :: enc (Z.of_nat k)) with (key_num (Z.of_nat k)).
  apply (get_block_loc _ _ _ _ _ _ _ D _ k p b Hp).
  rewrite (d_index _ _ _ _ _ _ _ _ D) by (by apply head_ne).
  apply index_num; [|done|by rewrite lookup_take_lt].
  intros i info Hi'. apply lookup_take_Some in Hi' as [Hi' _]. by apply Hn.
Qed.

Lemma syncIndex_ok g (w : World S) segs seg bs m :
  durable (index g) w segs seg [] bs [] m -> w_faults w = [] ->
  indexed (index g) IndexableAttrBlockNum = true -> cpInfo g = cp_at (length segs) seg (length bs) ->
  exists w', syncIndex (g, w) = ((g, w'), Ok tt) /\ w_faults w' = [] /\
    w_disk w' = w_disk w /\ durable (index g) w' segs seg [] bs [] (length bs).
Proof.
  intros D Hf Hx Ecp. unfold syncIndex. rewrite (st_bind_Ok _ _ (g, w) (g, w) _ eq_refl). cbn [fst snd].
  pose proof (d_layout _ _ _ _ _ _ _ _ D) as L. pose proof (d_m _ _ _ _ _ _ _ _ D) as Hm.
  pose proof (holds_length _ _ (d_holds _ _ _ _ _ _ _ _ D)) as Hlen.
  assert (index g <> []) as Hne by (intros E; by rewrite E in Hx).
  pose proof (durable_fuel _ _ _ _ _ _ _ D) as Hfuel.
  rewrite (last_indexed _ _ _ _ _ _ D), Ecp. cbn [cp_at latestFileChunkSuffixNum lastBlockNumber].
  destruct m as [|m].
  - rewrite (st_bind_Ok _ _ (g, w) (g, w) None) by (by rewrite decide_True). cbv zeta.
    destruct (stream_at_start _ _ (Z.of_nat (length segs)) L) as (s & Es & Hs & He); [by destruct segs|].
    rewrite Es, (st_bind_Ok _ _ (g, w) (g, w) _ eq_refl).
    by apply (sync_loop_ok g segs seg bs _ w 0 s); [..|lia].
  - rewrite (st_bind_Ok _ _ (g, w) (g, w) _ eq_refl). cbv zeta.
    destruct (Z.eqb_spec (Z.of_nat m) (Z.of_nat (pred (length bs)))) as [E|Hlt].
    { exists w. split; [done|]. split; [done|]. split; [done|].
      replace (length bs) with (Datatypes.S m) at 1 by lia. done. }
    destruct (lookup_lt_is_Some_2 (place 0 (segs ++ [seg])) m) as [p Hp]; [lia|].
    rewrite (indexed_loc _ _ _ _ _ _ m p D) by (done || lia).
    rewrite (st_bind_Ok _ _ (g, w) (g, w) _ eq_refl). cbn [fileSuffixNum flp_loc offset].
    destruct (stream_at_place _ _ m p (Z.of_nat (length segs)) L Hp) as (s & Es & Hs & He).
    rewrite Es, (st_bind_Ok _ _ (g, w) (g, w) _ eq_refl). rewrite (drop_S _ _ _ Hp) in Hs.
    destruct (nextBlock_some _ _ _ _ _ L Hs) as (s' & En & Hs' & Es').
    { right. rewrite length_app. cbn. lia. }
    rewrite En, (st_bind_Ok _ _ (g, w) (g, w) _ eq_refl).
    apply (sync_loop_ok g segs seg bs _ w (Datatypes.S m) s'); [done..|congruence|lia].
Qed.

(** *** The whole of [newBlockfileMgr] *)

Lemma newBlockIndex_indexed items :
  IndexableAttrBlockNum ∈ items -> indexed (newBlockIndex items) IndexableAttrBlockNum = true.
Proof. intros Hin. unfold indexed, newBlockIndex. by apply bool_decide_eq_true. Qed.

Lemma durable_truncated items (w w' : World S) segs seg tl bs post m :
  durable items w segs seg tl bs post m -> w_db w' = w_db w ->
  w_disk w' = <[deriveBlockfilePath (Z.of_nat (length segs)) := frames seg]> (w_disk w) ->
  durable items w' segs seg [] bs post m.
Proof.
  intros D Eb Ed. destruct D as [Dw Dl Dc Ds Dn Dch Dh Dlen Dcp Di Dm].
  assert (view w' = view w) as Ev by (unfold view; by rewrite Eb).
  pose proof (layout_frames _ _ _ Dl) as Hfr. apply Forall_app in Hfr as [_ Hfr].
  rewrite Forall_singleton in Hfr.
  split; try done; rewrite ?Ev; try done.
  - unfold world_ok. by rewrite Eb.
  - rewrite Ed, <- (app_nil_r (frames seg)). by eapply layout_set_last.
  - apply cut_nil.
  - intros i Hi Hi2. rewrite Ed, lookup_insert_ne; [by apply Dn|].
    rewrite length_app in Hi. cbn in Hi. intros E. apply deriveBlockfilePath_inj in E; lia.
Qed.

Lemma start_ok max items (w : World S) segs seg tl bs m :
  durable (newBlockIndex items) w segs seg tl bs [] m -> w_faults w = [] ->
  IndexableAttrBlockNum ∈ items -> max < 2 ^ 62 ->
  exists w' g, start_mgr max items (cp_at (length segs) seg (length bs))
                 (deriveBlockfilePath (Z.of_nat (length segs))) w = (w', Ok g) /\
    index g = newBlockIndex items /\ maxBlockfileSize g = max /\ w_faults w' = [] /\ rep_ex g w' bs.
Proof.
  intros D Hf Hin Hmax. unfold start_mgr. cbn [cp_at latestFileChunksize isChainEmpty lastBlockNumber].
  pose proof (layout_last _ _ _ _ (d_layout _ _ _ _ _ _ _ _ D)) as Hfile.
  destruct (truncate_cases w _ _ (length (frames seg)) Hfile) as (w1 & r1 & E1 & Hf1 & Eb1 & Hr1).
  { rewrite Hf. apply not_elem_of_nil. }
  assert (w_faults w1 = []) as Hf1' by (by eapply no_faults_fewer).
  destruct Hr1 as [[Ed1 ->]|(_ & Hc & _)]; [|by destruct (no_faults_crash w)].
  rewrite (st_bind_Ok _ _ _ _ _ (or_panic_eq _ _ _ _ E1)). cbv zeta.
  rewrite take_app_length in Ed1. pose proof (durable_truncated _ _ _ _ _ _ _ _ _ D Eb1 Ed1) as D1.
  set (cp := cp_at (length segs) seg (length bs)).
  change (mkCheckpointInfo _ _ _ _) with cp.
  set (g0 := mkMgr max (newBlockIndex items) cp _ (mkBlockchainInfo 0 [] [])).
  case_bool_decide as Hbs.
  - eexists w1, g0. split; [reflexivity|]. split; [done|]. split; [done|]. split; [done|].
    destruct bs; [|done]. exists segs, seg. split; try done.
    pose proof (d_m _ _ _ _ _ _ _ _ D1) as Hm. cbn in Hm.
    by replace m with 0%nat in D1 by lia.
  - destruct (syncIndex_ok g0 w1 segs seg bs m) as (w2 & E2 & Hf2 & Ed2 & D2);
      [done|done|by apply newBlockIndex_indexed|done|].
    rewrite (st_try_eq _ _ _ _ E2).
    destruct bs as [|b bs' _] using rev_ind; [done|].
    pose (g := mkMgr max (newBlockIndex items) cp (deriveBlockfilePath (Z.of_nat (length segs)))
                 (info_of (bs' ++ [b]))).
    assert (rep g w2 segs seg (bs' ++ [b])) as R by (by split).
    assert (retrieveBlockHeaderByNumber (g0, w2) (Z.of_nat (pred (length (bs' ++ [b])))) =
            Ok (blk_Header b)) as Eh.
    { rewrite length_app. cbn [length]. replace (pred (length bs' + 1)) with (length bs') by lia.
      apply (retrieve_header g w2 segs seg _ R); [by apply newBlockIndex_indexed|].
      by apply list_lookup_middle. }
    rewrite Eh. destruct (d_chain _ _ _ _ _ _ _ _ D2 (length bs') b) as [G _];
      [by apply list_lookup_middle|].
    rewrite (hash_of_ok _ _ G). exists w2, g. split; [|do 3 (split; [done|]); by exists segs, seg].
    unfold g, info_of. rewrite last_snoc. do 3 f_equal.
    pose proof (d_len _ _ _ _ _ _ _ _ D2) as Hlen. rewrite length_app in Hlen |- *. cbn in Hlen |- *.
    rewrite wrap64_small by (unfold u64; lia). f_equal. lia.
Qed.

Lemma open_writer_ok (w : World S) path :
  world_ok w -> w_faults w = [] ->
  exists w', newBlockfileWriter path w = (w', Ok path) /\ w_faults w' = [] /\ w_db w' = w_db w /\
    w_disk w' = match w_disk w !! path with Some _ => w_disk w | None => <[path := []]> (w_disk w) end.
Proof.
  intros Hw Hf. destruct (newBlockfileWriter_cases w path Hw) as (w' & r & E & Hff & Hw' & Eb & Hr).
  assert (w_faults w' = []) by (by eapply no_faults_fewer). exists w'.
  destruct Hr as [[Ed [->|[Hc _]]]|[_ [[Hin _]|[Hc _]]]];
    [done|by destruct (no_faults_crash w)|by destruct (no_faults_any w _ Hf Hin)|
     by destruct (no_faults_crash w)].
Qed.

Lemma load_ok (w : World S) v :
  world_ok w -> view w blkMgrInfoKey = v ->
  loadCurrentInfo w = (w, match v with
                          | None => Ok None
                          | Some b => i ← cp_unmarshal b; Ok (Some i)
                          end).
Proof.
  intros Hw Hv. unfold view in Hv. unfold loadCurrentInfo, db_Get, mbind, st_bind, st_get, st_lift.
  rewrite Get_spec, Hv by done. destruct v as [b|]; [|done]. cbn. by destruct (cp_unmarshal b).
Qed.

Lemma restart_ok max items (w : World S) bs :
  durable_ex (newBlockIndex items) w bs -> w_faults w = [] ->
  IndexableAttrBlockNum ∈ items -> max < 2 ^ 62 ->
  exists w' g, newBlockfileMgr max items w = (w', Ok g) /\ index g = newBlockIndex items /\
    maxBlockfileSize g = max /\ w_faults w' = [] /\ rep_ex g w' bs.
Proof.
  intros (segs & seg & tl & post & m & D) Hf Hin Hmax. unfold newBlockfileMgr.
  destruct (d_cp _ _ _ _ _ _ _ _ D) as (pre & Epre & Ecp).
  assert (size_ok pre) as Hpre.
  { pose proof (d_sizes _ _ _ _ _ _ _ _ D) as Hs. apply Forall_app in Hs as [_ Hs].
    rewrite Forall_singleton, Epre in Hs. unfold size_ok in *. rewrite frames_app, length_app in Hs. lia. }
  assert (Z.of_nat (length segs) < 2 ^ 62) as Hsegs.
  { pose proof (layout_size _ _ _ (d_layout _ _ _ _ _ _ _ _ D)) as Hs. rewrite length_app in Hs. lia. }
  pose proof (load_ok w _ (d_world _ _ _ _ _ _ _ _ D) Ecp) as El. cbv beta iota in El.
  pose proof (d_len _ _ _ _ _ _ _ _ D) as Hlen.
  rewrite cp_roundtrip in El by (done || lia). rewrite res_ret_bind in El.
  rewrite (st_bind_Ok _ _ _ _ _ (or_panic_eq _ _ _ _ El)), (st_bind_Ok _ _ w w _ eq_refl).
  rewrite (syncCP_ok _ _ _ _ _ _ _ _ _ D Epre), (st_bind_Ok _ _ w w _ eq_refl).
  destruct (db_Put_ok w blkMgrInfoKey (cp_marshal (cp_at (length segs) seg (length bs))) true)
    as (w1 & E1 & Hf1 & Hw1 & Ed1 & Ev1); [apply D|done|].
  rewrite (st_bind_Ok _ _ _ _ _ (or_panic_eq _ _ _ _ E1)).
  pose proof (durable_saved _ _ _ _ _ _ _ _ _ D Hw1 Ed1 Ev1) as D1.
  destruct (open_writer_ok w1 (deriveBlockfilePath (Z.of_nat (length segs))) Hw1 Hf1)
    as (w2 & E2 & Hf2 & Eb2 & Ed2).
  cbn [cp_at latestFileChunkSuffixNum]. rewrite (st_bind_Ok _ _ _ _ _ (or_panic_eq _ _ _ _ E2)).
  pose proof (layout_last _ _ _ _ (d_layout _ _ _ _ _ _ _ _ D1)) as Hfile.
  unfold file_is in Hfile. rewrite Hfile in Ed2.
  apply start_ok with (tl := tl) (m := m); [|done..].
  eapply durable_same; [exact D1| |done|]; unfold world_ok, view; by rewrite Eb2.
Qed.

(** The first start: no file, and nothing in the database. *)
Lemma first_start_ok max items (w : World S) :
  world_ok w -> w_disk w = ∅ -> (forall k, view w k = None) -> w_faults w = [] ->
  IndexableAttrBlockNum ∈ items -> max < 2 ^ 62 ->
  exists w' g, newBlockfileMgr max items w = (w', Ok g) /\ index g = newBlockIndex items /\
    maxBlockfileSize g = max /\ w_faults w' = [] /\ rep_ex g w' [].
Proof.
  intros Hw Hd Hv Hf Hin Hmax. unfold newBlockfileMgr.
  pose proof (load_ok w _ Hw (Hv blkMgrInfoKey)) as El. cbv beta iota in El.
  rewrite (st_bind_Ok _ _ _ _ _ (or_panic_eq _ _ _ _ El)), (st_bind_Ok _ _ w w _ eq_refl), Hd.
  assert (constructCheckpointInfoFromBlockFiles ∅ = Ok (cp_at 0 [] 0)) as -> by done.
  rewrite (st_bind_Ok _ _ w w _ eq_refl).
  destruct (db_Put_ok w blkMgrInfoKey (cp_marshal (cp_at 0 [] 0)) true)
    as (w1 & E1 & Hf1 & Hw1 & Ed1 & Ev1); [done..|].
  rewrite (st_bind_Ok _ _ _ _ _ (or_panic_eq _ _ _ _ E1)).
  destruct (open_writer_ok w1 (deriveBlockfilePath 0) Hw1 Hf1) as (w2 & E2 & Hf2 & Eb2 & Ed2).
  change (latestFileChunkSuffixNum (cp_at 0 [] 0)) with 0.
  rewrite (st_bind_Ok _ _ _ _ _ (or_panic_eq _ _ _ _ E2)).
  rewrite Ed1, Hd, lookup_empty in Ed2.
  apply (start_ok max items w2 [] [] [] [] 0); [|done..].
  assert (world_ok w2) by (unfold world_ok; by rewrite Eb2).
  assert (forall k, view w2 k = if decide (k = blkMgrInfoKey)
            then Some (cp_marshal (cp_at 0 [] 0)) else None) as Ev2.
  { intros k. unfold view at 1. rewrite Eb2. fold (view w1 k). rewrite Ev1. by rewrite Hv. }
  split; try done.
  - rewrite Ed2. split; [|by repeat constructor|done]. intros [|i] sg Hi; [|by destruct i].
    injection Hi as <-. apply lookup_insert_eq.
  - apply cut_nil.
  - by repeat constructor.
  - intros i Hi Hi2. rewrite Ed2, lookup_insert_ne; [done|]. cbn in Hi.
    intros E. change 0 with (Z.of_nat 0) in E. apply deriveBlockfilePath_inj in E; lia.
  - exists []. split; [done|]. by rewrite Ev2, decide_True.
  - intros k Hk. by rewrite Ev2, decide_False.
Qed.

End Recovery.
End BlockRecovery.
