(* ===== verification/BlockIterator.v ===== *)
(** The block iterator of the store (blocks_itr.go): its stream keeps its
    place while blocks are added behind it, so that the blocks it delivers are
    the chain's, in order, whatever is added between two calls of [Next]. *)

From S2P Require Import Prelude LevelDB Proto BlockHash BlockCodec BlockFiles BlockIndex BlockMgr.
From S2P Require Import BlockChain BlockStore BlockRecovery.
From stdpp Require Import gmap strings list.

Module BlockIterator.
Import LevelDB Proto BlockHash BlockSerialization FileName Streams World BlockIndex BlockMgr
  BlockChain BlockStore BlockRecovery.
Local Open Scope Z_scope.

Lemma length_place_seg f off seg : length (place_seg f off seg) = length seg.
Proof. revert off. induction seg as [|b seg IH]; intros off; [done|]. cbn. by rewrite IH. Qed.

(** The places from a block on. *)
Lemma drop_place a i pre post :
  a !! i = Some (pre ++ post) ->
  drop (length (place 0 (take i a)) + length pre) (place 0 a) =
  place_seg (Z.of_nat i) (Z.of_nat (length (frames pre))) post ++ place (Z.of_nat i + 1) (drop (S i) a).
Proof.
  intros Hi. rewrite <- (take_drop_middle a i _ Hi) at 2. rewrite place_app.
  rewrite drop_app_add'. 2: done.
  rewrite length_take_le by (apply lookup_lt_Some in Hi; lia). cbn [place]. rewrite Z.add_0_l.
  rewrite place_seg_app, <- app_assoc, drop_app_length'; [done|by rewrite length_place_seg].
Qed.

Lemma stream_grows a b s k :
  stream_at a s (drop k (place 0 a)) -> (k <= length (place 0 a))%nat -> grows a b ->
  stream_at b s (drop k (place 0 b)).
Proof.
  intros (i & pre & post & Hi & Ec & Es & Er) Hk (l & x & y & m & -> & ->).
  pose proof (drop_place _ _ _ _ Hi) as Ed. rewrite <- Er in Ed.
  apply (f_equal length) in Ed as El. rewrite !length_drop in El.
  assert (length (place 0 (take i (l ++ [x]))) + length pre <= length (place 0 (l ++ [x])))%nat as Hle.
  { rewrite <- (take_drop_middle _ i _ Hi) at 2. rewrite place_app. cbn [place].
    rewrite place_seg_app, !length_app, length_place_seg. lia. }
  pose proof (lookup_lt_Some _ _ _ Hi) as Hlt. rewrite length_app in Hlt. cbn in Hlt.
  assert (take i (l ++ [x]) = take i (l ++ (x ++ y) :: m)) as Et
    by (rewrite !take_app_le by lia; done).
  assert (exists post', (l ++ (x ++ y) :: m) !! i = Some (pre ++ post')) as [post' Hi'].
  { destruct (decide (i = length l)) as [->|Hne].
    - rewrite list_lookup_middle in Hi by done. injection Hi as ->. exists (post ++ y).
      by rewrite list_lookup_middle, app_assoc.
    - rewrite lookup_app_l in Hi |- * by lia. eauto. }
  exists i, pre, post'. split; [done|]. split; [done|]. split; [done|].
  rewrite <- (drop_place _ _ _ _ Hi'), <- Et. f_equal. lia.
Qed.

Section Iterator.
Context {S : Type} `{LevelDBSpec S} `{ProtoCodec} `{CryptoHash}.

(** The iterator will deliver block [k] next. *)
Record itr_at (full : list (list bytes)) (bs : list Block) (itr : blocksItr) (k : nat) : Prop := {
  ia_next : blockNumToRetrieve itr = Z.of_nat k;
  ia_open : closeMarker itr = false;
  ia_max : maxBlockNumAvailable itr < Z.of_nat (length bs);
  ia_stream : match stream itr with
              | None => True
              | Some s => (k <= length bs)%nat /\ bs_endFileNum s = -1 /\
                          stream_at full s (drop k (place 0 full))
              end
}.

Lemma itr_start g (w : World S) segs seg bs k :
  rep g w segs seg bs -> bs <> [] -> itr_at (segs ++ [seg]) bs (newBlockItr g (Z.of_nat k)) k.
Proof.
  intros R Hne. split; try done. cbn. rewrite (r_cp _ _ _ _ _ R). cbn. destruct bs; [done|]. cbn. lia.
Qed.

Lemma itr_grows a b bs bs' itr k :
  itr_at a bs itr k -> length (place 0 a) = length bs -> grows a b -> bs `prefix_of` bs' ->
  itr_at b bs' itr k.
Proof.
  intros [En Eo Em Es] Hlen Hg Hp. apply prefix_length in Hp. split; [done|done|lia|].
  destruct (stream itr) as [s|]; [|done]. destruct Es as (Hk & Ee & Hs).
  split; [lia|]. split; [done|]. eapply stream_grows; [done|lia|done].
Qed.

(** [Next] delivers block [k] when the chain has it. *)
Lemma itr_next_some g (w : World S) segs seg bs itr k b :
  rep g w segs seg bs -> indexed (index g) IndexableAttrBlockNum = true ->
  itr_at (segs ++ [seg]) bs itr k -> bs !! k = Some b ->
  exists itr', itr_Next (g, w) itr = (itr', Ok (Delivers b)) /\
    itr_at (segs ++ [seg]) bs itr' (Datatypes.S k).
Proof.
  intros R Hx [En Eo Em Es] Hb. pose proof (r_durable _ _ _ _ _ R) as D.
  pose proof (d_layout _ _ _ _ _ _ _ _ D) as L. pose proof (d_len _ _ _ _ _ _ _ _ D) as Hlen.
  pose proof (lookup_lt_Some _ _ _ Hb) as Hlt.
  assert (exists m, m < Z.of_nat (length bs) /\
    (if maxBlockNumAvailable itr <? blockNumToRetrieve itr
     then waitForBlock g itr (blockNumToRetrieve itr) else Some (maxBlockNumAvailable itr)) = Some m)
    as (m & Hm & Eavail).
  { destruct (Z.ltb_spec (maxBlockNumAvailable itr) (blockNumToRetrieve itr)); [|by eexists].
    unfold waitForBlock. rewrite (r_cp _ _ _ _ _ R), En. cbn [cp_at lastBlockNumber].
    rewrite (proj2 (Z.ltb_ge _ _)) by lia. cbn. eexists. split; [|done]. lia. }
  unfold itr_Next. cbn [fst snd]. rewrite Eavail. cbv zeta. cbn [closeMarker stream blockNumToRetrieve].
  rewrite Eo.
  destruct (rep_loc_num g w segs seg bs R k b Hx Hb) as (p & Hp & Ep & El).
  assert (exists s, match stream itr with None => initStream (g, w)
            (mkBlocksItr m (blockNumToRetrieve itr) (stream itr) false) | Some st => Ok st end = Ok s /\
          bs_endFileNum s = -1 /\ stream_at (segs ++ [seg]) s (drop k (place 0 (segs ++ [seg]))))
    as (s & Est & Ee & Hs).
  { destruct (stream itr) as [s|]; [by exists s; destruct Es as (_ & ? & ?)|].
    unfold initStream. cbn [fst snd blockNumToRetrieve]. rewrite En, El, res_ret_bind.
    cbn [fileSuffixNum flp_loc offset].
    destruct (stream_at_place _ _ k p (-1) L Hp) as (s & Es' & Hs & He). eauto. }
  rewrite Est. rewrite (drop_S _ _ _ Hp) in Hs.
  destruct (nextBlock_some _ _ _ _ _ L Hs) as (s' & En' & Hs' & Ee'); [left; lia|].
  unfold nextBlockBytes. rewrite En', res_ret_bind. cbn [default].
  destruct (d_chain _ _ _ _ _ _ _ _ D k b Hb) as [G _].
  assert (deserializeBlock p.2 = Ok b) as Edes.
  { rewrite Ep, <- (app_nil_r (block_bytes b)).
    apply (deserialize_ok b (ids_of b) []); [apply (bg_wf _ _ G)|by apply (ids_of_ok (index g))]. }
  eexists. split; [cbn; by rewrite Edes|]. split; cbn [blockNumToRetrieve closeMarker maxBlockNumAvailable stream].
  - rewrite En, wrap64_small by (unfold u64; lia). lia.
  - done.
  - done.
  - split; [lia|]. split; [congruence|done].
Qed.

(** [Next] waits when it does not. *)
Lemma itr_next_waits g (w : World S) segs seg bs itr k :
  rep g w segs seg bs -> bs <> [] ->
  itr_at (segs ++ [seg]) bs itr k -> (length bs <= k)%nat ->
  itr_Next (g, w) itr = (itr, Ok Waits).
Proof.
  intros R Hne [En Eo Em Es] Hk. unfold itr_Next. cbn [fst].
  rewrite (proj2 (Z.ltb_lt _ _)) by lia. unfold waitForBlock.
  rewrite (r_cp _ _ _ _ _ R), En, Eo. cbn [cp_at lastBlockNumber].
  rewrite (proj2 (Z.ltb_lt _ _)); [done|]. destruct bs; [done|]. cbn in *. lia.
Qed.

Lemma itr_closed g (w : World S) itr :
  exists itr', itr_Next (g, w) (itr_Close itr) = (itr', Ok Closed).
Proof.
  unfold itr_Next, itr_Close, waitForBlock. cbn.
  destruct (_ <? _); [rewrite andb_false_r|]; eauto.
Qed.

End Iterator.
End BlockIterator.
