(* ===== verification/BlockTheorems.v ===== *)
(** * What the block store promises

    The theorems on the block store: the serialization of blocks, what a
    header's hash binds, the chain the store holds through failures and
    crashes, the answers of its queries and its iterator; and executions that
    leave its contract. *)

From S2P Require Import Prelude LevelDB Proto Instances BlockHash BlockCodec BlockFiles BlockIndex.
From S2P Require Import BlockMgr BlockChain BlockStore BlockRecovery BlockIterator.
From stdpp Require Import gmap strings list.

Module BlockRuns.
Import LevelDB Proto BlockHash Buf BlockSerialization FileName Streams World BlockIndex BlockMgr
  BlockChain BlockStore BlockRecovery BlockIterator.
Local Open Scope Z_scope.

Section Runs.
Context {S : Type} `{LevelDBSpec S} `{ProtoCodec} `{CryptoHash}.

Definition with_faults (w : World S) (fs : list fault) : World S := mkWorld (w_disk w) (w_db w) fs.

(** What became of a block that was handed to the store. *)
Inductive event := Added | Refused | Crashed.

(** Adding a block while the system fails as [fs] says; after a crash the
    store is opened again. *)
Definition store_op (max : Z) (items : list IndexableAttr) (s : blockfileMgr * World S) (b : Block)
    (fs : list fault) : res (event * (blockfileMgr * World S)) :=
  match addBlock b (s.1, with_faults s.2 fs) with
  | (s', Ok _) => Ok (Added, s')
  | (s', Err _) => Ok (Refused, s')
  | (s', Panic _) =>
      match newBlockfileMgr max items (with_faults s'.2 []) with
      | (w, Ok g) => Ok (Crashed, (g, w))
      | (_, Err e) => Err e
      | (_, Panic m) => Panic m
      | (_, OutOfFuel) => OutOfFuel
      end
  | (_, OutOfFuel) => OutOfFuel
  end.

(** The abstract store: a list of blocks that only grows at its end, by the
    block whose number is its length. *)
Inductive chain_step (b : Block) : list Block -> event -> list Block -> Prop :=
| chain_added bs : Number (blk_Header b) = Z.of_nat (length bs) ->
    chain_step b bs Added (bs ++ [b])
| chain_refused bs : chain_step b bs Refused bs
| chain_lost bs : chain_step b bs Crashed bs
| chain_kept bs : Number (blk_Header b) = Z.of_nat (length bs) ->
    chain_step b bs Crashed (bs ++ [b]).

(** The limits of the store: a block within the sizes of Go values whose
    decoding returns, a number of blocks and of files within the integers, and
    a first block no larger than a file.  The transactions of the block need
    not be readable. *)
Record admissible (g : blockfileMgr) (bs : list Block) (b : Block) : Prop := {
  ad_sized : block_sized (index g) b;
  ad_returns : serializeBlock b <> OutOfFuel;
  ad_len : Z.of_nat (length bs) + 1 < 2 ^ 62;
  ad_files : latestFileChunkSuffixNum (cpInfo g) + 3 < 2 ^ 62;
  ad_first : bs <> [] \/ fits g b
}.

Definition faults_handled (fs : list fault) : Prop := (TruncateFails ∉ fs) /\ (BatchFails ∉ fs).

Lemma rep_with g (w : World S) segs seg bs fs :
  rep g w segs seg bs -> rep g (with_faults w fs) segs seg bs.
Proof. intros R. eapply rep_same; [exact R|apply R|done..]. Qed.

Lemma durable_with items (w : World S) bs fs :
  durable_ex items w bs -> durable_ex items (with_faults w fs) bs.
Proof.
  intros (segs & seg & tl & post & m & D). exists segs, seg, tl, post, m.
  eapply durable_same; [exact D|apply D|done..].
Qed.

Lemma add_wrong_number g (w : World S) segs seg bs b :
  rep g w segs seg bs -> Number (blk_Header b) <> Z.of_nat (length bs) ->
  exists e, addBlock b (g, w) = ((g, w), Err e).
Proof.
  intros R Hn. unfold addBlock. rewrite (st_bind_Ok _ _ (g, w) (g, w) _ eq_refl). cbn [fst].
  assert (Height (bcInfo g) = Z.of_nat (length bs)) as ->.
  { rewrite (r_info _ _ _ _ _ R). unfold info_of. destruct (last bs) eqn:El; [done|].
    by apply last_None in El as ->. }
  rewrite (proj2 (Z.eqb_neq _ _)) by done. cbn [negb]. by eexists.
Qed.

Lemma serialize_parsable b r : serializeBlock b = Ok r -> parsable b.
Proof.
  destruct r as [x info]. intros (ids & Hids & _)%serializeBlock_inv. unfold parsable.
  apply Forall2_same_length_lookup in Hids as [Hl Hi]. apply Forall_lookup. intros i tx Htx.
  destruct (lookup_lt_is_Some_2 ids i) as [id Hid]; [rewrite <- Hl; by eapply lookup_lt_Some|].
  by rewrite (Hi _ _ _ Htx Hid).
Qed.

(** A block that cannot be serialized changes nothing: its error is returned. *)
Lemma add_unparsable g (w : World S) segs seg bs b :
  rep g w segs seg bs -> Number (blk_Header b) = Z.of_nat (length bs) -> ~ parsable b ->
  addBlock b (g, w) = ((g, w), match serializeBlock b with
                               | Ok _ => OutOfFuel
                               | Err e => Err ("Error while serializing block: " +:+ e)
                               | Panic m => Panic m
                               | OutOfFuel => OutOfFuel
                               end).
Proof.
  intros R En Hp. unfold addBlock. rewrite (st_bind_Ok _ _ (g, w) (g, w) _ eq_refl). cbn [fst].
  assert (Height (bcInfo g) = Z.of_nat (length bs)) as ->.
  { rewrite (r_info _ _ _ _ _ R). unfold info_of. destruct (last bs) eqn:El; [done|].
    by apply last_None in El as ->. }
  rewrite En, Z.eqb_refl. cbn [negb].
  destruct (serializeBlock b) as [r| | |] eqn:Es; [by destruct Hp; eapply serialize_parsable|done..].
Qed.

Lemma rep_from_ex a g (w : World S) bs : rep_from a g w bs -> rep_ex g w bs.
Proof. intros (segs & seg & R & _). by exists segs, seg. Qed.

(** Adding a block, whatever its number, whatever it holds and whatever fails. *)
Lemma add_any g (w : World S) segs seg bs b fs :
  rep g w segs seg bs -> admissible g bs b -> index g <> [] -> faults_handled fs ->
  exists g' w' r, addBlock b (g, with_faults w fs) = ((g', w'), r) /\ index g' = index g /\
    match r with
    | Ok _ => Number (blk_Header b) = Z.of_nat (length bs) /\ parsable b /\
              rep_from (segs ++ [seg]) g' w' (bs ++ [b])
    | Err _ => (Number (blk_Header b) = Z.of_nat (length bs) -> parsable b -> fs <> []) /\
               rep_from (segs ++ [seg]) g' w' bs
    | Panic _ => (fs <> [] \/ exists m, serializeBlock b = Panic m) /\ (durable_ex (index g) w' bs \/
                 Number (blk_Header b) = Z.of_nat (length bs) /\ parsable b /\ durable_ex (index g) w' (bs ++ [b]))
    | OutOfFuel => False
    end.
Proof.
  intros R [G Hret Hl Hz Hfit] Hix Hh. pose proof (rep_with _ _ _ _ _ fs R) as R'.
  assert (rep_from (segs ++ [seg]) g (with_faults w fs) bs) as Hrf by (exists segs, seg; split; [done|apply grows_refl]).
  destruct (decide (Number (blk_Header b) = Z.of_nat (length bs))) as [En|Hne].
  2: { destruct (add_wrong_number _ _ _ _ _ _ R' Hne) as [e E]. exists g, (with_faults w fs), (Err e).
       split; [done|]. split; [done|]. split; [done|exact Hrf]. }
  destruct (decide (parsable b)) as [Hp|Hnp].
  - destruct (add_cases g (with_faults w fs) segs seg bs b R' (Build_block_good _ _ G Hp) En Hix Hl)
      as (g' & w' & r & E & Ei & Ho); [by rewrite (r_cp _ _ _ _ _ R) in Hz|done|done|].
    exists g', w', r. split; [done|]. split; [done|].
    destruct Ho as [[-> Hr]|[([e ->] & Hf & Hr)|([m ->] & Hf & Hd)]].
    + done.
    + done.
    + split; [by left|]. by destruct Hd; [left|right].
  - eexists g, (with_faults w fs), _. split; [by apply (add_unparsable _ _ segs seg bs)|]. split; [done|].
    destruct (serializeBlock b) as [r|e|m|] eqn:Es; [by destruct Hnp; eapply serialize_parsable|..|done].
    + split; [done|exact Hrf].
    + split; [right; by exists m|]. left. by eapply rep_durable_ex, rep_from_ex.
Qed.

Lemma store_op_ok max items g (w : World S) bs b fs :
  rep_ex g w bs -> index g = newBlockIndex items -> IndexableAttrBlockNum ∈ items -> max < 2 ^ 62 ->
  admissible g bs b -> faults_handled fs ->
  exists ev g' w' bs', store_op max items (g, w) b fs = Ok (ev, (g', w')) /\
    chain_step b bs ev bs' /\ rep_ex g' w' bs' /\ index g' = newBlockIndex items /\
    (fs = [] -> Number (blk_Header b) = Z.of_nat (length bs) -> parsable b -> ev = Added) /\
    (forall e, serializeBlock b = Err e -> ev = Refused).
Proof.
  intros (segs & seg & R) Ei Hin Hmax Had Hh.
  assert (index g <> []) as Hix by (rewrite Ei; by destruct items; [apply elem_of_nil in Hin|]).
  destruct (add_any _ _ _ _ _ _ _ R Had Hix Hh) as (g' & w' & r & E & Ei' & Hr).
  assert (forall e, serializeBlock b = Err e -> exists e', r = Err e') as Herr.
  { intros e Es. destruct (decide (Number (blk_Header b) = Z.of_nat (length bs))) as [En|Hne].
    - rewrite (add_unparsable g (with_faults w fs) segs seg bs b) in E; [|by apply rep_with|done|].
      + rewrite Es in E. injection E as _ _ <-. eauto.
      + intros Hp. by rewrite (serialize_good (index g) b (Build_block_good _ _ (ad_sized _ _ _ Had) Hp)) in Es.
    - destruct (add_wrong_number g (with_faults w fs) segs seg bs b) as [e' E']; [by apply rep_with|done|].
      rewrite E in E'. injection E' as _ _ ->. eauto. }
  unfold store_op. cbn [fst snd]. rewrite E. destruct r as [[]|e|m|]; [| | |done].
  - destruct Hr as (En & Hp & Hr). eexists _, g', w', _. split; [done|]. split; [by constructor|].
    split; [by eapply rep_from_ex|]. split; [congruence|]. split; [done|].
    intros e Es. by destruct (Herr _ Es).
  - destruct Hr as [Hf Hr]. eexists _, g', w', _. split; [done|]. split; [by constructor|].
    split; [by eapply rep_from_ex|]. split; [congruence|]. split; [|done]. intros -> En Hp. by destruct (Hf En Hp).
  - destruct Hr as [Hf Hd]. rewrite Ei in Hd. cbn [snd].
    assert (forall bs', durable_ex (newBlockIndex items) w' bs' -> exists w2 g2,
      newBlockfileMgr max items (with_faults w' []) = (w2, Ok g2) /\ index g2 = newBlockIndex items /\
      rep_ex g2 w2 bs') as Hre.
    { intros bs' Hd'. destruct (restart_ok max items (with_faults w' []) bs')
        as (w2 & g2 & E2 & Ei2 & _ & _ & R2); [by apply durable_with|done..|]. eauto. }
    assert ((fs = [] -> Number (blk_Header b) = Z.of_nat (length bs) -> parsable b -> Crashed = Added) /\
      (forall e, serializeBlock b = Err e -> Crashed = Refused)) as Hend.
    { split; [|intros e Es; by destruct (Herr _ Es)]. intros -> _ Hp. destruct Hf as [?|[m' Es]]; [done|].
      by rewrite (serialize_good (index g) b (Build_block_good _ _ (ad_sized _ _ _ Had) Hp)) in Es. }
    destruct Hd as [Hd|(En & _ & Hd)]; destruct (Hre _ Hd) as (w2 & g2 & -> & Ei2 & R2);
      eexists _, g2, w2, _; (split; [done|]); (split; [by constructor|]); (split; [done|]); by split.
Qed.

(** ** An iterator while blocks are added *)

Inductive itr_step : blockfileMgr * World S * blocksItr * list Block ->
    blockfileMgr * World S * blocksItr * list Block -> Prop :=
| its_add g w itr out b fs bs g' w' r :
    rep_ex g w bs -> admissible g bs b -> faults_handled fs ->
    addBlock b (g, with_faults w fs) = ((g', w'), r) -> (forall m, r <> Panic m) ->
    itr_step (g, w, itr, out) (g', w', itr, out)
| its_next g w itr out itr' b :
    itr_Next (g, w) itr = (itr', Ok (Delivers b)) ->
    itr_step (g, w, itr, out) (g, w, itr', out ++ [b]).

Record itr_inv (n : nat) (bs : list Block) (s : blockfileMgr * World S * blocksItr * list Block) : Prop := {
  ii_rep : exists segs seg, rep s.1.1.1 s.1.1.2 segs seg bs /\
             itr_at (segs ++ [seg]) bs s.1.2 (n + length s.2);
  ii_index : indexed (index s.1.1.1) IndexableAttrBlockNum = true;
  ii_ne : bs <> [];
  ii_out j b : s.2 !! j = Some b -> bs !! (n + j)%nat = Some b
}.

Lemma rep_ex_unique g (w : World S) segs seg bs bs' :
  rep g w segs seg bs -> rep_ex g w bs' -> indexed (index g) IndexableAttrBlockNum = true -> bs = bs'.
Proof.
  intros R (segs' & seg' & R') Hx. apply list_eq. intros k.
  assert (length bs = length bs') as Hlen.
  { assert (forall l, Height (info_of l) = Z.of_nat (length l)) as Hh.
    { intros l. unfold info_of. destruct (last l) eqn:El; [done|]. by apply last_None in El as ->. }
    pose proof (r_info _ _ _ _ _ R) as E. rewrite (r_info _ _ _ _ _ R') in E.
    apply (f_equal Height) in E. rewrite !Hh in E. lia. }
  destruct (bs !! k) as [b|] eqn:Hb.
  - destruct (lookup_lt_is_Some_2 bs' k) as [b' Hb']; [rewrite <- Hlen; by eapply lookup_lt_Some|].
    pose proof (retrieve_number _ _ _ _ _ R k b Hx Hb) as E.
    rewrite (retrieve_number _ _ _ _ _ R' k b' Hx Hb') in E. apply Ok_inj in E. congruence.
  - apply lookup_ge_None in Hb. symmetry. apply lookup_ge_None. lia.
Qed.

Lemma itr_step_inv n bs s s' :
  itr_inv n bs s -> itr_step s s' -> exists bs', itr_inv n bs' s' /\ bs `prefix_of` bs'.
Proof.
  intros I Hs. destruct Hs as [g w itr out b fs bs0 g' w' r Hr Had Hh E Hnp|g w itr out itr' b E];
    destruct I as [(segs & seg & R & Ia) Hx Hne Ho]; cbn [fst snd] in *.
  - pose proof (rep_ex_unique _ _ _ _ _ _ R Hr Hx) as <-.
    assert (index g <> []) as Hix by (intros Ei; by rewrite Ei in Hx).
    destruct (add_any _ _ _ _ _ _ _ R Had Hix Hh) as (g2 & w2 & r2 & E2 & Ei2 & Hr2).
    rewrite E in E2. injection E2 as <- <- <-.
    assert (exists bs', bs `prefix_of` bs' /\ rep_from (segs ++ [seg]) g' w' bs') as (bs' & Hp & segs' & seg' & R' & Hg).
    { destruct r as [u|e|m|]; [|exists bs; split; [done|apply Hr2]|by destruct (Hnp m)|done].
      exists (bs ++ [b]). split; [by apply prefix_app_r|apply Hr2]. }
    exists bs'. split; [|done]. split; cbn [fst snd].
    + exists segs', seg'. split; [done|]. eapply itr_grows; [done| |done..].
      apply holds_length, (d_holds _ _ _ _ _ _ _ _ (r_durable _ _ _ _ _ R)).
    + by rewrite Ei2.
    + intros ->. by apply prefix_nil_inv in Hp.
    + intros j c Hj. eapply prefix_lookup_Some; [by apply Ho|done].
  - exists bs. split; [|done]. destruct (bs !! (n + length out)%nat) as [b'|] eqn:Hb.
    + destruct (itr_next_some _ _ _ _ _ _ _ _ R Hx Ia Hb) as (itr2 & E2 & Ia2).
      rewrite E in E2. injection E2 as <- <-. split; cbn [fst snd]; [|done..|].
      * exists segs, seg. split; [done|]. rewrite length_app. cbn. by rewrite Nat.add_1_r, Nat.add_succ_r.
      * intros j c Hj. apply lookup_snoc_Some in Hj as [[_ Hj]|[-> <-]]; auto.
    + apply lookup_ge_None in Hb. rewrite (itr_next_waits _ _ _ _ _ _ _ R Hne Ia Hb) in E. done.
Qed.

Lemma itr_steps_inv n bs s s' :
  itr_inv n bs s -> rtc itr_step s s' -> exists bs', itr_inv n bs' s' /\ bs `prefix_of` bs'.
Proof.
  intros I Hs. revert bs I. induction Hs as [s|s s1 s2 H12 _ IH]; intros bs I; [by exists bs|].
  destruct (itr_step_inv _ _ _ _ I H12) as (bs1 & I1 & Hp1). destruct (IH _ I1) as (bs2 & I2 & Hp2).
  exists bs2. split; [done|by etrans].
Qed.

Lemma itr_inv_start g (w : World S) bs n :
  rep_ex g w bs -> bs <> [] -> indexed (index g) IndexableAttrBlockNum = true ->
  itr_inv n bs (g, w, newBlockItr g (Z.of_nat n), []).
Proof.
  intros (segs & seg & R) Hne Hx. split; [|done..|done]. exists segs, seg. cbn. rewrite Nat.add_0_r.
  split; [done|]. by eapply itr_start.
Qed.

Lemma itr_inv_next n bs g (w : World S) itr out :
  itr_inv n bs (g, w, itr, out) ->
  match bs !! (n + length out)%nat with
  | Some b => exists itr', itr_Next (g, w) itr = (itr', Ok (Delivers b))
  | None => itr_Next (g, w) itr = (itr, Ok Waits)
  end.
Proof.
  intros [(segs & seg & R & Ia) Hx Hne _]. cbn [fst snd] in *. destruct (bs !! _) as [b|] eqn:Hb.
  - destruct (itr_next_some _ _ _ _ _ _ _ _ R Hx Ia Hb) as (itr' & E & _). eauto.
  - apply lookup_ge_None in Hb. by eapply itr_next_waits.
Qed.

End Runs.
End BlockRuns.

Module BlockTheorems.
Import LevelDB Proto BlockHash Buf BlockSerialization FileName Streams World BlockIndex BlockMgr
  BlockChain BlockStore BlockRecovery BlockIterator BlockRuns.
Local Open Scope Z_scope.

(** ** A small chain *)

Definition all_attrs : list IndexableAttr :=
  [IndexableAttrBlockHash; IndexableAttrBlockNum; IndexableAttrTxID; IndexableAttrBlockNumTranNum;
   IndexableAttrBlockTxID; IndexableAttrTxValidationCode].

Section Demo.
Context `{ProtoCodec} `{CryptoHash}.

Definition demo_world : World MemStore.MemStore := mkWorld ∅ (Provider.mkDBHandle "ch" ∅) [].

Definition demo_start := newBlockfileMgr 100000 all_attrs demo_world.

Definition demo_state : Type := res (event * (blockfileMgr * World MemStore.MemStore)).

Definition demo_add (s : demo_state) (b : Block) fs :=
  match s with Ok (_, s) => store_op 100000 all_attrs s b fs | r => r end.

Definition demo0 : demo_state :=
  match demo_start with (w, Ok g) => Ok (Added, (g, w)) | _ => OutOfFuel end.

(** A decision of [block_good]. *)
Definition block_good_b (items : index_items) (b : Block) : bool :=
  (0 <=? Number (blk_Header b)) && (Number (blk_Header b) <? 2 ^ 63) &&
  forallb (fun x : bytes => Z.of_nat (length x) <? 2 ^ 56)
    (block_bytes b :: DataHash (blk_Header b) :: PreviousHash (blk_Header b) ::
     blk_Data b ++ blk_Metadata b) &&
  (Z.of_nat (length (blk_Data b)) <? 2 ^ 63) && (Z.of_nat (length (blk_Metadata b)) <? 2 ^ 63) &&
  forallb (fun tx => match extractTxID tx with Ok _ => true | _ => false end) (blk_Data b) &&
  match header_Hash (blk_Header b) with Ok _ => true | _ => false end &&
  match blk_Metadata b !! TRANSACTIONS_FILTER with
  | Some flags => (length (blk_Data b) <=? length flags)%nat | None => false end &&
  bool_decide ("lkMgrInfo"%string ∉ ids_of b).

Lemma is_ok_b {A} (r : res A) : match r with Ok _ => true | _ => false end = true -> is_ok r.
Proof. by destruct r. Qed.

Lemma block_good_b_ok items b : block_good_b items b = true -> block_good items b.
Proof.
  unfold block_good_b. rewrite !andb_true_iff, Z.leb_le, !Z.ltb_lt, bool_decide_eq_true.
  intros ((((((((Hn0 & Hn) & Hlens) & Hd) & Hm) & Hids) & Hh) & Hf) & Hk).
  rewrite forallb_forall, <- List.Forall_forall in Hlens, Hids.
  rewrite !Forall_cons, Forall_app in Hlens.
  destruct Hlens as (Hb & H1 & H2 & H3 & H4). rewrite Z.ltb_lt in Hb, H1, H2.
  assert (forall l : list bytes, Forall (fun x => (Z.of_nat (length x) <? 2 ^ 56) = true) l ->
    Forall len_ok l) as Hl.
  { intros l Hl. eapply Forall_impl; [exact Hl|]. intros x Hx. unfold len_ok.
    rewrite Z.ltb_lt in Hx. lia. }
  split; [split|].
  - unfold block_wf, len_ok, u64. split_and!; try lia; by apply Hl.
  - by apply is_ok_b.
  - exact Hb.
  - destruct (blk_Metadata b !! TRANSACTIONS_FILTER) as [flags|]; [|done]. exists flags.
    split; [done|]. intros _. by apply Nat.leb_le.
  - done.
  - eapply Forall_impl; [exact Hids|]. intros tx Htx. by apply is_ok_b.
Qed.

Definition first_file (s : demo_state) (b : Block) : bool :=
  match s with
  | Ok (_, (g, _)) =>
      (latestFileChunkSuffixNum (cpInfo g) =? 0) && (maxBlockfileSize g =? 100000) &&
      (latestFileChunksize (cpInfo g) + Z.of_nat (length (frame (block_bytes b))) <=? maxBlockfileSize g)
  | _ => false
  end.

Lemma demo_admissible (s : demo_state) (ev : event) (g : blockfileMgr) (w : World MemStore.MemStore) bs b :
  s = Ok (ev, (g, w)) -> first_file s b = true -> index g = newBlockIndex all_attrs ->
  block_good (newBlockIndex all_attrs) b -> Z.of_nat (length bs) < 10 -> admissible g bs b.
Proof.
  intros -> Hf Hi Hg Hl. unfold first_file in Hf. rewrite !andb_true_iff, !Z.eqb_eq, Z.leb_le in Hf.
  destruct Hf as [[Hn _] Hfit]. split; [rewrite Hi; apply Hg|by rewrite (serialize_good _ _ Hg)|lia|lia|by right].
Qed.

Lemma no_faults_handled : faults_handled [].
Proof. split; apply not_elem_of_nil. Qed.


Lemma demo0_ok :
  exists g w, demo0 = Ok (Added, (g, w)) /\ rep_ex g w [] /\ index g = newBlockIndex all_attrs.
Proof.
  destruct (first_start_ok 100000 all_attrs demo_world) as (w & g & E & Ei & _ & _ & R);
    [split; [by apply (bool_decide_unpack _); vm_compute|done]|done|by intros k|done|
     by apply (bool_decide_unpack _)|done|].
  exists g, w. unfold demo0, demo_start. by rewrite E.
Qed.

Lemma demo_add_ok (s : demo_state) (ev : event) (g : blockfileMgr) (w : World MemStore.MemStore) bs b :
  s = Ok (ev, (g, w)) -> rep_ex g w bs -> index g = newBlockIndex all_attrs ->
  first_file s b = true -> block_good (newBlockIndex all_attrs) b ->
  Number (blk_Header b) = Z.of_nat (length bs) -> Z.of_nat (length bs) < 10 ->
  exists g' w', demo_add s b [] = Ok (Added, (g', w')) /\ rep_ex g' w' (bs ++ [b]) /\
    index g' = newBlockIndex all_attrs.
Proof.
  intros Es R Ei Hf Hg En Hl. pose proof (demo_admissible _ _ _ _ _ _ Es Hf Ei Hg Hl) as Ha.
  destruct (store_op_ok 100000 all_attrs g w bs b [] R Ei) as (ev' & g' & w' & bs' & E & Hc & R' & Ei' & Ha' & _);
    [by apply (bool_decide_unpack _)|done|done|apply no_faults_handled|].
  rewrite (Ha' eq_refl En (bg_ids _ _ Hg)) in *. exists g', w'. rewrite Es. split; [exact E|]. inversion Hc; subst. done.
Qed.

End Demo.

#[local] Instance demo_hash : CryptoHash := { bccsp_Hash b := Ok b }.

#[local] Instance demo_hash_spec : CryptoHashSpec.
Proof. by exists (fun b => b). Defined.

Definition demo_block (n : Z) (prev : bytes) (ids : list string) : Block :=
  let data := (fun id => mk_endorser_tx id (to_bytes "r")) <$> ids in
  mkBlock (mkBlockHeader n prev (concat data)) data [[]; []; replicate (length ids) (Ascii.ascii_of_nat 0); []].

Definition b0 : Block := demo_block 0 [] ["t0"; "t1"].
Definition b1 : Block := demo_block 1 (hash_of (blk_Header b0)) ["t2"].

Definition demo1 := demo_add demo0 b0 [].
Definition demo2 := demo_add demo1 b1 [].

Lemma b0_good : block_good (newBlockIndex all_attrs) b0.
Proof. apply block_good_b_ok. by vm_compute. Qed.

Lemma b1_good : block_good (newBlockIndex all_attrs) b1.
Proof. apply block_good_b_ok. by vm_compute. Qed.

Lemma demo1_ok :
  exists g w, demo1 = Ok (Added, (g, w)) /\ rep_ex g w [b0] /\ index g = newBlockIndex all_attrs.
Proof.
  destruct demo0_ok as (g & w & E & R & Ei).
  by apply (demo_add_ok demo0 Added g w [] b0 E R Ei); [by vm_compute|apply b0_good|..].
Qed.

Lemma demo2_ok :
  exists g w, demo2 = Ok (Added, (g, w)) /\ rep_ex g w [b0; b1] /\ index g = newBlockIndex all_attrs.
Proof.
  destruct demo1_ok as (g & w & E & R & Ei).
  by apply (demo_add_ok demo1 Added g w [b0] b1 E R Ei); [by vm_compute|apply b1_good|..].
Qed.

(** ** The theorems *)

(** A block that the store serializes is read back as it was: the bytes
    deserialize to the block, the information extracted from the bytes on an
    index rebuild is the information the serialization returned, and the
    location recorded for each transaction holds exactly its bytes. *)
Theorem block_roundtrip `{ProtoCodec} b bs info :
  block_wf b -> serializeBlock b = Ok (bs, info) ->
  deserializeBlock bs = Ok b /\ extractSerializedBlockInfo bs = Ok info /\
  forall i tx t, blk_Data b !! i = Some tx -> si_txOffsets info !! i = Some t ->
    extractTxID tx = Ok (ti_txID t) /\
    take (Z.to_nat (bytesLength (ti_loc t))) (drop (Z.to_nat (offset (ti_loc t))) bs) =
      EncodeRawBytes tx.
Proof.
  intros Hwf Es. destruct (serializeBlock_inv _ _ _ Es) as (ids & Hids & -> & ->).
  rewrite <- (app_nil_r (block_bytes b)) at 1 2. split; [by eapply deserialize_ok|].
  split; [by eapply extract_info_ok|]. intros i tx t Htx Ht. cbn [si_txOffsets block_info] in Ht.
  destruct (Forall2_lookup_l _ _ _ _ _ Hids Htx) as (id & Hid & Ex).
  rewrite (placement_lookup _ _ _ _ _ _ Hid Htx) in Ht. injection Ht as <-. split; [done|].
  destruct (block_bytes_tx _ _ _ Htx) as (x & y & -> & Ex'). cbn [ti_loc offset bytesLength].
  rewrite <- Ex', !Nat2Z.id, drop_app_length. apply take_app_length.
Qed.

Lemma block_roundtrip_witness :
  exists bs info, serializeBlock b0 = Ok (bs, info) /\ deserializeBlock bs = Ok b0 /\
    extractSerializedBlockInfo bs = Ok info.
Proof.
  destruct (serializeBlock b0) as [[bs info]| | |] eqn:E; [|by vm_compute in E..].
  destruct (block_roundtrip b0 bs info) as (E1 & E2 & _); [apply b0_good|exact E|].
  exists bs, info. split; [done|]. split; [exact E1|exact E2].
Defined.

(** The hash of a header binds the block's number, its data hash and the
    hash of the block before it: two headers with the same hash are the same
    header, or their encodings are two different byte strings with the same
    SHA-256. *)
Theorem header_hash_binds `{CryptoHashSpec} h1 h2 x :
  header_wf h1 -> header_wf h2 -> header_Hash h1 = Ok x -> header_Hash h2 = Ok x ->
  h1 = h2 \/ exists m1 m2, m1 <> m2 /\ sha256 m1 = sha256 m2.
Proof.
  intros H1 H2 E1 E2. destruct (header_Hash_ok h1) as (m1 & B1 & S1); [apply H1|].
  destruct (header_Hash_ok h2) as (m2 & B2 & S2); [apply H2|]. rewrite S1 in E1. rewrite S2 in E2.
  destruct (decide (m1 = m2)) as [->|Hne].
  - left. by eapply header_Bytes_inj.
  - right. exists m1, m2. split; [done|]. apply Ok_inj in E1, E2. congruence.
Qed.

Lemma header_hash_binds_witness :
  exists x, header_Hash (blk_Header b1) = Ok x /\
    (blk_Header b1 = blk_Header b1 \/ exists m1 m2, m1 <> m2 /\ sha256 m1 = sha256 m2).
Proof.
  assert (header_wf (blk_Header b1)) as Hwf by (apply (bool_decide_unpack _); by vm_compute).
  destruct (header_Hash (blk_Header b1)) as [x| | |] eqn:E; [|by vm_compute in E..].
  exists x. split; [done|]. by apply (header_hash_binds (blk_Header b1) (blk_Header b1) x).
Defined.



(** A store that is opened for the first time, on an empty directory and
    an empty database, starts and holds the empty chain; one that is opened on
    what a crash left (a partial block at the end of the last file, a
    checkpoint or an index that lags behind the files) starts and holds
    exactly the blocks that were completely written, its height and the hash
    of its last block included. *)
Theorem store_opens {S : Type} `{LevelDBSpec S} `{ProtoCodec} `{CryptoHash}
    max items (w : World S) bs :
  (world_ok w /\ w_disk w = ∅ /\ (forall k, view w k = None) /\ bs = []) \/
    durable_ex (newBlockIndex items) w bs ->
  w_faults w = [] -> IndexableAttrBlockNum ∈ items -> max < 2 ^ 62 ->
  exists w' g, newBlockfileMgr max items w = (w', Ok g) /\ index g = newBlockIndex items /\
    rep_ex g w' bs /\ getBlockchainInfo g = info_of bs.
Proof.
  intros Hw Hf Hin Hmax.
  assert (exists w' g, newBlockfileMgr max items w = (w', Ok g) /\ index g = newBlockIndex items /\
    maxBlockfileSize g = max /\ w_faults w' = [] /\ rep_ex g w' bs) as (w' & g & E & Ei & _ & _ & R).
  { destruct Hw as [(Hok & Hd & Hv & ->)|Hd]; [by apply first_start_ok|by apply restart_ok]. }
  exists w', g. split; [done|]. split; [done|]. split; [done|]. destruct R as (segs & seg & R). apply R.
Qed.

Lemma store_opens_witness :
  exists (w : World MemStore.MemStore) w' g,
    newBlockfileMgr 100000 all_attrs w = (w', Ok g) /\ rep_ex g w' [b0; b1] /\
    getBlockchainInfo g = info_of [b0; b1].
Proof.
  destruct demo2_ok as (g0 & w0 & _ & R & Ei).
  destruct (store_opens 100000 all_attrs (with_faults w0 []) [b0; b1]) as (w' & g & E & _ & R' & Eb).
  - right. apply durable_with. rewrite <- Ei. apply rep_durable_ex, R.
  - done.
  - by apply (bool_decide_unpack _).
  - done.
  - exists (with_faults w0 []), w', g. split; [exact E|]. split; [exact R'|exact Eb].
Defined.

(** The queries of a store that indexes every attribute answer from the
    chain it holds: a block by its number, the last block by the largest
    number, no block from the height on; a transaction by its position; and,
    by a transaction id, the transaction, its block and its validation flag at
    the last place where the id occurs. *)
Theorem store_answers {S : Type} `{LevelDBSpec S} `{ProtoCodec} `{CryptoHash} g (w : World S) bs :
  rep_ex g w bs -> (forall a, a ∈ index g) ->
  (forall k b, bs !! k = Some b -> retrieveBlockByNumber (g, w) (Z.of_nat k) = Ok b) /\
  (forall b, last bs = Some b -> retrieveBlockByNumber (g, w) MaxUint64 = Ok b) /\
  (forall n, u64 n -> n <> MaxUint64 -> Z.of_nat (length bs) <= n ->
     retrieveBlockByNumber (g, w) n = Err ErrNotFoundInIndex) /\
  (forall k b j tx, bs !! k = Some b -> blk_Data b !! j = Some tx ->
     retrieveTransactionByBlockNumTranNum (g, w) (Z.of_nat k) (Z.of_nat j) =
       ProtoUtils.GetEnvelopeFromBlock tx) /\
  (forall k j b tx id, last_with_id bs k j b tx id ->
     retrieveTransactionByID (g, w) id = ProtoUtils.GetEnvelopeFromBlock tx /\
     retrieveBlockByTxID (g, w) id = Ok b /\
     exists flags c, blk_Metadata b !! TRANSACTIONS_FILTER = Some flags /\ flags !! j = Some c /\
       retrieveTxValidationCodeByTxID (g, w) id = Ok (byte_val c)).
Proof.
  intros (segs & seg & R) Ha.
  assert (forall a, indexed (index g) a = true) as Hx by (intros a; by apply bool_decide_eq_true).
  split_and!; intros.
  - by eapply retrieve_number.
  - by eapply retrieve_number_last.
  - by eapply retrieve_number_absent.
  - by eapply retrieve_tran.
  - split; [by eapply retrieve_txid|]. split; [by eapply retrieve_block_txid|by eapply retrieve_code].
Qed.

Lemma store_answers_witness :
  exists (g : blockfileMgr) (w : World MemStore.MemStore),
    rep_ex g w [b0; b1] /\ retrieveBlockByNumber (g, w) 1 = Ok b1 /\
    retrieveBlockByTxID (g, w) "t1" = Ok b0.
Proof.
  destruct demo2_ok as (g & w & _ & R & Ei). exists g, w. split; [done|].
  destruct (store_answers g w [b0; b1] R) as (H1 & _ & _ & _ & H5).
  { intros a. rewrite Ei. apply (bool_decide_unpack _). by destruct a. }
  split; [exact (H1 1%nat b1 eq_refl)|].
  apply (H5 0%nat 1%nat b0 (mk_endorser_tx "t1" (to_bytes "r")) "t1"%string). split; [done|done|by vm_compute| |].
  - intros [|[|j']] Hj; [lia..|]. by vm_compute.
  - intros [|[|k']] b' Hk E; [lia| |done]. injection E as <-. apply (bool_decide_unpack _). by vm_compute.
Defined.

(** C38: An iterator opened at block [n] delivers the blocks [n], [n+1], ... of
    the chain in order, each exactly once, however its calls interleave with
    blocks within the limits of the store ([admissible]) being added, or refused
    because of their number, because they cannot be serialized or because a
    write, a sync, an open or the put of the checkpoint failed: after any such
    run the store holds an extension [bs'] of the chain, the blocks delivered
    are those of [bs'] from [n] on, and the next call delivers the next block
    if the chain has it and waits for it if not. *)
Theorem iterator_delivers_in_order {S : Type} `{LevelDBSpec S} `{ProtoCodec} `{CryptoHash}
    g (w : World S) bs n g' w' itr out :
  rep_ex g w bs -> bs <> [] -> indexed (index g) IndexableAttrBlockNum = true ->
  rtc itr_step (g, w, newBlockItr g (Z.of_nat n), []) (g', w', itr, out) ->
  exists bs', rep_ex g' w' bs' /\ bs `prefix_of` bs' /\
    (forall j b, out !! j = Some b -> bs' !! (n + j)%nat = Some b) /\
    match bs' !! (n + length out)%nat with
    | Some b => exists itr', itr_Next (g', w') itr = (itr', Ok (Delivers b))
    | None => itr_Next (g', w') itr = (itr, Ok Waits)
    end.
Proof.
  intros R Hne Hx Hs.
  destruct (itr_steps_inv n bs _ _ (itr_inv_start _ _ _ n R Hne Hx) Hs) as (bs' & I & Hp).
  exists bs'. pose proof (itr_inv_next _ _ _ _ _ _ I) as Hn. destruct I as [(segs & seg & R' & _) _ _ Ho].
  split; [by exists segs, seg|]. done.
Qed.

Lemma iterator_delivers_in_order_witness :
  exists (g : blockfileMgr) (w : World MemStore.MemStore) itr itr',
    itr_Next (g, w) (newBlockItr g 1) = (itr, Ok (Delivers b1)) /\
    itr_Next (g, w) itr = (itr', Ok Waits).
Proof.
  destruct demo2_ok as (g & w & E & R & Ei).
  assert (indexed (index g) IndexableAttrBlockNum = true) as Hx by (rewrite Ei; by vm_compute).
  destruct (itr_inv_next 1 [b0; b1] g w (newBlockItr g 1) []
    (itr_inv_start g w [b0; b1] 1 R ltac:(done) Hx)) as [itr E1].
  destruct (iterator_delivers_in_order g w [b0; b1] 1 g w itr [b1] R) as (bs' & R' & _ & _ & Hn);
    [done|exact Hx|eapply rtc_l; [by apply (its_next g w (newBlockItr g 1) [] itr b1)|apply rtc_refl]|].
  pose proof R as (segs & seg & R0). rewrite <- (rep_ex_unique _ _ _ _ _ _ R0 R' Hx) in Hn.
  exists g, w, itr, itr. split; [exact E1|exact Hn].
Defined.

(** ** Executions that leave the contract *)

(** The index key of a transaction id is the byte [b] and the id, the key of
    the checkpoint is [blkMgrInfo]: the entry of a transaction with the id
    [lkMgrInfo] replaces the checkpoint, and the store cannot be opened
    again. *)
Example txid_overwrites_checkpoint :
  exists (s : blockfileMgr * World MemStore.MemStore) m,
    demo_add demo0 (demo_block 0 [] ["lkMgrInfo"]) [] = Ok (Added, s) /\
    snd (newBlockfileMgr 100000 all_attrs s.2) = Panic m.
Proof.
  assert (match demo_add demo0 (demo_block 0 [] ["lkMgrInfo"]) [] with
          | Ok (Added, s) => match snd (newBlockfileMgr 100000 all_attrs s.2) with
                             | Panic _ => True | _ => False end
          | _ => False end) as Hp by (by vm_compute).
  destruct (demo_add demo0 (demo_block 0 [] ["lkMgrInfo"]) []) as [[ev s]| | |] eqn:E; [|destruct Hp..].
  destruct ev; [|destruct Hp..].
  destruct (snd (newBlockfileMgr 100000 all_attrs s.2)) as [| |m|] eqn:Em; try (by destruct Hp).
  exists s, m. split; [reflexivity|exact Em].
Qed.

(** [addBlock] drops the error of [indexBlock]: the block counts as added and
    the height grows, but the block cannot be found. *)
Example index_error_dropped :
  exists g (w : World MemStore.MemStore),
    demo_add demo0 b0 [NoFault; NoFault; NoFault; BatchFails] = Ok (Added, (g, w)) /\
    Height (getBlockchainInfo g) = 1 /\ retrieveBlockByNumber (g, w) 0 = Err ErrNotFoundInIndex.
Proof.
  set (fs := [NoFault; NoFault; NoFault; BatchFails]).
  assert (match demo_add demo0 b0 fs with
          | Ok (Added, (g, w)) => Height (getBlockchainInfo g) = 1 /\
              retrieveBlockByNumber (g, w) 0 = Err ErrNotFoundInIndex
          | _ => False end) as Hp by (by vm_compute).
  destruct (demo_add demo0 b0 fs) as [[ev [g w]]| | |] eqn:E; [|destruct Hp..].
  destruct ev; [|destruct Hp..]. exists g, w. split; [reflexivity|exact Hp].
Qed.

(** The iterator of an empty chain does not wait for block 0. *)
Example iterator_of_empty_chain :
  exists g (w : World MemStore.MemStore) itr e,
    demo0 = Ok (Added, (g, w)) /\ itr_Next (g, w) (newBlockItr g 0) = (itr, Err e).
Proof.
  assert (match demo0 with
          | Ok (Added, (g, w)) => match snd (itr_Next (g, w) (newBlockItr g 0)) with
                                  | Err _ => True | _ => False end
          | _ => False end) as Hp by (by vm_compute).
  destruct demo0 as [[ev [g w]]| | |] eqn:E; [|destruct Hp..].
  destruct ev; [|destruct Hp..]. destruct (itr_Next (g, w) (newBlockItr g 0)) as [itr r] eqn:En.
  cbn [snd] in Hp. destruct r as [|e| |]; try (by destruct Hp). exists g, w, itr, e. split; [reflexivity|exact En].
Qed.

(** [moveToNextFile] marks the chain as not empty.  When the first block does
    not fit into a file and the process dies after the move, the store cannot
    be opened again. *)
Example first_block_too_large :
  exists g (w w' : World MemStore.MemStore) g' m1 m2,
    newBlockfileMgr 10 all_attrs demo_world = (w, Ok g) /\
    addBlock b0 (g, with_faults w [NoFault; NoFault; Crash 0]) = ((g', w'), Panic m1) /\
    snd (newBlockfileMgr 10 all_attrs (with_faults w' [])) = Panic m2.
Proof.
  assert (match newBlockfileMgr 10 all_attrs demo_world with
          | (w, Ok g) => match addBlock b0 (g, with_faults w [NoFault; NoFault; Crash 0]) with
            | ((_, w'), Panic _) => match snd (newBlockfileMgr 10 all_attrs (with_faults w' [])) with
                               | Panic _ => True | _ => False end
            | _ => False end
          | _ => False end) as Hp by (by vm_compute).
  destruct (newBlockfileMgr 10 all_attrs demo_world) as [w [g| | |]] eqn:E; [|destruct Hp..].
  destruct (addBlock b0 (g, with_faults w [NoFault; NoFault; Crash 0])) as [[g' w'] [| |m1|]] eqn:E1;
    [destruct Hp..| |destruct Hp].
  destruct (snd (newBlockfileMgr 10 all_attrs (with_faults w' []))) as [| |m2|] eqn:E2; try (by destruct Hp).
  exists g, w, w', g', m1, m2. split; [reflexivity|]. split; [exact E1|exact E2].
Qed.

(** The data hash does not bind where one transaction ends and the next
    begins. *)
Lemma data_hash_boundaries `{CryptoHash} (x y : bytes) : data_Hash [x; y] = data_Hash [x ++ y].
Proof.
  unfold data_Hash, data_Bytes. rewrite !CommonUtil.ConcatenateBytes_concat. cbn. by rewrite !app_nil_r.
Qed.

End BlockTheorems.
