(* ===== verification/History.v ===== *)
(** * The history database

    core/ledger/kvledger/history/historydb: an index from a key to the
    transactions that wrote it.  A record is a key [ns 0 key 0 block tran] with
    an empty value; the values are read from the block store.  The theorem
    says that the history of a key is the list of its writes by valid
    transactions, in the order of the chain. *)

From stdpp Require Import base gmap strings list sorting.
From Stdlib Require Import Ascii ZArith Lia.
From S2P Require Import Prelude Version StateDB LevelDB RWSet Merkle Proto Instances Validator.
Import RWSetUtil Provider Flags ProtoUtils OrderPreserving Height.
Local Open Scope Z_scope.

(** ** histmgr_helper.go *)

Module HistMgr.

Definition compositeKeySep : bytes := [NUL].

Definition ConstructCompositeHistoryKey (ns key : string) (blocknum trannum : Z) : res bytes :=
  b ← EncodeOrderPreservingVarUint64 blocknum;
  t ← EncodeOrderPreservingVarUint64 trannum;
  Ok (to_bytes ns ++ compositeKeySep ++ to_bytes key ++ compositeKeySep ++ b ++ t).

Definition ConstructPartialCompositeHistoryKey (ns key : string) (endkey : bool) : bytes :=
  to_bytes ns ++ compositeKeySep ++ to_bytes key ++ compositeKeySep ++
  (if endkey then [uint8 255] else []).

Definition SplitCompositeHistoryKey (bytesToSplit separator : bytes) : res (bytes * bytes) :=
  match SplitN2 bytesToSplit separator with
  | [a; b] => Ok (a, b)
  | _ => Panic "index out of range"
  end.

End HistMgr.
Import HistMgr.

(** ** historyleveldb.go *)

Abbreviation KVBatch := (gmap bytes (option bytes)).

Module HistoryDB.
Section HistoryDB.
Context {S : Type} `{LevelDB S} `{ProtoCodec} `{RWSetCodec}.

(** [ledgerconfig.IsHistoryDBEnabled()] *)
Context (IsHistoryDBEnabled : bool).

Definition savePointKey : bytes := [NUL].
Definition emptyValue : bytes := [].

Definition add_write (ns : string) (blockNo tranNo : Z) (dbBatch : KVBatch) (kvWrite : KVWrite) :
    res KVBatch :=
  compositeHistoryKey ← ConstructCompositeHistoryKey ns (kvw_Key kvWrite) blockNo tranNo;
  batch_Put dbBatch compositeHistoryKey (Some emptyValue).

Definition add_ns (blockNo tranNo : Z) (dbBatch : KVBatch) (nsRWSet : NsRwSet) : res KVBatch :=
  foldM (add_write (NameSpace nsRWSet) blockNo tranNo) dbBatch (Writes (KvRwSet nsRWSet)).

Definition add_tran (blockNo : Z) (tranNo : Z) (envBytes : bytes) (dbBatch : KVBatch) : res KVBatch :=
  env ← GetEnvelopeFromBlock envBytes;
  payload ← GetPayload env;
  chdrBytes ← payload_ChannelHeader payload;
  chdr ← UnmarshalChannelHeader chdrBytes;
  if decide (ch_Type chdr = ENDORSER_TRANSACTION) then
    respPayload ← GetActionFromEnvelope envBytes;
    txRWSet ← FromProtoBytes (ca_Results respPayload);
    foldM (add_ns blockNo tranNo) dbBatch txRWSet
  else Ok dbBatch.

Fixpoint commit_loop (txsFilter : bytes) (blockNo tranNo : Z) (data : list bytes) (dbBatch : KVBatch) :
    res (KVBatch * Z) :=
  match data with
  | [] => Ok (dbBatch, tranNo)
  | envBytes :: data' =>
      invalid ← IsInvalid txsFilter (Z.to_nat tranNo);
      if invalid : bool then commit_loop txsFilter blockNo (wrap64 (tranNo + 1)) data' dbBatch
      else
        dbBatch ← add_tran blockNo tranNo envBytes dbBatch;
        commit_loop txsFilter blockNo (wrap64 (tranNo + 1)) data' dbBatch
  end.

(** The flags of the block, all valid if it has none. *)
Definition block_filter (block : Block) : res bytes :=
  match blk_Metadata block !! TRANSACTIONS_FILTER with
  | None => Panic "index out of range"
  | Some txsFilter =>
      Ok (if Nat.eqb (length txsFilter) 0 then NewTxValidationFlags (length (blk_Data block))
          else txsFilter)
  end.

(** A block without flags also gets them; both databases make the same ones. *)
Definition Commit (block : Block) (historyDB : DBHandle S) : res (DBHandle S) :=
  let blockNo := Number (blk_Header block) in
  txsFilter ← block_filter block;
  '(dbBatch, tranNo) ← commit_loop txsFilter blockNo 0 (blk_Data block) NewUpdateBatch;
  h ← ToBytes (NewHeight blockNo tranNo);
  dbBatch ← batch_Put dbBatch savePointKey (Some h);
  WriteBatch historyDB dbBatch true.

Definition GetLastSavepoint (historyDB : DBHandle S) : res (option Height) :=
  versionBytes ← Get historyDB savePointKey;
  match versionBytes with
  | None => Ok None
  | Some b => '(height, _) ← NewHeightFromBytes b; Ok (Some height)
  end.

Definition ShouldRecover (historyDB : DBHandle S) (lastAvailableBlock : Z) : res (bool * Z) :=
  if negb IsHistoryDBEnabled then Ok (false, 0)
  else
    savepoint ← GetLastSavepoint historyDB;
    match savepoint with
    | None => Ok (true, 0)
    | Some sp => Ok (negb (BlockNum sp =? lastAvailableBlock), wrap64 (BlockNum sp + 1))
    end.

Definition CommitLostBlock (block : Block) (historyDB : DBHandle S) : res (DBHandle S) :=
  Commit block historyDB.

(** ** historyleveldb_query_executer.go *)

Record KeyModification := mkKeyModification {
  km_TxId : string;
  km_Value : option bytes;
  km_Timestamp : Z;
  km_IsDelete : bool
}.

Record historyScanner := mkHistoryScanner {
  compositePartialKey : bytes;
  hs_namespace : string;
  hs_key : string;
  dbItr : It
}.

Definition GetHistoryForKey (historyDB : DBHandle S) (namespace key : string) : res historyScanner :=
  if negb IsHistoryDBEnabled then Err "History tracking not enabled - historyDatabase is false"
  else
    let compositeStartKey := ConstructPartialCompositeHistoryKey namespace key false in
    let compositeEndKey := ConstructPartialCompositeHistoryKey namespace key true in
    Ok (mkHistoryScanner compositeStartKey namespace key
          (GetIterator historyDB (Some compositeStartKey) (Some compositeEndKey))).

Fixpoint find_write (key : string) (writes : list KVWrite) : option KVWrite :=
  match writes with
  | [] => None
  | w :: writes' => if decide (kvw_Key w = key) then Some w else find_write key writes'
  end.

(** Only the first set of the namespace is looked at. *)
Fixpoint find_modification (namespace key : string) (sets : list NsRwSet) : res KVWrite :=
  match sets with
  | [] => Err "Namespace not found in transaction's ReadWriteSets"
  | s :: sets' =>
      if decide (NameSpace s = namespace) then
        match find_write key (Writes (KvRwSet s)) with
        | Some w => Ok w
        | None => Err "Key not found in namespace's writeset"
        end
      else find_modification namespace key sets'
  end.

Definition getKeyModificationFromTran (tranEnvelope : Envelope) (namespace key : string) :
    res KeyModification :=
  payload ← GetPayload tranEnvelope;
  tx ← GetTransaction (pl_Data payload);
  match tx_Actions tx with
  | [] => Panic "index out of range"
  | a :: _ =>
      respPayload ← GetPayloads a;
      chdrBytes ← payload_ChannelHeader payload;
      chdr ← UnmarshalChannelHeader chdrBytes;
      txRWSet ← FromProtoBytes (ca_Results respPayload);
      kvWrite ← find_modification namespace key txRWSet;
      Ok (mkKeyModification (ch_TxId chdr) (kvw_Value kvWrite) (ch_Timestamp chdr) (kvw_IsDelete kvWrite))
  end.

(** The block store of the ledger. *)
Context (RetrieveTxByBlockNumTranNum : Z -> Z -> res Envelope).

Definition scanner_Next (scanner : historyScanner) : res (option KeyModification * historyScanner) :=
  n ← itr_Next (dbItr scanner);
  match n with
  | None => Ok (None, scanner)
  | Some (historyKey, _, itr) =>
      '(_, blockNumTranNumBytes) ← SplitCompositeHistoryKey historyKey (compositePartialKey scanner);
      '(blockNum, bytesConsumed) ← DecodeOrderPreservingVarUint64 blockNumTranNumBytes;
      '(tranNum, _) ← DecodeOrderPreservingVarUint64 (drop bytesConsumed blockNumTranNumBytes);
      tranEnvelope ← RetrieveTxByBlockNumTranNum blockNum tranNum;
      queryResult ← getKeyModificationFromTran tranEnvelope (hs_namespace scanner) (hs_key scanner);
      Ok (Some queryResult, mkHistoryScanner (compositePartialKey scanner) (hs_namespace scanner)
                              (hs_key scanner) itr)
  end.

(** All results of a scanner. *)
Fixpoint scan_all (fuel : nat) (scanner : historyScanner) : res (list KeyModification) :=
  match fuel with
  | O => OutOfFuel
  | Datatypes.S fuel' =>
      '(r, scanner) ← scanner_Next scanner;
      match r with
      | None => Ok []
      | Some m => l ← scan_all fuel' scanner; Ok (m :: l)
      end
  end.

End HistoryDB.
End HistoryDB.

(** ** What is recorded *)

Module HistoryFacts.
Import HistoryDB.
Section Facts.
Context {S : Type} `{LevelDBSpec S} `{ProtoCodec} `{RWSetCodec}.

(** The header and the read-write sets of an endorser transaction; [None] for
    another one. *)
Definition parse_tran (envBytes : bytes) : res (option (ChannelHeader * TxRwSet)) :=
  env ← GetEnvelopeFromBlock envBytes;
  payload ← GetPayload env;
  chdrBytes ← payload_ChannelHeader payload;
  chdr ← UnmarshalChannelHeader chdrBytes;
  if decide (ch_Type chdr = ENDORSER_TRANSACTION) then
    respPayload ← GetActionFromEnvelope envBytes;
    txRWSet ← FromProtoBytes (ca_Results respPayload);
    Ok (Some (chdr, txRWSet))
  else Ok None.

(** What a transaction that parses wrote to a key. *)
Definition tran_mod (ns key : string) (envBytes : bytes) : option KeyModification :=
  match parse_tran envBytes with
  | Ok (Some (chdr, sets)) =>
      match find_modification ns key sets with
      | Ok w => Some (mkKeyModification (ch_TxId chdr) (kvw_Value w) (ch_Timestamp chdr) (kvw_IsDelete w))
      | _ => None
      end
  | _ => None
  end.

Definition valid_at (txsFilter : bytes) (t : nat) : bool :=
  match txsFilter !! t with Some b => byte_val b =? 0 | None => false end.

(** The writes of the valid transactions of a block to a key, in order, each
    with the number of its transaction. *)
Fixpoint tran_hits (f : bytes) (ns key : string) (t : nat) (data : list bytes) :
    list (nat * KeyModification) :=
  match data with
  | [] => []
  | e :: data' =>
      (if valid_at f t then match tran_mod ns key e with Some m => [(t, m)] | None => [] end else []) ++
      tran_hits f ns key (Datatypes.S t) data'
  end.

Definition block_hits (ns key : string) (block : Block) : list (Height * KeyModification) :=
  match block_filter block with
  | Ok f => (fun p => (NewHeight (Number (blk_Header block)) (Z.of_nat p.1), p.2)) <$>
              tran_hits f ns key 0 (blk_Data block)
  | _ => []
  end.

(** The history of a key in a chain. *)
Definition chain_hits (ns key : string) (bs : list Block) : list (Height * KeyModification) :=
  concat (block_hits ns key <$> bs).

(** *** Parsing *)

Lemma add_tran_parse b t e batch :
  add_tran b t e batch =
  (r ← parse_tran e;
   match r with None => Ok batch | Some (_, sets) => foldM (add_ns b t) batch sets end).
Proof.
  unfold add_tran, parse_tran.
  destruct (GetEnvelopeFromBlock e) as [env| | |]; cbn [mbind res_bind]; try done.
  destruct (GetPayload env) as [p| | |]; cbn [mbind res_bind]; try done.
  destruct (payload_ChannelHeader p) as [cb| | |]; cbn [mbind res_bind]; try done.
  destruct (UnmarshalChannelHeader cb) as [ch| | |]; cbn [mbind res_bind]; try done.
  case_decide; [|done].
  destruct (GetActionFromEnvelope e) as [ca| | |]; cbn [mbind res_bind]; try done.
  by destruct (FromProtoBytes (ca_Results ca)).
Qed.

Lemma mod_parse e chdr sets ns key :
  parse_tran e = Ok (Some (chdr, sets)) ->
  exists env, GetEnvelopeFromBlock e = Ok env /\
    getKeyModificationFromTran env ns key =
    (w ← find_modification ns key sets;
     Ok (mkKeyModification (ch_TxId chdr) (kvw_Value w) (ch_Timestamp chdr) (kvw_IsDelete w))).
Proof.
  unfold parse_tran, GetActionFromEnvelope.
  destruct (GetEnvelopeFromBlock e) as [env| | |]; cbn [mbind res_bind]; try done.
  destruct (GetPayload env) as [p| | |] eqn:Ep; cbn [mbind res_bind]; try done.
  destruct (payload_ChannelHeader p) as [cb| | |] eqn:Ec; cbn [mbind res_bind]; try done.
  destruct (UnmarshalChannelHeader cb) as [ch| | |] eqn:Eh; cbn [mbind res_bind]; try done.
  case_decide; [|done].
  destruct (GetTransaction (pl_Data p)) as [tx| | |] eqn:Et; cbn [mbind res_bind]; try done.
  destruct (tx_Actions tx) as [|a l] eqn:Ea; try done.
  destruct (GetPayloads a) as [ca| | |] eqn:Eg; cbn [mbind res_bind]; try done.
  destruct (FromProtoBytes (ca_Results ca)) as [rw| | |] eqn:Ef; cbn [mbind res_bind]; try done.
  intros [= <- <-]. exists env. split; [done|]. unfold getKeyModificationFromTran.
  rewrite Ep, res_ret_bind, Et, res_ret_bind, Ea, Eg, res_ret_bind, Ec, res_ret_bind, Eh, res_ret_bind, Ef.
  done.
Qed.

(** *** The keys of the records *)

Definition hkey (ns key : string) (b t : Z) : bytes :=
  ConstructPartialCompositeHistoryKey ns key false ++ height_bytes (NewHeight b t).

Lemma ConstructCompositeHistoryKey_ok ns key b t :
  u64 b -> u64 t -> ConstructCompositeHistoryKey ns key b t = Ok (hkey ns key b t).
Proof.
  intros Hb Ht. unfold ConstructCompositeHistoryKey, hkey, ConstructPartialCompositeHistoryKey.
  rewrite !Encode_enc by done. rewrite !res_ret_bind. f_equal.
  unfold height_bytes. cbn [BlockNum TxNum]. by rewrite !app_nil_r, <- !app_assoc.
Qed.

(** The keys a transaction writes. *)
Definition set_keys (sets : list NsRwSet) : list (string * string) :=
  concat ((fun s => (fun w => (NameSpace s, kvw_Key w)) <$> Writes (KvRwSet s)) <$> sets).

Definition put_record (m : KVBatch) (k : bytes) : KVBatch := <[k := Some []]> m.

Lemma add_write_ok ns b t m w :
  u64 b -> u64 t -> add_write ns b t m w = Ok (put_record m (hkey ns (kvw_Key w) b t)).
Proof. intros Hb Ht. unfold add_write. by rewrite ConstructCompositeHistoryKey_ok by done. Qed.

Lemma add_sets_ok b t sets batch :
  u64 b -> u64 t ->
  foldM (add_ns b t) batch sets =
  Ok (foldl put_record batch ((fun p => hkey p.1 p.2 b t) <$> set_keys sets)).
Proof.
  intros Hb Ht. revert batch. induction sets as [|s sets IH]; intros batch; [done|].
  cbn [foldM]. unfold set_keys. cbn [fmap list_fmap concat]. rewrite fmap_app, foldl_app.
  assert (add_ns b t batch s = Ok (foldl put_record batch
    ((fun p => hkey p.1 p.2 b t) <$> ((fun w => (NameSpace s, kvw_Key w)) <$> Writes (KvRwSet s))))) as ->.
  { unfold add_ns. generalize batch. induction (Writes (KvRwSet s)) as [|w l IHl]; intros m; [done|].
    cbn [foldM]. rewrite add_write_ok, res_ret_bind by done. by rewrite IHl. }
  cbn [mbind res_bind]. apply IH.
Qed.

Definition tran_keys (b : Z) (t : nat) (e : bytes) : list bytes :=
  match parse_tran e with
  | Ok (Some (_, sets)) => (fun p => hkey p.1 p.2 b (Z.of_nat t)) <$> set_keys sets
  | _ => []
  end.

Fixpoint loop_keys (f : bytes) (b : Z) (t : nat) (data : list bytes) : list bytes :=
  match data with
  | [] => []
  | e :: data' => (if valid_at f t then tran_keys b t e else []) ++ loop_keys f b (Datatypes.S t) data'
  end.

(** Valid transactions parse. *)
Definition parses (f : bytes) (t : nat) (data : list bytes) : Prop :=
  forall j e, data !! j = Some e -> (t + j < length f)%nat /\
    (valid_at f (t + j) = true -> is_ok (parse_tran e)).

Lemma commit_loop_ok f b t data batch :
  u64 b -> Z.of_nat (t + length data) < 2 ^ 64 -> parses f t data ->
  commit_loop f b (Z.of_nat t) data batch =
  Ok (foldl put_record batch (loop_keys f b t data), Z.of_nat (t + length data)).
Proof.
  intros Hb. revert t batch. induction data as [|e data IH]; intros t batch Hl Hp.
  { cbn. by rewrite Nat.add_0_r. }
  cbn [commit_loop loop_keys length] in *. destruct (Hp 0%nat e eq_refl) as [Ht Hok].
  rewrite Nat.add_0_r in Ht, Hok. destruct (lookup_lt_is_Some_2 _ _ Ht) as [c Hc].
  rewrite Nat2Z.id, (IsInvalid_lookup _ _ _ Hc), res_ret_bind.
  assert (parses f (Datatypes.S t) data) as Hp'.
  { intros j e' Hj. specialize (Hp (Datatypes.S j) e' Hj). by rewrite <- Nat.add_succ_comm in Hp. }
  assert (wrap64 (Z.of_nat t + 1) = Z.of_nat (Datatypes.S t)) as ->.
  { rewrite wrap64_small by (unfold u64; lia). lia. }
  rewrite foldl_app, <- Nat.add_succ_comm. unfold valid_at in *. rewrite Hc in Hok |- *.
  destruct (byte_val c =? 0) eqn:Ev; cbn [negb].
  - rewrite add_tran_parse. unfold tran_keys. specialize (Hok eq_refl).
    apply is_ok_iff in Hok as [r Er]. rewrite Er, res_ret_bind.
    destruct r as [[chdr sets]|]; [rewrite add_sets_ok by (done || (unfold u64; lia))|]; rewrite res_ret_bind;
      apply IH; done || lia.
  - apply IH; done || lia.
Qed.

(** *** Committing a block *)

Definition block_keys (block : Block) : list bytes :=
  match block_filter block with
  | Ok f => loop_keys f (Number (blk_Header block)) 0 (blk_Data block)
  | _ => []
  end.

(** Blocks the history database can record. *)
Record hist_block (i : nat) (block : Block) : Prop := {
  hb_number : Number (blk_Header block) = Z.of_nat i;
  hb_u64 : Z.of_nat i < 2 ^ 63;
  hb_len : Z.of_nat (length (blk_Data block)) < 2 ^ 63;
  hb_parse : exists f, block_filter block = Ok f /\ parses f 0 (blk_Data block)
}.

Definition block_height (block : Block) : Height :=
  NewHeight (Number (blk_Header block)) (Z.of_nat (length (blk_Data block))).

(** The database of the chain [bs]. *)
Definition hist_view (bs : list Block) (k : bytes) : option bytes :=
  if decide (k = savePointKey) then (height_bytes ∘ block_height) <$> last bs
  else if decide (k ∈ concat (block_keys <$> bs)) then Some [] else None.

Definition hist_inv (h : DBHandle S) (bs : list Block) : Prop :=
  handle_ok h /\ forall k, handle_view h k = hist_view bs k.

Lemma put_records (keys : list bytes) (m : KVBatch) (k : bytes) :
  foldl put_record m keys !! k = if decide (k ∈ keys) then Some (Some []) else m !! k.
Proof.
  revert m. induction keys as [|k' keys IH]; intros m.
  { cbn. rewrite decide_False; [done|]. apply not_elem_of_nil. }
  cbn [foldl]. rewrite IH. unfold put_record. destruct (decide (k ∈ keys)) as [Hin|Hni].
  - rewrite decide_True; [done|]. by right.
  - destruct (decide (k = k')) as [->|Hne].
    + rewrite lookup_insert_eq, decide_True; [done|]. by left.
    + rewrite lookup_insert_ne, decide_False; [done| |done]. by intros [->|?]%elem_of_cons.
Qed.

Lemma block_height_ok i block : hist_block i block -> height_ok (block_height block).
Proof. intros [En Hu Hl _]. unfold height_ok, block_height, u64. cbn. rewrite En. lia. Qed.

Lemma hist_commit h bs block :
  hist_inv h bs -> hist_block (length bs) block ->
  exists h', Commit block h = Ok h' /\ hist_inv h' (bs ++ [block]) /\ h_dbName h' = h_dbName h.
Proof.
  intros [Hh Hv] Hb. pose proof (block_height_ok _ _ Hb) as Hok.
  destruct Hb as [En Hu Hl (f & Ef & Hp)]. unfold Commit. rewrite Ef, res_ret_bind.
  change 0 with (Z.of_nat 0) at 1. rewrite commit_loop_ok by (done || (unfold u64; lia)).
  rewrite res_ret_bind. rewrite Nat.add_0_l. change (NewHeight _ _) with (block_height block).
  rewrite ToBytes_ok, res_ret_bind by done. cbn [batch_Put mbind res_bind].
  destruct (WriteBatch_spec h (<[savePointKey := Some (height_bytes (block_height block))]>
    (foldl put_record NewUpdateBatch (loop_keys f (Number (blk_Header block)) 0 (blk_Data block)))) true Hh)
    as (h' & E & Hh' & Hn & Hv' & _).
  exists h'. split; [exact E|]. split; [|done]. split; [done|]. intros k. rewrite Hv'.
  unfold hist_view. destruct (decide (k = savePointKey)) as [->|Hne].
  { by rewrite lookup_insert_eq, last_snoc. }
  assert (loop_keys f (Number (blk_Header block)) 0 (blk_Data block) = block_keys block) as ->
    by (unfold block_keys; by rewrite Ef).
  rewrite lookup_insert_ne, put_records by done. rewrite fmap_app, concat_app.
  cbn [fmap list_fmap concat]. rewrite app_nil_r.
  destruct (decide (k ∈ block_keys block)) as [Hin|Hni].
  { rewrite decide_True; [done|]. apply elem_of_app. by right. }
  change (NewUpdateBatch !! k) with (@None (option bytes)). rewrite Hv. unfold hist_view.
  rewrite decide_False by done.
  destruct (decide (k ∈ concat _)) as [Hin|Hni2]; symmetry.
  - apply decide_True, elem_of_app. by left.
  - apply decide_False. by intros [?|?]%elem_of_app.
Qed.

Lemma hist_savepoint h bs :
  hist_inv h bs -> (forall i b, bs !! i = Some b -> hist_block i b) ->
  GetLastSavepoint h = Ok (block_height <$> last bs).
Proof.
  intros [Hh Hv] Hb. unfold GetLastSavepoint. rewrite Get_spec, Hv by done.
  unfold hist_view. rewrite decide_True by done.
  destruct (last bs) as [b|] eqn:El; [|done]. rewrite last_lookup in El.
  rewrite res_ret_bind. cbn [fmap option_fmap option_map compose].
  rewrite <- (app_nil_r (height_bytes _)), NewHeightFromBytes_ok; [done|].
  by eapply block_height_ok, Hb.
Qed.

(** *** The records of a key, in order *)

Definition hit_lt (x y : Height * KeyModification) : Prop := height_compare x.1 y.1 = Lt.

Lemma elem_tran_hits f ns key t data x m :
  (x, m) ∈ tran_hits f ns key t data <->
  exists j e, data !! j = Some e /\ valid_at f (t + j) = true /\ x = (t + j)%nat /\
    tran_mod ns key e = Some m.
Proof.
  revert t. induction data as [|e data IH]; intros t; cbn [tran_hits].
  { split; [by intros ?%elem_of_nil|by intros (j & e & ? & _)]. }
  rewrite elem_of_app, IH. split.
  - intros [Hin|(j & e' & Hj & Hv & -> & Hm)].
    + destruct (valid_at f t) eqn:Ev; [|by apply elem_of_nil in Hin].
      destruct (tran_mod ns key e) as [m'|] eqn:Em; [|by apply elem_of_nil in Hin].
      apply list_elem_of_singleton in Hin as [= -> ->]. exists 0%nat, e. by rewrite Nat.add_0_r.
    + exists (Datatypes.S j), e'. rewrite Nat.add_succ_r. done.
  - intros ([|j] & e' & Hj & Hv & -> & Hm).
    + injection Hj as <-. rewrite Nat.add_0_r in *. left. rewrite Hv, Hm. by apply list_elem_of_singleton.
    + right. exists j, e'. rewrite Nat.add_succ_r in *. done.
Qed.

Lemma tran_hits_sorted f ns key t data :
  StronglySorted (fun x y : nat * KeyModification => (x.1 < y.1)%nat) (tran_hits f ns key t data).
Proof.
  revert t. induction data as [|e data IH]; intros t; cbn [tran_hits]; [constructor|].
  apply StronglySorted_app_2; [|destruct (valid_at f t), (tran_mod ns key e); repeat constructor|apply IH].
  intros [x1 m1] [x2 m2] Hx1 Hx2. apply elem_tran_hits in Hx2 as (j & e' & _ & _ & -> & _).
  destruct (valid_at f t); [|by apply elem_of_nil in Hx1].
  destruct (tran_mod ns key e); [|by apply elem_of_nil in Hx1].
  apply list_elem_of_singleton in Hx1 as [= -> ->]. cbn. lia.
Qed.

Lemma elem_chain_hits ns key bs h m :
  (h, m) ∈ chain_hits ns key bs <->
  exists b f t e, b ∈ bs /\ block_filter b = Ok f /\ blk_Data b !! t = Some e /\
    valid_at f t = true /\ h = NewHeight (Number (blk_Header b)) (Z.of_nat t) /\
    tran_mod ns key e = Some m.
Proof.
  unfold chain_hits. rewrite elem_of_concat_fmap. split.
  - intros (b & Hb & Hin). unfold block_hits in Hin.
    destruct (block_filter b) as [f| | |] eqn:Ef; try by apply elem_of_nil in Hin.
    apply list_elem_of_fmap in Hin as ([t m'] & [= -> ->] & Hin).
    apply elem_tran_hits in Hin as (j & e & Hj & Hv & -> & Hm). exists b, f, j, e. done.
  - intros (b & f & t & e & Hb & Ef & Ht & Hv & -> & Hm). exists b.
    split; [done|]. unfold block_hits. rewrite Ef. apply list_elem_of_fmap.
    exists (t, m). split; [done|]. apply elem_tran_hits. by exists t, e.
Qed.

Lemma chain_hits_sorted ns key n bs :
  (forall i b, bs !! i = Some b -> Number (blk_Header b) = n + Z.of_nat i) ->
  StronglySorted hit_lt (chain_hits ns key bs).
Proof.
  revert n. induction bs as [|b bs IH]; intros n Hn; [constructor|].
  change (chain_hits ns key (b :: bs)) with (block_hits ns key b ++ chain_hits ns key bs).
  apply StronglySorted_app_2.
  - intros [h1 m1] [h2 m2] Hx1 Hx2. apply elem_chain_hits in Hx2 as (b2 & f2 & t2 & e2 & Hb2 & _ & _ & _ & -> & _).
    apply list_elem_of_lookup in Hb2 as [i Hi]. pose proof (Hn (Datatypes.S i) b2 Hi) as E2.
    pose proof (Hn 0%nat b eq_refl) as E1. unfold block_hits in Hx1.
    destruct (block_filter b); try by apply elem_of_nil in Hx1.
    apply list_elem_of_fmap in Hx1 as ([t1 m1'] & [= -> ->] & _).
    unfold hit_lt, height_compare. cbn. rewrite E1, E2, (proj2 (Z.compare_lt_iff _ _)); [done|lia].
  - unfold block_hits. destruct (block_filter b) as [f| | |]; try constructor.
    pose proof (tran_hits_sorted f ns key 0 (blk_Data b)) as Hs.
    induction Hs as [|[t m] l Hs IHs Hall]; [constructor|]. cbn. constructor; [done|].
    apply Forall_fmap. eapply Forall_impl; [exact Hall|]. intros [t' m'] Hlt. cbn in Hlt.
    unfold hit_lt, height_compare. cbn. rewrite Z.compare_refl. apply Z.compare_lt_iff. lia.
  - apply (IH (n + 1)). intros i b' Hi. rewrite (Hn (Datatypes.S i) b' Hi). lia.
Qed.

(** *** Writes and modifications *)

Lemma find_write_some key l :
  key ∈ (kvw_Key <$> l) <-> exists w, find_write key l = Some w.
Proof.
  induction l as [|w l IH]; cbn; [split; [by intros ?%elem_of_nil|by intros [? ?]]|].
  rewrite elem_of_cons. case_decide as Hk; [split; [eauto|by left]|]. rewrite <- IH. naive_solver.
Qed.

Lemma set_keys_cons s sets ns key :
  (ns, key) ∈ set_keys (s :: sets) <->
  (ns = NameSpace s /\ key ∈ (kvw_Key <$> Writes (KvRwSet s))) \/ (ns, key) ∈ set_keys sets.
Proof.
  unfold set_keys. cbn [fmap list_fmap concat]. rewrite elem_of_app, !list_elem_of_fmap.
  split; (intros [Hin|?]; [left|by right]).
  - destruct Hin as (w & [= -> ->] & Hin). split; [done|]. by exists w.
  - destruct Hin as (-> & w & -> & Hin). by exists w.
Qed.

Lemma set_keys_ns ns key sets : (ns, key) ∈ set_keys sets -> ns ∈ (NameSpace <$> sets).
Proof.
  induction sets as [|s sets IH]; [by intros ?%elem_of_nil|]. rewrite set_keys_cons. cbn.
  intros [[-> _]|?]; [by left|right; auto].
Qed.

Lemma find_modification_iff ns key sets :
  NoDup (NameSpace <$> sets) ->
  (ns, key) ∈ set_keys sets <-> exists w, find_modification ns key sets = Ok w.
Proof.
  induction sets as [|s sets IH]; cbn [fmap list_fmap find_modification]; intros Hnd.
  { split; [by intros ?%elem_of_nil|by intros [? ?]]. }
  apply NoDup_cons in Hnd as [Hni Hnd]. rewrite set_keys_cons. case_decide as Hns.
  - subst ns. rewrite find_write_some. split.
    + intros [[_ [w ->]]|Hin]; [eauto|]. by apply set_keys_ns in Hin.
    + intros [w Hw]. left. split; [done|]. destruct (find_write key _) as [w'|]; [eauto|done].
  - rewrite <- IH by done. naive_solver.
Qed.

(** *** The range of a key *)

Lemma range_prefix p k :
  bytes_le p k -> bytes_lt k (p ++ [uint8 255]) -> p `prefix_of` k.
Proof.
  unfold bytes_le, bytes_lt. revert k. induction p as [|c p IH]; intros k Hle Hlt; [apply prefix_nil|].
  destruct k as [|d k]; [done|]. cbn in Hle, Hlt.
  destruct (Ascii.compare c d) eqn:E; [| |done].
  - apply Ascii.compare_eq_iff in E as ->. rewrite ascii_compare_refl in Hlt.
    apply prefix_cons. by apply IH.
  - rewrite ascii_compare_val in E. rewrite ascii_compare_val, Z.compare_antisym, E in Hlt. done.
Qed.

Lemma height_bytes_head h : height_ok h -> exists c l, height_bytes h = c :: l /\ byte_val c < 255.
Proof.
  intros _. unfold height_bytes, enc. eexists _, _. split; [reflexivity|].
  pose proof (sig_bytes_le 8 (BlockNum h)). rewrite byte_val_uint8. rewrite Z.mod_small; lia.
Qed.

Lemma hkey_in_range ns key b t :
  u64 b -> u64 t ->
  in_brange (Some (ConstructPartialCompositeHistoryKey ns key false))
    (Some (ConstructPartialCompositeHistoryKey ns key true)) (hkey ns key b t).
Proof.
  intros Hb Ht. unfold hkey, in_brange.
  assert (ConstructPartialCompositeHistoryKey ns key true =
    ConstructPartialCompositeHistoryKey ns key false ++ [uint8 255]) as ->.
  { unfold ConstructPartialCompositeHistoryKey. rewrite app_nil_r, <- !app_assoc. done. }
  set (p := ConstructPartialCompositeHistoryKey ns key false).
  destruct (height_bytes_head (NewHeight b t)) as (c & l & -> & Hc); [by split|]. split.
  - unfold bytes_le. rewrite <- (app_nil_r p) at 1. by rewrite bytes_compare_app.
  - unfold bytes_lt. rewrite bytes_compare_app. cbn. rewrite ascii_compare_val.
    change (byte_val (uint8 255)) with 255. by rewrite (proj2 (Z.compare_lt_iff _ _)).
Qed.

Lemma NUL_split p1 p2 x y : NUL ∉ p1 -> NUL ∉ p2 -> p1 ++ NUL :: x = p2 ++ NUL :: y -> p1 = p2.
Proof.
  intros Hp1 Hp2 E. pose proof (SplitN2_NUL p1 x Hp1) as E1. rewrite E, SplitN2_NUL in E1 by done.
  by injection E1.
Qed.

(** Transactions with one read-write set for each namespace. *)
Definition tran_ok (e : bytes) : Prop :=
  forall chdr sets, parse_tran e = Ok (Some (chdr, sets)) ->
    NoDup (NameSpace <$> sets) /\ Forall (fun s => ns_ok (NameSpace s)) sets.

Definition trans_ok (bs : list Block) : Prop := forall b e, b ∈ bs -> e ∈ blk_Data b -> tran_ok e.

Lemma elem_loop_keys f b t data k :
  k ∈ loop_keys f b t data <->
  exists j e, data !! j = Some e /\ valid_at f (t + j) = true /\ k ∈ tran_keys b (t + j) e.
Proof.
  revert t. induction data as [|e data IH]; intros t; cbn [loop_keys].
  { split; [by intros ?%elem_of_nil|by intros (j & e & ? & _)]. }
  rewrite elem_of_app, IH. split.
  - intros [Hin|(j & e' & Hj & Hv & Hk)].
    + destruct (valid_at f t) eqn:Ev; [|by apply elem_of_nil in Hin].
      exists 0%nat, e. by rewrite Nat.add_0_r.
    + exists (Datatypes.S j), e'. rewrite Nat.add_succ_r. done.
  - intros ([|j] & e' & Hj & Hv & Hk).
    + injection Hj as <-. rewrite Nat.add_0_r in *. left. by rewrite Hv.
    + right. exists j, e'. rewrite Nat.add_succ_r in *. done.
Qed.

(** The keys of the chain are those of the writes of valid transactions. *)
Lemma elem_chain_keys bs k :
  k ∈ concat (block_keys <$> bs) <->
  exists b f t e chdr sets ns key, b ∈ bs /\ block_filter b = Ok f /\ blk_Data b !! t = Some e /\
    valid_at f t = true /\ parse_tran e = Ok (Some (chdr, sets)) /\ (ns, key) ∈ set_keys sets /\
    k = hkey ns key (Number (blk_Header b)) (Z.of_nat t).
Proof.
  rewrite elem_of_concat_fmap. split.
  - intros (b & Hb & Hin). unfold block_keys in Hin.
    destruct (block_filter b) as [f| | |] eqn:Ef; try by apply elem_of_nil in Hin.
    apply elem_loop_keys in Hin as (t & e & Ht & Hv & Hk). rewrite Nat.add_0_l in *. unfold tran_keys in Hk.
    destruct (parse_tran e) as [[[chdr sets]|]| | |] eqn:Ep; try by apply elem_of_nil in Hk.
    apply list_elem_of_fmap in Hk as ([ns key] & -> & Hk). by exists b, f, t, e, chdr, sets, ns, key.
  - intros (b & f & t & e & chdr & sets & ns & key & Hb & Ef & Ht & Hv & Ep & Hk & ->). exists b.
    split; [done|]. unfold block_keys. rewrite Ef. apply elem_loop_keys. exists t, e.
    split; [done|]. split; [done|]. unfold tran_keys. rewrite Ep. apply list_elem_of_fmap.
    by exists (ns, key).
Qed.

(** No other key of the namespace has records in the range of [key]: none
    extends [key] and a NUL byte. *)
Definition unconfused (ns key : string) (bs : list Block) : Prop :=
  forall b f t e chdr sets key', b ∈ bs -> block_filter b = Ok f -> blk_Data b !! t = Some e ->
    valid_at f t = true -> parse_tran e = Ok (Some (chdr, sets)) -> (ns, key') ∈ set_keys sets ->
    key' <> key ->
    ~ ConstructPartialCompositeHistoryKey ns key false `prefix_of`
        hkey ns key' (Number (blk_Header b)) (Z.of_nat t).

Definition record_of (ns key : string) (x : Height * KeyModification) : bytes * bytes :=
  (hkey ns key (BlockNum x.1) (TxNum x.1), []).

Lemma partial_ns ns key : ConstructPartialCompositeHistoryKey ns key false =
  to_bytes ns ++ NUL :: to_bytes key ++ [NUL].
Proof. unfold ConstructPartialCompositeHistoryKey. by rewrite app_nil_r. Qed.

Section Query.
Context (h : DBHandle S) (bs : list Block) (ns key : string).
Context (Hinv : hist_inv h bs) (Hblocks : forall i b, bs !! i = Some b -> hist_block i b).
Context (Htrans : trans_ok bs) (Hns : ns_ok ns) (Hconf : unconfused ns key bs).

Let P := ConstructPartialCompositeHistoryKey ns key false.

Lemma block_bounds b t e :
  b ∈ bs -> blk_Data b !! t = Some e -> u64 (Number (blk_Header b)) /\ u64 (Z.of_nat t).
Proof.
  intros Hb Ht. apply list_elem_of_lookup in Hb as [i Hi]. destruct (Hblocks i b Hi) as [En Hu Hl _].
  apply lookup_lt_Some in Ht. unfold u64. rewrite En. lia.
Qed.

(** A record in the range is a write of the key. *)
Lemma in_range_hit k v :
  hist_view bs k = Some v -> P `prefix_of` k ->
  exists x, x ∈ chain_hits ns key bs /\ (k, v) = record_of ns key x.
Proof.
  unfold hist_view. intros Hv Hp. case_decide as Hs.
  { exfalso. subst k. destruct Hp as [z Ez]. unfold P in Ez. rewrite partial_ns in Ez.
    apply (f_equal length) in Ez. rewrite !length_app in Ez. cbn in Ez. rewrite length_app in Ez. cbn in Ez.
    lia. }
  case_decide as Hin; [|done]. injection Hv as <-.
  apply elem_chain_keys in Hin as (b & f & t & e & chdr & sets & ns' & key' & Hb & Ef & Ht & Hvt & Ep & Hk & ->).
  destruct (Htrans b e Hb (list_elem_of_lookup_2 _ _ _ Ht) chdr sets Ep) as [Hnd Hall].
  assert (ns' = ns) as ->.
  { destruct Hp as [z Ez]. unfold P, hkey in Ez. rewrite !partial_ns, <- !app_assoc in Ez.
    cbn in Ez. apply NUL_split in Ez; [by apply to_bytes_inj in Ez| |apply Hns].
    apply set_keys_ns in Hk. rewrite Forall_forall in Hall.
    apply list_elem_of_fmap in Hk as (s & -> & Hs2). by apply Hall. }
  destruct (decide (key' = key)) as [->|Hne]; [|by destruct (Hconf _ _ _ _ _ _ _ Hb Ef Ht Hvt Ep Hk Hne)].
  apply (find_modification_iff _ _ _ Hnd) in Hk as [w Hw].
  exists (NewHeight (Number (blk_Header b)) (Z.of_nat t),
    mkKeyModification (ch_TxId chdr) (kvw_Value w) (ch_Timestamp chdr) (kvw_IsDelete w)).
  split; [|done]. apply elem_chain_hits. exists b, f, t, e. split_and!; try done.
  unfold tran_mod. by rewrite Ep, Hw.
Qed.

Lemma hit_record x :
  x ∈ chain_hits ns key bs ->
  hist_view bs (record_of ns key x).1 = Some [] /\ height_ok x.1 /\
  exists b f t e chdr sets w, b ∈ bs /\ block_filter b = Ok f /\ blk_Data b !! t = Some e /\
    valid_at f t = true /\ x.1 = NewHeight (Number (blk_Header b)) (Z.of_nat t) /\
    parse_tran e = Ok (Some (chdr, sets)) /\ find_modification ns key sets = Ok w /\
    x.2 = mkKeyModification (ch_TxId chdr) (kvw_Value w) (ch_Timestamp chdr) (kvw_IsDelete w).
Proof.
  destruct x as [hx m]. intros Hx. apply elem_chain_hits in Hx as (b & f & t & e & Hb & Ef & Ht & Hv & -> & Hm).
  destruct (block_bounds _ _ _ Hb Ht) as [Hb64 Ht64]. unfold tran_mod in Hm.
  destruct (parse_tran e) as [[[chdr sets]|]| | |] eqn:Ep; try done.
  destruct (find_modification ns key sets) as [w| | |] eqn:Ew; try done. injection Hm as <-.
  split; [|split; [by split|by exists b, f, t, e, chdr, sets, w]].
  unfold hist_view, record_of. cbn [fst]. rewrite decide_False.
  - rewrite decide_True; [done|]. apply elem_chain_keys.
    exists b, f, t, e, chdr, sets, ns, key. split_and!; try done.
    destruct (Htrans b e Hb (list_elem_of_lookup_2 _ _ _ Ht) chdr sets Ep) as [Hnd _].
    apply find_modification_iff; eauto.
  - intros E. apply (f_equal length) in E. unfold hkey in E. rewrite length_app, partial_ns, !length_app in E.
    cbn in E. rewrite length_app in E. cbn in E. lia.
Qed.

Lemma records_sorted :
  StronglySorted rec_lt (record_of ns key <$> chain_hits ns key bs).
Proof.
  assert (StronglySorted hit_lt (chain_hits ns key bs)) as Hs.
  { apply (chain_hits_sorted _ _ 0). intros i b Hi. by destruct (Hblocks i b Hi). }
  assert (Forall (fun x => height_ok x.1) (chain_hits ns key bs)) as Hok.
  { apply Forall_forall. intros x Hx. by apply hit_record. }
  induction Hs as [|x l Hs IH Hall]; [constructor|]. apply Forall_cons in Hok as [Hx Hok].
  cbn. constructor; [by apply IH|]. apply Forall_fmap. apply Forall_forall. intros y Hy.
  rewrite Forall_forall in Hall, Hok. unfold compose, rec_lt, record_of, bytes_lt, hkey. cbn [fst].
  rewrite bytes_compare_app. destruct x as [[? ?] ?], y as [[? ?] ?].
  pose proof (Hall _ Hy) as Hlt. pose proof (Hok _ Hy) as Hyo. unfold hit_lt in Hlt. cbn [fst] in *.
  match goal with |- bytes_compare (height_bytes ?a) (height_bytes ?b) = _ =>
    rewrite <- (app_nil_r (height_bytes a)), <- (app_nil_r (height_bytes b)) end.
  rewrite height_bytes_compare by done. cbn in *. by rewrite Hlt.
Qed.

Lemma scan_records l :
  is_hscan h (Some P) (Some (ConstructPartialCompositeHistoryKey ns key true)) l ->
  l = record_of ns key <$> chain_hits ns key bs.
Proof.
  destruct Hinv as [Hh Hv]. intros [Hsort Hin].
  assert (forall l, StronglySorted rec_lt l -> NoDup l) as Hnd.
  { intros l'. induction 1 as [|x l' Hs IH Hall]; constructor; [|done].
    intros Hx. rewrite Forall_forall in Hall. by apply (irreflexivity bytes_lt x.1), Hall. }
  pose proof records_sorted as Hrs.
  apply (StronglySorted_unique_strong rec_lt); [|done|done|].
  { intros x y _ _ Hxy Hyx. exfalso. apply (irreflexivity bytes_lt x.1). by etrans. }
  apply NoDup_Permutation; [by apply Hnd|by apply Hnd|]. intros [k v]. rewrite Hin, Hv, list_elem_of_fmap.
  split.
  - intros [Hview [Hle Hlt]].
    assert (ConstructPartialCompositeHistoryKey ns key true = P ++ [uint8 255]) as Ee
      by (unfold P, ConstructPartialCompositeHistoryKey; by rewrite app_nil_r, <- !app_assoc).
    rewrite Ee in Hlt. destruct (in_range_hit k v Hview) as (x & Hx & E); [by apply range_prefix|].
    by exists x.
  - intros (x & E & Hx). destruct (hit_record x Hx) as (Hview & [Hb Ht] & _).
    injection E as -> ->. split; [exact Hview|]. by apply hkey_in_range.
Qed.

(** *** Reading the results *)

Context (Retrieve : Z -> Z -> res Envelope).
Context (Hret : forall b t e, b ∈ bs -> blk_Data b !! t = Some e ->
  Retrieve (Number (blk_Header b)) (Z.of_nat t) = GetEnvelopeFromBlock e).

Lemma split_record x : SplitCompositeHistoryKey (hkey ns key (BlockNum x) (TxNum x)) P =
  Ok ([], height_bytes x).
Proof.
  unfold SplitCompositeHistoryKey, hkey. fold P.
  assert (forall y, SplitN2 (P ++ y) P = [[]; y]) as Hsp.
  { intros y. destruct (P ++ y) eqn:E; cbn [SplitN2]; rewrite <- E;
      rewrite decide_True by (by apply prefix_app_r); by rewrite drop_app_length. }
  rewrite Hsp. by destruct x.
Qed.

Lemma scan_all_ok fuel itr xs :
  name_ok (h_dbName h) -> (forall x, x ∈ xs -> x ∈ chain_hits ns key bs) ->
  it_rest itr = at_level (h_dbName h) <$> (record_of ns key <$> xs) -> (length xs < fuel)%nat ->
  scan_all Retrieve fuel (mkHistoryScanner P ns key itr) = Ok (snd <$> xs).
Proof.
  intros Hname. revert itr xs. induction fuel as [|fuel IH]; intros itr xs Hxs Hr Hf; [lia|].
  cbn [scan_all]. unfold scanner_Next. cbn [dbItr compositePartialKey hs_namespace hs_key].
  destruct xs as [|x xs].
  { rewrite itr_Next_nil by done. by rewrite !res_ret_bind. }
  destruct (itr_Next_cons itr (h_dbName h) (hkey ns key (BlockNum x.1) (TxNum x.1)) []
    (@fmap list _ _ _ (record_of ns key) xs) Hname Hr) as (itr' & En & Hr').
  rewrite En, res_ret_bind.
  destruct (hit_record x) as (_ & Hok & b & f & t & e & chdr & sets & w & Hb & _ & Ht & _ & Ex & Ep & Ew & Em);
    [apply Hxs; by left|].
  rewrite split_record, res_ret_bind.
  pose proof Hok as [Hb64 Ht64]. unfold height_bytes. rewrite Decode_enc, res_ret_bind by done.
  rewrite drop_app_length, <- (app_nil_r (enc (TxNum x.1))), Decode_enc, res_ret_bind by done.
  assert (Retrieve (BlockNum x.1) (TxNum x.1) = GetEnvelopeFromBlock e) as -> by (rewrite Ex; by apply Hret).
  destruct (mod_parse e chdr sets ns key Ep) as (env & -> & Eg).
  rewrite res_ret_bind, Eg, Ew, !res_ret_bind, (IH itr' xs); [|intros; apply Hxs; by right|done|cbn in Hf; lia].
  rewrite res_ret_bind. cbn. by rewrite Em.
Qed.

Lemma history_ok :
  exists sc, GetHistoryForKey true h ns key = Ok sc /\
    scan_all Retrieve (Datatypes.S (length (chain_hits ns key bs))) sc = Ok (snd <$> chain_hits ns key bs).
Proof.
  destruct Hinv as [Hh _]. eexists. split; [reflexivity|].
  destruct (GetIterator_spec h (Some P) (Some (ConstructPartialCompositeHistoryKey ns key true)) Hh)
    as (l & El & Hl). rewrite (scan_records l Hl) in El.
  apply scan_all_ok; [apply Hh|done|exact El|lia].
Qed.

End Query.

End Facts.
End HistoryFacts.

(** ** Theorems *)

Module HistoryTheorems.
Import HistoryDB HistoryFacts.

Definition commit_blocks {S : Type} `{LevelDB S} `{ProtoCodec} `{RWSetCodec} (h : DBHandle S)
    (bs : list Block) : res (DBHandle S) := foldM (fun h b => Commit b h) h bs.

Lemma commit_blocks_inv {S : Type} `{LevelDBSpec S} `{ProtoCodec} `{RWSetCodec} (h : DBHandle S) bs :
  handle_ok h -> (forall k, handle_view h k = None) ->
  (forall i b, bs !! i = Some b -> hist_block i b) ->
  exists h', commit_blocks h bs = Ok h' /\ hist_inv h' bs.
Proof.
  intros Hh Hempty. induction bs as [|b bs IH] using rev_ind; intros Hb.
  { exists h. split; [done|]. split; [done|]. intros k. rewrite Hempty. unfold hist_view.
    case_decide; [done|]. by rewrite decide_False by apply not_elem_of_nil. }
  destruct IH as (h1 & E1 & I1).
  { intros i b' Hi. apply Hb. by apply lookup_app_l_Some. }
  destruct (hist_commit h1 bs b I1) as (h2 & E2 & I2 & _).
  { apply Hb. by apply list_lookup_middle. }
  exists h2. split; [|done]. unfold commit_blocks in *. rewrite foldM_app, E1, res_ret_bind. cbn [foldM].
  by rewrite E2.
Qed.

(** The history of a key is the list of its writes by valid transactions.
    After the blocks of a chain are committed to an empty history database,
    the query for a key delivers, in the order of the chain, for each valid
    endorser transaction that wrote the key its id, the value, the time and
    whether it was a deletion, and nothing else.  The transactions have one
    read-write set for each namespace, and no other key of the namespace
    extends the key by a NUL byte. *)
Theorem history_of_key {S : Type} `{LevelDBSpec S} `{ProtoCodec} `{RWSetCodec} (h : DBHandle S) bs
    (Retrieve : Z -> Z -> res Envelope) ns key :
  handle_ok h -> (forall k, handle_view h k = None) ->
  (forall i b, bs !! i = Some b -> hist_block i b) -> trans_ok bs ->
  (forall b t e, b ∈ bs -> blk_Data b !! t = Some e ->
     Retrieve (Number (blk_Header b)) (Z.of_nat t) = GetEnvelopeFromBlock e) ->
  ns_ok ns -> unconfused ns key bs ->
  exists h' sc, commit_blocks h bs = Ok h' /\ GetHistoryForKey true h' ns key = Ok sc /\
    scan_all Retrieve (Datatypes.S (length (chain_hits ns key bs))) sc = Ok (snd <$> chain_hits ns key bs).
Proof.
  intros Hh He Hb Ht Hr Hns Hc. destruct (commit_blocks_inv h bs Hh He Hb) as (h' & E & I).
  destruct (history_ok h' bs ns key I Hb Ht Hns Hc Retrieve Hr) as (sc & Es & El).
  exists h', sc. split; [done|]. split; [done|exact El].
Qed.

Definition w_tx (id key value : string) : bytes :=
  rwset_tx id [mkNsRwSet "cc" (mkKVRWSet [] [] [mkKVWrite key false (Some (to_bytes value))])].

Definition w_blk (n : Z) (txs : list bytes) (flags : list Z) : Block :=
  mkBlock (mkBlockHeader n [] []) txs [[]; []; uint8 <$> flags].

Definition w_chain : list Block :=
  [w_blk 0 [w_tx "t0" "a" "v0"; w_tx "t1" "b" "v1"] [0; 0];
   w_blk 1 [w_tx "t2" "a" "v2"; w_tx "t3" "a" "v3"] [11; 0]].

Definition w_retrieve (b t : Z) : res Envelope :=
  match w_chain !! Z.to_nat b with
  | Some blk => match blk_Data blk !! Z.to_nat t with
                | Some e => GetEnvelopeFromBlock e | None => Err "not found" end
  | None => Err "not found"
  end.

Definition w_hist : DBHandle MemStore.MemStore := mkDBHandle "ch" ∅.

(** The conditions on a chain, decided. *)
Definition tran_ok_b (e : bytes) : bool :=
  match parse_tran e with
  | Ok (Some (_, sets)) =>
      bool_decide (NoDup (NameSpace <$> sets)) && forallb (fun s => bool_decide (ns_ok (NameSpace s))) sets
  | _ => true
  end.

Definition hist_block_b (i : nat) (b : Block) : bool :=
  (Number (blk_Header b) =? Z.of_nat i) && (Z.of_nat i <? 2 ^ 63) &&
  (Z.of_nat (length (blk_Data b)) <? 2 ^ 63) &&
  match block_filter b with
  | Ok f => (length (blk_Data b) <=? length f)%nat &&
            forallb (fun e => match parse_tran e with Ok _ => true | _ => false end) (blk_Data b)
  | _ => false
  end.

Definition unconfused_b (ns key : string) (b : Block) : bool :=
  forallb (fun e => match parse_tran e with
    | Ok (Some (_, sets)) => forallb (fun p => bool_decide (p.2 = key \/
        ~ (to_bytes key ++ [NUL]) `prefix_of` (to_bytes p.2 ++ [NUL]) /\
        ~ (to_bytes p.2 ++ [NUL]) `prefix_of` (to_bytes key ++ [NUL]))) (set_keys sets)
    | _ => true end) (blk_Data b).

Lemma forallb_elem {A} (f : A -> bool) l x : forallb f l = true -> x ∈ l -> f x = true.
Proof. rewrite forallb_forall. intros Hf Hx. apply Hf. by apply list_elem_of_In. Qed.

Lemma tran_ok_b_ok e : tran_ok_b e = true -> tran_ok e.
Proof.
  unfold tran_ok_b. intros Hb chdr sets Ep. rewrite Ep in Hb. apply andb_true_iff in Hb as [Hn Hs].
  apply bool_decide_eq_true in Hn. split; [done|]. apply Forall_forall. intros s Hin.
  apply (forallb_elem _ _ _ Hs) in Hin. by apply bool_decide_eq_true in Hin.
Qed.

Lemma hist_block_b_ok i b : hist_block_b i b = true -> hist_block i b.
Proof.
  unfold hist_block_b. rewrite !andb_true_iff, Z.eqb_eq, !Z.ltb_lt.
  intros [[[Hn Hi] Hl] Hf]. split; try done. destruct (block_filter b) as [f| | |]; try done.
  exists f. split; [done|]. apply andb_true_iff in Hf as [Hlen Hp]. apply Nat.leb_le in Hlen.
  intros j e Hj. pose proof (lookup_lt_Some _ _ _ Hj). split; [lia|]. intros _.
  apply list_elem_of_lookup_2 in Hj. apply (forallb_elem _ _ _ Hp) in Hj. by destruct (parse_tran e).
Qed.

Lemma unconfused_b_ok ns key bs : forallb (unconfused_b ns key) bs = true -> unconfused ns key bs.
Proof.
  intros Hall b f t e chdr sets key' Hb _ Ht _ Ep Hk Hne Hp.
  apply (forallb_elem _ _ _ Hall) in Hb. apply list_elem_of_lookup_2 in Ht.
  unfold unconfused_b in Hb. apply (forallb_elem _ _ _ Hb) in Ht. rewrite Ep in Ht.
  apply (forallb_elem _ _ _ Ht) in Hk. apply bool_decide_eq_true in Hk as [Hk|[Hk1 Hk2]]; [done|].
  unfold hkey in Hp. rewrite !partial_ns, <- app_assoc in Hp. apply prefix_app_inv in Hp.
  cbn in Hp. apply prefix_cons_inv_2 in Hp.
  destruct (prefix_weak_total (to_bytes key ++ [NUL]) (to_bytes key' ++ [NUL])
    ((to_bytes key' ++ [NUL]) ++ height_bytes (NewHeight (Number (blk_Header b)) (Z.of_nat t))));
    [done|by apply prefix_app_r|by apply Hk1|by apply Hk2].
Qed.

Lemma w_chain_ok :
  (forall i b, w_chain !! i = Some b -> hist_block i b) /\ trans_ok w_chain /\
  (forall b t e, b ∈ w_chain -> blk_Data b !! t = Some e ->
     w_retrieve (Number (blk_Header b)) (Z.of_nat t) = GetEnvelopeFromBlock e) /\
  unconfused "cc" "a" w_chain.
Proof.
  split; [|split; [|split]].
  - intros i b Hi. apply hist_block_b_ok.
    destruct i as [|[|i]]; [..|by destruct i]; injection Hi as <-; by vm_compute.
  - intros b e Hb He. apply tran_ok_b_ok. revert e He. apply Forall_forall. revert b Hb.
    apply Forall_forall. repeat constructor; by vm_compute.
  - intros b t e Hb Ht. unfold w_retrieve.
    assert (w_chain !! Z.to_nat (Number (blk_Header b)) = Some b) as ->.
    { clear Ht. revert b Hb. apply Forall_forall. repeat constructor. }
    by rewrite Nat2Z.id, Ht.
  - apply unconfused_b_ok. by vm_compute.
Qed.

Lemma history_of_key_witness :
  exists h' sc, commit_blocks w_hist w_chain = Ok h' /\ GetHistoryForKey true h' "cc" "a" = Ok sc /\
    scan_all w_retrieve 3 sc =
    Ok [mkKeyModification "t0" (Some (to_bytes "v0")) 0 false;
        mkKeyModification "t3" (Some (to_bytes "v3")) 0 false].
Proof.
  destruct w_chain_ok as (H1 & H2 & H3 & H4).
  destruct (history_of_key w_hist w_chain w_retrieve "cc" "a") as (h' & sc & E1 & E2 & E3);
    [split; [by apply (bool_decide_unpack _); vm_compute|done]|done|exact H1|exact H2|exact H3|
     by apply (bool_decide_unpack _); vm_compute|exact H4|].
  assert (chain_hits "cc" "a" w_chain =
    [(NewHeight 0 0, mkKeyModification "t0" (Some (to_bytes "v0")) 0 false);
     (NewHeight 1 1, mkKeyModification "t3" (Some (to_bytes "v3")) 0 false)]) as Eh by (by vm_compute).
  rewrite Eh in E3. exists h', sc. split; [exact E1|]. split; [exact E2|exact E3].
Defined.

(** A chaincode that uses the key [a] and also a composite key of the type [a]
    makes every query for the history of [a] panic. *)
Example composite_key_history_panics :
  let k := String.string_of_list_ascii (to_bytes "a" ++ [NUL] ++ to_bytes "z" ++ [NUL]) in
  let bs := [w_blk 0 [w_tx "t0" "a" "v0"; w_tx "t1" k "v1"] [0; 0]] in
  (h ← commit_blocks w_hist bs; sc ← GetHistoryForKey true h "cc" "a";
   '(_, sc) ← scanner_Next (fun b t => w_retrieve b t) sc;
   '(_, sc) ← scanner_Next (fun b t => w_retrieve b t) sc; Ok tt) =
  Panic "slice bounds out of range".
Proof. by vm_compute. Qed.

End HistoryTheorems.
