(* ===== verification/KVLedger.v ===== *)
(** * The ledger of a channel

    core/ledger/kvledger: a ledger is a block store, a state database behind
    the transaction manager, and a history database.  The block store is
    written first; after a crash the databases are brought up to it by
    recommitting the blocks they miss.  The block store is used through an
    interface, [BlockStore] and [BlockStoreSpec], which the store on the file
    system implements. *)

From stdpp Require Import base gmap strings list.
From Stdlib Require Import Ascii ZArith Lia.
From S2P Require Import Prelude Version StateDB LevelDB RWSet Merkle Proto Instances Validator TxMgr.
From S2P Require Import Serializability BlockMgr History.
Import RWSetUtil Provider Flags ProtoUtils Height BlockMgr.
Local Open Scope Z_scope.

(** ** The block store, as the ledger sees it: common/ledger/blkstorage/blockstorage.go *)

Class BlockStore (B : Type) := {
  AddBlock : Block -> ST B unit;
  GetBlockchainInfo : B -> BlockchainInfo;
  RetrieveBlocks : B -> Z -> blocksItr;
  RetrieveBlockByHash : B -> bytes -> res Block;
  RetrieveBlockByNumber : B -> Z -> res Block;
  RetrieveTxByID : B -> string -> res Envelope;
  RetrieveTxByBlockNumTranNum : B -> Z -> Z -> res Envelope;
  RetrieveBlockByTxID : B -> string -> res Block;
  RetrieveTxValidationCodeByTxID : B -> string -> res Z
}.

(** What it promises about the chain that it holds.  [reopened s s']: [s'] is
    the store [s] opened again; [after_crash b s s']: [s'] is the store opened
    again after the process died while [b] was being added to [s]. *)
Class ChainStoreSpec (B : Type) `{BlockStore B} := {
  holds : B -> list Block -> Prop;
  reopened : B -> B -> Prop;
  after_crash : Block -> B -> B -> Prop;
  holds_len s bs : holds s bs -> Z.of_nat (length bs) < 2 ^ 62;
  GetBlockchainInfo_spec s bs : holds s bs -> BlockMgr.Height (GetBlockchainInfo s) = Z.of_nat (length bs);
  RetrieveBlockByNumber_spec s bs k b : holds s bs -> bs !! k = Some b ->
    RetrieveBlockByNumber s (Z.of_nat k) = Ok b;
  reopened_spec s bs s' : holds s bs -> reopened s s' -> holds s' bs
}.

(** What a ledger relies on.  [admits s bs b]: the block [b] can be stored after
    the chain [bs]. *)
Class BlockStoreSpec (B : Type) `{BlockStore B} `{ProtoCodec} := {
  ledger_chain :: ChainStoreSpec B;
  admits : B -> list Block -> Block -> Prop;
  RetrieveTx_spec s bs k b j tx : holds s bs -> bs !! k = Some b -> blk_Data b !! j = Some tx ->
    RetrieveTxByBlockNumTranNum s (Z.of_nat k) (Z.of_nat j) = GetEnvelopeFromBlock tx;
  AddBlock_spec s bs b : holds s bs -> admits s bs b -> Number (blk_Header b) = Z.of_nat (length bs) ->
    exists s', AddBlock b s = (s', Ok tt) /\ holds s' (bs ++ [b]);
  after_crash_spec s bs b s' : holds s bs -> admits s bs b -> Number (blk_Header b) = Z.of_nat (length bs) ->
    after_crash b s s' -> holds s' bs \/ holds s' (bs ++ [b])
}.

(** What an orderer relies on: a block that the store took is the end of its
    chain.  The store may refuse a block.  [limits s]: the sizes of the files of
    [s] are within the integers of the machine; [sized s b]: so are those of
    [s] and of the block. *)
Class OrdererStoreSpec (B : Type) `{BlockStore B} := {
  orderer_chain :: ChainStoreSpec B;
  limits : B -> Prop;
  sized : B -> Block -> Prop;
  AddBlock_took s bs b s' : holds s bs -> bs <> [] -> Z.of_nat (length bs) < 2 ^ 61 ->
    Number (blk_Header b) = Z.of_nat (length bs) -> AddBlock b s = (s', Ok tt) -> limits s' ->
    holds s' (bs ++ [b]);
  AddBlock_limits s b s' : AddBlock b s = (s', Ok tt) -> limits s' -> limits s;
  after_crash_took s bs b s' : holds s bs -> bs <> [] -> Z.of_nat (length bs) < 2 ^ 61 ->
    Number (blk_Header b) = Z.of_nat (length bs) -> sized s b -> after_crash b s s' ->
    holds s' bs \/ holds s' (bs ++ [b])
}.

(** ** kv_ledger.go *)

Module KVLedger.
Section KVLedger.
Context {DB : Type} `{VersionedDB DB} `{Merkle.Hashing} `{RWSetCodec} `{ProtoCodec}.
Context {S : Type} `{LevelDB S} {B : Type} `{BlockStore B}.

(** [ledgerconfig.IsHistoryDBEnabled()] *)
Context (IsHistoryDBEnabled : bool).

Record kvLedger := mkKVLedger {
  ledgerID : string;
  blockStore : B;
  txtmgmt : TxMgr.LockBasedTxMgr DB;
  historyDB : DBHandle S
}.

Definition set_blockStore (l : kvLedger) (s : B) : kvLedger :=
  mkKVLedger (ledgerID l) s (txtmgmt l) (historyDB l).
Definition set_txtmgmt (l : kvLedger) (m : TxMgr.LockBasedTxMgr DB) : kvLedger :=
  mkKVLedger (ledgerID l) (blockStore l) m (historyDB l).
Definition set_historyDB (l : kvLedger) (h : DBHandle S) : kvLedger :=
  mkKVLedger (ledgerID l) (blockStore l) (txtmgmt l) h.

(** [recoverable]: the transaction manager or the history database *)
Inductive recoverable := RTxMgr | RHistory.

#[export] Instance recoverable_eq_dec : EqDecision recoverable.
Proof. solve_decision. Defined.

Record recoverer := mkRecoverer { firstBlockNum : Z; rec_recoverable : recoverable }.

Definition ShouldRecover (r : recoverable) (l : kvLedger) (lastAvailableBlock : Z) : res (bool * Z) :=
  match r with
  | RTxMgr => TxMgr.ShouldRecover (txtmgmt l) lastAvailableBlock
  | RHistory => HistoryDB.ShouldRecover IsHistoryDBEnabled (historyDB l) lastAvailableBlock
  end.

Definition CommitLostBlock (r : recoverable) (block : Block) : ST kvLedger unit := fun l =>
  match r with
  | RTxMgr => let '(m, r) := TxMgr.CommitLostBlock block (txtmgmt l) in (set_txtmgmt l m, r)
  | RHistory =>
      match HistoryDB.CommitLostBlock block (historyDB l) with
      | Ok h => (set_historyDB l h, Ok tt)
      | Err e => (l, Err e)
      | Panic p => (l, Panic p)
      | OutOfFuel => (l, OutOfFuel)
      end
  end.

Definition GetBlockByNumber (l : kvLedger) (blockNumber : Z) : res Block :=
  RetrieveBlockByNumber (blockStore l) blockNumber.

Fixpoint commit_lost (rs : list recoverable) (block : Block) : ST kvLedger unit :=
  match rs with
  | [] => mret tt
  | r :: rs' => CommitLostBlock r block;; commit_lost rs' block
  end.

Fixpoint recommit_loop (fuel : nat) (blockNumber lastBlockNum : Z) (rs : list recoverable) :
    ST kvLedger unit :=
  if negb (blockNumber <=? lastBlockNum) then mret tt
  else
    match fuel with
    | O => st_lift OutOfFuel
    | Datatypes.S fuel' =>
        l ← st_get;
        block ← st_lift (GetBlockByNumber l blockNumber);
        commit_lost rs block;;
        recommit_loop fuel' (wrap64 (blockNumber + 1)) lastBlockNum rs
    end.

Definition recommitLostBlocks (firstBlockNum lastBlockNum : Z) (rs : list recoverable) :
    ST kvLedger unit :=
  recommit_loop (Z.to_nat (lastBlockNum + 1 - firstBlockNum)) firstBlockNum lastBlockNum rs.

(** The databases that are behind, with the first block they miss. *)
Fixpoint find_recoverers (l : kvLedger) (lastAvailableBlockNum : Z) (rs : list recoverable) :
    res (list recoverer) :=
  match rs with
  | [] => Ok []
  | r :: rs' =>
      '(recoverFlag, firstBlockNum) ← ShouldRecover r l lastAvailableBlockNum;
      l' ← find_recoverers l lastAvailableBlockNum rs';
      Ok (if recoverFlag : bool then mkRecoverer firstBlockNum r :: l' else l')
  end.

Definition recoverDBs : ST kvLedger unit :=
  l ← st_get;
  let info := GetBlockchainInfo (blockStore l) in
  if BlockMgr.Height info =? 0 then mret tt
  else
    let lastAvailableBlockNum := wrap64 (BlockMgr.Height info - 1) in
    recoverers ← st_lift (find_recoverers l lastAvailableBlockNum [RTxMgr; RHistory]);
    match recoverers with
    | [] => mret tt
    | [r] => recommitLostBlocks (firstBlockNum r) lastAvailableBlockNum [rec_recoverable r]
    | r0 :: r1 :: _ =>
        let '(r0, r1) := if firstBlockNum r1 <? firstBlockNum r0 then (r1, r0) else (r0, r1) in
        (if negb (firstBlockNum r0 =? firstBlockNum r1)
         then recommitLostBlocks (firstBlockNum r0) (wrap64 (firstBlockNum r1 - 1)) [rec_recoverable r0]
         else mret tt);;
        recommitLostBlocks (firstBlockNum r1) lastAvailableBlockNum [rec_recoverable r0; rec_recoverable r1]
    end.

Definition newKVLedger (ledgerID : string) (blockStore : B) (versionedDB : DB) (historyDB : DBHandle S) :
    kvLedger * res unit :=
  let l := mkKVLedger ledgerID blockStore (TxMgr.NewLockBasedTxMgr versionedDB) historyDB in
  match recoverDBs l with
  | (l, Err e) => (l, Panic ("Error during state DB recovery:" +:+ e))
  | r => r
  end.

Record ProcessedTransaction := mkProcessedTransaction {
  TransactionEnvelope : Envelope;
  ValidationCode : Z
}.

Definition GetTransactionByID (l : kvLedger) (txID : string) : res ProcessedTransaction :=
  tranEnv ← RetrieveTxByID (blockStore l) txID;
  txVResult ← RetrieveTxValidationCodeByTxID (blockStore l) txID;
  Ok (mkProcessedTransaction tranEnv txVResult).

Definition ledger_GetBlockchainInfo (l : kvLedger) : BlockchainInfo := GetBlockchainInfo (blockStore l).
Definition GetBlocksIterator (l : kvLedger) (startBlockNumber : Z) : blocksItr :=
  RetrieveBlocks (blockStore l) startBlockNumber.
Definition GetBlockByHash (l : kvLedger) (blockHash : bytes) : res Block :=
  RetrieveBlockByHash (blockStore l) blockHash.
Definition GetBlockByTxID (l : kvLedger) (txID : string) : res Block :=
  RetrieveBlockByTxID (blockStore l) txID.
Definition GetTxValidationCodeByTxID (l : kvLedger) (txID : string) : res Z :=
  RetrieveTxValidationCodeByTxID (blockStore l) txID.

(** The history of a key; the query executor reads the ledger's block store. *)
Definition GetHistoryForKey (l : kvLedger) (namespace key : string) : res HistoryDB.historyScanner :=
  HistoryDB.GetHistoryForKey IsHistoryDBEnabled (historyDB l) namespace key.
Definition history_Next (l : kvLedger) (sc : HistoryDB.historyScanner) :=
  HistoryDB.scanner_Next (RetrieveTxByBlockNumTranNum (blockStore l)) sc.

(** The block that is stored carries the flags the validation set. *)
Definition Commit (block : Block) : ST kvLedger unit := fun l =>
  let '(m, block, r) := TxMgr.ValidateAndPrepare (txtmgmt l) block true in
  let l := set_txtmgmt l m in
  match r with
  | Ok _ =>
      let '(s, r) := AddBlock block (blockStore l) in
      let l := set_blockStore l s in
      match r with
      | Ok _ =>
          let '(m, r) := TxMgr.Commit (txtmgmt l) in
          let l := set_txtmgmt l m in
          match r with
          | Ok _ =>
              if IsHistoryDBEnabled then
                match HistoryDB.Commit block (historyDB l) with
                | Ok h => (set_historyDB l h, Ok tt)
                | Err e => (l, Panic ("Error during commit to history db:" +:+ e))
                | Panic p => (l, Panic p)
                | OutOfFuel => (l, OutOfFuel)
                end
              else (l, Ok tt)
          | Err e => (l, Panic ("Error during commit to txmgr:" +:+ e))
          | r => (l, r)
          end
      | r => (l, r)
      end
  | r => (l, r)
  end.

End KVLedger.
End KVLedger.

(** ** What the ledger keeps *)

Module LedgerFacts.
Import KVLedger HistoryFacts.
Section Facts.
Context {DB : Type} `{VersionedDBSpec DB} `{Merkle.Hashing} `{RWSetCodec} `{ProtoCodec}.
Context {S : Type} `{LevelDBSpec S} {B : Type} `{!BlockStore B} `{!BlockStoreSpec B}.

(** The empty state database the ledger starts from. *)
Context (db0 : DB) (Hdb0 : db_ok db0) (Hsp0 : savepoint db0 = None).

Definition block_sp (b : Block) : Height.Height :=
  NewHeight (Number (blk_Header b)) (TxMgr.last_tx_num b).

(** Recommitting a block to a state. *)
Definition replay_block (d : DB) (b : Block) : res DB :=
  match Validator.ValidateAndPrepareBatch d b false with
  | (_, Ok u) => ApplyUpdates d u (block_sp b)
  | (_, Err e) => Err e
  | (_, Panic p) => Panic p
  | (_, OutOfFuel) => OutOfFuel
  end.

Definition replay (bs : list Block) : res DB := foldM replay_block db0 bs.

(** The blocks of a ledger: numbered, with flags, within the limits, written by
    chaincodes with proper names. *)
Record ledger_block (i : nat) (b : Block) : Prop := {
  lb_number : Number (blk_Header b) = Z.of_nat i;
  lb_u64 : Z.of_nat i < 2 ^ 63;
  lb_len : Z.of_nat (length (blk_Data b)) < 2 ^ 63;
  lb_names env rw s : env ∈ blk_Data b -> Validator.rwset_of env = Ok rw -> s ∈ rw -> ns_ok (NameSpace s)
}.

Definition ledger_blocks (bs : list Block) : Prop := forall i b, bs !! i = Some b -> ledger_block i b.

(** *** A validated block has been parsed *)

Lemma parse_tran_type e :
  parse_tran e = (t ← Validator.envelope_type e;
                  if decide (t = ENDORSER_TRANSACTION) then
                    chdr ← (env ← GetEnvelopeFromBlock e; p ← GetPayload env;
                            cb ← payload_ChannelHeader p; UnmarshalChannelHeader cb);
                    rw ← Validator.rwset_of e; Ok (Some (chdr, rw))
                  else Ok None).
Proof.
  unfold parse_tran, Validator.envelope_type, Validator.rwset_of.
  destruct (GetEnvelopeFromBlock e) as [env| | |]; cbn [mbind res_bind]; try done.
  destruct (GetPayload env) as [p| | |]; cbn [mbind res_bind]; try done.
  destruct (payload_ChannelHeader p) as [cb| | |]; cbn [mbind res_bind]; try done.
  destruct (UnmarshalChannelHeader cb) as [ch| | |]; cbn [mbind res_bind]; try done.
  case_decide; [|done]. destruct (GetActionFromEnvelope e) as [ca| | |]; done.
Qed.

Lemma valid_parses cur number i env f u f1 u1 c :
  Validator.tx_outcome cur number i env f u f1 u1 -> f1 !! i = Some c -> byte_val c = 0 ->
  is_ok (parse_tran env).
Proof.
  intros Ht Hc Hv. rewrite parse_tran_type.
  destruct Ht as [b E Hb|b t E Hb Et Hne|b c' e E _ _ _ Hc'|b c' rw E _ _ _ _ Hc'|b rw u' E _ Et Er _ _].
  - rewrite Hc in E. injection E as ->. done.
  - rewrite Et. cbn. by rewrite decide_False.
  - rewrite list_lookup_insert_eq in Hc by (by eapply lookup_lt_Some). injection Hc as <-.
    rewrite byte_val_uint8 in Hv. by repeat (apply elem_of_cons in Hc' as [->|Hc']); [..|apply elem_of_nil in Hc'].
  - rewrite list_lookup_insert_eq in Hc by (by eapply lookup_lt_Some). injection Hc as <-.
    rewrite byte_val_uint8 in Hv. by repeat (apply elem_of_cons in Hc' as [->|Hc']); [..|apply elem_of_nil in Hc'].
  - rewrite Et. cbn. rewrite Er. unfold Validator.envelope_type in Et.
    destruct (GetEnvelopeFromBlock env) as [e'| | |]; cbn [mbind res_bind] in *; try done.
    destruct (GetPayload e') as [p| | |]; cbn [mbind res_bind] in *; try done.
    destruct (payload_ChannelHeader p) as [cb| | |]; cbn [mbind res_bind] in *; try done.
    by destruct (UnmarshalChannelHeader cb).
Qed.

Lemma validated_hist_block i d b mvcc b' u :
  ledger_block i b -> Validator.ValidateAndPrepareBatch d b mvcc = (b', Ok u) ->
  hist_block i b' /\ ledger_block i b'.
Proof.
  intros L E. apply Validator.ValidateAndPrepareBatch_outcome in E as (f & f' & -> & Hmd & Hb).
  destruct L as [Ln Lu Ll Lnames]. split; [|by split].
  split; [done..|]. pose proof (Validator.block_outcome_flags _ _ _ _ _ _ _ _ Hb) as (Hlf & Hd & _).
  unfold HistoryDB.block_filter. rewrite Validator.set_filter_lookup by done.
  eexists. split; [reflexivity|]. cbn [Validator.set_filter blk_Data].
  intros j e Hj. rewrite Nat.add_0_l. pose proof (lookup_lt_Some _ _ _ Hj) as Hlt.
  assert (length (blk_Data b) <= length f')%nat as Hlen.
  { rewrite Hlf. apply Hd. by destruct (blk_Data b). }
  rewrite (proj2 (Nat.eqb_neq _ _)) by lia. split; [lia|]. unfold valid_at.
  destruct (f' !! j) as [c|] eqn:Hc; [|done]. rewrite Z.eqb_eq. intros Hv.
  destruct (Validator.block_outcome_step _ _ _ _ _ _ _ _ _ _ Hb Hj) as (f0 & u0 & f1 & u1 & _ & Ht & Ef & _).
  rewrite Nat.add_0_l in *. eapply valid_parses; [exact Ht| |exact Hv]. by rewrite Ef.
Qed.

(** *** The state after a block *)

Lemma prepared_commits i d b mvcc b' u :
  ledger_block i b -> db_ok d -> Validator.ValidateAndPrepareBatch d b mvcc = (b', Ok u) ->
  block_sp b' = block_sp b /\ replay_block d b' = ApplyUpdates d u (block_sp b) /\
  exists d', ApplyUpdates d u (block_sp b) = Ok d' /\ db_ok d' /\ savepoint d' = Some (block_sp b).
Proof.
  intros L Hd E. pose proof E as E2.
  apply Validator.ValidateAndPrepareBatch_outcome in E as (f & f' & Eb & Hmd & Hb).
  assert (block_sp b' = block_sp b) as Esp by (by rewrite Eb). split; [done|]. split.
  { unfold replay_block. by rewrite (Validator.replay_batch d d b mvcc b' u E2), Esp. }
  destruct L as [Ln Lu Ll Lnames].
  destruct (ApplyUpdates_spec d u (block_sp b) Hd) as (d' & Ea & Hok & Hsp & _).
  - eapply Chain.block_outcome_batch_ok; [exact Hb|..]; try done.
    + by split; [intros ns [? ?]|].
    + unfold u64. rewrite Ln. lia.
    + unfold u64. cbn. lia.
  - split; [unfold u64; cbn; rewrite Ln; lia|apply wrap64_u64].
  - by exists d'.
Qed.

Lemma replay_snoc bs b : replay (bs ++ [b]) = (d ← replay bs; replay_block d b).
Proof.
  unfold replay. rewrite foldM_app. destruct (foldM _ _ bs); [|done..]. cbn [mbind res_bind foldM].
  by destruct (replay_block _ b).
Qed.

Lemma replay_inv bs d :
  ledger_blocks bs -> replay bs = Ok d -> db_ok d /\ savepoint d = block_sp <$> last bs.
Proof.
  revert d. induction bs as [|b bs IH] using rev_ind; intros d Hb Hr.
  { injection Hr as <-. done. }
  rewrite replay_snoc in Hr. apply res_bind_Ok in Hr as (d1 & Hr1 & Hr).
  destruct (IH d1) as [Hok _]; [|done|].
  { intros i x Hi. apply Hb. by apply lookup_app_l_Some. }
  rewrite last_snoc. unfold replay_block in Hr.
  destruct (Validator.ValidateAndPrepareBatch d1 b false) as [b' [u| | |]] eqn:E; try done.
  destruct (prepared_commits (length bs) d1 b false b' u) as (_ & _ & d' & Ea & Hok' & Hsp); [|done|done|].
  { apply Hb. by apply list_lookup_middle. }
  rewrite Ea in Hr. by injection Hr as <-.
Qed.

Lemma replay_take bs d j : replay bs = Ok d -> is_ok (replay (take j bs)).
Proof.
  revert d. induction bs as [|b bs IH] using rev_ind; intros d Hr; [by rewrite take_nil, Hr|].
  rewrite replay_snoc in Hr. apply res_bind_Ok in Hr as (d1 & Hr1 & Hr2).
  destruct (decide (j <= length bs)%nat).
  - rewrite take_app_le by done. by eapply IH.
  - rewrite take_ge by (rewrite length_app; cbn; lia). by rewrite replay_snoc, Hr1, res_ret_bind, Hr2.
Qed.

(** *** A ledger, with its databases at some block *)

Definition hist_at (h : DBHandle S) (bs : list Block) : Prop :=
  hist_inv h bs /\ (forall i b, bs !! i = Some b -> hist_block i b).

(** The databases have the blocks before [pos]. *)
Record lag (l : @kvLedger DB S B) (bs : list Block) (pos : recoverable -> nat) : Prop := {
  lag_store : holds (blockStore l) bs;
  lag_blocks : ledger_blocks bs;
  lag_hist_blocks i b : bs !! i = Some b -> hist_block i b;
  lag_replay : is_ok (replay bs);
  lag_pos r : (pos r <= length bs)%nat;
  lag_state : replay (take (pos RTxMgr) bs) = Ok (TxMgr.db (txtmgmt l));
  lag_hist : hist_inv (historyDB l) (take (pos RHistory) bs)
}.

Definition in_sync (l : kvLedger) (bs : list Block) : Prop := lag l bs (fun _ => length bs).

Definition move_pos (pos : recoverable -> nat) (rs : list recoverable) (n : nat) : recoverable -> nat :=
  fun r => if decide (r ∈ rs) then n else pos r.

Lemma commit_lost_one l bs pos r b :
  lag l bs pos -> bs !! pos r = Some b ->
  exists l', CommitLostBlock r b l = (l', Ok tt) /\ blockStore l' = blockStore l /\
    lag l' bs (move_pos pos [r] (Datatypes.S (pos r))).
Proof.
  intros [Ls Lb Lh Lr Lp Lst Lhi] Hb. pose proof (lookup_lt_Some _ _ _ Hb) as Hlt.
  assert (forall n, (forall r', (move_pos pos [r] (Datatypes.S n) r' <= Nat.max (Datatypes.S n) (pos r'))%nat)) as Hm.
  { intros n r'. unfold move_pos. case_decide; lia. }
  assert (forall r', (move_pos pos [r] (Datatypes.S (pos r)) r' <= length bs)%nat) as Hp.
  { intros r'. pose proof (Hm (pos r) r'). pose proof (Lp r'). lia. }
  destruct r; unfold CommitLostBlock.
  - apply is_ok_iff in Lr as [dn Edn]. pose proof (replay_take _ _ (Datatypes.S (pos RTxMgr)) Edn) as Hok.
    rewrite (take_S_r _ _ _ Hb) in Hok. rewrite replay_snoc, Lst, res_ret_bind in Hok.
    apply is_ok_iff in Hok as [d' Ed']. unfold TxMgr.CommitLostBlock, TxMgr.ValidateAndPrepare.
    unfold replay_block in Ed'.
    destruct (Validator.ValidateAndPrepareBatch (TxMgr.db (txtmgmt l)) b false) as [b' [u| | |]] eqn:E; try done.
    unfold TxMgr.Commit. cbn [TxMgr.batch TxMgr.currentBlock TxMgr.db].
    destruct (Validator.ValidateAndPrepareBatch_outcome _ _ _ _ _ E) as (f & f' & Eb & _).
    assert (NewHeight (Number (blk_Header b')) (TxMgr.last_tx_num b') = block_sp b) as -> by (by rewrite Eb).
    rewrite Ed'. eexists. split; [reflexivity|]. split; [done|].
    split; [done|done|done|apply is_ok_iff; eauto|done| |]; cbn [set_txtmgmt txtmgmt historyDB TxMgr.db].
    + unfold move_pos. rewrite decide_True by (by left). cbn.
      rewrite (take_S_r _ _ _ Hb), replay_snoc, Lst, res_ret_bind. unfold replay_block. by rewrite E.
    + unfold move_pos. rewrite decide_False by (by intros [?|?%elem_of_nil]%elem_of_cons). done.
  - destruct (hist_commit (historyDB l) (take (pos RHistory) bs) b Lhi) as (h' & Eh & I & _).
    { rewrite length_take_le by lia. by apply Lh. }
    unfold HistoryDB.CommitLostBlock. rewrite Eh. eexists. split; [reflexivity|]. split; [done|].
    split; [done|done|done|done|done| |]; cbn [set_historyDB txtmgmt historyDB].
    + unfold move_pos. rewrite decide_False by (by intros [?|?%elem_of_nil]%elem_of_cons). done.
    + unfold move_pos. rewrite decide_True by (by left). cbn. by rewrite (take_S_r _ _ _ Hb).
Qed.

Lemma lag_ext l bs pos pos' : (forall r, pos r = pos' r) -> lag l bs pos -> lag l bs pos'.
Proof.
  intros E [Ls Lb Lh Lr Lp Lst Lhi]. split; try done; rewrite <- ?E; try done.
  intros r. rewrite <- E. apply Lp.
Qed.

Lemma commit_lost_ok l bs pos rs k b :
  lag l bs pos -> NoDup rs -> (forall r, r ∈ rs -> pos r = k) -> bs !! k = Some b ->
  exists l', commit_lost rs b l = (l', Ok tt) /\ blockStore l' = blockStore l /\
    lag l' bs (move_pos pos rs (Datatypes.S k)).
Proof.
  revert l pos. induction rs as [|r rs IH]; intros l pos L Hnd Hk Hb.
  { exists l. split; [done|]. split; [done|]. eapply lag_ext; [|exact L]. intros r. unfold move_pos.
    rewrite decide_False; [done|apply not_elem_of_nil]. }
  apply NoDup_cons in Hnd as [Hni Hnd]. assert (pos r = k) as Er by (apply Hk; by left). subst k.
  destruct (commit_lost_one l bs pos r b L Hb) as (l1 & E1 & Es1 & L1).
  destruct (IH l1 _ L1 Hnd) as (l2 & E2 & Es2 & L2).
  - intros r' Hr'. unfold move_pos. rewrite decide_False; [apply Hk; by right|].
    intros [->|?%elem_of_nil]%elem_of_cons; done.
  - done.
  - exists l2. cbn [commit_lost]. rewrite (st_bind_Ok _ _ _ _ _ E1). split; [done|]. split; [congruence|].
    eapply lag_ext; [|exact L2]. intros r'. unfold move_pos.
    destruct (decide (r' ∈ rs)) as [Hin|Hn2].
    + rewrite decide_True; [done|by right].
    + destruct (decide (r' = r)) as [->|Hne].
      * rewrite !decide_True; [done|by left|by left].
      * rewrite !decide_False; [done|by rewrite elem_of_cons; intros [?|?]|].
        by rewrite list_elem_of_singleton.
Qed.

Lemma recommit_loop_ok fuel l bs pos rs k n :
  lag l bs pos -> NoDup rs -> (forall r, r ∈ rs -> pos r = k) -> (k <= n <= length bs)%nat ->
  (n - k <= fuel)%nat ->
  exists l', recommit_loop fuel (Z.of_nat k) (Z.of_nat n - 1) rs l = (l', Ok tt) /\
    blockStore l' = blockStore l /\ lag l' bs (move_pos pos rs n).
Proof.
  revert l pos k. induction fuel as [|fuel IH]; intros l pos k L Hnd Hk Hn Hf; cbn [recommit_loop].
  1: assert (k = n) as -> by lia.
  2: destruct (decide (k = n)) as [->|Hne].
  1, 2: rewrite (proj2 (Z.leb_gt _ _)) by lia; exists l; split; [done|]; split; [done|];
    eapply lag_ext; [|exact L]; intros r; unfold move_pos; case_decide; auto.
  rewrite (proj2 (Z.leb_le _ _)) by lia. cbn [negb].
  rewrite (st_bind_Ok _ _ l l l eq_refl). destruct (lookup_lt_is_Some_2 bs k) as [b Hb]; [lia|].
  unfold GetBlockByNumber. rewrite (RetrieveBlockByNumber_spec _ bs k b (lag_store _ _ _ L) Hb).
  rewrite (st_bind_Ok _ _ l l b eq_refl).
  destruct (commit_lost_ok l bs pos rs k b L Hnd Hk Hb) as (l1 & E1 & Es1 & L1).
  rewrite (st_bind_Ok _ _ _ _ _ E1). pose proof (holds_len _ _ (lag_store _ _ _ L)).
  assert (wrap64 (Z.of_nat k + 1) = Z.of_nat (Datatypes.S k)) as ->.
  { rewrite wrap64_small by (unfold u64; lia). lia. }
  destruct (IH l1 _ (Datatypes.S k) L1 Hnd) as (l2 & E2 & Es2 & L2).
  - intros r Hr. unfold move_pos. by rewrite decide_True.
  - lia.
  - lia.
  - exists l2. split; [exact E2|]. split; [congruence|]. eapply lag_ext; [|exact L2].
    intros r. unfold move_pos. by case_decide.
Qed.

Lemma recommit_ok l bs pos rs k n m :
  lag l bs pos -> NoDup rs -> (forall r, r ∈ rs -> pos r = k) -> (k <= n <= length bs)%nat ->
  m = Z.of_nat n - 1 ->
  exists l', recommitLostBlocks (Z.of_nat k) m rs l = (l', Ok tt) /\
    blockStore l' = blockStore l /\ lag l' bs (move_pos pos rs n).
Proof. intros L Hnd Hk Hn ->. apply recommit_loop_ok; [done..|lia]. Qed.

Lemma should_recover l bs pos r :
  lag l bs pos -> bs <> [] ->
  ShouldRecover true r l (Z.of_nat (length bs) - 1) =
  Ok (negb (Z.of_nat (pos r) =? Z.of_nat (length bs)), Z.of_nat (pos r)).
Proof.
  intros L Hne. pose proof (holds_len _ _ (lag_store _ _ _ L)) as Hlen.
  pose proof (lag_pos _ _ _ L r) as Hp. assert (0 < length bs)%nat by (destruct bs; [done|cbn; lia]).
  assert (forall n sp, (0 < n <= length bs)%nat -> BlockNum sp = Z.of_nat n - 1 ->
    (negb (BlockNum sp =? Z.of_nat (length bs) - 1), wrap64 (BlockNum sp + 1)) =
    (negb (Z.of_nat n =? Z.of_nat (length bs)), Z.of_nat n)) as Hsp.
  { intros n sp Hn ->. rewrite wrap64_small by (unfold u64; lia). f_equal; [f_equal|lia].
    destruct (Z.eqb_spec (Z.of_nat n - 1) (Z.of_nat (length bs) - 1)),
      (Z.eqb_spec (Z.of_nat n) (Z.of_nat (length bs))); done || lia. }
  assert (forall n, (n <= length bs)%nat -> last (take n bs) =
    match n with O => None | Datatypes.S k => bs !! k end) as Hlast.
  { intros n Hn. destruct n as [|k]; [by rewrite take_0|].
    rewrite last_lookup, length_take_le by lia. cbn. by rewrite lookup_take_lt by lia. }
  destruct r; unfold ShouldRecover.
  - unfold TxMgr.ShouldRecover, TxMgr.GetLastSavepoint.
    assert (ledger_blocks (take (pos RTxMgr) bs)) as Hb.
    { intros i b Hi. apply lookup_take_Some in Hi as [Hi _]. by eapply lag_blocks. }
    destruct (replay_inv _ _ Hb (lag_state _ _ _ L)) as [Hok Esp].
    rewrite GetLatestSavePoint_spec, Esp, res_ret_bind, Hlast by done.
    destruct (pos RTxMgr) as [|k] eqn:Ep.
    + cbn [fmap option_fmap option_map]. rewrite (proj2 (Z.eqb_neq _ _)); [done|lia].
    + destruct (lookup_lt_is_Some_2 bs k) as [b Hbk]; [lia|]. rewrite Hbk. cbn [fmap option_fmap option_map].
      f_equal. apply Hsp; [lia|]. cbn. rewrite (lb_number _ _ (lag_blocks _ _ _ L k b Hbk)). lia.
  - unfold HistoryDB.ShouldRecover. cbn [negb].
    rewrite (hist_savepoint _ _ (lag_hist _ _ _ L)).
    2: { intros i b Hi. apply lookup_take_Some in Hi as [Hi _]. by eapply lag_hist_blocks. }
    rewrite res_ret_bind, Hlast by done. destruct (pos RHistory) as [|k] eqn:Ep.
    + cbn [fmap option_fmap option_map]. rewrite (proj2 (Z.eqb_neq _ _)); [done|lia].
    + destruct (lookup_lt_is_Some_2 bs k) as [b Hbk]; [lia|]. rewrite Hbk. cbn [fmap option_fmap option_map].
      f_equal. apply Hsp; [lia|]. cbn. rewrite (lb_number _ _ (lag_blocks _ _ _ L k b Hbk)). lia.
Qed.

(** The databases that are behind. *)
Lemma find_recoverers_ok l bs pos rs :
  lag l bs pos -> bs <> [] ->
  find_recoverers true l (Z.of_nat (length bs) - 1) rs =
  Ok ((fun r => mkRecoverer (Z.of_nat (pos r)) r) <$> filter (fun r => pos r <> length bs) rs).
Proof.
  intros L Hne. induction rs as [|r rs IH]; [done|]. cbn [find_recoverers].
  rewrite (should_recover _ _ _ _ L Hne), res_ret_bind, IH, res_ret_bind, filter_cons.
  destruct (decide (pos r = length bs)) as [E|E].
  - rewrite E, Z.eqb_refl, decide_False by (by intros []). done.
  - rewrite (proj2 (Z.eqb_neq _ _)) by lia. rewrite decide_True by done. done.
Qed.

Lemma synced l bs pos :
  (forall r, pos r = length bs) -> lag l bs pos -> in_sync l bs.
Proof. intros Hp L. by eapply lag_ext. Qed.

Lemma recover_two l bs pos r0 r1 :
  lag l bs pos -> bs <> [] -> r0 <> r1 -> (forall r, r = r0 \/ r = r1) -> (pos r0 <= pos r1)%nat ->
  exists l', ((if negb (Z.of_nat (pos r0) =? Z.of_nat (pos r1))
     then recommitLostBlocks (Z.of_nat (pos r0)) (wrap64 (Z.of_nat (pos r1) - 1)) [r0] else mret tt);;
     recommitLostBlocks (Z.of_nat (pos r1)) (Z.of_nat (length bs) - 1) [r0; r1]) l = (l', Ok tt) /\
    blockStore l' = blockStore l /\ in_sync l' bs.
Proof.
  intros L Hne Hr Hall Hle. pose proof (lag_pos _ _ _ L r1) as Hp1.
  pose proof (holds_len _ _ (lag_store _ _ _ L)) as Hlen.
  assert (exists l1, (if negb (Z.of_nat (pos r0) =? Z.of_nat (pos r1))
     then recommitLostBlocks (Z.of_nat (pos r0)) (wrap64 (Z.of_nat (pos r1) - 1)) [r0] else mret tt) l =
       (l1, Ok tt) /\ blockStore l1 = blockStore l /\ lag l1 bs (move_pos pos [r0] (pos r1)))
    as (l1 & E1 & Es1 & L1).
  { destruct (Z.eqb_spec (Z.of_nat (pos r0)) (Z.of_nat (pos r1))) as [E|E]; cbn [negb].
    - exists l. split; [done|]. split; [done|]. eapply lag_ext; [|exact L]. intros r. unfold move_pos.
      case_decide as Hin; [|done]. apply list_elem_of_singleton in Hin as ->. lia.
    - apply (recommit_ok l bs pos [r0] (pos r0) (pos r1)); [done|apply NoDup_singleton| |lia|].
      + by intros r ->%list_elem_of_singleton.
      + rewrite wrap64_small by (unfold u64; lia). done. }
  destruct (recommit_ok l1 bs _ [r0; r1] (pos r1) (length bs) (Z.of_nat (length bs) - 1) L1)
    as (l2 & E2 & Es2 & L2).
  - apply NoDup_cons. split; [by rewrite list_elem_of_singleton|apply NoDup_singleton].
  - intros r [-> | ->%list_elem_of_singleton]%elem_of_cons; unfold move_pos.
    + rewrite decide_True; [done|by left].
    + rewrite decide_False; [done|]. by rewrite list_elem_of_singleton.
  - lia.
  - done.
  - exists l2. rewrite (st_bind_Ok _ _ _ _ _ E1). split; [done|]. split; [congruence|].
    eapply synced; [|exact L2]. intros r. unfold move_pos at 1. rewrite decide_True; [done|].
    destruct (Hall r) as [->| ->]; [by left|right; by left].
Qed.

Lemma recover_ok l bs pos :
  lag l bs pos ->
  exists l', recoverDBs true l = (l', Ok tt) /\ blockStore l' = blockStore l /\ in_sync l' bs.
Proof.
  intros L. unfold recoverDBs. rewrite (st_bind_Ok _ _ l l l eq_refl). cbv zeta.
  rewrite (GetBlockchainInfo_spec _ _ (lag_store _ _ _ L)).
  pose proof (holds_len _ _ (lag_store _ _ _ L)) as Hlen.
  destruct (decide (bs = [])) as [->|Hne].
  { exists l. split; [done|]. split; [done|]. eapply synced; [|exact L]. intros r.
    pose proof (lag_pos _ _ _ L r). cbn in *. lia. }
  assert (0 < length bs)%nat by (destruct bs; [done|cbn; lia]).
  rewrite (proj2 (Z.eqb_neq _ _)) by lia. rewrite wrap64_small by (unfold u64; lia).
  rewrite (find_recoverers_ok _ _ _ _ L Hne). rewrite (st_bind_Ok _ _ l l _ eq_refl).
  rewrite !filter_cons, filter_nil.
  assert (forall r n, pos r <> length bs -> n = Z.of_nat (length bs) - 1 -> (forall r', r' <> r -> pos r' = length bs) ->
    exists l', recommitLostBlocks (Z.of_nat (pos r)) n [r] l = (l', Ok tt) /\
      blockStore l' = blockStore l /\ in_sync l' bs) as Hone.
  { intros r n Hr -> Ho. pose proof (lag_pos _ _ _ L r).
    destruct (recommit_ok l bs pos [r] (pos r) (length bs) (Z.of_nat (length bs) - 1) L)
      as (l1 & E1 & Es1 & L1); [apply NoDup_singleton|by intros ? ->%list_elem_of_singleton|lia|done|].
    exists l1. split; [done|]. split; [done|]. eapply synced; [|exact L1]. intros r'. unfold move_pos.
    case_decide as Hin; [done|]. apply Ho. intros ->. apply Hin. by left. }
  destruct (decide (pos RTxMgr = length bs)) as [Et|Et], (decide (pos RHistory = length bs)) as [Eh|Eh].
  - rewrite !decide_False by tauto. exists l. split; [done|]. split; [done|]. eapply synced; [|exact L].
    by intros [].
  - rewrite decide_False, decide_True by tauto. by apply Hone; [..|intros []].
  - rewrite decide_True, decide_False by tauto. by apply Hone; [..|intros []].
  - rewrite !decide_True by tauto. cbn [fmap list_fmap firstBlockNum rec_recoverable].
    destruct (Z.ltb_spec (Z.of_nat (pos RHistory)) (Z.of_nat (pos RTxMgr))) as [Hlt|Hge];
      cbn [firstBlockNum rec_recoverable].
    + apply (recover_two l bs pos RHistory RTxMgr); try done; [intros []; auto|lia].
    + apply (recover_two l bs pos RTxMgr RHistory); try done; [intros []; auto|lia].
Qed.

Lemma new_ledger_ok id (s : B) d h bs pos :
  lag (mkKVLedger id s (TxMgr.NewLockBasedTxMgr d) h) bs pos ->
  exists l, newKVLedger true id s d h = (l, Ok tt) /\ in_sync l bs /\ blockStore l = s.
Proof.
  intros L. destruct (recover_ok _ _ _ L) as (l & E & Es & Hs). exists l. unfold newKVLedger. by rewrite E.
Qed.

(** *** Committing a block *)

Section Commit.
Context (l : @kvLedger DB S B) (bs : list Block) (block : Block).
Context (Hsync : in_sync l bs) (Hblock : ledger_block (length bs) block).

Let d := TxMgr.db (txtmgmt l).

Context (Hadmits : forall b' u, Validator.ValidateAndPrepareBatch d block true = (b', Ok u) ->
  admits (blockStore l) bs b').

Lemma sync_state : replay bs = Ok d /\ db_ok d.
Proof.
  pose proof (lag_state _ _ _ Hsync) as Hr. cbv beta in Hr. rewrite firstn_all in Hr. split; [exact Hr|].
  by apply (replay_inv bs d (lag_blocks _ _ _ Hsync)).
Qed.

(** Once the block is validated, nothing can fail. *)
Lemma commit_steps b' u :
  Validator.ValidateAndPrepareBatch d block true = (b', Ok u) ->
  exists s' d' h', AddBlock b' (blockStore l) = (s', Ok tt) /\ holds s' (bs ++ [b']) /\
    ApplyUpdates d u (block_sp b') = Ok d' /\ replay (bs ++ [b']) = Ok d' /\
    HistoryDB.Commit b' (historyDB l) = Ok h' /\ hist_inv h' (bs ++ [b']) /\
    ledger_blocks (bs ++ [b']) /\ (forall i b, (bs ++ [b']) !! i = Some b -> hist_block i b) /\
    admits (blockStore l) bs b' /\ Number (blk_Header b') = Z.of_nat (length bs).
Proof.
  intros E. destruct sync_state as [Hr Hd].
  destruct (validated_hist_block _ _ _ _ _ _ Hblock E) as [Hh' Hl'].
  destruct (prepared_commits _ _ _ _ _ _ Hblock Hd E) as (Esp & Erb & d' & Ea & Hd' & _).
  pose proof (Hadmits b' u E) as Had.
  assert (Number (blk_Header b') = Z.of_nat (length bs)) as En by apply Hl'.
  destruct (AddBlock_spec _ _ b' (lag_store _ _ _ Hsync) Had En) as (s' & Es & Hs').
  pose proof (lag_hist _ _ _ Hsync) as Hh. cbv beta in Hh. rewrite firstn_all in Hh.
  destruct (hist_commit _ _ b' Hh Hh') as (h' & Eh & Ih & _).
  exists s', d', h'. rewrite replay_snoc, Hr, res_ret_bind, Erb, Esp, Ea. split_and!; try done.
  - intros i b Hi. apply lookup_snoc_Some in Hi as [[_ Hi]|[-> <-]]; [by eapply lag_blocks|done].
  - intros i b Hi. apply lookup_snoc_Some in Hi as [[_ Hi]|[-> <-]]; [by eapply lag_hist_blocks|done].
Qed.

Lemma lag_snoc b' s' d' h' dx hx pos id m :
  holds s' (bs ++ [b']) -> replay (bs ++ [b']) = Ok d' -> hist_inv h' (bs ++ [b']) ->
  ledger_blocks (bs ++ [b']) -> (forall i b, (bs ++ [b']) !! i = Some b -> hist_block i b) ->
  TxMgr.db m = dx ->
  (pos RTxMgr = length bs /\ dx = d \/ pos RTxMgr = length (bs ++ [b']) /\ dx = d') ->
  (pos RHistory = length bs /\ hx = historyDB l \/ pos RHistory = length (bs ++ [b']) /\ hx = h') ->
  lag (mkKVLedger id s' m hx) (bs ++ [b']) pos.
Proof.
  intros Hs Hr Hh Hb Hhb Hm Ht Hhi. split; cbn [blockStore txtmgmt historyDB]; try done.
  - by rewrite Hr.
  - rewrite length_app in *. cbn in *. intros []; lia.
  - rewrite Hm. destruct Ht as [[-> ->]|[-> ->]]; [|by rewrite firstn_all].
    rewrite take_app_length. apply sync_state.
  - destruct Hhi as [[-> ->]|[-> ->]]; [|by rewrite firstn_all].
    rewrite take_app_length. pose proof (lag_hist _ _ _ Hsync) as Hh0. cbv beta in Hh0. by rewrite firstn_all in Hh0.
Qed.

Lemma commit_ok :
  match Validator.ValidateAndPrepareBatch d block true with
  | (b', Ok u) => exists l', Commit true block l = (l', Ok tt) /\ in_sync l' (bs ++ [b']) /\
                    TxMgr.batch (txtmgmt l') = None
  | (_, Err e) => Commit true block l = (l, Err e)
  | (_, Panic p) => Commit true block l = (l, Panic p)
  | (_, OutOfFuel) => Commit true block l = (l, OutOfFuel)
  end.
Proof.
  unfold Commit, TxMgr.ValidateAndPrepare. fold d.
  destruct (Validator.ValidateAndPrepareBatch d block true) as [b' [u|e|p|]] eqn:E in |- *;
    try (by destruct l).
  destruct (commit_steps b' u E) as (s' & d' & h' & Es & Hs & Ea & Hr & Eh & Hh & Hb & Hhb & _).
  cbn [set_txtmgmt blockStore txtmgmt historyDB ledgerID set_blockStore].
  rewrite Es. cbn [set_blockStore set_txtmgmt txtmgmt]. unfold TxMgr.Commit.
  cbn [TxMgr.batch TxMgr.currentBlock TxMgr.db]. fold (block_sp b'). rewrite Ea.
  cbn [set_txtmgmt historyDB blockStore ledgerID txtmgmt]. rewrite Eh. eexists. split; [reflexivity|].
  split; [|done]. apply (lag_snoc b' s' d' h' d' h'); try done; right; done.
Qed.

(** What is on disk when the process dies while the block is committed. *)
Inductive crashed : B -> DB -> DBHandle S -> Prop :=
| cr_before s' : reopened (blockStore l) s' -> crashed s' d (historyDB l)
| cr_store b' u s' :
    Validator.ValidateAndPrepareBatch d block true = (b', Ok u) ->
    after_crash b' (blockStore l) s' -> crashed s' d (historyDB l)
| cr_state b' u s1 s' :
    Validator.ValidateAndPrepareBatch d block true = (b', Ok u) ->
    AddBlock b' (blockStore l) = (s1, Ok tt) -> reopened s1 s' -> crashed s' d (historyDB l)
| cr_history b' u s1 s' d' :
    Validator.ValidateAndPrepareBatch d block true = (b', Ok u) ->
    AddBlock b' (blockStore l) = (s1, Ok tt) -> reopened s1 s' ->
    ApplyUpdates d u (block_sp b') = Ok d' -> crashed s' d' (historyDB l).

(** The databases are then at most one block behind the store. *)
Lemma crash_lag id s' d' h' :
  crashed s' d' h' ->
  exists bs' pos, lag (mkKVLedger id s' (TxMgr.NewLockBasedTxMgr d') h') bs' pos /\
    (bs' = bs \/ exists b' u, Validator.ValidateAndPrepareBatch d block true = (b', Ok u) /\ bs' = bs ++ [b']).
Proof.
  assert (forall s', holds s' bs -> exists bs' pos,
    lag (mkKVLedger id s' (TxMgr.NewLockBasedTxMgr d) (historyDB l)) bs' pos /\ (bs' = bs \/
      exists b' u, Validator.ValidateAndPrepareBatch d block true = (b', Ok u) /\ bs' = bs ++ [b'])) as Hold.
  { intros s2 Hs2. exists bs, (fun _ => length bs). split; [|by left]. destruct Hsync. by split. }
  assert (forall b' u s' dx, Validator.ValidateAndPrepareBatch d block true = (b', Ok u) ->
    holds s' (bs ++ [b']) -> (dx = d \/ ApplyUpdates d u (block_sp b') = Ok dx) ->
    exists bs' pos, lag (mkKVLedger id s' (TxMgr.NewLockBasedTxMgr dx) (historyDB l)) bs' pos /\ (bs' = bs \/
      exists b' u, Validator.ValidateAndPrepareBatch d block true = (b', Ok u) /\ bs' = bs ++ [b'])) as Hnew.
  { intros b' u s2 dx E Hs2 Hdx. exists (bs ++ [b']).
    destruct (commit_steps b' u E) as (s3 & d3 & h3 & _ & _ & Ea & Hr & _ & Hh & Hb & Hhb & _).
    destruct Hdx as [->|Ea']; [exists (fun _ => length bs)|
      exists (fun r => match r with RTxMgr => length (bs ++ [b']) | RHistory => length bs end)];
      (split; [|by eauto]); (eapply (lag_snoc b' s2 d3 h3); try done; [|by left]); [by left|right].
    split; [done|]. rewrite Ea in Ea'. by injection Ea'. }
  intros Hc. destruct Hc as [s2 Hre|b' u s2 E Ha|b' u s1 s2 E Ea Hre|b' u s1 s2 d2 E Ea Hre Ed].
  - apply Hold. eapply reopened_spec; [apply Hsync|done].
  - destruct (commit_steps b' u E) as (_ & _ & _ & _ & _ & _ & _ & _ & _ & _ & _ & Had & En).
    destruct (after_crash_spec _ _ b' s2 (lag_store _ _ _ Hsync) Had En Ha) as [Hs|Hs]; [by apply Hold|].
    apply (Hnew b' u); auto.
  - destruct (commit_steps b' u E) as (s3 & _ & _ & Es & Hs & _). rewrite Ea in Es. injection Es as <-.
    apply (Hnew b' u); [done| |by left]. by eapply reopened_spec.
  - destruct (commit_steps b' u E) as (s3 & _ & _ & Es & Hs & _). rewrite Ea in Es. injection Es as <-.
    apply (Hnew b' u); [done| |by right]. by eapply reopened_spec.
Qed.

Lemma crash_recovers id s' d' h' :
  crashed s' d' h' ->
  exists l' bs', newKVLedger true id s' d' h' = (l', Ok tt) /\ in_sync l' bs' /\
    (bs' = bs \/ exists b' u, Validator.ValidateAndPrepareBatch d block true = (b', Ok u) /\ bs' = bs ++ [b']).
Proof.
  intros Hc. destruct (crash_lag id s' d' h' Hc) as (bs' & pos & L & Hbs).
  destruct (new_ledger_ok id s' d' h' bs' pos L) as (l' & E & I & _). eauto.
Qed.

End Commit.

End Facts.
End LedgerFacts.
