(* ===== verification/KVProvider.v ===== *)
(** * Creating and opening ledgers

    core/ledger/kvledger/kv_ledger_provider.go: the ids of the ledgers of a
    peer in a leveldb of their own, and the creation of a ledger from its
    genesis block.  A flag marks the ledger under construction, so that after
    a crash the creation is completed or undone. *)

From stdpp Require Import base gmap strings list.
From Stdlib Require Import Ascii ZArith Lia.
From S2P Require Import Prelude Version StateDB LevelDB RWSet Merkle Proto Instances Validator TxMgr.
From S2P Require Import BlockIndex BlockMgr History KVLedger.
Import RWSetUtil Provider ProtoUtils Height BlockMgr KVLedger.
Local Open Scope Z_scope.

(** ** protos/utils/blockutils.go *)

Module BlockUtils.
Section BlockUtils.
Context `{ProtoCodec}.

Definition GetChainIDFromBlock (block : Block) : res string :=
  match blk_Data block with
  | [] => Err "failed to retrieve channel id - block is empty"
  | data0 :: _ =>
      envelope ← match unmarshal_Envelope data0 with
                 | Err e => Err ("error reconstructing envelope(" +:+ e +:+ ")") | r => r end;
      payload ← match unmarshal_Payload (env_Payload envelope) with
                | Err e => Err ("error reconstructing payload(" +:+ e +:+ ")") | r => r end;
      match pl_Header payload with
      | None => Err "failed to retrieve channel id - payload header is empty"
      | Some hdr => chdr ← UnmarshalChannelHeader (hdr_ChannelHeader hdr); Ok (ch_ChannelId chdr)
      end
  end.

End BlockUtils.
End BlockUtils.
Import BlockUtils.

(** ** The id store *)

Module IdStore.
Section IdStore.
Context {S : Type} `{LevelDB S}.

Definition underConstructionLedgerKey : bytes := to_bytes "underConstructionLedgerKey".
Definition ledgerKeyPrefix : bytes := to_bytes "l".
Definition ErrLedgerIDExists : string := "LedgerID already exists".
Definition ErrNonExistingLedgerID : string := "LedgerID does not exist".

Definition encodeLedgerKey (ledgerID : string) : bytes := ledgerKeyPrefix ++ to_bytes ledgerID.

Definition decodeLedgerID (key : bytes) : res string :=
  if (length key <? length ledgerKeyPrefix)%nat then Panic "slice bounds out of range"
  else Ok (String.string_of_list_ascii (drop (length ledgerKeyPrefix) key)).

Definition setUnderConstructionFlag (ledgerID : string) (s : S) : res S :=
  DB_Put s underConstructionLedgerKey (to_bytes ledgerID) true.

Definition unsetUnderConstructionFlag (s : S) : res S := DB_Delete s underConstructionLedgerKey true.

(** A missing value is the empty string. *)
Definition getUnderConstructionFlag (s : S) : res string :=
  val ← DB_Get s underConstructionLedgerKey;
  Ok (String.string_of_list_ascii (default [] val)).

(** The marshalled block is overwritten by the value read from the store, which
    is nil: the value stored is empty. *)
Definition createLedgerID (marshal : Block -> res bytes) (ledgerID : string) (gb : Block) (s : S) : res S :=
  let key := encodeLedgerKey ledgerID in
  _ ← marshal gb;
  val ← DB_Get s key;
  match val with
  | Some _ => Err ErrLedgerIDExists
  | None => DB_WriteBatch s [BPut key []; BDelete underConstructionLedgerKey] true
  end.

Definition ledgerIDExists (s : S) (ledgerID : string) : res bool :=
  val ← DB_Get s (encodeLedgerKey ledgerID);
  Ok (match val with Some _ => true | None => false end).

(** At the key of the flag the loop continues without moving the iterator. *)
Fixpoint ids_loop (fuel : nat) (itr : It) (ids : list string) : res (list string) :=
  match fuel with
  | O => OutOfFuel
  | Datatypes.S fuel' =>
      match it_next itr with
      | None => Ok ids
      | Some (key, _, itr') =>
          if decide (key = underConstructionLedgerKey) then ids_loop fuel' itr ids
          else id ← decodeLedgerID key; ids_loop fuel' itr' (ids ++ [id])
      end
  end.

Definition getAllLedgerIds (fuel : nat) (s : S) : res (list string) :=
  ids_loop fuel (DB_GetIterator s None None) [].

End IdStore.
End IdStore.
Import IdStore.

(** ** The provider *)

Module LedgerProvider.
Section LedgerProvider.
Context {DB : Type} `{VersionedDB DB} `{Merkle.Hashing} `{RWSetCodec} `{ProtoCodec}.
Context {S : Type} `{LevelDB S} {B : Type} `{BlockStore B}.

(** [ledgerconfig.IsHistoryDBEnabled()], [proto.Marshal] of a block, and
    [OpenBlockStore] of the block store provider *)
Context (IsHistoryDBEnabled : bool) (marshal_Block : Block -> res bytes) (OpenBlockStore : B -> res B).

(** What a ledger has on disk. *)
Record storage := mkStorage {
  st_blocks : B;
  st_state : DB;
  st_history : DBHandle S
}.

(** What is there for a ledger that was never opened. *)
Context (no_storage : string -> storage).

Record Provider := mkProvider {
  idStore : S;
  ledgers : gmap string storage
}.

Definition attrsToIndex : list BlockIndex.IndexableAttr :=
  [BlockIndex.IndexableAttrBlockHash; BlockIndex.IndexableAttrBlockNum; BlockIndex.IndexableAttrTxID;
   BlockIndex.IndexableAttrBlockNumTranNum; BlockIndex.IndexableAttrBlockTxID;
   BlockIndex.IndexableAttrTxValidationCode].

Definition storage_of (provider : Provider) (ledgerID : string) : storage :=
  default (no_storage ledgerID) (ledgers provider !! ledgerID).

(** The ledger [l] has written to its databases. *)
Definition put_ledger (id : string) (l : @kvLedger DB S B) : ST Provider unit :=
  st_modify (fun p => mkProvider (idStore p)
    (<[id := mkStorage (blockStore l) (TxMgr.db (txtmgmt l)) (historyDB l)]> (ledgers p))).

Definition on_ids (f : S -> res S) : ST Provider unit := fun p =>
  match f (idStore p) with
  | Ok s => (mkProvider s (ledgers p), Ok tt)
  | Err e => (p, Err e)
  | Panic m => (p, Panic m)
  | OutOfFuel => (p, OutOfFuel)
  end.

Definition panicOnErr {A} (m : ST Provider A) : ST Provider A := fun p =>
  match m p with
  | (p, Err e) => (p, Panic e)
  | r => r
  end.

Definition openInternal (id : string) : ST Provider (@kvLedger DB S B) := fun p =>
  let st := storage_of p id in
  match OpenBlockStore (st_blocks st) with
  | Ok blockStore =>
      let '(l, r) := newKVLedger IsHistoryDBEnabled id blockStore (st_state st) (st_history st) in
      let '(p, _) := put_ledger id l p in
      match r with
      | Ok _ => (p, Ok l)
      | Err e => (p, Err e)
      | Panic m => (p, Panic m)
      | OutOfFuel => (p, OutOfFuel)
      end
  | Err e => (p, Err e)
  | Panic m => (p, Panic m)
  | OutOfFuel => (p, OutOfFuel)
  end.

(** [runCleanup] does nothing. *)
Definition runCleanup (ledgerID : string) : ST Provider unit := mret tt.

Definition ledger_Commit (id : string) (block : Block) (l : @kvLedger DB S B) :
    ST Provider (@kvLedger DB S B) := fun p =>
  let '(l, r) := KVLedger.Commit IsHistoryDBEnabled block l in
  let '(p, _) := put_ledger id l p in
  match r with
  | Ok _ => (p, Ok l)
  | Err e => (p, Err e)
  | Panic m => (p, Panic m)
  | OutOfFuel => (p, OutOfFuel)
  end.

(** When the genesis block cannot be committed the flag stays set. *)
Definition Create (genesisBlock : Block) : ST Provider (@kvLedger DB S B) :=
  ledgerID ← st_lift (GetChainIDFromBlock genesisBlock);
  p ← st_get;
  exists_ ← st_lift (ledgerIDExists (idStore p) ledgerID);
  if exists_ : bool then st_lift (Err ErrLedgerIDExists)
  else
    on_ids (setUnderConstructionFlag ledgerID);;
    l ← (fun p =>
           match openInternal ledgerID p with
           | (p, Err e) =>
               (panicOnErr (runCleanup ledgerID);;
                panicOnErr (on_ids unsetUnderConstructionFlag);;
                st_lift (Err e)) p
           | r => r
           end);
    l ← ledger_Commit ledgerID genesisBlock l;
    panicOnErr (on_ids (createLedgerID marshal_Block ledgerID genesisBlock));;
    mret l.

Definition Open (ledgerID : string) : ST Provider (@kvLedger DB S B) :=
  p ← st_get;
  exists_ ← st_lift (ledgerIDExists (idStore p) ledgerID);
  if negb exists_ then st_lift (Err ErrNonExistingLedgerID) else openInternal ledgerID.

Definition Exists (p : Provider) (ledgerID : string) : res bool := ledgerIDExists (idStore p) ledgerID.

Definition List (fuel : nat) (p : Provider) : res (list string) := getAllLedgerIds fuel (idStore p).

Definition recoverUnderConstructionLedger : ST Provider unit :=
  p ← st_get;
  ledgerID ← panicOnErr (st_lift (getUnderConstructionFlag (idStore p)));
  if decide (ledgerID = "") then mret tt
  else
    ledger ← panicOnErr (openInternal ledgerID);
    let bcInfo := ledger_GetBlockchainInfo ledger in
    if BlockMgr.Height bcInfo =? 0 then
      panicOnErr (runCleanup ledgerID);;
      panicOnErr (on_ids unsetUnderConstructionFlag)
    else if BlockMgr.Height bcInfo =? 1 then
      genesisBlock ← panicOnErr (st_lift (GetBlockByNumber ledger 0));
      panicOnErr (on_ids (createLedgerID marshal_Block ledgerID genesisBlock))
    else st_lift (Panic "Data inconsistency: under construction flag is set").

(** [NewProvider], once its stores are open. *)
Definition NewProvider (p : Provider) : Provider * res unit := recoverUnderConstructionLedger p.

End LedgerProvider.
End LedgerProvider.

(** ** What the provider keeps *)

Module ProviderFacts.
Import LedgerFacts LedgerProvider.

(** *** The id store *)

Section Ids.
Context {S : Type} `{LevelDBSpec S}.

Definition flag_of (s : S) : option bytes := contents s !! underConstructionLedgerKey.
Definition listed (s : S) (id : string) : Prop := is_Some (contents s !! encodeLedgerKey id).

(** The keys are the flag's and those of the ledgers. *)
Definition ids_ok (s : S) : Prop :=
  store_ok s /\ forall k, is_Some (contents s !! k) ->
    k = underConstructionLedgerKey \/ exists id, k = encodeLedgerKey id.

Lemma key_not_flag id : encodeLedgerKey id <> underConstructionLedgerKey.
Proof. unfold encodeLedgerKey. intros E. apply (f_equal head) in E. done. Qed.

Lemma encodeLedgerKey_inj id id' : encodeLedgerKey id = encodeLedgerKey id' -> id = id'.
Proof. unfold encodeLedgerKey. intros E. apply app_inv_head in E. by apply to_bytes_inj. Qed.

Lemma DB_Get_spec (s : S) k : store_ok s -> DB_Get s k = Ok (contents s !! k).
Proof. intros Hs. unfold DB_Get. rewrite ldb_get_spec by done. by destruct (contents s !! k). Qed.

Lemma exists_spec (s : S) id :
  store_ok s -> ledgerIDExists s id = Ok (bool_decide (listed s id)).
Proof.
  intros Hs. unfold ledgerIDExists, listed. rewrite DB_Get_spec, res_ret_bind by done.
  by destruct (contents s !! _).
Qed.

Lemma set_flag_spec (s : S) id :
  ids_ok s -> exists s', setUnderConstructionFlag id s = Ok s' /\ ids_ok s' /\
    flag_of s' = Some (to_bytes id) /\ forall id', listed s' id' <-> listed s id'.
Proof.
  intros [Hs Hk]. destruct (ldb_put_spec s underConstructionLedgerKey (to_bytes id) Hs) as (s' & E & Hs' & Ec).
  exists s'. split; [exact E|]. split; [split; [done|]|split].
  - intros k. rewrite Ec. destruct (decide (k = underConstructionLedgerKey)) as [->|Hne]; [by left|].
    rewrite lookup_insert_ne by done. apply Hk.
  - unfold flag_of. by rewrite Ec, lookup_insert_eq.
  - intros id'. unfold listed. by rewrite Ec, lookup_insert_ne by (apply not_eq_sym, key_not_flag).
Qed.

Lemma unset_flag_spec (s : S) :
  ids_ok s -> exists s', unsetUnderConstructionFlag s = Ok s' /\ ids_ok s' /\
    flag_of s' = None /\ forall id', listed s' id' <-> listed s id'.
Proof.
  intros [Hs Hk]. destruct (ldb_delete_spec s underConstructionLedgerKey Hs) as (s' & E & Hs' & Ec).
  exists s'. split; [exact E|]. split; [split; [done|]|split].
  - intros k. rewrite Ec. destruct (decide (k = underConstructionLedgerKey)) as [->|Hne]; [by left|].
    rewrite lookup_delete_ne by done. apply Hk.
  - unfold flag_of. by rewrite Ec, lookup_delete_eq.
  - intros id'. unfold listed. by rewrite Ec, lookup_delete_ne by (apply not_eq_sym, key_not_flag).
Qed.

Lemma create_id_spec marshal id gb (s : S) :
  ids_ok s -> ~ listed s id -> is_ok (marshal gb) ->
  exists s', createLedgerID marshal id gb s = Ok s' /\ ids_ok s' /\ flag_of s' = None /\
    forall id', listed s' id' <-> id' = id \/ listed s id'.
Proof.
  intros [Hs Hk] Hl Hm. unfold createLedgerID. apply is_ok_iff in Hm as [v ->].
  rewrite res_ret_bind, DB_Get_spec, res_ret_bind by done.
  destruct (contents s !! encodeLedgerKey id) eqn:El; [by destruct Hl; unfold listed; rewrite El|].
  destruct (ldb_write_spec s [BPut (encodeLedgerKey id) []; BDelete underConstructionLedgerKey] Hs)
    as (s' & E & Hs' & Ec). cbn in Ec.
  exists s'. split; [exact E|]. split; [split; [done|]|split].
  - intros k. rewrite Ec. destruct (decide (k = underConstructionLedgerKey)) as [->|Hne]; [by left|].
    rewrite lookup_delete_ne by done. destruct (decide (k = encodeLedgerKey id)) as [->|Hne2]; [eauto|].
    rewrite lookup_insert_ne by done. apply Hk.
  - unfold flag_of. by rewrite Ec, lookup_delete_eq.
  - intros id'. unfold listed. rewrite Ec, lookup_delete_ne by (apply not_eq_sym, key_not_flag).
    destruct (decide (id' = id)) as [->|Hne].
    + rewrite lookup_insert_eq. split; [by left|eauto].
    + rewrite lookup_insert_ne by (by intros ?%encodeLedgerKey_inj). naive_solver.
Qed.

Lemma decode_encode_id id : decodeLedgerID (encodeLedgerKey id) = Ok id.
Proof.
  unfold decodeLedgerID, encodeLedgerKey. rewrite length_app, drop_app_length. cbn [Nat.add length].
  rewrite (proj2 (Nat.ltb_ge _ _)) by lia. f_equal. apply String.string_of_list_ascii_of_string.
Qed.

(** Listing the ids when no ledger is under construction. *)
Lemma ids_loop_ok fuel itr ids (l : list (bytes * bytes)) :
  it_rest itr = l -> (length l < fuel)%nat ->
  (forall k v, (k, v) ∈ l -> exists id, k = encodeLedgerKey id) ->
  exists ids', ids_loop fuel itr ids = Ok (ids ++ ids') /\ encodeLedgerKey <$> ids' = l.*1.
Proof.
  revert itr ids l. induction fuel as [|fuel IH]; intros itr ids l Hr Hf Hl; [lia|].
  cbn [ids_loop]. destruct l as [|[k v] l].
  { rewrite it_next_nil by done. exists []. by rewrite app_nil_r. }
  destruct (it_next_cons itr k v l Hr) as (itr' & -> & Hr').
  destruct (Hl k v ltac:(by left)) as [id ->]. rewrite decide_False by apply key_not_flag.
  rewrite decode_encode_id, res_ret_bind.
  destruct (IH itr' (ids ++ [id]) l Hr') as (ids' & -> & E); [cbn in Hf; lia|by intros; eapply Hl; right|].
  exists (id :: ids'). rewrite <- app_assoc. split; [done|]. cbn. by rewrite E.
Qed.

(** Listing them when one is. *)
Lemma ids_loop_flag fuel itr ids (l : list (bytes * bytes)) v :
  it_rest itr = l -> (underConstructionLedgerKey, v) ∈ l ->
  (forall k v, (k, v) ∈ l -> k = underConstructionLedgerKey \/ exists id, k = encodeLedgerKey id) ->
  ids_loop fuel itr ids = OutOfFuel.
Proof.
  revert itr ids l. induction fuel as [|fuel IH]; intros itr ids l Hr Hv Hl; [done|].
  cbn [ids_loop]. destruct l as [|[k v'] l]; [by apply elem_of_nil in Hv|].
  destruct (it_next_cons itr k v' l Hr) as (itr' & -> & Hr').
  destruct (decide (k = underConstructionLedgerKey)) as [->|Hne]; [by eapply IH|].
  destruct (Hl k v' ltac:(by left)) as [->|[id ->]]; [done|]. rewrite decode_encode_id, res_ret_bind.
  apply (IH _ _ l Hr').
  - apply elem_of_cons in Hv as [Hv|Hv]; [|done]. injection Hv as Hv _. by destruct Hne.
  - intros k2 v2 Hk. apply (Hl k2 v2). by right.
Qed.

Lemma get_all_stuck (s : S) v fuel :
  ids_ok s -> flag_of s = Some v -> getAllLedgerIds fuel s = OutOfFuel.
Proof.
  intros [Hs Hk] Hf. destruct (ldb_iter_spec s None None Hs) as [_ Hin].
  apply (ids_loop_flag _ _ _ (it_rest (ldb_iter s None None)) v eq_refl).
  - by apply Hin.
  - intros k v' [Hl _]%Hin. apply Hk. eauto.
Qed.

Lemma get_all_ok (s : S) :
  ids_ok s -> flag_of s = None ->
  exists ids, (exists n, forall fuel, (n <= fuel)%nat -> getAllLedgerIds fuel s = Ok ids) /\
    NoDup ids /\ forall id, id ∈ ids <-> listed s id.
Proof.
  intros [Hs Hk] Hf. pose proof (ldb_iter_spec s None None Hs) as Hscan.
  set (itr := ldb_iter s None None) in *. destruct Hscan as [Hsort Hin].
  assert (forall k v, (k, v) ∈ it_rest itr -> exists id, k = encodeLedgerKey id) as Hkeys.
  { intros k v [Hl _]%Hin. destruct (Hk k) as [->|?]; [by eexists| |done].
    unfold flag_of in Hf. congruence. }
  assert (exists ids, encodeLedgerKey <$> ids = (it_rest itr).*1 /\
    forall fuel, (Datatypes.S (length (it_rest itr)) <= fuel)%nat -> getAllLedgerIds fuel s = Ok ids)
    as (ids & Eids & Hall).
  { destruct (ids_loop_ok (Datatypes.S (length (it_rest itr))) itr [] _ eq_refl (Nat.lt_succ_diag_r _) Hkeys)
      as (ids & _ & Eids). exists ids. split; [done|]. intros fuel Hfuel.
    destruct (ids_loop_ok fuel itr [] _ eq_refl) as (ids2 & E2 & Eids2); [lia|done|].
    unfold getAllLedgerIds. change (DB_GetIterator s None None) with itr. rewrite E2. cbn. f_equal.
    rewrite <- Eids in Eids2. clear -Eids2. revert ids Eids2.
    induction ids2 as [|a l IH]; intros [|b l']; cbn; try done.
    intros [= E1 E2]. f_equal; [by apply encodeLedgerKey_inj; cbn; congruence|by apply IH]. }
  exists ids. split; [by eexists|]. split.
  - assert (NoDup (it_rest itr).*1) as Hnd.
    { clear -Hsort. induction Hsort as [|x l Hs IH Hall]; cbn; constructor; [|done].
      intros Hx. apply list_elem_of_fmap in Hx as (y & Ey & Hy). rewrite Forall_forall in Hall.
      pose proof (Hall y Hy) as Hlt. unfold rec_lt in Hlt. rewrite Ey in Hlt.
      by apply (irreflexivity bytes_lt y.1). }
    rewrite <- Eids in Hnd. by apply NoDup_fmap_1 in Hnd.
  - intros id. unfold listed. split.
    + intros Hid. assert (encodeLedgerKey id ∈ (it_rest itr).*1) as Hk1
        by (rewrite <- Eids; by apply list_elem_of_fmap_2).
      apply list_elem_of_fmap in Hk1 as ([k v] & Ek & Hkv). apply Hin in Hkv as [Hl _].
      rewrite Ek. eauto.
    + intros [v Hv]. assert (encodeLedgerKey id ∈ (it_rest itr).*1) as Hk1.
      { apply list_elem_of_fmap. exists (encodeLedgerKey id, v). split; [done|]. by apply Hin. }
      rewrite <- Eids in Hk1. apply list_elem_of_fmap in Hk1 as (id' & E%encodeLedgerKey_inj & Hid).
      by rewrite E.
Qed.

End Ids.
(** *** Ledgers *)

Section Ledgers.
Context {DB : Type} `{VersionedDBSpec DB} `{Merkle.Hashing} `{RWSetCodec} `{ProtoCodec}.
Context {S : Type} `{LevelDBSpec S} {B : Type} `{!BlockStore B} `{!BlockStoreSpec B}.
Context (marshal_Block : Block -> res bytes) (OpenBlockStore : B -> res B).
Context (no_storage : string -> @storage DB S B).
Context (db0 : DB) (Hdb0 : db_ok db0) (Hsp0 : savepoint db0 = None).
Context (Hopen : forall s bs, holds s bs -> exists s', OpenBlockStore s = Ok s' /\ holds s' bs).

Abbreviation openInternal := (openInternal true OpenBlockStore no_storage).
Abbreviation storage_of := (storage_of no_storage).

(** The block store opens with the chain [bs], and the databases can be brought
    to it. *)
Definition stored (p : @Provider DB S B) (id : string) (bs : list Block) : Prop :=
  exists pos s, OpenBlockStore (st_blocks (storage_of p id)) = Ok s /\
    lag db0 (mkKVLedger id s (TxMgr.NewLockBasedTxMgr (st_state (storage_of p id)))
      (st_history (storage_of p id))) bs pos.

Lemma lag_reopen l bs pos id s m h :
  lag db0 l bs pos -> holds s bs -> TxMgr.db m = TxMgr.db (txtmgmt l) -> h = historyDB l ->
  lag db0 (mkKVLedger id s m h) bs pos.
Proof. intros [L1 L2 L3 L4 L5 L6 L7] Hs Hm ->. split; cbn; try done. by rewrite Hm. Qed.

Lemma put_ledger_stored (p : @Provider DB S B) id l bs p' :
  in_sync db0 l bs -> put_ledger id l p = (p', Ok tt) ->
  stored p' id bs /\ idStore p' = idStore p /\
  forall id', id' <> id -> storage_of p' id' = storage_of p id'.
Proof.
  intros L [= <-]. split; [|split; [done|]].
  - destruct (Hopen _ _ (lag_store _ _ _ _ L)) as (s' & Es & Hs').
    exists (fun _ => length bs), s'. unfold LedgerProvider.storage_of. cbn [ledgers].
    rewrite lookup_insert_eq. split; [exact Es|]. eapply lag_reopen; [exact L|done|done|done].
  - intros id' Hne. unfold LedgerProvider.storage_of. cbn [ledgers]. by rewrite lookup_insert_ne.
Qed.

Lemma openInternal_ok p id bs :
  stored p id bs ->
  exists l p', openInternal id p = (p', Ok l) /\ in_sync db0 l bs /\ stored p' id bs /\
    idStore p' = idStore p /\ OpenBlockStore (st_blocks (storage_of p id)) = Ok (blockStore l).
Proof.
  intros (pos & s' & Es & L). unfold LedgerProvider.openInternal. rewrite Es.
  destruct (new_ledger_ok db0 Hdb0 Hsp0 id s' (st_state (storage_of p id)) (st_history (storage_of p id)) bs pos)
    as (l & -> & Hl & Eb); [done|].
  destruct (put_ledger id l p) as [p' r] eqn:Ep.
  destruct (put_ledger_stored p id l bs p' Hl) as (Hst & Hids & Ho); [by injection Ep as <- <-|].
  exists l, p'. by rewrite Eb.
Qed.

Definition idle (p : @Provider DB S B) : Prop := ids_ok (idStore p) /\ flag_of (idStore p) = None.

(** A genesis block the peer can take. *)
Record genesis (p : @Provider DB S B) (id : string) (gb b' : Block) (u : UpdateBatch) : Prop := {
  gn_id : GetChainIDFromBlock gb = Ok id;
  gn_name : id <> "";
  gn_block : ledger_block 0 gb;
  gn_valid : Validator.ValidateAndPrepareBatch db0 gb true = (b', Ok u);
  gn_admits s : OpenBlockStore (st_blocks (storage_of p id)) = Ok s -> admits s [] b';
  gn_marshal b : is_ok (marshal_Block b)
}.

Section Create.
Context (p : @Provider DB S B) (id : string) (gb b' : Block) (u : UpdateBatch).
Context (Hidle : idle p) (Hfresh : stored p id []) (Hnew : ~ listed (idStore p) id).
Context (G : genesis p id gb b' u).

Lemma sync_nil_db l : in_sync db0 l [] -> TxMgr.db (txtmgmt l) = db0.
Proof. intros L. pose proof (lag_state _ _ _ _ L) as E. cbn in E. by injection E as <-. Qed.

Lemma genesis_admitted l b2 u2 :
  in_sync db0 l [] -> OpenBlockStore (st_blocks (storage_of p id)) = Ok (blockStore l) ->
  Validator.ValidateAndPrepareBatch (TxMgr.db (txtmgmt l)) gb true = (b2, Ok u2) -> admits (blockStore l) [] b2.
Proof.
  intros L El. rewrite (sync_nil_db l L), (gn_valid _ _ _ _ _ G). intros [= <- <-]. by apply (gn_admits _ _ _ _ _ G).
Qed.

Lemma genesis_commit l p2 :
  in_sync db0 l [] -> OpenBlockStore (st_blocks (storage_of p id)) = Ok (blockStore l) ->
  exists l3 p3, ledger_Commit true id gb l p2 = (p3, Ok l3) /\ in_sync db0 l3 [b'] /\
    stored p3 id [b'] /\ idStore p3 = idStore p2.
Proof.
  intros L El. pose proof (sync_nil_db l L) as Ed.
  pose proof (commit_ok db0 Hdb0 Hsp0 l [] gb L (gn_block _ _ _ _ _ G)
    (fun b2 u2 => genesis_admitted l b2 u2 L El)) as Hc.
  rewrite Ed, (gn_valid _ _ _ _ _ G) in Hc. destruct Hc as (l3 & Ec & L3 & _).
  unfold ledger_Commit. rewrite Ec. destruct (put_ledger id l3 p2) as [p3 r] eqn:Ep.
  destruct (put_ledger_stored p2 id l3 [b'] p3 L3) as (Hst & Hids & _); [by injection Ep as <- <-|].
  by exists l3, p3.
Qed.

Lemma create_ok :
  exists l p', Create true marshal_Block OpenBlockStore no_storage gb p = (p', Ok l) /\
    in_sync db0 l [b'] /\ stored p' id [b'] /\ idle p' /\
    forall id', listed (idStore p') id' <-> id' = id \/ listed (idStore p) id'.
Proof.
  destruct Hidle as [Hids Hflag]. unfold Create. rewrite (gn_id _ _ _ _ _ G).
  rewrite (st_bind_Ok _ _ p p id eq_refl), (st_bind_Ok _ _ p p p eq_refl).
  rewrite exists_spec by apply Hids. rewrite bool_decide_eq_false_2 by done.
  rewrite (st_bind_Ok _ _ p p false eq_refl).
  destruct (set_flag_spec (idStore p) id Hids) as (s1 & E1 & Hids1 & Hf1 & Hl1).
  set (p1 := mkProvider s1 (ledgers p)).
  assert (on_ids (setUnderConstructionFlag id) p = (p1, Ok tt)) as E1' by (unfold on_ids; by rewrite E1).
  rewrite (st_bind_Ok _ _ _ _ _ E1').
  destruct (openInternal_ok p1 id [] Hfresh) as (l & p2 & E2 & L2 & _ & Hids2 & Eb2).
  rewrite (st_bind_Ok _ _ p1 p2 l) by (by rewrite E2).
  destruct (genesis_commit l p2 L2 Eb2) as (l3 & p3 & E3 & L3 & Hst3 & Hids3).
  rewrite (st_bind_Ok _ _ _ _ _ E3).
  destruct (create_id_spec marshal_Block id gb (idStore p3)) as (s4 & E4 & Hids4 & Hf4 & Hl4).
  - rewrite Hids3, Hids2. exact Hids1.
  - rewrite Hids3, Hids2. cbn. by rewrite Hl1.
  - apply (gn_marshal _ _ _ _ _ G).
  - assert (panicOnErr (on_ids (createLedgerID marshal_Block id gb)) p3 =
      (mkProvider s4 (ledgers p3), Ok tt)) as E4' by (unfold panicOnErr, on_ids; by rewrite E4).
    rewrite (st_bind_Ok _ _ _ _ _ E4'). eexists l3, _. split; [reflexivity|]. split; [done|].
    split; [exact Hst3|]. split; [done|]. intros id'. cbn [idStore]. rewrite Hl4, Hids3, Hids2. cbn. by rewrite Hl1.
Qed.

(** What is on disk when the process dies while the ledger is created. *)
Inductive create_crash : @Provider DB S B -> Prop :=
| cc_flag p1 : on_ids (setUnderConstructionFlag id) p = (p1, Ok tt) -> create_crash p1
| cc_open p1 p2 l : on_ids (setUnderConstructionFlag id) p = (p1, Ok tt) ->
    openInternal id p1 = (p2, Ok l) -> create_crash p2
| cc_commit p1 p2 l s d h : on_ids (setUnderConstructionFlag id) p = (p1, Ok tt) ->
    openInternal id p1 = (p2, Ok l) -> crashed l gb s d h ->
    create_crash (mkProvider (idStore p2) (<[id := mkStorage s d h]> (ledgers p2)))
| cc_done p1 p2 l p3 l3 : on_ids (setUnderConstructionFlag id) p = (p1, Ok tt) ->
    openInternal id p1 = (p2, Ok l) -> ledger_Commit true id gb l p2 = (p3, Ok l3) -> create_crash p3.

(** After each of them the flag is set, and the chain is empty or the genesis
    block. *)
Lemma crash_states p' :
  create_crash p' ->
  ids_ok (idStore p') /\ flag_of (idStore p') = Some (to_bytes id) /\
  (forall id', listed (idStore p') id' <-> listed (idStore p) id') /\
  (stored p' id [] \/ stored p' id [b']).
Proof.
  destruct Hidle as [Hids Hflag].
  destruct (set_flag_spec (idStore p) id Hids) as (s1 & E1 & Hids1 & Hf1 & Hl1).
  set (p1 := mkProvider s1 (ledgers p)).
  assert (on_ids (setUnderConstructionFlag id) p = (p1, Ok tt)) as E1' by (unfold on_ids; by rewrite E1).
  destruct (openInternal_ok p1 id [] Hfresh) as (l & p2 & E2 & L2 & Hst2 & Hids2 & Eb2).
  destruct (genesis_commit l p2 L2 Eb2) as (l3 & p3 & E3 & L3 & Hst3 & Hids3).
  intros Hc. destruct Hc as [q1 Eq1|q1 q2 lq Eq1 Eq2|q1 q2 lq s d h Eq1 Eq2 Hcr|q1 q2 lq q3 lq3 Eq1 Eq2 Eq3];
    rewrite E1' in Eq1; injection Eq1 as <-; try (rewrite E2 in Eq2; injection Eq2 as <- <-).
  - split; [done|]. split; [done|]. split; [done|]. by left.
  - rewrite Hids2. split; [done|]. split; [done|]. split; [done|]. by left.
  - cbn [idStore]. rewrite Hids2. split; [done|]. split; [done|]. split; [done|].
    destruct (crash_lag db0 Hdb0 Hsp0 l [] gb L2 (gn_block _ _ _ _ _ G)) with (id := id) (s' := s) (d' := d) (h' := h)
      as (bs' & pos & L & Hbs); [intros b2 u2; by apply genesis_admitted|done|].
    assert (stored (mkProvider (idStore p2) (<[id := mkStorage s d h]> (ledgers p2))) id bs') as Hst.
    { destruct (Hopen _ _ (lag_store _ _ _ _ L)) as (s' & Es & Hs'). exists pos, s'.
      unfold LedgerProvider.storage_of. cbn [ledgers]. rewrite lookup_insert_eq.
      split; [exact Es|]. eapply lag_reopen; [exact L|done|done|done]. }
    destruct Hbs as [->|(b2 & u2 & Ev & ->)]; [by left|right].
    rewrite (sync_nil_db l L2), (gn_valid _ _ _ _ _ G) in Ev. by injection Ev as <- <-.
  - rewrite E3 in Eq3. injection Eq3 as <- <-. rewrite Hids3, Hids2.
    split; [done|]. split; [done|]. split; [done|]. by right.
Qed.

Lemma crash_recovered p' :
  create_crash p' ->
  exists p'', NewProvider true marshal_Block OpenBlockStore no_storage p' = (p'', Ok tt) /\ idle p'' /\
    ((stored p'' id [] /\ forall id', listed (idStore p'') id' <-> listed (idStore p) id') \/
     (stored p'' id [b'] /\ forall id', listed (idStore p'') id' <-> id' = id \/ listed (idStore p) id')).
Proof.
  intros Hc. destruct (crash_states p' Hc) as (Hids & Hf & Hl & Hst).
  unfold NewProvider, recoverUnderConstructionLedger. rewrite (st_bind_Ok _ _ p' p' p' eq_refl).
  assert (getUnderConstructionFlag (idStore p') = Ok id) as ->.
  { unfold getUnderConstructionFlag. rewrite DB_Get_spec by apply Hids. unfold flag_of in Hf.
    rewrite Hf, res_ret_bind. cbn. f_equal. apply String.string_of_list_ascii_of_string. }
  rewrite (st_bind_Ok _ _ p' p' id eq_refl). rewrite decide_False by apply (gn_name _ _ _ _ _ G).
  assert (forall bs, stored p' id bs -> exists l p2, panicOnErr (openInternal id) p' = (p2, Ok l) /\
    in_sync db0 l bs /\ stored p2 id bs /\ idStore p2 = idStore p') as Hop.
  { intros bs Hs. destruct (openInternal_ok p' id bs Hs) as (l & p2 & E & L & Hs2 & Hi & _).
    exists l, p2. unfold panicOnErr. by rewrite E. }
  destruct Hst as [Hst|Hst]; destruct (Hop _ Hst) as (l & p2 & E2 & L2 & Hst2 & Hi2);
    rewrite (st_bind_Ok _ _ _ _ _ E2); unfold ledger_GetBlockchainInfo; cbv zeta;
    rewrite (GetBlockchainInfo_spec _ _ (lag_store _ _ _ _ L2)); cbn [length Z.of_nat].
  - change (Z.of_nat 0 =? 0) with true. cbv iota. rewrite (st_bind_Ok _ _ p2 p2 tt eq_refl).
    destruct (unset_flag_spec (idStore p2)) as (s3 & E3 & Hids3 & Hf3 & Hl3); [by rewrite Hi2|].
    unfold panicOnErr, on_ids. rewrite E3. eexists. split; [reflexivity|]. split; [done|]. left.
    split; [exact Hst2|]. intros id'. cbn [idStore]. by rewrite Hl3, Hi2.
  - change (Z.of_nat 1 =? 0) with false. change (Z.of_nat 1 =? 1) with true. cbv iota.
    unfold GetBlockByNumber. change 0 with (Z.of_nat 0) at 1.
    rewrite (RetrieveBlockByNumber_spec _ [b'] 0 b' (lag_store _ _ _ _ L2) eq_refl).
    rewrite (st_bind_Ok _ _ p2 p2 b' eq_refl).
    destruct (create_id_spec marshal_Block id b' (idStore p2)) as (s3 & E3 & Hids3 & Hf3 & Hl3);
      [by rewrite Hi2|by rewrite Hi2, Hl|apply (gn_marshal _ _ _ _ _ G)|].
    unfold panicOnErr, on_ids. rewrite E3. eexists. split; [reflexivity|]. split; [done|]. right.
    split; [exact Hst2|]. intros id'. cbn [idStore]. by rewrite Hl3, Hi2, Hl.
Qed.

End Create.
End Ledgers.
End ProviderFacts.
