(* ===== verification/LedgerTheorems.v ===== *)
(** * What the ledger promises

    The block store on files as the block store of the ledger; the theorems on
    committing blocks, on recovery and on the provider of ledgers. *)

From S2P Require Import Prelude Version StateDB LevelDB StateLevelDB RWSet Merkle Proto Instances.
From S2P Require Import Validator TxMgr BlockHash BlockCodec BlockFiles BlockIndex BlockMgr BlockChain.
From S2P Require Import BlockStore BlockRecovery BlockIterator BlockTheorems History KVLedger KVProvider.
From stdpp Require Import gmap strings list.

(** ** The files *)

Module FsLedgerStore.
Import LevelDB Proto BlockHash Buf BlockSerialization FileName Streams World BlockIndex BlockMgr
  BlockChain BlockStore BlockRecovery BlockIterator BlockRuns.
Local Open Scope Z_scope.

Section Fs.
Context {S : Type} `{LevelDBSpec S} `{ProtoCodec} `{CryptoHash}.
Context (max : Z) (items : list IndexableAttr).

Definition fs_state : Type := FsBlockStore.fsBlockStore * World S.

#[export] Instance fs_store : BlockStore fs_state := {
  AddBlock b s := FsBlockStore.AddBlock b (s.1, with_faults s.2 []);
  GetBlockchainInfo s := FsBlockStore.GetBlockchainInfo s.1;
  RetrieveBlocks s := FsBlockStore.RetrieveBlocks s.1;
  RetrieveBlockByHash := FsBlockStore.RetrieveBlockByHash;
  RetrieveBlockByNumber := FsBlockStore.RetrieveBlockByNumber;
  RetrieveTxByID := FsBlockStore.RetrieveTxByID;
  RetrieveTxByBlockNumTranNum := FsBlockStore.RetrieveTxByBlockNumTranNum;
  RetrieveBlockByTxID := FsBlockStore.RetrieveBlockByTxID;
  RetrieveTxValidationCodeByTxID := FsBlockStore.RetrieveTxValidationCodeByTxID
}.

(** Opening the files again. *)
Definition fs_open (s : fs_state) : res fs_state :=
  match FsBlockStore.newFsBlockStore max items (with_faults s.2 []) with
  | (w, Ok g) => Ok (g, w)
  | (_, Err e) => Err e
  | (_, Panic m) => Panic m
  | (_, OutOfFuel) => OutOfFuel
  end.

Record fs_holds (s : fs_state) (bs : list Block) : Prop := {
  fh_rep : rep_ex s.1 s.2 bs;
  fh_index : index s.1 = newBlockIndex items;
  fh_len : Z.of_nat (length bs) < 2 ^ 62
}.

Lemma info_height bs : Height (info_of bs) = Z.of_nat (length bs).
Proof. unfold info_of. destruct (last bs) eqn:El; [done|]. by apply last_None in El as ->. Qed.

Context (Hmax : max < 2 ^ 62) (Hnum : IndexableAttrBlockNum ∈ items).

Lemma fs_indexed s bs a : fs_holds s bs -> a ∈ items -> indexed (index s.1) a = true.
Proof. intros Hs Ha. rewrite (fh_index _ _ Hs). by apply bool_decide_eq_true. Qed.

Lemma fs_step s bs b fs :
  fs_holds s bs -> admissible s.1 bs b -> Number (blk_Header b) = Z.of_nat (length bs) -> faults_handled fs ->
  exists ev s' bs', store_op max items s b fs = Ok (ev, s') /\ fs_holds s' bs' /\
    (bs' = bs \/ bs' = bs ++ [b]) /\ (fs = [] -> parsable b -> ev = Added /\ bs' = bs ++ [b]).
Proof.
  intros [R Ei Hl] Ha En Hf. destruct s as [g w]. cbn [fst snd] in *.
  destruct (store_op_ok max items g w bs b fs R Ei Hnum Hmax Ha Hf) as (ev & g' & w' & bs' & E & Hc & R' & Ei' & Hn & _).
  assert (bs' = bs \/ bs' = bs ++ [b]) as Hbs by (inversion Hc; subst; auto).
  exists ev, (g', w'), bs'. split; [done|]. split; [split; try done|split; [done|]].
  - destruct Hbs as [-> | ->]; [done|]. rewrite length_app. cbn. pose proof (ad_len _ _ _ Ha). lia.
  - intros -> Hp. rewrite (Hn eq_refl En Hp) in *. split; [done|]. by inversion Hc.
Qed.

Lemma fs_open_ok s bs : fs_holds s bs -> exists s', fs_open s = Ok s' /\ fs_holds s' bs.
Proof.
  intros [R Ei Hl]. unfold fs_open, FsBlockStore.newFsBlockStore.
  destruct (restart_ok max items (with_faults s.2 []) bs) as (w' & g' & -> & Ei' & _ & _ & R'); [|done..|].
  - apply durable_with. rewrite <- Ei. by apply rep_durable_ex.
  - exists (g', w'). by split.
Qed.

Lemma store_op_added (s : blockfileMgr * World S) b fs s' :
  store_op max items s b fs = Ok (Added, s') -> addBlock b (s.1, with_faults s.2 fs) = (s', Ok tt).
Proof.
  unfold store_op. destruct (addBlock b (s.1, with_faults s.2 fs)) as [s1 [[]|e|m|]]; try done.
  - by intros [= ->].
  - by destruct (newBlockfileMgr _ _ _) as [? []].
Qed.

(** The first start, on an empty directory. *)
Lemma fs_open_new g (w : World S) :
  world_ok w -> w_disk w = ∅ -> (forall k, view w k = None) ->
  exists s', fs_open (g, w) = Ok s' /\ fs_holds s' [].
Proof.
  intros Hw Hd Hv. unfold fs_open, FsBlockStore.newFsBlockStore. cbn [snd].
  destruct (first_start_ok max items (with_faults w [])) as (w' & g' & -> & Ei' & _ & _ & R'); [done..|].
  exists (g', w'). by split.
Qed.

#[export] Instance fs_chain_spec : ChainStoreSpec fs_state.
Proof.
  refine {| KVLedger.holds := fs_holds;
            reopened s s' := fs_open s = Ok s';
            after_crash b s s' := exists fs, faults_handled fs /\ store_op max items s b fs = Ok (Crashed, s') |}.
  - intros s bs Hs. apply Hs.
  - intros s bs [(segs & seg & R) _ _]. cbn. unfold FsBlockStore.GetBlockchainInfo, getBlockchainInfo.
    rewrite (r_info _ _ _ _ _ R). apply info_height.
  - intros s bs k b Hs Hb. pose proof (fs_indexed _ _ _ Hs Hnum) as Hx. destruct (fh_rep _ _ Hs) as (segs & seg & R).
    destruct s as [g w]. by eapply retrieve_number.
  - intros s bs s' Hs E. destruct (fs_open_ok _ _ Hs) as (s2 & E2 & Hs2). congruence.
Defined.

Lemma fs_crash s bs b s' :
  fs_holds s bs -> admissible s.1 bs b -> Number (blk_Header b) = Z.of_nat (length bs) -> after_crash b s s' ->
  fs_holds s' bs \/ fs_holds s' (bs ++ [b]).
Proof.
  intros Hs Ha En (fs & Hf & E).
  destruct (fs_step s bs b fs Hs Ha En Hf) as (ev & s2 & bs' & E2 & Hs' & Hbs & _).
  rewrite E in E2. injection E2 as <- <-. by destruct Hbs as [->| ->]; [left|right].
Qed.

(** The store of a peer: the transactions are indexed by their place. *)
Section Peer.
Context (Htran : IndexableAttrBlockNumTranNum ∈ items).

#[export] Instance fs_store_spec : BlockStoreSpec fs_state.
Proof.
  refine {| ledger_chain := fs_chain_spec;
            admits s bs b := admissible s.1 bs b /\ parsable b |}.
  - intros s bs k b j tx Hs Hb Htx. pose proof (fs_indexed _ _ _ Hs Htran) as Hx.
    destruct (fh_rep _ _ Hs) as (segs & seg & R). destruct s as [g w]. by eapply retrieve_tran.
  - intros s bs b Hs [Ha Hp] En. destruct (fs_step s bs b [] Hs Ha En) as (ev & s' & bs' & E & Hs' & _ & Hn).
    { split; apply not_elem_of_nil. }
    destruct (Hn eq_refl Hp) as [-> ->]. exists s'. split; [|done]. by apply store_op_added in E.
  - intros s bs b s' Hs [Ha _]. by apply fs_crash.
Defined.

End Peer.

End Fs.
End FsLedgerStore.

(** ** The theorems *)

Module LedgerTheorems.
Import RWSetUtil Provider ProtoUtils Height KVLedger LedgerFacts IdStore BlockUtils LedgerProvider ProviderFacts
  HistoryFacts HistoryTheorems FsLedgerStore.
Local Open Scope Z_scope.

Section Ledger.
Context {DB : Type} `{VersionedDBSpec DB} `{Merkle.Hashing} `{RWSetCodec} `{ProtoCodec}.
Context {S : Type} `{LevelDBSpec S} {B : Type} `{!BlockStore B} `{!BlockStoreSpec B}.

(** C11: Committing a block.  A ledger is in sync with a chain when its block
    store holds the chain, its state database is the result of replaying the
    chain, and its history database has the chain's records.  The commit of
    the next block validates it and then cannot fail: the ledger is in sync
    with the chain extended by the block with its validation flags.  If the
    validation fails, the ledger is unchanged and the error is returned. *)
Theorem ledger_commits (db0 : DB) (l : @kvLedger DB S B) bs block :
  db_ok db0 -> savepoint db0 = None ->
  in_sync db0 l bs -> ledger_block (length bs) block ->
  (forall b' u, Validator.ValidateAndPrepareBatch (TxMgr.db (txtmgmt l)) block true = (b', Ok u) ->
     admits (blockStore l) bs b') ->
  match Validator.ValidateAndPrepareBatch (TxMgr.db (txtmgmt l)) block true with
  | (b', Ok u) => exists l', Commit true block l = (l', Ok tt) /\ in_sync db0 l' (bs ++ [b']) /\
                    TxMgr.batch (txtmgmt l') = None
  | (_, Err e) => Commit true block l = (l, Err e)
  | (_, Panic p) => Commit true block l = (l, Panic p)
  | (_, OutOfFuel) => Commit true block l = (l, OutOfFuel)
  end.
Proof. intros. by apply commit_ok. Qed.

(** C12: Recovery.  When the process dies while a block is committed (before,
    while or after the block is added to the store, or after the state was
    written), opening the ledger again recommits what the databases miss: the
    ledger is in sync with the old chain, or with the old chain and the
    block. *)
Theorem ledger_recovers (db0 : DB) (l : @kvLedger DB S B) bs block id s' d' h' :
  db_ok db0 -> savepoint db0 = None ->
  in_sync db0 l bs -> ledger_block (length bs) block ->
  (forall b' u, Validator.ValidateAndPrepareBatch (TxMgr.db (txtmgmt l)) block true = (b', Ok u) ->
     admits (blockStore l) bs b') ->
  crashed l block s' d' h' ->
  exists l' bs', newKVLedger true id s' d' h' = (l', Ok tt) /\ in_sync db0 l' bs' /\
    (bs' = bs \/ exists b' u, Validator.ValidateAndPrepareBatch (TxMgr.db (txtmgmt l)) block true = (b', Ok u) /\
       bs' = bs ++ [b']).
Proof. intros Hdb Hsp. intros. by apply (crash_recovers db0 Hdb Hsp l bs block). Qed.

(** The history of a key, asked of a ledger in sync with a chain, is read
    from the block store: the writes of the key by valid transactions, in the
    order of the chain. *)
Theorem ledger_history (db0 : DB) (l : @kvLedger DB S B) bs ns key :
  in_sync db0 l bs -> trans_ok bs -> ns_ok ns -> unconfused ns key bs ->
  exists sc, KVLedger.GetHistoryForKey true l ns key = Ok sc /\
    HistoryDB.scan_all (RetrieveTxByBlockNumTranNum (blockStore l))
      (Datatypes.S (length (chain_hits ns key bs))) sc = Ok (snd <$> chain_hits ns key bs).
Proof.
  intros L Ht Hns Hu. pose proof (lag_hist _ _ _ _ L) as Hh. cbv beta in Hh. rewrite firstn_all in Hh.
  destruct (history_ok (historyDB l) bs ns key Hh (lag_hist_blocks _ _ _ _ L) Ht Hns Hu
    (RetrieveTxByBlockNumTranNum (blockStore l))) as (sc & E & Es); [|by exists sc].
  intros b t e Hb He. apply list_elem_of_lookup in Hb as [k Hk].
  rewrite (lb_number _ _ (lag_blocks _ _ _ _ L k b Hk)). eapply RetrieveTx_spec; [apply L|done..].
Qed.

Context (marshal_Block : Block -> res bytes) (OpenBlockStore : B -> res B).
Context (no_storage : string -> @storage DB S B).

(** Creating a ledger from a genesis block, on a peer where no ledger is
    under construction and no ledger has the block's channel id: the ledger
    holds exactly the genesis block, its id is listed in addition to the
    others, and the construction flag is cleared. *)
Theorem ledger_created (db0 : DB) (p : @Provider DB S B) id gb b' u :
  db_ok db0 -> savepoint db0 = None ->
  (forall s bs, holds s bs -> exists s', OpenBlockStore s = Ok s' /\ holds s' bs) ->
  idle p -> stored OpenBlockStore no_storage db0 p id [] -> ~ listed (idStore p) id ->
  genesis marshal_Block OpenBlockStore no_storage db0 p id gb b' u ->
  exists l p', Create true marshal_Block OpenBlockStore no_storage gb p = (p', Ok l) /\
    in_sync db0 l [b'] /\ stored OpenBlockStore no_storage db0 p' id [b'] /\ idle p' /\
    forall id', listed (idStore p') id' <-> id' = id \/ listed (idStore p) id'.
Proof. intros. by eapply create_ok. Qed.

(** A creation that the process does not survive is completed or undone
    when the peer starts again: no ledger is under construction, and either
    the chain is empty and the ids are as before, or the chain is the genesis
    block and the id is listed. *)
Theorem creation_recovers (db0 : DB) (p : @Provider DB S B) id gb b' u p' :
  db_ok db0 -> savepoint db0 = None ->
  (forall s bs, holds s bs -> exists s', OpenBlockStore s = Ok s' /\ holds s' bs) ->
  idle p -> stored OpenBlockStore no_storage db0 p id [] -> ~ listed (idStore p) id ->
  genesis marshal_Block OpenBlockStore no_storage db0 p id gb b' u ->
  create_crash OpenBlockStore no_storage p id gb p' ->
  exists p'', NewProvider true marshal_Block OpenBlockStore no_storage p' = (p'', Ok tt) /\ idle p'' /\
    ((stored OpenBlockStore no_storage db0 p'' id [] /\
        forall id', listed (idStore p'') id' <-> listed (idStore p) id') \/
     (stored OpenBlockStore no_storage db0 p'' id [b'] /\
        forall id', listed (idStore p'') id' <-> id' = id \/ listed (idStore p) id')).
Proof. intros. by eapply crash_recovered. Qed.

(** Listing the ledgers.  When no ledger is under construction the list
    has each id exactly once; while one is, the loop never ends. *)
Theorem ledgers_listed (p : @Provider DB S B) :
  ids_ok (idStore p) ->
  match flag_of (idStore p) with
  | None => exists ids, (exists n, forall fuel, (n <= fuel)%nat -> List fuel p = Ok ids) /\
              NoDup ids /\ forall id, id ∈ ids <-> listed (idStore p) id
  | Some _ => forall fuel, List fuel p = OutOfFuel
  end.
Proof.
  intros Hp. destruct (flag_of (idStore p)) as [v|] eqn:Ef; [|by apply get_all_ok].
  intros fuel. by eapply get_all_stuck.
Qed.

End Ledger.

(** ** A ledger on files *)

#[local] Existing Instance BlockTheorems.demo_hash.

Abbreviation mem_fs := (@fs_state MemStore.MemStore).
Abbreviation mem_ledger := (@kvLedger mem_db MemStore.MemStore mem_fs).
Abbreviation w_open := (fs_open (S := MemStore.MemStore) 100000 attrsToIndex).

Lemma w_num : BlockIndex.IndexableAttrBlockNum ∈ attrsToIndex.
Proof. unfold attrsToIndex. set_solver. Qed.
Lemma w_tran : BlockIndex.IndexableAttrBlockNumTranNum ∈ attrsToIndex.
Proof. unfold attrsToIndex. set_solver. Qed.

#[local] Instance w_store_spec : BlockStoreSpec mem_fs := fs_store_spec 100000 attrsToIndex eq_refl w_num w_tran.

Definition w_genesis : Block := w_blk 0 [w_tx "t0" "a" "v0"] [0].
Definition w_block1 : Block := w_blk 1 [w_tx "t1" "a" "v1"] [0].

Definition w_flagged (d : mem_db) (b : Block) : Block := fst (Validator.ValidateAndPrepareBatch d b true).

Definition ledger_block_b (i : nat) (b : Block) : bool :=
  (Number (blk_Header b) =? Z.of_nat i) && (Z.of_nat i <? 2 ^ 63) && (Z.of_nat (length (blk_Data b)) <? 2 ^ 63) &&
  forallb (fun env => match Validator.rwset_of env with
    | Ok rw => forallb (fun s => bool_decide (ns_ok (NameSpace s))) rw | _ => true end) (blk_Data b).

Lemma ledger_block_b_ok (i : nat) (b : Block) : ledger_block_b i b = true -> ledger_block i b.
Proof.
  unfold ledger_block_b. rewrite !andb_true_iff, Z.eqb_eq, !Z.ltb_lt. intros [[[Hn Hi] Hl] Hs].
  split; try done. intros env rw s He Hr Hin. apply (forallb_elem _ _ _ Hs) in He. rewrite Hr in He.
  apply (forallb_elem _ _ _ He) in Hin. by apply bool_decide_eq_true in Hin.
Qed.

Lemma w_hist_ok : hist_inv w_hist [].
Proof.
  split; [split; [by apply (bool_decide_unpack _); vm_compute|done]|]. intros k. unfold hist_view.
  case_decide; [done|]. by rewrite decide_False by apply not_elem_of_nil.
Qed.

Lemma w_lag0 (id : string) (s : mem_fs) :
  fs_holds attrsToIndex s [] -> in_sync empty_db (mkKVLedger id s (TxMgr.NewLockBasedTxMgr empty_db) w_hist) [].
Proof. intros Hs. split; cbn; try done; [by destruct i..|apply w_hist_ok]. Qed.

Definition w_fits (b : Block) : bool :=
  BlockTheorems.block_good_b (BlockIndex.newBlockIndex attrsToIndex) b &&
  BlockTheorems.first_file BlockTheorems.demo0 b.

Lemma w_admitted (g : BlockMgr.blockfileMgr) (w : World.World MemStore.MemStore) b :
  BlockTheorems.demo0 = Ok (BlockRuns.Added, (g, w)) -> BlockMgr.index g = BlockIndex.newBlockIndex attrsToIndex ->
  w_fits b = true -> BlockRuns.admissible g [] b /\ BlockChain.parsable b.
Proof.
  intros E Ei [Hg Hf]%andb_true_iff. split; [|by apply (BlockTheorems.block_good_b_ok _ _ Hg)].
  apply (BlockTheorems.demo_admissible BlockTheorems.demo0 BlockRuns.Added g w [] b E Hf Ei); [|done].
  by apply BlockTheorems.block_good_b_ok.
Qed.

(** The validation of the genesis block. *)
Lemma w_valid :
  exists u, Validator.ValidateAndPrepareBatch empty_db w_genesis true = (w_flagged empty_db w_genesis, Ok u).
Proof.
  assert (match snd (Validator.ValidateAndPrepareBatch empty_db w_genesis true) with Ok _ => True | _ => False end)
    as Hp by (by vm_compute).
  unfold w_flagged. destruct (Validator.ValidateAndPrepareBatch empty_db w_genesis true) as [b' [u| | |]];
    [by exists u|destruct Hp..].
Qed.

(** A new ledger on files. *)
Lemma w_ledger0 :
  exists l : mem_ledger, in_sync empty_db l [] /\ TxMgr.db (txtmgmt l) = empty_db /\
    (forall b' u, Validator.ValidateAndPrepareBatch (TxMgr.db (txtmgmt l)) w_genesis true = (b', Ok u) ->
       admits (blockStore l) [] b').
Proof.
  destruct BlockTheorems.demo0_ok as (g & w & E & R & Ei).
  exists (mkKVLedger "ch" (g, w) (TxMgr.NewLockBasedTxMgr empty_db) w_hist).
  split; [by apply w_lag0; split|]. split; [done|]. intros b' u Ev. cbn [txtmgmt TxMgr.NewLockBasedTxMgr TxMgr.db] in Ev.
  destruct w_valid as [u' Ev']. rewrite Ev' in Ev. apply pair_equal_spec in Ev as [<- _].
  apply (w_admitted g w _ E Ei). by vm_compute.
Qed.

Lemma w_genesis_ok : ledger_block 0 w_genesis.
Proof. apply ledger_block_b_ok. by vm_compute. Qed.

Lemma ledger_commits_witness :
  exists l l' : mem_ledger, in_sync empty_db l [] /\ Commit true w_genesis l = (l', Ok tt) /\
    in_sync empty_db l' [w_flagged empty_db w_genesis].
Proof.
  destruct w_ledger0 as (l & L & Ed & Ha).
  pose proof (ledger_commits empty_db l [] w_genesis empty_db_ok eq_refl L w_genesis_ok Ha) as Hc.
  destruct w_valid as [u Ev]. rewrite Ed, Ev in Hc. destruct Hc as (l' & Ec & L' & _).
  exists l, l'. split; [exact L|]. split; [exact Ec|exact L'].
Defined.

(** The ledger after its first block. *)
Lemma w_ledger1 :
  exists l : mem_ledger, in_sync empty_db l [w_flagged empty_db w_genesis].
Proof.
  destruct w_ledger0 as (l & L & Ed & Ha).
  pose proof (commit_ok empty_db empty_db_ok eq_refl l [] w_genesis L w_genesis_ok Ha) as Hc.
  destruct w_valid as [u Ev]. rewrite Ed, Ev in Hc. destruct Hc as (l' & _ & L' & _). by exists l'.
Qed.

Lemma ledger_recovers_witness :
  exists (l : mem_ledger) s' l' bs', crashed l w_genesis s' (TxMgr.db (txtmgmt l)) (historyDB l) /\
    newKVLedger true "ch" s' (TxMgr.db (txtmgmt l)) (historyDB l) = (l', Ok tt) /\ in_sync empty_db l' bs'.
Proof.
  destruct w_ledger0 as (l & L & Ed & Ha). destruct w_valid as [u Ev]. rewrite <- Ed in Ev.
  destruct (AddBlock_spec _ _ _ (lag_store _ _ _ _ L) (Ha _ _ Ev)) as (s1 & E1 & H1); [by vm_compute|].
  destruct (fs_open_ok 100000 attrsToIndex eq_refl w_num s1 _ H1) as (s' & E' & _).
  assert (crashed l w_genesis s' (TxMgr.db (txtmgmt l)) (historyDB l)) as Hc
    by exact (cr_state l w_genesis _ u s1 s' Ev E1 E').
  destruct (ledger_recovers empty_db l [] w_genesis "ch" s' _ _ empty_db_ok eq_refl L w_genesis_ok Ha Hc)
    as (l' & bs' & E & L' & _).
  exists l, s', l', bs'. split; [exact Hc|]. split; [exact E|exact L'].
Defined.

Lemma ledger_history_witness :
  exists (l : mem_ledger) sc, KVLedger.GetHistoryForKey true l "cc" "a" = Ok sc /\
    HistoryDB.scan_all (RetrieveTxByBlockNumTranNum (blockStore l)) 2 sc =
      Ok [HistoryDB.mkKeyModification "t0" (Some (to_bytes "v0")) 0 false].
Proof.
  destruct w_ledger1 as [l L].
  destruct (ledger_history empty_db l [w_flagged empty_db w_genesis] "cc" "a" L) as (sc & E & Es).
  - intros b e Hb He. apply tran_ok_b_ok. revert e He. apply Forall_forall. revert b Hb.
    apply Forall_forall. repeat constructor; by vm_compute.
  - apply (bool_decide_unpack _). by vm_compute.
  - apply unconfused_b_ok. by vm_compute.
  - assert (chain_hits "cc" "a" [w_flagged empty_db w_genesis] =
      [(NewHeight 0 0, HistoryDB.mkKeyModification "t0" (Some (to_bytes "v0")) 0 false)]) as Eh by (by vm_compute).
    rewrite Eh in Es. exists l, sc. split; [exact E|exact Es].
Defined.

(** *** A peer without ledgers *)

Definition w_mgr : BlockMgr.blockfileMgr :=
  BlockMgr.mkMgr 0 [] (BlockMgr.mkCheckpointInfo 0 0 true 0) "" (BlockMgr.mkBlockchainInfo 0 [] []).

Definition w_storage (id : string) : @storage mem_db MemStore.MemStore mem_fs :=
  mkStorage (w_mgr, BlockTheorems.demo_world) empty_db w_hist.

Definition w_marshal (b : Block) : res bytes := Ok [].

Definition w_peer : @Provider mem_db MemStore.MemStore mem_fs := mkProvider ∅ ∅.

Lemma w_opens :
  exists g w, BlockTheorems.demo0 = Ok (BlockRuns.Added, (g, w)) /\
    w_open (w_mgr, BlockTheorems.demo_world) = Ok (g, w) /\ fs_holds attrsToIndex (g, w) [] /\
    BlockMgr.index g = BlockIndex.newBlockIndex attrsToIndex.
Proof.
  destruct BlockTheorems.demo0_ok as (g & w & E & R & Ei). exists g, w. split; [done|].
  split; [|by split]. unfold BlockTheorems.demo0 in E.
  assert (BlockTheorems.demo_start = (w, Ok g)) as Es.
  { destruct BlockTheorems.demo_start as [w' [g'| | |]]; [|discriminate E..].
    apply Ok_inj in E. apply pair_equal_spec in E as [_ E]. apply pair_equal_spec in E as [-> ->]. done. }
  unfold fs_open, FsBlockStore.newFsBlockStore. cbn [snd].
  change (BlockMgr.newBlockfileMgr 100000 attrsToIndex (BlockRuns.with_faults BlockTheorems.demo_world []))
    with BlockTheorems.demo_start. by rewrite Es.
Qed.

Lemma w_stored : stored w_open w_storage empty_db w_peer "ch" [].
Proof.
  destruct w_opens as (g & w & _ & E & Hs & _). exists (fun _ => 0%nat), (g, w). split; [exact E|].
  by apply w_lag0.
Qed.

Lemma w_idle : idle w_peer.
Proof. split; [|done]. split; [done|]. by intros k [v Hv]. Qed.

Lemma w_genesis_block u :
  Validator.ValidateAndPrepareBatch empty_db w_genesis true = (w_flagged empty_db w_genesis, Ok u) ->
  genesis w_marshal w_open w_storage empty_db w_peer "ch" w_genesis (w_flagged empty_db w_genesis) u.
Proof.
  intros Ev. split; [by vm_compute|done|apply w_genesis_ok|exact Ev| |done].
  intros s Es. destruct w_opens as (g & w & E0 & E & _ & Ei).
  change (st_blocks (storage_of w_storage w_peer "ch")) with (w_mgr, BlockTheorems.demo_world) in Es.
  rewrite E in Es. apply Ok_inj in Es as <-. apply (w_admitted g w _ E0 Ei). by vm_compute.
Qed.

Lemma w_open_ok (s : mem_fs) bs : holds s bs -> exists s', w_open s = Ok s' /\ holds s' bs.
Proof. apply (fs_open_ok 100000 attrsToIndex eq_refl w_num). Qed.

Lemma ledger_created_witness :
  exists l p', Create true w_marshal w_open w_storage w_genesis w_peer = (p', Ok l) /\
    in_sync empty_db l [w_flagged empty_db w_genesis] /\ listed (idStore p') "ch".
Proof.
  destruct w_valid as [u Ev].
  destruct (ledger_created w_marshal w_open w_storage empty_db w_peer "ch" w_genesis (w_flagged empty_db w_genesis) u
    empty_db_ok eq_refl w_open_ok w_idle w_stored) as (l & p' & E & L & _ & _ & Hl).
  - intros [v Hv]. discriminate Hv.
  - by apply w_genesis_block.
  - exists l, p'. split; [exact E|]. split; [exact L|]. apply Hl. by left.
Defined.

Lemma w_flag_set :
  exists p1, on_ids (setUnderConstructionFlag "ch") w_peer = (p1, Ok tt) /\ ledgers p1 = ∅.
Proof. by eexists. Qed.

Lemma creation_recovers_witness :
  exists p' p'', create_crash w_open w_storage w_peer "ch" w_genesis p' /\
    NewProvider true w_marshal w_open w_storage p' = (p'', Ok tt) /\ idle p''.
Proof.
  destruct w_valid as [u Ev]. destruct w_flag_set as (p1 & E1 & El).
  assert (stored w_open w_storage empty_db p1 "ch" []) as Hst.
  { pose proof w_stored as Hst. unfold stored, storage_of in *. rewrite El. exact Hst. }
  destruct (openInternal_ok w_open w_storage empty_db empty_db_ok eq_refl w_open_ok p1 "ch" [] Hst)
    as (l & p2 & E2 & _).
  pose proof (cc_open w_open w_storage w_peer "ch" w_genesis p1 p2 l E1 E2) as Hc.
  destruct (creation_recovers w_marshal w_open w_storage empty_db w_peer "ch" w_genesis
    (w_flagged empty_db w_genesis) u p2 empty_db_ok eq_refl w_open_ok w_idle w_stored) as (p'' & E & Hi & _).
  - intros [v Hv]. discriminate Hv.
  - by apply w_genesis_block.
  - exact Hc.
  - exists p2, p''. split; [exact Hc|]. split; [exact E|exact Hi].
Defined.

Lemma ledgers_listed_witness :
  exists p : @Provider mem_db MemStore.MemStore mem_fs,
    on_ids (setUnderConstructionFlag "ch") w_peer = (p, Ok tt) /\ forall fuel, List fuel p = OutOfFuel.
Proof.
  destruct w_idle as [Hi _]. destruct (set_flag_spec (idStore w_peer) "ch" Hi) as (s & E & Hs & Hf & _).
  exists (mkProvider s ∅). split; [unfold on_ids; by rewrite E|].
  pose proof (ledgers_listed (mkProvider s ∅ : @Provider mem_db MemStore.MemStore mem_fs) Hs) as Hl.
  cbn [idStore] in Hl. rewrite Hf in Hl. exact Hl.
Defined.

End LedgerTheorems.
