(* ===== verification/OrdererStore.v ===== *)
(** * The block store of an orderer

    orderer/ledger/file/factory.go opens the block store on the file system
    with the numbers of the blocks as its only index.  It implements what the
    orderers rely on, [OrdererStoreSpec]: a block that it took is the end of
    its chain, whatever the block holds, as long as the files that are left are
    within the integers of the machine. *)

From stdpp Require Import base gmap strings list.
From Stdlib Require Import Ascii ZArith Lia.
From S2P Require Import Prelude LevelDB Proto Instances BlockHash BlockCodec BlockFiles BlockIndex.
From S2P Require Import BlockMgr BlockChain BlockStore BlockRecovery BlockIterator BlockTheorems KVLedger LedgerTheorems.
Import LevelDB Proto BlockHash Buf BlockSerialization World BlockIndex BlockMgr BlockChain BlockStore BlockRecovery BlockRuns
  FsLedgerStore.
Local Open Scope Z_scope.

(** ** What a successful call wrote *)

Module AddedBlock.
Section AddedBlock.
Context {S : Type} `{LevelDB S} `{ProtoCodec} `{CryptoHash}.

Definition disk_grows (w w' : World S) : Prop :=
  forall p f, w_disk w !! p = Some f -> exists f', w_disk w' !! p = Some f' /\ (length f <= length f')%nat.

Lemma disk_grows_same (w w' : World S) : w_disk w' = w_disk w -> disk_grows w w'.
Proof. intros E p f Hf. exists f. by rewrite E. Qed.

Lemma disk_grows_trans (w1 w2 w3 : World S) : disk_grows w1 w2 -> disk_grows w2 w3 -> disk_grows w1 w3.
Proof.
  intros H12 H23 p f Hf. destruct (H12 p f Hf) as (f2 & Hf2 & ?). destruct (H23 p f2 Hf2) as (f3 & Hf3 & ?).
  exists f3. split; [done|lia].
Qed.

Lemma next_fault_disk (w : World S) : w_disk (next_fault w).1 = w_disk w.
Proof. unfold next_fault. by destruct (w_faults w). Qed.

Lemma effect_disk (act : ST (World S) unit) fails msg (w : World S) :
  (forall w, w_disk (act w).1 = w_disk w) -> w_disk (effect act fails msg w).1 = w_disk w.
Proof.
  intros Ha. unfold effect, mbind, st_bind. pose proof (next_fault_disk w) as En.
  destruct (next_fault w) as [w1 [f| | |]]; try done. cbn in En. rewrite <- En.
  destruct f; try (destruct (fails _); [done|apply Ha]). destruct (decide _); [done|].
  pose proof (Ha w1) as Ha1. by destruct (act w1) as [w2 [[]| | |]].
Qed.

Lemma db_Put_disk k v sync (w w' : World S) r : db_Put k v sync w = (w', r) -> w_disk w' = w_disk w.
Proof.
  intros E. change w' with (w', r).1. rewrite <- E. apply effect_disk. intros w1. unfold mbind, st_bind, st_get, st_lift. by destruct (Provider.Put _ _ _ _).
Qed.

Lemma indexBlock_disk items info (w w' : World S) r : indexBlock items info w = (w', r) -> w_disk w' = w_disk w.
Proof.
  intros E. change w' with (w', r).1. rewrite <- E. unfold indexBlock. destruct items as [|a items]; [done|]. unfold mbind at 1, st_bind at 1, st_lift at 1.
  destruct (index_batch _ _) as [batch| | |]; try done. apply effect_disk. intros w1.
  unfold mbind, st_bind, st_get, st_lift. by destruct (Provider.WriteBatch _ _ _).
Qed.

Lemma append_wrote path x sync (w w' : World S) u :
  append path x sync w = (w', Ok u) ->
  disk_grows w w' /\ exists f, w_disk w' !! path = Some f /\ (length x <= length f)%nat.
Proof.
  intros E. assert (w_disk w' = <[path := default [] (w_disk w !! path) ++ x]> (w_disk w)) as Ed.
  { unfold append, mbind, st_bind in E. pose proof (next_fault_disk w) as En.
    destruct (next_fault w) as [w1 [f| | |]]; try done. cbn in En. rewrite <- En.
    destruct f; cbn in E; try (by injection E as <- _); try done. destruct sync; [done|by injection E as <- _]. }
  unfold disk_grows. rewrite Ed. split.
  - intros p f Hf. destruct (decide (p = path)) as [->|Hne]; [|rewrite lookup_insert_ne by done; by exists f].
    rewrite lookup_insert_eq, Hf. eexists. split; [done|]. cbn. rewrite length_app. lia.
  - rewrite lookup_insert_eq. eexists. split; [done|]. rewrite length_app. lia.
Qed.

Lemma newBlockfileWriter_wrote path (w w' : World S) p :
  newBlockfileWriter path w = (w', Ok p) -> disk_grows w w'.
Proof.
  unfold newBlockfileWriter. intros E. apply st_bind_inv in E as (w1 & u & E & E'). injection E' as <- _.
  unfold effect, mbind, st_bind in E. pose proof (next_fault_disk w) as En.
  destruct (next_fault w) as [w2 [f| | |]]; try done. cbn in En.
  assert (forall w3, w_disk w3 = w_disk w -> disk_grows w
    (mkWorld match w_disk w3 !! path with Some _ => w_disk w3 | None => <[path := []]> (w_disk w3) end (w_db w3) (w_faults w3))) as Ho.
  { intros w3 E3 q g Hg. cbn. rewrite E3. exists g. split; [|done]. destruct (w_disk w !! path) eqn:Ep; [done|].
    rewrite lookup_insert_ne; [done|congruence]. }
  destruct f; cbn in E; try done; try (destruct (decide _); done); injection E as <- _; by apply Ho.
Qed.

Lemma on_world_inv {A} (m : ST (World S) A) (g g' : blockfileMgr) (w w' : World S) r :
  on_world m (g, w) = ((g', w'), r) -> g' = g /\ m w = (w', r).
Proof. unfold on_world. destruct (m w) as [w1 r1]. by intros [= <- <- <-]. Qed.

Lemma st_try_inv {St A} (m : ST St A) s s' x :
  st_try m s = (s', Ok x) -> m s = (s', match x with inl a => Ok a | inr e => Err e end).
Proof. unfold st_try. by destruct (m s) as [s1 [| | |]]; intros [= <- <-]. Qed.

Lemma or_panic_inv {St A} (m : ST St A) s s' a : or_panic m s = (s', Ok a) -> m s = (s', Ok a).
Proof. unfold or_panic. by destruct (m s) as [s1 [| | |]]; intros [= <- <-]. Qed.

(** The state only grows when a block is written. *)
Record wrote_state (s s' : blockfileMgr * World S) : Prop := {
  ws_disk : disk_grows s.2 s'.2;
  ws_files : latestFileChunkSuffixNum (cpInfo s.1) <= latestFileChunkSuffixNum (cpInfo s'.1);
  ws_index : index s'.1 = index s.1
}.

Lemma wrote_state_trans s1 s2 s3 : wrote_state s1 s2 -> wrote_state s2 s3 -> wrote_state s1 s3.
Proof. intros [D1 F1 I1] [D2 F2 I2]. split; [by eapply disk_grows_trans|lia|congruence]. Qed.

Lemma moveToNextFile_wrote s s' u : moveToNextFile s = (s', Ok u) -> wrote_state s s'.
Proof.
  destruct s as [g w]. unfold moveToNextFile. intros E. apply st_bind_inv in E as (s1 & [g1 w1] & [= <- <- <-] & E).
  apply st_bind_inv in E as ([g2 w2] & p & [-> E2]%on_world_inv & E). apply or_panic_inv, newBlockfileWriter_wrote in E2.
  apply st_bind_inv in E as ([g3 w3] & [] & [-> E3]%on_world_inv & E). apply or_panic_inv in E3.
  apply db_Put_disk in E3.
  apply st_bind_inv in E as (s4 & [] & [= <-] & E). injection E as <- _. split; cbn; [|lia|done].
  eapply disk_grows_trans; [exact E2|]. by apply disk_grows_same.
Qed.

Lemma write_block_wrote b x info h off s s' u :
  write_block b x info h off s = (s', Ok u) ->
  wrote_state s s' /\ (exists p f, w_disk s'.2 !! p = Some f /\ (length x <= length f)%nat) /\
  (index s.1 <> [] -> exists flags, blk_Metadata b !! TRANSACTIONS_FILTER = Some flags).
Proof.
  destruct s as [g w]. unfold write_block. intros E. apply st_bind_inv in E as (s1 & [g1 w1] & [= <- <- <-] & E). cbn [fst] in E.
  apply st_bind_inv in E as ([g2 w2] & r & E2%st_try_inv & E). apply on_world_inv in E2 as [-> E2].
  destruct r as [[]|err]; [|by apply st_bind_inv in E as (? & ? & _ & E)].
  apply st_bind_inv in E2 as (w3 & [] & E3 & E2). apply append_wrote in E3 as [Hg3 _], E2 as (Hg2 & f & Hf & Hlen).
  apply st_bind_inv in E as ([g4 w4] & r & E4%st_try_inv & E). apply on_world_inv in E4 as [-> E4].
  destruct r as [[]|err]; [|by apply st_bind_inv in E as (? & ? & _ & E)].
  apply db_Put_disk in E4 as Hd4.
  apply st_bind_inv in E as ([g5 w5] & r & E5%st_try_inv & E). apply on_world_inv in E5 as [-> E5].
  pose proof (indexBlock_disk _ _ _ _ _ E5) as Hd5. apply st_bind_inv in E as (s6 & [] & [= <-] & E). injection E as <- _.
  split; [split; cbn; [|lia|done]|split].
  - do 2 (eapply disk_grows_trans; [eassumption|]). apply disk_grows_same. congruence.
  - cbn. rewrite Hd5, Hd4. eauto.
  - cbn. intros Hix. unfold indexBlock in E5. destruct (index g) as [|a l]; [done|].
    unfold mbind at 1, st_bind at 1, st_lift, index_batch in E5. cbn [bi_metadata] in E5.
    destruct (blk_Metadata b !! TRANSACTIONS_FILTER) as [flags|]; [by exists flags|]. by destruct r.
Qed.

(** A block that was added was serialized, hashed and written to a file. *)
Lemma addBlock_wrote b s s' u :
  addBlock b s = (s', Ok u) ->
  wrote_state s s' /\ is_ok (header_Hash (blk_Header b)) /\ parsable b /\
  (exists p f, w_disk s'.2 !! p = Some f /\ (length (block_bytes b) <= length f)%nat) /\
  (index s.1 <> [] -> exists flags, blk_Metadata b !! TRANSACTIONS_FILTER = Some flags).
Proof.
  destruct s as [g w]. unfold addBlock. intros E. apply st_bind_inv in E as (s1 & [g1 w1] & [= <- <- <-] & E). cbn [fst] in E.
  destruct (negb _); [done|]. apply st_bind_inv in E as (s2 & [x info] & E2 & E). injection E2 as <- Es.
  destruct (serializeBlock b) as [[x' info']| | |] eqn:Eb; try done. injection Es as -> ->.
  apply st_bind_inv in E as (s3 & h & [= <- Eh] & E).
  pose proof (serialize_parsable _ _ Eb) as Hp. apply serializeBlock_inv in Eb as (ids & _ & -> & _).
  apply st_bind_inv in E as (s4 & off & E4 & E). apply write_block_wrote in E as (Hw & Hf & Hm).
  assert (wrote_state (g, w) s4) as Hw4.
  { destruct (_ <? _); [|by injection E4 as <- _; split; [by apply disk_grows_same|done|done]].
    apply st_bind_inv in E4 as (s5 & [] & E5 & E4). injection E4 as <- _. by eapply moveToNextFile_wrote. }
  rewrite (ws_index _ _ Hw4) in Hm. split; [by eapply wrote_state_trans|]. rewrite Eh. done.
Qed.

End AddedBlock.
End AddedBlock.

(** ** The store of the orderers *)

Module OrdererStore.
Import AddedBlock.

(** [New]: the index of the numbers alone, and the default size of a file. *)
Definition attrsToIndex : list IndexableAttr := [IndexableAttrBlockNum].
Definition max_file : Z := NewConf (-1).

Lemma length_items l :
  (length l <= length (items_bytes l))%nat /\ Forall (fun x : bytes => (length x <= length (items_bytes l))%nat) l.
Proof.
  unfold items_bytes. induction l as [|x l [IHn IHl]]; [by split|]. cbn [fmap list_fmap concat length].
  rewrite length_app. unfold EncodeRawBytes at 1. rewrite length_app.
  pose proof (EncodeVarint_pos (Z.of_nat (length x))) as Hpos. split; [lia|]. constructor.
  - unfold EncodeRawBytes at 1. rewrite length_app. lia.
  - eapply Forall_impl; [exact IHl|]. intros y Hy. cbn in Hy. lia.
Qed.

(** The parts of a block are no longer than its serialization. *)
Lemma block_bytes_wf b :
  u64 (Number (blk_Header b)) -> Z.of_nat (length (block_bytes b)) < 2 ^ 56 -> block_wf b.
Proof.
  intros Hn Hl. unfold block_bytes, header_bytes, EncodeRawBytes in Hl. rewrite !length_app in Hl.
  destruct (length_items (blk_Data b)) as [Hd Hdl], (length_items (blk_Metadata b)) as [Hm Hml].
  unfold block_wf, len_ok. split_and!; try lia; [done|..].
  - eapply Forall_impl; [exact Hdl|]. intros x Hx. cbn in Hx. lia.
  - eapply Forall_impl; [exact Hml|]. intros x Hx. cbn in Hx. lia.
Qed.

Section OrdererStore.
Context {S : Type} `{LevelDBSpec S} `{ProtoCodec} `{CryptoHash}.

Local Abbreviation file_store := (fs_state (S := S)).

(** Files shorter than 2^56 bytes, and file numbers below 2^62. *)
Definition file_limits (s : file_store) : Prop :=
  latestFileChunkSuffixNum (cpInfo s.1) + 3 < 2 ^ 62 /\
  map_Forall (fun _ f => Z.of_nat (length f) < 2 ^ 56) (w_disk s.2).

Definition file_sized (s : file_store) (b : Block) : Prop :=
  latestFileChunkSuffixNum (cpInfo s.1) + 3 < 2 ^ 62 /\ block_sized attrsToIndex b /\ serializeBlock b <> OutOfFuel.

Lemma wrote_limits s s' : wrote_state s s' -> file_limits s' -> file_limits s.
Proof.
  intros [Hd Hf _] [Hl Hm]. unfold fs_state, FsBlockStore.fsBlockStore in *. split; [destruct s, s'; cbn in *; lia|]. intros p f Hp. destruct (Hd _ _ Hp) as (f' & Hp' & Hle).
  specialize (Hm _ _ Hp'). cbn in Hm. lia.
Qed.

Lemma fs_took s bs b s' :
  fs_holds attrsToIndex s bs -> bs <> [] -> Z.of_nat (length bs) < 2 ^ 61 ->
  Number (blk_Header b) = Z.of_nat (length bs) -> AddBlock b s = (s', Ok tt) -> file_limits s' ->
  fs_holds attrsToIndex s' (bs ++ [b]).
Proof.
  intros Hs Hne Hlen En E Hl'. cbn in E.
  destruct (addBlock_wrote _ _ _ _ E) as (Hw & Hh & Hp & (p & f & Hf & Hle) & Hm).
  assert (file_limits s) as [Hlim _] by (exact (wrote_limits _ _ Hw Hl')). destruct Hl' as [_ Hdisk].
  specialize (Hdisk _ _ Hf). cbn in Hdisk. pose proof (fh_index _ _ _ Hs) as Ei.
  assert (index s.1 <> []) as Hix by (by rewrite Ei).
  assert (block_sized attrsToIndex b) as Hsz.
  { destruct (Hm Hix) as [flags Hfl]. split.
    - apply block_bytes_wf; [rewrite En; unfold u64; lia|lia].
    - done.
    - unfold Streams.frame_ok. lia.
    - exists flags. split; [done|]. by intros Hin%list_elem_of_singleton.
    - by intros Hin%list_elem_of_singleton. }
  assert (admissible s.1 bs b) as Had.
  { split; [by rewrite Ei| |lia|lia|by left].
    by rewrite (serialize_good attrsToIndex b (Build_block_good _ _ Hsz Hp)). }
  destruct (fs_step max_file attrsToIndex eq_refl ltac:(by left) s bs b [] Hs Had En) as (ev & s2 & bs2 & E2 & Hs2 & _ & Hn).
  { split; apply not_elem_of_nil. }
  destruct (Hn eq_refl Hp) as [-> ->]. apply store_op_added in E2. cbn in E2.
  pose proof (eq_trans (eq_sym E) E2) as E3. injection E3 as ->. done.
Qed.

Definition file_chain_spec : ChainStoreSpec file_store := fs_chain_spec max_file attrsToIndex eq_refl ltac:(by left).

#[export] Instance file_store_spec : OrdererStoreSpec file_store.
Proof.
  refine {| orderer_chain := file_chain_spec; limits := file_limits; sized := file_sized |}.
  - intros s bs b s'. apply fs_took.
  - intros s b s' E. cbn in E. apply addBlock_wrote in E as [Hw _]. exact (wrote_limits _ _ Hw).
  - intros s bs b s' Hs Hne Hlen En (Hf & Hsz & Hr) Hc.
    apply (fs_crash max_file attrsToIndex eq_refl ltac:(by left) s bs b s' Hs); [|done|done].
    split; [by rewrite (fh_index _ _ _ Hs)|done|lia|done|by left].
Defined.

End OrdererStore.
End OrdererStore.
