(* ===== verification/Bccsp.v ===== *)
(** * The software crypto provider

    bccsp/sw: the signatures of the software-based provider, which are ECDSA
    signatures with the smaller of the two possible values of S, its hash
    functions, the import of the keys of certificates, and bccsp/signer.  The
    primitives of the Go library and golang.org/x/crypto are parameters. *)

From stdpp Require Import base strings list.
From Stdlib Require Import Ascii ZArith Lia.
From S2P Require Import Prelude Instances.
Local Open Scope Z_scope.

(** ** Keys *)

(** [crypto/elliptic]: the curves of the library, and others. *)
Inductive Curve := P224 | P256 | P384 | P521 | OtherCurve (N : Z).

(** [Params().N]: the order of the group. *)
Definition Params_N (c : Curve) : Z :=
  match c with
  | P224 => 26959946667150639794667015087019625940457807714424391721682722368061
  | P256 => 115792089210356248762697446949407573529996955224135760342422259061068512044369
  | P384 => 39402006196394479212279040100143613805079739270465446667946905279627659399113263569398956308152294913554433653942643
  | P521 => 6864797660130609714981900799081393217269435300143305409394463459185543183397655394245057746333217197532963996371363321113864768612440380340372808892707005449
  | OtherCurve N => N
  end.

(** [ecdsa.PublicKey], the point as [elliptic.Marshal] gives it, and
    [ecdsa.PrivateKey]. *)
Record PublicKey := mkPublicKey { pk_Curve : Curve; pk_Point : bytes }.
Record PrivateKey := mkPrivateKey { sk_PublicKey : PublicKey; sk_D : Z }.

#[export] Instance Curve_eq_dec : EqDecision Curve.
Proof. solve_decision. Defined.
#[export] Instance PublicKey_eq_dec : EqDecision PublicKey.
Proof. solve_decision. Defined.

(** [bccsp.Key]: the types of key of the provider. *)
Inductive Key :=
| ecdsaPrivateKey (privKey : PrivateKey)
| ecdsaPublicKey (pubKey : PublicKey)
| rsaPrivateKey (privKey : bytes)
| rsaPublicKey (pubKey : bytes)
| aesPrivateKey (privKey : bytes).

(** [bccsp.SignerOpts] *)
Inductive SignerOpts := PSSOptions | OtherSignerOpts.

(** [bccsp.HashOpts] *)
Inductive HashOpts := SHAOpts | SHA256Opts | SHA384Opts | SHA3_256Opts | SHA3_384Opts.

(** What the Go library computes.  [ecdsa_Sign] draws from [entropy]. *)
Class Primitives := {
  ecdsa_Sign : bytes -> PrivateKey -> bytes -> res (Z * Z);
  ecdsa_Verify : PublicKey -> bytes -> Z -> Z -> bool;
  rsa_Sign : bytes -> bytes -> bytes -> SignerOpts -> res bytes;
  rsa_VerifyPSS : bytes -> bytes -> bytes -> res unit;
  rsa_PublicKey : bytes -> bytes;
  asn1_Marshal_RS : Z -> Z -> res bytes;
  asn1_Unmarshal_RS : bytes -> res (option Z * option Z);
  hash_Sum : HashOpts -> bytes -> bytes;
  MarshalPKIXPublicKey : Key -> res bytes;
  DERToPublicKey : bytes -> res unit;
  (** [utils.DERToPrivateKey], of the types of key *)
  DERToPrivateKey : bytes -> res Key
}.

(** ECDSA: a signature is a pair of residues other than 0, it verifies, and so
    does the one with the opposite S. *)
Class PrimitivesSpec `{Primitives} : Prop := {
  Sign_range e k d r s : ecdsa_Sign e k d = Ok (r, s) -> 0 < r /\ 0 < s < Params_N (pk_Curve (sk_PublicKey k));
  Sign_verifies e k d r s : ecdsa_Sign e k d = Ok (r, s) -> ecdsa_Verify (sk_PublicKey k) d r s = true;
  Verify_opposite pk d r s : 0 < s < Params_N (pk_Curve pk) -> ecdsa_Verify pk d r (Params_N (pk_Curve pk) - s) = ecdsa_Verify pk d r s;
  asn1_RS r s : exists b, asn1_Marshal_RS r s = Ok b /\ b <> [] /\ asn1_Unmarshal_RS b = Ok (Some r, Some s);
  hash_nonempty o b : hash_Sum o b <> []
}.

Module SW.

(** ** conf.go *)

Record config := mkConfig { ellipticCurve : Curve; hashFunction : HashOpts; aesBitLength : Z; rsaBitLength : Z }.

Definition setSecurityLevelSHA2 (level : Z) : res config :=
  if level =? 256 then Ok (mkConfig P256 SHA256Opts 32 2048)
  else if level =? 384 then Ok (mkConfig P384 SHA384Opts 32 3072)
  else Err "Security level not supported".

Definition setSecurityLevelSHA3 (level : Z) : res config :=
  if level =? 256 then Ok (mkConfig P256 SHA3_256Opts 32 2048)
  else if level =? 384 then Ok (mkConfig P384 SHA3_384Opts 32 3072)
  else Err "Security level not supported".

Definition setSecurityLevel (securityLevel : Z) (hashFamily : string) : res config :=
  if decide (hashFamily = "SHA2") then setSecurityLevelSHA2 securityLevel
  else if decide (hashFamily = "SHA3") then setSecurityLevelSHA3 securityLevel
  else Err ("Hash Family not supported [" +:+ hashFamily +:+ "]").

Section SW.
Context `{Primitives}.

(** ** ecdsa.go *)

Definition curveHalfOrders (c : Curve) : option Z :=
  match c with OtherCurve _ => None | c => Some (Z.shiftr (Params_N c) 1) end.

Definition MarshalECDSASignature (r s : Z) : res bytes := asn1_Marshal_RS r s.

Definition UnmarshalECDSASignature (raw : bytes) : res (Z * Z) :=
  '(R, S_) ← or_fail "Failed unmashalling signature" (asn1_Unmarshal_RS raw);
  match R, S_ with
  | None, _ => Err "Invalid signature. R must be different from nil."
  | _, None => Err "Invalid signature. S must be different from nil."
  | Some r, Some s =>
      if negb (Z.sgn r =? 1) then Err "Invalid signature. R must be larger than zero"
      else if negb (Z.sgn s =? 1) then Err "Invalid signature. S must be larger than zero"
      else Ok (r, s)
  end.

Definition IsLowS (k : PublicKey) (s : Z) : res bool :=
  match curveHalfOrders (pk_Curve k) with
  | None => Err "Curve not recognized"
  | Some halfOrder => Ok (s <=? halfOrder)
  end.

Definition ToLowS (k : PublicKey) (s : Z) : res (Z * bool) :=
  lowS ← IsLowS k s;
  Ok (if (lowS : bool) then (s, false) else (Params_N (pk_Curve k) - s, true)).

Definition signECDSA (entropy : bytes) (k : PrivateKey) (digest : bytes) : res bytes :=
  '(r, s) ← ecdsa_Sign entropy k digest;
  '(s, _) ← ToLowS (sk_PublicKey k) s;
  MarshalECDSASignature r s.

Definition verifyECDSA (k : PublicKey) (signature digest : bytes) : res bool :=
  '(r, s) ← or_fail "Failed unmashalling signature" (UnmarshalECDSASignature signature);
  lowS ← IsLowS k s;
  if negb lowS then Err "Invalid S. Must be smaller than half the order" else Ok (ecdsa_Verify k digest r s).

Definition SignatureToLowS (k : PublicKey) (signature : bytes) : res bytes :=
  '(r, s) ← UnmarshalECDSASignature signature;
  '(s, modified) ← ToLowS k s;
  if (modified : bool) then MarshalECDSASignature r s else Ok signature.

(** ** rsa.go *)

Definition rsa_sign (entropy k digest : bytes) (opts : option SignerOpts) : res bytes :=
  match opts with None => Err "Invalid options. Must be different from nil." | Some o => rsa_Sign entropy k digest o end.

Definition rsa_verify (k signature digest : bytes) (opts : option SignerOpts) : res bool :=
  match opts with
  | None => Err "Invalid options. It must not be nil."
  | Some PSSOptions => rsa_VerifyPSS k digest signature;; Ok true
  | Some _ => Err "Opts type not recognized"
  end.

(** ** impl.go *)

(** [hashers], with the configured function for [SHAOpts] *)
Definition hasher (conf : config) (opts : HashOpts) : HashOpts := match opts with SHAOpts => hashFunction conf | o => o end.

Definition Hash (conf : config) (msg : bytes) (opts : option HashOpts) : res bytes :=
  match opts with None => Err "Invalid opts. It must not be nil." | Some o => Ok (hash_Sum (hasher conf o) msg) end.

(** [signers] *)
Definition Sign (entropy : bytes) (k : option Key) (digest : bytes) (opts : option SignerOpts) : res bytes :=
  match k with
  | None => Err "Invalid Key. It must not be nil."
  | Some k =>
      if is_nil digest then Err "Invalid digest. Cannot be empty."
      else
        match k with
        | ecdsaPrivateKey privKey => or_fail "Failed signing with opts" (signECDSA entropy privKey digest)
        | rsaPrivateKey privKey => or_fail "Failed signing with opts" (rsa_sign entropy privKey digest opts)
        | _ => Err "Unsupported 'SignKey' provided"
        end
  end.

(** [verifiers] *)
Definition Verify (k : option Key) (signature digest : bytes) (opts : option SignerOpts) : res bool :=
  match k with
  | None => Err "Invalid Key. It must not be nil."
  | Some k =>
      if is_nil signature then Err "Invalid signature. Cannot be empty."
      else if is_nil digest then Err "Invalid digest. Cannot be empty."
      else
        match k with
        | ecdsaPrivateKey privKey => or_fail "Failed verifing with opts" (verifyECDSA (sk_PublicKey privKey) signature digest)
        | ecdsaPublicKey pubKey => or_fail "Failed verifing with opts" (verifyECDSA pubKey signature digest)
        | rsaPrivateKey privKey => or_fail "Failed verifing with opts" (rsa_verify (rsa_PublicKey privKey) signature digest opts)
        | rsaPublicKey pubKey => or_fail "Failed verifing with opts" (rsa_verify pubKey signature digest opts)
        | aesPrivateKey _ => Err "Unsupported 'VerifyKey' provided"
        end
  end.

(** *** keyimport.go *)

(** [ECDSAPrivateKeyImportOpts] *)
Definition KeyImport_ecdsa (der : bytes) : res Key :=
  or_fail "Failed importing key with opts"
    (if is_nil der then Err "[ECDSADERPrivateKeyImportOpts] Invalid raw. It must not be nil."
     else
       key ← or_fail "Failed converting PKIX to ECDSA public key" (DERToPrivateKey der);
       match key with
       | ecdsaPrivateKey _ => Ok key
       | _ => Err "Failed casting to ECDSA private key. Invalid raw material."
       end).

(** ** ecdsakey.go, rsakey.go, aeskey.go *)

Definition Symmetric (k : Key) : bool := match k with aesPrivateKey _ => true | _ => false end.

Definition key_PublicKey (k : Key) : res Key :=
  match k with
  | ecdsaPrivateKey privKey => Ok (ecdsaPublicKey (sk_PublicKey privKey))
  | rsaPrivateKey privKey => Ok (rsaPublicKey (rsa_PublicKey privKey))
  | aesPrivateKey _ => Err "Cannot call this method on a symmetric key."
  | k => Ok k
  end.

(** The subject key identifier. *)
Definition SKI (k : Key) : bytes :=
  match k with
  | ecdsaPrivateKey privKey => hash_Sum SHA256Opts (pk_Point (sk_PublicKey privKey))
  | ecdsaPublicKey pubKey => hash_Sum SHA256Opts (pk_Point pubKey)
  | rsaPrivateKey privKey => hash_Sum SHA256Opts (rsa_PublicKey privKey)
  | rsaPublicKey pubKey => hash_Sum SHA256Opts pubKey
  | aesPrivateKey privKey => hash_Sum SHA256Opts (uint8 1 :: privKey)
  end.

(** ** bccsp/signer/signer.go *)

(** The signer is the key. *)
Definition signer_New (key : option Key) : res Key :=
  match key with
  | None => Err "key must be different from nil."
  | Some key =>
      if Symmetric key then Err "key must be asymmetric."
      else
        pub ← or_fail "failed getting public key" (key_PublicKey key);
        raw ← or_fail "failed marshalling public key" (MarshalPKIXPublicKey pub);
        or_fail "failed marshalling der to public key" (DERToPublicKey raw);;
        Ok key
  end.

End SW.
End SW.

(** ** bccsp/hashopts.go *)

Definition GetHashOpt (hashFunction : string) : res HashOpts :=
  if decide (hashFunction = "SHA256") then Ok SHA256Opts
  else if decide (hashFunction = "SHA384") then Ok SHA384Opts
  else if decide (hashFunction = "SHA3_256") then Ok SHA3_256Opts
  else if decide (hashFunction = "SHA3_384") then Ok SHA3_384Opts
  else Err ("hash function not recognized [" +:+ hashFunction +:+ "]").

(** ** Signatures with a low S *)

Module BccspFacts.
Import SW.

Lemma half_order c h : curveHalfOrders c = Some h -> 0 < h /\ Params_N c = 2 * h + 1.
Proof. destruct c; intros [= <-]; by vm_compute. Qed.

Section BccspFacts.
Context `{PrimitivesSpec}.

Lemma UnmarshalECDSASignature_inv raw r s : UnmarshalECDSASignature raw = Ok (r, s) -> asn1_Unmarshal_RS raw = Ok (Some r, Some s) /\ 0 < r /\ 0 < s.
Proof.
  unfold UnmarshalECDSASignature. intros E. apply res_bind_Ok in E as ([R S_] & E1 & E).
  assert (asn1_Unmarshal_RS raw = Ok (R, S_)) as -> by (by destruct (asn1_Unmarshal_RS raw)).
  destruct R as [r'|], S_ as [s'|]; try done. destruct (Z.eqb_spec (Z.sgn r') 1); [|done]. destruct (Z.eqb_spec (Z.sgn s') 1); [|done].
  injection E as -> ->. split; [done|]. lia.
Qed.

Lemma marshal_RS r s : 0 < r -> 0 < s -> exists b, MarshalECDSASignature r s = Ok b /\ b <> [] /\ UnmarshalECDSASignature b = Ok (r, s).
Proof.
  intros Hr Hs. destruct (asn1_RS r s) as (b & Em & Hb & Eu). exists b. split; [done|]. split; [done|].
  unfold UnmarshalECDSASignature. rewrite Eu. cbn. by destruct (Z.eqb_spec (Z.sgn r) 1), (Z.eqb_spec (Z.sgn s) 1); try lia.
Qed.

(** Of the two signatures with S and -S, the one with the lower S. *)
Lemma ToLowS_spec k s h : curveHalfOrders (pk_Curve k) = Some h -> 0 < s < Params_N (pk_Curve k) ->
  exists s' m, ToLowS k s = Ok (s', m) /\ 0 < s' <= h /\ (m = false -> s' = s) /\ (forall d r, ecdsa_Verify k d r s' = ecdsa_Verify k d r s).
Proof.
  intros Eh Hs. unfold ToLowS, IsLowS. rewrite Eh, res_ret_bind. destruct (half_order _ _ Eh) as [Hh HN]. destruct (Z.leb_spec s h).
  - exists s, false. split; [done|]. split; [lia|]. by split.
  - exists (Params_N (pk_Curve k) - s), true. split; [done|]. split; [lia|]. split; [done|]. intros d r. by apply Verify_opposite.
Qed.

Lemma verifyECDSA_low k sig d r s h : curveHalfOrders (pk_Curve k) = Some h -> UnmarshalECDSASignature sig = Ok (r, s) ->
  verifyECDSA k sig d = if s <=? h then Ok (ecdsa_Verify k d r s) else Err "Invalid S. Must be smaller than half the order".
Proof. intros Eh Eu. unfold verifyECDSA, IsLowS. rewrite Eu. cbn. rewrite Eh. cbn. by destruct (s <=? h). Qed.

Lemma signECDSA_spec e sk d sig : signECDSA e sk d = Ok sig ->
  exists r s h, curveHalfOrders (pk_Curve (sk_PublicKey sk)) = Some h /\ UnmarshalECDSASignature sig = Ok (r, s) /\ 0 < s <= h /\ sig <> [] /\
    verifyECDSA (sk_PublicKey sk) sig d = Ok true.
Proof.
  unfold signECDSA. intros E. apply res_bind_Ok in E as ([r s] & Es & E). apply res_bind_Ok in E as ([s' m] & El & E).
  destruct (Sign_range _ _ _ _ _ Es) as [Hr Hs]. destruct (curveHalfOrders (pk_Curve (sk_PublicKey sk))) as [h|] eqn:Eh.
  2:{ unfold ToLowS, IsLowS in El. by rewrite Eh in El. }
  destruct (ToLowS_spec _ _ _ Eh Hs) as (s1 & m1 & El1 & Hlow & _ & Hv). rewrite El in El1. injection El1 as <- <-.
  destruct (marshal_RS r s' Hr ltac:(lia)) as (b & Em & Hb & Eu). rewrite E in Em. injection Em as <-. exists r, s', h. do 4 (split; [done|]).
  rewrite (verifyECDSA_low _ _ _ _ _ _ Eh Eu). destruct (Z.leb_spec s' h); [|lia]. by rewrite Hv, (Sign_verifies _ _ _ _ _ Es).
Qed.

Lemma SignatureToLowS_spec k sig r s h : curveHalfOrders (pk_Curve k) = Some h -> UnmarshalECDSASignature sig = Ok (r, s) -> s < Params_N (pk_Curve k) ->
  exists sig' s', SignatureToLowS k sig = Ok sig' /\ UnmarshalECDSASignature sig' = Ok (r, s') /\ 0 < s' <= h /\
    SignatureToLowS k sig' = Ok sig' /\ forall d, ecdsa_Verify k d r s' = ecdsa_Verify k d r s.
Proof.
  intros Eh Eu HN. destruct (UnmarshalECDSASignature_inv _ _ _ Eu) as (_ & Hr & Hs).
  destruct (ToLowS_spec k s h Eh ltac:(lia)) as (s' & m & El & Hlow & Hm & Hv).
  assert (exists sig', SignatureToLowS k sig = Ok sig' /\ UnmarshalECDSASignature sig' = Ok (r, s')) as (sig' & E1 & E2).
  { unfold SignatureToLowS. rewrite Eu, res_ret_bind, El, res_ret_bind. destruct m.
    - destruct (marshal_RS r s' Hr ltac:(lia)) as (b & Em & _ & Eu'). by exists b.
    - rewrite (Hm eq_refl). by exists sig. }
  exists sig', s'. do 3 (split; [done|]). split; [|done]. unfold SignatureToLowS, ToLowS, IsLowS. rewrite E2, res_ret_bind, Eh, !res_ret_bind.
  destruct (Z.leb_spec s' h); [done|lia].
Qed.

End BccspFacts.
End BccspFacts.

Module BccspTheorems.
Import SW BccspFacts.
Section BccspTheorems.
Context `{PrimitivesSpec}.

(** C33: the signatures of the provider are the canonical ones.  What it signs has
    an S of at most half the order of the group and verifies; normalizing a
    signature gives such an S, does not change what the signature is of and is
    done once; and of the two signatures that differ in the sign of S at most
    one passes. *)
Theorem signatures_low_s k h :
  curveHalfOrders (pk_Curve k) = Some h ->
  (forall e sk d sig, sk_PublicKey sk = k -> signECDSA e sk d = Ok sig ->
    exists r s, UnmarshalECDSASignature sig = Ok (r, s) /\ 0 < s <= h /\ verifyECDSA k sig d = Ok true) /\
  (forall sig r s, UnmarshalECDSASignature sig = Ok (r, s) -> s < Params_N (pk_Curve k) ->
    exists sig' s', SignatureToLowS k sig = Ok sig' /\ UnmarshalECDSASignature sig' = Ok (r, s') /\ 0 < s' <= h /\
      SignatureToLowS k sig' = Ok sig' /\ forall d, verifyECDSA k sig' d = Ok (ecdsa_Verify k d r s)) /\
  (forall sig1 sig2 r s d, UnmarshalECDSASignature sig1 = Ok (r, s) -> UnmarshalECDSASignature sig2 = Ok (r, Params_N (pk_Curve k) - s) ->
    ~ (verifyECDSA k sig1 d = Ok true /\ verifyECDSA k sig2 d = Ok true)).
Proof.
  intros Eh. destruct (half_order _ _ Eh) as [Hh HN]. split; [|split].
  - intros e sk d sig <- E. destruct (signECDSA_spec _ _ _ _ E) as (r & s & h' & Eh' & Eu & Hs & _ & Ev). rewrite Eh in Eh'. injection Eh' as <-.
    by exists r, s.
  - intros sig r s Eu Hs. destruct (SignatureToLowS_spec _ _ _ _ _ Eh Eu Hs) as (sig' & s' & E1 & E2 & Hlow & E3 & Hv). exists sig', s'.
    do 4 (split; [done|]). intros d. rewrite (verifyECDSA_low _ _ _ _ _ _ Eh E2), Hv. by destruct (Z.leb_spec s' h); [|lia].
  - intros sig1 sig2 r s d E1 E2. rewrite (verifyECDSA_low _ _ _ _ _ _ Eh E1), (verifyECDSA_low _ _ _ _ _ _ Eh E2).
    destruct (Z.leb_spec s h); [|by intros [? _]]. destruct (Z.leb_spec (Params_N (pk_Curve k) - s) h); [lia|by intros [_ ?]].
Qed.

End BccspTheorems.
End BccspTheorems.

(** ** Primitives on which the theorems are applied *)

Module BccspWitnesses.
Import SW BccspFacts BccspTheorems Bits.

(** The value that the signatures of [d] with a key have for S. *)
Definition toy_S (pk : PublicKey) (d : bytes) : Z := 1 + checksum 1 0 (pk_Point pk ++ d) mod (Params_N (pk_Curve pk) - 1).

#[export] Instance toy_primitives : Primitives := {
  ecdsa_Sign _ k d :=
    if 1 <? Params_N (pk_Curve (sk_PublicKey k)) then Ok (1, Params_N (pk_Curve (sk_PublicKey k)) - toy_S (sk_PublicKey k) d) else Err "curve";
  ecdsa_Verify pk d r s := (r =? 1) && ((s =? toy_S pk d) || (s =? Params_N (pk_Curve pk) - toy_S pk d));
  rsa_Sign _ _ _ _ := Err "rsa";
  rsa_VerifyPSS _ _ _ := Err "rsa";
  rsa_PublicKey k := k;
  asn1_Marshal_RS r s := Ok ("0"%char :: to_bits (r, s));
  asn1_Unmarshal_RS b := '(r, s) ← from_bits (tail b); Ok (Some r, Some s);
  hash_Sum _ b := [uint8 (checksum 1 0 b)];
  MarshalPKIXPublicKey _ := Ok (to_bytes "key");
  DERToPublicKey _ := Ok tt;
  DERToPrivateKey _ := Err "none"
}.

#[export] Instance toy_primitives_spec : PrimitivesSpec.
Proof.
  assert (forall pk d, 1 < Params_N (pk_Curve pk) -> 0 < toy_S pk d < Params_N (pk_Curve pk)) as HS.
  { intros pk d HN. unfold toy_S. pose proof (Z.mod_pos_bound (checksum 1 0 (pk_Point pk ++ d)) (Params_N (pk_Curve pk) - 1)). lia. }
  split.
  - intros e k d r s. cbn. destruct (Z.ltb_spec 1 (Params_N (pk_Curve (sk_PublicKey k)))); [|done]. intros [= <- <-].
    pose proof (HS (sk_PublicKey k) d ltac:(lia)). lia.
  - intros e k d r s. cbn. destruct (_ <? _); [|done]. intros [= <- <-]. by rewrite !Z.eqb_refl, orb_true_r.
  - intros pk d r s _. cbn. f_equal. destruct (Z.eqb_spec s (toy_S pk d)), (Z.eqb_spec s (Params_N (pk_Curve pk) - toy_S pk d)),
      (Z.eqb_spec (Params_N (pk_Curve pk) - s) (toy_S pk d)), (Z.eqb_spec (Params_N (pk_Curve pk) - s) (Params_N (pk_Curve pk) - toy_S pk d)); lia || done.
  - intros r s. exists ("0"%char :: to_bits (r, s)). do 2 (split; [done|]). unfold asn1_Unmarshal_RS, toy_primitives, tail. by rewrite from_to_bits.
  - done.
Qed.

Definition toy_key : PrivateKey := mkPrivateKey (mkPublicKey P256 (to_bytes "point")) 7.

Lemma signatures_low_s_witness :
  exists sig, signECDSA [] toy_key (to_bytes "digest") = Ok sig /\ verifyECDSA (sk_PublicKey toy_key) sig (to_bytes "digest") = Ok true.
Proof.
  destruct (signECDSA [] toy_key (to_bytes "digest")) as [sig|e|e|] eqn:E; [|vm_compute in E; discriminate E..].
  exists sig. split; [done|]. destruct (signatures_low_s (sk_PublicKey toy_key) _ eq_refl) as [Hs _].
  destruct (Hs [] toy_key (to_bytes "digest") sig eq_refl E) as (r & s & _ & _ & Hv). exact Hv.
Defined.

(** An S of the order or more is not normalized to a positive one. *)
Example large_s_negative :
  ToLowS (sk_PublicKey toy_key) (Params_N P256 + 5) = Ok (-5, true).
Proof. vm_compute. exact eq_refl. Qed.

End BccspWitnesses.
