(* ===== verification/CAuthDSL.v ===== *)
(** * Signature policies

    common/cauthdsl: a signature policy is a tree of N-out-of gates over
    principals; it is compiled into an evaluator that marks the signatures it
    has used.  protos/common/signed_data.go: the signatures of an envelope.
    The membership service is a parameter, [MSP], and so is the generated
    unmarshalling code. *)

From stdpp Require Import base gmap sets strings list sorting.
From Stdlib Require Import Ascii ZArith Lia.
From S2P Require Import Prelude Proto BlockHash.
Import CommonUtil.
Set Warnings "-register-all".
Local Open Scope Z_scope.

(** ** Messages *)

Record SignedData := mkSignedData { sd_Data : bytes; sd_Identity : bytes; sd_Signature : bytes }.

#[export] Instance SignedData_eq_dec : EqDecision SignedData.
Proof. solve_decision. Defined.

Record SignatureHeader := mkSignatureHeader { sh_Creator : bytes; sh_Nonce : bytes }.

(** An enumeration of protobuf is open. *)
Inductive Classification := ROLE | ORGANIZATION_UNIT | IDENTITY | OtherClassification (n : Z).

Record MSPPrincipal := mkPrincipal { PrincipalClassification : Classification; Principal : bytes }.

(** [cb.SignaturePolicy]: a nil pointer and an unset [Type] are constructors. *)
Inductive SignaturePolicy :=
| NOutOf_ (N : Z) (Rules : list SignaturePolicy)
| SignedBy_ (SignedBy : Z)
| NilPolicy
| UnknownPolicy.

Record SignaturePolicyEnvelope := mkSigPolicyEnv {
  spe_Version : Z;
  spe_Rule : SignaturePolicy;
  spe_Identities : list MSPPrincipal
}.

Record ConfigSignature := mkConfigSignature { csig_Header : bytes; csig_Signature : bytes }.

Record ConfigUpdateEnvelope := mkConfigUpdateEnv {
  cue_ConfigUpdate : bytes;
  cue_Signatures : list ConfigSignature
}.

Inductive MSPRoleType := MEMBER | ADMIN.

Class SignatureCodec := {
  unmarshal_SignatureHeader : bytes -> res SignatureHeader;
  unmarshal_SignaturePolicyEnvelope : bytes -> res SignaturePolicyEnvelope;
  marshal_MSPRole : MSPRoleType -> string -> bytes
}.

(** [msp.IdentityDeserializer] and [msp.Identity] *)
Class MSP := {
  MSPIdentity : Type;
  DeserializeIdentity : bytes -> res MSPIdentity;
  SatisfiesPrincipal : MSPIdentity -> MSPPrincipal -> res unit;
  Verify : MSPIdentity -> bytes -> bytes -> res unit;
  identity_Validate : MSPIdentity -> res unit
}.

(** ** protos/common/signed_data.go *)

Module SignedDataOf.
Section SignedDataOf.
Context `{ProtoCodec} `{SignatureCodec}.

Definition config_signed_data (ConfigUpdate : bytes) (configSig : ConfigSignature) : res SignedData :=
  sigHeader ← unmarshal_SignatureHeader (csig_Header configSig);
  Ok (mkSignedData (ConcatenateBytes [csig_Header configSig; ConfigUpdate])
        (sh_Creator sigHeader) (csig_Signature configSig)).

Fixpoint all_signed_data (ConfigUpdate : bytes) (sigs : list ConfigSignature) : res (list SignedData) :=
  match sigs with
  | [] => Ok []
  | s :: sigs =>
      sd ← config_signed_data ConfigUpdate s;
      sds ← all_signed_data ConfigUpdate sigs;
      Ok (sd :: sds)
  end.

Definition config_AsSignedData (ce : ConfigUpdateEnvelope) : res (list SignedData) :=
  all_signed_data (cue_ConfigUpdate ce) (cue_Signatures ce).

Definition env_AsSignedData (env : Envelope) : res (list SignedData) :=
  payload ← unmarshal_Payload (env_Payload env);
  match pl_Header payload with
  | None => Err "Missing Header"
  | Some hdr =>
      shdr ← match unmarshal_SignatureHeader (hdr_SignatureHeader hdr) with
             | Err e => Err ("GetSignatureHeaderFromBytes failed, err " +:+ e) | r => r end;
      Ok [mkSignedData (env_Payload env) (sh_Creator shdr) (env_Signature env)]
  end.

End SignedDataOf.
End SignedDataOf.

(** ** cauthdsl.go and policy.go *)

Module CAuthDSL.
Section CAuthDSL.
Context `{SignatureCodec} `{MSP}.

Fixpoint dedup_loop (ids : gset bytes) (sds : list SignedData) : list SignedData :=
  match sds with
  | [] => []
  | sd :: sds =>
      if decide (sd_Identity sd ∈ ids) then dedup_loop ids sds
      else sd :: dedup_loop (ids ∪ {[sd_Identity sd]}) sds
  end.

Definition deduplicate (sds : list SignedData) : list SignedData := dedup_loop ∅ sds.

(** A compiled policy: whether the signatures satisfy it, and [used] after the
    call. *)
Definition evaluator : Type := list SignedData -> list bool -> res (bool * list bool).

(** The closure of [SignedBy]: the loop from the signature [i] on. *)
Fixpoint signed_by (signedByID : MSPPrincipal) (i : nat) (sds : list SignedData) (used : list bool) :
    res (bool * list bool) :=
  match sds with
  | [] => Ok (false, used)
  | sd :: sds =>
      match used !! i with
      | None => Panic "index out of range"
      | Some true => signed_by signedByID (S i) sds used
      | Some false =>
          match DeserializeIdentity (sd_Identity sd) with
          | Err _ => signed_by signedByID (S i) sds used
          | Panic m => Panic m
          | OutOfFuel => OutOfFuel
          | Ok mspid =>
              match SatisfiesPrincipal mspid signedByID with
              | Err _ => signed_by signedByID (S i) sds used
              | Panic m => Panic m
              | OutOfFuel => OutOfFuel
              | Ok _ =>
                  match Verify mspid (sd_Data sd) (sd_Signature sd) with
                  | Err _ => signed_by signedByID (S i) sds used
                  | Panic m => Panic m
                  | OutOfFuel => OutOfFuel
                  | Ok _ => Ok (true, <[i := true]> used)
                  end
              end
          end
      end
  end.

(** The closure of [NOutOf]: every sub-policy is evaluated on a copy of [used],
    which is kept when it is satisfied. *)
Fixpoint count_verified (policies : list evaluator) (signedData : list SignedData) (used : list bool)
    (verified : Z) : res (Z * list bool) :=
  match policies with
  | [] => Ok (verified, used)
  | policy :: policies =>
      '(ok, _used) ← policy signedData used;
      if ok : bool then count_verified policies signedData _used (verified + 1)
      else count_verified policies signedData used verified
  end.

Definition n_out_of (N : Z) (policies : list evaluator) : evaluator := fun signedData used =>
  '(verified, used) ← count_verified policies signedData used 0;
  Ok (N <=? verified, used).

Fixpoint compile (policy : SignaturePolicy) (identities : list MSPPrincipal) : res evaluator :=
  match policy with
  | NilPolicy => Err "Empty policy element"
  | NOutOf_ N Rules =>
      policies ← (fix compile_rules (rules : list SignaturePolicy) : res (list evaluator) :=
                    match rules with
                    | [] => Ok []
                    | r :: rules =>
                        c ← compile r identities; cs ← compile_rules rules; Ok (c :: cs)
                    end) Rules;
      Ok (n_out_of N policies)
  | SignedBy_ i =>
      if (i <? 0) || (Z.of_nat (length identities) <=? i) then Err "identity index out of range"
      else match identities !! Z.to_nat i with
           | Some signedByID => Ok (signed_by signedByID 0)
           | None => Panic "index out of range"
           end
  | UnknownPolicy => Err "Unknown type"
  end.

Definition NewPolicy (data : bytes) : res evaluator :=
  sigPolicy ← match unmarshal_SignaturePolicyEnvelope data with
              | Err e => Err ("Error unmarshaling to SignaturePolicy: " +:+ e) | r => r end;
  if negb (spe_Version sigPolicy =? 0) then
    Err "This evaluator only understands messages of version 0"
  else compile (spe_Rule sigPolicy) (spe_Identities sigPolicy).

Definition Evaluate (p : evaluator) (signatureSet : list SignedData) : res unit :=
  '(ok, _) ← p (deduplicate signatureSet) (replicate (length signatureSet) false);
  if negb ok then Err "Failed to authenticate policy" else Ok tt.

(** *** cauthdsl_builder.go *)

Definition Envelope_ (policy : SignaturePolicy) (identities : list bytes) : SignaturePolicyEnvelope :=
  mkSigPolicyEnv 0 policy (mkPrincipal IDENTITY <$> identities).

Definition SignedBy (index : Z) : SignaturePolicy := SignedBy_ index.
Definition NOutOf (n : Z) (policies : list SignaturePolicy) : SignaturePolicy := NOutOf_ n policies.
Definition And (lhs rhs : SignaturePolicy) : SignaturePolicy := NOutOf 2 [lhs; rhs].
Definition Or (lhs rhs : SignaturePolicy) : SignaturePolicy := NOutOf 1 [lhs; rhs].

Definition AcceptAllPolicy : SignaturePolicyEnvelope := Envelope_ (NOutOf 0 []) [].
Definition RejectAllPolicy : SignaturePolicyEnvelope := Envelope_ (NOutOf 1 []) [].

Definition signed_by_role (role : MSPRoleType) (mspId : string) : SignaturePolicyEnvelope :=
  mkSigPolicyEnv 0 (NOutOf 1 [SignedBy 0]) [mkPrincipal ROLE (marshal_MSPRole role mspId)].

Definition SignedByMspMember (mspId : string) : SignaturePolicyEnvelope := signed_by_role MEMBER mspId.
Definition SignedByMspAdmin (mspId : string) : SignaturePolicyEnvelope := signed_by_role ADMIN mspId.

Definition signedByAnyOfGivenRole (role : MSPRoleType) (ids : list string) : SignaturePolicyEnvelope :=
  let ids := merge_sort str_le ids in
  mkSigPolicyEnv 0
    (NOutOf 1 ((fun i => SignedBy (Z.of_nat i)) <$> seq 0 (length ids)))
    ((fun id => mkPrincipal ROLE (marshal_MSPRole role id)) <$> ids).

Definition SignedByAnyMember (ids : list string) : SignaturePolicyEnvelope := signedByAnyOfGivenRole MEMBER ids.
Definition SignedByAnyAdmin (ids : list string) : SignaturePolicyEnvelope := signedByAnyOfGivenRole ADMIN ids.

(** *** policyparser.go

    The arguments of a gate after the library [govaluate] has parsed the
    policy: numbers, principals and gates already translated. *)
Inductive gate_arg := ArgNumber (n : Z) | ArgString (s : string) | ArgPolicy (p : SignaturePolicy).

Record context := mkContext { IDNum : Z; principals : list MSPPrincipal }.

Definition newContext : context := mkContext 0 [].

(** [regex]: [^([[:alnum:]]+)([.])(member|admin)$]; the identifier and the
    role. *)
Definition alnum (c : ascii) : bool :=
  let n := N_of_ascii c in
  ((48 <=? n) && (n <=? 57) || (65 <=? n) && (n <=? 90) || (97 <=? n) && (n <=? 122))%N.

Fixpoint split_dot (s : bytes) : option (bytes * bytes) :=
  match s with
  | [] => None
  | c :: s =>
      if decide (c = "."%char) then Some ([], s)
      else match split_dot s with Some (a, b) => Some (c :: a, b) | None => None end
  end.

Definition match_principal (s : string) : option (string * MSPRoleType) :=
  match split_dot (to_bytes s) with
  | Some (org, role) =>
      if negb (bool_decide (org = [])) && forallb alnum org then
        if decide (role = to_bytes "member") then Some (to_string org, MEMBER)
        else if decide (role = to_bytes "admin") then Some (to_string org, ADMIN)
        else None
      else None
  | None => None
  end.

Fixpoint second_pass_args (ctx : context) (args : list gate_arg) : res (context * list SignaturePolicy) :=
  match args with
  | [] => Ok (ctx, [])
  | ArgString t :: args =>
      match match_principal t with
      | None => Err ("Error parsing principal " +:+ t)
      | Some (org, r) =>
          let p := mkPrincipal ROLE (marshal_MSPRole r org) in
          '(ctx', policies) ← second_pass_args (mkContext (IDNum ctx + 1) (principals ctx ++ [p])) args;
          Ok (ctx', SignedBy (IDNum ctx) :: policies)
      end
  | ArgPolicy p :: args =>
      '(ctx', policies) ← second_pass_args ctx args;
      Ok (ctx', p :: policies)
  | ArgNumber _ :: _ => Err "Unrecognized type, expected a principal or a policy"
  end.

(** [secondPass]; the first argument of the source is the context. *)
Definition secondPass (ctx : context) (args : list gate_arg) : res (context * SignaturePolicy) :=
  if (1 + length args <? 3)%nat then Err "At least 3 arguments expected"
  else
    match args with
    | ArgNumber t :: principals =>
        let n := Z.of_nat (length args) in
        if n <? t then Err "Invalid t-out-of-n predicate"
        else
          '(ctx', policies) ← second_pass_args ctx principals;
          Ok (ctx', NOutOf t policies)
    | _ => Err "Unrecognized type, expected a number"
    end.

End CAuthDSL.
End CAuthDSL.

(** ** What a policy means *)

Module CAuthFacts.
Import CAuthDSL.
Section CAuthFacts.
Context `{SignatureCodec} `{MSP}.

(** The membership service returns. *)
Definition msp_total : Prop :=
  (forall b, (exists i, DeserializeIdentity b = Ok i) \/ exists e, DeserializeIdentity b = Err e) /\
  (forall i p, SatisfiesPrincipal i p = Ok tt \/ exists e, SatisfiesPrincipal i p = Err e) /\
  (forall i d s, Verify i d s = Ok tt \/ exists e, Verify i d s = Err e).

(** The signature is valid and its identity has the principal. *)
Definition signs (sd : SignedData) (p : MSPPrincipal) : Prop :=
  exists mspid, DeserializeIdentity (sd_Identity sd) = Ok mspid /\
    SatisfiesPrincipal mspid p = Ok tt /\ Verify mspid (sd_Data sd) (sd_Signature sd) = Ok tt.

Context (identities : list MSPPrincipal) (sds : list SignedData).

(** [sat policy U]: the policy is satisfied by the signatures with the indexes
    in [U], each used once. *)
Inductive sat : SignaturePolicy -> gset nat -> Prop :=
| sat_signed i p k sd :
    0 <= i -> identities !! Z.to_nat i = Some p -> sds !! k = Some sd -> signs sd p -> sat (SignedBy_ i) {[k]}
| sat_gate N Rules U : sat_rules Rules N U -> sat (NOutOf_ N Rules) U
with sat_rules : list SignaturePolicy -> Z -> gset nat -> Prop :=
| sat_enough N : N <= 0 -> sat_rules [] N ∅
| sat_skip r rules N U : sat_rules rules N U -> sat_rules (r :: rules) N U
| sat_take r rules N U1 U2 :
    sat r U1 -> sat_rules rules (N - 1) U2 -> U1 ## U2 -> sat_rules (r :: rules) N (U1 ∪ U2).

(** What an evaluation does to [used]: it marks the signatures of [U], which
    were unmarked. *)
Definition marks (used used' : list bool) (U : gset nat) : Prop :=
  length used' = length used /\
  forall k, (k ∈ U -> used !! k = Some false /\ used' !! k = Some true) /\ (k ∉ U -> used' !! k = used !! k).

Lemma marks_empty used : marks used used ∅.
Proof. split; [done|]. intros k. split; [set_solver|done]. Qed.

Lemma marks_app used used1 used2 U1 U2 :
  marks used used1 U1 -> marks used1 used2 U2 -> U1 ## U2 /\ marks used used2 (U1 ∪ U2).
Proof.
  intros [L1 M1] [L2 M2].
  assert (U1 ## U2) as Hd.
  { intros k H1 H2. apply M1 in H1 as [_ H1]. apply M2 in H2 as [H2 _]. congruence. }
  split; [done|]. split; [congruence|]. intros k. destruct (M1 k) as [A1 B1], (M2 k) as [A2 B2]. split.
  - intros [Hk|Hk]%elem_of_union.
    + assert (k ∉ U2) by set_solver. destruct (A1 Hk). split; [done|]. by rewrite B2.
    + assert (k ∉ U1) by set_solver. destruct (A2 Hk). split; [by rewrite <- B1|done].
  - intros Hk. rewrite not_elem_of_union in Hk. destruct Hk. by rewrite B2, B1.
Qed.

Lemma signed_by_spec p i used (rest : list SignedData) ok used' :
  sds = take i sds ++ rest -> length (take i sds) = i -> signed_by p i rest used = Ok (ok, used') ->
  if ok : bool then exists k sd, sds !! k = Some sd /\ signs sd p /\ marks used used' {[k]}
  else used' = used.
Proof.
  revert i. induction rest as [|sd rest IH]; intros i Hs Hl E; cbn in E.
  { injection E as <- <-. done. }
  assert (sds !! i = Some sd) as Hi by (rewrite Hs; apply list_lookup_middle; by rewrite Hl).
  assert (signed_by p (S i) rest used = Ok (ok, used') ->
    if ok : bool then exists k sd, sds !! k = Some sd /\ signs sd p /\ marks used used' {[k]}
    else used' = used) as IH'.
  { intros E'. apply (IH (S i)); [| |done].
    - rewrite (take_S_r _ _ _ Hi), <- app_assoc. exact Hs.
    - rewrite length_take. pose proof (lookup_lt_Some _ _ _ Hi). lia. }
  destruct (used !! i) as [[]|] eqn:Hu; [by eapply IH'| |done].
  destruct (DeserializeIdentity (sd_Identity sd)) as [mspid|e| |] eqn:Ed; [|by eapply IH'|done..].
  destruct (SatisfiesPrincipal mspid p) as [[]|e| |] eqn:Ep; [|by eapply IH'|done..].
  destruct (Verify mspid (sd_Data sd) (sd_Signature sd)) as [[]|e| |] eqn:Ev; [|by eapply IH'|done..].
  injection E as <- <-. exists i, sd. split; [done|]. split; [by exists mspid|].
  split; [by rewrite length_insert|]. intros k. split.
  - intros ->%elem_of_singleton. split; [done|]. apply list_lookup_insert_eq. by eapply lookup_lt_Some.
  - intros Hk. apply list_lookup_insert_ne. set_solver.
Qed.

(** *** Soundness *)

Definition sound (policy : SignaturePolicy) (c : evaluator) : Prop := forall used ok used',
  c sds used = Ok (ok, used') -> ok = true -> exists U, sat policy U /\ marks used used' U.

Lemma count_sound rules cs used verified n used' :
  Forall2 sound rules cs -> count_verified cs sds used verified = Ok (n, used') ->
  verified <= n /\ exists U, sat_rules rules (n - verified) U /\ marks used used' U.
Proof.
  intros Hf. revert used verified. induction Hf as [|r c rules cs Hr Hf IH]; intros used verified E; cbn in E.
  { injection E as <- <-. split; [lia|]. exists ∅. split; [|apply marks_empty]. constructor. lia. }
  apply res_bind_Ok in E as ([ok u1] & E1 & E2). destruct ok.
  - destruct (Hr _ _ _ E1 eq_refl) as (U1 & S1 & M1). destruct (IH _ _ E2) as (Hle & U2 & S2 & M2).
    split; [lia|]. destruct (marks_app _ _ _ _ _ M1 M2) as [Hd M]. exists (U1 ∪ U2). split; [|done].
    apply sat_take; [done| |done]. by replace (n - verified - 1) with (n - (verified + 1)) by lia.
  - destruct (IH _ _ E2) as (Hle & U & S2 & M2). split; [done|]. exists U. split; [by apply sat_skip|done].
Qed.

Lemma sat_rules_less rules N N' U : sat_rules rules N U -> N' <= N -> sat_rules rules N' U.
Proof.
  intros Hs. revert N'. induction Hs as [N Hn|r rules N U Hs IH|r rules N U1 U2 H1 Hs IH Hd]; intros N' Hle.
  - constructor. lia.
  - apply sat_skip. by apply IH.
  - apply sat_take; [done| |done]. apply IH. lia.
Qed.

Fixpoint compile_rules (rules : list SignaturePolicy) : res (list evaluator) :=
  match rules with
  | [] => Ok []
  | r :: rules => c ← compile r identities; cs ← compile_rules rules; Ok (c :: cs)
  end.

Lemma compile_gate N Rules :
  compile (NOutOf_ N Rules) identities = (cs ← compile_rules Rules; Ok (n_out_of N cs)).
Proof. done. Qed.

Lemma compile_rules_Forall2 rules cs :
  compile_rules rules = Ok cs -> Forall2 (fun r c => compile r identities = Ok c) rules cs.
Proof.
  revert cs. induction rules as [|r rules IH]; intros cs E; cbn in E.
  { injection E as <-. constructor. }
  apply res_bind_Ok in E as (c & Ec & E). apply res_bind_Ok in E as (cs' & Ecs & E). injection E as <-.
  constructor; auto.
Qed.

(** Induction over policies. *)
Lemma policy_ind (P : SignaturePolicy -> Prop) :
  (forall N Rules, Forall P Rules -> P (NOutOf_ N Rules)) -> (forall i, P (SignedBy_ i)) ->
  P NilPolicy -> P UnknownPolicy -> forall p, P p.
Proof.
  intros Hn Hs H1 H2. fix IH 1. intros [N Rules|i| |]; [|apply Hs|exact H1|exact H2].
  apply Hn. induction Rules as [|r rules IHr]; constructor; [apply IH|exact IHr].
Qed.

Lemma compile_sound policy c : compile policy identities = Ok c -> sound policy c.
Proof.
  revert c. induction policy as [N Rules IH|i| |] using policy_ind; intros c E; try done.
  - rewrite compile_gate in E. apply res_bind_Ok in E as (cs & Ecs & E). injection E as <-.
    intros used ok used' E Hok. unfold n_out_of in E. apply res_bind_Ok in E as ([n u] & En & E).
    injection E as E <-. rewrite Hok in E. apply Z.leb_le in E.
    destruct (count_sound Rules cs used 0 n u) as (Hle & U & Hs & Hm); [|done|].
    + apply compile_rules_Forall2 in Ecs. clear -IH Ecs. induction Ecs as [|r c rules cs Er Ecs IHc]; constructor.
      * inversion IH; subst. auto.
      * inversion IH; subst. auto.
    + exists U. split; [|done]. constructor. eapply sat_rules_less; [exact Hs|lia].
  - cbn [compile] in E. destruct ((i <? 0) || (Z.of_nat (length identities) <=? i)) eqn:Hi; [done|].
    apply orb_false_iff in Hi as [Hi _]. apply Z.ltb_ge in Hi.
    destruct (identities !! Z.to_nat i) as [p|] eqn:Hp; [|done]. injection E as <-.
    intros used ok used' E ->. destruct (signed_by_spec p 0 used sds true used') as (k & sd & Hk & Hs & Hm);
      [by rewrite take_0|by rewrite take_0|done|].
    exists {[k]}. split; [by econstructor|done].
Qed.

(** *** Exactness

    When no signature fits two principals and no principal occurs twice, the
    order in which the signatures are used does not matter. *)

Fixpoint leaves (policy : SignaturePolicy) : list Z :=
  match policy with
  | NOutOf_ _ Rules => concat (leaves <$> Rules)
  | SignedBy_ i => [i]
  | NilPolicy | UnknownPolicy => []
  end.

Definition signs_b (sd : SignedData) (p : MSPPrincipal) : bool :=
  match DeserializeIdentity (sd_Identity sd) with
  | Ok mspid =>
      match SatisfiesPrincipal mspid p, Verify mspid (sd_Data sd) (sd_Signature sd) with
      | Ok _, Ok _ => true
      | _, _ => false
      end
  | _ => false
  end.

(** The policy as a formula over who signed. *)
Fixpoint meets (policy : SignaturePolicy) : bool :=
  match policy with
  | NOutOf_ N Rules => N <=? Z.of_nat (length (filter Is_true (meets <$> Rules)))
  | SignedBy_ i =>
      match identities !! Z.to_nat i with
      | Some p => existsb (fun sd => signs_b sd p) sds
      | None => false
      end
  | NilPolicy | UnknownPolicy => false
  end.

(** The signature [k] fits one of the principals of [L]. *)
Definition fits_one (L : list Z) (k : nat) : Prop :=
  exists i p sd, i ∈ L /\ identities !! Z.to_nat i = Some p /\ sds !! k = Some sd /\ signs_b sd p = true.

Definition exclusive (L : list Z) : Prop := forall sd i j p q,
  sd ∈ sds -> i ∈ L -> j ∈ L -> i <> j ->
  identities !! Z.to_nat i = Some p -> identities !! Z.to_nat j = Some q ->
  signs_b sd p = true -> signs_b sd q = true -> False.

(** No marked signature fits [L]. *)
Definition free (L : list Z) (used : list bool) : Prop :=
  (length sds <= length used)%nat /\ forall k, used !! k = Some true -> ~ fits_one L k.

Definition exact (L : list Z) (b : bool) (c : evaluator) : Prop := forall used, free L used ->
  exists used', c sds used = Ok (b, used') /\ length used' = length used /\
    forall k, used' !! k = Some true -> used !! k = Some true \/ fits_one L k.

Lemma signed_by_exact p i used (rest : list SignedData) :
  msp_total -> (forall j sd, rest !! j = Some sd -> signs_b sd p = true -> used !! (i + j)%nat <> Some true) ->
  (i + length rest <= length used)%nat ->
  if existsb (fun sd => signs_b sd p) rest
  then exists j sd, signed_by p i rest used = Ok (true, <[(i + j)%nat := true]> used) /\
         rest !! j = Some sd /\ signs_b sd p = true
  else signed_by p i rest used = Ok (false, used).
Proof.
  intros (T1 & T2 & T3). revert i. induction rest as [|sd rest IH]; intros i Hu Hl; [done|].
  assert (if existsb (fun sd => signs_b sd p) rest
    then exists j sd', signed_by p (S i) rest used = Ok (true, <[(i + j)%nat := true]> used) /\
           (sd :: rest) !! j = Some sd' /\ signs_b sd' p = true
    else signed_by p (S i) rest used = Ok (false, used)) as IH'.
  { cbn [length] in Hl. specialize (IH (S i)). destruct (existsb _ rest).
    - destruct IH as (j & sd' & E & Hj & Hs); [|lia|].
      + intros j sd' Hj Hs. rewrite Nat.add_succ_comm. by apply (Hu (S j) sd').
      + exists (S j), sd'. by rewrite <- Nat.add_succ_comm.
    - apply IH; [|lia]. intros j sd' Hj Hs. rewrite Nat.add_succ_comm. by apply (Hu (S j) sd'). }
  cbn [signed_by existsb]. destruct (lookup_lt_is_Some_2 used i) as [u Hi]; [cbn in Hl; lia|]. rewrite Hi.
  destruct (signs_b sd p) eqn:Hs.
  - assert (u = false) as ->.
    { destruct u; [|done]. destruct (Hu 0%nat sd eq_refl Hs). by rewrite Nat.add_0_r. }
    unfold signs_b in Hs. destruct (DeserializeIdentity (sd_Identity sd)) as [mspid|e| |] eqn:Ed; try done.
    destruct (SatisfiesPrincipal mspid p) eqn:Ep; try done.
    destruct (Verify mspid (sd_Data sd) (sd_Signature sd)) eqn:Ev; try done.
    exists 0%nat, sd. rewrite Nat.add_0_r. split; [done|]. split; [done|]. unfold signs_b. by rewrite Ed, Ep, Ev.
  - cbn [orb]. destruct u; [exact IH'|]. unfold signs_b in Hs.
    destruct (T1 (sd_Identity sd)) as [[mspid Ed]|[e Ed]]; rewrite Ed in *; [|exact IH'].
    destruct (T2 mspid p) as [Ep|[e Ep]]; rewrite Ep in *; [|exact IH'].
    destruct (T3 mspid (sd_Data sd) (sd_Signature sd)) as [Ev|[e Ev]]; rewrite Ev in *; [done|exact IH'].
Qed.

Lemma leaf_exact i p :
  msp_total -> identities !! Z.to_nat i = Some p -> exact [i] (meets (SignedBy_ i)) (signed_by p 0).
Proof.
  intros HT Hp used [Hl Hf]. pose proof (signed_by_exact p 0 used sds HT) as Hs. cbn [meets]. rewrite Hp.
  destruct (existsb (fun sd => signs_b sd p) sds).
  - destruct Hs as (j & sd & E & Hj & Hsd); [|done|].
    + intros j sd Hj Hsd Hu. eapply Hf; [exact Hu|]. exists i, p, sd. split; [by left|done].
    + eexists. split; [exact E|]. split; [by rewrite length_insert|]. intros k Hk.
      apply list_lookup_insert_Some in Hk as [(<- & _ & _)|[_ Hk]]; [|by left].
      right. exists i, p, sd. split; [by left|done].
  - eexists. split; [apply Hs|]; [|done|].
    + intros j sd Hj Hsd Hu. eapply Hf; [exact Hu|]. exists i, p, sd. split; [by left|done].
    + split; [done|]. by left.
Qed.

Lemma fits_one_mono (L L' : list Z) k : (forall i, i ∈ L -> i ∈ L') -> fits_one L k -> fits_one L' k.
Proof. intros HL (i & p & sd & Hi & Hr). exists i, p, sd. split; [by apply HL|done]. Qed.

Lemma free_mono (L L' : list Z) used : (forall i, i ∈ L -> i ∈ L') -> free L' used -> free L used.
Proof. intros HL [Hl Hf]. split; [done|]. intros k Hk Hf1. eapply Hf; [done|]. by eapply fits_one_mono. Qed.

(** Marking signatures that fit [L] leaves those that fit other principals. *)
Lemma free_step (L L' : list Z) used used' :
  NoDup (L ++ L') -> exclusive (L ++ L') -> free (L ++ L') used -> length used' = length used ->
  (forall k, used' !! k = Some true -> used !! k = Some true \/ fits_one L k) -> free L' used'.
Proof.
  intros Hn He [Hl Hf] Hl' Hm. split; [lia|]. intros k Hk Hf'.
  destruct (Hm k Hk) as [Hu|(i & p & sd & Hi & Hp & Hsd & Hs)].
  - eapply Hf; [exact Hu|]. eapply fits_one_mono; [|exact Hf']. intros. apply elem_of_app. by right.
  - destruct Hf' as (j & q & sd' & Hj & Hq & Hsd' & Hs'). rewrite Hsd in Hsd'. injection Hsd' as <-.
    eapply (He sd i j p q); [by eapply list_elem_of_lookup_2|apply elem_of_app; by left|
      apply elem_of_app; by right| |done..].
    intros ->. apply NoDup_app in Hn as (_ & Hn & _). by apply (Hn j).
Qed.

Lemma exclusive_mono (L L' : list Z) : (forall i, i ∈ L -> i ∈ L') -> exclusive L' -> exclusive L.
Proof. intros HL He sd i j p q Hsd Hi Hj. apply (He sd i j p q Hsd); by apply HL. Qed.

Lemma count_exact (rules : list SignaturePolicy) cs used verified :
  Forall2 (fun r c => exact (leaves r) (meets r) c) rules cs ->
  NoDup (concat (leaves <$> rules)) -> exclusive (concat (leaves <$> rules)) ->
  free (concat (leaves <$> rules)) used ->
  exists used', count_verified cs sds used verified =
      Ok (verified + Z.of_nat (length (filter Is_true (meets <$> rules))), used') /\
    length used' = length used /\
    forall k, used' !! k = Some true -> used !! k = Some true \/ fits_one (concat (leaves <$> rules)) k.
Proof.
  intros Hf. revert used verified. induction Hf as [|r c rules cs Hr Hf IH]; intros used verified Hn He Hfr.
  { exists used. cbn. rewrite Z.add_0_r. split; [done|]. split; [done|]. by left. }
  cbn [fmap list_fmap concat] in Hn, He, Hfr. cbn [count_verified].
  destruct (Hr used) as (u1 & E1 & L1 & M1).
  { eapply free_mono; [|exact Hfr]. intros. apply elem_of_app. by left. }
  rewrite E1, res_ret_bind. cbn [fmap list_fmap concat].
  assert (forall i, i ∈ concat (leaves <$> rules) -> i ∈ leaves r ++ concat (leaves <$> rules)) as Hsub
    by (intros; apply elem_of_app; by right).
  assert (NoDup (concat (leaves <$> rules))) as Hn' by by apply NoDup_app in Hn as (_ & _ & Hn).
  pose proof (exclusive_mono _ _ Hsub He) as He'.
  destruct (meets r) eqn:Em.
  - destruct (IH u1 (verified + 1) Hn' He') as (u2 & E2 & L2 & M2); [by eapply free_step|].
    exists u2. rewrite filter_cons_True by done. cbn [length]. split; [rewrite E2; f_equal; f_equal; lia|].
    split; [congruence|]. intros k Hk. destruct (M2 k Hk) as [Hk1|Hk1].
    + destruct (M1 k Hk1) as [|Hk2]; [by left|right]. eapply fits_one_mono; [|exact Hk2].
      intros. apply elem_of_app. by left.
    + right. by eapply fits_one_mono.
  - destruct (IH used verified Hn' He') as (u2 & E2 & L2 & M2); [by eapply free_mono|].
    exists u2. rewrite filter_cons_False by naive_solver. split; [done|]. split; [done|]. intros k Hk.
    destruct (M2 k Hk) as [|Hk1]; [by left|right]. by eapply fits_one_mono.
Qed.

Lemma elem_of_leaves r rules i : r ∈ rules -> i ∈ leaves r -> i ∈ concat (leaves <$> rules).
Proof. intros Hr Hi. apply elem_of_concat_fmap. eauto. Qed.

Lemma compile_exact policy c :
  msp_total -> compile policy identities = Ok c -> NoDup (leaves policy) -> exclusive (leaves policy) ->
  exact (leaves policy) (meets policy) c.
Proof.
  intros HT. revert c. induction policy as [N Rules IH|i| |] using policy_ind; intros c E Hn He; try done.
  - rewrite compile_gate in E. apply res_bind_Ok in E as (cs & Ecs & E). injection E as <-.
    cbn [leaves] in *. assert (Forall2 (fun r c => exact (leaves r) (meets r) c) Rules cs) as Hf.
    { apply compile_rules_Forall2 in Ecs. clear -IH Ecs Hn He.
      induction Ecs as [|r c rules cs Er Ecs IHc]; constructor; inversion IH as [|? ? H1 H2]; subst.
      - cbn in Hn, He. apply H1; [done|by apply NoDup_app in Hn as (? & _)|].
        eapply exclusive_mono; [|exact He]. intros. apply elem_of_app. by left.
      - cbn in Hn, He. apply IHc; [done|by apply NoDup_app in Hn as (_ & _ & ?)|].
        eapply exclusive_mono; [|exact He]. intros. apply elem_of_app. by right. }
    intros used Hfr. destruct (count_exact Rules cs used 0 Hf Hn He Hfr) as (used' & E & L & M).
    exists used'. unfold n_out_of. rewrite E, res_ret_bind. done.
  - cbn [compile] in E. destruct ((i <? 0) || (Z.of_nat (length identities) <=? i)) eqn:Hi; [done|].
    destruct (identities !! Z.to_nat i) as [p|] eqn:Hp; [|done]. injection E as <-. by apply leaf_exact.
Qed.

End CAuthFacts.
End CAuthFacts.

Module CAuthTheorems.
Import CAuthDSL CAuthFacts.
Section Dedup.

Lemma dedup_loop_spec (ids : gset bytes) sds :
  NoDup (sd_Identity <$> dedup_loop ids sds) /\
  (forall sd, sd ∈ dedup_loop ids sds -> sd ∈ sds /\ sd_Identity sd ∉ ids) /\
  (length (dedup_loop ids sds) <= length sds)%nat /\
  (forall sd, sd ∈ sds -> sd_Identity sd ∉ ids -> sd_Identity sd ∈ sd_Identity <$> dedup_loop ids sds).
Proof.
  revert ids. induction sds as [|sd sds IH]; intros ids; cbn [dedup_loop].
  { split; [constructor|]. split; [set_solver|]. split; [done|]. set_solver. }
  destruct (decide (sd_Identity sd ∈ ids)) as [Hin|Hni].
  - destruct (IH ids) as (N & I & L & A). split; [done|]. split; [|split].
    + intros sd' Hsd'. destruct (I sd' Hsd'). split; [by right|done].
    + cbn. lia.
    + intros sd' [->|Hsd']%elem_of_cons Hni; [done|by apply A].
  - destruct (IH (ids ∪ {[sd_Identity sd]})) as (N & I & L & A). split; [|split; [|split]].
    + cbn. constructor; [|done]. intros Hx. apply list_elem_of_fmap in Hx as (y & Ey & Hy).
      apply I in Hy as [_ Hy]. set_solver.
    + intros sd' [->|Hsd']%elem_of_cons; [split; [by left|done]|]. destruct (I sd' Hsd') as [? ?].
      split; [by right|set_solver].
    + cbn. lia.
    + intros sd' [->|Hsd']%elem_of_cons Hni'; [by left|]. cbn.
      destruct (decide (sd_Identity sd' = sd_Identity sd)) as [->|Hne]; [by left|]. right. apply A; set_solver.
Qed.

Lemma dedup_loop_sublist (ids : gset bytes) sds : dedup_loop ids sds `sublist_of` sds.
Proof. revert ids. induction sds as [|sd sds IH]; intros ids; cbn [dedup_loop]; [done|]. case_decide; by constructor. Qed.

End Dedup.

(** ** The theorems *)

Section Theorems.
Context `{SignatureCodec} `{MSP}.

(** What an accepting policy establishes. *)
Lemma evaluate_sound policy identities c (signatureSet : list SignedData) :
  compile policy identities = Ok c -> Evaluate c signatureSet = Ok tt ->
  exists U, sat identities (deduplicate signatureSet) policy U /\
    NoDup (sd_Identity <$> deduplicate signatureSet) /\
    forall sd, sd ∈ deduplicate signatureSet -> sd ∈ signatureSet.
Proof.
  intros Ec E. unfold Evaluate in E. apply res_bind_Ok in E as ([ok used] & E & Hok).
  destruct ok; [|done]. destruct (compile_sound _ _ _ _ Ec _ _ _ E eq_refl) as (U & Hs & _).
  exists U. split; [done|]. destruct (dedup_loop_spec ∅ signatureSet) as (N & I & _).
  split; [exact N|]. intros sd Hsd. by apply I.
Qed.

(** C28: A signature policy that accepts is satisfied: its gates reach their
    thresholds with valid signatures of pairwise different identities, and no
    signature counts twice. *)
Theorem policy_sound policy identities c (signatureSet : list SignedData) :
  compile policy identities = Ok c -> Evaluate c signatureSet = Ok tt ->
  exists U, sat identities (deduplicate signatureSet) policy U /\
    NoDup (sd_Identity <$> deduplicate signatureSet) /\
    forall sd, sd ∈ deduplicate signatureSet -> sd ∈ signatureSet.
Proof. apply evaluate_sound. Qed.

(** C29: When the leaves of a policy are pairwise different principals (no index
    occurs twice), no identity that signed has two of them, and the membership
    service returns, the evaluation is exact: the policy accepts if and only if it
    holds as a formula over which principals have signed, and it never panics.
    For a policy that names a principal twice this fails
    ([gate_uses_up_signatures]). *)
Theorem policy_exact policy identities c (signatureSet : list SignedData) :
  msp_total -> compile policy identities = Ok c -> NoDup (leaves policy) ->
  exclusive identities (deduplicate signatureSet) (leaves policy) ->
  Evaluate c signatureSet =
    if meets identities (deduplicate signatureSet) policy then Ok tt else Err "Failed to authenticate policy".
Proof.
  intros HT Ec Hn He. destruct (compile_exact _ _ _ _ HT Ec Hn He (replicate (length signatureSet) false))
    as (used' & E & _).
  - split; [rewrite length_replicate; apply (dedup_loop_spec ∅)|].
    intros k Hk. by apply lookup_replicate in Hk as [Hk _].
  - unfold Evaluate. rewrite E, res_ret_bind. by destruct (meets _ _ _).
Qed.

End Theorems.

(** ** Identities that are byte strings

    An identity has the principals that are prefixes of it; every signature is
    valid. *)

#[local] Instance prefix_msp : MSP := {
  MSPIdentity := bytes;
  DeserializeIdentity b := Ok b;
  SatisfiesPrincipal i p := if decide (Principal p `prefix_of` i) then Ok tt else Err "principal";
  Verify _ _ _ := Ok tt;
  identity_Validate _ := Ok tt
}.

Definition w_sd (id : string) : SignedData := mkSignedData [] (to_bytes id) [].
Definition w_ids (l : list string) : list MSPPrincipal := (fun s => mkPrincipal IDENTITY (to_bytes s)) <$> l.

Definition w_eval (policy : SignaturePolicy) (ids sigs : list string) : res unit :=
  c ← compile policy (w_ids ids); Evaluate c (w_sd <$> sigs).

Lemma policy_sound_witness :
  exists c U, compile (And (SignedBy 0) (SignedBy 1)) (w_ids ["a"; "b"]) = Ok c /\
    sat (w_ids ["a"; "b"]) (deduplicate (w_sd <$> ["b"; "b"; "a"])) (And (SignedBy 0) (SignedBy 1)) U.
Proof.
  destruct (compile (And (SignedBy 0) (SignedBy 1)) (w_ids ["a"; "b"])) as [c| | |] eqn:E; [|done..].
  destruct (policy_sound (And (SignedBy 0) (SignedBy 1)) (w_ids ["a"; "b"]) c (w_sd <$> ["b"; "b"; "a"]) E)
    as (U & Hs & _); [|exists c, U; split; [reflexivity|exact Hs]].
  injection E as <-. by vm_compute.
Defined.

Lemma prefix_total : msp_total.
Proof.
  split; [by left; eexists|]. split; [|by left]. intros i p. cbn. case_decide; [by left|right; by eexists].
Qed.

Lemma policy_exact_witness :
  w_eval (Or (And (SignedBy 0) (SignedBy 1)) (SignedBy 2)) ["a"; "b"; "c"] ["a"; "c"] = Ok tt.
Proof.
  unfold w_eval.
  destruct (compile (Or (And (SignedBy 0) (SignedBy 1)) (SignedBy 2)) (w_ids ["a"; "b"; "c"])) as [c| | |] eqn:E;
    [|done..].
  rewrite res_ret_bind.
  assert (exclusive (w_ids ["a"; "b"; "c"]) (deduplicate (w_sd <$> ["a"; "c"])) [0; 1; 2]) as He.
  { intros sd i j p q Hsd Hi Hj Hne Hp Hq H1 H2.
    repeat (apply elem_of_cons in Hsd as [->|Hsd]); try (by apply elem_of_nil in Hsd);
    repeat (apply elem_of_cons in Hi as [->|Hi]); try (by apply elem_of_nil in Hi);
    repeat (apply elem_of_cons in Hj as [->|Hj]); try (by apply elem_of_nil in Hj);
    try done; injection Hp as <-; injection Hq as <-; vm_compute in H1, H2; congruence. }
  rewrite (policy_exact (Or (And (SignedBy 0) (SignedBy 1)) (SignedBy 2)) (w_ids ["a"; "b"; "c"]) c
    (w_sd <$> ["a"; "c"]) prefix_total E); [by vm_compute| |exact He].
  apply (bool_decide_unpack _). by vm_compute.
Defined.

(** ** Policies that reject too much *)

(** A gate goes on after its threshold is reached and uses up signatures that
    its siblings need: [(a or b) and b], signed by [a] and [b], is rejected,
    while [b and (a or b)] is accepted. *)
Example gate_uses_up_signatures :
  w_eval (And (Or (SignedBy 0) (SignedBy 1)) (SignedBy 1)) ["a"; "b"] ["a"; "b"]
    = Err "Failed to authenticate policy" /\
  w_eval (And (SignedBy 1) (Or (SignedBy 0) (SignedBy 1))) ["a"; "b"] ["a"; "b"] = Ok tt.
Proof. by vm_compute. Qed.

(** The signatures are matched in their order, without going back: a policy
    that one order of the signatures satisfies is rejected for another. *)
Example signature_order_matters :
  w_eval (And (SignedBy 0) (SignedBy 1)) ["a"; "ab"] ["ab"; "ac"] = Err "Failed to authenticate policy" /\
  w_eval (And (SignedBy 0) (SignedBy 1)) ["a"; "ab"] ["ac"; "ab"] = Ok tt.
Proof. by vm_compute. Qed.

(** The parser's check [t > n] counts the threshold itself as an argument: it
    accepts a gate that no signatures satisfy. *)
Example threshold_off_by_one `{SignatureCodec} p q :
  exists ctx, secondPass newContext [ArgNumber 3; ArgPolicy p; ArgPolicy q] = Ok (ctx, NOutOf 3 [p; q]).
Proof. by eexists. Qed.

End CAuthTheorems.
