(* ===== verification/Policies.v ===== *)
(** * Policy managers

    common/policies: a tree of policy managers that mirrors the groups of a
    channel's configuration.  A new configuration is proposed group by group
    and committed bottom up; an implicit meta policy counts the sub-managers
    whose policy of the same name is satisfied. *)

From stdpp Require Import base gmap strings list.
From Stdlib Require Import Ascii ZArith Lia.
From S2P Require Import Prelude Proto CAuthDSL.
Set Warnings "-register-all".
Local Open Scope Z_scope.

(** ** protos/common/configtx.proto *)

Record ConfigValue := mkConfigValue { cv_Version : Z; cv_Value : bytes; cv_ModPolicy : string }.

Record cbPolicy := mkCbPolicy { pol_Type : Z; pol_Value : bytes }.

(** [Policy] may be nil. *)
Record ConfigPolicy := mkConfigPolicy { cp_Version : Z; cp_Policy : option cbPolicy; cp_ModPolicy : string }.

(** The maps of a group are association lists without repeated keys. *)
Inductive ConfigGroup := mkConfigGroup {
  cg_Version : Z;
  cg_Groups : list (string * ConfigGroup);
  cg_Values : list (string * ConfigValue);
  cg_Policies : list (string * ConfigPolicy);
  cg_ModPolicy : string
}.

(** [cb.Policy_PolicyType] *)
Definition Policy_UNKNOWN : Z := 0.
Definition Policy_SIGNATURE : Z := 1.
Definition Policy_MSP : Z := 2.
Definition Policy_IMPLICIT_META : Z := 3.

Inductive ImplicitRule := ANY | ALL | MAJORITY | OtherRule (r : Z).

Record ImplicitMetaPolicy := mkImplicitMeta { imp_SubPolicy : string; imp_Rule : ImplicitRule }.

Class PolicyCodec := { unmarshal_ImplicitMetaPolicy : bytes -> res ImplicitMetaPolicy }.

Module Policies.

Definition PathSeparator : string := "/".
Definition ChannelPrefix : string := "Channel".
Definition ChannelReaders : string := "/Channel/Readers".
Definition ChannelWriters : string := "/Channel/Writers".

(** [Policy]: a compiled signature policy, an implicit meta policy with its
    threshold and sub-policies, or the policy that rejects. *)
Inductive Policy :=
| SigPolicy (e : CAuthDSL.evaluator)
| ImpPolicy (conf : ImplicitMetaPolicy) (threshold : Z) (subPolicies : list Policy)
| RejectPolicy (name : string).

Fixpoint Evaluate (p : Policy) (signatureSet : list SignedData) : res unit :=
  match p with
  | SigPolicy e => CAuthDSL.Evaluate e signatureSet
  | RejectPolicy rp => Err ("No such policy type: " +:+ rp)
  | ImpPolicy _ threshold subPolicies =>
      (fix loop (subs : list Policy) (remaining : Z) : res unit :=
         match subs with
         | [] => if remaining =? 0 then Ok tt else Err "Failed to reach implicit threshold"
         | policy :: subs =>
             match Evaluate policy signatureSet with
             | Ok _ => if remaining - 1 =? 0 then Ok tt else loop subs (remaining - 1)
             | Err _ => loop subs remaining
             | Panic m => Panic m
             | OutOfFuel => OutOfFuel
             end
         end) subPolicies threshold
  end.

(** [ManagerImpl] and [policyConfig].  The proposals are keyed by a
    transaction that is nil in every call: there is at most one pending
    configuration.  [imps] names the implicit meta policies to initialize. *)
Inductive ManagerImpl := mkManager {
  basePath : string;
  config : policyConfig;
  pendingConfig : option policyConfig
}
with policyConfig := mkPolicyConfig {
  policies : gmap string Policy;
  managers : list (string * ManagerImpl);
  imps : list string
}.

Definition emptyConfig : policyConfig := mkPolicyConfig ∅ [] [].

Definition NewManagerImpl (basePath : string) : ManagerImpl := mkManager basePath emptyConfig None.

Definition set_pending (pm : ManagerImpl) (c : option policyConfig) : ManagerImpl :=
  mkManager (basePath pm) (config pm) c.

Definition PolicyNames (pm : ManagerImpl) : list string := (map_to_list (policies (config pm))).*1.

(** [strings.HasPrefix] and the rest of the string. *)
Definition strip_prefix (p s : string) : option string :=
  if String.prefix p s then Some (String.substring (String.length p) (String.length s - String.length p) s) else None.

(** [parent] is the [GetPolicy] of the parent, if there is one. *)
Definition GetPolicy (parent : option (string -> Policy * bool)) (pm : ManagerImpl) (id : string) : Policy * bool :=
  let find relpath := match policies (config pm) !! relpath with
                      | Some p => (p, true)
                      | None => (RejectPolicy relpath, false)
                      end in
  if decide (id = "") then (RejectPolicy id, false)
  else match strip_prefix PathSeparator id with
       | None => find id
       | Some _ =>
           match parent with
           | Some get => get id
           | None =>
               match strip_prefix (PathSeparator +:+ basePath pm +:+ PathSeparator) id with
               | None => (RejectPolicy id, false)
               | Some relpath => find relpath
               end
           end
       end.

Fixpoint find_manager (ms : list (string * ManagerImpl)) (key : string) : option ManagerImpl :=
  match ms with
  | [] => None
  | (k, m) :: ms => if decide (k = key) then Some m else find_manager ms key
  end.

Fixpoint set_manager (ms : list (string * ManagerImpl)) (key : string) (m : ManagerImpl) :
    list (string * ManagerImpl) :=
  match ms with
  | [] => []
  | (k, m') :: ms => if decide (k = key) then (k, m) :: ms else (k, m') :: set_manager ms key m
  end.

(** A manager with the [GetPolicy] of its parent. *)
Record handle := mkHandle { h_mgr : ManagerImpl; h_parent : option (string -> Policy * bool) }.

Definition h_GetPolicy (h : handle) (id : string) : Policy * bool := GetPolicy (h_parent h) (h_mgr h) id.

Fixpoint Manager (h : handle) (path : list string) : option handle :=
  match path with
  | [] => Some h
  | p :: path =>
      match find_manager (managers (config (h_mgr h))) p with
      | None => None
      | Some m => Manager (mkHandle m (Some (h_GetPolicy h))) path
      end
  end.

(** ** implicitmeta.go *)

Definition newImplicitMetaPolicy `{PolicyCodec} (data : bytes) : res Policy :=
  match unmarshal_ImplicitMetaPolicy data with
  | Ok imp => Ok (ImpPolicy imp 0 [])
  | Err e => Err ("Error unmarshaling to ImplicitMetaPolicy: " +:+ e)
  | Panic m => Panic m
  | OutOfFuel => OutOfFuel
  end.

Definition threshold_of (rule : ImplicitRule) (n : nat) : Z :=
  if (n =? 0)%nat then 0
  else match rule with
       | ANY => 1
       | ALL => Z.of_nat n
       | MAJORITY => Z.of_nat n / 2 + 1
       | OtherRule _ => 0
       end.

(** [get m id] is the [GetPolicy] of the manager [m]. *)
Definition initialize (get : ManagerImpl -> string -> Policy * bool) (c : policyConfig) (imp : Policy) : Policy :=
  match imp with
  | ImpPolicy conf _ _ =>
      let subPolicies := (fun '(_, m) => fst (get m (imp_SubPolicy conf))) <$> managers c in
      ImpPolicy conf (threshold_of (imp_Rule conf) (length subPolicies)) subPolicies
  | p => p
  end.

(** ** Proposals *)

Section Proposals.
Context `{SignatureCodec} `{MSP} `{PolicyCodec}.

Definition BeginPolicyProposals (groups : list string) (pm : ManagerImpl) : res ManagerImpl :=
  match pendingConfig pm with
  | Some _ => Panic "Serious Programming error: cannot call begin multiply for the same proposal"
  | None => Ok (set_pending pm (Some (mkPolicyConfig ∅ ((fun g => (g, NewManagerImpl g)) <$> groups) [])))
  end.

Definition RollbackProposals (pm : ManagerImpl) : ManagerImpl := set_pending pm None.

(** The provider of signature policies is the only one registered. *)
Definition ProposePolicy (key : string) (configPolicy : ConfigPolicy) (pm : ManagerImpl) : res ManagerImpl :=
  match pendingConfig pm with
  | None => Panic "Serious Programming error: called Propose without Begin"
  | Some c =>
      match cp_Policy configPolicy with
      | None => Err "Policy cannot be nil"
      | Some policy =>
          if pol_Type policy =? Policy_IMPLICIT_META then
            imp ← newImplicitMetaPolicy (pol_Value policy);
            Ok (set_pending pm (Some (mkPolicyConfig (<[key := imp]> (policies c)) (managers c) (imps c ++ [key]))))
          else if pol_Type policy =? Policy_SIGNATURE then
            e ← CAuthDSL.NewPolicy (pol_Value policy);
            Ok (set_pending pm (Some (mkPolicyConfig (<[key := SigPolicy e]> (policies c)) (managers c) (imps c))))
          else Err "Unknown policy type"
      end
  end.

(** The policies of a sub-manager under their relative names. *)
Definition add_sub_policies (get : ManagerImpl -> string -> Policy * bool) (ps : gmap string Policy)
    (sub : string * ManagerImpl) : gmap string Policy :=
  let '(managerPath, m) := sub in
  foldl (fun ps policyName => <[managerPath +:+ PathSeparator +:+ policyName := fst (get m policyName)]> ps)
    ps (PolicyNames m).

Definition init_imp (get : ManagerImpl -> string -> Policy * bool) (c : policyConfig) (ps : gmap string Policy)
    (key : string) : gmap string Policy :=
  match ps !! key with
  | Some imp => <[key := initialize get c imp]> ps
  | None => ps
  end.

Definition CommitProposals (parent : option (string -> Policy * bool)) (pm : ManagerImpl) : res ManagerImpl :=
  match pendingConfig pm with
  | None => Panic "Programming error, cannot call begin in the middle of a proposal"
  | Some c =>
      let get := fun m => GetPolicy (Some (GetPolicy parent pm)) m in
      let ps := foldl (add_sub_policies get) (policies c) (managers c) in
      let c := mkPolicyConfig (foldl (init_imp get c) ps (imps c)) (managers c) (imps c) in
      Ok (mkManager (basePath pm) c None)
  end.

End Proposals.
End Policies.

Module PoliciesTheorems.
Import Policies.

Section Counting.
Context (sigs : list SignedData).

Definition accepts (p : Policy) : Prop := Evaluate p sigs = Ok tt.

#[export] Instance accepts_dec p : Decision (accepts p).
Proof. apply _. Defined.

(** The evaluation ends with an answer. *)
Definition answers (p : Policy) : Prop := accepts p \/ exists e, Evaluate p sigs = Err e.

Fixpoint count_down (subs : list Policy) (remaining : Z) : res unit :=
  match subs with
  | [] => if remaining =? 0 then Ok tt else Err "Failed to reach implicit threshold"
  | policy :: subs =>
      match Evaluate policy sigs with
      | Ok _ => if remaining - 1 =? 0 then Ok tt else count_down subs (remaining - 1)
      | Err _ => count_down subs remaining
      | Panic m => Panic m
      | OutOfFuel => OutOfFuel
      end
  end.

Lemma Evaluate_imp conf threshold subs : Evaluate (ImpPolicy conf threshold subs) sigs = count_down subs threshold.
Proof. reflexivity. Qed.

Lemma count_down_pos subs remaining :
  Forall answers subs -> 0 < remaining ->
  count_down subs remaining =
    if decide (remaining <= Z.of_nat (length (filter accepts subs))) then Ok tt
    else Err "Failed to reach implicit threshold".
Proof.
  intros Hf. revert remaining. induction Hf as [|p subs Hp Hf IH]; intros remaining Hr; cbn [count_down].
  { rewrite (proj2 (Z.eqb_neq _ _)) by lia. rewrite decide_False; [done|]. cbn. lia. }
  destruct Hp as [Hp|[e Hp]].
  - rewrite filter_cons_True by done. unfold accepts in Hp. rewrite Hp. cbn [length].
    destruct (remaining - 1 =? 0) eqn:E.
    + apply Z.eqb_eq in E. rewrite decide_True by lia. done.
    + apply Z.eqb_neq in E. rewrite IH by lia. repeat case_decide; (done || lia).
  - rewrite filter_cons_False by (unfold accepts; congruence). rewrite Hp. by apply IH.
Qed.

End Counting.

(** An implicit meta policy counts the sub-managers whose policy of the
    given name accepts the signatures: one is enough for ANY, all are needed
    for ALL, more than half for MAJORITY; without sub-managers it accepts. *)
Theorem implicit_meta_counts get c conf t subs sigs :
  let votes := (fun '(_, m) => fst (get m (imp_SubPolicy conf))) <$> managers c in
  let k := length (filter (accepts sigs) votes) in
  Forall (answers sigs) votes ->
  match imp_Rule conf with OtherRule _ => False | _ => True end ->
  Evaluate (initialize get c (ImpPolicy conf t subs)) sigs = Ok tt <->
  votes = [] \/ match imp_Rule conf with
                | ANY => (1 <= k)%nat
                | ALL => k = length votes
                | MAJORITY => (length votes < 2 * k)%nat
                | OtherRule _ => False
                end.
Proof.
  intros votes k Hf Hr. cbn [initialize]. change ((fun '(_, m) => _) <$> managers c) with votes.
  rewrite Evaluate_imp. pose proof (length_filter (accepts sigs) votes) as Hk. fold k in Hk.
  destruct votes as [|v vs] eqn:Ev; [split; [by left|done]|].
  assert (threshold_of (imp_Rule conf) (length (v :: vs)) > 0) as Hpos.
  { unfold threshold_of. cbn [length Nat.eqb]. pose proof (Z.div_pos (Z.of_nat (S (length vs))) 2).
    destruct (imp_Rule conf); [lia..|done]. }
  rewrite count_down_pos by (done || lia). fold k.
  assert (threshold_of (imp_Rule conf) (length (v :: vs)) <= Z.of_nat k <->
    match imp_Rule conf with
    | ANY => (1 <= k)%nat | ALL => k = length (v :: vs) | MAJORITY => (length (v :: vs) < 2 * k)%nat
    | OtherRule _ => False end) as Hiff.
  { unfold threshold_of. change (length (v :: vs) =? 0)%nat with false. cbv iota.
    destruct (imp_Rule conf); [lia|lia| |done].
    pose proof (Z.div_mod (Z.of_nat (length (v :: vs))) 2). pose proof (Z.mod_pos_bound (Z.of_nat (length (v :: vs))) 2).
    lia. }
  rewrite <- Hiff. case_decide; split; intros Hx; (done || (destruct Hx; done) || by right).
Qed.

Definition w_accept : Policy := ImpPolicy (mkImplicitMeta "Admins" ANY) 0 [].

Definition w_manager (p : Policy) : ManagerImpl := mkManager "org" (mkPolicyConfig {[ "Admins" := p ]} [] []) None.

Definition w_config : policyConfig :=
  mkPolicyConfig ∅ [("a", w_manager w_accept); ("b", w_manager (RejectPolicy "x")); ("c", w_manager w_accept)] [].

Lemma implicit_meta_counts_witness :
  Evaluate (initialize (GetPolicy None) w_config (ImpPolicy (mkImplicitMeta "Admins" MAJORITY) 0 [])) [] = Ok tt.
Proof.
  apply (implicit_meta_counts (GetPolicy None) w_config (mkImplicitMeta "Admins" MAJORITY) 0 [] []).
  - apply Forall_cons. split; [by left|]. apply Forall_cons. split; [right; by eexists|].
    apply Forall_cons. split; [by left|]. constructor.
  - done.
  - right. cbv beta iota delta [imp_Rule]. apply Nat.ltb_lt. by vm_compute.
Defined.

(** ** Behaviours outside the contract *)

(** A rule the orderer does not know has the threshold 0: the policy accepts
    exactly when no sub-policy does. *)
Example unknown_rule_accepts_without_signatures :
  let imp := ImpPolicy (mkImplicitMeta "Admins" (OtherRule 3)) 0 [] in
  Evaluate (initialize (GetPolicy None) (mkPolicyConfig ∅ [("b", w_manager (RejectPolicy "x"))] []) imp) [] = Ok tt /\
  ~ is_ok (Evaluate (initialize (GetPolicy None) (mkPolicyConfig ∅ [("a", w_manager w_accept)] []) imp) []).
Proof. split; [by vm_compute|]. by vm_compute. Qed.

(** Two proposals at the same time are keyed by the same nil transaction: the
    second panics. *)
Lemma concurrent_proposals_panic groups groups' pm pm1 :
  BeginPolicyProposals groups pm = Ok pm1 -> exists m, BeginPolicyProposals groups' pm1 = Panic m.
Proof.
  unfold BeginPolicyProposals. destruct (pendingConfig pm); [done|]. intros [= <-]. by eexists.
Qed.

End PoliciesTheorems.
