(* ===== verification/ConfigTx.v ===== *)
(** * Channel configuration

    common/configtx: the configuration of a channel is a tree of groups, values
    and policies, each with a version and a modification policy.  An update
    names the versions it was computed from and the new elements; it is
    authorized element by element, and the new tree is assembled from the old
    elements and the new ones.  The handlers of the values (common/config) are
    parameters. *)

From stdpp Require Import base gmap strings list.
From Stdlib Require Import Ascii ZArith Lia.
From S2P Require Import Prelude Proto CAuthDSL Policies.
Import ProtoUtils SignedDataOf Policies.
Set Warnings "-register-all".
Local Open Scope Z_scope.

(** ** Messages *)

Record Config := mkConfig { cfg_Sequence : Z; cfg_ChannelGroup : option ConfigGroup }.

Record ConfigEnvelope := mkConfigEnvelope { ce_Config : option Config; ce_LastUpdate : option Envelope }.

Record ConfigUpdate := mkConfigUpdate {
  cu_ChannelId : string;
  cu_ReadSet : option ConfigGroup;
  cu_WriteSet : option ConfigGroup
}.

Class ConfigCodec := {
  unmarshal_ConfigEnvelope : bytes -> res ConfigEnvelope;
  unmarshal_ConfigUpdate : bytes -> res ConfigUpdate;
  unmarshal_ConfigUpdateEnvelope : bytes -> res ConfigUpdateEnvelope
}.

(** ** Names: manager.go *)

Module ConfigNames.

Definition maxLength : Z := 249.
Definition illegalNames : list string := ["."; ".."].

Definition in_range (a b : Z) (c : ascii) : bool := (a <=? byte_val c) && (byte_val c <=? b).
Definition lower (c : ascii) : bool := in_range 97 122 c.
Definition upper (c : ascii) : bool := in_range 65 90 c.
Definition digit (c : ascii) : bool := in_range 48 57 c.
Definition dot_dash (c : ascii) : bool := (byte_val c =? 46) || (byte_val c =? 45).

(** [channelAllowedChars] is [[a-z][a-z0-9.-]*] and [configAllowedChars] is
    [[a-zA-Z0-9.-]+]. *)
Definition channel_char (c : ascii) : bool := lower c || digit c || dot_dash c.
Definition config_char (c : ascii) : bool := lower c || upper c || digit c || dot_dash c.

Definition validateConfigID (configID : string) : res unit :=
  let s := to_bytes configID in
  if Z.of_nat (length s) <=? 0 then Err "config ID illegal, cannot be empty"
  else if maxLength <? Z.of_nat (length s) then Err "config ID illegal, cannot be longer than 249"
  else if decide (configID ∈ illegalNames) then Err ("name '" +:+ configID +:+ "' for config ID is not allowed")
  else if negb (length (find_run config_char config_char s) =? length s)%nat then
    Err ("config ID '" +:+ configID +:+ "' contains illegal characters")
  else Ok tt.

Definition validateChannelID (channelID : string) : res unit :=
  let s := to_bytes channelID in
  if Z.of_nat (length s) <=? 0 then Err "channel ID illegal, cannot be empty"
  else if maxLength <? Z.of_nat (length s) then Err "channel ID illegal, cannot be longer than 249"
  else if negb (length (find_run lower channel_char s) =? length s)%nat then
    Err ("channel ID '" +:+ channelID +:+ "' contains illegal characters")
  else Ok tt.

End ConfigNames.
Import ConfigNames.

(** ** configmap.go *)

Module ConfigMap.

Definition RootGroupKey : string := "Channel".
Definition GroupPrefix : string := "[Groups] ".
Definition ValuePrefix : string := "[Values] ".
Definition PolicyPrefix : string := "[Policy] ".

(** [comparable] embeds a group, a value or a policy. *)
Inductive item := IGroup (g : ConfigGroup) | IValue (v : ConfigValue) | IPolicy (p : ConfigPolicy).

Record comparable := mkComparable { c_item : item; c_key : string; c_path : list string }.

Abbreviation cmap := (gmap string comparable).

Definition version (cg : comparable) : Z :=
  match c_item cg with IGroup g => cg_Version g | IValue v => cv_Version v | IPolicy p => cp_Version p end.

Definition modPolicy (cg : comparable) : string :=
  match c_item cg with IGroup g => cg_ModPolicy g | IValue v => cv_ModPolicy v | IPolicy p => cp_ModPolicy p end.

Definition prefix_of (cg : comparable) : string :=
  match c_item cg with IGroup _ => GroupPrefix | IValue _ => ValuePrefix | IPolicy _ => PolicyPrefix end.

(** [strings.Join(path, "/")] *)
Fixpoint join (path : list string) : string :=
  match path with
  | [] => ""
  | [p] => p
  | p :: path => p +:+ PathSeparator +:+ join path
  end.

Definition fqPath (cg : comparable) : string :=
  match c_path cg with
  | [] => prefix_of cg +:+ PathSeparator +:+ c_key cg
  | path => prefix_of cg +:+ PathSeparator +:+ join path +:+ PathSeparator +:+ c_key cg
  end.

Definition addToMap (cg : comparable) (result : cmap) : res cmap :=
  match validateConfigID (c_key cg) with
  | Ok _ => Ok (<[fqPath cg := cg]> result)
  | Err _ => Err ("Illegal characters in key: " +:+ prefix_of cg)
  | Panic m => Panic m
  | OutOfFuel => OutOfFuel
  end.

Definition add_values (path : list string) (vs : list (string * ConfigValue)) (result : cmap) : res cmap :=
  foldM (fun result '(key, v) => addToMap (mkComparable (IValue v) key path) result) result vs.

Definition add_policies (path : list string) (ps : list (string * ConfigPolicy)) (result : cmap) : res cmap :=
  foldM (fun result '(key, p) => addToMap (mkComparable (IPolicy p) key path) result) result ps.

(** [recurseConfig]; the path of the source is [path ++ [key]]. *)
Fixpoint recurseConfig (path : list string) (key : string) (group : ConfigGroup) (result : cmap) : res cmap :=
  result ← addToMap (mkComparable (IGroup group) key path) result;
  result ← (fix groups (gs : list (string * ConfigGroup)) (result : cmap) : res cmap :=
              match gs with
              | [] => Ok result
              | (k, g) :: gs => result ← recurseConfig (path ++ [key]) k g result; groups gs result
              end) (cg_Groups group) result;
  result ← add_values (path ++ [key]) (cg_Values group) result;
  add_policies (path ++ [key]) (cg_Policies group) result.

Definition MapConfig (channelGroup : option ConfigGroup) : res cmap :=
  match channelGroup with
  | None => Ok ∅
  | Some g => recurseConfig [] RootGroupKey g ∅
  end.

Definition find_value (path : string) (configMap : cmap) (key : string) : res (string * ConfigValue) :=
  let valuePath := ValuePrefix +:+ path +:+ PathSeparator +:+ key in
  match configMap !! valuePath with
  | None => Err ("Missing value at path: " +:+ valuePath)
  | Some c => match c_item c with
              | IValue v => Ok (key, v)
              | _ => Err ("ConfigValue not found at value path: " +:+ valuePath)
              end
  end.

Definition find_policy (path : string) (configMap : cmap) (key : string) : res (string * ConfigPolicy) :=
  let policyPath := PolicyPrefix +:+ path +:+ PathSeparator +:+ key in
  match configMap !! policyPath with
  | None => Err ("Missing policy at path: " +:+ policyPath)
  | Some c => match c_item c with
              | IPolicy p => Ok (key, p)
              | _ => Err ("ConfigPolicy not found at policy path: " +:+ policyPath)
              end
  end.

Fixpoint all_ok {A B} (f : A -> res B) (l : list A) : res (list B) :=
  match l with
  | [] => Ok []
  | a :: l => b ← f a; bs ← all_ok f l; Ok (b :: bs)
  end.

Fixpoint recurseConfigMap (fuel : nat) (path : string) (configMap : cmap) : res ConfigGroup :=
  match fuel with
  | O => OutOfFuel
  | S fuel =>
      let groupPath := GroupPrefix +:+ path in
      match configMap !! groupPath with
      | None => Err ("Missing group at path: " +:+ groupPath)
      | Some c =>
          match c_item c with
          | IGroup group =>
              gs ← all_ok (fun key => g ← recurseConfigMap fuel (path +:+ PathSeparator +:+ key) configMap;
                                      Ok (key, g)) (cg_Groups group).*1;
              vs ← all_ok (find_value path configMap) (cg_Values group).*1;
              ps ← all_ok (find_policy path configMap) (cg_Policies group).*1;
              Ok (mkConfigGroup (cg_Version group) gs vs ps (cg_ModPolicy group))
          | _ => Err ("ConfigGroup not found at group path: " +:+ groupPath)
          end
      end
  end.

(** [proto.Equal] of groups: the maps are compared without their order. *)
Fixpoint assoc {A} (key : string) (l : list (string * A)) : option A :=
  match l with
  | [] => None
  | (k, a) :: l => if decide (k = key) then Some a else assoc key l
  end.

Definition value_equal (v w : ConfigValue) : bool :=
  (cv_Version v =? cv_Version w) && bool_decide (cv_Value v = cv_Value w) && bool_decide (cv_ModPolicy v = cv_ModPolicy w).

Definition cbpolicy_equal (p q : option cbPolicy) : bool :=
  match p, q with
  | None, None => true
  | Some p, Some q => (pol_Type p =? pol_Type q) && bool_decide (pol_Value p = pol_Value q)
  | _, _ => false
  end.

Definition policy_equal (p q : ConfigPolicy) : bool :=
  (cp_Version p =? cp_Version q) && cbpolicy_equal (cp_Policy p) (cp_Policy q) &&
  bool_decide (cp_ModPolicy p = cp_ModPolicy q).

Definition maps_equal {A} (eq : A -> A -> bool) (l k : list (string * A)) : bool :=
  (length l =? length k)%nat &&
  forallb (fun '(key, a) => match assoc key k with Some b => eq a b | None => false end) l.

Fixpoint group_equal (g h : ConfigGroup) : bool :=
  (cg_Version g =? cg_Version h) && bool_decide (cg_ModPolicy g = cg_ModPolicy h) &&
  (length (cg_Groups g) =? length (cg_Groups h))%nat &&
  (fix all (l : list (string * ConfigGroup)) : bool :=
     match l with
     | [] => true
     | (key, g') :: l =>
         match assoc key (cg_Groups h) with Some h' => group_equal g' h' | None => false end && all l
     end) (cg_Groups g) &&
  maps_equal value_equal (cg_Values g) (cg_Values h) &&
  maps_equal policy_equal (cg_Policies g) (cg_Policies h).

(** *** compare.go *)

Definition equalConfigValues (lhs rhs : ConfigValue) : bool :=
  (cv_Version lhs =? cv_Version rhs) && bool_decide (cv_ModPolicy lhs = cv_ModPolicy rhs) &&
  bool_decide (cv_Value lhs = cv_Value rhs).

Definition equalConfigPolicies (lhs rhs : ConfigPolicy) : bool :=
  if negb (cp_Version lhs =? cp_Version rhs) || negb (bool_decide (cp_ModPolicy lhs = cp_ModPolicy rhs)) then false
  else match cp_Policy lhs, cp_Policy rhs with
       | Some p, Some q => (pol_Type p =? pol_Type q) && bool_decide (pol_Value p = pol_Value q)
       | None, None => true
       | _, _ => false
       end.

(** [subsetOfGroups], [subsetOfPolicies] and [subsetOfValues] compare the keys. *)
Definition subsetOf {A} (inner outer : list (string * A)) : bool :=
  if (length inner =? 0)%nat then true
  else if (length outer <? length inner)%nat then false
  else forallb (fun '(key, _) => match assoc key outer with Some _ => true | None => false end) inner.

Definition equalConfigGroup (lhs rhs : ConfigGroup) : bool :=
  if negb (cg_Version lhs =? cg_Version rhs) || negb (bool_decide (cg_ModPolicy lhs = cg_ModPolicy rhs)) then false
  else if negb (subsetOf (cg_Groups lhs) (cg_Groups rhs)) || negb (subsetOf (cg_Groups rhs) (cg_Groups lhs)) ||
          negb (subsetOf (cg_Policies lhs) (cg_Policies rhs)) || negb (subsetOf (cg_Policies rhs) (cg_Policies lhs)) ||
          negb (subsetOf (cg_Values lhs) (cg_Values rhs)) || negb (subsetOf (cg_Values rhs) (cg_Values lhs)) then false
  else true.

Definition equals (cg other : comparable) : bool :=
  match c_item cg, c_item other with
  | IGroup g, IGroup h => equalConfigGroup g h
  | IValue v, IValue w => equalConfigValues v w
  | IPolicy p, IPolicy q => equalConfigPolicies p q
  | _, _ => false
  end.

(** The paths of the groups visited below a group are longer than its own:
    the number of entries bounds the depth. *)
Definition configMapToConfig (configMap : cmap) : res ConfigGroup :=
  recurseConfigMap (S (size configMap)) (PathSeparator +:+ RootGroupKey) configMap.

End ConfigMap.
Import ConfigMap.

(** ** manager.go, update.go and config.go *)

Module ConfigManager.
Section ConfigManager.
Context `{ProtoCodec} `{SignatureCodec} `{MSP} `{PolicyCodec} `{ConfigCodec}.

(** The value handlers of common/config, by the path of the group: whether a
    group may have the sub-groups, whether a value can be read, and the checks
    on the whole configuration. *)
Context (BeginValueProposals : list string -> list string -> res unit).
Context (Deserialize : list string -> string -> bytes -> res unit).
Context (PreCommit : ConfigGroup -> res unit).

Record configSet := mkConfigSet {
  cs_channelID : string;
  cs_sequence : Z;
  cs_configMap : cmap;
  cs_configEnv : ConfigEnvelope
}.

Record configManager := mkConfigManager { cm_policyManager : ManagerImpl; cm_current : configSet }.

(** *** config.go *)

Fixpoint propose_policies (ps : list (string * ConfigPolicy)) (pm : ManagerImpl) : res ManagerImpl :=
  match ps with
  | [] => Ok pm
  | (key, policy) :: ps => pm ← ProposePolicy key policy pm; propose_policies ps pm
  end.

Fixpoint deserialize_values (path : list string) (vs : list (string * ConfigValue)) : res unit :=
  match vs with
  | [] => Ok tt
  | (key, v) :: vs => _ ← Deserialize path key (cv_Value v); deserialize_values path vs
  end.

(** The handler of a sub-group is the manager of that name in the pending
    configuration. *)
Definition with_sub (pm : ManagerImpl) (key : string) (f : ManagerImpl -> res ManagerImpl) : res ManagerImpl :=
  match pendingConfig pm with
  | None => Panic "nil pointer dereference"
  | Some c =>
      match find_manager (managers c) key with
      | None => Panic "index out of range"
      | Some m => m ← f m;
          Ok (set_pending pm (Some (mkPolicyConfig (policies c) (set_manager (managers c) key m) (imps c))))
      end
  end.

(** [proposeGroup] on the policy manager of the group; on an error the proposal
    is rolled back. *)
Fixpoint proposeGroup (path : list string) (group : ConfigGroup) (pm : ManagerImpl) : res ManagerImpl :=
  _ ← BeginValueProposals path (cg_Groups group).*1;
  pm ← BeginPolicyProposals (cg_Groups group).*1 pm;
  _ ← deserialize_values path (cg_Values group);
  pm ← propose_policies (cg_Policies group) pm;
  (fix subs (gs : list (string * ConfigGroup)) (pm : ManagerImpl) : res ManagerImpl :=
     match gs with
     | [] => Ok pm
     | (key, g) :: gs => pm ← with_sub pm key (proposeGroup (path ++ [key]) g); subs gs pm
     end) (cg_Groups group) pm.

(** [configResult.commit]: the sub-groups first. *)
Fixpoint commit_group (parent : option (string -> Policy * bool)) (group : ConfigGroup) (pm : ManagerImpl) :
    res ManagerImpl :=
  pm ← (fix subs (gs : list (string * ConfigGroup)) (pm : ManagerImpl) : res ManagerImpl :=
          match gs with
          | [] => Ok pm
          | (key, g) :: gs =>
              pm ← with_sub pm key (commit_group (Some (GetPolicy parent pm)) g); subs gs pm
          end) (cg_Groups group) pm;
  CommitProposals parent pm.

Definition set_policyManager (cm : configManager) (pm : ManagerImpl) : configManager :=
  mkConfigManager pm (cm_current cm).

(** A proposal that succeeds is left pending. *)
Definition processConfig (channelGroup : ConfigGroup) : ST configManager unit := fun cm =>
  match (pm ← proposeGroup [RootGroupKey] channelGroup (cm_policyManager cm);
         _ ← PreCommit channelGroup; Ok pm) with
  | Ok pm => (set_policyManager cm pm, Ok tt)
  | Err e => (set_policyManager cm (RollbackProposals (cm_policyManager cm)), Err e)
  | Panic m => (cm, Panic m)
  | OutOfFuel => (cm, OutOfFuel)
  end.

Definition result_rollback : ST configManager unit :=
  st_modify (fun cm => set_policyManager cm (RollbackProposals (cm_policyManager cm))).

Definition result_commit (channelGroup : ConfigGroup) : ST configManager unit := fun cm =>
  match commit_group None channelGroup (cm_policyManager cm) with
  | Ok pm => (set_policyManager cm pm, Ok tt)
  | Err e => (cm, Err e)
  | Panic m => (cm, Panic m)
  | OutOfFuel => (cm, OutOfFuel)
  end.

(** *** update.go *)

Definition verify_read (configMap : cmap) (r : string * comparable) : res unit :=
  let '(key, value) := r in
  match configMap !! key with
  | None => Err ("Existing config does not contain element for " +:+ key +:+ " but was in the read set")
  | Some existing =>
      if negb (version existing =? version value) then Err ("Readset expected key " +:+ key +:+ " at another version")
      else Ok tt
  end.

Definition verifyReadSet (c : configSet) (readSet : cmap) : res unit :=
  foldM (fun _ r => verify_read (cs_configMap c) r) tt (map_to_list readSet).

Definition ComputeDeltaSet (readSet writeSet : cmap) : cmap :=
  map_imap (fun key value =>
    match readSet !! key with
    | Some readVal => if version readVal =? version value then None else Some value
    | None => Some value
    end) writeSet.

(** [strings.Split(s, "/")] *)
Fixpoint split_path (s : bytes) : list bytes :=
  match s with
  | [] => [[]]
  | c :: s =>
      if decide (c = "/"%char) then [] :: split_path s
      else match split_path s with
           | [] => [[c]]
           | p :: ps => (c :: p) :: ps
           end
  end.

Definition validateModPolicy (modPolicy : string) : res unit :=
  if decide (modPolicy = "") then Err "mod_policy not set"
  else
    let trimmed := match to_bytes modPolicy with
                   | c :: s => if decide (c = "/"%char) then s else c :: s
                   | [] => []
                   end in
    foldM (fun _ pathElement => validateConfigID (to_string pathElement)) tt (split_path trimmed).

(** [item.path[1:]] panics for the root group, whose path is empty. *)
Definition policyForItem (cm : configManager) (item : comparable) : res (Policy * bool) :=
  match c_path item with
  | [] => Panic "slice bounds out of range"
  | _ :: path =>
      match Manager (mkHandle (cm_policyManager cm) None) path with
      | None => Ok (RejectPolicy "", false)
      | Some manager =>
          let manager := match c_item item with
                         | IGroup _ => Manager manager [c_key item]
                         | _ => Some manager
                         end in
          match manager with
          | None => Ok (RejectPolicy "", false)
          | Some manager => Ok (h_GetPolicy manager (modPolicy item))
          end
      end
  end.

Definition verify_delta (cm : configManager) (signedData : list SignedData) (d : string * comparable) : res unit :=
  let '(key, value) := d in
  match validateModPolicy (modPolicy value) with
  | Err e => Err ("invalid mod_policy for element " +:+ key +:+ ": " +:+ e)
  | Panic m => Panic m
  | OutOfFuel => OutOfFuel
  | Ok _ =>
      match cs_configMap (cm_current cm) !! key with
      | None =>
          if negb (version value =? 0) then Err ("Attempted to set key " +:+ key +:+ ", but key does not exist")
          else Ok tt
      | Some existing =>
          if negb (version value =? wrap64 (version existing + 1)) then
            Err ("Attempt to set key " +:+ key +:+ " to a version that is not the next")
          else
            '(policy, ok) ← policyForItem cm existing;
            if negb ok then Err ("Unexpected missing policy for item " +:+ key)
            else match Evaluate policy signedData with
                 | Err e => Err ("Policy for " +:+ key +:+ " not satisfied: " +:+ e)
                 | r => r
                 end
      end
  end.

Definition verifyDeltaSet (cm : configManager) (deltaSet : cmap) (signedData : list SignedData) : res unit :=
  if (size deltaSet =? 0)%nat then Err "Delta set was empty.  Update would have no effect."
  else foldM (fun _ d => verify_delta cm signedData d) tt (map_to_list deltaSet).

Definition verifyFullProposedConfig (writeSet fullProposedConfig : cmap) : res unit :=
  foldM (fun _ key => match fullProposedConfig !! key with
                      | Some _ => Ok tt
                      | None => Err ("Writeset contained key " +:+ key +:+ " which did not appear in proposed config")
                      end) tt (map_to_list writeSet).*1.

Definition computeUpdateResult (cm : configManager) (updatedConfig : cmap) : cmap :=
  updatedConfig ∪ cs_configMap (cm_current cm).

Definition wrap_err {A} (what : string) (r : res A) : res A :=
  match r with Err e => Err (what +:+ e) | r => r end.

Definition authorizeUpdate (cm : configManager) (configUpdateEnv : ConfigUpdateEnvelope) : res cmap :=
  configUpdate ← unmarshal_ConfigUpdate (cue_ConfigUpdate configUpdateEnv);
  if negb (bool_decide (cu_ChannelId configUpdate = cs_channelID (cm_current cm))) then
    Err "Update not for correct channel"
  else
    readSet ← wrap_err "Error mapping ReadSet: " (MapConfig (cu_ReadSet configUpdate));
    _ ← wrap_err "Error validating ReadSet: " (verifyReadSet (cm_current cm) readSet);
    writeSet ← wrap_err "Error mapping WriteSet: " (MapConfig (cu_WriteSet configUpdate));
    let deltaSet := ComputeDeltaSet readSet writeSet in
    signedData ← config_AsSignedData configUpdateEnv;
    _ ← wrap_err "Error validating DeltaSet: " (verifyDeltaSet cm deltaSet signedData);
    let fullProposedConfig := computeUpdateResult cm deltaSet in
    _ ← wrap_err "Full config did not verify: " (verifyFullProposedConfig writeSet fullProposedConfig);
    Ok fullProposedConfig.

(** [utils.UnmarshalEnvelopeOfType]; a nil envelope is dereferenced. *)
Definition UnmarshalEnvelopeOfType {A} (envelope : option Envelope) (headerType : HeaderType)
    (unmarshal : bytes -> res A) : res (ChannelHeader * A) :=
  match envelope with
  | None => Panic "nil pointer dereference"
  | Some envelope =>
      payload ← unmarshal_Payload (env_Payload envelope);
      match pl_Header payload with
      | None => Err "Envelope must have a Header"
      | Some hdr =>
          chdr ← match UnmarshalChannelHeader (hdr_ChannelHeader hdr) with
                 | Err _ => Err "Invalid ChannelHeader" | r => r end;
          if negb (bool_decide (ch_Type chdr = headerType)) then Err "Not a tx of the expected type"
          else
            message ← wrap_err "Error unmarshaling message: " (unmarshal (pl_Data payload));
            Ok (chdr, message)
      end
  end.

Definition envelopeToConfigUpdate (configtx : option Envelope) : res ConfigUpdateEnvelope :=
  '(_, configUpdateEnv) ← UnmarshalEnvelopeOfType configtx CONFIG_UPDATE unmarshal_ConfigUpdateEnvelope;
  Ok configUpdateEnv.

(** *** manager.go *)

Definition proposeConfigUpdate (configtx : Envelope) : ST configManager ConfigEnvelope :=
  cm ← st_get;
  configUpdateEnv ← st_lift (wrap_err "Error converting envelope to config update: "
                               (envelopeToConfigUpdate (Some configtx)));
  configMap ← st_lift (wrap_err "Error authorizing update: " (authorizeUpdate cm configUpdateEnv));
  channelGroup ← st_lift (wrap_err "Could not turn configMap back to channelGroup: " (configMapToConfig configMap));
  (fun cm => let '(cm, r) := processConfig channelGroup cm in (cm, wrap_err "Error processing updated config: " r));;
  result_rollback;;
  mret (mkConfigEnvelope (Some (mkConfig (wrap64 (cs_sequence (cm_current cm) + 1)) (Some channelGroup)))
          (Some configtx)).

Definition ProposeConfigUpdate (configtx : Envelope) : ST configManager ConfigEnvelope :=
  proposeConfigUpdate configtx.

(** The result is the channel group of the proposal left pending. *)
Definition prepareApply (configEnv : ConfigEnvelope) : ST configManager ConfigGroup :=
  cm ← st_get;
  match ce_Config configEnv with
  | None => st_lift (Err "Config cannot be nil")
  | Some cfg =>
      if negb (cfg_Sequence cfg =? wrap64 (cs_sequence (cm_current cm) + 1)) then
        st_lift (Err "Config at another sequence, cannot prepare to update")
      else
        configUpdateEnv ← st_lift (envelopeToConfigUpdate (ce_LastUpdate configEnv));
        configMap ← st_lift (authorizeUpdate cm configUpdateEnv);
        channelGroup ← st_lift (wrap_err "Could not turn configMap back to channelGroup: "
                                  (configMapToConfig configMap));
        if negb (match cfg_ChannelGroup cfg with Some g => group_equal channelGroup g | None => false end) then
          st_lift (Err "ConfigEnvelope LastUpdate did not produce the supplied config result")
        else
          processConfig channelGroup;;
          mret channelGroup
  end.

Definition Validate (configEnv : ConfigEnvelope) : ST configManager unit :=
  prepareApply configEnv;;
  result_rollback.

Definition Apply (configEnv : ConfigEnvelope) : ST configManager unit :=
  match ce_Config configEnv with
  | None => st_lift (Panic "nil pointer dereference")
  | Some cfg =>
      configMap ← st_lift (MapConfig (cfg_ChannelGroup cfg));
      channelGroup ← prepareApply configEnv;
      result_commit channelGroup;;
      st_modify (fun cm => mkConfigManager (cm_policyManager cm)
        (mkConfigSet (cs_channelID (cm_current cm)) (cfg_Sequence cfg) configMap configEnv))
  end.

Definition ChainID (cm : configManager) : string := cs_channelID (cm_current cm).
Definition Sequence (cm : configManager) : Z := cs_sequence (cm_current cm).
Definition ConfigEnvelope_ (cm : configManager) : ConfigEnvelope := cs_configEnv (cm_current cm).

(** A new manager, with the policy manager of a new initializer. *)
Definition NewConfigManager (envConfig : Envelope) : res configManager :=
  '(header, configEnv) ← wrap_err "Bad envelope: "
      (UnmarshalEnvelopeOfType (Some envConfig) CONFIG unmarshal_ConfigEnvelope);
  match ce_Config configEnv with
  | None => Err "Nil config envelope Config"
  | Some cfg =>
      match cfg_ChannelGroup cfg with
      | None => Err "nil channel group"
      | Some channelGroup =>
          _ ← wrap_err "Bad channel id: " (validateChannelID (ch_ChannelId header));
          configMap ← wrap_err "Error converting config to map: " (MapConfig (Some channelGroup));
          let cm := mkConfigManager (NewManagerImpl RootGroupKey)
                      (mkConfigSet (ch_ChannelId header) (cfg_Sequence cfg) configMap configEnv) in
          let '(cm, r) := (processConfig channelGroup;; result_commit channelGroup) cm in
          _ ← r; Ok cm
      end
  end.

End ConfigManager.
End ConfigManager.

(** ** Paths *)

Module ConfigPaths.

Definition slash : ascii := "/"%char.

Definition clean (s : string) : Prop := slash ∉ to_bytes s.

(** The bytes of [/p1/p2/...]. *)
Definition path_bytes (p : list string) : bytes := concat ((fun s => slash :: to_bytes s) <$> p).

Lemma path_bytes_snoc p k : path_bytes (p ++ [k]) = path_bytes p ++ slash :: to_bytes k.
Proof. unfold path_bytes. rewrite fmap_app, concat_app. cbn. by rewrite app_nil_r. Qed.

Lemma join_bytes p : p <> [] -> slash :: to_bytes (join p) = path_bytes p.
Proof.
  induction p as [|s p IH]; [done|]. intros _. destruct p as [|s' p]; [by cbn; rewrite app_nil_r|].
  change (join (s :: s' :: p)) with (s +:+ PathSeparator +:+ join (s' :: p)). rewrite !to_bytes_app.
  change (to_bytes PathSeparator ++ to_bytes (join (s' :: p))) with (slash :: to_bytes (join (s' :: p))).
  by rewrite IH.
Qed.

Lemma fqPath_bytes c :
  to_bytes (fqPath c) = to_bytes (prefix_of c) ++ path_bytes (c_path c ++ [c_key c]).
Proof.
  unfold fqPath. rewrite path_bytes_snoc. destruct (c_path c) as [|s p] eqn:E.
  - by rewrite !to_bytes_app.
  - rewrite !to_bytes_app. f_equal.
    change (slash :: to_bytes (join (s :: p)) ++ slash :: to_bytes (c_key c) =
      path_bytes (s :: p) ++ slash :: to_bytes (c_key c)).
    by rewrite <- join_bytes.
Qed.

Lemma split_clean (x y : bytes) p q :
  slash ∉ x -> slash ∉ y -> x ++ path_bytes p = y ++ path_bytes q -> x = y /\ path_bytes p = path_bytes q.
Proof.
  revert y. induction x as [|c x IH]; intros [|d y] Hx Hy E; cbn in E.
  - done.
  - destruct p as [|s p]; [done|]. cbn in E. injection E as <- _. set_solver.
  - destruct q as [|s q]; [done|]. cbn in E. injection E as -> _. set_solver.
  - injection E as -> E. destruct (IH y) as [-> ->]; [set_solver|set_solver|done|done].
Qed.

Lemma path_bytes_inj p q : Forall clean p -> Forall clean q -> path_bytes p = path_bytes q -> p = q.
Proof.
  intros Hp. revert q. induction Hp as [|s p Hs Hp IH]; intros q Hq E.
  - destruct q; done.
  - destruct Hq as [|t q Ht Hq]; [done|]. unfold path_bytes in E. cbn in E. injection E as E.
    apply (split_clean _ _ p q) in E as [E1 E2]; [|done|done].
    apply to_bytes_inj in E1 as ->. f_equal. by apply IH.
Qed.

Inductive kind := KGroup | KValue | KPolicy.

Definition kind_of (c : comparable) : kind :=
  match c_item c with IGroup _ => KGroup | IValue _ => KValue | IPolicy _ => KPolicy end.

Definition full_path (c : comparable) : list string := c_path c ++ [c_key c].

Lemma fqPath_inj c d :
  Forall clean (full_path c) -> Forall clean (full_path d) -> fqPath c = fqPath d ->
  kind_of c = kind_of d /\ full_path c = full_path d.
Proof.
  intros Hc Hd E. apply (f_equal to_bytes) in E. rewrite !fqPath_bytes in E.
  assert (kind_of c = kind_of d) as Ek.
  { unfold kind_of, prefix_of in *. destruct (c_item c), (c_item d); done. }
  split; [done|]. apply path_bytes_inj; [done..|].
  assert (prefix_of c = prefix_of d) as Ep by (unfold kind_of, prefix_of in *; by destruct (c_item c), (c_item d)).
  rewrite Ep in E. by apply app_inv_head in E.
Qed.

(** A valid name has no slash. *)
Lemma valid_clean key : validateConfigID key = Ok tt -> clean key.
Proof.
  unfold validateConfigID. destruct (_ <=? 0); [done|]. destruct (_ <? _); [done|]. case_decide; [done|].
  destruct (_ =? _)%nat eqn:E; [|done]. intros _. apply Nat.eqb_eq, find_run_all in E. unfold clean.
  destruct (to_bytes key) as [|c s]; [set_solver|]. destruct E as [Hc Hs]. intros Hin.
  assert (config_char slash = true) as Hsl; [|done].
  apply elem_of_cons in Hin as [<-|Hin]; [done|]. rewrite Forall_forall in Hs. by apply Hs.
Qed.

End ConfigPaths.

(** ** The elements of a configuration *)

Module ConfigFacts.
Import ConfigPaths ConfigManager.

Lemma group_ind (P : ConfigGroup -> Prop) :
  (forall g, Forall (fun kg => P kg.2) (cg_Groups g) -> P g) -> forall g, P g.
Proof.
  intros Hg. fix IH 1. intros g. apply Hg. destruct g as [ver gs vs ps mp]. cbn [cg_Groups].
  induction gs as [|[k g] gs IHgs]; constructor; [apply IH|exact IHgs].
Qed.

Definition value_elem (path : list string) (kv : string * ConfigValue) : comparable :=
  mkComparable (IValue kv.2) kv.1 path.
Definition policy_elem (path : list string) (kp : string * ConfigPolicy) : comparable :=
  mkComparable (IPolicy kp.2) kp.1 path.

(** Every group, value and policy with its place. *)
Fixpoint elements (path : list string) (key : string) (g : ConfigGroup) : list comparable :=
  mkComparable (IGroup g) key path ::
  (fix groups (gs : list (string * ConfigGroup)) : list comparable :=
     match gs with
     | [] => []
     | (k, g') :: gs => elements (path ++ [key]) k g' ++ groups gs
     end) (cg_Groups g) ++
  (value_elem (path ++ [key]) <$> cg_Values g) ++ (policy_elem (path ++ [key]) <$> cg_Policies g).

Definition sub_elements (path : list string) (gs : list (string * ConfigGroup)) : list comparable :=
  concat ((fun kg => elements path kg.1 kg.2) <$> gs).

Lemma elements_eq path key g :
  elements path key g = mkComparable (IGroup g) key path :: sub_elements (path ++ [key]) (cg_Groups g) ++
    (value_elem (path ++ [key]) <$> cg_Values g) ++ (policy_elem (path ++ [key]) <$> cg_Policies g).
Proof.
  destruct g as [ver gs vs ps mp]. cbn [elements cg_Groups]. do 2 f_equal. unfold sub_elements.
  induction gs as [|[k g'] gs IH]; cbn; [done|]. by rewrite IH.
Qed.

Definition add (result : cmap) (c : comparable) : res cmap := addToMap c result.

Lemma foldM_fmap {A B C} (f : B -> C -> res B) (h : A -> C) (b : B) (l : list A) :
  foldM (fun b a => f b (h a)) b l = foldM f b (h <$> l).
Proof. revert b. induction l as [|a l IH]; intros b; cbn; [done|]. destruct (f b (h a)); cbn; auto. Qed.

Lemma recurse_foldM path key g result : recurseConfig path key g result = foldM add result (elements path key g).
Proof.
  revert path key result. induction g as [g IH] using group_ind. intros path key result.
  rewrite elements_eq. cbn [foldM].
  change (add result (mkComparable (IGroup g) key path)) with (addToMap (mkComparable (IGroup g) key path) result).
  destruct g as [ver gs vs ps mp].
  cbn [recurseConfig cg_Groups cg_Values cg_Policies] in *.
  destruct (addToMap _ result) as [r| | |]; [|done..]. rewrite !res_ret_bind, !foldM_app.
  assert (forall r, (fix groups (gs : list (string * ConfigGroup)) (result : cmap) : res cmap :=
              match gs with
              | [] => Ok result
              | (k, g) :: gs => result ← recurseConfig (path ++ [key]) k g result; groups gs result
              end) gs r = foldM add r (sub_elements (path ++ [key]) gs)) as ->.
  { unfold sub_elements. induction IH as [|[k g] gs Hg Hgs IHgs]; intros r'; [done|].
    cbn [fmap list_fmap concat]. rewrite foldM_app. cbn [fst snd] in Hg. rewrite Hg.
    destruct (foldM add r' _); cbn; [apply IHgs|done..]. }
  destruct (foldM add r _) as [r1| | |]; [|done..]. rewrite !res_ret_bind.
  rewrite foldM_app. unfold add_values, add_policies. rewrite <- foldM_fmap.
  assert (forall r1, foldM (fun result '(key0, v) => addToMap (mkComparable (IValue v) key0 (path ++ [key])) result) r1 vs =
    foldM (fun b a => add b (value_elem (path ++ [key]) a)) r1 vs) as ->.
  { clear. induction vs as [|[k v] vs IH]; intros r1; [done|]. cbn [foldM].
    change (add r1 (value_elem (path ++ [key]) (k, v))) with (addToMap (mkComparable (IValue v) k (path ++ [key])) r1). destruct (addToMap _ r1); cbn; [apply IH|done..]. }
  destruct (foldM _ r1 vs) as [r2| | |]; [|done..]. rewrite !res_ret_bind, <- foldM_fmap. clear.
  revert r2. induction ps as [|[k v] vs IH]; intros r1; [done|]. cbn [foldM].
  change (add r1 (policy_elem (path ++ [key]) (k, v))) with (addToMap (mkComparable (IPolicy v) k (path ++ [key])) r1). destruct (addToMap _ r1); cbn; [apply IH|done..].
Qed.

Definition valid_key (c : comparable) : Prop := validateConfigID (c_key c) = Ok tt.

Lemma add_spec result c m :
  add result c = Ok m <-> valid_key c /\ m = <[fqPath c := c]> result.
Proof.
  unfold add, addToMap, valid_key. destruct (validateConfigID (c_key c)) as [[]| | |]; naive_solver.
Qed.

Lemma fold_add_spec result l m :
  foldM add result l = Ok m ->
  Forall valid_key l /\
  (forall k c, m !! k = Some c -> (c ∈ l /\ k = fqPath c) \/ result !! k = Some c) /\
  (forall c, c ∈ l -> exists c', c' ∈ l /\ m !! fqPath c = Some c' /\ fqPath c' = fqPath c) /\
  (forall k, is_Some (result !! k) -> is_Some (m !! k)).
Proof.
  revert result. induction l as [|c l IH]; intros result E; cbn [foldM] in E.
  { injection E as <-. split; [constructor|]. split; [by right|]. split; [set_solver|done]. }
  apply res_bind_Ok in E as (r & [Hv ->]%add_spec & E). destruct (IH _ E) as (F & L & S & R).
  split; [by constructor|]. split; [|split].
  - intros k c' Hk. destruct (L k c' Hk) as [[Hin ->]|Hr]; [left; split; [by right|done]|].
    destruct (decide (k = fqPath c)) as [->|Hne].
    + rewrite lookup_insert_eq in Hr. injection Hr as <-. left. split; [by left|done].
    + rewrite lookup_insert_ne in Hr by done. by right.
  - intros c' [->|Hin]%elem_of_cons.
    + destruct (R (fqPath c)) as [c' Hc']; [rewrite lookup_insert_eq; by eexists|].
      destruct (L _ _ Hc') as [[Hin E']|Hr].
      * exists c'. split; [by right|]. split; done.
      * rewrite lookup_insert_eq in Hr. injection Hr as <-. exists c. split; [by left|done].
    + destruct (S c' Hin) as (d & Hd & Hm & He). exists d. split; [by right|done].
  - intros k Hk. apply R. destruct (decide (k = fqPath c)) as [->|Hne]; [rewrite lookup_insert_eq; by eexists|].
    by rewrite lookup_insert_ne.
Qed.

Definition config_elements (g : option ConfigGroup) : list comparable :=
  match g with None => [] | Some g => elements [] RootGroupKey g end.

Lemma MapConfig_spec g m :
  MapConfig g = Ok m ->
  Forall valid_key (config_elements g) /\
  (forall k c, m !! k = Some c -> c ∈ config_elements g /\ k = fqPath c) /\
  (forall c, c ∈ config_elements g -> exists c', c' ∈ config_elements g /\ m !! fqPath c = Some c' /\
     fqPath c' = fqPath c).
Proof.
  destruct g as [g|]; cbn [MapConfig config_elements].
  - rewrite recurse_foldM. intros E. destruct (fold_add_spec _ _ _ E) as (F & L & S & _).
    split; [done|]. split; [|done]. intros k c Hk. destruct (L k c Hk) as [|Hr]; [done|].
    by rewrite lookup_empty in Hr.
  - intros [= <-]. split; [constructor|]. split; [by intros k c; rewrite lookup_empty|set_solver].
Qed.

(** *** Path strings *)

Definition pstr (p : list string) : string := to_string (path_bytes p).

Lemma pstr_bytes p : to_bytes (pstr p) = path_bytes p.
Proof. apply String.list_ascii_of_string_of_list_ascii. Qed.

Lemma pstr_snoc p k : pstr (p ++ [k]) = pstr p +:+ PathSeparator +:+ k.
Proof. apply to_bytes_inj. by rewrite !to_bytes_app, !pstr_bytes, path_bytes_snoc. Qed.

Lemma fqPath_pstr c : fqPath c = prefix_of c +:+ pstr (full_path c).
Proof. apply to_bytes_inj. by rewrite to_bytes_app, pstr_bytes, fqPath_bytes. Qed.

(** *** Children *)

Definition group_keys (g : ConfigGroup) (k : kind) : list string :=
  match k with
  | KGroup => (cg_Groups g).*1
  | KValue => (cg_Values g).*1
  | KPolicy => (cg_Policies g).*1
  end.

Definition child_of (c d : comparable) : Prop :=
  c_path c = full_path d /\ exists g, c_item d = IGroup g /\ c_key c ∈ group_keys g (kind_of c).

Lemma elem_sub_elements c path gs :
  c ∈ sub_elements path gs <-> exists k g, (k, g) ∈ gs /\ c ∈ elements path k g.
Proof.
  unfold sub_elements. rewrite elem_of_concat_fmap. split.
  - intros ([k g] & H1 & H2). by exists k, g.
  - intros (k & g & H1 & H2). by exists (k, g).
Qed.

Lemma elements_root path key g : mkComparable (IGroup g) key path ∈ elements path key g.
Proof. rewrite elements_eq. by left. Qed.

Lemma elements_sub path key g k g' c :
  (k, g') ∈ cg_Groups g -> c ∈ elements (path ++ [key]) k g' -> c ∈ elements path key g.
Proof.
  intros Hg Hc. rewrite elements_eq. right. apply elem_of_app. left. apply elem_sub_elements. by exists k, g'.
Qed.

Lemma elements_cases path key g c :
  c ∈ elements path key g ->
  c = mkComparable (IGroup g) key path \/
  (exists k g', (k, g') ∈ cg_Groups g /\ c ∈ elements (path ++ [key]) k g') \/
  (exists k v, (k, v) ∈ cg_Values g /\ c = mkComparable (IValue v) k (path ++ [key])) \/
  (exists k p, (k, p) ∈ cg_Policies g /\ c = mkComparable (IPolicy p) k (path ++ [key])).
Proof.
  rewrite elements_eq, elem_of_cons, !elem_of_app, elem_sub_elements. intros [->|[Hs|[Hv|Hp]]].
  - by left.
  - right. by left.
  - right. right. left. apply list_elem_of_fmap in Hv as ([k v] & -> & Hv). by exists k, v.
  - right. right. right. apply list_elem_of_fmap in Hp as ([k v] & -> & Hv). by exists k, v.
Qed.

(** A named child is an element. *)
Lemma elements_child path key g d gd k x :
  d ∈ elements path key g -> c_item d = IGroup gd -> x ∈ group_keys gd k ->
  exists c, c ∈ elements path key g /\ kind_of c = k /\ c_path c = full_path d /\ c_key c = x.
Proof.
  revert path key. induction g as [g IH] using group_ind. intros path key Hd Hi Hx.
  apply elements_cases in Hd as [->|[(k' & g' & Hg & Hd)|[(k' & v & _ & ->)|(k' & p & _ & ->)]]]; try done.
  - injection Hi as <-. rewrite elements_eq. destruct k; apply list_elem_of_fmap in Hx as ([x' y] & -> & Hy).
    + exists (mkComparable (IGroup y) x' (path ++ [key])). split; [|done]. right. apply elem_of_app. left.
      apply elem_sub_elements. exists x', y. split; [done|apply elements_root].
    + exists (mkComparable (IValue y) x' (path ++ [key])). split; [|done]. right. apply elem_of_app. right.
      apply elem_of_app. left. apply list_elem_of_fmap. by exists (x', y).
    + exists (mkComparable (IPolicy y) x' (path ++ [key])). split; [|done]. right. apply elem_of_app. right.
      apply elem_of_app. right. apply list_elem_of_fmap. by exists (x', y).
  - rewrite Forall_forall in IH. destruct (IH (k', g') Hg (path ++ [key]) k' Hd Hi Hx) as (c & Hc & Hr).
    exists c. split; [|done]. by eapply elements_sub.
Qed.

Definition clean_entry (c : comparable) : Prop :=
  Forall clean (full_path c) /\
  forall g k x, c_item c = IGroup g -> x ∈ group_keys g k -> validateConfigID x = Ok tt.

Lemma elements_clean path key g :
  Forall clean path -> Forall valid_key (elements path key g) -> Forall clean_entry (elements path key g).
Proof.
  intros Hp Hv.
  assert (forall c, c ∈ elements path key g -> Forall clean (full_path c)) as Hpaths.
  { revert path key Hp Hv. induction g as [g IH] using group_ind. intros path key Hp Hv c Hc.
    rewrite Forall_forall in Hv. assert (Forall clean (path ++ [key])) as Hpk.
    { apply Forall_app. split; [done|]. constructor; [|constructor]. apply valid_clean.
      apply (Hv (mkComparable (IGroup g) key path)), elements_root. }
    pose proof (Hv c Hc) as Hck. unfold valid_key in Hck. apply valid_clean in Hck.
    apply elements_cases in Hc as [->|[(k' & g' & Hg & Hc)|[(k' & v & _ & ->)|(k' & p & _ & ->)]]]; unfold full_path.
    - done.
    - rewrite Forall_forall in IH. apply (IH (k', g') Hg (path ++ [key]) k'); [done| |done].
      apply Forall_forall. intros c' Hc'. apply Hv. by eapply elements_sub.
    - apply Forall_app. split; [done|]. constructor; [done|constructor].
    - apply Forall_app. split; [done|]. constructor; [done|constructor]. }
  apply Forall_forall. intros c Hc. split; [by apply Hpaths|]. intros gd k x Hi Hx.
  destruct (elements_child _ _ _ _ _ _ _ Hc Hi Hx) as (d & Hd & _ & _ & <-).
  rewrite Forall_forall in Hv. by apply Hv.
Qed.

(** A map of entries under their paths. *)
Definition map_ok (m : cmap) : Prop := forall k c, m !! k = Some c -> k = fqPath c /\ clean_entry c.

Lemma MapConfig_ok g m : MapConfig g = Ok m -> map_ok m.
Proof.
  intros E. destruct (MapConfig_spec _ _ E) as (F & L & _). intros k c Hk. destruct (L k c Hk) as [Hc ->].
  split; [done|]. destruct g as [g|]; cbn [config_elements] in *; [|by apply elem_of_nil in Hc].
  pose proof (elements_clean [] RootGroupKey g ltac:(constructor) F) as Hcl. rewrite Forall_forall in Hcl. by apply Hcl.
Qed.

(** *** Assembling a configuration *)

Definition same_shape (e c : comparable) : Prop :=
  match c_item e, c_item c with
  | IGroup g, IGroup h => cg_Version g = cg_Version h /\ cg_ModPolicy g = cg_ModPolicy h /\
                          forall k, group_keys g k = group_keys h k
  | IValue v, IValue w => v = w
  | IPolicy p, IPolicy q => p = q
  | _, _ => False
  end.

Lemma same_shape_fields e c : same_shape e c -> version e = version c /\ modPolicy e = modPolicy c /\ kind_of e = kind_of c.
Proof.
  unfold same_shape, version, modPolicy, kind_of. destruct (c_item e), (c_item c); try done.
  - by intros (-> & -> & _).
  - by intros ->.
  - by intros ->.
Qed.

Lemma all_ok_Forall2 {A B} (f : A -> res B) l bs : all_ok f l = Ok bs -> Forall2 (fun a b => f a = Ok b) l bs.
Proof.
  revert bs. induction l as [|a l IH]; intros bs E; cbn in E.
  { injection E as <-. constructor. }
  apply res_bind_Ok in E as (b & Eb & E). apply res_bind_Ok in E as (bs' & Ebs & E). injection E as <-.
  constructor; auto.
Qed.

Lemma Forall2_keys {A} (f : string -> res (string * A)) l bs :
  (forall a b, f a = Ok b -> b.1 = a) -> Forall2 (fun a b => f a = Ok b) l bs ->
  bs.*1 = l /\ forall k x, (k, x) ∈ bs -> f k = Ok (k, x).
Proof.
  intros Hk Hf. induction Hf as [|a b l bs Hab Hf IH]; cbn; [split; [done|set_solver]|].
  destruct IH as [<- IH]. split; [by rewrite (Hk _ _ Hab)|].
  intros k x [Heq|Hin]%elem_of_cons; [|by apply IH]. subst b. pose proof (Hk _ _ Hab) as Ek. cbn in Ek. by subst k.
Qed.

Lemma find_value_inv p m k kv :
  find_value p m k = Ok kv -> kv.1 = k /\ exists c, m !! (ValuePrefix +:+ p +:+ PathSeparator +:+ k) = Some c /\
    c_item c = IValue kv.2.
Proof.
  unfold find_value. destruct (m !! _) as [c|]; [|done]. destruct (c_item c) as [|v|] eqn:Ec; try done.
  intros [= <-]. split; [done|]. by exists c.
Qed.

Lemma find_policy_inv p m k kp :
  find_policy p m k = Ok kp -> kp.1 = k /\ exists c, m !! (PolicyPrefix +:+ p +:+ PathSeparator +:+ k) = Some c /\
    c_item c = IPolicy kp.2.
Proof.
  unfold find_policy. destruct (m !! _) as [c|]; [|done]. destruct (c_item c) as [| |v] eqn:Ec; try done.
  intros [= <-]. split; [done|]. by exists c.
Qed.

Record assembled (m : cmap) (p : string) (g : ConfigGroup) (sub : string -> ConfigGroup -> Prop) : Prop := {
  as_group : exists c group, m !! (GroupPrefix +:+ p) = Some c /\ c_item c = IGroup group /\
    cg_Version group = cg_Version g /\ cg_ModPolicy group = cg_ModPolicy g /\
    forall k, group_keys group k = group_keys g k;
  as_groups k g' : (k, g') ∈ cg_Groups g -> sub (p +:+ PathSeparator +:+ k) g';
  as_values k v : (k, v) ∈ cg_Values g ->
    exists c, m !! (ValuePrefix +:+ p +:+ PathSeparator +:+ k) = Some c /\ c_item c = IValue v;
  as_policies k q : (k, q) ∈ cg_Policies g ->
    exists c, m !! (PolicyPrefix +:+ p +:+ PathSeparator +:+ k) = Some c /\ c_item c = IPolicy q
}.

Lemma recurse_inv fuel p m g :
  recurseConfigMap (S fuel) p m = Ok g ->
  assembled m p g (fun p' g' => recurseConfigMap fuel p' m = Ok g').
Proof.
  cbn [recurseConfigMap]. intros E. destruct (m !! (GroupPrefix +:+ p)) as [c|] eqn:Ec; [|done].
  destruct (c_item c) as [group| |] eqn:Ei; try done.
  apply res_bind_Ok in E as (gs & Eg & E). apply res_bind_Ok in E as (vs & Ev & E).
  apply res_bind_Ok in E as (ps & Ep & E). injection E as <-.
  apply all_ok_Forall2, Forall2_keys in Eg as [Kg Ig].
  2: { intros a b Eb. apply res_bind_Ok in Eb as (g' & _ & Eb). by injection Eb as <-. }
  apply all_ok_Forall2, Forall2_keys in Ev as [Kv Iv]; [|intros a b Eb; by apply find_value_inv in Eb as [? _]].
  apply all_ok_Forall2, Forall2_keys in Ep as [Kp Ip]; [|intros a b Eb; by apply find_policy_inv in Eb as [? _]].
  split; cbn [cg_Version cg_Groups cg_Values cg_Policies cg_ModPolicy].
  - exists c, group. split; [done|]. split; [done|]. split; [done|]. split; [done|]. by intros []; cbn.
  - intros k g' Hk. apply Ig in Hk. apply res_bind_Ok in Hk as (g2 & E2 & Hk). injection Hk as <-. done.
  - intros k v Hk. apply Iv, find_value_inv in Hk as [_ Hk]. done.
  - intros k q Hk. apply Ip, find_policy_inv in Hk as [_ Hk]. done.
Qed.

Lemma elements_depth path key g c : c ∈ elements path key g -> (length path <= length (c_path c))%nat.
Proof.
  revert path key. induction g as [g IH] using group_ind. intros path key Hc.
  apply elements_cases in Hc as [->|[(k & g' & Hg & Hc)|[(k & v & _ & ->)|(k & q & _ & ->)]]]; cbn.
  - done.
  - rewrite Forall_forall in IH. apply (IH _ Hg) in Hc. rewrite length_app in Hc. lia.
  - rewrite length_app. lia.
  - rewrite length_app. lia.
Qed.

Lemma elements_top path key g c :
  c ∈ elements path key g -> full_path c = path ++ [key] -> c = mkComparable (IGroup g) key path.
Proof.
  intros Hc Hp. unfold full_path in Hp. apply app_inj_tail in Hp as [Hp _].
  apply (f_equal length) in Hp.
  apply elements_cases in Hc as [->|[(k & g' & _ & Hc)|[(k & v & _ & ->)|(k & q & _ & ->)]]]; [done|exfalso..].
  - apply elements_depth in Hc. rewrite length_app in Hc. cbn in Hc. lia.
  - cbn in Hp. rewrite length_app in Hp. cbn in Hp. lia.
  - cbn in Hp. rewrite length_app in Hp. cbn in Hp. lia.
Qed.

(** Every element of an assembled configuration has the shape of an entry, and
    is the root or named by its parent. *)
Lemma assembled_elements fuel m path key g :
  recurseConfigMap fuel (pstr (path ++ [key])) m = Ok g ->
  forall c, c ∈ elements path key g ->
  (exists e, m !! fqPath c = Some e /\ same_shape e c) /\
  (full_path c = path ++ [key] \/ exists d, d ∈ elements path key g /\ child_of c d).
Proof.
  revert path key g. induction fuel as [|fuel IH]; intros path key g E c Hc; [done|].
  apply recurse_inv in E as [(c0 & group & Hm & Hi & Hv & Hmp & Hk) Ag Av Ap].
  apply elements_cases in Hc as [->|[(k' & g' & Hg & Hc)|[(k' & v & Hkv & ->)|(k' & q & Hkq & ->)]]].
  - split; [|by left]. exists c0. split; [by rewrite fqPath_pstr|]. unfold same_shape. cbn. by rewrite Hi.
  - pose proof (Ag _ _ Hg) as Es. rewrite <- pstr_snoc in Es. destruct (IH _ _ _ Es c Hc) as [He Hp].
    split; [done|]. right. destruct Hp as [Hp|(d & Hd & Hcd)].
    + apply (elements_top _ _ _ _ Hc) in Hp as ->. exists (mkComparable (IGroup g) key path).
      split; [apply elements_root|]. split; [done|]. exists g. split; [done|]. cbn. apply list_elem_of_fmap.
      by exists (k', g').
    + exists d. split; [by eapply elements_sub|done].
  - split.
    + destruct (Av _ _ Hkv) as (e & He & Hie). exists e. split; [|unfold same_shape; by rewrite Hie].
      rewrite fqPath_pstr. unfold full_path, prefix_of. cbn [c_item c_path c_key]. by rewrite pstr_snoc.
    + right. exists (mkComparable (IGroup g) key path). split; [apply elements_root|]. split; [done|].
      exists g. split; [done|]. cbn. apply list_elem_of_fmap. by exists (k', v).
  - split.
    + destruct (Ap _ _ Hkq) as (e & He & Hie). exists e. split; [|unfold same_shape; by rewrite Hie].
      rewrite fqPath_pstr. unfold full_path, prefix_of. cbn [c_item c_path c_key]. by rewrite pstr_snoc.
    + right. exists (mkComparable (IGroup g) key path). split; [apply elements_root|]. split; [done|].
      exists g. split; [done|]. cbn. apply list_elem_of_fmap. by exists (k', q).
Qed.

(** Its paths are clean. *)
Lemma assembled_clean fuel m path key g :
  map_ok m -> Forall clean (path ++ [key]) -> recurseConfigMap fuel (pstr (path ++ [key])) m = Ok g ->
  forall c, c ∈ elements path key g -> Forall clean (full_path c).
Proof.
  intros Hm. revert path key g. induction fuel as [|fuel IH]; intros path key g Hcl E c Hc; [done|].
  apply recurse_inv in E as [(c0 & group & Hc0 & Hi & _ & _ & Hk) Ag _ _].
  destruct (Hm _ _ Hc0) as [_ [_ Hkeys]].
  assert (forall k x, x ∈ group_keys g k -> Forall clean ((path ++ [key]) ++ [x])) as Hsub.
  { intros k x Hx. apply Forall_app. split; [done|]. constructor; [|constructor].
    apply valid_clean, (Hkeys group k); [done|]. by rewrite Hk. }
  apply elements_cases in Hc as [->|[(k' & g' & Hg & Hc)|[(k' & v & Hkv & ->)|(k' & q & Hkq & ->)]]].
  - done.
  - pose proof (Ag _ _ Hg) as Es. rewrite <- pstr_snoc in Es. apply (IH _ _ _) with (c := c) in Es; [done| |done].
    apply (Hsub KGroup). cbn. apply list_elem_of_fmap. by exists (k', g').
  - apply (Hsub KValue). cbn. apply list_elem_of_fmap. by exists (k', v).
  - apply (Hsub KPolicy). cbn. apply list_elem_of_fmap. by exists (k', q).
Qed.

(** *** The recursion ends *)

Definition path_len (s : string) : nat := length (to_bytes s).

Definition longer (n : nat) (m : cmap) : cmap := filter (fun kc => (n <= path_len kc.1)%nat) m.

Lemma longer_size n n' m k c :
  m !! k = Some c -> path_len k = n -> (n < n')%nat -> (size (longer n' m) < size (longer n m))%nat.
Proof.
  intros Hk Hn Hlt. assert (longer n' m ⊆ delete k (longer n m)) as Hsub.
  { apply map_subseteq_spec. intros i x Hi. apply map_lookup_filter_Some in Hi as [Hi Hl]. cbn in Hl.
    apply lookup_delete_Some. split; [intros <-; unfold path_len in *; lia|]. apply map_lookup_filter_Some. split; [done|cbn [fst]; unfold path_len in *; lia]. }
  apply map_subseteq_size in Hsub. rewrite map_size_delete in Hsub.
  assert (longer n m !! k = Some c) as Hl by (apply map_lookup_filter_Some; split; [done|cbn [fst]; lia]).
  rewrite Hl in Hsub. assert (size (longer n m) <> 0)%nat; [|lia].
  intros E%map_size_empty_inv. rewrite E in Hl. by rewrite lookup_empty in Hl.
Qed.

Lemma all_ok_fuel {A B} (f : A -> res B) l : (forall a, f a <> OutOfFuel) -> all_ok f l <> OutOfFuel.
Proof.
  intros Hf. induction l as [|a l IH]; cbn; [done|]. specialize (Hf a). destruct (f a); cbn; try done.
  destruct (all_ok f l); cbn; done.
Qed.

Lemma find_value_fuel p m k : find_value p m k <> OutOfFuel.
Proof. unfold find_value. cbv zeta. by destruct (m !! _) as [[[] ? ?]|]. Qed.

Lemma find_policy_fuel p m k : find_policy p m k <> OutOfFuel.
Proof. unfold find_policy. cbv zeta. by destruct (m !! _) as [[[] ? ?]|]. Qed.

Lemma recurse_fuel fuel p m :
  (size (longer (path_len (GroupPrefix +:+ p)) m) < fuel)%nat -> recurseConfigMap fuel p m <> OutOfFuel.
Proof.
  revert p. induction fuel as [|fuel IH]; intros p Hs; [lia|]. cbn [recurseConfigMap].
  destruct (m !! (GroupPrefix +:+ p)) as [c|] eqn:Ec; [|done].
  destruct (c_item c) as [group| |]; [|done..].
  assert (forall k, recurseConfigMap fuel (p +:+ PathSeparator +:+ k) m <> OutOfFuel) as Hsub.
  { intros k. apply IH.
    pose proof (longer_size _ (path_len (GroupPrefix +:+ p +:+ PathSeparator +:+ k)) _ _ _ Ec eq_refl) as Hl.
    enough (path_len (GroupPrefix +:+ p) < path_len (GroupPrefix +:+ p +:+ PathSeparator +:+ k))%nat as Hlt
      by (apply Hl in Hlt; lia).
    unfold path_len. rewrite !to_bytes_app, !length_app. cbn. lia. }
  pose proof (all_ok_fuel (fun key => g ← recurseConfigMap fuel (p +:+ PathSeparator +:+ key) m; Ok (key, g))
    (cg_Groups group).*1) as Hg.
  destruct (all_ok _ (cg_Groups group).*1); cbn; try done.
  2: { intros _. apply Hg; [|done]. intros k. specialize (Hsub k). by destruct (recurseConfigMap fuel _ m). }
  pose proof (all_ok_fuel (find_value p m) (cg_Values group).*1) as Hv.
  destruct (all_ok _ (cg_Values group).*1); cbn; try done.
  2: { intros _. apply Hv; [|done]. intros k. apply find_value_fuel. }
  pose proof (all_ok_fuel (find_policy p m) (cg_Policies group).*1) as Hp.
  destruct (all_ok _ (cg_Policies group).*1); cbn; try done.
  intros _. apply Hp; [|done]. intros k. apply find_policy_fuel.
Qed.

Lemma config_returns m : configMapToConfig m <> OutOfFuel.
Proof.
  apply recurse_fuel. apply Nat.lt_succ_r, map_subseteq_size, map_filter_subseteq.
Qed.

(** *** What an authorized update may change *)

Section Authorized.
Context `{ProtoCodec} `{SignatureCodec} `{MSP} `{PolicyCodec} `{ConfigCodec}.

Lemma foldM_unit_ok {A} (f : A -> res unit) (l : list A) :
  foldM (fun _ a => f a) tt l = Ok tt <-> forall a, a ∈ l -> f a = Ok tt.
Proof.
  induction l as [|a l IH]; cbn; [split; [set_solver|done]|]. split.
  - intros E. apply res_bind_Ok in E as ([] & Ea & E). rewrite IH in E.
    intros b [->|Hb]%elem_of_cons; auto.
  - intros Hall. rewrite (Hall a) by left. cbn. apply IH. intros b Hb. apply Hall. by right.
Qed.

Lemma wrap_err_Ok {A} what (r : res A) a : wrap_err what r = Ok a <-> r = Ok a.
Proof. by destruct r. Qed.

Context (cm : configManager) (env : ConfigUpdateEnvelope) (full : cmap).

(** The element's policy is satisfied by the signatures of the update. *)
Definition signed_off (e : comparable) : Prop :=
  exists policy sds, policyForItem cm e = Ok (policy, true) /\ config_AsSignedData env = Ok sds /\
    Evaluate policy sds = Ok tt.

Definition cur : cmap := cs_configMap (cm_current cm).

(** How an entry of the new configuration relates to the current one. *)
Inductive justified (k : string) (e : comparable) : Prop :=
| j_kept : cur !! k = Some e -> justified k e
| j_changed old : cur !! k = Some old -> version e = wrap64 (version old + 1) -> signed_off old -> justified k e
| j_new : cur !! k = None -> version e = 0 -> justified k e.

Lemma authorize_inv :
  authorizeUpdate cm env = Ok full ->
  exists cu readSet writeSet sds, unmarshal_ConfigUpdate (cue_ConfigUpdate env) = Ok cu /\
    cu_ChannelId cu = cs_channelID (cm_current cm) /\
    MapConfig (cu_ReadSet cu) = Ok readSet /\ verifyReadSet (cm_current cm) readSet = Ok tt /\
    MapConfig (cu_WriteSet cu) = Ok writeSet /\ config_AsSignedData env = Ok sds /\
    verifyDeltaSet cm (ComputeDeltaSet readSet writeSet) sds = Ok tt /\
    full = computeUpdateResult cm (ComputeDeltaSet readSet writeSet).
Proof.
  unfold authorizeUpdate. intros E. apply res_bind_Ok in E as (cu & Ecu & E).
  destruct (bool_decide (cu_ChannelId cu = _)) eqn:Eid; [|done]. apply bool_decide_eq_true in Eid. cbn [negb] in E.
  apply res_bind_Ok in E as (readSet & Er%wrap_err_Ok & E).
  apply res_bind_Ok in E as ([] & Ev%wrap_err_Ok & E).
  apply res_bind_Ok in E as (writeSet & Ew%wrap_err_Ok & E).
  apply res_bind_Ok in E as (sds & Es & E).
  apply res_bind_Ok in E as ([] & Ed%wrap_err_Ok & E).
  apply res_bind_Ok in E as ([] & Ef%wrap_err_Ok & E). injection E as <-.
  by exists cu, readSet, writeSet, sds.
Qed.

Lemma delta_subset (readSet writeSet : cmap) k e :
  ComputeDeltaSet readSet writeSet !! k = Some e -> writeSet !! k = Some e.
Proof.
  unfold ComputeDeltaSet. rewrite map_lookup_imap. destruct (writeSet !! k) as [v|]; [|done]. cbn.
  destruct (readSet !! k); [|done]. by destruct (_ =? _).
Qed.

(** An entry of the result that is not the current one was justified. *)
Lemma authorized_entry k e :
  authorizeUpdate cm env = Ok full -> full !! k = Some e -> justified k e.
Proof.
  intros (cu & rs & ws & sds & _ & _ & _ & _ & _ & Es & Ed & ->)%authorize_inv Hk.
  unfold computeUpdateResult in Hk. apply lookup_union_Some_raw in Hk as [Hk|[_ Hk]]; [|by apply j_kept].
  unfold verifyDeltaSet in Ed. destruct (_ =? 0)%nat; [done|]. rewrite foldM_unit_ok in Ed.
  specialize (Ed (k, e)). rewrite elem_of_map_to_list in Ed. specialize (Ed Hk). unfold verify_delta in Ed.
  destruct (validateModPolicy (modPolicy e)) as [[]| | |]; try done.
  destruct (cs_configMap (cm_current cm) !! k) as [old|] eqn:Ec.
  - destruct (version e =? _) eqn:Ev; [|done]. apply Z.eqb_eq in Ev. cbn [negb] in Ed.
    apply res_bind_Ok in Ed as ([policy ok] & Ep & Ed). destruct ok; [|done]. cbn [negb] in Ed.
    eapply j_changed; [exact Ec|done|]. exists policy, sds. split; [done|]. split; [done|].
    by destruct (Evaluate policy sds) as [[]| | |].
  - destruct (version e =? 0) eqn:Ev; [|done]. apply Z.eqb_eq in Ev. by apply j_new.
Qed.

Lemma root_clean : Forall clean ([] ++ [RootGroupKey]).
Proof. constructor; [by apply valid_clean|constructor]. Qed.

(** The element is as it was. *)
Definition unchanged (c : comparable) : Prop := exists e, cur !! fqPath c = Some e /\ same_shape e c.

Lemma authorized_map_ok g0 :
  MapConfig (Some g0) = Ok cur -> authorizeUpdate cm env = Ok full -> map_ok full.
Proof.
  intros Hg0 (cu & rs & ws & sds & _ & _ & _ & _ & Ew & _ & _ & ->)%authorize_inv k c Hk.
  unfold computeUpdateResult in Hk. apply lookup_union_Some_raw in Hk as [Hk|[_ Hk]].
  - apply delta_subset in Hk. by apply (MapConfig_ok _ _ Ew).
  - by apply (MapConfig_ok _ _ Hg0).
Qed.

Lemma fqPath_eq c d : kind_of c = kind_of d -> full_path c = full_path d -> fqPath c = fqPath d.
Proof.
  intros Hk Hp. rewrite !fqPath_pstr, Hp. f_equal. unfold kind_of, prefix_of in *. by destruct (c_item c), (c_item d).
Qed.

(** A child that an unchanged group names was there before. *)
Lemma unchanged_parent g0 c d :
  MapConfig (Some g0) = Ok cur -> Forall clean (full_path d) -> child_of c d -> unchanged d ->
  is_Some (cur !! fqPath c).
Proof.
  intros Hg0 Hcl [Hp (gd & Hd & Hx)] (e & He & Hs). destruct (MapConfig_spec _ _ Hg0) as (_ & L & S).
  destruct (MapConfig_ok _ _ Hg0 _ _ He) as [Ek [Hce _]]. destruct (L _ _ He) as [Hin _].
  destruct (fqPath_inj e d Hce Hcl (eq_sym Ek)) as [_ Hfp]. unfold same_shape in Hs. rewrite Hd in Hs.
  destruct (c_item e) as [ge| |] eqn:Ee; [|done..]. destruct Hs as (_ & _ & Hkeys). rewrite <- Hkeys in Hx.
  destruct (elements_child _ _ _ _ _ _ _ Hin Ee Hx) as (c0 & Hc0 & Hk0 & Hp0 & Hkey0).
  destruct (S c0 Hc0) as (c' & _ & Hc' & _). rewrite (fqPath_eq c c0); [by eexists|done|].
  unfold full_path. by rewrite Hkey0, Hp0, Hp, Hfp.
Qed.

Lemma authorized_elements g0 g' :
  MapConfig (Some g0) = Ok cur -> authorizeUpdate cm env = Ok full -> configMapToConfig full = Ok g' ->
  forall c, c ∈ elements [] RootGroupKey g' ->
  unchanged c \/
  (exists old, cur !! fqPath c = Some old /\ version c = wrap64 (version old + 1) /\ signed_off old) \/
  (cur !! fqPath c = None /\ version c = 0 /\
     exists d, d ∈ elements [] RootGroupKey g' /\ child_of c d /\ ~ unchanged d).
Proof.
  intros Hg0 Ha Hg' c Hc. unfold configMapToConfig in Hg'.
  change (PathSeparator +:+ RootGroupKey) with (pstr ([] ++ [RootGroupKey])) in Hg'.
  destruct (assembled_elements _ _ _ _ _ Hg' c Hc) as [(e & He & Hs) Hp].
  pose proof (same_shape_fields _ _ Hs) as (Hv & _ & Hk).
  destruct (authorized_entry _ _ Ha He) as [Hcur|old Hcur Hver Hso|Hcur Hver].
  - left. by exists e.
  - right. left. exists old. split; [done|]. split; [congruence|done].
  - right. right. split; [done|]. split; [congruence|].
    pose proof (assembled_clean _ _ _ _ _ (authorized_map_ok g0 Hg0 Ha) root_clean Hg') as Hcl.
    destruct Hp as [Hp|(d & Hd & Hcd)].
    + apply (elements_top _ _ _ _ Hc) in Hp as ->. exfalso. destruct (MapConfig_spec _ _ Hg0) as (_ & _ & S).
      destruct (S _ (elements_root [] RootGroupKey g0)) as (c' & _ & Hc' & _).
      rewrite (fqPath_eq (mkComparable (IGroup g') RootGroupKey []) (mkComparable (IGroup g0) RootGroupKey [])) in Hcur
        by done. congruence.
    + exists d. split; [done|]. split; [done|]. intros Hu.
      destruct (unchanged_parent g0 c d Hg0 (Hcl d Hd) Hcd Hu) as [x Hx]. congruence.
Qed.

End Authorized.

(** *** Groups with unique keys *)

Inductive unique : ConfigGroup -> Prop :=
| unique_intro g : (forall k, NoDup (group_keys g k)) -> Forall (fun kg => unique kg.2) (cg_Groups g) -> unique g.

Definition unique_opt (g : option ConfigGroup) : Prop := match g with Some g => unique g | None => True end.

Definition unique_map (m : cmap) : Prop := forall k c g, m !! k = Some c -> c_item c = IGroup g -> unique g.

Lemma unique_elements path key g c gd : unique g -> c ∈ elements path key g -> c_item c = IGroup gd -> unique gd.
Proof.
  revert path key. induction g as [g IH] using group_ind. intros path key Hu Hc Hi. pose proof Hu as Hu'.
  destruct Hu' as [g _ Hs]. rewrite Forall_forall in IH, Hs.
  apply elements_cases in Hc as [->|[(k & g' & Hg & Hc)|[(k & v & _ & ->)|(k & q & _ & ->)]]]; try done.
  - by injection Hi as <-.
  - by apply (IH (k, g') Hg _ _ (Hs (k, g') Hg) Hc).
Qed.

Lemma MapConfig_unique g m : unique_opt g -> MapConfig g = Ok m -> unique_map m.
Proof.
  intros Hu (_ & L & _)%MapConfig_spec k c gd Hk Hi. destruct (L _ _ Hk) as [Hc _].
  destruct g as [g|]; cbn in *; [|by apply elem_of_nil in Hc]. by eapply unique_elements.
Qed.

Lemma assembled_unique fuel p m g : unique_map m -> recurseConfigMap fuel p m = Ok g -> unique g.
Proof.
  intros Hm. revert p g. induction fuel as [|fuel IH]; intros p g E; [done|].
  apply recurse_inv in E as [(c & group & Hc & Hi & _ & _ & Hk) Ag _ _]. constructor.
  - intros k. rewrite <- Hk. pose proof (Hm _ _ _ Hc Hi) as Hu. by destruct Hu.
  - apply Forall_forall. intros [k g'] Hg. by apply (IH _ _ (Ag _ _ Hg)).
Qed.

(** *** Valid keys *)

Lemma fold_add_valid result l : is_ok (foldM add result l) <-> Forall valid_key l.
Proof.
  revert result. induction l as [|c l IH]; intros result; cbn [foldM]; [by split|].
  rewrite Forall_cons. destruct (add result c) as [r| | |] eqn:E; cbn.
  - apply add_spec in E as [Hv _]. rewrite IH. naive_solver.
  - split; [done|]. intros [Hv _]. rewrite (proj2 (add_spec _ _ _) (conj Hv eq_refl)) in E. done.
  - split; [done|]. intros [Hv _]. rewrite (proj2 (add_spec _ _ _) (conj Hv eq_refl)) in E. done.
  - split; [done|]. intros [Hv _]. rewrite (proj2 (add_spec _ _ _) (conj Hv eq_refl)) in E. done.
Qed.

Lemma MapConfig_valid g : is_ok (MapConfig g) <-> Forall valid_key (config_elements g).
Proof.
  destruct g as [g|]; cbn [MapConfig config_elements]; [|by split].
  rewrite recurse_foldM. apply fold_add_valid.
Qed.

(** The keys below a group. *)
Inductive valid_group : ConfigGroup -> Prop :=
| valid_group_intro g : (forall k x, x ∈ group_keys g k -> validateConfigID x = Ok tt) ->
    Forall (fun kg => valid_group kg.2) (cg_Groups g) -> valid_group g.

Lemma elements_valid path key g :
  validateConfigID key = Ok tt -> valid_group g -> Forall valid_key (elements path key g).
Proof.
  intros Hkey Hg. apply Forall_forall. intros c Hc. revert path key Hkey Hg Hc.
  induction g as [g IH] using group_ind. intros path key Hkey Hg Hc. rewrite Forall_forall in IH.
  destruct Hg as [g Hk Hs]. rewrite Forall_forall in Hs. unfold valid_key.
  apply elements_cases in Hc as [->|[(k & g' & Hg & Hc)|[(k & v & Hv & ->)|(k & q & Hq & ->)]]].
  - done.
  - apply (IH (k, g') Hg _ _ (Hk KGroup k (list_elem_of_fmap_2' fst _ (k, g') _ Hg eq_refl)) (Hs _ Hg) Hc).
  - apply (Hk KValue). by apply (list_elem_of_fmap_2' fst _ (k, v)).
  - apply (Hk KPolicy). by apply (list_elem_of_fmap_2' fst _ (k, q)).
Qed.

Lemma assembled_valid fuel p m g : map_ok m -> recurseConfigMap fuel p m = Ok g -> valid_group g.
Proof.
  intros Hm. revert p g. induction fuel as [|fuel IH]; intros p g E; [done|].
  apply recurse_inv in E as [(c & group & Hc & Hi & _ & _ & Hk) Ag _ _]. constructor.
  - intros k x Hx. rewrite <- Hk in Hx. destruct (Hm _ _ Hc) as [_ [_ Hv]]. by apply (Hv group k).
  - apply Forall_forall. intros [k g'] Hg. by apply (IH _ _ (Ag _ _ Hg)).
Qed.

(** *** [proto.Equal] *)

Lemma assoc_elem {A} key (a : A) l : NoDup l.*1 -> (key, a) ∈ l -> assoc key l = Some a.
Proof.
  induction l as [|[k b] l IH]; intros Hn Hin; [set_solver|]. cbn in *. apply NoDup_cons in Hn as [Hk Hn].
  apply elem_of_cons in Hin as [[= <- <-]|Hin]; [by rewrite decide_True|].
  rewrite decide_False; [by apply IH|]. intros ->. apply Hk. by apply (list_elem_of_fmap_2' fst _ (key, a)).
Qed.

Lemma assoc_in {A} key (a : A) l : assoc key l = Some a -> (key, a) ∈ l.
Proof.
  induction l as [|[k b] l IH]; [done|]. cbn. case_decide as Hk; [|intros Ha; right; by apply IH].
  subst k. intros [= ->]. by left.
Qed.

Lemma maps_equal_refl {A} (eq : A -> A -> bool) l :
  (forall a, eq a a = true) -> NoDup l.*1 -> maps_equal eq l l = true.
Proof.
  intros He Hn. unfold maps_equal. rewrite Nat.eqb_refl. cbn. apply forallb_forall. intros [k a] Hin%list_elem_of_In.
  by rewrite (assoc_elem _ _ _ Hn Hin).
Qed.

(** The keys of equal maps. *)
Lemma keys_covered {A} (P : A -> A -> Prop) (l k : list (string * A)) :
  NoDup l.*1 -> length l = length k ->
  (forall key a, (key, a) ∈ l -> exists b, assoc key k = Some b /\ P a b) -> NoDup k.*1 ->
  forall key b, (key, b) ∈ k -> exists a, (key, a) ∈ l /\ P a b.
Proof.
  intros Hl Hlen Hsub Hk key b Hin.
  assert (l.*1 ≡ₚ k.*1) as Hp.
  { apply submseteq_length_Permutation; [|by rewrite !length_fmap, Hlen]. apply NoDup_submseteq; [done|].
    intros x ([y a] & -> & Hy)%list_elem_of_fmap. destruct (Hsub _ _ Hy) as (b' & Hb%assoc_in & _).
    by apply (list_elem_of_fmap_2' fst _ (y, b')). }
  assert (key ∈ l.*1) as ([y a] & -> & Ha)%list_elem_of_fmap.
  { rewrite Hp. by apply (list_elem_of_fmap_2' fst _ (key, b)). }
  exists a. split; [done|]. destruct (Hsub _ _ Ha) as (b' & Hb & HP). cbn in Hin.
  rewrite (assoc_elem _ _ _ Hk Hin) in Hb. by injection Hb as <-.
Qed.

Lemma maps_equal_keys {A} (eq : A -> A -> bool) l k x :
  NoDup l.*1 -> NoDup k.*1 -> maps_equal eq l k = true -> x ∈ k.*1 -> x ∈ l.*1.
Proof.
  intros Hl Hk [Hlen Hall]%andb_true_iff ([y b] & -> & Hy)%list_elem_of_fmap. apply Nat.eqb_eq in Hlen.
  rewrite forallb_forall in Hall.
  destruct (keys_covered (fun _ _ => True) l k Hl Hlen) with (key := y) (b := b) as (a & Ha & _); [|done|done|].
  - intros key a Ha%list_elem_of_In. specialize (Hall _ Ha). cbn in Hall. destruct (assoc key k); [by eexists|done].
  - by apply (list_elem_of_fmap_2' fst _ (y, a)).
Qed.

Lemma group_equal_eq g h :
  group_equal g h = true <->
  cg_Version g = cg_Version h /\ cg_ModPolicy g = cg_ModPolicy h /\ length (cg_Groups g) = length (cg_Groups h) /\
  (forall key g', (key, g') ∈ cg_Groups g -> exists h', assoc key (cg_Groups h) = Some h' /\ group_equal g' h' = true) /\
  maps_equal value_equal (cg_Values g) (cg_Values h) = true /\
  maps_equal policy_equal (cg_Policies g) (cg_Policies h) = true.
Proof.
  destruct g as [ver gs vs ps mp]. cbn [group_equal cg_Version cg_Groups cg_Values cg_Policies cg_ModPolicy].
  rewrite !andb_true_iff, Z.eqb_eq, bool_decide_eq_true, Nat.eqb_eq.
  match goal with |- context [?f gs = true] => set (all := f) end.
  assert (all gs = true <-> forall key g', (key, g') ∈ gs ->
    exists h', assoc key (cg_Groups h) = Some h' /\ group_equal g' h' = true) as ->; [|tauto].
  subst all. induction gs as [|[k g'] gs IH]; [split; [set_solver|done]|]. rewrite andb_true_iff, IH. split.
  - intros [Hk Hs] key g'' [[= -> ->]|Hin]%elem_of_cons; [|by apply Hs].
    destruct (assoc k (cg_Groups h)) as [h'|]; [by exists h'|done].
  - intros Hall. split; [|intros key g'' Hin; apply Hall; by right].
    destruct (Hall k g') as (h' & -> & He); [by left|done].
Qed.

Lemma group_equal_refl g : unique g -> group_equal g g = true.
Proof.
  induction g as [g IH] using group_ind. intros Hu. destruct Hu as [g Hn Hs]. rewrite Forall_forall in IH, Hs.
  apply group_equal_eq. do 3 (split; [done|]). split; [|split].
  - intros key g' Hg. exists g'. split; [by apply (assoc_elem _ _ _ (Hn KGroup))|]. by apply (IH (key, g') Hg), (Hs (key, g')).
  - apply maps_equal_refl; [|apply (Hn KValue)]. intros v. unfold value_equal.
    by rewrite Z.eqb_refl, !bool_decide_eq_true_2.
  - apply maps_equal_refl; [|apply (Hn KPolicy)]. intros q. unfold policy_equal, cbpolicy_equal.
    rewrite Z.eqb_refl, (bool_decide_eq_true_2 (cp_ModPolicy q = _)) by done.
    destruct (cp_Policy q); [|done]. by rewrite Z.eqb_refl, bool_decide_eq_true_2.
Qed.

(** [equals] looks at one level: the fields of a value or a policy, and for a
    group its version, policy and the sets of its keys. *)
Definition same_level (c d : comparable) : Prop :=
  match c_item c, c_item d with
  | IGroup g, IGroup h => cg_Version g = cg_Version h /\ cg_ModPolicy g = cg_ModPolicy h /\
                          forall k, group_keys g k ≡ₚ group_keys h k
  | IValue v, IValue w => v = w
  | IPolicy p, IPolicy q => p = q
  | _, _ => False
  end.

Lemma assoc_is_some {A} key (l : list (string * A)) : (match assoc key l with Some _ => true | None => false end) = true <-> key ∈ l.*1.
Proof.
  induction l as [|[k a] l IH]; cbn; [split; [done|set_solver]|]. rewrite elem_of_cons.
  case_decide as Hk; [subst; split; [by left|done]|]. rewrite IH. naive_solver.
Qed.

Lemma subset_keys {A} (l k : list (string * A)) :
  NoDup l.*1 -> NoDup k.*1 -> subsetOf l k && subsetOf k l = true <-> l.*1 ≡ₚ k.*1.
Proof.
  intros Hl Hk. assert (forall l k : list (string * A), NoDup l.*1 -> subsetOf l k = true <-> l.*1 ⊆ k.*1) as Hsub.
  { clear. intros l k Hl. unfold subsetOf. destruct l as [|x l0] eqn:El; [split; [set_solver|done]|]. rewrite <- El in *.
    replace (length l =? 0)%nat with false by (by subst l). clear El.
    assert (forallb (fun '(key, _) => match assoc key k with Some _ => true | None => false end) l = true <-> l.*1 ⊆ k.*1) as Hf.
    { rewrite forallb_forall. split.
      - intros Hf y ([y' b] & -> & Hy)%list_elem_of_fmap. apply list_elem_of_In, Hf in Hy. by apply assoc_is_some.
      - intros Hs [y b] Hy%list_elem_of_In. apply assoc_is_some, Hs. by apply (list_elem_of_fmap_2' fst _ (y, b)). }
    destruct (_ <? _)%nat eqn:Elt; [|done]. apply Nat.ltb_lt in Elt. split; [done|]. intros Hs.
    assert (l.*1 ⊆+ k.*1) as Hm%submseteq_length by (by apply NoDup_submseteq). rewrite !length_fmap in Hm. lia. }
  rewrite andb_true_iff, (Hsub l k Hl), (Hsub k l Hk). split.
  - intros [H1 H2]. apply NoDup_Permutation; [done..|]. intros x. split; [apply H1|apply H2].
  - intros Hp. split; intros x; by rewrite Hp.
Qed.

Lemma equals_spec c d :
  (forall g, c_item c = IGroup g -> unique g) -> (forall g, c_item d = IGroup g -> unique g) ->
  equals c d = true <-> same_level c d.
Proof.
  intros Hc Hd. unfold equals, same_level. destruct (c_item c) as [g|v|p], (c_item d) as [h|w|q]; try done.
  - destruct (Hc g eq_refl) as [g' Hg _], (Hd h eq_refl) as [h' Hh _]. clear Hc Hd. rename g' into g, h' into h.
    pose proof (subset_keys _ _ (Hg KGroup) (Hh KGroup)) as H1. pose proof (subset_keys _ _ (Hg KValue) (Hh KValue)) as H2.
    pose proof (subset_keys _ _ (Hg KPolicy) (Hh KPolicy)) as H3.
    transitivity (cg_Version g = cg_Version h /\ cg_ModPolicy g = cg_ModPolicy h /\
      (cg_Groups g).*1 ≡ₚ (cg_Groups h).*1 /\ (cg_Values g).*1 ≡ₚ (cg_Values h).*1 /\
      (cg_Policies g).*1 ≡ₚ (cg_Policies h).*1).
    + rewrite <- H1, <- H2, <- H3, <- Z.eqb_eq, <- (bool_decide_eq_true (cg_ModPolicy g = _)). unfold equalConfigGroup.
      destruct (_ =? _), (bool_decide _), (subsetOf (cg_Groups g) _), (subsetOf (cg_Groups h) _), (subsetOf (cg_Values g) _),
        (subsetOf (cg_Values h) _), (subsetOf (cg_Policies g) _), (subsetOf (cg_Policies h) _); cbn; naive_solver.
    + split; [|intros (-> & -> & Hk); split_and!; [done..|apply (Hk KGroup)|apply (Hk KValue)|apply (Hk KPolicy)]].
      intros (-> & -> & ? & ? & ?). split_and!; [done..|]. by intros [].
  - unfold equalConfigValues. rewrite !andb_true_iff, Z.eqb_eq, !bool_decide_eq_true. destruct v, w. cbn. naive_solver.
  - unfold equalConfigPolicies. destruct p as [v1 p1 m1], q as [v2 p2 m2]. cbn.
    destruct (v1 =? v2) eqn:E1; cbn; [apply Z.eqb_eq in E1|apply Z.eqb_neq in E1; naive_solver].
    destruct (bool_decide (m1 = m2)) eqn:E2; cbn; [apply bool_decide_eq_true in E2|apply bool_decide_eq_false in E2; naive_solver].
    subst. destruct p1 as [[t1 b1]|], p2 as [[t2 b2]|]; cbn; [|naive_solver..].
    rewrite andb_true_iff, Z.eqb_eq, bool_decide_eq_true. naive_solver.
Qed.

Lemma group_equal_valid g h : unique g -> unique h -> group_equal g h = true -> valid_group g -> valid_group h.
Proof.
  revert h. induction g as [g IH] using group_ind. intros h Hg Hh He Hv. rewrite Forall_forall in IH.
  destruct Hg as [g Hng Hsg], Hh as [h Hnh Hsh], Hv as [g Hk Hvs]. rewrite Forall_forall in Hsg, Hsh, Hvs.
  apply group_equal_eq in He as (_ & _ & Hlen & Hgs & Hvals & Hpols).
  pose proof (keys_covered _ _ _ (Hng KGroup) Hlen Hgs (Hnh KGroup)) as Hcov. constructor.
  - intros k x Hx. apply (Hk k). destruct k; cbn [group_keys] in *.
    + apply list_elem_of_fmap in Hx as ([y b] & -> & Hy). destruct (Hcov _ _ Hy) as (a & Ha & _).
      by apply (list_elem_of_fmap_2' fst _ (y, a)).
    + by apply (maps_equal_keys _ _ _ _ (Hng KValue) (Hnh KValue) Hvals).
    + by apply (maps_equal_keys _ _ _ _ (Hng KPolicy) (Hnh KPolicy) Hpols).
  - apply Forall_forall. intros [y h'] Hy. destruct (Hcov _ _ Hy) as (g' & Hg' & He').
    by apply (IH _ Hg' h' (Hsg _ Hg') (Hsh _ Hy) He' (Hvs _ Hg')).
Qed.

End ConfigFacts.

(** ** Proposals of a configuration *)

Module ConfigProposals.
Import ConfigPaths ConfigManager ConfigFacts.

Section Proposals.
Context `{ProtoCodec} `{SignatureCodec} `{MSP} `{PolicyCodec} `{ConfigCodec}.
Context (BeginValueProposals : list string -> list string -> res unit).
Context (Deserialize : list string -> string -> bytes -> res unit).
Context (PreCommit : ConfigGroup -> res unit).

Local Abbreviation proposeGroup := (proposeGroup BeginValueProposals Deserialize).

(** A manager with a proposal for every group below. *)
Inductive proposed : ConfigGroup -> ManagerImpl -> Prop :=
| proposed_intro g pm c :
    pendingConfig pm = Some c -> NoDup (cg_Groups g).*1 ->
    (forall k g', (k, g') ∈ cg_Groups g -> exists m, find_manager (managers c) k = Some m /\ proposed g' m) ->
    proposed g pm.

Lemma find_set_manager ms key m k :
  find_manager (set_manager ms key m) k =
    if decide (k = key) then (if find_manager ms key is Some _ then Some m else None) else find_manager ms k.
Proof.
  induction ms as [|[k' m'] ms IH]; cbn; [by case_decide|].
  destruct (decide (k' = key)) as [->|Hne]; cbn; [by repeat case_decide|].
  destruct (decide (k = key)) as [->|Hk]; [by rewrite decide_False, IH|]. by case_decide.
Qed.

(** The managers differ in their pending configurations only. *)
Definition same_config (pm pm' : ManagerImpl) : Prop := basePath pm' = basePath pm /\ config pm' = config pm.

Lemma rollback_same pm pm' :
  same_config pm pm' -> pendingConfig pm = None -> RollbackProposals pm' = pm.
Proof. destruct pm, pm'. unfold RollbackProposals, set_pending, same_config. cbn. by intros [-> ->] ->. Qed.

Lemma propose_policies_inv ps pm pm' :
  propose_policies ps pm = Ok pm' ->
  same_config pm pm' /\
  forall c, pendingConfig pm = Some c -> exists c', pendingConfig pm' = Some c' /\ managers c' = managers c.
Proof.
  revert pm. induction ps as [|[k q] ps IH]; intros pm E; cbn in E.
  { injection E as <-. split; [done|]. intros c Hc. by exists c. }
  apply res_bind_Ok in E as (pm1 & E1 & E). destruct (IH _ E) as [[Hb Hc] Hp]. unfold ProposePolicy in E1.
  destruct (pendingConfig pm) as [c|] eqn:Ec; [|done]. destruct (cp_Policy q) as [pol|]; [|done].
  destruct (_ =? Policy_IMPLICIT_META).
  - apply res_bind_Ok in E1 as (imp & _ & E1). injection E1 as <-. split; [done|].
    intros c0 [= <-]. by apply (Hp _ eq_refl).
  - destruct (_ =? Policy_SIGNATURE); [|done]. apply res_bind_Ok in E1 as (e & _ & E1). injection E1 as <-.
    split; [done|]. intros c0 [= <-]. by apply (Hp _ eq_refl).
Qed.

Lemma with_sub_inv pm key f pm' :
  with_sub pm key f = Ok pm' ->
  exists c m m', pendingConfig pm = Some c /\ find_manager (managers c) key = Some m /\ f m = Ok m' /\
    pm' = set_pending pm (Some (mkPolicyConfig (policies c) (set_manager (managers c) key m') (imps c))).
Proof.
  unfold with_sub. destruct (pendingConfig pm) as [c|]; [|done].
  destruct (find_manager (managers c) key) as [m|] eqn:Em; [|done]. intros E.
  apply res_bind_Ok in E as (m' & Em' & E). injection E as <-. by exists c, m, m'.
Qed.

(** The loop over the sub-groups of [proposeGroup]. *)
Definition propose_subs (path : list string) : list (string * ConfigGroup) -> ManagerImpl -> res ManagerImpl :=
  fix subs gs pm :=
    match gs with
    | [] => Ok pm
    | (key, g) :: gs => pm ← with_sub pm key (proposeGroup (path ++ [key]) g); subs gs pm
    end.

Lemma proposeGroup_inv path g pm pm' :
  proposeGroup path g pm = Ok pm' ->
  pendingConfig pm = None /\
  exists pm1, same_config pm pm1 /\ is_Some (pendingConfig pm1) /\ propose_subs path (cg_Groups g) pm1 = Ok pm'.
Proof.
  destruct g as [ver gs vs ps mp]. intros E. cbn [ConfigManager.proposeGroup cg_Groups cg_Values cg_Policies] in E.
  apply res_bind_Ok in E as (_ & _ & E). apply res_bind_Ok in E as (pm0 & E0 & E).
  apply res_bind_Ok in E as (_ & _ & E). apply res_bind_Ok in E as (pm1 & E1 & E).
  unfold BeginPolicyProposals in E0. destruct (pendingConfig pm); [done|]. split; [done|]. injection E0 as <-.
  destruct (propose_policies_inv _ _ _ E1) as [Hs Hc]. destruct (Hc _ eq_refl) as (c' & Hc' & _).
  exists pm1. split; [done|]. split; [by eexists|done].
Qed.

Lemma propose_subs_ok path gs pm pm' (past : list (string * ConfigGroup)) :
  Forall (fun kg => forall path m m', proposeGroup path kg.2 m = Ok m' -> proposed kg.2 m') gs ->
  (exists c, pendingConfig pm = Some c /\ NoDup past.*1 /\
     forall k g, (k, g) ∈ past -> exists m, find_manager (managers c) k = Some m /\ proposed g m) ->
  propose_subs path gs pm = Ok pm' ->
  same_config pm pm' /\
  exists c, pendingConfig pm' = Some c /\ NoDup (past ++ gs).*1 /\
    forall k g, (k, g) ∈ past ++ gs -> exists m, find_manager (managers c) k = Some m /\ proposed g m.
Proof.
  intros Hgs. revert past pm. induction Hgs as [|[k g] gs Hg Hgs IH]; intros past pm (c & Hc & Hn & Hd) E.
  { injection E as <-. split; [by split|]. exists c. by rewrite app_nil_r. }
  cbn [propose_subs] in E. apply res_bind_Ok in E as (pm1 & E1 & E).
  apply with_sub_inv in E1 as (c0 & m & m' & Hc0 & Hm & Em & ->). rewrite Hc in Hc0. injection Hc0 as <-.
  pose proof (proposeGroup_inv _ _ _ _ Em) as [Hidle _]. apply Hg in Em. cbn in Em.
  assert (forall g0, (k, g0) ∉ past) as Hk.
  { intros g0 Hin. destruct (Hd _ _ Hin) as (m0 & Hm0 & Hp0). destruct Hp0. congruence. }
  edestruct (fun pm => IH (past ++ [(k, g)]) pm) as [Hs Hr]; [|exact E|].
  - exists (mkPolicyConfig (policies c) (set_manager (managers c) k m') (imps c)). split; [done|]. split.
    + rewrite fmap_app. apply NoDup_app. split; [done|]. split; [|apply NoDup_singleton].
      intros x ([x' g0] & -> & Hx)%list_elem_of_fmap Hx'%list_elem_of_singleton. cbn in Hx'. subst x'. by apply (Hk g0).
    + intros k' g' Hin. cbn [managers]. rewrite find_set_manager, Hm. apply elem_of_app in Hin as [Hin|Hin].
      * rewrite decide_False by (intros ->; by apply (Hk g')). by apply Hd.
      * apply list_elem_of_singleton in Hin. injection Hin as -> ->. rewrite decide_True by done. by exists m'.
  - rewrite <- app_assoc in Hr. by split.
Qed.

Lemma propose_ok path g pm pm' : proposeGroup path g pm = Ok pm' -> same_config pm pm' /\ proposed g pm'.
Proof.
  revert path pm pm'. induction g as [g IH] using group_ind. intros path pm pm' E.
  apply proposeGroup_inv in E as (_ & pm1 & [Hb Hcf] & [c Hc] & E).
  destruct (propose_subs_ok path (cg_Groups g) pm1 pm' []) as [[Hb' Hcf'] (c' & Hc' & Hn & Hall)]; [| |done|].
  - eapply Forall_impl; [exact IH|]. intros kg Hkg path0 m m' Em. by destruct (Hkg _ _ _ Em).
  - exists c. split; [done|]. split; [constructor|set_solver].
  - split; [split; congruence|]. by econstructor.
Qed.

(** *** Commit *)

Definition commit_subs (parent : option (string -> Policy * bool)) :
    list (string * ConfigGroup) -> ManagerImpl -> res ManagerImpl :=
  fix subs gs pm :=
    match gs with
    | [] => Ok pm
    | (key, g) :: gs => pm ← with_sub pm key (commit_group (Some (GetPolicy parent pm)) g); subs gs pm
    end.

Lemma commit_subs_ok parent gs pm :
  Forall (fun kg => forall parent m, proposed kg.2 m -> exists m', commit_group parent kg.2 m = Ok m' /\
                      pendingConfig m' = None) gs ->
  NoDup gs.*1 ->
  (exists c, pendingConfig pm = Some c /\
     forall k g, (k, g) ∈ gs -> exists m, find_manager (managers c) k = Some m /\ proposed g m) ->
  exists pm', commit_subs parent gs pm = Ok pm' /\ is_Some (pendingConfig pm').
Proof.
  intros Hgs. revert pm. induction Hgs as [|[k g] gs Hg Hgs IH]; intros pm Hn (c & Hc & Hd).
  { exists pm. by rewrite Hc. }
  cbn in Hn. apply NoDup_cons in Hn as [Hk Hn]. destruct (Hd k g) as (m & Hm & Hp); [by left|].
  destruct (Hg (Some (GetPolicy parent pm)) m Hp) as (m' & Em & _). cbn in Em. cbn [commit_subs].
  unfold with_sub. rewrite Hc, Hm, Em, !res_ret_bind. apply IH; [done|].
  eexists. split; [done|]. intros k' g' Hin. cbn [managers]. rewrite find_set_manager, decide_False; [by apply Hd; right|].
  intros ->. apply Hk. by apply (list_elem_of_fmap_2' fst _ (k, g')).
Qed.

Lemma config_commit_ok parent g pm :
  proposed g pm -> exists pm', commit_group parent g pm = Ok pm' /\ pendingConfig pm' = None.
Proof.
  revert parent pm. induction g as [g IH] using group_ind. intros parent pm Hp.
  destruct Hp as [g pm c Hc Hn Hall].
  destruct (commit_subs_ok parent (cg_Groups g) pm IH Hn) as (pm' & E & [c' Hc']); [by exists c|].
  destruct g as [ver gs vs ps mp]. cbn [commit_group cg_Groups] in *.
  change ((fix subs (gs : list (string * ConfigGroup)) (pm : ManagerImpl) : res ManagerImpl := _) gs pm)
    with (commit_subs parent gs pm).
  rewrite E, res_ret_bind. unfold CommitProposals. rewrite Hc'. by eexists.
Qed.

End Proposals.
End ConfigProposals.

(** ** The life of a configuration manager *)

(** The maps of a decoded message have unique keys. *)
Class ConfigCodecSpec `{ConfigCodec} : Prop := {
  update_unique b cu : unmarshal_ConfigUpdate b = Ok cu ->
    ConfigFacts.unique_opt (cu_ReadSet cu) /\ ConfigFacts.unique_opt (cu_WriteSet cu)
}.

Module ConfigLife.
Import ConfigPaths ConfigManager ConfigFacts ConfigProposals.

Section Life.
Context `{ProtoCodec} `{SignatureCodec} `{MSP} `{PolicyCodec} `{ConfigCodecSpec}.
Context (BeginValueProposals : list string -> list string -> res unit).
Context (Deserialize : list string -> string -> bytes -> res unit).
Context (PreCommit : ConfigGroup -> res unit).

Local Abbreviation processConfig := (processConfig BeginValueProposals Deserialize PreCommit).
Local Abbreviation prepareApply := (prepareApply BeginValueProposals Deserialize PreCommit).

(** No proposal is pending and the map is the one of a configuration. *)
Record wf (cm : configManager) : Prop := {
  wf_idle : pendingConfig (cm_policyManager cm) = None;
  wf_map : exists g0, unique g0 /\ MapConfig (Some g0) = Ok (cur cm)
}.

Lemma processConfig_ok g cm cm' :
  pendingConfig (cm_policyManager cm) = None -> processConfig g cm = (cm', Ok tt) ->
  result_rollback cm' = (cm, Ok tt) /\ proposed g (cm_policyManager cm') /\ cm_current cm' = cm_current cm.
Proof.
  intros Hidle. unfold ConfigManager.processConfig.
  destruct (proposeGroup _ _ _ _ (cm_policyManager cm)) as [pm| | |] eqn:E; cbn; try done.
  destruct (PreCommit g); cbn; try done. intros [= <-]. apply propose_ok in E as [Hs Hp].
  split; [|done]. unfold result_rollback, st_modify, set_policyManager. cbn.
  rewrite (rollback_same _ _ Hs Hidle). by destruct cm.
Qed.

(** What the configuration of the envelope has to do with the update in it. *)
Record prepared (cm : configManager) (ce : ConfigEnvelope) (g : ConfigGroup) : Prop := {
  pr_config : exists cfg h, ce_Config ce = Some cfg /\ cfg_Sequence cfg = wrap64 (Sequence cm + 1) /\
    cfg_ChannelGroup cfg = Some h /\ group_equal g h = true;
  pr_update : exists env m, envelopeToConfigUpdate (ce_LastUpdate ce) = Ok env /\ authorizeUpdate cm env = Ok m /\
    configMapToConfig m = Ok g
}.

Lemma prepareApply_spec ce cm cm' g :
  prepareApply ce cm = (cm', Ok g) <-> prepared cm ce g /\ processConfig g cm = (cm', Ok tt).
Proof.
  unfold ConfigManager.prepareApply. split.
  - intros E. apply st_bind_inv in E as (cm1 & cm0 & E1 & E). injection E1 as <- <-.
    destruct (ce_Config ce) as [cfg|] eqn:Ece; [|done].
    destruct (cfg_Sequence cfg =? _) eqn:Es; [|done]. apply Z.eqb_eq in Es. cbn [negb] in E.
    apply st_bind_inv in E as (cm1 & env & E1 & E). injection E1 as <- Ee.
    apply st_bind_inv in E as (cm1 & m & E1 & E). injection E1 as <- Em.
    apply st_bind_inv in E as (cm1 & g0 & E1 & E). injection E1 as <- Eg%wrap_err_Ok.
    destruct (cfg_ChannelGroup cfg) as [h|] eqn:Eh; [|done].
    destruct (group_equal g0 h) eqn:Egr; [|done]. cbn [negb] in E.
    apply st_bind_inv in E as (cm1 & [] & E1 & E). injection E as <- <-.
    split; [split|done]; [by exists cfg, h|by exists env, m].
  - intros [[(cfg & h & Hce & Hs & Hh & Hg) (env & m & He & Hm & Hmg)] Hp].
    rewrite (st_bind_Ok _ _ cm cm cm) by done. rewrite Hce, Hs. unfold Sequence. rewrite Z.eqb_refl. cbn [negb].
    rewrite (st_bind_Ok _ _ cm cm env) by (unfold st_lift; by rewrite He).
    rewrite (st_bind_Ok _ _ cm cm m) by (unfold st_lift; by rewrite Hm).
    rewrite (st_bind_Ok _ _ cm cm g) by (unfold st_lift; by rewrite Hmg). rewrite Hh, Hg. cbn [negb].
    by rewrite (st_bind_Ok _ _ cm cm' tt).
Qed.

Lemma Validate_ok ce cm cm' :
  pendingConfig (cm_policyManager cm) = None -> Validate BeginValueProposals Deserialize PreCommit ce cm = (cm', Ok tt) ->
  cm' = cm /\ exists g cm1, prepared cm ce g /\ processConfig g cm = (cm1, Ok tt).
Proof.
  intros Hidle E. apply st_bind_inv in E as (cm1 & g & [Hp E1]%prepareApply_spec & E).
  destruct (processConfig_ok _ _ _ Hidle E1) as [Hr _]. rewrite Hr in E. injection E as <-. split; [done|]. by exists g, cm1.
Qed.

Lemma authorized_unique cm env m :
  wf cm -> authorizeUpdate cm env = Ok m -> unique_map m.
Proof.
  intros Hwf (cu & rs & ws & sds & Ecu & _ & _ & _ & Ew & _ & _ & ->)%authorize_inv k c g Hk Hi.
  destruct (wf_map _ Hwf) as (g0 & Hu & Hg0). unfold computeUpdateResult in Hk.
  apply lookup_union_Some_raw in Hk as [Hk|[_ Hk]].
  - apply delta_subset in Hk. destruct (update_unique _ _ Ecu) as [_ Hws].
    by apply (MapConfig_unique _ _ Hws Ew k c).
  - by apply (MapConfig_unique (Some g0) _ Hu Hg0 k c).
Qed.

(** The group of an update: unique, valid keys. *)
Lemma prepared_group cm ce g : wf cm -> prepared cm ce g -> unique g /\ valid_group g.
Proof.
  intros Hwf [_ (env & m & _ & Hm & Hg)]. destruct (wf_map _ Hwf) as (g0 & Hu & Hg0). split.
  - eapply assembled_unique; [|exact Hg]. by eapply authorized_unique.
  - eapply assembled_valid; [|exact Hg]. by eapply authorized_map_ok.
Qed.

Lemma root_valid : validateConfigID RootGroupKey = Ok tt.
Proof. reflexivity. Qed.

Lemma valid_maps h : valid_group h -> exists m, MapConfig (Some h) = Ok m.
Proof. intros Hh. apply is_ok_iff, MapConfig_valid, elements_valid; [apply root_valid|done]. Qed.

(** A prepared configuration is applied. *)
Lemma Apply_ok cm cm1 ce cfg h g :
  wf cm -> prepared cm ce g -> processConfig g cm = (cm1, Ok tt) -> ce_Config ce = Some cfg ->
  cfg_ChannelGroup cfg = Some h -> unique h ->
  exists cm2, Apply BeginValueProposals Deserialize PreCommit ce cm = (cm2, Ok tt) /\
    wf cm2 /\ ChainID cm2 = ChainID cm /\ Sequence cm2 = cfg_Sequence cfg /\ ConfigEnvelope_ cm2 = ce /\
    MapConfig (Some h) = Ok (cur cm2).
Proof.
  intros Hwf Hp Hproc Hce Hh Hu. destruct (prepared_group _ _ _ Hwf Hp) as [Hug Hvg].
  destruct (pr_config _ _ _ Hp) as (cfg' & h' & Hce' & _ & Hh' & Heq). rewrite Hce in Hce'. injection Hce' as <-.
  rewrite Hh in Hh'. injection Hh' as <-.
  destruct (valid_maps h) as [m Hm]; [by eapply group_equal_valid|].
  destruct (processConfig_ok _ _ _ (wf_idle _ Hwf) Hproc) as (_ & Hprop & Hcur).
  destruct (config_commit_ok None g _ Hprop) as (pm & Hcommit & Hpm).
  unfold Apply. rewrite Hce, Hh.
  rewrite (st_bind_Ok _ _ cm cm m) by (unfold st_lift; by rewrite Hm).
  rewrite (st_bind_Ok _ _ cm cm1 g) by (by apply prepareApply_spec).
  rewrite (st_bind_Ok _ _ cm1 (set_policyManager cm1 pm) tt) by (unfold result_commit; by rewrite Hcommit).
  eexists. split; [reflexivity|]. split; [|cbn; by rewrite Hcur].
  split; [done|]. by exists h.
Qed.

(** *** Updates the manager proposes itself *)

Lemma propose_inv env cm cm' ce :
  ProposeConfigUpdate BeginValueProposals Deserialize PreCommit env cm = (cm', Ok ce) ->
  exists u m g cm1, envelopeToConfigUpdate (Some env) = Ok u /\ authorizeUpdate cm u = Ok m /\
    configMapToConfig m = Ok g /\ processConfig g cm = (cm1, Ok tt) /\ result_rollback cm1 = (cm', Ok tt) /\
    ce = mkConfigEnvelope (Some (mkConfig (wrap64 (Sequence cm + 1)) (Some g))) (Some env).
Proof.
  unfold ProposeConfigUpdate, proposeConfigUpdate. intros E. apply st_bind_inv in E as (cm0 & cm1 & E1 & E). injection E1 as <- <-.
  apply st_bind_inv in E as (cm1 & u & E1 & E). injection E1 as <- Eu%wrap_err_Ok.
  apply st_bind_inv in E as (cm1 & m & E1 & E). injection E1 as <- Em%wrap_err_Ok.
  apply st_bind_inv in E as (cm1 & g & E1 & E). injection E1 as <- Eg%wrap_err_Ok.
  apply st_bind_inv in E as (cm1 & [] & E1 & E).
  destruct (processConfig g cm) as [cm2 r] eqn:Ep. apply pair_equal_spec in E1 as [<- Er]. apply wrap_err_Ok in Er as ->.
  apply st_bind_inv in E as (cm3 & [] & E2 & E). injection E as <- <-. by exists u, m, g, cm2.
Qed.

Lemma propose_prepared env cm cm' ce :
  wf cm -> ProposeConfigUpdate BeginValueProposals Deserialize PreCommit env cm = (cm', Ok ce) ->
  cm' = cm /\ exists g cm1, prepared cm ce g /\ processConfig g cm = (cm1, Ok tt) /\
    ce_Config ce = Some (mkConfig (wrap64 (Sequence cm + 1)) (Some g)) /\ ce_LastUpdate ce = Some env /\ unique g.
Proof.
  intros Hwf (u & m & g & cm1 & Hu & Hm & Hg & Hp & Hr & ->)%propose_inv.
  destruct (processConfig_ok _ _ _ (wf_idle _ Hwf) Hp) as [Hr' _]. rewrite Hr in Hr'. injection Hr' as <-.
  assert (unique g) as Hug by (eapply assembled_unique; [by eapply authorized_unique|exact Hg]).
  split; [done|]. exists g, cm1. split; [|done]. split.
  - eexists _, g. split; [done|]. split; [done|]. split; [done|]. by apply group_equal_refl.
  - by exists u, m.
Qed.

(** *** A new manager *)

Lemma new_wf env cm :
  NewConfigManager BeginValueProposals Deserialize PreCommit env = Ok cm ->
  exists hdr ce cfg g, UnmarshalEnvelopeOfType (Some env) CONFIG unmarshal_ConfigEnvelope = Ok (hdr, ce) /\
    ce_Config ce = Some cfg /\ cfg_ChannelGroup cfg = Some g /\ ConfigEnvelope_ cm = ce /\
    ChainID cm = ch_ChannelId hdr /\ validateChannelID (ChainID cm) = Ok tt /\ Sequence cm = cfg_Sequence cfg /\
    (unique g -> wf cm).
Proof.
  unfold NewConfigManager. intros E. apply res_bind_Ok in E as ([hdr ce] & Ee%wrap_err_Ok & E).
  destruct (ce_Config ce) as [cfg|] eqn:Ece; [|done]. destruct (cfg_ChannelGroup cfg) as [g|] eqn:Eg; [|done].
  apply res_bind_Ok in E as ([] & Ev%wrap_err_Ok & E). apply res_bind_Ok in E as (m & Em%wrap_err_Ok & E).
  match type of E with (let '(_, _) := ?x in _) = _ => destruct x as [cm1 r] eqn:Ep end. apply res_bind_Ok in E as ([] & -> & E). injection E as <-.
  apply st_bind_inv in Ep as (cm0 & [] & E0 & Ep).
  apply processConfig_ok in E0 as (_ & Hprop & Hcur); [|done].
  destruct (config_commit_ok None g _ Hprop) as (pm & Hcommit & Hpm). unfold result_commit in Ep. rewrite Hcommit in Ep.
  injection Ep as <-. exists hdr, ce, cfg, g. unfold ConfigEnvelope_, ChainID, Sequence. cbn. rewrite Hcur.
  do 7 (split; [done|]). intros Hu. split; [done|]. exists g. split; [done|]. unfold cur. cbn. by rewrite Hcur.
Qed.

End Life.
End ConfigLife.
