(* ===== verification/ConfigTheorems.v ===== *)
(** * Theorems on channel configuration

    The map of a configuration gives the configuration back; an applied update
    was authorized element by element; an update that validates is applied,
    and one that the manager proposes validates. *)

From stdpp Require Import base gmap strings list.
From Stdlib Require Import Ascii ZArith Lia.
From S2P Require Import Prelude Proto CAuthDSL Policies ConfigTx.
Import ProtoUtils SignedDataOf Policies ConfigNames ConfigMap ConfigPaths ConfigManager ConfigFacts ConfigLife.
Local Open Scope Z_scope.

(** ** The round trip *)

Module ConfigRoundTrip.

Lemma elements_prefix path key g c : c ∈ elements path key g -> (path ++ [key]) `prefix_of` full_path c.
Proof.
  revert path key. induction g as [g IH] using group_ind. intros path key Hc.
  apply elements_cases in Hc as [->|[(k & g' & Hg & Hc)|[(k & v & _ & ->)|(k & q & _ & ->)]]]; unfold full_path.
  - done.
  - rewrite Forall_forall in IH. apply (IH _ Hg) in Hc. etrans; [|exact Hc]. by apply prefix_app_r.
  - by apply prefix_app_r.
  - by apply prefix_app_r.
Qed.

(** An element below a sub-group. *)
Lemma elements_deeper path key g c :
  c ∈ elements path key g -> kind_of c <> KGroup -> (length path < length (c_path c))%nat.
Proof.
  intros Hc Hk. apply elements_cases in Hc as [->|[(k & g' & _ & Hc)|[(k & v & _ & ->)|(k & q & _ & ->)]]].
  - done.
  - apply elements_depth in Hc. rewrite length_app in Hc. cbn in Hc. lia.
  - cbn. rewrite length_app. cbn. lia.
  - cbn. rewrite length_app. cbn. lia.
Qed.

Lemma keys_inj {A} (l : list (string * A)) k a b : NoDup l.*1 -> (k, a) ∈ l -> (k, b) ∈ l -> a = b.
Proof.
  intros Hn Ha Hb. pose proof (assoc_elem _ _ _ Hn Ha) as E. rewrite (assoc_elem _ _ _ Hn Hb) in E. congruence.
Qed.

Lemma below_inj path key g c k g' d :
  (k, g') ∈ cg_Groups g -> c ∈ elements (path ++ [key]) k g' -> unique g ->
  (forall d, d ∈ elements (path ++ [key]) k g' -> kind_of c = kind_of d -> full_path c = full_path d -> c = d) ->
  d ∈ elements path key g -> kind_of c = kind_of d -> full_path c = full_path d -> c = d.
Proof.
  intros Hg Hc Hu IH Hd Hk Hp. destruct Hu as [g Hn _].
  pose proof (elements_prefix _ _ _ _ Hc) as Hpc. pose proof (elements_depth _ _ _ _ Hc) as Hdc.
  assert (length (c_path c) = length (c_path d)) as Hlen.
  { unfold full_path in Hp. by apply app_inj_tail in Hp as [-> _]. }
  rewrite length_app in Hdc. cbn in Hdc.
  apply elements_cases in Hd as [->|[(k2 & g2 & Hg2 & Hd)|[(k2 & v & _ & ->)|(k2 & q & _ & ->)]]].
  - cbn in Hlen. lia.
  - pose proof (elements_prefix _ _ _ _ Hd) as Hpd. rewrite <- Hp in Hpd.
    assert (k = k2) as <-.
    { destruct Hpc as [r1 E1], Hpd as [r2 E2]. rewrite E1, <- !app_assoc in E2. by simplify_list_eq. }
    rewrite (keys_inj _ _ _ _ (Hn KGroup) Hg2 Hg) in Hd. by apply IH.
  - apply elements_deeper in Hc; [|by rewrite Hk]. cbn in Hlen. rewrite length_app in *. cbn in *. lia.
  - apply elements_deeper in Hc; [|by rewrite Hk]. cbn in Hlen. rewrite length_app in *. cbn in *. lia.
Qed.

(** The place of an element determines it. *)
Lemma elements_inj path key g c d :
  unique g -> c ∈ elements path key g -> d ∈ elements path key g ->
  kind_of c = kind_of d -> full_path c = full_path d -> c = d.
Proof.
  revert path key c d. induction g as [g IH] using group_ind. intros path key c d Hu Hc Hd Hk Hp.
  rewrite Forall_forall in IH. pose proof Hc as Hc'. pose proof Hd as Hd'. pose proof Hu as Hu'.
  destruct Hu' as [g Hn Hs]. rewrite Forall_forall in Hs.
  apply elements_cases in Hc as [->|[(k & g' & Hg & Hc)|Hc]].
  - symmetry. by apply elements_top; [|rewrite <- Hp].
  - apply (below_inj path key g c k g' d); try done. intros d' Hd2 Hk2 Hp2.
    by apply (IH _ Hg (path ++ [key]) k c d' (Hs _ Hg)).
  - apply elements_cases in Hd as [->|[(k & g' & Hg & Hd)|Hd]].
    + by apply elements_top.
    + symmetry. apply (below_inj path key g d k g' c); try done. intros d' Hd2 Hk2 Hp2.
      by apply (IH _ Hg (path ++ [key]) k d d' (Hs _ Hg)).
    + assert (forall (k1 k2 : string), (path ++ [key]) ++ [k1] = (path ++ [key]) ++ [k2] -> k1 = k2) as Hkey.
      { intros k1 k2 E. by apply app_inj_tail in E as [_ ->]. }
      destruct Hc as [(k1 & v1 & H1 & ->)|(k1 & v1 & H1 & ->)], Hd as [(k2 & v2 & H2 & ->)|(k2 & v2 & H2 & ->)];
        try done; unfold full_path in Hp; cbn [c_path c_key] in Hp; apply Hkey in Hp as ->.
      * by rewrite (keys_inj _ _ _ _ (Hn KValue) H1 H2).
      * by rewrite (keys_inj _ _ _ _ (Hn KPolicy) H1 H2).
Qed.

Lemma MapConfig_exact g m :
  unique g -> MapConfig (Some g) = Ok m -> forall c, c ∈ elements [] RootGroupKey g -> m !! fqPath c = Some c.
Proof.
  intros Hu Hm c Hc. pose proof (MapConfig_ok _ _ Hm) as Hok. destruct (MapConfig_spec _ _ Hm) as (_ & _ & S).
  destruct (S c Hc) as (c' & Hc' & Hl & He). rewrite Hl. f_equal. destruct (Hok _ _ Hl) as [_ [Hcl' _]].
  destruct (MapConfig_spec _ _ Hm) as (F & _ & _). cbn [config_elements] in *.
  pose proof (elements_clean [] RootGroupKey g ltac:(constructor) F) as Hcl. rewrite Forall_forall in Hcl.
  destruct (fqPath_inj c' c Hcl' (proj1 (Hcl c Hc)) He) as [Hk Hp]. by apply (elements_inj [] RootGroupKey g).
Qed.

Lemma all_ok_or {A B} (f : A -> res B) l bs :
  Forall2 (fun a b => f a = OutOfFuel \/ f a = Ok b) l bs -> all_ok f l = OutOfFuel \/ all_ok f l = Ok bs.
Proof.
  induction 1 as [|a b l bs Hab _ IH]; cbn; [by right|].
  destruct Hab as [-> | ->]; cbn; [by left|]. destruct IH as [-> | ->]; cbn; [by left|by right].
Qed.

Lemma Forall2_fst {A B} (P : A -> (A * B) -> Prop) (l : list (A * B)) :
  (forall k v, (k, v) ∈ l -> P k (k, v)) -> Forall2 P l.*1 l.
Proof.
  induction l as [|[k v] l IH]; intros Hl; constructor; [by apply Hl; left|].
  apply IH. intros k' v' Hin. apply Hl. by right.
Qed.

(** Assembling gives the configuration whose elements the map has. *)
Lemma assemble_back fuel m path key g :
  (forall c, c ∈ elements path key g -> m !! fqPath c = Some c) ->
  recurseConfigMap fuel (pstr (path ++ [key])) m = OutOfFuel \/
  recurseConfigMap fuel (pstr (path ++ [key])) m = Ok g.
Proof.
  revert path key g. induction fuel as [|fuel IH]; intros path key g Hm; [by left|].
  cbn [recurseConfigMap].
  pose proof (Hm _ (elements_root path key g)) as Hroot. rewrite fqPath_pstr in Hroot. cbn [prefix_of c_item] in Hroot.
  unfold full_path in Hroot. cbn [c_path c_key prefix_of c_item] in Hroot. unfold prefix_of in Hroot. cbn [c_item] in Hroot.
  rewrite Hroot. cbn [c_item].
  destruct (all_ok_or (fun k => g0 ← recurseConfigMap fuel (pstr (path ++ [key]) +:+ PathSeparator +:+ k) m; Ok (k, g0))
    (cg_Groups g).*1 (cg_Groups g)) as [-> | ->]; [|by left|].
  { apply Forall2_fst. intros k g' Hg. rewrite <- pstr_snoc.
    destruct (IH (path ++ [key]) k g') as [-> | ->]; [|by left|by right].
    intros c Hc. apply Hm. by eapply elements_sub. }
  destruct (all_ok_or (find_value (pstr (path ++ [key])) m) (cg_Values g).*1 (cg_Values g)) as [-> | ->]; [|by left|].
  { apply Forall2_fst. intros k v Hv. right. unfold find_value. rewrite <- pstr_snoc.
    pose proof (Hm (mkComparable (IValue v) k (path ++ [key]))) as Hl. rewrite fqPath_pstr in Hl.
    unfold full_path, prefix_of in Hl. cbn [c_item c_path c_key] in Hl. rewrite Hl; [done|].
    rewrite elements_eq. right. apply elem_of_app. right. apply elem_of_app. left. apply list_elem_of_fmap. by exists (k, v). }
  destruct (all_ok_or (find_policy (pstr (path ++ [key])) m) (cg_Policies g).*1 (cg_Policies g)) as [-> | ->]; [|by left|].
  { apply Forall2_fst. intros k v Hv. right. unfold find_policy. rewrite <- pstr_snoc.
    pose proof (Hm (mkComparable (IPolicy v) k (path ++ [key]))) as Hl. rewrite fqPath_pstr in Hl.
    unfold full_path, prefix_of in Hl. cbn [c_item c_path c_key] in Hl. rewrite Hl; [done|].
    rewrite elements_eq. right. apply elem_of_app. right. apply elem_of_app. right. apply list_elem_of_fmap. by exists (k, v). }
  right. by destruct g.
Qed.

End ConfigRoundTrip.

Module ConfigTheorems.
Import ConfigRoundTrip.

(** An element of a new configuration [g] is as it was; or it has the next
    version, and the policy of the element it replaces accepts the signatures
    of the update; or it is new with version 0, in a group that is not as it
    was. *)
Definition authorized `{SignatureCodec} `{MSP} (cm : configManager) (u : ConfigUpdateEnvelope) (g : ConfigGroup)
    (c : comparable) : Prop :=
  unchanged cm c \/
  (exists old, cur cm !! fqPath c = Some old /\ version c = wrap64 (version old + 1) /\ signed_off cm u old) \/
  (cur cm !! fqPath c = None /\ version c = 0 /\
     exists d, d ∈ elements [] RootGroupKey g /\ child_of c d /\ ~ unchanged cm d).

Section Theorems.
Context `{ProtoCodec} `{SignatureCodec} `{MSP} `{PolicyCodec} `{ConfigCodecSpec}.
Context (BeginValueProposals : list string -> list string -> res unit).
Context (Deserialize : list string -> string -> bytes -> res unit).
Context (PreCommit : ConfigGroup -> res unit).

Local Abbreviation Apply := (Apply BeginValueProposals Deserialize PreCommit).
Local Abbreviation Validate := (Validate BeginValueProposals Deserialize PreCommit).
Local Abbreviation ProposeConfigUpdate := (ProposeConfigUpdate BeginValueProposals Deserialize PreCommit).

(** C21: A configuration that a manager applies was authorized: the envelope
    carries an update for the channel whose read set is at the current
    versions, and every element of the new configuration is unchanged, or
    replaces an element whose modification policy the update's signatures
    satisfy, or is new in such a group. *)
Theorem applied_update_authorized cm cm' ce :
  wf cm -> Apply ce cm = (cm', Ok tt) ->
  exists u cu readSet cfg g h, envelopeToConfigUpdate (ce_LastUpdate ce) = Ok u /\
    unmarshal_ConfigUpdate (cue_ConfigUpdate u) = Ok cu /\ cu_ChannelId cu = ChainID cm /\
    MapConfig (cu_ReadSet cu) = Ok readSet /\
    (forall k r, readSet !! k = Some r -> exists e, cur cm !! k = Some e /\ version e = version r) /\
    ce_Config ce = Some cfg /\ cfg_ChannelGroup cfg = Some h /\ group_equal g h = true /\
    forall c, c ∈ elements [] RootGroupKey g -> authorized cm u g c.
Proof.
  intros Hwf E. unfold ConfigManager.Apply in E. destruct (ce_Config ce) as [cfg|] eqn:Ece; [|done].
  apply st_bind_inv in E as (cm1 & m & E1 & E). injection E1 as <- Em.
  apply st_bind_inv in E as (cm1 & g & E1 & _). apply prepareApply_spec in E1 as [[Hcfg (u & full & Hu & Hf & Hg)] _].
  destruct Hcfg as (cfg' & h & Hce & _ & Hh & Heq). rewrite Ece in Hce. injection Hce as <-.
  destruct (authorize_inv _ _ _ Hf) as (cu & rs & ws & sds & Hcu & Hid & Hrs & Hread & _).
  exists u, cu, rs, cfg, g, h. do 4 (split; [done|]). split.
  { intros k r Hk. unfold verifyReadSet in Hread. rewrite foldM_unit_ok in Hread.
    specialize (Hread (k, r)). rewrite elem_of_map_to_list in Hread. specialize (Hread Hk). unfold verify_read in Hread.
    fold (cur cm) in Hread. destruct (cur cm !! k) as [e|] eqn:Ee; [|done]. exists e. split; [done|].
    destruct (_ =? _) eqn:Ev; [|done]. by apply Z.eqb_eq. }
  do 3 (split; [done|]). destruct (wf_map _ Hwf) as (g0 & _ & Hg0).
  intros c Hc. by apply (authorized_elements cm u full g0 g).
Qed.

(** C22: A configuration that validates is applied: validation leaves the
    manager as it is, and [Apply] then succeeds - the commit of the proposal
    cannot panic - with the next sequence number and the new configuration. *)
Theorem validated_config_applies cm cm' ce cfg h :
  wf cm -> ce_Config ce = Some cfg -> cfg_ChannelGroup cfg = Some h -> unique h ->
  Validate ce cm = (cm', Ok tt) ->
  cm' = cm /\
  exists cm2, Apply ce cm = (cm2, Ok tt) /\ wf cm2 /\ ChainID cm2 = ChainID cm /\
    Sequence cm2 = wrap64 (Sequence cm + 1) /\ ConfigEnvelope_ cm2 = ce /\
    forall c, c ∈ elements [] RootGroupKey h -> cur cm2 !! fqPath c = Some c.
Proof.
  intros Hwf Hce Hh Hu (-> & g & cm1 & Hp & Hproc)%Validate_ok; [|by apply wf_idle]. split; [done|].
  destruct (Apply_ok _ _ _ cm cm1 ce cfg h g Hwf Hp Hproc Hce Hh Hu) as (cm2 & Ha & Hwf2 & Hid & Hs & Hc & Hm).
  exists cm2. split; [done|]. split; [done|]. split; [done|]. split; [|split; [done|by apply MapConfig_exact]].
  destruct (pr_config _ _ _ Hp) as (cfg' & h' & Hce' & Hs' & _). rewrite Hce in Hce'. injection Hce' as <-. congruence.
Qed.

(** The configuration that a manager computes from an update, as an
    orderer does to order it, validates at that manager and is applied. *)
Theorem proposed_config_validates cm cm' env ce :
  wf cm -> ProposeConfigUpdate env cm = (cm', Ok ce) ->
  cm' = cm /\ Validate ce cm = (cm, Ok tt) /\ ce_LastUpdate ce = Some env /\
  exists cm2, Apply ce cm = (cm2, Ok tt) /\ wf cm2 /\ Sequence cm2 = wrap64 (Sequence cm + 1).
Proof.
  intros Hwf (-> & g & cm1 & Hp & Hproc & Hce & Hlast & Hug)%propose_prepared; [|done].
  split; [done|]. split; [|split; [done|]].
  - unfold ConfigManager.Validate. rewrite (st_bind_Ok _ _ cm cm1 g) by (by apply prepareApply_spec).
    destruct (processConfig_ok _ _ _ g cm cm1 (wf_idle _ Hwf) Hproc) as [-> _]. done.
  - destruct (Apply_ok _ _ _ cm cm1 ce _ g g Hwf Hp Hproc Hce eq_refl Hug) as (cm2 & Ha & Hwf2 & _ & Hs & _).
    by exists cm2.
Qed.

End Theorems.

(** Mapping a configuration and assembling the map gives it back. *)
Theorem config_map_round_trip g m :
  unique g -> MapConfig (Some g) = Ok m -> configMapToConfig m = Ok g.
Proof.
  intros Hu Hm. pose proof (config_returns m) as Hf. unfold configMapToConfig in *.
  change (PathSeparator +:+ RootGroupKey) with (pstr ([] ++ [RootGroupKey])) in *.
  destruct (assemble_back (S (size m)) m [] RootGroupKey g) as [E|E]; [by apply MapConfig_exact|done|done].
Qed.

(** ** A channel with one value and one organization

    Messages are named by byte strings; an identity satisfies the principals
    that are prefixes of it. *)

Definition tag (b : bytes) : string := to_string b.

Definition demo_policies : list (string * ConfigPolicy) :=
  [("Admins", mkConfigPolicy 0 (Some (mkCbPolicy Policy_SIGNATURE (to_bytes "by a"))) "Admins")].

Definition demo_value (n : Z) (b : string) : ConfigValue := mkConfigValue n (to_bytes b) "Admins".

Definition demo_group : ConfigGroup :=
  mkConfigGroup 0 [("Org", mkConfigGroup 0 [] [] demo_policies "Admins")]
    [("Size", demo_value 0 "10"); ("Time", demo_value 0 "2s")] demo_policies "Admins".

(** The update changes the value [Size] and adds a value to [Org]. *)
Definition demo_update : ConfigUpdate :=
  mkConfigUpdate "ch" (Some (mkConfigGroup 0 [("Org", mkConfigGroup 0 [] [] demo_policies "")] [] [] ""))
    (Some (mkConfigGroup 0 [("Org", mkConfigGroup 1 [] [("New", demo_value 0 "x")] demo_policies "Admins")]
             [("Size", demo_value 1 "20")] [] "Admins")).

(** The update that gives the root group a new version. *)
Definition root_update : ConfigUpdate :=
  mkConfigUpdate "ch" None (Some (mkConfigGroup 1 [] [("Size", demo_value 1 "20")] demo_policies "Admins")).

Definition demo_envelope (s : string) : Envelope := mkEnvelope (to_bytes s) [].

#[local] Instance demo_proto : ProtoCodec := {
  unmarshal_Envelope b := Ok (mkEnvelope b []);
  unmarshal_Payload b := Ok (mkPayload (Some (mkHeader b [])) b);
  unmarshal_ChannelHeader b :=
    Ok (mkChannelHeader (if decide (tag b = "genesis") then CONFIG else CONFIG_UPDATE) 0 "ch" "" 0 []);
  unmarshal_Transaction b := Err "no";
  unmarshal_ChaincodeActionPayload b := Err "no";
  unmarshal_ProposalResponsePayload b := Err "no";
  unmarshal_ChaincodeAction b := Err "no"
}.

#[local] Instance demo_config : ConfigCodec := {
  unmarshal_ConfigEnvelope b := Ok (mkConfigEnvelope (Some (mkConfig 0 (Some demo_group))) None);
  unmarshal_ConfigUpdate b := Ok (if decide (tag b = "root") then root_update else demo_update);
  unmarshal_ConfigUpdateEnvelope b := Ok (mkConfigUpdateEnv b [mkConfigSignature (to_bytes "a") []])
}.

#[local] Instance demo_signatures : SignatureCodec := {
  unmarshal_SignatureHeader b := Ok (mkSignatureHeader b []);
  unmarshal_SignaturePolicyEnvelope b :=
    Ok (mkSigPolicyEnv 0 (CAuthDSL.SignedBy 0) [mkPrincipal IDENTITY (to_bytes "a")]);
  marshal_MSPRole _ _ := []
}.

#[local] Instance demo_msp : MSP := {
  MSPIdentity := bytes;
  DeserializeIdentity b := Ok b;
  SatisfiesPrincipal i p := if decide (Principal p `prefix_of` i) then Ok tt else Err "principal";
  Verify _ _ _ := Ok tt;
  identity_Validate _ := Ok tt
}.

#[local] Instance demo_policy : PolicyCodec := { unmarshal_ImplicitMetaPolicy b := Err "no" }.

Definition no_begin (path groups : list string) : res unit := Ok tt.
Definition no_value (path : list string) (key : string) (v : bytes) : res unit := Ok tt.
Definition no_check (g : ConfigGroup) : res unit := Ok tt.

Definition demo_manager : res configManager := NewConfigManager no_begin no_value no_check (demo_envelope "genesis").

Definition demo_proposed : res (configManager * ConfigEnvelope) :=
  cm ← demo_manager;
  match ProposeConfigUpdate no_begin no_value no_check (demo_envelope "update") cm with
  | (cm', Ok ce) => Ok (cm', ce)
  | _ => Err "no"
  end.

Fixpoint uniqueb (g : ConfigGroup) : bool :=
  bool_decide (NoDup (cg_Groups g).*1) && bool_decide (NoDup (cg_Values g).*1) &&
  bool_decide (NoDup (cg_Policies g).*1) &&
  (fix all (l : list (string * ConfigGroup)) : bool :=
     match l with [] => true | (_, g) :: l => uniqueb g && all l end) (cg_Groups g).

Lemma uniqueb_ok g : uniqueb g = true -> unique g.
Proof.
  induction g as [g IH] using group_ind. destruct g as [ver gs vs ps mp]. cbn [uniqueb cg_Groups cg_Values cg_Policies].
  rewrite !andb_true_iff, !bool_decide_eq_true. intros [[[Hg Hv] Hp] Hall]. constructor; [by intros []|]. cbn [cg_Groups] in *.
  clear Hg Hv Hp. induction IH as [|[k g] gs Hx IH' IHgs]; constructor; apply andb_true_iff in Hall as [H1 H2]; auto.
Qed.

Lemma demo_unique : unique demo_group.
Proof. by apply uniqueb_ok. Qed.

#[local] Instance demo_spec : ConfigCodecSpec.
Proof. constructor. intros b cu [= <-]. case_decide; cbn; (split; [try done|]; by apply uniqueb_ok). Qed.

Lemma demo_manager_ok : exists cm, demo_manager = Ok cm /\ wf cm.
Proof.
  assert (is_ok demo_manager) as [cm E]%is_ok_iff by by vm_compute. exists cm. split; [done|].
  destruct (new_wf _ _ _ _ _ E) as (hdr & ce & cfg & g & He & Hce & Hg & _ & _ & _ & _ & Hwf). apply Hwf.
  cbn in He. apply Ok_inj, pair_equal_spec in He as [_ <-]. injection Hce as <-. injection Hg as <-. apply demo_unique.
Qed.

Lemma demo_proposed_ok :
  exists cm cm' ce, wf cm /\ ProposeConfigUpdate no_begin no_value no_check (demo_envelope "update") cm = (cm', Ok ce).
Proof.
  destruct demo_manager_ok as (cm & Hcm & Hwf). assert (is_ok demo_proposed) as Hok by by vm_compute.
  unfold demo_proposed in Hok. rewrite Hcm, res_ret_bind in Hok.
  destruct (ProposeConfigUpdate _ _ _ _ cm) as [cm' [ce| | |]] eqn:E; try done. by exists cm, cm', ce.
Qed.

Lemma proposed_config_validates_witness :
  exists cm ce, Validate no_begin no_value no_check ce cm = (cm, Ok tt) /\ ce_LastUpdate ce = Some (demo_envelope "update").
Proof.
  destruct demo_proposed_ok as (cm & cm' & ce & Hwf & E). exists cm, ce.
  destruct (proposed_config_validates _ _ _ cm cm' _ ce Hwf E) as (_ & Hv & Hl & _). split; [exact Hv|exact Hl].
Defined.

Lemma validated_config_applies_witness :
  exists cm ce cm2, Apply no_begin no_value no_check ce cm = (cm2, Ok tt) /\ Sequence cm2 = wrap64 (Sequence cm + 1).
Proof.
  destruct demo_proposed_ok as (cm & cm' & ce & Hwf & E).
  destruct (propose_prepared _ _ _ _ _ _ _ Hwf E) as (_ & g & cm1 & Hp & Hproc & Hce & _ & Hug).
  assert (Validate no_begin no_value no_check ce cm = (cm, Ok tt)) as Hv.
  { unfold Validate. rewrite (st_bind_Ok _ _ cm cm1 g) by (by apply prepareApply_spec).
    by destruct (processConfig_ok _ _ _ g cm cm1 (wf_idle _ Hwf) Hproc) as [-> _]. }
  destruct (validated_config_applies _ _ _ cm cm ce _ g Hwf Hce eq_refl Hug Hv) as (_ & cm2 & Ha & _ & _ & Hs & _).
  exists cm, ce, cm2. split; [exact Ha|exact Hs].
Defined.

Lemma applied_update_authorized_witness :
  exists cm u g, wf cm /\ forall c, c ∈ elements [] RootGroupKey g -> authorized cm u g c.
Proof.
  destruct demo_proposed_ok as (cm & cm' & ce & Hwf & E).
  destruct (propose_prepared _ _ _ _ _ _ _ Hwf E) as (_ & g & cm1 & Hp & Hproc & Hce & _ & Hug).
  destruct (Apply_ok _ _ _ cm cm1 ce _ g g Hwf Hp Hproc Hce eq_refl Hug) as (cm2 & Ha & _).
  destruct (applied_update_authorized _ _ _ cm cm2 ce Hwf Ha) as (u & _ & _ & _ & g' & _ & _ & _ & _ & _ & _ & _ & _ & _ & Hall).
  exists cm, u, g'. split; [exact Hwf|exact Hall].
Defined.

Lemma config_map_round_trip_witness :
  exists m, MapConfig (Some demo_group) = Ok m /\ configMapToConfig m = Ok demo_group.
Proof.
  assert (is_ok (MapConfig (Some demo_group))) as Hok by by vm_compute.
  destruct (MapConfig (Some demo_group)) as [m| | |] eqn:E; [|done..]. exists m. split; [reflexivity|].
  apply (config_map_round_trip demo_group m); [apply demo_unique|exact E].
Defined.

(** ** Behaviours outside the contract *)

(** An update that gives the root group its next version panics: the policy
    manager of the root is looked up with [path[1:]] of an empty path.  No
    signature is needed. *)
Example root_group_update_panics :
  match demo_manager with
  | Ok cm => match (ProposeConfigUpdate no_begin no_value no_check (demo_envelope "root") cm).2 with
             | Panic _ => True | _ => False end
  | _ => False
  end.
Proof. by vm_compute. Qed.

(** A configuration without its last update panics when it is validated. *)
Example nil_last_update_panics :
  match demo_manager with
  | Ok cm => match (Validate no_begin no_value no_check
                      (mkConfigEnvelope (Some (mkConfig 1 (Some demo_group))) None) cm).2 with
             | Panic _ => True | _ => False end
  | _ => False
  end.
Proof. by vm_compute. Qed.

End ConfigTheorems.
