(* ===== verification/Filters.v ===== *)
(** * The orderer's filters and the block cutter

    orderer/common: the rules that a message of a channel has to pass
    (filter, sizefilter, sigfilter, configtxfilter), and the block cutter, which
    collects the messages into batches.  The cutter sees the channel's
    configuration and filters through an interface, [ChainConfig]; the rules of
    a channel over its configuration manager implement it. *)

From stdpp Require Import base gmap strings list.
From Stdlib Require Import Ascii ZArith Lia.
From S2P Require Import Prelude Proto CAuthDSL Policies ConfigTx.
Import ProtoUtils SignedDataOf Policies ConfigManager.
Local Open Scope Z_scope.

Definition wrap32 (z : Z) : Z := z mod 2 ^ 32.

(** [ab.BatchSize] *)
Record BatchSize := mkBatchSize { MaxMessageCount : Z; AbsoluteMaxBytes : Z; PreferredMaxBytes : Z }.

(** ** filter.go, sizefilter.go, sigfilter.go and configtxfilter/filter.go *)

Module Filter.

Inductive Committer := NoopCommitter | ConfigCommitter (configEnvelope : ConfigEnvelope).

Inductive Action := Accept (committer : Committer) | Reject | Forward.

Inductive Rule := EmptyRejectRule | MaxBytesRule | SigFilter (policySource : string) | ConfigFilter | AcceptRule.

Definition messageByteSize (message : Envelope) : Z :=
  wrap32 (Z.of_nat (length (env_Payload message)) + Z.of_nat (length (env_Signature message))).

Section Filter.
Context `{ProtoCodec} `{SignatureCodec} `{MSP} `{PolicyCodec} `{ConfigCodec}.
Context (BeginValueProposals : list string -> list string -> res unit).
Context (Deserialize : list string -> string -> bytes -> res unit).
Context (PreCommit : ConfigGroup -> res unit).

(** [SharedConfig().BatchSize()]: the value of the orderer group. *)
Context (batchSize : configManager -> BatchSize).

(** An unmarshalled message has a nil payload if the payload is empty. *)
Definition emptyReject (message : Envelope) : Action :=
  match env_Payload message with [] => Reject | _ => Forward end.

Definition maxBytes (message : Envelope) (cm : configManager) : Action :=
  if AbsoluteMaxBytes (batchSize cm) <? messageByteSize message then Reject else Forward.

Definition sigFilter (policySource : string) (message : Envelope) (cm : configManager) : res Action :=
  match env_AsSignedData message with
  | Err _ => Ok Reject
  | Panic m => Panic m
  | OutOfFuel => OutOfFuel
  | Ok signedData =>
      let '(policy, ok) := GetPolicy None (cm_policyManager cm) policySource in
      if negb ok then Ok Reject
      else match Evaluate policy signedData with
           | Ok _ => Ok Forward
           | Err _ => Ok Reject
           | Panic m => Panic m
           | OutOfFuel => OutOfFuel
           end
  end.

(** The configuration of a CONFIG message; the other messages are forwarded. *)
Definition config_data (message : Envelope) : res (option bytes) :=
  match unmarshal_Payload (env_Payload message) with
  | Err _ => Ok None
  | Panic m => Panic m
  | OutOfFuel => OutOfFuel
  | Ok msgData =>
      match pl_Header msgData with
      | None => Ok None
      | Some hdr =>
          match UnmarshalChannelHeader (hdr_ChannelHeader hdr) with
          | Err _ => Ok None
          | Panic m => Panic m
          | OutOfFuel => OutOfFuel
          | Ok chdr => Ok (if decide (ch_Type chdr = CONFIG) then Some (pl_Data msgData) else None)
          end
      end
  end.

Definition configFilter (message : Envelope) : ST configManager Action := fun cm =>
  match config_data message with
  | Ok None => (cm, Ok Forward)
  | Ok (Some data) =>
      match unmarshal_ConfigEnvelope data with
      | Err _ => (cm, Ok Reject)
      | Panic m => (cm, Panic m)
      | OutOfFuel => (cm, OutOfFuel)
      | Ok configEnvelope =>
          match Validate BeginValueProposals Deserialize PreCommit configEnvelope cm with
          | (cm, Ok _) => (cm, Ok (Accept (ConfigCommitter configEnvelope)))
          | (cm, Err _) => (cm, Ok Reject)
          | (cm, Panic m) => (cm, Panic m)
          | (cm, OutOfFuel) => (cm, OutOfFuel)
          end
      end
  | Err e => (cm, Err e)
  | Panic m => (cm, Panic m)
  | OutOfFuel => (cm, OutOfFuel)
  end.

Definition rule_Apply (rule : Rule) (message : Envelope) : ST configManager Action := fun cm =>
  match rule with
  | EmptyRejectRule => (cm, Ok (emptyReject message))
  | MaxBytesRule => (cm, Ok (maxBytes message cm))
  | SigFilter policySource => (cm, sigFilter policySource message cm)
  | ConfigFilter => configFilter message cm
  | AcceptRule => (cm, Ok (Accept NoopCommitter))
  end.

(** [RuleSet.Apply] *)
Fixpoint Apply (rules : list Rule) (message : Envelope) : ST configManager Committer :=
  match rules with
  | [] => st_lift (Err "No matching filter found")
  | rule :: rules =>
      action ← rule_Apply rule message;
      match action with
      | Accept committer => mret committer
      | Reject => st_lift (Err "Rejected by rule")
      | Forward => Apply rules message
      end
  end.

(** [createStandardFilters] *)
Definition standardFilters : list Rule :=
  [EmptyRejectRule; MaxBytesRule; SigFilter ChannelWriters; ConfigFilter; AcceptRule].

(** [Committer.Isolated] and [Committer.Commit] *)
Definition Isolated (c : Committer) : bool := match c with NoopCommitter => false | ConfigCommitter _ => true end.

Definition Commit (c : Committer) : ST configManager unit :=
  match c with
  | NoopCommitter => mret tt
  | ConfigCommitter configEnvelope => fun cm =>
      match ConfigManager.Apply BeginValueProposals Deserialize PreCommit configEnvelope cm with
      | (cm, Err e) => (cm, Panic ("Could not apply config transaction which should have already been validated: " +:+ e))
      | r => r
      end
  end.

End Filter.
End Filter.

(** ** The configuration and filters of a channel, as the cutter sees them *)

Class ChainConfig (C M : Type) := {
  filters_Apply : Envelope -> ST C M;
  committer_Isolated : M -> bool;
  committer_Commit : M -> ST C unit;
  shared_BatchSize : C -> BatchSize;
  config_Sequence : C -> Z;
  config_of : Envelope -> res C
}.

(** What it promises: filtering leaves the configuration as it is; only an
    isolated message changes it when it is committed, and then it has the next
    sequence number and is the one that is read back from the message. *)
Class ChainConfigSpec (C M : Type) `{ChainConfig C M} := {
  config_ok : C -> Prop;
  Apply_keeps c msg c' r : config_ok c -> filters_Apply msg c = (c', r) ->
    match r with Ok _ | Err _ => c' = c | _ => True end;
  Commit_plain c m : committer_Isolated m = false -> committer_Commit m c = (c, Ok tt);
  Commit_isolated c msg m : config_ok c -> filters_Apply msg c = (c, Ok m) -> committer_Isolated m = true ->
    exists c', committer_Commit m c = (c', Ok tt) /\ config_ok c' /\
      (c' = c \/ config_Sequence c' = wrap64 (config_Sequence c + 1) /\ config_of msg = Ok c')
}.

(** ** blockcutter.go *)

Module BlockCutter.
Section BlockCutter.
Context {C M : Type} `{ChainConfig C M}.

Record receiver := mkReceiver {
  pendingBatch : list Envelope;
  pendingBatchSizeBytes : Z;
  pendingCommitters : list M
}.

Definition NewReceiverImpl : receiver := mkReceiver [] 0 [].

Definition messageSizeBytes (message : Envelope) : Z :=
  wrap32 (Z.of_nat (length (env_Payload message)) + Z.of_nat (length (env_Signature message))).

Definition Cut (r : receiver) : (list Envelope * list M) * receiver :=
  ((pendingBatch r, pendingCommitters r), NewReceiverImpl).

Record ordered := mkOrdered {
  messageBatches : list (list Envelope);
  committerBatches : list (list M);
  validTx : bool;
  pending : bool
}.

Definition invalid : ordered := mkOrdered [] [] false false.

(** The cutter with a message that the filters accepted. *)
Definition place (size : BatchSize) (msg : Envelope) (committer : M) (r : receiver) : ordered * receiver :=
  let sz := messageSizeBytes msg in
  if committer_Isolated committer || (PreferredMaxBytes size <? sz) then
    let '(batches, committers, r) :=
      if (0 <? length (pendingBatch r))%nat
      then let '((b, cs), r) := Cut r in ([b], [cs], r)
      else ([], [], r) in
    (mkOrdered (batches ++ [[msg]]) (committers ++ [[committer]]) true false, r)
  else
    let '(batches, committers, r) :=
      if PreferredMaxBytes size <? wrap32 (pendingBatchSizeBytes r + sz)
      then let '((b, cs), r) := Cut r in ([b], [cs], r)
      else ([], [], r) in
    let r := mkReceiver (pendingBatch r ++ [msg]) (wrap32 (pendingBatchSizeBytes r + sz))
               (pendingCommitters r ++ [committer]) in
    if MaxMessageCount size <=? wrap32 (Z.of_nat (length (pendingBatch r))) then
      let '((b, cs), r) := Cut r in
      (mkOrdered (batches ++ [b]) (committers ++ [cs]) true false, r)
    else (mkOrdered batches committers true true, r).

Definition Ordered (msg : Envelope) : ST (C * receiver) ordered := fun '(c, r) =>
  match filters_Apply msg c with
  | (c, Err _) => ((c, r), Ok invalid)
  | (c, Panic m) => ((c, r), Panic m)
  | (c, OutOfFuel) => ((c, r), OutOfFuel)
  | (c, Ok committer) => let '(o, r) := place (shared_BatchSize c) msg committer r in ((c, r), Ok o)
  end.

End BlockCutter.
Arguments receiver : clear implicits.
Arguments ordered : clear implicits.
End BlockCutter.

(** ** What the cutter does *)

Module CutterFacts.
Import BlockCutter.
Section CutterFacts.
Context {C M : Type} `{ChainConfig C M}.

(** The pending messages have their committers, and none is isolated. *)
Record receiver_ok (r : receiver M) : Prop := {
  ro_len : length (pendingCommitters r) = length (pendingBatch r);
  ro_plain : Forall (fun m => committer_Isolated m = false) (pendingCommitters r);
  ro_size : pendingBatch r = [] -> pendingBatchSizeBytes r = 0
}.

Lemma new_receiver_ok : receiver_ok NewReceiverImpl.
Proof. split; [done|constructor|done]. Qed.

Lemma empty_new r : receiver_ok r -> pendingBatch r = [] -> r = NewReceiverImpl.
Proof.
  intros [Hl _ Hs] He. destruct r as [b s cs]. cbn in *. subst b. rewrite (Hs eq_refl).
  by apply nil_length_inv in Hl as ->.
Qed.

Lemma messageSizeBytes_range msg : 0 <= messageSizeBytes msg < 2 ^ 32.
Proof. by apply Z.mod_pos_bound. Qed.

Lemma wrap32_small z : 0 <= z < 2 ^ 32 -> wrap32 z = z.
Proof. apply Z.mod_small. Qed.

(** The receiver with one more message. *)
Definition enqueue (msg : Envelope) (m : M) (r : receiver M) : receiver M :=
  mkReceiver (pendingBatch r ++ [msg]) (wrap32 (pendingBatchSizeBytes r + messageSizeBytes msg))
    (pendingCommitters r ++ [m]).

Lemma enqueue_ok msg m r : receiver_ok r -> committer_Isolated m = false -> receiver_ok (enqueue msg m r).
Proof.
  intros [Hl Hp _] Hm. split; cbn.
  - by rewrite !length_app, Hl.
  - apply Forall_app. split; [done|]. by constructor.
  - intros E. by apply app_nil in E as [_ ?].
Qed.

(** The four results of placing a message. *)
Inductive placed (msg : Envelope) (m : M) (r : receiver M) : ordered M -> receiver M -> Prop :=
| placed_kept : committer_Isolated m = false ->
    placed msg m r (mkOrdered [] [] true true) (enqueue msg m r)
| placed_one : (committer_Isolated m = false \/ pendingBatch r = []) ->
    placed msg m r (mkOrdered [pendingBatch r ++ [msg]] [pendingCommitters r ++ [m]] true false) NewReceiverImpl
| placed_flushed : committer_Isolated m = false -> pendingBatch r <> [] ->
    placed msg m r (mkOrdered [pendingBatch r] [pendingCommitters r] true true) (enqueue msg m NewReceiverImpl)
| placed_two : pendingBatch r <> [] ->
    placed msg m r (mkOrdered [pendingBatch r; [msg]] [pendingCommitters r; [m]] true false) NewReceiverImpl.

Lemma place_placed size msg m r o r' :
  receiver_ok r -> place size msg m r = (o, r') -> placed msg m r o r'.
Proof.
  intros Hr. unfold place. destruct (committer_Isolated m || _) eqn:Ei.
  - destruct (0 <? length (pendingBatch r))%nat eqn:El; cbn.
    + apply Nat.ltb_lt in El. intros [= <- <-]. apply placed_two. intros E. rewrite E in El. cbn in El. lia.
    + apply Nat.ltb_ge in El. assert (pendingBatch r = []) as E by (destruct (pendingBatch r); [done|cbn in El; lia]).
      pose proof (empty_new r Hr E) as ->. intros [= <- <-]. apply (placed_one msg m NewReceiverImpl). by right.
  - apply orb_false_iff in Ei as [Ei Ep]. destruct (PreferredMaxBytes size <? wrap32 (pendingBatchSizeBytes r + _)) eqn:Eo.
    + assert (pendingBatch r <> []) as Hne.
      { intros E. rewrite (ro_size r Hr E), Z.add_0_l, wrap32_small in Eo by apply messageSizeBytes_range. congruence. }
      cbn [Cut pendingBatch pendingCommitters pendingBatchSizeBytes NewReceiverImpl]. destruct (MaxMessageCount size <=? _).
      * intros [= <- <-]. by apply placed_two.
      * intros [= <- <-]. by apply placed_flushed.
    + cbn [pendingBatch]. destruct (MaxMessageCount size <=? _).
      * intros [= <- <-]. apply placed_one. by left.
      * intros [= <- <-]. by apply placed_kept.
Qed.

Lemma placed_ok msg m r o r' : receiver_ok r -> placed msg m r o r' -> receiver_ok r'.
Proof. intros Hr []; try apply new_receiver_ok; apply enqueue_ok; (done || apply new_receiver_ok). Qed.

(** Placing the message again, in a new receiver, after the pending batch was
    cut. *)
Lemma place_again size msg m r o r' :
  receiver_ok r -> place size msg m r = (o, r') ->
  length (messageBatches o) = 2%nat \/ length (messageBatches o) = 1%nat /\ pending o = true ->
  place size msg m NewReceiverImpl =
    (mkOrdered (tail (messageBatches o)) (tail (committerBatches o)) true (pending o), r').
Proof.
  intros Hr E Hcase. unfold place in *. destruct (committer_Isolated m || _) eqn:Ei.
  - destruct (0 <? length (pendingBatch r))%nat eqn:El; cbn in E.
    + by injection E as <- <-.
    + injection E as <- <-. cbn in Hcase. naive_solver.
  - apply orb_false_iff in Ei as [Ei Ep].
    destruct (PreferredMaxBytes size <? wrap32 (pendingBatchSizeBytes r + _)) eqn:Eo.
    + cbn [Cut pendingBatch pendingCommitters pendingBatchSizeBytes NewReceiverImpl] in *.
      rewrite Z.add_0_l, wrap32_small, Ep by apply messageSizeBytes_range. cbn [pendingBatch app] in *.
      destruct (MaxMessageCount size <=? _) eqn:Em; injection E as <- <-; cbn; f_equal;
        rewrite ?Z.add_0_l, ?wrap32_small by apply messageSizeBytes_range; done.
    + cbn [pendingBatch] in E. destruct (MaxMessageCount size <=? _); injection E as <- <-; cbn in Hcase; naive_solver.
Qed.

End CutterFacts.
End CutterFacts.

(** *** The sizes of the batches *)

Module CutterBounds.
Import BlockCutter CutterFacts.
Section CutterBounds.
Context {C M : Type} `{ChainConfigSpec C M}.

Fixpoint batch_bytes (batch : list Envelope) : Z :=
  match batch with [] => 0 | msg :: batch => messageSizeBytes msg + batch_bytes batch end.

Lemma batch_bytes_app b b' : batch_bytes (b ++ b') = batch_bytes b + batch_bytes b'.
Proof. induction b as [|msg b IH]; cbn; [done|]. rewrite IH. lia. Qed.

(** The pending messages fit into a block. *)
Record fits (size : BatchSize) (r : receiver M) : Prop := {
  fi_bytes : pendingBatchSizeBytes r = batch_bytes (pendingBatch r);
  fi_preferred : batch_bytes (pendingBatch r) <= PreferredMaxBytes size;
  fi_count : Z.of_nat (length (pendingBatch r)) < MaxMessageCount size
}.

(** A batch that is cut when [msg] arrives. *)
Definition good_batch (size : BatchSize) (msg : Envelope) (b : list Envelope) : Prop :=
  b <> [] /\ Z.of_nat (length b) <= MaxMessageCount size /\ (batch_bytes b <= PreferredMaxBytes size \/ b = [msg]).

Definition sane (size : BatchSize) : Prop :=
  1 <= MaxMessageCount size < 2 ^ 32 /\ 0 <= PreferredMaxBytes size < 2 ^ 31.

Lemma fits_good size msg r : fits size r -> pendingBatch r <> [] -> good_batch size msg (pendingBatch r).
Proof. intros [_ Hp Hc] Hne. split; [done|]. split; [lia|by left]. Qed.

Lemma single_good size msg : sane size -> good_batch size msg [msg].
Proof. intros [Hc _]. split; [done|]. split; [cbn; lia|by right]. Qed.

Lemma new_fits size : sane size -> fits size NewReceiverImpl.
Proof. intros [Hc Hp]. split; cbn; [done|lia|lia]. Qed.

Lemma batch_bytes_nonneg b : 0 <= batch_bytes b.
Proof. induction b as [|msg b IH]; cbn; [done|]. pose proof (messageSizeBytes_range msg). lia. Qed.

Lemma place_fits size msg m r o r' :
  sane size -> receiver_ok r -> fits size r -> place size msg m r = (o, r') ->
  fits size r' /\ Forall (good_batch size msg) (messageBatches o).
Proof.
  intros Hs Hr Hf. pose proof Hs as [Hmax Hpref]. pose proof Hf as [Hb Hp Hc].
  pose proof (messageSizeBytes_range msg) as Hsz. pose proof (batch_bytes_nonneg (pendingBatch r)) as Hnn.
  unfold place. destruct (committer_Isolated m || _) eqn:Ei.
  - destruct (0 <? length (pendingBatch r))%nat eqn:El; cbn; intros [= <- <-].
    + apply Nat.ltb_lt in El. split; [by apply new_fits|]. constructor; [|constructor; [by apply single_good|constructor]].
      apply fits_good; [done|]. intros E. rewrite E in El. cbn in El. lia.
    + split; [done|]. constructor; [by apply single_good|constructor].
  - apply orb_false_iff in Ei as [Ei Ep]. apply Z.ltb_ge in Ep.
    rewrite wrap32_small by lia. destruct (PreferredMaxBytes size <? _) eqn:Eo.
    + apply Z.ltb_lt in Eo. cbn [Cut pendingBatch pendingCommitters pendingBatchSizeBytes NewReceiverImpl app length].
      assert (good_batch size msg (pendingBatch r)) as Hg.
      { apply fits_good; [done|]. intros E. rewrite Hb, E in Eo. cbn in Eo. lia. }
      rewrite Z.add_0_l, !wrap32_small by (cbn; lia). destruct (MaxMessageCount size <=? _) eqn:Em; intros [= <- <-].
      * split; [by apply new_fits|]. constructor; [done|]. constructor; [by apply single_good|constructor].
      * apply Z.leb_gt in Em. split; [|constructor; [done|constructor]]. split; cbn in *; lia.
    + apply Z.ltb_ge in Eo. cbn [Cut pendingBatch pendingCommitters pendingBatchSizeBytes NewReceiverImpl app].
      rewrite length_app. cbn [length]. rewrite Nat2Z.inj_add, !wrap32_small by lia.
      assert (batch_bytes (pendingBatch r ++ [msg]) = pendingBatchSizeBytes r + messageSizeBytes msg) as Hb'.
      { rewrite batch_bytes_app, Hb. cbn. lia. }
      destruct (MaxMessageCount size <=? _) eqn:Em; intros [= <- <-].
      * split; [by apply new_fits|]. constructor; [|constructor]. split; [by intros [_ ?]%app_nil|].
        rewrite length_app. cbn [length]. split; [lia|]. left. lia.
      * apply Z.leb_gt in Em. split; [|constructor]. split; cbn [pendingBatch pendingBatchSizeBytes].
        -- done.
        -- lia.
        -- rewrite length_app. cbn. lia.
Qed.

Lemma placed_keeps_order msg m r o r' :
  receiver_ok r -> placed msg m r o r' ->
  validTx o = true /\
  concat (messageBatches o) ++ pendingBatch r' = pendingBatch r ++ [msg] /\
  concat (committerBatches o) ++ pendingCommitters r' = pendingCommitters r ++ [m] /\
  length <$> messageBatches o = length <$> committerBatches o /\
  (pending o = true <-> pendingBatch r' <> []) /\
  (committer_Isolated m = true -> last (messageBatches o) = Some [msg]).
Proof.
  intros [Hl _ _] [Hm|Hm|Hm Hne|Hne]; cbn; rewrite ?app_nil_r, ?length_app, ?Hl; cbn; split_and!; try done.
  - split; [|done]. by intros _ [_ ?]%app_nil.
  - congruence.
  - intros Hi. destruct Hm as [Hm|Hm]; [congruence|]. by rewrite Hm.
  - congruence.
Qed.

End CutterBounds.
End CutterBounds.
