(* ===== verification/OrdererChain.v ===== *)
(** * The chain of a channel at the orderer

    orderer/ledger: the ledger over a block store, its iterators, and the next
    block of a chain.  orderer/multichain/chainsupport.go: signing and writing
    the blocks of a chain, and starting from the last block.
    orderer/multichain/manager.go: the last configuration of a ledger. *)

From stdpp Require Import base gmap strings list.
From Stdlib Require Import Ascii ZArith Lia.
From S2P Require Import Prelude Proto BlockHash BlockMgr KVLedger CAuthDSL Filters.
Import ProtoUtils CommonUtil BlockHash BlockCutter.
Local Open Scope Z_scope.

(** ** Messages *)

Record MetadataSignature := mkMetadataSignature { ms_SignatureHeader : bytes; ms_Signature : bytes }.

Record Metadata := mkMetadata { md_Value : bytes; md_Signatures : list MetadataSignature }.

(** The generated code; [LastConfig] and [KafkaMetadata] have one field.  An
    empty value of a message is nil after unmarshalling. *)
Class OrdererCodec := {
  marshal_Envelope : Envelope -> bytes;
  marshal_SignatureHeader : SignatureHeader -> bytes;
  marshal_Metadata : Metadata -> bytes;
  unmarshal_Metadata : bytes -> res Metadata;
  marshal_LastConfig : Z -> bytes;
  unmarshal_LastConfig : bytes -> res Z;
  marshal_KafkaMetadata : Z -> bytes;
  unmarshal_KafkaMetadata : bytes -> res Z
}.

(** A message that was marshalled is unmarshalled; a message with the default
    values is empty. *)
Class OrdererCodecSpec `{ProtoCodec} `{OrdererCodec} : Prop := {
  Envelope_roundtrip e : unmarshal_Envelope (marshal_Envelope e) = Ok e;
  Metadata_roundtrip m : unmarshal_Metadata (marshal_Metadata m) = Ok m;
  Metadata_empty : unmarshal_Metadata [] = Ok (mkMetadata [] []);
  LastConfig_roundtrip i : 0 <= i < 2 ^ 64 -> unmarshal_LastConfig (marshal_LastConfig i) = Ok i;
  LastConfig_empty : unmarshal_LastConfig [] = Ok 0;
  KafkaMetadata_roundtrip o : - 2 ^ 63 <= o < 2 ^ 63 -> unmarshal_KafkaMetadata (marshal_KafkaMetadata o) = Ok o;
  KafkaMetadata_nil o : marshal_KafkaMetadata o = [] <-> o = 0
}.

(** [crypto.LocalSigner] *)
Class LocalSigner (G : Type) := {
  NewSignatureHeader : ST G SignatureHeader;
  Sign : bytes -> ST G bytes
}.

(** ** ledger/file/impl.go and ledger/util.go *)

Module OrdererLedger.

Inductive SeekPosition := SeekOldest | SeekNewest | SeekSpecified (number : Z) | SeekUnknown.

(** [cb.Status] *)
Inductive Status :=
| UNKNOWN | SUCCESS | BAD_REQUEST | FORBIDDEN | NOT_FOUND | REQUEST_ENTITY_TOO_LARGE | INTERNAL_SERVER_ERROR | SERVICE_UNAVAILABLE.

Inductive ledgerIterator := FileIterator (blockNumber : Z) | NotFoundErrorIterator.

Section OrdererLedger.
Context {B : Type} `{BlockStore B} `{CryptoHash} `{OrdererCodec}.

Definition Height (fl : B) : Z := BlockMgr.Height (GetBlockchainInfo fl).

Definition Iterator (fl : B) (startPosition : SeekPosition) : ledgerIterator * Z :=
  match startPosition with
  | SeekOldest => (FileIterator 0, 0)
  | SeekNewest =>
      let newestBlockNumber := wrap64 (Height fl - 1) in (FileIterator newestBlockNumber, newestBlockNumber)
  | SeekSpecified number => if Height fl <? number then (NotFoundErrorIterator, 0) else (FileIterator number, number)
  | SeekUnknown => (NotFoundErrorIterator, 0)
  end.

(** Whether the channel that [ReadyChan] returns is closed. *)
Definition ready (fl : B) (i : ledgerIterator) : bool :=
  match i with
  | FileIterator blockNumber => negb (wrap64 (Height fl - 1) <? blockNumber)
  | NotFoundErrorIterator => true
  end.

(** [Next]; the result is [None] while the call blocks. *)
Definition Next (fl : B) (i : ledgerIterator) : option (res (ledgerIterator * option Block * Status)) :=
  match i with
  | NotFoundErrorIterator => Some (Ok (i, None, NOT_FOUND))
  | FileIterator blockNumber =>
      if blockNumber <? Height fl then
        Some match RetrieveBlockByNumber fl blockNumber with
             | Ok block => Ok (FileIterator (wrap64 (blockNumber + 1)), Some block, SUCCESS)
             | Err _ => Ok (i, None, SERVICE_UNAVAILABLE)
             | Panic m => Panic m
             | OutOfFuel => OutOfFuel
             end
      else None
  end.

(** [None] while the call blocks. *)
Definition GetBlock (fl : B) (index : Z) : option (res (option Block)) :=
  let '(i, _) := Iterator fl (SeekSpecified index) in
  if ready fl i then
    match Next fl i with
    | None => None
    | Some (Ok (_, block, SUCCESS)) => Some (Ok block)
    | Some (Ok _) => Some (Ok None)
    | Some (Err e) => Some (Err e)
    | Some (Panic m) => Some (Panic m)
    | Some OutOfFuel => Some OutOfFuel
    end
  else Some (Ok None).

(** A call that blocks for ever does not return: [OutOfFuel]. *)
Definition wait {A} (r : option (res A)) : res A := match r with Some r => r | None => OutOfFuel end.

(** The number and the hash for the next block. *)
Definition next_position (rl : B) : res (Z * bytes) :=
  if 0 <? Height rl then
    let '(it, _) := Iterator rl SeekNewest in
    if negb (ready rl it) then OutOfFuel
    else
      '(_, block, status) ← wait (Next rl it);
      match status, block with
      | SUCCESS, Some block =>
          h ← header_Hash (blk_Header block); Ok (wrap64 (Number (blk_Header block) + 1), h)
      | _, _ => Panic "Error seeking to newest block for chain with non-zero height"
      end
  else Ok (0, []).

Definition CreateNextBlock (rl : B) (messages : list Envelope) : res Block :=
  '(nextBlockNumber, previousBlockHash) ← next_position rl;
  let data := marshal_Envelope <$> messages in
  let block := NewBlock nextBlockNumber previousBlockHash in
  dataHash ← data_Hash data;
  Ok (mkBlock (mkBlockHeader nextBlockNumber previousBlockHash dataHash) data (blk_Metadata block)).

Definition Append (block : Block) : ST B unit := AddBlock block.

End OrdererLedger.
End OrdererLedger.
Import OrdererLedger.

(** ** protos/utils/blockutils.go *)

Module BlockMetadataUtils.
Section BlockMetadataUtils.
Context `{ProtoCodec} `{OrdererCodec}.

(** [block.Metadata.Metadata[index]] *)
Definition metadata_at (block : Block) (index : nat) : res bytes :=
  match blk_Metadata block !! index with Some b => Ok b | None => Panic "index out of range" end.

Definition GetMetadataFromBlock (block : Block) (index : nat) : res Metadata :=
  b ← metadata_at block index; unmarshal_Metadata b.

Definition GetLastConfigIndexFromBlock (block : Block) : res Z :=
  md ← GetMetadataFromBlock block LAST_CONFIG;
  unmarshal_LastConfig (md_Value md).

Definition ExtractEnvelope (block : Block) (index : nat) : res Envelope :=
  match blk_Data block !! index with
  | None => Err "Envelope index out of bounds"
  | Some marshaledEnvelope =>
      match GetEnvelopeFromBlock marshaledEnvelope with
      | Err e => Err ("Block data does not carry an envelope at index: " +:+ e)
      | r => r
      end
  end.

Definition set_metadata (index : nat) (v : bytes) (block : Block) : res Block :=
  if (index <? length (blk_Metadata block))%nat
  then Ok (mkBlock (blk_Header block) (blk_Data block) (<[index := v]> (blk_Metadata block)))
  else Panic "index out of range".

End BlockMetadataUtils.
End BlockMetadataUtils.
Import BlockMetadataUtils.

(** ** chainsupport.go *)

Module ChainSupport.
Section ChainSupport.
Context {C M B G : Type} `{ChainConfig C M} `{BlockStore B} `{LocalSigner G}.
Context `{ProtoCodec} `{CryptoHash} `{OrdererCodec}.

Record chainSupport := mkChainSupport {
  cs_config : C;
  cs_ledger : B;
  cs_cutter : receiver M;
  cs_signer : G;
  cs_lastConfig : Z;
  cs_lastConfigSeq : Z
}.

Definition on_config {A} (f : ST C A) : ST chainSupport A := fun cs =>
  let '(c, r) := f (cs_config cs) in
  (mkChainSupport c (cs_ledger cs) (cs_cutter cs) (cs_signer cs) (cs_lastConfig cs) (cs_lastConfigSeq cs), r).

Definition on_ledger {A} (f : ST B A) : ST chainSupport A := fun cs =>
  let '(l, r) := f (cs_ledger cs) in
  (mkChainSupport (cs_config cs) l (cs_cutter cs) (cs_signer cs) (cs_lastConfig cs) (cs_lastConfigSeq cs), r).

Definition on_signer {A} (f : ST G A) : ST chainSupport A := fun cs =>
  let '(g, r) := f (cs_signer cs) in
  (mkChainSupport (cs_config cs) (cs_ledger cs) (cs_cutter cs) g (cs_lastConfig cs) (cs_lastConfigSeq cs), r).

(** [BlockCutter().Ordered] and [BlockCutter().Cut] *)
Definition cutter_Ordered (msg : Envelope) : ST chainSupport (ordered M) := fun cs =>
  let '((c, r), o) := Ordered msg (cs_config cs, cs_cutter cs) in
  (mkChainSupport c (cs_ledger cs) r (cs_signer cs) (cs_lastConfig cs) (cs_lastConfigSeq cs), o).

Definition cutter_Cut : ST chainSupport (list Envelope * list M) := fun cs =>
  let '(b, r) := Cut (cs_cutter cs) in
  (mkChainSupport (cs_config cs) (cs_ledger cs) r (cs_signer cs) (cs_lastConfig cs) (cs_lastConfigSeq cs), Ok b).

Definition cs_CreateNextBlock (messages : list Envelope) : ST chainSupport Block := fun cs =>
  (cs, CreateNextBlock (cs_ledger cs) messages).

(** [NewSignatureHeaderOrPanic] and [SignOrPanic] *)
Definition signatureHeader : ST chainSupport bytes :=
  sh ← on_signer (fun g => let '(g, r) := NewSignatureHeader g in (g, or_panic r));
  mret (marshal_SignatureHeader sh).

Definition sign (msg : bytes) : ST chainSupport bytes :=
  on_signer (fun g => let '(g, r) := Sign msg g in (g, or_panic r)).

Definition addBlockSignature (block : Block) : ST chainSupport Block :=
  hdr ← signatureHeader;
  hb ← st_lift (header_Bytes (blk_Header block));
  sig ← sign (ConcatenateBytes [[]; hdr; hb]);
  st_lift (set_metadata SIGNATURES (marshal_Metadata (mkMetadata [] [mkMetadataSignature hdr sig])) block).

Definition addLastConfigSignature (block : Block) : ST chainSupport Block :=
  st_modify (fun cs =>
    let configSeq := config_Sequence (cs_config cs) in
    if cs_lastConfigSeq cs <? configSeq
    then mkChainSupport (cs_config cs) (cs_ledger cs) (cs_cutter cs) (cs_signer cs) (Number (blk_Header block)) configSeq
    else cs);;
  hdr ← signatureHeader;
  cs ← st_get;
  let lastConfigValue := marshal_LastConfig (cs_lastConfig cs) in
  hb ← st_lift (header_Bytes (blk_Header block));
  sig ← sign (ConcatenateBytes [lastConfigValue; hdr; hb]);
  st_lift (set_metadata LAST_CONFIG
             (marshal_Metadata (mkMetadata lastConfigValue [mkMetadataSignature hdr sig])) block).

Fixpoint commit_all (committers : list M) : ST chainSupport unit :=
  match committers with
  | [] => mret tt
  | committer :: committers => on_config (committer_Commit committer);; commit_all committers
  end.

(** The block as [WriteBlock] appends it. *)
Definition prepare_block (block : Block) (committers : list M) (encodedMetadataValue : option bytes) :
    ST chainSupport Block :=
  commit_all committers;;
  block ← st_lift match encodedMetadataValue with
                  | Some v => set_metadata ORDERER (marshal_Metadata (mkMetadata v [])) block
                  | None => Ok block
                  end;
  block ← addBlockSignature block;
  addLastConfigSignature block.

Definition WriteBlock (block : Block) (committers : list M) (encodedMetadataValue : option bytes) :
    ST chainSupport Block :=
  block ← prepare_block block committers encodedMetadataValue;
  on_ledger (fun l => let '(l, r) := Append block l in (l, or_panic r));;
  mret block.

(** *** Starting from a ledger *)

(** [getConfigTx] of manager.go *)
Definition getConfigTx (reader : B) : res Envelope :=
  lastBlock ← wait (GetBlock reader (wrap64 (Height reader - 1)));
  match lastBlock with
  | None => Panic "nil pointer dereference"
  | Some lastBlock =>
      index ← or_panic (GetLastConfigIndexFromBlock lastBlock);
      configBlock ← wait (GetBlock reader index);
      match configBlock with
      | None => Panic "Config block does not exist"
      | Some configBlock => or_panic (ExtractEnvelope configBlock 0)
      end
  end.

(** [newLedgerResources] and [newChainSupport]: the chain support and the
    orderer metadata that the consenter starts from. *)
Definition newChainSupport (configTx : Envelope) (ledger : B) (signer : G) : res (chainSupport * Metadata) :=
  config ← or_panic (config_of configTx);
  lastBlock ← wait (GetBlock ledger (wrap64 (Height ledger - 1)));
  match lastBlock with
  | None => Panic "nil pointer dereference"
  | Some lastBlock =>
      lastConfig ← (if Number (blk_Header lastBlock) =? 0 then Ok 0
                    else or_panic (GetLastConfigIndexFromBlock lastBlock));
      metadata ← or_panic (GetMetadataFromBlock lastBlock ORDERER);
      Ok (mkChainSupport config ledger NewReceiverImpl signer lastConfig (config_Sequence config), metadata)
  end.

(** The chain of an existing ledger, as [NewManagerImpl] starts it. *)
Definition startChain (ledger : B) (signer : G) : res (chainSupport * Metadata) :=
  configTx ← getConfigTx ledger;
  newChainSupport configTx ledger signer.

Definition cs_Height (cs : chainSupport) : Z := Height (cs_ledger cs).

End ChainSupport.
Arguments chainSupport : clear implicits.
End ChainSupport.
