(* ===== verification/Consensus.v ===== *)
(** * Consenters

    orderer/solo/consensus.go and orderer/kafka/chain.go: turning a sequence of
    messages into the blocks of a chain.  A Kafka partition is a list of
    entries; time-to-cut messages go through it too, so that the orderers of a
    channel cut the same blocks. *)

From stdpp Require Import base gmap strings list.
From Stdlib Require Import Ascii ZArith Lia.
From S2P Require Import Prelude Proto BlockHash BlockMgr KVLedger CAuthDSL Filters OrdererChain.
Import BlockCutter OrdererLedger BlockMetadataUtils ChainSupport.
Local Open Scope Z_scope.

(** ** solo/consensus.go *)

Module Solo.
Section Solo.
Context {C M B G : Type} `{ChainConfig C M} `{BlockStore B} `{LocalSigner G}.
Context `{ProtoCodec} `{CryptoHash} `{OrdererCodec}.

(** The timer is nil or running; a message on [exitChan] ends the loop. *)
Record chain := mkChain { ch_support : chainSupport C M B G; ch_timer : bool; ch_exited : bool }.

Definition newChain (support : chainSupport C M B G) : chain := mkChain support false false.

Definition on_support {A} (f : ST (chainSupport C M B G) A) : ST chain A := fun ch =>
  let '(cs, r) := f (ch_support ch) in (mkChain cs (ch_timer ch) (ch_exited ch), r).

Definition set_timer (t : bool) : ST chain unit :=
  st_modify (fun ch => mkChain (ch_support ch) t (ch_exited ch)).

Fixpoint write_batches (batches : list (list Envelope)) (committers : list (list M)) : ST chain unit :=
  match batches with
  | [] => mret tt
  | batch :: batches =>
      match committers with
      | [] => st_lift (Panic "index out of range")
      | cs :: committers =>
          block ← on_support (cs_CreateNextBlock batch);
          on_support (WriteBlock block cs None);;
          write_batches batches committers
      end
  end.

(** [case msg := <-ch.sendChan] *)
Definition main_message (msg : Envelope) : ST chain unit :=
  o ← on_support (cutter_Ordered msg);
  ch ← st_get;
  if validTx o && (length (messageBatches o) =? 0)%nat && negb (ch_timer ch) then set_timer true
  else
    write_batches (messageBatches o) (committerBatches o);;
    (if (0 <? length (messageBatches o))%nat then set_timer false else mret tt).

(** [case <-timer] *)
Definition main_timer : ST chain unit :=
  set_timer false;;
  '(batch, committers) ← on_support cutter_Cut;
  if (length batch =? 0)%nat then mret tt
  else
    block ← on_support (cs_CreateNextBlock batch);
    on_support (WriteBlock block committers None);;
    mret tt.

(** [case <-ch.exitChan] *)
Definition main_exit : ST chain unit := st_modify (fun ch => mkChain (ch_support ch) (ch_timer ch) true).

End Solo.
Arguments chain : clear implicits.
End Solo.

(** ** kafka/chain.go *)

(** [ab.KafkaMessage]; the type may be unset. *)
Inductive KafkaMessage := KRegular (payload : bytes) | KTimeToCut (blockNumber : Z) | KConnect | KUnset.

Class KafkaCodec := {
  marshal_KafkaMessage : KafkaMessage -> bytes;
  unmarshal_KafkaMessage : bytes -> res KafkaMessage
}.

Class KafkaCodecSpec `{KafkaCodec} : Prop := {
  KafkaMessage_roundtrip m : (forall n, m = KTimeToCut n -> u64 n) -> unmarshal_KafkaMessage (marshal_KafkaMessage m) = Ok m
}.

Module Kafka.
Section Kafka.
Context {C M B G : Type} `{ChainConfig C M} `{BlockStore B} `{LocalSigner G}.
Context `{ProtoCodec} `{CryptoHash} `{OrdererCodec} `{KafkaCodec}.

Record chainImpl := mkChainImpl {
  support : chainSupport C M B G;
  lastOffsetPersisted : Z;
  lastCutBlockNumber : Z;
  timer : bool;
  errored : bool
}.

(** [sarama.OffsetOldest] *)
Definition OffsetOldest : Z := -2.

Definition getLastCutBlockNumber (blockchainHeight : Z) : Z := wrap64 (blockchainHeight - 1).

Definition getLastOffsetPersisted (metadataValue : bytes) : res Z :=
  match metadataValue with
  | [] => Ok (OffsetOldest - 1)
  | _ => match unmarshal_KafkaMetadata metadataValue with
         | Err _ => Panic "Ledger may be corrupted: cannot unmarshal orderer metadata in most recent block"
         | r => r
         end
  end.

Definition newChain (cs : chainSupport C M B G) (lastOffsetPersisted : Z) : chainImpl :=
  mkChainImpl cs lastOffsetPersisted (getLastCutBlockNumber (cs_Height cs)) false true.

(** [HandleChain] of kafka/consenter.go *)
Definition HandleChain (cs : chainSupport C M B G) (metadata : Metadata) : res chainImpl :=
  lastOffsetPersisted ← getLastOffsetPersisted (md_Value metadata);
  Ok (newChain cs lastOffsetPersisted).

Definition on_support {A} (f : ST (chainSupport C M B G) A) : ST chainImpl A := fun ch =>
  let '(cs, r) := f (support ch) in
  (mkChainImpl cs (lastOffsetPersisted ch) (lastCutBlockNumber ch) (timer ch) (errored ch), r).

Definition set_timer (t : bool) : ST chainImpl unit :=
  st_modify (fun ch => mkChainImpl (support ch) (lastOffsetPersisted ch) (lastCutBlockNumber ch) t (errored ch)).

Definition set_errored (e : bool) : ST chainImpl unit :=
  st_modify (fun ch => mkChainImpl (support ch) (lastOffsetPersisted ch) (lastCutBlockNumber ch) (timer ch) e).

Definition count_block : ST chainImpl unit :=
  st_modify (fun ch => mkChainImpl (support ch) (lastOffsetPersisted ch) (wrap64 (lastCutBlockNumber ch + 1))
                         (timer ch) (errored ch)).

(** One block: create, write, count. *)
Definition cut_block (batch : list Envelope) (committers : list M) (offset : Z) : ST chainImpl unit :=
  block ← on_support (cs_CreateNextBlock batch);
  on_support (WriteBlock block committers (Some (marshal_KafkaMetadata offset)));;
  count_block.

Fixpoint write_batches (batches : list (list Envelope)) (committers : list (list M)) (offset : Z) : ST chainImpl unit :=
  match batches with
  | [] => mret tt
  | batch :: batches =>
      match committers with
      | [] => st_lift (Panic "index out of range")
      | cs :: committers => cut_block batch cs offset;; write_batches batches committers (offset + 1)
      end
  end.

Definition first_offset (o : ordered M) (receivedOffset : Z) : Z :=
  if pending o || (length (messageBatches o) =? 2)%nat then receivedOffset - 1 else receivedOffset.

Definition processRegular (payload : bytes) (receivedOffset : Z) : ST chainImpl unit :=
  env ← st_lift match unmarshal_Envelope payload with Err e => Err ("unmarshal/" +:+ e) | r => r end;
  o ← on_support (cutter_Ordered env);
  ch ← st_get;
  if validTx o && (length (messageBatches o) =? 0)%nat && negb (timer ch) then set_timer true
  else
    write_batches (messageBatches o) (committerBatches o) (first_offset o receivedOffset);;
    (if (0 <? length (messageBatches o))%nat then set_timer false else mret tt).

Definition processTimeToCut (ttcNumber : Z) (receivedOffset : Z) : ST chainImpl unit :=
  ch ← st_get;
  let next := wrap64 (lastCutBlockNumber ch + 1) in
  if ttcNumber =? next then
    set_timer false;;
    '(batch, committers) ← on_support cutter_Cut;
    if (length batch =? 0)%nat then
      st_lift (Err "got right time-to-cut message, no pending requests though; this might indicate a bug")
    else cut_block batch committers receivedOffset
  else if next <? ttcNumber then
    st_lift (Err "got larger time-to-cut message than allowed/expected - this might indicate a bug")
  else mret tt.

(** The message that [sendTimeToCut] posts. *)
Definition sendTimeToCut : ST chainImpl bytes :=
  set_timer false;;
  ch ← st_get;
  mret (marshal_KafkaMessage (KTimeToCut (wrap64 (lastCutBlockNumber ch + 1)))).

Inductive outcome := Continue | Exit (err : string).

(** An error of [processTimeToCut] ends the loop, one of [processRegular] is
    counted. *)
Definition consume_ttc (n : Z) (offset : Z) : ST chainImpl outcome := fun ch =>
  match processTimeToCut n offset ch with
  | (ch, Ok _) => (ch, Ok Continue)
  | (ch, Err e) => (ch, Ok (Exit e))
  | (ch, Panic m) => (ch, Panic m)
  | (ch, OutOfFuel) => (ch, OutOfFuel)
  end.

Definition consume_regular (payload : bytes) (offset : Z) : ST chainImpl outcome := fun ch =>
  match processRegular payload offset ch with
  | (ch, Ok _) | (ch, Err _) => (ch, Ok Continue)
  | (ch, Panic m) => (ch, Panic m)
  | (ch, OutOfFuel) => (ch, OutOfFuel)
  end.

(** [case in, ok := <-chain.channelConsumer.Messages()] *)
Definition consume (value : bytes) (offset : Z) : ST chainImpl outcome :=
  set_errored false;;
  match unmarshal_KafkaMessage value with
  | Err _ => mret Continue
  | Panic m => st_lift (Panic m)
  | OutOfFuel => st_lift OutOfFuel
  | Ok (KConnect | KUnset) => mret Continue
  | Ok (KTimeToCut n) => consume_ttc n offset
  | Ok (KRegular payload) => consume_regular payload offset
  end.

(** [case kafkaErr := <-chain.channelConsumer.Errors()]: the consenter is
    marked, and a CONNECT message is posted. *)
Definition consume_error : ST chainImpl bytes :=
  set_errored true;;
  mret (marshal_KafkaMessage KConnect).

(** [Enqueue] posts the marshalled envelope. *)
Definition Enqueue (env : Envelope) : bytes := marshal_KafkaMessage (KRegular (marshal_Envelope env)).

(** [startThread]: the offset that the consumer starts from.  The oldest offset
    of a partition that keeps its messages is 0. *)
Definition start_offset (ch : chainImpl) : Z :=
  let startFrom := lastOffsetPersisted ch + 1 in if startFrom =? OffsetOldest then 0 else startFrom.

(** Starting on an existing ledger. *)
Definition start (ledger : B) (signer : G) : res chainImpl :=
  '(cs, metadata) ← startChain ledger signer;
  HandleChain cs metadata.

End Kafka.
Arguments chainImpl : clear implicits.
End Kafka.
