(* ===== verification/ChainFacts.v ===== *)
(** * What writing a block does

    The functions of OrdererChain.v on a ledger that holds a chain: the next
    block, the block that [WriteBlock] appends, and the state that an orderer
    starts with. *)

From stdpp Require Import base gmap strings list.
From Stdlib Require Import Ascii ZArith Lia.
From S2P Require Import Prelude Proto BlockHash BlockMgr KVLedger CAuthDSL Filters OrdererChain.
Import ProtoUtils CommonUtil BlockHash BlockCutter CutterFacts OrdererLedger BlockMetadataUtils ChainSupport.
Local Open Scope Z_scope.

(** What the orderers of a channel have in common of a block: everything but
    the signatures. *)
Record core := mkCore {
  co_header : BlockHeader;
  co_data : list bytes;
  co_lastConfig : res Z;
  co_orderer : res bytes
}.

Module ChainFacts.
Section ChainFacts.
Context {C M B G : Type} `{ChainConfigSpec C M} `{ProtoCodec} `{!BlockStore B} `{!ChainStoreSpec B} `{LocalSigner G}.
Context `{CryptoHashSpec} `{!OrdererCodec} `{!OrdererCodecSpec}.

Implicit Types cs : chainSupport C M B G.

Definition core_of (b : Block) : core :=
  mkCore (blk_Header b) (blk_Data b) (GetLastConfigIndexFromBlock b)
    (md ← GetMetadataFromBlock b ORDERER; Ok (md_Value md)).

(** The blocks are numbered from 0. *)
Definition numbered (cs : list core) : Prop :=
  forall k c, cs !! k = Some c -> Number (co_header c) = Z.of_nat k.

Definition header_hash (h : BlockHeader) : bytes := match header_Hash h with Ok x => x | _ => [] end.

Lemma header_hash_ok h : Number h < 2 ^ 63 -> header_Hash h = Ok (header_hash h).
Proof.
  intros Hn. unfold header_hash, header_Hash, header_Bytes.
  destruct (2 ^ 63 - 1 <? Number h) eqn:E; [apply Z.ltb_lt in E; lia|]. cbn.
  unfold ComputeSHA256. by rewrite bccsp_Hash_spec.
Qed.

Definition previous_hash (cs : list core) : bytes :=
  match last cs with Some c => header_hash (co_header c) | None => [] end.

Definition data_hash (data : list bytes) : bytes := sha256 (data_Bytes data).

(** The header of the block of [messages] after the chain [cs]. *)
Definition next_header (cs : list core) (messages : list Envelope) : BlockHeader :=
  mkBlockHeader (Z.of_nat (length cs)) (previous_hash cs) (data_hash (marshal_Envelope <$> messages)).

Definition next_block (cs : list core) (messages : list Envelope) : Block :=
  mkBlock (next_header cs messages) (marshal_Envelope <$> messages) (replicate 4 []).

Lemma Height_holds l bs : holds l bs -> Height l = Z.of_nat (length bs).
Proof. apply GetBlockchainInfo_spec. Qed.

Lemma Next_holds l bs k b :
  holds l bs -> bs !! k = Some b ->
  Next l (FileIterator (Z.of_nat k)) = Some (Ok (FileIterator (wrap64 (Z.of_nat k + 1)), Some b, SUCCESS)).
Proof.
  intros Hl Hk. unfold Next. rewrite (Height_holds _ _ Hl). pose proof (lookup_lt_Some _ _ _ Hk).
  rewrite (proj2 (Z.ltb_lt _ _)) by lia. by rewrite (RetrieveBlockByNumber_spec _ _ _ _ Hl Hk).
Qed.

Lemma ready_holds l bs k b : holds l bs -> bs !! k = Some b -> ready l (FileIterator (Z.of_nat k)) = true.
Proof.
  intros Hl Hk. unfold ready. rewrite (Height_holds _ _ Hl). pose proof (lookup_lt_Some _ _ _ Hk).
  pose proof (holds_len _ _ Hl). rewrite wrap64_small by (unfold u64; lia). rewrite (proj2 (Z.ltb_ge _ _)) by lia. done.
Qed.

Lemma GetBlock_holds l bs k b :
  holds l bs -> bs !! k = Some b -> GetBlock l (Z.of_nat k) = Some (Ok (Some b)).
Proof.
  intros Hl Hk. unfold GetBlock, Iterator. rewrite (Height_holds _ _ Hl). pose proof (lookup_lt_Some _ _ _ Hk).
  rewrite (proj2 (Z.ltb_ge _ _)) by lia. by rewrite (ready_holds _ _ _ _ Hl Hk), (Next_holds _ _ _ _ Hl Hk).
Qed.

Lemma newest_index l bs : holds l bs -> bs <> [] -> wrap64 (Height l - 1) = Z.of_nat (length bs - 1).
Proof.
  intros Hl Hne. rewrite (Height_holds _ _ Hl). pose proof (holds_len _ _ Hl).
  destruct bs as [|b bs]; [done|]. rewrite wrap64_small; cbn [length] in *; unfold u64; lia.
Qed.

Lemma next_position_holds l bs :
  holds l bs -> bs <> [] -> numbered (core_of <$> bs) ->
  next_position l = Ok (Z.of_nat (length bs), previous_hash (core_of <$> bs)).
Proof.
  intros Hl Hne Hn. destruct (last bs) as [b|] eqn:Eb; [|by apply last_None in Eb].
  pose proof (holds_len _ _ Hl) as Hlen. assert (0 < length bs)%nat as Hpos by (destruct bs; [done|cbn; lia]).
  unfold next_position. rewrite (Height_holds _ _ Hl), (proj2 (Z.ltb_lt _ _)) by lia. cbn [Iterator].
  rewrite (newest_index _ _ Hl Hne). rewrite last_lookup in Eb. replace (Nat.pred (length bs)) with (length bs - 1)%nat in Eb by lia.
  rewrite (ready_holds _ _ _ _ Hl Eb), (Next_holds _ _ _ _ Hl Eb). cbn [negb wait].
  assert (Number (blk_Header b) = Z.of_nat (length bs - 1)) as Hnum.
  { apply (Hn (length bs - 1)%nat (core_of b)). by rewrite list_lookup_fmap, Eb. }
  rewrite res_ret_bind, header_hash_ok by lia. rewrite res_ret_bind. unfold previous_hash. rewrite fmap_last, last_lookup.
  replace (Nat.pred (length bs)) with (length bs - 1)%nat by lia. rewrite Eb. cbn [fmap option_fmap option_map core_of co_header].
  rewrite Hnum, wrap64_small by (unfold u64; lia). do 2 f_equal. lia.
Qed.

Lemma CreateNextBlock_holds l bs messages :
  holds l bs -> bs <> [] -> numbered (core_of <$> bs) ->
  CreateNextBlock l messages = Ok (next_block (core_of <$> bs) messages).
Proof.
  intros Hl Hne Hn. unfold CreateNextBlock. rewrite (next_position_holds _ _ Hl Hne Hn), res_ret_bind.
  unfold data_Hash, ComputeSHA256. rewrite bccsp_Hash_spec, res_ret_bind.
  unfold next_block, next_header. by rewrite length_fmap.
Qed.

(** *** Writing a block *)

(** The configuration after the committers of a batch. *)
Fixpoint commit_config (ms : list M) (c : C) : res C :=
  match ms with
  | [] => Ok c
  | m :: ms =>
      match committer_Commit m c with
      | (c, Ok _) => commit_config ms c
      | (_, Err e) => Err e
      | (_, Panic p) => Panic p
      | (_, OutOfFuel) => OutOfFuel
      end
  end.

Definition with_config (cs : chainSupport C M B G) (c : C) : chainSupport C M B G :=
  mkChainSupport c (cs_ledger cs) (cs_cutter cs) (cs_signer cs) (cs_lastConfig cs) (cs_lastConfigSeq cs).

Lemma commit_all_inv ms cs cs' :
  commit_all ms cs = (cs', Ok tt) -> exists c, commit_config ms (cs_config cs) = Ok c /\ cs' = with_config cs c.
Proof.
  revert cs. induction ms as [|m ms IH]; intros cs E; cbn [commit_all] in E.
  { injection E as <-. exists (cs_config cs). split; [done|by destruct cs]. }
  apply st_bind_inv in E as (cs1 & [] & E1 & E). unfold on_config in E1. cbn [commit_config].
  destruct (committer_Commit m (cs_config cs)) as [c r]. injection E1 as <- ->.
  destruct (IH _ E) as (c' & Hc & ->). exists c'. by split.
Qed.

Lemma commit_config_plain ms c :
  Forall (fun m => committer_Isolated m = false) ms -> commit_config ms c = Ok c.
Proof. induction 1 as [|m ms Hm _ IH]; cbn; [done|]. by rewrite (Commit_plain _ _ Hm). Qed.

(** The last configuration block after a block with number [n]. *)
Definition last_config (n lastConfig lastSeq : Z) (c : C) : Z :=
  if lastSeq <? config_Sequence c then n else lastConfig.

Lemma signatureHeader_inv cs cs' hdr :
  signatureHeader cs = (cs', Ok hdr) ->
  exists g, cs' = mkChainSupport (cs_config cs) (cs_ledger cs) (cs_cutter cs) g (cs_lastConfig cs) (cs_lastConfigSeq cs).
Proof.
  unfold signatureHeader. intros E. apply st_bind_inv in E as (cs1 & sh & E1 & E). injection E as <- _.
  unfold on_signer in E1. destruct (NewSignatureHeader (cs_signer cs)) as [g r]. injection E1 as <- _. by exists g.
Qed.

Lemma sign_inv msg cs cs' sig :
  sign msg cs = (cs', Ok sig) ->
  exists g, cs' = mkChainSupport (cs_config cs) (cs_ledger cs) (cs_cutter cs) g (cs_lastConfig cs) (cs_lastConfigSeq cs).
Proof.
  unfold sign, on_signer. destruct (Sign msg (cs_signer cs)) as [g r]. intros [= <- _]. by exists g.
Qed.

Lemma set_metadata_inv i v b b' :
  set_metadata i v b = Ok b' ->
  blk_Header b' = blk_Header b /\ blk_Data b' = blk_Data b /\ blk_Metadata b' = <[i := v]> (blk_Metadata b) /\
  (i < length (blk_Metadata b))%nat.
Proof.
  unfold set_metadata. destruct (i <? _)%nat eqn:E; [|done]. apply Nat.ltb_lt in E. by intros [= <-].
Qed.

Lemma addBlockSignature_inv b cs cs' b' :
  addBlockSignature b cs = (cs', Ok b') ->
  (exists g, cs' = mkChainSupport (cs_config cs) (cs_ledger cs) (cs_cutter cs) g (cs_lastConfig cs) (cs_lastConfigSeq cs)) /\
  exists v, set_metadata SIGNATURES v b = Ok b'.
Proof.
  unfold addBlockSignature. intros E. apply st_bind_inv in E as (cs1 & hdr & [g ->]%signatureHeader_inv & E).
  apply st_bind_inv in E as (cs2 & hb & E2 & E). injection E2 as <- _.
  apply st_bind_inv in E as (cs3 & sig & [g' ->]%sign_inv & E). injection E as <- E. split; [by exists g'|by eexists].
Qed.

Lemma addLastConfigSignature_inv b cs cs' b' :
  addLastConfigSignature b cs = (cs', Ok b') ->
  let lc := last_config (Number (blk_Header b)) (cs_lastConfig cs) (cs_lastConfigSeq cs) (cs_config cs) in
  (exists g, cs' = mkChainSupport (cs_config cs) (cs_ledger cs) (cs_cutter cs) g lc
                     (Z.max (cs_lastConfigSeq cs) (config_Sequence (cs_config cs)))) /\
  exists sigs, set_metadata LAST_CONFIG (marshal_Metadata (mkMetadata (marshal_LastConfig lc) sigs)) b = Ok b'.
Proof.
  unfold addLastConfigSignature. intros E. apply st_bind_inv in E as (cs0 & [] & E0 & E). injection E0 as <-.
  apply st_bind_inv in E as (cs1 & hdr & [g ->]%signatureHeader_inv & E).
  apply st_bind_inv in E as (cs2 & cs3 & E2 & E). injection E2 as <- <-.
  apply st_bind_inv in E as (cs2 & hb & E2 & E). injection E2 as <- _.
  apply st_bind_inv in E as (cs3 & sig & [g' ->]%sign_inv & E). injection E as <- E. cbn in *. unfold last_config.
  destruct (_ <? _) eqn:Es; cbn in *.
  - apply Z.ltb_lt in Es. rewrite Z.max_r by lia. split; [by exists g'|by eexists].
  - apply Z.ltb_ge in Es. rewrite Z.max_l by lia. split; [by exists g'|by eexists].
Qed.

(** The state and the block that [WriteBlock] hands to the ledger. *)
Lemma prepare_block_inv b ms v cs cs' b' :
  length (blk_Metadata b) = 4%nat -> 0 <= cs_lastConfig cs < 2 ^ 64 -> 0 <= Number (blk_Header b) < 2 ^ 64 ->
  prepare_block b ms (Some v) cs = (cs', Ok b') ->
  exists c g, commit_config ms (cs_config cs) = Ok c /\
    let lc := last_config (Number (blk_Header b)) (cs_lastConfig cs) (cs_lastConfigSeq cs) c in
    cs' = mkChainSupport c (cs_ledger cs) (cs_cutter cs) g lc (Z.max (cs_lastConfigSeq cs) (config_Sequence c)) /\
    core_of b' = mkCore (blk_Header b) (blk_Data b) (Ok lc) (Ok v).
Proof.
  intros Hlen Hlc Hnum E. unfold prepare_block in E.
  apply st_bind_inv in E as (cs1 & [] & (c & Hc & ->)%commit_all_inv & E).
  apply st_bind_inv in E as (cs2 & b1 & E2 & E). injection E2 as <- Eb1.
  apply st_bind_inv in E as (cs3 & b2 & [[g ->] [v2 Eb2]]%addBlockSignature_inv & E).
  apply addLastConfigSignature_inv in E as [[g' ->] [sigs Eb3]]. cbn in *. exists c, g'. split; [done|].
  apply set_metadata_inv in Eb1 as (Eh1 & D1 & M1 & _), Eb2 as (Eh2 & D2 & M2 & _), Eb3 as (Eh3 & D3 & M3 & _).
  rewrite Eh2, Eh1 in *. split; [done|]. unfold core_of. rewrite Eh3, D3, D2, D1.
  set (lc := last_config _ _ _ _) in *.
  assert (0 <= lc < 2 ^ 64) as Hlcr by (unfold lc, last_config; by destruct (_ <? _)).
  destruct (blk_Metadata b) as [|x0 [|x1 [|x2 [|x3 [|]]]]]; try done. cbn in M1. rewrite M1 in M2. cbn in M2. rewrite M2 in M3.
  cbn in M3. unfold GetLastConfigIndexFromBlock, GetMetadataFromBlock, metadata_at. rewrite M3. cbn.
  rewrite !Metadata_roundtrip. cbn. by rewrite LastConfig_roundtrip.
Qed.

Lemma WriteBlock_inv b ms v cs cs' b' :
  WriteBlock b ms v cs = (cs', Ok b') ->
  exists cs1 l, prepare_block b ms v cs = (cs1, Ok b') /\ AddBlock b' (cs_ledger cs1) = (l, Ok tt) /\
    cs' = mkChainSupport (cs_config cs1) l (cs_cutter cs1) (cs_signer cs1) (cs_lastConfig cs1) (cs_lastConfigSeq cs1).
Proof.
  unfold WriteBlock. intros E. apply st_bind_inv in E as (cs1 & b1 & E1 & E).
  apply st_bind_inv in E as (cs2 & [] & E2 & E). injection E as <- <-. exists cs1.
  unfold on_ledger, Append in E2. destruct (AddBlock b1 (cs_ledger cs1)) as [l r] eqn:Ea. injection E2 as <- Er.
  exists l. split; [done|]. split; [|done]. destruct r as [[]| | |]; try done.
Qed.

(** *** Starting *)

(** The chain [cs] tells the configuration [c], the number [i] of the block it
    is in, and the orderer metadata [v]. *)
Record resumable (cs : list core) (c : C) (i : Z) (v : bytes) : Prop := {
  rs_last : exists k, last cs = Some k /\ co_lastConfig k = Ok i /\ co_orderer k = Ok v;
  rs_config : exists n k d env, i = Z.of_nat n /\ cs !! n = Some k /\ co_data k !! 0%nat = Some d /\
    unmarshal_Envelope d = Ok env /\ config_of env = Ok c;
  rs_genesis : length cs = 1%nat -> i = 0
}.

Lemma startChain_holds l bs (g : G) c i v :
  holds l bs -> numbered (core_of <$> bs) -> resumable (core_of <$> bs) c i v ->
  exists md, startChain l g = Ok (mkChainSupport c l NewReceiverImpl g i (config_Sequence c), md) /\ md_Value md = v.
Proof.
  intros Hl Hn [(k & Hk & Hi & Hv) (n & kn & d & env & -> & Hkn & Hd & Henv & Hc) Hgen].
  rewrite fmap_last in Hk. destruct (last bs) as [b|] eqn:Eb; [|done]. injection Hk as <-.
  assert (bs <> []) as Hne by (intros ->; done). rewrite last_lookup in Eb.
  replace (Nat.pred (length bs)) with (length bs - 1)%nat in Eb by lia.
  rewrite list_lookup_fmap in Hkn. destruct (bs !! n) as [bn|] eqn:Ebn; [|done]. injection Hkn as <-. cbn in *.
  unfold startChain, getConfigTx. rewrite (newest_index _ _ Hl Hne), (GetBlock_holds _ _ _ _ Hl Eb). cbn [wait].
  rewrite res_ret_bind, Hi. cbn [or_panic]. rewrite res_ret_bind, (GetBlock_holds _ _ _ _ Hl Ebn). cbn [wait].
  rewrite res_ret_bind. unfold ExtractEnvelope. rewrite Hd. unfold GetEnvelopeFromBlock. rewrite Henv. cbn [or_panic].
  rewrite res_ret_bind. unfold newChainSupport. rewrite Hc. cbn [or_panic].
  rewrite res_ret_bind, (newest_index _ _ Hl Hne), (GetBlock_holds _ _ _ _ Hl Eb). cbn [wait]. rewrite res_ret_bind.
  assert (Number (blk_Header b) = Z.of_nat (length bs - 1)) as Hnum.
  { apply (Hn (length bs - 1)%nat (core_of b)). by rewrite list_lookup_fmap, Eb. }
  assert ((if Number (blk_Header b) =? 0 then Ok 0 else or_panic (GetLastConfigIndexFromBlock b)) = Ok (Z.of_nat n)) as ->.
  { destruct (Number (blk_Header b) =? 0) eqn:E0; [|by rewrite Hi].
    apply Z.eqb_eq in E0. rewrite length_fmap in Hgen. rewrite Hgen; [done|]. destruct bs; [done|]. cbn in *. lia. }
  rewrite res_ret_bind. apply res_bind_Ok in Hv as (md & Hmd & [= Hv]). rewrite Hmd. cbn [or_panic]. by exists md.
Qed.

End ChainFacts.
End ChainFacts.
