(* ===== verification/KafkaSpec.v ===== *)
(** * The chain that a Kafka partition determines

    An abstract orderer: its state is the chain without the signatures, the
    configuration and the pending batch, and it moves by the entries of the
    partition alone.  The Kafka consenter follows it. *)

From stdpp Require Import base gmap strings list.
From Stdlib Require Import Ascii ZArith Lia.
From S2P Require Import Prelude Proto BlockHash BlockMgr KVLedger CAuthDSL Filters OrdererChain Consensus ChainFacts.
Import BlockCutter CutterFacts OrdererLedger BlockMetadataUtils ChainSupport ChainFacts.
Local Open Scope Z_scope.

Module KafkaSpec.
Section KafkaSpec.
Context {C M : Type} `{ChainConfigSpec C M} `{ProtoCodec}.
Context `{CryptoHashSpec} `{!OrdererCodec} `{!OrdererCodecSpec} `{KafkaCodec}.

Record abs := mkAbs {
  a_chain : list core;
  a_config : C;
  a_cut : receiver M;
  a_last : Z
}.

Definition set_cut (a : abs) (r : receiver M) : abs := mkAbs (a_chain a) (a_config a) r (a_last a).

Definition height (a : abs) : Z := Z.of_nat (length (a_chain a)).

(** ** Steps *)

Definition a_write (batch : list Envelope) (ms : list M) (offset : Z) (a : abs) : res abs :=
  c ← commit_config ms (a_config a);
  let lc := last_config (height a) (a_last a) (config_Sequence (a_config a)) c in
  Ok (mkAbs (a_chain a ++ [mkCore (next_header (a_chain a) batch) (marshal_Envelope <$> batch)
                             (Ok lc) (Ok (marshal_KafkaMetadata offset))]) c (a_cut a) lc).

Fixpoint a_writes (batches : list (list Envelope)) (mss : list (list M)) (offset : Z) (a : abs) : res abs :=
  match batches, mss with
  | [], _ => Ok a
  | _, [] => Panic "index out of range"
  | batch :: batches, ms :: mss => a ← a_write batch ms offset a; a_writes batches mss (offset + 1) a
  end.

(** What the cutter does with an envelope; [None] if the filters reject it. *)
Definition a_ordered (env : Envelope) (a : abs) : res (option (ordered M * receiver M)) :=
  match filters_Apply env (a_config a) with
  | (_, Err _) => Ok None
  | (_, Ok m) => Ok (Some (place (shared_BatchSize (a_config a)) env m (a_cut a)))
  | (_, Panic p) => Panic p
  | (_, OutOfFuel) => OutOfFuel
  end.

Definition a_regular (env : Envelope) (offset : Z) (a : abs) : res abs :=
  o ← a_ordered env a;
  match o with
  | None => Ok a
  | Some (o, r) =>
      a_writes (messageBatches o) (committerBatches o) (Kafka.first_offset o offset) (set_cut a r)
  end.

Definition a_ttc (n : Z) (offset : Z) (a : abs) : res abs :=
  if n =? height a then
    match pendingBatch (a_cut a) with
    | [] => Err "no pending requests"
    | batch => a_write batch (pendingCommitters (a_cut a)) offset (set_cut a NewReceiverImpl)
    end
  else if height a <? n then Err "larger time-to-cut message" else Ok a.

Definition a_step (value : bytes) (offset : Z) (a : abs) : res abs :=
  match unmarshal_KafkaMessage value with
  | Err _ | Ok (KConnect | KUnset) => Ok a
  | Ok (KTimeToCut n) => a_ttc n offset a
  | Ok (KRegular payload) =>
      match unmarshal_Envelope payload with
      | Err _ => Ok a
      | Ok env => a_regular env offset a
      | Panic p => Panic p
      | OutOfFuel => OutOfFuel
      end
  | Panic p => Panic p
  | OutOfFuel => OutOfFuel
  end.

(** The state after the first entries of the partition. *)
Fixpoint a_run (a : abs) (log : list bytes) (k : nat) : res abs :=
  match k with
  | O => Ok a
  | S k =>
      a' ← a_run a log k;
      match log !! k with
      | Some v => a_step v (Z.of_nat k) a'
      | None => Err "end of the partition"
      end
  end.

(** ** Well-formed states *)

Record abs_ok (a : abs) : Prop := {
  ao_config : config_ok (a_config a);
  ao_cut : receiver_ok (a_cut a);
  ao_ne : a_chain a <> [];
  ao_num : numbered (a_chain a);
  ao_seq : 0 <= config_Sequence (a_config a) < 2 ^ 62 + height a;
  ao_res : exists v, resumable (a_chain a) (a_config a) (a_last a) v
}.

(** A batch as the cutter makes it: no isolated message, or one message. *)
Definition cuttable (c : C) (batch : list Envelope) (ms : list M) : Prop :=
  Forall (fun m => committer_Isolated m = false) ms \/
  exists msg m, batch = [msg] /\ ms = [m] /\ filters_Apply msg c = (c, Ok m).

Lemma numbered_snoc cs k : numbered cs -> Number (co_header k) = Z.of_nat (length cs) -> numbered (cs ++ [k]).
Proof.
  intros Hn Hk i c Hi. apply lookup_app_Some in Hi as [Hi|[Hl Hi]]; [by apply Hn|].
  apply list_lookup_singleton_Some in Hi as [Hi <-]. rewrite Hk. lia.
Qed.

Lemma resumable_keep cs c i v k v' :
  resumable cs c i v -> co_lastConfig k = Ok i -> co_orderer k = Ok v' -> cs <> [] -> resumable (cs ++ [k]) c i v'.
Proof.
  intros [_ (n & kn & d & env & Hi & Hk & Hd & He & Hc) _] Hlc Ho Hne. split.
  - exists k. by rewrite last_snoc.
  - exists n, kn, d, env. split; [done|]. split; [by apply lookup_app_l_Some|done].
  - rewrite length_app. cbn. intros Hl. destruct cs; [done|cbn in Hl; lia].
Qed.

Lemma resumable_new cs c k v d env :
  co_lastConfig k = Ok (Z.of_nat (length cs)) -> co_orderer k = Ok v -> co_data k !! 0%nat = Some d ->
  unmarshal_Envelope d = Ok env -> config_of env = Ok c -> cs <> [] ->
  resumable (cs ++ [k]) c (Z.of_nat (length cs)) v.
Proof.
  intros Hlc Ho Hd He Hc Hne. split.
  - exists k. by rewrite last_snoc.
  - exists (length cs), k, d, env. split; [done|]. split; [by apply list_lookup_middle|done].
  - rewrite length_app. cbn. intros Hl. destruct cs; [done|cbn in Hl; lia].
Qed.

(** What committing a batch does to the configuration. *)
Lemma commit_cuttable c batch ms :
  config_ok c -> 0 <= config_Sequence c < 2 ^ 64 - 1 -> cuttable c batch ms ->
  exists c', commit_config ms c = Ok c' /\ config_ok c' /\
    (c' = c \/ config_Sequence c' = config_Sequence c + 1 /\
       exists msg, batch = [msg] /\ config_of msg = Ok c').
Proof.
  intros Hc Hs [Hp|(msg & m & -> & -> & Ha)].
  { exists c. rewrite commit_config_plain by done. auto. }
  destruct (committer_Isolated m) eqn:Ei.
  - destruct (Commit_isolated _ _ _ Hc Ha Ei) as (c' & Hm & Hc' & Hcase). exists c'. cbn. rewrite Hm.
    split; [done|]. split; [done|]. destruct Hcase as [-> |[Hq Hof]]; [by left|right].
    rewrite wrap64_small in Hq by (unfold u64; lia). split; [done|]. by exists msg.
  - exists c. cbn. rewrite (Commit_plain _ _ Ei). auto.
Qed.

Definition plain (ms : list M) : Prop := Forall (fun m => committer_Isolated m = false) ms.

(** The block that is written. *)
Record wrote (batch : list Envelope) (ms : list M) (off : Z) (a a' : abs) : Prop := {
  wr_cut : a_cut a' = a_cut a;
  wr_chain : exists k, a_chain a' = a_chain a ++ [k] /\ co_data k = marshal_Envelope <$> batch;
  wr_plain : plain ms -> a_config a' = a_config a;
  wr_seq : config_Sequence (a_config a) <= config_Sequence (a_config a');
  wr_res : resumable (a_chain a') (a_config a') (a_last a') (marshal_KafkaMetadata off)
}.

Lemma a_write_ok a batch ms off :
  abs_ok a -> height a < 2 ^ 61 -> cuttable (a_config a) batch ms ->
  exists a', a_write batch ms off a = Ok a' /\ abs_ok a' /\ wrote batch ms off a a'.
Proof.
  intros [Hc Hr Hne Hn Hs [v Hv]] Hlen Hcut. unfold height in *.
  destruct (commit_cuttable _ _ _ Hc ltac:(lia) Hcut) as (c' & Hcc & Hc' & Hcase).
  unfold a_write. rewrite Hcc, res_ret_bind. eexists. split; [done|].
  assert (plain ms -> c' = a_config a) as Hplain.
  { intros Hplain. rewrite commit_config_plain in Hcc by done. by injection Hcc as <-. }
  set (lc := last_config _ _ _ _). set (k := mkCore _ _ _ _).
  assert (0 <= config_Sequence c' < 2 ^ 62 + Z.of_nat (length (a_chain a ++ [k])) /\
    config_Sequence (a_config a) <= config_Sequence c' /\
    resumable (a_chain a ++ [k]) c' lc (marshal_KafkaMetadata off)) as (Hs' & Hle & Hres).
  { rewrite length_app. cbn [length]. unfold k, lc, last_config. destruct Hcase as [-> |[Hq (msg & -> & Hof)]].
    - rewrite Z.ltb_irrefl. split; [lia|]. split; [lia|]. by eapply resumable_keep.
    - rewrite Hq, (proj2 (Z.ltb_lt _ _)) by lia. split; [lia|]. split; [lia|].
      eapply resumable_new; [done|done|done|apply Envelope_roundtrip|done|done]. }
  split; split; cbn [a_cut a_chain a_config a_last]; try done.
  - by intros [_ ?]%app_nil.
  - by apply numbered_snoc.
  - by eexists.
  - by eexists.
Qed.

(** ** What a step does *)

Lemma set_cut_ok a r : abs_ok a -> receiver_ok r -> abs_ok (set_cut a r).
Proof. intros [Hc _ Hne Hn Hs Hv] Hr. by split. Qed.

(** The envelope of an entry. *)
Definition entry_env (v : bytes) : option Envelope :=
  match unmarshal_KafkaMessage v with
  | Ok (KRegular payload) => match unmarshal_Envelope payload with Ok env => Some env | _ => None end
  | _ => None
  end.

Definition accepts (a : abs) (env : Envelope) (m : M) : Prop := filters_Apply env (a_config a) = (a_config a, Ok m).

Local Abbreviation batch_of a := (pendingBatch (a_cut a)).
Local Abbreviation committers_of a := (pendingCommitters (a_cut a)).

Inductive advance (v : bytes) (off : Z) (a : abs) : abs -> Prop :=
| ad_none : (forall env m, entry_env v = Some env -> ~ accepts a env m) -> advance v off a a
| ad_kept env m : entry_env v = Some env -> accepts a env m -> committer_Isolated m = false ->
    advance v off a (set_cut a (enqueue env m (a_cut a)))
| ad_one env m a' : entry_env v = Some env -> accepts a env m ->
    (committer_Isolated m = false \/ batch_of a = []) ->
    a_write (batch_of a ++ [env]) (committers_of a ++ [m]) off (set_cut a NewReceiverImpl) = Ok a' ->
    advance v off a a'
| ad_flushed env m a' : entry_env v = Some env -> accepts a env m -> committer_Isolated m = false ->
    batch_of a <> [] ->
    a_ordered env a = Ok (Some (mkOrdered [batch_of a] [committers_of a] true true, enqueue env m NewReceiverImpl)) ->
    a_write (batch_of a) (committers_of a) (off - 1) (set_cut a (enqueue env m NewReceiverImpl)) = Ok a' ->
    advance v off a a'
| ad_two env m a1 a' : entry_env v = Some env -> accepts a env m -> batch_of a <> [] ->
    a_write (batch_of a) (committers_of a) (off - 1) (set_cut a NewReceiverImpl) = Ok a1 ->
    a_write [env] [m] off a1 = Ok a' ->
    advance v off a a'
| ad_ttc a' : unmarshal_KafkaMessage v = Ok (KTimeToCut (height a)) -> batch_of a <> [] ->
    a_write (batch_of a) (committers_of a) off (set_cut a NewReceiverImpl) = Ok a' ->
    advance v off a a'.

Lemma ordered_inv env a o r :
  abs_ok a -> a_ordered env a = Ok (Some (o, r)) ->
  exists m, accepts a env m /\ place (shared_BatchSize (a_config a)) env m (a_cut a) = (o, r).
Proof.
  intros Hok. unfold a_ordered, accepts. destruct (filters_Apply env (a_config a)) as [c x] eqn:E.
  pose proof (Apply_keeps _ _ _ _ (ao_config _ Hok) E) as Hk. destruct x as [m| | |]; try done. subst c.
  intros [= Hp]. by exists m.
Qed.

Lemma ordered_none env a m : a_ordered env a = Ok None -> ~ accepts a env m.
Proof. unfold a_ordered, accepts. intros E Ha. by rewrite Ha in E. Qed.

Lemma a_regular_advance v off env a a' :
  abs_ok a -> entry_env v = Some env -> a_regular env off a = Ok a' -> advance v off a a'.
Proof.
  intros Hok Hv E. unfold a_regular in E. apply res_bind_Ok in E as ([[o r]|] & Eo & E).
  2: { injection E as <-. apply ad_none. intros env' m Hv'. rewrite Hv in Hv'. injection Hv' as <-. by apply ordered_none. }
  destruct (ordered_inv _ _ _ _ Hok Eo) as (m & Ha & Hp). apply place_placed in Hp; [|apply Hok].
  destruct Hp as [Hm|Hm|Hm Hne|Hne]; cbn in E.
  - injection E as <-. by apply (ad_kept v off a env m).
  - apply res_bind_Ok in E as (a1 & E1 & [= <-]). by apply (ad_one v off a env m).
  - apply res_bind_Ok in E as (a1 & E1 & [= <-]). by apply (ad_flushed v off a env m).
  - apply res_bind_Ok in E as (a1 & E1 & E). apply res_bind_Ok in E as (a2 & E2 & [= <-]).
    replace (off - 1 + 1) with off in E2 by lia. by apply (ad_two v off a env m a1).
Qed.

Lemma entry_env_regular v payload env :
  unmarshal_KafkaMessage v = Ok (KRegular payload) -> unmarshal_Envelope payload = Ok env -> entry_env v = Some env.
Proof. unfold entry_env. by intros -> ->. Qed.

Lemma a_step_advance v off a a' : abs_ok a -> a_step v off a = Ok a' -> advance v off a a'.
Proof.
  intros Hok E. unfold a_step in E. destruct (unmarshal_KafkaMessage v) as [[payload|n| |]| | |] eqn:Ev; try done.
  - destruct (unmarshal_Envelope payload) as [env| | |] eqn:Ep; try done.
    + apply (a_regular_advance v off env); [done| |done]. by eapply entry_env_regular.
    + injection E as <-. apply ad_none. intros env m Hv. unfold entry_env in Hv. by rewrite Ev, Ep in Hv.
  - unfold a_ttc in E. destruct (n =? height a) eqn:En.
    + apply Z.eqb_eq in En as ->. destruct (batch_of a) as [|x l] eqn:Eb; [done|]. rewrite <- Eb in E.
      apply ad_ttc; [done|by rewrite Eb|done].
    + destruct (_ <? _); [done|]. injection E as <-. apply ad_none. intros env m Hv. unfold entry_env in Hv. by rewrite Ev in Hv.
  - injection E as <-. apply ad_none. intros env m Hv. unfold entry_env in Hv. by rewrite Ev in Hv.
  - injection E as <-. apply ad_none. intros env m Hv. unfold entry_env in Hv. by rewrite Ev in Hv.
  - injection E as <-. apply ad_none. intros env m Hv. unfold entry_env in Hv. by rewrite Ev in Hv.
Qed.

(** *** The writes of a step succeed *)

Lemma cut_plain a : abs_ok a -> plain (committers_of a).
Proof. intros Hok. apply ro_plain, Hok. Qed.

Lemma one_cuttable a env m :
  abs_ok a -> accepts a env m -> committer_Isolated m = false \/ batch_of a = [] ->
  cuttable (a_config a) (batch_of a ++ [env]) (committers_of a ++ [m]).
Proof.
  intros Hok Ha [Hm|Hb].
  - left. apply Forall_app. split; [by apply cut_plain|]. by constructor.
  - right. exists env, m. rewrite (empty_new _ (ao_cut _ Hok) Hb). done.
Qed.

Lemma flush_ok a r off :
  abs_ok a -> receiver_ok r -> height a < 2 ^ 61 ->
  exists a', a_write (batch_of a) (committers_of a) off (set_cut a r) = Ok a' /\ abs_ok a' /\
    wrote (batch_of a) (committers_of a) off (set_cut a r) a' /\ a_config a' = a_config a.
Proof.
  intros Hok Hr Hh. destruct (a_write_ok (set_cut a r) (batch_of a) (committers_of a) off) as (a' & E & Hok' & Hw).
  - by apply set_cut_ok.
  - done.
  - left. by apply cut_plain.
  - exists a'. split; [done|]. split; [done|]. split; [done|]. apply (wr_plain _ _ _ _ _ Hw), cut_plain, Hok.
Qed.

Lemma wrote_height batch ms off a a' : wrote batch ms off a a' -> height a' = height a + 1.
Proof. intros Hw. destruct (wr_chain _ _ _ _ _ Hw) as (k & E & _). unfold height. rewrite E, length_app. cbn. lia. Qed.

(** A step keeps the chain and, unless it writes, the pending batch. *)
Record grows (a a' : abs) : Prop := {
  gr_ok : abs_ok a';
  gr_chain : a_chain a `prefix_of` a_chain a';
  gr_height : height a' <= height a + 2;
  gr_pending : height a < height a' \/ a_chain a' = a_chain a /\ batch_of a `prefix_of` batch_of a'
}.

Lemma wrote_grows batch ms off a r a' : abs_ok a' -> wrote batch ms off (set_cut a r) a' -> grows a a'.
Proof.
  intros Hok Hw. pose proof (wrote_height _ _ _ _ _ Hw) as Hh. change (height (set_cut a r)) with (height a) in Hh.
  destruct (wr_chain _ _ _ _ _ Hw) as (k & Hk & _). cbn in Hk. split; [done|by eexists|lia|left; lia].
Qed.

Lemma advance_grows v off a a' : abs_ok a -> height a < 2 ^ 61 - 2 -> advance v off a a' -> grows a a'.
Proof.
  intros Hok Hh [Hn|env m Hv Ha Hm|env m a1 Hv Ha Hm E|env m a1 Hv Ha Hm Hne Ho E|env m a1 a2 Hv Ha Hne E1 E2|a1 Hv Hne E].
  - split; [done|done|lia|by right].
  - split; [|done|unfold height; cbn; lia|right; split; [done|by eexists]].
    apply set_cut_ok; [done|]. apply enqueue_ok; [apply Hok|done].
  - destruct (a_write_ok (set_cut a NewReceiverImpl) (batch_of a ++ [env]) (committers_of a ++ [m]) off)
      as (a2 & E' & Hok' & Hw).
    + apply set_cut_ok; [done|apply new_receiver_ok].
    + unfold height in *. cbn. lia.
    + by apply (one_cuttable a).
    + rewrite E in E'. injection E' as <-. by eapply wrote_grows.
  - destruct (flush_ok a (enqueue env m NewReceiverImpl) (off - 1) Hok) as (a2 & E' & Hok' & Hw & _);
      [apply enqueue_ok; [apply new_receiver_ok|done]|lia|]. rewrite E in E'. injection E' as <-. by eapply wrote_grows.
  - destruct (flush_ok a NewReceiverImpl (off - 1) Hok new_receiver_ok ltac:(lia)) as (a3 & E' & Hok' & Hw & Hc).
    rewrite E1 in E'. injection E' as <-. pose proof (wrote_grows _ _ _ _ _ _ Hok' Hw) as [_ Hg1 Hg2 _].
    pose proof (wrote_height _ _ _ _ _ Hw) as Hh1. change (height (set_cut a NewReceiverImpl)) with (height a) in Hh1.
    destruct (a_write_ok a1 [env] [m] off Hok') as (a4 & E' & Hok4 & Hw4); [lia| |].
    { right. exists env, m. split; [done|]. split; [done|]. by rewrite Hc. }
    rewrite E2 in E'. injection E' as <-. pose proof (wrote_height _ _ _ _ _ Hw4) as Hh4.
    destruct (wr_chain _ _ _ _ _ Hw4) as (k & Hk & _). split; [done| |lia|left; lia].
    rewrite Hk. by apply prefix_app_r.
  - destruct (flush_ok a NewReceiverImpl off Hok new_receiver_ok ltac:(lia)) as (a2 & E' & Hok' & Hw & _).
    rewrite E in E'. injection E' as <-. by eapply wrote_grows.
Qed.

(** ** Runs *)

(** The state of a new channel: the genesis block, which has no orderer
    metadata. *)
Record genesis (a : abs) : Prop := {
  ge_ok : abs_ok a;
  ge_cut : a_cut a = NewReceiverImpl;
  ge_height : height a = 1;
  ge_res : resumable (a_chain a) (a_config a) (a_last a) []
}.

(** The partition starts with a CONNECT message and has room for its offsets. *)
Record partition (log : list bytes) : Prop := {
  pa_connect : forall v, log !! 0%nat = Some v -> unmarshal_KafkaMessage v = Ok KConnect;
  pa_len : Z.of_nat (length log) < 2 ^ 59
}.

Section Runs.
Context (a0 : abs) (Hg : genesis a0).

Lemma a_run_app log l k : (k <= length log)%nat -> a_run a0 (log ++ l) k = a_run a0 log k.
Proof.
  induction k as [|k IH]; intros Hk; cbn; [done|]. rewrite IH by lia.
  destruct (a_run a0 log k); cbn; [|done..]. by rewrite lookup_app_l by lia.
Qed.

Lemma a_run_S log k a a' :
  a_run a0 log k = Ok a -> a_run a0 log (S k) = Ok a' -> exists v, log !! k = Some v /\ a_step v (Z.of_nat k) a = Ok a'.
Proof. cbn. intros -> E. cbn in E. destruct (log !! k) as [v|]; [by exists v|done]. Qed.

Lemma a_run_pred log k a' : a_run a0 log (S k) = Ok a' -> exists a, a_run a0 log k = Ok a.
Proof. cbn. destruct (a_run a0 log k) as [a| | |]; [by exists a|done..]. Qed.

Lemma a_run_len log k a : a_run a0 log k = Ok a -> (k <= length log)%nat.
Proof.
  destruct k as [|k]; [lia|]. intros E. destruct (a_run_pred _ _ _ E) as [a1 E1].
  destruct (a_run_S _ _ _ _ E1 E) as (v & Hv & _). apply lookup_lt_Some in Hv. lia.
Qed.

Lemma run_ok log k a :
  partition log -> a_run a0 log k = Ok a -> abs_ok a /\ height a <= 1 + 2 * Z.of_nat k.
Proof.
  intros Hp. revert a. induction k as [|k IH]; intros a E.
  { injection E as <-. split; [apply Hg|]. rewrite (ge_height _ Hg). lia. }
  destruct (a_run_pred _ _ _ E) as [a1 E1]. destruct (IH _ E1) as [Hok Hh].
  destruct (a_run_S _ _ _ _ E1 E) as (v & Hv & Es). pose proof (pa_len _ Hp). apply lookup_lt_Some in Hv.
  apply a_step_advance, advance_grows in Es as [Hok' _ Hh' _]; [|done|lia|done]. split; [done|lia].
Qed.

Lemma run_step log k a a' :
  partition log -> a_run a0 log k = Ok a -> a_run a0 log (S k) = Ok a' ->
  exists v, log !! k = Some v /\ advance v (Z.of_nat k) a a' /\ grows a a'.
Proof.
  intros Hp E E'. destruct (run_ok _ _ _ Hp E) as [Hok Hh]. destruct (a_run_S _ _ _ _ E E') as (v & Hv & Es).
  pose proof (pa_len _ Hp). pose proof (lookup_lt_Some _ _ _ Hv). apply a_step_advance in Es; [|done].
  exists v. split; [done|]. split; [done|]. apply (advance_grows v (Z.of_nat k)); [done|lia|done].
Qed.

Lemma run_mono log j k a b :
  partition log -> (j <= k)%nat -> a_run a0 log j = Ok a -> a_run a0 log k = Ok b ->
  a_chain a `prefix_of` a_chain b /\ height a <= height b /\
  (height a < height b \/ a_chain b = a_chain a /\ batch_of a `prefix_of` batch_of b).
Proof.
  intros Hp Hjk Ea. revert b. induction Hjk as [|k Hjk IH]; intros b Eb.
  { rewrite Ea in Eb. injection Eb as <-. split; [done|]. split; [lia|by right]. }
  destruct (a_run_pred _ _ _ Eb) as [c Ec]. destruct (IH _ Ec) as (P1 & P2 & P3).
  destruct (run_step _ _ _ _ Hp Ec Eb) as (v & _ & _ & [_ G1 _ G2]).
  pose proof (prefix_length _ _ G1) as Gl. unfold height in *. split; [by etrans|]. split; [lia|].
  destruct G2 as [G2|[G2 G3]]; [left; lia|]. destruct P3 as [Hlt|[Hc Hb]]; [left; by rewrite G2|].
  right. split; [congruence|by etrans].
Qed.

(** ** Positions *)

Definition with_cut {A} (f : abs -> A) (r : res abs) : res A := a ← r; Ok (f a).

Lemma a_write_set_cut batch ms off a r :
  a_write batch ms off (set_cut a r) = with_cut (fun a => set_cut a r) (a_write batch ms off a).
Proof. unfold a_write, with_cut. cbn. by destruct (commit_config ms (a_config a)). Qed.

(** The cutter flushed the pending batch before it placed the message. *)
Definition flushes (o : ordered M) : Prop :=
  length (messageBatches o) = 2%nat \/ length (messageBatches o) = 1%nat /\ pending o = true.

(** The state of an orderer that died after it wrote the pending batch and
    before it placed the message at [q]. *)
Definition between (log : list bytes) (q : nat) (b : abs) : Prop :=
  exists a v env o r, a_run a0 log q = Ok a /\ log !! q = Some v /\ entry_env v = Some env /\
    a_ordered env a = Ok (Some (o, r)) /\ flushes o /\
    a_write (batch_of a) (committers_of a) (Z.of_nat q - 1) (set_cut a NewReceiverImpl) = Ok b.

(** The states in which an orderer waits for the entry at [q]. *)
Definition waits (log : list bytes) (q : nat) (b : abs) : Prop := a_run a0 log q = Ok b \/ between log q b.

Lemma a_step_regular v off env a : entry_env v = Some env -> a_step v off a = a_regular env off a.
Proof.
  unfold entry_env, a_step. destruct (unmarshal_KafkaMessage v) as [[payload| | |]| | |]; try done.
  destruct (unmarshal_Envelope payload) as [env'| | |]; try done. by intros [= ->].
Qed.

(** Whichever it is, the entry leads to the same state. *)
Lemma waits_step log q b v :
  partition log -> waits log q b -> log !! q = Some v -> a_run a0 log (S q) = a_step v (Z.of_nat q) b.
Proof.
  intros Hp [Hb|(a & v' & env & o & r & Ha & Hv' & Henv & Ho & Hf & Hw)] Hv.
  { cbn. by rewrite Hb, Hv. }
  rewrite Hv in Hv'. injection Hv' as <-. cbn. rewrite Ha, Hv, res_ret_bind, !(a_step_regular _ _ _ _ Henv).
  destruct (run_ok _ _ _ Hp Ha) as [Hok Hh]. pose proof (pa_len _ Hp). pose proof (lookup_lt_Some _ _ _ Hv).
  destruct (flush_ok a NewReceiverImpl (Z.of_nat q - 1) Hok new_receiver_ok ltac:(lia)) as (b' & Hw' & _ & Hwr & Hcf).
  rewrite Hw in Hw'. injection Hw' as <-. destruct (ordered_inv _ _ _ _ Hok Ho) as (m & Hac & Hpl).
  pose proof (place_again _ _ _ _ _ _ (ao_cut _ Hok) Hpl Hf) as Hag.
  unfold a_regular. rewrite Ho, res_ret_bind. unfold a_ordered. unfold accepts in Hac. rewrite Hcf, Hac.
  rewrite (wr_cut _ _ _ _ _ Hwr). cbn [set_cut a_cut]. rewrite Hag, res_ret_bind. cbn [messageBatches committerBatches].
  apply place_placed in Hpl; [|apply Hok]. unfold flushes in Hf.
  destruct Hpl as [Hm|Hm|Hm Hne|Hne]; cbn in Hf |- *; try naive_solver; rewrite a_write_set_cut in Hw;
    unfold with_cut in Hw; apply res_bind_Ok in Hw as (b1 & Hw & [= <-]); rewrite a_write_set_cut, Hw; cbn.
  - done.
  - replace (Z.of_nat q - 1 + 1) with (Z.of_nat q) by lia. done.
Qed.

(** ** Starting again *)

(** The offset that follows from the orderer metadata of the last block. *)
Definition resumes_at (v : bytes) (q : nat) : Prop :=
  exists o, Kafka.getLastOffsetPersisted v = Ok o /\
    (if o + 1 =? Kafka.OffsetOldest then 0 else o + 1) = Z.of_nat q.

Lemma resumes_nil : resumes_at [] 0.
Proof. by eexists. Qed.

Lemma resumes_offset o q : 0 < o < 2 ^ 60 -> Z.of_nat q = o + 1 -> resumes_at (marshal_KafkaMetadata o) q.
Proof.
  intros Ho Hq. exists o. unfold Kafka.getLastOffsetPersisted. destruct (marshal_KafkaMetadata o) eqn:E.
  { apply KafkaMetadata_nil in E. lia. }
  rewrite <- E, KafkaMetadata_roundtrip by lia. split; [done|].
  rewrite (proj2 (Z.eqb_neq _ _)) by (unfold Kafka.OffsetOldest; lia). done.
Qed.

(** An orderer that starts on the chain of [b] waits in the state [b] for an
    entry. *)
Definition restartable (log : list bytes) (b : abs) : Prop :=
  a_cut b = NewReceiverImpl /\ abs_ok b /\
  exists q v, waits log q b /\ resumable (a_chain b) (a_config b) (a_last b) v /\ resumes_at v q /\
    (q <= length log)%nat.

Lemma run_first log a : partition log -> a_run a0 log 1 = Ok a -> a = a0.
Proof.
  intros Hp E. cbn in E. destruct (log !! 0%nat) as [v|] eqn:Ev; [|done].
  unfold a_step in E. rewrite (pa_connect _ Hp v) in E; [by injection E|done].
Qed.

Lemma pending_after log p a : partition log -> a_run a0 log p = Ok a -> batch_of a <> [] -> (2 <= p)%nat.
Proof.
  intros Hp E Hb. destruct p as [|[|p]]; [|apply run_first in E; [|done]|lia].
  - injection E as <-. by rewrite (ge_cut _ Hg) in Hb.
  - subst a. by rewrite (ge_cut _ Hg) in Hb.
Qed.

Lemma advance_first log p v a a' :
  partition log -> log !! p = Some v -> a_run a0 log p = Ok a -> advance v (Z.of_nat p) a a' -> a_chain a' <> a_chain a ->
  (1 <= p)%nat.
Proof.
  intros Hp Hv Ha Had Hne. destruct p as [|p]; [|lia]. exfalso. pose proof (pa_connect _ Hp v Hv) as Hcon.
  assert (entry_env v = None) as He by (unfold entry_env; by rewrite Hcon).
  destruct Had as [|? ? Hv'|? ? ? Hv'|? ? ? Hv'|? ? ? ? Hv'|? Hv']; try done; congruence.
Qed.

Lemma waits_set_cut log p a : a_run a0 log p = Ok a -> a_cut a = NewReceiverImpl -> waits log p (set_cut a NewReceiverImpl).
Proof. intros E Hc. left. rewrite E. destruct a. cbn in *. by subst. Qed.

(** The last block of the step has the offset of the entry. *)
Lemma restart_written log p v a a' batch ms :
  partition log -> log !! p = Some v -> a_run a0 log (S p) = Ok a' -> abs_ok a' -> (1 <= p)%nat ->
  a_cut a' = NewReceiverImpl -> wrote batch ms (Z.of_nat p) a a' -> restartable log (set_cut a' NewReceiverImpl).
Proof.
  intros Hp Hv E Hok Hp1 Hc Hw. pose proof (pa_len _ Hp). pose proof (lookup_lt_Some _ _ _ Hv).
  split; [done|]. split; [apply set_cut_ok; [done|apply new_receiver_ok]|].
  exists (S p), (marshal_KafkaMetadata (Z.of_nat p)). split; [by apply waits_set_cut|].
  split; [apply (wr_res _ _ _ _ _ Hw)|]. split; [apply resumes_offset; lia|lia].
Qed.

Lemma restart_between log q b : partition log -> between log q b -> restartable log b.
Proof.
  intros Hp Hb. pose proof Hb as (a & v & env & o & r & Ha & Hv & Henv & Ho & Hf & Hw).
  destruct (run_ok _ _ _ Hp Ha) as [Hok Hh]. pose proof (pa_len _ Hp). pose proof (lookup_lt_Some _ _ _ Hv).
  destruct (flush_ok a NewReceiverImpl (Z.of_nat q - 1) Hok new_receiver_ok ltac:(lia)) as (b' & Hw' & Hok' & Hwr & _).
  rewrite Hw in Hw'. injection Hw' as <-.
  assert (batch_of a <> []) as Hne.
  { destruct (ordered_inv _ _ _ _ Hok Ho) as (m & _ & Hpl). apply place_placed in Hpl; [|apply Hok].
    destruct Hpl; cbn in Hf; unfold flushes in Hf; naive_solver. }
  pose proof (pending_after _ _ _ Hp Ha Hne) as Hq.
  split; [apply (wr_cut _ _ _ _ _ Hwr)|]. split; [done|]. exists q, (marshal_KafkaMetadata (Z.of_nat q - 1)).
  split; [by right|]. split; [apply (wr_res _ _ _ _ _ Hwr)|]. split; [apply resumes_offset; lia|lia].
Qed.

Lemma restart_flushed log p v env m a a' :
  partition log -> log !! p = Some v -> a_run a0 log p = Ok a -> entry_env v = Some env ->
  a_ordered env a = Ok (Some (mkOrdered [batch_of a] [committers_of a] true true, enqueue env m NewReceiverImpl)) ->
  a_write (batch_of a) (committers_of a) (Z.of_nat p - 1) (set_cut a (enqueue env m NewReceiverImpl)) = Ok a' ->
  restartable log (set_cut a' NewReceiverImpl).
Proof.
  intros Hp Hv Ha Henv Ho Hw. apply (restart_between _ p); [done|].
  exists a, v, env. do 2 eexists. do 4 (split; [done|]). split; [by right|].
  rewrite a_write_set_cut in *. unfold with_cut in *. apply res_bind_Ok in Hw as (b & Hw & [= <-]). by rewrite Hw.
Qed.

Lemma restart_point log p a : partition log -> a_run a0 log p = Ok a -> restartable log (set_cut a NewReceiverImpl).
Proof.
  intros Hp. revert a. induction p as [|p IH]; intros a E.
  { injection E as <-. split; [done|]. split; [apply set_cut_ok; [apply Hg|apply new_receiver_ok]|].
    exists 0%nat, []. split; [apply waits_set_cut; [done|apply Hg]|].
    split; [apply Hg|]. split; [apply resumes_nil|lia]. }
  destruct (a_run_pred _ _ _ E) as [b Eb]. destruct (run_step _ _ _ _ Hp Eb E) as (v & Hv & Had & Hgr).
  destruct (run_ok _ _ _ Hp Eb) as [Hok Hh]. pose proof (pa_len _ Hp). pose proof (lookup_lt_Some _ _ _ Hv).
  pose proof (advance_first _ _ _ _ _ Hp Hv Eb Had) as Hfirst.
  assert (forall batch ms c r, a_write batch ms (Z.of_nat p) (set_cut c r) = Ok a -> abs_ok (set_cut c r) ->
    height c < 2 ^ 61 -> cuttable (a_config c) batch ms -> r = NewReceiverImpl -> a_chain b `prefix_of` a_chain c ->
    restartable log (set_cut a NewReceiverImpl)) as Hwritten.
  { intros batch ms c r Ew Hokc Hhc Hcut -> Hpre. destruct (a_write_ok _ _ _ (Z.of_nat p) Hokc Hhc Hcut) as (a2 & E2 & Hok2 & Hw).
    rewrite Ew in E2. injection E2 as <-. eapply restart_written; [done|done|done|done| |by rewrite (wr_cut _ _ _ _ _ Hw)|done].
    apply Hfirst. destruct (wr_chain _ _ _ _ _ Hw) as (k & Hk & _). cbn in Hk. rewrite Hk. intros Heq.
    apply prefix_length in Hpre. apply (f_equal length) in Heq. rewrite length_app in Heq. cbn in Heq. lia. }
  destruct Had as [Hn|env m Hv' Ha Hm|env m a1 Hv' Ha Hm E1|env m a1 Hv' Ha Hm Hne Ho E1|env m a1 a2 Hv' Ha Hne E1 E2|a1 Hv' Hne E1].
  - exact (IH _ Eb).
  - exact (IH _ Eb).
  - apply (Hwritten _ _ _ _ E1); [by apply set_cut_ok; [|apply new_receiver_ok]|lia|by apply one_cuttable|done|done].
  - by eapply restart_flushed.
  - destruct (flush_ok b NewReceiverImpl (Z.of_nat p - 1) Hok new_receiver_ok ltac:(lia)) as (a3 & E3 & Hok3 & Hw3 & Hc3).
    rewrite E1 in E3. injection E3 as <-. pose proof (wrote_height _ _ _ _ _ Hw3) as Hh3.
    change (height (set_cut b NewReceiverImpl)) with (height b) in Hh3.
    assert (set_cut a1 NewReceiverImpl = a1) as Hsc.
    { pose proof (wr_cut _ _ _ _ _ Hw3) as Hc1. cbn in Hc1. destruct a1. cbn in *. by subst. }
    apply (Hwritten [env] [m] a1 NewReceiverImpl); [by rewrite Hsc|by rewrite Hsc|lia| |done|].
    + right. exists env, m. rewrite Hc3. done.
    + destruct (wr_chain _ _ _ _ _ Hw3) as (k & Hk & _). cbn in Hk. rewrite Hk. by apply prefix_app_r.
  - apply (Hwritten _ _ _ _ E1); [by apply set_cut_ok; [|apply new_receiver_ok]|lia|left; by apply cut_plain|done|done].
Qed.

End Runs.

End KafkaSpec.
Arguments abs : clear implicits.
End KafkaSpec.
