(* ===== verification/KafkaFollows.v ===== *)
(** * The Kafka consenter follows the partition

    The state of a running orderer represents a state of the abstract orderer
    of KafkaSpec.v: what it does with an entry, and what a crash leaves, is what
    the abstract orderer does. *)

From stdpp Require Import base gmap strings list.
From Stdlib Require Import Ascii ZArith Lia.
From S2P Require Import Prelude Proto BlockHash BlockMgr KVLedger CAuthDSL Filters OrdererChain Consensus ChainFacts KafkaSpec.
Import BlockCutter CutterFacts OrdererLedger BlockMetadataUtils ChainSupport ChainFacts KafkaSpec Kafka.
Local Open Scope Z_scope.

Module KafkaFollows.
Section KafkaFollows.
Context {C M B G : Type} `{ChainConfigSpec C M} `{ProtoCodec} `{!BlockStore B} `{!OrdererStoreSpec B} `{LocalSigner G}.
Context `{CryptoHashSpec} `{!OrdererCodec} `{!OrdererCodecSpec} `{KafkaCodec}.

Local Abbreviation abs := (abs C M).
Local Abbreviation chainImpl := (chainImpl C M B G).
Implicit Types (a : abs) (ch : chainImpl) (cs : chainSupport C M B G).

(** The store of the orderer is within the limits of the machine. *)
Definition in_limits ch : Prop := limits (cs_ledger (support ch)).

Record represents cs a : Prop := {
  re_ledger : exists bs, holds (cs_ledger cs) bs /\ core_of <$> bs = a_chain a;
  re_config : cs_config cs = a_config a;
  re_cut : cs_cutter cs = a_cut a;
  re_last : cs_lastConfig cs = a_last a;
  re_seq : cs_lastConfigSeq cs = config_Sequence (a_config a)
}.

Record follows ch a : Prop := {
  fo_support : represents (support ch) a;
  fo_number : lastCutBlockNumber ch = height a - 1;
  fo_timer : timer ch = true -> pendingBatch (a_cut a) <> []
}.

Lemma last_range a : abs_ok a -> height a < 2 ^ 61 -> 0 <= a_last a < 2 ^ 64.
Proof.
  intros Hok Hh. destruct (ao_res _ Hok) as [v [_ (n & k & d & env & -> & Hk & _) _]].
  apply lookup_lt_Some in Hk. unfold height in Hh. lia.
Qed.

(** *** One block *)

Lemma prepare_represents batch ms off a cs b cs1 b1 :
  abs_ok a -> height a < 2 ^ 61 -> cuttable (a_config a) batch ms -> represents cs a ->
  CreateNextBlock (cs_ledger cs) batch = Ok b ->
  prepare_block b ms (Some (marshal_KafkaMetadata off)) cs = (cs1, Ok b1) ->
  exists a1 bs, a_write batch ms off a = Ok a1 /\ abs_ok a1 /\ wrote batch ms off a a1 /\
    holds (cs_ledger cs) bs /\ core_of <$> bs = a_chain a /\ core_of <$> (bs ++ [b1]) = a_chain a1 /\
    Number (blk_Header b1) = Z.of_nat (length bs) /\ cs_ledger cs1 = cs_ledger cs /\ cs_config cs1 = a_config a1 /\
    cs_cutter cs1 = a_cut a1 /\ cs_lastConfig cs1 = a_last a1 /\ cs_lastConfigSeq cs1 = config_Sequence (a_config a1).
Proof.
  intros Hok Hh Hcut [(bs & Hl & Hbs) Hc Hr Hla Hs] Eb Ep.
  assert (bs <> []) as Hne by (intros ->; by destruct (ao_ne _ Hok)).
  pose proof (ao_num _ Hok) as Hn. rewrite <- Hbs in Hn.
  rewrite (CreateNextBlock_holds _ _ _ Hl Hne Hn) in Eb. injection Eb as <-. rewrite Hbs in Ep.
  pose proof (last_range _ Hok Hh) as Hrange. pose proof (ao_seq _ Hok) as Hseq.
  assert (0 <= Number (blk_Header (next_block (a_chain a) batch)) < 2 ^ 64) as Hnum by (cbn; unfold height in Hh; lia).
  apply prepare_block_inv in Ep as (c & g & Hcc & -> & Hcore); [|done|by rewrite Hla|done].
  destruct (a_write_ok a batch ms off Hok Hh Hcut) as (a1 & Ew & Hok1 & Hw). exists a1, bs.
  split; [done|]. split; [done|]. split; [done|]. split; [done|]. split; [done|].
  pose proof (wr_seq _ _ _ _ _ Hw) as Hle. unfold a_write in Ew. rewrite <- Hc, Hcc in Ew. apply Ok_inj in Ew. subst a1.
  cbn in Hle |- *. rewrite Hla, Hs, Hc in *. split; [by rewrite fmap_app, Hbs; cbn; rewrite Hcore|].
  split; [|split_and!; try done; lia].
  apply (f_equal co_header) in Hcore. cbn in Hcore. rewrite Hcore. cbn. by rewrite <- Hbs, length_fmap.
Qed.

Lemma cut_block_inv batch ms off ch ch' :
  cut_block batch ms off ch = (ch', Ok tt) ->
  exists b cs1 b1 l, CreateNextBlock (cs_ledger (support ch)) batch = Ok b /\
    prepare_block b ms (Some (marshal_KafkaMetadata off)) (support ch) = (cs1, Ok b1) /\
    AddBlock b1 (cs_ledger cs1) = (l, Ok tt) /\
    ch' = mkChainImpl (mkChainSupport (cs_config cs1) l (cs_cutter cs1) (cs_signer cs1) (cs_lastConfig cs1)
                         (cs_lastConfigSeq cs1))
            (lastOffsetPersisted ch) (wrap64 (lastCutBlockNumber ch + 1)) (timer ch) (errored ch).
Proof.
  unfold cut_block. intros E. apply st_bind_inv in E as (ch1 & b & E1 & E).
  unfold on_support in E1. cbn in E1. injection E1 as <- Eb.
  apply st_bind_inv in E as (ch2 & b1 & E2 & E). unfold on_support in E2. cbn in E2.
  destruct (WriteBlock b ms _ (support ch)) as [cs2 r] eqn:Ew. injection E2 as <- ->. injection E as <-.
  apply WriteBlock_inv in Ew as (cs1 & l & Ep & Ea & ->). by exists b, cs1, b1, l.
Qed.

Lemma cut_block_follows batch ms off a ch ch' :
  abs_ok a -> height a < 2 ^ 61 -> cuttable (a_config a) batch ms -> represents (support ch) a ->
  lastCutBlockNumber ch = height a - 1 -> cut_block batch ms off ch = (ch', Ok tt) -> in_limits ch' ->
  exists a', a_write batch ms off a = Ok a' /\ abs_ok a' /\ wrote batch ms off a a' /\
    represents (support ch') a' /\ lastCutBlockNumber ch' = height a' - 1 /\ timer ch' = timer ch.
Proof.
  intros Hok Hh Hcut Hr Hn (b & cs1 & b1 & l & Eb & Ep & Ea & ->)%cut_block_inv Hlim.
  destruct (prepare_represents _ _ _ _ _ _ _ _ Hok Hh Hcut Hr Eb Ep)
    as (a1 & bs & Ew & Hok1 & Hw & Hl & Hbs & Hbs1 & Hnum & El & Ec & Er & Ela & Es).
  rewrite El in Ea. assert (Z.of_nat (length bs) < 2 ^ 61) by (unfold height in Hh; by rewrite <- Hbs, length_fmap in Hh).
  assert (bs <> []) as Hne by (intros ->; by destruct (ao_ne _ Hok)).
  pose proof (AddBlock_took _ _ b1 _ Hl Hne ltac:(lia) Hnum Ea Hlim) as Hl'.
  exists a1. split; [done|]. split; [done|]. split; [done|].
  pose proof (wrote_height _ _ _ _ _ Hw) as Hh1. assert (0 <= height a) by (unfold height; lia).
  cbn. split; [split; cbn; try done; by eexists|]. split; [|done].
  rewrite Hn, wrap64_small; [lia|]. unfold u64. lia.
Qed.

(** Writing a block does not return an error: it panics. *)
Definition no_err {S A} (f : ST S A) : Prop := forall s s' e, f s <> (s', Err e).

Lemma no_err_bind {S A A'} (m : ST S A) (f : A -> ST S A') : no_err m -> (forall x, no_err (f x)) -> no_err (mbind f m).
Proof.
  intros Hm Hf s s' e. unfold mbind, st_bind. specialize (Hm s). destruct (m s) as [s1 [x| | |]]; try done.
  - apply Hf.
  - intros [= <- <-]. by eapply Hm.
Qed.

Lemma no_err_lift {S A} (r : res A) : (forall e, r <> Err e) -> no_err (@st_lift S A r).
Proof. intros Hr s s' e [= _ E]. by apply (Hr e). Qed.

Lemma signatureHeader_no_err : no_err (S := chainSupport C M B G) signatureHeader.
Proof.
  apply no_err_bind; [|done]. intros cs cs' e. unfold on_signer. destruct (NewSignatureHeader (cs_signer cs)) as [g r].
  by destruct r.
Qed.

Lemma sign_no_err msg : no_err (S := chainSupport C M B G) (sign msg).
Proof. intros cs cs' e. unfold sign, on_signer. destruct (Sign msg (cs_signer cs)) as [g r]. by destruct r. Qed.

Lemma set_metadata_no_err i v b e : set_metadata i v b <> Err e.
Proof. unfold set_metadata. by destruct (_ <? _)%nat. Qed.

Lemma header_Bytes_no_err h e : BlockHash.header_Bytes h <> Err e.
Proof. unfold BlockHash.header_Bytes. by destruct (_ <? _). Qed.

Lemma addBlockSignature_no_err b : no_err (S := chainSupport C M B G) (addBlockSignature b).
Proof.
  apply no_err_bind; [apply signatureHeader_no_err|intros hdr]. apply no_err_bind; [apply no_err_lift, header_Bytes_no_err|intros hb].
  apply no_err_bind; [apply sign_no_err|intros sig]. apply no_err_lift, set_metadata_no_err.
Qed.

Lemma addLastConfigSignature_no_err b : no_err (S := chainSupport C M B G) (addLastConfigSignature b).
Proof.
  apply no_err_bind; [done|intros _]. apply no_err_bind; [apply signatureHeader_no_err|intros hdr].
  apply no_err_bind; [done|intros cs]. apply no_err_bind; [apply no_err_lift, header_Bytes_no_err|intros hb].
  apply no_err_bind; [apply sign_no_err|intros sig]. apply no_err_lift, set_metadata_no_err.
Qed.

Lemma commit_all_ok ms cs c : commit_config ms (cs_config cs) = Ok c -> commit_all ms cs = (with_config cs c, Ok tt).
Proof.
  revert cs. induction ms as [|m ms IH]; intros cs E; cbn in *.
  { injection E as <-. by destruct cs. }
  unfold mbind, st_bind, on_config. destruct (committer_Commit m (cs_config cs)) as [c1 [[]| | |]]; try done.
  by rewrite IH.
Qed.

Lemma prepare_no_err b ms v cs cs1 cs' e :
  commit_all ms cs = (cs1, Ok tt) -> prepare_block b ms v cs <> (cs', Err e).
Proof.
  intros Hc. unfold prepare_block. rewrite (st_bind_Ok _ _ _ _ _ Hc). revert cs1 cs' e Hc. intros cs1 cs' e _.
  apply no_err_bind; [|intros b1; apply no_err_bind; [apply addBlockSignature_no_err|intros b2; apply addLastConfigSignature_no_err]].
  apply no_err_lift. intros e'. destruct v; [apply set_metadata_no_err|done].
Qed.

Lemma WriteBlock_no_err b ms v cs cs1 cs' e :
  commit_all ms cs = (cs1, Ok tt) -> WriteBlock b ms v cs <> (cs', Err e).
Proof.
  intros Hc. unfold WriteBlock. pose proof (prepare_no_err b ms v cs cs1) as Hp. unfold mbind, st_bind at 1.
  destruct (prepare_block b ms v cs) as [cs2 [b2| | |]]; try done; [|intros [= <- <-]; by eapply Hp].
  intros E. revert E. apply (no_err_bind (S := chainSupport C M B G)); [|done].
  intros s0 s1 e1. unfold on_ledger. destruct (Append b2 (cs_ledger s0)) as [l r]. by destruct r.
Qed.

Lemma cut_block_no_err batch ms off a ch ch' e :
  abs_ok a -> height a < 2 ^ 61 -> cuttable (a_config a) batch ms -> represents (support ch) a ->
  cut_block batch ms off ch <> (ch', Err e).
Proof.
  intros Hok Hh Hcut [(bs & Hl & Hbs) Hc Hr Hla Hs].
  assert (bs <> []) as Hne by (intros ->; by destruct (ao_ne _ Hok)). pose proof (ao_num _ Hok) as Hn. rewrite <- Hbs in Hn.
  pose proof (ao_seq _ Hok) as Hseq.
  destruct (commit_cuttable _ _ _ (ao_config _ Hok) ltac:(lia) Hcut) as (c & Hcc & _). rewrite <- Hc in Hcc.
  unfold cut_block. rewrite (st_bind_Ok _ _ ch ch (next_block (core_of <$> bs) batch)).
  2: { unfold on_support, cs_CreateNextBlock. rewrite (CreateNextBlock_holds _ _ _ Hl Hne Hn). by destruct ch. }
  pose proof (fun cs' e => WriteBlock_no_err (next_block (core_of <$> bs) batch) ms (Some (marshal_KafkaMetadata off))
    _ _ cs' e (commit_all_ok _ _ _ Hcc)) as Hw.
  unfold mbind, st_bind, on_support.
  destruct (WriteBlock _ ms _ (support ch)) as [cs2 [b2| | |]]; try done. intros [= _ <-]. by eapply Hw.
Qed.

(** *** The limits *)

(** What precedes the append does not touch the ledger. *)
Definition keeps_ledger {A} (m : ST (chainSupport C M B G) A) : Prop := forall cs, cs_ledger (m cs).1 = cs_ledger cs.

Lemma keeps_support_bind {A A'} (m : ST (chainSupport C M B G) A) (f : A -> ST (chainSupport C M B G) A') :
  keeps_ledger m -> (forall x, keeps_ledger (f x)) -> keeps_ledger (mbind f m).
Proof.
  intros Hm Hf cs. unfold mbind, st_bind. specialize (Hm cs). destruct (m cs) as [cs1 [x| | |]]; try done. by rewrite Hf.
Qed.

Lemma keeps_signer {A} (f : ST G A) : keeps_ledger (on_signer f).
Proof. intros cs. unfold on_signer. by destruct (f (cs_signer cs)). Qed.

Lemma keeps_header : keeps_ledger signatureHeader.
Proof. apply keeps_support_bind; [apply keeps_signer|done]. Qed.

Lemma prepare_ledger b ms v : keeps_ledger (prepare_block b ms v).
Proof.
  apply keeps_support_bind; [|intros _; apply keeps_support_bind; [done|intros b1; apply keeps_support_bind; [|intros b2]]].
  - induction ms as [|m ms IH]; [done|]. apply keeps_support_bind; [|done]. intros cs. unfold on_config.
    by destruct (committer_Commit m (cs_config cs)).
  - apply keeps_support_bind; [apply keeps_header|intros hdr]. apply keeps_support_bind; [done|intros hb].
    by apply keeps_support_bind; [apply keeps_signer|].
  - apply keeps_support_bind; [by intros cs; cbn; destruct (_ <? _)|intros _]. apply keeps_support_bind; [apply keeps_header|intros hdr].
    apply keeps_support_bind; [done|intros cs]. apply keeps_support_bind; [done|intros hb]. by apply keeps_support_bind; [apply keeps_signer|].
Qed.

Definition returns {A} (r : res A) : Prop := match r with Ok _ | Err _ => True | _ => False end.

Lemma cut_block_limits batch ms off ch ch' r :
  cut_block batch ms off ch = (ch', r) -> returns r -> in_limits ch' -> in_limits ch.
Proof.
  unfold cut_block. intros E Hr Hl. unfold mbind, st_bind, on_support, cs_CreateNextBlock in E.
  destruct (CreateNextBlock (cs_ledger (support ch)) batch) as [b| | |]; try by injection E as <- <-.
  cbn [support] in E. unfold WriteBlock, mbind, st_bind in E.
  pose proof (prepare_ledger b ms (Some (marshal_KafkaMetadata off)) (support ch)) as Hk.
  destruct (prepare_block b ms _ (support ch)) as [cs1 [b1| | |]]; cbn [fst] in Hk;
    [|injection E as <- <-; unfold in_limits in *; cbn in Hl; congruence..].
  unfold on_ledger, Append in E. destruct (AddBlock b1 (cs_ledger cs1)) as [l x] eqn:Ea.
  destruct x as [[]| | |]; injection E as <- <-; try done. unfold in_limits in *. cbn in Hl.
  rewrite <- Hk. by eapply AddBlock_limits.
Qed.

Lemma write_batches_limits batches mss off ch ch' r :
  write_batches batches mss off ch = (ch', r) -> returns r -> in_limits ch' -> in_limits ch.
Proof.
  revert mss off ch. induction batches as [|batch batches IH]; intros mss off ch E Hr Hl; [by injection E as <- <-|].
  destruct mss as [|ms mss]; [injection E as <- <-; done|]. cbn [write_batches] in E. unfold mbind, st_bind in E.
  destruct (cut_block batch ms off ch) as [ch1 x] eqn:Ec. destruct x as [[]| | |]; try by injection E as <- <-.
  - eapply cut_block_limits; [exact Ec|done|]. by eapply IH.
  - injection E as <- <-. by eapply cut_block_limits.
Qed.

(** *** The batches of a message *)

Fixpoint writable a (batches : list (list Envelope)) (mss : list (list M)) (off : Z) : Prop :=
  match batches, mss with
  | [], _ => True
  | batch :: batches, ms :: mss => cuttable (a_config a) batch ms /\
      forall a1, a_write batch ms off a = Ok a1 -> writable a1 batches mss (off + 1)
  | _, [] => False
  end.

Lemma placed_writable env m a o r off :
  abs_ok a -> height a < 2 ^ 61 -> accepts a env m -> placed env m (a_cut a) o r ->
  writable (set_cut a r) (messageBatches o) (committerBatches o) off.
Proof.
  intros Hok Hh Ha [Hm|Hm|Hm Hne|Hne]; cbn.
  - done.
  - split; [by apply one_cuttable|done].
  - split; [left; by apply cut_plain|done].
  - split; [left; by apply cut_plain|]. intros a1 E1. split; [|done]. right. exists env, m. split; [done|]. split; [done|].
    destruct (flush_ok a NewReceiverImpl off Hok new_receiver_ok Hh) as (a2 & E2 & _ & _ & Hc). rewrite E1 in E2. injection E2 as <-.
    by rewrite Hc.
Qed.

Lemma write_batches_follows batches mss off a ch ch' :
  abs_ok a -> height a + Z.of_nat (length batches) < 2 ^ 61 -> writable a batches mss off ->
  represents (support ch) a -> lastCutBlockNumber ch = height a - 1 ->
  write_batches batches mss off ch = (ch', Ok tt) -> in_limits ch' ->
  exists a', a_writes batches mss off a = Ok a' /\ abs_ok a' /\ a_cut a' = a_cut a /\
    represents (support ch') a' /\ lastCutBlockNumber ch' = height a' - 1 /\ timer ch' = timer ch.
Proof.
  revert mss off a ch. induction batches as [|batch batches IH]; intros mss off a ch Hok Hh Hw Hr Hn E Hlim.
  { injection E as <-. by exists a. }
  destruct mss as [|ms mss]; [done|]. destruct Hw as [Hcut Hw]. cbn [write_batches length] in *.
  apply st_bind_inv in E as (ch1 & [] & E1 & E).
  assert (in_limits ch1) as Hlim1 by (by eapply (write_batches_limits batches mss)).
  destruct (cut_block_follows _ _ _ _ _ _ Hok ltac:(lia) Hcut Hr Hn E1 Hlim1) as (a1 & Ew & Hok1 & Hw1 & Hr1 & Hn1 & Ht1).
  pose proof (wrote_height _ _ _ _ _ Hw1) as Hh1.
  destruct (IH _ _ _ _ Hok1 ltac:(lia) (Hw a1 Ew) Hr1 Hn1 E Hlim) as (a2 & Ew2 & Hok2 & Hc2 & Hr2 & Hn2 & Ht2).
  exists a2. cbn [a_writes]. rewrite Ew, res_ret_bind. split; [done|]. split; [done|].
  split; [by rewrite Hc2, (wr_cut _ _ _ _ _ Hw1)|]. split; [done|]. split; [done|congruence].
Qed.

(** *** Messages *)

Lemma Ordered_represents env a cs cs' o :
  abs_ok a -> represents cs a -> cutter_Ordered env cs = (cs', Ok o) ->
  (a_ordered env a = Ok None /\ o = invalid /\ cs' = cs) \/
  exists r, a_ordered env a = Ok (Some (o, r)) /\ represents cs' (set_cut a r).
Proof.
  intros Hok [Hl Hc Hr Hla Hs]. unfold cutter_Ordered, Ordered, a_ordered. rewrite Hc, Hr.
  destruct (filters_Apply env (a_config a)) as [c x] eqn:Ea. pose proof (Apply_keeps _ _ _ _ (ao_config _ Hok) Ea) as Hk.
  destruct x as [m| | |]; try done; subst c.
  - destruct (place _ env m (a_cut a)) as [o1 r1] eqn:Ep. intros [= <- <-]. right. exists r1. split; [done|].
    by split.
  - intros [= <- <-]. left. split; [done|]. split; [done|]. destruct cs. cbn in *. by subst.
Qed.

Lemma placed_timer env m a o r :
  placed env m (a_cut a) o r -> validTx o = true /\ (messageBatches o = [] -> pendingBatch r <> []) /\
  (length (messageBatches o) <= 2)%nat.
Proof.
  intros []; cbn; split_and!; try done; try lia. by intros _ [_ ?]%app_nil.
Qed.

Lemma processRegular_follows payload env off a ch ch' :
  abs_ok a -> height a < 2 ^ 61 - 2 -> follows ch a -> unmarshal_Envelope payload = Ok env ->
  processRegular payload off ch = (ch', Ok tt) -> in_limits ch' ->
  exists a', a_regular env off a = Ok a' /\ follows ch' a'.
Proof.
  intros Hok Hh [Hr Hn Ht] Hp E Hlim. unfold processRegular in E. apply st_bind_inv in E as (ch0 & env' & E0 & E).
  rewrite Hp in E0. injection E0 as <- <-. apply st_bind_inv in E as (ch1 & o & E1 & E).
  unfold on_support in E1. destruct (cutter_Ordered env (support ch)) as [cs1 ro] eqn:Eo. injection E1 as <- ->.
  apply st_bind_inv in E as (ch2 & ch3 & E2 & E). injection E2 as <- <-. cbn [timer] in E.
  unfold a_regular. destruct (Ordered_represents _ _ _ _ _ Hok Hr Eo) as [(Ho & -> & ->)|(r & Ho & Hr1)].
  { rewrite Ho, res_ret_bind. exists a. split; [done|]. cbn in E. injection E as <-. by split. }
  rewrite Ho, res_ret_bind. destruct (ordered_inv _ _ _ _ Hok Ho) as (m & Ha & Hpl).
  apply place_placed in Hpl; [|apply Hok]. destruct (placed_timer _ _ _ _ _ Hpl) as (Hv & Hpend & Hlen).
  assert (abs_ok (set_cut a r)) as Hokr by (apply set_cut_ok; [done|]; eapply placed_ok; [apply Hok|done]).
  pose proof (placed_writable _ _ _ _ _ (first_offset o off) Hok ltac:(lia) Ha Hpl) as Hw. rewrite Hv in E. cbn [andb] in E.
  destruct (length (messageBatches o) =? 0)%nat eqn:El; cbn [andb] in E.
  - apply Nat.eqb_eq, nil_length_inv in El. rewrite El in *. exists (set_cut a r). split; [done|].
    destruct (negb (timer ch)); cbn in E; injection E as <-; (split; [done|done|]; intros _; by apply Hpend).
  - apply Nat.eqb_neq in El. rewrite (proj2 (Nat.ltb_lt _ _)) in E by lia.
    apply st_bind_inv in E as (ch4 & [] & E4 & E). injection E as <-.
    assert (height (set_cut a r) + Z.of_nat (length (messageBatches o)) < 2 ^ 61) as Hhr
      by (change (height (set_cut a r)) with (height a); lia).
    destruct (write_batches_follows _ _ _ (set_cut a r)
      (mkChainImpl cs1 (lastOffsetPersisted ch) (lastCutBlockNumber ch) (timer ch) (errored ch)) _ Hokr Hhr Hw Hr1 Hn E4 Hlim) as (a' & Ew & _ & _ & Hr' & Hn' & _).
    exists a'. split; [done|]. by split.
Qed.

Lemma write_batches_no_err batches mss off a ch ch' e :
  abs_ok a -> height a + Z.of_nat (length batches) < 2 ^ 61 -> writable a batches mss off ->
  represents (support ch) a -> lastCutBlockNumber ch = height a - 1 ->
  in_limits ch' -> write_batches batches mss off ch <> (ch', Err e).
Proof.
  revert mss off a ch. induction batches as [|batch batches IH]; intros mss off a ch Hok Hh Hw Hr Hn Hlim; [done|].
  destruct mss as [|ms mss]; [done|]. destruct Hw as [Hcut Hw]. cbn [write_batches length] in *.
  unfold mbind, st_bind. destruct (cut_block batch ms off ch) as [ch1 [[]|e1| |]] eqn:Ec; try done.
  - intros E. assert (in_limits ch1) as Hlim1 by (by eapply (write_batches_limits batches mss)). revert E.
    destruct (cut_block_follows _ _ _ _ _ _ Hok ltac:(lia) Hcut Hr Hn Ec Hlim1) as (a1 & Ew & Hok1 & Hw1 & Hr1 & Hn1 & _).
    pose proof (wrote_height _ _ _ _ _ Hw1). apply (IH _ _ a1); [done|lia|by apply Hw|done|done|done].
  - exfalso. revert Ec. apply (cut_block_no_err _ _ _ a); [done|lia|done|done].
Qed.

Lemma processRegular_no_err payload env off a ch ch' e :
  abs_ok a -> height a < 2 ^ 61 - 2 -> follows ch a -> unmarshal_Envelope payload = Ok env ->
  in_limits ch' -> processRegular payload off ch <> (ch', Err e).
Proof.
  intros Hok Hh [Hr Hn Ht] Hp Hlim. unfold processRegular. rewrite Hp. rewrite (st_bind_Ok _ _ ch ch env) by done.
  unfold mbind at 1, st_bind at 1, on_support. destruct (cutter_Ordered env (support ch)) as [cs1 [o|e1| |]] eqn:Eo; try done.
  2: { exfalso. unfold cutter_Ordered, Ordered in Eo. destruct (filters_Apply env (cs_config (support ch))) as [c [m| | |]]; try done.
       by destruct (place _ _ _ _) as [o r]. }
  match goal with |- mbind _ st_get ?c <> _ => rewrite (st_bind_Ok _ st_get c c c) by done end.
  destruct (validTx o && _ && _) eqn:Ev; [done|]. unfold mbind, st_bind.
  destruct (Ordered_represents _ _ _ _ _ Hok Hr Eo) as [(Ho & -> & ->)|(r & Ho & Hr1)]; [done|].
  destruct (ordered_inv _ _ _ _ Hok Ho) as (m & Ha & Hpl). apply place_placed in Hpl; [|apply Hok].
  destruct (placed_timer _ _ _ _ _ Hpl) as (_ & _ & Hlen).
  destruct (write_batches _ _ _ _) as [ch2 [[]|e2| |]] eqn:Ew; try done; [by destruct (_ <? _)%nat|].
  intros [= -> _]. revert Ew. apply (write_batches_no_err _ _ _ (set_cut a r)); [..|done|done|done].
  - apply set_cut_ok; [done|]. eapply placed_ok; [apply Hok|done].
  - change (height (set_cut a r)) with (height a). lia.
  - by apply (placed_writable env m); [|lia|..].
Qed.

Lemma processTimeToCut_follows n off a ch ch' r :
  abs_ok a -> height a < 2 ^ 61 - 2 -> follows ch a -> processTimeToCut n off ch = (ch', r) ->
  match r with
  | Ok _ => in_limits ch' -> exists a', a_ttc n off a = Ok a' /\ follows ch' a'
  | Err _ => exists e, a_ttc n off a = Err e
  | _ => True
  end.
Proof.
  intros Hok Hh [Hr Hn Ht] E. unfold processTimeToCut in E. rewrite (st_bind_Ok _ _ ch ch ch) in E by done.
  assert (0 <= height a) as Hpos by (unfold height; lia).
  rewrite Hn, wrap64_small in E by (unfold u64; lia). replace (height a - 1 + 1) with (height a) in E by lia. unfold a_ttc.
  destruct (n =? height a) eqn:En.
  - rewrite (st_bind_Ok _ _ ch (mkChainImpl (support ch) (lastOffsetPersisted ch) (lastCutBlockNumber ch) false (errored ch)) tt) in E by done.
    set (ch1 := mkChainImpl (mkChainSupport (cs_config (support ch)) (cs_ledger (support ch)) NewReceiverImpl
      (cs_signer (support ch)) (cs_lastConfig (support ch)) (cs_lastConfigSeq (support ch)))
      (lastOffsetPersisted ch) (lastCutBlockNumber ch) false (errored ch) : chainImpl).
    rewrite (st_bind_Ok _ _ _ ch1 (pendingBatch (a_cut a), pendingCommitters (a_cut a))) in E
      by (unfold on_support, cutter_Cut, Cut; cbn; by rewrite (re_cut _ _ Hr)).
    destruct (pendingBatch (a_cut a)) as [|x l] eqn:Eb; [cbn in E; injection E as _ <-; by eexists|].
    rewrite <- Eb in *. replace (length (pendingBatch (a_cut a)) =? 0)%nat with false in E by (by rewrite Eb).
    destruct r as [[]| | |]; try done.
    + intros Hlim. destruct (cut_block_follows (pendingBatch (a_cut a)) (pendingCommitters (a_cut a)) off (set_cut a NewReceiverImpl) ch1 ch')
        as (a' & Ew & _ & _ & Hr' & Hn' & Ht'); [by apply set_cut_ok; [|apply new_receiver_ok]|..|done|done|].
      * change (height (set_cut a NewReceiverImpl)) with (height a). lia.
      * left. by apply cut_plain.
      * destruct Hr. by split.
      * done.
      * exists a'. split; [done|]. split; [done|done|]. rewrite Ht'. done.
    + exfalso. revert E. apply (cut_block_no_err _ _ _ (set_cut a NewReceiverImpl)).
      * by apply set_cut_ok; [|apply new_receiver_ok].
      * change (height (set_cut a NewReceiverImpl)) with (height a). lia.
      * left. by apply cut_plain.
      * destruct Hr. by split.
  - destruct (height a <? n); injection E as <- <-; [by eexists|]. exists a. split; [done|]. by split.
Qed.

Lemma follows_errored ch a e : follows ch a ->
  follows (mkChainImpl (support ch) (lastOffsetPersisted ch) (lastCutBlockNumber ch) (timer ch) e) a.
Proof. intros [Hr Hn Ht]. by split. Qed.

Lemma consume_follows v off a ch ch' out :
  abs_ok a -> height a < 2 ^ 61 - 2 -> follows ch a -> consume v off ch = (ch', Ok out) ->
  match out with
  | Continue => in_limits ch' -> exists a', a_step v off a = Ok a' /\ follows ch' a'
  | Exit _ => exists e, a_step v off a = Err e
  end.
Proof.
  intros Hok Hh Hf E. unfold consume in E. apply st_bind_inv in E as (ch1 & [] & E1 & E). injection E1 as <-.
  pose proof (follows_errored _ _ false Hf) as Hf1. set (ch1 := mkChainImpl _ _ _ _ _) in *. clearbody ch1.
  unfold a_step. destruct (unmarshal_KafkaMessage v) as [[payload|n| |]| | |]; try done.
  - unfold consume_regular in E. destruct (unmarshal_Envelope payload) as [env| | |] eqn:Ep.
    + destruct (processRegular payload off ch1) as [ch2 [[]|e| |]] eqn:Er; try done; injection E as <- <-.
      * intros Hlim. by eapply processRegular_follows.
      * intros Hlim. exfalso. revert Er. by apply (processRegular_no_err _ env _ a).
    + unfold processRegular in E. rewrite Ep in E. cbn in E. injection E as <- <-. by exists a.
    + unfold processRegular in E. by rewrite Ep in E.
    + unfold processRegular in E. by rewrite Ep in E.
  - unfold consume_ttc in E. destruct (processTimeToCut n off ch1) as [ch2 r] eqn:Er.
    pose proof (processTimeToCut_follows _ _ _ _ _ _ Hok Hh Hf1 Er) as Hr. destruct r as [[]|e| |]; try done; by injection E as <- <-.
  - injection E as <- <-. by exists a.
  - injection E as <- <-. by exists a.
  - injection E as <- <-. by exists a.
Qed.

(** *** Crashes *)

(** The store that is left when the process dies while it writes batches: it
    is opened again between two blocks, or after the process died while a block
    was added.  The blocks and the store are within the limits of the machine. *)
Inductive dies : list (list Envelope) -> list (list M) -> Z -> chainImpl -> B -> Prop :=
| di_now batches mss off ch s : reopened (cs_ledger (support ch)) s -> dies batches mss off ch s
| di_write batch batches ms mss off ch b cs1 b1 s :
    CreateNextBlock (cs_ledger (support ch)) batch = Ok b ->
    prepare_block b ms (Some (marshal_KafkaMetadata off)) (support ch) = (cs1, Ok b1) ->
    sized (cs_ledger cs1) b1 -> after_crash b1 (cs_ledger cs1) s -> dies (batch :: batches) (ms :: mss) off ch s
| di_next batch batches ms mss off ch ch1 s :
    cut_block batch ms off ch = (ch1, Ok tt) -> in_limits ch1 -> dies batches mss (off + 1) ch1 s ->
    dies (batch :: batches) (ms :: mss) off ch s.

Definition with_support ch cs : chainImpl :=
  mkChainImpl cs (lastOffsetPersisted ch) (lastCutBlockNumber ch) (timer ch) (errored ch).

(** The process dies at the entry [v]. *)
Inductive crash (v : bytes) (off : Z) ch : B -> Prop :=
| cr_idle s : reopened (cs_ledger (support ch)) s -> crash v off ch s
| cr_regular payload env cs1 o s :
    unmarshal_KafkaMessage v = Ok (KRegular payload) -> unmarshal_Envelope payload = Ok env ->
    cutter_Ordered env (support ch) = (cs1, Ok o) ->
    dies (messageBatches o) (committerBatches o) (first_offset o off) (with_support ch cs1) s -> crash v off ch s
| cr_ttc cs1 batch ms s :
    unmarshal_KafkaMessage v = Ok (KTimeToCut (wrap64 (lastCutBlockNumber ch + 1))) ->
    cutter_Cut (support ch) = (cs1, Ok (batch, ms)) -> batch <> [] ->
    dies [batch] [ms] off (with_support ch cs1) s -> crash v off ch s.

(** The store holds the chain of a state. *)
Definition stores (s : B) a : Prop := exists bs, holds s bs /\ core_of <$> bs = a_chain a.

Lemma dies_stores batches mss off a ch s :
  abs_ok a -> height a + Z.of_nat (length batches) < 2 ^ 61 -> writable a batches mss off ->
  represents (support ch) a -> lastCutBlockNumber ch = height a - 1 -> dies batches mss off ch s ->
  exists k ak, (k <= length batches)%nat /\ a_writes (take k batches) (take k mss) off a = Ok ak /\ stores s ak.
Proof.
  intros Hok Hh Hw Hr Hn Hd. revert a Hok Hh Hw Hr Hn.
  induction Hd as [batches mss off ch s Hs|batch batches ms mss off ch b cs1 b1 s Eb Ep Hsz Hs
    |batch batches ms mss off ch ch1 s Ec Hlim Hd IH]; intros a Hok Hh Hw Hr Hn.
  - exists 0%nat, a. split; [lia|]. split; [done|]. destruct (re_ledger _ _ Hr) as (bs & Hl & Hbs).
    exists bs. split; [by eapply reopened_spec|done].
  - destruct Hw as [Hcut _]. cbn [length] in *.
    destruct (prepare_represents _ _ _ _ _ _ _ _ Hok ltac:(lia) Hcut Hr Eb Ep)
      as (a1 & bs & Ew & _ & _ & Hl & Hbs & Hbs1 & Hnum & El & _).
    assert (Z.of_nat (length bs) < 2 ^ 61) as Hlen by (unfold height in Hh; rewrite <- Hbs, length_fmap in Hh; lia).
    assert (bs <> []) as Hne by (intros ->; by destruct (ao_ne _ Hok)).
    rewrite El in Hs, Hsz. destruct (after_crash_took _ _ _ _ Hl Hne Hlen Hnum Hsz Hs) as [Hh0|Hh1].
    + exists 0%nat, a. split; [lia|]. split; [done|]. by exists bs.
    + exists 1%nat, a1. split; [lia|]. cbn. rewrite Ew. split; [done|]. by eexists.
  - destruct Hw as [Hcut Hw]. cbn [length] in *.
    destruct (cut_block_follows _ _ _ _ _ _ Hok ltac:(lia) Hcut Hr Hn Ec Hlim) as (a1 & Ew & Hok1 & Hw1 & Hr1 & Hn1 & _).
    pose proof (wrote_height _ _ _ _ _ Hw1). destruct (IH a1 Hok1 ltac:(lia) (Hw _ Ew) Hr1 Hn1) as (k & ak & Hk & Ek & Hs).
    exists (S k), ak. split; [lia|]. cbn. rewrite Ew, res_ret_bind. done.
Qed.

Section Restart.
Context (a0 : abs) (Hg : genesis a0) (log : list bytes) (Hp : partition log).

Lemma waits_ok q b : waits a0 log q b -> abs_ok b /\ height b <= 2 + 2 * Z.of_nat q.
Proof.
  intros [Hb|(a & v & env & o & r & Ha & Hv & _ & _ & _ & Hw)].
  { destruct (run_ok a0 Hg _ _ _ Hp Hb). split; [done|lia]. }
  destruct (run_ok a0 Hg _ _ _ Hp Ha) as [Hok Hh]. pose proof (pa_len _ Hp). apply lookup_lt_Some in Hv.
  destruct (flush_ok a NewReceiverImpl (Z.of_nat q - 1) Hok new_receiver_ok ltac:(lia)) as (b' & Hw' & Hok' & Hwr & _).
  rewrite Hw in Hw'. injection Hw' as <-. split; [done|]. apply wrote_height in Hwr.
  change (height (set_cut a NewReceiverImpl)) with (height a) in Hwr. lia.
Qed.

Lemma stores_waits q b s : waits a0 log q b -> stores s b -> exists b', restartable a0 log b' /\ stores s b'.
Proof.
  intros [Hb|Hb] Hs.
  - exists (set_cut b NewReceiverImpl). split; [by eapply restart_point|done].
  - exists b. split; [by eapply restart_between|done].
Qed.

Lemma stores_next q v b s a' :
  waits a0 log q b -> log !! q = Some v -> a_step v (Z.of_nat q) b = Ok a' -> stores s a' ->
  exists b', restartable a0 log b' /\ stores s b'.
Proof.
  intros Hw Hv Hs Hst. apply (stores_waits (S q) a'); [|done]. left. by rewrite (waits_step a0 Hg log q b v Hp Hw Hv).
Qed.

(** After [k] of the batches of a message were written. *)
Lemma regular_restartable q v env b o r m k ak s :
  waits a0 log q b -> log !! q = Some v -> entry_env v = Some env -> abs_ok b ->
  a_ordered env b = Ok (Some (o, r)) -> placed env m (a_cut b) o r ->
  (k <= length (messageBatches o))%nat ->
  a_writes (take k (messageBatches o)) (take k (committerBatches o)) (first_offset o (Z.of_nat q)) (set_cut b r) = Ok ak ->
  stores s ak -> exists b', restartable a0 log b' /\ stores s b'.
Proof.
  intros Hw Hv Henv Hok Ho Hpl Hk Ek Hs.
  destruct k as [|k]; [by injection Ek as <-; apply (stores_waits q b)|].
  assert (S k = length (messageBatches o) \/ length (messageBatches o) = 2%nat /\ k = 0%nat) as [Hall|[Htwo ->]].
  { destruct (placed_timer _ _ _ _ _ Hpl) as (_ & _ & Hlen). lia. }
  - apply (stores_next q v b _ ak); [done|done| |done]. rewrite (a_step_regular _ _ _ _ Henv). unfold a_regular.
    rewrite Ho, res_ret_bind. rewrite !take_ge in Ek; [done| |lia].
    destruct Hpl; cbn in *; lia.
  - destruct Hw as [Hb|(a & v' & env' & o' & r' & Ha & Hv' & _ & _ & _ & Hwb)].
    + apply (stores_waits q ak); [|done]. right. exists b, v, env, o, r. split_and!; try done; [by left|].
      destruct Hpl; try done. cbn in Ek. by apply res_bind_Ok in Ek as (a1 & Ek & [= <-]).
    + exfalso. assert (a_cut b = NewReceiverImpl) as Hcut.
      { destruct (run_ok a0 Hg _ _ _ Hp Ha) as [Hoka Hha]. pose proof (pa_len _ Hp). apply lookup_lt_Some in Hv'.
        destruct (flush_ok a NewReceiverImpl (Z.of_nat q - 1) Hoka new_receiver_ok ltac:(lia)) as (b' & Hw' & _ & Hwr & _).
        rewrite Hwb in Hw'. injection Hw' as <-. apply (wr_cut _ _ _ _ _ Hwr). }
      rewrite Hcut in Hpl. by destruct Hpl.
Qed.

(** What a crash at the entry that the orderer waits for leaves. *)
Lemma crash_restartable q v b ch s :
  waits a0 log q b -> log !! q = Some v -> follows ch b -> crash v (Z.of_nat q) ch s ->
  exists b', restartable a0 log b' /\ stores s b'.
Proof.
  intros Hw Hv [Hr Hn Ht] Hc. destruct (waits_ok _ _ Hw) as [Hok Hh]. pose proof (pa_len _ Hp).
  pose proof (lookup_lt_Some _ _ _ Hv) as Hlt.
  destruct Hc as [s Hs|payload env cs1 o s Em Ep Eo Hd|cs1 batch ms s Em Ec Hne Hd].
  - apply (stores_waits q b); [done|]. destruct (re_ledger _ _ Hr) as (bs & Hl & Hbs). exists bs.
    split; [by eapply reopened_spec|done].
  - assert (entry_env v = Some env) as Henv by (by eapply entry_env_regular).
    destruct (Ordered_represents _ _ _ _ _ Hok Hr Eo) as [(Ho & -> & ->)|(r & Ho & Hr1)].
    { inversion Hd; subst. apply (stores_waits q b); [done|]. destruct (re_ledger _ _ Hr) as (bs & Hl & Hbs).
      exists bs. split; [by eapply reopened_spec|done]. }
    destruct (ordered_inv _ _ _ _ Hok Ho) as (m & Ha & Hpl). apply place_placed in Hpl; [|apply Hok].
    destruct (placed_timer _ _ _ _ _ Hpl) as (_ & _ & Hlen).
    assert (abs_ok (set_cut b r)) as Hokr by (apply set_cut_ok; [done|]; eapply placed_ok; [apply Hok|done]).
    assert (height (set_cut b r) + Z.of_nat (length (messageBatches o)) < 2 ^ 61) as Hhr
      by (change (height (set_cut b r)) with (height b); lia).
    pose proof (placed_writable _ _ _ _ _ (first_offset o (Z.of_nat q)) Hok ltac:(lia) Ha Hpl) as Hwr.
    destruct (dies_stores _ _ _ (set_cut b r) (with_support ch cs1) _ Hokr Hhr Hwr Hr1 Hn Hd) as (k & ak & Hk & Ek & Hs).
    by apply (regular_restartable q v env b o r m k ak).
  - unfold cutter_Cut, Cut in Ec. injection Ec as <- <- <-. rewrite (re_cut _ _ Hr) in *.
    assert (0 <= height b) by (unfold height; lia). rewrite Hn, wrap64_small in Em by (unfold u64; lia).
    replace (height b - 1 + 1) with (height b) in Em by lia.
    eapply (dies_stores _ _ _ (set_cut b NewReceiverImpl)) in Hd as (k & ak & Hk & Ek & Hs).
    + destruct k as [|[|k]]; [|..]; [by injection Ek as <-; apply (stores_waits q b)| |cbn in Hk; lia].
      apply (stores_next q v b _ ak); [done|done| |done]. unfold a_step. rewrite Em. unfold a_ttc. rewrite Z.eqb_refl.
      cbn in Ek. apply res_bind_Ok in Ek as (a1 & Ek & [= <-]). by destruct (pendingBatch (a_cut b)).
    + by apply set_cut_ok; [|apply new_receiver_ok].
    + change (height (set_cut b NewReceiverImpl)) with (height b). cbn. lia.
    + split; [left; by apply cut_plain|done].
    + destruct Hr. by split.
    + done.
Qed.

(** Starting on the chain of a state that allows it. *)
Lemma start_follows b s (g : G) :
  restartable a0 log b -> stores s b ->
  exists ch q, start s g = Ok ch /\ start_offset ch = Z.of_nat q /\ waits a0 log q b /\ follows ch b.
Proof.
  intros (Hcut & Hok & q & v & Hw & Hres & (o & Ho & Hq) & Hlen) (bs & Hl & Hbs).
  destruct (waits_ok _ _ Hw) as [_ Hh]. pose proof (pa_len _ Hp). pose proof (ao_num _ Hok) as Hn.
  assert (height b <> 0) as Hne by (unfold height; destruct (a_chain b) eqn:E; [by destruct (ao_ne _ Hok)|cbn; lia]).
  assert (0 <= height b) as Hpos by (unfold height; lia).
  rewrite <- Hbs in Hres, Hn. destruct (startChain_holds _ _ g _ _ _ Hl Hn Hres) as (md & Es & Hv).
  unfold start, HandleChain. rewrite Es. cbn. rewrite Hv, Ho, res_ret_bind. eexists _, q. split; [done|].
  split; [done|]. split; [done|]. split; cbn; [| |done].
  - split; cbn; try done. by eexists.
  - unfold getLastCutBlockNumber, cs_Height. cbn. rewrite (Height_holds _ _ Hl).
    assert (Z.of_nat (length bs) = height b) as -> by (unfold height; by rewrite <- Hbs, length_fmap).
    apply wrap64_small. unfold u64. lia.
Qed.

End Restart.

End KafkaFollows.
End KafkaFollows.
