(* ===== verification/KafkaSystem.v ===== *)
(** * Orderers on one Kafka partition

    The orderers of a channel: each has its own chain and its own position in
    the partition, they post to the partition and consume from it in any
    order, their timers fire, and they die and start again.  The blocks that
    they write are the blocks that the partition determines. *)

From stdpp Require Import base gmap strings list relations.
From Stdlib Require Import Ascii ZArith Lia.
From S2P Require Import Prelude Proto BlockHash BlockMgr KVLedger CAuthDSL Filters OrdererChain Consensus ChainFacts KafkaSpec KafkaFollows.
Import BlockCutter CutterFacts OrdererLedger BlockMetadataUtils ChainSupport ChainFacts KafkaSpec Kafka KafkaFollows.
Local Open Scope Z_scope.

(** ** The messages that the partition orders *)

Module KafkaContent.
Section KafkaContent.
Context {C M : Type} `{ChainConfigSpec C M} `{ProtoCodec}.
Context `{CryptoHashSpec} `{!OrdererCodec} `{!OrdererCodecSpec} `{KafkaCodec}.

Local Abbreviation abs := (abs C M).
Implicit Types (a : abs).

(** The entry at a position is an envelope that the filters accept. *)
Definition admitted a (v : bytes) : list Envelope :=
  match entry_env v with
  | Some env => match snd (filters_Apply env (a_config a)) with Ok _ => [env] | _ => [] end
  | None => []
  end.

Fixpoint accepted a0 (log : list bytes) (k : nat) : list Envelope :=
  match k with
  | O => []
  | S k =>
      accepted a0 log k ++
      match a_run a0 log k, log !! k with Ok a, Some v => admitted a v | _, _ => [] end
  end.

(** What the blocks hold, and the pending batch. *)
Definition block_data a : list bytes := concat (co_data <$> a_chain a).
Definition content a : list bytes := block_data a ++ (marshal_Envelope <$> pendingBatch (a_cut a)).

Lemma a_write_data batch ms off a a' :
  a_write batch ms off a = Ok a' ->
  block_data a' = block_data a ++ (marshal_Envelope <$> batch) /\ a_cut a' = a_cut a.
Proof.
  unfold a_write. intros E. apply res_bind_Ok in E as (c & _ & [= <-]). unfold block_data. cbn.
  rewrite fmap_app, concat_app. cbn. by rewrite app_nil_r.
Qed.

Lemma accepts_admitted a v env m : entry_env v = Some env -> accepts a env m -> admitted a v = [env].
Proof. unfold accepts, admitted. intros -> Ha. by rewrite Ha. Qed.

Lemma rejects_admitted a v :
  abs_ok a -> (forall env m, entry_env v = Some env -> ~ accepts a env m) -> admitted a v = [].
Proof.
  intros Hok Hn. unfold admitted. destruct (entry_env v) as [env|]; [|done].
  destruct (filters_Apply env (a_config a)) as [c x] eqn:E. destruct x as [m| | |]; try done.
  exfalso. pose proof (Apply_keeps _ _ _ _ (ao_config _ Hok) E) as Hk. cbn in Hk. subst c. by apply (Hn env m).
Qed.

(** A step neither loses nor repeats a message. *)
Lemma advance_content v off a a' :
  abs_ok a -> advance v off a a' -> content a' = content a ++ (marshal_Envelope <$> admitted a v).
Proof.
  intros Hok [Hn|env m Hv Ha Hm|env m a1 Hv Ha Hm E|env m a1 Hv Ha Hm Hne Ho E|env m a1 a2 Hv Ha Hne E1 E2|a1 Hv Hne E];
    unfold content.
  - rewrite (rejects_admitted _ _ Hok Hn). by rewrite app_nil_r.
  - rewrite (accepts_admitted _ _ _ _ Hv Ha). cbn. by rewrite fmap_app, (assoc_L (++)).
  - apply a_write_data in E as [-> ->]. rewrite (accepts_admitted _ _ _ _ Hv Ha). cbn.
    by rewrite fmap_app, app_nil_r, (assoc_L (++)).
  - apply a_write_data in E as [-> ->]. by rewrite (accepts_admitted _ _ _ _ Hv Ha).
  - apply a_write_data in E1 as [D1 C1]. apply a_write_data in E2 as [-> ->].
    rewrite D1, C1, (accepts_admitted _ _ _ _ Hv Ha). cbn. by rewrite app_nil_r.
  - apply a_write_data in E as [-> ->]. cbn. rewrite app_nil_r.
    unfold admitted, entry_env. rewrite Hv. by rewrite app_nil_r.
Qed.

Lemma run_content a0 log k a :
  genesis a0 -> partition log -> a_run a0 log k = Ok a ->
  content a = content a0 ++ (marshal_Envelope <$> accepted a0 log k).
Proof.
  intros Hg Hp. revert a. induction k as [|k IH]; intros a E.
  { injection E as <-. cbn. by rewrite app_nil_r. }
  destruct (a_run_pred _ _ _ _ E) as [b Eb]. destruct (run_step _ Hg _ _ _ _ Hp Eb E) as (v & Hv & Had & _).
  destruct (run_ok _ Hg _ _ _ Hp Eb) as [Hok _]. rewrite (advance_content _ _ _ _ Hok Had), (IH _ Eb).
  cbn [accepted]. rewrite Eb, Hv, fmap_app. by rewrite (assoc_L (++)).
Qed.

(** The same for an orderer that waits for the entry at [q]. *)
Lemma waits_content a0 log q b :
  genesis a0 -> partition log -> waits a0 log q b ->
  content b = content a0 ++ (marshal_Envelope <$> accepted a0 log q).
Proof.
  intros Hg Hp [E|(a & v & env & o & r & Ha & _ & _ & _ & _ & Hw)]; [by apply run_content|].
  rewrite <- (run_content a0 log q a) by done. apply a_write_data in Hw as [D Hc]. unfold content. rewrite D, Hc.
  cbn. by rewrite app_nil_r.
Qed.

(** *** The blocks are linked *)

Definition linked (cs : list core) : Prop :=
  forall k c c', cs !! k = Some c -> cs !! S k = Some c' ->
    PreviousHash (co_header c') = header_hash (co_header c) /\ DataHash (co_header c') = data_hash (co_data c').

Lemma linked_snoc cs k :
  linked cs -> PreviousHash (co_header k) = previous_hash cs -> DataHash (co_header k) = data_hash (co_data k) ->
  linked (cs ++ [k]).
Proof.
  intros Hl Hp Hd n c c' Hc Hc'. apply lookup_app_Some in Hc' as [Hc'|[Hn Hc']].
  - apply (Hl n c c'); [|done]. apply lookup_lt_Some in Hc'. by rewrite lookup_app_l in Hc by lia.
  - apply list_lookup_singleton_Some in Hc' as [Hn' <-]. rewrite Hp, Hd. split; [|done].
    unfold previous_hash. rewrite last_lookup. replace (Nat.pred (length cs)) with n by lia.
    rewrite lookup_app_l in Hc by lia. by rewrite Hc.
Qed.

Lemma a_write_linked batch ms off a a' : linked (a_chain a) -> a_write batch ms off a = Ok a' -> linked (a_chain a').
Proof. intros Hl E. unfold a_write in E. apply res_bind_Ok in E as (c & _ & [= <-]). by apply linked_snoc. Qed.

Lemma advance_linked v off a a' : linked (a_chain a) -> advance v off a a' -> linked (a_chain a').
Proof.
  assert (forall r batch ms o a', linked (a_chain a) -> a_write batch ms o (set_cut a r) = Ok a' -> linked (a_chain a')) as Hw.
  { intros r batch ms o b Hl. by apply a_write_linked. }
  intros Hl []; eauto using a_write_linked.
Qed.

Lemma run_linked a0 log k a : genesis a0 -> partition log -> a_run a0 log k = Ok a -> linked (a_chain a).
Proof.
  intros Hg Hp. revert a. induction k as [|k IH]; intros a E.
  { injection E as <-. pose proof (ge_height _ Hg) as Hh. unfold height in Hh. intros k c c' _ Hc.
    apply lookup_lt_Some in Hc. lia. }
  destruct (a_run_pred _ _ _ _ E) as [b Eb]. destruct (run_step _ Hg _ _ _ _ Hp Eb E) as (v & _ & Had & _).
  by eapply advance_linked; [apply IH|].
Qed.

Lemma waits_linked a0 log q b : genesis a0 -> partition log -> waits a0 log q b -> linked (a_chain b).
Proof.
  intros Hg Hp [E|(a & v & env & o & r & Ha & _ & _ & _ & _ & Hw)]; [by eapply run_linked|].
  apply a_write_linked in Hw; [done|]. exact (run_linked a0 log q a Hg Hp Ha).
Qed.

(** *** The chains of two positions *)

Lemma waits_run a0 log q b : genesis a0 -> partition log -> waits a0 log q b ->
  exists a, a_run a0 log q = Ok a /\ a_chain a `prefix_of` a_chain b.
Proof.
  intros Hg Hp [E|(a & v & env & o & r & Ha & _ & _ & _ & _ & Hw)]; [by exists b|]. exists a. split; [done|].
  unfold a_write in Hw. apply res_bind_Ok in Hw as (c & _ & [= <-]). by apply prefix_app_r.
Qed.

Lemma between_fun a0 log q b b' : between a0 log q b -> between a0 log q b' -> b = b'.
Proof.
  intros (a & v & env & o & r & Ha & _ & _ & _ & _ & Hw) (a' & v' & env' & o' & r' & Ha' & _ & _ & _ & _ & Hw').
  rewrite Ha in Ha'. injection Ha' as <-. rewrite Hw in Hw'. by injection Hw'.
Qed.

Lemma waits_same a0 log q b b' : genesis a0 -> partition log -> waits a0 log q b -> waits a0 log q b' ->
  a_chain b `prefix_of` a_chain b' \/ a_chain b' `prefix_of` a_chain b.
Proof.
  intros Hg Hp Hb Hb'. destruct (waits_run _ _ _ _ Hg Hp Hb) as (a & Ha & P). destruct (waits_run _ _ _ _ Hg Hp Hb') as (a' & Ha' & P').
  rewrite Ha in Ha'. injection Ha' as <-. destruct Hb as [Hb|Hb]; [rewrite Ha in Hb; injection Hb as <-; by left|].
  destruct Hb' as [Hb'|Hb']; [rewrite Ha in Hb'; injection Hb' as <-; by right|].
  by rewrite (between_fun _ _ _ _ _ Hb Hb'); left.
Qed.

Lemma run_between a0 log j k a : a_run a0 log k = Ok a -> (j <= k)%nat -> exists b, a_run a0 log j = Ok b.
Proof.
  intros E Hjk. revert a E. induction Hjk as [|k Hjk IH]; intros a E; [by exists a|].
  destruct (a_run_pred _ _ _ _ E) as [c Ec]. by apply (IH c).
Qed.

Lemma waits_ok_chain a0 log q b :
  genesis a0 -> partition log -> (q < length log)%nat -> waits a0 log q b ->
  forall a', a_run a0 log (S q) = Ok a' -> a_chain b `prefix_of` a_chain a'.
Proof.
  intros Hg Hp Hq Hw a' E. destruct (lookup_lt_is_Some_2 log q Hq) as [v Hv].
  rewrite (waits_step _ Hg _ _ _ _ Hp Hw Hv) in E. pose proof (pa_len _ Hp).
  destruct Hw as [Ha|(a & v' & env & o & r & Ha & _ & _ & _ & _ & Hw)].
  - destruct (run_ok _ Hg _ _ _ Hp Ha) as [Hok Hh]. apply a_step_advance in E; [|done].
    apply advance_grows in E as [_ Hc _ _]; [done|done|lia].
  - destruct (run_ok _ Hg _ _ _ Hp Ha) as [Hok Hh].
    destruct (flush_ok a NewReceiverImpl (Z.of_nat q - 1) Hok new_receiver_ok ltac:(lia)) as (b' & Hw' & Hok' & Hwr & _).
    rewrite Hw in Hw'. injection Hw' as <-. apply wrote_height in Hwr. change (height (set_cut a NewReceiverImpl)) with (height a) in Hwr.
    apply a_step_advance in E; [|done]. apply advance_grows in E as [_ Hc _ _]; [done|done|lia].
Qed.

Lemma waits_prefix a0 log q q' b b' : genesis a0 -> partition log -> (q < q')%nat ->
  waits a0 log q b -> waits a0 log q' b' -> a_chain b `prefix_of` a_chain b'.
Proof.
  intros Hg Hp Hlt Hb Hb'. destruct (waits_run _ _ _ _ Hg Hp Hb') as (a' & Ha' & P).
  destruct (run_between _ _ (S q) _ _ Ha' ltac:(lia)) as [c Ec]. pose proof (a_run_len _ _ _ _ Ec).
  destruct (run_mono _ Hg _ _ _ _ _ Hp Hlt Ec Ha') as [Hcp _].
  etrans; [|exact P]. etrans; [|exact Hcp]. eapply (waits_ok_chain a0 log q); [done|done|lia|done|done].
Qed.

(** The chains of any two orderers are comparable. *)
Lemma waits_comparable a0 log q q' b b' : genesis a0 -> partition log -> waits a0 log q b -> waits a0 log q' b' ->
  a_chain b `prefix_of` a_chain b' \/ a_chain b' `prefix_of` a_chain b.
Proof.
  intros Hg Hp Hb Hb'. destruct (lt_eq_lt_dec q q') as [[Hlt| ->]|Hlt].
  - left. by eapply waits_prefix.
  - by eapply waits_same.
  - right. by eapply waits_prefix.
Qed.

(** *** A message does not make an orderer fail *)

Lemma a_regular_no_err env off a e : abs_ok a -> height a < 2 ^ 61 - 2 -> a_regular env off a <> Err e.
Proof.
  intros Hok Hh E. unfold a_regular in E. destruct (a_ordered env a) as [[[o r]|]| | |] eqn:Eo; try done.
  2: { unfold a_ordered in Eo. by destruct (filters_Apply env (a_config a)) as [c [m| | |]]. }
  destruct (ordered_inv _ _ _ _ Hok Eo) as (m & Ha & Hpl). apply place_placed in Hpl; [|apply Hok].
  rewrite res_ret_bind in E. destruct Hpl as [Hm|Hm|Hm Hne|Hne]; cbn [messageBatches committerBatches a_writes first_offset pending orb length Nat.eqb] in E; [done|..].
  - destruct (a_write_ok (set_cut a NewReceiverImpl) (pendingBatch (a_cut a) ++ [env]) (pendingCommitters (a_cut a) ++ [m]) off)
      as (a' & Ew & _); [by apply set_cut_ok; [|apply new_receiver_ok]|unfold height in *; cbn; lia|by apply (one_cuttable a)|].
    by rewrite Ew in E.
  - destruct (flush_ok a (enqueue env m NewReceiverImpl) (off - 1) Hok) as (a' & Ew & _);
      [apply enqueue_ok; [apply new_receiver_ok|done]|lia|]. by rewrite Ew in E.
  - destruct (flush_ok a NewReceiverImpl (off - 1) Hok new_receiver_ok ltac:(lia)) as (a1 & Ew & Hok1 & Hw & Hc).
    rewrite Ew, res_ret_bind in E. apply wrote_height in Hw. change (height (set_cut a NewReceiverImpl)) with (height a) in Hw.
    assert (forall o, exists a2, a_write [env] [m] o a1 = Ok a2) as Hlast.
    { intros o. destruct (a_write_ok a1 [env] [m] o Hok1) as (a2 & Ew2 & _); [lia| |by exists a2].
      right. exists env, m. by rewrite Hc. }
    match type of E with context [a_write [env] [m] ?o a1] => destruct (Hlast o) as [a2 Ew2] end. by rewrite Ew2 in E.
Qed.

(** *** A longer partition *)

Lemma waits_len a0 log q b : genesis a0 -> partition log -> waits a0 log q b -> (q <= length log)%nat.
Proof. intros Hg Hp Hw. destruct (waits_run _ _ _ _ Hg Hp Hw) as (a & Ha & _). by eapply a_run_len. Qed.

Lemma waits_app a0 log l q b : genesis a0 -> partition log -> waits a0 log q b -> waits a0 (log ++ l) q b.
Proof.
  intros Hg Hp Hw. pose proof (waits_len _ _ _ _ Hg Hp Hw) as Hl.
  destruct Hw as [E|(a & v & env & o & r & Ha & Hv & Hrest)]; [left; by rewrite a_run_app|].
  right. exists a, v, env, o, r. split; [by rewrite a_run_app|]. split; [by apply lookup_app_l_Some|done].
Qed.

End KafkaContent.
End KafkaContent.

Import KafkaContent.

(** ** The orderers of a channel *)

Module KafkaSystem.
Section KafkaSystem.
Context {C M B G : Type} `{ChainConfigSpec C M} `{ProtoCodec} `{!BlockStore B} `{!OrdererStoreSpec B} `{LocalSigner G}.
Context `{CryptoHashSpec} `{!OrdererCodec} `{!OrdererCodecSpec} `{KafkaCodecSpec}.

Local Abbreviation abs := (abs C M).
Local Abbreviation chainImpl := (chainImpl C M B G).

Record replica := mkReplica {
  rp_chain : chainImpl;
  rp_offset : nat
}.

Record system := mkSystem {
  sy_log : list bytes;
  sy_replicas : list replica
}.

Definition ledger (r : replica) : B := cs_ledger (support (rp_chain r)).

(** Not a time-to-cut message: those come from the timers alone. *)
Definition no_ttc (v : bytes) : Prop := forall n, unmarshal_KafkaMessage v <> Ok (KTimeToCut n).

(** The store of an orderer that died. *)
Inductive left_by (log : list bytes) (r : replica) : B -> Prop :=
| lb_idle s : reopened (ledger r) s -> left_by log r s
| lb_entry v s : log !! rp_offset r = Some v -> crash v (Z.of_nat (rp_offset r)) (rp_chain r) s -> left_by log r s.

Definition started (s : B) (r : replica) : Prop :=
  exists g, start s g = Ok (rp_chain r) /\ rp_offset r = Z.to_nat (start_offset (rp_chain r)).

Inductive step : system -> system -> Prop :=
| sy_post log rs v : no_ttc v -> step (mkSystem log rs) (mkSystem (log ++ [v]) rs)
| sy_consume log rs i r v ch :
    rs !! i = Some r -> log !! rp_offset r = Some v ->
    consume v (Z.of_nat (rp_offset r)) (rp_chain r) = (ch, Ok Continue) ->
    step (mkSystem log rs) (mkSystem log (<[i := mkReplica ch (S (rp_offset r))]> rs))
| sy_timer log rs i r v ch :
    rs !! i = Some r -> timer (rp_chain r) = true -> sendTimeToCut (rp_chain r) = (ch, Ok v) ->
    step (mkSystem log rs) (mkSystem (log ++ [v]) (<[i := mkReplica ch (rp_offset r)]> rs))
| sy_timer_lost log rs i r v ch :
    rs !! i = Some r -> timer (rp_chain r) = true -> sendTimeToCut (rp_chain r) = (ch, Ok v) ->
    step (mkSystem log rs) (mkSystem log (<[i := mkReplica ch (rp_offset r)]> rs))
| sy_error log rs i r v ch :
    rs !! i = Some r -> consume_error (rp_chain r) = (ch, Ok v) ->
    step (mkSystem log rs) (mkSystem (log ++ [v]) (<[i := mkReplica ch (rp_offset r)]> rs))
| sy_restart log rs i r s r' :
    rs !! i = Some r -> left_by log r s -> started s r' ->
    step (mkSystem log rs) (mkSystem log (<[i := r']> rs)).

(** The orderers start on the genesis block; the first of them has posted its
    CONNECT message. *)
Record initial (a0 : abs) (sy : system) : Prop := {
  in_log : exists v, sy_log sy = [v] /\ unmarshal_KafkaMessage v = Ok KConnect;
  in_replicas : Forall (fun r => exists s, stores s a0 /\ started s r) (sy_replicas sy)
}.

(** The runs on which the stores stay within the limits of the machine. *)
Definition within_limits (sy : system) : Prop := Forall (fun r => in_limits (rp_chain r)) (sy_replicas sy).

Definition bounded_step (sy sy' : system) : Prop := step sy sy' /\ within_limits sy'.

Definition reachable (a0 : abs) (sy : system) : Prop := exists sy0, initial a0 sy0 /\ rtc bounded_step sy0 sy.

(** *** The invariant *)

Section Invariant.
Context (a0 : abs) (Hg : genesis a0).

(** A time-to-cut message for the next block finds a pending batch. *)
Definition ttc_ok (log : list bytes) : Prop :=
  forall p v n a, log !! p = Some v -> unmarshal_KafkaMessage v = Ok (KTimeToCut n) -> a_run a0 log p = Ok a ->
    n <= height a /\ (n = height a -> pendingBatch (a_cut a) <> []).

Definition placed_at (log : list bytes) (r : replica) : Prop :=
  exists b, waits a0 log (rp_offset r) b /\ follows (rp_chain r) b.

Record inv (sy : system) : Prop := {
  iv_partition : partition (sy_log sy);
  iv_ttc : ttc_ok (sy_log sy);
  iv_replicas : Forall (placed_at (sy_log sy)) (sy_replicas sy)
}.

Lemma partition_app log l : partition (log ++ l) -> partition log.
Proof.
  intros [Hc Hl]. split; [|rewrite length_app in Hl; lia]. intros v Hv. apply Hc. by apply lookup_app_l_Some.
Qed.

Lemma partition_snoc log v : partition log -> log <> [] -> Z.of_nat (length (log ++ [v])) < 2 ^ 59 -> partition (log ++ [v]).
Proof. intros [Hc _] Hne Hl. split; [|done]. intros w Hw. apply Hc. destruct log; [done|]. exact Hw. Qed.

Lemma placed_app log l r : partition log -> placed_at log r -> placed_at (log ++ l) r.
Proof. intros Hp (b & Hw & Hf). exists b. split; [by apply waits_app|done]. Qed.

Lemma ttc_ok_snoc log v :
  ttc_ok log ->
  (forall n a, unmarshal_KafkaMessage v = Ok (KTimeToCut n) -> a_run a0 log (length log) = Ok a ->
     n <= height a /\ (n = height a -> pendingBatch (a_cut a) <> [])) ->
  ttc_ok (log ++ [v]).
Proof.
  intros Ht Hv p w n a Hp Hw Ha. apply lookup_app_Some in Hp as [Hp|[Hp Hw']].
  - pose proof (lookup_lt_Some _ _ _ Hp). rewrite a_run_app in Ha by lia. by apply (Ht p w).
  - apply list_lookup_singleton_Some in Hw' as [Hq <-]. replace p with (length log) in * by lia.
    rewrite a_run_app in Ha by lia. by apply Hv.
Qed.

Lemma started_placed log s b r : partition log -> restartable a0 log b -> stores s b -> started s r -> placed_at log r.
Proof.
  intros Hp Hb Hs (g & Hst & Ho).
  destruct (start_follows a0 Hg log Hp b s g Hb Hs) as (ch & q & Hst' & Hq & Hw & Hf).
  rewrite Hst in Hst'. injection Hst' as <-. exists b. rewrite Ho, Hq, Nat2Z.id. done.
Qed.

Lemma left_restartable log r s :
  partition log -> placed_at log r -> left_by log r s -> exists b', restartable a0 log b' /\ stores s b'.
Proof.
  intros Hp (b & Hw & Hf) [s' Hr|v s' Hv Hc].
  - eapply stores_waits; [done|done|done|]. destruct (re_ledger _ _ (fo_support _ _ Hf)) as (bs & Hh & Hbs).
    exists bs. split; [by eapply reopened_spec|done].
  - by eapply (crash_restartable a0 Hg).
Qed.

Lemma left_placed log r s r' : partition log -> placed_at log r -> left_by log r s -> started s r' -> placed_at log r'.
Proof.
  intros Hp Hpl Hl Hs. destruct (left_restartable log r s Hp Hpl Hl) as (b' & Hb' & Hs'). by eapply started_placed.
Qed.

(** What a timer posts. *)
Lemma timer_ttc log r b n a :
  partition log -> waits a0 log (rp_offset r) b -> follows (rp_chain r) b -> timer (rp_chain r) = true ->
  n = height b -> a_run a0 log (length log) = Ok a ->
  n <= height a /\ (n = height a -> pendingBatch (a_cut a) <> []).
Proof.
  intros Hp Hw Hf Ht -> Ha. pose proof (fo_timer _ _ Hf Ht) as Hne.
  destruct Hw as [Hb|(c & v & env & o & r' & _ & _ & _ & _ & _ & Hw)].
  - destruct (run_mono a0 Hg _ _ _ _ _ Hp (a_run_len _ _ _ _ Hb) Hb Ha) as (_ & Hle & Hcase). split; [done|].
    intros Heq. destruct Hcase as [Hlt|[_ Hpre]]; [lia|]. intros Hnil. rewrite Hnil in Hpre.
    by apply prefix_nil_inv in Hpre.
  - exfalso. apply Hne. apply a_write_data in Hw as [_ Hc]. rewrite Hc. done.
Qed.

Lemma timer_placed log r ch v :
  partition log -> placed_at log r -> sendTimeToCut (rp_chain r) = (ch, Ok v) -> placed_at log (mkReplica ch (rp_offset r)).
Proof.
  intros _ (b & Hw & [Hr Hn Ht]) E. injection E as <- _. exists b. split; [done|]. by split.
Qed.

Lemma sent_number log r ch v n b :
  partition log -> waits a0 log (rp_offset r) b -> follows (rp_chain r) b -> sendTimeToCut (rp_chain r) = (ch, Ok v) ->
  unmarshal_KafkaMessage v = Ok (KTimeToCut n) -> n = height b.
Proof.
  intros Hp Hw Hf E Hv. injection E as _ <-. rewrite (fo_number _ _ Hf) in Hv.
  destruct (waits_ok a0 Hg log Hp _ _ Hw) as [_ Hh]. pose proof (waits_len _ _ _ _ Hg Hp Hw) as Hl.
  pose proof (pa_len _ Hp). assert (0 <= height b) by (unfold height; lia).
  replace (height b - 1 + 1) with (height b) in Hv by lia. rewrite wrap64_small in Hv by (unfold u64; lia).
  rewrite KafkaMessage_roundtrip in Hv; [by injection Hv|]. intros k [= <-]. unfold u64. lia.
Qed.

Lemma consume_placed log r v ch :
  partition log -> placed_at log r -> log !! rp_offset r = Some v ->
  consume v (Z.of_nat (rp_offset r)) (rp_chain r) = (ch, Ok Continue) -> in_limits ch ->
  placed_at log (mkReplica ch (S (rp_offset r))).
Proof.
  intros Hp (b & Hw & Hf) Hv E Hlim. destruct (waits_ok a0 Hg log Hp _ _ Hw) as [Hok Hh].
  pose proof (pa_len _ Hp). pose proof (lookup_lt_Some _ _ _ Hv).
  destruct (consume_follows _ _ _ _ _ _ Hok ltac:(lia) Hf E Hlim) as (a' & Hs & Hf').
  exists a'. split; [|done]. left. cbn [rp_offset]. by rewrite (waits_step a0 Hg _ _ _ _ Hp Hw Hv).
Qed.

Lemma no_ttc_ok log v : ttc_ok log -> no_ttc v -> ttc_ok (log ++ [v]).
Proof. intros Ht Hv. apply ttc_ok_snoc; [done|]. intros n a Hn. by destruct (Hv n). Qed.

Lemma connect_no_ttc : no_ttc (marshal_KafkaMessage KConnect).
Proof. intros n. by rewrite KafkaMessage_roundtrip. Qed.

Lemma step_log sy sy' : step sy sy' -> exists l, sy_log sy' = sy_log sy ++ l.
Proof. intros []; cbn; (by eexists) || (exists []; by rewrite app_nil_r). Qed.

Lemma reachable_ind (P : system -> Prop) :
  (forall sy, initial a0 sy -> Z.of_nat (length (sy_log sy)) < 2 ^ 59 -> P sy) ->
  (forall sy sy', P sy -> bounded_step sy sy' -> sy_log sy <> [] -> Z.of_nat (length (sy_log sy')) < 2 ^ 59 -> P sy') ->
  forall sy, reachable a0 sy -> Z.of_nat (length (sy_log sy)) < 2 ^ 59 -> P sy.
Proof.
  intros Hi Hs sy (sy0 & H0' & Hr).
  enough (sy_log sy <> [] /\ (Z.of_nat (length (sy_log sy)) < 2 ^ 59 -> P sy)) as [_ Hgoal] by done.
  revert sy Hr. apply (rtc_ind_r (fun sy => sy_log sy <> [] /\ (Z.of_nat (length (sy_log sy)) < 2 ^ 59 -> P sy))).
  { split; [|auto]. destruct H0' as [(v & -> & _) _]. done. }
  intros sy1 sy2 Hr Hst [Hne IH].
  destruct (step_log _ _ (proj1 Hst)) as [l Hl]. split; [rewrite Hl; by intros [? _]%app_nil|]. intros Hlen. rewrite Hl, length_app in Hlen.
  eapply Hs; [apply IH; lia|done|done|]. rewrite Hl, length_app. lia.
Qed.

Lemma initial_inv sy : initial a0 sy -> Z.of_nat (length (sy_log sy)) < 2 ^ 59 -> inv sy.
Proof.
  intros [(v & Hl & Hv) Hr] Hlen. assert (partition (sy_log sy)) as Hp.
  { split; [|done]. rewrite Hl. intros w [= <-]. done. }
  split; [done| |].
  - intros p w n a Hw Hn _. rewrite Hl in Hw. apply list_lookup_singleton_Some in Hw as [_ <-]. congruence.
  - eapply Forall_impl; [exact Hr|]. intros r (s & Hs & Hst). cbn.
    apply (started_placed _ s (set_cut a0 NewReceiverImpl)); [done|by apply (restart_point a0 Hg _ 0)|done|done].
Qed.

Lemma snoc_inv log rs v : inv (mkSystem log rs) -> log <> [] -> Z.of_nat (length (log ++ [v])) < 2 ^ 59 ->
  ttc_ok (log ++ [v]) -> inv (mkSystem (log ++ [v]) rs).
Proof.
  intros [Hp Ht Hr] Hne Hlen Htv. cbn in *. split; cbn; [by apply partition_snoc|done|].
  eapply Forall_impl; [exact Hr|]. intros r. by apply placed_app.
Qed.

Lemma insert_inv log rs i r : inv (mkSystem log rs) -> placed_at log r -> inv (mkSystem log (<[i := r]> rs)).
Proof. intros [Hp Ht Hr] Hpl. split; [done|done|]. by apply Forall_insert. Qed.

Lemma replica_placed log rs i r : inv (mkSystem log rs) -> rs !! i = Some r -> placed_at log r.
Proof. intros [_ _ Hr] Hi. by apply (Forall_lookup_1 _ _ _ _ Hr Hi). Qed.

Lemma system_step_inv sy sy' : inv sy -> bounded_step sy sy' -> sy_log sy <> [] -> Z.of_nat (length (sy_log sy')) < 2 ^ 59 -> inv sy'.
Proof.
  intros Hi [Hs Hlim] Hne Hlen. pose proof (iv_partition _ Hi) as Hp. pose proof (iv_ttc _ Hi) as Ht.
  destruct Hs as [log rs v Hv|log rs i r v ch Hr Hv Hc|log rs i r v ch Hr Htm Hc|log rs i r v ch Hr Htm Hc
    |log rs i r v ch Hr Hc|log rs i r s r' Hr Hl Hst]; cbn in *.
  - apply snoc_inv; try done. by apply no_ttc_ok.
  - apply insert_inv; [done|]. eapply consume_placed; [done|by eapply replica_placed|done|done|].
    unfold within_limits in Hlim. cbn in Hlim. rewrite Forall_lookup in Hlim.
    apply (Hlim i (mkReplica ch (S (rp_offset r)))). apply list_lookup_insert_eq. by eapply lookup_lt_Some.
  - pose proof (replica_placed _ _ _ _ Hi Hr) as Hpl. apply snoc_inv; [|done|done|].
    + apply insert_inv; [done|]. by eapply timer_placed.
    + apply ttc_ok_snoc; [done|]. intros n a Hn Ha. destruct Hpl as (b & Hw & Hf).
      eapply timer_ttc; [done|done|done|done| |done]. by eapply sent_number.
  - apply insert_inv; [done|]. eapply timer_placed; [done|by eapply replica_placed|done].
  - injection Hc as <- <-. apply snoc_inv; [|done|done|apply no_ttc_ok; [done|apply connect_no_ttc]].
    apply insert_inv; [done|]. destruct (replica_placed _ _ _ _ Hi Hr) as (b & Hw & Hf). exists b. split; [done|].
    by apply follows_errored.
  - apply insert_inv; [done|]. eapply left_placed; [done|by eapply replica_placed|done|done].
Qed.

Lemma reachable_inv sy : reachable a0 sy -> Z.of_nat (length (sy_log sy)) < 2 ^ 59 -> inv sy.
Proof. apply reachable_ind; [apply initial_inv|apply system_step_inv]. Qed.

(** An orderer does not leave its loop. *)
Lemma placed_no_exit log r v ch e :
  partition log -> ttc_ok log -> placed_at log r -> log !! rp_offset r = Some v ->
  consume v (Z.of_nat (rp_offset r)) (rp_chain r) <> (ch, Ok (Exit e)).
Proof.
  intros Hp Ht (b & Hw & Hf) Hv E. destruct (waits_ok a0 Hg log Hp _ _ Hw) as [Hok Hh].
  pose proof (pa_len _ Hp). pose proof (lookup_lt_Some _ _ _ Hv).
  destruct (consume_follows _ _ _ _ _ _ Hok ltac:(lia) Hf E) as (e' & Hs).
  rewrite <- (waits_step a0 Hg _ _ _ _ Hp Hw Hv) in Hs. destruct (waits_run _ _ _ _ Hg Hp Hw) as (a & Ha & _).
  cbn in Hs. rewrite Ha, Hv, res_ret_bind in Hs. destruct (run_ok a0 Hg _ _ _ Hp Ha) as [Hoka Hha].
  unfold a_step in Hs. destruct (unmarshal_KafkaMessage v) as [[payload|n| |]| | |] eqn:Ev; try done.
  - destruct (unmarshal_Envelope payload) as [env| | |]; try done. by apply (a_regular_no_err env (Z.of_nat (rp_offset r)) a e' Hoka ltac:(lia)).
  - destruct (Ht _ _ _ _ Hv Ev Ha) as [Hle Heq]. unfold a_ttc in Hs. destruct (n =? height a) eqn:En.
    + apply Z.eqb_eq in En. destruct (flush_ok a NewReceiverImpl (Z.of_nat (rp_offset r)) Hoka new_receiver_ok ltac:(lia)) as (a' & Hw' & _).
      destruct (pendingBatch (a_cut a)) eqn:Eb; [by apply Heq|]. by rewrite Hw' in Hs.
    + by rewrite (proj2 (Z.ltb_ge _ _)) in Hs by lia.
Qed.

(** What the ledger of an orderer holds. *)
Lemma placed_holds log r :
  partition log -> placed_at log r ->
  exists b bs, waits a0 log (rp_offset r) b /\ holds (ledger r) bs /\ core_of <$> bs = a_chain b /\
    cs_cutter (support (rp_chain r)) = a_cut b.
Proof.
  intros Hp (b & Hw & Hf). destruct (re_ledger _ _ (fo_support _ _ Hf)) as (bs & Hl & Hbs).
  exists b, bs. split_and!; try done. apply (re_cut _ _ (fo_support _ _ Hf)).
Qed.

(** An orderer that died can be started. *)
Lemma left_starts log r s (g : G) :
  partition log -> placed_at log r -> left_by log r s ->
  exists ch q, start s g = Ok ch /\ start_offset ch = Z.of_nat q /\ (q <= length log)%nat.
Proof.
  intros Hp Hpl Hl. destruct (left_restartable log r s Hp Hpl Hl) as (b & Hb & Hs).
  destruct (start_follows a0 Hg log Hp b s g Hb Hs) as (ch & q & Hst & Hq & Hw & _). exists ch, q.
  split; [done|]. split; [done|]. by eapply waits_len.
Qed.

End Invariant.
End KafkaSystem.
End KafkaSystem.
