(* ===== verification/OrdererTheorems.v ===== *)
(** * The ordering service: its theorems

    What the block cutter does with the messages, and what a set of orderers on
    one Kafka partition does, under any order of posting, consuming, timers and
    crashes. *)

From stdpp Require Import base gmap strings list relations.
From Stdlib Require Import Ascii ZArith Lia.
From S2P Require Import Prelude Proto Instances BlockHash BlockMgr KVLedger CAuthDSL Filters OrdererChain Consensus ChainFacts.
From S2P Require Import LevelDB BlockIndex BlockChain BlockRecovery BlockTheorems LedgerTheorems OrdererStore KafkaSpec KafkaFollows KafkaSystem.
Import BlockCutter CutterFacts CutterBounds OrdererLedger BlockMetadataUtils ChainSupport ChainFacts.
Import KafkaSpec Kafka KafkaFollows KafkaContent KafkaSystem Bits Fields.
Local Open Scope Z_scope.

(** ** Concrete parameters

    A configuration that is a sequence number, and serializations made of byte
    fields. *)

Module OrdererDemo.

Definition is_config (b : bytes) : option Z :=
  match b with
  | c :: rest => if decide (c = "c"%char) then Some (Z.of_nat (length rest)) else None
  | [] => None
  end.

(** A configuration message holds the next sequence number. *)
#[export] Instance demo_chain_config : ChainConfig Z (option Z) := {
  filters_Apply env c :=
    match env_Payload env, is_config (env_Payload env) with
    | [], _ => (c, Err "empty")
    | _, Some n => if decide (n = c + 1 /\ c + 1 < 2 ^ 64) then (c, Ok (Some n)) else (c, Err "sequence")
    | _, None => (c, Ok None)
    end;
  committer_Isolated m := match m with Some _ => true | None => false end;
  committer_Commit m c := match m with Some n => (n, Ok tt) | None => (c, Ok tt) end;
  shared_BatchSize c := mkBatchSize 2 100 20;
  config_Sequence c := c;
  config_of env := match is_config (env_Payload env) with Some n => Ok n | None => Err "no configuration" end
}.

#[export] Instance demo_chain_config_spec : ChainConfigSpec Z (option Z).
Proof.
  refine {| config_ok c := 0 <= c |}.
  - intros c msg c' r Hc. cbn. destruct (env_Payload msg) as [|x l]; [by intros [= <- <-]|].
    destruct (is_config _) as [n|]; [case_decide|]; by intros [= <- <-].
  - by intros c [n|].
  - intros c msg m Hc. cbn. destruct (env_Payload msg) as [|x l] eqn:Ep; [done|].
    destruct (is_config (x :: l)) as [n|] eqn:Ei; [|by intros [= <-]].
    case_decide as Hn; [|done]. intros [= <-] _. exists n. split; [done|]. destruct Hn as [-> Hb].
    split; [lia|]. right. rewrite wrap64_small by (unfold u64; lia). done.
Defined.

#[export] Instance id_hash : CryptoHash := { bccsp_Hash b := Ok b }.

#[export] Instance id_hash_spec : CryptoHashSpec.
Proof. by exists (fun b => b). Defined.

#[export] Instance unit_signer : LocalSigner unit := {
  NewSignatureHeader g := (g, Ok (mkSignatureHeader (to_bytes "orderer") []));
  Sign msg g := (g, Ok (to_bytes "signed"))
}.

(** A number, the default one as no bytes. *)
Definition put_number (z : Z) : bytes := if z =? 0 then [] else "n"%char :: to_bits z.
Definition get_number (b : bytes) : res Z := match b with [] => Ok 0 | _ :: b => from_bits b end.

Lemma get_put_number z : get_number (put_number z) = Ok z.
Proof.
  unfold put_number. destruct (z =? 0) eqn:E; [by apply Z.eqb_eq in E as ->|]. cbn. apply from_to_bits.
Qed.

Fixpoint sig_fields (l : list MetadataSignature) : list bytes :=
  match l with [] => [] | s :: l => ms_SignatureHeader s :: ms_Signature s :: sig_fields l end.

Fixpoint fields_sig (l : list bytes) : list MetadataSignature :=
  match l with h :: s :: l => mkMetadataSignature h s :: fields_sig l | _ => [] end.

Lemma fields_sig_fields l : fields_sig (sig_fields l) = l.
Proof. induction l as [|[h s] l IH]; [done|]. cbn. by rewrite IH. Qed.

#[export] Instance fields_orderer_codec : OrdererCodec := {
  marshal_Envelope e := put_fields [env_Payload e; env_Signature e];
  marshal_SignatureHeader h := put_fields [sh_Creator h; sh_Nonce h];
  marshal_Metadata m := put_fields (md_Value m :: sig_fields (md_Signatures m));
  unmarshal_Metadata b :=
    Ok match get_fields [] b with [] => mkMetadata [] [] | v :: l => mkMetadata v (fields_sig l) end;
  marshal_LastConfig := put_number;
  unmarshal_LastConfig := get_number;
  marshal_KafkaMetadata := put_number;
  unmarshal_KafkaMetadata := get_number
}.

#[export] Instance fields_orderer_codec_spec : OrdererCodecSpec.
Proof.
  split; cbn -[put_fields get_fields]; try done.
  - intros e. by rewrite get_put_fields; destruct e.
  - intros m. by rewrite get_put_fields, fields_sig_fields; destruct m.
  - intros i _. apply get_put_number.
  - intros o _. apply get_put_number.
  - intros o. unfold put_number. destruct (o =? 0) eqn:E; [by apply Z.eqb_eq in E|]. apply Z.eqb_neq in E. done.
Qed.

#[export] Instance tag_kafka_codec : KafkaCodec := {
  marshal_KafkaMessage m :=
    match m with
    | KRegular p => "r"%char :: p
    | KTimeToCut n => "t"%char :: to_bits n
    | KConnect => ["c"%char]
    | KUnset => []
    end;
  unmarshal_KafkaMessage b :=
    match b with
    | [] => Ok KUnset
    | c :: b => if decide (c = "r"%char) then Ok (KRegular b)
                else if decide (c = "t"%char) then n ← from_bits b; Ok (KTimeToCut n)
                else Ok KConnect
    end
}.

#[export] Instance tag_kafka_codec_spec : KafkaCodecSpec.
Proof. split. intros [p|n| |] _; cbn; try done. by rewrite from_to_bits. Qed.

End OrdererDemo.

Module CutterTheorems.
Section CutterTheorems.
Context {C M : Type} `{ChainConfigSpec C M}.

(** C36: Handing a message to the cutter loses, repeats and reorders nothing: a
    message that the filters reject changes nothing, and otherwise the batches
    that are cut, followed by what is pending, are what was pending followed
    by the message, each message with its committer.  No batch has more than
    the maximal number of messages, or more than the preferred number of bytes
    unless it is the one message, and an isolated message is alone in the last
    batch. *)
Theorem ordered_batches c msg r c' r' o :
  config_ok c -> receiver_ok r -> sane (shared_BatchSize c) -> fits (shared_BatchSize c) r ->
  Ordered msg (c, r) = ((c', r'), Ok o) ->
  c' = c /\ receiver_ok r' /\ fits (shared_BatchSize c) r' /\
  ((exists e, filters_Apply msg c = (c, Err e)) /\ o = invalid /\ r' = r \/
   exists m, filters_Apply msg c = (c, Ok m) /\ validTx o = true /\
     concat (messageBatches o) ++ pendingBatch r' = pendingBatch r ++ [msg] /\
     concat (committerBatches o) ++ pendingCommitters r' = pendingCommitters r ++ [m] /\
     length <$> messageBatches o = length <$> committerBatches o /\
     (pending o = true <-> pendingBatch r' <> []) /\
     (committer_Isolated m = true -> last (messageBatches o) = Some [msg]) /\
     Forall (good_batch (shared_BatchSize c) msg) (messageBatches o)).
Proof.
  intros Hc Hr Hs Hf E. unfold Ordered in E. destruct (filters_Apply msg c) as [c1 res] eqn:Ea.
  pose proof (Apply_keeps _ _ _ _ Hc Ea) as Hk. destruct res as [m|e| |]; try done; subst c1.
  - destruct (place (shared_BatchSize c) msg m r) as [o1 r1] eqn:Ep. injection E as <- <- <-.
    destruct (place_fits _ _ _ _ _ _ Hs Hr Hf Ep) as [Hf' Hg]. apply place_placed in Ep; [|done].
    destruct (placed_keeps_order _ _ _ _ _ Hr Ep) as (H1 & H2 & H3 & H4 & H5 & H6).
    split; [done|]. split; [by eapply placed_ok|]. split; [done|]. right. exists m. by split_and!.
  - injection E as <- <- <-. split; [done|]. split; [done|]. split; [done|]. left. split; [by exists e|done].
Qed.

End CutterTheorems.

Import OrdererDemo.

Definition demo_envelope (s : string) : Envelope := mkEnvelope (to_bytes s) [].

(** The configuration message arrives while a message is pending. *)
Lemma ordered_batches_witness :
  exists o, Ordered (demo_envelope "c1") (0, enqueue (demo_envelope "m") None NewReceiverImpl) = ((0, NewReceiverImpl), Ok o) /\
    last (messageBatches o) = Some [demo_envelope "c1"].
Proof.
  eexists. split; [vm_compute; reflexivity|].
  destruct (ordered_batches 0 (demo_envelope "c1") (enqueue (demo_envelope "m") None NewReceiverImpl) 0 NewReceiverImpl
    (mkOrdered [[demo_envelope "m"]; [demo_envelope "c1"]] [[None]; [Some 1]] true false))
    as (_ & _ & _ & [[[e He] _]|(m & Hm & _ & _ & _ & _ & _ & Hlast & _)]).
  - cbn. lia.
  - apply enqueue_ok; [apply new_receiver_ok|done].
  - split; cbn; lia.
  - split; vm_compute; try done; congruence.
  - vm_compute. reflexivity.
  - by vm_compute in He.
  - apply Hlast. by vm_compute in Hm; injection Hm as <-.
Defined.

End CutterTheorems.

(** ** Orderers on a Kafka partition *)

Module KafkaTheorems.

(** The orderers write to a store that holds what it took ([OrdererStoreSpec],
    which the block store on the file system implements, OrdererStore.v); it may
    refuse a block, and then the orderer panics.  [reachable] are the states of
    the runs on which the files stay within the integers of the machine. *)

Section KafkaTheorems.
Context {C M B G : Type} `{ChainConfigSpec C M} `{ProtoCodec} `{!BlockStore B} `{!OrdererStoreSpec B} `{LocalSigner G}.
Context `{CryptoHashSpec} `{!OrdererCodec} `{!OrdererCodecSpec} `{KafkaCodecSpec}.

Implicit Types (a : abs C M) (sy : system (C := C) (M := M) (B := B) (G := G)).

(** C2: Orderers agree.  The orderers of a channel start on one genesis block and
    keep their blocks in a store that holds what it took.  Whatever they post,
    consume, time out and lose in crashes, and in whichever order, as long as the
    files stay within the integers of the machine, of the chains of any two of
    them one is a prefix of the other: the blocks have the same headers, data,
    last configuration and Kafka offset, and differ in their signatures alone.
    An orderer whose store refuses a block, or whose filters or committers panic,
    takes no further step until it is started again.  Time-to-cut messages come
    from the timers of the orderers only. *)
Theorem kafka_agreement a0 sy i j ri rj :
  genesis a0 -> reachable a0 sy -> Z.of_nat (length (sy_log sy)) < 2 ^ 59 ->
  sy_replicas sy !! i = Some ri -> sy_replicas sy !! j = Some rj ->
  exists bi bj, holds (ledger ri) bi /\ holds (ledger rj) bj /\
    ((core_of <$> bi) `prefix_of` (core_of <$> bj) \/ (core_of <$> bj) `prefix_of` (core_of <$> bi)).
Proof.
  intros Hg Hr Hl Hi Hj. destruct (reachable_inv a0 Hg sy Hr Hl) as [Hp _ Hrs].
  rewrite Forall_lookup in Hrs.
  destruct (placed_holds a0 _ _ Hp (Hrs _ _ Hi)) as (b & bs & Hw & Hh & Hb & _).
  destruct (placed_holds a0 _ _ Hp (Hrs _ _ Hj)) as (b' & bs' & Hw' & Hh' & Hb' & _).
  exists bs, bs'. split; [done|]. split; [done|]. rewrite Hb, Hb'. by eapply waits_comparable.
Qed.

(** C15: No orderer loses, repeats or reorders a message, also across crashes.  On
    the runs of C2, the data of its blocks after the genesis block, followed by
    its pending batch, are the envelopes that the filters accepted, in the order
    of the partition, up to the position of the orderer. *)
Theorem kafka_total_order a0 sy i r :
  genesis a0 -> reachable a0 sy -> Z.of_nat (length (sy_log sy)) < 2 ^ 59 ->
  sy_replicas sy !! i = Some r ->
  exists bs, holds (ledger r) bs /\
    concat (blk_Data <$> bs) ++ (marshal_Envelope <$> pendingBatch (cs_cutter (support (rp_chain r)))) =
    block_data a0 ++ (marshal_Envelope <$> accepted a0 (sy_log sy) (rp_offset r)).
Proof.
  intros Hg Hr Hl Hi. destruct (reachable_inv a0 Hg sy Hr Hl) as [Hp _ Hrs]. rewrite Forall_lookup in Hrs.
  destruct (placed_holds a0 _ _ Hp (Hrs _ _ Hi)) as (b & bs & Hw & Hh & Hb & Hc). exists bs. split; [done|].
  pose proof (waits_content _ _ _ _ Hg Hp Hw) as Hd. unfold content, block_data in Hd. rewrite (ge_cut _ Hg), app_nil_r in Hd.
  rewrite Hc. unfold block_data. rewrite <- Hd, <- Hb, <- list_fmap_compose. done.
Qed.

(** C32: The blocks of an orderer are a chain.  On the runs of C2 they are numbered
    from 0, and every block after the first has the hash of the header before it
    and the hash of its own data. *)
Theorem kafka_chain_linked a0 sy i r :
  genesis a0 -> reachable a0 sy -> Z.of_nat (length (sy_log sy)) < 2 ^ 59 ->
  sy_replicas sy !! i = Some r ->
  exists bs, holds (ledger r) bs /\
    (forall k b, bs !! k = Some b -> Number (blk_Header b) = Z.of_nat k) /\
    forall k b b', bs !! k = Some b -> bs !! S k = Some b' ->
      BlockHash.header_Hash (blk_Header b) = Ok (PreviousHash (blk_Header b')) /\
      BlockHash.data_Hash (blk_Data b') = Ok (DataHash (blk_Header b')).
Proof.
  intros Hg Hr Hl Hi. destruct (reachable_inv a0 Hg sy Hr Hl) as [Hp _ Hrs]. rewrite Forall_lookup in Hrs.
  destruct (placed_holds a0 _ _ Hp (Hrs _ _ Hi)) as (b & bs & Hw & Hh & Hb & _). exists bs. split; [done|].
  destruct (waits_ok a0 Hg _ Hp _ _ Hw) as [Hok _]. pose proof (ao_num _ Hok) as Hn. rewrite <- Hb in Hn.
  assert (forall k c, bs !! k = Some c -> Number (blk_Header c) = Z.of_nat k) as Hnum.
  { intros k c Hk. apply (Hn k (core_of c)). by rewrite list_lookup_fmap, Hk. }
  split; [done|]. intros k c c' Hk Hk'. pose proof (waits_linked _ _ _ _ Hg Hp Hw) as Hlk. rewrite <- Hb in Hlk.
  destruct (Hlk k (core_of c) (core_of c')) as [E1 E2]; [by rewrite list_lookup_fmap, Hk|by rewrite list_lookup_fmap, Hk'|].
  cbn in E1, E2. rewrite E1, E2. split.
  - apply header_hash_ok. rewrite (Hnum _ _ Hk). apply lookup_lt_Some in Hk. pose proof (holds_len _ _ Hh). lia.
  - unfold BlockHash.data_Hash, CommonUtil.ComputeSHA256. by rewrite bccsp_Hash_spec.
Qed.

(** C31: An orderer does not return from its loop, and starts again when it died.
    On the runs of C2, no entry of the partition makes the loop return: a
    time-to-cut message for the next block always finds a pending batch, and none
    is for a later block.  (That a filter, a committer or the store panics on an
    entry is not excluded: the orderer dies.)  When it dies, at any point of the
    processing of the next entry, it starts again from what is left in its store,
    at an offset that the partition has. *)
Theorem kafka_orderer_restarts a0 sy i r :
  genesis a0 -> reachable a0 sy -> Z.of_nat (length (sy_log sy)) < 2 ^ 59 ->
  sy_replicas sy !! i = Some r ->
  (forall v ch e, sy_log sy !! rp_offset r = Some v ->
     consume v (Z.of_nat (rp_offset r)) (rp_chain r) <> (ch, Ok (Exit e))) /\
  (forall s (g : G), left_by (sy_log sy) r s ->
     exists ch q, start s g = Ok ch /\ start_offset ch = Z.of_nat q /\ (q <= length (sy_log sy))%nat).
Proof.
  intros Hg Hr Hl Hi. destruct (reachable_inv a0 Hg sy Hr Hl) as [Hp Ht Hrs]. rewrite Forall_lookup in Hrs.
  split.
  - intros v ch e. by eapply (placed_no_exit a0 Hg), Hrs.
  - intros s g. by eapply (left_starts a0 Hg), Hrs.
Qed.

End KafkaTheorems.

(** *** Two orderers

    On the block store of the file system.  The first consumes a message, its
    timer fires, and it cuts the block; the second has consumed the CONNECT
    message, died and started again. *)

Import OrdererDemo CutterTheorems.
Import World OrdererStore FsLedgerStore.

Local Abbreviation store := (fs_state (S := MemStore.MemStore)).

Definition genesis_block : Block :=
  let data := [marshal_Envelope (demo_envelope "c")] in
  mkBlock (mkBlockHeader 0 [] (concat data)) data (replicate 4 []).

Definition demo_genesis : abs Z (option Z) := mkAbs [core_of genesis_block] 0 NewReceiverImpl 0.

Definition demo_world : World MemStore.MemStore := mkWorld ∅ (Provider.mkDBHandle "ch" ∅) [].

(** The store of a new channel. *)
Definition empty_mgr : BlockMgr.blockfileMgr :=
  BlockMgr.mkMgr max_file attrsToIndex (BlockMgr.mkCheckpointInfo 0 0 true 0) "blockfile_000000" (BlockMgr.mkBlockchainInfo 0 [] []).

Definition empty_store : store :=
  match BlockMgr.newBlockfileMgr max_file attrsToIndex demo_world with (w, Ok g) => (g, w) | (w, _) => (empty_mgr, w) end.

Definition demo_store : store := (AddBlock genesis_block empty_store).1.

Lemma empty_store_holds : fs_holds attrsToIndex empty_store [].
Proof.
  destruct (BlockRecovery.first_start_ok max_file attrsToIndex demo_world) as (w & g & E & Ei & _ & _ & R);
    [split; [by apply (bool_decide_unpack _); vm_compute|done]|done|by intros k|done|by left|done|].
  unfold empty_store. rewrite E. by split.
Qed.

Lemma genesis_admissible : BlockRuns.admissible empty_store.1 [] genesis_block /\ BlockChain.parsable genesis_block.
Proof.
  assert (BlockChain.block_good attrsToIndex genesis_block) as [Hs Hp].
  { split; [split|].
    - apply block_bytes_wf; by vm_compute.
    - by vm_compute.
    - by vm_compute.
    - exists []. split; [done|]. by intros Hin%list_elem_of_singleton.
    - by intros Hin%list_elem_of_singleton.
    - apply Forall_singleton. by vm_compute. }
  split; [|done]. split; [exact Hs|by vm_compute|done|by vm_compute|by right; vm_compute].
Qed.

Lemma demo_store_holds : holds demo_store [genesis_block].
Proof.
  destruct genesis_admissible as [Ha Hp].
  destruct (fs_step max_file attrsToIndex eq_refl ltac:(by left) empty_store [] genesis_block [] empty_store_holds Ha eq_refl)
    as (ev & s & bs & E & Hs & _ & Hn); [split; apply not_elem_of_nil|].
  destruct (Hn eq_refl Hp) as [-> ->]. apply store_op_added in E.
  assert (demo_store = s) as -> by exact (f_equal fst E). exact Hs.
Qed.

Lemma demo_store_reopened : reopened demo_store demo_store.
Proof. change (fs_open max_file attrsToIndex demo_store = Ok demo_store). vm_cast_no_check (eq_refl (Ok demo_store)). Qed.

Local Abbreviation replica := (replica (C := Z) (M := option Z) (B := store) (G := unit)).

Definition demo_fresh : replica :=
  mkReplica (mkChainImpl (mkChainSupport 0 demo_store NewReceiverImpl tt 0 0) (-3) 0 false true) 0.

Definition connect : bytes := marshal_KafkaMessage KConnect.
Definition message : bytes := Enqueue (demo_envelope "m").

Definition demo_consume (v : bytes) (r : replica) : replica :=
  mkReplica (consume v (Z.of_nat (rp_offset r)) (rp_chain r)).1 (S (rp_offset r)).

Definition demo_timed : replica := demo_consume message (demo_consume connect demo_fresh).
Definition demo_sent : replica := mkReplica (sendTimeToCut (rp_chain demo_timed)).1 (rp_offset demo_timed).
Definition demo_ttc : bytes := marshal_KafkaMessage (KTimeToCut 1).
Definition demo_cut : replica := demo_consume demo_ttc demo_sent.

Definition demo_system : system := mkSystem [connect; message; demo_ttc] [demo_cut; demo_fresh].

Lemma demo_started : started demo_store demo_fresh.
Proof. exists tt. split; [vm_cast_no_check (eq_refl (Ok (rp_chain demo_fresh)))|done]. Qed.

Lemma demo_stores : stores demo_store demo_genesis.
Proof. exists [genesis_block]. split; [apply demo_store_holds|done]. Qed.

Lemma demo_genesis_ok : genesis demo_genesis.
Proof.
  assert (resumable (a_chain demo_genesis) 0 0 []) as Hres.
  { split.
    - eexists. by split; vm_compute.
    - exists 0%nat. do 3 eexists. split_and!; [done|done|by vm_compute|by vm_compute|by vm_compute].
    - done. }
  split; [split|done|done|done]; cbn [a_config a_cut a_chain demo_genesis].
  - cbn. lia.
  - apply new_receiver_ok.
  - done.
  - intros [|k] c Hc; [by injection Hc as <-|done].
  - cbn. unfold height. cbn. lia.
  - by exists [].
Qed.

(** A decision of the limits of every orderer. *)
Definition limits_b (sy : system (C := Z) (M := option Z) (B := store) (G := unit)) : bool :=
  forallb (fun r =>
    (BlockMgr.latestFileChunkSuffixNum (BlockMgr.cpInfo (ledger r).1) + 3 <? 2 ^ 62) &&
    bool_decide (map_Forall (fun (_ : string) (f : bytes) => Z.of_nat (length f) < 2 ^ 56) (w_disk (ledger r).2)))
    (sy_replicas sy).

Lemma limits_b_ok sy : limits_b sy = true -> within_limits sy.
Proof.
  unfold limits_b. rewrite forallb_forall, <- List.Forall_forall. intros Hl. eapply Forall_impl; [exact Hl|].
  intros r [Hn Hd]%andb_true_iff. split; [by apply Z.ltb_lt|by apply bool_decide_eq_true in Hd].
Qed.

Lemma demo_consumes v r :
  (consume v (Z.of_nat (rp_offset r)) (rp_chain r)).2 = Ok Continue ->
  consume v (Z.of_nat (rp_offset r)) (rp_chain r) = (rp_chain (demo_consume v r), Ok Continue).
Proof. cbn. destruct (consume _ _ _) as [ch x]. by intros [= ->]. Qed.

Lemma demo_sends : sendTimeToCut (rp_chain demo_timed) = (rp_chain demo_sent, Ok demo_ttc).
Proof. vm_cast_no_check (eq_refl (rp_chain demo_sent, Ok demo_ttc)). Qed.

Lemma demo_connected : ledger (demo_consume connect demo_fresh) = demo_store.
Proof. vm_cast_no_check (eq_refl demo_store). Qed.

Lemma demo_reachable : reachable demo_genesis demo_system.
Proof.
  exists (mkSystem [connect] [demo_fresh; demo_fresh]). split.
  { split; [by exists connect|]. assert (exists s, stores s demo_genesis /\ started s demo_fresh).
    { exists demo_store. split; [apply demo_stores|apply demo_started]. }
    by repeat constructor. }
  eapply rtc_l; [split; [apply (sy_consume _ _ 0%nat demo_fresh connect); [done|done|by apply demo_consumes; vm_compute]|by apply limits_b_ok; vm_compute]|].
  eapply rtc_l; [split; [apply (sy_post _ _ message); by intros n; vm_compute|by apply limits_b_ok; vm_compute]|].
  eapply rtc_l; [split; [apply (sy_consume _ _ 0%nat (demo_consume connect demo_fresh) message); [done|done|by apply demo_consumes; vm_compute]|by apply limits_b_ok; vm_compute]|].
  eapply rtc_l; [split; [apply (sy_timer _ _ 0%nat demo_timed demo_ttc (rp_chain demo_sent)); [done|by vm_compute|exact demo_sends]|by apply limits_b_ok; vm_compute]|].
  eapply rtc_l; [split; [apply (sy_consume _ _ 0%nat demo_sent demo_ttc); [done|done|by apply demo_consumes; vm_compute]|by apply limits_b_ok; vm_compute]|].
  eapply rtc_l; [split; [apply (sy_consume _ _ 1%nat demo_fresh connect); [done|done|by apply demo_consumes; vm_compute]|by apply limits_b_ok; vm_compute]|].
  apply rtc_once. split; [|by apply limits_b_ok; vm_compute].
  apply (sy_restart [connect; message; demo_ttc] [demo_cut; demo_consume connect demo_fresh] 1%nat
    (demo_consume connect demo_fresh) demo_store demo_fresh); [reflexivity| |apply demo_started].
  apply lb_idle. rewrite demo_connected. apply demo_store_reopened.
Qed.

Lemma kafka_agreement_witness :
  exists bi bj, holds (ledger demo_cut) bi /\ holds (ledger demo_fresh) bj /\
    ((core_of <$> bi) `prefix_of` (core_of <$> bj) \/ (core_of <$> bj) `prefix_of` (core_of <$> bi)).
Proof.
  apply (kafka_agreement demo_genesis demo_system 0 1); [apply demo_genesis_ok|apply demo_reachable|done|done|done].
Defined.

Lemma kafka_total_order_witness :
  exists bs, holds (ledger demo_cut) bs /\
    concat (blk_Data <$> bs) ++ (marshal_Envelope <$> pendingBatch (cs_cutter (support (rp_chain demo_cut)))) =
    block_data demo_genesis ++ (marshal_Envelope <$> accepted demo_genesis (sy_log demo_system) 3).
Proof.
  apply (kafka_total_order demo_genesis demo_system 0); [apply demo_genesis_ok|apply demo_reachable|done|done].
Defined.

Lemma kafka_chain_linked_witness :
  exists bs, holds (ledger demo_cut) bs /\
    (forall k b, bs !! k = Some b -> Number (blk_Header b) = Z.of_nat k) /\
    forall k b b', bs !! k = Some b -> bs !! S k = Some b' ->
      BlockHash.header_Hash (blk_Header b) = Ok (PreviousHash (blk_Header b')) /\
      BlockHash.data_Hash (blk_Data b') = Ok (DataHash (blk_Header b')).
Proof.
  apply (kafka_chain_linked demo_genesis demo_system 0); [apply demo_genesis_ok|apply demo_reachable|done|done].
Defined.

Lemma kafka_orderer_restarts_witness :
  exists ch q, start demo_store tt = Ok ch /\ start_offset ch = Z.of_nat q /\ (q <= 3)%nat.
Proof.
  apply (kafka_orderer_restarts demo_genesis demo_system 1 demo_fresh);
    [apply demo_genesis_ok|apply demo_reachable|done|done|apply lb_idle, demo_store_reopened].
Defined.

(** *** A timer that is not set

    A message that does not fit beside the pending ones: they are cut, the
    message is pending, and the timer is stopped. *)

Definition large_message : bytes := marshal_Envelope (demo_envelope "a message of 20 byte").

Example overflow_disarms_timer :
  let ch := (processRegular large_message 2 (rp_chain demo_timed)).1 in
  timer (rp_chain demo_timed) = true /\ (processRegular large_message 2 (rp_chain demo_timed)).2 = Ok tt /\
  timer ch = false /\ Height (cs_ledger (support ch)) = 2 /\
  pendingBatch (cs_cutter (support ch)) = [demo_envelope "a message of 20 byte"].
Proof. by vm_compute. Qed.

End KafkaTheorems.
