(* ===== verification/MsgValidation.v ===== *)
(** * Transactions, their form and their signatures

    core/common/validation/msgvalidation.go: the checks of a proposal and of a
    transaction envelope; msp/mgmt: the membership services of the channels;
    core/scc: the system chaincodes; and the accessors of protos/utils that they
    use. *)

From stdpp Require Import base gmap strings list.
From Stdlib Require Import Ascii ZArith Lia.
From S2P Require Import Prelude Proto Validator BlockHash CAuthDSL.
Import ProtoUtils Flags CommonUtil.
Local Open Scope Z_scope.

(** ** Messages *)

(** [PayloadVisibility] and [ChaincodeId] may be nil. *)
Record ChaincodeHeaderExtension := mkCHE {
  che_PayloadVisibility : option bytes;
  che_ChaincodeId : option ChaincodeID
}.

Record ChaincodeProposalPayload := mkCPP { cpp_Input : bytes; cpp_TransientMap : gmap string bytes }.

(** The arguments of [Input]; a nil slice of arguments is empty. *)
Record ChaincodeSpec := mkChaincodeSpec {
  spec_Type : Z;
  spec_ChaincodeId : option ChaincodeID;
  spec_Input : option (list bytes)
}.

Record ChaincodeInvocationSpec := mkCIS { cis_ChaincodeSpec : option ChaincodeSpec }.

(** [ChaincodeSpec_GOLANG] and [ChaincodeSpec_JAVA] *)
Definition GOLANG : Z := 1.
Definition JAVA : Z := 4.

Record ChaincodeDeploymentSpec := mkCDS { cds_ChaincodeSpec : option ChaincodeSpec; cds_CodePackage : bytes }.

(** [ccprovider.ChaincodeData] *)
Record ChaincodeData := mkChaincodeData {
  cd_Name : string;
  cd_Version : string;
  cd_Escc : string;
  cd_Vscc : string;
  cd_Policy : bytes;
  cd_Data : bytes;
  cd_Id : bytes;
  cd_InstantiationPolicy : bytes
}.

Record SerializedIdentity := mkSerializedIdentity { si_Mspid : string; si_IdBytes : bytes }.

Record Proposal := mkProposal { prop_Header : bytes; prop_Payload : bytes }.

Record SignedProposal := mkSignedProposal { sp_ProposalBytes : bytes; sp_Signature : bytes }.

(** The generated code, and the check that the platform of a chaincode makes of
    its deployment specification. *)
Class TxCodec := {
  unmarshal_Header : bytes -> res Header;
  unmarshal_Proposal : bytes -> res Proposal;
  unmarshal_ChaincodeHeaderExtension : bytes -> res ChaincodeHeaderExtension;
  unmarshal_ChaincodeProposalPayload : bytes -> res ChaincodeProposalPayload;
  unmarshal_ChaincodeInvocationSpec : bytes -> res ChaincodeInvocationSpec;
  unmarshal_ChaincodeDeploymentSpec : bytes -> res ChaincodeDeploymentSpec;
  unmarshal_ChaincodeData : bytes -> res ChaincodeData;
  unmarshal_SerializedIdentity : bytes -> res SerializedIdentity;
  marshal_SignaturePolicyEnvelope : SignaturePolicyEnvelope -> res bytes;
  ValidateDeploymentSpec : ChaincodeSpec -> res unit
}.

(** [msp.SigningIdentity] *)
Record SigningIdentity := mkSigningIdentity {
  Serialize : res bytes;
  Sign : bytes -> res bytes
}.

(** ** msp/mgmt/mgmt.go

    [None]: the manager of the channel has no membership services. *)
Class MSPManagers := {
  GetLocalMSP : MSP;
  GetManagerForChain : string -> option MSP
}.

Definition GetIdentityDeserializer `{MSPManagers} (chainID : string) : option MSP :=
  if decide (chainID = "") then Some GetLocalMSP else GetManagerForChain chainID.

(** ** core/scc/importsysccs.go *)

Module SystemChaincodes.

Record SystemChaincode := mkSystemChaincode {
  Name : string;
  InvokableExternal : bool;
  InvokableCC2CC : bool
}.

Definition systemChaincodes : list SystemChaincode :=
  [mkSystemChaincode "cscc" true false; mkSystemChaincode "lscc" true true; mkSystemChaincode "escc" false false;
   mkSystemChaincode "vscc" false false; mkSystemChaincode "qscc" true true].

Fixpoint find_syscc (l : list SystemChaincode) (name : string) : option SystemChaincode :=
  match l with
  | [] => None
  | sysCC :: l => if decide (Name sysCC = name) then Some sysCC else find_syscc l name
  end.

Definition IsSysCC (name : string) : bool :=
  match find_syscc systemChaincodes name with Some _ => true | None => false end.

Definition IsSysCCAndNotInvokableExternal (name : string) : bool :=
  match find_syscc systemChaincodes name with Some sysCC => negb (InvokableExternal sysCC) | None => false end.

Definition IsSysCCAndNotInvokableCC2CC (name : string) : bool :=
  match find_syscc systemChaincodes name with Some sysCC => negb (InvokableCC2CC sysCC) | None => false end.

End SystemChaincodes.

(** ** protos/utils *)

Module TxUtils.

(** [hex.EncodeToString] *)
Definition hex_digit (n : Z) : ascii := ascii_of_nat (Z.to_nat (if n <? 10 then 48 + n else 87 + n)).

Fixpoint hex (b : bytes) : bytes :=
  match b with
  | [] => []
  | c :: b => hex_digit (byte_val c / 16) :: hex_digit (byte_val c mod 16) :: hex b
  end.

Section TxUtils.
Context `{ProtoCodec} `{SignatureCodec} `{TxCodec} `{CryptoHash}.

Definition GetSignatureHeader (b : bytes) : res SignatureHeader := unmarshal_SignatureHeader b.

Definition GetChaincodeHeaderExtension (hdr : Header) : res ChaincodeHeaderExtension :=
  chdr ← UnmarshalChannelHeader (hdr_ChannelHeader hdr);
  unmarshal_ChaincodeHeaderExtension (ch_Extension chdr).

(** The field access panics on a nil specification. *)
Definition GetChaincodeDeploymentSpec (code : bytes) : res ChaincodeDeploymentSpec :=
  cds ← unmarshal_ChaincodeDeploymentSpec code;
  match cds_ChaincodeSpec cds with
  | None => Panic "nil pointer dereference"
  | Some spec => ValidateDeploymentSpec spec;; Ok cds
  end.

Definition ComputeProposalTxID (nonce creator : bytes) : res string :=
  digest ← bccsp_Hash (nonce ++ creator);
  Ok (to_string (hex digest)).

Definition CheckProposalTxID (txid : string) (nonce creator : bytes) : res unit :=
  match ComputeProposalTxID nonce creator with
  | Err e => Err ("Failed computing target TXID for comparison [" +:+ e +:+ "]")
  | Panic m => Panic m
  | OutOfFuel => OutOfFuel
  | Ok computedTxID =>
      if decide (txid = computedTxID) then Ok tt else Err ("Transaction is not valid. Got [" +:+ txid +:+ "]")
  end.

Definition GetProposalHash2 (header : Header) (ccPropPayl : bytes) : res bytes :=
  if is_nil (hdr_ChannelHeader header) || is_nil (hdr_SignatureHeader header) || is_nil ccPropPayl then Err "Nil arguments"
  else bccsp_Hash (hdr_ChannelHeader header ++ hdr_SignatureHeader header ++ ccPropPayl).

End TxUtils.
End TxUtils.
Import TxUtils.

(** ** msgvalidation.go *)

Module MsgValidation.
Section MsgValidation.
Context `{ProtoCodec} `{SignatureCodec} `{TxCodec} `{CryptoHash} `{MSPManagers}.

(** The header extension of a proposal to a chaincode. *)
Definition validateChaincodeProposalMessage (prop : Proposal) (hdr : Header) : res ChaincodeHeaderExtension :=
  match GetChaincodeHeaderExtension hdr with
  | Err _ => Err "Invalid header extension for type CHAINCODE"
  | Panic m => Panic m
  | OutOfFuel => OutOfFuel
  | Ok chaincodeHdrExt =>
      match che_ChaincodeId chaincodeHdrExt with
      | None => Err "ChaincodeHeaderExtension.ChaincodeId is nil"
      | Some _ =>
          match che_PayloadVisibility chaincodeHdrExt with
          | Some _ => Err "Invalid payload visibility field"
          | None => Ok chaincodeHdrExt
          end
      end
  end.

Definition checkSignatureFromCreator (creatorBytes sig msg : bytes) (ChainID : string) : res unit :=
  if is_nil creatorBytes || is_nil sig || is_nil msg then Err "Nil arguments"
  else
    match GetIdentityDeserializer ChainID with
    | None => Err ("could not get msp for chain [" +:+ ChainID +:+ "]")
    | Some mspObj =>
        creator ← match @DeserializeIdentity mspObj creatorBytes with
                  | Err e => Err ("Failed to deserialize creator identity, err " +:+ e) | r => r end;
        match @identity_Validate mspObj creator with
        | Err e => Err ("The creator certificate is not valid, err " +:+ e) | r => r end;;
        match @Verify mspObj creator msg sig with
        | Err e => Err ("The creator's signature over the proposal is not valid, err " +:+ e) | r => r end
    end.

Definition validateSignatureHeader (sHdr : SignatureHeader) : res unit :=
  if is_nil (sh_Nonce sHdr) then Err "Invalid nonce specified in the header"
  else if is_nil (sh_Creator sHdr) then Err "Invalid creator specified in the header"
  else Ok tt.

Definition validateChannelHeader (cHdr : ChannelHeader) : res unit :=
  match ch_Type cHdr with
  | ENDORSER_TRANSACTION | CONFIG_UPDATE | CONFIG =>
      if negb (ch_Epoch cHdr =? 0) then Err "Invalid Epoch in ChannelHeader. It must be 0." else Ok tt
  | _ => Err "invalid header type"
  end.

Definition validateCommonHeader (hdr : option Header) : res (ChannelHeader * SignatureHeader) :=
  match hdr with
  | None => Err "Nil header"
  | Some hdr =>
      chdr ← UnmarshalChannelHeader (hdr_ChannelHeader hdr);
      shdr ← GetSignatureHeader (hdr_SignatureHeader hdr);
      validateChannelHeader chdr;;
      validateSignatureHeader shdr;;
      Ok (chdr, shdr)
  end.

Definition validateConfigTransaction (data : bytes) : res unit :=
  if is_nil data then Err "Nil arguments" else Ok tt.

(** One action of a transaction.  A nil [Action] panics. *)
Definition validate_action (hdr : Header) (act : TransactionAction) : res unit :=
  sHdr ← GetSignatureHeader (ta_Header act);
  validateSignatureHeader sHdr;;
  ccActionPayload ← unmarshal_ChaincodeActionPayload (ta_Payload act);
  match cap_Action ccActionPayload with
  | None => Panic "nil pointer dereference"
  | Some action =>
      prp ← unmarshal_ProposalResponsePayload (default [] (cea_ProposalResponsePayload action));
      let hdrOrig := mkHeader (hdr_ChannelHeader hdr) (ta_Header act) in
      pHash ← GetProposalHash2 hdrOrig (cap_ChaincodeProposalPayload ccActionPayload);
      if decide (pHash = prp_ProposalHash prp) then Ok tt else Err "proposal hash does not match"
  end.

Fixpoint validate_actions (hdr : Header) (acts : list TransactionAction) : res unit :=
  match acts with
  | [] => Ok tt
  | act :: acts => validate_action hdr act;; validate_actions hdr acts
  end.

Definition validateEndorserTransaction (data : bytes) (hdr : Header) : res unit :=
  if is_nil data then Err "Nil arguments"
  else
    tx ← GetTransaction data;
    if negb (length (tx_Actions tx) =? 1)%nat then Err "Only one action per transaction is supported"
    else validate_actions hdr (tx_Actions tx).

Definition ValidateProposalMessage (signedProp : SignedProposal) : res (Proposal * Header * ChaincodeHeaderExtension) :=
  prop ← unmarshal_Proposal (sp_ProposalBytes signedProp);
  hdr ← unmarshal_Header (prop_Header prop);
  '(chdr, shdr) ← validateCommonHeader (Some hdr);
  checkSignatureFromCreator (sh_Creator shdr) (sp_Signature signedProp) (sp_ProposalBytes signedProp) (ch_ChannelId chdr);;
  CheckProposalTxID (ch_TxId chdr) (sh_Nonce shdr) (sh_Creator shdr);;
  match ch_Type chdr with
  | CONFIG | ENDORSER_TRANSACTION =>
      chaincodeHdrExt ← validateChaincodeProposalMessage prop hdr;
      Ok (prop, hdr, chaincodeHdrExt)
  | _ => Err "Unsupported proposal type"
  end.

(** The code of a check that failed. *)
Definition code_of {A} (r : res A) (code : Z) (k : A -> res (option Payload * Z)) : res (option Payload * Z) :=
  match r with
  | Ok a => k a
  | Err _ => Ok (None, code)
  | Panic m => Panic m
  | OutOfFuel => OutOfFuel
  end.

Definition ValidateTransaction (e : Envelope) : res (option Payload * Z) :=
  code_of (GetPayload e) TxValidationCode_BAD_PAYLOAD (fun payload =>
  code_of (validateCommonHeader (pl_Header payload)) TxValidationCode_BAD_COMMON_HEADER (fun '(chdr, shdr) =>
  code_of (checkSignatureFromCreator (sh_Creator shdr) (env_Signature e) (env_Payload e) (ch_ChannelId chdr))
    TxValidationCode_BAD_CREATOR_SIGNATURE (fun _ =>
  match ch_Type chdr, pl_Header payload with
  | ENDORSER_TRANSACTION, Some hdr =>
      code_of (CheckProposalTxID (ch_TxId chdr) (sh_Nonce shdr) (sh_Creator shdr)) TxValidationCode_BAD_PROPOSAL_TXID (fun _ =>
      match validateEndorserTransaction (pl_Data payload) hdr with
      | Ok _ => Ok (Some payload, TxValidationCode_VALID)
      | Err _ => Ok (Some payload, TxValidationCode_INVALID_ENDORSER_TRANSACTION)
      | Panic m => Panic m
      | OutOfFuel => OutOfFuel
      end)
  | CONFIG, Some _ =>
      match validateConfigTransaction (pl_Data payload) with
      | Ok _ => Ok (Some payload, TxValidationCode_VALID)
      | Err _ => Ok (Some payload, TxValidationCode_INVALID_CONFIG_TRANSACTION)
      | Panic m => Panic m
      | OutOfFuel => OutOfFuel
      end
  | _, _ => Ok (None, TxValidationCode_UNSUPPORTED_TX_PAYLOAD)
  end))).

End MsgValidation.
End MsgValidation.
