(* ===== verification/Membership.v ===== *)
(** * Membership services

    msp: a membership service provider over X.509 certificates, its identities
    and the manager of the providers of a channel; msp/mgmt: the providers of the
    process; common/config/msp: the manager that a configuration sets up.  The
    X.509 library of Go is a parameter. *)

From stdpp Require Import base gmap sets strings list.
From Stdlib Require Import Ascii ZArith Lia.
From S2P Require Import Prelude Proto BlockHash Bccsp CAuthDSL MsgValidation.
Local Open Scope Z_scope.

(** ** Certificates *)

Record Extension := mkExtension { ext_Id : list Z; ext_Value : bytes }.

Inductive SignatureAlgorithm := ECDSAWithSHA1 | ECDSAWithSHA256 | ECDSAWithSHA384 | ECDSAWithSHA512 | OtherAlgorithm.

Inductive CertKey := CertECDSA (k : PublicKey) | CertRSA (k : bytes) | CertOther.

(** [x509.Certificate]; times in seconds. *)
Record Certificate := mkCertificate {
  Raw : bytes;
  Signature : bytes;
  cert_SignatureAlgorithm : SignatureAlgorithm;
  cert_PublicKey : CertKey;
  SerialNumber : Z;
  IsCA : bool;
  NotBefore : Z;
  Extensions : list Extension;
  OrganizationalUnit : list string
}.

(** [pkix.CertificateList], with the serial numbers that it revokes. *)
Record CertificateList := mkCertificateList {
  TBSCertList : bytes;
  crl_Extensions : list Extension;
  RevokedCertificates : list Z
}.

(** [x509.VerifyOptions]; without a time it is the time of the call. *)
Record VerifyOptions := mkVerifyOptions {
  Roots : list Certificate;
  Intermediates : list Certificate;
  CurrentTime : option Z
}.

#[export] Instance Extension_eq_dec : EqDecision Extension.
Proof. solve_decision. Defined.
#[export] Instance SignatureAlgorithm_eq_dec : EqDecision SignatureAlgorithm.
Proof. solve_decision. Defined.
#[export] Instance CertKey_eq_dec : EqDecision CertKey.
Proof. solve_decision. Defined.
#[export] Instance Certificate_eq_dec : EqDecision Certificate.
Proof. solve_decision. Defined.

(** [crypto/x509], [encoding/pem] and [encoding/asn1] *)
Class X509 := {
  pem_Decode : bytes -> option bytes;
  pem_EncodeToMemory : bytes -> option bytes;
  ParseCertificate : bytes -> res Certificate;
  ParseCRL : bytes -> res CertificateList;
  cert_Verify : Certificate -> VerifyOptions -> res (list (list Certificate));
  CheckCRLSignature : Certificate -> CertificateList -> res unit;
  (** an octet string, the key identifier of an authority key identifier *)
  asn1_SKI : bytes -> res bytes;
  asn1_AKI : bytes -> res bytes;
  (** the bytes of a certificate with another signature *)
  asn1_resign : bytes -> bytes -> res bytes
}.

(** What the documentation says: a certificate has the bytes it was parsed from;
    a chain starts with the certificate and ends in a root, over intermediate
    certificates; PEM blocks are decoded to what was encoded. *)
Class X509Spec `{X509} : Prop := {
  parse_Raw b c : ParseCertificate b = Ok c -> Raw c = b;
  verify_chain c o chains chain : cert_Verify c o = Ok chains -> chain ∈ chains ->
    head chain = Some c /\ (exists r, last chain = Some r /\ r ∈ Roots o) /\
    Forall (fun x => x = c \/ x ∈ Intermediates o \/ x ∈ Roots o) chain;
  pem_decode_encode b e : pem_EncodeToMemory b = Some e -> pem_Decode e = Some b
}.

(** ** Messages of protos/msp *)

(** The enumeration of roles is open. *)
Inductive RoleType := KnownRole (r : MSPRoleType) | OtherRole (n : Z).

Record OrganizationUnit := mkOrganizationUnit { ou_MspIdentifier : string; ou_Identifier : string; ou_CertifiersIdentifier : bytes }.

Record SigningIdentityInfo := mkSigningIdentityInfo {
  PublicSigner : bytes;
  (** the key material, if there is a private signer *)
  PrivateSigner : option bytes
}.

Record FabricCryptoConfig := mkCryptoConfig { SignatureHashFamily : string; IdentityIdentifierHashFunction : string }.

Record FabricOUIdentifier := mkFabricOU { fou_Certificate : bytes; fou_Identifier : string }.

Record FabricMSPConfig := mkFabricMSPConfig {
  conf_Name : string;
  conf_RootCerts : list bytes;
  conf_IntermediateCerts : list bytes;
  conf_Admins : list bytes;
  conf_RevocationList : list bytes;
  conf_SigningIdentity : option SigningIdentityInfo;
  conf_OUs : list FabricOUIdentifier;
  conf_CryptoConfig : option FabricCryptoConfig;
  conf_TlsRootCerts : list bytes;
  conf_TlsIntermediateCerts : list bytes
}.

Record MSPConfig := mkMSPConfig { msp_Type : Z; msp_Config : bytes }.

#[export] Instance MSPConfig_eq_dec : EqDecision MSPConfig.
Proof. solve_decision. Defined.

Class MSPCodec := {
  unmarshal_FabricMSPConfig : bytes -> res FabricMSPConfig;
  unmarshal_MSPRole : bytes -> res (RoleType * string);
  unmarshal_OrganizationUnit : bytes -> res OrganizationUnit
}.

(** ** cert.go *)

Module Cert.
Section Cert.
Context `{Primitives} `{X509}.

Definition isECDSASignedCert (cert : Certificate) : bool := negb (bool_decide (cert_SignatureAlgorithm cert = OtherAlgorithm)).

Definition sanitizeECDSASignedCert (cert parentCert : Certificate) : res Certificate :=
  match cert_PublicKey parentCert with
  | CertECDSA k =>
      expectedSig ← SW.SignatureToLowS k (Signature cert);
      if decide (Signature cert = expectedSig) then Ok cert
      else newRaw ← asn1_resign (Raw cert) expectedSig; ParseCertificate newRaw
  | _ => Panic "interface conversion: interface {} is not *ecdsa.PublicKey"
  end.

(** [AddCert], which leaves out a certificate that the pool has. *)
Definition AddCert (pool : list Certificate) (cert : Certificate) : list Certificate :=
  if existsb (fun c => bool_decide (Raw c = Raw cert)) pool then pool else pool ++ [cert].

(** The element of a slice. *)
Definition at_index {A} (l : list A) (i : nat) : res A := match l !! i with Some x => Ok x | None => Panic "index out of range" end.

End Cert.
End Cert.

(** ** identities.go, mspimpl.go *)

Module BccspMsp.
Import Cert.

(** The reference of an identity to its provider is an argument of its methods. *)
Record identity := mkIdentity { id_Mspid : string; id_Id : string; id_cert : Certificate; id_pk : option Key }.

(** With the key of the signer. *)
Record signingidentity := mkSigning { sid_identity : identity; sid_signer : Key }.

Record bccspmsp := mkMsp {
  rootCerts : list identity;
  intermediateCerts : list identity;
  tlsRootCerts : list bytes;
  tlsIntermediateCerts : list bytes;
  certificationTreeInternalNodes : gset bytes;
  signer : option signingidentity;
  admins : list identity;
  name : string;
  opts : option VerifyOptions;
  CRL : list CertificateList;
  ouIdentifiers : gmap string (list bytes);
  cryptoConfig : option FabricCryptoConfig
}.

Definition NewBccspMsp : bccspmsp := mkMsp [] [] [] [] ∅ None [] "" None [] ∅ None.

Definition with_CAs (m : bccspmsp) (roots intermediates : list identity) (o : option VerifyOptions) : bccspmsp :=
  mkMsp roots intermediates (tlsRootCerts m) (tlsIntermediateCerts m) (certificationTreeInternalNodes m) (signer m) (admins m) (name m) o (CRL m)
    (ouIdentifiers m) (cryptoConfig m).
Definition with_opts (m : bccspmsp) (o : VerifyOptions) : bccspmsp := with_CAs m (rootCerts m) (intermediateCerts m) (Some o).
Definition with_TLS (m : bccspmsp) (roots intermediates : list bytes) : bccspmsp :=
  mkMsp (rootCerts m) (intermediateCerts m) roots intermediates (certificationTreeInternalNodes m) (signer m) (admins m) (name m) (opts m) (CRL m)
    (ouIdentifiers m) (cryptoConfig m).
Definition with_internal (m : bccspmsp) (nodes : gset bytes) : bccspmsp :=
  mkMsp (rootCerts m) (intermediateCerts m) (tlsRootCerts m) (tlsIntermediateCerts m) nodes (signer m) (admins m) (name m) (opts m) (CRL m)
    (ouIdentifiers m) (cryptoConfig m).
Definition with_signer (m : bccspmsp) (s : signingidentity) : bccspmsp :=
  mkMsp (rootCerts m) (intermediateCerts m) (tlsRootCerts m) (tlsIntermediateCerts m) (certificationTreeInternalNodes m) (Some s) (admins m) (name m)
    (opts m) (CRL m) (ouIdentifiers m) (cryptoConfig m).
Definition with_admins (m : bccspmsp) (l : list identity) : bccspmsp :=
  mkMsp (rootCerts m) (intermediateCerts m) (tlsRootCerts m) (tlsIntermediateCerts m) (certificationTreeInternalNodes m) (signer m) l (name m)
    (opts m) (CRL m) (ouIdentifiers m) (cryptoConfig m).
Definition with_name (m : bccspmsp) (n : string) : bccspmsp :=
  mkMsp (rootCerts m) (intermediateCerts m) (tlsRootCerts m) (tlsIntermediateCerts m) (certificationTreeInternalNodes m) (signer m) (admins m) n
    (opts m) (CRL m) (ouIdentifiers m) (cryptoConfig m).
Definition with_CRL (m : bccspmsp) (l : list CertificateList) : bccspmsp :=
  mkMsp (rootCerts m) (intermediateCerts m) (tlsRootCerts m) (tlsIntermediateCerts m) (certificationTreeInternalNodes m) (signer m) (admins m) (name m)
    (opts m) l (ouIdentifiers m) (cryptoConfig m).
Definition with_OUs (m : bccspmsp) (ous : gmap string (list bytes)) : bccspmsp :=
  mkMsp (rootCerts m) (intermediateCerts m) (tlsRootCerts m) (tlsIntermediateCerts m) (certificationTreeInternalNodes m) (signer m) (admins m) (name m)
    (opts m) (CRL m) ous (cryptoConfig m).
Definition with_crypto (m : bccspmsp) (c : FabricCryptoConfig) : bccspmsp :=
  mkMsp (rootCerts m) (intermediateCerts m) (tlsRootCerts m) (tlsIntermediateCerts m) (certificationTreeInternalNodes m) (signer m) (admins m) (name m)
    (opts m) (CRL m) (ouIdentifiers m) (Some c).

Section BccspMsp.
Context `{Primitives} `{X509} `{MSPCodec} `{TxCodec}.

(** The configuration and the key store of the crypto provider. *)
Context (csp : SW.config) (ks_GetKey : bytes -> res Key).

(** *** Certificates *)

Definition getCertFromPem (idBytes : bytes) : res Certificate :=
  if is_nil idBytes then Err "getIdentityFromConf error: nil idBytes"
  else
    match pem_Decode idBytes with
    | None => Err "getIdentityFromBytes error: could not decode pem bytes"
    | Some b => or_fail "getIdentityFromBytes error: failed to parse x509 cert" (ParseCertificate b)
    end.

(** [msp.opts] is dereferenced. *)
Definition getValidityOptsForCert (msp : bccspmsp) (cert : Certificate) : res VerifyOptions :=
  match opts msp with
  | None => Panic "nil pointer dereference"
  | Some o => Ok (mkVerifyOptions (Roots o) (Intermediates o) (Some (NotBefore cert + 1)))
  end.

Definition getUniqueValidationChain (msp : bccspmsp) (cert : Certificate) (o : VerifyOptions) : res (list Certificate) :=
  match opts msp with
  | None => Err "The supplied identity has no verify options"
  | Some _ =>
      validationChains ← or_fail "The supplied identity is not valid" (cert_Verify cert o);
      match validationChains with
      | [chain] => Ok chain
      | _ => Err "This MSP only supports a single validation chain"
      end
  end.

Definition sanitizeCert (msp : bccspmsp) (cert : Certificate) : res Certificate :=
  if isECDSASignedCert cert then
    o ← getValidityOptsForCert msp cert;
    chain ← getUniqueValidationChain msp cert o;
    parentCert ← (if IsCA cert && (length chain =? 1)%nat then Ok cert else at_index chain 1);
    sanitizeECDSASignedCert cert parentCert
  else Ok cert.

(** *** Identities *)

Definition newIdentity (msp : bccspmsp) (mspid id : string) (cert : Certificate) (pk : option Key) : res identity :=
  cert ← sanitizeCert msp cert;
  Ok (mkIdentity mspid id cert pk).

(** bccsp/sw/keyimport.go: [X509PublicKeyImportOpts] *)
Definition KeyImport_x509 (cert : Certificate) : res Key :=
  match cert_PublicKey cert with
  | CertECDSA k => Ok (ecdsaPublicKey k)
  | CertRSA k => Ok (rsaPublicKey k)
  | CertOther => Err "Failed importing key with opts"
  end.

(** The hash of the certificate, as an identifier. *)
Definition identifier (msp : bccspmsp) (cert : Certificate) : res string :=
  match cryptoConfig msp with
  | None => Panic "nil pointer dereference"
  | Some c =>
      hashOpt ← or_fail "failed getting hash function options" (GetHashOpt (IdentityIdentifierHashFunction c));
      digest ← or_fail "failed hashing raw certificate to compute the id of the IdentityIdentifier" (SW.Hash csp (Raw cert) (Some hashOpt));
      Ok (to_string (TxUtils.hex digest))
  end.

(** The error of [KeyImport] is overwritten. *)
Definition getIdentityFromConf (msp : bccspmsp) (idBytes : bytes) : res (identity * option Key) :=
  cert ← getCertFromPem idBytes;
  let certPubK := match KeyImport_x509 cert with Ok k => Some k | _ => None end in
  id ← identifier msp cert;
  mspId ← newIdentity msp (name msp) id cert certPubK;
  Ok (mspId, certPubK).

Definition deserializeIdentityInternal (msp : bccspmsp) (serializedIdentity : bytes) : res identity :=
  match pem_Decode serializedIdentity with
  | None => Err "Could not decode the PEM structure"
  | Some b =>
      cert ← or_fail "ParseCertificate failed" (ParseCertificate b);
      id ← identifier msp cert;
      pub ← or_fail "Failed to import certitifacate's public key" (KeyImport_x509 cert);
      newIdentity msp (name msp) id cert (Some pub)
  end.

Definition DeserializeIdentity (msp : bccspmsp) (serializedID : bytes) : res identity :=
  sId ← or_fail "Could not deserialize a SerializedIdentity" (unmarshal_SerializedIdentity serializedID);
  if negb (bool_decide (si_Mspid sId = name msp)) then Err ("Expected MSP ID " +:+ name msp +:+ ", received " +:+ si_Mspid sId)
  else deserializeIdentityInternal msp (si_IdBytes sId).

Definition getSigningIdentityFromConf (msp : bccspmsp) (sidInfo : SigningIdentityInfo) : res signingidentity :=
  '(idPub, pubKey) ← getIdentityFromConf msp (PublicSigner sidInfo);
  match pubKey with
  | None => Panic "nil pointer dereference"
  | Some pubKey =>
      privKey ← match ks_GetKey (SW.SKI pubKey) with
                | Err _ =>
                    match PrivateSigner sidInfo with
                    | None | Some [] => Err "KeyMaterial not found in SigningIdentityInfo"
                    | Some material =>
                        match pem_Decode material with
                        | None => Panic "nil pointer dereference"
                        | Some der => or_fail "getIdentityFromBytes error: Failed to import EC private key" (SW.KeyImport_ecdsa der)
                        end
                    end
                | r => r
                end;
      peerSigner ← or_fail "getIdentityFromBytes error: Failed initializing bccspCryptoSigner" (SW.signer_New (Some privKey));
      id ← identifier msp (id_cert idPub);
      mspId ← newIdentity msp (name msp) id (id_cert idPub) (id_pk idPub);
      Ok (mkSigning mspId peerSigner)
  end.

(** *** Validation *)

Fixpoint find_extension (oid : list Z) (exts : list Extension) : option bytes :=
  match exts with
  | [] => None
  | e :: exts => if decide (ext_Id e = oid) then Some (ext_Value e) else find_extension oid exts
  end.

Definition getAuthorityKeyIdentifierFromCrl (crl : CertificateList) : res bytes :=
  match find_extension [2; 5; 29; 35] (crl_Extensions crl) with
  | Some v => or_fail "Failed to unmarshal AKI" (asn1_AKI v)
  | None => Err "authorityKeyIdentifier not found in certificate"
  end.

Definition getSubjectKeyIdentifierFromCert (cert : Certificate) : res bytes :=
  match find_extension [2; 5; 29; 14] (Extensions cert) with
  | Some v => or_fail "Failed to unmarshal Subject Key Identifier" (asn1_SKI v)
  | None => Err "subjectKeyIdentifier not found in certificate"
  end.

Definition isCACert (cert : Certificate) : bool :=
  match getSubjectKeyIdentifierFromCert cert with Ok _ => IsCA cert | _ => false end.

Definition getValidationChain (msp : bccspmsp) (cert : Certificate) (isIntermediateChain : bool) : res (list Certificate) :=
  o ← getValidityOptsForCert msp cert;
  validationChain ← or_fail "Failed getting validation chain" (getUniqueValidationChain msp cert o);
  if (length validationChain <? 2)%nat then Err "Expected a chain of length at least 2"
  else
    parent ← at_index validationChain (if isIntermediateChain then 0 else 1)%nat;
    if decide (Raw parent ∈ certificationTreeInternalNodes msp)
    then Err "Invalid validation chain. Parent certificate should be a leaf of the certification tree"
    else Ok validationChain.

Definition getCertificationChainForBCCSPIdentity (msp : bccspmsp) (id : identity) : res (list Certificate) :=
  match opts msp with
  | None => Err "Invalid msp instance"
  | Some _ =>
      if IsCA (id_cert id) then Err "A CA certificate cannot be used directly by this MSP" else getValidationChain msp (id_cert id) false
  end.

Definition getCertificationChainIdentifierFromChain (msp : bccspmsp) (chain : list Certificate) : res bytes :=
  match cryptoConfig msp with
  | None => Panic "nil pointer dereference"
  | Some c =>
      hashOpt ← or_fail "Failed getting hash function options" (GetHashOpt (IdentityIdentifierHashFunction c));
      SW.Hash csp (chain ≫= Raw) (Some hashOpt)
  end.

(** [chain] has at least two elements. *)
Definition getCertificationChainIdentifier (msp : bccspmsp) (id : identity) : res bytes :=
  chain ← or_fail "Failed getting certification chain" (getCertificationChainForBCCSPIdentity msp id);
  getCertificationChainIdentifierFromChain msp (tail chain).

(** The units of the certificate, with the identifier of its chain. *)
Definition GetOrganizationalUnits (msp : bccspmsp) (id : identity) : res (list (string * bytes)) :=
  match getCertificationChainIdentifier msp id with
  | Ok cid => Ok ((fun unit => (unit, cid)) <$> OrganizationalUnit (id_cert id))
  | Err _ => Ok []
  | Panic m => Panic m
  | OutOfFuel => OutOfFuel
  end.

(** A list with the number that the issuer signed. *)
Fixpoint revoked_in (issuer : Certificate) (serial : Z) (crl : CertificateList) (l : list Z) : res bool :=
  match l with
  | [] => Ok false
  | n :: l =>
      if n =? serial then match CheckCRLSignature issuer crl with Ok _ => Ok true | Err _ => revoked_in issuer serial crl l | Panic m => Panic m | OutOfFuel => OutOfFuel end
      else revoked_in issuer serial crl l
  end.

Fixpoint check_crls (issuer : Certificate) (ski : bytes) (serial : Z) (crls : list CertificateList) : res unit :=
  match crls with
  | [] => Ok tt
  | crl :: crls =>
      aki ← or_fail "Could not obtain Authority Key Identifier for crl" (getAuthorityKeyIdentifierFromCrl crl);
      revoked ← (if decide (aki = ski) then revoked_in issuer serial crl (RevokedCertificates crl) else Ok false);
      if (revoked : bool) then Err "The certificate has been revoked" else check_crls issuer ski serial crls
  end.

Definition validateCertAgainstChain (msp : bccspmsp) (cert : Certificate) (validationChain : list Certificate) : res unit :=
  issuer ← at_index validationChain 1;
  ski ← or_fail "Could not obtain Subject Key Identifier for signer cert" (getSubjectKeyIdentifierFromCert issuer);
  check_crls issuer ski (SerialNumber cert) (CRL msp).

Definition validateIdentityOUs (msp : bccspmsp) (id : identity) : res unit :=
  if decide (ouIdentifiers msp = ∅) then Ok tt
  else
    ous ← GetOrganizationalUnits msp id;
    if existsb (fun ou : string * bytes => bool_decide (ou.2 ∈ default [] (ouIdentifiers msp !! ou.1))) ous then Ok tt
    else match ous with
         | [] => Err "The identity certificate does not contain an Organizational Unit (OU)"
         | _ => Err ("None of the identity's organizational units are in MSP " +:+ name msp)
         end.

Definition validateIdentity (msp : bccspmsp) (id : identity) : res unit :=
  validationChain ← or_fail "Could not obtain certification chain" (getCertificationChainForBCCSPIdentity msp id);
  or_fail "Could not validate identity against certification chain" (validateCertAgainstChain msp (id_cert id) validationChain);;
  or_fail "Could not validate identity's OUs" (validateIdentityOUs msp id).

Definition Validate (msp : bccspmsp) (id : identity) : res unit := validateIdentity msp id.

(** The tail of [validateCAIdentity] and of [validateTLSCAIdentity] *)
Definition validate_CA (msp : bccspmsp) (cert : Certificate) (o : VerifyOptions) : res unit :=
  if negb (IsCA cert) then Err "Only CA identities can be validated"
  else
    validationChain ← or_fail "Could not obtain certification chain" (getUniqueValidationChain msp cert o);
    if (length validationChain =? 1)%nat then Ok tt else validateCertAgainstChain msp cert validationChain.

Definition validateCAIdentity (msp : bccspmsp) (id : identity) : res unit :=
  if negb (IsCA (id_cert id)) then Err "Only CA identities can be validated"
  else o ← getValidityOptsForCert msp (id_cert id); validate_CA msp (id_cert id) o.

(** *** Principals and signatures *)

Definition SatisfiesPrincipal (msp : bccspmsp) (id : identity) (principal : MSPPrincipal) : res unit :=
  match PrincipalClassification principal with
  | ROLE =>
      '(role, mspid) ← or_fail "Could not unmarshal MSPRole from principal" (unmarshal_MSPRole (Principal principal));
      if negb (bool_decide (mspid = name msp)) then Err ("The identity is a member of a different MSP (expected " +:+ mspid +:+ ", got " +:+ id_Mspid id +:+ ")")
      else
        match role with
        | KnownRole MEMBER => Validate msp id
        | KnownRole ADMIN =>
            if existsb (fun admincert => bool_decide (Raw (id_cert id) = Raw (id_cert admincert))) (admins msp) then Ok tt
            else Err "This identity is not an admin"
        | OtherRole _ => Err "Invalid MSP role type"
        end
  | IDENTITY =>
      principalId ← or_fail "Invalid identity principal, not a certificate" (DeserializeIdentity msp (Principal principal));
      if decide (Raw (id_cert id) = Raw (id_cert principalId)) then Validate msp principalId else Err "The identities do not match"
  | ORGANIZATION_UNIT =>
      OU ← or_fail "Could not unmarshal OrganizationUnit from principal" (unmarshal_OrganizationUnit (Principal principal));
      if negb (bool_decide (ou_MspIdentifier OU = name msp))
      then Err ("The identity is a member of a different MSP (expected " +:+ ou_MspIdentifier OU +:+ ", got " +:+ id_Mspid id +:+ ")")
      else
        Validate msp id;;
        ous ← GetOrganizationalUnits msp id;
        if existsb (fun ou : string * bytes => bool_decide (ou = (ou_Identifier OU, ou_CertifiersIdentifier OU))) ous then Ok tt
        else Err "The identities do not match"
  | OtherClassification _ => Err "Invalid principal type"
  end.

Definition getHashOpt (hashFamily : string) : res HashOpts :=
  if decide (hashFamily = "SHA2") then GetHashOpt "SHA256"
  else if decide (hashFamily = "SHA3") then GetHashOpt "SHA3_256"
  else Err ("hash famility not recognized [" +:+ hashFamily +:+ "]").

(** The digest of a message that is signed. *)
Definition digest (msp : bccspmsp) (msg : bytes) : res bytes :=
  match cryptoConfig msp with
  | None => Panic "nil pointer dereference"
  | Some c =>
      hashOpt ← or_fail "Failed getting hash function options" (getHashOpt (SignatureHashFamily c));
      or_fail "Failed computing digest" (SW.Hash csp msg (Some hashOpt))
  end.

Definition Verify (msp : bccspmsp) (id : identity) (msg sig : bytes) : res unit :=
  d ← digest msp msg;
  valid ← or_fail "Could not determine the validity of the signature" (SW.Verify (id_pk id) sig d None);
  if (valid : bool) then Ok tt else Err "The signature is invalid".

Definition Sign (msp : bccspmsp) (entropy : bytes) (id : signingidentity) (msg : bytes) : res bytes :=
  d ← digest msp msg;
  SW.Sign entropy (Some (sid_signer id)) d None.

Definition Serialize `{!Message SerializedIdentity} (id : identity) : res bytes :=
  match pem_EncodeToMemory (Raw (id_cert id)) with
  | None => Err "Encoding of identitiy failed"
  | Some pemBytes => or_fail "Could not marshal a SerializedIdentity structure" (marshal (mkSerializedIdentity (id_Mspid id) pemBytes))
  end.

Definition GetDefaultSigningIdentity (msp : bccspmsp) : res signingidentity :=
  match signer msp with None => Err "This MSP does not possess a valid default signing identity" | Some s => Ok s end.

(** *** Setup *)

(** What a step assigns it assigns at its end: a provider whose setup fails is
    not used. *)
Definition SetupST := ST bccspmsp.

(** An operation on the provider as it is. *)
Definition reading {A} (f : bccspmsp -> res A) : SetupST A := fun msp => (msp, f msp).

Definition setupCrypto (conf : FabricMSPConfig) : SetupST unit :=
  let c := default (mkCryptoConfig "SHA2" "SHA256") (conf_CryptoConfig conf) in
  st_modify (fun msp => with_crypto msp
    (mkCryptoConfig (if decide (SignatureHashFamily c = "") then "SHA2" else SignatureHashFamily c)
       (if decide (IdentityIdentifierHashFunction c = "") then "SHA256" else IdentityIdentifierHashFunction c))).

Definition pool (certs : list Certificate) : list Certificate := foldl AddCert [] certs.

(** The certificates, before and after they are sanitized. *)
Definition pools (roots intermediates : list Certificate) : VerifyOptions := mkVerifyOptions (pool roots) (pool intermediates) None.

Definition identities_from_conf (certs : list bytes) : SetupST (list identity) :=
  reading (fun msp => mapM_res (fun c => r ← getIdentityFromConf msp c; Ok r.1) certs).

Definition setupCAs (conf : FabricMSPConfig) : SetupST unit :=
  match conf_RootCerts conf with
  | [] => st_lift (Err "Expected at least one CA certificate")
  | _ =>
      roots ← st_lift (mapM_res getCertFromPem (conf_RootCerts conf));
      intermediates ← st_lift (mapM_res getCertFromPem (conf_IntermediateCerts conf));
      st_modify (fun msp => with_opts msp (pools roots intermediates));;
      rootIds ← identities_from_conf (conf_RootCerts conf);
      st_modify (fun msp => with_CAs msp rootIds (intermediateCerts msp) (opts msp));;
      intermediateIds ← identities_from_conf (conf_IntermediateCerts conf);
      st_modify (fun msp => with_CAs msp (rootCerts msp) intermediateIds (Some (pools (id_cert <$> rootCerts msp) (id_cert <$> intermediateIds))));;
      adminIds ← identities_from_conf (conf_Admins conf);
      st_modify (fun msp => with_admins msp adminIds)
  end.

Definition setupAdmins (conf : FabricMSPConfig) : SetupST unit :=
  adminIds ← identities_from_conf (conf_Admins conf);
  st_modify (fun msp => with_admins msp adminIds).

Definition setupCRLs (conf : FabricMSPConfig) : SetupST unit :=
  crls ← st_lift (mapM_res (fun b => or_fail "Could not parse RevocationList" (ParseCRL b)) (conf_RevocationList conf));
  st_modify (fun msp => with_CRL msp crls).

(** A certificate of an authority is properly formed and valid. *)
Definition check_CA (msp : bccspmsp) (cert : Certificate) (validate : res unit) : res unit :=
  if negb (isCACert cert) then Err "CA Certificate did not have the Subject Key Identifier extension"
  else or_fail "CA Certificate is not valid" validate.

(** The authorities above the intermediate ones. *)
Definition internal_nodes (msp : bccspmsp) (ids : list identity) : res (list bytes) :=
  chains ← mapM_res (fun id => o ← getValidityOptsForCert msp (id_cert id);
                           or_fail "Failed getting validation chain" (getUniqueValidationChain msp (id_cert id) o)) ids;
  Ok (chains ≫= fun chain => Raw <$> tail chain).

Definition finalizeSetupCAs : SetupST unit :=
  reading (fun msp => mapM_res (fun id => check_CA msp (id_cert id) (validateCAIdentity msp id)) (rootCerts msp ++ intermediateCerts msp));;
  nodes ← reading (fun msp => internal_nodes msp (intermediateCerts msp));
  st_modify (fun msp => with_internal msp (list_to_set nodes)).

Definition setupSigningIdentity (conf : FabricMSPConfig) : SetupST unit :=
  match conf_SigningIdentity conf with
  | None => mret tt
  | Some info => sid ← reading (fun msp => getSigningIdentityFromConf msp info); st_modify (fun msp => with_signer msp sid)
  end.

(** The identifier of the chain of the certificate of a unit. *)
Definition ou_certifiers (msp : bccspmsp) (ou : FabricOUIdentifier) : res bytes :=
  cert ← or_fail "Failed getting certificate" (getCertFromPem (fou_Certificate ou));
  cert ← or_fail "sanitizeCert failed" (sanitizeCert msp cert);
  let registered := existsb (fun id => bool_decide (Raw (id_cert id) = Raw cert)) in
  chain ← (if registered (rootCerts msp) then Ok [cert]
           else if registered (intermediateCerts msp) then or_fail "Failed computing validation chain" (getValidationChain msp cert true)
           else Err "Failed adding OU. Certificate not in root or intermediate certs.");
  or_fail "Failed computing Certifiers Identifier" (getCertificationChainIdentifierFromChain msp chain).

Definition add_ou (ous : gmap string (list bytes)) (id : string) (certifiers : bytes) : gmap string (list bytes) :=
  let l := default [] (ous !! id) in
  if decide (certifiers ∈ l) then ous else <[id := l ++ [certifiers]]> ous.

Fixpoint add_OUs (ous : list FabricOUIdentifier) : SetupST unit :=
  match ous with
  | [] => mret tt
  | ou :: ous =>
      certifiers ← reading (fun msp => ou_certifiers msp ou);
      st_modify (fun msp => with_OUs msp (add_ou (ouIdentifiers msp) (fou_Identifier ou) certifiers));;
      add_OUs ous
  end.

Definition setupOUs (conf : FabricMSPConfig) : SetupST unit :=
  st_modify (fun msp => with_OUs msp ∅);;
  add_OUs (conf_OUs conf).

Definition setupTLSCAs (conf : FabricMSPConfig) : SetupST unit :=
  roots ← st_lift (mapM_res getCertFromPem (conf_TlsRootCerts conf));
  st_modify (fun msp => with_TLS msp (conf_TlsRootCerts conf) (tlsIntermediateCerts msp));;
  intermediates ← st_lift (mapM_res getCertFromPem (conf_TlsIntermediateCerts conf));
  st_modify (fun msp => with_TLS msp (tlsRootCerts msp) (conf_TlsIntermediateCerts conf));;
  reading (fun msp => mapM_res (fun cert => check_CA msp cert (validate_CA msp cert (pools roots intermediates))) (roots ++ intermediates));;
  mret tt.

Definition Setup (conf1 : option MSPConfig) : SetupST unit :=
  match conf1 with
  | None => st_lift (Err "Setup error: nil conf reference")
  | Some conf1 =>
      conf ← st_lift (or_fail "Failed unmarshalling fabric msp config" (unmarshal_FabricMSPConfig (msp_Config conf1)));
      st_modify (fun msp => with_name msp (conf_Name conf));;
      setupCrypto conf;;
      setupCAs conf;;
      setupAdmins conf;;
      setupCRLs conf;;
      finalizeSetupCAs;;
      setupSigningIdentity conf;;
      setupOUs conf;;
      setupTLSCAs conf;;
      reading (fun msp => mapM_res (fun admin => or_fail "admin is invalid" (Validate msp admin)) (admins msp));;
      mret tt
  end.

End BccspMsp.
End BccspMsp.

(** ** mspmgrimpl.go *)

Module MspManager.
Import BccspMsp.

Record mspManagerImpl := mkManagerImpl { mspsMap : gmap string bccspmsp; up : bool }.

Definition NewMSPManager : mspManagerImpl := mkManagerImpl ∅ false.

Definition Setup (msps : list bccspmsp) : ST mspManagerImpl unit := fun mgr =>
  if up mgr then (mgr, Ok tt)
  else
    match msps with
    | [] => (mgr, Err "Setup error: at least one MSP configuration item is required")
    | _ => (mkManagerImpl (foldl (fun m msp => <[name msp := msp]> m) ∅ msps) true, Ok tt)
    end.

Section MspManager.
Context `{Primitives} `{X509} `{MSPCodec} `{TxCodec}.
Context (csp : SW.config).

(** The identity with the provider that it refers to. *)
Definition DeserializeIdentity (mgr : mspManagerImpl) (serializedID : bytes) : res (bccspmsp * identity) :=
  sId ← or_fail "Could not deserialize a SerializedIdentity" (unmarshal_SerializedIdentity serializedID);
  match mspsMap mgr !! si_Mspid sId with
  | None => Err ("MSP " +:+ si_Mspid sId +:+ " is unknown")
  | Some msp => id ← deserializeIdentityInternal csp msp (si_IdBytes sId); Ok (msp, id)
  end.

(** The manager and a provider as the membership service of a channel and of the
    process. *)
Definition manager_msp (mgr : mspManagerImpl) : MSP := {|
  MSPIdentity := bccspmsp * identity;
  CAuthDSL.DeserializeIdentity := DeserializeIdentity mgr;
  CAuthDSL.SatisfiesPrincipal i := BccspMsp.SatisfiesPrincipal csp i.1 i.2;
  CAuthDSL.Verify i := BccspMsp.Verify csp i.1 i.2;
  identity_Validate i := BccspMsp.Validate csp i.1 i.2
|}.

Definition local_msp (msp : bccspmsp) : MSP := {|
  MSPIdentity := bccspmsp * identity;
  CAuthDSL.DeserializeIdentity b := id ← BccspMsp.DeserializeIdentity csp msp b; Ok (msp, id);
  CAuthDSL.SatisfiesPrincipal i := BccspMsp.SatisfiesPrincipal csp i.1 i.2;
  CAuthDSL.Verify i := BccspMsp.Verify csp i.1 i.2;
  identity_Validate i := BccspMsp.Validate csp i.1 i.2
|}.

End MspManager.
End MspManager.

(** ** common/config/msp/config.go *)

Module MSPConfigHandler.
Import BccspMsp MspManager.

Record mspConfigStore := mkStore { idMap : gmap string (MSPConfig * bccspmsp); proposedMgr : option mspManagerImpl }.

(** The keys of the pending configurations are transactions, of a type [Tx]. *)
Record MSPConfigHandler (Tx : Type) `{Countable Tx} := mkHandler {
  pendingConfig : gmap Tx mspConfigStore;
  MSPManager : option mspManagerImpl
}.
Arguments mkHandler {Tx _ _} _ _.
Arguments pendingConfig {Tx _ _} _.
Arguments MSPManager {Tx _ _} _.

Section MSPConfigHandler.
Context `{Primitives} `{X509} `{MSPCodec} `{TxCodec}.
Context (csp : SW.config) (ks_GetKey : bytes -> res Key).
Context {Tx : Type} `{Countable Tx}.

Definition HandlerST := ST (MSPConfigHandler Tx).

Definition NewMSPConfigHandler : MSPConfigHandler Tx := mkHandler ∅ None.

Definition with_pending (bh : MSPConfigHandler Tx) (tx : Tx) (store : mspConfigStore) : MSPConfigHandler Tx :=
  mkHandler (<[tx := store]> (pendingConfig bh)) (MSPManager bh).

Definition BeginConfig (tx : Tx) : HandlerST unit := fun bh =>
  match pendingConfig bh !! tx with
  | Some _ => (bh, Panic "Programming error, called BeginConfig multiply for the same tx")
  | None => (with_pending bh tx (mkStore ∅ None), Ok tt)
  end.

Definition RollbackProposals (tx : Tx) : HandlerST unit :=
  st_modify (fun bh => mkHandler (delete tx (pendingConfig bh)) (MSPManager bh)).

Definition CommitProposals (tx : Tx) : HandlerST unit := fun bh =>
  match pendingConfig bh !! tx with
  | None => (bh, Panic "Programming error, called BeginConfig multiply for the same tx")
  | Some store => (mkHandler (delete tx (pendingConfig bh)) (proposedMgr store), Ok tt)
  end.

Definition FABRIC : Z := 0.

Definition ProposeMSP (tx : Tx) (mspConfig : MSPConfig) : HandlerST bccspmsp := fun bh =>
  match pendingConfig bh !! tx with
  | None => (bh, Panic "Programming error, called BeginConfig multiply for the same tx")
  | Some store =>
      if negb (msp_Type mspConfig =? FABRIC) then (bh, Err "Setup error: unsupported msp type")
      else
        match BccspMsp.Setup csp ks_GetKey (Some mspConfig) NewBccspMsp with
        | (mspInst, Ok _) =>
            match idMap store !! name mspInst with
            | Some (existing, _) =>
                if decide (existing = mspConfig) then (with_pending bh tx (mkStore (<[name mspInst := (mspConfig, mspInst)]> (idMap store)) (proposedMgr store)), Ok mspInst)
                else (bh, Err ("Attempted to define two different versions of MSP: " +:+ name mspInst))
            | None => (with_pending bh tx (mkStore (<[name mspInst := (mspConfig, mspInst)]> (idMap store)) (proposedMgr store)), Ok mspInst)
            end
        | (_, Err e) => (bh, Err ("Setting up the MSP manager failed, err " +:+ e))
        | (_, Panic m) => (bh, Panic m)
        | (_, OutOfFuel) => (bh, OutOfFuel)
        end
  end.

(** The providers are listed in the order of the map; the manager is a map of
    them. *)
Definition PreCommit (tx : Tx) : HandlerST unit := fun bh =>
  match pendingConfig bh !! tx with
  | None => (bh, Panic "Programming error, called PreCommit for tx which was not started")
  | Some store =>
      if decide (idMap store = ∅) then (bh, Ok tt)
      else
        let '(mgr, r) := MspManager.Setup ((fun e => e.2.2) <$> map_to_list (idMap store)) NewMSPManager in
        (with_pending bh tx (mkStore (idMap store) (Some mgr)), r)
  end.

End MSPConfigHandler.
End MSPConfigHandler.
