(* ===== verification/MembershipFacts.v ===== *)
(** * What a membership service provider guarantees

    What its setup establishes; identities that are members, administrators and
    signers; the managers of the channels. *)

From stdpp Require Import base gmap sets strings list.
From Stdlib Require Import Ascii ZArith Lia.
From S2P Require Import Prelude Proto Bccsp CAuthDSL MsgValidation Membership.
Import Cert BccspMsp.
Local Open Scope Z_scope.

(** ** The setup of a provider *)

Module SetupFacts.
Section SetupFacts.
Context `{Primitives} `{X509Spec} `{MSPCodec} `{TxCodec}.
Context (csp : SW.config) (ks_GetKey : bytes -> res Key).

Lemma at_index_Ok {A} (l : list A) i x : at_index l i = Ok x <-> l !! i = Some x.
Proof. unfold at_index. destruct (l !! i); naive_solver. Qed.

(** Certificates are determined by their bytes. *)
Definition parsed (c : Certificate) : Prop := ParseCertificate (Raw c) = Ok c.

Lemma parsed_eq c c' : parsed c -> parsed c' -> Raw c = Raw c' -> c = c'.
Proof. unfold parsed. intros Hc Hc' E. rewrite E, Hc' in Hc. by injection Hc. Qed.

Lemma parse_parsed b c : ParseCertificate b = Ok c -> parsed c.
Proof. intros E. unfold parsed. by rewrite (parse_Raw _ _ E). Qed.

Lemma getCertFromPem_parsed b c : getCertFromPem b = Ok c -> parsed c.
Proof.
  unfold getCertFromPem. destruct (is_nil b); [done|]. destruct (pem_Decode b); [|done]. intros E%or_fail_Ok. by eapply parse_parsed.
Qed.

Lemma sanitizeCert_parsed m c c' : sanitizeCert m c = Ok c' -> parsed c -> parsed c'.
Proof.
  unfold sanitizeCert. destruct (isECDSASignedCert c); [|by intros [= <-]]. intros E Hc. apply res_bind_Ok in E as (o & _ & E).
  apply res_bind_Ok in E as (chain & _ & E). apply res_bind_Ok in E as (parent & _ & E). unfold sanitizeECDSASignedCert in E.
  destruct (cert_PublicKey parent); try done. apply res_bind_Ok in E as (sig & _ & E). case_decide; [by injection E as <-|].
  apply res_bind_Ok in E as (raw & _ & E). by eapply parse_parsed.
Qed.

Lemma newIdentity_inv m mspid i c pk id : newIdentity m mspid i c pk = Ok id ->
  sanitizeCert m c = Ok (id_cert id) /\ id_pk id = pk /\ id_Mspid id = mspid.
Proof. unfold newIdentity. intros E. apply res_bind_Ok in E as (c' & Es & E). by injection E as <-. Qed.

Lemma deserialized_inv m b id : deserializeIdentityInternal csp m b = Ok id ->
  parsed (id_cert id) /\ id_Mspid id = name m /\
  exists raw c k, pem_Decode b = Some raw /\ ParseCertificate raw = Ok c /\ KeyImport_x509 c = Ok k /\ id_pk id = Some k /\ sanitizeCert m c = Ok (id_cert id).
Proof.
  unfold deserializeIdentityInternal. intros E. destruct (pem_Decode b) as [raw|]; [|done]. apply res_bind_Ok in E as (c & Ec%or_fail_Ok & E).
  apply res_bind_Ok in E as (i & _ & E). apply res_bind_Ok in E as (k & Ek%or_fail_Ok & E).
  destruct (newIdentity_inv _ _ _ _ _ _ E) as (Es & Epk & En). split; [by eapply sanitizeCert_parsed, parse_parsed|]. split; [done|].
  exists raw, c, k. done.
Qed.

Lemma from_conf_parsed m b id k : getIdentityFromConf csp m b = Ok (id, k) -> parsed (id_cert id).
Proof.
  unfold getIdentityFromConf. intros E. apply res_bind_Ok in E as (c & Ec & E). apply res_bind_Ok in E as (i & _ & E).
  apply res_bind_Ok in E as (id' & En & E). injection E as <- _. destruct (newIdentity_inv _ _ _ _ _ _ En) as (Es & _).
  by eapply sanitizeCert_parsed, getCertFromPem_parsed.
Qed.

(** A provider that was set up. *)
Record set_up (conf : FabricMSPConfig) (m : bccspmsp) : Prop := {
  su_name : name m = conf_Name conf;
  su_opts : opts m = Some (pools (id_cert <$> rootCerts m) (id_cert <$> intermediateCerts m));
  su_roots : Forall2 (fun b id => exists c m0, getCertFromPem b = Ok c /\ sanitizeCert m0 c = Ok (id_cert id)) (conf_RootCerts conf) (rootCerts m);
  su_admins : Forall (fun id => parsed (id_cert id) /\ Validate csp m id = Ok tt) (admins m);
  su_CRL : Forall2 (fun b crl => ParseCRL b = Ok crl) (conf_RevocationList conf) (CRL m);
  su_CAs : Forall (fun id => isCACert (id_cert id) = true) (rootCerts m ++ intermediateCerts m);
  su_signer s : signer m = Some s -> parsed (id_cert (sid_identity s)) /\ id_Mspid (sid_identity s) = name m
}.

Lemma reading_inv {A} (f : bccspmsp -> res A) m m' a : reading f m = (m', Ok a) -> m' = m /\ f m = Ok a.
Proof. by intros [= <- E]. Qed.

Lemma identities_inv certs m m' ids : identities_from_conf csp certs m = (m', Ok ids) ->
  m' = m /\ Forall2 (fun b id => exists k, getIdentityFromConf csp m b = Ok (id, k)) certs ids.
Proof.
  intros E. apply reading_inv in E as [-> E]. split; [done|]. apply mapM_res_Forall2 in E. eapply Forall2_impl; [exact E|].
  intros b id Eb. cbn in Eb. apply res_bind_Ok in Eb as ([id' k] & Eb & Ei). injection Ei as <-. by exists k.
Qed.

Lemma setupCAs_inv conf m m' : setupCAs csp conf m = (m', Ok tt) ->
  exists roots intermediates adms,
    m' = with_admins (with_CAs m roots intermediates (Some (pools (id_cert <$> roots) (id_cert <$> intermediates)))) adms /\
    Forall2 (fun b id => exists m0 k, getIdentityFromConf csp m0 b = Ok (id, k)) (conf_RootCerts conf) roots.
Proof.
  unfold setupCAs. intros E. destruct (conf_RootCerts conf) as [|b0 bs]; [done|].
  apply st_bind_inv in E as (m1 & rs & E1 & E). injection E1 as <- _. apply st_bind_inv in E as (m2 & is_ & E2 & E). injection E2 as <- _.
  apply st_bind_inv in E as (m3 & [] & E3 & E). injection E3 as <-.
  apply st_bind_inv in E as (m4 & roots & E4 & E). apply identities_inv in E4 as [-> Hroots].
  apply st_bind_inv in E as (m5 & [] & E5 & E). injection E5 as <-.
  apply st_bind_inv in E as (m6 & ints & E6 & E). apply identities_inv in E6 as [-> _].
  apply st_bind_inv in E as (m7 & [] & E7 & E). injection E7 as <-.
  apply st_bind_inv in E as (m8 & adms & E8 & E). apply identities_inv in E8 as [-> _]. injection E as <-.
  exists roots, ints, adms. split; [done|]. eapply Forall2_impl; [exact Hroots|]. intros b id (k & Ek). by eexists _, k.
Qed.

Lemma setupAdmins_inv conf m m' : setupAdmins csp conf m = (m', Ok tt) ->
  exists adms, m' = with_admins m adms /\ Forall (fun id => parsed (id_cert id)) adms.
Proof.
  unfold setupAdmins. intros E. apply st_bind_inv in E as (m1 & adms & E1 & E). apply identities_inv in E1 as [-> Ha]. injection E as <-.
  exists adms. split; [done|]. apply Forall_forall. intros id Hid. apply list_elem_of_lookup in Hid as [i Hi].
  destruct (Forall2_lookup_r _ _ _ _ _ Ha Hi) as (b & _ & k & Ek). by eapply from_conf_parsed.
Qed.

Lemma setupCRLs_inv conf m m' : setupCRLs conf m = (m', Ok tt) ->
  exists crls, m' = with_CRL m crls /\ Forall2 (fun b crl => ParseCRL b = Ok crl) (conf_RevocationList conf) crls.
Proof.
  unfold setupCRLs. intros E. apply st_bind_inv in E as (m1 & crls & E1 & E). injection E1 as <- E1. injection E as <-.
  exists crls. split; [done|]. apply mapM_res_Forall2 in E1. eapply Forall2_impl; [exact E1|]. intros b crl. apply or_fail_Ok.
Qed.

Lemma finalizeSetupCAs_inv m m' : finalizeSetupCAs m = (m', Ok tt) ->
  exists nodes, m' = with_internal m nodes /\ Forall (fun id => isCACert (id_cert id) = true) (rootCerts m ++ intermediateCerts m).
Proof.
  unfold finalizeSetupCAs. intros E. apply st_bind_inv in E as (m1 & us & E1 & E). apply reading_inv in E1 as [-> E1].
  apply st_bind_inv in E as (m2 & nodes & E2 & E). apply reading_inv in E2 as [-> _]. injection E as <-. eexists. split; [done|].
  apply Forall_forall. intros id Hid. apply list_elem_of_lookup in Hid as [i Hi]. apply mapM_res_Forall2 in E1.
  destruct (Forall2_lookup_l _ _ _ _ _ E1 Hi) as (u & _ & Eu). unfold check_CA in Eu. by destruct (isCACert (id_cert id)).
Qed.

Lemma signing_from_conf m info s : getSigningIdentityFromConf csp ks_GetKey m info = Ok s ->
  parsed (id_cert (sid_identity s)) /\ id_Mspid (sid_identity s) = name m.
Proof.
  unfold getSigningIdentityFromConf. intros E. apply res_bind_Ok in E as ([idPub pubKey] & Ei & E). destruct pubKey as [pubKey|]; [|done].
  apply res_bind_Ok in E as (priv & _ & E). apply res_bind_Ok in E as (sg & _ & E). apply res_bind_Ok in E as (i & _ & E).
  apply res_bind_Ok in E as (id & En & E). injection E as <-. destruct (newIdentity_inv _ _ _ _ _ _ En) as (Es & _ & Hn). split; [|done].
  by eapply sanitizeCert_parsed, from_conf_parsed.
Qed.

Lemma setupSigningIdentity_inv conf m m' : setupSigningIdentity csp ks_GetKey conf m = (m', Ok tt) ->
  m' = m \/ exists s, m' = with_signer m s /\ parsed (id_cert (sid_identity s)) /\ id_Mspid (sid_identity s) = name m.
Proof.
  unfold setupSigningIdentity. destruct (conf_SigningIdentity conf) as [info|]; [|intros [= <-]; by left].
  intros E. apply st_bind_inv in E as (m1 & sid & E1 & E). apply reading_inv in E1 as [-> E1]. injection E as <-. right. exists sid. split; [done|].
  by eapply signing_from_conf.
Qed.

Lemma setupOUs_inv conf m m' : setupOUs csp conf m = (m', Ok tt) -> exists ous, m' = with_OUs m ous.
Proof.
  unfold setupOUs. intros E. apply st_bind_inv in E as (m1 & [] & E1 & E). injection E1 as <-.
  assert (exists ous, with_OUs m ∅ = with_OUs m ous) as (ous0 & E0) by (by exists ∅). rewrite E0 in E. clear E0. revert ous0 E.
  induction (conf_OUs conf) as [|ou ous IH]; intros ous0 E; [injection E as <-; by exists ous0|]. cbn [add_OUs] in E.
  apply st_bind_inv in E as (m2 & c & E2 & E). apply reading_inv in E2 as [-> _]. apply st_bind_inv in E as (m3 & [] & E3 & E). injection E3 as <-.
  exact (IH _ E).
Qed.

Lemma setupTLSCAs_inv conf m m' : setupTLSCAs conf m = (m', Ok tt) -> exists a b, m' = with_TLS m a b.
Proof.
  unfold setupTLSCAs. intros E. apply st_bind_inv in E as (m1 & rs & E1 & E). injection E1 as <- _.
  apply st_bind_inv in E as (m2 & [] & E2 & E). injection E2 as <-. apply st_bind_inv in E as (m3 & is_ & E3 & E). injection E3 as <- _.
  apply st_bind_inv in E as (m4 & [] & E4 & E). injection E4 as <-. apply st_bind_inv in E as (m5 & us & E5 & E).
  apply reading_inv in E5 as [-> _]. injection E as <-. by eexists _, _.
Qed.

Lemma Setup_inv conf1 m : Setup csp ks_GetKey (Some conf1) NewBccspMsp = (m, Ok tt) ->
  exists conf, unmarshal_FabricMSPConfig (msp_Config conf1) = Ok conf /\ set_up conf m.
Proof.
  unfold Setup. intros E. apply st_bind_inv in E as (m1 & conf & E1 & E). injection E1 as <- E1%or_fail_Ok. exists conf. split; [done|].
  apply st_bind_inv in E as (m2 & [] & E2 & E). injection E2 as <-. apply st_bind_inv in E as (m3 & [] & E3 & E). injection E3 as <-.
  apply st_bind_inv in E as (m4 & [] & E4 & E). destruct (setupCAs_inv _ _ _ E4) as (roots & ints & adms0 & -> & Hroots).
  apply st_bind_inv in E as (m5 & [] & E5 & E). destruct (setupAdmins_inv _ _ _ E5) as (adms & -> & Hadms).
  apply st_bind_inv in E as (m6 & [] & E6 & E). destruct (setupCRLs_inv _ _ _ E6) as (crls & -> & Hcrls).
  apply st_bind_inv in E as (m7 & [] & E7 & E). destruct (finalizeSetupCAs_inv _ _ E7) as (nodes & -> & Hcas).
  apply st_bind_inv in E as (m8 & [] & E8 & E). apply setupSigningIdentity_inv in E8.
  apply st_bind_inv in E as (m9 & [] & E9 & E). destruct (setupOUs_inv _ _ _ E9) as (ous & ->).
  apply st_bind_inv in E as (m10 & [] & E10 & E). destruct (setupTLSCAs_inv _ _ _ E10) as (ta & tb & ->).
  apply st_bind_inv in E as (m11 & us & E11 & E). apply reading_inv in E11 as [-> E11]. injection E as <-. apply mapM_res_Forall2 in E11.
  assert (Forall2 (fun b id => exists c m0, getCertFromPem b = Ok c /\ sanitizeCert m0 c = Ok (id_cert id)) (conf_RootCerts conf) roots) as Hr.
  { eapply Forall2_impl; [exact Hroots|]. intros b id (mm & k & Ek). unfold getIdentityFromConf in Ek. apply res_bind_Ok in Ek as (c & Ec & Ek).
    apply res_bind_Ok in Ek as (i & _ & Ek). apply res_bind_Ok in Ek as (id' & En & Ek). injection Ek as <- _.
    exists c, mm. by destruct (newIdentity_inv _ _ _ _ _ _ En). }
  assert (forall mm l, Forall2 (fun a b => or_fail "admin is invalid" (Validate csp mm a) = Ok b) adms l ->
    Forall (fun id => parsed (id_cert id) /\ Validate csp mm id = Ok tt) adms) as Hadm.
  { intros mm l Hl. apply Forall_forall. intros id Hid. split; [by eapply Forall_forall in Hadms|]. apply list_elem_of_lookup in Hid as [i Hi].
    destruct (Forall2_lookup_l _ _ _ _ _ Hl Hi) as ([] & _ & Eu). by apply or_fail_Ok in Eu. }
  destruct E8 as [->|(sg & -> & Hsg)]; [split; try done; by eapply Hadm|]. split; try done; [by eapply Hadm|]. intros s Es. injection Es as <-. exact Hsg.
Qed.

Lemma Validate_cert m id id' : id_cert id = id_cert id' -> Validate csp m id = Validate csp m id'.
Proof. destruct id, id'. cbn. by intros ->. Qed.

(** *** Members *)

(** A certificate that a provider takes for one of its members: not one of an
    authority; with one chain, to a configured root, the issuer of which is not
    above another authority; not revoked by its issuer; and with one of the
    configured units, if there are any. *)
Record member (m : bccspmsp) (c : Certificate) : Prop := {
  mb_leaf : IsCA c = false;
  mb_chain : exists o issuer rest root ski, opts m = Some o /\
    cert_Verify c (mkVerifyOptions (Roots o) (Intermediates o) (Some (NotBefore c + 1))) = Ok [c :: issuer :: rest] /\
    last (c :: issuer :: rest) = Some root /\ (exists id, id ∈ rootCerts m /\ id_cert id = root) /\
    (Raw issuer ∉ certificationTreeInternalNodes m) /\ getSubjectKeyIdentifierFromCert issuer = Ok ski /\
    forall crl, crl ∈ CRL m -> getAuthorityKeyIdentifierFromCrl crl = Ok ski -> SerialNumber c ∈ RevokedCertificates crl ->
      CheckCRLSignature issuer crl <> Ok tt;
  mb_units : ouIdentifiers m = ∅ \/ exists unit certifiers ids, unit ∈ OrganizationalUnit c /\
    (exists chain, getValidationChain m c false = Ok chain /\ getCertificationChainIdentifierFromChain csp m (tail chain) = Ok certifiers) /\
    ouIdentifiers m !! unit = Some ids /\ certifiers ∈ ids
}.

Lemma elem_of_pool x l : x ∈ pool l -> x ∈ l.
Proof.
  unfold pool. assert (forall acc, x ∈ foldl AddCert acc l -> x ∈ acc \/ x ∈ l) as Hacc.
  { induction l as [|c l IH]; intros acc Hx; [by left|]. cbn in Hx. destruct (IH _ Hx) as [Ha|Hl]; [|right; by right].
    unfold AddCert in Ha. destruct (existsb _ _); [by left|]. apply elem_of_app in Ha as [?|Hc]; [by left|]. apply list_elem_of_singleton in Hc as ->.
    right. by left. }
  intros Hx. destruct (Hacc [] Hx) as [Hn|?]; [by apply elem_of_nil in Hn|done].
Qed.

Lemma revoked_in_spec issuer serial crl l : revoked_in issuer serial crl l = Ok false -> serial ∈ l -> CheckCRLSignature issuer crl <> Ok tt.
Proof.
  induction l as [|n l IH]; intros E Hin; [by apply elem_of_nil in Hin|]. cbn in E. destruct (Z.eqb_spec n serial) as [->|Hne].
  - by destruct (CheckCRLSignature issuer crl).
  - apply IH; [done|]. by apply elem_of_cons in Hin as [?|].
Qed.

Lemma check_crls_spec issuer ski serial crls : check_crls issuer ski serial crls = Ok tt ->
  forall crl, crl ∈ crls -> getAuthorityKeyIdentifierFromCrl crl = Ok ski -> serial ∈ RevokedCertificates crl -> CheckCRLSignature issuer crl <> Ok tt.
Proof.
  induction crls as [|crl crls IH]; intros E crl' Hin; [by apply elem_of_nil in Hin|]. cbn [check_crls] in E.
  apply res_bind_Ok in E as (aki & Ea%or_fail_Ok & E). apply res_bind_Ok in E as ([] & Er & E); [done|].
  apply elem_of_cons in Hin as [->|Hin]; [|by apply IH]. intros Ek. rewrite Ea in Ek. injection Ek as ->. rewrite decide_True in Er by done.
  by apply revoked_in_spec.
Qed.

Lemma validation_chain m c chain : getValidationChain m c false = Ok chain ->
  exists o issuer, opts m = Some o /\ cert_Verify c (mkVerifyOptions (Roots o) (Intermediates o) (Some (NotBefore c + 1))) = Ok [chain] /\
    chain !! 1%nat = Some issuer /\ Raw issuer ∉ certificationTreeInternalNodes m.
Proof.
  unfold getValidationChain, getValidityOptsForCert, getUniqueValidationChain. intros E. destruct (opts m) as [o|]; [|done]. rewrite res_ret_bind in E.
  apply res_bind_Ok in E as (chain' & Ec%or_fail_Ok & E). apply res_bind_Ok in Ec as (chains & Ev%or_fail_Ok & Ec).
  destruct chains as [|ch [|]]; try done. injection Ec as ->. destruct (_ <? _)%nat; [done|]. apply res_bind_Ok in E as (issuer & Ei & E).
  case_decide as Hd; [done|]. injection E as ->. exists o, issuer. do 2 (split; [done|]). split; [|done]. by apply at_index_Ok.
Qed.

Lemma valid_units m id : validateIdentityOUs csp m id = Ok tt -> ouIdentifiers m = ∅ \/ exists unit certifiers ids,
  unit ∈ OrganizationalUnit (id_cert id) /\
  (exists chain, getValidationChain m (id_cert id) false = Ok chain /\ getCertificationChainIdentifierFromChain csp m (tail chain) = Ok certifiers) /\
  ouIdentifiers m !! unit = Some ids /\ certifiers ∈ ids.
Proof.
  unfold validateIdentityOUs. case_decide as Hd; [by left|]. intros E. right. apply res_bind_Ok in E as (ous & Eo & E).
  destruct (existsb _ ous) eqn:Eb; [|by destruct ous]. apply existsb_exists in Eb as ([unit certifiers] & Hin & Hb). cbn in Hb.
  apply bool_decide_eq_true in Hb. apply list_elem_of_In in Hin. unfold GetOrganizationalUnits in Eo.
  destruct (getCertificationChainIdentifier csp m id) as [cid| | |] eqn:Ec; try done; injection Eo as <-; [|by apply elem_of_nil in Hin].
  apply list_elem_of_fmap in Hin as (u & [= -> ->] & Hu). destruct (ouIdentifiers m !! u) as [ids|] eqn:Eids; [|by apply elem_of_nil in Hb].
  exists u, cid, ids. split; [done|]. split; [|done]. unfold getCertificationChainIdentifier in Ec. apply res_bind_Ok in Ec as (chain & Eg%or_fail_Ok & Ec).
  exists chain. split; [|done]. unfold getCertificationChainForBCCSPIdentity in Eg. destruct (opts m); [|done]. by destruct (IsCA (id_cert id)).
Qed.

Lemma valid_member conf m id : set_up conf m -> Validate csp m id = Ok tt -> member m (id_cert id).
Proof.
  intros Hs E. unfold Validate, validateIdentity in E. apply res_bind_Ok in E as (chain & Ec%or_fail_Ok & E).
  apply res_bind_Ok in E as ([] & Ev%or_fail_Ok & Eu%or_fail_Ok). unfold getCertificationChainForBCCSPIdentity in Ec.
  destruct (opts m) as [o|] eqn:Eo; [|done]. destruct (IsCA (id_cert id)) eqn:Eca; [done|]. split; [done| |by apply valid_units].
  destruct (validation_chain _ _ _ Ec) as (o' & issuer & Eo' & Ech & Ei & Hint). rewrite Eo in Eo'. injection Eo' as <-.
  destruct (verify_chain _ _ _ chain Ech) as (Hhd & (root & Hl & Hroot) & _); [by left|].
  destruct chain as [|c [|i rest]]; [done..|]. injection Hhd as ->. injection Ei as ->.
  unfold validateCertAgainstChain in Ev. apply res_bind_Ok in Ev as (i & Ei%at_index_Ok & Ev). injection Ei as <-.
  apply res_bind_Ok in Ev as (ski & Esk%or_fail_Ok & Ev). exists o, issuer, rest, root, ski. do 3 (split; [done|]). split.
  - rewrite (su_opts _ _ Hs) in Eo. injection Eo as <-. apply elem_of_pool in Hroot. apply list_elem_of_fmap in Hroot as (id' & -> & Hid). by exists id'.
  - do 2 (split; [done|]). by apply check_crls_spec.
Qed.

(** What satisfying a principal means. *)
Inductive satisfies (m : bccspmsp) (c : Certificate) (p : MSPPrincipal) : Prop :=
| sat_member : PrincipalClassification p = ROLE -> unmarshal_MSPRole (Principal p) = Ok (KnownRole MEMBER, name m) -> satisfies m c p
| sat_admin id : PrincipalClassification p = ROLE -> unmarshal_MSPRole (Principal p) = Ok (KnownRole ADMIN, name m) ->
    id ∈ admins m -> id_cert id = c -> satisfies m c p
| sat_identity id : PrincipalClassification p = IDENTITY -> DeserializeIdentity csp m (Principal p) = Ok id -> id_cert id = c -> satisfies m c p
| sat_unit ou chain : PrincipalClassification p = ORGANIZATION_UNIT -> unmarshal_OrganizationUnit (Principal p) = Ok ou ->
    ou_MspIdentifier ou = name m -> ou_Identifier ou ∈ OrganizationalUnit c -> getValidationChain m c false = Ok chain ->
    getCertificationChainIdentifierFromChain csp m (tail chain) = Ok (ou_CertifiersIdentifier ou) -> satisfies m c p.

Lemma deserialized_parsed m b id : DeserializeIdentity csp m b = Ok id -> parsed (id_cert id).
Proof.
  unfold DeserializeIdentity. intros E. apply res_bind_Ok in E as (s & _ & E). destruct (negb _); [done|]. by destruct (deserialized_inv _ _ _ E).
Qed.

Lemma admin_cert conf m id : set_up conf m -> parsed (id_cert id) ->
  existsb (fun a => bool_decide (Raw (id_cert id) = Raw (id_cert a))) (admins m) = true ->
  exists a, a ∈ admins m /\ id_cert a = id_cert id /\ Validate csp m id = Ok tt.
Proof.
  intros Hs Hp Hb. apply existsb_exists in Hb as (a & Ha%list_elem_of_In & Hr%bool_decide_eq_true). pose proof (su_admins _ _ Hs) as Hadm.
  rewrite Forall_forall in Hadm. destruct (Hadm a Ha) as [Hpa Hv]. pose proof (parsed_eq _ _ Hp Hpa Hr) as Ec. exists a. split; [done|].
  split; [done|]. by rewrite (Validate_cert m id a).
Qed.

Lemma principal_sound conf m id p : set_up conf m -> parsed (id_cert id) -> SatisfiesPrincipal csp m id p = Ok tt ->
  Validate csp m id = Ok tt /\ satisfies m (id_cert id) p.
Proof.
  intros Hs Hp E. unfold SatisfiesPrincipal in E. destruct (PrincipalClassification p) eqn:Ecl; [| | |done].
  - apply res_bind_Ok in E as ([role mspid] & Er%or_fail_Ok & E). destruct (bool_decide (mspid = name m)) eqn:En; [|done]. cbn in E.
    apply bool_decide_eq_true in En as ->. destruct role as [[]|]; [| |done].
    + split; [done|]. by apply sat_member.
    + destruct (existsb _ _) eqn:Eb; [|done]. destruct (admin_cert _ _ _ Hs Hp Eb) as (a & Ha & Ec & Hv). split; [done|]. by eapply sat_admin.
  - apply res_bind_Ok in E as (ou & Eou%or_fail_Ok & E). destruct (bool_decide (ou_MspIdentifier ou = name m)) eqn:En; [|done]. cbn in E.
    apply bool_decide_eq_true in En. apply res_bind_Ok in E as ([] & Hv & E). split; [done|]. apply res_bind_Ok in E as (ous & Eo & E).
    destruct (existsb _ ous) eqn:Eb; [|done]. apply existsb_exists in Eb as (x & Hin%list_elem_of_In & Hx%bool_decide_eq_true). subst x.
    unfold GetOrganizationalUnits in Eo. destruct (getCertificationChainIdentifier csp m id) as [cid| | |] eqn:Ec; try done; injection Eo as <-;
      [|by apply elem_of_nil in Hin].
    apply list_elem_of_fmap in Hin as (u & [= <- <-] & Hu). unfold getCertificationChainIdentifier in Ec.
    apply res_bind_Ok in Ec as (chain & Eg%or_fail_Ok & Ec). eapply sat_unit; try done. unfold getCertificationChainForBCCSPIdentity in Eg.
    destruct (opts m); [|done]. by destruct (IsCA (id_cert id)).
  - apply res_bind_Ok in E as (pid & Epid%or_fail_Ok & E). case_decide as Hr; [|done].
    pose proof (parsed_eq _ _ Hp (deserialized_parsed _ _ _ Epid) Hr) as Ec. split; [by rewrite (Validate_cert m id pid)|]. by eapply sat_identity.
Qed.

End SetupFacts.
End SetupFacts.

(** ** The manager that a configuration sets up *)

Module HandlerFacts.
Import MspManager MSPConfigHandler SetupFacts.
Section HandlerFacts.
Context `{Primitives} `{X509Spec} `{MSPCodec} `{TxCodec}.
Context (csp : SW.config) (ks_GetKey : bytes -> res Key).
Context {Tx : Type} `{Countable Tx}.

(** What happens to a handler. *)
Inductive step : MSPConfigHandler Tx -> MSPConfigHandler Tx -> Prop :=
| step_begin tx h h' : BeginConfig tx h = (h', Ok tt) -> step h h'
| step_rollback tx h h' : RollbackProposals tx h = (h', Ok tt) -> step h h'
| step_commit tx h h' : CommitProposals tx h = (h', Ok tt) -> step h h'
| step_propose tx conf h h' r : ProposeMSP csp ks_GetKey tx conf h = (h', r) -> step h h'
| step_precommit tx h h' r : PreCommit tx h = (h', r) -> step h h'.

(** A provider under its name, as its setup left it. *)
Definition provided (id : string) (m : bccspmsp) : Prop := name m = id /\ exists c, BccspMsp.Setup csp ks_GetKey (Some c) NewBccspMsp = (m, Ok tt).

Definition manager_ok (mgr : mspManagerImpl) : Prop := map_Forall provided (mspsMap mgr).

Record store_ok (store : mspConfigStore) : Prop := {
  st_idMap : map_Forall (fun id e => provided id e.2) (idMap store);
  st_mgr mgr : proposedMgr store = Some mgr -> manager_ok mgr
}.

Record handler_ok (h : MSPConfigHandler Tx) : Prop := {
  ho_pending : map_Forall (fun _ => store_ok) (pendingConfig h);
  ho_manager mgr : MSPManager h = Some mgr -> manager_ok mgr
}.

Lemma with_pending_ok h tx store : handler_ok h -> store_ok store -> handler_ok (with_pending h tx store).
Proof. intros [Hp Hm] Hs. split; [|done]. by apply map_Forall_insert_2. Qed.

Lemma setup_manager_ok msps mgr : Forall (fun m => provided (name m) m) msps -> MspManager.Setup msps NewMSPManager = (mgr, Ok tt) -> manager_ok mgr.
Proof.
  intros Hall E. unfold MspManager.Setup in E. cbn in E. destruct msps as [|m msps]; [done|]. injection E as <-. unfold manager_ok. cbn [mspsMap].
  assert (forall acc : gmap string bccspmsp, map_Forall provided acc -> map_Forall provided (foldl (fun mp m => <[name m := m]> mp) acc (m :: msps))) as Hacc.
  { induction Hall as [|m' l Hm _ IH]; intros acc Ha; [done|]. cbn. apply IH. by apply map_Forall_insert_2. }
  apply Hacc, map_Forall_empty.
Qed.

Lemma step_ok h h' : step h h' -> handler_ok h -> handler_ok h'.
Proof.
  intros Hst Hok. pose proof Hok as [Hp Hm]. destruct Hst as [tx h h' E|tx h h' E|tx h h' E|tx conf h h' r E|tx h h' r E].
  - unfold BeginConfig in E. destruct (pendingConfig h !! tx); [done|]. injection E as <-. apply with_pending_ok; [done|]. by split; [apply map_Forall_empty|].
  - injection E as <-. split; [by apply map_Forall_delete|done].
  - unfold CommitProposals in E. destruct (pendingConfig h !! tx) as [store|] eqn:Es; [|done]. injection E as <-. split; [by apply map_Forall_delete|].
    cbn. by apply (st_mgr _ (Hp _ _ Es)).
  - unfold ProposeMSP in E. destruct (pendingConfig h !! tx) as [store|] eqn:Es; [|by injection E as <- _]. destruct (negb _); [by injection E as <- _|].
    destruct (BccspMsp.Setup csp ks_GetKey (Some conf) NewBccspMsp) as [m [[]| | |]] eqn:Em; try by injection E as <- _.
    assert (handler_ok (with_pending h tx (mkStore (<[name m := (conf, m)]> (idMap store)) (proposedMgr store)))) as Hh.
    { apply with_pending_ok; [done|]. split; [|by apply (st_mgr _ (Hp _ _ Es))]. apply map_Forall_insert_2; [|by apply (Hp _ _ Es)].
      split; [done|]. by exists conf. }
    destruct (idMap store !! name m) as [[existing m0]|]; [case_decide|]; by injection E as <- _.
  - unfold PreCommit in E. destruct (pendingConfig h !! tx) as [store|] eqn:Es; [|by injection E as <- _]. case_decide; [by injection E as <- _|].
    destruct (MspManager.Setup _ NewMSPManager) as [mgr u] eqn:Em. injection E as <- _. apply with_pending_ok; [done|].
    split; [by apply (Hp _ _ Es)|]. intros mgr' [= <-]. assert (u = Ok tt) as ->.
    { unfold MspManager.Setup in Em. cbn in Em. destruct (map_to_list (idMap store)) eqn:El; [by apply map_to_list_empty_iff in El|].
      cbn in Em. by injection Em as _ <-. }
    eapply setup_manager_ok; [|exact Em]. apply Forall_fmap, Forall_forall. intros [id [c m]] Hin. apply elem_of_map_to_list in Hin.
    destruct (st_idMap _ (Hp _ _ Es) _ _ Hin) as [Hn Hs]. by split.
Qed.

Lemma steps_ok h : rtc step NewMSPConfigHandler h -> handler_ok h.
Proof.
  intros Hs. assert (handler_ok NewMSPConfigHandler) as Hnew by (by split; [apply map_Forall_empty|]). revert Hnew.
  induction Hs as [|h1 h2 h3 Hst _ IH]; [done|]. intros Hok. by apply IH, (step_ok _ _ Hst).
Qed.

End HandlerFacts.
End HandlerFacts.

(** ** Signing *)

Module SigningFacts.
Import SW BccspFacts MspManager SetupFacts.
Section SigningFacts.
Context `{PrimitivesSpec} `{X509Spec} `{MSPCodec} `{TxCodec}.
Context (csp : SW.config).

Lemma digest_nonempty m msg d : digest csp m msg = Ok d -> d <> [].
Proof.
  unfold digest. destruct (cryptoConfig m) as [c|]; [|done]. intros E. apply res_bind_Ok in E as (o & _ & E%or_fail_Ok). injection E as <-.
  apply hash_nonempty.
Qed.

(** A signature verifies with the key of the signer, where messages are hashed in
    the same way. *)
Lemma sign_verify m m' entropy s sk id msg sig :
  sid_signer s = ecdsaPrivateKey sk -> id_pk id = Some (ecdsaPublicKey (sk_PublicKey sk)) -> cryptoConfig m' = cryptoConfig m ->
  BccspMsp.Sign csp m entropy s msg = Ok sig -> sig <> [] /\ BccspMsp.Verify csp m' id msg sig = Ok tt.
Proof.
  intros Hk Hpk Hc E. unfold BccspMsp.Sign in E. apply res_bind_Ok in E as (d & Ed & E). rewrite Hk in E. cbn in E.
  pose proof (digest_nonempty _ _ _ Ed) as Hd. destruct d as [|x d]; [done|]. apply or_fail_Ok in E.
  destruct (signECDSA_spec _ _ _ _ E) as (r & s' & h & _ & _ & _ & Hsig & Hv). split; [done|]. unfold BccspMsp.Verify.
  assert (digest csp m' msg = Ok (x :: d)) as -> by (rewrite <- Ed; unfold digest; by rewrite Hc). rewrite res_ret_bind, Hpk.
  destruct sig as [|y sig]; [done|]. cbn. by rewrite Hv.
Qed.

(** A serialized identity is read by a manager with the key of its certificate. *)
Lemma serialized_key `{!Message SerializedIdentity} (zero : SerializedIdentity) mgr id b m' id' k :
  MessageSpec SerializedIdentity unmarshal_SerializedIdentity zero (fun _ => True) ->
  parsed (id_cert id) -> Serialize id = Ok b -> cert_PublicKey (id_cert id) = CertECDSA k ->
  DeserializeIdentity csp mgr b = Ok (m', id') -> id_pk id' = Some (ecdsaPublicKey k) /\ mspsMap mgr !! id_Mspid id = Some m'.
Proof.
  intros Hspec Hp Eb Hk E. unfold Serialize in Eb. destruct (pem_EncodeToMemory (Raw (id_cert id))) as [pem|] eqn:Epem; [|done]. apply or_fail_Ok in Eb.
  destruct (marshal_roundtrip (mkSerializedIdentity (id_Mspid id) pem) I) as (b' & Eb' & Eu). rewrite Eb in Eb'. injection Eb' as <-.
  unfold DeserializeIdentity in E. rewrite Eu in E. cbn [or_fail] in E. rewrite res_ret_bind in E. cbn [si_Mspid si_IdBytes] in E.
  destruct (mspsMap mgr !! id_Mspid id) as [m|]; [|done]. apply res_bind_Ok in E as (id0 & E & Ei). injection Ei as -> ->. split; [|done].
  destruct (deserialized_inv _ _ _ _ E) as (_ & _ & raw & c & kk & Ed & Ec & Ek & -> & _). rewrite (pem_decode_encode _ _ Epem) in Ed. injection Ed as <-.
  unfold parsed in Hp. rewrite Ec in Hp. injection Hp as ->. unfold KeyImport_x509 in Ek. rewrite Hk in Ek. by injection Ek as <-.
Qed.

End SigningFacts.
End SigningFacts.
