(* ===== verification/PolicyChecker.v ===== *)
(** * The membership services of a process, and access control

    msp/mgmt: the provider of the process and the managers of its channels.
    core/policy/policy.go: whether a signed proposal satisfies a policy of a
    channel, or has a role in the local provider. *)

From stdpp Require Import base gmap strings list.
From Stdlib Require Import Ascii ZArith Lia.
From S2P Require Import Prelude Proto Bccsp CAuthDSL Policies MsgValidation Membership.
Import BccspMsp MspManager Policies.
Local Open Scope Z_scope.

(** ** msp/mgmt *)

Module MspMgmt.

(** A manager that a configuration sets up, which may be nil, or one that was
    created because there was none. *)
Inductive ChannelManager := Handler (mgr : option mspManagerImpl) | Created (mgr : mspManagerImpl).

Record Mgmt := mkMgmt { localMsp : option bccspmsp; mspMap : gmap string ChannelManager }.

Definition GetLocalMSP : ST Mgmt bccspmsp := fun g =>
  match localMsp g with
  | Some msp => (g, Ok msp)
  | None => (mkMgmt (Some NewBccspMsp) (mspMap g), Ok NewBccspMsp)
  end.

Definition XXXSetMSPManager (chainID : string) (mgr : option mspManagerImpl) : ST Mgmt unit :=
  st_modify (fun g => mkMgmt (localMsp g) (<[chainID := Handler mgr]> (mspMap g))).

Definition GetManagerForChain (chainID : string) : ST Mgmt (option mspManagerImpl) := fun g =>
  match mspMap g !! chainID with
  | None => (mkMgmt (localMsp g) (<[chainID := Created NewMSPManager]> (mspMap g)), Ok (Some NewMSPManager))
  | Some (Handler mgr) => (g, Ok mgr)
  | Some (Created mgr) => (g, Ok (Some mgr))
  end.

(** The membership services of the process in a state. *)
Definition msp_managers `{Primitives} `{X509} `{MSPCodec} `{TxCodec} (csp : SW.config) (g : Mgmt) : MSPManagers := {|
  MsgValidation.GetLocalMSP := local_msp csp (default NewBccspMsp (localMsp g));
  MsgValidation.GetManagerForChain ch := match (GetManagerForChain ch g).2 with Ok (Some mgr) => Some (manager_msp csp mgr) | _ => None end
|}.

(** principal.go: the names of the roles *)
Definition Admins : string := "Admins".
Definition Members : string := "Members".

Definition principal_Get `{SignatureCodec} (local : bccspmsp) (role : string) : res MSPPrincipal :=
  if decide (role = Admins) then Ok (mkPrincipal ROLE (marshal_MSPRole ADMIN (name local)))
  else if decide (role = Members) then Ok (mkPrincipal ROLE (marshal_MSPRole MEMBER (name local)))
  else Err ("MSP Principal role [" +:+ role +:+ "] not recognized.").

End MspMgmt.

(** ** core/policy/policy.go *)

Module PolicyChecker.
Import MspMgmt.
Section PolicyChecker.
Context `{ProtoCodec} `{SignatureCodec} `{TxCodec} `{CryptoHash}.
Context `{Primitives} `{X509} `{MSPCodec}.
Context (csp : SW.config).

(** The policies of the channels. *)
Context (Manager : string -> option ManagerImpl).

(** The provider of the process. *)
Context (localMSP : bccspmsp).

Definition CheckPolicyNoChannel (policyName : string) (signedProp : option SignedProposal) : res unit :=
  if decide (policyName = "") then Err "Invalid policy name during channelless check policy. Name must be different from nil."
  else
    match signedProp with
    | None => Err ("Invalid signed proposal during channelless check policy with policy [" +:+ policyName +:+ "]")
    | Some sp =>
        proposal ← or_fail "Failing extracting proposal during channelless check policy" (unmarshal_Proposal (sp_ProposalBytes sp));
        header ← or_fail "Failing extracting header during channelless check policy" (unmarshal_Header (prop_Header proposal));
        shdr ← or_fail "Invalid Proposal's SignatureHeader during channelless check policy" (TxUtils.GetSignatureHeader (hdr_SignatureHeader header));
        id ← or_fail "Failed deserializing proposal creator during channelless check policy" (BccspMsp.DeserializeIdentity csp localMSP (sh_Creator shdr));
        principal ← or_fail "Failed getting local MSP principal during channelless check policy" (principal_Get localMSP policyName);
        or_fail "Failed verifying that proposal's creator satisfies local MSP principal" (BccspMsp.SatisfiesPrincipal csp localMSP id principal);;
        BccspMsp.Verify csp localMSP id (sp_ProposalBytes sp) (sp_Signature sp)
    end.

Definition CheckPolicyBySignedData (channelID policyName : string) (sd : option (list SignedData)) : res unit :=
  if decide (channelID = "") then Err "Invalid channel ID name during check policy on signed data. Name must be different from nil."
  else if decide (policyName = "") then Err "Invalid policy name during check policy on signed data"
  else
    match sd, Manager channelID with
    | None, _ => Err "Invalid signed data during check policy"
    | _, None => Err ("Failed to get policy manager for channel [" +:+ channelID +:+ "]")
    | Some sd, Some policyManager =>
        or_fail "Failed evaluating policy on signed data during check policy" (Policies.Evaluate (GetPolicy None policyManager policyName).1 sd)
    end.

Definition CheckPolicy (channelID policyName : string) (signedProp : option SignedProposal) : res unit :=
  if decide (channelID = "") then CheckPolicyNoChannel policyName signedProp
  else if decide (policyName = "") then Err "Invalid policy name during check policy. Name must be different from nil."
  else
    match signedProp, Manager channelID with
    | None, _ => Err "Invalid signed proposal during check policy"
    | _, None => Err ("Failed to get policy manager for channel [" +:+ channelID +:+ "]")
    | Some sp, Some _ =>
        proposal ← or_fail "Failing extracting proposal during check policy" (unmarshal_Proposal (sp_ProposalBytes sp));
        header ← or_fail "Failing extracting header during check policy" (unmarshal_Header (prop_Header proposal));
        shdr ← or_fail "Invalid Proposal's SignatureHeader during check policy" (TxUtils.GetSignatureHeader (hdr_SignatureHeader header));
        CheckPolicyBySignedData channelID policyName (Some [mkSignedData (sp_ProposalBytes sp) (sh_Creator shdr) (sp_Signature sp)])
    end.

End PolicyChecker.
End PolicyChecker.
