(* ===== verification/VSCC.v ===== *)
(** * The validation system chaincode

    core/scc/vscc: the endorsements of a transaction against the endorsement
    policy of a chaincode, and what a transaction of the lifecycle system
    chaincode may write. *)

From stdpp Require Import base gmap strings list.
From Stdlib Require Import Ascii ZArith Lia.
From S2P Require Import Prelude RWSet Proto BlockHash CAuthDSL MsgValidation.
Import ProtoUtils RWSetUtil TxUtils CAuthDSL.
Local Open Scope Z_scope.

(** What the validation needs of the ledger of a channel. *)
Class PeerLedger (L : Type) := {
  ledger_GetTransactionByID : L -> string -> res Envelope;
  query_GetState : L -> string -> string -> res (option bytes)
}.

Module VSCC.

(** [shim.Success(nil)] and [shim.Error] *)
Inductive Response := Success | Failure (Message : string).

Definition DUPLICATED_IDENTITY_ERROR : string :=
  "Endorsement policy evaluation failure might be caused by duplicated identities".

Section VSCC.
Context `{ProtoCodec} `{SignatureCodec} `{TxCodec} `{RWSetCodec} `{MSPManagers}.
Context {L : Type} `{PeerLedger L}.

(** [peer.GetLedger] *)
Context (GetLedger : string -> option L).

(** A nil manager: its methods panic. *)
Definition nil_msp : MSP := {|
  MSPIdentity := unit;
  DeserializeIdentity _ := Panic "nil pointer dereference";
  SatisfiesPrincipal _ _ := Panic "nil pointer dereference";
  Verify _ _ _ := Panic "nil pointer dereference";
  identity_Validate _ := Panic "nil pointer dereference"
|}.

(** [NewPolicyProvider(mgr).NewPolicy] *)
Definition new_policy (mgr : option MSP) (data : bytes) : res evaluator := @NewPolicy _ (default nil_msp mgr) data.

Definition checkInstantiationPolicy (chainName : string) (env : Envelope) (instantiationPolicy : bytes) (payl : Payload) :
    res unit :=
  match GetManagerForChain chainName with
  | None => Err ("MSP manager for channel " +:+ chainName +:+ " is nil, aborting")
  | Some mgr =>
      instPol ← new_policy (Some mgr) instantiationPolicy;
      match pl_Header payl with
      | None => Panic "nil pointer dereference"
      | Some hdr =>
          shdr ← GetSignatureHeader (hdr_SignatureHeader hdr);
          match Evaluate instPol [mkSignedData (env_Payload env) (sh_Creator shdr) (env_Signature env)] with
          | Err e => Err ("chaincode instantiation policy violated, error " +:+ e)
          | r => r
          end
      end
  end.

Definition getInstantiatedCC (chid ccid : string) : res (option ChaincodeData) :=
  match GetLedger chid with
  | None => Err ("Could not retrieve QueryExecutor for channel " +:+ chid)
  | Some l =>
      match query_GetState l "lscc" ccid with
      | Err e => Err ("Could not retrieve state for chaincode " +:+ ccid +:+ ", error " +:+ e)
      | Panic m => Panic m
      | OutOfFuel => OutOfFuel
      | Ok None => Ok None
      | Ok (Some b) =>
          match unmarshal_ChaincodeData b with
          | Err e => Err ("Unmarshalling ChaincodeQueryResponse failed, error " +:+ e)
          | Panic m => Panic m
          | OutOfFuel => OutOfFuel
          | Ok cd => Ok (Some cd)
          end
      end
  end.

(** The first read-write set of a namespace. *)
Fixpoint find_rwset (ns : string) (sets : TxRwSet) : option KVRWSet :=
  match sets with
  | [] => None
  | s :: sets => if decide (NameSpace s = ns) then Some (KvRwSet s) else find_rwset ns sets
  end.

(** The read-write set in the response of an action. *)
Definition response_rwset (cap : ChaincodeActionPayload) : res TxRwSet :=
  match cap_Action cap with
  | None | Some (mkCEA None _) => Err "VSCC error: invocation of lscc does not have appropriate arguments"
  | Some (mkCEA (Some prp) _) =>
      pRespPayload ← unmarshal_ProposalResponsePayload prp;
      match prp_Extension pRespPayload with
      | None => Err "nil pRespPayload.Extension"
      | Some ext =>
          respPayload ← unmarshal_ChaincodeAction ext;
          FromProtoBytes (ca_Results respPayload)
      end
  end.

(** The one write of a deployment to the namespace of lscc: the data of the
    chaincode, under its name. *)
Definition lscc_write (cc : ChaincodeID) (lsccrwset : option KVRWSet) : res ChaincodeData :=
  match lsccrwset with
  | None => Err "No read write set for lscc was found"
  | Some rw =>
      match Writes rw with
      | [w] =>
          if negb (bool_decide (kvw_Key w = cid_Name cc)) then Err "Expected key"
          else
            cdRWSet ← unmarshal_ChaincodeData (default [] (kvw_Value w));
            if negb (bool_decide (cd_Name cdRWSet = cid_Name cc)) then Err "Expected cc name"
            else if negb (bool_decide (cd_Version cdRWSet = cid_Version cc)) then Err "Expected cc version"
            else Ok cdRWSet
      | _ => Err "LSCC can only issue a single putState upon deploy/upgrade"
      end
  end.

(** Writes to the namespaces of lscc and of the chaincode only. *)
Fixpoint only_writes_to (ccname : string) (sets : TxRwSet) : res unit :=
  match sets with
  | [] => Ok tt
  | s :: sets =>
      if negb (bool_decide (NameSpace s = "lscc")) && negb (bool_decide (NameSpace s = ccname)) &&
         (0 <? length (Writes (KvRwSet s)))%nat
      then Err ("LSCC invocation is attempting to write to namespace " +:+ NameSpace s)
      else only_writes_to ccname sets
  end.

Definition check_deploy (chid : string) (env : Envelope) (payl : Payload) (cdRWSet : ChaincodeData)
    (cdLedger : option ChaincodeData) : res unit :=
  match cd_InstantiationPolicy cdRWSet with
  | [] => Err "No installation policy was specified"
  | pol =>
      checkInstantiationPolicy chid env pol payl;;
      match cdLedger with
      | Some _ => Err ("Chaincode " +:+ cd_Name cdRWSet +:+ " is already instantiated")
      | None => Ok tt
      end
  end.

Definition check_upgrade (chid : string) (env : Envelope) (payl : Payload) (cc : ChaincodeID)
    (cdLedger : option ChaincodeData) : res unit :=
  match cdLedger with
  | None => Err ("Upgrading non-existent chaincode " +:+ cid_Name cc)
  | Some cdLedger =>
      match cd_InstantiationPolicy cdLedger with
      | [] => Err "No installation policy was specified"
      | pol =>
          checkInstantiationPolicy chid env pol payl;;
          if decide (cd_Version cdLedger = cid_Version cc)
          then Err "Existing version of the cc on the ledger should be different from the upgraded one"
          else Ok tt
      end
  end.

(** Deploying or upgrading a chaincode. *)
Definition validate_deployment (upgrade : bool) (lsccArgs : list bytes) (chid : string) (env : Envelope)
    (cap : ChaincodeActionPayload) (payl : Payload) : res unit :=
  if (length lsccArgs <? 2)%nat || (5 <? length lsccArgs)%nat then Err "Wrong number of arguments for invocation lscc"
  else
    cdsArgs ← GetChaincodeDeploymentSpec (nth 1 lsccArgs []);
    match cds_ChaincodeSpec cdsArgs with
    | Some (mkChaincodeSpec _ (Some cc) _) =>
        txRWSet ← response_rwset cap;
        cdLedger ← getInstantiatedCC chid (cid_Name cc);
        cdRWSet ← lscc_write cc (find_rwset "lscc" txRWSet);
        only_writes_to (cd_Name cdRWSet) txRWSet;;
        if upgrade then check_upgrade chid env payl cc cdLedger
        else check_deploy chid env payl cdRWSet cdLedger
    | _ => Err "VSCC error: invocation of lscc does not have appropriate arguments"
    end.

Definition ValidateLSCCInvocation (chid : string) (env : Envelope) (cap : ChaincodeActionPayload) (payl : Payload) : res unit :=
  cpp ← unmarshal_ChaincodeProposalPayload (cap_ChaincodeProposalPayload cap);
  cis ← unmarshal_ChaincodeInvocationSpec (cpp_Input cpp);
  match cis_ChaincodeSpec cis with
  | Some (mkChaincodeSpec _ _ (Some (lsccFunc :: lsccArgs))) =>
      if decide (lsccFunc = to_bytes "upgrade") then validate_deployment true lsccArgs chid env cap payl
      else if decide (lsccFunc = to_bytes "deploy") then validate_deployment false lsccArgs chid env cap payl
      else Err "VSCC error: committing an invocation of this function of lscc is invalid"
  | _ => Err "VSCC error: committing invalid vscc invocation"
  end.

(** The signatures of the endorsements, one of each identity. *)
Fixpoint dedup_endorsements (prespBytes : bytes) (signatureMap : gset string) (l : list Endorsement) : res (list SignedData) :=
  match l with
  | [] => Ok []
  | e :: l =>
      serializedIdentity ← match unmarshal_SerializedIdentity (end_Endorser e) with
                           | Err m => Err ("Unmarshal endorser error: " +:+ m) | r => r end;
      let identity := si_Mspid serializedIdentity +:+ to_string (si_IdBytes serializedIdentity) in
      if decide (identity ∈ signatureMap) then dedup_endorsements prespBytes signatureMap l
      else
        rest ← dedup_endorsements prespBytes ({[identity]} ∪ signatureMap) l;
        Ok (mkSignedData (prespBytes ++ end_Endorser e) (end_Endorser e) (end_Signature e) :: rest)
  end.

Definition deduplicateIdentity (cap : ChaincodeActionPayload) : res (list SignedData) :=
  match cap_Action cap with
  | None => Panic "nil pointer dereference"
  | Some action => dedup_endorsements (default [] (cea_ProposalResponsePayload action)) ∅ (cea_Endorsements action)
  end.

Definition invoke_action (policy : evaluator) (env : Envelope) (payl : Payload) (hdr : Header) (chdr : ChannelHeader)
    (act : TransactionAction) : res unit :=
  cap ← unmarshal_ChaincodeActionPayload (ta_Payload act);
  signatureSet ← deduplicateIdentity cap;
  match Evaluate policy signatureSet with
  | Err e =>
      Err (if (length signatureSet <? match cap_Action cap with Some a => length (cea_Endorsements a) | None => 0 end)%nat
           then DUPLICATED_IDENTITY_ERROR else "VSCC error: policy evaluation failed, err " +:+ e)
  | Panic m => Panic m
  | OutOfFuel => OutOfFuel
  | Ok _ =>
      hdrExt ← GetChaincodeHeaderExtension hdr;
      match che_ChaincodeId hdrExt with
      | None => Panic "nil pointer dereference"
      | Some cc =>
          if decide (cid_Name cc = "lscc") then ValidateLSCCInvocation (ch_ChannelId chdr) env cap payl else Ok tt
      end
  end.

Fixpoint invoke_actions (policy : evaluator) (env : Envelope) (payl : Payload) (hdr : Header) (chdr : ChannelHeader)
    (acts : list TransactionAction) : res unit :=
  match acts with
  | [] => Ok tt
  | act :: acts => invoke_action policy env payl hdr chdr act;; invoke_actions policy env payl hdr chdr acts
  end.

(** The body of [Invoke]; an error is an error response. *)
Definition invoke (envBytes policyBytes : bytes) : res unit :=
  env ← GetEnvelopeFromBlock envBytes;
  payl ← GetPayload env;
  match pl_Header payl with
  | None => Panic "nil pointer dereference"
  | Some hdr =>
      chdr ← UnmarshalChannelHeader (hdr_ChannelHeader hdr);
      policy ← new_policy (GetManagerForChain (ch_ChannelId chdr)) policyBytes;
      if negb (bool_decide (ch_Type chdr = ENDORSER_TRANSACTION)) then Err "Only Endorser Transactions are supported"
      else
        tx ← GetTransaction (pl_Data payl);
        invoke_actions policy env payl hdr chdr (tx_Actions tx)
  end.

Definition Invoke (args : list (option bytes)) : res Response :=
  match args with
  | _ :: None :: _ :: _ => Ok (Failure "No block to validate")
  | _ :: _ :: None :: _ => Ok (Failure "No policy supplied")
  | _ :: Some envBytes :: Some policyBytes :: _ =>
      match invoke envBytes policyBytes with
      | Ok _ => Ok Success
      | Err e => Ok (Failure e)
      | Panic m => Panic m
      | OutOfFuel => OutOfFuel
      end
  | _ => Ok (Failure "Incorrect number of arguments")
  end.

End VSCC.
End VSCC.
