(* ===== verification/TxValidator.v ===== *)
(** * Validation of the transactions of a block

    core/committer/txvalidator/validator.go: each transaction is checked for its
    form and its signatures, for its transaction id, and against the endorsement
    policies of the chaincodes that it writes to; transactions that use a
    chaincode that the block upgrades are invalidated.
    core/committer/committer_impl.go: validating and committing a block. *)

From stdpp Require Import base gmap strings list.
From Stdlib Require Import Ascii ZArith Lia.
From S2P Require Import Prelude RWSet Proto Validator BlockHash CAuthDSL Policies ConfigTx Filters OrdererChain.
From S2P Require Import MsgValidation VSCC.
Import ProtoUtils RWSetUtil Flags TxUtils MsgValidation SystemChaincodes VSCC BlockMetadataUtils.
Local Open Scope Z_scope.

(** [sysccprovider.ChaincodeInstance] *)
Record ChaincodeInstance := mkInstance {
  ci_ChainID : string;
  ci_ChaincodeName : string;
  ci_ChaincodeVersion : string
}.

#[export] Instance ChaincodeInstance_eq_dec : EqDecision ChaincodeInstance.
Proof. solve_decision. Defined.

Module TxValidator.

(** The error types of the package, and the other errors. *)
Inductive vscc_error :=
| VSCCInfoLookupFailureError (reason : string)
| VSCCEndorsementPolicyError (reason : string)
| VSCCExecutionFailureError (reason : string)
| OtherError (reason : string).

Section Upgrades.

(** [generateCCKey] *)
Definition generateCCKey (ccName chainID : string) : string := ccName +:+ "/" +:+ chainID.

Definition cc_key (cc : ChaincodeInstance) : string := generateCCKey (ci_ChaincodeName cc) (ci_ChainID cc).

(** The loop over the upgrades: the last upgrade of a chaincode stays valid.
    [final] is [finalValidUpgradeTXs], and its keys are those of
    [upgradedChaincodes]. *)
Fixpoint final_upgrades (upgrades : list (nat * ChaincodeInstance)) (final : gmap string nat) (txsfltr : bytes) :
    res (gmap string nat * bytes) :=
  match upgrades with
  | [] => Ok (final, txsfltr)
  | (tIdx, cc) :: upgrades =>
      let key := cc_key cc in
      match final !! key with
      | None => final_upgrades upgrades (<[key := tIdx]> final) txsfltr
      | Some finalIdx =>
          if (finalIdx <? tIdx)%nat then
            txsfltr ← SetFlag txsfltr finalIdx TxValidationCode_CHAINCODE_VERSION_CONFLICT;
            final_upgrades upgrades (<[key := tIdx]> final) txsfltr
          else
            txsfltr ← SetFlag txsfltr tIdx TxValidationCode_CHAINCODE_VERSION_CONFLICT;
            final_upgrades upgrades final txsfltr
      end
  end.

(** The loop over the invocations. *)
Fixpoint invalid_invocations (names : list (nat * ChaincodeInstance)) (final : gmap string nat) (txsfltr : bytes) :
    res bytes :=
  match names with
  | [] => Ok txsfltr
  | (tIdx, cc) :: names =>
      match final !! cc_key cc with
      | None => invalid_invocations names final txsfltr
      | Some _ =>
          valid ← IsValid txsfltr tIdx;
          txsfltr ← (if (valid : bool) then SetFlag txsfltr tIdx TxValidationCode_CHAINCODE_VERSION_CONFLICT
                     else Ok txsfltr);
          invalid_invocations names final txsfltr
      end
  end.

(** [names] and [upgrades]: the entries of the two maps, in the order in which
    they are visited. *)
Definition invalidTXsForUpgradeCC (names upgrades : list (nat * ChaincodeInstance)) (txsfltr : bytes) : res bytes :=
  match upgrades with
  | [] => Ok txsfltr
  | _ =>
      '(final, txsfltr) ← final_upgrades upgrades ∅ txsfltr;
      invalid_invocations names final txsfltr
  end.

End Upgrades.

Section TxValidator.
Context `{ProtoCodec} `{SignatureCodec} `{TxCodec} `{CryptoHash} `{RWSetCodec} `{MSPManagers} `{ConfigCodec}.
Context {L C : Type} `{PeerLedger L}.

(** The version stamp of the build, [metadata.Version]. *)
Context (SysCCVersion : string).

(** [ccprovider.ExecuteChaincode] on a channel: name, version, arguments. *)
Context (ExecuteChaincode : string -> string -> string -> list bytes -> res Response).

(** [support.GetMSPIDs] and [support.Apply] *)
Context (GetMSPIDs : string -> list string).
Context (applyConfig : ConfigEnvelope -> ST C unit).

(** The order in which the maps of a block are visited. *)
Context (range_upgrades range_names : list (nat * ChaincodeInstance) -> list (nat * ChaincodeInstance)).

(** *** The lifecycle data of a chaincode *)

Definition getCDataForCC (l : L) (ccid : string) : res (vscc_error + ChaincodeData) :=
  match query_GetState l "lscc" ccid with
  | Err e => Ok (inl (VSCCInfoLookupFailureError ("Could not retrieve state for chaincode " +:+ ccid +:+ ", error " +:+ e)))
  | Panic m => Panic m
  | OutOfFuel => OutOfFuel
  | Ok None => Ok (inl (OtherError ("lscc's state for [" +:+ ccid +:+ "] not found.")))
  | Ok (Some b) =>
      match unmarshal_ChaincodeData b with
      | Err e => Ok (inl (OtherError ("Unmarshalling ChaincodeQueryResponse failed, error " +:+ e)))
      | Panic m => Panic m
      | OutOfFuel => OutOfFuel
      | Ok cd =>
          if decide (cd_Vscc cd = "") then Ok (inl (OtherError "vscc field must be set."))
          else if is_nil (cd_Policy cd) then Ok (inl (OtherError "policy field must be set."))
          else Ok (inr cd)
      end
  end.

(** The chaincode, its validation chaincode and its policy. *)
Definition GetInfoForValidate (l : L) (chID ccID : string) :
    res (vscc_error + ChaincodeInstance * ChaincodeInstance * bytes) :=
  if negb (bool_decide (ccID = "lscc")) then
    r ← getCDataForCC l ccID;
    Ok match r with
       | inl e => inl e
       | inr cd => inr (mkInstance chID (cd_Name cd) (cd_Version cd), mkInstance chID (cd_Vscc cd) SysCCVersion, cd_Policy cd)
       end
  else
    match marshal_SignaturePolicyEnvelope (CAuthDSL.SignedByAnyMember (GetMSPIDs chID)) with
    | Err e => Ok (inl (OtherError e))
    | Panic m => Panic m
    | OutOfFuel => OutOfFuel
    | Ok policy => Ok (inr (mkInstance chID "lscc" SysCCVersion, mkInstance chID "vscc" SysCCVersion, policy))
    end.

Definition VSCCValidateTxForCC (envBytes : bytes) (chid vsccName vsccVer : string) (policy : bytes) : res (option vscc_error) :=
  match ExecuteChaincode chid vsccName vsccVer [[]; envBytes; policy] with
  | Err e => Ok (Some (VSCCExecutionFailureError ("Invoke VSCC failed, error " +:+ e)))
  | Panic m => Panic m
  | OutOfFuel => OutOfFuel
  | Ok (Failure m) => Ok (Some (VSCCEndorsementPolicyError m))
  | Ok Success => Ok None
  end.

(** [None]: the transaction is valid; otherwise the error and the code. *)
Definition vresult : Type := option (vscc_error * Z).

Definition vscc_code (e : vscc_error) : Z :=
  match e with VSCCEndorsementPolicyError _ => TxValidationCode_ENDORSEMENT_POLICY_FAILURE
  | _ => TxValidationCode_INVALID_OTHER_REASON end.

(** *** The namespaces that a transaction writes to *)

Definition wrNamespace (txRWSet : TxRwSet) : list string :=
  omap (fun ns => if (0 <? length (Writes (KvRwSet ns)))%nat then Some (NameSpace ns) else None) txRWSet.

Definition writesToLSCC (txRWSet : TxRwSet) : bool := bool_decide ("lscc" ∈ wrNamespace txRWSet).

Definition writesToNonInvokableSCC (txRWSet : TxRwSet) : bool :=
  existsb (fun ns => IsSysCCAndNotInvokableCC2CC ns || IsSysCCAndNotInvokableExternal ns) (wrNamespace txRWSet).

(** Each namespace against the policy of its chaincode. *)
Fixpoint validate_namespaces (l : L) (envBytes : bytes) (chID ccID ccVer : string) (nss : list string) : res vresult :=
  match nss with
  | [] => Ok None
  | ns :: nss =>
      info ← GetInfoForValidate l chID ns;
      match info with
      | inl e => Ok (Some (e, TxValidationCode_INVALID_OTHER_REASON))
      | inr (txcc, vscc, policy) =>
          if bool_decide (ns = ccID) && negb (bool_decide (ci_ChaincodeVersion txcc = ccVer))
          then Ok (Some (OtherError "version mismatch", TxValidationCode_EXPIRED_CHAINCODE))
          else
            r ← VSCCValidateTxForCC envBytes chID (ci_ChaincodeName vscc) (ci_ChaincodeVersion vscc) policy;
            match r with
            | Some e => Ok (Some (e, vscc_code e))
            | None => validate_namespaces l envBytes chID ccID ccVer nss
            end
      end
  end.

(** An invocation of a system chaincode. *)
Definition validate_syscc (l : L) (envBytes : bytes) (chID ccID : string) : res vresult :=
  if IsSysCCAndNotInvokableExternal ccID
  then Ok (Some (OtherError "Committing an invocation of this cc is illegal", TxValidationCode_ILLEGAL_WRITESET))
  else
    info ← GetInfoForValidate l chID ccID;
    match info with
    | inl e => Ok (Some (e, TxValidationCode_INVALID_OTHER_REASON))
    | inr (_, vscc, policy) =>
        r ← VSCCValidateTxForCC envBytes (ci_ChainID vscc) (ci_ChaincodeName vscc) (ci_ChaincodeVersion vscc) policy;
        Ok match r with Some e => Some (e, vscc_code e) | None => None end
    end.

Definition invalid_other (m : string) : res vresult := Ok (Some (OtherError m, TxValidationCode_INVALID_OTHER_REASON)).

(** The chaincode that was invoked is the one that was simulated. *)
Definition validate_invocation (l : L) (envBytes : bytes) (chID : string) (txRWSet : TxRwSet) (invoked simulated : option ChaincodeID) :
    res vresult :=
  match invoked, simulated with
  | None, _ => invalid_other "nil ChaincodeId in header extension"
  | _, None => invalid_other "nil ChaincodeId in ChaincodeAction"
  | Some hid, Some rid =>
      let ccID := cid_Name hid in
      let ccVer := cid_Version rid in
      if bool_decide (ccID = "") then invalid_other "invalid chaincode ID"
      else if negb (bool_decide (ccID = cid_Name rid)) then invalid_other "inconsistent ccid info"
      else if bool_decide (ccVer = "") then invalid_other "invalid chaincode version"
      else if negb (IsSysCC ccID) then
        if writesToLSCC txRWSet
        then Ok (Some (OtherError "attempted to write to the namespace of LSCC", TxValidationCode_ILLEGAL_WRITESET))
        else if writesToNonInvokableSCC txRWSet
        then Ok (Some (OtherError "attempted to write to the namespace of a system chaincode that cannot be invoked",
                       TxValidationCode_ILLEGAL_WRITESET))
        else validate_namespaces l envBytes chID ccID ccVer (wrNamespace txRWSet)
      else validate_syscc l envBytes chID ccID
  end.

(** A failed step: the error and the code. *)
Definition or_code {A} (r : res A) (code : Z) (k : A -> res vresult) : res vresult :=
  match r with
  | Ok a => k a
  | Err e => Ok (Some (OtherError e, code))
  | Panic m => Panic m
  | OutOfFuel => OutOfFuel
  end.

Definition VSCCValidateTx (l : L) (hdr : Header) (envBytes : bytes) : res vresult :=
  or_code (GetChaincodeHeaderExtension hdr) TxValidationCode_BAD_HEADER_EXTENSION (fun hdrExt =>
  or_code (UnmarshalChannelHeader (hdr_ChannelHeader hdr)) TxValidationCode_BAD_CHANNEL_HEADER (fun chdr =>
  or_code (GetActionFromEnvelope envBytes) TxValidationCode_BAD_RESPONSE_PAYLOAD (fun respPayload =>
  or_code (FromProtoBytes (ca_Results respPayload)) TxValidationCode_BAD_RWSET (fun txRWSet =>
  validate_invocation l envBytes (ch_ChannelId chdr) txRWSet (che_ChaincodeId hdrExt) (ca_ChaincodeId respPayload))))).

(** *** The chaincodes that a transaction invokes and upgrades *)

Definition getUpgradeTxInstance (chainID : string) (cdsBytes : bytes) : res ChaincodeInstance :=
  cds ← GetChaincodeDeploymentSpec cdsBytes;
  match cds_ChaincodeSpec cds with
  | Some (mkChaincodeSpec _ (Some cc) _) => Ok (mkInstance chainID (cid_Name cc) (cid_Version cc))
  | _ => Panic "nil pointer dereference"
  end.

(** The arguments of the invocation; an error is logged and ends the search for
    an upgrade. *)
Definition invocation_args (payload : Payload) : res (option (list bytes)) :=
  tx ← GetTransaction (pl_Data payload);
  match tx_Actions tx with
  | [] => Panic "index out of range"
  | a :: _ =>
      cap ← unmarshal_ChaincodeActionPayload (ta_Payload a);
      cpp ← unmarshal_ChaincodeProposalPayload (cap_ChaincodeProposalPayload cap);
      cis ← unmarshal_ChaincodeInvocationSpec (cpp_Input cpp);
      Ok (spec ← cis_ChaincodeSpec cis; spec_Input spec)
  end.

(** An upgrade that is requested of lscc. *)
Definition upgrade_of (chainID : string) (args : option (list bytes)) : res (option ChaincodeInstance) :=
  match args with
  | None => Panic "nil pointer dereference"
  | Some args =>
      match args !! 0%nat with
      | None => Panic "index out of range"
      | Some f =>
          if decide (f = to_bytes "upgrade") then
            match args !! 2%nat with
            | None => Panic "index out of range"
            | Some cdsBytes =>
                match getUpgradeTxInstance chainID cdsBytes with
                | Ok cc => Ok (Some cc)
                | Err _ => Ok None
                | Panic m => Panic m
                | OutOfFuel => OutOfFuel
                end
            end
          else Ok None
      end
  end.

Definition getTxCCInstance (payload : Payload) (hdr : Header) : res (ChaincodeInstance * option ChaincodeInstance) :=
  chdr ← UnmarshalChannelHeader (hdr_ChannelHeader hdr);
  let chainID := ch_ChannelId chdr in
  hdrExt ← GetChaincodeHeaderExtension hdr;
  match che_ChaincodeId hdrExt with
  | None => Panic "nil pointer dereference"
  | Some invokeCC =>
      let invokeIns := mkInstance chainID (cid_Name invokeCC) (cid_Version invokeCC) in
      match invocation_args payload with
      | Err _ => Ok (invokeIns, None)
      | Panic m => Panic m
      | OutOfFuel => OutOfFuel
      | Ok args =>
          if decide (cid_Name invokeCC = "lscc")
          then up ← upgrade_of chainID args; Ok (invokeIns, up)
          else Ok (invokeIns, None)
      end
  end.

(** *** A transaction *)

(** The code, and for an endorser transaction that passed, the chaincodes. *)
Definition verdict : Type := Z * option (ChaincodeInstance * option ChaincodeInstance).

Definition validate_endorser_tx (l : L) (payload : Payload) (hdr : Header) (chdr : ChannelHeader) (d : bytes) : res verdict :=
  match ledger_GetTransactionByID l (ch_TxId chdr) with
  | Ok _ => Ok (TxValidationCode_DUPLICATE_TXID, None)
  | Panic m => Panic m
  | OutOfFuel => OutOfFuel
  | Err _ =>
      r ← VSCCValidateTx l hdr d;
      match r with
      | Some (VSCCExecutionFailureError e, _) | Some (VSCCInfoLookupFailureError e, _) => Err e
      | Some (_, cde) => Ok (cde, None)
      | None =>
          match getTxCCInstance payload hdr with
          | Err _ => Ok (TxValidationCode_INVALID_OTHER_REASON, None)
          | Panic m => Panic m
          | OutOfFuel => OutOfFuel
          | Ok ccs => Ok (TxValidationCode_VALID, Some ccs)
          end
      end
  end.

(** [support.Apply] *)
Definition apply_config (configEnvelope : ConfigEnvelope) : ST C unit := fun c =>
  match applyConfig configEnvelope c with
  | (c, Err e) => (c, Err ("Error validating config which passed initial validity checks: " +:+ e))
  | r => r
  end.

(** A configuration is applied when it is validated. *)
Definition validate_config_tx (payload : Payload) : ST C verdict :=
  configEnvelope ← st_lift match unmarshal_ConfigEnvelope (pl_Data payload) with
                           | Err e => Err ("Error unmarshaling config which passed initial validity checks: " +:+ e)
                           | r => r end;
  apply_config configEnvelope;;
  mret (TxValidationCode_VALID, None).

(** The transaction of the envelope bytes [d]; an error ends the validation of
    the block.  The entries of a block that was unmarshalled are not nil, and an
    envelope that was just unmarshalled can be marshalled. *)
Definition validate_tx (l : L) (d : bytes) : ST C verdict :=
  match GetEnvelopeFromBlock d with
  | Err _ => mret (TxValidationCode_INVALID_OTHER_REASON, None)
  | Panic m => st_lift (Panic m)
  | OutOfFuel => st_lift OutOfFuel
  | Ok env =>
      '(payload, txResult) ← st_lift (ValidateTransaction env);
      if negb (txResult =? TxValidationCode_VALID) then mret (txResult, None)
      else
        match payload with
        | Some (mkPayload (Some hdr) data as payload) =>
            match UnmarshalChannelHeader (hdr_ChannelHeader hdr) with
            | Err _ => mret (TxValidationCode_INVALID_OTHER_REASON, None)
            | Panic m => st_lift (Panic m)
            | OutOfFuel => st_lift OutOfFuel
            | Ok chdr =>
                match ch_Type chdr with
                | ENDORSER_TRANSACTION => st_lift (validate_endorser_tx l payload hdr chdr d)
                | CONFIG => validate_config_tx payload
                | _ => mret (TxValidationCode_UNKNOWN_TX_TYPE, None)
                end
            end
        | _ => st_lift (Panic "nil pointer dereference")
        end
  end.

(** *** A block *)

Definition note_instances (tIdx : nat) (v : verdict)
    (maps : list (nat * ChaincodeInstance) * list (nat * ChaincodeInstance)) :
    list (nat * ChaincodeInstance) * list (nat * ChaincodeInstance) :=
  match v.2 with
  | None => maps
  | Some (invokeCC, up) =>
      (maps.1 ++ [(tIdx, invokeCC)], match up with Some cc => maps.2 ++ [(tIdx, cc)] | None => maps.2 end)
  end.

Fixpoint validate_txs (l : L) (tIdx : nat) (data : list bytes) (txsfltr : bytes)
    (maps : list (nat * ChaincodeInstance) * list (nat * ChaincodeInstance)) :
    ST C (bytes * (list (nat * ChaincodeInstance) * list (nat * ChaincodeInstance))) :=
  match data with
  | [] => mret (txsfltr, maps)
  | d :: data =>
      v ← validate_tx l d;
      txsfltr ← st_lift (SetFlag txsfltr tIdx v.1);
      validate_txs l (S tIdx) data txsfltr (note_instances tIdx v maps)
  end.

Definition Validate (l : L) (block : Block) : ST C Block :=
  '(txsfltr, (names, upgrades)) ← validate_txs l 0 (blk_Data block) (NewTxValidationFlags (length (blk_Data block))) ([], []);
  txsfltr ← st_lift (invalidTXsForUpgradeCC (range_names names) (range_upgrades upgrades) txsfltr);
  let block := InitBlockMetadata block in
  mret (mkBlock (blk_Header block) (blk_Data block) (<[TRANSACTIONS_FILTER := txsfltr]> (blk_Metadata block))).

(** ** protos/utils: whether a block holds a configuration *)

Definition IsConfigBlock (block : Block) : res bool :=
  match (envelope ← ExtractEnvelope block 0;
         payload ← GetPayload envelope;
         match pl_Header payload with
         | None => Err "no header"
         | Some hdr => chdr ← UnmarshalChannelHeader (hdr_ChannelHeader hdr); Ok (bool_decide (ch_Type chdr = CONFIG))
         end) with
  | Err _ => Ok false
  | r => r
  end.

(** ** committer_impl.go *)

(** [ledger.Commit] and the callback for a configuration block *)
Context (ledger_Commit : Block -> ST L unit).
Context (eventer : Block -> res unit).

Definition Commit (block : Block) : ST (C * L) unit := fun '(c, l) =>
  match Validate l block c with
  | (c, Ok block) =>
      match (config ← IsConfigBlock block; if (config : bool) then eventer block else Ok tt) with
      | Ok _ => let '(l, r) := ledger_Commit block l in ((c, l), r)
      | Err e => ((c, l), Err ("Could not update CSCC with new configuration update due to " +:+ e))
      | Panic m => ((c, l), Panic m)
      | OutOfFuel => ((c, l), OutOfFuel)
      end
  | (c, Err e) => ((c, l), Err e)
  | (c, Panic m) => ((c, l), Panic m)
  | (c, OutOfFuel) => ((c, l), OutOfFuel)
  end.

End TxValidator.
End TxValidator.
