(* ===== verification/TxValidatorFacts.v ===== *)
(** * What the validation of a block establishes

    The flags that the upgrades of a block leave, in whichever order the maps
    are visited; and what holds of a transaction that is flagged valid. *)

From stdpp Require Import base gmap strings list.
From Stdlib Require Import Ascii ZArith Lia.
From S2P Require Import Prelude RWSet Proto Validator BlockHash CAuthDSL Policies ConfigTx Filters OrdererChain.
From S2P Require Import MsgValidation VSCC TxValidator.
Import ProtoUtils RWSetUtil Flags TxUtils MsgValidation SystemChaincodes VSCC TxValidator.
Local Open Scope Z_scope.

(** ** Upgrades *)

Module UpgradeFacts.

Local Abbreviation CONFLICT := (uint8 TxValidationCode_CHAINCODE_VERSION_CONFLICT).

Implicit Types (ups names : list (nat * ChaincodeInstance)) (final : gmap string nat).

(** [i] upgrades the chaincode of the key [k], or was the last to. *)
Definition upgrades_key ups final (k : string) (i : nat) : Prop :=
  final !! k = Some i \/ exists cc, (i, cc) ∈ ups /\ cc_key cc = k.

(** A later transaction upgrades the same chaincode. *)
Definition superseded ups final (i : nat) : Prop :=
  exists k j, upgrades_key ups final k i /\ upgrades_key ups final k j /\ (i < j)%nat.

(** No transaction counts twice. *)
Record distinct ups final : Prop := {
  di_nodup : NoDup ups.*1;
  di_final k i : final !! k = Some i -> i ∉ ups.*1;
  di_keys k k' i : final !! k = Some i -> final !! k' = Some i -> k = k'
}.

Lemma upgrades_cons ups final k i t cc :
  upgrades_key ((t, cc) :: ups) final k i <-> upgrades_key ups final k i \/ i = t /\ cc_key cc = k.
Proof.
  unfold upgrades_key. split.
  - intros [?|(cc' & [[= -> ->]|Hin]%elem_of_cons & Hk)]; [by left; left|by right|left; right; eauto].
  - intros [[?|(cc' & Hin & Hk)]|[-> Hk]]; [by left|right; exists cc'; split; [by right|done]|].
    right. exists cc. split; [by left|done].
Qed.

Lemma upgrades_insert ups final k i key t :
  upgrades_key ups (<[key := t]> final) k i ->
  upgrades_key ups final k i \/ i = t /\ key = k.
Proof.
  intros [Hf|Hu]; [|by left; right]. destruct (decide (key = k)) as [->|Hn].
  - rewrite lookup_insert_eq in Hf. injection Hf as <-. by right.
  - rewrite lookup_insert_ne in Hf by done. by left; left.
Qed.

Lemma upgrades_insert_2 ups final k i key t :
  upgrades_key ups final k i -> key <> k \/ final !! key <> Some i -> upgrades_key ups (<[key := t]> final) k i.
Proof.
  intros [Hf|Hu] Hn; [|by right]. left. rewrite lookup_insert_ne; [done|]. intros ->. destruct Hn as [Hn|Hn]; congruence.
Qed.

Lemma upgrades_new ups final key t : upgrades_key ups (<[key := t]> final) key t.
Proof. left. by rewrite lookup_insert_eq. Qed.

Lemma distinct_insert ups final key t cc :
  distinct ((t, cc) :: ups) final -> distinct ups (<[key := t]> final).
Proof.
  intros [Hn Hf Hk]. inversion Hn as [|? ? Ht Hn']; subst. split; [done| |].
  - intros k i Hi. destruct (decide (key = k)) as [->|Hne].
    + rewrite lookup_insert_eq in Hi. by injection Hi as <-.
    + rewrite lookup_insert_ne in Hi by done. specialize (Hf k i Hi). set_solver.
  - assert (forall k, final !! k = Some t -> False) as Hno.
    { intros k Hkt. apply (Hf k t Hkt). by left. }
    intros k k' i. rewrite !lookup_insert_Some.
    intros [[<- <-]|[? Hi]] [[<- Hi']|[? Hi']]; [done|by destruct (Hno k')|subst; by destruct (Hno k)|by eapply Hk].
Qed.

Lemma distinct_tail ups final t cc : distinct ((t, cc) :: ups) final -> distinct ups final.
Proof.
  intros [Hn Hf Hk]. inversion Hn; subst. split; [done| |done]. intros k i Hi. specialize (Hf k i Hi). set_solver.
Qed.

Definition in_range ups final (n : nat) : Prop := forall k i, upgrades_key ups final k i -> (i < n)%nat.

(** The last upgrade of each chaincode, and the flags of the others. *)
Record upgraded ups final (flags : bytes) (final' : gmap string nat) (flags' : bytes) : Prop := {
  up_length : length flags' = length flags;
  up_final k i : final' !! k = Some i <-> upgrades_key ups final k i /\ forall j, upgrades_key ups final k j -> (j <= i)%nat;
  up_keys k : is_Some (final' !! k) <-> exists i, upgrades_key ups final k i;
  up_set i : superseded ups final i -> flags' !! i = Some CONFLICT;
  up_keep i : ~ superseded ups final i -> flags' !! i = flags !! i
}.

(** Dropping an upgrade [x] that [y] supersedes. *)
Lemma upgraded_drop ups final key t cc ups1 final1 x y flags final' flags' :
  let all := upgrades_key ((t, cc) :: ups) final in
  (forall k i, upgrades_key ups1 final1 k i <-> all k i /\ i <> x) ->
  all key x -> all key y -> (x < y)%nat -> (forall k, all k x -> k = key) -> (x < length flags)%nat ->
  upgraded ups1 final1 (<[x := CONFLICT]> flags) final' flags' -> upgraded ((t, cc) :: ups) final flags final' flags'.
Proof.
  intros all Hall Hx Hy Hxy Huniq Hlen [U1 U2 UK U3 U4].
  assert (forall i, i <> x -> superseded ((t, cc) :: ups) final i <-> superseded ups1 final1 i) as Hsup.
  { intros i Hi. split.
    - intros (k & j & Ai & Aj & Hij). destruct (decide (j = x)) as [->|Hj].
      + pose proof (Huniq k Aj) as ->. exists key, y. rewrite !Hall. repeat split; [done|done|done|lia|lia].
      + exists k, j. by rewrite !Hall.
    - intros (k & j & Ai & Aj & Hij). rewrite Hall in Ai, Aj. destruct Ai, Aj. by exists k, j. }
  split.
  - by rewrite U1, length_insert.
  - intros k i. rewrite U2. rewrite Hall. split.
    + intros [[Ai Hi] Hmax]. split; [done|]. intros j Aj. destruct (decide (j = x)) as [->|Hj].
      * pose proof (Huniq k Aj) as ->. assert (upgrades_key ups1 final1 key y) as Ay by (rewrite Hall; split; [done|lia]).
        specialize (Hmax y Ay). lia.
      * apply Hmax. by rewrite Hall.
    + intros [Ai Hmax]. split.
      * split; [done|]. intros ->. pose proof (Huniq k Ai) as ->. specialize (Hmax y Hy). lia.
      * intros j Aj. apply Hall in Aj as [Aj _]. by apply Hmax.
  - intros k. rewrite UK. setoid_rewrite Hall. split; [intros (i & Ai & _); eauto|]. intros (i & Ai).
    destruct (decide (i = x)) as [->|Hi]; [|eauto]. pose proof (Huniq k Ai) as ->. exists y. split; [done|lia].
  - intros i Hs. destruct (decide (i = x)) as [->|Hi]; [|by apply U3, Hsup].
    rewrite U4; [by apply list_lookup_insert_eq|]. intros (k & j & Ai & _). by apply Hall in Ai as [_ ?].
  - intros i Hs. destruct (decide (i = x)) as [->|Hi].
    + destruct Hs. by exists key, y.
    + rewrite U4 by (by rewrite <- Hsup). by rewrite list_lookup_insert_ne.
Qed.

Lemma upgraded_same ups final ups1 final1 flags final' flags' :
  (forall k i, upgrades_key ups1 final1 k i <-> upgrades_key ups final k i) ->
  upgraded ups1 final1 flags final' flags' -> upgraded ups final flags final' flags'.
Proof.
  intros Hall [U1 U2 UK U3 U4].
  assert (forall i, superseded ups final i <-> superseded ups1 final1 i) as Hsup.
  { intros i. unfold superseded. by setoid_rewrite Hall. }
  split; [done| | | |].
  - intros k i. rewrite U2. by setoid_rewrite Hall.
  - intros k. rewrite UK. by setoid_rewrite Hall.
  - intros i. rewrite Hsup. apply U3.
  - intros i. rewrite Hsup. apply U4.
Qed.

Lemma upgrades_fst ups final k i : upgrades_key ups final k i -> final !! k = Some i \/ i ∈ ups.*1.
Proof. intros [?|(cc & Hin & _)]; [by left|right]. apply list_elem_of_fmap. by exists (i, cc). Qed.

Lemma not_again ups final t cc k : distinct ((t, cc) :: ups) final -> ~ upgrades_key ups final k t.
Proof.
  intros [Hn Hf _] [Hk|Hk]%upgrades_fst; [apply (Hf k t Hk); by left|]. by inversion Hn.
Qed.

Lemma final_upgrades_spec ups final flags :
  distinct ups final -> in_range ups final (length flags) ->
  exists final' flags', final_upgrades ups final flags = Ok (final', flags') /\ upgraded ups final flags final' flags'.
Proof.
  revert final flags. induction ups as [|[t cc] ups IH]; intros final flags Hd Hr.
  { exists final, flags. split; [done|]. assert (forall k i, upgrades_key [] final k i <-> final !! k = Some i) as He.
    { intros k i. unfold upgrades_key. split; [|by left]. intros [?|(cc & Hin & _)]; [done|by apply elem_of_nil in Hin]. }
    split; [done| | | |done].
    - intros k i. rewrite He. split; [|by intros [? _]]. intros Hi. split; [done|]. intros j Hj. rewrite He, Hi in Hj. by injection Hj as <-.
    - intros k. by setoid_rewrite He.
    - intros i (k & j & Hi & Hj & Hij). rewrite He in Hi, Hj. rewrite Hi in Hj. injection Hj as <-. lia. }
  cbn [final_upgrades]. set (key := cc_key cc). pose proof (not_again _ _ _ _ key Hd) as Hnew.
  assert (upgrades_key ((t, cc) :: ups) final key t) as Ht by (apply upgrades_cons; by right).
  assert (forall k, upgrades_key ((t, cc) :: ups) final k t -> k = key) as Huniq.
  { intros k [Hk|[_ Hk]]%upgrades_cons; [by destruct (not_again _ _ _ _ k Hd)|done]. }
  destruct (final !! key) as [f|] eqn:Ef.
  - assert (upgrades_key ((t, cc) :: ups) final key f) as Hf by (by left).
    assert (f ∉ t :: ups.*1) as Hfn by (apply (di_final _ _ Hd key f Ef)). apply not_elem_of_cons in Hfn as [Hft Hfu].
    destruct (f <? t)%nat eqn:El.
    + apply Nat.ltb_lt in El. unfold SetFlag. rewrite (proj2 (Nat.ltb_lt _ _)) by (by eapply Hr). rewrite res_ret_bind.
      destruct (IH (<[key := t]> final) (<[f := CONFLICT]> flags)) as (final' & flags' & E & U).
      { by eapply distinct_insert. }
      { rewrite length_insert. intros k i [Hk|[-> <-]]%upgrades_insert; [apply (Hr k); apply upgrades_cons; by left|by apply (Hr key)]. }
      exists final', flags'. split; [done|].
      eapply (upgraded_drop _ _ key _ _ _ _ f t); [|done|done|done| |by eapply Hr|done].
      * intros k i. rewrite upgrades_cons. split.
        -- intros Hk. split; [apply upgrades_insert in Hk as [?|[-> <-]]; [by left|by right]|]. intros ->.
           apply upgrades_fst in Hk as [Hk|Hk]; [|done]. apply lookup_insert_Some in Hk as [[_ ?]|[Hkk Hk]]; [done|].
           apply Hkk. by eapply (di_keys _ _ Hd).
        -- intros [[Hk|[-> <-]] Hi]; [|by apply upgrades_new]. apply upgrades_insert_2; [done|]. right. congruence.
      * intros k [Hk|[Hk _]]%upgrades_cons; [|done]. apply upgrades_fst in Hk as [Hk|Hk]; [|done]. by eapply (di_keys _ _ Hd).
    + apply Nat.ltb_ge in El. unfold SetFlag. rewrite (proj2 (Nat.ltb_lt _ _)) by (by eapply Hr). rewrite res_ret_bind.
      destruct (IH final (<[t := CONFLICT]> flags)) as (final' & flags' & E & U).
      { by eapply distinct_tail. }
      { rewrite length_insert. intros k i Hk. apply (Hr k). apply upgrades_cons. by left. }
      exists final', flags'. split; [done|].
      eapply (upgraded_drop _ _ key _ _ _ _ t f); [|done|done|lia|done|by eapply Hr|done].
      intros k i. rewrite upgrades_cons. split.
      * intros Hk. split; [by left|]. intros ->. by destruct (not_again _ _ _ _ k Hd).
      * by intros [[?|[? _]] ?].
  - destruct (IH (<[key := t]> final) flags) as (final' & flags' & E & U).
    { by eapply distinct_insert. }
    { intros k i [Hk|[-> <-]]%upgrades_insert; [apply (Hr k); apply upgrades_cons; by left|by apply (Hr key)]. }
    exists final', flags'. split; [done|]. eapply upgraded_same; [|exact U]. intros k i. rewrite upgrades_cons. split.
    + intros [?|[-> <-]]%upgrades_insert; [by left|by right].
    + intros [Hk|[-> <-]]; [|apply upgrades_new]. apply upgrades_insert_2; [done|]. right. congruence.
Qed.

(** The invocations of a chaincode that was upgraded. *)
Definition invokes_upgraded names (final : gmap string nat) (i : nat) : Prop :=
  exists cc, (i, cc) ∈ names /\ is_Some (final !! cc_key cc).

Lemma valid_byte (b : ascii) : (byte_val b =? 0) = true <-> b = uint8 0.
Proof. rewrite Z.eqb_eq. split; [|by intros ->]. intros Hb. apply byte_val_inj. by rewrite Hb. Qed.

Lemma invalid_invocations_spec names final flags :
  (forall i cc, (i, cc) ∈ names -> (i < length flags)%nat) ->
  exists flags', invalid_invocations names final flags = Ok flags' /\ length flags' = length flags /\
    forall i, (invokes_upgraded names final i /\ flags !! i = Some (uint8 0) -> flags' !! i = Some CONFLICT) /\
      (~ (invokes_upgraded names final i /\ flags !! i = Some (uint8 0)) -> flags' !! i = flags !! i).
Proof.
  revert flags. induction names as [|[t cc] names IH]; intros flags Hr; cbn [invalid_invocations].
  { exists flags. split; [done|]. split; [done|]. intros i. split; [|done]. by intros [(cc & ?%elem_of_nil & _) _]. }
  assert (forall i, invokes_upgraded ((t, cc) :: names) final i <->
    i = t /\ is_Some (final !! cc_key cc) \/ invokes_upgraded names final i) as Hcons.
  { intros i. unfold invokes_upgraded. setoid_rewrite elem_of_cons. naive_solver. }
  assert (t < length flags)%nat as Ht by (apply (Hr t cc); by left).
  destruct (final !! cc_key cc) as [f|] eqn:Ef.
  2: { destruct (IH flags) as (flags' & E & L & S); [intros i c Hin; apply (Hr i c); by right|].
       exists flags'. split; [done|]. split; [done|]. intros i. destruct (S i) as [S1 S2]. rewrite Hcons.
       split; [intros [[[_ [x Hx]]|Hi] Hv]; [done|by apply S1]|]. intros Hn. apply S2. intros [Hi Hv]. apply Hn. auto. }
  unfold IsValid, IsSetTo, Flag. destruct (lookup_lt_is_Some_2 flags t Ht) as [b Hb]. rewrite Hb, !res_ret_bind.
  destruct (byte_val b =? TxValidationCode_VALID) eqn:Ev.
  - apply valid_byte in Ev as ->. unfold SetFlag. rewrite (proj2 (Nat.ltb_lt _ _)) by done. rewrite res_ret_bind.
    destruct (IH (<[t := CONFLICT]> flags)) as (flags' & E & L & S).
    { rewrite length_insert. intros i c Hin. apply (Hr i c). by right. }
    exists flags'. split; [done|]. split; [by rewrite L, length_insert|]. intros i. destruct (S i) as [S1 S2]. rewrite Hcons.
    destruct (decide (i = t)) as [->|Hi].
    + rewrite list_lookup_insert_eq in S2 by done. split; [intros _; apply S2; intros [_ [=]]|]. intros Hn. destruct Hn. eauto.
    + rewrite list_lookup_insert_ne in * by done. split; [intros [[[? _]|Hi'] Hv]; [done|by apply S1]|].
      intros Hn. apply S2. intros [Hi' Hv]. apply Hn. auto.
  - destruct (IH flags) as (flags' & E & L & S); [intros i c Hin; apply (Hr i c); by right|].
    exists flags'. split; [done|]. split; [done|]. intros i. destruct (S i) as [S1 S2]. rewrite Hcons.
    split; [intros [[[-> _]|Hi] Hv]; [|by apply S1]|].
    + rewrite Hb in Hv. injection Hv as ->. done.
    + intros Hn. apply S2. intros [Hi Hv]. apply Hn. auto.
Qed.

(** *** Both loops *)

(** The flag of a transaction that passed the other checks. *)
Definition conflicts names ups (i : nat) : Prop :=
  superseded ups ∅ i \/ exists cc j cc', (i, cc) ∈ names /\ (j, cc') ∈ ups /\ cc_key cc = cc_key cc'.

Lemma upgrades_empty ups k i : upgrades_key ups ∅ k i <-> exists cc, (i, cc) ∈ ups /\ cc_key cc = k.
Proof. unfold upgrades_key. rewrite lookup_empty. naive_solver. Qed.

(** What the two loops do, in whichever order they visit the maps. *)
Record invalidated names ups (flags flags' : bytes) : Prop := {
  iv_length : length flags' = length flags;
  iv_set i : superseded ups ∅ i \/ conflicts names ups i /\ flags !! i = Some (uint8 0) -> flags' !! i = Some CONFLICT;
  iv_keep i : ~ superseded ups ∅ i -> ~ (conflicts names ups i /\ flags !! i = Some (uint8 0)) -> flags' !! i = flags !! i
}.

Lemma invalidTXs_spec names ups flags :
  NoDup ups.*1 -> (forall i, i ∈ ups.*1 -> (i < length flags)%nat) -> (forall i, i ∈ names.*1 -> (i < length flags)%nat) ->
  exists flags', invalidTXsForUpgradeCC names ups flags = Ok flags' /\ invalidated names ups flags flags'.
Proof.
  intros Hnd Hu Hn. unfold invalidTXsForUpgradeCC. destruct ups as [|u ups].
  { exists flags. split; [done|]. assert (forall i, ~ superseded [] ∅ i) as Hs.
    { intros i (k & j & Hi & _). apply upgrades_empty in Hi as (cc & Hi & _). by apply elem_of_nil in Hi. }
    split; [done| |done]. intros i [Hi|[[Hi|(cc & j & cc' & _ & Hj & _)] _]]; [by destruct (Hs i)..|by apply elem_of_nil in Hj]. }
  set (ups' := u :: ups) in *. clearbody ups'. clear u ups. rename ups' into ups.
  destruct (final_upgrades_spec ups ∅ flags) as (final & flags1 & -> & [U1 U2 UK U3 U4]).
  { split; [done| |]; intros *; by rewrite lookup_empty. }
  { intros k i (cc & Hin & _)%upgrades_empty. apply Hu. apply list_elem_of_fmap. by exists (i, cc). }
  rewrite res_ret_bind. destruct (invalid_invocations_spec names final flags1) as (flags' & -> & L & S).
  { intros i cc Hin. rewrite U1. apply Hn. apply list_elem_of_fmap. by exists (i, cc). }
  exists flags'. split; [done|].
  assert (forall i, invokes_upgraded names final i <-> exists cc j cc', (i, cc) ∈ names /\ (j, cc') ∈ ups /\ cc_key cc = cc_key cc') as Hinv.
  { intros i. unfold invokes_upgraded. setoid_rewrite UK. setoid_rewrite upgrades_empty. naive_solver. }
  split; [congruence| |].
  - intros i Hc. destruct (S i) as [S1 S2]. rewrite Hinv in S1, S2.
    destruct Hc as [Hs|[[Hs|Hc] Hv]].
    + rewrite S2; [by apply U3|]. intros [_ Hv]. rewrite (U3 _ Hs) in Hv. by injection Hv.
    + rewrite S2; [by apply U3|]. intros [_ Hv']. rewrite (U3 _ Hs) in Hv'. by injection Hv'.
    + destruct (decide (flags1 !! i = Some (uint8 0))) as [Hv1|Hv1]; [by apply S1|].
      rewrite S2 by (by intros [_ ?]). assert (~ ~ superseded ups ∅ i) as Hnn; [|].
      { intros Hns. by rewrite (U4 _ Hns) in Hv1. }
      destruct (flags1 !! i) as [b|] eqn:Eb.
      * destruct (decide (b = CONFLICT)) as [->|Hb]; [done|]. exfalso. apply Hnn. intros Hs. apply Hb.
        rewrite (U3 _ Hs) in Eb. by injection Eb.
      * exfalso. apply Hnn. intros Hs. by rewrite (U3 _ Hs) in Eb.
  - intros i Hs Hc. destruct (S i) as [S1 S2]. rewrite Hinv in S1, S2. rewrite S2; [by apply U4|].
    intros [Hi Hv]. apply Hc. rewrite (U4 _ Hs) in Hv. split; [by right|done].
Qed.

(** *** The order does not matter *)

Lemma superseded_Exists ups i :
  superseded ups ∅ i <-> Exists (fun u => u.1 = i /\ Exists (fun w => cc_key w.2 = cc_key u.2 /\ (i < w.1)%nat) ups) ups.
Proof.
  rewrite Exists_exists. split.
  - intros (k & j & (cc & Hi & <-)%upgrades_empty & (cc' & Hj & Hk)%upgrades_empty & Hij).
    exists (i, cc). split; [done|]. split; [done|]. apply Exists_exists. by exists (j, cc').
  - intros ([a cc] & Hi & Ha & ([b cc'] & Hj & Hk & Hlt)%Exists_exists). cbn in *. subst a.
    exists (cc_key cc), b. split; [apply upgrades_empty; eauto|]. split; [apply upgrades_empty; eauto|done].
Qed.

Lemma conflicts_Exists names ups i :
  conflicts names ups i <->
  superseded ups ∅ i \/ Exists (fun u => u.1 = i /\ Exists (fun w => cc_key u.2 = cc_key w.2) ups) names.
Proof.
  unfold conflicts. rewrite (Exists_exists _ names). split; (intros [Hs|Hc]; [by left|right]).
  - destruct Hc as (cc & j & cc' & Hi & Hj & Hk). exists (i, cc). split; [done|]. split; [done|]. apply Exists_exists. by exists (j, cc').
  - destruct Hc as ([a cc] & Hi & Ha & ([b cc'] & Hj & Hk)%Exists_exists). cbn in *. subst a. eauto 10.
Qed.

#[export] Instance superseded_dec ups i : Decision (superseded ups ∅ i).
Proof. refine (cast_if (decide (Exists (fun u => u.1 = i /\ Exists (fun w => cc_key w.2 = cc_key u.2 /\ (i < w.1)%nat) ups) ups))); by rewrite superseded_Exists. Defined.

#[export] Instance conflicts_dec names ups i : Decision (conflicts names ups i).
Proof. refine (cast_if (decide (superseded ups ∅ i \/ Exists (fun u => u.1 = i /\ Exists (fun w => cc_key u.2 = cc_key w.2) ups) names))); by rewrite conflicts_Exists. Defined.

Lemma superseded_perm ups ups' i : ups ≡ₚ ups' -> superseded ups ∅ i <-> superseded ups' ∅ i.
Proof.
  intros Hp. unfold superseded. split; intros (k & j & (cc & Hi & Hk)%upgrades_empty & (cc' & Hj & Hk')%upgrades_empty & Hij);
    exists k, j; (split; [|split; [|done]]; apply upgrades_empty); [rewrite Hp in Hi, Hj..|rewrite <- Hp in Hi, Hj|rewrite <- Hp in Hi, Hj]; eauto.
Qed.

Lemma conflicts_perm names names' ups ups' i :
  names ≡ₚ names' -> ups ≡ₚ ups' -> conflicts names ups i <-> conflicts names' ups' i.
Proof.
  intros Hn Hu. unfold conflicts. rewrite (superseded_perm _ _ _ Hu).
  split; (intros [Hs|(cc & j & cc' & Hi & Hj & Hk)]; [by left|right]; exists cc, j, cc').
  - by rewrite <- Hn, <- Hu.
  - by rewrite Hn, Hu.
Qed.

Lemma invalidated_perm names names' ups ups' flags f f' :
  names ≡ₚ names' -> ups ≡ₚ ups' -> invalidated names ups flags f -> invalidated names' ups' flags f' -> f = f'.
Proof.
  intros Hn Hu [_ S1 K1] [_ S2 K2]. apply list_eq. intros i.
  specialize (S1 i). specialize (K1 i). rewrite (superseded_perm _ _ _ Hu), (conflicts_perm _ _ _ _ _ Hn Hu) in S1, K1.
  destruct (decide (superseded ups' ∅ i)) as [Hs|Hs]; [by rewrite S1, S2 by auto|].
  destruct (decide (conflicts names' ups' i /\ flags !! i = Some (uint8 0))) as [Hc|Hc]; [by rewrite S1, S2 by auto|].
  by rewrite K1, K2.
Qed.

End UpgradeFacts.

(** ** Endorsements *)

Module EndorsementFacts.
Section EndorsementFacts.
Context `{ProtoCodec} `{SignatureCodec} `{TxCodec} `{CryptoHash} `{RWSetCodec} `{MSPManagers}.

Definition endorsement_data (prp : bytes) (e : Endorsement) : SignedData :=
  mkSignedData (prp ++ end_Endorser e) (end_Endorser e) (end_Signature e).

(** The provider and the certificate of who signed. *)
Definition endorser_name (sd : SignedData) : res string :=
  si ← unmarshal_SerializedIdentity (sd_Identity sd); Ok (si_Mspid si +:+ to_string (si_IdBytes si)).

(** The endorsements [es] of a response satisfy a policy: its gates reach their
    thresholds with signatures of different endorsers over the response. *)
Definition endorsed_by (m : MSP) (prp : bytes) (es : list Endorsement) (policyBytes : bytes) : Prop :=
  exists pol sds U, unmarshal_SignaturePolicyEnvelope policyBytes = Ok pol /\ spe_Version pol = 0 /\
    CAuthFacts.sat (spe_Identities pol) sds (spe_Rule pol) U /\ NoDup (endorser_name <$> sds) /\
    forall sd, sd ∈ sds -> exists e, e ∈ es /\ sd = endorsement_data prp e.

Lemma dedup_endorsements_In prp ids es sds sd :
  dedup_endorsements prp ids es = Ok sds -> sd ∈ sds -> exists e, e ∈ es /\ sd = endorsement_data prp e.
Proof.
  revert ids sds. induction es as [|e es IH]; intros ids sds E Hin; cbn in E.
  { injection E as <-. by apply elem_of_nil in Hin. }
  apply res_bind_Ok in E as (si & _ & E). case_decide.
  - destruct (IH _ _ E Hin) as (e' & He & ->). exists e'. split; [by right|done].
  - apply res_bind_Ok in E as (rest & Er & E). injection E as <-. apply elem_of_cons in Hin as [->|Hin].
    + exists e. split; [by left|done].
    + destruct (IH _ _ Er Hin) as (e' & He & ->). exists e'. split; [by right|done].
Qed.

Lemma dedup_endorsements_NoDup prp (ids : gset string) es sds :
  dedup_endorsements prp ids es = Ok sds ->
  NoDup (endorser_name <$> sds) /\ forall n, n ∈ ids -> Ok n ∉ endorser_name <$> sds.
Proof.
  revert ids sds. induction es as [|e es IH]; intros ids sds E; cbn in E.
  { injection E as <-. split; [constructor|]. intros n _. apply not_elem_of_nil. }
  apply res_bind_Ok in E as (si & Es & E). destruct (unmarshal_SerializedIdentity (end_Endorser e)) as [si'| | |] eqn:Eu; try done.
  injection Es as ->. case_decide as Hin; [by apply IH|].
  apply res_bind_Ok in E as (rest & Er & E). injection E as <-. destruct (IH _ _ Er) as [Hn Hr].
  assert (endorser_name (endorsement_data prp e) = Ok (si_Mspid si +:+ to_string (si_IdBytes si))) as En
    by (unfold endorser_name; cbn [sd_Identity endorsement_data]; by rewrite Eu).
  change (mkSignedData _ _ _) with (endorsement_data prp e). rewrite fmap_cons, En. split.
  - constructor; [apply Hr; set_solver|done].
  - intros n Hnin. apply not_elem_of_cons. split; [intros [= ->]; done|apply Hr; set_solver].
Qed.

Lemma policy_endorsed mgr policyBytes policy cap action sigs :
  new_policy mgr policyBytes = Ok policy -> cap_Action cap = Some action -> deduplicateIdentity cap = Ok sigs ->
  CAuthDSL.Evaluate policy sigs = Ok tt ->
  endorsed_by (default nil_msp mgr) (default [] (cea_ProposalResponsePayload action)) (cea_Endorsements action) policyBytes.
Proof.
  intros Ep Ea Ed Ev. unfold new_policy, CAuthDSL.NewPolicy in Ep. apply res_bind_Ok in Ep as (pol & Eu & Ep).
  destruct (spe_Version pol =? 0) eqn:Ever; [|done]. apply Z.eqb_eq in Ever. cbn in Ep.
  destruct (CAuthTheorems.evaluate_sound _ _ _ _ Ep Ev) as (U & Hs & Hn & Hin).
  exists pol, (CAuthDSL.deduplicate sigs), U. split; [by destruct (unmarshal_SignaturePolicyEnvelope policyBytes)|].
  unfold deduplicateIdentity in Ed. rewrite Ea in Ed.
  split; [done|]. split; [done|]. split; [|intros sd Hsd; apply Hin in Hsd; by eapply dedup_endorsements_In].
  destruct (dedup_endorsements_NoDup _ _ _ _ Ed) as [Hnd _]. eapply sublist_NoDup; [exact Hnd|]. apply fmap_sublist.
  apply CAuthTheorems.dedup_loop_sublist.
Qed.

(** *** The form of a transaction *)

(** The creator is valid and signed the payload. *)
Definition creator_signed (chID : string) (creator payload sig : bytes) : Prop :=
  exists m id, GetIdentityDeserializer chID = Some m /\ @DeserializeIdentity m creator = Ok id /\
    @identity_Validate m id = Ok tt /\ @Verify m id payload sig = Ok tt.

(** The parts of an endorser transaction. *)
Record tx_parts := mkParts {
  p_env : Envelope; p_payload : Payload; p_hdr : Header; p_chdr : ChannelHeader; p_shdr : SignatureHeader;
  p_act : TransactionAction; p_cap : ChaincodeActionPayload; p_action : ChaincodeEndorsedAction;
  p_prp : ProposalResponsePayload
}.

Record well_formed (d : bytes) (p : tx_parts) : Prop := {
  wf_env : GetEnvelopeFromBlock d = Ok (p_env p);
  wf_payload : GetPayload (p_env p) = Ok (p_payload p);
  wf_hdr : pl_Header (p_payload p) = Some (p_hdr p);
  wf_chdr : UnmarshalChannelHeader (hdr_ChannelHeader (p_hdr p)) = Ok (p_chdr p);
  wf_shdr : GetSignatureHeader (hdr_SignatureHeader (p_hdr p)) = Ok (p_shdr p);
  wf_type : ch_Type (p_chdr p) = ENDORSER_TRANSACTION;
  wf_epoch : ch_Epoch (p_chdr p) = 0;
  wf_creator : creator_signed (ch_ChannelId (p_chdr p)) (sh_Creator (p_shdr p)) (env_Payload (p_env p)) (env_Signature (p_env p));
  wf_txid : ComputeProposalTxID (sh_Nonce (p_shdr p)) (sh_Creator (p_shdr p)) = Ok (ch_TxId (p_chdr p));
  wf_act : GetTransaction (pl_Data (p_payload p)) = Ok (mkTransaction [p_act p]);
  wf_cap : unmarshal_ChaincodeActionPayload (ta_Payload (p_act p)) = Ok (p_cap p);
  wf_action : cap_Action (p_cap p) = Some (p_action p);
  wf_prp : unmarshal_ProposalResponsePayload (default [] (cea_ProposalResponsePayload (p_action p))) = Ok (p_prp p);
  wf_hash : GetProposalHash2 (mkHeader (hdr_ChannelHeader (p_hdr p)) (ta_Header (p_act p)))
              (cap_ChaincodeProposalPayload (p_cap p)) = Ok (prp_ProposalHash (p_prp p))
}.

Lemma code_of_VALID {A} (r : res A) code k x :
  code <> TxValidationCode_VALID -> code_of r code k = Ok (x, TxValidationCode_VALID) ->
  exists a, r = Ok a /\ k a = Ok (x, TxValidationCode_VALID).
Proof. intros Hc. destruct r as [a| | |]; cbn; try done; [eauto|]. intros [= _ E]. by destruct Hc. Qed.

Lemma creator_checked creator sig msg ch : checkSignatureFromCreator creator sig msg ch = Ok tt -> creator_signed ch creator msg sig.
Proof.
  unfold checkSignatureFromCreator. destruct (_ || _); [done|]. destruct (GetIdentityDeserializer ch) as [m|] eqn:Em; [|done].
  intros E. apply res_bind_Ok in E as (id & Ed & E). apply res_bind_Ok in E as ([] & Ev & E). exists m, id.
  split; [done|]. split; [by destruct (DeserializeIdentity creator)|]. split; [by destruct (@identity_Validate m id)|].
  by destruct (Verify id msg sig).
Qed.

Lemma header_checked hdr chdr shdr :
  validateCommonHeader (Some hdr) = Ok (chdr, shdr) ->
  UnmarshalChannelHeader (hdr_ChannelHeader hdr) = Ok chdr /\ GetSignatureHeader (hdr_SignatureHeader hdr) = Ok shdr /\
  ch_Epoch chdr = 0 /\ sh_Nonce shdr <> [] /\ sh_Creator shdr <> [].
Proof.
  intros E. cbn in E. apply res_bind_Ok in E as (chdr' & Ec & E). apply res_bind_Ok in E as (shdr' & Es & E).
  apply res_bind_Ok in E as ([] & Ev & E). apply res_bind_Ok in E as ([] & Ew & E). injection E as -> ->.
  split; [done|]. split; [done|]. unfold validateChannelHeader in Ev. unfold validateSignatureHeader in Ew.
  assert (ch_Epoch chdr = 0) as He.
  { destruct (ch_Type chdr); try done; destruct (ch_Epoch chdr =? 0) eqn:Ee; try done; by apply Z.eqb_eq. }
  split; [done|]. destruct (sh_Nonce shdr); [done|]. by destruct (sh_Creator shdr).
Qed.

Lemma action_checked hdr act :
  validate_action hdr act = Ok tt ->
  exists cap action prp, unmarshal_ChaincodeActionPayload (ta_Payload act) = Ok cap /\ cap_Action cap = Some action /\
    unmarshal_ProposalResponsePayload (default [] (cea_ProposalResponsePayload action)) = Ok prp /\
    GetProposalHash2 (mkHeader (hdr_ChannelHeader hdr) (ta_Header act)) (cap_ChaincodeProposalPayload cap) = Ok (prp_ProposalHash prp).
Proof.
  intros E. unfold validate_action in E. apply res_bind_Ok in E as (sh & _ & E). apply res_bind_Ok in E as ([] & _ & E).
  apply res_bind_Ok in E as (cap & Ec & E). destruct (cap_Action cap) as [action|] eqn:Ea; [|done].
  apply res_bind_Ok in E as (prp & Ep & E). apply res_bind_Ok in E as (h & Eh & E). case_decide as Hh; [|done]. subst h.
  by exists cap, action, prp.
Qed.

Lemma ValidateTransaction_payload env payload :
  ValidateTransaction env = Ok (Some payload, TxValidationCode_VALID) -> GetPayload env = Ok payload.
Proof.
  intros Ev. unfold ValidateTransaction in Ev. apply code_of_VALID in Ev as (payload' & Ep & Ev); [|done].
  apply code_of_VALID in Ev as ([chdr shdr] & _ & Ev); [|done]. apply code_of_VALID in Ev as ([] & _ & Ev); [|done].
  destruct (ch_Type chdr), (pl_Header payload'); try done.
  - destruct (validateConfigTransaction _); try done. by injection Ev as <-.
  - apply code_of_VALID in Ev as ([] & _ & Ev); [|done]. destruct (validateEndorserTransaction _ _); try done. by injection Ev as <-.
Qed.

Lemma valid_well_formed d env payload hdr chdr :
  GetEnvelopeFromBlock d = Ok env -> ValidateTransaction env = Ok (Some payload, TxValidationCode_VALID) ->
  pl_Header payload = Some hdr -> UnmarshalChannelHeader (hdr_ChannelHeader hdr) = Ok chdr ->
  ch_Type chdr = ENDORSER_TRANSACTION ->
  exists p, well_formed d p /\ p_env p = env /\ p_payload p = payload /\ p_hdr p = hdr /\ p_chdr p = chdr.
Proof.
  intros He Ev Eh Ec Ht. unfold ValidateTransaction in Ev.
  apply code_of_VALID in Ev as (payload' & Ep & Ev); [|done]. apply code_of_VALID in Ev as ([chdr' shdr] & Eh' & Ev); [|done].
  apply code_of_VALID in Ev as ([] & Es & Ev); [|done].
  destruct (pl_Header payload') as [hdr'|] eqn:Ehp; [|done].
  destruct (header_checked _ _ _ Eh') as (Ec' & Esh & Hep & _).
  assert (payload' = payload) as ->.
  { destruct (ch_Type chdr'); try done.
    - destruct (validateConfigTransaction _); try done; by injection Ev.
    - apply code_of_VALID in Ev as ([] & _ & Ev); [|done]. destruct (validateEndorserTransaction _ _); try done; by injection Ev. }
  rewrite Eh in Ehp. injection Ehp as <-. rewrite Ec in Ec'. injection Ec' as <-. rewrite Ht in Ev.
  apply code_of_VALID in Ev as ([] & Eid & Ev); [|done].
  destruct (validateEndorserTransaction (pl_Data payload) hdr) as [[]| | |] eqn:Eend; try done.
  unfold validateEndorserTransaction in Eend. destruct (is_nil _); [done|]. apply res_bind_Ok in Eend as (tx & Etx & Eend).
  destruct tx as [acts]. cbn in Eend. destruct acts as [|act [|act2 acts]]; try done. cbn in Eend.
  apply res_bind_Ok in Eend as ([] & Ea & _). destruct (action_checked _ _ Ea) as (cap & action & prp & Hc & Hact & Hp & Hh).
  exists (mkParts env payload hdr chdr shdr act cap action prp). split; [|done]. split; try done; cbn.
  - by apply creator_checked.
  - unfold CheckProposalTxID in Eid. destruct (ComputeProposalTxID _ _) as [id| | |]; try done. case_decide; [by subst|done].
Qed.

End EndorsementFacts.
End EndorsementFacts.

(** ** Transactions that are valid *)

Module ValidTx.
Import EndorsementFacts.
Section ValidTx.
Context `{ProtoCodec} `{SignatureCodec} `{TxCodec} `{CryptoHash} `{RWSetCodec} `{MSPManagers} `{ConfigCodec}.
Context {L C : Type} `{PeerLedger L}.
Context (SysCCVersion : string).
Context (ExecuteChaincode : string -> string -> string -> list bytes -> res Response).
Context (GetMSPIDs : string -> list string).
Context (applyConfig : ConfigEnvelope -> ST C unit).
Context (GetLedger : string -> option L).

(** Executing the validation system chaincode runs it; its arguments are not
    nil. *)
Definition executes_vscc : Prop :=
  forall chid ver args r, ExecuteChaincode chid "vscc" ver args = Ok r -> VSCC.Invoke GetLedger (Some <$> args) = Ok r.

Context (Hexec : executes_vscc).

Implicit Types (p : tx_parts) (l : L).

Definition tx_mgr p : MSP := default nil_msp (GetManagerForChain (ch_ChannelId (p_chdr p))).
Definition tx_response p : bytes := default [] (cea_ProposalResponsePayload (p_action p)).

(** The endorsements of a transaction satisfy a policy. *)
Definition tx_endorsed p (policyBytes : bytes) : Prop :=
  endorsed_by (tx_mgr p) (tx_response p) (cea_Endorsements (p_action p)) policyBytes.

Lemma invoke_wf d p policyBytes :
  well_formed d p -> VSCC.invoke GetLedger d policyBytes = Ok tt ->
  tx_endorsed p policyBytes /\
  forall ext cc, GetChaincodeHeaderExtension (p_hdr p) = Ok ext -> che_ChaincodeId ext = Some cc -> cid_Name cc = "lscc" ->
    ValidateLSCCInvocation GetLedger (ch_ChannelId (p_chdr p)) (p_env p) (p_cap p) (p_payload p) = Ok tt.
Proof.
  intros W E. unfold VSCC.invoke in E. rewrite (wf_env _ _ W), res_ret_bind, (wf_payload _ _ W), res_ret_bind, (wf_hdr _ _ W) in E.
  rewrite (wf_chdr _ _ W), res_ret_bind in E. apply res_bind_Ok in E as (policy & Ep & E).
  rewrite bool_decide_true in E by apply W. cbn [negb] in E. rewrite (wf_act _ _ W), res_ret_bind in E. cbn [tx_Actions invoke_actions] in E.
  apply res_bind_Ok in E as ([] & Ea & _). unfold invoke_action in Ea. rewrite (wf_cap _ _ W), res_ret_bind in Ea.
  apply res_bind_Ok in Ea as (sigs & Es & Ea). destruct (CAuthDSL.Evaluate policy sigs) as [[]| | |] eqn:Ev; try done.
  split; [exact (policy_endorsed _ _ _ _ _ _ Ep (wf_action _ _ W) Es Ev)|].
  intros ext cc Ee Ecc Hn. rewrite Ee, res_ret_bind, Ecc in Ea. by rewrite decide_True in Ea.
Qed.

Lemma Invoke_wf d p policyBytes :
  well_formed d p -> VSCC.Invoke GetLedger (Some <$> [[]; d; policyBytes]) = Ok Success ->
  tx_endorsed p policyBytes /\
  forall ext cc, GetChaincodeHeaderExtension (p_hdr p) = Ok ext -> che_ChaincodeId ext = Some cc -> cid_Name cc = "lscc" ->
    ValidateLSCCInvocation GetLedger (ch_ChannelId (p_chdr p)) (p_env p) (p_cap p) (p_payload p) = Ok tt.
Proof.
  intros W E. cbn in E.
  destruct (VSCC.invoke GetLedger d policyBytes) as [[]| | |] eqn:Ei; try done. by eapply invoke_wf.
Qed.

(** *** The chaincodes that are written to *)

(** The namespace [ns] belongs to a chaincode, and the endorsements satisfy its
    policy. *)
Definition ns_endorsed l p (ccID ccVer ns : string) : Prop :=
  exists b cd, query_GetState l "lscc" ns = Ok (Some b) /\ unmarshal_ChaincodeData b = Ok cd /\
    (ns = ccID -> cd_Version cd = ccVer) /\ (cd_Vscc cd = "vscc" -> tx_endorsed p (cd_Policy cd)).

Lemma info_other l chID ccID txcc vscc policy :
  ccID <> "lscc" -> GetInfoForValidate SysCCVersion GetMSPIDs l chID ccID = Ok (inr (txcc, vscc, policy)) ->
  exists b cd, query_GetState l "lscc" ccID = Ok (Some b) /\ unmarshal_ChaincodeData b = Ok cd /\
    txcc = mkInstance chID (cd_Name cd) (cd_Version cd) /\ vscc = mkInstance chID (cd_Vscc cd) SysCCVersion /\ policy = cd_Policy cd.
Proof.
  intros Hn E. unfold GetInfoForValidate in E. rewrite bool_decide_false in E by done. cbn [negb] in E.
  apply res_bind_Ok in E as (r & Er & E). destruct r as [e|cd]; [done|]. injection E as <- <- <-.
  unfold getCDataForCC in Er. destruct (query_GetState l "lscc" ccID) as [[b|]| | |]; try done.
  destruct (unmarshal_ChaincodeData b) as [cd'| | |] eqn:Eu; try done. case_decide; [done|]. destruct (is_nil _); [done|].
  injection Er as ->. by exists b, cd.
Qed.

Lemma vscc_ran d p ch ver policy :
  well_formed d p -> VSCCValidateTxForCC ExecuteChaincode d ch "vscc" ver policy = Ok None ->
  VSCC.Invoke GetLedger (Some <$> [[]; d; policy]) = Ok Success.
Proof.
  intros W E. unfold VSCCValidateTxForCC in E. destruct (ExecuteChaincode ch "vscc" ver _) as [[|]| | |] eqn:Ee; try done.
  by eapply Hexec.
Qed.

Lemma namespaces_endorsed l d p ccID ccVer nss :
  well_formed d p ->
  validate_namespaces SysCCVersion ExecuteChaincode GetMSPIDs l d (ch_ChannelId (p_chdr p)) ccID ccVer nss = Ok None ->
  forall ns, ns ∈ nss -> ns <> "lscc" -> ns_endorsed l p ccID ccVer ns.
Proof.
  intros W. induction nss as [|n nss IH]; intros E ns Hin Hns; [by apply elem_of_nil in Hin|]. cbn [validate_namespaces] in E.
  apply res_bind_Ok in E as (info & Ei & E). destruct info as [e|[[txcc vscc] policy]]; [done|].
  destruct (bool_decide (n = ccID) && _) eqn:Ev; [done|]. apply res_bind_Ok in E as (r & Er & E). destruct r as [e|]; [done|].
  apply elem_of_cons in Hin as [->|Hin]; [|by apply IH].
  destruct (info_other _ _ _ _ _ _ Hns Ei) as (b & cd & Hb & Hu & -> & -> & ->). exists b, cd. split; [done|]. split; [done|]. split.
  - intros ->. rewrite bool_decide_true in Ev by done. cbn in Ev. apply negb_false_iff, bool_decide_eq_true in Ev. done.
  - intros Hvscc. cbn in Er. rewrite Hvscc in Er. apply (vscc_ran d p) in Er; [|done]. by apply (Invoke_wf d p) in Er as [? _].
Qed.

(** *** Deployments *)

(** Signatures satisfy a policy. *)
Definition policy_satisfied (m : MSP) (sds : list SignedData) (policyBytes : bytes) : Prop :=
  exists pol U, unmarshal_SignaturePolicyEnvelope policyBytes = Ok pol /\ spe_Version pol = 0 /\
    CAuthFacts.sat (spe_Identities pol) sds (spe_Rule pol) U.

(** The creator of the transaction satisfies a policy. *)
Definition creator_satisfies p (policyBytes : bytes) : Prop :=
  exists m, GetManagerForChain (ch_ChannelId (p_chdr p)) = Some m /\
    policy_satisfied m [mkSignedData (env_Payload (p_env p)) (sh_Creator (p_shdr p)) (env_Signature (p_env p))] policyBytes.

(** The read-write set [rw] of a transaction deploys or upgrades [cc]: its one
    write to lscc (of the first set of that namespace) is the data of the
    chaincode; otherwise only the chaincode's namespace is written; and the
    creator satisfies the instantiation policy, of the new chaincode or of the
    one that it replaces. *)
Definition deploys p (rw : TxRwSet) (cc : ChaincodeID) : Prop :=
  exists l lw w cd, GetLedger (ch_ChannelId (p_chdr p)) = Some l /\
    find_rwset "lscc" rw = Some lw /\ Writes lw = [w] /\ kvw_Key w = cid_Name cc /\
    unmarshal_ChaincodeData (default [] (kvw_Value w)) = Ok cd /\ cd_Name cd = cid_Name cc /\ cd_Version cd = cid_Version cc /\
    (forall ns, ns ∈ wrNamespace rw -> ns = "lscc" \/ ns = cid_Name cc) /\
    (query_GetState l "lscc" (cid_Name cc) = Ok None /\ creator_satisfies p (cd_InstantiationPolicy cd) \/
     exists b old, query_GetState l "lscc" (cid_Name cc) = Ok (Some b) /\ unmarshal_ChaincodeData b = Ok old /\
       cd_Version old <> cid_Version cc /\ creator_satisfies p (cd_InstantiationPolicy old)).

Lemma instantiation_checked d p pol :
  well_formed d p -> checkInstantiationPolicy (ch_ChannelId (p_chdr p)) (p_env p) pol (p_payload p) = Ok tt -> creator_satisfies p pol.
Proof.
  intros W E. unfold checkInstantiationPolicy in E. destruct (GetManagerForChain _) as [m|] eqn:Em; [|done].
  apply res_bind_Ok in E as (ev & Ep & E). rewrite (wf_hdr _ _ W), (wf_shdr _ _ W), res_ret_bind in E.
  destruct (CAuthDSL.Evaluate ev _) as [[]| | |] eqn:Ee; try done.
  unfold new_policy, CAuthDSL.NewPolicy in Ep. apply res_bind_Ok in Ep as (env & Eu & Ep).
  destruct (spe_Version env =? 0) eqn:Ever; [|done]. apply Z.eqb_eq in Ever. cbn in Ep.
  destruct (CAuthTheorems.evaluate_sound _ _ _ _ Ep Ee) as (U & Hs & _). exists m. split; [done|]. exists env, U.
  split; [by destruct (unmarshal_SignaturePolicyEnvelope pol)|]. split; [done|]. exact Hs.
Qed.

Lemma only_writes_checked name rw :
  only_writes_to name rw = Ok tt -> forall ns, ns ∈ wrNamespace rw -> ns = "lscc" \/ ns = name.
Proof.
  induction rw as [|s rw IH]; intros E ns Hin; [by apply elem_of_nil in Hin|].
  unfold wrNamespace in Hin. cbn [only_writes_to omap list_omap] in E, Hin.
  destruct (0 <? length (Writes (KvRwSet s)))%nat eqn:Ew.
  - rewrite andb_true_r in E. destruct (bool_decide (NameSpace s = "lscc")) eqn:E1;
      [|destruct (bool_decide (NameSpace s = name)) eqn:E2; [|done]].
    + apply bool_decide_eq_true in E1. apply elem_of_cons in Hin as [->|Hin]; [by left|by apply IH].
    + apply bool_decide_eq_true in E2. apply elem_of_cons in Hin as [->|Hin]; [by right|by apply IH].
  - rewrite andb_false_r in E. by apply IH.
Qed.

Lemma lscc_write_checked cc lw cd :
  lscc_write cc lw = Ok cd ->
  exists rw w, lw = Some rw /\ Writes rw = [w] /\ kvw_Key w = cid_Name cc /\
    unmarshal_ChaincodeData (default [] (kvw_Value w)) = Ok cd /\ cd_Name cd = cid_Name cc /\ cd_Version cd = cid_Version cc.
Proof.
  destruct lw as [rw|]; [|done]. cbn. destruct (Writes rw) as [|w [|]] eqn:Ew; try done.
  destruct (bool_decide (kvw_Key w = _)) eqn:E1; [|done]. apply bool_decide_eq_true in E1. cbn [negb].
  intros E. apply res_bind_Ok in E as (cd' & Eu & E). destruct (bool_decide (cd_Name cd' = _)) eqn:E2; [|done]. cbn [negb] in E.
  destruct (bool_decide (cd_Version cd' = _)) eqn:E3; [|done]. apply bool_decide_eq_true in E2, E3. injection E as ->. by exists rw, w.
Qed.

Lemma instantiated_checked ch name o :
  getInstantiatedCC GetLedger ch name = Ok o ->
  exists l, GetLedger ch = Some l /\
    match o with
    | None => query_GetState l "lscc" name = Ok None
    | Some cd => exists b, query_GetState l "lscc" name = Ok (Some b) /\ unmarshal_ChaincodeData b = Ok cd
    end.
Proof.
  unfold getInstantiatedCC. destruct (GetLedger ch) as [l|]; [|done]. intros E. exists l. split; [done|].
  destruct (query_GetState l "lscc" name) as [[b|]| | |]; try done; [|by injection E as <-].
  destruct (unmarshal_ChaincodeData b) as [cd| | |] eqn:Eu; try done. injection E as <-. by exists b.
Qed.

Lemma deployment_checked d p upgrade args rw :
  well_formed d p -> response_rwset (p_cap p) = Ok rw ->
  validate_deployment GetLedger upgrade args (ch_ChannelId (p_chdr p)) (p_env p) (p_cap p) (p_payload p) = Ok tt ->
  exists cc, deploys p rw cc.
Proof.
  intros W Hrw E. unfold validate_deployment in E. destruct (_ || _); [done|]. apply res_bind_Ok in E as (cds & _ & E).
  destruct (cds_ChaincodeSpec cds) as [[ty [cc|] inp]|]; try done. exists cc. rewrite Hrw, res_ret_bind in E.
  apply res_bind_Ok in E as (o & Eo & E). apply res_bind_Ok in E as (cd & Ec & E). apply res_bind_Ok in E as ([] & Ew & E).
  destruct (instantiated_checked _ _ _ Eo) as (l & Hl & Ho). destruct (lscc_write_checked _ _ _ Ec) as (lw & w & Hf & Hw & Hk & Hu & Hn & Hv).
  exists l, lw, w, cd. do 7 (split; [done|]). split; [intros ns Hns; rewrite <- Hn; by apply only_writes_checked with rw|].
  destruct upgrade.
  - right. destruct o as [old|]; [|done]. destruct Ho as (b & Hb & Hub). exists b, old. split; [done|]. split; [done|]. cbn in E.
    destruct (cd_InstantiationPolicy old) as [|x pol] eqn:Ep; [done|]. apply res_bind_Ok in E as ([] & Ei & E).
    case_decide; [done|]. split; [done|]. by eapply instantiation_checked.
  - left. unfold check_deploy in E. destruct (cd_InstantiationPolicy cd) as [|x pol] eqn:Ep; [done|].
    apply res_bind_Ok in E as ([] & Ei & E). destruct o; [done|]. split; [done|]. by eapply instantiation_checked.
Qed.

Lemma lscc_checked d p rw :
  well_formed d p -> response_rwset (p_cap p) = Ok rw ->
  ValidateLSCCInvocation GetLedger (ch_ChannelId (p_chdr p)) (p_env p) (p_cap p) (p_payload p) = Ok tt ->
  exists cc, deploys p rw cc.
Proof.
  intros W Hrw E. unfold ValidateLSCCInvocation in E. apply res_bind_Ok in E as (cpp & _ & E). apply res_bind_Ok in E as (cis & _ & E).
  destruct (cis_ChaincodeSpec cis) as [[? ? [[|f args]|]]|]; try done. repeat case_decide; [by eapply deployment_checked..|done].
Qed.

(** *** What a valid transaction may write *)

(** The lifecycle system chaincode keeps no entry for a system chaincode. *)
Definition no_system_entries l : Prop :=
  forall name, IsSysCC name = true -> name <> "lscc" -> query_GetState l "lscc" name = Ok None.

(** The three ways in which the writes [rw] of an invocation of [ccID] are
    checked: each namespace against its own chaincode's policy; a deployment; or,
    for another system chaincode, against the policy that lscc keeps under its
    name. *)
Inductive authorized l p (ccID ccVer : string) (rw : TxRwSet) : Prop :=
| app_authorized :
    IsSysCC ccID = false ->
    (forall ns, ns ∈ wrNamespace rw -> ns <> "lscc" /\ IsSysCCAndNotInvokableCC2CC ns = false /\
       IsSysCCAndNotInvokableExternal ns = false /\ ns_endorsed l p ccID ccVer ns) ->
    authorized l p ccID ccVer rw
| lscc_authorized policyBytes cc :
    ccID = "lscc" ->
    marshal_SignaturePolicyEnvelope (CAuthDSL.SignedByAnyMember (GetMSPIDs (ch_ChannelId (p_chdr p)))) = Ok policyBytes ->
    tx_endorsed p policyBytes -> deploys p rw cc -> authorized l p ccID ccVer rw
| system_authorized b cd :
    IsSysCC ccID = true -> ccID <> "lscc" -> IsSysCCAndNotInvokableExternal ccID = false ->
    query_GetState l "lscc" ccID = Ok (Some b) -> unmarshal_ChaincodeData b = Ok cd ->
    (cd_Vscc cd = "vscc" -> tx_endorsed p (cd_Policy cd)) -> authorized l p ccID ccVer rw.

(** The invoked chaincode is the simulated one, and the writes are
    authorized. *)
Definition tx_authorized l p (d : bytes) (rw : TxRwSet) : Prop :=
  exists ext hid ca rid, GetChaincodeHeaderExtension (p_hdr p) = Ok ext /\ che_ChaincodeId ext = Some hid /\
    GetActionFromEnvelope d = Ok ca /\ FromProtoBytes (ca_Results ca) = Ok rw /\ ca_ChaincodeId ca = Some rid /\
    cid_Name hid = cid_Name rid /\ authorized l p (cid_Name hid) (cid_Version rid) rw.

(** The change of a key of the namespace [ns] is authorized: by the chaincode's
    endorsement policy, or by a deployment. *)
Definition change_authorized l p (rw : TxRwSet) (ns : string) : Prop :=
  (exists ccID ccVer, ns <> "lscc" /\ ns_endorsed l p ccID ccVer ns) \/
  exists cc, deploys p rw cc /\ (ns = "lscc" \/ ns = cid_Name cc).

Lemma authorized_change l p d rw ns :
  no_system_entries l -> tx_authorized l p d rw -> ns ∈ wrNamespace rw -> change_authorized l p rw ns.
Proof.
  intros Hs (ext & hid & ca & rid & _ & _ & _ & _ & _ & _ & A) Hin. destruct A as [_ Ha|pb cc _ _ _ Hd|b cd Hsys Hl _ Hb _ _].
  - left. exists (cid_Name hid), (cid_Version rid). destruct (Ha ns Hin) as (? & _ & _ & ?). done.
  - right. exists cc. split; [done|]. destruct Hd as (l' & lw & w & cd & _ & _ & _ & _ & _ & _ & _ & Hw & _). by apply Hw.
  - by rewrite (Hs _ Hsys Hl) in Hb.
Qed.

Lemma authorized_rwset l p d rw : tx_authorized l p d rw -> Validator.rwset_of d = Ok rw.
Proof. intros (ext & hid & ca & rid & _ & _ & Ha & Hr & _). unfold Validator.rwset_of. by rewrite Ha, res_ret_bind. Qed.

Lemma action_rwset d p ca :
  well_formed d p -> GetActionFromEnvelope d = Ok ca -> response_rwset (p_cap p) = FromProtoBytes (ca_Results ca).
Proof.
  intros W E. unfold GetActionFromEnvelope in E. rewrite (wf_env _ _ W), res_ret_bind, (wf_payload _ _ W), res_ret_bind, (wf_act _ _ W) in E.
  rewrite res_ret_bind in E. cbn [tx_Actions] in E. unfold GetPayloads in E. rewrite (wf_cap _ _ W), res_ret_bind in E. unfold response_rwset.
  destruct (cap_Action (p_cap p)) as [[[prp|] es]|]; try done. apply res_bind_Ok in E as (r & Er & E). rewrite Er, res_ret_bind.
  destruct (prp_Extension r); [|done]. by rewrite E, res_ret_bind.
Qed.

Lemma syscc_authorized l d p hid ext ver rw :
  well_formed d p -> GetChaincodeHeaderExtension (p_hdr p) = Ok ext -> che_ChaincodeId ext = Some hid ->
  response_rwset (p_cap p) = Ok rw -> IsSysCC (cid_Name hid) = true ->
  validate_syscc SysCCVersion ExecuteChaincode GetMSPIDs l d (ch_ChannelId (p_chdr p)) (cid_Name hid) = Ok None ->
  authorized l p (cid_Name hid) ver rw.
Proof.
  intros W Eext Ehid Hrw Hsys E. unfold validate_syscc in E.
  destruct (IsSysCCAndNotInvokableExternal (cid_Name hid)) eqn:Einv; [done|].
  apply res_bind_Ok in E as (info & Ei & E). destruct info as [e|[[txcc vscc] policy]]; [done|].
  apply res_bind_Ok in E as (r & Er & E). destruct r as [e|]; [done|].
  destruct (decide (cid_Name hid = "lscc")) as [Hl|Hl].
  - unfold GetInfoForValidate in Ei. rewrite bool_decide_true in Ei by done. cbn [negb] in Ei.
    destruct (marshal_SignaturePolicyEnvelope _) as [pb| | |] eqn:Em; try done. injection Ei as <- <- <-.
    cbn [ci_ChaincodeName ci_ChainID ci_ChaincodeVersion] in Er. apply (vscc_ran d p) in Er; [|done].
    apply (Invoke_wf d p) in Er as [He Hv]; [|done]. destruct (lscc_checked d p rw W Hrw (Hv _ _ Eext Ehid Hl)) as [cc Hd].
    by eapply lscc_authorized.
  - destruct (info_other _ _ _ _ _ _ Hl Ei) as (b & cd & Hb & Hu & -> & -> & ->). eapply system_authorized; [done|done|done|done|done|].
    cbn in Er. intros Hv. rewrite Hv in Er. apply (vscc_ran d p) in Er; [|done]. by apply (Invoke_wf d p) in Er as [? _].
Qed.

Lemma app_writes_authorized l d p ccID ver rw :
  well_formed d p -> IsSysCC ccID = false -> writesToLSCC rw = false -> writesToNonInvokableSCC rw = false ->
  validate_namespaces SysCCVersion ExecuteChaincode GetMSPIDs l d (ch_ChannelId (p_chdr p)) ccID ver (wrNamespace rw) = Ok None ->
  authorized l p ccID ver rw.
Proof.
  intros W Hs Hl Hn E. apply app_authorized; [done|]. intros ns Hin.
  assert (ns <> "lscc") as Hns by (intros ->; unfold writesToLSCC in Hl; by apply bool_decide_eq_false in Hl).
  split; [done|]. assert ((IsSysCCAndNotInvokableCC2CC ns || IsSysCCAndNotInvokableExternal ns) = false) as Hinv.
  { apply not_true_iff_false. intros Ht. apply not_true_iff_false in Hn. apply Hn. unfold writesToNonInvokableSCC. apply existsb_exists.
    exists ns. by rewrite <- list_elem_of_In. }
  apply orb_false_iff in Hinv as [H1' H2']. split; [done|]. split; [done|]. by eapply namespaces_endorsed.
Qed.

Lemma VSCC_authorized l d p :
  well_formed d p -> VSCCValidateTx SysCCVersion ExecuteChaincode GetMSPIDs l (p_hdr p) d = Ok None -> exists rw, tx_authorized l p d rw.
Proof.
  intros W E. unfold VSCCValidateTx in E. destruct (GetChaincodeHeaderExtension (p_hdr p)) as [ext| | |] eqn:Eext; try done.
  cbn [or_code] in E. rewrite (wf_chdr _ _ W) in E. cbn [or_code] in E.
  destruct (GetActionFromEnvelope d) as [ca| | |] eqn:Eca; try done. cbn [or_code] in E.
  destruct (FromProtoBytes (ca_Results ca)) as [rw| | |] eqn:Erw; try done. cbn [or_code] in E. exists rw.
  assert (response_rwset (p_cap p) = Ok rw) as Hrw by (by rewrite (action_rwset d p ca)).
  unfold validate_invocation in E. destruct (che_ChaincodeId ext) as [hid|] eqn:Eh; [|done]. destruct (ca_ChaincodeId ca) as [rid|] eqn:Erid; [|done].
  destruct (bool_decide (cid_Name hid = "")); [done|]. destruct (bool_decide (cid_Name hid = cid_Name rid)) eqn:En; [|done]. cbn [negb] in E.
  apply bool_decide_eq_true in En. destruct (bool_decide (cid_Version rid = "")); [done|].
  exists ext, hid, ca, rid. do 6 (split; [done|]). destruct (IsSysCC (cid_Name hid)) eqn:Esys; cbn [negb] in E; [by eapply syscc_authorized|].
  destruct (writesToLSCC rw) eqn:El; [done|]. destruct (writesToNonInvokableSCC rw) eqn:Enon; [done|]. by eapply app_writes_authorized.
Qed.

End ValidTx.
End ValidTx.

(** ** The flags of a block *)

Module BlockFlags.
Import UpgradeFacts.

Local Abbreviation CONFLICT := (uint8 TxValidationCode_CHAINCODE_VERSION_CONFLICT).

Implicit Types (vs : list verdict).

(** The chaincodes that the transactions from number [i] on invoke, and those
    that they upgrade. *)
Fixpoint invoked_by (i : nat) vs : list (nat * ChaincodeInstance) :=
  match vs with
  | [] => []
  | v :: vs => match v.2 with Some (cc, _) => (i, cc) :: invoked_by (S i) vs | None => invoked_by (S i) vs end
  end.

Fixpoint upgraded_by (i : nat) vs : list (nat * ChaincodeInstance) :=
  match vs with
  | [] => []
  | v :: vs => match v.2 with Some (_, Some cc) => (i, cc) :: upgraded_by (S i) vs | _ => upgraded_by (S i) vs end
  end.

(** The code of the transaction's own checks. *)
Definition flag_of (v : verdict) : ascii := uint8 v.1.

(** A transaction keeps the code of its own checks, unless the block upgrades
    the chaincode that it invokes or upgrades the same chaincode later. *)
Definition final_flags vs : bytes :=
  imap (fun i v => if decide (conflicts (invoked_by 0 vs) (upgraded_by 0 vs) i) then CONFLICT else flag_of v) vs.

(** Only valid transactions have instances. *)
Definition passed (v : verdict) : Prop := is_Some v.2 -> v.1 = TxValidationCode_VALID.

Lemma invoked_In i vs j cc :
  (j, cc) ∈ invoked_by i vs -> exists k v up, j = (i + k)%nat /\ vs !! k = Some v /\ v.2 = Some (cc, up).
Proof.
  revert i. induction vs as [|v vs IH]; intros i Hin; [by apply elem_of_nil in Hin|]. cbn in Hin.
  assert ((j, cc) ∈ invoked_by (S i) vs -> exists k v0 up, j = (i + k)%nat /\ (v :: vs) !! k = Some v0 /\ v0.2 = Some (cc, up)) as Htl.
  { intros (k & v' & up & -> & Hk & Hv)%IH. exists (S k), v', up. split; [lia|done]. }
  destruct v.2 as [[cc' up]|] eqn:Ev; [|by apply Htl]. apply elem_of_cons in Hin as [[= -> ->]|Hin]; [|by apply Htl].
  exists 0%nat, v, up. split; [lia|done].
Qed.

Lemma upgraded_In i vs j cc :
  (j, cc) ∈ upgraded_by i vs -> exists k v c0, j = (i + k)%nat /\ vs !! k = Some v /\ v.2 = Some (c0, Some cc).
Proof.
  revert i. induction vs as [|v vs IH]; intros i Hin; [by apply elem_of_nil in Hin|]. cbn in Hin.
  assert ((j, cc) ∈ upgraded_by (S i) vs -> exists k v0 c0, j = (i + k)%nat /\ (v :: vs) !! k = Some v0 /\ v0.2 = Some (c0, Some cc)) as Htl.
  { intros (k & v' & up & -> & Hk & Hv)%IH. exists (S k), v', up. split; [lia|done]. }
  destruct v.2 as [[cc' [up|]]|] eqn:Ev; [|by apply Htl..]. apply elem_of_cons in Hin as [[= -> ->]|Hin]; [|by apply Htl].
  exists 0%nat, v, cc'. split; [lia|done].
Qed.

Lemma upgraded_NoDup i vs : NoDup (upgraded_by i vs).*1.
Proof.
  revert i. induction vs as [|v vs IH]; intros i; cbn; [constructor|]. destruct v.2 as [[cc' [up|]]|]; try apply IH.
  cbn. constructor; [|apply IH]. intros ([j cc] & Hj & (k & v' & c0 & -> & _)%upgraded_In)%list_elem_of_fmap. cbn in Hj. lia.
Qed.

Lemma conflicting_passed vs i :
  Forall passed vs -> conflicts (invoked_by 0 vs) (upgraded_by 0 vs) i -> exists v, vs !! i = Some v /\ v.1 = TxValidationCode_VALID.
Proof.
  intros Hp Hc. rewrite Forall_lookup in Hp.
  assert (exists v, vs !! i = Some v /\ is_Some v.2) as (v & Hv & Hs); [|exists v; split; [done|by apply (Hp i)]].
  destruct Hc as [(k & j & (cc & Hin & _)%upgrades_empty & _)|(cc & j & cc' & Hin & _)].
  - apply upgraded_In in Hin as (k' & v & c0 & -> & Hv & Hs). exists v. rewrite Hs. eauto.
  - apply invoked_In in Hin as (k' & v & c0 & -> & Hv & Hs). exists v. rewrite Hs. eauto.
Qed.

(** The two loops, in any order, leave the final flags. *)
Lemma upgrade_flags vs names ups :
  Forall passed vs -> names ≡ₚ invoked_by 0 vs -> ups ≡ₚ upgraded_by 0 vs ->
  invalidTXsForUpgradeCC names ups (flag_of <$> vs) = Ok (final_flags vs).
Proof.
  intros Hp Hn Hu. destruct (invalidTXs_spec names ups (flag_of <$> vs)) as (flags & -> & Hi).
  - rewrite Hu. apply upgraded_NoDup.
  - intros i Hi. rewrite Hu in Hi. apply list_elem_of_fmap in Hi as ([j cc] & -> & (k & v & c0 & -> & Hv & _)%upgraded_In).
    rewrite length_fmap. by eapply lookup_lt_Some.
  - intros i Hi. rewrite Hn in Hi. apply list_elem_of_fmap in Hi as ([j cc] & -> & (k & v & c0 & -> & Hv & _)%invoked_In).
    rewrite length_fmap. by eapply lookup_lt_Some.
  - f_equal. destruct Hi as [_ S K]. apply list_eq. intros i. unfold final_flags. rewrite list_lookup_imap. unfold verdict in *.
    specialize (S i). specialize (K i). rewrite (superseded_perm _ _ _ Hu), (conflicts_perm _ _ _ _ _ Hn Hu) in S, K.
    rewrite list_lookup_fmap in S, K. destruct (decide (conflicts (invoked_by 0 vs) (upgraded_by 0 vs) i)) as [Hc|Hc].
    + destruct (conflicting_passed _ _ Hp Hc) as (v & Hv & Hok). unfold verdict in *. rewrite Hv in S |- *. cbn in S |- *.
      apply S. right. unfold flag_of. by rewrite Hok.
    + rewrite K; [|by intros ?; apply Hc; left|by intros [? _]]. by destruct (vs !! i).
Qed.

Section Block.
Context `{ProtoCodec} `{SignatureCodec} `{TxCodec} `{CryptoHash} `{RWSetCodec} `{MSPManagers} `{ConfigCodec}.
Context {L C : Type} `{PeerLedger L}.
Context (SysCCVersion : string).
Context (ExecuteChaincode : string -> string -> string -> list bytes -> res Response).
Context (GetMSPIDs : string -> list string).
Context (applyConfig : ConfigEnvelope -> ST C unit).
Context (range_upgrades range_names : list (nat * ChaincodeInstance) -> list (nat * ChaincodeInstance)).

(** A map is visited in some order. *)
Context (Hru : forall l, range_upgrades l ≡ₚ l) (Hrn : forall l, range_names l ≡ₚ l).

#[local] Abbreviation vtx := (validate_tx SysCCVersion ExecuteChaincode GetMSPIDs applyConfig).
#[local] Abbreviation vtxs := (validate_txs SysCCVersion ExecuteChaincode GetMSPIDs applyConfig).

(** The verdicts on the transactions, one after the other. *)
Fixpoint verdicts (l : L) (data : list bytes) : ST C (list verdict) :=
  match data with
  | [] => mret []
  | d :: data => v ← vtx l d; vs ← verdicts l data; mret (v :: vs)
  end.

Lemma validate_txs_verdicts l data i f maps c :
  (i + length data <= length f)%nat ->
  vtxs l i data f maps c =
  (vs ← verdicts l data;
   mret (take i f ++ (flag_of <$> vs) ++ drop (i + length data) f,
         (maps.1 ++ invoked_by i vs, maps.2 ++ upgraded_by i vs))) c.
Proof.
  revert i f maps c. induction data as [|d data IH]; intros i f [m1 m2] c Hl; cbn [length] in Hl.
  - cbn. unfold mbind, st_bind, mret, st_ret. cbn. by rewrite !app_nil_r, Nat.add_0_r, take_drop.
  - cbn [validate_txs verdicts]. unfold mbind, st_bind, st_lift. destruct (vtx l d c) as [c1 [v| | |]]; try done.
    unfold SetFlag. rewrite (proj2 (Nat.ltb_lt _ _)) by lia. rewrite IH by (rewrite length_insert; lia).
    unfold mbind, st_bind. destruct (verdicts l data c1) as [c2 [vs| | |]]; try done. unfold mret, st_ret. f_equal. f_equal. apply (f_equal2 pair); [|apply (f_equal2 pair)].
    + rewrite drop_insert_lt by lia. cbn. replace (S (i + length data)) with (i + S (length data))%nat by lia.
      rewrite (take_S_r _ _ (uint8 v.1)) by (rewrite list_lookup_insert_eq by lia; done).
      rewrite take_insert_ge by lia. by rewrite <- app_assoc.
    + cbn. unfold note_instances. destruct v.2 as [[cc up]|]; [|done]. cbn. by rewrite <- app_assoc.
    + cbn. unfold note_instances. destruct v.2 as [[cc [up|]]|]; [|done..]. cbn. by rewrite <- app_assoc.
Qed.

Lemma endorser_passed l payload hdr chdr d v :
  validate_endorser_tx SysCCVersion ExecuteChaincode GetMSPIDs l payload hdr chdr d = Ok v -> passed v.
Proof.
  unfold validate_endorser_tx, passed. destruct (ledger_GetTransactionByID _ _); try done; [by intros [= <-] [? [=]]|].
  intros E. apply res_bind_Ok in E as (r & _ & E). destruct r as [[[] c]|]; try done; try (injection E as <-; by intros [? [=]]).
  destruct (getTxCCInstance payload hdr); try done; injection E as <-; [done|by intros [? [=]]].
Qed.

Lemma config_passed payload c c' v : validate_config_tx applyConfig payload c = (c', Ok v) -> v = (TxValidationCode_VALID, None).
Proof.
  intros E. unfold validate_config_tx in E. apply st_bind_inv in E as (c1 & env & _ & E).
  apply st_bind_inv in E as (c2 & [] & _ & E). by injection E as _ <-.
Qed.

Lemma tx_passed l d c c' v : vtx l d c = (c', Ok v) -> passed v.
Proof.
  unfold validate_tx. destruct (GetEnvelopeFromBlock d) as [env| | |]; try done; [|by intros [= _ <-] [? [=]]].
  intros E. apply st_bind_inv in E as (c1 & [payload r] & _ & E). destruct (negb _); [injection E as _ <-; by intros [? [=]]|].
  destruct payload as [[[hdr|] data]|]; try done. destruct (UnmarshalChannelHeader _) as [chdr| | |]; try done; [|injection E as _ <-; by intros [? [=]]].
  destruct (ch_Type chdr); try (injection E as _ <-; by intros [? [=]]).
  - apply config_passed in E as ->. by intros [? [=]].
  - injection E as _ E. by eapply endorser_passed.
Qed.

Lemma verdicts_passed l data c c' vs : verdicts l data c = (c', Ok vs) -> length vs = length data /\ Forall passed vs.
Proof.
  revert c c' vs. induction data as [|d data IH]; intros c c' vs E; cbn in E; [by injection E as _ <-|].
  apply st_bind_inv in E as (c1 & v & Ev & E). apply st_bind_inv in E as (c2 & vs' & Evs & E). injection E as _ <-.
  apply IH in Evs as [Hl Hp]. split; [cbn; by rewrite Hl|]. constructor; [by eapply tx_passed|done].
Qed.

(** Validating a block: the verdicts, and the final flags. *)
Lemma Validate_verdicts l block c :
  Validate SysCCVersion ExecuteChaincode GetMSPIDs applyConfig range_upgrades range_names l block c =
  (vs ← verdicts l (blk_Data block); mret (Validator.set_filter (InitBlockMetadata block) (final_flags vs))) c.
Proof.
  unfold Validate, NewTxValidationFlags. unfold mbind at 1, st_bind at 1. rewrite validate_txs_verdicts by (rewrite length_replicate; lia).
  unfold mbind, st_bind. destruct (verdicts l (blk_Data block) c) as [c' [vs| | |]] eqn:Ev; try done.
  destruct (verdicts_passed _ _ _ _ _ Ev) as [Hl Hp]. unfold mret, st_ret, st_lift.
  rewrite drop_ge by (rewrite length_replicate; lia). rewrite app_nil_r. rewrite take_0. cbn [app fst snd].
  by rewrite (upgrade_flags vs _ _ Hp (Hrn _) (Hru _)).
Qed.

(** Each verdict is that of a transaction. *)
Lemma verdicts_lookup l data c c' vs i d :
  verdicts l data c = (c', Ok vs) -> data !! i = Some d -> exists c1 c2 v, vs !! i = Some v /\ vtx l d c1 = (c2, Ok v).
Proof.
  revert c c' vs i. induction data as [|d0 data IH]; intros c c' vs i E Hi; [done|]. cbn in E.
  apply st_bind_inv in E as (c1 & v & Ev & E). apply st_bind_inv in E as (c2 & vs' & Evs & E). injection E as _ <-.
  destruct i as [|i]; [injection Hi as ->; by exists c, c1, v|]. by eapply IH in Evs.
Qed.

(** *** The codes fit in a byte *)

Definition fits (code : Z) : Prop := 0 <= code < 256.

Definition error_fits (r : res vresult) : Prop := forall e code, r = Ok (Some (e, code)) -> 0 < code < 256.

Lemma or_code_fits {A} (r : res A) code k : 0 < code < 256 -> (forall a, error_fits (k a)) -> error_fits (or_code r code k).
Proof. intros Hc Hk. destruct r; try done; [apply Hk|]. intros ? ? [= <- <-]. done. Qed.

Lemma vscc_code_fits e : 0 < vscc_code e < 256.
Proof. by destruct e. Qed.

Lemma namespaces_fits l d ch cc ver nss :
  error_fits (validate_namespaces SysCCVersion ExecuteChaincode GetMSPIDs l d ch cc ver nss).
Proof.
  induction nss as [|ns nss IH]; intros e code E; [done|]. cbn [validate_namespaces] in E.
  apply res_bind_Ok in E as ([e1|[[txcc vscc] pol]] & _ & E); [by injection E as <- <-|].
  destruct (_ && _); [by injection E as <- <-|]. apply res_bind_Ok in E as ([e1|] & _ & E); [|by apply IH in E].
  injection E as <- <-. apply vscc_code_fits.
Qed.

Lemma syscc_fits l d ch cc : error_fits (validate_syscc SysCCVersion ExecuteChaincode GetMSPIDs l d ch cc).
Proof.
  intros e code E. unfold validate_syscc in E. destruct (IsSysCCAndNotInvokableExternal cc); [by injection E as <- <-|].
  apply res_bind_Ok in E as ([e1|[[txcc vscc] pol]] & _ & E); [by injection E as <- <-|].
  apply res_bind_Ok in E as ([e1|] & _ & E); [|done]. injection E as <- <-. apply vscc_code_fits.
Qed.

Lemma VSCCValidateTx_fits l hdr d : error_fits (VSCCValidateTx SysCCVersion ExecuteChaincode GetMSPIDs l hdr d).
Proof.
  unfold VSCCValidateTx. apply or_code_fits; [done|intros ext]. apply or_code_fits; [done|intros chdr].
  apply or_code_fits; [done|intros ca]. apply or_code_fits; [done|intros rw]. unfold validate_invocation.
  destruct (che_ChaincodeId ext), (ca_ChaincodeId ca); try by intros e code [= <- <-].
  repeat (case_match; try by intros e code [= <- <-]); [apply namespaces_fits|apply syscc_fits].
Qed.

Lemma code_of_fits {A} (r : res A) code k x :
  fits code -> (forall a y, k a = Ok y -> fits y.2) -> code_of r code k = Ok x -> fits x.2.
Proof. intros Hc Hk. destruct r; try done; [apply Hk|]. by intros [= <-]. Qed.

Lemma ValidateTransaction_fits env x : ValidateTransaction env = Ok x -> fits x.2.
Proof.
  unfold ValidateTransaction. apply code_of_fits; [done|]. intros payload y. apply code_of_fits; [done|].
  intros [chdr shdr] z. apply code_of_fits; [done|]. intros [] t. destruct (ch_Type chdr), (pl_Header payload); try by intros [= <-].
  - destruct (validateConfigTransaction _); try done; by intros [= <-].
  - apply code_of_fits; [done|]. intros [] q. destruct (validateEndorserTransaction _ _); try done; by intros [= <-].
Qed.

Lemma endorser_fits l payload hdr chdr d v :
  validate_endorser_tx SysCCVersion ExecuteChaincode GetMSPIDs l payload hdr chdr d = Ok v -> fits v.1.
Proof.
  unfold validate_endorser_tx. destruct (ledger_GetTransactionByID _ _) as [|e0| |]; try done; [by intros [= <-]|].
  intros E. apply res_bind_Ok in E as (r & Er & E). destruct r as [[e code]|].
  - apply VSCCValidateTx_fits in Er. destruct e; try done; injection E as <-; unfold fits; cbn; lia.
  - destruct (getTxCCInstance payload hdr); try done; by injection E as <-.
Qed.

Lemma tx_fits l d c c' v : vtx l d c = (c', Ok v) -> fits v.1.
Proof.
  unfold validate_tx. destruct (GetEnvelopeFromBlock d) as [env| | |]; try done; [|by intros [= _ <-]].
  intros E. apply st_bind_inv in E as (c1 & [payload r] & Ev & E). injection Ev as _ Ev. apply ValidateTransaction_fits in Ev.
  destruct (negb _); [by injection E as _ <-|].
  destruct payload as [[[hdr|] data]|]; try done. destruct (UnmarshalChannelHeader _) as [chdr| | |]; try done; [|by injection E as _ <-].
  destruct (ch_Type chdr); try by injection E as _ <-.
  - by apply config_passed in E as ->.
  - injection E as _ E. by eapply endorser_fits.
Qed.

(** A transaction that is valid in the end was found valid. *)
Lemma final_valid l data c c' vs i d :
  verdicts l data c = (c', Ok vs) -> data !! i = Some d -> final_flags vs !! i = Some (uint8 0) ->
  exists c1 c2 v, vtx l d c1 = (c2, Ok v) /\ v.1 = TxValidationCode_VALID.
Proof.
  intros E Hd Hf. destruct (verdicts_lookup _ _ _ _ _ _ _ E Hd) as (c1 & c2 & v & Hv & Ev). exists c1, c2, v. split; [done|].
  unfold final_flags in Hf. rewrite list_lookup_imap in Hf. unfold verdict in *. rewrite Hv in Hf. cbn in Hf.
  pose proof (tx_fits _ _ _ _ _ Ev) as Hfit. injection Hf as Hf. case_decide; [done|].
  apply (f_equal byte_val) in Hf. unfold flag_of in Hf. rewrite !byte_val_uint8 in Hf. unfold fits in Hfit. rewrite Z.mod_small in Hf by done. done.
Qed.

End Block.
End BlockFlags.

(** ** Blocks that were validated *)

Module ValidBlock.
Import EndorsementFacts ValidTx BlockFlags.
Section ValidBlock.
Context `{ProtoCodec} `{SignatureCodec} `{TxCodec} `{CryptoHash} `{RWSetCodec} `{MSPManagers} `{ConfigCodec}.
Context {L C : Type} `{PeerLedger L}.
Context (SysCCVersion : string).
Context (ExecuteChaincode : string -> string -> string -> list bytes -> res Response).
Context (GetMSPIDs : string -> list string).
Context (applyConfig : ConfigEnvelope -> ST C unit).
Context (range_upgrades range_names : list (nat * ChaincodeInstance) -> list (nat * ChaincodeInstance)).
Context (GetLedger : string -> option L).
Context (Hru : forall l, range_upgrades l ≡ₚ l) (Hrn : forall l, range_names l ≡ₚ l).
Context (Hexec : executes_vscc ExecuteChaincode GetLedger).

(** What holds of a valid endorser transaction: it is well-formed and signed,
    its id is not that of a transaction of the ledger, and its writes are
    authorized. *)
Record valid_tx (l : L) (d : bytes) (p : tx_parts) (rw : TxRwSet) : Prop := {
  vt_wf : well_formed d p;
  vt_new : exists e, ledger_GetTransactionByID l (ch_TxId (p_chdr p)) = Err e;
  vt_authorized : tx_authorized GetMSPIDs GetLedger l p d rw
}.

Lemma endorser_valid l payload hdr chdr d p v :
  well_formed d p -> p_hdr p = hdr -> p_chdr p = chdr ->
  validate_endorser_tx SysCCVersion ExecuteChaincode GetMSPIDs l payload hdr chdr d = Ok v ->
  v.1 = TxValidationCode_VALID -> exists rw, valid_tx l d p rw.
Proof.
  intros W <- <- E Hv. unfold validate_endorser_tx in E.
  destruct (ledger_GetTransactionByID l _) as [|e0| |] eqn:Et; try done; [by injection E as <-|].
  apply res_bind_Ok in E as (r & Er & E). destruct r as [[e code]|].
  - apply VSCCValidateTx_fits in Er. destruct e; try done; injection E as <-; cbn in Hv; unfold TxValidationCode_VALID in Hv; lia.
  - destruct (VSCC_authorized _ _ _ _ Hexec l d p W Er) as [rw Hrw]. exists rw. split; [done|by exists e0|done].
Qed.

Lemma verdict_valid l d c c' v :
  validate_tx SysCCVersion ExecuteChaincode GetMSPIDs applyConfig l d c = (c', Ok v) ->
  v.1 = TxValidationCode_VALID -> Validator.envelope_type d = Ok ENDORSER_TRANSACTION -> exists p rw, valid_tx l d p rw.
Proof.
  unfold validate_tx. intros E Hv Ht. unfold Validator.envelope_type in Ht. apply res_bind_Ok in Ht as (env & Ee & Ht).
  apply res_bind_Ok in Ht as (pl & Ep & Ht). apply res_bind_Ok in Ht as (ch & Ech & Ht). apply res_bind_Ok in Ht as (chdr & Ec & Ht).
  injection Ht as Ht. rewrite Ee in E. apply st_bind_inv in E as (c1 & [payload r] & Ev & E). injection Ev as <- Ev.
  destruct (r =? TxValidationCode_VALID) eqn:Er; cbn [negb] in E.
  2: { injection E as _ <-. cbn in Hv. by rewrite Hv in Er. }
  apply Z.eqb_eq in Er as ->. destruct payload as [[[hdr|] data]|]; try done.
  assert (GetPayload env = Ok (mkPayload (Some hdr) data)) as Epl by (by eapply ValidateTransaction_payload).
  rewrite Ep in Epl. injection Epl as ->. cbn in Ech. injection Ech as <-. rewrite Ec, Ht in E. injection E as _ E.
  destruct (valid_well_formed d env _ hdr chdr Ee Ev eq_refl Ec Ht) as (p & W & _ & _ & Hh & Hc).
  destruct (endorser_valid _ _ _ _ _ _ _ W Hh Hc E Hv) as [rw Hrw]. by exists p, rw.
Qed.

(** The block after the validation: its data are the same, each transaction has
    a flag, and what is flagged valid is valid. *)
Lemma validated_block l block c c' block' :
  Validate SysCCVersion ExecuteChaincode GetMSPIDs applyConfig range_upgrades range_names l block c = (c', Ok block') ->
  blk_Header block' = blk_Header block /\ blk_Data block' = blk_Data block /\
  exists flags, blk_Metadata block' !! TRANSACTIONS_FILTER = Some flags /\ length flags = length (blk_Data block) /\
    forall i d, blk_Data block !! i = Some d -> flags !! i = Some (uint8 TxValidationCode_VALID) ->
      Validator.envelope_type d = Ok ENDORSER_TRANSACTION -> exists p rw, valid_tx l d p rw.
Proof.
  intros E. rewrite Validate_verdicts in E by done. apply st_bind_inv in E as (c1 & vs & Ev & E). injection E as <- <-.
  split; [done|]. split; [done|]. exists (final_flags vs). destruct (verdicts_passed _ _ _ _ _ _ _ _ _ Ev) as [Hlen _].
  split; [|split].
  - apply Validator.set_filter_lookup. unfold InitBlockMetadata. cbn [blk_Metadata]. apply lookup_lt_is_Some_2.
    rewrite length_app, length_replicate. lia.
  - unfold final_flags. by rewrite length_imap.
  - intros i d Hd Hf Ht. destruct (final_valid _ _ _ _ _ _ _ _ _ _ _ Ev Hd Hf) as (c2 & c3 & v & Hv & Hok). by eapply verdict_valid.
Qed.

End ValidBlock.
End ValidBlock.
