(* ===== verification/PeerCommit.v ===== *)
(** * The ledger under the transaction validator

    The ledger of a channel as the validation of its blocks sees it
    (core/ledger/kvledger, through core/committer), and what follows for the
    state and for the transaction ids of its chain. *)

From stdpp Require Import base gmap strings list.
From Stdlib Require Import Ascii ZArith Lia.
From S2P Require Import Prelude Version StateDB LevelDB RWSet Merkle Proto Validator TxMgr Serializability.
From S2P Require Import BlockHash BlockCodec BlockFiles BlockIndex BlockMgr BlockChain BlockStore BlockRecovery BlockTheorems History KVLedger LedgerTheorems.
From S2P Require Import CAuthDSL ConfigTx MsgValidation VSCC TxValidator TxValidatorFacts.
Import ProtoUtils RWSetUtil Flags Validator.
Local Open Scope Z_scope.

(** ** The ledger *)

Module KVPeerLedger.
Import KVLedger QueryHelper.
Section KVPeerLedger.
Context {DB : Type} `{VersionedDB DB} `{Merkle.Hashing} `{RWSetCodec} `{ProtoCodec}.
Context {S : Type} `{LevelDB S} {B : Type} `{BlockStore B}.

(** [NewQueryExecutor] and its [GetState] *)
Definition query_state (l : @kvLedger DB S B) (ns key : string) : res (option bytes) :=
  (getState (TxMgr.db (txtmgmt l)) ns key newQueryExecutor).2.

#[export] Instance kv_peer_ledger : PeerLedger (@kvLedger DB S B) := {
  ledger_GetTransactionByID l txID := pt ← GetTransactionByID l txID; Ok (TransactionEnvelope pt);
  query_GetState := query_state
}.

End KVPeerLedger.
End KVPeerLedger.

(** ** What a committed block changes *)

Module CommitFacts.
Import Chain SerializabilityTheorems.

(** [rw] writes the key. *)
Definition writes_key (rw : TxRwSet) (ns k : string) : Prop :=
  exists s w, s ∈ rw /\ NameSpace s = ns /\ w ∈ Writes (KvRwSet s) /\ kvw_Key w = k.

Lemma writes_key_ns rw ns k : writes_key rw ns k -> ns ∈ TxValidator.wrNamespace rw.
Proof.
  intros (s & w & Hs & <- & Hw & _). unfold TxValidator.wrNamespace. apply list_elem_of_omap. exists s. split; [done|].
  destruct (Writes (KvRwSet s)); [by apply elem_of_nil in Hw|done].
Qed.

Lemma write_views_changed ns h ws v ns' k :
  foldl (write_view ns h) v ws ns' k <> v ns' k -> ns' = ns /\ exists w, w ∈ ws /\ kvw_Key w = k.
Proof.
  revert v. induction ws as [|w ws IH]; intros v Hc; [done|]. cbn in Hc.
  destruct (decide (ns' = ns /\ kvw_Key w = k)) as [[-> Hk]|Hn]; [split; [done|]; exists w; split; [by left|done]|].
  destruct (IH (write_view ns h v w)) as (-> & w' & Hw' & Hk); [|split; [done|]; exists w'; split; [by right|done]].
  intros E. apply Hc. rewrite E. unfold write_view. rewrite decide_False; [done|naive_solver].
Qed.

Lemma commit_view_changed rw h v ns k : commit_view rw h v ns k <> v ns k -> writes_key rw ns k.
Proof.
  unfold commit_view. revert v. induction rw as [|s rw IH]; intros v Hc; [done|]. cbn in Hc.
  destruct (decide (foldl (write_view (NameSpace s) h) v (Writes (KvRwSet s)) ns k = v ns k)) as [E|E].
  - rewrite <- E in Hc. destruct (IH _ Hc) as (s' & w & Hs & Hr). exists s', w. split; [by right|done].
  - apply write_views_changed in E as (-> & w & Hw & Hk). exists s, w. split; [by left|done].
Qed.

Section Facts.
Context {DB : Type} `{VersionedDBSpec DB} `{Merkle.Hashing} `{RWSetCodec} `{ProtoCodec}.

(** The transactions of a block that change the state. *)
Lemma serial_view_changed v number flags i data ns k :
  serial_view v number flags i data ns k <> v ns k ->
  exists j d rw, data !! j = Some d /\ flags !! (i + j)%nat = Some (uint8 0) /\
    envelope_type d = Ok ENDORSER_TRANSACTION /\ rwset_of d = Ok rw /\ writes_key rw ns k.
Proof.
  revert v i. induction data as [|d data IH]; intros v i Hc; [done|]. cbn in Hc.
  set (v' := match flags !! i with Some _ => _ | None => _ end) in Hc.
  destruct (decide (v' ns k = v ns k)) as [E|E].
  - rewrite <- E in Hc. destruct (IH _ _ Hc) as (j & d' & rw & Hj & Hf & Hr). exists (S j), d', rw. split; [done|].
    split; [by rewrite Nat.add_succ_r|done].
  - exists 0%nat, d. rewrite Nat.add_0_r. unfold v' in E. destruct (flags !! i) as [b|]; [|done].
    destruct (envelope_type d) as [[]| | |] eqn:Et; try done. destruct (rwset_of d) as [rw| | |] eqn:Er; try done.
    destruct (byte_val b =? 0) eqn:Eb; [|done]. apply UpgradeFacts.valid_byte in Eb as ->. exists rw.
    do 4 (split; [done|]). by eapply commit_view_changed.
Qed.

(** A transaction that was flagged stays flagged. *)
Lemma block_outcome_valid cur number i data f u f' u' j :
  block_outcome cur number i data f u f' u' -> f' !! j = Some (uint8 0) -> f !! j = Some (uint8 0).
Proof.
  induction 1 as [|i d data f u f1 u1 f' u' Ht Hb IH]; [done|]. intros Hj. specialize (IH Hj).
  assert (forall b c, f !! i = Some b -> byte_val b = 0 -> <[i := uint8 c]> f !! j = Some (uint8 0) -> f !! j = Some (uint8 0)) as Hset.
  { intros b c Hi Hb0 Hf. destruct (decide (i = j)) as [<-|Hne]; [|by rewrite list_lookup_insert_ne in Hf].
    rewrite Hi. f_equal. apply byte_val_inj. by rewrite Hb0. }
  destruct Ht; [done|done|by eapply Hset..].
Qed.

Lemma prepared_valid (d : DB) block mvcc block' u f f' j :
  ValidateAndPrepareBatch d block mvcc = (block', Ok u) ->
  blk_Metadata block !! TRANSACTIONS_FILTER = Some f -> length f = length (blk_Data block) ->
  blk_Metadata block' !! TRANSACTIONS_FILTER = Some f' -> f' !! j = Some (uint8 0) -> f !! j = Some (uint8 0).
Proof.
  unfold ValidateAndPrepareBatch. intros E Ef Hlen Ef' Hj. rewrite Ef in E.
  assert ((if (length f =? 0)%nat then NewTxValidationFlags (length (blk_Data block)) else f) = f) as Heq.
  { destruct (Nat.eqb_spec (length f) 0) as [Hl|]; [|done]. rewrite <- Hlen, Hl. by destruct f. }
  rewrite Heq in E. destruct (validate_loop _ _ _ _ _ _ _) as [f1 r] eqn:El. injection E as <- ->.
  rewrite set_filter_lookup in Ef' by done. injection Ef' as ->. apply validate_loop_outcome in El. by eapply block_outcome_valid.
Qed.

End Facts.
End CommitFacts.

(** ** Validating and committing *)

Module PeerCommit.
Import KVLedger KVPeerLedger CommitFacts Chain SerializabilityTheorems EndorsementFacts ValidTx ValidBlock TxValidator.
Section PeerCommit.
Context {DB : Type} `{VersionedDBSpec DB} `{Merkle.Hashing} `{RWSetCodec} `{ProtoCodec}.
Context {S : Type} `{LevelDB S} {B : Type} `{BlockStore B}.
Context `{SignatureCodec} `{TxCodec} `{CryptoHash} `{MSPManagers} `{ConfigCodec}.
Context {C : Type}.

#[local] Abbreviation L := (@kvLedger DB S B).

(** What commits to the ledger commits the state of the block's valid
    transactions. *)
Lemma ledger_commit_state history block (l l' : L) :
  db_ok (TxMgr.db (txtmgmt l)) -> u64 (Number (blk_Header block)) -> u64 (Z.of_nat (length (blk_Data block))) ->
  (forall env rw s, env ∈ blk_Data block -> rwset_of env = Ok rw -> s ∈ rw -> ns_ok (NameSpace s)) ->
  KVLedger.Commit history block l = (l', Ok tt) ->
  exists block' u flags, ValidateAndPrepareBatch (TxMgr.db (txtmgmt l)) block true = (block', Ok u) /\
    blk_Metadata block' !! TRANSACTIONS_FILTER = Some flags /\
    forall ns k, ns_ok ns -> view (TxMgr.db (txtmgmt l')) ns k =
      serial_view (view (TxMgr.db (txtmgmt l))) (Number (blk_Header block)) flags 0 (blk_Data block) ns k.
Proof.
  intros Hdb Hnum Hlen Hnames E. unfold KVLedger.Commit in E.
  destruct (TxMgr.ValidateAndPrepare (txtmgmt l) block true) as [[m b'] [[]| | |]] eqn:Ev; try done.
  assert (exists u, ValidateAndPrepareBatch (TxMgr.db (txtmgmt l)) block true = (b', Ok u)) as [u Eu].
  { unfold TxMgr.ValidateAndPrepare in Ev. destruct (ValidateAndPrepareBatch _ block true) as [b1 [u| | |]]; try done.
    injection Ev as <- <-. by exists u. }
  destruct (ValidateAndPrepareBatch_outcome _ _ _ _ _ Eu) as (f & f' & Eb & Hmd & _).
  assert (blk_Metadata b' !! TRANSACTIONS_FILTER = Some f') as Hf by (rewrite Eb; by apply set_filter_lookup).
  destruct (commit_serial (txtmgmt l) block true m b' f' Hdb Hnum Hlen Hnames Ev Hf) as (m2 & Em & _ & _ & _ & Hview).
  exists b', u, f'. split; [done|]. split; [done|].
  cbn [blockStore set_txtmgmt] in E. destruct (AddBlock b' (blockStore l)) as [s [[]| | |]]; try done.
  cbn [txtmgmt set_txtmgmt set_blockStore] in E. rewrite Em in E.
  destruct history; [|by injection E as <-]. destruct (HistoryDB.Commit _ _); try done. by injection E as <-.
Qed.

Context (SysCCVersion : string).
Context (ExecuteChaincode : string -> string -> string -> list bytes -> res VSCC.Response).
Context (GetMSPIDs : string -> list string).
Context (applyConfig : ConfigEnvelope -> ST C unit).
Context (range_upgrades range_names : list (nat * ChaincodeInstance) -> list (nat * ChaincodeInstance)).
Context (GetLedger : string -> option L).
Context (Hru : forall l, range_upgrades l ≡ₚ l) (Hrn : forall l, range_names l ≡ₚ l).
Context (Hexec : executes_vscc ExecuteChaincode GetLedger).
Context (history : bool) (eventer : Block -> res unit).

(** The committer of a channel, on its ledger. *)
Definition commit_block : Block -> ST (C * L) unit :=
  TxValidator.Commit SysCCVersion ExecuteChaincode GetMSPIDs applyConfig range_upgrades range_names (KVLedger.Commit history) eventer.

(** The keys that a commit changes were written by valid transactions. *)
Lemma committed_change block c l c' l' ns k :
  db_ok (TxMgr.db (txtmgmt l)) -> u64 (Number (blk_Header block)) -> u64 (Z.of_nat (length (blk_Data block))) ->
  (forall env rw s, env ∈ blk_Data block -> rwset_of env = Ok rw -> s ∈ rw -> ns_ok (NameSpace s)) ->
  commit_block block (c, l) = ((c', l'), Ok tt) -> ns_ok ns ->
  view (TxMgr.db (txtmgmt l')) ns k <> view (TxMgr.db (txtmgmt l)) ns k ->
  exists i d p rw, blk_Data block !! i = Some d /\ valid_tx GetMSPIDs GetLedger l d p rw /\ writes_key rw ns k.
Proof.
  intros Hdb Hnum Hlen Hnames E Hns Hch. unfold commit_block, TxValidator.Commit in E.
  destruct (Validate _ _ _ _ _ _ l block c) as [c1 [b1| | |]] eqn:Ev; try done.
  destruct (config ← IsConfigBlock b1; _) as [[]| | |]; try done.
  destruct (KVLedger.Commit history b1 l) as [l1 r] eqn:Ec. injection E as <- <- ->.
  apply (validated_block _ _ _ _ _ _ GetLedger Hru Hrn Hexec) in Ev as (Hh & Hd & flags & Hf & Hfl & Hvalid).
  apply ledger_commit_state in Ec as (b2 & u & flags2 & Eb & Hf2 & Hview); rewrite ?Hh, ?Hd; try done.
  rewrite Hview in Hch by done. apply serial_view_changed in Hch as (j & d & rw & Hj & Hfj & Ht & Hrw & Hw). cbn in Hfj. rewrite Hd in Hj.
  assert (flags !! j = Some (uint8 TxValidationCode_VALID)) as Hok by (eapply prepared_valid; [exact Eb|done|by rewrite Hd|done|done]).
  destruct (Hvalid j d Hj Hok Ht) as (p & rw' & Hp). exists j, d, p, rw'. split; [done|]. split; [done|].
  rewrite (authorized_rwset _ _ _ _ _ _ (vt_authorized _ _ _ _ _ _ Hp)) in Hrw. by injection Hrw as ->.
Qed.

End PeerCommit.
End PeerCommit.

(** ** Transaction ids *)

Module ReplayFacts.
Import BlockSerialization BlockIndex BlockMgr BlockChain BlockStore BlockRecovery FsLedgerStore KVLedger KVPeerLedger EndorsementFacts ValidTx.

Lemma last_index (l : list string) id :
  id ∈ l -> exists j, l !! j = Some id /\ forall j', (j < j')%nat -> l !! j' <> Some id.
Proof.
  induction l as [|x l IH] using rev_ind; intros Hin; [by apply elem_of_nil in Hin|]. destruct (decide (x = id)) as [->|Hne].
  - exists (length l). split; [by rewrite list_lookup_middle|]. intros j' Hj E. apply lookup_lt_Some in E. rewrite length_app in E. cbn in E. lia.
  - apply elem_of_app in Hin as [Hin|Hin%list_elem_of_singleton]; [|done]. destruct (IH Hin) as (j & Hj & Hlast). exists j.
    split; [by apply lookup_app_l_Some|]. intros j' Hlt E. apply lookup_app_Some in E as [E|[_ E]]; [by apply (Hlast j')|].
    by apply list_lookup_singleton_Some in E as [_ ?].
Qed.

Section Replay.
Context {S : Type} `{LevelDBSpec S} `{ProtoCodec} `{CryptoHash}.

(** An id that occurs in a chain has a last place. *)
Lemma last_place (bs : list Block) k b id :
  bs !! k = Some b -> id ∈ ids_of b -> exists k' j b' tx, last_with_id bs k' j b' tx id.
Proof.
  revert k b. induction bs as [|x bs IH] using rev_ind; intros k b Hk Hin; [done|]. destruct (decide (id ∈ ids_of x)) as [Hx|Hx].
  - apply last_index in Hx as (j & Hj & Hlast). destruct (lookup_lt_is_Some_2 (blk_Data x) j) as [tx Htx].
    { apply lookup_lt_Some in Hj. unfold ids_of in Hj. by rewrite length_fmap in Hj. }
    exists (length bs), j, x, tx. split; [by rewrite list_lookup_middle|done|done|done|].
    intros k' b' Hlt E. apply lookup_lt_Some in E. rewrite length_app in E. cbn in E. lia.
  - apply lookup_app_Some in Hk as [Hk|[_ Hk]]; [|by apply list_lookup_singleton_Some in Hk as [_ ->]].
    destruct (IH _ _ Hk Hin) as (k' & j & b' & tx & [L1 L2 L3 L4 L5]). exists k', j, b', tx.
    split; [by apply lookup_app_l_Some|done|done|done|]. intros k2 b2 Hlt E.
    apply lookup_app_Some in E as [E|[_ E]]; [by eapply L5|]. by apply list_lookup_singleton_Some in E as [_ <-].
Qed.

Lemma extracted_envelope tx : is_ok (extractTxID tx) -> is_ok (GetEnvelopeFromBlock tx).
Proof. unfold extractTxID. by destruct (GetEnvelopeFromBlock tx). Qed.

(** The id under which a transaction is indexed. *)
Lemma well_formed_id `{SignatureCodec} `{TxCodec} `{MSPManagers} d p : well_formed d p -> extractTxID d = Ok (ch_TxId (p_chdr p)).
Proof.
  intros W. unfold extractTxID. rewrite (wf_env _ _ W), res_ret_bind, (wf_payload _ _ W). unfold payload_ChannelHeader.
  by rewrite (wf_hdr _ _ W), res_ret_bind, (wf_chdr _ _ W).
Qed.

Context {DB : Type} `{VersionedDB DB} `{Merkle.Hashing} `{RWSetCodec}.
Context (items : list IndexableAttr) (Htx : IndexableAttrTxID ∈ items) (Hcode : IndexableAttrTxValidationCode ∈ items).

(** The ledger finds the transactions of its chain. *)
Lemma ledger_finds (l : @kvLedger DB S (@fs_state S)) bs k b id :
  fs_holds items (blockStore l) bs -> bs !! k = Some b -> id ∈ ids_of b ->
  is_ok (ledger_GetTransactionByID l id).
Proof.
  intros Hs Hb Hin. destruct (last_place _ _ _ _ Hb Hin) as (k' & j & b' & tx & L).
  pose proof (fs_indexed items _ _ _ Hs Htx) as X1. pose proof (fs_indexed items _ _ _ Hs Hcode) as X2.
  destruct (fh_rep _ _ _ Hs) as (segs & seg & R). destruct (blockStore l) as [g w] eqn:Es. cbn [fst snd] in *.
  destruct (retrieve_code _ _ _ _ _ R _ _ _ _ _ X2 L) as (flags & c & _ & _ & Ec).
  pose proof (retrieve_txid _ _ _ _ _ R _ _ _ _ _ X1 L) as Et.
  assert (RetrieveTxByID (blockStore l) id = GetEnvelopeFromBlock tx) as E1 by (by rewrite Es).
  assert (RetrieveTxValidationCodeByTxID (blockStore l) id = Ok (byte_val c)) as E2 by (by rewrite Es).
  cbn [ledger_GetTransactionByID kv_peer_ledger]. unfold GetTransactionByID. rewrite E1, E2.
  destruct (d_chain _ _ _ _ _ _ _ _ (r_durable _ _ _ _ _ R) k' b' (lw_block _ _ _ _ _ _ L)) as [G _].
  pose proof (bg_ids _ _ G) as Hids. unfold parsable in Hids. rewrite Forall_forall in Hids.
  specialize (Hids tx (list_elem_of_lookup_2 _ _ _ (lw_tx _ _ _ _ _ _ L))). apply extracted_envelope in Hids.
  by destruct (GetEnvelopeFromBlock tx).
Qed.

End Replay.
End ReplayFacts.
