(* ===== verification/PeerTheorems.v ===== *)
(** * What a peer guarantees of the blocks that it commits

    The theorems on the validation and the commit of blocks, and a small channel
    on which they are evaluated. *)

From stdpp Require Import base gmap strings list.
From Stdlib Require Import Ascii ZArith Lia.
From S2P Require Import Prelude Version StateDB LevelDB StateLevelDB RWSet Merkle Proto Instances Validator TxMgr Serializability.
From S2P Require Import BlockHash BlockCodec BlockIndex BlockMgr BlockChain BlockStore BlockTheorems KVLedger LedgerTheorems.
From S2P Require Import CAuthDSL ConfigTx MsgValidation VSCC TxValidator TxValidatorFacts PeerCommit.
Import ProtoUtils RWSetUtil Flags Fields Bits.
Local Open Scope Z_scope.

(** ** Theorems *)

Module PeerTheorems.
Import EndorsementFacts ValidTx BlockFlags ValidBlock TxValidator.

Section Validation.
Context `{ProtoCodec} `{SignatureCodec} `{TxCodec} `{CryptoHash} `{RWSetCodec} `{MSPManagers} `{ConfigCodec}.
Context {L C : Type} `{PeerLedger L}.
Context (SysCCVersion : string).
Context (ExecuteChaincode : string -> string -> string -> list bytes -> res VSCC.Response).
Context (GetMSPIDs : string -> list string).
Context (applyConfig : ConfigEnvelope -> ST C unit).
Context (range_upgrades range_names : list (nat * ChaincodeInstance) -> list (nat * ChaincodeInstance)).

(** C3: What a valid flag means.  If the validation of a block, on a peer whose
    chaincode vscc is the validation chaincode, flags an endorser transaction
    valid, the transaction is well-formed: its creator has a valid identity on the
    channel and signed it, its id is the hash of its nonce and creator, it has one
    action, whose response was given to the proposal in it.  Its id is not that of
    a transaction of the ledger.  And what it writes was checked in one of three
    ways.  A transaction of an application chaincode writes neither to lscc nor to
    system chaincodes that cannot be invoked, and each namespace belongs to a
    chaincode that lscc has on the ledger, at the version that was invoked if it
    is the invoked one, whose endorsement policy the endorsements satisfy with
    signatures of pairwise different identities if it is validated by vscc.  A
    transaction of lscc has the endorsement of a member, deploys or upgrades one
    chaincode, writes to no namespace but that of the chaincode and of lscc, where
    the first set of writes is the entry of the chaincode alone, and its creator
    satisfies the instantiation policy.  A transaction of another system chaincode
    that clients may invoke satisfies the policy of the entry that lscc has under
    its name, if that entry has vscc; the namespaces that it writes to are not
    restricted. *)
Theorem valid_tx_endorsed (GetLedger : string -> option L) l block c c' block' flags i d :
  (forall m, range_upgrades m ≡ₚ m) -> (forall m, range_names m ≡ₚ m) -> executes_vscc ExecuteChaincode GetLedger ->
  Validate SysCCVersion ExecuteChaincode GetMSPIDs applyConfig range_upgrades range_names l block c = (c', Ok block') ->
  blk_Metadata block' !! TRANSACTIONS_FILTER = Some flags -> flags !! i = Some (uint8 TxValidationCode_VALID) ->
  blk_Data block !! i = Some d -> Validator.envelope_type d = Ok ENDORSER_TRANSACTION ->
  exists p rw, well_formed d p /\ (exists e, ledger_GetTransactionByID l (ch_TxId (p_chdr p)) = Err e) /\
    tx_authorized GetMSPIDs GetLedger l p d rw.
Proof.
  intros Hu Hn Hx E Hf Hi Hd Ht. apply (validated_block _ _ _ _ _ _ GetLedger Hu Hn Hx) in E as (_ & _ & flags' & Hf' & _ & Hv).
  rewrite Hf in Hf'. injection Hf' as <-. destruct (Hv i d Hd Hi Ht) as (p & rw & [W N A]). by exists p, rw.
Qed.

(** C30: The flags of a block.  In whichever order the maps of the invoked and of
    the upgraded chaincodes are visited, the validation of a block succeeds when
    the checks of its transactions, one after the other, do, and flags each
    transaction with the code of its own checks; except that a valid transaction
    is a version conflict when it invokes a chaincode that a valid transaction of
    the block upgrades, or upgrades one that a later transaction upgrades
    again. *)
Theorem block_flags_decided l block c :
  (forall m, range_upgrades m ≡ₚ m) -> (forall m, range_names m ≡ₚ m) ->
  Validate SysCCVersion ExecuteChaincode GetMSPIDs applyConfig range_upgrades range_names l block c =
  (vs ← verdicts SysCCVersion ExecuteChaincode GetMSPIDs applyConfig l (blk_Data block);
   mret (Validator.set_filter (InitBlockMetadata block) (final_flags vs))) c.
Proof. intros Hu Hn. by apply Validate_verdicts. Qed.

End Validation.

Section Commit.
Import KVLedger KVPeerLedger CommitFacts PeerCommit.PeerCommit.
Context {DB : Type} `{VersionedDBSpec DB} `{Merkle.Hashing} `{RWSetCodec} `{ProtoCodec}.
Context {S : Type} `{LevelDB S} {B : Type} `{BlockStore B}.
Context `{SignatureCodec} `{TxCodec} `{CryptoHash} `{MSPManagers} `{ConfigCodec}.
Context {C : Type}.
Context (SysCCVersion : string).
Context (ExecuteChaincode : string -> string -> string -> list bytes -> res VSCC.Response).
Context (GetMSPIDs : string -> list string).
Context (applyConfig : ConfigEnvelope -> ST C unit).
Context (range_upgrades range_names : list (nat * ChaincodeInstance) -> list (nat * ChaincodeInstance)).
Context (history : bool) (eventer : Block -> res unit).

(** C4: The state changes only by endorsed writes.  The committer of a channel, on
    a peer whose chaincode vscc is the validation chaincode and whose ledger has
    no entry of lscc under the name of another system chaincode
    ([no_system_entries]), validates a block whose transactions write to
    namespaces with proper names (not empty, without the byte 0), and commits it.
    Then every key whose value changes was written by a well-formed transaction of
    the block, and either the chaincode of the key is on the ledger and, if it is
    validated by vscc, the endorsements of the transaction satisfy its policy; or
    the transaction deploys or upgrades a chaincode, as C3 describes it, and the
    key is in its namespace or in that of lscc. *)
Theorem committed_writes_endorsed (GetLedger : string -> option (@kvLedger DB S B)) block c l c' l' ns k :
  (forall m, range_upgrades m ≡ₚ m) -> (forall m, range_names m ≡ₚ m) -> executes_vscc ExecuteChaincode GetLedger ->
  db_ok (TxMgr.db (txtmgmt l)) -> u64 (Number (blk_Header block)) -> u64 (Z.of_nat (length (blk_Data block))) ->
  (forall env rw s, env ∈ blk_Data block -> Validator.rwset_of env = Ok rw -> s ∈ rw -> ns_ok (NameSpace s)) ->
  no_system_entries l -> ns_ok ns ->
  commit_block SysCCVersion ExecuteChaincode GetMSPIDs applyConfig range_upgrades range_names history eventer block (c, l) =
    ((c', l'), Ok tt) ->
  view (TxMgr.db (txtmgmt l')) ns k <> view (TxMgr.db (txtmgmt l)) ns k ->
  exists i d p rw, blk_Data block !! i = Some d /\ well_formed d p /\ Validator.rwset_of d = Ok rw /\ writes_key rw ns k /\
    change_authorized GetLedger l p rw ns.
Proof.
  intros Hu Hn Hx Hdb Hnum Hlen Hnames Hsys Hns E Hc.
  destruct (committed_change _ _ _ _ _ _ GetLedger Hu Hn Hx _ _ _ _ _ _ _ _ _ Hdb Hnum Hlen Hnames E Hns Hc)
    as (i & d & p & rw & Hd & [W _ A] & Hw).
  exists i, d, p, rw. split; [done|]. split; [done|]. split; [by eapply authorized_rwset|]. split; [done|].
  eapply authorized_change; [done|done|]. by eapply writes_key_ns.
Qed.

End Commit.

Section Replay.
Import KVLedger KVPeerLedger CommitFacts ReplayFacts FsLedgerStore.
Context {S : Type} `{LevelDBSpec S} `{ProtoCodec} `{CryptoHash}.
Context {DB : Type} `{VersionedDB DB} `{Merkle.Hashing} `{RWSetCodec}.
Context `{SignatureCodec} `{TxCodec} `{MSPManagers} `{ConfigCodec}.
Context {C : Type}.
Context (SysCCVersion : string).
Context (ExecuteChaincode : string -> string -> string -> list bytes -> res VSCC.Response).
Context (GetMSPIDs : string -> list string).
Context (applyConfig : ConfigEnvelope -> ST C unit).
Context (range_upgrades range_names : list (nat * ChaincodeInstance) -> list (nat * ChaincodeInstance)).

(** C23: No endorser transaction is replayed in a later block.  On a ledger whose
    block store holds a chain and indexes transactions by their id and with their
    validation codes, the validation of a block never flags an endorser
    transaction valid whose id occurs in the chain.  (Configuration transactions
    are not looked up: they have no id, and what protects them is the sequence
    number of the configuration.) *)
Theorem no_replay (GetLedger : string -> option (@kvLedger DB S (@fs_state S))) items (l : @kvLedger DB S (@fs_state S)) bs block c c' block' flags i d id k b :
  BlockIndex.IndexableAttrTxID ∈ items -> BlockIndex.IndexableAttrTxValidationCode ∈ items ->
  fs_holds items (blockStore l) bs ->
  (forall m, range_upgrades m ≡ₚ m) -> (forall m, range_names m ≡ₚ m) -> executes_vscc ExecuteChaincode GetLedger ->
  Validate SysCCVersion ExecuteChaincode GetMSPIDs applyConfig range_upgrades range_names l block c = (c', Ok block') ->
  blk_Metadata block' !! TRANSACTIONS_FILTER = Some flags -> flags !! i = Some (uint8 TxValidationCode_VALID) ->
  blk_Data block !! i = Some d -> Validator.envelope_type d = Ok ENDORSER_TRANSACTION ->
  BlockSerialization.extractTxID d = Ok id -> bs !! k = Some b -> id ∉ BlockChain.ids_of b.
Proof.
  intros Ht Hc Hs Hu Hn Hx E Hf Hi Hd Hty Hid Hb Hin.
  apply (validated_block _ _ _ _ _ _ GetLedger Hu Hn Hx) in E as (_ & _ & flags' & Hf' & _ & Hv).
  rewrite Hf in Hf'. injection Hf' as <-. destruct (Hv i d Hd Hi Hty) as (p & rw & [W [e N] _]).
  rewrite (well_formed_id _ _ W) in Hid. injection Hid as <-. pose proof (ledger_finds _ Ht Hc _ _ _ _ _ Hs Hb Hin) as Hok.
  by rewrite N in Hok.
Qed.

End Replay.
End PeerTheorems.

(** ** A channel

    Identities are an organization and a name; a signature is a checksum of the
    signer and the message; a policy asks for a number of signatures of members
    of organizations. *)

Module PeerDemo.

(** Fields with their lengths. *)
Definition pack (l : list bytes) : bytes :=
  l ≫= fun b => let n := Z.of_nat (length b) in uint8 (n / 65536) :: uint8 (n / 256) :: uint8 n :: b.

Fixpoint unpack (fuel : nat) (b : bytes) : list bytes :=
  match fuel, b with
  | S fuel, x :: y :: z :: b =>
      let n := Z.to_nat (byte_val x * 65536 + byte_val y * 256 + byte_val z) in take n b :: unpack fuel (drop n b)
  | _, _ => []
  end.

Definition fields (b : bytes) : list bytes := unpack 20 b.

Fixpoint pack_writes (l : list KVWrite) : list bytes :=
  match l with [] => [] | w :: l => to_bytes (kvw_Key w) :: default [] (kvw_Value w) :: pack_writes l end.
Fixpoint unpack_writes (l : list bytes) : list KVWrite :=
  match l with k :: v :: l => mkKVWrite (to_string k) false (Some v) :: unpack_writes l | _ => [] end.

(** Read-write sets that only put values. *)
#[export] Instance demo_rwset : RWSetCodec := {
  marshal_kvrwset s := Ok (pack (pack_writes (Writes s)));
  unmarshal_kvrwset b := Ok (mkKVRWSet [] [] (unpack_writes (fields b)));
  marshal_txrwset l := Ok (pack (ns_fields l));
  unmarshal_txrwset b := Ok (fields_ns (fields b))
}.

#[export] Instance demo_proto : ProtoCodec := {
  unmarshal_Envelope b := match fields b with [payload; sig] => Ok (mkEnvelope payload sig) | _ => Err "proto: Envelope" end;
  unmarshal_Payload b :=
    match fields b with [data; ch; sh] => Ok (mkPayload (Some (mkHeader ch sh)) data) | _ => Err "proto: Payload" end;
  unmarshal_ChannelHeader := from_bits;
  unmarshal_Transaction b := Ok (mkTransaction (fields_actions (fields b)));
  unmarshal_ChaincodeActionPayload b :=
    Ok (match fields b with
        | cpp :: prp :: l => mkCAP cpp (Some (mkCEA (Some prp) (fields_endorsements l)))
        | l => mkCAP (default [] (head l)) None
        end);
  unmarshal_ProposalResponsePayload b := match fields b with [h; ext] => Ok (mkPRP h (Some ext)) | _ => Err "proto: ProposalResponsePayload" end;
  unmarshal_ChaincodeAction b :=
    match fields b with
    | [r; name; ver] => Ok (mkCA r [] None (Some (mkChaincodeID (to_string name) (to_string ver))))
    | _ => Err "proto: ChaincodeAction"
    end
}.

#[export] Instance sum_hash : CryptoHash := { bccsp_Hash b := Ok [uint8 (checksum 1 0 b)] }.

Definition policy_of (n : Z) (orgs : list bytes) : SignaturePolicyEnvelope :=
  mkSigPolicyEnv 0 (NOutOf_ n ((fun i => SignedBy_ (Z.of_nat i)) <$> seq 0 (length orgs))) (mkPrincipal ROLE <$> orgs).

#[export] Instance demo_signatures : SignatureCodec := {
  unmarshal_SignatureHeader b :=
    match fields b with [creator; nonce] => Ok (mkSignatureHeader creator nonce) | _ => Err "proto: SignatureHeader" end;
  unmarshal_SignaturePolicyEnvelope b :=
    match fields b with n :: orgs => Ok (policy_of (Z.of_nat (length n)) orgs) | [] => Err "proto: SignaturePolicyEnvelope" end;
  marshal_MSPRole role org := to_bytes org
}.

(** [n] of the organizations. *)
Definition policy_bytes (n : nat) (orgs : list string) : bytes := pack (replicate n "x"%char :: (to_bytes <$> orgs)).

Definition cc_spec (l : list bytes) : option ChaincodeSpec :=
  match l with
  | name :: ver :: args => Some (mkChaincodeSpec GOLANG (Some (mkChaincodeID (to_string name) (to_string ver))) (Some args))
  | _ => None
  end.

#[export] Instance demo_tx_codec : TxCodec := {
  unmarshal_Header b := match fields b with [c; s] => Ok (mkHeader c s) | _ => Err "proto: Header" end;
  unmarshal_Proposal b := match fields b with [h; p] => Ok (mkProposal h p) | _ => Err "proto: Proposal" end;
  unmarshal_ChaincodeHeaderExtension b :=
    match fields b with
    | name :: ver :: _ => Ok (mkCHE None (Some (mkChaincodeID (to_string name) (to_string ver))))
    | _ => Ok (mkCHE None None)
    end;
  unmarshal_ChaincodeProposalPayload b := Ok (mkCPP b ∅);
  unmarshal_ChaincodeInvocationSpec b := Ok (mkCIS (cc_spec (fields b)));
  unmarshal_ChaincodeDeploymentSpec b := Ok (mkCDS (cc_spec (fields b)) []);
  unmarshal_ChaincodeData b :=
    match fields b with
    | [name; ver; escc; vscc; pol; data; id; ipol] =>
        Ok (mkChaincodeData (to_string name) (to_string ver) (to_string escc) (to_string vscc) pol data id ipol)
    | _ => Err "proto: ChaincodeData"
    end;
  unmarshal_SerializedIdentity b :=
    match fields b with [m; id] => Ok (mkSerializedIdentity (to_string m) id) | _ => Err "proto: SerializedIdentity" end;
  marshal_SignaturePolicyEnvelope e := Ok (pack (["x"%char] :: (Principal <$> spe_Identities e)));
  ValidateDeploymentSpec _ := Ok tt
}.

#[export] Instance no_config : ConfigCodec := {
  unmarshal_ConfigEnvelope _ := Err "none";
  unmarshal_ConfigUpdate _ := Err "none";
  unmarshal_ConfigUpdateEnvelope _ := Err "none"
}.

Definition identity (org name : string) : bytes := pack [to_bytes org; to_bytes name].
Definition sign (id msg : bytes) : bytes := [uint8 (checksum 1 0 (id ++ msg))].

Definition demo_msp : MSP := {|
  MSPIdentity := bytes;
  DeserializeIdentity b := match fields b with [_; _] => Ok b | _ => Err "identity" end;
  SatisfiesPrincipal i p := match fields i with org :: _ => if decide (org = Principal p) then Ok tt else Err "principal" | _ => Err "identity" end;
  Verify i msg sig := if decide (sig = sign i msg) then Ok tt else Err "signature";
  identity_Validate _ := Ok tt
|}.

#[export] Instance demo_msps : MSPManagers := {
  GetLocalMSP := demo_msp;
  GetManagerForChain ch := if decide (ch = "ch") then Some demo_msp else None
}.

(** A ledger: the ids of its transactions, and its state. *)
Definition toy : Type := list string * list (string * string * bytes).

#[export] Instance toy_ledger : PeerLedger toy := {
  ledger_GetTransactionByID l id := if decide (id ∈ l.1) then Ok (mkEnvelope [] []) else Err "not found";
  query_GetState l ns k := Ok ((fun x => x.2.2) <$> list_find (fun e : string * string * bytes => e.1 = (ns, k)) l.2)
}.

(** The data of a chaincode, its endorsement policy and its instantiation
    policy. *)
Definition cc_data (name ver : string) (policy ipolicy : bytes) : bytes :=
  pack [to_bytes name; to_bytes ver; to_bytes "escc"; to_bytes "vscc"; policy; []; []; ipolicy].

Definition tx_id (nonce creator : bytes) : string := to_string (TxUtils.hex [uint8 (checksum 1 0 (nonce ++ creator))]).

(** A transaction of [creator] that invokes [cc] with [args], with the results
    [rw], endorsed by [endorsers]. *)
Definition demo_tx (nonce : string) (creator : bytes) (cc ver : string) (args : list bytes) (rw : TxRwSet) (endorsers : list bytes) : bytes :=
  let shdr := pack [creator; to_bytes nonce] in
  let chdr := to_bits (mkChannelHeader ENDORSER_TRANSACTION 0 "ch" (tx_id (to_bytes nonce) creator) 0
                         (pack [to_bytes cc; to_bytes ver])) in
  let cpp := pack (to_bytes cc :: to_bytes ver :: args) in
  let results := match ToProtoBytes rw with Ok b => b | _ => [] end in
  let prp := pack [[uint8 (checksum 1 0 (chdr ++ shdr ++ cpp))]; pack [results; to_bytes cc; to_bytes ver]] in
  let cap := pack (cpp :: prp :: (endorsers ≫= fun e => [e; sign e (prp ++ e)])) in
  let payload := pack [pack [shdr; cap]; chdr; shdr] in
  pack [payload; sign creator payload].

Definition write (ns k v : string) : NsRwSet := mkNsRwSet ns (mkKVRWSet [] [] [mkKVWrite k false (Some (to_bytes v))]).

Definition alice : bytes := identity "Org1" "alice".
Definition peer1 : bytes := identity "Org1" "peer1".
Definition peer2 : bytes := identity "Org2" "peer2".
Definition both : bytes := policy_bytes 2 ["Org1"; "Org2"].
Definition org1 : bytes := policy_bytes 1 ["Org1"].

(** The chaincode [mycc] is deployed; both organizations must endorse it. *)
Definition demo_ledger : toy := (["old"], [("lscc", "mycc", cc_data "mycc" "1" both org1)]).

Definition demo_GetLedger (l : toy) (ch : string) : option toy := if decide (ch = "ch") then Some l else None.

Definition run_vscc {L} `{PeerLedger L} (GetLedger : string -> option L) (chid name ver : string) (args : list bytes) : res VSCC.Response :=
  if decide (name = "vscc") then VSCC.Invoke GetLedger (Some <$> args) else Err "no such chaincode".

Definition demo_validate (l : toy) (data : list bytes) : unit * res Block :=
  TxValidator.Validate "1.0" (run_vscc (demo_GetLedger l)) (fun _ => ["Org1"; "Org2"]) (fun _ => mret tt) reverse reverse
    l (mkBlock (mkBlockHeader 7 [] []) data []) tt.

Lemma demo_validate_eq l data :
  demo_validate l data =
  TxValidator.Validate "1.0" (run_vscc (demo_GetLedger l)) (fun _ => ["Org1"; "Org2"]) (fun _ => mret tt) reverse reverse
    l (mkBlock (mkBlockHeader 7 [] []) data []) tt.
Proof. done. Qed.

Definition flags_of (r : unit * res Block) : option (list Z) :=
  match r.2 with Ok b => (fun f : bytes => byte_val <$> f) <$> (blk_Metadata b !! TRANSACTIONS_FILTER) | _ => None end.

Definition good_tx : bytes := demo_tx "n1" alice "mycc" "1" [to_bytes "put"] [write "mycc" "k" "v"] [peer1; peer2].
Definition poor_tx : bytes := demo_tx "n2" alice "mycc" "1" [to_bytes "put"] [write "mycc" "k" "v"] [peer1; peer1].

(** An invocation of lscc that writes [data] under the name of the chaincode. *)
Definition lscc_tx (nonce : string) (f name ver : string) (more : list NsRwSet) (data : bytes) (endorsers : list bytes) : bytes :=
  demo_tx nonce alice "lscc" "1.0" [to_bytes f; to_bytes "ch"; pack [to_bytes name; to_bytes ver]]
    (mkNsRwSet "lscc" (mkKVRWSet [] [] [mkKVWrite name false (Some data)]) :: more) endorsers.

Definition upgrade_tx (nonce ver : string) : bytes := lscc_tx nonce "upgrade" "mycc" ver [] (cc_data "mycc" ver both org1) [peer1].

Lemma run_vscc_executes {L} `{PeerLedger L} (GetLedger : string -> option L) : ValidTx.executes_vscc (run_vscc GetLedger) GetLedger.
Proof. intros chid ver args r. by unfold run_vscc. Qed.

Lemma flags_of_inv (r : unit * res Block) codes :
  flags_of r = Some codes -> exists b', r = (tt, Ok b') /\ blk_Metadata b' !! TRANSACTIONS_FILTER = Some (uint8 <$> codes).
Proof.
  destruct r as [[] [b'| | |]]; try done. cbn. intros (f & Hf & ->)%fmap_Some. exists b'. split; [done|]. rewrite Hf. f_equal.
  clear Hf. induction f as [|b f IH]; [done|]. cbn. by rewrite uint8_byte_val, <- IH.
Qed.

End PeerDemo.

(** ** Witnesses *)

Module PeerWitnesses.
Import BlockSerialization SystemChaincodes EndorsementFacts ValidTx BlockFlags ValidBlock TxValidator BlockChain BlockTheorems PeerTheorems.
Import PeerDemo.

Lemma demo_flags : flags_of (demo_validate demo_ledger [good_tx; poor_tx]) = Some [TxValidationCode_VALID; TxValidationCode_ENDORSEMENT_POLICY_FAILURE].
Proof. by vm_compute. Qed.

Lemma good_tx_type : Validator.envelope_type good_tx = Ok ENDORSER_TRANSACTION.
Proof. by vm_compute. Qed.

Lemma valid_tx_endorsed_witness :
  flags_of (demo_validate demo_ledger [good_tx; poor_tx]) = Some [TxValidationCode_VALID; TxValidationCode_ENDORSEMENT_POLICY_FAILURE] /\
  exists p rw, well_formed good_tx p /\ tx_authorized (fun _ => ["Org1"; "Org2"]) (demo_GetLedger demo_ledger) demo_ledger p good_tx rw.
Proof.
  split; [exact demo_flags|]. destruct (flags_of_inv _ _ demo_flags) as (b' & E & Hf). rewrite demo_validate_eq in E.
  destruct (valid_tx_endorsed "1.0" (run_vscc (demo_GetLedger demo_ledger)) (fun _ => ["Org1"; "Org2"]) (fun _ => mret tt) reverse reverse
    (demo_GetLedger demo_ledger) demo_ledger (mkBlock (mkBlockHeader 7 [] []) [good_tx; poor_tx] []) tt tt b' _ 0 good_tx
    (fun m => reverse_Permutation m) (fun m => reverse_Permutation m) (run_vscc_executes _) E Hf eq_refl eq_refl good_tx_type)
    as (p & rw & W & _ & A).
  exists p, rw. exact (conj W A).
Defined.

(** The later of two upgrades stays, and invocations of the chaincode are
    conflicts. *)
Lemma upgrade_flags_demo : flags_of (demo_validate demo_ledger [good_tx; upgrade_tx "u1" "2"; upgrade_tx "u2" "3"]) =
  Some [TxValidationCode_CHAINCODE_VERSION_CONFLICT; TxValidationCode_CHAINCODE_VERSION_CONFLICT; TxValidationCode_VALID].
Proof. by vm_compute. Qed.

Lemma block_flags_decided_witness :
  exists vs, verdicts "1.0" (run_vscc (demo_GetLedger demo_ledger)) (fun _ => ["Org1"; "Org2"]) (fun _ => mret tt) demo_ledger
      [good_tx; upgrade_tx "u1" "2"; upgrade_tx "u2" "3"] tt = (tt, Ok vs) /\
    final_flags vs = uint8 <$> [TxValidationCode_CHAINCODE_VERSION_CONFLICT; TxValidationCode_CHAINCODE_VERSION_CONFLICT; TxValidationCode_VALID].
Proof.
  destruct (flags_of_inv _ _ upgrade_flags_demo) as (b' & E & Hf). rewrite demo_validate_eq in E.
  pose proof (block_flags_decided "1.0" (run_vscc (demo_GetLedger demo_ledger)) (fun _ => ["Org1"; "Org2"]) (fun _ => mret tt) reverse reverse
    demo_ledger (mkBlock (mkBlockHeader 7 [] []) [good_tx; upgrade_tx "u1" "2"; upgrade_tx "u2" "3"] []) tt
    (fun m => reverse_Permutation m) (fun m => reverse_Permutation m)) as Hd.
  rewrite E in Hd. symmetry in Hd. apply st_bind_inv in Hd as (c1 & vs & Ev & Hd). injection Hd as -> <-. exists vs. split; [exact Ev|].
  rewrite Validator.set_filter_lookup in Hf by (by eexists). injection Hf as Hf. exact Hf.
Defined.

(** *** Behaviours of note *)

(** The same transaction twice in a block is valid twice: only the ledger is
    searched for its id. *)
Example duplicate_in_block : flags_of (demo_validate demo_ledger [good_tx; good_tx]) = Some [TxValidationCode_VALID; TxValidationCode_VALID].
Proof. by vm_compute. Qed.

(** A transaction without an endorsed action, signed by a member, panics. *)
Definition no_action_tx : bytes :=
  let shdr := pack [alice; to_bytes "n4"] in
  let chdr := to_bits (mkChannelHeader ENDORSER_TRANSACTION 0 "ch" (tx_id (to_bytes "n4") alice) 0 []) in
  let payload := pack [pack [shdr; pack [[]]]; chdr; shdr] in
  pack [payload; sign alice payload].

Example no_action_panics : demo_validate demo_ledger [no_action_tx] = (tt, Panic "nil pointer dereference").
Proof. by vm_compute. Qed.

(** So does a deployment without a specification, endorsed by a member. *)
Example no_spec_panics :
  demo_validate demo_ledger [demo_tx "n5" alice "lscc" "1.0" [to_bytes "deploy"; to_bytes "ch"; []] [] [peer1]] =
  (tt, Panic "nil pointer dereference").
Proof. by vm_compute. Qed.

(** Of two sets of writes to lscc only the first is checked: a deployment of
    [other] also replaces the data of [mycc]. *)
Example second_lscc_set_unchecked :
  flags_of (demo_validate demo_ledger
    [lscc_tx "n6" "deploy" "other" "1"
       [mkNsRwSet "lscc" (mkKVRWSet [] [] [mkKVWrite "mycc" false (Some (cc_data "mycc" "1" org1 org1))])]
       (cc_data "other" "1" org1 org1) [peer1]]) = Some [TxValidationCode_VALID].
Proof. by vm_compute. Qed.

(** A chaincode with the name of a system chaincode can be deployed; with its
    entry, an invocation of that system chaincode may write any namespace with
    the endorsements that its own policy asks for. *)
Definition qscc_entry : bytes := cc_data "qscc" "1" org1 org1.

Example system_entry_bypass :
  flags_of (demo_validate demo_ledger [lscc_tx "n7" "deploy" "qscc" "1" [] qscc_entry [peer1]]) = Some [TxValidationCode_VALID] /\
  flags_of (demo_validate (demo_ledger.1, ("lscc", "qscc", qscc_entry) :: demo_ledger.2)
    [demo_tx "n8" alice "qscc" "1" [] [write "mycc" "k" "v"; write "lscc" "mycc" "v"] [peer1]]) = Some [TxValidationCode_VALID].
Proof. split; by vm_compute. Qed.

(** *** On a ledger over files *)

Import KVLedger KVPeerLedger CommitFacts ReplayFacts FsLedgerStore.

Definition old_tx : bytes := demo_tx "n0" alice "mycc" "1" [to_bytes "put"] [write "mycc" "k" "u"] [peer1; peer2].

Definition old_block : Block := mkBlock (mkBlockHeader 0 [] []) [old_tx] [[]; []; [uint8 0]; []].

Definition peer_state : mem_db :=
  apply_batch empty_db (batch_of [("lscc", "mycc", Some (cc_data "mycc" "1" both org1), Height.NewHeight 0 0)]) (Height.NewHeight 0 0).

Definition mem_ledger : Type := @kvLedger mem_db MemStore.MemStore (@fs_state MemStore.MemStore).

Definition peer_ledger (s : @fs_state MemStore.MemStore) : mem_ledger :=
  mkKVLedger "ch" s (TxMgr.NewLockBasedTxMgr peer_state) (Provider.mkDBHandle "history" ∅).

Definition peer_store : BlockTheorems.demo_state := BlockTheorems.demo_add BlockTheorems.demo0 old_block [].

Definition peer_GetLedger (l : mem_ledger) (ch : string) : option mem_ledger := if decide (ch = "ch") then Some l else None.

Definition peer_validate (l : mem_ledger) (data : list bytes) : unit * res Block :=
  TxValidator.Validate "1.0" (run_vscc (peer_GetLedger l)) (fun _ => ["Org1"; "Org2"]) (fun _ => mret tt) reverse reverse
    l (mkBlock (mkBlockHeader 1 [] []) data []) tt.

Definition on_store {A} (f : @fs_state MemStore.MemStore -> A) (a : A) : A := match peer_store with Ok (_, s) => f s | _ => a end.

Lemma old_block_good : block_good (BlockIndex.newBlockIndex all_attrs) old_block.
Proof. apply block_good_b_ok. by vm_compute. Qed.

Lemma peer_store_ok :
  exists g w, peer_store = Ok (BlockRuns.Added, (g, w)) /\ fs_holds all_attrs (g, w) [old_block].
Proof.
  destruct demo0_ok as (g & w & E & R & Ei).
  destruct (demo_add_ok demo0 BlockRuns.Added g w [] old_block E R Ei) as (g' & w' & E' & R' & Ei');
    [by vm_compute|apply old_block_good|done|done|].
  exists g', w'. split; [exact E'|]. by split.
Qed.

(** The transaction of the chain is a duplicate. *)
Lemma peer_flags : on_store (fun s => flags_of (peer_validate (peer_ledger s) [good_tx; old_tx])) None =
  Some [TxValidationCode_VALID; TxValidationCode_DUPLICATE_TXID].
Proof. by vm_compute. Qed.

Lemma peer_validate_eq l data :
  peer_validate l data =
  TxValidator.Validate "1.0" (run_vscc (peer_GetLedger l)) (fun _ => ["Org1"; "Org2"]) (fun _ => mret tt) reverse reverse
    l (mkBlock (mkBlockHeader 1 [] []) data []) tt.
Proof. done. Qed.

Lemma good_tx_id : extractTxID good_tx = Ok (tx_id (to_bytes "n1") alice).
Proof. by vm_compute. Qed.

Lemma indexed_txid : BlockIndex.IndexableAttrTxID ∈ all_attrs.
Proof. unfold all_attrs. set_solver. Qed.

Lemma indexed_code : BlockIndex.IndexableAttrTxValidationCode ∈ all_attrs.
Proof. unfold all_attrs. set_solver. Qed.

Lemma no_replay_witness : tx_id (to_bytes "n1") alice ∉ ids_of old_block.
Proof.
  destruct peer_store_ok as (g & w & E & Hs). pose proof peer_flags as Hf. unfold on_store in Hf. rewrite E in Hf.
  destruct (flags_of_inv _ _ Hf) as (b' & Ev & Hb). rewrite peer_validate_eq in Ev.
  exact (no_replay "1.0" (run_vscc (peer_GetLedger (peer_ledger (g, w)))) (fun _ => ["Org1"; "Org2"]) (fun _ => mret tt) reverse reverse
    (peer_GetLedger (peer_ledger (g, w))) all_attrs (peer_ledger (g, w)) [old_block] (mkBlock (mkBlockHeader 1 [] []) [good_tx; old_tx] [])
    tt tt b' _ 0 good_tx _ 0 old_block indexed_txid indexed_code Hs (fun m => reverse_Permutation m) (fun m => reverse_Permutation m)
    (run_vscc_executes _) Ev Hb eq_refl eq_refl good_tx_type good_tx_id eq_refl).
Defined.

(** *** Committing *)

Definition good_block : Block := mkBlock (mkBlockHeader 1 [] []) [good_tx] [].

Definition peer_commit (l : mem_ledger) : (unit * mem_ledger) * res unit :=
  PeerCommit.PeerCommit.commit_block "1.0" (run_vscc (peer_GetLedger l)) (fun _ => ["Org1"; "Org2"]) (fun _ => mret tt) reverse reverse
    false (fun _ => Ok tt) good_block (tt, l).

Lemma peer_commit_eq l :
  peer_commit l =
  PeerCommit.PeerCommit.commit_block "1.0" (run_vscc (peer_GetLedger l)) (fun _ => ["Org1"; "Org2"]) (fun _ => mret tt) reverse reverse
    false (fun _ => Ok tt) good_block (tt, l).
Proof. done. Qed.

(** The value of the key after the commit. *)
Definition committed_value (r : (unit * mem_ledger) * res unit) : option (option bytes) :=
  match r with ((_, l), Ok _) => Some (view (TxMgr.db (txtmgmt l)) "mycc" "k" ≫= Value) | _ => None end.

Lemma peer_committed : on_store (fun s => committed_value (peer_commit (peer_ledger s))) None = Some (Some (to_bytes "v")).
Proof. by vm_compute. Qed.

Lemma peer_state_ok : db_ok peer_state.
Proof.
  apply apply_batch_ok; [apply empty_db_ok| |apply (bool_decide_unpack _); by vm_compute].
  apply batch_of_ok. apply (bool_decide_unpack _). by vm_compute.
Qed.

Lemma syscc_names name : IsSysCC name = true -> name ∈ ["cscc"; "lscc"; "escc"; "vscc"; "qscc"].
Proof. unfold IsSysCC. cbn. repeat case_decide; subst; set_solver. Qed.

Lemma peer_no_entries s : no_system_entries (peer_ledger s).
Proof. intros name Hn%syscc_names Hl. repeat (apply elem_of_cons in Hn as [->|Hn]; [by vm_compute|]). by apply elem_of_nil in Hn. Qed.

Lemma good_block_names env rw s :
  env ∈ blk_Data good_block -> Validator.rwset_of env = Ok rw -> s ∈ rw -> ns_ok (NameSpace s).
Proof.
  intros He%list_elem_of_singleton E Hs. subst env.
  assert (Validator.rwset_of good_tx = Ok [write "mycc" "k" "v"]) as E' by (by vm_compute). rewrite E' in E. injection E as <-.
  apply list_elem_of_singleton in Hs as ->. apply (bool_decide_unpack _). by vm_compute.
Qed.

Lemma committed_inv l v :
  committed_value (peer_commit l) = Some (Some v) ->
  exists l', peer_commit l = ((tt, l'), Ok tt) /\ view (TxMgr.db (txtmgmt l')) "mycc" "k" <> None.
Proof.
  destruct (peer_commit l) as [[[] l'] [[]| | |]]; try done. cbn. intros E. exists l'. split; [done|].
  intros Hn. change (StateLevelDB.vdb_view (TxMgr.db (txtmgmt l')) "mycc" "k" = None) in Hn. by rewrite Hn in E.
Qed.

Lemma mycc_ok : ns_ok "mycc".
Proof. apply (bool_decide_unpack _). by vm_compute. Qed.

Lemma fresh_key s : view (TxMgr.db (txtmgmt (peer_ledger s))) "mycc" "k" = None.
Proof. by vm_compute. Qed.

Lemma good_block_small : u64 (Number (blk_Header good_block)) /\ u64 (Z.of_nat (length (blk_Data good_block))).
Proof. by split. Qed.

Lemma committed_writes_endorsed_witness :
  exists (l : mem_ledger) d p rw, good_block = mkBlock (mkBlockHeader 1 [] []) [d] [] /\ well_formed d p /\
    change_authorized (peer_GetLedger l) l p rw "mycc".
Proof.
  destruct peer_store_ok as (g & w & E & Hs). pose proof peer_committed as Hc. unfold on_store in Hc. rewrite E in Hc.
  destruct (committed_inv _ _ Hc) as (l' & Ec & Hv). rewrite peer_commit_eq in Ec. destruct good_block_small as [Hn Hl].
  rewrite <- (fresh_key (g, w)) in Hv.
  destruct (committed_writes_endorsed "1.0" (run_vscc (peer_GetLedger (peer_ledger (g, w)))) (fun _ => ["Org1"; "Org2"]) (fun _ => mret tt) reverse reverse
    false (fun _ => Ok tt) (peer_GetLedger (peer_ledger (g, w))) good_block tt (peer_ledger (g, w)) tt l' "mycc" "k"
    (fun m => reverse_Permutation m) (fun m => reverse_Permutation m) (run_vscc_executes _) peer_state_ok Hn Hl good_block_names
    (peer_no_entries _) mycc_ok Ec Hv) as (i & d & p & rw & Hd & W & _ & _ & A).
  exists (peer_ledger (g, w)), d, p, rw. split; [|exact (conj W A)]. apply list_lookup_singleton_Some in Hd as [_ Hd].
  unfold good_block. rewrite Hd. exact eq_refl.
Defined.

End PeerWitnesses.
