(* ===== verification/CCPackages.v ===== *)
(** * Chaincode packages

    core/common/ccpackage: packages that the owners of a chaincode sign.
    core/common/ccprovider: the two kinds of package, the packages on the file
    system of a peer, and the cache of their data. *)

From stdpp Require Import base gmap strings list.
From Stdlib Require Import Ascii ZArith Lia.
From S2P Require Import Prelude Proto CAuthDSL MsgValidation.
Import ProtoUtils TxUtils.
Local Open Scope Z_scope.

(** ** Messages *)

Record SignedChaincodeDeploymentSpec := mkSignedCDS {
  scds_ChaincodeDeploymentSpec : bytes;
  scds_InstantiationPolicy : bytes;
  scds_OwnerEndorsements : list Endorsement
}.

Record CDSData := mkCDSData { CodeHash : bytes; MetaDataHash : bytes }.

Record SignedCDSData := mkSignedCDSData { sCodeHash : bytes; sMetaDataHash : bytes; SignatureHash : bytes }.

(** The path and the input of a chaincode, which are only shown, are left out. *)
Record ChaincodeInfo := mkChaincodeInfo {
  info_Name : string;
  info_Version : string;
  info_Escc : string;
  info_Vscc : string
}.

#[export] Instance CDSData_eq_dec : EqDecision CDSData.
Proof. solve_decision. Defined.
#[export] Instance SignedCDSData_eq_dec : EqDecision SignedCDSData.
Proof. solve_decision. Defined.
#[export] Instance ChaincodeInfo_eq_dec : EqDecision ChaincodeInfo.
Proof. solve_decision. Defined.

Class PackageCodec := {
  unmarshal_SignedCDS : bytes -> res SignedChaincodeDeploymentSpec;
  unmarshal_CDSData : bytes -> res CDSData;
  unmarshal_SignedCDSData : bytes -> res SignedCDSData;
  (** [factory.GetDefault().GetHash(&bccsp.SHAOpts{})]: the sum of what is written *)
  sha_Sum : bytes -> res bytes
}.

(** ** ccpackage.go *)

Module CCPackage.
Section CCPackage.
Context `{ProtoCodec} `{PackageCodec}.
Context `{!Message SignedChaincodeDeploymentSpec} `{!Message ChaincodeDeploymentSpec} `{!Message ChannelHeader} `{!Message Payload}.

Definition ExtractSignedCCDepSpec (env : Envelope) : res (ChannelHeader * SignedChaincodeDeploymentSpec) :=
  p ← unmarshal_Payload (env_Payload env);
  match pl_Header p with
  | None => Panic "nil pointer dereference"
  | Some hdr =>
      ch ← unmarshal_ChannelHeader (hdr_ChannelHeader hdr);
      sp ← unmarshal_SignedCDS (pl_Data p);
      Ok (ch, sp)
  end.

(** Endorsements that were unmarshalled are nil when there are none. *)
Definition ValidateCip (baseCip otherCip : SignedChaincodeDeploymentSpec) : res unit :=
  let bN := length (scds_OwnerEndorsements baseCip) in
  let oN := length (scds_OwnerEndorsements otherCip) in
  if xorb (bN =? 0)%nat (oN =? 0)%nat then Err "endorsements should either be both nil or not nil"
  else if (1 <? bN)%nat || (1 <? oN)%nat then Err "expect utmost 1 endorsement from a owner"
  else if negb (bN =? oN)%nat then Err "Rule-all packages should be endorsed or none should be endorsed failed"
  else if negb (bool_decide (scds_ChaincodeDeploymentSpec baseCip = scds_ChaincodeDeploymentSpec otherCip))
  then Err "Rule-all deployment specs should match"
  else if negb (bool_decide (scds_InstantiationPolicy baseCip = scds_InstantiationPolicy otherCip))
  then Err "Rule-all instantiation policies should match"
  else Ok tt.

(** Any of the endorsements may be nil, which cannot be marshalled.  The time is
    an argument. *)
Definition createSignedCCDepSpec (now : Z) (cdsbytes instpolicybytes : bytes) (endorsements : list (option Endorsement)) : res Envelope :=
  if is_nil cdsbytes then Err "nil chaincode deployment spec"
  else if is_nil instpolicybytes then Err "nil instantiation policy"
  else
    cipbytes ← or_panic match mapM id endorsements with
                        | None => Err "proto: repeated field has nil element"
                        | Some es => marshal (mkSignedCDS cdsbytes instpolicybytes es)
                        end;
    chdr ← or_panic (marshal (mkChannelHeader CHAINCODE_PACKAGE now "" "" 0 []));
    paylBytes ← marshal (mkPayload (Some (mkHeader chdr [])) cipbytes);
    Ok (mkEnvelope paylBytes []).

(** The variables of the loop of [CreateSignedCCDepSpecForInstall]. *)
Record collation := mkCollation {
  baseCip : option SignedChaincodeDeploymentSpec;
  endorsementExists : bool;
  endorsements : list (option Endorsement)
}.

(** The package [r] is the [n]-th of [size]. *)
Definition collate_package (size n : nat) (st : collation) (r : Envelope) : res collation :=
  p ← unmarshal_Payload (env_Payload r);
  cip ← unmarshal_SignedCDS (pl_Data p);
  st ← (if (n =? 0)%nat
        then Ok (mkCollation (Some cip) (endorsementExists st)
                   (if (0 <? length (scds_OwnerEndorsements cip))%nat then replicate size None else endorsements st))
        else match baseCip st with
             | None => Panic "do not call with nil parameters"
             | Some baseCip => ValidateCip baseCip cip;; Ok st
             end);
  if endorsementExists st then
    match scds_OwnerEndorsements cip with
    | [] => Panic "index out of range"
    | e :: _ =>
        if (n <? length (endorsements st))%nat
        then Ok (mkCollation (baseCip st) (endorsementExists st) (<[n := Some e]> (endorsements st)))
        else Panic "index out of range"
    end
  else Ok st.

Fixpoint collate (size n : nat) (st : collation) (pack : list Envelope) : res collation :=
  match pack with
  | [] => Ok st
  | r :: pack => st ← collate_package size n st r; collate size (S n) st pack
  end.

Definition CreateSignedCCDepSpecForInstall (now : Z) (pack : list Envelope) : res Envelope :=
  if (length pack =? 0)%nat then Err "no packages provided to collate"
  else
    st ← collate (length pack) 0 (mkCollation None false []) pack;
    match baseCip st with
    | None => Panic "nil pointer dereference"
    | Some baseCip =>
        createSignedCCDepSpec now (scds_ChaincodeDeploymentSpec baseCip) (scds_InstantiationPolicy baseCip) (endorsements st)
    end.

(** The owner signs the package, the policy and their identity. *)
Definition owner_endorsement (owner : SigningIdentity) (cdsbytes instpolicybytes : bytes) : res Endorsement :=
  endorser ← match Serialize owner with Err e => Err ("Could not serialize the signing identity, err " +:+ e) | r => r end;
  signature ← match Sign owner (cdsbytes ++ instpolicybytes ++ endorser) with
              | Err e => Err ("Could not sign the ccpackage, err " +:+ e) | r => r end;
  Ok (mkEndorsement endorser signature).

(** [cds], [instPolicy] and [owner] may be nil. *)
Definition OwnerCreateSignedCCDepSpec `{TxCodec} (now : Z) (cds : option ChaincodeDeploymentSpec) (instPolicy : option SignaturePolicyEnvelope)
    (owner : option SigningIdentity) : res Envelope :=
  match cds, instPolicy with
  | None, _ => Err "invalid chaincode deployment spec"
  | _, None => Err "must provide an instantiation policy"
  | Some cds, Some instPolicy =>
      cdsbytes ← or_panic (marshal cds);
      instpolicybytes ← or_panic (marshal_SignaturePolicyEnvelope instPolicy);
      endorsements ← match owner with
                     | None => Ok []
                     | Some owner => e ← owner_endorsement owner cdsbytes instpolicybytes; Ok [Some e]
                     end;
      createSignedCCDepSpec now cdsbytes instpolicybytes endorsements
  end.

Definition SignExistingPackage (now : Z) (env : Envelope) (owner : option SigningIdentity) : res Envelope :=
  match owner with
  | None => Err "owner not provided"
  | Some owner =>
      '(_, sdepspec) ← ExtractSignedCCDepSpec env;
      if is_nil (scds_ChaincodeDeploymentSpec sdepspec) || is_nil (scds_InstantiationPolicy sdepspec) ||
         (length (scds_OwnerEndorsements sdepspec) =? 0)%nat
      then Err "invalid signed deployment spec"
      else
        e ← owner_endorsement owner (scds_ChaincodeDeploymentSpec sdepspec) (scds_InstantiationPolicy sdepspec);
        createSignedCCDepSpec now (scds_ChaincodeDeploymentSpec sdepspec) (scds_InstantiationPolicy sdepspec)
          ((Some <$> scds_OwnerEndorsements sdepspec) ++ [Some e])
  end.

(** *** What is collated *)

(** The packages of owners that agree with [base], as [ValidateCip] has it. *)
Definition agrees (base cip : SignedChaincodeDeploymentSpec) : Prop :=
  scds_ChaincodeDeploymentSpec cip = scds_ChaincodeDeploymentSpec base /\
  scds_InstantiationPolicy cip = scds_InstantiationPolicy base /\
  length (scds_OwnerEndorsements cip) = length (scds_OwnerEndorsements base) /\
  (length (scds_OwnerEndorsements cip) <= 1)%nat.

Definition decodes_to (r : Envelope) (cip : SignedChaincodeDeploymentSpec) : Prop :=
  exists p, unmarshal_Payload (env_Payload r) = Ok p /\ unmarshal_SignedCDS (pl_Data p) = Ok cip.

Lemma ValidateCip_agrees base cip : ValidateCip base cip = Ok tt <-> agrees base cip.
Proof.
  unfold ValidateCip, agrees. set (bN := length (scds_OwnerEndorsements base)). set (oN := length (scds_OwnerEndorsements cip)).
  destruct (Nat.eqb_spec bN 0), (Nat.eqb_spec oN 0), (Nat.ltb_spec 1 bN), (Nat.ltb_spec 1 oN), (Nat.eqb_spec bN oN); cbn;
    repeat case_bool_decide; cbn; (split; [try done; intros _; split_and!; (congruence || lia)|]);
    intros (? & ? & ? & ?); first [done|congruence|lia].
Qed.

(** The packages after the first change nothing. *)
Lemma collate_rest size n base es pack st' :
  (0 < n)%nat -> collate size n (mkCollation (Some base) false es) pack = Ok st' <->
  st' = mkCollation (Some base) false es /\ exists cips, Forall2 decodes_to pack cips /\ Forall (agrees base) cips.
Proof.
  revert n. induction pack as [|r pack IH]; intros n Hn; cbn [collate].
  { split; [intros [= <-]; split; [done|by exists []]|intros (-> & _); done]. }
  rewrite res_bind_Ok. split.
  - intros (st1 & E & Ec). unfold collate_package in E. apply res_bind_Ok in E as (p & Ep & E).
    apply res_bind_Ok in E as (cip & Eci & E). rewrite (proj2 (Nat.eqb_neq n 0)) in E by lia. cbn [baseCip] in E.
    apply res_bind_Ok in E as (st2 & E & E2). apply res_bind_Ok in E as ([] & Ev & [= <-]). injection E2 as <-.
    apply IH in Ec as (-> & cips & Hd & Ha); [|lia]. split; [done|]. exists (cip :: cips).
    split; [constructor; [by exists p|done]|]. constructor; [by apply ValidateCip_agrees|done].
  - intros (-> & cips & Hd & Ha). inversion Hd as [|? cip ? cips' (p & Ep & Eci) Hd']; subst. inversion Ha as [|? ? Hag Ha']; subst.
    exists (mkCollation (Some base) false es). split; [|apply IH; [lia|]; split; [done|by exists cips']].
    unfold collate_package. rewrite Ep, res_ret_bind, Eci, res_ret_bind, (proj2 (Nat.eqb_neq n 0)) by lia.
    cbn [baseCip]. by rewrite (proj2 (ValidateCip_agrees _ _) Hag).
Qed.

(** The whole loop, whose endorsements stay nil. *)
Lemma collate_all r rest st' :
  collate (length (r :: rest)) 0 (mkCollation None false []) (r :: rest) = Ok st' <->
  exists base cips, decodes_to r base /\ Forall2 decodes_to rest cips /\ Forall (agrees base) cips /\
    st' = mkCollation (Some base) false
            (if (0 <? length (scds_OwnerEndorsements base))%nat then replicate (length (r :: rest)) None else []).
Proof.
  cbn [collate]. rewrite res_bind_Ok. split.
  - intros (st1 & E & Ec). unfold collate_package in E. apply res_bind_Ok in E as (p & Ep & E).
    apply res_bind_Ok in E as (base & Eb & E). cbn in E. injection E as <-.
    apply collate_rest in Ec as (-> & cips & Hd & Ha); [|lia]. exists base, cips. split_and!; try done. by exists p.
  - intros (base & cips & (p & Ep & Eb) & Hd & Ha & ->). eexists. split.
    + unfold collate_package. rewrite Ep, res_ret_bind, Eb, res_ret_bind. reflexivity.
    + apply collate_rest; [lia|]. split; [done|by exists cips].
Qed.

End CCPackage.
End CCPackage.

(** ** ccprovider *)

Module CCProvider.
Import CCPackage.

(** The files of [chaincodeInstallPath], by name. *)
Abbreviation Files := (gmap string bytes).

(** [ccInfoCacheImpl] *)
Abbreviation Cache := (gmap string ChaincodeData).

Section CCProvider.
Context `{ProtoCodec} `{TxCodec} `{PackageCodec}.
Context `{!Message ChaincodeDeploymentSpec} `{!Message CDSData} `{!Message SignedCDSData}.

(** [cds.ChaincodeSpec.ChaincodeId] *)
Definition chaincode_id (cds : ChaincodeDeploymentSpec) : res ChaincodeID :=
  match cds_ChaincodeSpec cds with
  | Some spec => match spec_ChaincodeId spec with Some id => Ok id | None => Panic "nil pointer dereference" end
  | None => Panic "nil pointer dereference"
  end.

(** *** The file system *)

Definition package_file (ccname ccversion : string) : string := ccname +:+ "." +:+ ccversion.

Definition GetChaincodePackage (fs : Files) (ccname ccversion : string) : res bytes :=
  match fs !! package_file ccname ccversion with Some b => Ok b | None => Err "no such file or directory" end.

Definition ChaincodePackageExists (fs : Files) (ccname ccversion : string) : res bool :=
  match fs !! package_file ccname ccversion with Some _ => Ok true | None => Err "no such file or directory" end.

(** [os.Stat] and [ioutil.WriteFile] *)
Definition put_file (fs : Files) (id : ChaincodeID) (buf : bytes) : res Files :=
  let path := package_file (cid_Name id) (cid_Version id) in
  match fs !! path with
  | Some _ => Err ("chaincode " +:+ path +:+ " exists")
  | None => Ok (<[path := buf]> fs)
  end.

(** *** cdspackage.go

    The fields are nil before the package is initialized. *)
Record CDSPackage := mkCDSPackage {
  buf : option bytes;
  depSpec : option ChaincodeDeploymentSpec;
  data : option CDSData;
  datab : option bytes;
  id : option bytes
}.

(** A field that must be set. *)
Definition or_uninitialized {A} (what : string) (o : option A) : res A :=
  match o with Some a => Ok a | None => Panic (what +:+ " called on uninitialized package") end.

Definition GetId (ccpack : CDSPackage) : res bytes := or_uninitialized "GetId" (id ccpack).
Definition GetDepSpec (ccpack : CDSPackage) : res ChaincodeDeploymentSpec := or_uninitialized "GetDepSpec" (depSpec ccpack).
Definition GetDepSpecBytes (ccpack : CDSPackage) : res bytes := or_uninitialized "GetDepSpecBytes" (buf ccpack).

Definition GetChaincodeData (ccpack : CDSPackage) : res ChaincodeData :=
  match depSpec ccpack, datab ccpack, id ccpack with
  | Some depSpec, Some datab, Some id =>
      cid ← chaincode_id depSpec;
      Ok (mkChaincodeData (cid_Name cid) (cid_Version cid) "" "" [] datab id [])
  | _, _, _ => Panic "GetChaincodeData called on uninitialized package"
  end.

(** The bytes of the data, the fingerprint and the data. *)
Definition getCDSData (cds : ChaincodeDeploymentSpec) : res (bytes * bytes * CDSData) :=
  marshal cds;;
  codeHash ← sha_Sum (cds_CodePackage cds);
  cid ← chaincode_id cds;
  metaDataHash ← sha_Sum (to_bytes (cid_Name cid) ++ to_bytes (cid_Version cid));
  let cdsdata := mkCDSData codeHash metaDataHash in
  b ← marshal cdsdata;
  id ← sha_Sum (codeHash ++ metaDataHash);
  Ok (b, id, cdsdata).

Definition ValidateCC (ccpack : CDSPackage) (ccdata : ChaincodeData) : res unit :=
  match depSpec ccpack, data ccpack with
  | None, _ => Err "uninitialized package"
  | _, None => Err "nil data"
  | Some depSpec, Some data =>
      cid ← chaincode_id depSpec;
      if negb (bool_decide (cd_Name ccdata = cid_Name cid)) || negb (bool_decide (cd_Version ccdata = cid_Version cid))
      then Err "invalid chaincode data"
      else
        otherdata ← unmarshal_CDSData (cd_Data ccdata);
        if decide (data = otherdata) then Ok tt else Err "data mismatch"
  end.

Definition InitFromBuffer (buf : bytes) : res CDSPackage :=
  depSpec ← or_fail "failed to unmarshal deployment spec from bytes" (unmarshal_ChaincodeDeploymentSpec buf);
  '(databytes, id, data) ← getCDSData depSpec;
  Ok (mkCDSPackage (Some buf) (Some depSpec) (Some data) (Some databytes) (Some id)).

Definition InitFromFS (fs : Files) (ccname ccversion : string) : res CDSPackage :=
  buf ← GetChaincodePackage fs ccname ccversion;
  InitFromBuffer buf.

Definition PutChaincodeToFS (ccpack : CDSPackage) (fs : Files) : res Files :=
  match buf ccpack, id ccpack, depSpec ccpack, data ccpack, datab ccpack with
  | None, _, _, _, _ => Err "uninitialized package"
  | _, None, _, _, _ => Err "id cannot be nil if buf is not nil"
  | _, _, None, _, _ => Err "depspec cannot be nil if buf is not nil"
  | _, _, _, None, _ => Err "nil data"
  | _, _, _, _, None => Err "nil data bytes"
  | Some buf, Some _, Some depSpec, Some _, Some _ => cid ← chaincode_id depSpec; put_file fs cid buf
  end.

(** *** sigcdspackage.go *)

Record SignedCDSPackage := mkSignedCDSPackage {
  s_buf : option bytes;
  s_depSpec : option ChaincodeDeploymentSpec;
  sDepSpec : option SignedChaincodeDeploymentSpec;
  s_env : option Envelope;
  s_data : option SignedCDSData;
  s_datab : option bytes;
  s_id : option bytes
}.

Definition s_GetId (ccpack : SignedCDSPackage) : res bytes := or_uninitialized "GetId" (s_id ccpack).
Definition s_GetDepSpec (ccpack : SignedCDSPackage) : res ChaincodeDeploymentSpec := or_uninitialized "GetDepSpec" (s_depSpec ccpack).

Definition GetInstantiationPolicy (ccpack : SignedCDSPackage) : res bytes :=
  s ← or_uninitialized "GetInstantiationPolicy" (sDepSpec ccpack);
  Ok (scds_InstantiationPolicy s).

Definition s_GetDepSpecBytes (ccpack : SignedCDSPackage) : res bytes :=
  s ← or_uninitialized "GetDepSpecBytes" (sDepSpec ccpack);
  if is_nil (scds_ChaincodeDeploymentSpec s) then Panic "GetDepSpecBytes called on uninitialized package"
  else Ok (scds_ChaincodeDeploymentSpec s).

Definition s_GetChaincodeData (ccpack : SignedCDSPackage) : res ChaincodeData :=
  match s_depSpec ccpack, s_datab ccpack, s_id ccpack with
  | Some depSpec, Some datab, Some id =>
      let instPolicy := match sDepSpec ccpack with Some s => scds_InstantiationPolicy s | None => [] end in
      cid ← chaincode_id depSpec;
      Ok (mkChaincodeData (cid_Name cid) (cid_Version cid) "" "" [] datab id instPolicy)
  | _, _, _ => Panic "GetChaincodeData called on uninitialized package"
  end.

Definition s_getCDSData (scds : SignedChaincodeDeploymentSpec) : res (bytes * bytes * SignedCDSData) :=
  cds ← unmarshal_ChaincodeDeploymentSpec (scds_ChaincodeDeploymentSpec scds);
  codeHash ← sha_Sum (cds_CodePackage cds);
  cid ← chaincode_id cds;
  metaDataHash ← sha_Sum (to_bytes (cid_Name cid) ++ to_bytes (cid_Version cid));
  if is_nil (scds_InstantiationPolicy scds) then Err "instantiation policy cannot be nil for chaincode"
  else
    signatureHash ← sha_Sum (scds_InstantiationPolicy scds ++ (scds_OwnerEndorsements scds ≫= end_Endorser));
    let scdsdata := mkSignedCDSData codeHash metaDataHash signatureHash in
    b ← marshal scdsdata;
    id ← sha_Sum (codeHash ++ metaDataHash ++ signatureHash);
    Ok (b, id, scdsdata).

Definition s_ValidateCC (ccpack : SignedCDSPackage) (ccdata : ChaincodeData) : res unit :=
  match sDepSpec ccpack with
  | None => Err "uninitialized package"
  | Some s =>
      if is_nil (scds_ChaincodeDeploymentSpec s) then Err "signed chaincode deployment spec cannot be nil in a package"
      else
        match s_depSpec ccpack with
        | None => Err "chaincode deployment spec cannot be nil in a package"
        | Some depSpec =>
            cid ← chaincode_id depSpec;
            if negb (bool_decide (cd_Name ccdata = cid_Name cid)) || negb (bool_decide (cd_Version ccdata = cid_Version cid))
            then Err "invalid chaincode data"
            else
              otherdata ← unmarshal_SignedCDSData (cd_Data ccdata);
              match s_data ccpack with
              | None => Panic "nil pointer dereference"
              | Some data => if decide (data = otherdata) then Ok tt else Err "data mismatch"
              end
        end
  end.

Definition s_InitFromBuffer (buf : bytes) : res SignedCDSPackage :=
  env ← or_fail "failed to unmarshal envelope from bytes" (unmarshal_Envelope buf);
  '(cHdr, sDepSpec) ← ExtractSignedCCDepSpec env;
  if negb (bool_decide (ch_Type cHdr = CHAINCODE_PACKAGE)) then Err "invalid type of envelope for chaincode package"
  else
    depSpec ← or_fail "error getting deployment spec" (unmarshal_ChaincodeDeploymentSpec (scds_ChaincodeDeploymentSpec sDepSpec));
    '(databytes, id, data) ← s_getCDSData sDepSpec;
    Ok (mkSignedCDSPackage (Some buf) (Some depSpec) (Some sDepSpec) (Some env) (Some data) (Some databytes) (Some id)).

Definition s_InitFromFS (fs : Files) (ccname ccversion : string) : res SignedCDSPackage :=
  buf ← GetChaincodePackage fs ccname ccversion;
  s_InitFromBuffer buf.

Definition s_PutChaincodeToFS (ccpack : SignedCDSPackage) (fs : Files) : res Files :=
  match s_buf ccpack, s_id ccpack, sDepSpec ccpack, s_depSpec ccpack, s_env ccpack, s_data ccpack, s_datab ccpack with
  | None, _, _, _, _, _, _ => Err "uninitialized package"
  | _, None, _, _, _, _, _ => Err "id cannot be nil if buf is not nil"
  | _, _, None, _, _, _, _ | _, _, _, None, _, _, _ => Err "depspec cannot be nil if buf is not nil"
  | _, _, _, _, None, _, _ => Err "env cannot be nil if buf and depspec are not nil"
  | _, _, _, _, _, None, _ => Err "nil data"
  | _, _, _, _, _, _, None => Err "nil data bytes"
  | Some buf, Some _, Some _, Some depSpec, Some _, Some _, Some _ => cid ← chaincode_id depSpec; put_file fs cid buf
  end.

(** *** ccprovider.go *)

(** A value of the interface [CCPackage]. *)
Inductive package := Raw (p : CDSPackage) | Signed (p : SignedCDSPackage).

Definition pack_GetDepSpec (p : package) : res ChaincodeDeploymentSpec :=
  match p with Raw p => GetDepSpec p | Signed p => s_GetDepSpec p end.
Definition pack_GetDepSpecBytes (p : package) : res bytes :=
  match p with Raw p => GetDepSpecBytes p | Signed p => s_GetDepSpecBytes p end.
Definition pack_GetChaincodeData (p : package) : res ChaincodeData :=
  match p with Raw p => GetChaincodeData p | Signed p => s_GetChaincodeData p end.
Definition pack_ValidateCC (p : package) (ccdata : ChaincodeData) : res unit :=
  match p with Raw p => ValidateCC p ccdata | Signed p => s_ValidateCC p ccdata end.
Definition pack_PutChaincodeToFS (p : package) (fs : Files) : res Files :=
  match p with Raw p => PutChaincodeToFS p fs | Signed p => s_PutChaincodeToFS p fs end.

(** A raw package, or else a signed one. *)
Definition raw_or_signed (raw : res CDSPackage) (signed : res SignedCDSPackage) : res package :=
  match raw with
  | Ok p => Ok (Raw p)
  | Err _ => p ← signed; Ok (Signed p)
  | Panic m => Panic m
  | OutOfFuel => OutOfFuel
  end.

Definition GetCCPackage (buf : bytes) : res package := raw_or_signed (InitFromBuffer buf) (s_InitFromBuffer buf).

Definition GetChaincodeFromFS (fs : Files) (ccname ccversion : string) : res package :=
  raw_or_signed (InitFromFS fs ccname ccversion) (s_InitFromFS fs ccname ccversion).

Definition PutChaincodeIntoFS (cds : ChaincodeDeploymentSpec) (fs : Files) : res Files :=
  buf ← marshal cds;
  p ← InitFromBuffer buf;
  PutChaincodeToFS p fs.

(** [strings.SplitN(_, ".", 2)] *)
Fixpoint split_dot (b : bytes) : option (bytes * bytes) :=
  match b with
  | [] => None
  | c :: b => if decide (c = "."%char) then Some ([], b) else '(x, y) ← split_dot b; Some (c :: x, y)
  end.

(** A file that is not the package its name says is skipped. *)
Definition installed_info (fs : Files) (file : string) : res (option ChaincodeInfo) :=
  match split_dot (to_bytes file) with
  | None => Ok None
  | Some (ccname, ccversion) =>
      match GetChaincodeFromFS fs (to_string ccname) (to_string ccversion) with
      | Err _ => Ok None
      | Panic m => Panic m
      | OutOfFuel => OutOfFuel
      | Ok ccpack =>
          cdsfs ← pack_GetDepSpec ccpack;
          cid ← chaincode_id cdsfs;
          if negb (bool_decide (cid_Name cid = to_string ccname)) || negb (bool_decide (cid_Version cid = to_string ccversion)) then Ok None
          else Ok (Some (mkChaincodeInfo (cid_Name cid) (cid_Version cid) "" ""))
      end
  end.

Fixpoint installed_infos (fs : Files) (files : list string) : res (list ChaincodeInfo) :=
  match files with
  | [] => Ok []
  | file :: files =>
      o ← installed_info fs file;
      l ← installed_infos fs files;
      Ok (match o with Some i => i :: l | None => l end)
  end.

(** The directory is read in the order of the file names. *)
Definition GetInstalledChaincodes (fs : Files) : res (list ChaincodeInfo) := installed_infos fs (GetSortedKeys fs).

(** *** ccinfocache.go *)

Definition cache_key (ccname ccversion : string) : string := ccname +:+ "/" +:+ ccversion.

Definition cache_GetChaincodeData (fs : Files) (ccname ccversion : string) : ST Cache ChaincodeData := fun cache =>
  match cache !! cache_key ccname ccversion with
  | Some ccdata => (cache, Ok ccdata)
  | None =>
      match GetChaincodeFromFS fs ccname ccversion with
      | Err e => (cache, Err ("cannot retrieve package for chaincode " +:+ ccname +:+ "/" +:+ ccversion +:+ ", error " +:+ e))
      | Panic m => (cache, Panic m)
      | OutOfFuel => (cache, OutOfFuel)
      | Ok ccpack =>
          match pack_GetChaincodeData ccpack with
          | Ok ccdata => (<[cache_key ccname ccversion := ccdata]> cache, Ok ccdata)
          | Err e => (cache, Err e)
          | Panic m => (cache, Panic m)
          | OutOfFuel => (cache, OutOfFuel)
          end
      end
  end.

(** Without the cache. *)
Definition GetChaincodeData_FS (fs : Files) (ccname ccversion : string) : res ChaincodeData :=
  ccpack ← GetChaincodeFromFS fs ccname ccversion;
  pack_GetChaincodeData ccpack.

(** A peer enables the cache. *)
Definition provider_GetChaincodeData (ccInfoCacheEnabled : bool) (fs : Files) (ccname ccversion : string) : ST Cache ChaincodeData :=
  if ccInfoCacheEnabled then cache_GetChaincodeData fs ccname ccversion
  else st_lift (GetChaincodeData_FS fs ccname ccversion).

(** The policy of the package, if it has one, is the one on the ledger. *)
Definition policy_matches (ccdata cdLedger : ChaincodeData) : res unit :=
  match cd_InstantiationPolicy ccdata with
  | [] => Ok tt
  | pol => if decide (pol = cd_InstantiationPolicy cdLedger) then Ok tt else Err "Instantiation policy mismatch"
  end.

Definition CheckInsantiationPolicy (ccInfoCacheEnabled : bool) (fs : Files) (name version : string) (cdLedger : ChaincodeData) : ST Cache unit :=
  ccdata ← provider_GetChaincodeData ccInfoCacheEnabled fs name version;
  st_lift (policy_matches ccdata cdLedger).

End CCProvider.
End CCProvider.
