(* ===== verification/Endorser.v ===== *)
(** * Proposals, endorsements and transactions

    protos/utils: how a client makes a proposal and, of the responses, a
    transaction; how a response is made.  core/scc/escc: the endorsement system
    chaincode.  core/endorser: the service that simulates a proposal and has it
    endorsed. *)

From stdpp Require Import base gmap strings list.
From Stdlib Require Import Ascii ZArith Lia.
From S2P Require Import Prelude Proto BlockHash CAuthDSL MsgValidation VSCC CCPackages.
Import ProtoUtils TxUtils MsgValidation SystemChaincodes.
Local Open Scope Z_scope.

(** ** Messages *)

(** The time stamp is never set. *)
Record ProposalResponse := mkProposalResponse {
  pr_Version : Z;
  pr_Response : option Response;
  pr_Payload : bytes;
  pr_Endorsement : option Endorsement
}.

Class ResponseCodec := {
  unmarshal_ProposalResponse : bytes -> res ProposalResponse;
  unmarshal_Response : bytes -> res Response;
  unmarshal_ChaincodeID : bytes -> res ChaincodeID
}.

(** ** protos/utils *)

Module TxCreation.
Section TxCreation.
Context `{ProtoCodec} `{SignatureCodec} `{TxCodec} `{CryptoHash}.
Context `{!Message Header} `{!Message ChannelHeader} `{!Message SignatureHeader} `{!Message Payload}
  `{!Message ChaincodeHeaderExtension} `{!Message ChaincodeInvocationSpec} `{!Message ChaincodeProposalPayload}
  `{!Message ChaincodeAction} `{!Message ProposalResponsePayload} `{!Message ChaincodeActionPayload}
  `{!Message Transaction} `{!Message Proposal}.

Definition GetHeader (b : bytes) : res Header := unmarshal_Header b.

Definition GetChaincodeProposalPayload (b : bytes) : res ChaincodeProposalPayload := unmarshal_ChaincodeProposalPayload b.

Definition GetChaincodeInvocationSpec (prop : Proposal) : res ChaincodeInvocationSpec :=
  GetHeader (prop_Header prop);;
  ccPropPayload ← unmarshal_ChaincodeProposalPayload (prop_Payload prop);
  unmarshal_ChaincodeInvocationSpec (cpp_Input ccPropPayload).

(** *** Proposals *)

(** The time of the clock is an argument. *)
Definition CreateChaincodeProposalWithTxIDNonceAndTransient (now : Z) (txid : string) (typ : HeaderType) (chainID : string)
    (cis : ChaincodeInvocationSpec) (nonce creator : bytes) (transientMap : gmap string bytes) : res (Proposal * string) :=
  match cis_ChaincodeSpec cis with
  | None => Panic "nil pointer dereference"
  | Some spec =>
      ccHdrExtBytes ← marshal (mkCHE None (spec_ChaincodeId spec));
      cisBytes ← marshal cis;
      ccPropPayloadBytes ← marshal (mkCPP cisBytes transientMap);
      chdr ← or_panic (marshal (mkChannelHeader typ now chainID txid 0 ccHdrExtBytes));
      shdr ← or_panic (marshal (mkSignatureHeader creator nonce));
      hdrBytes ← marshal (mkHeader chdr shdr);
      Ok (mkProposal hdrBytes ccPropPayloadBytes, txid)
  end.

(** [nonce] is the random nonce. *)
Definition CreateChaincodeProposalWithTransient (now : Z) (nonce : res bytes) (typ : HeaderType) (chainID : string)
    (cis : ChaincodeInvocationSpec) (creator : bytes) (transientMap : gmap string bytes) : res (Proposal * string) :=
  nonce ← nonce;
  txid ← ComputeProposalTxID nonce creator;
  CreateChaincodeProposalWithTxIDNonceAndTransient now txid typ chainID cis nonce creator transientMap.

Definition CreateChaincodeProposal (now : Z) (nonce : res bytes) (typ : HeaderType) (chainID : string)
    (cis : ChaincodeInvocationSpec) (creator : bytes) : res (Proposal * string) :=
  CreateChaincodeProposalWithTransient now nonce typ chainID cis creator ∅.

Definition lscc_proposal (now : Z) (nonce : res bytes) (chainID : string) (args : list bytes) (creator : bytes) :
    res (Proposal * string) :=
  CreateChaincodeProposal now nonce ENDORSER_TRANSACTION chainID
    (mkCIS (Some (mkChaincodeSpec GOLANG (Some (mkChaincodeID "lscc" "")) (Some args)))) creator.

(** [createProposalFromCDS] for the operations "deploy" and "upgrade"; [cds] is
    the marshalled deployment specification. *)
Definition createProposalFromCDS (now : Z) (nonce : res bytes) (chainID : string) (cds : res bytes) (creator policy escc vscc : bytes)
    (propType : string) : res (Proposal * string) :=
  b ← cds;
  lscc_proposal now nonce chainID [to_bytes propType; to_bytes chainID; b; policy; escc; vscc] creator.

Definition CreateDeployProposalFromCDS (now : Z) (nonce : res bytes) (chainID : string) (cds : res bytes)
    (creator policy escc vscc : bytes) : res (Proposal * string) :=
  createProposalFromCDS now nonce chainID cds creator policy escc vscc "deploy".

Definition CreateUpgradeProposalFromCDS (now : Z) (nonce : res bytes) (chainID : string) (cds : res bytes)
    (creator policy escc vscc : bytes) : res (Proposal * string) :=
  createProposalFromCDS now nonce chainID cds creator policy escc vscc "upgrade".

Definition CreateInstallProposalFromCDS (now : Z) (nonce : res bytes) (ccpack : res bytes) (creator : bytes) : res (Proposal * string) :=
  b ← ccpack;
  lscc_proposal now nonce "" [to_bytes "install"; b] creator.

Definition GetSignedProposal (prop : Proposal) (signer : SigningIdentity) : res SignedProposal :=
  propBytes ← marshal prop;
  signature ← Sign signer propBytes;
  Ok (mkSignedProposal propBytes signature).

(** *** Responses *)

(** The transient data are left out. *)
Definition GetBytesProposalPayloadForTx (payload : ChaincodeProposalPayload) : res bytes :=
  or_fail "Failure while marshalling the ChaincodeProposalPayload!" (marshal (mkCPP (cpp_Input payload) ∅)).

(** [ccPropPayl] may be nil. *)
Definition GetProposalHash1 (header : Header) (ccPropPayl : option bytes) : res bytes :=
  match ccPropPayl with
  | None => Err "Nil arguments"
  | Some ccPropPayl =>
  if is_nil (hdr_ChannelHeader header) || is_nil (hdr_SignatureHeader header) then Err "Nil arguments"
  else
    cpp ← or_fail "Failure while unmarshalling the ChaincodeProposalPayload!" (unmarshal_ChaincodeProposalPayload ccPropPayl);
    ppBytes ← GetBytesProposalPayloadForTx cpp;
    bccsp_Hash (hdr_ChannelHeader header ++ hdr_SignatureHeader header ++ ppBytes)
  end.

Definition GetBytesProposalResponsePayload (hash : bytes) (response : option Response) (result event : bytes) (ccid : option ChaincodeID) :
    res bytes :=
  cActBytes ← marshal (mkCA result event response ccid);
  marshal (mkPRP hash (Some cActBytes)).

Definition response_payload (hdrbytes : bytes) (payl : option bytes) (response : option Response) (results events : bytes) (ccid : option ChaincodeID) :
    res bytes :=
  hdr ← GetHeader hdrbytes;
  pHashBytes ← match GetProposalHash1 hdr payl with Err e => Err ("Could not compute proposal hash: err " +:+ e) | r => r end;
  or_fail "Failure while marshaling the ProposalResponsePayload"
    (GetBytesProposalResponsePayload pHashBytes response results events ccid).

Definition CreateProposalResponse (hdrbytes : bytes) (payl : option bytes) (response : option Response) (results events : bytes)
    (ccid : option ChaincodeID) (signingEndorser : SigningIdentity) : res ProposalResponse :=
  prpBytes ← response_payload hdrbytes payl response results events ccid;
  endorser ← match Serialize signingEndorser with Err e => Err ("Could not serialize the signing identity, err " +:+ e) | r => r end;
  signature ← match Sign signingEndorser (prpBytes ++ endorser) with
              | Err e => Err ("Could not sign the proposal response payload, err " +:+ e) | r => r end;
  Ok (mkProposalResponse 1 (Some (mkResponse 200 "OK" [])) prpBytes (Some (mkEndorsement endorser signature))).

Definition CreateProposalResponseFailure (hdrbytes : bytes) (payl : option bytes) (response : option Response) (results events : bytes)
    (ccid : option ChaincodeID) : res ProposalResponse :=
  prpBytes ← response_payload hdrbytes payl response results events ccid;
  Ok (mkProposalResponse 0 (Some (mkResponse 500 "Chaincode Error" [])) prpBytes None).

(** *** Transactions *)

(** The loop over the responses after the first. *)
Fixpoint same_payloads (a1 : bytes) (resps : list ProposalResponse) : res unit :=
  match resps with
  | [] => Ok tt
  | r :: resps => if decide (a1 = pr_Payload r) then same_payloads a1 resps else Err "ProposalResponsePayloads do not match"
  end.

(** Of the first response also the status is checked. *)
Definition check_responses (r0 : ProposalResponse) (resps : list ProposalResponse) : res unit :=
  match pr_Response r0 with
  | None => Panic "nil pointer dereference"
  | Some response =>
      if negb (resp_Status response =? 200) then Err "Proposal response was not successful"
      else same_payloads (pr_Payload r0) resps
  end.

(** A nil endorsement cannot be marshalled. *)
Definition endorsements_of (resps : list ProposalResponse) : res (list Endorsement) :=
  match mapM pr_Endorsement resps with
  | Some es => Ok es
  | None => Err "proto: repeated field Endorsements has nil element"
  end.

Definition CreateSignedTx (proposal : Proposal) (signer : SigningIdentity) (resps : list ProposalResponse) : res Envelope :=
  match resps with
  | [] => Err "At least one proposal response is necessary"
  | r0 :: rest =>
      hdr ← or_fail "Could not unmarshal the proposal header" (GetHeader (prop_Header proposal));
      pPayl ← or_fail "Could not unmarshal the proposal payload" (GetChaincodeProposalPayload (prop_Payload proposal));
      signerBytes ← Serialize signer;
      shdr ← GetSignatureHeader (hdr_SignatureHeader hdr);
      if negb (bool_decide (signerBytes = sh_Creator shdr))
      then Err "The signer needs to be the same as the one referenced in the header"
      else
        hdrExt ← GetChaincodeHeaderExtension hdr;
        check_responses r0 rest;;
        propPayloadBytes ← GetBytesProposalPayloadForTx pPayl;
        endorsements ← endorsements_of resps;
        capBytes ← marshal (mkCAP propPayloadBytes (Some (mkCEA (Some (pr_Payload r0)) endorsements)));
        txBytes ← marshal (mkTransaction [mkTransactionAction (hdr_SignatureHeader hdr) capBytes]);
        paylBytes ← marshal (mkPayload (Some hdr) txBytes);
        sig ← Sign signer paylBytes;
        Ok (mkEnvelope paylBytes sig)
  end.

End TxCreation.
End TxCreation.

(** ** shim: responses of a chaincode *)

Definition OK : Z := 200.
Definition ERRORTHRESHOLD : Z := 400.
Definition ERROR : Z := 500.

Definition shim_Success (payload : bytes) : Response := mkResponse OK "" payload.
Definition shim_Error (msg : string) : Response := mkResponse ERROR msg [].

(** ** core/scc/escc *)

Module ESCC.
Import TxCreation.
Section ESCC.
Context `{ProtoCodec} `{SignatureCodec} `{TxCodec} `{CryptoHash} `{ResponseCodec}.
Context `{!Message ChaincodeProposalPayload} `{!Message ChaincodeAction} `{!Message ProposalResponsePayload}
  `{!Message ProposalResponse}.

(** [mspmgmt.GetLocalMSP().GetDefaultSigningIdentity()] *)
Context (signingIdentity : res SigningIdentity).

(** An argument that is not nil. *)
Definition argument (args : list (option bytes)) (i : nat) (m : string) : res bytes :=
  match args !! i with
  | Some (Some b) => Ok b
  | Some None => Err m
  | None => Panic "index out of range"
  end.

(** [Invoke] after the check of the number of arguments; an error is an error
    response. *)
Definition endorse (args : list (option bytes)) : res bytes :=
  hdr ← argument args 1 "serialized Header object is null";
  payl ← argument args 2 "serialized ChaincodeProposalPayload object is null";
  ccid ← argument args 3 "ChaincodeID is null";
  ccid ← match unmarshal_ChaincodeID ccid with Err e => Err ("UnmarshalChaincodeID failed, err " +:+ e) | r => r end;
  response ← argument args 4 "Response of chaincode executing is null";
  response ← match unmarshal_Response response with
             | Err e => Err ("Failed to get Response of executing chaincode: " +:+ e) | r => r end;
  if ERRORTHRESHOLD <=? resp_Status response then Err "Status code less than 400 will be endorsed"
  else
    results ← argument args 5 "simulation results are null";
    let events := match args !! 6%nat with Some (Some e) => e | _ => [] end in
    signingEndorser ← match signingIdentity with
                      | Err e => Err ("Could not obtain the default signing identity, err " +:+ e) | r => r end;
    presp ← CreateProposalResponse hdr (Some payl) (Some response) results events (Some ccid) signingEndorser;
    prBytes ← match marshal presp with Err e => Err ("Could not marshal ProposalResponse: err " +:+ e) | r => r end;
    unmarshal_ProposalResponse prBytes;;
    Ok prBytes.

Definition Invoke (args : list (option bytes)) : res Response :=
  if (length args <? 6)%nat then Ok (shim_Error "Incorrect number of arguments (expected a minimum of 5)")
  else if (8 <? length args)%nat then Ok (shim_Error "Incorrect number of arguments (expected a maximum of 7)")
  else
    match endorse args with
    | Ok prBytes => Ok (shim_Success prBytes)
    | Err e => Ok (shim_Error e)
    | Panic m => Panic m
    | OutOfFuel => OutOfFuel
    end.

End ESCC.
End ESCC.

(** ** core/endorser *)

Module Endorser.
Import TxCreation CCProvider.

(** The peer around the service: its ledgers; the simulators, a state that the
    execution of chaincodes changes; the execution of a chaincode of a channel
    by name and version; starting a chaincode that is deployed; the packages of
    the chaincodes that are installed; the access control of the channels. *)
Record Peer := mkPeer {
  Ledger : Type;
  Sim : Type;
  Event : Type;
  GetLedger : string -> option Ledger;
  GetTransactionByID : Ledger -> string -> res Envelope;
  NewTxSimulator : Ledger -> res Sim;
  NewHistoryQueryExecutor : Ledger -> res unit;
  GetTxSimulationResults : ST Sim bytes;
  ExecuteChaincode : string -> string -> string -> list bytes -> ST (option Sim) (Response * option Event);
  Execute : string -> ChaincodeID -> ST (option Sim) unit;
  installed : string -> string -> res ChaincodeData;
  CheckPolicy : string -> SignedProposal -> res unit;
  marshal_Event : Event -> res bytes;
  SysCCVersion : string
}.

Section Endorser.
Context `{ProtoCodec} `{SignatureCodec} `{TxCodec} `{CryptoHash} `{ResponseCodec} `{MSPManagers} `{PackageCodec}.
Context `{!Message ChaincodeProposalPayload} `{!Message ChaincodeAction} `{!Message ProposalResponsePayload}
  `{!Message Response} `{!Message ChaincodeID} `{!Message ChaincodeDeploymentSpec} `{!Message CDSData} `{!Message SignedCDSData}.
Context (peer : Peer).

#[local] Abbreviation SimST := (ST (option (Sim peer))).

(** [cis.ChaincodeSpec.Input.Args] *)
Definition args_of (cis : ChaincodeInvocationSpec) : res (list bytes) :=
  match cis_ChaincodeSpec cis with
  | Some (mkChaincodeSpec _ _ (Some args)) => Ok args
  | _ => Panic "nil pointer dereference"
  end.

(** A deployment also starts the chaincode, unless its name is that of a system
    chaincode. *)
Definition start_deployed (chainID : string) (args : list bytes) : SimST unit :=
  match args with
  | f :: _ :: code :: _ =>
      if bool_decide (f = to_bytes "deploy") || bool_decide (f = to_bytes "upgrade") then
        cds ← st_lift (GetChaincodeDeploymentSpec code);
        match cds_ChaincodeSpec cds with
        | Some (mkChaincodeSpec _ (Some cc) _) =>
            if IsSysCC (cid_Name cc) then st_lift (Err ("attempting to deploy a system chaincode " +:+ cid_Name cc))
            else Execute peer chainID cc
        | _ => st_lift (Panic "nil pointer dereference")
        end
      else mret tt
  | _ => mret tt
  end.

Definition callChaincode (chainID version : string) (cis : ChaincodeInvocationSpec) (cid : ChaincodeID) :
    SimST (Response * option (Event peer)) :=
  args ← st_lift (args_of cis);
  '(r, ccevent) ← ExecuteChaincode peer chainID (cid_Name cid) version args;
  if ERRORTHRESHOLD <=? resp_Status r then mret (r, None)
  else
    (if decide (cid_Name cid = "lscc") then start_deployed chainID args else mret tt);;
    mret (r, ccevent).

(** A package of a Java chaincode. *)
Definition is_java (code : bytes) : res bool :=
  ccpack ← GetCCPackage code;
  cds ← pack_GetDepSpec ccpack;
  match cds_ChaincodeSpec cds with
  | None => Panic "nil pointer dereference"
  | Some spec => Ok (spec_Type spec =? JAVA)
  end.

Definition disableJavaCCInst (cid : ChaincodeID) (cis : ChaincodeInvocationSpec) : res unit :=
  if negb (bool_decide (cid_Name cid = "lscc")) then Ok tt
  else
    match cis_ChaincodeSpec cis with
    | Some (mkChaincodeSpec _ _ (Some (f :: args))) =>
        let pack (argNo : nat) :=
          match (f :: args) !! argNo with
          | None => Err "Too few arguments passed"
          | Some code => java ← is_java code;
                         if (java : bool) then Err "Java chaincode is work-in-progress and disabled" else Ok tt
          end in
        if bool_decide (f = to_bytes "install") then pack 1%nat
        else if bool_decide (f = to_bytes "deploy") || bool_decide (f = to_bytes "upgrade") then pack 2%nat
        else Ok tt
    | _ => Ok tt
    end.

(** core/chaincode: asks lscc. *)
Definition GetChaincodeDataFromLSCC (chainID chaincodeID : string) : SimST ChaincodeData :=
  '(r, _) ← ExecuteChaincode peer chainID "lscc" (SysCCVersion peer) [to_bytes "getccdata"; to_bytes chainID; to_bytes chaincodeID];
  st_lift (if negb (resp_Status r =? OK) then Err (resp_Message r) else unmarshal_ChaincodeData (resp_Payload r)).

(** The data of a chaincode that is not a system chaincode, and the version. *)
Definition chaincode_version (chainID : string) (cid : ChaincodeID) : SimST (option ChaincodeData * string) :=
  if negb (IsSysCC (cid_Name cid)) then
    fun s =>
      match GetChaincodeDataFromLSCC chainID (cid_Name cid) s with
      | (s, Ok cd) =>
          (s, ccdata ← installed peer (cid_Name cid) (cd_Version cd);
              policy_matches ccdata cd;;
              Ok (Some cd, cd_Version cd))
      | (s, Err e) => (s, Err (e +:+ " - make sure the chaincode has been successfully instantiated and try again"))
      | (s, Panic m) => (s, Panic m)
      | (s, OutOfFuel) => (s, OutOfFuel)
      end
  else mret (None, SysCCVersion peer).

(** Nil without a simulator. *)
Definition simulation_results : SimST (option bytes) := fun s =>
  match s with
  | None => (None, Ok None)
  | Some sim => let '(sim, r) := GetTxSimulationResults peer sim in (Some sim, b ← r; Ok (Some b))
  end.

(** The data of the chaincode ([None] for a system chaincode), its response, the
    results and its event. *)
Definition simulateProposal (chainID : string) (prop : Proposal) (cid : ChaincodeID) :
    SimST (option ChaincodeData * Response * option bytes * option (Event peer)) :=
  cis ← st_lift (GetChaincodeInvocationSpec prop);
  st_lift (disableJavaCCInst cid cis);;
  '(cdLedger, version) ← chaincode_version chainID cid;
  '(r, ccevent) ← callChaincode chainID version cis cid;
  simResult ← simulation_results;
  mret (cdLedger, r, simResult, ccevent).

(** The arguments of the endorsement system chaincode; arguments that are nil
    reach it as empty ones. *)
Definition escc_args (proposal : Proposal) (ccidBytes resBytes simRes eventBytes visibility : bytes) : list bytes :=
  [[]; prop_Header proposal; prop_Payload proposal; ccidBytes; resBytes; simRes; eventBytes; visibility].

Definition endorseProposal (chainID : string) (proposal : Proposal) (response : Response) (simRes : option bytes)
    (event : option (Event peer)) (visibility : option bytes) (ccid : ChaincodeID) (cd : option ChaincodeData) : SimST ProposalResponse :=
  escc ← st_lift match cd with
                 | None => Ok "escc"
                 | Some cd => if decide (cd_Escc cd = "") then Panic "No ESCC specified in ChaincodeData" else Ok (cd_Escc cd)
                 end;
  eventBytes ← st_lift match event with
                       | None => Ok []
                       | Some e => match marshal_Event peer e with Err m => Err ("failed to marshal event bytes - " +:+ m) | r => r end
                       end;
  resBytes ← st_lift match marshal response with Err m => Err ("failed to marshal response bytes - " +:+ m) | r => r end;
  let version := match cd with None => SysCCVersion peer | Some cd => cd_Version cd end in
  ccidBytes ← st_lift match marshal (mkChaincodeID (cid_Name ccid) version) with
                      | Err m => Err ("failed to marshal ChaincodeID - " +:+ m) | r => r end;
  let args := escc_args proposal ccidBytes resBytes (default [] simRes) eventBytes (default [] visibility) in
  let ecccis := mkCIS (Some (mkChaincodeSpec GOLANG (Some (mkChaincodeID escc "")) (Some args))) in
  '(r, _) ← callChaincode chainID (SysCCVersion peer) ecccis (mkChaincodeID escc "");
  if ERRORTHRESHOLD <=? resp_Status r then mret (mkProposalResponse 0 (Some r) [] None)
  else st_lift (unmarshal_ProposalResponse (resp_Payload r)).

(** The response that goes with an error, and the error. *)
Definition outcome : Type := option ProposalResponse * option string.

Definition failed (e : string) : outcome := (Some (mkProposalResponse 0 (Some (mkResponse 500 e [])) [] None), Some e).

Definition or_failed {A} (r : res A) (k : A -> res outcome) : res outcome :=
  match r with
  | Ok a => k a
  | Err e => Ok (failed e)
  | Panic m => Panic m
  | OutOfFuel => OutOfFuel
  end.

(** A chaincode that answers with an error. *)
Definition chaincode_failure (prop : Proposal) (hdrExt : ChaincodeHeaderExtension) (r : Response) (simResult : option bytes)
    (ccevent : option (Event peer)) : res outcome :=
  match (match ccevent with None => Ok [] | Some e => marshal_Event peer e end) with
  | Err e => Ok (None, Some ("failed to marshal event bytes - " +:+ e))
  | Panic m => Panic m
  | OutOfFuel => OutOfFuel
  | Ok cceventBytes =>
      or_failed (CreateProposalResponseFailure (prop_Header prop) (if is_nil (prop_Payload prop) then None else Some (prop_Payload prop))
                   (Some r) (default [] simResult) cceventBytes (che_ChaincodeId hdrExt)) (fun pResp =>
      Ok (Some pResp, Some ("chaincode error (message: " +:+ resp_Message r +:+ ")")))
  end.

(** [pResp.Response.Payload = res.Payload] *)
Definition with_payload (pResp : ProposalResponse) (payload : bytes) : res outcome :=
  match pr_Response pResp with
  | None => Panic "nil pointer dereference"
  | Some r => Ok (Some (mkProposalResponse (pr_Version pResp) (Some (mkResponse (resp_Status r) (resp_Message r) payload))
                          (pr_Payload pResp) (pr_Endorsement pResp)), None)
  end.

(** Simulating and endorsing a proposal that was admitted; [txsim] is nil
    without a channel. *)
Definition simulate_and_endorse (chainID : string) (prop : Proposal) (hdrExt : ChaincodeHeaderExtension) (cid : ChaincodeID)
    (txsim : option (Sim peer)) : res outcome :=
  let '(txsim, r) := simulateProposal chainID prop cid txsim in
  or_failed r (fun '(cd, r, simulationResult, ccevent) =>
  if ERROR <=? resp_Status r then chaincode_failure prop hdrExt r simulationResult ccevent
  else if decide (chainID = "") then with_payload (mkProposalResponse 0 (Some r) [] None) (resp_Payload r)
  else
    let '(_, e) := endorseProposal chainID prop r simulationResult ccevent (che_PayloadVisibility hdrExt) cid cd txsim in
    or_failed e (fun pResp =>
    if ERRORTHRESHOLD <=? resp_Status r
    then Ok (Some pResp, Some ("chaincode error (message: " +:+ resp_Message r +:+ ")"))
    else with_payload pResp (resp_Payload r))).

(** A proposal for a channel: it is new and its creator may write. *)
Definition check_channel (signedProp : SignedProposal) (chainID txid : string) (cid : ChaincodeID) (k : Ledger peer -> res outcome) : res outcome :=
  match GetLedger peer chainID with
  | None => Ok (None, Some ("failure while looking up the ledger " +:+ chainID))
  | Some lgr =>
      match GetTransactionByID peer lgr txid with
      | Ok _ => Ok (None, Some ("Duplicate transaction found [" +:+ txid +:+ "]"))
      | Panic m => Panic m
      | OutOfFuel => OutOfFuel
      | Err _ => or_failed (if negb (IsSysCC (cid_Name cid)) then CheckPolicy peer chainID signedProp else Ok tt) (fun _ => k lgr)
      end
  end.

Definition ProcessProposal (signedProp : SignedProposal) : res outcome :=
  or_failed (ValidateProposalMessage signedProp) (fun '(prop, hdr, hdrExt) =>
  or_failed (UnmarshalChannelHeader (hdr_ChannelHeader hdr)) (fun chdr =>
  or_failed (GetSignatureHeader (hdr_SignatureHeader hdr)) (fun shdr =>
  match che_ChaincodeId hdrExt with
  | None => Panic "nil pointer dereference"
  | Some cid =>
      let chainID := ch_ChannelId chdr in
      if IsSysCCAndNotInvokableExternal (cid_Name cid)
      then Ok (failed ("Chaincode " +:+ cid_Name cid +:+ " cannot be invoked through a proposal"))
      else if decide (ch_TxId chdr = "") then Ok (failed "Invalid txID. It must be different from the empty string.")
      else if decide (chainID = "") then simulate_and_endorse chainID prop hdrExt cid None
      else
        check_channel signedProp chainID (ch_TxId chdr) cid (fun lgr =>
        or_failed (NewTxSimulator peer lgr) (fun txsim =>
        or_failed (NewHistoryQueryExecutor peer lgr) (fun _ =>
        simulate_and_endorse chainID prop hdrExt cid (Some txsim))))
  end))).

End Endorser.
End Endorser.
