(* ===== verification/EndorserFacts.v ===== *)
(** * Transactions that were endorsed are valid

    What the endorser signs, what a client makes of the responses, and that the
    peers find it valid. *)

From stdpp Require Import base gmap strings list.
From Stdlib Require Import Ascii ZArith Lia.
From S2P Require Import Prelude RWSet Proto Validator BlockHash CAuthDSL ConfigTx MsgValidation VSCC TxValidator TxValidatorFacts CCPackages Endorser.
Import ProtoUtils RWSetUtil Flags TxUtils MsgValidation SystemChaincodes.
Local Open Scope Z_scope.

Module EndorserFacts.
Import EndorsementFacts TxCreation Endorser.

(** A status is an int32. *)
Definition status_ok (r : Response) : Prop := - 2 ^ 31 <= resp_Status r < 2 ^ 31.

Section Facts.
Context `{ProtoCodec} `{SignatureCodec} `{TxCodec} `{CryptoHash} `{ResponseCodec} `{MSPManagers} `{PackageCodec}.
Context `{!Message Header} `{!Message ChannelHeader} `{!Message SignatureHeader} `{!Message Payload}
  `{!Message ChaincodeHeaderExtension} `{!Message ChaincodeInvocationSpec} `{!Message ChaincodeProposalPayload}
  `{!Message ChaincodeAction} `{!Message ProposalResponsePayload} `{!Message ChaincodeActionPayload}
  `{!Message Transaction} `{!Message Proposal} `{!Message Response} `{!Message ChaincodeID} `{!Message ProposalResponse}
  `{!Message Envelope} `{!Message ChaincodeDeploymentSpec} `{!Message CDSData} `{!Message SignedCDSData}.

(** The messages of a transaction. *)
Class TxMessages : Prop := {
  header_spec : MessageSpec Header unmarshal_Header (mkHeader [] []) (fun _ => True);
  channel_header_spec : MessageSpec ChannelHeader unmarshal_ChannelHeader (mkChannelHeader MESSAGE 0 "" "" 0 [])
    (fun h => ch_Type h = ENDORSER_TRANSACTION /\ ch_Epoch h = 0);
  signature_header_spec : MessageSpec SignatureHeader unmarshal_SignatureHeader (mkSignatureHeader [] []) (fun _ => True);
  payload_spec : MessageSpec Payload unmarshal_Payload (mkPayload None []) (fun _ => True);
  extension_spec : MessageSpec ChaincodeHeaderExtension unmarshal_ChaincodeHeaderExtension (mkCHE None None)
    (fun e => che_PayloadVisibility e = None);
  invocation_spec : MessageSpec ChaincodeInvocationSpec unmarshal_ChaincodeInvocationSpec (mkCIS None) (fun _ => True);
  proposal_payload_spec : MessageSpec ChaincodeProposalPayload unmarshal_ChaincodeProposalPayload (mkCPP [] ∅) (fun _ => True);
  action_spec : MessageSpec ChaincodeAction unmarshal_ChaincodeAction (mkCA [] [] None None)
    (fun a => forall r, ca_Response a = Some r -> status_ok r);
  response_payload_spec : MessageSpec ProposalResponsePayload unmarshal_ProposalResponsePayload (mkPRP [] None)
    (fun p => prp_Extension p <> Some []);
  action_payload_spec : MessageSpec ChaincodeActionPayload unmarshal_ChaincodeActionPayload (mkCAP [] None)
    (fun c => forall a, cap_Action c = Some a -> cea_ProposalResponsePayload a <> Some []);
  transaction_spec : MessageSpec Transaction unmarshal_Transaction (mkTransaction []) (fun _ => True);
  proposal_spec : MessageSpec Proposal unmarshal_Proposal (mkProposal [] []) (fun _ => True);
  response_spec : MessageSpec Response unmarshal_Response (mkResponse 0 "" []) status_ok;
  chaincode_id_spec : MessageSpec ChaincodeID unmarshal_ChaincodeID (mkChaincodeID "" "") (fun _ => True);
  proposal_response_spec : MessageSpec ProposalResponse unmarshal_ProposalResponse (mkProposalResponse 0 None [] None)
    (fun p => forall r, pr_Response p = Some r -> status_ok r);
  envelope_spec : MessageSpec Envelope unmarshal_Envelope (mkEnvelope [] []) (fun _ => True);
  unmarshal_status b r : unmarshal_Response b = Ok r -> status_ok r
}.

Lemma unmarshal_marshal {T} `{M : Message T} un zero proper (S : MessageSpec T un zero proper) t b :
  proper t -> marshal t = Ok b -> un b = Ok t.
Proof. intros Hp E. destruct (marshal_roundtrip (T := T) t Hp) as (b' & E' & Hu). rewrite E in E'. by injection E' as <-. Qed.

Lemma marshal_cons {T} `{M : Message T} un zero proper (S : MessageSpec T un zero proper) t b :
  proper t -> t <> zero -> marshal t = Ok b -> is_nil b = false.
Proof. intros Hp Hz E. destruct b; [|done]. by destruct Hz; apply (marshal_empty (T := T) t). Qed.

Context `{!TxMessages}.
#[local] Existing Instances header_spec channel_header_spec signature_header_spec payload_spec extension_spec invocation_spec
  proposal_payload_spec action_spec response_payload_spec action_payload_spec transaction_spec proposal_spec response_spec
  chaincode_id_spec proposal_response_spec envelope_spec.

(** *** A proposal *)

Record proposed (ch : string) (creator nonce : bytes) (tm : gmap string bytes) (cis : ChaincodeInvocationSpec) (prop : Proposal)
    (chdr : ChannelHeader) (hdr : Header) (cisBytes : bytes) : Prop := {
  pp_spec : exists spec ext, cis_ChaincodeSpec cis = Some spec /\ marshal (mkCHE None (spec_ChaincodeId spec)) = Ok ext /\ ch_Extension chdr = ext;
  pp_cis : marshal cis = Ok cisBytes;
  pp_payload : marshal (mkCPP cisBytes tm) = Ok (prop_Payload prop);
  pp_type : ch_Type chdr = ENDORSER_TRANSACTION;
  pp_epoch : ch_Epoch chdr = 0;
  pp_channel : ch_ChannelId chdr = ch;
  pp_txid : ComputeProposalTxID nonce creator = Ok (ch_TxId chdr);
  pp_chdr : marshal chdr = Ok (hdr_ChannelHeader hdr);
  pp_shdr : marshal (mkSignatureHeader creator nonce) = Ok (hdr_SignatureHeader hdr);
  pp_hdr : marshal hdr = Ok (prop_Header prop)
}.

#[global] Arguments pp_spec {ch creator nonce tm cis prop chdr hdr cisBytes} _.
#[global] Arguments pp_cis {ch creator nonce tm cis prop chdr hdr cisBytes} _.
#[global] Arguments pp_payload {ch creator nonce tm cis prop chdr hdr cisBytes} _.
#[global] Arguments pp_type {ch creator nonce tm cis prop chdr hdr cisBytes} _.
#[global] Arguments pp_epoch {ch creator nonce tm cis prop chdr hdr cisBytes} _.
#[global] Arguments pp_channel {ch creator nonce tm cis prop chdr hdr cisBytes} _.
#[global] Arguments pp_txid {ch creator nonce tm cis prop chdr hdr cisBytes} _.
#[global] Arguments pp_chdr {ch creator nonce tm cis prop chdr hdr cisBytes} _.
#[global] Arguments pp_shdr {ch creator nonce tm cis prop chdr hdr cisBytes} _.
#[global] Arguments pp_hdr {ch creator nonce tm cis prop chdr hdr cisBytes} _.

Lemma or_panic_Ok {A} (r : res A) a : or_panic r = Ok a -> r = Ok a.
Proof. by destruct r. Qed.

Lemma create_proposed now nonce ch cis creator tm prop txid :
  CreateChaincodeProposalWithTransient now (Ok nonce) ENDORSER_TRANSACTION ch cis creator tm = Ok (prop, txid) ->
  exists chdr hdr cisBytes, proposed ch creator nonce tm cis prop chdr hdr cisBytes.
Proof.
  intros E. unfold CreateChaincodeProposalWithTransient in E. rewrite res_ret_bind in E. apply res_bind_Ok in E as (id & Eid & E).
  unfold CreateChaincodeProposalWithTxIDNonceAndTransient in E. destruct (cis_ChaincodeSpec cis) as [spec|] eqn:Es; [|done].
  apply res_bind_Ok in E as (ext & Eext & E). apply res_bind_Ok in E as (cisB & Ecis & E). apply res_bind_Ok in E as (cppB & Ecpp & E).
  apply res_bind_Ok in E as (chB & Ech%or_panic_Ok & E). apply res_bind_Ok in E as (shB & Esh%or_panic_Ok & E).
  apply res_bind_Ok in E as (hB & Eh & E). injection E as <- <-.
  exists (mkChannelHeader ENDORSER_TRANSACTION now ch id 0 ext), (mkHeader chB shB), cisB. split; try done. by exists spec, ext.
Qed.

Section Proposal.
Context {ch : string} {creator nonce : bytes} {tm : gmap string bytes} {cis : ChaincodeInvocationSpec} {prop : Proposal}
  {chdr : ChannelHeader} {hdr : Header} {cisBytes : bytes}.
Context (P : proposed ch creator nonce tm cis prop chdr hdr cisBytes).

Lemma proposal_header : GetHeader (prop_Header prop) = Ok hdr.
Proof. by apply (unmarshal_marshal _ _ _ header_spec _ _ I), P. Qed.

Lemma proposal_channel_header : UnmarshalChannelHeader (hdr_ChannelHeader hdr) = Ok chdr.
Proof.
  unfold UnmarshalChannelHeader. rewrite (unmarshal_marshal _ _ _ channel_header_spec chdr); [done| |apply P].
  split; apply P.
Qed.

Lemma proposal_signature_header : GetSignatureHeader (hdr_SignatureHeader hdr) = Ok (mkSignatureHeader creator nonce).
Proof. by apply (unmarshal_marshal _ _ _ signature_header_spec _ _ I), P. Qed.

Lemma proposal_payload : unmarshal_ChaincodeProposalPayload (prop_Payload prop) = Ok (mkCPP cisBytes tm).
Proof. by apply (unmarshal_marshal _ _ _ proposal_payload_spec _ _ I), P. Qed.

Lemma proposal_invocation : unmarshal_ChaincodeInvocationSpec cisBytes = Ok cis.
Proof. by apply (unmarshal_marshal _ _ _ invocation_spec _ _ I), P. Qed.

Lemma proposal_extension : exists spec, cis_ChaincodeSpec cis = Some spec /\
  GetChaincodeHeaderExtension hdr = Ok (mkCHE None (spec_ChaincodeId spec)).
Proof.
  destruct (pp_spec P) as (spec & ext & Hs & He & Hx). exists spec. split; [done|].
  unfold GetChaincodeHeaderExtension. rewrite proposal_channel_header, res_ret_bind, Hx.
  by apply (unmarshal_marshal _ _ _ extension_spec).
Qed.

Lemma proposal_channel_nonempty : is_nil (hdr_ChannelHeader hdr) = false.
Proof.
  apply (marshal_cons _ _ _ channel_header_spec chdr); [split; apply P| |apply P].
  intros E. pose proof (pp_type P) as Ht. by rewrite E in Ht.
Qed.

Lemma proposal_invocation_nonempty : is_nil cisBytes = false.
Proof.
  apply (marshal_cons _ _ _ invocation_spec cis _ I); [|apply P].
  destruct (pp_spec P) as (spec & ext & Hs & _). intros E. by rewrite E in Hs.
Qed.

Context (Hcreator : creator <> []).

Lemma proposal_signature_nonempty : is_nil (hdr_SignatureHeader hdr) = false.
Proof.
  apply (marshal_cons _ _ _ signature_header_spec (mkSignatureHeader creator nonce) _ I); [|apply P]. intros E. by injection E.
Qed.

(** The payload that goes to the transaction. *)
Lemma proposal_tx_payload ppBytes : marshal (mkCPP cisBytes ∅) = Ok ppBytes -> is_nil ppBytes = false.
Proof.
  intros E. apply (marshal_cons _ _ _ proposal_payload_spec _ _ I) in E; [done|]. intros [=Ez]. pose proof proposal_invocation_nonempty as Hn. by rewrite Ez in Hn.
Qed.

(** The response carries the hash that the peers compute. *)
Lemma proposal_response response results events ccid prp :
  status_ok response ->
  response_payload (prop_Header prop) (Some (prop_Payload prop)) (Some response) results events (Some ccid) = Ok prp ->
  exists ppBytes hash caBytes, marshal (mkCPP cisBytes ∅) = Ok ppBytes /\ GetProposalHash2 hdr ppBytes = Ok hash /\
    unmarshal_ProposalResponsePayload prp = Ok (mkPRP hash (Some caBytes)) /\ is_nil prp = false /\
    unmarshal_ChaincodeAction caBytes = Ok (mkCA results events (Some response) (Some ccid)).
Proof.
  intros Hst E. unfold response_payload in E. rewrite proposal_header, res_ret_bind in E. apply res_bind_Ok in E as (hash & Eh & E).
  apply or_fail_Ok in E. unfold GetBytesProposalResponsePayload in E. apply res_bind_Ok in E as (caB & Eca & E).
  assert (GetProposalHash1 hdr (Some (prop_Payload prop)) = Ok hash) as Eh' by (by destruct (GetProposalHash1 hdr (Some (prop_Payload prop)))).
  unfold GetProposalHash1 in Eh'. rewrite proposal_channel_nonempty, proposal_signature_nonempty in Eh'. cbn [orb] in Eh'.
  apply res_bind_Ok in Eh' as (cpp & Ecpp%or_fail_Ok & Eh'). rewrite proposal_payload in Ecpp. injection Ecpp as <-.
  apply res_bind_Ok in Eh' as (ppB & Epp%or_fail_Ok & Eh'). cbn [cpp_Input] in Epp. exists ppB, hash, caB. split; [done|].
  assert (is_nil caB = false) as Hca by (apply (marshal_cons _ _ _ action_spec) in Eca; [done|by intros r [= <-]|done]).
  assert (Some caB <> Some []) as Hca' by (intros [= ->]; done).
  split; [|split; [|split]].
  - unfold GetProposalHash2. by rewrite proposal_channel_nonempty, proposal_signature_nonempty, (proposal_tx_payload _ Epp).
  - by apply (unmarshal_marshal _ _ _ response_payload_spec).
  - by apply (marshal_cons _ _ _ response_payload_spec) in E.
  - apply (unmarshal_marshal _ _ _ action_spec) in Eca; [done|by intros r [= <-]].
Qed.

End Proposal.

(** *** A transaction *)

(** The signer is valid on the channel, and its signatures verify. *)
Definition signs_for (ch : string) (signer : SigningIdentity) (creator : bytes) : Prop :=
  creator <> [] /\ forall msg sig, Sign signer msg = Ok sig -> sig <> [] /\ creator_signed ch creator msg sig.

(** The transaction of the parts [p] carries a proposal, the action [ca] of its
    response [prp], and endorsements. *)
Record carries (d : bytes) (p : tx_parts) (env : Envelope) (hdr : Header) (chdr : ChannelHeader) (creator nonce prp : bytes)
    (es : list Endorsement) (ca : ChaincodeAction) (cis : ChaincodeInvocationSpec) : Prop := {
  c_wf : well_formed d p;
  c_env : p_env p = env;
  c_hdr : p_hdr p = hdr;
  c_chdr : p_chdr p = chdr;
  c_shdr : p_shdr p = mkSignatureHeader creator nonce;
  c_header : ta_Header (p_act p) = hdr_SignatureHeader (p_hdr p);
  c_data : is_nil (pl_Data (p_payload p)) = false;
  c_signed : is_nil (env_Payload (p_env p)) = false /\ is_nil (env_Signature (p_env p)) = false;
  c_action : p_action p = mkCEA (Some prp) es;
  c_response : GetActionFromEnvelope d = Ok ca;
  c_invocation : exists cisBytes, unmarshal_ChaincodeProposalPayload (cap_ChaincodeProposalPayload (p_cap p)) = Ok (mkCPP cisBytes ∅) /\
    unmarshal_ChaincodeInvocationSpec cisBytes = Ok cis
}.

#[global] Arguments c_wf {d p env hdr chdr creator nonce prp es ca cis} _.
#[global] Arguments c_env {d p env hdr chdr creator nonce prp es ca cis} _.
#[global] Arguments c_hdr {d p env hdr chdr creator nonce prp es ca cis} _.
#[global] Arguments c_chdr {d p env hdr chdr creator nonce prp es ca cis} _.
#[global] Arguments c_shdr {d p env hdr chdr creator nonce prp es ca cis} _.
#[global] Arguments c_header {d p env hdr chdr creator nonce prp es ca cis} _.
#[global] Arguments c_data {d p env hdr chdr creator nonce prp es ca cis} _.
#[global] Arguments c_signed {d p env hdr chdr creator nonce prp es ca cis} _.
#[global] Arguments c_action {d p env hdr chdr creator nonce prp es ca cis} _.
#[global] Arguments c_response {d p env hdr chdr creator nonce prp es ca cis} _.
#[global] Arguments c_invocation {d p env hdr chdr creator nonce prp es ca cis} _.

Lemma CreateSignedTx_inv prop signer r0 rest env :
  CreateSignedTx prop signer (r0 :: rest) = Ok env ->
  exists hdr cpp creator shdr response ppBytes es capBytes txBytes,
    GetHeader (prop_Header prop) = Ok hdr /\ unmarshal_ChaincodeProposalPayload (prop_Payload prop) = Ok cpp /\
    Serialize signer = Ok creator /\ GetSignatureHeader (hdr_SignatureHeader hdr) = Ok shdr /\ creator = sh_Creator shdr /\
    pr_Response r0 = Some response /\ resp_Status response = 200 /\ same_payloads (pr_Payload r0) rest = Ok tt /\
    marshal (mkCPP (cpp_Input cpp) ∅) = Ok ppBytes /\ mapM pr_Endorsement (r0 :: rest) = Some es /\
    marshal (mkCAP ppBytes (Some (mkCEA (Some (pr_Payload r0)) es))) = Ok capBytes /\
    marshal (mkTransaction [mkTransactionAction (hdr_SignatureHeader hdr) capBytes]) = Ok txBytes /\
    marshal (mkPayload (Some hdr) txBytes) = Ok (env_Payload env) /\ Sign signer (env_Payload env) = Ok (env_Signature env).
Proof.
  intros E. unfold CreateSignedTx in E. apply res_bind_Ok in E as (hdr & Eh%or_fail_Ok & E). apply res_bind_Ok in E as (cpp & Ec%or_fail_Ok & E).
  apply res_bind_Ok in E as (creator & Ecr & E). apply res_bind_Ok in E as (shdr & Es & E). case_bool_decide as Hs; [|done]. cbn [negb] in E.
  apply res_bind_Ok in E as (ext & _ & E). apply res_bind_Ok in E as ([] & Er & E). unfold check_responses in Er.
  destruct (pr_Response r0) as [response|]; [|done]. destruct (resp_Status response =? 200) eqn:E200; [|done]. apply Z.eqb_eq in E200.
  apply res_bind_Ok in E as (ppB & Epp%or_fail_Ok & E). unfold endorsements_of in E. apply res_bind_Ok in E as (es & Ees & E).
  destruct (mapM pr_Endorsement (r0 :: rest)) as [es'|]; [|done]. injection Ees as ->.
  apply res_bind_Ok in E as (capB & Ecap & E). apply res_bind_Ok in E as (txB & Etx & E). apply res_bind_Ok in E as (plB & Epl & E).
  apply res_bind_Ok in E as (sig & Esig & E). injection E as <-.
  by exists hdr, cpp, creator, shdr, response, ppB, es, capB, txB.
Qed.

Section SignedTx.
Context {ch : string} {creator nonce : bytes} {tm : gmap string bytes} {cis : ChaincodeInvocationSpec} {prop : Proposal}
  {chdr : ChannelHeader} {hdr : Header} {cisBytes : bytes}.
Context (P : proposed ch creator nonce tm cis prop chdr hdr cisBytes).

Lemma signed_carries signer r0 rest env d response results events ccid :
  signs_for ch signer creator -> status_ok response ->
  response_payload (prop_Header prop) (Some (prop_Payload prop)) (Some response) results events (Some ccid) = Ok (pr_Payload r0) ->
  CreateSignedTx prop signer (r0 :: rest) = Ok env -> marshal env = Ok d ->
  exists p es, mapM pr_Endorsement (r0 :: rest) = Some es /\
    carries d p env hdr chdr creator nonce (pr_Payload r0) es (mkCA results events (Some response) (Some ccid)) cis.
Proof.
  intros [Hcr Hsig] Hst Er Etx Ed.
  destruct (proposal_response P Hcr _ _ _ _ _ Hst Er) as (ppB & hash & caB & Epp & Eh & Eprp & Hprp & Eca).
  destruct (CreateSignedTx_inv _ _ _ _ _ Etx) as (hdr' & cpp & creator' & shdr & resp & ppB' & es & capB & txB & Eh' & Ecpp & _ & Esh & _ & _ & _ & _ & Epp' & Ees & Ecap & Etxb & Epl & Esig).
  rewrite (proposal_header P) in Eh'. injection Eh' as <-. rewrite (proposal_payload P) in Ecpp. injection Ecpp as <-.
  cbn [cpp_Input] in Epp'. rewrite Epp in Epp'. injection Epp' as <-.
  assert (unmarshal_ChaincodeActionPayload capB = Ok (mkCAP ppB (Some (mkCEA (Some (pr_Payload r0)) es)))) as Ucap.
  { apply (unmarshal_marshal _ _ _ action_payload_spec) in Ecap; [done|]. intros a [= <-] [= Hz]. by rewrite Hz in Hprp. }
  pose proof (unmarshal_marshal _ _ _ transaction_spec _ _ I Etxb) as Utx.
  pose proof (unmarshal_marshal _ _ _ payload_spec _ _ I Epl) as Upl.
  assert (GetEnvelopeFromBlock d = Ok env) as Uenv.
  { unfold GetEnvelopeFromBlock. by rewrite (unmarshal_marshal _ _ _ envelope_spec _ _ I Ed). }
  destruct (Hsig _ _ Esig) as [Hne Hcs].
  exists (mkParts env (mkPayload (Some hdr) txB) hdr chdr (mkSignatureHeader creator nonce)
            (mkTransactionAction (hdr_SignatureHeader hdr) capB) (mkCAP ppB (Some (mkCEA (Some (pr_Payload r0)) es)))
            (mkCEA (Some (pr_Payload r0)) es) (mkPRP hash (Some caB))), es.
  split; [done|]. split; try done; cbn.
  - split; try done; cbn; try apply P.
    + by eapply proposal_channel_header.
    + by eapply proposal_signature_header.
    + by rewrite (pp_channel P).
  - by apply (marshal_cons _ _ _ transaction_spec) in Etxb.
  - split; [by apply (marshal_cons _ _ _ payload_spec) in Epl|by destruct (env_Signature env)].
  - unfold GetActionFromEnvelope. rewrite Uenv, res_ret_bind. unfold GetPayload, GetTransaction. rewrite Upl, res_ret_bind. cbn [pl_Data].
    rewrite Utx, res_ret_bind. cbn [tx_Actions]. unfold GetPayloads. cbn [ta_Payload]. rewrite Ucap, res_ret_bind.
    cbn [cap_Action cea_ProposalResponsePayload]. rewrite Eprp, res_ret_bind. cbn [prp_Extension]. done.
  - exists cisBytes. split; [by apply (unmarshal_marshal _ _ _ proposal_payload_spec _ _ I)|by eapply proposal_invocation].
Qed.

End SignedTx.

(** *** An endorsement *)

(** A peer that signs with [sid]: its "escc" is the endorsement system chaincode
    and the one of every chaincode, and a response has an int32 status. *)
Record serves (peer : Peer) (sid : res SigningIdentity) : Prop := {
  sv_escc ch ver args s s' r ev : ExecuteChaincode peer ch "escc" ver args s = (s', Ok (r, ev)) -> ESCC.Invoke sid (Some <$> args) = Ok r;
  sv_status ch name ver args s s' r ev : ExecuteChaincode peer ch name ver args s = (s', Ok (r, ev)) -> status_ok r;
  sv_default ch name s s' cd : GetChaincodeDataFromLSCC peer ch name s = (s', Ok cd) -> cd_Escc cd = "escc"
}.

#[global] Arguments sv_escc {peer sid} _.
#[global] Arguments sv_status {peer sid} _.
#[global] Arguments sv_default {peer sid} _.

Lemma escc_success sid prop ccidB resB simB evB vis r :
  ESCC.Invoke sid (Some <$> escc_args prop ccidB resB simB evB vis) = Ok r -> resp_Status r < ERRORTHRESHOLD ->
  exists ccid response signer presp prB, unmarshal_ChaincodeID ccidB = Ok ccid /\ unmarshal_Response resB = Ok response /\
    resp_Status response < ERRORTHRESHOLD /\ sid = Ok signer /\
    CreateProposalResponse (prop_Header prop) (Some (prop_Payload prop)) (Some response) simB evB (Some ccid) signer = Ok presp /\
    marshal presp = Ok prB /\ r = shim_Success prB.
Proof.
  intros E Hr. unfold ESCC.Invoke in E. cbn [escc_args fmap list_fmap length Nat.ltb Nat.leb] in E.
  destruct (ESCC.endorse _ _) as [prB| | |] eqn:Ee; try done; injection E as <-; [|by cbn in Hr].
  unfold ESCC.endorse, ESCC.argument in Ee. cbn [lookup list_lookup] in Ee. rewrite !res_ret_bind in Ee.
  apply res_bind_Ok in Ee as (ccid & Ec & Ee). rewrite res_ret_bind in Ee. apply res_bind_Ok in Ee as (response & Er & Ee).
  destruct (ERRORTHRESHOLD <=? resp_Status response) eqn:Es; [done|]. rewrite res_ret_bind in Ee. apply res_bind_Ok in Ee as (signer & Esg & Ee).
  apply res_bind_Ok in Ee as (presp & Ep & Ee). apply res_bind_Ok in Ee as (prB' & Em & Ee). apply res_bind_Ok in Ee as (x & _ & Ee).
  injection Ee as ->. exists ccid, response, signer, presp, prB.
  split; [by destruct (unmarshal_ChaincodeID ccidB)|]. split; [by destruct (unmarshal_Response resB)|].
  split; [by apply Z.leb_gt|]. split; [by destruct sid|]. split; [done|]. split; [by destruct (marshal presp)|done].
Qed.

Definition event_bytes (peer : Peer) (ev : option (Event peer)) : res bytes :=
  match ev with None => Ok [] | Some e => marshal_Event peer e end.

Definition version_of (peer : Peer) (cd : option ChaincodeData) : string :=
  match cd with None => SysCCVersion peer | Some cd => cd_Version cd end.

Lemma callChaincode_inv peer ch ver ty id args cid s s' r ev :
  cid_Name cid <> "lscc" ->
  callChaincode peer ch ver (mkCIS (Some (mkChaincodeSpec ty id (Some args)))) cid s = (s', Ok (r, ev)) ->
  exists ev', ExecuteChaincode peer ch (cid_Name cid) ver args s = (s', Ok (r, ev')).
Proof.
  intros Hn E. unfold callChaincode in E. apply st_bind_inv in E as (s1 & a & Ea & E). injection Ea as <- <-.
  apply st_bind_inv in E as (s2 & [r' ev'] & Ee & E). exists ev'. destruct (ERRORTHRESHOLD <=? resp_Status r').
  - injection E as <- <- _. done.
  - rewrite decide_False in E by done. apply st_bind_inv in E as (s3 & u & Eu & E). injection Eu as <-. injection E as <- <- _. done.
Qed.

Lemma endorse_inv peer sid ch prop r results ev vis ccid cd s s' pResp :
  serves peer sid -> (forall c, cd = Some c -> cd_Escc c = "escc") -> status_ok r ->
  endorseProposal peer ch prop r results ev vis ccid cd s = (s', Ok pResp) -> is_Some (pr_Endorsement pResp) ->
  exists evB signer, event_bytes peer ev = Ok evB /\ sid = Ok signer /\ resp_Status r < ERRORTHRESHOLD /\
    CreateProposalResponse (prop_Header prop) (Some (prop_Payload prop)) (Some r) (default [] results) evB
      (Some (mkChaincodeID (cid_Name ccid) (version_of peer cd))) signer = Ok pResp.
Proof.
  intros V Hcd Hst E [en Hen]. unfold endorseProposal in E. apply st_bind_inv in E as (s1 & escc & Ee & E). injection Ee as <- Ee.
  assert (escc = "escc") as ->. { destruct cd as [c|]; [|by injection Ee]. rewrite (Hcd c eq_refl) in Ee. by injection Ee. }
  apply st_bind_inv in E as (s2 & evB & Ev & E). injection Ev as <- Ev.
  apply st_bind_inv in E as (s3 & resB & Er & E). injection Er as <- Er.
  apply st_bind_inv in E as (s4 & ccB & Ec & E). injection Ec as <- Ec.
  apply st_bind_inv in E as (s5 & [re ev'] & Ecall & E). apply callChaincode_inv in Ecall as (ev'' & Ecall); [|done].
  apply (sv_escc V) in Ecall. destruct (ERRORTHRESHOLD <=? resp_Status re) eqn:Es.
  { by injection E as _ <-. }
  apply Z.leb_gt in Es. destruct (escc_success _ _ _ _ _ _ _ _ Ecall Es) as (ccid' & r' & signer & presp & prB & Uc & Ur & Hr & -> & Ep & Em & ->).
  injection E as _ E. cbn [resp_Payload shim_Success] in E. destruct (marshal r) as [rb| | |] eqn:Emr; try done. injection Er as ->.
  rewrite (unmarshal_marshal _ _ _ response_spec _ _ Hst Emr) in Ur. injection Ur as <-.
  destruct (marshal (mkChaincodeID _ _)) as [cb| | |] eqn:Emc; try done. injection Ec as ->.
  rewrite (unmarshal_marshal _ _ _ chaincode_id_spec _ _ I Emc) in Uc. injection Uc as <-.
  assert (unmarshal_ProposalResponse prB = Ok presp) as Up.
  { apply (unmarshal_marshal _ _ _ proposal_response_spec) in Em; [done|]. unfold CreateProposalResponse in Ep.
    apply res_bind_Ok in Ep as (x & _ & Ep). apply res_bind_Ok in Ep as (y & _ & Ep). apply res_bind_Ok in Ep as (z & _ & Ep).
    injection Ep as <-. intros r' [= <-]. by unfold status_ok. }
  rewrite Up in E. injection E as ->. exists evB, signer. split; [|done].
  destruct ev as [e|]; [|by injection Ev as <-]. cbn. by destruct (marshal_Event peer e).
Qed.

Lemma callChaincode_status peer sid ch ver cis cid s s' r ev :
  serves peer sid -> callChaincode peer ch ver cis cid s = (s', Ok (r, ev)) -> status_ok r.
Proof.
  intros V E. unfold callChaincode in E. apply st_bind_inv in E as (s1 & a & _ & E).
  apply st_bind_inv in E as (s2 & [r' ev'] & Ee & E). apply (sv_status V) in Ee. destruct (ERRORTHRESHOLD <=? resp_Status r').
  - by injection E as _ <- _.
  - apply st_bind_inv in E as (s3 & u & _ & E). by injection E as _ <- _.
Qed.

Lemma simulate_inv peer sid ch prop cid s s' cd r results ev :
  serves peer sid -> simulateProposal peer ch prop cid s = (s', Ok (cd, r, results, ev)) ->
  status_ok r /\ forall c, cd = Some c -> cd_Escc c = "escc".
Proof.
  intros V E. unfold simulateProposal in E. apply st_bind_inv in E as (s1 & cis & _ & E). apply st_bind_inv in E as (s2 & [] & _ & E).
  apply st_bind_inv in E as (s3 & [cd' ver] & Ev & E). apply st_bind_inv in E as (s4 & [r' ev'] & Ec & E).
  apply st_bind_inv in E as (s5 & res' & _ & E). injection E as _ <- <- _ _. split; [by eapply callChaincode_status|].
  intros c ->. unfold chaincode_version in Ev. destruct (negb (IsSysCC (cid_Name cid))); [|by injection Ev].
  destruct (GetChaincodeDataFromLSCC peer ch (cid_Name cid) s2) as [s6 [cd''| | |]] eqn:El; try done.
  injection Ev as _ Ev. apply res_bind_Ok in Ev as (? & _ & Ev). apply res_bind_Ok in Ev as ([] & _ & Ev). injection Ev as -> _. by eapply sv_default.
Qed.

(** The response [r0] is the endorsement of a simulation of the proposal: it is
    signed over the results, the event and the response of the chaincode. *)
Definition endorses (peer : Peer) (sid : res SigningIdentity) (ch : string) (prop : Proposal) (cid : ChaincodeID) (r0 : ProposalResponse)
    (cd : option ChaincodeData) (r : Response) (results : option bytes) (evB : bytes) : Prop :=
  exists sim s ev signer endorser sig, simulateProposal peer ch prop cid (Some sim) = (s, Ok (cd, r, results, ev)) /\
    event_bytes peer ev = Ok evB /\ status_ok r /\ resp_Status r < ERRORTHRESHOLD /\
    response_payload (prop_Header prop) (Some (prop_Payload prop)) (Some r) (default [] results) evB
      (Some (mkChaincodeID (cid_Name cid) (version_of peer cd))) = Ok (pr_Payload r0) /\
    sid = Ok signer /\ Serialize signer = Ok endorser /\ Sign signer (pr_Payload r0 ++ endorser) = Ok sig /\
    pr_Endorsement r0 = Some (mkEndorsement endorser sig).

Lemma or_failed_inv {A} (r : res A) k r0 e :
  or_failed r k = Ok (Some r0, e) -> is_Some (pr_Endorsement r0) -> exists a, r = Ok a /\ k a = Ok (Some r0, e).
Proof. destruct r as [a| | |]; try done; [eauto|]. intros [= <- _] [x Hx]. done. Qed.

(** Only a chaincode that answered without an error is endorsed. *)
Lemma simulated_endorsed peer sid ch prop ext cid sim r0 e :
  serves peer sid -> simulate_and_endorse peer ch prop ext cid (Some sim) = Ok (Some r0, e) -> is_Some (pr_Endorsement r0) ->
  e = None /\ exists cd r results evB, endorses peer sid ch prop cid r0 cd r results evB.
Proof.
  intros V E Hen. unfold simulate_and_endorse in E.
  destruct (simulateProposal peer ch prop cid (Some sim)) as [s1 sr] eqn:Es. apply or_failed_inv in E as ([[[cd r] results] ev] & -> & E); [|done].
  destruct (simulate_inv _ _ _ _ _ _ _ _ _ _ _ V Es) as [Hst Hcd].
  destruct (ERROR <=? resp_Status r).
  { unfold chaincode_failure in E. destruct (match ev with None => _ | Some _ => _ end); try done. apply or_failed_inv in E as (x & Ex & E); [|done].
    unfold CreateProposalResponseFailure in Ex. apply res_bind_Ok in Ex as (y & _ & Ex). injection Ex as <-. injection E as <- _. by destruct Hen. }
  case_decide. { injection E as <- _. by destruct Hen. }
  destruct (endorseProposal _ _ _ _ _ _ _ _ _ _) as [s2 er] eqn:Ee. apply or_failed_inv in E as (pResp & -> & E); [|done].
  assert (is_Some (pr_Endorsement pResp)) as Hen'.
  { destruct (ERRORTHRESHOLD <=? resp_Status r); [by injection E as <- _|]. unfold with_payload in E. destruct (pr_Response pResp); [|done]. by injection E as <- _. }
  destruct (endorse_inv _ _ _ _ _ _ _ _ _ _ _ _ _ V Hcd Hst Ee Hen') as (evB & signer & Hev & Hsid & Hr & Hc).
  destruct (ERRORTHRESHOLD <=? resp_Status r) eqn:Et; [by apply Z.leb_le in Et; lia|]. unfold with_payload in E.
  destruct (pr_Response pResp) as [resp'|] eqn:Ep; [|done]. injection E as <- <-. split; [done|].
  unfold CreateProposalResponse in Hc. apply res_bind_Ok in Hc as (prpB & Hprp & Hc). apply res_bind_Ok in Hc as (en & He & Hc).
  apply res_bind_Ok in Hc as (sig & Hsig & Hc). injection Hc as <-. exists cd, r, results, evB, sim, s1, ev, signer, en, sig. cbn.
  repeat (split; [done|]). split; [by destruct (Serialize signer)|]. split; [by destruct (Sign signer _)|done].
Qed.

(** What the service checked of a proposal that it endorsed. *)
Record vetted (peer : Peer) (sp : SignedProposal) (prop : Proposal) (hdr : Header) (ext : ChaincodeHeaderExtension) (chdr : ChannelHeader)
    (cid : ChaincodeID) : Prop := {
  ve_valid : ValidateProposalMessage sp = Ok (prop, hdr, ext);
  ve_chdr : UnmarshalChannelHeader (hdr_ChannelHeader hdr) = Ok chdr;
  ve_cid : che_ChaincodeId ext = Some cid;
  ve_invokable : IsSysCCAndNotInvokableExternal (cid_Name cid) = false;
  ve_channel : ch_ChannelId chdr <> "";
  ve_new : exists lgr e, GetLedger peer (ch_ChannelId chdr) = Some lgr /\ GetTransactionByID peer lgr (ch_TxId chdr) = Err e;
  ve_policy : IsSysCC (cid_Name cid) = false -> CheckPolicy peer (ch_ChannelId chdr) sp = Ok tt
}.

Lemma no_channel_unendorsed peer prop ext cid r0 e :
  simulate_and_endorse peer "" prop ext cid None = Ok (Some r0, e) -> ~ is_Some (pr_Endorsement r0).
Proof.
  intros E Hen. unfold simulate_and_endorse in E. destruct (simulateProposal peer "" prop cid None) as [s1 sr].
  apply or_failed_inv in E as ([[[cd r] results] ev] & -> & E); [|done]. destruct (ERROR <=? resp_Status r).
  - unfold chaincode_failure in E. destruct (match ev with None => _ | Some _ => _ end); try done. apply or_failed_inv in E as (x & Ex & E); [|done].
    unfold CreateProposalResponseFailure in Ex. apply res_bind_Ok in Ex as (y & _ & Ex). injection Ex as <-. injection E as <- _. by destruct Hen.
  - cbn in E. injection E as <- _. by destruct Hen.
Qed.

Lemma process_vetted peer sid sp r0 e :
  serves peer sid -> ProcessProposal peer sp = Ok (Some r0, e) -> is_Some (pr_Endorsement r0) ->
  e = None /\ exists prop hdr ext chdr cid cd r results evB, vetted peer sp prop hdr ext chdr cid /\
    endorses peer sid (ch_ChannelId chdr) prop cid r0 cd r results evB.
Proof.
  intros V E Hen. unfold ProcessProposal in E. apply or_failed_inv in E as ([[prop hdr] ext] & Ev & E); [|done].
  apply or_failed_inv in E as (chdr & Ech & E); [|done]. apply or_failed_inv in E as (shdr & _ & E); [|done].
  destruct (che_ChaincodeId ext) as [cid|] eqn:Ecid; [|done]. destruct (IsSysCCAndNotInvokableExternal _) eqn:Einv.
  { injection E as <- _. by destruct Hen. }
  case_decide. { injection E as <- _. by destruct Hen. }
  case_decide as Hch. { rewrite Hch in E. by apply no_channel_unendorsed in E. }
  unfold check_channel in E. destruct (GetLedger peer (ch_ChannelId chdr)) as [lgr|] eqn:El; [|done].
  destruct (GetTransactionByID peer lgr (ch_TxId chdr)) as [|e0| |] eqn:Eid; try done.
  apply or_failed_inv in E as ([] & Epol & E); [|done]. apply or_failed_inv in E as (sim & _ & E); [|done]. apply or_failed_inv in E as ([] & _ & E); [|done].
  destruct (simulated_endorsed _ _ _ _ _ _ _ _ _ V E Hen) as (-> & cd & r & results & evB & He). split; [done|].
  exists prop, hdr, ext, chdr, cid, cd, r, results, evB. split; [|done]. split; try done.
  - by exists lgr, e0.
  - intros Hs. by rewrite Hs in Epol.
Qed.

(** The creator of a proposal signed it, and its transaction id is that of the
    creator and the nonce. *)
Lemma proposal_signed sp prop hdr ext chdr :
  ValidateProposalMessage sp = Ok (prop, hdr, ext) -> UnmarshalChannelHeader (hdr_ChannelHeader hdr) = Ok chdr ->
  unmarshal_Proposal (sp_ProposalBytes sp) = Ok prop /\
  exists shdr, GetSignatureHeader (hdr_SignatureHeader hdr) = Ok shdr /\
    creator_signed (ch_ChannelId chdr) (sh_Creator shdr) (sp_ProposalBytes sp) (sp_Signature sp) /\
    ComputeProposalTxID (sh_Nonce shdr) (sh_Creator shdr) = Ok (ch_TxId chdr).
Proof.
  intros Ev Ec. unfold ValidateProposalMessage in Ev. apply res_bind_Ok in Ev as (prop' & Ep & Ev). apply res_bind_Ok in Ev as (hdr' & _ & Ev).
  apply res_bind_Ok in Ev as ([chdr' shdr] & Eh & Ev). apply header_checked in Eh as (Ech & Esh & _).
  apply res_bind_Ok in Ev as ([] & Es & Ev). apply res_bind_Ok in Ev as ([] & Eid & Ev).
  assert (prop' = prop /\ hdr' = hdr) as [-> ->].
  { destruct (ch_Type chdr'); try done; apply res_bind_Ok in Ev as (ext' & _ & Ev); by injection Ev. }
  rewrite Ec in Ech. injection Ech as <-. split; [done|]. exists shdr. split; [done|]. split; [by apply creator_checked|].
  unfold CheckProposalTxID in Eid. destruct (ComputeProposalTxID _ _) as [id| | |]; try done. case_decide; [by subst|done].
Qed.

Lemma process_endorsed peer sid ch creator nonce tm cis prop chdr hdr cisBytes client sp r0 e spec ccid :
  proposed ch creator nonce tm cis prop chdr hdr cisBytes -> cis_ChaincodeSpec cis = Some spec -> spec_ChaincodeId spec = Some ccid ->
  serves peer sid -> GetSignedProposal prop client = Ok sp -> ProcessProposal peer sp = Ok (Some r0, e) -> is_Some (pr_Endorsement r0) ->
  exists cd r results evB, endorses peer sid ch prop ccid r0 cd r results evB.
Proof.
  intros P Hspec Hcc V Esp E Hen. unfold GetSignedProposal in Esp. apply res_bind_Ok in Esp as (propB & Epb & Esp).
  apply res_bind_Ok in Esp as (sig & _ & Esp). injection Esp as <-.
  destruct (process_vetted _ _ _ _ _ V E Hen) as (_ & prop' & hdr' & ext & chdr' & cid & cd & r & results & evB & A & He).
  pose proof (ve_valid _ _ _ _ _ _ _ A) as Ev.
  unfold ValidateProposalMessage in Ev. cbn [sp_ProposalBytes] in Ev. rewrite (unmarshal_marshal _ _ _ proposal_spec _ _ I Epb), res_ret_bind in Ev.
  pose proof (proposal_header P) as Hh. unfold GetHeader in Hh. rewrite Hh, res_ret_bind in Ev.
  apply res_bind_Ok in Ev as ([chdr2 shdr'] & Ecommon & Ev). apply header_checked in Ecommon as (Ech & _).
  rewrite (proposal_channel_header P) in Ech. injection Ech as <-. apply res_bind_Ok in Ev as ([] & _ & Ev). apply res_bind_Ok in Ev as ([] & _ & Ev).
  rewrite (pp_type P) in Ev. apply res_bind_Ok in Ev as (ext' & Eext & Ev). injection Ev as <- <- <-.
  destruct (proposal_extension P) as (spec' & Hspec' & Hext). rewrite Hspec in Hspec'. injection Hspec' as <-.
  unfold validateChaincodeProposalMessage in Eext. rewrite Hext in Eext. cbn in Eext. rewrite Hcc in Eext. injection Eext as <-.
  pose proof (ve_chdr _ _ _ _ _ _ _ A) as Ec. rewrite (proposal_channel_header P) in Ec. injection Ec as <-. rewrite (pp_channel P) in He.
  pose proof (ve_cid _ _ _ _ _ _ _ A) as Ei. injection Ei as <-. by exists cd, r, results, evB.
Qed.

End Facts.
End EndorserFacts.

(** ** Acceptance *)

Module Acceptance.
Import EndorsementFacts TxCreation EndorserFacts TxValidator.
Section Acceptance.
Context `{ProtoCodec} `{SignatureCodec} `{TxCodec} `{CryptoHash} `{RWSetCodec} `{MSPManagers} `{ConfigCodec}.
Context {L C : Type} `{PeerLedger L}.
Context (SysCCVersion : string).
Context (ExecuteChaincode : string -> string -> string -> list bytes -> res VSCC.Response).
Context (GetMSPIDs : string -> list string).
Context (applyConfig : ConfigEnvelope -> ST C unit).
Context (GetLedger : string -> option L).

(** The peer runs the validation system chaincode. *)
Definition runs_vscc : Prop :=
  forall chid ver args, ExecuteChaincode chid "vscc" ver args = VSCC.Invoke GetLedger (Some <$> args).

Definition identity_of (e : Endorsement) : res string :=
  si ← unmarshal_SerializedIdentity (end_Endorser e);
  Ok (si_Mspid si +:+ to_string (si_IdBytes si)).

(** Every endorser has an identity, and they differ. *)
Definition distinct_endorsers (es : list Endorsement) : Prop :=
  exists ids, identity_of <$> es = Ok <$> ids /\ NoDup ids.

Lemma dedup_distinct prp es ids seen :
  identity_of <$> es = Ok <$> ids -> NoDup ids -> (forall i, i ∈ ids -> i ∉ seen) ->
  VSCC.dedup_endorsements prp seen es = Ok (endorsement_data prp <$> es).
Proof.
  revert ids seen. induction es as [|e es IH]; intros [|id ids] seen E Hnd Hseen; try done. cbn in E. injection E as Ee Es.
  apply NoDup_cons in Hnd as [Hid Hnd]. unfold identity_of in Ee. apply res_bind_Ok in Ee as (si & Eu & Ee). injection Ee as <-.
  cbn [VSCC.dedup_endorsements]. rewrite Eu, res_ret_bind, decide_False by (apply Hseen; left).
  rewrite (IH ids); [done|done|done|]. intros i Hi. apply not_elem_of_union. split; [|apply Hseen; by right].
  intros ->%elem_of_singleton. done.
Qed.

(** The chaincode of the namespace [ns] is on the ledger, with the default
    validation chaincode and the version [ver] if it is the invoked one, and its
    policy accepts the endorsements. *)
Definition ns_accepts (l : L) (ch ccID ver : string) (prp : bytes) (es : list Endorsement) (ns : string) : Prop :=
  exists b cd policy, query_GetState l "lscc" ns = Ok (Some b) /\ unmarshal_ChaincodeData b = Ok cd /\ cd_Vscc cd = "vscc" /\
    cd_Policy cd <> [] /\ (ns = ccID -> cd_Version cd = ver) /\
    VSCC.new_policy (GetManagerForChain ch) (cd_Policy cd) = Ok policy /\
    CAuthDSL.Evaluate policy (endorsement_data prp <$> es) = Ok tt.

(** An application chaincode may write to namespaces of its kind. *)
Definition may_write (rw : TxRwSet) : Prop := writesToLSCC rw = false /\ writesToNonInvokableSCC rw = false.

Section Carried.
Context {d : bytes} {p : tx_parts} {env : Envelope} {hdr : Header} {chdr : ChannelHeader} {creator nonce prp : bytes}
  {es : list Endorsement} {ca : ChaincodeAction} {cis : ChaincodeInvocationSpec}.
Context (K : carries d p env hdr chdr creator nonce prp es ca cis).
Context (ext : ChaincodeHeaderExtension) (cc : ChaincodeID).
Context (Hext : GetChaincodeHeaderExtension hdr = Ok ext) (Hcc : che_ChaincodeId ext = Some cc).

Lemma carried_action : validate_action hdr (p_act p) = Ok tt \/ creator = [] \/ nonce = [].
Proof.
  destruct creator as [|c0 cr] eqn:Ec; [by auto|]. destruct nonce as [|n0 no] eqn:En; [by auto|]. left.
  pose proof (c_wf K) as W. unfold validate_action.
  rewrite (c_header K), (wf_shdr _ _ W), res_ret_bind, (c_shdr K).
  unfold validateSignatureHeader. cbn [sh_Nonce sh_Creator is_nil]. rewrite res_ret_bind, (wf_cap _ _ W), res_ret_bind, (wf_action _ _ W).
  rewrite (wf_prp _ _ W), res_ret_bind. pose proof (wf_hash _ _ W) as Hh.
  rewrite (c_header K), (c_hdr K) in Hh. rewrite (c_hdr K), Hh, res_ret_bind.
  by rewrite decide_True.
Qed.

Context (Hcreator : creator <> []) (Hnonce : nonce <> []).

Lemma carried_common : validateCommonHeader (Some hdr) = Ok (chdr, mkSignatureHeader creator nonce).
Proof.
  pose proof (c_wf K) as W. unfold validateCommonHeader.
  rewrite <- (c_hdr K), (wf_chdr _ _ W), res_ret_bind, (wf_shdr _ _ W), res_ret_bind.
  unfold validateChannelHeader. rewrite (wf_type _ _ W), (wf_epoch _ _ W), (c_shdr K), (c_chdr K).
  unfold validateSignatureHeader. cbn [sh_Nonce sh_Creator]. by destruct nonce, creator.
Qed.

Lemma carried_valid : ValidateTransaction env = Ok (Some (p_payload p), TxValidationCode_VALID).
Proof.
  pose proof (c_wf K) as W. unfold ValidateTransaction.
  rewrite <- (c_env K), (wf_payload _ _ W). cbn [code_of]. rewrite (wf_hdr _ _ W), (c_hdr K), carried_common.
  cbn [code_of]. pose proof (wf_creator _ _ W) as (m & id & Em & Ed & Ev & Evf).
  rewrite (c_chdr K) in Em. rewrite (c_shdr K) in Ed.
  destruct (c_signed K) as [Hp Hs]. cbn [sh_Creator] in *.
  unfold checkSignatureFromCreator. rewrite Hp, Hs, Em, Ed, res_ret_bind, Ev, res_ret_bind, Evf.
  replace (is_nil creator) with false by (by destruct creator). cbn [orb code_of].
  pose proof (wf_type _ _ W) as Ht. pose proof (wf_txid _ _ W) as Hid. rewrite (c_chdr K) in Ht, Hid.
  rewrite (c_shdr K) in Hid. cbn [sh_Nonce sh_Creator] in *. rewrite Ht.
  unfold CheckProposalTxID. rewrite Hid, decide_True by done. cbn [code_of].
  unfold validateEndorserTransaction. rewrite (c_data K), (wf_act _ _ W), res_ret_bind. cbn [tx_Actions length Nat.eqb negb validate_actions].
  destruct carried_action as [->|[?|?]]; done.
Qed.

Context (Happ : IsSysCC (cid_Name cc) = false).

Lemma app_not_lscc : cid_Name cc <> "lscc".
Proof. intros E. by rewrite E in Happ. Qed.

Lemma carried_vscc policyBytes policy :
  distinct_endorsers es -> VSCC.new_policy (GetManagerForChain (ch_ChannelId chdr)) policyBytes = Ok policy ->
  CAuthDSL.Evaluate policy (endorsement_data prp <$> es) = Ok tt ->
  VSCC.Invoke GetLedger (Some <$> [[]; d; policyBytes]) = Ok VSCC.Success.
Proof.
  intros (ids & Hids & Hnd) Hpol Hev. pose proof (c_wf K) as W. cbn. unfold VSCC.invoke.
  rewrite (wf_env _ _ W), res_ret_bind, (wf_payload _ _ W), res_ret_bind, (wf_hdr _ _ W), (wf_chdr _ _ W), res_ret_bind, (c_chdr K), Hpol, res_ret_bind.
  pose proof (wf_type _ _ W) as Ht. rewrite (c_chdr K) in Ht. rewrite bool_decide_true by done. cbn [negb].
  rewrite (wf_act _ _ W), res_ret_bind. cbn [tx_Actions VSCC.invoke_actions]. unfold VSCC.invoke_action.
  rewrite (wf_cap _ _ W), res_ret_bind. unfold VSCC.deduplicateIdentity. rewrite (wf_action _ _ W), (c_action K).
  cbn [cea_ProposalResponsePayload cea_Endorsements default].
  rewrite (dedup_distinct _ _ ids) by (done || set_solver). rewrite res_ret_bind. cbn [from_option id]. rewrite Hev, (c_hdr K), Hext, res_ret_bind, Hcc.
  by rewrite decide_False by apply app_not_lscc.
Qed.

Lemma carried_namespaces l ver nss :
  runs_vscc -> distinct_endorsers es -> "lscc" ∉ nss ->
  (forall ns, ns ∈ nss -> ns_accepts l (ch_ChannelId chdr) (cid_Name cc) ver prp es ns) ->
  validate_namespaces SysCCVersion ExecuteChaincode GetMSPIDs l d (ch_ChannelId chdr) (cid_Name cc) ver nss = Ok None.
Proof.
  intros Hrun Hd. induction nss as [|ns nss IH]; intros Hl Hacc; [done|]. apply not_elem_of_cons in Hl as [Hns Hl].
  cbn [validate_namespaces]. destruct (Hacc ns) as (b & cd & policy & Hb & Hu & Hv & Hp & Hver & Hpol & Hev); [by left|].
  unfold GetInfoForValidate. rewrite (bool_decide_false (ns = "lscc")) by (by intros ->). cbn [negb]. unfold getCDataForCC. rewrite Hb, Hu.
  rewrite decide_False by (by rewrite Hv). replace (is_nil (cd_Policy cd)) with false by (by destruct (cd_Policy cd)).
  rewrite !res_ret_bind. cbn [ci_ChaincodeVersion ci_ChaincodeName].
  replace (bool_decide (ns = cid_Name cc) && _) with false.
  2: { symmetry. apply andb_false_iff. case_bool_decide as Hn; [right|by left]. by rewrite bool_decide_true by auto. }
  unfold VSCCValidateTxForCC. rewrite Hv, Hrun, (carried_vscc _ policy) by done. rewrite res_ret_bind. apply IH; [done|]. intros n Hn. apply Hacc. by right.
Qed.

Lemma carried_instances : getTxCCInstance (p_payload p) hdr = Ok (mkInstance (ch_ChannelId chdr) (cid_Name cc) (cid_Version cc), None).
Proof.
  pose proof (c_wf K) as W. pose proof (wf_chdr _ _ W) as Hc. rewrite (c_hdr K), (c_chdr K) in Hc. unfold getTxCCInstance.
  rewrite Hc, res_ret_bind, Hext, res_ret_bind, Hcc. unfold invocation_args. rewrite (wf_act _ _ W), res_ret_bind. cbn [tx_Actions].
  rewrite (wf_cap _ _ W), res_ret_bind. destruct (c_invocation K) as (cisB & E1 & E2). rewrite E1, res_ret_bind. cbn [cpp_Input].
  by rewrite E2, res_ret_bind, decide_False by apply app_not_lscc.
Qed.

(** A transaction that carries the endorsed results of an application chaincode
    gets the verdict valid. *)
Lemma carried_verdict l c rw id ver e :
  runs_vscc -> cid_Name cc <> "" -> ca_ChaincodeId ca = Some id -> id = mkChaincodeID (cid_Name cc) ver -> ver <> "" ->
  FromProtoBytes (ca_Results ca) = Ok rw -> may_write rw -> ledger_GetTransactionByID l (ch_TxId chdr) = Err e ->
  distinct_endorsers es -> (forall ns, ns ∈ wrNamespace rw -> ns_accepts l (ch_ChannelId chdr) (cid_Name cc) ver prp es ns) ->
  validate_tx SysCCVersion ExecuteChaincode GetMSPIDs applyConfig l d c =
    (c, Ok (TxValidationCode_VALID, Some (mkInstance (ch_ChannelId chdr) (cid_Name cc) (cid_Version cc), None))).
Proof.
  intros Hrun Hne Hca -> Hver Hrw [Hlscc Hsys] Hnew Hd Hacc. pose proof (c_wf K) as W. unfold validate_tx.
  rewrite (wf_env _ _ W), (c_env K). unfold st_lift at 1. erewrite st_bind_Ok by (rewrite carried_valid; done). cbn [negb Z.eqb TxValidationCode_VALID].
  pose proof (wf_hdr _ _ W) as Hh. destruct (p_payload p) as [h data] eqn:Epl. cbn in Hh. subst h.
  rewrite (wf_chdr _ _ W), (wf_type _ _ W), (c_chdr K), (c_hdr K). unfold st_lift. f_equal.
  unfold validate_endorser_tx. rewrite Hnew. unfold VSCCValidateTx. rewrite Hext. cbn [or_code].
  pose proof (wf_chdr _ _ W) as Hc. rewrite (c_hdr K), (c_chdr K) in Hc. rewrite Hc. cbn [or_code]. rewrite (c_response K). cbn [or_code]. rewrite Hrw. cbn [or_code].
  unfold validate_invocation. rewrite Hcc, Hca. cbn [cid_Name cid_Version]. rewrite (bool_decide_false (cid_Name cc = "")), bool_decide_true by done.
  cbn [negb]. rewrite bool_decide_false by done. rewrite Happ, Hlscc, Hsys. cbn [negb].
  rewrite carried_namespaces; [|done|done| |done].
  - rewrite res_ret_bind. pose proof carried_instances as Hi. rewrite Epl, (c_hdr K) in Hi. by rewrite Hi.
  - unfold writesToLSCC in Hlscc. by apply bool_decide_eq_false in Hlscc.
Qed.

End Carried.
End Acceptance.
End Acceptance.
