(* ===== verification/EndorserTheorems.v ===== *)
(** * From a proposal to a valid transaction: the theorems

    A client's proposal, the endorsement of a peer, the transaction that the
    client makes of the responses, and the verdict of a validating peer; then a
    concrete client and a concrete peer on which the theorems are applied. *)

From stdpp Require Import base gmap strings list countable.
From Stdlib Require Import Ascii ZArith Lia.
From Stdlib Require String.
From S2P Require Import Prelude RWSet Proto Instances Validator BlockHash CAuthDSL ConfigTx MsgValidation VSCC TxValidator TxValidatorFacts.
From S2P Require Import PeerTheorems CCPackages Endorser EndorserFacts.
Import ProtoUtils RWSetUtil Flags TxUtils MsgValidation SystemChaincodes.
Local Open Scope Z_scope.

Module EndorserTheorems.
Import EndorsementFacts TxCreation Endorser EndorserFacts Acceptance TxValidator.
Section EndorserTheorems.
Context `{ProtoCodec} `{SignatureCodec} `{TxCodec} `{CryptoHash} `{ResponseCodec} `{MSPManagers} `{RWSetCodec} `{ConfigCodec} `{PackageCodec}.
Context `{!Message Header} `{!Message ChannelHeader} `{!Message SignatureHeader} `{!Message Payload}
  `{!Message ChaincodeHeaderExtension} `{!Message ChaincodeInvocationSpec} `{!Message ChaincodeProposalPayload}
  `{!Message ChaincodeAction} `{!Message ProposalResponsePayload} `{!Message ChaincodeActionPayload}
  `{!Message Transaction} `{!Message Proposal} `{!Message Response} `{!Message ChaincodeID} `{!Message ProposalResponse}
  `{!Message Envelope} `{!Message ChaincodeDeploymentSpec} `{!Message CDSData} `{!Message SignedCDSData} `{!TxMessages}.

(** C7: A peer endorses only what it should.  On a peer whose chaincodes all have
    the default endorsement chaincode escc ([serves]), when the response to a
    proposal has an endorsement, the creator signed the proposal and its
    transaction id is theirs and not on the ledger of the channel; the chaincode
    is not a system chaincode that clients may not invoke, and for an application
    chaincode (for these alone, as the code has it) the access policy of the
    channel admits the proposal; the simulation ended without an error; and the
    endorsement is the peer's signature over the hash of the proposal, the
    results, the event and the response of that simulation. *)
Theorem endorsement_safe peer sid sp r0 e en :
  serves peer sid -> ProcessProposal peer sp = Ok (Some r0, e) -> pr_Endorsement r0 = Some en ->
  e = None /\ exists prop hdr ext chdr shdr cid cd r results evB, vetted peer sp prop hdr ext chdr cid /\
    unmarshal_Proposal (sp_ProposalBytes sp) = Ok prop /\ GetSignatureHeader (hdr_SignatureHeader hdr) = Ok shdr /\
    creator_signed (ch_ChannelId chdr) (sh_Creator shdr) (sp_ProposalBytes sp) (sp_Signature sp) /\
    ComputeProposalTxID (sh_Nonce shdr) (sh_Creator shdr) = Ok (ch_TxId chdr) /\
    endorses peer sid (ch_ChannelId chdr) prop cid r0 cd r results evB.
Proof.
  intros V E Hen. destruct (process_vetted _ _ _ _ _ V E ltac:(by eexists)) as (-> & prop & hdr & ext & chdr & cid & cd & r & results & evB & A & He).
  split; [done|]. destruct (proposal_signed _ _ _ _ _ (ve_valid _ _ _ _ _ _ _ A) (ve_chdr _ _ _ _ _ _ _ A)) as (Hp & shdr & Hs & Hc & Hid).
  by exists prop, hdr, ext, chdr, shdr, cid, cd, r, results, evB.
Qed.

(** A client proposes an invocation of the chaincode [cc] of the channel [ch], a
    peer answers [r0] without an error, and the client makes the transaction [d]
    of this and other responses. *)
Record submitted (ch : string) (cc : ChaincodeID) (cis : ChaincodeInvocationSpec) (creator nonce : bytes) (peer : Peer)
    (sid : res SigningIdentity) (prop : Proposal) (txid : string) (r0 : ProposalResponse) (rest : list ProposalResponse) (env : Envelope)
    (d : bytes) : Prop := {
  sub_nonce : nonce <> [];
  sub_chaincode : exists typ input, cis_ChaincodeSpec cis = Some (mkChaincodeSpec typ (Some cc) input);
  sub_proposal : exists now tm, CreateChaincodeProposalWithTransient now (Ok nonce) ENDORSER_TRANSACTION ch cis creator tm = Ok (prop, txid);
  sub_client : exists client sp, signs_for ch client creator /\ GetSignedProposal prop client = Ok sp /\
    ProcessProposal peer sp = Ok (Some r0, None) /\ CreateSignedTx prop client (r0 :: rest) = Ok env;
  sub_peer : serves peer sid;
  sub_bytes : marshal env = Ok d
}.

Lemma submitted_carries ch cc cis creator nonce peer sid prop txid r0 rest env d :
  submitted ch cc cis creator nonce peer sid prop txid r0 rest env d ->
  exists cd r results evB es p hdr chdr ext, endorses peer sid ch prop cc r0 cd r results evB /\ mapM pr_Endorsement (r0 :: rest) = Some es /\
    carries d p env hdr chdr creator nonce (pr_Payload r0) es
      (mkCA (default [] results) evB (Some r) (Some (mkChaincodeID (cid_Name cc) (version_of peer cd)))) cis /\
    creator <> [] /\ ch_ChannelId chdr = ch /\ ch_TxId chdr = txid /\
    GetChaincodeHeaderExtension hdr = Ok ext /\ che_ChaincodeId ext = Some cc.
Proof.
  intros [Hn (typ & input & Hspec) (now & tm & Hprop) (client & sp & Hsig & Hsp & Hpp & Htx) Hpeer Hd].
  assert (ComputeProposalTxID nonce creator = Ok txid) as Hid.
  { unfold CreateChaincodeProposalWithTransient in Hprop. rewrite res_ret_bind in Hprop. apply res_bind_Ok in Hprop as (id & Hid & Hprop).
    unfold CreateChaincodeProposalWithTxIDNonceAndTransient in Hprop. rewrite Hspec in Hprop.
    repeat (apply res_bind_Ok in Hprop as (? & _ & Hprop)). by injection Hprop as _ <-. }
  destruct (create_proposed _ _ _ _ _ _ _ _ Hprop) as (chdr & hdr & cisB & P).
  destruct (CreateSignedTx_inv _ _ _ _ _ Htx) as (_ & _ & _ & _ & _ & _ & es0 & _ & _ & _ & _ & _ & _ & _ & _ & _ & _ & _ & Hes0 & _).
  assert (is_Some (pr_Endorsement r0)) as Hen by (cbn in Hes0; by destruct (pr_Endorsement r0)).
  destruct (process_endorsed _ _ _ _ _ _ _ _ _ _ _ _ _ _ _ _ _ P Hspec eq_refl Hpeer Hsp Hpp Hen) as (cd & r & results & evB & Hend).
  pose proof Hend as (sim & s & ev & signer & en & sig & Hsim & Hev & Hst & _ & Hprp & _).
  destruct (signed_carries P _ _ _ _ _ _ _ _ _ Hsig Hst Hprp Htx Hd) as (p & es & Hes & K).
  destruct (proposal_extension P) as (spec & Hspec' & Hext). rewrite Hspec in Hspec'. injection Hspec' as <-.
  pose proof (pp_txid P) as Hid'. rewrite Hid in Hid'. injection Hid' as Hid'.
  exists cd, r, results, evB, es, p, hdr, chdr, (mkCHE None (Some cc)). repeat (split; [done|]). split; [apply Hsig|].
  split; [apply P|]. split; [by symmetry|]. done.
Qed.

(** C24: a transaction that a client makes of the response of an endorser carries
    what the endorser simulated and signed: its action has the results, the
    event and the response of the chaincode, under the name of the chaincode and
    the version that ran; its form and its signatures pass the checks of every
    peer; and it carries the invocation without the transient data. *)
Theorem signed_tx_carries_simulation ch cc cis creator nonce peer sid prop txid r0 rest env d :
  submitted ch cc cis creator nonce peer sid prop txid r0 rest env d ->
  exists cd r results evB p, endorses peer sid ch prop cc r0 cd r results evB /\
    GetActionFromEnvelope d =
      Ok (mkCA (default [] results) evB (Some r) (Some (mkChaincodeID (cid_Name cc) (version_of peer cd)))) /\
    ValidateTransaction env = Ok (Some (p_payload p), TxValidationCode_VALID) /\ well_formed d p /\
    exists cisBytes, unmarshal_ChaincodeProposalPayload (cap_ChaincodeProposalPayload (p_cap p)) = Ok (mkCPP cisBytes ∅) /\
      unmarshal_ChaincodeInvocationSpec cisBytes = Ok cis.
Proof.
  intros S. destruct (submitted_carries _ _ _ _ _ _ _ _ _ _ _ _ _ S) as (cd & r & results & evB & es & p & hdr & chdr & ext & He & _ & K & Hcr & _).
  exists cd, r, results, evB, p. split; [done|]. split; [apply K|]. split; [by apply (carried_valid K Hcr (sub_nonce _ _ _ _ _ _ _ _ _ _ _ _ _ S))|].
  split; apply K.
Qed.

Section Validator.
Context {L C : Type} `{PeerLedger L}.
Context (Version : string).
Context (Execute : string -> string -> string -> list bytes -> res VSCC.Response).
Context (GetMSPIDs : string -> list string).
Context (applyConfig : ConfigEnvelope -> ST C unit).
Context (GetLedger : string -> option L).

(** C5: A transaction of an application chaincode that a client makes of the
    responses of endorsers is valid.  The client signs for the creator of the
    proposal; the peer of the first response has the default endorsement chaincode
    escc for its chaincodes; the endorsers are pairwise different; the simulation
    has written neither to lscc nor to system chaincodes that cannot be invoked;
    the validating peer runs the validation chaincode as vscc, and its ledger does
    not have the transaction, has every chaincode that is written to, with vscc
    and a policy that the endorsements satisfy, and has the invoked chaincode, if
    it is written to, still at the version that was simulated.  Then the peer
    gives the transaction the verdict valid. *)
Theorem endorsed_tx_valid ch cc cis creator nonce peer sid prop txid r0 rest env d es act ver rw l c e :
  submitted ch cc cis creator nonce peer sid prop txid r0 rest env d ->
  mapM pr_Endorsement (r0 :: rest) = Some es -> distinct_endorsers es ->
  GetActionFromEnvelope d = Ok act -> ca_ChaincodeId act = Some (mkChaincodeID (cid_Name cc) ver) -> ver <> "" ->
  FromProtoBytes (ca_Results act) = Ok rw -> may_write rw ->
  cid_Name cc <> "" -> IsSysCC (cid_Name cc) = false ->
  runs_vscc Execute GetLedger -> ledger_GetTransactionByID l txid = Err e ->
  (forall ns, ns ∈ wrNamespace rw -> ns_accepts l ch (cid_Name cc) ver (pr_Payload r0) es ns) ->
  validate_tx Version Execute GetMSPIDs applyConfig l d c =
    (c, Ok (TxValidationCode_VALID, Some (mkInstance ch (cid_Name cc) (cid_Version cc), None))).
Proof.
  intros S Hes Hd Hact Hid Hver Hrw Hw Hne Happ Hrun Hnew Hacc.
  destruct (submitted_carries _ _ _ _ _ _ _ _ _ _ _ _ _ S) as (cd & r & results & evB & es' & p & hdr & chdr & ext & _ & Hes' & K & Hcr & <- & <- & Hext & Hcc).
  rewrite Hes in Hes'. injection Hes' as <-. pose proof (c_response K) as Hact'. rewrite Hact in Hact'. injection Hact' as ->.
  eapply (carried_verdict Version Execute GetMSPIDs applyConfig GetLedger K ext cc Hext Hcc Hcr (sub_nonce _ _ _ _ _ _ _ _ _ _ _ _ _ S)); try done.
Qed.

End Validator.
End EndorserTheorems.
End EndorserTheorems.

(** ** A serialization of the messages

    The fields of a message, each with its length. *)

Module FieldCodec.
Import Bits TxCreation EndorserFacts.

(** A length: bytes of 255, and a smaller one. *)
Definition put_len (n : nat) : bytes := replicate (n / 255) (uint8 255) ++ [uint8 (Z.of_nat (n mod 255))].

Fixpoint get_len (b : bytes) : nat * bytes :=
  match b with
  | [] => (0%nat, [])
  | x :: b =>
      if byte_val x =? 255 then let '(n, r) := get_len b in ((255 + n)%nat, r)
      else (Z.to_nat (byte_val x), b)
  end.

Lemma get_put_len n b : get_len (put_len n ++ b) = (n, b).
Proof.
  unfold put_len. rewrite (Nat.div_mod_eq n 255) at 3. pose proof (Nat.mod_upper_bound n 255) as Hm.
  generalize dependent (n mod 255)%nat. intros m Hm. induction (n / 255)%nat as [|k IH].
  - cbn [replicate app get_len]. rewrite byte_val_uint8, Z.mod_small by lia. destruct (Z.of_nat m =? 255) eqn:E; [lia|]. f_equal. lia.
  - cbn [replicate app get_len]. rewrite byte_val_uint8. cbn [Z.modulo Z.div_eucl Z.eqb Z.pos_div_eucl]. rewrite IH. f_equal. lia.
Qed.

Fixpoint pack (l : list bytes) : bytes := match l with [] => [] | b :: l => put_len (length b) ++ b ++ pack l end.

Fixpoint unpack (fuel : nat) (b : bytes) : list bytes :=
  match fuel, b with
  | S fuel, _ :: _ => let '(n, r) := get_len b in take n r :: unpack fuel (drop n r)
  | _, _ => []
  end.

Definition fields (b : bytes) : list bytes := unpack (length b) b.

Lemma put_len_cons n : exists x b, put_len n = x :: b.
Proof. unfold put_len. destruct (replicate _ _); cbn; eauto. Qed.

Lemma fields_pack l : fields (pack l) = l.
Proof.
  unfold fields. assert (forall fuel, (length (pack l) <= fuel)%nat -> unpack fuel (pack l) = l) as Hf; [|by apply Hf].
  induction l as [|b l IH]; intros fuel Hle; [by destruct fuel|]. cbn [pack] in *.
  destruct (put_len_cons (length b)) as (x & y & E). destruct fuel as [|fuel].
  { rewrite E in Hle. cbn in Hle. lia. }
  cbn [unpack]. destruct (put_len (length b) ++ b ++ pack l) eqn:E2; [by rewrite E in E2|]. rewrite <- E2, get_put_len, take_app_length, drop_app_length.
  f_equal. apply IH. apply (f_equal length) in E2. rewrite E in E2. cbn in E2, Hle. rewrite !length_app in E2. lia.
Qed.

Lemma pack_cons b l : pack (b :: l) <> [].
Proof. cbn [pack]. by destruct (put_len_cons (length b)) as (x & y & ->). Qed.

(** A field that may be nil. *)
Definition opt (o : option bytes) : bytes := match o with None => [] | Some b => "1"%char :: b end.
Definition of_opt (b : bytes) : option bytes := match b with [] => None | _ :: b => Some b end.

Lemma of_opt_opt o : of_opt (opt o) = o.
Proof. by destruct o. Qed.

(** *** Messages as fields *)

Class Fields (T : Type) := { to_fields : T -> list bytes; of_fields : list bytes -> res T }.

Definition put {T} `{Fields T} (t : T) : bytes := pack ([] :: to_fields t).
Definition get {T} `{Fields T} (b : bytes) : res T := of_fields (tail (fields b)).

#[export] Instance fields_message {T} `{Fields T} : Message T := fun t => Ok (put t).

Lemma fields_spec {T} `{Fields T} (zero : T) (proper : T -> Prop) :
  (forall t, proper t -> of_fields (to_fields t) = Ok t) -> MessageSpec T get zero proper.
Proof.
  intros Ht. split.
  - intros t Hp. exists (put t). split; [done|]. unfold get, put. rewrite fields_pack. by apply Ht.
  - intros t _ E. injection E as E. by apply pack_cons in E.
Qed.

Lemma string_bytes s : to_string (to_bytes s) = s.
Proof. apply String.string_of_list_ascii_of_string. Qed.

Definition sub {T} `{Fields T} (o : option T) : bytes := opt (put <$> o).
Definition of_sub {T} `{Fields T} (b : bytes) : res (option T) :=
  match of_opt b with None => Ok None | Some b => t ← get b; Ok (Some t) end.

Lemma of_sub_sub {T} `{Fields T} (o : option T) : (forall t, o = Some t -> of_fields (to_fields t) = Ok t) -> of_sub (sub o) = Ok o.
Proof.
  unfold of_sub, sub. rewrite of_opt_opt. destruct o as [t|]; [|done]. intros Ht. cbn [fmap option_fmap option_map]. unfold get, put. rewrite fields_pack. cbn [tail].
  by rewrite (Ht t).
Qed.

#[export] Instance f_header : Fields Header := {
  to_fields h := [hdr_ChannelHeader h; hdr_SignatureHeader h];
  of_fields l := match l with [a; b] => Ok (mkHeader a b) | _ => Err "proto: Header" end
}.

#[export] Instance f_channel_header : Fields ChannelHeader := {
  to_fields h := [to_bits (mkChannelHeader (ch_Type h) (ch_Timestamp h) (ch_ChannelId h) (ch_TxId h) (ch_Epoch h) []); ch_Extension h];
  of_fields l :=
    match l with
    | [a; e] => h ← from_bits a; Ok (mkChannelHeader (ch_Type h) (ch_Timestamp h) (ch_ChannelId h) (ch_TxId h) (ch_Epoch h) e)
    | _ => Err "proto: ChannelHeader"
    end
}.

#[export] Instance f_signature_header : Fields SignatureHeader := {
  to_fields h := [sh_Creator h; sh_Nonce h];
  of_fields l := match l with [a; b] => Ok (mkSignatureHeader a b) | _ => Err "proto: SignatureHeader" end
}.

#[export] Instance f_payload : Fields Payload := {
  to_fields p := [sub (pl_Header p); pl_Data p];
  of_fields l := match l with [h; d] => h ← of_sub h; Ok (mkPayload h d) | _ => Err "proto: Payload" end
}.

#[export] Instance f_chaincode_id : Fields ChaincodeID := {
  to_fields c := [to_bytes (cid_Name c); to_bytes (cid_Version c)];
  of_fields l := match l with [n; v] => Ok (mkChaincodeID (to_string n) (to_string v)) | _ => Err "proto: ChaincodeID" end
}.

#[export] Instance f_extension : Fields ChaincodeHeaderExtension := {
  to_fields e := [opt (che_PayloadVisibility e); sub (che_ChaincodeId e)];
  of_fields l := match l with [v; c] => c ← of_sub c; Ok (mkCHE (of_opt v) c) | _ => Err "proto: ChaincodeHeaderExtension" end
}.

#[export] Instance f_args : Fields (list bytes) := { to_fields l := l; of_fields := Ok }.

#[export] Instance f_spec : Fields ChaincodeSpec := {
  to_fields s := [to_bits (spec_Type s); sub (spec_ChaincodeId s); sub (spec_Input s)];
  of_fields l :=
    match l with
    | [t; c; i] => t ← from_bits t; c ← of_sub c; i ← of_sub i; Ok (mkChaincodeSpec t c i)
    | _ => Err "proto: ChaincodeSpec"
    end
}.

#[export] Instance f_invocation : Fields ChaincodeInvocationSpec := {
  to_fields c := [sub (cis_ChaincodeSpec c)];
  of_fields l := match l with [s] => s ← of_sub s; Ok (mkCIS s) | _ => Err "proto: ChaincodeInvocationSpec" end
}.

#[export] Instance f_proposal_payload : Fields ChaincodeProposalPayload := {
  to_fields p := [cpp_Input p; to_bits (cpp_TransientMap p)];
  of_fields l := match l with [i; m] => m ← from_bits m; Ok (mkCPP i m) | _ => Err "proto: ChaincodeProposalPayload" end
}.

#[export] Instance f_response : Fields Response := {
  to_fields r := [to_bits (resp_Status r); to_bytes (resp_Message r); resp_Payload r];
  of_fields l :=
    match l with
    | [s; m; p] => s ← from_bits s; if (- 2 ^ 31 <=? s) && (s <? 2 ^ 31) then Ok (mkResponse s (to_string m) p) else Err "proto: int32"
    | _ => Err "proto: Response"
    end
}.

#[export] Instance f_action : Fields ChaincodeAction := {
  to_fields a := [ca_Results a; ca_Events a; sub (ca_Response a); sub (ca_ChaincodeId a)];
  of_fields l :=
    match l with
    | [r; e; p; c] => p ← of_sub p; c ← of_sub c; Ok (mkCA r e p c)
    | _ => Err "proto: ChaincodeAction"
    end
}.

#[export] Instance f_response_payload : Fields ProposalResponsePayload := {
  to_fields p := [prp_ProposalHash p; opt (prp_Extension p)];
  of_fields l := match l with [h; e] => Ok (mkPRP h (of_opt e)) | _ => Err "proto: ProposalResponsePayload" end
}.

#[export] Instance f_endorsement : Fields Endorsement := {
  to_fields e := [end_Endorser e; end_Signature e];
  of_fields l := match l with [e; s] => Ok (mkEndorsement e s) | _ => Err "proto: Endorsement" end
}.

#[export] Instance f_endorsed_action : Fields ChaincodeEndorsedAction := {
  to_fields a := opt (cea_ProposalResponsePayload a) :: (cea_Endorsements a ≫= to_fields);
  of_fields l := match l with p :: l => Ok (mkCEA (of_opt p) (fields_endorsements l)) | _ => Err "proto: ChaincodeEndorsedAction" end
}.

#[export] Instance f_action_payload : Fields ChaincodeActionPayload := {
  to_fields c := [cap_ChaincodeProposalPayload c; sub (cap_Action c)];
  of_fields l := match l with [p; a] => a ← of_sub a; Ok (mkCAP p a) | _ => Err "proto: ChaincodeActionPayload" end
}.

#[export] Instance f_transaction : Fields Transaction := {
  to_fields t := tx_Actions t ≫= fun a => [ta_Header a; ta_Payload a];
  of_fields l := Ok (mkTransaction (fields_actions l))
}.

#[export] Instance f_proposal : Fields Proposal := {
  to_fields p := [prop_Header p; prop_Payload p];
  of_fields l := match l with [h; p] => Ok (mkProposal h p) | _ => Err "proto: Proposal" end
}.

#[export] Instance f_proposal_response : Fields ProposalResponse := {
  to_fields p := [to_bits (pr_Version p); sub (pr_Response p); pr_Payload p; sub (pr_Endorsement p)];
  of_fields l :=
    match l with
    | [v; r; p; e] => v ← from_bits v; r ← of_sub r; e ← of_sub e; Ok (mkProposalResponse v r p e)
    | _ => Err "proto: ProposalResponse"
    end
}.

#[export] Instance f_envelope : Fields Envelope := {
  to_fields e := [env_Payload e; env_Signature e];
  of_fields l := match l with [p; s] => Ok (mkEnvelope p s) | _ => Err "proto: Envelope" end
}.

#[export] Instance f_deployment : Fields ChaincodeDeploymentSpec := {
  to_fields c := [sub (cds_ChaincodeSpec c); cds_CodePackage c];
  of_fields l := match l with [s; p] => s ← of_sub s; Ok (mkCDS s p) | _ => Err "proto: ChaincodeDeploymentSpec" end
}.

#[export] Instance f_cds_data : Fields CDSData := {
  to_fields d := [CodeHash d; MetaDataHash d];
  of_fields l := match l with [c; m] => Ok (mkCDSData c m) | _ => Err "proto: CDSData" end
}.

#[export] Instance f_signed_cds_data : Fields SignedCDSData := {
  to_fields d := [sCodeHash d; sMetaDataHash d; SignatureHash d];
  of_fields l := match l with [c; m; s] => Ok (mkSignedCDSData c m s) | _ => Err "proto: SignedCDSData" end
}.

#[export] Instance f_signed_cds : Fields SignedChaincodeDeploymentSpec := {
  to_fields s := scds_ChaincodeDeploymentSpec s :: scds_InstantiationPolicy s :: (scds_OwnerEndorsements s ≫= to_fields);
  of_fields l := match l with d :: p :: l => Ok (mkSignedCDS d p (fields_endorsements l)) | _ => Err "proto: SignedChaincodeDeploymentSpec" end
}.

#[export] Instance f_chaincode_data : Fields ChaincodeData := {
  to_fields c := [to_bytes (cd_Name c); to_bytes (cd_Version c); to_bytes (cd_Escc c); to_bytes (cd_Vscc c);
                  cd_Policy c; cd_Data c; cd_Id c; cd_InstantiationPolicy c];
  of_fields l :=
    match l with
    | [n; v; e; w; p; d; i; ip] => Ok (mkChaincodeData (to_string n) (to_string v) (to_string e) (to_string w) p d i ip)
    | _ => Err "proto: ChaincodeData"
    end
}.

(** *** The codecs *)

#[export] Instance field_packages : PackageCodec := {
  unmarshal_SignedCDS := get;
  unmarshal_CDSData := get;
  unmarshal_SignedCDSData := get;
  sha_Sum b := Ok [uint8 (checksum 1 0 b)]
}.

#[export] Instance field_proto : ProtoCodec := {
  unmarshal_Envelope := get;
  unmarshal_Payload := get;
  unmarshal_ChannelHeader := get;
  unmarshal_Transaction := get;
  unmarshal_ChaincodeActionPayload := get;
  unmarshal_ProposalResponsePayload := get;
  unmarshal_ChaincodeAction := get
}.

#[export] Instance field_responses : ResponseCodec := {
  unmarshal_ProposalResponse := get;
  unmarshal_Response := get;
  unmarshal_ChaincodeID := get
}.

#[export] Instance field_signatures : SignatureCodec := {
  unmarshal_SignatureHeader := get;
  unmarshal_SignaturePolicyEnvelope := @unmarshal_SignaturePolicyEnvelope PeerDemo.demo_signatures;
  marshal_MSPRole := @marshal_MSPRole PeerDemo.demo_signatures
}.

#[export] Instance field_tx : TxCodec := {
  unmarshal_Header := get;
  unmarshal_Proposal := get;
  unmarshal_ChaincodeHeaderExtension := get;
  unmarshal_ChaincodeProposalPayload := get;
  unmarshal_ChaincodeInvocationSpec := get;
  unmarshal_ChaincodeDeploymentSpec := get;
  unmarshal_ChaincodeData := get;
  unmarshal_SerializedIdentity := @unmarshal_SerializedIdentity PeerDemo.demo_tx_codec;
  marshal_SignaturePolicyEnvelope := @marshal_SignaturePolicyEnvelope PeerDemo.demo_tx_codec;
  ValidateDeploymentSpec _ := Ok tt
}.

Lemma of_chaincode_id (c : ChaincodeID) : of_fields (to_fields c) = Ok c.
Proof. destruct c. cbn. by rewrite !string_bytes. Qed.

Lemma of_response (r : Response) : status_ok r -> of_fields (to_fields r) = Ok r.
Proof.
  intros Hs. destruct r as [s m p]. unfold status_ok in Hs. cbn [resp_Status] in Hs. cbn [to_fields of_fields f_response resp_Status resp_Message resp_Payload].
  rewrite from_to_bits, res_ret_bind, string_bytes. destruct (- 2 ^ 31 <=? s) eqn:E1; [|lia]. destruct (s <? 2 ^ 31) eqn:E2; [done|lia].
Qed.

Lemma of_spec (s : ChaincodeSpec) : of_fields (to_fields s) = Ok s.
Proof.
  destruct s as [t c i]. cbn [to_fields of_fields f_spec spec_Type spec_ChaincodeId spec_Input]. rewrite from_to_bits, res_ret_bind, (of_sub_sub c) by (intros; apply of_chaincode_id).
  by rewrite res_ret_bind, (of_sub_sub i).
Qed.

Lemma of_endorsements (es : list Endorsement) : fields_endorsements (es ≫= to_fields) = es.
Proof. induction es as [|[e s] es IH]; [done|]. cbn. by rewrite <- IH at 2. Qed.

Lemma of_endorsed_action (a : ChaincodeEndorsedAction) : of_fields (to_fields a) = Ok a.
Proof. destruct a as [p es]. cbn [to_fields of_fields f_endorsed_action cea_ProposalResponsePayload cea_Endorsements]. by rewrite of_opt_opt, of_endorsements. Qed.

Lemma of_actions (l : list TransactionAction) : fields_actions (l ≫= fun a => [ta_Header a; ta_Payload a]) = l.
Proof. induction l as [|[h p] l IH]; [done|]. cbn. by rewrite <- IH at 2. Qed.

#[export] Instance field_messages : TxMessages.
Proof.
  split; try (apply fields_spec; intros t Ht).
  - by destruct t.
  - destruct t. cbn [to_fields of_fields f_channel_header]. by rewrite from_to_bits.
  - by destruct t.
  - destruct t as [h d]. cbn [to_fields of_fields f_payload pl_Header pl_Data]. rewrite of_sub_sub; [done|]. by intros [].
  - destruct t as [v c]. cbn [to_fields of_fields f_extension che_PayloadVisibility che_ChaincodeId]. rewrite of_sub_sub by (intros; apply of_chaincode_id).
    by rewrite of_opt_opt.
  - destruct t as [s]. cbn [to_fields of_fields f_invocation cis_ChaincodeSpec]. by rewrite of_sub_sub by (intros; apply of_spec).
  - destruct t as [i m]. cbn [to_fields of_fields f_proposal_payload cpp_Input cpp_TransientMap]. by rewrite from_to_bits.
  - destruct t as [r e p c]. cbn [to_fields of_fields f_action ca_Results ca_Events ca_Response ca_ChaincodeId].
    rewrite (of_sub_sub p) by (intros; by apply of_response, Ht). by rewrite res_ret_bind, (of_sub_sub c) by (intros; apply of_chaincode_id).
  - destruct t. cbn -[of_opt opt]. by rewrite of_opt_opt.
  - destruct t as [p a]. cbn [to_fields of_fields f_action_payload cap_ChaincodeProposalPayload cap_Action].
    by rewrite of_sub_sub by (intros; apply of_endorsed_action).
  - destruct t as [l]. cbn [to_fields of_fields f_transaction tx_Actions]. by rewrite of_actions.
  - by destruct t.
  - by apply of_response.
  - apply of_chaincode_id.
  - destruct t as [v r p e]. cbn [to_fields of_fields f_proposal_response pr_Version pr_Response pr_Payload pr_Endorsement].
    rewrite from_to_bits, res_ret_bind, (of_sub_sub r) by (intros; by apply of_response, Ht). rewrite res_ret_bind, (of_sub_sub e); [done|]. by intros [].
  - by destruct t.
  - intros b r. cbn. unfold get. cbn [of_fields f_response]. destruct (tail (fields b)) as [|x [|y [|z []]]]; try done. intros E.
    apply res_bind_Ok in E as (st & _ & E). destruct (- 2 ^ 31 <=? st) eqn:E1; [|done]. destruct (st <? 2 ^ 31) eqn:E2; [|done].
    injection E as <-. unfold status_ok. cbn. lia.
Qed.

End FieldCodec.

(** ** A client and two peers *)

Module EndorserDemo.
Import PeerDemo FieldCodec TxCreation Endorser.

(** The identity [id], with its signatures. *)
Definition signer_of (id : bytes) : SigningIdentity := mkSigningIdentity (Ok id) (fun msg => Ok (sign id msg)).

Definition mycc : ChaincodeData := mkChaincodeData "mycc" "1" "escc" "vscc" both [] [] org1.
Definition mycc_data : bytes := put mycc.

(** The channel has the chaincode [mycc]. *)
Definition channel_ledger : toy := (["old"], [("lscc", "mycc", mycc_data)]).

(** A peer with the chaincode [mycc], which writes a value under a key. *)
Definition demo_execute (sid : res SigningIdentity) (ch name ver : string) (args : list bytes) : ST (option TxRwSet) (Response * option unit) :=
  if decide (name = "escc") then r ← st_lift (ESCC.Invoke sid (Some <$> args)); mret (r, None)
  else
    match args with
    | [f; k; v] =>
        if decide (name = "lscc") then
          mret (if decide (f = to_bytes "getccdata" /\ v = to_bytes "mycc") then shim_Success mycc_data else shim_Error "not found", None)
        else if decide (name = "mycc") then
          st_modify (fmap (fun rw : TxRwSet => rw ++ [write name (to_string k) (to_string v)]));;
          mret (shim_Success v, Some tt)
        else mret (shim_Error "no such chaincode", None)
    | _ => mret (shim_Error "arguments", None)
    end.

Definition demo_peer (id : bytes) : Peer := {|
  Ledger := toy;
  Sim := TxRwSet;
  Event := unit;
  GetLedger := demo_GetLedger channel_ledger;
  GetTransactionByID := ledger_GetTransactionByID;
  NewTxSimulator _ := Ok [];
  NewHistoryQueryExecutor _ := Ok tt;
  GetTxSimulationResults s := (s, ToProtoBytes s);
  ExecuteChaincode := demo_execute (Ok (signer_of id));
  Execute _ _ := mret tt;
  installed _ _ := unmarshal_ChaincodeData mycc_data;
  CheckPolicy _ _ := Ok tt;
  marshal_Event _ := Ok (to_bytes "event");
  SysCCVersion := "1.0"
|}.

Definition mycc_spec : ChaincodeInvocationSpec :=
  mkCIS (Some (mkChaincodeSpec GOLANG (Some (mkChaincodeID "mycc" "")) (Some [to_bytes "put"; to_bytes "k"; to_bytes "v"]))).

Definition demo_nonce : bytes := to_bytes "n7".

Definition demo_proposal : Proposal * string :=
  match CreateChaincodeProposalWithTransient 5 (Ok demo_nonce) ENDORSER_TRANSACTION "ch" mycc_spec alice {["secret" := to_bytes "42"]} with
  | Ok r => r
  | _ => (mkProposal [] [], "")
  end.

Definition demo_signed : SignedProposal :=
  match GetSignedProposal demo_proposal.1 (signer_of alice) with Ok sp => sp | _ => mkSignedProposal [] [] end.

Definition demo_response (id : bytes) : ProposalResponse :=
  match ProcessProposal (demo_peer id) demo_signed with Ok (Some r, None) => r | _ => mkProposalResponse 0 None [] None end.

Definition demo_envelope : Envelope :=
  match CreateSignedTx demo_proposal.1 (signer_of alice) [demo_response peer1; demo_response peer2] with
  | Ok env => env
  | _ => mkEnvelope [] []
  end.

Definition demo_bytes : bytes := match marshal demo_envelope with Ok b => b | _ => [] end.

Definition validating (chid name ver : string) (args : list bytes) : res VSCC.Response :=
  if decide (name = "vscc") then VSCC.Invoke (demo_GetLedger channel_ledger) (Some <$> args) else Err "no such chaincode".

End EndorserDemo.

(** ** Witnesses *)

Module EndorserWitnesses.
Import PeerDemo FieldCodec EndorsementFacts TxCreation Endorser EndorserFacts Acceptance TxValidator EndorserDemo EndorserTheorems.

Lemma escc_status sid args r : ESCC.Invoke sid args = Ok r -> status_ok r.
Proof.
  unfold ESCC.Invoke. destruct (_ <? _)%nat; [by intros [= <-]|]. destruct (_ <? _)%nat; [by intros [= <-]|].
  destruct (ESCC.endorse _ _); try done; by intros [= <-].
Qed.

Lemma demo_execute_inv sid ch name ver args s s' r ev :
  demo_execute sid ch name ver args s = (s', Ok (r, ev)) ->
  (name = "escc" -> ESCC.Invoke sid (Some <$> args) = Ok r) /\ status_ok r.
Proof.
  unfold demo_execute. case_decide as Hn.
  - intros E. apply st_bind_inv in E as (s1 & r1 & E1 & E). injection E1 as <- E1. injection E as _ <- _. split; [done|by eapply escc_status].
  - intros E. split; [done|]. destruct args as [|f [|k [|v []]]]; try (by injection E as _ <- _).
    case_decide; [case_decide; by injection E as _ <- _|]. case_decide; by injection E as _ <- _.
Qed.

Lemma demo_serves id : serves (demo_peer id) (Ok (signer_of id)).
Proof.
  split.
  - intros ch ver args s s' r ev E. cbn in E. by eapply demo_execute_inv.
  - intros ch name ver args s s' r ev E. cbn in E. by eapply demo_execute_inv.
  - intros ch name s s' cd E. unfold GetChaincodeDataFromLSCC in E. apply st_bind_inv in E as (s1 & [r ev] & E1 & E). injection E as _ E.
    cbn [ExecuteChaincode demo_peer] in E1. unfold demo_execute in E1. rewrite decide_False, decide_True in E1 by done.
    injection E1 as _ <- _. case_decide; [|done]. vm_compute in E. by injection E as <-.
Qed.

Lemma alice_signs : signs_for "ch" (signer_of alice) alice.
Proof.
  split; [done|]. intros msg sig [= <-]. split; [done|]. exists demo_msp, alice. repeat (split; [done|]). cbn. by rewrite decide_True.
Qed.

Lemma demo_proposed :
  CreateChaincodeProposalWithTransient 5 (Ok demo_nonce) ENDORSER_TRANSACTION "ch" mycc_spec alice {["secret" := to_bytes "42"]} = Ok demo_proposal.
Proof. vm_compute. exact eq_refl. Qed.

Lemma demo_signs : GetSignedProposal demo_proposal.1 (signer_of alice) = Ok demo_signed.
Proof. vm_compute. exact eq_refl. Qed.

Lemma demo_processed : ProcessProposal (demo_peer peer1) demo_signed = Ok (Some (demo_response peer1), None).
Proof. vm_compute. exact eq_refl. Qed.

Lemma demo_tx_signed : CreateSignedTx demo_proposal.1 (signer_of alice) [demo_response peer1; demo_response peer2] = Ok demo_envelope.
Proof. vm_compute. exact eq_refl. Qed.

Lemma demo_first_endorsement :
  pr_Endorsement (demo_response peer1) = Some (mkEndorsement peer1 (sign peer1 (pr_Payload (demo_response peer1) ++ peer1))).
Proof. vm_compute. exact eq_refl. Qed.

(** The status of the responses after the first is not looked at. *)
Example second_status_unchecked :
  match CreateSignedTx demo_proposal.1 (signer_of alice)
    [demo_response peer1; mkProposalResponse 0 (Some (mkResponse 500 "error" [])) (pr_Payload (demo_response peer2)) (pr_Endorsement (demo_response peer2))] with
  | Ok env => env = demo_envelope
  | _ => False
  end.
Proof. vm_compute. exact eq_refl. Qed.

Lemma demo_submitted :
  submitted "ch" (mkChaincodeID "mycc" "") mycc_spec alice demo_nonce (demo_peer peer1) (Ok (signer_of peer1)) demo_proposal.1 demo_proposal.2
    (demo_response peer1) [demo_response peer2] demo_envelope demo_bytes.
Proof.
  split; try done.
  - by do 2 eexists.
  - exists 5, {["secret" := to_bytes "42"]}. rewrite demo_proposed. by destruct demo_proposal.
  - exists (signer_of alice), demo_signed. split; [exact alice_signs|]. split; [exact demo_signs|]. split; [exact demo_processed|exact demo_tx_signed].
  - apply demo_serves.
Qed.

Lemma signed_tx_carries_simulation_witness :
  exists cd r results evB, endorses (demo_peer peer1) (Ok (signer_of peer1)) "ch" demo_proposal.1 (mkChaincodeID "mycc" "") (demo_response peer1) cd r results evB.
Proof.
  destruct (signed_tx_carries_simulation _ _ _ _ _ _ _ _ _ _ _ _ _ demo_submitted) as (cd & r & results & evB & _ & He & _).
  by exists cd, r, results, evB.
Defined.

Lemma endorsement_safe_witness :
  exists prop hdr ext chdr cid, vetted (demo_peer peer1) demo_signed prop hdr ext chdr cid.
Proof.
  destruct (endorsement_safe _ _ demo_signed (demo_response peer1) None _ (demo_serves peer1) demo_processed demo_first_endorsement)
    as (_ & prop & hdr & ext & chdr & _ & cid & _ & _ & _ & _ & A & _).
  by exists prop, hdr, ext, chdr, cid.
Defined.

Definition demo_endorsements : list Endorsement := default [] (mapM pr_Endorsement [demo_response peer1; demo_response peer2]).

Definition demo_action : ChaincodeAction := match GetActionFromEnvelope demo_bytes with Ok ca => ca | _ => mkCA [] [] None None end.

Lemma demo_endorsed : mapM pr_Endorsement [demo_response peer1; demo_response peer2] = Some demo_endorsements.
Proof. vm_compute. exact eq_refl. Qed.

Lemma demo_identities : identity_of <$> demo_endorsements = Ok <$> ["Org1peer1"; "Org2peer2"].
Proof. vm_compute. exact eq_refl. Qed.

Lemma demo_distinct : distinct_endorsers demo_endorsements.
Proof. exists ["Org1peer1"; "Org2peer2"]. split; [exact demo_identities|]. by apply (bool_decide_unpack _). Qed.

Lemma demo_action_ok : GetActionFromEnvelope demo_bytes = Ok demo_action.
Proof. vm_compute. exact eq_refl. Qed.

Lemma demo_action_id : ca_ChaincodeId demo_action = Some (mkChaincodeID "mycc" "1").
Proof. vm_compute. exact eq_refl. Qed.

Lemma demo_results : FromProtoBytes (ca_Results demo_action) = Ok [write "mycc" "k" "v"].
Proof. vm_compute. exact eq_refl. Qed.

(** Whether the policy of [mycc] accepts the endorsements. *)
Definition demo_evaluate : res unit :=
  policy ← VSCC.new_policy (GetManagerForChain "ch") both;
  CAuthDSL.Evaluate policy (endorsement_data (pr_Payload (demo_response peer1)) <$> demo_endorsements).

Lemma demo_accepted : demo_evaluate = Ok tt.
Proof. vm_compute. exact eq_refl. Qed.

Lemma demo_accepts ns :
  ns ∈ wrNamespace [write "mycc" "k" "v"] -> ns_accepts channel_ledger "ch" "mycc" "1" (pr_Payload (demo_response peer1)) demo_endorsements ns.
Proof.
  intros Hns. apply list_elem_of_singleton in Hns as ->. pose proof demo_accepted as E. unfold demo_evaluate in E. apply res_bind_Ok in E as (policy & Ep & Ev).
  exists mycc_data, mycc, policy. repeat (split; [done|]). done.
Qed.

Lemma demo_fresh : ledger_GetTransactionByID channel_ledger demo_proposal.2 = Err "not found".
Proof. vm_compute. exact eq_refl. Qed.

Lemma endorsed_tx_valid_witness :
  validate_tx "1.0" validating (fun _ => ["Org1"; "Org2"]) (fun _ => mret tt) channel_ledger demo_bytes tt =
    (tt, Ok (TxValidationCode_VALID, Some (mkInstance "ch" "mycc" "", None))).
Proof.
  exact (endorsed_tx_valid "1.0" validating (fun _ => ["Org1"; "Org2"]) (fun _ => mret tt) (demo_GetLedger channel_ledger)
    _ _ _ _ _ _ _ _ _ _ _ _ _ _ _ _ _ _ tt _ demo_submitted demo_endorsed demo_distinct demo_action_ok demo_action_id
    ltac:(done) demo_results (conj eq_refl eq_refl) ltac:(done) eq_refl ltac:(by intros ???) demo_fresh demo_accepts).
Defined.

End EndorserWitnesses.
