(* ===== verification/LSCC.v ===== *)
(** * The life cycle system chaincode

    core/scc/lscc: installing chaincodes on a peer, deploying and upgrading them
    on a channel, and asking for them. *)

From stdpp Require Import base gmap strings list.
From Stdlib Require Import Ascii ZArith Lia.
From S2P Require Import Prelude StateDB Merkle RWSet TxMgr Proto CAuthDSL MsgValidation VSCC CCPackages Endorser.
Import ProtoUtils TxUtils SystemChaincodes CCProvider.
Local Open Scope Z_scope.

(** ** The stub of a chaincode

    [shim.ChaincodeStubInterface], over the simulator of a transaction: the
    state of the chaincode's namespace. *)
Class ChaincodeStub (St : Type) := {
  stub_GetState : string -> ST St (option bytes);
  stub_PutState : string -> bytes -> ST St unit
}.

(** The values that an iterator over a range gives, one after the other. *)
Class StubRange (St : Type) := {
  stub_GetStateByRange : string -> string -> ST St (list (res bytes))
}.

(** core/chaincode/shim and handler.go: the stub of the namespace [ns] over a
    simulator of the state database. *)
Definition simulator_stub {DB : Type} `{VersionedDB DB} `{Merkle.Hashing} `{RWSetUtil.RWSetCodec} (db : DB) (ns : string) :
    ChaincodeStub (QueryHelper.queryHelper DB) := {|
  stub_GetState key := QueryHelper.getState db ns key;
  stub_PutState key value :=
    if decide (key = "") then st_lift (Err "key must not be an empty string") else QueryHelper.SetState db ns key (Some value)
|}.

Module LSCC.

(** ** Names and versions *)

Definition alphanumeric (c : ascii) : bool :=
  let n := byte_val c in ((48 <=? n) && (n <=? 57)) || ((65 <=? n) && (n <=? 90)) || ((97 <=? n) && (n <=? 122)).

(** The classes [A-Za-z0-9_-] and [A-Za-z0-9_.-] *)
Definition allowedCharsChaincodeName (c : ascii) : bool := alphanumeric c || bool_decide (c = "_"%char) || bool_decide (c = "-"%char).
Definition allowedCharsVersion (c : ascii) : bool := allowedCharsChaincodeName c || bool_decide (c = "."%char).

Definition isValidCCNameOrVersion (ccNameOrVersion : string) (ok : ascii -> bool) : bool :=
  (length (find_run ok ok (to_bytes ccNameOrVersion)) =? length (to_bytes ccNameOrVersion))%nat.

Definition isValidChaincodeName (chaincodeName : string) : res unit :=
  if decide (chaincodeName = "") then Err "chaincode name not provided"
  else if negb (isValidCCNameOrVersion chaincodeName allowedCharsChaincodeName)
  then Err ("invalid chaincode name '" +:+ chaincodeName +:+ "'. Names can only consist of alphanumerics, '_', and '-'")
  else Ok tt.

Definition isValidChaincodeVersion (chaincodeName version : string) : res unit :=
  if decide (version = "") then Err ("version not provided for chaincode with name '" +:+ chaincodeName +:+ "'")
  else if negb (isValidCCNameOrVersion version allowedCharsVersion)
  then Err ("invalid chaincode version '" +:+ version +:+ "'. Versions can only consist of alphanumerics, '_',  '-', and '.'")
  else Ok tt.

Definition isValidChainName (chainname : string) : bool := negb (bool_decide (chainname = "")).

Section LSCC.
Context `{ProtoCodec} `{SignatureCodec} `{TxCodec} `{PackageCodec} `{MSPManagers}.
Context `{!Message ChaincodeDeploymentSpec} `{!Message CDSData} `{!Message SignedCDSData} `{!Message ChaincodeData}
  `{!Message (list ChaincodeInfo)}.
Context {St : Type} `{ChaincodeStub St} `{StubRange St}.

(** [peer.GetMSPIDs] *)
Context (GetMSPIDs : string -> list string).

(** The policy checker: the administrators of the peer, and the readers of a
    channel. *)
Context (CheckPolicyNoChannel : SignedProposal -> res unit).
Context (CheckPolicy : string -> SignedProposal -> res unit).

(** [stub.GetSignedProposal] *)
Context (GetSignedProposal : res SignedProposal).

(** The state of the stub, and the packages on the file system. *)
#[local] Abbreviation LST := (ST (St * Files)).

Definition on_stub {A} (m : ST St A) : LST A := fun s => let '(st, r) := m s.1 in ((st, s.2), r).
Definition get_fs : LST Files := fun s => (s, Ok s.2).
Definition set_fs (fs : Files) : LST unit := fun s => ((s.1, fs), Ok tt).

(** ** Chaincodes on the channel *)

Definition putChaincodeData (cd : ChaincodeData) : LST unit :=
  if negb (IsSysCC (cd_Escc cd)) then st_lift (Err (cd_Escc cd +:+ " is not a valid endorsement system chaincode"))
  else if negb (IsSysCC (cd_Vscc cd)) then st_lift (Err (cd_Vscc cd +:+ " is not a valid validation system chaincode"))
  else
    cdbytes ← st_lift (marshal cd);
    on_stub (stub_PutState (cd_Name cd) cdbytes).

Definition createChaincode (cd : ChaincodeData) : LST unit := putChaincodeData cd.
Definition upgradeChaincode (cd : ChaincodeData) : LST unit := putChaincodeData cd.

Definition getCCInstance (ccname : string) : LST bytes := fun s =>
  match on_stub (stub_GetState ccname) s with
  | (s, Ok (Some cdbytes)) => (s, Ok cdbytes)
  | (s, Ok None) => (s, Err ("could not find chaincode with name '" +:+ ccname +:+ "'"))
  | (s, Err e) => (s, Err ("transaction not found " +:+ e))
  | (s, Panic m) => (s, Panic m)
  | (s, OutOfFuel) => (s, OutOfFuel)
  end.

Definition getChaincodeData (ccname : string) (cdbytes : bytes) : res ChaincodeData :=
  cd ← or_fail ("error while marshalling " +:+ ccname) (unmarshal_ChaincodeData cdbytes);
  if negb (bool_decide (cd_Name cd = ccname)) then Err ("chaincode name mismatch " +:+ ccname +:+ "!=" +:+ cd_Name cd) else Ok cd.

Definition prefix_error {A} (m : string) (r : res A) : res A := match r with Err e => Err (m +:+ e) | r => r end.

Definition getCCCode (fs : Files) (ccname : string) (cdbytes : bytes) : res (ChaincodeData * ChaincodeDeploymentSpec * bytes) :=
  cd ← getChaincodeData ccname cdbytes;
  ccpack ← prefix_error "invalid deployment spec : " (GetChaincodeFromFS fs ccname (cd_Version cd));
  prefix_error "chaincode fingerprint mismatch " (pack_ValidateCC ccpack cd);;
  depspec ← pack_GetDepSpec ccpack;
  depspecbytes ← pack_GetDepSpecBytes ccpack;
  Ok (cd, depspec, depspecbytes).

(** The loop over the entries of the table.  The package of a chaincode is looked
    up for its path, which is only shown; it may be missing. *)
Fixpoint chaincode_infos (fs : Files) (values : list (res bytes)) : res (list ChaincodeInfo) :=
  match values with
  | [] => Ok []
  | v :: values =>
      b ← v;
      ccdata ← unmarshal_ChaincodeData b;
      match GetChaincodeFromFS fs (cd_Name ccdata) (cd_Version ccdata) with Err _ => Ok tt | r => r;; Ok tt end;;
      l ← chaincode_infos fs values;
      Ok (mkChaincodeInfo (cd_Name ccdata) (cd_Version ccdata) (cd_Escc ccdata) (cd_Vscc ccdata) :: l)
  end.

(** An error is an error response. *)
Definition respond (m : LST bytes) : LST Response := fun s =>
  match m s with
  | (s, Ok b) => (s, Ok (shim_Success b))
  | (s, Err e) => (s, Ok (shim_Error e))
  | (s, Panic m) => (s, Panic m)
  | (s, OutOfFuel) => (s, OutOfFuel)
  end.

Definition getChaincodes : LST Response := respond (
  values ← on_stub (stub_GetStateByRange "" "");
  fs ← get_fs;
  st_lift (infos ← chaincode_infos fs values; marshal infos)).

Definition getInstalledChaincodes : LST Response := respond (
  fs ← get_fs;
  st_lift (cqr ← GetInstalledChaincodes fs; marshal cqr)).

(** ** Installing *)

Definition executeInstall (ccbytes : bytes) : LST unit :=
  ccpack ← st_lift (GetCCPackage ccbytes);
  cid ← st_lift (cds ← pack_GetDepSpec ccpack; chaincode_id cds);
  st_lift (isValidChaincodeName (cid_Name cid));;
  st_lift (isValidChaincodeVersion (cid_Name cid) (cid_Version cid));;
  fs ← get_fs;
  fs ← st_lift (prefix_error "Error installing chaincode code " (pack_PutChaincodeToFS ccpack fs));
  set_fs fs.

(** ** Instantiation policies *)

(** Without a policy of the package, any administrator of the channel. *)
Definition getInstantiationPolicy (channel : string) (ccpack : package) : res bytes :=
  match ccpack with
  | Signed sccpack =>
      ip ← GetInstantiationPolicy sccpack;
      if is_nil ip then Err "Instantiation policy cannot be null for a SignedCCDeploymentSpec" else Ok ip
  | Raw _ =>
      or_fail "Error marshalling default instantiation policy"
        (marshal_SignaturePolicyEnvelope (CAuthDSL.SignedByAnyAdmin (GetMSPIDs channel)))
  end.

Definition checkInstantiationPolicy (chainName : string) (instantiationPolicy : bytes) : res unit :=
  match GetManagerForChain chainName with
  | None => Err ("Error checking chaincode instantiation policy: MSP manager for chain " +:+ chainName +:+ " not found")
  | Some mgr =>
      instPol ← VSCC.new_policy (Some mgr) instantiationPolicy;
      signedProp ← GetSignedProposal;
      proposal ← unmarshal_Proposal (sp_ProposalBytes signedProp);
      header ← unmarshal_Header (prop_Header proposal);
      shdr ← GetSignatureHeader (hdr_SignatureHeader header);
      match CAuthDSL.Evaluate instPol [mkSignedData (sp_ProposalBytes signedProp) (sh_Creator shdr) (sp_Signature signedProp)] with
      | Err e => Err ("chaincode instantiation policy violated(" +:+ e +:+ ")")
      | r => r
      end
  end.

(** ** Deploying and upgrading *)

(** The data of the package, with those of the channel. *)
Definition channel_data (cd : ChaincodeData) (escc vscc policy ip : bytes) : ChaincodeData :=
  mkChaincodeData (cd_Name cd) (cd_Version cd) (to_string escc) (to_string vscc) policy (cd_Data cd) (cd_Id cd) ip.

(** The package that is deployed, its data filled in and its instantiation
    policy checked. *)
Definition package_data (fs : Files) (chainname : string) (cid : ChaincodeID) (policy escc vscc : bytes) (what : string) : res ChaincodeData :=
  ccpack ← prefix_error ("cannot get package for the chaincode to be " +:+ what) (GetChaincodeFromFS fs (cid_Name cid) (cid_Version cid));
  cd ← pack_GetChaincodeData ccpack;
  ip ← getInstantiationPolicy chainname ccpack;
  checkInstantiationPolicy chainname ip;;
  Ok (channel_data cd escc vscc policy ip).

(** The id of the chaincode of a deployment specification, its name and version
    checked; [acl] admits everything. *)
Definition deployed_id (depSpec : bytes) : res ChaincodeID :=
  cds ← GetChaincodeDeploymentSpec depSpec;
  cid ← chaincode_id cds;
  isValidChaincodeName (cid_Name cid);;
  isValidChaincodeVersion (cid_Name cid) (cid_Version cid);;
  Ok cid.

(** Any failure to find the chaincode counts as its absence. *)
Definition instantiated (ccname : string) : LST (option bytes) := fun s =>
  match getCCInstance ccname s with
  | (s, Ok b) => (s, Ok (Some b))
  | (s, Err _) => (s, Ok None)
  | (s, Panic m) => (s, Panic m)
  | (s, OutOfFuel) => (s, OutOfFuel)
  end.

Definition executeDeploy (chainname : string) (depSpec policy escc vscc : bytes) : LST ChaincodeData :=
  cid ← st_lift (deployed_id depSpec);
  old ← instantiated (cid_Name cid);
  match old with
  | Some _ => st_lift (Err ("chaincode exists " +:+ cid_Name cid))
  | None =>
      fs ← get_fs;
      cd ← st_lift (package_data fs chainname cid policy escc vscc "instantiated");
      createChaincode cd;;
      mret cd
  end.

(** The chaincode that is replaced: another version, by the leave of its
    instantiation policy. *)
Definition check_replaced (chainName : string) (cid : ChaincodeID) (cdbytes : bytes) : res unit :=
  cd ← getChaincodeData (cid_Name cid) cdbytes;
  if bool_decide (cd_Version cd = cid_Version cid) then Err ("version already exists for chaincode with name '" +:+ cid_Name cid +:+ "'")
  else if is_nil (cd_InstantiationPolicy cd) then Err "instantiation policy missing"
  else checkInstantiationPolicy chainName (cd_InstantiationPolicy cd).

Definition executeUpgrade (chainName : string) (depSpec policy escc vscc : bytes) : LST ChaincodeData :=
  cid ← st_lift (deployed_id depSpec);
  old ← instantiated (cid_Name cid);
  match old with
  | None => st_lift (Err ("could not find chaincode with name '" +:+ chainName +:+ "'"))
  | Some cdbytes =>
      st_lift (check_replaced chainName cid cdbytes);;
      fs ← get_fs;
      cd ← st_lift (package_data fs chainName cid policy escc vscc "upgraded");
      upgradeChaincode cd;;
      mret cd
  end.

(** ** Invoke *)

Definition invalid_args_len {A} : LST A := st_lift (Err "invalid number of argument to lscc").

(** An argument, empty if it is nil or missing. *)
Definition arg (args : list (option bytes)) (i : nat) : bytes := default [] (default None (args !! i)).

(** The endorsement policy: any member of the channel unless it is given. *)
Definition policy_arg (chainname : string) (args : list (option bytes)) : res bytes :=
  match arg args 3 with
  | [] => marshal_SignaturePolicyEnvelope (CAuthDSL.SignedByAnyMember (GetMSPIDs chainname))
  | policy => Ok policy
  end.

(** The name of a system chaincode: the default if it is nil or missing. *)
Definition scc_arg (args : list (option bytes)) (i : nat) (default_ : string) : bytes :=
  match args !! i with Some (Some b) => b | _ => to_bytes default_ end.

Definition deploy_or_upgrade (upgrade : bool) (args : list (option bytes)) : LST bytes :=
  if (length args <? 3)%nat || (6 <? length args)%nat then invalid_args_len
  else
    let chainname := to_string (arg args 1) in
    if negb (isValidChainName chainname) then st_lift (Err ("invalid chain name " +:+ chainname))
    else
      policy ← st_lift (policy_arg chainname args);
      let escc := scc_arg args 4 "escc" in
      let vscc := scc_arg args 5 "vscc" in
      cd ← (if upgrade then executeUpgrade else executeDeploy) chainname (arg args 2) policy escc vscc;
      st_lift (marshal cd).

(** The name of a chaincode, its data or its code. *)
Definition query (function : string) (args : list (option bytes)) (sp : SignedProposal) : LST bytes :=
  if negb (length args =? 3)%nat then invalid_args_len
  else
    let ccname := to_string (arg args 2) in
    st_lift (prefix_error "Authorization has been denied with error " (CheckPolicy (to_string (arg args 1)) sp));;
    cdbytes ← getCCInstance ccname;
    if decide (function = "getid") then st_lift (cd ← getChaincodeData ccname cdbytes; Ok (to_bytes (cd_Name cd)))
    else if decide (function = "getccdata") then mret cdbytes
    else
      fs ← get_fs;
      st_lift ('(_, _, depspecbytes) ← getCCCode fs ccname cdbytes; Ok depspecbytes).

Definition install (args : list (option bytes)) (sp : SignedProposal) : LST bytes :=
  if (length args <? 2)%nat then invalid_args_len
  else
    st_lift (prefix_error "Authorization for INSTALL has been denied (error-" (CheckPolicyNoChannel sp));;
    executeInstall (arg args 1);;
    mret (to_bytes "OK").

(** Listing the chaincodes. *)
Definition listing (args : list (option bytes)) (sp : SignedProposal) (k : LST Response) : LST Response := fun s =>
  if negb (length args =? 1)%nat then (s, Ok (shim_Error "invalid number of argument to lscc"))
  else
    match CheckPolicyNoChannel sp with
    | Ok _ => k s
    | Err e => (s, Ok (shim_Error ("Authorization has been denied with error " +:+ e)))
    | Panic m => (s, Panic m)
    | OutOfFuel => (s, OutOfFuel)
    end.

Definition Invoke (args : list (option bytes)) : LST Response :=
  match args with
  | [] => mret (shim_Error "invalid number of argument to lscc 0")
  | f :: _ =>
      let function := to_string (default [] f) in
      fun s =>
      match GetSignedProposal with
      | Err e => (s, Ok (shim_Error ("Failed retrieving signed proposal on executing " +:+ function +:+ " with error " +:+ e)))
      | Panic m => (s, Panic m)
      | OutOfFuel => (s, OutOfFuel)
      | Ok sp =>
          (if decide (function = "install") then respond (install args sp)
           else if decide (function = "deploy") then respond (deploy_or_upgrade false args)
           else if decide (function = "upgrade") then respond (deploy_or_upgrade true args)
           else if decide (function = "getid") then respond (query function args sp)
           else if decide (function = "getdepspec") then respond (query function args sp)
           else if decide (function = "getccdata") then respond (query function args sp)
           else if decide (function = "getchaincodes") then listing args sp getChaincodes
           else if decide (function = "getinstalledchaincodes") then listing args sp getInstalledChaincodes
           else mret (shim_Error ("invalid function to lscc " +:+ function))) s
      end
  end.

End LSCC.
End LSCC.
