(* ===== verification/LifecycleFacts.v ===== *)
(** * Facts about chaincode packages and the life cycle of chaincodes

    The names of the package files, the packages of a peer, the cache of their
    data, and what deploying a chaincode writes. *)

From stdpp Require Import base gmap strings list.
From Stdlib Require Import Ascii ZArith Lia.
From S2P Require Import Prelude StateDB Merkle RWSet TxMgr Proto CAuthDSL MsgValidation VSCC TxValidatorFacts CCPackages Endorser LSCC.
Import ProtoUtils TxUtils SystemChaincodes CCProvider.
Local Open Scope Z_scope.

(** ** Names *)

Module NameFacts.
Import LSCC.

(** The match is as long as the string only if every character is allowed. *)
Lemma isValid_all s ok : isValidCCNameOrVersion s ok = true <-> forallb ok (to_bytes s) = true.
Proof.
  unfold isValidCCNameOrVersion. rewrite Nat.eqb_eq, find_run_all, forallb_forall. destruct (to_bytes s) as [|c b]; [done|].
  rewrite Forall_forall. setoid_rewrite list_elem_of_In. cbn. naive_solver.
Qed.

(** The names and the versions that are admitted. *)
Definition valid_name (name : string) : Prop := name <> "" /\ forallb allowedCharsChaincodeName (to_bytes name) = true.
Definition valid_version (version : string) : Prop := version <> "" /\ forallb allowedCharsVersion (to_bytes version) = true.

Lemma isValidChaincodeName_Ok name : isValidChaincodeName name = Ok tt <-> valid_name name.
Proof.
  unfold isValidChaincodeName, valid_name. case_decide; [split; [done|by intros [? _]]|].
  destruct (isValidCCNameOrVersion _ _) eqn:E; cbn; rewrite <- isValid_all, E; by split; [|intros []].
Qed.

Lemma isValidChaincodeVersion_Ok name version : isValidChaincodeVersion name version = Ok tt <-> valid_version version.
Proof.
  unfold isValidChaincodeVersion, valid_version. case_decide; [split; [done|by intros [? _]]|].
  destruct (isValidCCNameOrVersion _ _) eqn:E; cbn; rewrite <- isValid_all, E; by split; [|intros []].
Qed.

Lemma name_chars name c : valid_name name -> c ∈ to_bytes name -> c <> "."%char /\ c <> "/"%char.
Proof. intros [_ Hn] Hc. rewrite forallb_forall in Hn. specialize (Hn c). split; intros ->; by specialize (Hn (proj1 (list_elem_of_In _ _) Hc)). Qed.

Lemma version_chars version c : valid_version version -> c ∈ to_bytes version -> c <> "/"%char.
Proof. intros [_ Hn] Hc ->. rewrite forallb_forall in Hn. by specialize (Hn _ (proj1 (list_elem_of_In _ _) Hc)). Qed.

Lemma split_dot_app x y : "."%char ∉ x -> split_dot (x ++ "."%char :: y) = Some (x, y).
Proof.
  induction x as [|c x IH]; intros Hx; [done|]. apply not_elem_of_cons in Hx as [Hc Hx]. cbn [app split_dot].
  rewrite decide_False by congruence. by rewrite IH.
Qed.

Lemma split_dot_inv b x y : split_dot b = Some (x, y) -> b = x ++ "."%char :: y /\ "."%char ∉ x.
Proof.
  revert x. induction b as [|c b IH]; intros x E; [done|]. cbn [split_dot] in E. case_decide as Hc.
  - injection E as <- <-. subst c. split; [done|apply not_elem_of_nil].
  - destruct (split_dot b) as [[x' y']|]; [|done]. cbn in E. injection E as <- <-. destruct (IH x' eq_refl) as [-> Hx].
    split; [done|]. by apply not_elem_of_cons.
Qed.

Lemma package_file_bytes name version : to_bytes (package_file name version) = to_bytes name ++ "."%char :: to_bytes version.
Proof. unfold package_file. by rewrite !to_bytes_app. Qed.

(** The file of a package tells its name and its version. *)
Lemma package_file_split name version :
  valid_name name -> split_dot (to_bytes (package_file name version)) = Some (to_bytes name, to_bytes version).
Proof. intros Hn. rewrite package_file_bytes. apply split_dot_app. intros Hc. by apply (name_chars _ _ Hn) in Hc as [? _]. Qed.

Lemma package_file_inj n v n' v' : valid_name n -> valid_name n' -> package_file n v = package_file n' v' -> n = n' /\ v = v'.
Proof.
  intros Hn Hn' E. pose proof (package_file_split n v Hn) as H1. rewrite E, (package_file_split n' v' Hn') in H1.
  injection H1 as H1 H2. split; by apply to_bytes_inj.
Qed.

(** The key of a cache entry without other slashes tells them too. *)
Lemma cache_key_inj n v n' v' :
  "/"%char ∉ to_bytes n -> "/"%char ∉ to_bytes v -> cache_key n v = cache_key n' v' -> n = n' /\ v = v'.
Proof.
  intros Hn Hv E. apply (f_equal to_bytes) in E. unfold cache_key in E. rewrite !to_bytes_app in E. cbn in E.
  assert (to_bytes n = to_bytes n' /\ to_bytes v = to_bytes v') as [? ?]; [|split; by apply to_bytes_inj].
  revert Hn Hv E. generalize (to_bytes n), (to_bytes n'), (to_bytes v), (to_bytes v'). clear. intros x.
  induction x as [|c x IH]; intros x' y y' Hx Hy E; cbn in E.
  - destruct x' as [|c' x']; cbn in E; [by injection E|]. injection E as <- E. destruct Hy. rewrite E. apply elem_of_app. right. left.
  - apply not_elem_of_cons in Hx as [Hc Hx]. destruct x' as [|c' x']; cbn in E; [by injection E as ->|]. injection E as <- E.
    destruct (IH x' y y' Hx Hy E) as [-> ->]. done.
Qed.

End NameFacts.

(** ** Packages *)

Module PackageFacts.
Import LSCC NameFacts.
Section PackageFacts.
Context `{ProtoCodec} `{TxCodec} `{PackageCodec}.
Context `{!Message ChaincodeDeploymentSpec} `{!Message CDSData} `{!Message SignedCDSData}.

(** A package that was initialized from the bytes [buf]: it has the id [cid],
    its methods do not fail, and its bytes are what it writes to a file. *)
Record initialized (pkg : package) (buf : bytes) (cid : ChaincodeID) (cd : ChaincodeData) : Prop := {
  in_id : exists cds, pack_GetDepSpec pkg = Ok cds /\ chaincode_id cds = Ok cid;
  in_put fs : pack_PutChaincodeToFS pkg fs = put_file fs cid buf;
  in_data : pack_GetChaincodeData pkg = Ok cd;
  in_name : cd_Name cd = cid_Name cid;
  in_version : cd_Version cd = cid_Version cid
}.

Lemma raw_initialized b p : InitFromBuffer b = Ok p -> exists cid cd, initialized (Raw p) b cid cd.
Proof.
  intros E. unfold InitFromBuffer in E. apply res_bind_Ok in E as (cds & _ & E). apply res_bind_Ok in E as ([[db i] dt] & Ed & E). injection E as <-.
  unfold getCDSData in Ed. apply res_bind_Ok in Ed as (x & _ & Ed). apply res_bind_Ok in Ed as (ch & _ & Ed). apply res_bind_Ok in Ed as (cid & Ec & _).
  exists cid, (mkChaincodeData (cid_Name cid) (cid_Version cid) "" "" [] db i []).
  split; [by exists cds|..]; cbn; try done; intros; by rewrite Ec.
Qed.

Lemma signed_initialized b p : s_InitFromBuffer b = Ok p -> exists cid cd, initialized (Signed p) b cid cd.
Proof.
  intros E. unfold s_InitFromBuffer in E. apply res_bind_Ok in E as (env & _ & E). apply res_bind_Ok in E as ([ch s] & _ & E).
  destruct (bool_decide _); [|done]. cbn [negb] in E. apply res_bind_Ok in E as (cds & Ecds & E). apply res_bind_Ok in E as ([[db i] dt] & Ed & E). injection E as <-.
  unfold s_getCDSData in Ed. apply res_bind_Ok in Ed as (cds' & Ecds' & Ed). apply res_bind_Ok in Ed as (x & _ & Ed). apply res_bind_Ok in Ed as (cid & Ec & _).
  rewrite Ecds' in Ecds. injection Ecds as ->. exists cid, (mkChaincodeData (cid_Name cid) (cid_Version cid) "" "" [] db i (scds_InstantiationPolicy s)).
  split; [by exists cds|..]; cbn; try done; intros; by rewrite Ec.
Qed.

Lemma package_initialized b pkg : GetCCPackage b = Ok pkg -> exists cid cd, initialized pkg b cid cd.
Proof.
  unfold GetCCPackage, raw_or_signed. destruct (InitFromBuffer b) as [p|e| |] eqn:Er; try done.
  - intros [= <-]. by apply raw_initialized.
  - intros E. apply res_bind_Ok in E as (p & Es & E). injection E as <-. by apply signed_initialized.
Qed.

(** Looking a package up on the file system is reading its file. *)
Lemma FromFS_file fs n v :
  GetChaincodeFromFS fs n v = match fs !! package_file n v with Some b => GetCCPackage b | None => Err "no such file or directory" end.
Proof.
  unfold GetChaincodeFromFS, InitFromFS, s_InitFromFS, GetChaincodePackage. by destruct (fs !! package_file n v).
Qed.

(** Every file is a package, named by its id. *)
Definition file_ok (file : string) (b : bytes) : Prop :=
  exists pkg cid cd, file = package_file (cid_Name cid) (cid_Version cid) /\ valid_name (cid_Name cid) /\ valid_version (cid_Version cid) /\
    GetCCPackage b = Ok pkg /\ initialized pkg b cid cd.

Definition fs_ok (fs : Files) : Prop := forall file b, fs !! file = Some b -> file_ok file b.

Lemma file_no_slash file b : file_ok file b -> "/"%char ∉ to_bytes file.
Proof.
  intros (pkg & cid & cd & -> & Hn & Hv & _) Hs. rewrite package_file_bytes in Hs. apply elem_of_app in Hs as [Hs|Hs].
  - by apply (name_chars _ _ Hn) in Hs as [_ ?].
  - apply elem_of_cons in Hs as [Hs|Hs]; [done|]. by apply (version_chars _ _ Hv) in Hs.
Qed.

Lemma lookup_ok fs n v pkg :
  fs_ok fs -> valid_name n -> GetChaincodeFromFS fs n v = Ok pkg ->
  exists b cd, fs !! package_file n v = Some b /\ GetCCPackage b = Ok pkg /\ initialized pkg b (mkChaincodeID n v) cd.
Proof.
  intros Hok Hn E. rewrite FromFS_file in E. destruct (fs !! package_file n v) as [b|] eqn:Ef; [|done].
  destruct (Hok _ _ Ef) as (pkg' & cid & cd & Hf & Hn' & _ & E' & I). rewrite E in E'. injection E' as <-.
  apply package_file_inj in Hf as [-> ->]; [|done|done]. exists b, cd. by destruct cid.
Qed.

(** *** Fingerprints *)

(** The data of a chaincode on a channel record the hash [h] of its code. *)
Definition recorded (cd : ChaincodeData) (h : bytes) : Prop :=
  (exists d, unmarshal_CDSData (cd_Data cd) = Ok d /\ CodeHash d = h) \/
  (exists d, unmarshal_SignedCDSData (cd_Data cd) = Ok d /\ sCodeHash d = h).

(** A package that the data validate has the code that they record. *)
Lemma validated_code b pkg cd :
  GetCCPackage b = Ok pkg -> pack_ValidateCC pkg cd = Ok tt ->
  exists cds cid h, pack_GetDepSpec pkg = Ok cds /\ chaincode_id cds = Ok cid /\ cd_Name cd = cid_Name cid /\ cd_Version cd = cid_Version cid /\
    sha_Sum (cds_CodePackage cds) = Ok h /\ recorded cd h.
Proof.
  unfold GetCCPackage, raw_or_signed. intros Ep Ev. destruct (InitFromBuffer b) as [p|e| |] eqn:Er; try done.
  - injection Ep as <-. unfold InitFromBuffer in Er. apply res_bind_Ok in Er as (cds & _ & Er). apply res_bind_Ok in Er as ([[db i] dt] & Ed & Er). injection Er as <-.
    unfold getCDSData in Ed. apply res_bind_Ok in Ed as (x & _ & Ed). apply res_bind_Ok in Ed as (h & Eh & Ed). apply res_bind_Ok in Ed as (cid & Ec & Ed).
    apply res_bind_Ok in Ed as (mh & _ & Ed). apply res_bind_Ok in Ed as (y & _ & Ed). apply res_bind_Ok in Ed as (z & _ & Ed). injection Ed as _ _ <-.
    cbn [pack_ValidateCC] in Ev. unfold ValidateCC in Ev. cbn [depSpec data] in Ev. rewrite Ec, res_ret_bind in Ev. do 2 (case_bool_decide; [|done]). cbn [negb orb] in Ev.
    apply res_bind_Ok in Ev as (d & Eu & Ev). case_decide as Hd; [|done]. subst d. exists cds, cid, h. do 5 (split; [done|]). left. by eexists.
  - apply res_bind_Ok in Ep as (p & Es & Ep). injection Ep as <-. unfold s_InitFromBuffer in Es. apply res_bind_Ok in Es as (env & _ & Es).
    apply res_bind_Ok in Es as ([ch s] & _ & Es). destruct (bool_decide _); [|done]. cbn [negb] in Es. apply res_bind_Ok in Es as (cds & Ecds & Es).
    apply res_bind_Ok in Es as ([[db i] dt] & Ed & Es). injection Es as <-. unfold s_getCDSData in Ed. apply res_bind_Ok in Ed as (cds' & Ecds' & Ed).
    rewrite Ecds' in Ecds. injection Ecds as ->. apply res_bind_Ok in Ed as (h & Eh & Ed). apply res_bind_Ok in Ed as (cid & Ec & Ed).
    apply res_bind_Ok in Ed as (mh & _ & Ed). destruct (is_nil _); [done|]. apply res_bind_Ok in Ed as (sh & _ & Ed).
    apply res_bind_Ok in Ed as (y & _ & Ed). apply res_bind_Ok in Ed as (z & _ & Ed). injection Ed as _ _ <-.
    cbn [pack_ValidateCC] in Ev. unfold s_ValidateCC in Ev. cbn [sDepSpec s_depSpec s_data] in Ev. destruct (is_nil _); [done|].
    rewrite Ec, res_ret_bind in Ev. do 2 (case_bool_decide; [|done]). cbn [negb orb] in Ev. apply res_bind_Ok in Ev as (d & Eu & Ev).
    case_decide as Hd; [|done]. subst d. exists cds, cid, h. do 5 (split; [done|]). right. by eexists.
Qed.

(** *** Installing *)

Section Install.
Context {St : Type}.

(** What installing a package does: it writes the file of the package, which did
    not exist. *)
Lemma install_inv ccbytes (st st' : St) fs fs' :
  executeInstall ccbytes (st, fs) = ((st', fs'), Ok tt) ->
  st' = st /\ exists pkg cid cd, GetCCPackage ccbytes = Ok pkg /\ initialized pkg ccbytes cid cd /\
    valid_name (cid_Name cid) /\ valid_version (cid_Version cid) /\
    fs !! package_file (cid_Name cid) (cid_Version cid) = None /\ fs' = <[package_file (cid_Name cid) (cid_Version cid) := ccbytes]> fs.
Proof.
  intros E. unfold executeInstall in E. apply st_bind_inv in E as (s1 & pkg & Ep & E). injection Ep as <- Ep.
  destruct (package_initialized _ _ Ep) as (cid & cd & I). destruct (in_id _ _ _ _ I) as (cds & Eds & Ecid).
  apply st_bind_inv in E as (s2 & cid' & Ei & E). injection Ei as <- Ei. rewrite Eds, res_ret_bind, Ecid in Ei. injection Ei as <-.
  apply st_bind_inv in E as (s3 & [] & En & E). injection En as <- En. apply isValidChaincodeName_Ok in En.
  apply st_bind_inv in E as (s4 & [] & Ev & E). injection Ev as <- Ev. apply isValidChaincodeVersion_Ok in Ev.
  apply st_bind_inv in E as (s5 & fs0 & Ef & E). injection Ef as <- <-. apply st_bind_inv in E as (s6 & fs1 & Epf & E). injection Epf as <- Epf.
  cbn [snd] in Epf. rewrite (in_put _ _ _ _ I) in Epf. unfold put_file in Epf. injection E as <- <-. split; [done|].
  destruct (fs !! package_file (cid_Name cid) (cid_Version cid)) eqn:El; [done|]. injection Epf as <-. by exists pkg, cid, cd.
Qed.

Lemma install_ok ccbytes (st st' : St) fs fs' : executeInstall ccbytes (st, fs) = ((st', fs'), Ok tt) -> fs_ok fs -> fs_ok fs'.
Proof.
  intros E Hok. destruct (install_inv _ _ _ _ _ E) as (_ & pkg & cid & cd & Ep & I & Hn & Hv & _ & ->). intros file b.
  destruct (decide (file = package_file (cid_Name cid) (cid_Version cid))) as [->|Hne].
  - rewrite lookup_insert_eq. intros [= <-]. by exists pkg, cid, cd.
  - rewrite lookup_insert_ne by congruence. apply Hok.
Qed.

End Install.

(** *** The list of the packages *)

Lemma installed_info_ok fs n v b :
  fs_ok fs -> valid_name n -> fs !! package_file n v = Some b -> installed_info fs (package_file n v) = Ok (Some (mkChaincodeInfo n v "" "")).
Proof.
  intros Hok Hn Ef. unfold installed_info. rewrite (package_file_split _ _ Hn), !String.string_of_list_ascii_of_string.
  destruct (Hok _ _ Ef) as (pkg & cid & cd & Hf & Hn' & _ & E' & I). apply package_file_inj in Hf as [-> ->]; [|done|done].
  rewrite FromFS_file, Ef, E'. destruct (in_id _ _ _ _ I) as (cds & -> & Ecid). rewrite res_ret_bind, Ecid, res_ret_bind.
  by rewrite !bool_decide_true by done.
Qed.

Lemma installed_infos_ok fs files :
  fs_ok fs -> (forall file, file ∈ files -> is_Some (fs !! file)) ->
  exists l, installed_infos fs files = Ok l /\
    forall i, i ∈ l <-> exists n v, i = mkChaincodeInfo n v "" "" /\ valid_name n /\ package_file n v ∈ files.
Proof.
  intros Hok. induction files as [|file files IH]; intros Hf.
  { exists []. split; [done|]. intros i. split; [by intros ?%elem_of_nil|]. by intros (n & v & _ & _ & ?%elem_of_nil). }
  destruct IH as (l & El & Hl); [intros f Hin; apply Hf; by right|]. destruct (Hf file) as [b Eb]; [by left|].
  destruct (Hok _ _ Eb) as (pkg & cid & cd & -> & Hn & Hrest). cbn [installed_infos]. rewrite (installed_info_ok _ _ _ b Hok Hn Eb), res_ret_bind, El, res_ret_bind.
  exists (mkChaincodeInfo (cid_Name cid) (cid_Version cid) "" "" :: l). split; [done|]. intros i. rewrite elem_of_cons, Hl. split.
  - intros [->|(n & v & -> & Hn' & Hin)]; [exists (cid_Name cid), (cid_Version cid)|exists n, v]; (split; [done|]); (split; [done|]); [by left|by right].
  - intros (n & v & -> & Hn' & [E|Hin]%elem_of_cons); [left|right; by exists n, v]. by apply package_file_inj in E as [-> ->].
Qed.

End PackageFacts.
End PackageFacts.

(** ** The cache *)

Module CacheFacts.
Import LSCC NameFacts PackageFacts.
Section CacheFacts.
Context `{ProtoCodec} `{TxCodec} `{PackageCodec}.
Context `{!Message ChaincodeDeploymentSpec} `{!Message CDSData} `{!Message SignedCDSData}.

(** The packages of a peer while it runs: packages are installed, and the data
    of packages are asked for. *)
Inductive step : Files * Cache -> Files * Cache -> Prop :=
| step_install ccbytes fs fs' cache : executeInstall ccbytes (tt, fs) = ((tt, fs'), Ok tt) -> step (fs, cache) (fs', cache)
| step_lookup n v fs cache cache' r : cache_GetChaincodeData fs n v cache = (cache', r) -> step (fs, cache) (fs, cache').

Record coherent (fs : Files) (cache : Cache) : Prop := {
  co_fs : fs_ok fs;
  co_cache n v cd : cache !! cache_key n v = Some cd -> GetChaincodeData_FS fs n v = Ok cd
}.

Lemma lookup_no_slash fs n v cd : fs_ok fs -> GetChaincodeData_FS fs n v = Ok cd -> ("/"%char ∉ to_bytes n) /\ ("/"%char ∉ to_bytes v).
Proof.
  intros Hok E. unfold GetChaincodeData_FS in E. apply res_bind_Ok in E as (pkg & E & _). rewrite FromFS_file in E.
  destruct (fs !! package_file n v) as [b|] eqn:Ef; [|done]. apply Hok, file_no_slash in Ef. rewrite package_file_bytes in Ef.
  apply not_elem_of_app in Ef as [? Ef]. by apply not_elem_of_cons in Ef as [_ ?].
Qed.

Lemma GetChaincodeData_files n v fs fs' : fs' !! package_file n v = fs !! package_file n v -> GetChaincodeData_FS fs' n v = GetChaincodeData_FS fs n v.
Proof. intros E. unfold GetChaincodeData_FS. by rewrite !FromFS_file, E. Qed.

Lemma cache_lookup_spec fs cache n v cache' r :
  coherent fs cache -> cache_GetChaincodeData fs n v cache = (cache', r) ->
  coherent fs cache' /\ forall cd, r = Ok cd <-> GetChaincodeData_FS fs n v = Ok cd.
Proof.
  intros [Hok Hc] E. unfold cache_GetChaincodeData in E. destruct (cache !! cache_key n v) as [cd0|] eqn:El.
  { injection E as <- <-. split; [by split|]. intros cd. apply Hc in El. rewrite El. naive_solver. }
  assert (GetChaincodeData_FS fs n v = (pkg ← GetChaincodeFromFS fs n v; pack_GetChaincodeData pkg)) as Ed by done.
  destruct (GetChaincodeFromFS fs n v) as [pkg|e| |]; try (injection E as <- <-; by split; [|intros cd; rewrite Ed]).
  rewrite res_ret_bind in Ed. destruct (pack_GetChaincodeData pkg) as [cd0|e| |]; injection E as <- <-; try (by split; [|intros cd; rewrite Ed]).
  split; [|intros cd; by rewrite Ed]. split; [done|]. intros n' v' cd. destruct (decide (cache_key n v = cache_key n' v')) as [Ek|Hne].
  - rewrite <- Ek, lookup_insert_eq. intros [= <-]. destruct (lookup_no_slash _ _ _ _ Hok Ed) as [Hn Hv].
    by destruct (cache_key_inj _ _ _ _ Hn Hv Ek) as [-> ->].
  - rewrite lookup_insert_ne by done. apply Hc.
Qed.

Lemma step_coherent s s' : step s s' -> coherent s.1 s.2 -> coherent s'.1 s'.2.
Proof.
  intros [ccbytes fs fs' cache E|n v fs cache cache' r E] [Hok Hc]; [|by eapply cache_lookup_spec]. split; [by eapply install_ok|].
  intros n v cd Hl. apply Hc in Hl. rewrite <- Hl. apply GetChaincodeData_files. cbn.
  destruct (install_inv _ _ _ _ _ E) as (_ & pkg & cid & cd' & _ & _ & _ & _ & Hnew & ->). apply lookup_insert_ne.
  intros Ef. unfold GetChaincodeData_FS in Hl. apply res_bind_Ok in Hl as (pkg' & Hl & _). rewrite FromFS_file in Hl. cbn in Hl. by rewrite <- Ef, Hnew in Hl.
Qed.

Lemma steps_coherent s s' : rtc step s s' -> coherent s.1 s.2 -> coherent s'.1 s'.2.
Proof. induction 1 as [|s1 s2 s3 Hs _ IH]; [done|]. intros Hc. by apply IH, (step_coherent _ _ Hs). Qed.

End CacheFacts.
End CacheFacts.

(** ** Signatures of one signer *)

Module SignerFacts.
Import CAuthDSL CAuthFacts.
Section SignerFacts.
Context `{SignatureCodec} `{MSP}.

(** Two signatures of the same identity, both of which verify. *)
Definition same_signer (sd sd' : SignedData) : Prop :=
  sd_Identity sd = sd_Identity sd' /\
  forall i, DeserializeIdentity (sd_Identity sd) = Ok i ->
    Verify i (sd_Data sd) (sd_Signature sd) = Ok tt /\ Verify i (sd_Data sd') (sd_Signature sd') = Ok tt.

(** A policy does not tell them apart. *)
Lemma compile_same_signer sd sd' identities policy c used :
  same_signer sd sd' -> compile policy identities = Ok c -> c [sd] used = c [sd'] used.
Proof.
  intros [Hid Hv]. revert c used. induction policy as [N Rules IH|i| |] using policy_ind; intros c used E; try done.
  - rewrite compile_gate in E. apply res_bind_Ok in E as (cs & Ecs & E). injection E as <-. apply compile_rules_Forall2 in Ecs.
    unfold n_out_of. f_equal. generalize 0. revert used. induction Ecs as [|r c rules cs Er _ IHcs]; intros used n; [done|].
    apply Forall_cons in IH as [IHr IH]. cbn [count_verified]. rewrite (IHr c used Er). destruct (c [sd'] used) as [[[] u]| | |]; try done; by apply IHcs.
  - cbn [compile] in E. destruct (_ || _); [done|]. destruct (identities !! Z.to_nat i) as [p|]; [|done]. injection E as <-.
    cbn [signed_by]. destruct (used !! 0%nat) as [[]|]; try done. rewrite <- Hid. destruct (DeserializeIdentity (sd_Identity sd)) as [id| | |]; try done.
    destruct (SatisfiesPrincipal id p); try done. destruct (Hv id eq_refl) as [-> ->]. done.
Qed.

Lemma Evaluate_same_signer sd sd' data c :
  same_signer sd sd' -> NewPolicy data = Ok c -> Evaluate c [sd] = Evaluate c [sd'].
Proof.
  intros Hs E. unfold NewPolicy in E. apply res_bind_Ok in E as (pol & _ & E). destruct (negb _); [done|].
  unfold Evaluate, deduplicate. cbn [dedup_loop length replicate]. rewrite !decide_False by apply not_elem_of_empty.
  by rewrite (compile_same_signer sd sd' _ _ _ _ Hs E).
Qed.

End SignerFacts.
End SignerFacts.

(** ** Deploying *)

Module DeployFacts.
Import LSCC NameFacts PackageFacts.
Section DeployFacts.
Context `{ProtoCodec} `{SignatureCodec} `{TxCodec} `{PackageCodec} `{MSPManagers}.
Context `{!Message ChaincodeDeploymentSpec} `{!Message CDSData} `{!Message SignedCDSData} `{!Message ChaincodeData}.
Context {St : Type} `{ChaincodeStub St}.
Context (GetMSPIDs : string -> list string).
Context (GetSignedProposal : res SignedProposal).

#[local] Abbreviation deploys_with := (deploy_or_upgrade GetMSPIDs GetSignedProposal).

(** The arguments of a deployment. *)
Definition channel_arg (args : list (option bytes)) : string := to_string (arg args 1).

(** What a deployment or an upgrade did to the stub: it looked the chaincode up,
    [old], and then put the data [cd] of the package under its name. *)
Record deployment (upgrade : bool) (args : list (option bytes)) (st : St) (fs : Files) (st' : St) (cid : ChaincodeID) (old : option bytes)
    (cd : ChaincodeData) (b : bytes) : Prop := {
  dp_length : (3 <= length args <= 6)%nat;
  dp_id : deployed_id (arg args 2) = Ok cid;
  dp_data : exists policy, policy_arg GetMSPIDs (channel_arg args) args = Ok policy /\
    package_data GetMSPIDs GetSignedProposal fs (channel_arg args) cid policy (scc_arg args 4 "escc") (scc_arg args 5 "vscc")
      (if upgrade then "upgraded" else "instantiated") = Ok cd;
  dp_sccs : IsSysCC (cd_Escc cd) = true /\ IsSysCC (cd_Vscc cd) = true;
  dp_bytes : marshal cd = Ok b;
  dp_stub : exists st1, (stub_GetState (cid_Name cid) st = (st1, Ok old) \/ (old = None /\ exists e, stub_GetState (cid_Name cid) st = (st1, Err e))) /\
    stub_PutState (cd_Name cd) b st1 = (st', Ok tt);
  dp_old : if upgrade then exists o, old = Some o /\ check_replaced GetSignedProposal (channel_arg args) cid o = Ok tt else old = None
}.

Lemma on_stub_inv {A} (m : ST St A) s s' a : on_stub m s = (s', Ok a) -> m s.1 = (s'.1, Ok a) /\ s'.2 = s.2.
Proof. unfold on_stub. destruct (m s.1) as [st r]. by intros [= <- ->]. Qed.

Lemma instantiated_inv name s s' old :
  instantiated name s = (s', Ok old) ->
  s'.2 = s.2 /\ (stub_GetState name s.1 = (s'.1, Ok old) \/ (old = None /\ exists e, stub_GetState name s.1 = (s'.1, Err e))).
Proof.
  unfold instantiated, getCCInstance, on_stub. destruct (stub_GetState name s.1) as [st [[b|]|e| |]]; try done; intros [= <- <-]; cbn; eauto.
Qed.

Lemma put_inv cd s s' : putChaincodeData cd s = (s', Ok tt) ->
  IsSysCC (cd_Escc cd) = true /\ IsSysCC (cd_Vscc cd) = true /\
  exists b, marshal cd = Ok b /\ stub_PutState (cd_Name cd) b s.1 = (s'.1, Ok tt) /\ s'.2 = s.2.
Proof.
  unfold putChaincodeData. intros E. destruct (IsSysCC (cd_Escc cd)); [|done]. destruct (IsSysCC (cd_Vscc cd)); [|done]. cbn [negb] in E.
  apply st_bind_inv in E as (s1 & b & Eb & E). injection Eb as <- Eb. apply on_stub_inv in E as [E Hfs]. by eauto 6.
Qed.

Lemma deploy_inv upgrade args s s' b :
  deploys_with upgrade args s = (s', Ok b) -> s'.2 = s.2 /\ exists cid old cd, deployment upgrade args s.1 s.2 s'.1 cid old cd b.
Proof.
  intros E. unfold deploy_or_upgrade in E. destruct ((length args <? 3)%nat || (6 <? length args)%nat) eqn:El; [done|].
  apply orb_false_iff in El as [E3%Nat.ltb_ge E6%Nat.ltb_ge]. destruct (negb _); [done|].
  apply st_bind_inv in E as (s1 & policy & Ep & E). injection Ep as <- Ep. apply st_bind_inv in E as (s2 & cd & Ed & E). injection E as <- Eb.
  fold (channel_arg args) in *.
  destruct upgrade; [unfold executeUpgrade in Ed|unfold executeDeploy in Ed]; apply st_bind_inv in Ed as (s3 & cid & Ei & Ed); injection Ei as <- Ei;
    apply st_bind_inv in Ed as (s4 & old & Eo & Ed); apply instantiated_inv in Eo as [Hfs Eo]; destruct old as [o|]; try done.
  - apply st_bind_inv in Ed as (s5 & [] & Er & Ed). injection Er as <- Er. apply st_bind_inv in Ed as (s6 & fs & Ef & Ed). injection Ef as <- <-.
    apply st_bind_inv in Ed as (s7 & cd' & Ecd & Ed). injection Ecd as <- Ecd. apply st_bind_inv in Ed as (s8 & [] & Epu & Ed). injection Ed as <- ->.
    apply put_inv in Epu as (He & Hv & b' & Eb' & Eput & Hfs'). rewrite Eb in Eb'. injection Eb' as <-. rewrite Hfs in Ecd. split; [by rewrite Hfs'|].
    exists cid, (Some o), cd. split; try done; [by exists policy|by exists s4.1|by exists o].
  - apply st_bind_inv in Ed as (s6 & fs & Ef & Ed). injection Ef as <- <-.
    apply st_bind_inv in Ed as (s7 & cd' & Ecd & Ed). injection Ecd as <- Ecd. apply st_bind_inv in Ed as (s8 & [] & Epu & Ed). injection Ed as <- ->.
    apply put_inv in Epu as (He & Hv & b' & Eb' & Eput & Hfs'). rewrite Eb in Eb'. injection Eb' as <-. rewrite Hfs in Ecd. split; [by rewrite Hfs'|].
    exists cid, None, cd. split; try done; [by exists policy|by exists s4.1].
Qed.

Lemma deployed_id_inv code cid : deployed_id code = Ok cid ->
  valid_name (cid_Name cid) /\ valid_version (cid_Version cid) /\
  exists cds typ input, GetChaincodeDeploymentSpec code = Ok cds /\ cds_ChaincodeSpec cds = Some (mkChaincodeSpec typ (Some cid) input).
Proof.
  intros E. unfold deployed_id in E. apply res_bind_Ok in E as (cds & Ec & E). apply res_bind_Ok in E as (cid' & Ei & E).
  apply res_bind_Ok in E as ([] & En & E). apply res_bind_Ok in E as ([] & Ev & E). injection E as ->.
  apply isValidChaincodeName_Ok in En. apply isValidChaincodeVersion_Ok in Ev. split; [done|]. split; [done|]. exists cds.
  unfold chaincode_id in Ei. destruct (cds_ChaincodeSpec cds) as [[typ [c|] input]|]; try done. injection Ei as ->. by exists typ, input.
Qed.

(** The data that are put are those of the package, and its instantiation policy
    admits the creator of the proposal. *)
Lemma package_data_inv fs ch cid policy escc vscc what cd :
  fs_ok fs -> valid_name (cid_Name cid) -> package_data GetMSPIDs GetSignedProposal fs ch cid policy escc vscc what = Ok cd ->
  cd_Name cd = cid_Name cid /\ cd_Version cd = cid_Version cid /\ cd_Policy cd = policy /\
  checkInstantiationPolicy GetSignedProposal ch (cd_InstantiationPolicy cd) = Ok tt.
Proof.
  intros Hok Hn E. unfold package_data in E. apply res_bind_Ok in E as (pkg & Ep & E). apply res_bind_Ok in E as (cd0 & Ed & E).
  apply res_bind_Ok in E as (ip & _ & E). apply res_bind_Ok in E as ([] & Ec & E). injection E as <-. cbn.
  assert (GetChaincodeFromFS fs (cid_Name cid) (cid_Version cid) = Ok pkg) as Ef by (by destruct (GetChaincodeFromFS _ _ _)).
  destruct (lookup_ok _ _ _ _ Hok Hn Ef) as (b & cd' & _ & _ & I). rewrite (in_data _ _ _ _ I) in Ed. injection Ed as <-.
  rewrite (in_name _ _ _ _ I), (in_version _ _ _ _ I). done.
Qed.

End DeployFacts.
End DeployFacts.

(** ** Deployments pass the validation *)

Module DeployAccepted.
Import LSCC NameFacts PackageFacts SignerFacts DeployFacts RWSetUtil Builder QueryHelper VSCC TxValidatorFacts.EndorsementFacts.

(** *** What a deployment leaves in the read-write set *)

(** The only write to lscc is [v] under [name], and no other namespace than that
    of the chaincode is written. *)
Record deploys_only (b : RWSetBuilder) (name : string) (v : bytes) : Prop := {
  do_lscc : exists n, b !! "lscc" = Some n /\ writeMap n = {[name := newKVWrite name (Some v)]};
  do_other ns n : b !! ns = Some n -> ns <> "lscc" -> ns <> name -> writeMap n = ∅
}.

Lemma deploys_only_new b name v :
  b = NewRWSetBuilder \/ (exists ver, b = AddToReadSet NewRWSetBuilder "lscc" name ver) -> deploys_only (AddToWriteSet b "lscc" name (Some v)) name v.
Proof.
  intros Hb. assert (forall ns, ns <> "lscc" -> b !! ns = None) as Hns.
  { destruct Hb as [->|[ver ->]]; intros ns Hne; [apply lookup_empty|]. unfold AddToReadSet. rewrite lookup_insert_ne by done. apply lookup_empty. }
  split.
  - eexists. split; [apply lookup_insert_eq|]. cbn. destruct Hb as [->|[ver ->]]; [done|]. unfold getOrCreateNsRW, AddToReadSet. by rewrite lookup_insert_eq.
  - intros ns n E Hl _. unfold AddToWriteSet in E. rewrite lookup_insert_ne in E by done. by rewrite Hns in E.
Qed.

(** The namespace of a call on a simulator. *)
Definition call_ns (c : call) : string := match c with CRead ns _ _ | CWrite ns _ _ | CRange ns _ => ns end.

Lemma apply_call_ne b c ns : call_ns c <> ns -> apply_call b c !! ns = b !! ns.
Proof. destruct c; cbn; intros Hne; by apply lookup_insert_ne. Qed.

Lemma deploys_only_calls b name v calls :
  name <> "lscc" -> Forall (fun c => call_ns c = name) calls -> deploys_only b name v -> deploys_only (foldl apply_call b calls) name v.
Proof.
  intros Hn Hc. revert b. induction Hc as [|c calls Hc _ IH]; intros b Hb; [done|]. cbn. apply IH. split.
  - rewrite apply_call_ne by congruence. apply Hb.
  - intros ns n E Hl Hne. rewrite apply_call_ne in E by congruence. by apply (do_other _ _ _ Hb ns).
Qed.

Definition normalized (rw : TxRwSet) : TxRwSet := (fun ns => mkNsRwSet (NameSpace ns) (norm_kvrwset (KvRwSet ns))) <$> rw.

Lemma find_rwset_spec ns sets kv :
  (forall s, s ∈ sets -> NameSpace s = ns -> KvRwSet s = kv) -> (exists s, s ∈ sets /\ NameSpace s = ns) -> find_rwset ns sets = Some kv.
Proof.
  induction sets as [|s sets IH]; intros Hall (s0 & Hin & Hs0); [by apply elem_of_nil in Hin|]. cbn. case_decide as Hd.
  - f_equal. apply Hall; [by left|done].
  - apply IH; [intros s1 H1; apply Hall; by right|]. exists s0. split; [|done]. apply elem_of_cons in Hin as [->|]; done.
Qed.

Lemma only_writes_spec name sets :
  (forall s, s ∈ sets -> NameSpace s <> "lscc" -> NameSpace s <> name -> Writes (KvRwSet s) = []) -> only_writes_to name sets = Ok tt.
Proof.
  induction sets as [|s sets IH]; intros Hall; [done|]. cbn [only_writes_to].
  rewrite IH by (intros s1 H1; apply Hall; by right). case_bool_decide; [done|]. case_bool_decide; [done|]. rewrite Hall by (done || by left). done.
Qed.

Lemma deployed_write b name v :
  v <> [] -> deploys_only b name v ->
  (exists kv, find_rwset "lscc" (normalized (GetTxReadWriteSet b)) = Some kv /\ Writes kv = [mkKVWrite name false (Some v)]) /\
  only_writes_to name (normalized (GetTxReadWriteSet b)) = Ok tt.
Proof.
  intros Hv [(n & El & Ew) Ho]. split.
  - exists (norm_kvrwset (ns_set n)). split.
    + apply find_rwset_spec.
      * intros s (s0 & -> & Hs0)%list_elem_of_fmap Hns. cbn in *. apply elem_of_GetTxReadWriteSet in Hs0 as (n0 & E0 & ->). rewrite Hns, El in E0. by injection E0 as ->.
      * exists (mkNsRwSet "lscc" (norm_kvrwset (ns_set n))). split; [|done]. apply list_elem_of_fmap. exists (mkNsRwSet "lscc" (ns_set n)). split; [done|].
        apply elem_of_GetTxReadWriteSet. by exists n.
    + cbn. rewrite Ew, GetSortedKeys_singleton. unfold get_all. cbn. rewrite lookup_singleton_eq. cbn. unfold norm_write. cbn. by destruct v.
  - apply only_writes_spec. intros s (s0 & -> & Hs0)%list_elem_of_fmap Hl Hne. cbn in *. apply elem_of_GetTxReadWriteSet in Hs0 as (n0 & E0 & ->).
    cbn. by rewrite (Ho _ _ E0 Hl Hne), GetSortedKeys_empty.
Qed.

(** *** The policies *)

Section Accepted.
Context `{ProtoCodec} `{SignatureCodec} `{TxCodec} `{PackageCodec} `{MSPManagers} `{CryptoHash} `{RWSetCodec}.
Context `{!Message ChaincodeDeploymentSpec} `{!Message CDSData} `{!Message SignedCDSData} `{!Message ChaincodeData}.
Context (GetMSPIDs : string -> list string).

(** The transaction of the envelope has the creator of the proposal, who signed
    both on the channel. *)
Record submits (ch : string) (sp : SignedProposal) (env : Envelope) (payl : Payload) : Prop := {
  sm_channel : ch <> "";
  sm_creator : exists prop phdr pshdr hdr shdr, unmarshal_Proposal (sp_ProposalBytes sp) = Ok prop /\ unmarshal_Header (prop_Header prop) = Ok phdr /\
    GetSignatureHeader (hdr_SignatureHeader phdr) = Ok pshdr /\ pl_Header payl = Some hdr /\
    GetSignatureHeader (hdr_SignatureHeader hdr) = Ok shdr /\ sh_Creator shdr = sh_Creator pshdr /\
    creator_signed ch (sh_Creator shdr) (sp_ProposalBytes sp) (sp_Signature sp) /\
    creator_signed ch (sh_Creator shdr) (env_Payload env) (env_Signature env)
}.

(** An instantiation policy that admits the proposal admits the transaction. *)
Lemma policy_admits ch sp env payl pol :
  submits ch sp env payl -> LSCC.checkInstantiationPolicy (Ok sp) ch pol = Ok tt -> VSCC.checkInstantiationPolicy ch env pol payl = Ok tt.
Proof.
  intros [Hch (prop & phdr & pshdr & hdr & shdr & Ep & Eph & Eps & Eh & Es & Hcr & Hprop & Htx)] E.
  unfold LSCC.checkInstantiationPolicy in E. unfold VSCC.checkInstantiationPolicy. destruct (GetManagerForChain ch) as [mgr|] eqn:Em; [|done].
  apply res_bind_Ok in E as (c & Ec & E). rewrite res_ret_bind, Ep, res_ret_bind, Eph, res_ret_bind, Eps, res_ret_bind in E.
  rewrite Ec, res_ret_bind, Eh, Es, res_ret_bind.
  assert (same_signer (H0 := mgr) (mkSignedData (sp_ProposalBytes sp) (sh_Creator pshdr) (sp_Signature sp))
            (mkSignedData (env_Payload env) (sh_Creator shdr) (env_Signature env))) as Hsame.
  { split; [by symmetry|]. cbn. intros i Hi. rewrite <- Hcr in Hi. unfold creator_signed, GetIdentityDeserializer in Hprop, Htx.
    rewrite decide_False in Hprop, Htx by done. rewrite Em in Hprop, Htx. destruct Hprop as (m1 & i1 & [= <-] & E1 & _ & V1).
    destruct Htx as (m2 & i2 & [= <-] & E2 & _ & V2). rewrite Hi in E1, E2. injection E1 as ->. by injection E2 as <-. }
  rewrite <- (Evaluate_same_signer _ _ pol c Hsame Ec). by destruct (CAuthDSL.Evaluate c _).
Qed.

(** *** The simulator *)

Context {DB : Type} `{VersionedDB DB} `{Merkle.Hashing}.
Context {L : Type} `{PeerLedger L}.

Lemma simulated_write (db : DB) ns name v h1 h' :
  SetState db ns name v h1 = (h', Ok tt) -> rwsetBuilder h' = (fun b => AddToWriteSet b ns name v) <$> rwsetBuilder h1.
Proof.
  unfold SetState. intros E. apply st_bind_inv in E as (h2 & [] & Ec & E). unfold checkDone in Ec. apply st_bind_inv in Ec as (h3 & h4 & Eg & Ec).
  injection Eg as <- <-. destruct (doneInvoked h1); [done|]. injection Ec as <-. apply st_bind_inv in E as (h3 & [] & Ev & E). injection Ev as <- _.
  by injection E as <-.
Qed.

Lemma simulated_read (db : DB) ns name h1 r :
  getState db ns name newLockBasedTxSimulator = (h1, r) ->
  (getState db ns name newQueryExecutor).2 = r /\
  exists b, rwsetBuilder h1 = Some b /\ (b = NewRWSetBuilder \/ exists ver, b = AddToReadSet NewRWSetBuilder ns name ver).
Proof.
  intros E. unfold getState, checkDone, st_get, st_lift, add_read, st_modify, mbind, st_bind in E |- *. cbn in E |- *.
  destruct (GetState db ns name) as [vv| | |]; cbn in E |- *; [|injection E as <- <-; (split; [done|]); eexists; split; [done|by left]..].
  destruct (decomposeVersionedValue vv) as [o ver]. cbn in E |- *. injection E as <- <-. split; [done|]. eexists. split; [done|]. right. by exists ver.
Qed.

(** *** The deployment *)

(** The data of a chaincode, once marshalled. *)
Context (Hcodec : MessageSpec ChaincodeData unmarshal_ChaincodeData (mkChaincodeData "" "" "" "" [] [] [] []) (fun _ => True)).

(** No policy is no policy. *)
Context (Hempty : forall m c, VSCC.new_policy m [] <> Ok c).

Context (GetLedger : string -> option L) (l : L) (db : DB).

#[local] Instance lscc_stub : ChaincodeStub (queryHelper DB) := simulator_stub db "lscc".

(** The ledger of the validating peer has the state that was simulated on. *)
Definition same_state (name : string) : Prop :=
  exists o, query_GetState l "lscc" name = Ok o /\ (getState db "lscc" name newQueryExecutor).2 = Ok o.

Section Deployment.
Context (upgrade : bool) (args : list bytes) (fs : Files) (sp : SignedProposal) (h' : queryHelper DB) (cid : ChaincodeID) (old : option bytes)
  (cd : ChaincodeData) (v : bytes).
Context (D : deployment GetMSPIDs (Ok sp) upgrade (Some <$> args) newLockBasedTxSimulator fs h' cid old cd v).
Context (Hfs : fs_ok fs) (Happ : IsSysCC (cid_Name cid) = false).

Lemma deployment_data : cd_Name cd = cid_Name cid /\ cd_Version cd = cid_Version cid /\
  LSCC.checkInstantiationPolicy (Ok sp) (channel_arg (Some <$> args)) (cd_InstantiationPolicy cd) = Ok tt /\
  cd_InstantiationPolicy cd <> [] /\ v <> [] /\ unmarshal_ChaincodeData v = Ok cd.
Proof.
  destruct (deployed_id_inv _ _ (dp_id _ _ _ _ _ _ _ _ _ _ _ D)) as (Hn & _). destruct (dp_data _ _ _ _ _ _ _ _ _ _ _ D) as (policy & _ & Hp).
  destruct (package_data_inv _ _ _ _ _ _ _ _ _ _ Hfs Hn Hp) as (E1 & E2 & _ & E3). split; [done|]. split; [done|]. split; [done|].
  pose proof (dp_bytes _ _ _ _ _ _ _ _ _ _ _ D) as Eb. split; [|split].
  - intros E. rewrite E in E3. unfold LSCC.checkInstantiationPolicy in E3. destruct (GetManagerForChain _); [|done].
    apply res_bind_Ok in E3 as (c & Ec & _). by apply Hempty in Ec.
  - intros ->. apply (marshal_empty (T := ChaincodeData)) in Eb; [|done]. rewrite Eb in E1. cbn in E1. by destruct Hn as [Hn _].
  - destruct (marshal_roundtrip (T := ChaincodeData) cd I) as (b' & Eb' & Eu). rewrite Eb in Eb'. by injection Eb' as <-.
Qed.

Lemma deployment_builder : exists b, rwsetBuilder h' = Some b /\ deploys_only b (cid_Name cid) v.
Proof.
  destruct deployment_data as (En & _). destruct (dp_stub _ _ _ _ _ _ _ _ _ _ _ D) as (st1 & Hget & Hput). cbn in Hput, Hget.
  case_decide; [done|]. apply simulated_write in Hput. rewrite En in Hput.
  assert (exists r, getState db "lscc" (cid_Name cid) newLockBasedTxSimulator = (st1, r)) as [r Er] by (destruct Hget as [?|(_ & e & ?)]; eauto).
  destruct (simulated_read _ _ _ _ _ Er) as (_ & b & Eb & Hb). rewrite Eb in Hput. eexists. split; [exact Hput|]. by apply deploys_only_new.
Qed.

Lemma deployment_old : same_state (cid_Name cid) -> query_GetState l "lscc" (cid_Name cid) = Ok old.
Proof.
  intros (o & El & Eo). rewrite El. destruct (dp_stub _ _ _ _ _ _ _ _ _ _ _ D) as (st1 & Hget & _). cbn in Hget.
  destruct Hget as [Hget|(-> & e & Hget)]; apply simulated_read in Hget as [Hq _]; rewrite Hq in Eo; [by injection Eo as ->|done].
Qed.

(** What the deployment did passes the checks of the validation chaincode. *)
Lemma deployment_valid calls b env cap payl :
  rwsetBuilder h' = Some b -> Forall (fun c => call_ns c = cid_Name cid) calls ->
  response_rwset cap = Ok (normalized (GetTxReadWriteSet (foldl apply_call b calls))) ->
  GetLedger (channel_arg (Some <$> args)) = Some l -> same_state (cid_Name cid) -> submits (channel_arg (Some <$> args)) sp env payl ->
  validate_deployment GetLedger upgrade (tail args) (channel_arg (Some <$> args)) env cap payl = Ok tt.
Proof.
  intros Eb Hcalls Erw Hl Hsame Hsub. destruct deployment_data as (En & Ev & Hpol & Hpn & Hv & Eu).
  destruct (deployed_id_inv _ _ (dp_id _ _ _ _ _ _ _ _ _ _ _ D)) as (Hn & _ & cds & typ & input & Ecds & Espec).
  assert (cid_Name cid <> "lscc") as Hlscc by (intros E; by rewrite E in Happ).
  destruct deployment_builder as (b' & Eb' & Hb). rewrite Eb in Eb'. injection Eb' as <-.
  destruct (deployed_write _ _ _ Hv (deploys_only_calls _ _ _ calls Hlscc Hcalls Hb)) as ((kv & Ekv & Ewr) & Honly).
  pose proof (deployment_old Hsame) as Hq. pose proof (dp_old _ _ _ _ _ _ _ _ _ _ _ D) as Hold.
  pose proof (dp_length _ _ _ _ _ _ _ _ _ _ _ D) as Hlen. rewrite length_fmap in Hlen. clear D. unfold validate_deployment.
  destruct args as [|a0 [|a1 [|a2 more]]]; cbn [length] in Hlen; try lia. cbn [tail nth].
  replace ((length (a1 :: a2 :: more) <? 2)%nat || (5 <? length (a1 :: a2 :: more))%nat) with false.
  2: { symmetry. apply orb_false_iff. cbn [length]. split; apply Nat.ltb_ge; lia. }
  unfold arg in Ecds. cbn in Ecds. rewrite Ecds, res_ret_bind, Espec, Erw, res_ret_bind. unfold getInstantiatedCC. rewrite Hl, Hq.
  assert (lscc_write cid (Some kv) = Ok cd) as Ew.
  { unfold lscc_write. rewrite Ewr. cbn [kvw_Key kvw_Value]. rewrite bool_decide_true by done. cbn [negb]. change (default [] (Some v)) with v. rewrite Eu, res_ret_bind.
    by rewrite !bool_decide_true. }
  destruct upgrade.
  - destruct Hold as (o & -> & Er). unfold check_replaced in Er. apply res_bind_Ok in Er as (cdo & Ecdo & Er).
    unfold getChaincodeData in Ecdo. apply res_bind_Ok in Ecdo as (cdo' & Euo & Ecdo). destruct (negb _); [done|]. injection Ecdo as ->.
    destruct (unmarshal_ChaincodeData o) as [x| | |] eqn:Exo; try done. injection Euo as ->. rewrite res_ret_bind, Ekv, Ew, res_ret_bind, En, Honly, res_ret_bind.
    case_bool_decide as Hver; [done|]. destruct (cd_InstantiationPolicy cdo) as [|p0 pol] eqn:Epo; [done|]. cbn [is_nil] in Er. unfold check_upgrade. rewrite Epo.
    rewrite (policy_admits _ _ _ _ _ Hsub Er), res_ret_bind. by rewrite decide_False.
  - rewrite Hold, res_ret_bind, Ekv, Ew, res_ret_bind, En, Honly, res_ret_bind. unfold check_deploy.
    destruct (cd_InstantiationPolicy cd) as [|p0 pol] eqn:Epo; [done|]. by rewrite (policy_admits _ _ _ _ _ Hsub Hpol), res_ret_bind.
Qed.

End Deployment.

End Accepted.

End DeployAccepted.
