(* ===== verification/LifecycleTheorems.v ===== *)
(** * The life cycle of chaincodes: the theorems

    Installing packages, the cache of their data, the code that is launched, the
    packages that owners sign, and the deployment of a chaincode from its
    simulation to its validation; then a peer on which they are applied. *)

From stdpp Require Import base gmap strings list.
From Stdlib Require Import Ascii ZArith Lia.
From S2P Require Import Prelude Version StateDB Merkle RWSet TxMgr Proto Instances BlockHash CAuthDSL MsgValidation VSCC TxValidatorFacts PeerTheorems.
From S2P Require Import CCPackages Endorser EndorserTheorems LSCC LifecycleFacts.
Import ProtoUtils TxUtils SystemChaincodes CCPackage CCProvider.
Local Open Scope Z_scope.

Module LifecycleTheorems.
Import LSCC NameFacts PackageFacts CacheFacts DeployFacts DeployAccepted RWSetUtil Builder QueryHelper.
Section LifecycleTheorems.
Context `{ProtoCodec} `{SignatureCodec} `{TxCodec} `{PackageCodec} `{MSPManagers} `{CryptoHash} `{RWSetCodec}.
Context `{!Message ChaincodeDeploymentSpec} `{!Message CDSData} `{!Message SignedCDSData} `{!Message ChaincodeData} `{!Message (list ChaincodeInfo)}.

(** C25: what is installed is found again, and stays.  Installing a package puts
    it on the file system under its name and version, which were free; it is
    then found there as it was given, every other package is found as before,
    the files remain packages named by their ids, and the list of the installed
    chaincodes has exactly the files. *)
Theorem install_round_trip {St : Type} ccbytes (st st' : St) fs fs' :
  fs_ok fs -> executeInstall ccbytes (st, fs) = ((st', fs'), Ok tt) ->
  st' = st /\ fs_ok fs' /\
  (exists pkg cds cid, GetCCPackage ccbytes = Ok pkg /\ pack_GetDepSpec pkg = Ok cds /\ chaincode_id cds = Ok cid /\
    GetChaincodeFromFS fs (cid_Name cid) (cid_Version cid) = Err "no such file or directory" /\
    GetChaincodeFromFS fs' (cid_Name cid) (cid_Version cid) = Ok pkg /\
    forall n v, valid_name n -> (n, v) <> (cid_Name cid, cid_Version cid) -> GetChaincodeFromFS fs' n v = GetChaincodeFromFS fs n v) /\
  exists l, GetInstalledChaincodes fs' = Ok l /\
    forall n v, valid_name n -> mkChaincodeInfo n v "" "" ∈ l <-> is_Some (fs' !! package_file n v).
Proof.
  intros Hok E. pose proof (install_ok _ _ _ _ _ E Hok) as Hok'. destruct (install_inv _ _ _ _ _ E) as (-> & pkg & cid & cd & Ep & I & Hn & Hv & Hnew & ->).
  split; [done|]. split; [done|]. split.
  - destruct (in_id _ _ _ _ I) as (cds & Ed & Ec). exists pkg, cds, cid. do 3 (split; [done|]). rewrite !FromFS_file, Hnew, lookup_insert_eq.
    do 2 (split; [done|]). intros n v Hvn Hne. rewrite !FromFS_file, lookup_insert_ne; [done|]. intros Ef.
    apply package_file_inj in Ef as [<- <-]; [by destruct Hne|done|done].
  - destruct (installed_infos_ok _ (GetSortedKeys (<[package_file (cid_Name cid) (cid_Version cid) := ccbytes]> fs)) Hok') as (l & El & Hl).
    { intros file Hf. by apply elem_of_GetSortedKeys in Hf. }
    exists l. split; [exact El|]. intros n v Hvn. rewrite Hl, <- elem_of_GetSortedKeys. split.
    + intros (n' & v' & [= <- <-] & _ & Hin). done.
    + intros Hin. by exists n, v.
Qed.

(** C35: the cache of the data of packages is never stale: however packages are
    installed and looked up, asking the cache gives the data of a package if and
    only if reading the file system does, and the same ones. *)
Theorem cached_data_current fs0 fs cache n v cache' r :
  fs_ok fs0 -> rtc step (fs0, ∅) (fs, cache) -> provider_GetChaincodeData true fs n v cache = (cache', r) ->
  forall cd, r = Ok cd <-> provider_GetChaincodeData false fs n v cache = (cache, Ok cd).
Proof.
  intros Hok Hs E cd. assert (coherent fs cache) as Hc.
  { apply (steps_coherent _ _ Hs). split; [done|]. intros n0 v0 cd0 Hl. cbn in Hl. by rewrite lookup_empty in Hl. }
  destruct (cache_lookup_spec _ _ _ _ _ _ Hc E) as [_ Hr]. rewrite Hr. cbn. unfold st_lift. split; [by intros ->|by intros [= ->]].
Qed.

(** the code that a peer gives out to be launched is the code that was
    deployed: the data of the chaincode on the channel bear its name, and record
    the hash of the code package, whatever files the peer has. *)
Theorem launched_code_recorded fs ccname cdbytes cd cds code :
  getCCCode fs ccname cdbytes = Ok (cd, cds, code) ->
  unmarshal_ChaincodeData cdbytes = Ok cd /\ cd_Name cd = ccname /\ chaincode_id cds = Ok (mkChaincodeID ccname (cd_Version cd)) /\
  exists h, sha_Sum (cds_CodePackage cds) = Ok h /\ recorded cd h.
Proof.
  intros E. unfold getCCCode in E. apply res_bind_Ok in E as (cd' & Ecd & E). apply res_bind_Ok in E as (pkg & Epk & E).
  apply res_bind_Ok in E as ([] & Ev & E). apply res_bind_Ok in E as (cds' & Eds & E). apply res_bind_Ok in E as (b & _ & E). injection E as -> -> ->.
  unfold getChaincodeData in Ecd. apply res_bind_Ok in Ecd as (cd' & Eu & Ecd). case_bool_decide as Hn; [|done]. injection Ecd as ->.
  assert (GetChaincodeFromFS fs ccname (cd_Version cd) = Ok pkg) as Ef by (by destruct (GetChaincodeFromFS _ _ _)).
  rewrite FromFS_file in Ef. destruct (fs !! package_file ccname (cd_Version cd)) as [buf|]; [|done].
  destruct (validated_code buf pkg cd) as (cds' & cid & h & Eds' & Ec & En & Evr & Eh & Hr); [done|by destruct (pack_ValidateCC pkg cd)|].
  rewrite Eds in Eds'. injection Eds' as ->. split; [by destruct (unmarshal_ChaincodeData cdbytes)|]. split; [done|].
  split; [rewrite Ec, <- Hn, En, Evr; by destruct cid|]. by exists h.
Qed.


(** A package without a specification, as the empty bytes are, crashes what
    looks into it. *)
Lemma unspecified_package_panics b cds bytes h :
  unmarshal_ChaincodeDeploymentSpec b = Ok cds -> cds_ChaincodeSpec cds = None -> marshal cds = Ok bytes -> sha_Sum (cds_CodePackage cds) = Ok h ->
  GetCCPackage b = Panic "nil pointer dereference".
Proof.
  intros E Hs Em Eh. unfold GetCCPackage, raw_or_signed, InitFromBuffer, getCDSData, chaincode_id. rewrite E. unfold or_fail. rewrite res_ret_bind, Em, res_ret_bind, Eh, res_ret_bind, Hs. done.
Qed.

Section Deployment.
Context {DB : Type} `{VersionedDB DB} `{Merkle.Hashing}.
Context {L : Type} `{PeerLedger L}.
Context `{StubRange (queryHelper DB)}.
Context (Hcodec : MessageSpec ChaincodeData unmarshal_ChaincodeData (mkChaincodeData "" "" "" "" [] [] [] []) (fun _ => True)).
Context (Hempty : forall m c, VSCC.new_policy m [] <> Ok c).
Context (GetMSPIDs : string -> list string).
Context (CheckPolicyNoChannel : SignedProposal -> res unit) (CheckPolicy : string -> SignedProposal -> res unit).
Context (GetLedger : string -> option L).

(** lscc on a new simulator of the database [db]. *)
Definition lscc_invoke (db : DB) (sp : SignedProposal) (args : list bytes) (fs : Files) : (queryHelper DB * Files) * res Response :=
  let _ := simulator_stub db "lscc" in
  Invoke GetMSPIDs CheckPolicyNoChannel CheckPolicy (Ok sp) (Some <$> args) (newLockBasedTxSimulator, fs).

Lemma invoke_deploys db sp upgrade rest fs h' fs' r :
  let args := to_bytes (if upgrade : bool then "upgrade" else "deploy") :: rest in
  lscc_invoke db sp args fs = ((h', fs'), Ok r) -> resp_Status r = OK ->
  let _ := simulator_stub db "lscc" in
  deploy_or_upgrade GetMSPIDs (Ok sp) upgrade (Some <$> args) (newLockBasedTxSimulator, fs) = ((h', fs'), Ok (resp_Payload r)).
Proof.
  cbv zeta. intros E Hr. unfold lscc_invoke, Invoke in E. cbn [fmap list_fmap] in E. change (default [] (Some ?x)) with x in E.
  rewrite String.string_of_list_ascii_of_string in E.
  destruct upgrade; repeat first [rewrite decide_False in E by done | rewrite decide_True in E by done]; unfold respond in E;
    destruct (deploy_or_upgrade _ _ _ _ _) as [s [b|e| |]] eqn:Ed; try done; injection E as -> <-; try done; by rewrite Ed.
Qed.

(** C8: A deployment or an upgrade that lscc accepts passes the checks that the
    validation makes of it: when lscc answers well on a simulator, the chaincode
    is not a system chaincode and its initialization reads and writes in its own
    namespace only (the validation rejects the others), then the transaction with
    the resulting read-write set, of the same creator, satisfies the validation
    chaincode on a ledger whose entry of the chaincode is the one that was
    simulated on. *)
Theorem deployment_validates db l sp (upgrade : bool) rest fs h' fs' r cid b calls env cap payl cpp typ id :
  let args := to_bytes (if upgrade then "upgrade" else "deploy") :: rest in
  let ch := channel_arg (Some <$> args) in
  fs_ok fs -> lscc_invoke db sp args fs = ((h', fs'), Ok r) -> resp_Status r = OK ->
  deployed_id (arg (Some <$> args) 2) = Ok cid -> IsSysCC (cid_Name cid) = false ->
  rwsetBuilder h' = Some b -> Forall (fun c => call_ns c = cid_Name cid) calls ->
  VSCC.response_rwset cap = Ok (normalized (GetTxReadWriteSet (foldl apply_call b calls))) ->
  unmarshal_ChaincodeProposalPayload (cap_ChaincodeProposalPayload cap) = Ok cpp ->
  unmarshal_ChaincodeInvocationSpec (cpp_Input cpp) = Ok (mkCIS (Some (mkChaincodeSpec typ id (Some args)))) ->
  GetLedger ch = Some l -> same_state l db (cid_Name cid) -> submits ch sp env payl ->
  VSCC.ValidateLSCCInvocation GetLedger ch env cap payl = Ok tt.
Proof.
  cbv zeta. intros Hfs E Hr Ecid Happ Eb Hcalls Erw Ecpp Ecis Hl Hsame Hsub.
  pose proof (invoke_deploys _ _ _ _ _ _ _ _ E Hr) as Ed. cbv zeta in Ed.
  destruct (deploy_inv _ _ _ _ _ _ _ Ed) as (_ & cid' & old & cd & D). cbn [fst snd] in D.
  pose proof (dp_id _ _ _ _ _ _ _ _ _ _ _ D) as Eid. rewrite Ecid in Eid. injection Eid as <-.
  pose proof (deployment_valid GetMSPIDs Hcodec Hempty GetLedger l db upgrade _ fs sp h' cid old cd _ D Hfs Happ calls b env cap payl Eb Hcalls Erw Hl Hsame Hsub) as Hv.
  unfold VSCC.ValidateLSCCInvocation. rewrite Ecpp, res_ret_bind, Ecis, res_ret_bind. cbn [cis_ChaincodeSpec].
  destruct upgrade; [rewrite decide_True by done; exact Hv|]. rewrite decide_False by done. rewrite decide_True by done. exact Hv.
Qed.

End Deployment.
End LifecycleTheorems.
End LifecycleTheorems.

(** ** A peer on which a chaincode is installed and deployed *)

Module LifecycleDemo.
Import PeerDemo FieldCodec EndorserDemo TxCreation LSCC LifecycleTheorems RWSetUtil Builder QueryHelper.
#[local] Existing Instance bits_rwset_codec.

#[export] Instance f_infos : Fields (list ChaincodeInfo) := {
  to_fields l := l ≫= fun i => to_bytes <$> [info_Name i; info_Version i; info_Escc i; info_Vscc i];
  of_fields l := Err "not read"
}.

#[export] Instance no_range : StubRange (queryHelper mem_db) := { stub_GetStateByRange _ _ := st_lift (Ok []) }.

Definition newcc : ChaincodeDeploymentSpec :=
  mkCDS (Some (mkChaincodeSpec GOLANG (Some (mkChaincodeID "newcc" "1")) (Some []))) (to_bytes "code").
Definition newcc_package : bytes := put newcc.

Definition installed_fs : Files := (executeInstall newcc_package (tt, ∅)).1.2.

Definition deploy_args : list bytes := to_bytes <$> ["deploy"; "ch"; to_string newcc_package; to_string both].

Definition deploy_spec : ChaincodeInvocationSpec :=
  mkCIS (Some (mkChaincodeSpec GOLANG (Some (mkChaincodeID "lscc" "")) (Some deploy_args))).

Definition deploy_proposal : Proposal :=
  match CreateChaincodeProposalWithTransient 5 (Ok demo_nonce) ENDORSER_TRANSACTION "ch" deploy_spec alice ∅ with
  | Ok r => r.1
  | _ => mkProposal [] []
  end.

Definition deploy_signed : SignedProposal :=
  match GetSignedProposal deploy_proposal (signer_of alice) with Ok sp => sp | _ => mkSignedProposal [] [] end.

Definition deploy_run : (queryHelper mem_db * Files) * res Response :=
  lscc_invoke (fun _ => ["Org1"; "Org2"]) (fun _ => Ok tt) (fun _ _ => Ok tt) empty_db deploy_signed deploy_args installed_fs.

(** The transaction that the peer would endorse, and its payload. *)
Definition deploy_results : bytes :=
  match rwsetBuilder deploy_run.1.1 with
  | Some b => match ToProtoBytes (GetTxReadWriteSet b) with Ok r => r | _ => [] end
  | None => []
  end.

Definition deploy_cap : ChaincodeActionPayload :=
  mkCAP (put (mkCPP (put deploy_spec) ∅))
    (Some (mkCEA (Some (put (mkPRP [] (Some (put (mkCA deploy_results [] None (Some (mkChaincodeID "lscc" "1.0")))))))) [])).

Definition deploy_payload : Payload :=
  mkPayload (match unmarshal_Header (prop_Header deploy_proposal) with Ok h => Some h | _ => None end) (put deploy_cap).

Definition deploy_envelope : Envelope := mkEnvelope (put deploy_payload) (sign alice (put deploy_payload)).

End LifecycleDemo.

(** ** Witnesses *)

Module LifecycleWitnesses.
Import PeerDemo FieldCodec EndorserDemo TxCreation LSCC NameFacts PackageFacts CacheFacts DeployFacts DeployAccepted.
Import LifecycleTheorems RWSetUtil Builder QueryHelper LifecycleDemo.
#[local] Existing Instance bits_rwset_codec.

Lemma demo_installed : executeInstall newcc_package (tt, ∅) = ((tt, installed_fs), Ok tt).
Proof. vm_compute. exact eq_refl. Qed.

Lemma no_files_ok : fs_ok ∅.
Proof. intros file b E. by rewrite lookup_empty in E. Qed.

Lemma installed_fs_ok : fs_ok installed_fs.
Proof. exact (install_ok _ _ _ _ _ demo_installed no_files_ok). Qed.

Lemma install_round_trip_witness :
  exists pkg, GetChaincodeFromFS installed_fs "newcc" "1" = Ok pkg /\ GetCCPackage newcc_package = Ok pkg.
Proof.
  destruct (install_round_trip _ _ _ _ _ no_files_ok demo_installed) as (_ & _ & (pkg & cds & cid & Ep & Ed & Ec & _ & Ef & _) & _).
  exists pkg. split; [|exact Ep]. rewrite <- Ef. f_equal; revert Ec; revert Ed; revert Ep; vm_compute; intros [= <-] [= <-]; by intros [= <-].
Defined.

Definition newcc_data : ChaincodeData :=
  match provider_GetChaincodeData false installed_fs "newcc" "1" ∅ with (_, Ok cd) => cd | _ => mycc end.

Lemma cached_data_current_witness :
  provider_GetChaincodeData false installed_fs "newcc" "1" ∅ = (∅, Ok newcc_data).
Proof.
  eapply (cached_data_current ∅ installed_fs ∅ "newcc" "1"); [exact no_files_ok| |vm_compute; exact eq_refl|vm_compute; exact eq_refl].
  eapply rtc_l; [exact (step_install _ _ _ _ demo_installed)|apply rtc_refl].
Defined.

Lemma launched_code_recorded_witness :
  exists h, sha_Sum (to_bytes "code") = Ok h /\ recorded newcc_data h.
Proof.
  destruct (launched_code_recorded installed_fs "newcc" (put newcc_data) newcc_data
    newcc newcc_package)
    as (_ & _ & _ & Hr); [vm_compute; exact eq_refl|exact Hr].
Defined.

(** A package that its owner signed. *)
Definition owner_package : Envelope :=
  match OwnerCreateSignedCCDepSpec 5 (Some newcc)
    (Some (policy_of 1 [to_bytes "Org1"])) (Some (signer_of alice)) with
  | Ok env => env
  | _ => mkEnvelope [] []
  end.



(** The package itself is a good one: it can be installed. *)
Example owner_package_installs :
  (executeInstall (put owner_package) (tt, ∅)).2 = Ok tt.
Proof. vm_compute. exact eq_refl. Qed.

(** A system chaincode that is left empty is not the default one. *)
Example empty_escc_rejected :
  (lscc_invoke (fun _ => ["Org1"; "Org2"]) (fun _ => Ok tt) (fun _ _ => Ok tt) empty_db deploy_signed
    (deploy_args ++ [[]]) installed_fs).2 = Ok (shim_Error " is not a valid endorsement system chaincode").
Proof. vm_compute. exact eq_refl. Qed.

(** An upgrade of a chaincode that is not there names the channel. *)
Example upgrade_of_nothing :
  (lscc_invoke (fun _ => ["Org1"; "Org2"]) (fun _ => Ok tt) (fun _ _ => Ok tt) empty_db deploy_signed
    (to_bytes "upgrade" :: tail deploy_args) installed_fs).2 = Ok (shim_Error "could not find chaincode with name 'ch'").
Proof. vm_compute. exact eq_refl. Qed.

Definition deploy_answer : Response := match deploy_run.2 with Ok r => r | _ => shim_Error "" end.

Lemma deploy_answered : deploy_run.2 = Ok deploy_answer /\ resp_Status deploy_answer = OK.
Proof. vm_compute. split; exact eq_refl. Qed.

Definition deploy_builder : RWSetBuilder := default NewRWSetBuilder (rwsetBuilder deploy_run.1.1).

Lemma deploy_builder_eq : rwsetBuilder deploy_run.1.1 = Some deploy_builder.
Proof. vm_compute. exact eq_refl. Qed.

Lemma deploy_response : VSCC.response_rwset deploy_cap = Ok (normalized (GetTxReadWriteSet deploy_builder)).
Proof. vm_compute. exact eq_refl. Qed.

Lemma demo_codec : MessageSpec ChaincodeData unmarshal_ChaincodeData (mkChaincodeData "" "" "" "" [] [] [] []) (fun _ => True).
Proof. apply (fields_spec _ (fun _ => True)). intros [] _. cbn. by rewrite !string_bytes. Qed.

Lemma deploy_submits : submits "ch" deploy_signed deploy_envelope deploy_payload.
Proof.
  split; [done|]. exists deploy_proposal. do 4 eexists. do 5 (split; [vm_compute; exact eq_refl|]). split; [exact eq_refl|].
  split; exists demo_msp, alice; do 3 (split; [done|]); cbn [Verify demo_msp]; by rewrite decide_True.
Qed.

Lemma no_empty_policy m c : VSCC.new_policy m [] <> Ok c.
Proof. done. Qed.

Lemma deploy_ran :
  lscc_invoke (fun _ => ["Org1"; "Org2"]) (fun _ => Ok tt) (fun _ _ => Ok tt) empty_db deploy_signed (to_bytes "deploy" :: tail deploy_args) installed_fs =
    ((deploy_run.1.1, deploy_run.1.2), Ok deploy_answer).
Proof. rewrite <- (proj1 deploy_answered). change (deploy_run = (deploy_run.1.1, deploy_run.1.2, deploy_run.2)). by destruct deploy_run as [[h fs] r]. Qed.

Lemma deploy_same_state : same_state (([], []) : toy) empty_db "newcc".
Proof. exists None. split; vm_compute; exact eq_refl. Qed.

Lemma deployment_validates_witness :
  VSCC.ValidateLSCCInvocation (demo_GetLedger ([], [])) "ch" deploy_envelope deploy_cap deploy_payload = Ok tt.
Proof.
  exact (deployment_validates demo_codec no_empty_policy (fun _ => ["Org1"; "Org2"]) (fun _ => Ok tt) (fun _ _ => Ok tt) (demo_GetLedger ([], [])) empty_db
    ([], []) deploy_signed false (tail deploy_args) installed_fs deploy_run.1.1 deploy_run.1.2 deploy_answer (mkChaincodeID "newcc" "1")
    deploy_builder [] deploy_envelope deploy_cap deploy_payload (mkCPP (put deploy_spec) ∅) GOLANG (Some (mkChaincodeID "lscc" ""))
    installed_fs_ok deploy_ran (proj2 deploy_answered) ltac:(vm_compute; exact eq_refl) ltac:(vm_compute; exact eq_refl) deploy_builder_eq ltac:(by constructor)
    deploy_response ltac:(vm_compute; exact eq_refl) ltac:(vm_compute; exact eq_refl) ltac:(exact eq_refl) deploy_same_state deploy_submits).
Defined.

End LifecycleWitnesses.
