(* ===== verification/MembershipTheorems.v ===== *)
(** * Membership services: the theorems

    Who is a member and an administrator of a channel, whose signatures verify,
    and who can install chaincodes; then an organization on which the theorems
    are applied. *)

From stdpp Require Import base gmap sets strings list.
From Stdlib Require Import Ascii ZArith Lia.
From S2P Require Import Prelude Proto Instances BlockHash Bccsp CAuthDSL Policies MsgValidation Membership MembershipFacts PolicyChecker TxValidatorFacts.
From S2P Require Import PeerTheorems CCPackages Endorser EndorserFacts EndorserTheorems LSCC LifecycleFacts.
Local Open Scope Z_scope.

(** ** What lscc does to the packages *)

Module InvokeFacts.
Import LSCC CCProvider.
Section InvokeFacts.
Context {St : Type}.

(** The files are left as they are. *)
Definition keeps_fs {A} (m : ST (St * Files) A) : Prop := forall s s' r, m s = (s', r) -> s'.2 = s.2.

Lemma keeps_lift {A} (r : res A) : keeps_fs (st_lift r).
Proof. by intros s s' r' [= <- _]. Qed.

Lemma keeps_ret {A} (a : A) : keeps_fs (mret a).
Proof. by intros s s' r' [= <- _]. Qed.

Lemma keeps_get : keeps_fs get_fs.
Proof. by intros s s' r' [= <- _]. Qed.

Lemma keeps_stub {A} (m : ST St A) : keeps_fs (on_stub m).
Proof. intros s s' r. unfold on_stub. destruct (m s.1). by intros [= <- _]. Qed.

Lemma keeps_bind {A B} (m : ST (St * Files) A) (f : A -> ST (St * Files) B) : keeps_fs m -> (forall a, keeps_fs (f a)) -> keeps_fs (m ≫= f).
Proof.
  intros Hm Hf s s' r. unfold mbind, st_bind. destruct (m s) as [s1 [a|e|p|]] eqn:E; apply Hm in E; [|by intros [= <- _]..].
  intros Ef. apply Hf in Ef. congruence.
Qed.

Lemma keeps_if {A} (b : bool) (m n : ST (St * Files) A) : keeps_fs m -> keeps_fs n -> keeps_fs (if b then m else n).
Proof. by destruct b. Qed.

Lemma keeps_decide {A} P `{Decision P} (m n : ST (St * Files) A) : keeps_fs m -> keeps_fs n -> keeps_fs (if decide P then m else n).
Proof. by case_decide. Qed.

Context `{ProtoCodec} `{SignatureCodec} `{TxCodec} `{PackageCodec} `{MSPManagers} `{ChaincodeStub St} `{StubRange St}.
Context `{!Message ChaincodeDeploymentSpec} `{!Message CDSData} `{!Message SignedCDSData} `{!Message ChaincodeData} `{!Message (list ChaincodeInfo)}.
Context (GetMSPIDs : string -> list string).
Context (CheckPolicyNoChannel : SignedProposal -> res unit) (CheckPolicy : string -> SignedProposal -> res unit).
Context (GetSignedProposal : res SignedProposal).

Lemma keeps_respond (m : ST (St * Files) bytes) : keeps_fs m -> keeps_fs (respond m).
Proof. intros Hm s s' r. unfold respond. destruct (m s) as [s1 [a|e|p|]] eqn:E; apply Hm in E; by intros [= <- _]. Qed.

Lemma keeps_instance name : keeps_fs (getCCInstance name).
Proof. intros s s' r. unfold getCCInstance. destruct (on_stub _ s) as [s1 [[]| | |]] eqn:E; apply keeps_stub in E; by intros [= <- _]. Qed.

Lemma keeps_instantiated name : keeps_fs (instantiated name).
Proof. intros s s' r. unfold instantiated. destruct (getCCInstance name s) as [s1 [a|e|p|]] eqn:E; apply keeps_instance in E; by intros [= <- _]. Qed.

Lemma keeps_put cd : keeps_fs (putChaincodeData cd).
Proof.
  unfold putChaincodeData. apply keeps_if; [apply keeps_lift|]. apply keeps_if; [apply keeps_lift|].
  apply keeps_bind; [apply keeps_lift|]. intros b. apply keeps_stub.
Qed.

Lemma keeps_deploy upgrade args : keeps_fs (deploy_or_upgrade GetMSPIDs GetSignedProposal upgrade args).
Proof.
  unfold deploy_or_upgrade. apply keeps_if; [apply keeps_lift|]. apply keeps_if; [apply keeps_lift|]. apply keeps_bind; [apply keeps_lift|]. intros policy.
  apply keeps_bind; [|intros cd; apply keeps_lift].
  destruct upgrade; unfold executeUpgrade, executeDeploy; (apply keeps_bind; [apply keeps_lift|]); intros cid;
    (apply keeps_bind; [apply keeps_instantiated|]); intros [b|]; try apply keeps_lift.
  - apply keeps_bind; [apply keeps_lift|]. intros _. apply keeps_bind; [apply keeps_get|]. intros fs. apply keeps_bind; [apply keeps_lift|]. intros cd.
    apply keeps_bind; [apply keeps_put|]. intros _. apply keeps_ret.
  - apply keeps_bind; [apply keeps_get|]. intros fs. apply keeps_bind; [apply keeps_lift|]. intros cd.
    apply keeps_bind; [apply keeps_put|]. intros _. apply keeps_ret.
Qed.

Lemma keeps_query function args sp : keeps_fs (query CheckPolicy function args sp).
Proof.
  unfold query. apply keeps_if; [apply keeps_lift|]. apply keeps_bind; [apply keeps_lift|]. intros _. apply keeps_bind; [apply keeps_instance|]. intros b.
  case_decide; [apply keeps_lift|]. case_decide; [apply keeps_ret|]. apply keeps_bind; [apply keeps_get|]. intros fs. apply keeps_lift.
Qed.

Lemma keeps_listing args sp k : keeps_fs k -> keeps_fs (listing CheckPolicyNoChannel args sp k).
Proof.
  intros Hk s s' r. unfold listing. destruct (negb _); [by intros [= <- _]|]. destruct (CheckPolicyNoChannel sp); [apply Hk|by intros [= <- _]..].
Qed.

Lemma keeps_getChaincodes : keeps_fs getChaincodes.
Proof.
  apply keeps_respond, keeps_bind; [apply keeps_stub|]. intros vs. apply keeps_bind; [apply keeps_get|]. intros fs. apply keeps_lift.
Qed.

Lemma keeps_getInstalledChaincodes : keeps_fs getInstalledChaincodes.
Proof. apply keeps_respond, keeps_bind; [apply keeps_get|]. intros fs. apply keeps_lift. Qed.

Lemma Invoke_keeps f args : to_string (default [] f) <> "install" ->
  keeps_fs (Invoke GetMSPIDs CheckPolicyNoChannel CheckPolicy GetSignedProposal (f :: args)).
Proof.
  intros Hne s s' r. unfold Invoke. pose proof (fun b => keeps_deploy b (f :: args)) as Hd. destruct GetSignedProposal as [sp| | |]; [|by intros [= <- _]..].
  rewrite decide_False by done. revert s s' r. match goal with |- forall s s' r, ?m s = _ -> _ => change (keeps_fs m) end.
  do 2 (apply keeps_decide; [apply keeps_respond, Hd|]). do 3 (apply keeps_decide; [apply keeps_respond, keeps_query|]).
  apply keeps_decide; [apply keeps_listing, keeps_getChaincodes|]. apply keeps_decide; [apply keeps_listing, keeps_getInstalledChaincodes|]. apply keeps_ret.
Qed.

(** Only an installation that is authorized changes them. *)
Lemma Invoke_files args st fs st' fs' r :
  Invoke GetMSPIDs CheckPolicyNoChannel CheckPolicy GetSignedProposal args (st, fs) = ((st', fs'), r) -> fs' <> fs ->
  exists sp, GetSignedProposal = Ok sp /\ CheckPolicyNoChannel sp = Ok tt.
Proof.
  destruct args as [|f args]; [by intros [= <- <- _]|]. destruct (decide (to_string (default [] f) = "install")) as [Ef|Hf].
  2:{ intros E Hne. destruct Hne. exact (Invoke_keeps _ _ Hf _ _ _ E). }
  unfold Invoke. destruct GetSignedProposal as [sp| | |]; [|by intros [= <- <- _]..]. rewrite decide_True by done. intros E Hne. exists sp. split; [done|].
  unfold respond, install in E. destruct (_ <? _)%nat; [by injection E as <- <- _|]. unfold mbind, st_bind, st_lift in E.
  destruct (CheckPolicyNoChannel sp) as [[]| | |]; [done|by injection E as <- <- _..].
Qed.

End InvokeFacts.
End InvokeFacts.

Module MembershipTheorems.
Import BccspMsp MspManager MSPConfigHandler SetupFacts HandlerFacts SigningFacts MspMgmt.
Section MembershipTheorems.
Context `{PrimitivesSpec} `{X509Spec} `{MSPCodec} `{TxCodec}.
Context (csp : SW.config) (ks_GetKey : bytes -> res Key).

Section Channel.
Context {Tx : Type} `{Countable Tx}.

Lemma channel_set_up (h : MSPConfigHandler Tx) mgr b m id :
  rtc (step csp ks_GetKey) NewMSPConfigHandler h -> MSPManager h = Some mgr -> @CAuthDSL.DeserializeIdentity (manager_msp csp mgr) b = Ok (m, id) ->
  exists c conf sId, BccspMsp.Setup csp ks_GetKey (Some c) NewBccspMsp = (m, Ok tt) /\ unmarshal_FabricMSPConfig (msp_Config c) = Ok conf /\
    set_up csp conf m /\ unmarshal_SerializedIdentity b = Ok sId /\ si_Mspid sId = name m /\ parsed (id_cert id).
Proof.
  intros Hs Hm E. pose proof (ho_manager _ _ _ (steps_ok _ _ _ Hs) _ Hm) as Hok. cbn in E. unfold DeserializeIdentity in E.
  apply res_bind_Ok in E as (sId & Es%or_fail_Ok & E). destruct (mspsMap mgr !! si_Mspid sId) as [m'|] eqn:El; [|done].
  apply res_bind_Ok in E as (id' & E & Ei). injection Ei as -> ->. destruct (Hok _ _ El) as [Hn [c Ec]]. destruct (Setup_inv _ _ _ _ Ec) as (conf & Econf & Hsu).
  exists c, conf, sId. do 4 (split; [done|]). split; [done|]. by destruct (deserialized_inv _ _ _ _ E).
Qed.

(** C9: who satisfies a principal on a channel is certified.  However
    configurations were proposed, rolled back and committed, an identity that the
    membership service of the channel accepts for a principal belongs to a
    provider that was set up from a configuration; its certificate has one chain
    to a root of that configuration, is not revoked and has one of its units, and
    it has the role, the unit or the certificate that the principal names. *)
Theorem channel_members_certified (h : MSPConfigHandler Tx) mgr b m id p :
  rtc (step csp ks_GetKey) NewMSPConfigHandler h -> MSPManager h = Some mgr ->
  @CAuthDSL.DeserializeIdentity (manager_msp csp mgr) b = Ok (m, id) -> @CAuthDSL.SatisfiesPrincipal (manager_msp csp mgr) (m, id) p = Ok tt ->
  exists c conf sId, BccspMsp.Setup csp ks_GetKey (Some c) NewBccspMsp = (m, Ok tt) /\ unmarshal_FabricMSPConfig (msp_Config c) = Ok conf /\
    set_up csp conf m /\ unmarshal_SerializedIdentity b = Ok sId /\ si_Mspid sId = conf_Name conf /\
    member csp m (id_cert id) /\ satisfies csp m (id_cert id) p.
Proof.
  intros Hs Hm Ed Ep. destruct (channel_set_up _ _ _ _ _ Hs Hm Ed) as (c & conf & sId & Ec & Econf & Hsu & Esid & Hn & Hp).
  destruct (principal_sound _ _ _ _ _ Hsu Hp Ep) as [Hv Hsat]. exists c, conf, sId. do 4 (split; [done|]).
  split; [by rewrite Hn, (su_name _ _ _ Hsu)|]. split; [by eapply valid_member|done].
Qed.

(** the administrators of a provider are members of it: an identity that a
    channel accepts as an administrator it accepts as a member. *)
Theorem admins_are_members (h : MSPConfigHandler Tx) mgr b m id p q n :
  rtc (step csp ks_GetKey) NewMSPConfigHandler h -> MSPManager h = Some mgr ->
  @CAuthDSL.DeserializeIdentity (manager_msp csp mgr) b = Ok (m, id) ->
  PrincipalClassification p = ROLE -> unmarshal_MSPRole (Principal p) = Ok (KnownRole ADMIN, n) ->
  PrincipalClassification q = ROLE -> unmarshal_MSPRole (Principal q) = Ok (KnownRole MEMBER, n) ->
  @CAuthDSL.SatisfiesPrincipal (manager_msp csp mgr) (m, id) p = Ok tt -> @CAuthDSL.SatisfiesPrincipal (manager_msp csp mgr) (m, id) q = Ok tt.
Proof.
  intros Hs Hm Ed Cp Ep Cq Eq E. destruct (channel_set_up _ _ _ _ _ Hs Hm Ed) as (c & conf & sId & _ & _ & Hsu & _ & _ & Hp).
  destruct (principal_sound _ _ _ _ _ Hsu Hp E) as [Hv _]. cbn in *. unfold SatisfiesPrincipal in *. rewrite Cp, Ep in E. rewrite Cq, Eq.
  cbn in *. by destruct (bool_decide (n = name m)).
Qed.

End Channel.

(** C26: What a member signs verifies.  The default signing identity of a provider
    that was set up, when its key is the ECDSA key of its certificate (the setup
    does not compare a key that is configured with the certificate), signs for its
    serialized form on every channel whose membership service accepts that form as
    a valid identity and has the same configuration of the hash functions. *)
Theorem member_signs `{!Message SerializedIdentity} (zero : SerializedIdentity) g ch mgr c0 m0 s sk b m id entropy :
  MessageSpec SerializedIdentity unmarshal_SerializedIdentity zero (fun _ => True) ->
  BccspMsp.Setup csp ks_GetKey (Some c0) NewBccspMsp = (m0, Ok tt) -> GetDefaultSigningIdentity m0 = Ok s ->
  sid_signer s = ecdsaPrivateKey sk -> cert_PublicKey (id_cert (sid_identity s)) = CertECDSA (sk_PublicKey sk) ->
  BccspMsp.Serialize (sid_identity s) = Ok b -> b <> [] ->
  ch <> "" -> mspMap g !! ch = Some (Handler (Some mgr)) -> DeserializeIdentity csp mgr b = Ok (m, id) -> Validate csp m id = Ok tt ->
  cryptoConfig m = cryptoConfig m0 ->
  @EndorserFacts.signs_for (msp_managers csp g) ch (mkSigningIdentity (Ok b) (BccspMsp.Sign csp m0 entropy s)) b.
Proof.
  intros Hspec Esu Es Hk Hcert Eb Hb Hch Hg Ed Hv Hcc. destruct (Setup_inv _ _ _ _ Esu) as (conf & _ & Hsu).
  unfold GetDefaultSigningIdentity in Es. destruct (signer m0) as [s'|] eqn:Esig; [|done]. injection Es as ->. destruct (su_signer _ _ _ Hsu _ Esig) as [Hp _].
  destruct (serialized_key csp zero mgr _ _ _ _ _ Hspec Hp Eb Hcert Ed) as [Hpk _]. split; [done|]. intros msg sig E. cbn in E.
  destruct (sign_verify csp m0 m entropy s sk id msg sig Hk Hpk Hcc E) as [Hsig Hver]. split; [done|].
  exists (manager_msp csp mgr), (m, id). split; [|done]. unfold GetIdentityDeserializer. rewrite decide_False by done. cbn. unfold GetManagerForChain. by rewrite Hg.
Qed.

(** C27: chaincodes are installed by administrators of the peer.  When lscc, with
    the access control of the peer, changes the packages on the file system, then
    the creator of the proposal has the certificate of an administrator of the
    local provider, is a member of it, and signed the proposal. *)
Theorem installed_by_admin {St : Type} `{ProtoCodec} `{SignatureCodec} `{PackageCodec} `{MSPManagers} `{ChaincodeStub St} `{StubRange St}
    `{!Message ChaincodeDeploymentSpec} `{!Message CDSData} `{!Message SignedCDSData} `{!Message ChaincodeData} `{!Message (list ChaincodeInfo)}
    GetMSPIDs CheckPolicy GetSignedProposal c local args (st st' : St) fs fs' r :
  (forall role n, unmarshal_MSPRole (marshal_MSPRole role n) = Ok (KnownRole role, n)) ->
  BccspMsp.Setup csp ks_GetKey (Some c) NewBccspMsp = (local, Ok tt) ->
  LSCC.Invoke GetMSPIDs (fun sp => PolicyChecker.CheckPolicyNoChannel csp local Admins (Some sp)) CheckPolicy GetSignedProposal args (st, fs) = ((st', fs'), r) ->
  fs' <> fs ->
  exists sp prop hdr shdr id admin, GetSignedProposal = Ok sp /\ unmarshal_Proposal (sp_ProposalBytes sp) = Ok prop /\
    unmarshal_Header (prop_Header prop) = Ok hdr /\ TxUtils.GetSignatureHeader (hdr_SignatureHeader hdr) = Ok shdr /\
    BccspMsp.DeserializeIdentity csp local (sh_Creator shdr) = Ok id /\ admin ∈ admins local /\ id_cert admin = id_cert id /\
    member csp local (id_cert id) /\ BccspMsp.Verify csp local id (sp_ProposalBytes sp) (sp_Signature sp) = Ok tt.
Proof.
  intros Hrole Esu E Hne. destruct (InvokeFacts.Invoke_files _ _ _ _ _ _ _ _ _ _ E Hne) as (sp & Esp & Ec). destruct (Setup_inv _ _ _ _ Esu) as (conf & _ & Hsu).
  unfold PolicyChecker.CheckPolicyNoChannel in Ec. rewrite decide_False in Ec by done.
  apply res_bind_Ok in Ec as (prop & Ep%or_fail_Ok & Ec). apply res_bind_Ok in Ec as (hdr & Eh%or_fail_Ok & Ec).
  apply res_bind_Ok in Ec as (shdr & Esh%or_fail_Ok & Ec). apply res_bind_Ok in Ec as (id & Eid%or_fail_Ok & Ec).
  apply res_bind_Ok in Ec as (pr & Epr%or_fail_Ok & Ec). apply res_bind_Ok in Ec as ([] & Esat%or_fail_Ok & Ever).
  unfold principal_Get in Epr. rewrite decide_True in Epr by done. injection Epr as <-.
  destruct (principal_sound _ _ _ _ _ Hsu (deserialized_parsed _ _ _ _ Eid) Esat) as [Hv Hs]. exists sp, prop, hdr, shdr, id.
  destruct Hs as [_ Er|admin _ _ Ha Hc|id' Hcl|ou chain Hcl]; [cbn in Er; by rewrite Hrole in Er| |done..].
  exists admin. do 7 (split; [done|]). split; [by eapply valid_member|done].
Qed.

(** The identities of RSA certificates verify nothing: the options that the RSA
    verifier asks for are nil. *)
Lemma rsa_verifies_nothing m id k msg sig : id_pk id = Some (rsaPublicKey k) -> BccspMsp.Verify csp m id msg sig <> Ok tt.
Proof.
  intros Hk E. unfold BccspMsp.Verify in E. apply res_bind_Ok in E as (d & _ & E). apply res_bind_Ok in E as (v & Ev%or_fail_Ok & _). rewrite Hk in Ev.
  cbn in Ev. destruct (is_nil sig); [done|]. by destruct (is_nil d).
Qed.

(** The key of a signing identity whose certificate has a key of another type is
    nil, and is dereferenced. *)
Lemma unsupported_key_panics m b material id : getIdentityFromConf csp m b = Ok (id, None) ->
  getSigningIdentityFromConf csp ks_GetKey m (mkSigningIdentityInfo b material) = Panic "nil pointer dereference".
Proof. intros E. unfold getSigningIdentityFromConf. cbn [PublicSigner]. by rewrite E. Qed.

End MembershipTheorems.
End MembershipTheorems.

(** ** An organization *)

Module MembershipDemo.
Import Bits FieldCodec BccspWitnesses BccspMsp MspManager MSPConfigHandler.

(** Certificates with a name, the name of the issuer, a number, and a unit. *)
Definition toy_cert (sig : bytes) (subject issuer : string) (serial : Z) (ca : bool) (unit : string) : bytes :=
  pack [sig; to_bytes subject; to_bytes issuer; [uint8 serial]; if ca then to_bytes "ca" else []; to_bytes unit].

Definition toy_parse (b : bytes) : res Certificate :=
  match fields b with
  | [sig; subject; issuer; [serial]; ca; unit] =>
      Ok (mkCertificate b sig ECDSAWithSHA256 (CertECDSA (mkPublicKey P256 subject)) (byte_val serial) (negb (is_nil ca)) 0
            [mkExtension [2; 5; 29; 14] subject; mkExtension [1] issuer] [to_string unit])
  | _ => Err "asn1"
  end.

Definition subject (c : Certificate) : bytes := default [] (find_extension [2; 5; 29; 14] (Extensions c)).
Definition issuer (c : Certificate) : bytes := default [] (find_extension [1] (Extensions c)).

(** Chains over at most one intermediate certificate. *)
Definition toy_Verify (c : Certificate) (o : VerifyOptions) : res (list (list Certificate)) :=
  if existsb (fun r => bool_decide (r = c)) (Roots o) then Ok [[c]]
  else
    let up x := filter (fun r => subject r = issuer x) (Roots o) in
    match ((fun r => [c; r]) <$> up c) ++ (filter (fun i => subject i = issuer c) (Intermediates o) ≫= fun i => (fun r => [c; i; r]) <$> up i) with
    | [] => Err "x509: certificate signed by unknown authority"
    | chains => Ok chains
    end.

#[export] Instance toy_x509 : X509 := {
  pem_Decode b := match b with "P"%char :: b => Some b | _ => None end;
  pem_EncodeToMemory b := Some ("P"%char :: b);
  ParseCertificate := toy_parse;
  ParseCRL b := match fields b with aki :: l => Ok (mkCertificateList b [mkExtension [2; 5; 29; 35] aki] ((fun s => byte_val (default "0"%char (head s))) <$> l)) | _ => Err "asn1" end;
  cert_Verify := toy_Verify;
  CheckCRLSignature _ _ := Ok tt;
  asn1_SKI := Ok;
  asn1_AKI := Ok;
  asn1_resign raw sig := Ok (match fields raw with _ :: l => pack (sig :: l) | [] => [] end)
}.

#[export] Instance toy_x509_spec : X509Spec.
Proof.
  split.
  - intros b c E. cbn in E. unfold toy_parse in E. destruct (fields b) as [|sig [|su [|i [|[|s []] [|ca [|u []]]]]]]; try done. by injection E as <-.
  - intros c o chains chain E Hin. cbn in E. unfold toy_Verify in E. destruct (existsb _ _) eqn:Ex.
    + injection E as <-. apply list_elem_of_singleton in Hin as ->. apply existsb_exists in Ex as (r & Hr%list_elem_of_In & ->%bool_decide_eq_true).
      split; [done|]. split; [by exists c|]. constructor; [by left|done].
    + assert (chain ∈ ((fun r => [c; r]) <$> filter (fun r => subject r = issuer c) (Roots o)) ++
        (filter (fun i => subject i = issuer c) (Intermediates o) ≫= fun i => (fun r => [c; i; r]) <$> filter (fun r => subject r = issuer i) (Roots o))) as Hc.
      { destruct (_ ++ _); [done|]. injection E as <-. exact Hin. }
      clear E. apply elem_of_app in Hc as [Hc|Hc].
      * apply list_elem_of_fmap in Hc as (r & -> & [_ Hr]%list_elem_of_filter). split; [done|]. split; [by exists r|].
        apply Forall_forall; intros x; rewrite !elem_of_cons, elem_of_nil; naive_solver.
      * apply list_elem_of_bind in Hc as (i & Hc & [_ Hi]%list_elem_of_filter). apply list_elem_of_fmap in Hc as (r & -> & [_ Hr]%list_elem_of_filter).
        split; [done|]. split; [by exists r|]. apply Forall_forall; intros x; rewrite !elem_of_cons, elem_of_nil; naive_solver.
  - intros b e E. injection E as <-. done.
Qed.

(** A signature with a high S, which is sanitized. *)
Definition high_s : bytes := "0"%char :: to_bits (1, Params_N P256 - 9).

Definition pem (b : bytes) : bytes := "P"%char :: b.
Definition ca_cert : bytes := pem (toy_cert high_s "ca" "ca" 1 true "").
Definition admin_cert : bytes := pem (toy_cert high_s "admin" "ca" 2 false "ops").
Definition member_cert : bytes := pem (toy_cert high_s "alice" "ca" 3 false "ops").

Definition private (subject : string) : PrivateKey := mkPrivateKey (mkPublicKey P256 (to_bytes subject)) 7.

(** The key store has the key of the member. *)
Definition demo_keys (ski : bytes) : res Key :=
  if decide (ski = SW.SKI (ecdsaPrivateKey (private "alice"))) then Ok (ecdsaPrivateKey (private "alice")) else Err "no such key".

Definition demo_conf : FabricMSPConfig :=
  mkFabricMSPConfig "Org1" [ca_cert] [] [admin_cert] [pack [to_bytes "ca"; [uint8 9]]] (Some (mkSigningIdentityInfo member_cert None))
    [mkFabricOU ca_cert "ops"] None [] [].

#[export] Instance demo_msp_codec : MSPCodec := {
  unmarshal_FabricMSPConfig b := if decide (b = to_bytes "Org1") then Ok demo_conf else Err "proto: FabricMSPConfig";
  unmarshal_MSPRole b :=
    match b with
    | "a"%char :: n => Ok (KnownRole ADMIN, to_string n)
    | "m"%char :: n => Ok (KnownRole MEMBER, to_string n)
    | _ => Err "proto: MSPRole"
    end;
  unmarshal_OrganizationUnit _ := Err "proto: OrganizationUnit"
}.

#[export] Instance f_serialized : Fields SerializedIdentity := {
  to_fields i := [to_bytes (si_Mspid i); si_IdBytes i];
  of_fields l := match l with [m; i] => Ok (mkSerializedIdentity (to_string m) i) | _ => Err "proto: SerializedIdentity" end
}.

#[export] Instance member_signatures : SignatureCodec := {
  unmarshal_SignatureHeader := get;
  unmarshal_SignaturePolicyEnvelope _ := Err "proto: SignaturePolicyEnvelope";
  marshal_MSPRole role n := (match role with ADMIN => "a"%char | MEMBER => "m"%char end) :: to_bytes n
}.

#[export] Instance member_tx : TxCodec := {
  unmarshal_Header := get;
  unmarshal_Proposal := get;
  unmarshal_ChaincodeHeaderExtension := get;
  unmarshal_ChaincodeProposalPayload := get;
  unmarshal_ChaincodeInvocationSpec := get;
  unmarshal_ChaincodeDeploymentSpec := get;
  unmarshal_ChaincodeData := get;
  unmarshal_SerializedIdentity := get;
  marshal_SignaturePolicyEnvelope _ := Err "proto: SignaturePolicyEnvelope";
  ValidateDeploymentSpec _ := Ok tt
}.

Definition demo_csp : SW.config := SW.mkConfig P256 SHA256Opts 32 2048.

Definition demo_provider : bccspmsp * res unit := BccspMsp.Setup demo_csp demo_keys (Some (mkMSPConfig 0 (to_bytes "Org1"))) NewBccspMsp.

Definition org1 : bccspmsp := demo_provider.1.

End MembershipDemo.

(** ** Witnesses *)

Module MembershipWitnesses.
Import FieldCodec EndorserDemo BccspWitnesses BccspMsp MspManager MSPConfigHandler SetupFacts HandlerFacts MspMgmt MembershipDemo MembershipTheorems.

Definition org1_config : MSPConfig := mkMSPConfig 0 (to_bytes "Org1").

Lemma org1_set_up : BccspMsp.Setup demo_csp demo_keys (Some org1_config) NewBccspMsp = (org1, Ok tt).
Proof. vm_compute. exact eq_refl. Qed.

(** A configuration with the organization is committed. *)
Definition h0 : MSPConfigHandler unit := NewMSPConfigHandler.
Definition h1 : MSPConfigHandler unit := (BeginConfig tt h0).1.
Definition h2 : MSPConfigHandler unit := (ProposeMSP demo_csp demo_keys tt org1_config h1).1.
Definition h3 : MSPConfigHandler unit := (PreCommit tt h2).1.
Definition h4 : MSPConfigHandler unit := (CommitProposals tt h3).1.

Definition channel_mgr : mspManagerImpl := default NewMSPManager (MSPManager h4).

Lemma channel_mgr_eq : MSPManager h4 = Some channel_mgr.
Proof. vm_compute. exact eq_refl. Qed.

Lemma committed : rtc (step demo_csp demo_keys) NewMSPConfigHandler h4.
Proof.
  eapply rtc_l; [apply (step_begin _ _ tt h0 h1); done|].
  eapply rtc_l; [apply (step_propose _ _ tt org1_config h1 h2 (Ok org1)); vm_compute; exact eq_refl|].
  eapply rtc_l; [apply (step_precommit _ _ tt h2 h3 (Ok tt)); vm_compute; exact eq_refl|].
  eapply rtc_l; [apply (step_commit _ _ tt h3 h4); vm_compute; exact eq_refl|apply rtc_refl].
Qed.

Definition creator (cert : bytes) : bytes := put (mkSerializedIdentity "Org1" cert).

Definition channel_id (b : bytes) : bccspmsp * identity :=
  match @CAuthDSL.DeserializeIdentity (manager_msp demo_csp channel_mgr) b with
  | Ok i => i
  | _ => (NewBccspMsp, mkIdentity "" "" (mkCertificate [] [] OtherAlgorithm CertOther 0 false 0 [] []) None)
  end.

Definition alice_id : bccspmsp * identity := channel_id (creator member_cert).
Definition admin_id : bccspmsp * identity := channel_id (creator admin_cert).

Lemma alice_deserialized : @CAuthDSL.DeserializeIdentity (manager_msp demo_csp channel_mgr) (creator member_cert) = Ok (alice_id.1, alice_id.2).
Proof. vm_compute. exact eq_refl. Qed.

Lemma admin_deserialized : @CAuthDSL.DeserializeIdentity (manager_msp demo_csp channel_mgr) (creator admin_cert) = Ok (admin_id.1, admin_id.2).
Proof. vm_compute. exact eq_refl. Qed.

Definition role_principal (r : MSPRoleType) : MSPPrincipal := mkPrincipal ROLE (marshal_MSPRole r "Org1").

Lemma channel_members_certified_witness :
  member demo_csp alice_id.1 (id_cert alice_id.2) /\ satisfies demo_csp alice_id.1 (id_cert alice_id.2) (role_principal MEMBER).
Proof.
  destruct (channel_members_certified demo_csp demo_keys h4 channel_mgr (creator member_cert) alice_id.1 alice_id.2 (role_principal MEMBER)
    committed channel_mgr_eq alice_deserialized ltac:(vm_compute; exact eq_refl)) as (c & conf & sId & _ & _ & _ & _ & _ & Hm & Hs).
  split; [exact Hm|exact Hs].
Defined.

Lemma admins_are_members_witness :
  @CAuthDSL.SatisfiesPrincipal (manager_msp demo_csp channel_mgr) (admin_id.1, admin_id.2) (role_principal MEMBER) = Ok tt.
Proof.
  exact (admins_are_members demo_csp demo_keys h4 channel_mgr (creator admin_cert) admin_id.1 admin_id.2 (role_principal ADMIN) (role_principal MEMBER) "Org1"
    committed channel_mgr_eq admin_deserialized eq_refl eq_refl eq_refl eq_refl ltac:(vm_compute; exact eq_refl)).
Defined.

Lemma serialized_codec : MessageSpec SerializedIdentity unmarshal_SerializedIdentity (mkSerializedIdentity "" []) (fun _ => True).
Proof. apply (fields_spec _ (fun _ => True)). intros [] _. cbn. by rewrite string_bytes. Qed.

Definition org1_signer : signingidentity :=
  match GetDefaultSigningIdentity org1 with Ok s => s | _ => mkSigning alice_id.2 (aesPrivateKey []) end.

Definition org1_creator : bytes := match BccspMsp.Serialize (sid_identity org1_signer) with Ok b => b | _ => [] end.

Definition org1_id : bccspmsp * identity := channel_id org1_creator.

Lemma member_signs_witness :
  @EndorserFacts.signs_for (msp_managers demo_csp (mkMgmt None {["ch" := Handler (Some channel_mgr)]})) "ch"
    (mkSigningIdentity (Ok org1_creator) (BccspMsp.Sign demo_csp org1 [] org1_signer)) org1_creator.
Proof.
  exact (member_signs demo_csp demo_keys (mkSerializedIdentity "" []) (mkMgmt None {["ch" := Handler (Some channel_mgr)]}) "ch" channel_mgr org1_config org1
    org1_signer (private "alice") org1_creator org1_id.1 org1_id.2 [] serialized_codec org1_set_up ltac:(vm_compute; exact eq_refl)
    ltac:(vm_compute; exact eq_refl) ltac:(vm_compute; exact eq_refl) ltac:(vm_compute; exact eq_refl) ltac:(vm_compute; done) ltac:(done)
    ltac:(apply lookup_singleton_eq) ltac:(vm_compute; exact eq_refl) ltac:(vm_compute; exact eq_refl) ltac:(vm_compute; exact eq_refl)).
Defined.

(** The administrator installs a chaincode. *)
#[local] Existing Instance PeerDemo.sum_hash.
#[local] Instance org1_managers : MSPManagers := msp_managers demo_csp (mkMgmt (Some org1) ∅).
#[local] Instance no_state : ChaincodeStub unit := { stub_GetState _ := st_lift (Ok None); stub_PutState _ _ := st_lift (Ok tt) }.
#[local] Instance no_range : StubRange unit := { stub_GetStateByRange _ _ := st_lift (Ok []) }.
#[local] Instance no_infos : Message (list ChaincodeInfo) := fun _ => Err "not listed".

Definition install_args : list bytes :=
  [to_bytes "install"; put (mkCDS (Some (mkChaincodeSpec GOLANG (Some (mkChaincodeID "cc" "1")) (Some []))) (to_bytes "code"))].

Definition install_proposal : bytes :=
  match TxCreation.CreateChaincodeProposalWithTransient 5 (Ok (to_bytes "n")) ENDORSER_TRANSACTION ""
    (mkCIS (Some (mkChaincodeSpec GOLANG (Some (mkChaincodeID "lscc" "")) (Some install_args)))) (creator admin_cert) ∅ with
  | Ok (prop, _) => put prop
  | _ => []
  end.

Definition install_signed : SignedProposal :=
  mkSignedProposal install_proposal
    match BccspMsp.Sign demo_csp org1 [] (mkSigning admin_id.2 (ecdsaPrivateKey (private "admin"))) install_proposal with Ok sig => sig | _ => [] end.

Definition install_run : (unit * CCProvider.Files) * res Response :=
  LSCC.Invoke (fun _ => []) (fun sp => PolicyChecker.CheckPolicyNoChannel demo_csp org1 Admins (Some sp)) (fun _ _ => Err "denied") (Ok install_signed)
    (Some <$> install_args) (tt, ∅).

Lemma install_ran : install_run.2 = Ok (mkResponse OK "" (to_bytes "OK")) /\ install_run.1.2 <> ∅.
Proof. split; [vm_compute; exact eq_refl|]. apply (bool_decide_unpack _). vm_compute. exact I. Qed.

Lemma installed_by_admin_witness :
  exists id admin, admin ∈ admins org1 /\ id_cert admin = id_cert id /\
    BccspMsp.Verify demo_csp org1 id (sp_ProposalBytes install_signed) (sp_Signature install_signed) = Ok tt.
Proof.
  destruct (installed_by_admin demo_csp demo_keys (fun _ => []) (fun _ _ => Err "denied") (Ok install_signed) org1_config org1 (Some <$> install_args)
    tt install_run.1.1 ∅ install_run.1.2 install_run.2 ltac:(intros [] n; cbn; by rewrite string_bytes) org1_set_up
    ltac:(fold install_run; by destruct install_run as [[] ?]) (proj2 install_ran))
    as (sp & prop & hdr & shdr & id & admin & [= <-] & _ & _ & _ & _ & Ha & Hc & _ & Hv).
  exists id, admin. split; [exact Ha|]. split; [exact Hc|exact Hv].
Defined.

(** A trusted root that is no authority makes the setup panic before it is
    looked at. *)
Example non_ca_root_panics :
  (setupCAs demo_csp (mkFabricMSPConfig "Org1" [pem (toy_cert high_s "x" "x" 5 false "")] [] [] [] None [] None [] [])
    (with_crypto NewBccspMsp (mkCryptoConfig "SHA2" "SHA256"))).2 = Panic "index out of range".
Proof. vm_compute. exact eq_refl. Qed.

End MembershipWitnesses.
