(* ===== verification/GossipMsgs.v ===== *)
(** * Messages of the gossip network

    protos/gossip: the messages, which of them replace which (extensions.go).
    gossip/gossip/msgstore: the store of messages that have not been replaced,
    and gossip/util/msgs.go: messages by the id of their peer. *)

From stdpp Require Import base gmap strings list.
From Stdlib Require Import Ascii ZArith Lia.
From S2P Require Import Prelude Proto.
Local Open Scope Z_scope.

(** ** message.pb.go *)

Record SecretEnvelope := mkSecretEnvelope { sec_Payload : bytes; sec_Signature : bytes }.

Record GossipEnvelope := mkGossipEnvelope {
  ge_Payload : bytes;
  ge_Signature : bytes;
  ge_SecretEnvelope : option SecretEnvelope
}.

Inductive Tag := TagUNDEFINED | EMPTY | ORG_ONLY | CHAN_ONLY | CHAN_AND_ORG | CHAN_OR_ORG | OtherTag (n : Z).
#[global] Instance Tag_eq_dec : EqDecision Tag.
Proof. solve_decision. Defined.

Inductive PullMsgType := PullUNDEFINED | BLOCK_MSG | IDENTITY_MSG | OtherPullMsgType (n : Z).
#[global] Instance PullMsgType_eq_dec : EqDecision PullMsgType.
Proof. solve_decision. Defined.

Record PeerTime := mkPeerTime { pt_IncNum : Z; pt_SeqNum : Z }.

(** A block, marshalled, with its number. *)
Record BlockPayload := mkBlockPayload { SeqNum : Z; bp_Data : bytes }.

Record StateInfo := mkStateInfo {
  si_Metadata : bytes;
  si_Timestamp : option PeerTime;
  si_PkiId : bytes;
  si_Channel_MAC : bytes
}.

Record LeadershipMessage := mkLeadershipMessage {
  lm_PkiId : bytes;
  lm_Timestamp : option PeerTime;
  lm_IsDeclaration : bool
}.

Record Member := mkMember { mem_Endpoint : string; mem_Metadata : bytes; mem_PkiId : bytes }.

(** The content of a message; [NoContent] is a content of a type that is not
    known, or none. *)
Inductive Content :=
| AliveMsg (membership : option Member) (timestamp : option PeerTime) (identity : bytes)
| MemReq (self_information : option GossipEnvelope) (known : list bytes)
| MemRes (alive dead : list GossipEnvelope)
| DataMsg (payload : option BlockPayload)
| Hello (nonce : Z) (metadata : bytes) (msgType : PullMsgType)
| DataDig (nonce : Z) (digests : list string) (msgType : PullMsgType)
| DataReq (nonce : Z) (digests : list string) (msgType : PullMsgType)
| DataUpdate (nonce : Z) (data : list GossipEnvelope) (msgType : PullMsgType)
| Empty
| ConnEstablish (pkiId identity tlsCertHash : bytes)
| StateInfoMsg (info : StateInfo)
| StateSnapshot (elements : list GossipEnvelope)
| StateInfoPullReq (channel_MAC : bytes)
| StateRequest (startSeqNum endSeqNum : Z)
| StateResponse (payloads : list BlockPayload)
| LeadershipMsg (l : LeadershipMessage)
| PeerIdentityMsg (pkiId cert metadata : bytes)
| NoContent.

Record GossipMessage := mkGossipMessage {
  gm_Nonce : Z;
  gm_Channel : bytes;
  gm_Tag : Tag;
  gm_Content : Content
}.

(** The generated code. *)
Class GossipCodec := {
  marshal_GossipMessage : GossipMessage -> bytes;
  unmarshal_GossipMessage : bytes -> res GossipMessage
}.

(** ** extensions.go *)

Record SignedGossipMessage := mkSignedGossipMessage { sgm_Envelope : option GossipEnvelope; sgm_Message : GossipMessage }.

Record ConnectionInfo := mkConnectionInfo {
  ci_ID : option bytes;
  ci_Auth : option (bytes * bytes);       (** the signed data, and the signature *)
  ci_Identity : bytes;
  ci_Endpoint : string
}.

Definition IsAuthenticated (c : ConnectionInfo) : bool := match ci_Auth c with Some _ => true | None => false end.

Record ReceivedMessage := mkReceivedMessage { rm_Message : SignedGossipMessage; rm_ConnectionInfo : ConnectionInfo }.

Definition rm_Content (m : ReceivedMessage) : Content := gm_Content (sgm_Message (rm_Message m)).

Section Extensions.
Context `{GossipCodec}.

(** An envelope without a signature. *)
Definition NoopSign (m : GossipMessage) : SignedGossipMessage :=
  mkSignedGossipMessage (Some (mkGossipEnvelope (marshal_GossipMessage m) [] None)) m.

Definition ToGossipMessage (e : GossipEnvelope) : res SignedGossipMessage :=
  match unmarshal_GossipMessage (ge_Payload e) with
  | Ok msg => Ok (mkSignedGossipMessage (Some e) msg)
  | Err m => Err ("Failed unmarshaling GossipMessage from envelope: " +:+ m)
  | Panic m => Panic m
  | OutOfFuel => OutOfFuel
  end.

Definition sgm_Verify (m : SignedGossipMessage) (peerIdentity : bytes) (verify : bytes -> bytes -> bytes -> res unit) : res unit :=
  match sgm_Envelope m with
  | None => Err "Missing envelope"
  | Some e =>
      if is_nil (ge_Payload e) then Err "Empty payload"
      else if is_nil (ge_Signature e) then Err "Empty signature"
      else
        verify peerIdentity (ge_Signature e) (ge_Payload e);;
        match ge_SecretEnvelope e with
        | None => Ok tt
        | Some s =>
            if is_nil (sec_Payload s) then Err "Empty payload"
            else if is_nil (sec_Signature s) then Err "Empty signature"
            else verify peerIdentity (sec_Signature s) (sec_Payload s)
        end
  end.

End Extensions.

Definition IsDataMsg (c : Content) : bool := match c with DataMsg _ => true | _ => false end.
Definition IsAliveMsg (c : Content) : bool := match c with AliveMsg _ _ _ => true | _ => false end.
Definition IsStateInfoMsg (c : Content) : bool := match c with StateInfoMsg _ => true | _ => false end.
Definition IsLeadershipMsg (c : Content) : bool := match c with LeadershipMsg _ => true | _ => false end.

Definition IsPullMsg (c : Content) : bool :=
  match c with Hello _ _ _ | DataDig _ _ _ | DataReq _ _ _ | DataUpdate _ _ _ => true | _ => false end.

Definition IsRemoteStateMessage (c : Content) : bool :=
  match c with StateRequest _ _ | StateResponse _ => true | _ => false end.

Definition GetPullMsgType (c : Content) : PullMsgType :=
  match c with
  | Hello _ _ t | DataDig _ _ t | DataReq _ _ t | DataUpdate _ _ t => t
  | _ => PullUNDEFINED
  end.

Definition IsChannelRestricted (m : GossipMessage) : bool :=
  match gm_Tag m with CHAN_AND_ORG | CHAN_ONLY | CHAN_OR_ORG => true | _ => false end.

Definition IsOrgRestricted (m : GossipMessage) : bool :=
  match gm_Tag m with CHAN_AND_ORG | ORG_ONLY => true | _ => false end.

Definition tag_is (m : GossipMessage) (t : Tag) : res unit :=
  if decide (gm_Tag m = t) then Ok tt else Err "Tag should be another one".

Definition IsTagLegal (m : GossipMessage) : res unit :=
  if decide (gm_Tag m = TagUNDEFINED) then Err "Undefined tag"
  else
    match gm_Content m with
    | DataMsg _ => tag_is m CHAN_AND_ORG
    | AliveMsg _ _ _ | MemReq _ _ | MemRes _ _ => tag_is m EMPTY
    | PeerIdentityMsg _ _ _ => tag_is m ORG_ONLY
    | Hello _ _ t | DataDig _ _ t | DataReq _ _ t | DataUpdate _ _ t =>
        match t with
        | BLOCK_MSG => tag_is m CHAN_AND_ORG
        | IDENTITY_MSG => tag_is m EMPTY
        | _ => Err "Invalid PullMsgType"
        end
    | StateInfoMsg _ | StateInfoPullReq _ | StateSnapshot _ | StateRequest _ _ | StateResponse _ => tag_is m CHAN_OR_ORG
    | LeadershipMsg _ => tag_is m CHAN_AND_ORG
    | Empty | ConnEstablish _ _ _ | NoContent => Err "Unknown message type"
    end.

(** *** Which message replaces which *)

Inductive InvalidationResult := MessageNoAction | MessageInvalidates | MessageInvalidated.

Definition abs (a b : Z) : Z := if b <? a then wrap64 (a - b) else wrap64 (b - a).

(** A timestamp that is missing is dereferenced. *)
Definition compareTimestamps (thisTS thatTS : option PeerTime) : res InvalidationResult :=
  match thisTS, thatTS with
  | Some thisTS, Some thatTS =>
      Ok (if pt_IncNum thisTS =? pt_IncNum thatTS then
            if pt_SeqNum thatTS <? pt_SeqNum thisTS then MessageInvalidates else MessageInvalidated
          else if pt_IncNum thisTS <? pt_IncNum thatTS then MessageInvalidated else MessageInvalidates)
  | _, _ => Panic "nil pointer dereference"
  end.

Definition dataInvalidationPolicy (dataBlockStorageSize : Z) (this that : option BlockPayload) : res InvalidationResult :=
  match this, that with
  | Some this, Some that =>
      Ok (if SeqNum this =? SeqNum that then MessageInvalidated
          else if abs (SeqNum this) (SeqNum that) <=? wrap64 dataBlockStorageSize then MessageNoAction
          else if SeqNum that <? SeqNum this then MessageInvalidates else MessageInvalidated)
  | _, _ => Panic "nil pointer dereference"
  end.

Definition invalidationPolicy (dataBlockStorageSize : Z) (this that : SignedGossipMessage) : res InvalidationResult :=
  match gm_Content (sgm_Message this), gm_Content (sgm_Message that) with
  | AliveMsg (Some m) t _, AliveMsg (Some m') t' _ =>
      if decide (mem_PkiId m = mem_PkiId m') then compareTimestamps t t' else Ok MessageNoAction
  | AliveMsg _ _ _, AliveMsg _ _ _ => Panic "nil pointer dereference"
  | DataMsg p, DataMsg p' => dataInvalidationPolicy dataBlockStorageSize p p'
  | StateInfoMsg s, StateInfoMsg s' =>
      if decide (si_PkiId s = si_PkiId s') then compareTimestamps (si_Timestamp s) (si_Timestamp s') else Ok MessageNoAction
  | PeerIdentityMsg i _ _, PeerIdentityMsg i' _ _ => Ok (if decide (i = i') then MessageInvalidated else MessageNoAction)
  | LeadershipMsg l, LeadershipMsg l' =>
      if decide (lm_PkiId l = lm_PkiId l') then compareTimestamps (lm_Timestamp l) (lm_Timestamp l') else Ok MessageNoAction
  | _, _ => Ok MessageNoAction
  end.

(** ** msgstore/msgs.go *)

Module MsgStore.

(** A message with its time of arrival. *)
Record msg := mkMsg { msg_data : SignedGossipMessage; msg_created : Z; msg_expired : bool }.

Record messageStore := mkMessageStore { messages : list msg; expiredCount : Z }.

Definition newMsgStore : messageStore := mkMessageStore [] 0.

Section MsgStore.
Context (pol : SignedGossipMessage -> SignedGossipMessage -> res InvalidationResult).

(** The loop of [Add]: the messages that stay, those that are invalidated, and
    whether the new one is not.  It ends at the first message that invalidates
    the new one, when others may have been removed. *)
Fixpoint add_loop (message : SignedGossipMessage) (l : list msg) : res (list msg * list SignedGossipMessage * bool) :=
  match l with
  | [] => Ok ([], [], true)
  | m :: l' =>
      r ← pol message (msg_data m);
      match r with
      | MessageInvalidated => Ok (l, [], false)
      | MessageInvalidates => '(kept, inv, ok) ← add_loop message l'; Ok (kept, msg_data m :: inv, ok)
      | MessageNoAction => '(kept, inv, ok) ← add_loop message l'; Ok (m :: kept, inv, ok)
      end
  end.

(** The messages on which the invalidation trigger is called, and whether the
    message is added, at the time [now]. *)
Definition Add (now : Z) (message : SignedGossipMessage) (s : messageStore) : res (messageStore * list SignedGossipMessage * bool) :=
  '(kept, inv, ok) ← add_loop message (messages s);
  Ok (mkMessageStore (if (ok : bool) then kept ++ [mkMsg message now false] else kept) (expiredCount s), inv, ok).

Fixpoint CheckValid_loop (message : SignedGossipMessage) (l : list msg) : res bool :=
  match l with
  | [] => Ok true
  | m :: l =>
      r ← pol message (msg_data m);
      match r with MessageInvalidated => Ok false | _ => CheckValid_loop message l end
  end.

Definition CheckValid (message : SignedGossipMessage) (s : messageStore) : res bool := CheckValid_loop message (messages s).

Definition Purge (shouldBePurged : SignedGossipMessage -> bool) (s : messageStore) : messageStore * list SignedGossipMessage :=
  (mkMessageStore (filter (fun m => shouldBePurged (msg_data m) = false) (messages s)) (expiredCount s),
   filter (fun m => shouldBePurged m = true) (msg_data <$> messages s)).

Definition Size (s : messageStore) : Z := Z.of_nat (length (messages s)) - expiredCount s.

Definition Get (s : messageStore) : list SignedGossipMessage := msg_data <$> filter (fun m => msg_expired m = false) (messages s).

(** Messages expire after [msgTTL], when the callback is called on them, and
    leave the store after twice that time. *)
Fixpoint expire_loop (msgTTL now : Z) (l : list msg) (count : Z) : list msg * list SignedGossipMessage * Z :=
  match l with
  | [] => ([], [], count)
  | m :: l =>
      if msg_expired m then
        if msgTTL * 2 <? now - msg_created m then expire_loop msgTTL now l (count - 1)
        else let '(kept, exp, c) := expire_loop msgTTL now l count in (m :: kept, exp, c)
      else if msgTTL <? now - msg_created m then
        let '(kept, exp, c) := expire_loop msgTTL now l (count + 1) in
        (mkMsg (msg_data m) (msg_created m) true :: kept, msg_data m :: exp, c)
      else let '(kept, exp, c) := expire_loop msgTTL now l count in (m :: kept, exp, c)
  end.

Definition expireMessages (msgTTL now : Z) (s : messageStore) : messageStore * list SignedGossipMessage :=
  let '(kept, exp, c) := expire_loop msgTTL now (messages s) (expiredCount s) in (mkMessageStore kept c, exp).

End MsgStore.
End MsgStore.

(** ** The messages by peer, gossip/util/msgs.go *)

Definition MembershipStore : Type := gmap bytes SignedGossipMessage.
