(* ===== verification/Mcs.v ===== *)
(** * The message crypto service of a peer

    peer/gossip/mcs.go: whether a block is one of its channel, and whether a
    message is that of a peer.  peer/gossip/sa.go: the organization of a
    peer. *)

From stdpp Require Import base gmap strings list.
From Stdlib Require Import Ascii ZArith Lia.
From S2P Require Import Prelude Proto BlockHash BlockMgr KVProvider Bccsp CAuthDSL Policies OrdererChain MsgValidation Membership.
Import CommonUtil BlockHash BlockMetadataUtils BccspMsp MspManager Policies.
Local Open Scope Z_scope.

(** ** Blocks as they are unmarshalled

    Each part may be missing. *)

Record RawBlock := mkRawBlock {
  rb_Header : option BlockHeader;
  rb_Data : option (list bytes);
  rb_Metadata : option (list bytes)
}.

(** The generated code. *)
Class BlockProto := {
  marshal_Block : RawBlock -> bytes;
  unmarshal_Block : bytes -> res RawBlock
}.

Definition raw_block (b : Block) : RawBlock := mkRawBlock (Some (blk_Header b)) (Some (blk_Data b)) (Some (blk_Metadata b)).

(** A block that has the parts; without metadata it has no entries. *)
Definition with_header (b : RawBlock) (h : BlockHeader) : Block :=
  mkBlock h (default [] (rb_Data b)) (default [] (rb_Metadata b)).

(** What the code relies on: a block comes out as it was marshalled. *)
Class BlockProtoSpec `{BlockProto} : Prop := {
  RawBlock_roundtrip b : unmarshal_Block (marshal_Block (raw_block b)) = Ok (raw_block b)
}.

(** policies.go *)
Definition BlockValidation : string := "/Channel/Orderer/BlockValidation".
Definition ChannelApplicationReaders : string := "/Channel/Application/Readers".

(** ** mcs.go *)

Module MCS.
Section MCS.
Context `{ProtoCodec} `{SignatureCodec} `{TxCodec} `{CryptoHash} `{OrdererCodec} `{BlockProto}.

(** [channelPolicyManagerGetter.Manager] *)
Context (Manager : string -> option ManagerImpl).

(** The data that a signature of a block covers. *)
Definition block_signature (md : Metadata) (h : BlockHeader) (s : MetadataSignature) : res SignedData :=
  shdr ← or_fail "Failed unmarshalling signature header for block" (TxUtils.GetSignatureHeader (ms_SignatureHeader s));
  hb ← header_Bytes h;
  Ok (mkSignedData (ConcatenateBytes [md_Value md; ms_SignatureHeader s; hb]) (sh_Creator shdr) (ms_Signature s)).

Definition VerifyBlock (chainID : string) (seqNum : Z) (signedBlock : bytes) : res unit :=
  raw ← or_fail "Failed unmarshalling block bytes on channel" (unmarshal_Block signedBlock);
  match rb_Header raw with
  | None => Err "Invalid Block on channel. Header must be different from nil."
  | Some header =>
      let block := with_header raw header in
      if negb (seqNum =? Number header) then Err "Claimed seqNum is not the actual seqNum inside block"
      else
        channelID ← or_fail "Failed getting channel id from block" (BlockUtils.GetChainIDFromBlock block);
        if negb (bool_decide (channelID = chainID)) then Err "Invalid block's channel id"
        else if decide (blk_Metadata block = []) then Err "Block does not have metadata. Block not valid."
        else
          metadata ← or_fail "Failed unmarshalling medatata for signatures" (GetMetadataFromBlock block SIGNATURES);
          hash ← data_Hash (blk_Data block);
          if negb (bool_decide (hash = DataHash header)) then Err "Header.DataHash is different from Hash(block.Data) for block"
          else
            match Manager channelID with
            | None => Err ("Could not acquire policy manager for channel " +:+ channelID)
            | Some cpm =>
                signatureSet ← mapM_res (block_signature metadata header) (md_Signatures metadata);
                Policies.Evaluate (GetPolicy None cpm BlockValidation).1 signatureSet
            end
  end.

(** Against the readers of the channel. *)
Definition VerifyByChannel (chainID : string) (peerIdentity signature message : bytes) : res unit :=
  if is_nil peerIdentity then Err "Invalid Peer Identity. It must be different from nil."
  else
    match Manager chainID with
    | None => Err ("Could not acquire policy manager for channel " +:+ chainID)
    | Some cpm => Policies.Evaluate (GetPolicy None cpm ChannelApplicationReaders).1 [mkSignedData message peerIdentity signature]
    end.

(** *** Identities of peers *)

Context `{Primitives} `{X509} `{MSPCodec}.
Context (csp : SW.config).

(** The local provider, and the managers of the channels in the order in which
    the map of them is visited. *)
Context (localMSP : bccspmsp) (channels : list (string * mspManagerImpl)).

(** The first channel that accepts the identity. *)
Fixpoint validated_on (channels : list (string * mspManagerImpl)) (peerIdentity : bytes) : res (bccspmsp * identity * string) :=
  match channels with
  | [] => Err "Peer Identity cannot be validated. No MSP found able to do that."
  | (chainID, mspManager) :: channels =>
      match MspManager.DeserializeIdentity csp mspManager peerIdentity with
      | Err _ => validated_on channels peerIdentity
      | Panic m => Panic m
      | OutOfFuel => OutOfFuel
      | Ok (msp, id) =>
          match BccspMsp.Validate csp msp id with
          | Ok _ => Ok (msp, id, chainID)
          | Err _ => validated_on channels peerIdentity
          | Panic m => Panic m
          | OutOfFuel => OutOfFuel
          end
      end
  end.

(** The identity with its provider and its channel, empty for the local
    provider. *)
Definition getValidatedIdentity (peerIdentity : bytes) : res (bccspmsp * identity * string) :=
  if is_nil peerIdentity then Err "Invalid Peer Identity. It must be different from nil."
  else
    match BccspMsp.DeserializeIdentity csp localMSP peerIdentity with
    | Ok id =>
        if bool_decide (id_Mspid id = name localMSP) then BccspMsp.Validate csp localMSP id;; Ok (localMSP, id, "")
        else validated_on channels peerIdentity
    | Err _ => validated_on channels peerIdentity
    | Panic m => Panic m
    | OutOfFuel => OutOfFuel
    end.

Definition ValidateIdentity (peerIdentity : bytes) : res unit := _ ← getValidatedIdentity peerIdentity; Ok tt.

(** [None]: nil *)
Definition GetPKIidOfCert (peerIdentity : bytes) : option bytes :=
  if is_nil peerIdentity then None
  else
    match unmarshal_SerializedIdentity peerIdentity with
    | Ok sid =>
        match SW.Hash csp (to_bytes (si_Mspid sid) ++ si_IdBytes sid) (Some SHA256Opts) with Ok digest => Some digest | _ => None end
    | _ => None
    end.

Definition Verify (peerIdentity signature message : bytes) : res unit :=
  '(msp, id, chainID) ← getValidatedIdentity peerIdentity;
  if decide (chainID = "") then BccspMsp.Verify csp msp id message signature
  else VerifyByChannel chainID peerIdentity signature message.

(** *** sa.go *)

Fixpoint org_on (channels : list (string * mspManagerImpl)) (peerIdentity : bytes) : res (option string) :=
  match channels with
  | [] => Ok None
  | (_, mspManager) :: channels =>
      match MspManager.DeserializeIdentity csp mspManager peerIdentity with
      | Ok (_, id) => Ok (Some (id_Mspid id))
      | Err _ => org_on channels peerIdentity
      | Panic m => Panic m
      | OutOfFuel => OutOfFuel
      end
  end.

Definition OrgByPeerIdentity (peerIdentity : bytes) : res (option string) :=
  if is_nil peerIdentity then Ok None
  else
    match BccspMsp.DeserializeIdentity csp localMSP peerIdentity with
    | Ok id => Ok (Some (id_Mspid id))
    | Err _ => org_on channels peerIdentity
    | Panic m => Panic m
    | OutOfFuel => OutOfFuel
    end.

End MCS.
End MCS.
