(* ===== verification/GossipState.v ===== *)
(** * The state transfer of a channel at a peer

    gossip/state: the buffer that puts blocks in the order of their numbers
    (payloads_buffer.go), the height that a peer publishes (metastate.go), and
    the state provider (state.go), whose goroutines receive blocks, commit them
    in order, and exchange missing blocks with other peers. *)

From stdpp Require Import base gmap strings list.
From Stdlib Require Import Ascii ZArith Lia.
From S2P Require Import Prelude Version Proto Mcs GossipMsgs.
Local Open Scope Z_scope.

(** ** payloads_buffer.go *)

Module PayloadsBuffer.

(** [signals] is the number of goroutines that wait to send on [readyChan]. *)
Record PayloadsBufferImpl := mkBuffer { next : Z; buf : gmap Z BlockPayload; signals : nat }.

Definition NewPayloadsBuffer (next : Z) : PayloadsBufferImpl := mkBuffer next ∅ 0.

Definition Push (payload : BlockPayload) (b : PayloadsBufferImpl) : PayloadsBufferImpl * res unit :=
  let seqNum := SeqNum payload in
  if (seqNum <? next b) || bool_decide (is_Some (buf b !! seqNum))
  then (b, Err "Payload with this sequence number has been already processed")
  else (mkBuffer (next b) (<[seqNum := payload]> (buf b)) (if seqNum =? next b then S (signals b) else signals b), Ok tt).

Definition Pop (b : PayloadsBufferImpl) : PayloadsBufferImpl * option BlockPayload :=
  match buf b !! next b with
  | None => (b, None)
  | Some result => (mkBuffer (wrap64 (next b + 1)) (delete (next b) (buf b)) (signals b), Some result)
  end.

Definition Size (b : PayloadsBufferImpl) : Z := Z.of_nat (size (buf b)).

(** A receive on [Ready]; [None] while there is no sender. *)
Definition receive_ready (b : PayloadsBufferImpl) : option PayloadsBufferImpl :=
  match signals b with O => None | S n => Some (mkBuffer (next b) (buf b) n) end.

End PayloadsBuffer.

(** ** metastate.go *)

Module Metastate.

Definition Bytes (LedgerHeight : Z) : bytes := OrderPreserving.PutUint64 LedgerHeight.

(** The first eight bytes. *)
Definition FromBytes (b : bytes) : res Z :=
  if (length b <? 8)%nat then Err "unexpected EOF" else Ok (OrderPreserving.Uint64 (take 8 b)).

End Metastate.

(** ** state.go *)

Record NetworkMember := mkNetworkMember {
  nm_Endpoint : string;
  nm_Metadata : bytes;
  nm_PKIid : bytes;
  nm_InternalEndpoint : string
}.

Definition PreferredEndpoint (n : NetworkMember) : string :=
  if decide (nm_InternalEndpoint n = "") then nm_Endpoint n else nm_InternalEndpoint n.

Record RemotePeer := mkRemotePeer { rp_Endpoint : string; rp_PKIID : bytes }.

(** [committer.Committer] *)
Class Committer (L : Type) := {
  LedgerHeight : L -> res Z;
  GetBlocks : L -> list Z -> res (list Block);
  Commit : Block -> ST L unit
}.

Module GossipState.
Import PayloadsBuffer.

Definition defAntiEntropyBatchSize : Z := 10.
Definition defChannelBufferSize : Z := 100.
Definition defAntiEntropyMaxRetries : Z := 3.
Definition defMaxBlockDistance : Z := 100.

(** Without a branch: the bit 63 of the difference selects. *)
Definition min (a b : Z) : Z :=
  Z.lxor b (Z.land (Z.lxor a b) (wrap64 (- Z.shiftr (wrap64 (a - b)) 63))).

(** Which messages of other peers are for the state transfer: without
    authentication all of them, with it those of readers of the channel. *)
Definition remoteStateMsgFilter (VerifyByChannel : string -> bytes -> bytes -> bytes -> res unit) (message : ReceivedMessage) : res bool :=
  if negb (IsRemoteStateMessage (rm_Content message)) then Ok false
  else
    match ci_Auth (rm_ConnectionInfo message) with
    | None => Ok true
    | Some (signedData, signature) =>
        match VerifyByChannel (to_string (gm_Channel (sgm_Message (rm_Message message)))) (ci_Identity (rm_ConnectionInfo message)) signature signedData with
        | Ok _ => Ok true
        | Err _ => Ok false
        | Panic m => Panic m
        | OutOfFuel => OutOfFuel
        end
    end.

(** A goroutine in [addPayload], behind the check of the distance: waiting for
    room in the buffer, or about to push. *)
Inductive adder := AwaitRoom (payload : BlockPayload) | ToPush (payload : BlockPayload).

(** The goroutine of [deliverPayloads]: in the select, in the loop over the
    payloads, or with a payload of that loop. *)
Inductive deliverer := Selecting | Popping | Delivering (payload : BlockPayload).

(** A round of [requestBlocksInRange]: the interval that is left, the end of the
    batch that is asked for, the nonce of the request, and the number of
    tries. *)
Record round := mkRound { rd_prev : Z; rd_end : Z; rd_next : Z; rd_nonce : Z; rd_tryCounts : Z }.

(** The goroutine of [antiEntropy]: waiting for the timer; about to ask; in the
    select; or in [handleStateResponse] with the payloads that are left, the
    greatest number so far, and a payload that is being added. *)
Inductive requester :=
| NoTransfer
| ToAsk (r : round)
| AwaitResponse (r : round)
| Handling (r : round) (payloads : list BlockPayload) (max : Z) (adding : option adder).

Section GossipState.
Context {L : Type} `{Committer L} `{BlockProto}.

(** [mcs.VerifyBlock], which depends on the configuration that is committed. *)
Context (VerifyBlock : L -> string -> Z -> bytes -> res unit).

(** [serving] is false when the goroutine of [processStateRequests] does not come
    back from a request. *)
Record provider := mkProvider {
  chainID : string;
  payloads : PayloadsBufferImpl;
  committer : L;
  adding : list adder;
  delivery : deliverer;
  transfer : requester;
  stateRequestCh : list ReceivedMessage;
  stateResponseCh : list ReceivedMessage;
  serving : bool;
  metadata : bytes;
  peers : list NetworkMember;
  sent : list (RemotePeer * GossipMessage);
  responses : list (ReceivedMessage * GossipMessage)
}.

Definition with_payloads (b : PayloadsBufferImpl) (s : provider) : provider :=
  mkProvider (chainID s) b (committer s) (adding s) (delivery s) (transfer s) (stateRequestCh s) (stateResponseCh s)
    (serving s) (metadata s) (peers s) (sent s) (responses s).

Definition with_adding (a : list adder) (s : provider) : provider :=
  mkProvider (chainID s) (payloads s) (committer s) a (delivery s) (transfer s) (stateRequestCh s) (stateResponseCh s)
    (serving s) (metadata s) (peers s) (sent s) (responses s).

Definition with_delivery (d : deliverer) (s : provider) : provider :=
  mkProvider (chainID s) (payloads s) (committer s) (adding s) d (transfer s) (stateRequestCh s) (stateResponseCh s)
    (serving s) (metadata s) (peers s) (sent s) (responses s).

Definition with_transfer (t : requester) (s : provider) : provider :=
  mkProvider (chainID s) (payloads s) (committer s) (adding s) (delivery s) t (stateRequestCh s) (stateResponseCh s)
    (serving s) (metadata s) (peers s) (sent s) (responses s).

Definition with_channels (requests answers : list ReceivedMessage) (s : provider) : provider :=
  mkProvider (chainID s) (payloads s) (committer s) (adding s) (delivery s) (transfer s) requests answers
    (serving s) (metadata s) (peers s) (sent s) (responses s).

Definition with_committed (l : L) (m : bytes) (s : provider) : provider :=
  mkProvider (chainID s) (payloads s) l (adding s) (delivery s) (transfer s) (stateRequestCh s) (stateResponseCh s)
    (serving s) m (peers s) (sent s) (responses s).

Definition with_peers (p : list NetworkMember) (s : provider) : provider :=
  mkProvider (chainID s) (payloads s) (committer s) (adding s) (delivery s) (transfer s) (stateRequestCh s) (stateResponseCh s)
    (serving s) (metadata s) p (sent s) (responses s).

Definition send (p : RemotePeer) (m : GossipMessage) (s : provider) : provider :=
  mkProvider (chainID s) (payloads s) (committer s) (adding s) (delivery s) (transfer s) (stateRequestCh s) (stateResponseCh s)
    (serving s) (metadata s) (peers s) ((p, m) :: sent s) (responses s).

Definition respond (serving : bool) (r : option (ReceivedMessage * GossipMessage)) (s : provider) : provider :=
  mkProvider (chainID s) (payloads s) (committer s) (adding s) (delivery s) (transfer s) (stateRequestCh s) (stateResponseCh s)
    serving (metadata s) (peers s) (sent s) (option_list r ++ responses s).

Definition NewGossipStateProvider (chainID : string) (committer : L) : res provider :=
  match LedgerHeight committer with
  | Ok height =>
      if height =? 0 then Panic "Committer height cannot be zero, ledger should include at least one block (genesis)."
      else Ok (mkProvider chainID (NewPayloadsBuffer height) committer [] Selecting NoTransfer [] [] true
                 (Metastate.Bytes (wrap64 (height - 1))) [] [] [])
  | Err e => Panic "Committer height cannot be zero, ledger should include at least one block (genesis)."
  | Panic m => Panic m
  | OutOfFuel => OutOfFuel
  end.

(** *** Adding blocks *)

(** [addPayload] up to the wait for room: a goroutine, unless the payload is
    refused. *)
Definition addPayload (payload : option BlockPayload) (blockingMode : bool) (s : provider) : res adder :=
  match payload with
  | None => Err "Given payload is nil"
  | Some payload =>
      height ← or_fail "Failed obtaining ledger height" (LedgerHeight (committer s));
      if negb blockingMode && (defMaxBlockDistance <=? wrap64 (SeqNum payload - height))
      then Err "cannot enqueue block, which is too far from the ledger height"
      else Ok (if blockingMode then AwaitRoom payload else ToPush payload)
  end.

(** The goroutine goes on; it ends with the push. *)
Definition adder_step (a : adder) (b : PayloadsBufferImpl) : PayloadsBufferImpl * option adder :=
  match a with
  | AwaitRoom payload => (b, Some (if defMaxBlockDistance * 2 <? Size b then a else ToPush payload))
  | ToPush payload => ((Push payload b).1, None)
  end.

(** A goroutine of its own for the payload, if it is not refused. *)
Definition start_adding (payload : option BlockPayload) (blockingMode : bool) (s : provider) : res provider :=
  match addPayload payload blockingMode s with
  | Ok a => Ok (with_adding (a :: adding s) s)
  | Err _ => Ok s
  | Panic m => Panic m
  | OutOfFuel => OutOfFuel
  end.

Definition queueNewMessage (msg : GossipMessage) (s : provider) : res provider :=
  if negb (bool_decide (gm_Channel msg = to_bytes (chainID s))) then Ok s
  else match gm_Content msg with DataMsg payload => start_adding payload false s | _ => Ok s end.

(** [nonBlocking]: [peer.gossip.nonBlockingCommitMode] *)
Definition AddPayload (nonBlocking : bool) (payload : option BlockPayload) (s : provider) : res provider :=
  start_adding payload (negb nonBlocking) s.

Definition run_adder (i : nat) (s : provider) : provider :=
  match adding s !! i with
  | None => s
  | Some a =>
      let '(b, a') := adder_step a (payloads s) in
      with_adding (match a' with Some a' => <[i := a']> (adding s) | None => delete i (adding s) end) (with_payloads b s)
  end.

(** *** Committing blocks *)

Definition commitBlock (block : Block) (s : provider) : res provider :=
  match Commit block (committer s) with
  | (l, Ok _) => Ok (with_committed l (Metastate.Bytes (Number (blk_Header block))) s)
  | (_, Err e) => Err e
  | (_, Panic m) => Panic m
  | (_, OutOfFuel) => OutOfFuel
  end.

(** A payload of the loop: a block that cannot be read is dropped. *)
Definition deliver_payload (payload : BlockPayload) (s : provider) : res provider :=
  match unmarshal_Block (bp_Data payload) with
  | Ok rawBlock =>
      match rb_Data rawBlock, rb_Header rawBlock with
      | Some _, Some header => or_panic (commitBlock (with_header rawBlock header) s)
      | _, _ => Ok s
      end
  | Err _ => Ok s
  | Panic m => Panic m
  | OutOfFuel => OutOfFuel
  end.

Definition deliverPayloads (s : provider) : res provider :=
  match delivery s with
  | Selecting => Ok match receive_ready (payloads s) with Some b => with_delivery Popping (with_payloads b s) | None => s end
  | Popping =>
      let '(b, payload) := Pop (payloads s) in
      Ok (with_delivery (match payload with Some p => Delivering p | None => Selecting end) (with_payloads b s))
  | Delivering payload => s ← deliver_payload payload s; Ok (with_delivery Popping s)
  end.

(** *** Answering other peers *)

Definition directMessage (msg : ReceivedMessage) (s : provider) : provider :=
  if negb (bool_decide (gm_Channel (sgm_Message (rm_Message msg)) = to_bytes (chainID s))) then s
  else
    match rm_Content msg with
    | StateRequest _ _ =>
        if Z.of_nat (length (stateRequestCh s)) <? defChannelBufferSize
        then with_channels (stateRequestCh s ++ [msg]) (stateResponseCh s) s else s
    | StateResponse _ =>
        match transfer s with
        | NoTransfer => s
        | _ => with_channels (stateRequestCh s) (stateResponseCh s ++ [msg]) s
        end
    | _ => s
    end.

(** The blocks from [seqNum] to [endSeqNum]; those that are not there are left
    out. *)
Fixpoint read_blocks (fuel : nat) (l : L) (seqNum endSeqNum : Z) : res (list BlockPayload) :=
  match fuel with
  | O => OutOfFuel
  | S fuel =>
      if seqNum <=? endSeqNum then
        blocks ← GetBlocks l [seqNum];
        rest ← read_blocks fuel l (wrap64 (seqNum + 1)) endSeqNum;
        Ok match blocks with b :: _ => mkBlockPayload seqNum (marshal_Block (raw_block b)) :: rest | [] => rest end
      else Ok []
  end.

Definition handleStateRequest (fuel : nat) (msg : ReceivedMessage) (s : provider) : res (option GossipMessage) :=
  match rm_Content msg with
  | StateRequest startSeqNum endSeqNum =>
      let batchSize := wrap64 (endSeqNum - startSeqNum) in
      if defAntiEntropyBatchSize <? batchSize then Ok None
      else if endSeqNum <? startSeqNum then Ok None
      else
        match LedgerHeight (committer s) with
        | Ok currentHeight =>
            found ← read_blocks fuel (committer s) startSeqNum (min currentHeight endSeqNum);
            Ok (Some (mkGossipMessage (gm_Nonce (sgm_Message (rm_Message msg))) (to_bytes (chainID s)) CHAN_OR_ORG (StateResponse found)))
        | Err _ => Ok None
        | Panic m => Panic m
        | OutOfFuel => OutOfFuel
        end
  | _ => Panic "nil pointer dereference"
  end.

(** The loop over a batch has at most eleven rounds, or does not end. *)
Definition processStateRequests (s : provider) : res provider :=
  match serving s, stateRequestCh s with
  | true, msg :: requests =>
      let s := with_channels requests (stateResponseCh s) s in
      match handleStateRequest 12 msg s with
      | Ok answer => Ok (respond true ((fun m => (msg, m)) <$> answer) s)
      | OutOfFuel => Ok (respond false None s)
      | Err e => Err e
      | Panic m => Panic m
      end
  | _, _ => Ok s
  end.

(** *** Asking for missing blocks *)

Fixpoint maxAvailableLedgerHeight (members : list NetworkMember) (max : Z) : Z :=
  match members with
  | [] => max
  | p :: members =>
      maxAvailableLedgerHeight members
        match Metastate.FromBytes (nm_Metadata p) with Ok h => if max <? h then h else max | _ => max end
  end.

Definition hasRequiredHeight (height : Z) (peer : NetworkMember) : bool :=
  match Metastate.FromBytes (nm_Metadata peer) with Ok h => height <=? h | _ => false end.

Definition filterPeers (predicate : NetworkMember -> bool) (s : provider) : list RemotePeer :=
  (fun m => mkRemotePeer (PreferredEndpoint m) (nm_PKIid m)) <$> filter (fun m => predicate m = true) (peers s).

(** [choice] is the random number. *)
Definition selectPeerToRequestFrom (choice : nat) (height : Z) (s : provider) : option RemotePeer :=
  let candidates := filterPeers (hasRequiredHeight height) s in
  candidates !! (choice mod length candidates)%nat.

Definition stateRequestMessage (nonce beginSeq endSeq : Z) (s : provider) : GossipMessage :=
  mkGossipMessage nonce (to_bytes (chainID s)) CHAN_OR_ORG (StateRequest beginSeq endSeq).

(** The head of the outer loop of [requestBlocksInRange], with a new nonce. *)
Definition next_batch (nonce prev end_ : Z) : requester :=
  if prev <=? end_
  then ToAsk (mkRound prev end_ (min end_ (wrap64 (prev + defAntiEntropyBatchSize))) nonce 0)
  else NoTransfer.

(** The timer of [antiEntropy]. *)
Definition antiEntropy (nonce : Z) (s : provider) : res provider :=
  match transfer s, LedgerHeight (committer s) with
  | NoTransfer, Ok current =>
      if current =? 0 then Ok s
      else
        let max := maxAvailableLedgerHeight (peers s) 0 in
        if max <=? wrap64 (current - 1) then Ok s else Ok (with_transfer (next_batch nonce current max) s)
  | NoTransfer, Panic m => Panic m
  | NoTransfer, OutOfFuel => OutOfFuel
  | _, _ => Ok s
  end.

(** The inner loop of [requestBlocksInRange] up to the select. *)
Definition ask (choice : nat) (r : round) (s : provider) : provider :=
  if defAntiEntropyMaxRetries <? rd_tryCounts r then with_transfer NoTransfer s
  else
    match selectPeerToRequestFrom choice (rd_next r) s with
    | None => with_transfer NoTransfer s
    | Some peer =>
        with_transfer (AwaitResponse (mkRound (rd_prev r) (rd_end r) (rd_next r) (rd_nonce r) (rd_tryCounts r + 1)))
          (send peer (stateRequestMessage (rd_nonce r) (rd_prev r) (rd_next r) s) s)
    end.

(** The select takes a response, if there is one. *)
Definition take_response (r : round) (s : provider) : provider :=
  match stateResponseCh s with
  | [] => s
  | msg :: answers =>
      let s := with_channels (stateRequestCh s) answers s in
      if negb (gm_Nonce (sgm_Message (rm_Message msg)) =? rd_nonce r) then with_transfer (ToAsk r) s
      else
        match rm_Content msg with
        | StateResponse ((_ :: _) as found) => with_transfer (Handling r found 0 None) s
        | _ => with_transfer (ToAsk r) s
        end
  end.

(** [handleStateResponse] goes on; at its end the next batch is asked for, with
    [nonce]. *)
Definition handle_response (nonce : Z) (r : round) (found : list BlockPayload) (max : Z) (a : option adder) (s : provider) : res provider :=
  match a, found with
  | Some a, _ =>
      let '(b, a') := adder_step a (payloads s) in Ok (with_transfer (Handling r found max a') (with_payloads b s))
  | None, [] => Ok (with_transfer (next_batch nonce (wrap64 (max + 1)) (rd_end r)) s)
  | None, payload :: found =>
      match VerifyBlock (committer s) (chainID s) (SeqNum payload) (bp_Data payload) with
      | Ok _ =>
          let max := if max <? SeqNum payload then SeqNum payload else max in
          match addPayload (Some payload) true s with
          | Ok a => Ok (with_transfer (Handling r found max (Some a)) s)
          | Err _ => Ok (with_transfer (Handling r found max None) s)
          | Panic m => Panic m
          | OutOfFuel => OutOfFuel
          end
      | Err _ => Ok (with_transfer (ToAsk r) s)
      | Panic m => Panic m
      | OutOfFuel => OutOfFuel
      end
  end.

(** [choice] and [nonce] are random; [timeout] chooses the timer in the
    select. *)
Definition requestBlocksInRange (choice : nat) (nonce : Z) (timeout : bool) (s : provider) : res provider :=
  match transfer s with
  | NoTransfer => Ok s
  | ToAsk r => Ok (ask choice r s)
  | AwaitResponse r => Ok (if timeout then with_transfer (ToAsk r) s else take_response r s)
  | Handling r found max a => handle_response nonce r found max a s
  end.

(** [GetBlock]: nil if it is not there *)
Definition GetBlock (index : Z) (s : provider) : res (option Block) := blocks ← GetBlocks (committer s) [index]; Ok (head blocks).

(** ** The provider as a machine

    What happens next: a block by gossip or from the orderer, a message of
    another peer, a change of the membership, or one of the goroutines going
    on. *)
Inductive event :=
| Gossiped (msg : GossipMessage)
| Received (msg : ReceivedMessage)
| Ordered (nonBlocking : bool) (payload : option BlockPayload)
| Members (members : list NetworkMember)
| RunAdder (i : nat)
| RunDelivery
| RunRequests
| Timer (nonce : Z)
| RunTransfer (choice : nat) (nonce : Z) (timeout : bool).

Definition step (s : provider) (e : event) : res provider :=
  match e with
  | Gossiped msg => queueNewMessage msg s
  | Received msg => Ok (directMessage msg s)
  | Ordered nonBlocking payload => AddPayload nonBlocking payload s
  | Members members => Ok (with_peers members s)
  | RunAdder i => Ok (run_adder i s)
  | RunDelivery => deliverPayloads s
  | RunRequests => processStateRequests s
  | Timer nonce => antiEntropy nonce s
  | RunTransfer choice nonce timeout => requestBlocksInRange choice nonce timeout s
  end.

Fixpoint run (es : list event) (s : provider) : res provider :=
  match es with [] => Ok s | e :: es => s ← step s e; run es s end.

End GossipState.
Arguments provider : clear implicits.
End GossipState.
