(* ===== verification/GossipPull.v ===== *)
(** * Pulling blocks from other peers

    gossip/gossip/algo/pull.go: the engine of the pull protocol, in which an
    initiator says hello, gets digests of what others have, asks for the items
    that it does not have and gets them.  gossip/gossip/pull/pullstore.go: the
    mediator, which keeps the messages and translates between the engine and
    the messages of the network.

    What the code does to the outside is a list of actions.  What happens after
    a time (the digests are processed, the round ends, a nonce expires) is an
    operation of its own. *)

From stdpp Require Import base gmap strings list.
From Stdlib Require Import Ascii ZArith Lia.
From S2P Require Import Prelude Proto GossipMsgs GossipState.
Local Open Scope Z_scope.

(** To the sender of a message, to other peers, to the peers of the channel, and
    to the subscribers in the process. *)
Inductive action :=
| Respond (m : GossipMessage)
| SendTo (peers : list RemotePeer) (m : SignedGossipMessage)
| Forward (m : SignedGossipMessage)
| DeMultiplex (m : SignedGossipMessage).

(** ** algo/pull.go *)

Module PullEngine.

Record PullEngine := mkEngine {
  state : gset string;
  item2owners : gmap string (list string);
  peers2nonces : gmap string Z;
  nonces2peers : gmap Z string;
  acceptingDigests : bool;
  acceptingResponses : bool;
  outgoingNONCES : gset Z;
  incomingNONCES : gset Z
}.

Definition NewPullEngine : PullEngine := mkEngine ∅ ∅ ∅ ∅ false false ∅ ∅.

(** One peer of [initiatePull], with its nonce. *)
Definition greet (e : PullEngine) (p : string * Z) : PullEngine :=
  let '(peer, nonce) := p in
  mkEngine (state e) (item2owners e) (<[peer := nonce]> (peers2nonces e)) (<[nonce := peer]> (nonces2peers e))
    (acceptingDigests e) (acceptingResponses e) ({[nonce]} ∪ outgoingNONCES e) (incomingNONCES e).

Definition acceptDigests (b : bool) (e : PullEngine) : PullEngine :=
  mkEngine (state e) (item2owners e) (peers2nonces e) (nonces2peers e) b (acceptingResponses e) (outgoingNONCES e) (incomingNONCES e).

(** The peers that are selected with nonces that are not in use: those to say
    hello to. *)
Definition initiatePull (selected : list (string * Z)) (e : PullEngine) : PullEngine * list (string * Z) :=
  (foldl greet (acceptDigests true e) selected, selected).

(** What to ask of whom: a source for each item that others have.  [source] is
    the random choice; the items are in the order in which the map is visited. *)
Definition requestMapping (source : string -> nat) (e : PullEngine) : gmap string (list string) :=
  map_fold (fun n sources mapping =>
              match sources !! (source n mod length sources)%nat with
              | Some s => <[s := n :: default [] (mapping !! s)]> mapping
              | None => mapping
              end) ∅ (item2owners e).

(** The requests with their nonces; a peer that is not known has the nonce 0. *)
Definition processIncomingDigests (source : string -> nat) (e : PullEngine) : PullEngine * list (string * list string * Z) :=
  (mkEngine (state e) (item2owners e) (peers2nonces e) (nonces2peers e) false true (outgoingNONCES e) (incomingNONCES e),
   (fun '(dest, seqs) => (dest, seqs, default 0 (peers2nonces e !! dest))) <$> map_to_list (requestMapping source e)).

Definition endPull (e : PullEngine) : PullEngine :=
  mkEngine (state e) ∅ ∅ ∅ (acceptingDigests e) false ∅ (incomingNONCES e).

(** One item of a digest from the peer. *)
Definition add_owner (peer : string) (e : PullEngine) (n : string) : PullEngine :=
  if decide (n ∈ state e) then e
  else mkEngine (state e) (<[n := default [] (item2owners e !! n) ++ [peer]]> (item2owners e)) (peers2nonces e) (nonces2peers e)
         (acceptingDigests e) (acceptingResponses e) (outgoingNONCES e) (incomingNONCES e).

(** A nonce that is out of use has the empty peer. *)
Definition OnDigest (digest : list string) (nonce : Z) (e : PullEngine) : PullEngine :=
  if negb (acceptingDigests e) || negb (bool_decide (nonce ∈ outgoingNONCES e)) then e
  else foldl (add_owner (default "" (nonces2peers e !! nonce))) e digest.

Definition with_state (s : gset string) (e : PullEngine) : PullEngine :=
  mkEngine s (item2owners e) (peers2nonces e) (nonces2peers e) (acceptingDigests e) (acceptingResponses e)
    (outgoingNONCES e) (incomingNONCES e).

Definition with_incoming (s : gset Z) (e : PullEngine) : PullEngine :=
  mkEngine (state e) (item2owners e) (peers2nonces e) (nonces2peers e) (acceptingDigests e) (acceptingResponses e)
    (outgoingNONCES e) s.

Definition Add (seqs : list string) (e : PullEngine) : PullEngine := with_state (list_to_set seqs ∪ state e) e.
Definition Remove (seq : string) (e : PullEngine) : PullEngine := with_state (state e ∖ {[seq]}) e.

(** The digest to answer with, if there is one; every item passes the filter. *)
Definition OnHello (nonce : Z) (e : PullEngine) : PullEngine * option (list string) :=
  (with_incoming ({[nonce]} ∪ incomingNONCES e) e,
   match elements (state e) with [] => None | digest => Some digest end).

(** After a time. *)
Definition expire_nonce (nonce : Z) (e : PullEngine) : PullEngine := with_incoming (incomingNONCES e ∖ {[nonce]}) e.

(** The items to send. *)
Definition OnReq (items : list string) (nonce : Z) (e : PullEngine) : option (list string) :=
  if bool_decide (nonce ∈ incomingNONCES e)
  then match filter (fun item => item ∈ state e) items with [] => None | items2Send => Some items2Send end
  else None.

Definition OnRes (items : list string) (nonce : Z) (e : PullEngine) : PullEngine :=
  if negb (bool_decide (nonce ∈ outgoingNONCES e)) || negb (acceptingResponses e) then e else Add items e.

End PullEngine.

(** ** pull/pullstore.go *)

Module PullMediator.
Import PullEngine.

(** [waiting] are the answers that goroutines are about to send, with the message
    that is answered. *)
Record mediator := mkMediator {
  engine : PullEngine;
  itemID2Msg : gmap string SignedGossipMessage;
  waiting : list (list string * ReceivedMessage * Z)
}.

Definition NewPullMediator : mediator := mkMediator NewPullEngine ∅ [].

Section PullMediator.
Context `{GossipCodec}.

(** The channel, tag and type of the configuration, and [IdExtractor]. *)
Context (channel : bytes) (tag : Tag) (msgType : PullMsgType) (IdExtractor : SignedGossipMessage -> string).

Definition on_engine (f : PullEngine -> PullEngine) (p : mediator) : mediator :=
  mkMediator (f (engine p)) (itemID2Msg p) (waiting p).

Definition Add (msg : SignedGossipMessage) (p : mediator) : mediator :=
  let itemID := IdExtractor msg in
  mkMediator (PullEngine.Add [itemID] (engine p)) (<[itemID := msg]> (itemID2Msg p)) (waiting p).

Definition Remove (digest : string) (p : mediator) : mediator :=
  mkMediator (PullEngine.Remove digest (engine p)) (delete digest (itemID2Msg p)) (waiting p).

(** The items of an update: the messages for the subscribers, the ids, and
    whether all of them could be read. *)
Fixpoint take_items (data : list GossipEnvelope) (msgs : gmap string SignedGossipMessage) :
    gmap string SignedGossipMessage * list action * list string * bool :=
  match data with
  | [] => (msgs, [], [], true)
  | pulledMsg :: data =>
      match ToGossipMessage pulledMsg with
      | Ok msg =>
          let '(msgs, acts, ids, ok) := take_items data (<[IdExtractor msg := msg]> msgs) in
          (msgs, DeMultiplex msg :: acts, IdExtractor msg :: ids, ok)
      | _ => (msgs, [], [], false)
      end
  end.

Definition pull_message (content : Content) : GossipMessage := mkGossipMessage 0 channel tag content.

(** No hooks are registered for blocks. *)
Definition HandleMessage (m : ReceivedMessage) (p : mediator) : mediator * list action :=
  let content := rm_Content m in
  if negb (IsPullMsg content) || negb (bool_decide (GetPullMsgType content = msgType)) then (p, [])
  else
    match content with
    | Hello nonce _ _ =>
        let '(e, digest) := OnHello nonce (engine p) in
        (mkMediator e (itemID2Msg p) (waiting p),
         match digest with Some d => [Respond (pull_message (DataDig nonce d msgType))] | None => [] end)
    | DataDig nonce digests _ => (on_engine (OnDigest digests nonce) p, [])
    | DataReq nonce digests _ =>
        match OnReq digests nonce (engine p) with
        | Some items => (mkMediator (engine p) (itemID2Msg p) (waiting p ++ [(items, m, nonce)]), [])
        | None => (p, [])
        end
    | DataUpdate nonce data _ =>
        let '(msgs, acts, ids, ok) := take_items data (itemID2Msg p) in
        (mkMediator (if ok then OnRes ids nonce (engine p) else engine p) msgs (waiting p), acts)
    | _ => (p, [])
    end.

(** The envelopes of the items that are still there. *)
Definition SendRes (items : list string) (nonce : Z) (p : mediator) : GossipMessage :=
  pull_message (DataUpdate nonce (omap (fun item => m ← itemID2Msg p !! item; sgm_Envelope m) items) msgType).

(** A goroutine of [OnReq] goes on. *)
Definition run_response (i : nat) (p : mediator) : mediator * option (ReceivedMessage * GossipMessage) :=
  match waiting p !! i with
  | Some (items, m, nonce) =>
      (mkMediator (engine p) (itemID2Msg p) (delete i (waiting p)), Some (m, SendRes items nonce p))
  | None => (p, None)
  end.

(** *** Starting a round *)

Definition peersWithEndpoints (members : list NetworkMember) (endpoint : string) : list RemotePeer :=
  (fun m => mkRemotePeer (PreferredEndpoint m) (nm_PKIid m)) <$> filter (fun m => PreferredEndpoint m = endpoint) members.

Definition send_hello (members : list NetworkMember) (p : string * Z) : action :=
  SendTo (peersWithEndpoints members p.1) (NoopSign (pull_message (Hello p.2 [] msgType))).

(** [SelectPeers]: the endpoints of the members at random indices. *)
Definition select_endpoints (members : list NetworkMember) (indices : list nat) : list string :=
  omap (fun i => PreferredEndpoint <$> members !! i) indices.

Definition start_round (members : list NetworkMember) (indices : list nat) (nonces : list Z) (p : mediator) : mediator * list action :=
  let '(e, greeted) := initiatePull (zip (select_endpoints members indices) nonces) (engine p) in
  (mkMediator e (itemID2Msg p) (waiting p), send_hello members <$> greeted).

Definition send_req (members : list NetworkMember) (r : string * list string * Z) : action :=
  let '(dest, items, nonce) := r in
  SendTo (peersWithEndpoints members dest) (NoopSign (pull_message (DataReq nonce items msgType))).

Definition send_requests (members : list NetworkMember) (source : string -> nat) (p : mediator) : mediator * list action :=
  let '(e, reqs) := processIncomingDigests source (engine p) in
  (mkMediator e (itemID2Msg p) (waiting p), send_req members <$> reqs).

End PullMediator.
End PullMediator.
