(* ===== verification/GossipChannel.v ===== *)
(** * A channel of the gossip network at a peer

    gossip/gossip/channel/channel.go: which messages of other peers are taken,
    answered, forwarded and given to the subscribers; the stores of blocks, of
    the state of peers and of leadership, and the puller of blocks.  What the
    rest of the gossip layer knows at the time of a call is the record
    [Adapter]. *)

From stdpp Require Import base gmap strings list pretty.
From Stdlib Require Import Ascii ZArith Lia.
From S2P Require Import Prelude Proto BlockHash GossipMsgs GossipState GossipPull.
Import CommonUtil PullMediator.
Local Open Scope Z_scope.

Module GossipChannel.

(** [Adapter] and the part of the crypto service that the channel uses, at one
    time. *)
Record Adapter := mkAdapter {
  ad_now : Z;
  ad_GetMembership : list NetworkMember;
  ad_Lookup : bytes -> option NetworkMember;
  ad_ValidateStateInfoMessage : SignedGossipMessage -> res unit;
  ad_GetOrgOfPeer : bytes -> option bytes;
  ad_GetIdentityByPKIID : bytes -> option bytes;
  ad_VerifyBlock : string -> Z -> bytes -> res unit;
  ad_VerifyByChannel : string -> bytes -> bytes -> bytes -> res unit
}.

(** [stateInfoCache]: a store and an index by peer. *)
Record stateInfoCache := mkCache { MessageStore : MsgStore.messageStore; index : MembershipStore }.

Record gossipChannel := mkChannel {
  shouldGossipStateInfo : bool;
  stateInfoMsg : option SignedGossipMessage;
  orgs : list bytes;
  joinMsg : option (Z * list bytes);
  blockMsgStore : MsgStore.messageStore;
  stateInfoMsgStore : stateInfoCache;
  leaderMsgStore : MsgStore.messageStore;
  blocksPuller : mediator
}.

Section GossipChannel.
Context `{GossipCodec} `{CryptoHash}.
Context (chainID : string) (pkiID selfOrg : bytes).
Context (MaxBlockCountToStore BlockExpirationInterval leaderTTL : Z).

(** *** Changes of the state *)

Definition with_state_info (b : bool) (m : option SignedGossipMessage) (gc : gossipChannel) : gossipChannel :=
  mkChannel b m (orgs gc) (joinMsg gc) (blockMsgStore gc) (stateInfoMsgStore gc) (leaderMsgStore gc) (blocksPuller gc).

Definition with_orgs (o : list bytes) (j : option (Z * list bytes)) (gc : gossipChannel) : gossipChannel :=
  mkChannel (shouldGossipStateInfo gc) (stateInfoMsg gc) o j (blockMsgStore gc) (stateInfoMsgStore gc) (leaderMsgStore gc) (blocksPuller gc).

Definition with_blocks (s : MsgStore.messageStore) (p : mediator) (gc : gossipChannel) : gossipChannel :=
  mkChannel (shouldGossipStateInfo gc) (stateInfoMsg gc) (orgs gc) (joinMsg gc) s (stateInfoMsgStore gc) (leaderMsgStore gc) p.

Definition with_cache (c : stateInfoCache) (gc : gossipChannel) : gossipChannel :=
  mkChannel (shouldGossipStateInfo gc) (stateInfoMsg gc) (orgs gc) (joinMsg gc) (blockMsgStore gc) c (leaderMsgStore gc) (blocksPuller gc).

Definition with_leaders (s : MsgStore.messageStore) (gc : gossipChannel) : gossipChannel :=
  mkChannel (shouldGossipStateInfo gc) (stateInfoMsg gc) (orgs gc) (joinMsg gc) (blockMsgStore gc) (stateInfoMsgStore gc) s (blocksPuller gc).

(** *** Stores *)

Definition GenerateMAC (pkiID : bytes) (channelID : string) : res bytes := ComputeSHA256 (pkiID ++ to_bytes channelID).

(** [fmt.Sprintf("%d", ...)] of the number of a block; empty for other
    messages. *)
Definition seqNumFromMsg (m : SignedGossipMessage) : string :=
  match gm_Content (sgm_Message m) with
  | DataMsg (Some payload) => pretty (Z.to_N (SeqNum payload))
  | _ => ""
  end.

Definition puller_Add : SignedGossipMessage -> mediator -> mediator := PullMediator.Add seqNumFromMsg.

Definition puller_HandleMessage : ReceivedMessage -> mediator -> mediator * list action :=
  PullMediator.HandleMessage (to_bytes chainID) CHAN_AND_ORG BLOCK_MSG seqNumFromMsg.

(** Blocks that are replaced or expire leave the puller. *)
Definition remove_all (l : list SignedGossipMessage) (p : mediator) : mediator :=
  foldl (fun p m => PullMediator.Remove (seqNumFromMsg m) p) p l.

Definition blocks_Add (now : Z) (m : SignedGossipMessage) (gc : gossipChannel) : res (gossipChannel * bool) :=
  '(s, inv, added) ← MsgStore.Add (invalidationPolicy MaxBlockCountToStore) now m (blockMsgStore gc);
  Ok (with_blocks s (remove_all inv (blocksPuller gc)) gc, added).

Definition blocks_expire (now : Z) (gc : gossipChannel) : gossipChannel :=
  let '(s, exp) := MsgStore.expireMessages BlockExpirationInterval now (blockMsgStore gc) in
  with_blocks s (remove_all exp (blocksPuller gc)) gc.

Definition leaders_expire (now : Z) (gc : gossipChannel) : gossipChannel :=
  with_leaders (MsgStore.expireMessages leaderTTL now (leaderMsgStore gc)).1 gc.

Definition unindex (l : list SignedGossipMessage) (i : MembershipStore) : MembershipStore :=
  foldl (fun (i : MembershipStore) m => match gm_Content (sgm_Message m) with StateInfoMsg si => delete (si_PkiId si) i | _ => i end) i l.

Definition cache_Add (now : Z) (m : SignedGossipMessage) (c : stateInfoCache) : res (stateInfoCache * bool) :=
  '(s, inv, added) ← MsgStore.Add (invalidationPolicy 0) now m (MessageStore c);
  let i := unindex inv (index c) in
  Ok (mkCache s (match added, gm_Content (sgm_Message m) with true, StateInfoMsg si => <[si_PkiId si := m]> i | _, _ => i end), added).

Definition state_info_Add (now : Z) (m : SignedGossipMessage) (gc : gossipChannel) : res (gossipChannel * bool) :=
  '(c, added) ← cache_Add now m (stateInfoMsgStore gc); Ok (with_cache c gc, added).

Definition MsgByID (id : bytes) (gc : gossipChannel) : option SignedGossipMessage := index (stateInfoMsgStore gc) !! id.

(** The sweep of the state of peers that have expired. *)
Definition purge_state_info (a : Adapter) (gc : gossipChannel) : gossipChannel :=
  let expired m := match gm_Content (sgm_Message m) with
                   | StateInfoMsg si => match ad_Lookup a (si_PkiId si) with None => true | Some _ => false end
                   | _ => false end in
  let '(s, gone) := MsgStore.Purge expired (MessageStore (stateInfoMsgStore gc)) in
  with_cache (mkCache s (unindex gone (index (stateInfoMsgStore gc)))) gc.

(** *** Members of the channel *)

Definition IsOrgInChannel (gc : gossipChannel) (membersOrg : bytes) : bool := existsb (fun o => bool_decide (o = membersOrg)) (orgs gc).

Definition IsMemberInChan (a : Adapter) (gc : gossipChannel) (member : NetworkMember) : bool :=
  match ad_GetOrgOfPeer a (nm_PKIid member) with None => false | Some org => IsOrgInChannel gc org end.

Definition succeeds (r : res unit) : res bool :=
  match r with Ok _ => Ok true | Err _ => Ok false | Panic m => Panic m | OutOfFuel => OutOfFuel end.

Definition EligibleForChannel (a : Adapter) (gc : gossipChannel) (member : NetworkMember) : res bool :=
  if negb (IsMemberInChan a gc member) then Ok false
  else
    match ad_GetIdentityByPKIID a (nm_PKIid member), MsgByID (nm_PKIid member) gc with
    | Some identity, Some (mkSignedGossipMessage (Some e) _) => succeeds (ad_VerifyByChannel a chainID identity (ge_Signature e) (ge_Payload e))
    | Some _, Some (mkSignedGossipMessage None _) => Panic "nil pointer dereference"
    | _, _ => Ok false
    end.

Definition eligibleForChannelAndSameOrg (a : Adapter) (gc : gossipChannel) (member : NetworkMember) : res bool :=
  eligible ← EligibleForChannel a gc member;
  Ok (eligible && bool_decide (default [] (ad_GetOrgOfPeer a (nm_PKIid member)) = selfOrg)).

Fixpoint filter_members (p : NetworkMember -> res bool) (l : list NetworkMember) : res (list NetworkMember) :=
  match l with
  | [] => Ok []
  | m :: l => b ← p m; rest ← filter_members p l; Ok (if (b : bool) then m :: rest else rest)
  end.

(** The members to pull from. *)
Definition memFilter_GetMembership (a : Adapter) (gc : gossipChannel) : res (list NetworkMember) :=
  filter_members (eligibleForChannelAndSameOrg a gc) (ad_GetMembership a).

Definition with_metadata (gc : gossipChannel) (member : NetworkMember) : option NetworkMember :=
  match MsgByID (nm_PKIid member) gc with
  | Some (mkSignedGossipMessage _ (mkGossipMessage _ _ _ (StateInfoMsg si))) =>
      Some (mkNetworkMember (nm_Endpoint member) (si_Metadata si) (nm_PKIid member) (nm_InternalEndpoint member))
  | _ => None
  end.

(** With the state that they published. *)
Definition GetPeers (a : Adapter) (gc : gossipChannel) : res (list NetworkMember) :=
  members ← filter_members (EligibleForChannel a gc) (ad_GetMembership a);
  Ok (omap (M := list) (with_metadata gc) members).

(** [join]: the sequence number and the members. *)
Definition ConfigureChannel (join : Z * list bytes) (gc : gossipChannel) : gossipChannel :=
  match join.2 with
  | [] => gc
  | _ =>
      let current := default join (joinMsg gc) in
      if join.1 <? current.1 then with_orgs (orgs gc) (Some current) gc
      else with_orgs join.2 (Some join) gc
  end.

Definition NewGossipChannel (join : Z * list bytes) : gossipChannel :=
  ConfigureChannel join
    (mkChannel false None [] None MsgStore.newMsgStore (mkCache MsgStore.newMsgStore ∅) MsgStore.newMsgStore NewPullMediator).

(** *** Messages of other peers *)

Definition verifyMsg (msg : ReceivedMessage) : res bool :=
  let m := sgm_Message (rm_Message msg) in
  match ci_ID (rm_ConnectionInfo msg) with
  | None => Ok false
  | Some id =>
      match gm_Content m with
      | StateInfoMsg si => mac ← GenerateMAC (si_PkiId si) chainID; Ok (bool_decide (mac = si_Channel_MAC si))
      | StateInfoPullReq channel_MAC => mac ← GenerateMAC id chainID; Ok (bool_decide (mac = channel_MAC))
      | _ => Ok (bool_decide (gm_Channel m = to_bytes chainID))
      end
  end.

(** The channel is that of the message. *)
Definition verifyBlock (a : Adapter) (m : GossipMessage) : res bool :=
  match gm_Content m with
  | DataMsg (Some payload) => succeeds (ad_VerifyBlock a (to_string (gm_Channel m)) (SeqNum payload) (bp_Data payload))
  | _ => Ok false
  end.

(** Peers of other organizations learn of the peers that have an endpoint for
    them. *)
Definition disclosed (a : Adapter) (requestersOrg : bytes) (msg : SignedGossipMessage) : bool :=
  match gm_Content (sgm_Message msg) with
  | StateInfoMsg si =>
      bool_decide (selfOrg = requestersOrg) || negb (bool_decide (default [] (ad_GetOrgOfPeer a (si_PkiId si)) = selfOrg)) ||
      match ad_Lookup a (si_PkiId si) with Some netMember => negb (bool_decide (nm_Endpoint netMember = "")) | None => false end
  | _ => false
  end.

Definition createStateInfoSnapshot (a : Adapter) (requestersOrg : bytes) (gc : gossipChannel) : GossipMessage :=
  mkGossipMessage 0 (to_bytes chainID) CHAN_OR_ORG
    (StateSnapshot (omap sgm_Envelope (filter (fun m => disclosed a requestersOrg m = true) (MsgStore.Get (MessageStore (stateInfoMsgStore gc)))))).

(** The elements up to the first that is refused; those of peers that are not
    known are passed over. *)
Fixpoint handleStateInfSnapshot (a : Adapter) (elements : list GossipEnvelope) (gc : gossipChannel) : res gossipChannel :=
  match elements with
  | [] => Ok gc
  | envelope :: elements =>
      match ToGossipMessage envelope with
      | Ok stateInf =>
          match gm_Content (sgm_Message stateInf) with
          | StateInfoMsg si =>
              match ad_GetOrgOfPeer a (si_PkiId si) with
              | None => Ok gc
              | Some orgID =>
                  if negb (IsOrgInChannel gc orgID) then Ok gc
                  else
                    mac ← GenerateMAC (si_PkiId si) chainID;
                    if negb (bool_decide (si_Channel_MAC si = mac)) then Ok gc
                    else
                      ok ← succeeds (ad_ValidateStateInfoMessage a stateInf);
                      if negb ok then Ok gc
                      else
                        match ad_Lookup a (si_PkiId si) with
                        | None => handleStateInfSnapshot a elements gc
                        | Some _ => '(gc, _) ← state_info_Add (ad_now a) stateInf gc; handleStateInfSnapshot a elements gc
                        end
              end
          | _ => Ok gc
          end
      | Err _ => Ok gc
      | Panic m => Panic m
      | OutOfFuel => OutOfFuel
      end
  end.

(** A block or the state of a peer. *)
Definition handle_gossiped (a : Adapter) (m : SignedGossipMessage) (gc : gossipChannel) : res (gossipChannel * list action) :=
  match gm_Content (sgm_Message m) with
  | DataMsg None => Ok (gc, [])
  | DataMsg (Some _) =>
      valid ← MsgStore.CheckValid (invalidationPolicy MaxBlockCountToStore) m (blockMsgStore gc);
      if negb valid then Ok (gc, [])
      else
        ok ← verifyBlock a (sgm_Message m);
        if negb ok then Ok (gc, [])
        else
          '(gc, added) ← blocks_Add (ad_now a) m gc;
          Ok (if (added : bool) then (with_blocks (blockMsgStore gc) (puller_Add m (blocksPuller gc)) gc, [Forward m; DeMultiplex m]) else (gc, []))
  | _ =>
      '(gc, added) ← state_info_Add (ad_now a) m gc;
      Ok (gc, if (added : bool) then [Forward m; DeMultiplex m] else [])
  end.

(** The blocks of an update that are verified and new; nothing is left of the
    update when one of them is refused.  [CheckValid] is called on the update,
    which replaces no block. *)
Fixpoint filter_update (a : Adapter) (update : SignedGossipMessage) (data : list GossipEnvelope) (gc : gossipChannel) :
    res (gossipChannel * option (list GossipEnvelope)) :=
  match data with
  | [] => Ok (gc, Some [])
  | item :: data =>
      match ToGossipMessage item with
      | Ok gMsg =>
          if negb (bool_decide (gm_Channel (sgm_Message gMsg) = to_bytes chainID)) then Ok (gc, None)
          else
            valid ← MsgStore.CheckValid (invalidationPolicy MaxBlockCountToStore) update (blockMsgStore gc);
            if negb valid then Ok (gc, None)
            else
              ok ← verifyBlock a (sgm_Message gMsg);
              if negb ok then Ok (gc, None)
              else
                '(gc, added) ← blocks_Add (ad_now a) gMsg gc;
                '(gc, rest) ← filter_update a update data gc;
                Ok (gc, match rest with Some l => Some (if (added : bool) then item :: l else l) | None => None end)
      | Err _ => Ok (gc, None)
      | Panic m => Panic m
      | OutOfFuel => OutOfFuel
      end
  end.

Definition with_content (c : Content) (msg : ReceivedMessage) : ReceivedMessage :=
  let m := sgm_Message (rm_Message msg) in
  mkReceivedMessage (mkSignedGossipMessage (sgm_Envelope (rm_Message msg)) (mkGossipMessage (gm_Nonce m) (gm_Channel m) (gm_Tag m) c))
    (rm_ConnectionInfo msg).

Definition pull (msg : ReceivedMessage) (gc : gossipChannel) : gossipChannel * list action :=
  let '(p, acts) := puller_HandleMessage msg (blocksPuller gc) in (with_blocks (blockMsgStore gc) p gc, acts).

(** A message of the pull protocol from the peer [id]. *)
Definition handle_pull (a : Adapter) (id : bytes) (msg : ReceivedMessage) (gc : gossipChannel) : res (gossipChannel * list action) :=
  match MsgByID id gc with
  | None => Ok (gc, [])
  | Some _ =>
      eligible ← eligibleForChannelAndSameOrg a gc (mkNetworkMember "" [] id "");
      if negb eligible then Ok (gc, [])
      else
        match rm_Content msg with
        | DataUpdate nonce data t =>
            '(gc, filtered) ← filter_update a (rm_Message msg) data gc;
            Ok match filtered with
               | None => (gc, [])
               | Some filteredEnvelopes => pull (with_content (DataUpdate nonce filteredEnvelopes t) msg) gc
               end
        | _ => Ok (pull msg gc)
        end
  end.

Definition HandleMessage (a : Adapter) (msg : ReceivedMessage) (gc : gossipChannel) : res (gossipChannel * list action) :=
  verified ← verifyMsg msg;
  if negb verified then Ok (gc, [])
  else
    let m := rm_Message msg in
    let id := default [] (ci_ID (rm_ConnectionInfo msg)) in
    if negb (IsChannelRestricted (sgm_Message m)) then Ok (gc, [])
    else
      match default [] (ad_GetOrgOfPeer a id) with
      | [] => Ok (gc, [])
      | orgID =>
          if negb (IsOrgInChannel gc orgID) then Ok (gc, [])
          else
            match gm_Content (sgm_Message m) with
            | StateInfoPullReq _ => Ok (gc, [Respond (createStateInfoSnapshot a orgID gc)])
            | StateSnapshot elements => gc ← handleStateInfSnapshot a elements gc; Ok (gc, [])
            | DataMsg _ | StateInfoMsg _ => handle_gossiped a m gc
            | Hello _ _ t | DataDig _ _ t | DataReq _ _ t | DataUpdate _ _ t =>
                if decide (t = BLOCK_MSG) then handle_pull a id msg gc else Ok (gc, [])
            | LeadershipMsg _ =>
                '(s, _, added) ← MsgStore.Add (invalidationPolicy 0) (ad_now a) m (leaderMsgStore gc);
                Ok (with_leaders s gc, if (added : bool) then [DeMultiplex m] else [])
            | _ => Ok (gc, [])
            end
      end.

(** *** The peer's own messages *)

Definition AddToMsgStore (a : Adapter) (msg : SignedGossipMessage) (gc : gossipChannel) : res gossipChannel :=
  match gm_Content (sgm_Message msg) with
  | DataMsg _ => '(gc, _) ← blocks_Add (ad_now a) msg gc; Ok (with_blocks (blockMsgStore gc) (puller_Add msg (blocksPuller gc)) gc)
  | StateInfoMsg _ => '(gc, _) ← state_info_Add (ad_now a) msg gc; Ok gc
  | _ => Ok gc
  end.

Definition UpdateStateInfo (a : Adapter) (msg : SignedGossipMessage) (gc : gossipChannel) : res gossipChannel :=
  if negb (IsStateInfoMsg (gm_Content (sgm_Message msg))) then Ok gc
  else '(gc, _) ← state_info_Add (ad_now a) msg gc; Ok (with_state_info true (Some msg) gc).

Definition publishStateInfo (a : Adapter) (gc : gossipChannel) : gossipChannel * list action :=
  if negb (shouldGossipStateInfo gc) then (gc, [])
  else (match ad_GetMembership a with [] => gc | _ => with_state_info false (stateInfoMsg gc) gc end,
        Forward <$> option_list (stateInfoMsg gc)).

Definition createStateInfoRequest : res SignedGossipMessage :=
  mac ← GenerateMAC pkiID chainID; Ok (NoopSign (mkGossipMessage 0 [] CHAN_OR_ORG (StateInfoPullReq mac))).

(** [chosen]: the random choice of at most [PullPeerNum] indices. *)
Definition requestStateInfo (a : Adapter) (chosen : list nat) (gc : gossipChannel) : res (list action) :=
  req ← createStateInfoRequest;
  let eligible := filter (fun m => IsMemberInChan a gc m = true) (ad_GetMembership a) in
  Ok [SendTo (omap (fun i => (fun m => mkRemotePeer (PreferredEndpoint m) (nm_PKIid m)) <$> eligible !! i) chosen) req].

End GossipChannel.
End GossipChannel.
