(* ===== verification/OrdererLedgers.v ===== *)
(** * The ledgers of an orderer

    orderer/ledger: what a reader of a ledger sees, an interface, and the ledgers
    in memory (ram) and in files of JSON (json) beside the one over a block
    store, which is in OrdererChain.v.  The interface is that of the calls of the
    delivery service: an iterator over a chain that grows. *)

From stdpp Require Import base gmap strings list sorting.
From Stdlib Require Import Ascii ZArith Lia.
From S2P Require Import Prelude Proto BlockHash BlockMgr KVLedger OrdererChain.
Import CommonUtil BlockHash OrdererLedger.
Local Open Scope Z_scope.

(** ** ledger.go

    [rd_ready]: the channel of [ReadyChan] is closed.  [rd_Next] is [None] while
    the call blocks. *)
Class LedgerReader (B It : Type) := {
  rd_Height : B -> Z;
  rd_Iterator : B -> SeekPosition -> res (It * Z);
  rd_ready : B -> It -> bool;
  rd_Next : B -> It -> option (res (It * option Block * Status))
}.

(** The blocks of a chain have their position as number. *)
Definition in_sequence (bs : list Block) : Prop := forall k b, bs !! k = Some b -> Number (blk_Header b) = Z.of_nat k.

(** What a ledger promises to its readers.  [lr_chain b bs]: the blocks that were
    appended are [bs]; those before [lr_oldest b] may be gone for new iterators.
    [lr_reads b i n]: the block that the iterator [i] gives next has the number
    [n].  [lr_grows b b']: [b'] is [b] after some appends. *)
Class LedgerReaderSpec (B It : Type) `{LedgerReader B It} := {
  lr_chain : B -> list Block -> Prop;
  lr_oldest : B -> Z;
  lr_reads : B -> It -> Z -> Prop;
  lr_grows : B -> B -> Prop;
  lr_numbers b bs : lr_chain b bs -> in_sequence bs /\ Z.of_nat (length bs) < 2 ^ 62 /\ 0 <= lr_oldest b <= Z.of_nat (length bs);
  lr_height b bs : lr_chain b bs -> rd_Height b = Z.of_nat (length bs);
  lr_seek_oldest b bs : lr_chain b bs -> exists i, rd_Iterator b SeekOldest = Ok (i, lr_oldest b) /\ lr_reads b i (lr_oldest b);
  lr_seek_newest b bs : lr_chain b bs -> bs <> [] ->
    exists i, rd_Iterator b SeekNewest = Ok (i, Z.of_nat (length bs) - 1) /\ lr_reads b i (Z.of_nat (length bs) - 1);
  lr_seek b bs n : lr_chain b bs -> lr_oldest b <= n <= Z.of_nat (length bs) ->
    exists i, rd_Iterator b (SeekSpecified n) = Ok (i, n) /\ lr_reads b i n;
  lr_seek_absent b bs n : lr_chain b bs -> 0 <= n < 2 ^ 64 -> Z.of_nat (length bs) < n ->
    exists i, rd_Iterator b (SeekSpecified n) = Ok (i, 0) /\ rd_ready b i = true /\ rd_Next b i = Some (Ok (i, None, NOT_FOUND));
  lr_ready b bs i n : lr_chain b bs -> bs <> [] -> lr_reads b i n -> rd_ready b i = bool_decide (n < Z.of_nat (length bs));
  lr_next b bs i n : lr_chain b bs -> lr_reads b i n ->
    match bs !! Z.to_nat n with
    | Some block => exists i', rd_Next b i = Some (Ok (i', Some block, SUCCESS)) /\ lr_reads b i' (n + 1)
    | None => rd_Next b i = None
    end;
  lr_position b i n : lr_reads b i n -> 0 <= n;
  lr_stable b b' i n : lr_grows b b' -> lr_reads b i n -> lr_reads b' i n;
  lr_grows_trans b b' b'' : lr_grows b b' -> lr_grows b' b'' -> lr_grows b b''
}.

(** ** ledger/file *)

Section File.
Context {B : Type} `{BlockStore B}.

#[global] Instance file_reader : LedgerReader B ledgerIterator := {
  rd_Height := Height;
  rd_Iterator fl p := Ok (Iterator fl p);
  rd_ready := ready;
  rd_Next := Next
}.

End File.

(** ** ledger/ram

    The nodes of the list are in a heap; a pointer is an index.  Nodes stay as
    long as a cursor refers to them, so that none is removed. *)

Module RamLedger.

Record simpleList := mkNode { sl_next : option nat; sl_closed : bool; sl_block : Block }.

Record ramLedger := mkRam { maxSize : Z; rsize : Z; heap : list simpleList; oldest : nat; newest : nat }.

(** A cursor at a node of the ledger, or at a node of its own before one, with a
    closed signal; or the iterator that finds nothing. *)
Inductive cursor := At (list : nat) | Before (next : nat) | NotFound.

Definition preGenesis : Block := mkBlock (mkBlockHeader (2 ^ 64 - 1) [] []) [] [].

Definition newChain (maxSize : Z) : ramLedger := mkRam maxSize 1 [mkNode None false preGenesis] 0 0.

Definition node (rl : ramLedger) (p : nat) : res simpleList :=
  match heap rl !! p with Some n => Ok n | None => Panic "nil pointer dereference" end.

Definition number_of (rl : ramLedger) (p : nat) : res Z := n ← node rl p; Ok (Number (blk_Header (sl_block n))).

(** [None] while the call blocks. *)
Definition Next (rl : ramLedger) (cu : cursor) : option (res (cursor * option Block * Status)) :=
  match cu with
  | NotFound => Some (Ok (cu, None, NOT_FOUND))
  | Before next => Some (n ← node rl next; Ok (At next, Some (sl_block n), SUCCESS))
  | At p =>
      match node rl p with
      | Ok n =>
          match sl_next n with
          | Some next => Some (n ← node rl next; Ok (At next, Some (sl_block n), SUCCESS))
          | None => None
          end
      | Err e => Some (Err e)
      | Panic m => Some (Panic m)
      | OutOfFuel => Some OutOfFuel
      end
  end.

Definition ready (rl : ramLedger) (cu : cursor) : bool :=
  match cu with
  | NotFound | Before _ => true
  | At p => match heap rl !! p with Some n => sl_closed n | None => false end
  end.

(** The walk along the list to the block before [specified]. *)
Fixpoint walk (fuel : nat) (rl : ramLedger) (p : nat) (specified : Z) : res nat :=
  match fuel with
  | O => OutOfFuel
  | S fuel =>
      n ← node rl p;
      if Number (blk_Header (sl_block n)) =? wrap64 (specified - 1) then Ok p
      else match sl_next n with Some next => walk fuel rl next specified | None => Panic "nil pointer dereference" end
  end.

(** The cursor with the number of its block, before pre-genesis is skipped. *)
Definition seek (rl : ramLedger) (startPosition : SeekPosition) : res (cursor * Z) :=
  match startPosition with
  | SeekOldest => o ← number_of rl (oldest rl); Ok (Before (oldest rl), wrap64 (o - 1))
  | SeekNewest => n ← number_of rl (newest rl); Ok (Before (newest rl), wrap64 (n - 1))
  | SeekSpecified specified =>
      o ← number_of rl (oldest rl);
      n ← number_of rl (newest rl);
      if (wrap64 (specified + 1) <? wrap64 (o + 1)) || (wrap64 (n + 1) <? specified) then Ok (NotFound, 0)
      else if specified =? o then Ok (Before (oldest rl), wrap64 (o - 1))
      else
        p ← walk (length (heap rl)) rl (oldest rl) specified;
        b ← number_of rl p; Ok (At p, b)
  | SeekUnknown => Panic "nil pointer dereference"
  end.

(** The cursor, past pre-genesis, and the number that it starts with. *)
Definition skip_pre_genesis (rl : ramLedger) (cu : cursor) (number : Z) : res (cursor * Z) :=
  match cu with
  | NotFound => Ok (NotFound, 0)
  | _ =>
      let blockNum := wrap64 (number + 1) in
      if blockNum =? 2 ^ 64 - 1 then
        '(cu, _, _) ← wait (Next rl cu); Ok (cu, wrap64 (blockNum + 1))
      else Ok (cu, blockNum)
  end.

Definition Iterator (rl : ramLedger) (startPosition : SeekPosition) : res (cursor * Z) :=
  '(cu, number) ← seek rl startPosition; skip_pre_genesis rl cu number.

Definition Height (rl : ramLedger) : Z :=
  match number_of rl (newest rl) with Ok n => wrap64 (n + 1) | _ => 0 end.

(** The new node is linked, the signal of the last one closed, and the oldest one
    dropped when there are too many. *)
Definition appendBlock (block : Block) (rl : ramLedger) : res ramLedger :=
  n ← node rl (newest rl);
  let fresh := length (heap rl) in
  let nodes := <[newest rl := mkNode (Some fresh) true (sl_block n)]> (heap rl) ++ [mkNode None false block] in
  let size := rsize rl + 1 in
  if maxSize rl <? size then
    match nodes !! oldest rl with
    | Some (mkNode (Some next) _ _) => Ok (mkRam (maxSize rl) (size - 1) nodes next fresh)
    | _ => Panic "nil pointer dereference"
    end
  else Ok (mkRam (maxSize rl) size nodes (oldest rl) fresh).

Section Append.
Context `{CryptoHash}.

Definition Append (block : Block) (rl : ramLedger) : res ramLedger :=
  n ← node rl (newest rl);
  let last := blk_Header (sl_block n) in
  if negb (Number (blk_Header block) =? wrap64 (Number last + 1)) then Err "Block number should have been another one"
  else
    linked ← (if wrap64 (Number last + 1) =? 0 then Ok true
              else h ← header_Hash last; Ok (bool_decide (PreviousHash (blk_Header block) = h)));
    if negb linked then Err "Block should have had another previous hash" else appendBlock block rl.

End Append.

#[global] Instance ram_reader : LedgerReader ramLedger cursor := {
  rd_Height := Height;
  rd_Iterator := Iterator;
  rd_ready := ready;
  rd_Next := Next
}.

(** *** factory.go *)

Record ramLedgerFactory := mkRamFactory { rf_maxSize : Z; rf_ledgers : gmap string ramLedger }.

Definition GetOrCreate (chainID : string) (f : ramLedgerFactory) : ramLedgerFactory * ramLedger :=
  match rf_ledgers f !! chainID with
  | Some l => (f, l)
  | None => let ch := newChain (rf_maxSize f) in (mkRamFactory (rf_maxSize f) (<[chainID := ch]> (rf_ledgers f)), ch)
  end.

Definition ChainIDs (f : ramLedgerFactory) : list string := (map_to_list (rf_ledgers f)).*1.

End RamLedger.

(** ** ledger/json

    The files of a directory by the number in their name; [jsonpb] is a
    parameter. *)

Class JsonCodec := {
  json_Marshal : Block -> bytes;
  json_Unmarshal : bytes -> res Block
}.

Class JsonCodecSpec `{JsonCodec} : Prop := { json_roundtrip b : json_Unmarshal (json_Marshal b) = Ok b }.

Module JsonLedger.

Record jsonLedger := mkJson { files : gmap Z bytes; height : Z; lastHash : bytes }.

Inductive cursor := JsonCursor (blockNumber : Z) | NotFound.

Section JsonLedger.
Context `{CryptoHash} `{JsonCodec}.

(** The block, if it can be read, and whether the file is there. *)
Definition readBlock (jl : jsonLedger) (number : Z) : option Block * bool :=
  match files jl !! number with
  | None => (None, false)
  | Some file => (match json_Unmarshal file with Ok block => Some block | _ => None end, true)
  end.

(** [None] while the call blocks. *)
Definition Next (jl : jsonLedger) (cu : cursor) : option (res (cursor * option Block * Status)) :=
  match cu with
  | NotFound => Some (Ok (cu, None, NOT_FOUND))
  | JsonCursor blockNumber =>
      match readBlock jl blockNumber with
      | (Some block, true) => Some (Ok (JsonCursor (wrap64 (blockNumber + 1)), Some block, SUCCESS))
      | (None, true) => Some (Ok (cu, None, SERVICE_UNAVAILABLE))
      | (_, false) => None
      end
  end.

Definition ready (jl : jsonLedger) (cu : cursor) : bool :=
  match cu with NotFound => true | JsonCursor n => bool_decide (is_Some (files jl !! n)) end.

Definition Iterator (jl : jsonLedger) (startPosition : SeekPosition) : cursor * Z :=
  match startPosition with
  | SeekOldest => (JsonCursor 0, 0)
  | SeekNewest => let high := wrap64 (height jl - 1) in (JsonCursor high, high)
  | SeekSpecified number => if height jl <? number then (NotFound, 0) else (JsonCursor number, number)
  | SeekUnknown => (NotFound, 0)
  end.

(** Creating and writing the file succeed. *)
Definition writeBlock (block : Block) (jl : jsonLedger) : jsonLedger :=
  mkJson (<[Number (blk_Header block) := json_Marshal block]> (files jl)) (height jl) (lastHash jl).

Definition Append (block : Block) (jl : jsonLedger) : res jsonLedger :=
  if negb (Number (blk_Header block) =? height jl) then Err "Block number should have been another one"
  else if negb (bool_decide (PreviousHash (blk_Header block) = lastHash jl)) then Err "Block should have had another previous hash"
  else
    let jl := writeBlock block jl in
    h ← header_Hash (blk_Header block);
    Ok (mkJson (files jl) (wrap64 (height jl + 1)) h).

(** *** factory.go *)

(** The files in the order of their names, which is that of the numbers. *)
Fixpoint count_files (numbers : list Z) (nextNumber : Z) : res Z :=
  match numbers with
  | [] => Ok nextNumber
  | number :: numbers => if number =? nextNumber then count_files numbers (wrap64 (nextNumber + 1)) else Panic "Missing block in the chain"
  end.

Definition listing (dir : gmap Z bytes) : list Z := merge_sort Z.le (map_to_list dir).*1.

Definition newChain (dir : gmap Z bytes) : res jsonLedger :=
  height ← count_files (listing dir) 0;
  if height =? 0 then Ok (mkJson dir 0 [])
  else
    match readBlock (mkJson dir height []) (height - 1) with
    | (_, false) => Panic "Block was in directory listing but error reading"
    | (None, true) => Panic "Error reading block"
    | (Some block, true) => h ← header_Hash (blk_Header block); Ok (mkJson dir height h)
    end.

End JsonLedger.

#[global] Instance json_reader `{JsonCodec} : LedgerReader jsonLedger cursor := {
  rd_Height := height;
  rd_Iterator jl p := Ok (Iterator jl p);
  rd_ready := ready;
  rd_Next := Next
}.

End JsonLedger.
