(* ===== verification/OrdererLedgerFacts.v ===== *)
(** * The ledgers of an orderer keep their promise

    The ledger over a block store, the ledger in memory and the ledger in JSON
    files are readers of a chain in the sense of [LedgerReaderSpec]. *)

From stdpp Require Import base gmap strings list sorting.
From Stdlib Require Import Ascii ZArith Lia.
From S2P Require Import Prelude Proto BlockHash BlockMgr KVLedger OrdererChain OrdererLedgers.
Import CommonUtil BlockHash OrdererLedger.
Local Open Scope Z_scope.

(** ** The ledger over a block store *)

Section File.
Context {B : Type} `{BlockStoreSpec B}.

Lemma file_height l bs : holds l bs -> Height l = Z.of_nat (length bs).
Proof. apply GetBlockchainInfo_spec. Qed.

#[global, refine] Instance file_reader_spec : LedgerReaderSpec B ledgerIterator := {
  lr_chain fl bs := holds fl bs /\ in_sequence bs;
  lr_oldest _ := 0;
  lr_reads _ i n := i = FileIterator n /\ 0 <= n <= 2 ^ 62;
  lr_grows _ _ := True
}.
Proof.
  - intros b bs [Hh Hs]. pose proof (holds_len _ _ Hh). split; [done|]. lia.
  - intros b bs [Hh _]. by apply file_height.
  - intros b bs [Hh _]. eexists. split; [done|]. split; [done|lia].
  - intros b bs [Hh _] Hne. pose proof (holds_len _ _ Hh). assert (0 < length bs)%nat by (destruct bs; [done|cbn; lia]).
    cbn. rewrite (file_height _ _ Hh), wrap64_small by (unfold u64; lia). eexists. split; [done|]. split; [done|lia].
  - intros b bs n [Hh _] Hn. pose proof (holds_len _ _ Hh). cbn. rewrite (file_height _ _ Hh), (proj2 (Z.ltb_ge _ _)) by lia.
    eexists. split; [done|]. split; [done|lia].
  - intros b bs n [Hh _] Hn Hlt. cbn. rewrite (file_height _ _ Hh), (proj2 (Z.ltb_lt _ _)) by lia. eexists. repeat split.
  - intros b bs i n [Hh _] Hne [-> Hn]. pose proof (holds_len _ _ Hh). assert (0 < length bs)%nat by (destruct bs; [done|cbn; lia]).
    cbn. rewrite (file_height _ _ Hh), wrap64_small by (unfold u64; lia).
    case_bool_decide; [rewrite (proj2 (Z.ltb_ge _ _)) by lia; done|rewrite (proj2 (Z.ltb_lt _ _)) by lia; done].
  - intros b bs i n [Hh _] [-> Hn]. cbn. rewrite (file_height _ _ Hh). pose proof (holds_len _ _ Hh).
    destruct (bs !! Z.to_nat n) as [block|] eqn:Eb.
    + pose proof (lookup_lt_Some _ _ _ Eb). rewrite (proj2 (Z.ltb_lt _ _)) by lia.
      rewrite <- (Z2Nat.id n) by lia. rewrite (RetrieveBlockByNumber_spec _ _ _ _ Hh Eb).
      eexists. split; [done|]. split; [|lia]. by rewrite wrap64_small by (unfold u64; lia).
    + apply lookup_ge_None in Eb. by rewrite (proj2 (Z.ltb_ge _ _)) by lia.
  - intros b i n [_ Hn]. lia.
  - intros b b' i n _ Hr. exact Hr.
  - done.
Defined.

End File.

(** ** The ledger in memory *)

Module RamFacts.
Import RamLedger.

(** The node of the block [k] of the chain [bs] is at [k + 1], behind
    pre-genesis. *)
Definition ram_node (bs : list Block) (p : nat) : option simpleList :=
  (fun b => mkNode (if decide (p < length bs)%nat then Some (S p) else None) (bool_decide (p < length bs)%nat) b) <$>
  (preGenesis :: bs) !! p.

Record ram_ok (rl : ramLedger) (bs : list Block) : Prop := {
  ram_heap : forall p, heap rl !! p = ram_node bs p;
  ram_newest : newest rl = length bs;
  ram_oldest : (oldest rl <= length bs)%nat;
  ram_sequence : in_sequence bs;
  ram_len : Z.of_nat (length bs) < 2 ^ 62
}.

Lemma ram_number rl bs p : ram_ok rl bs -> (p <= length bs)%nat -> number_of rl p = Ok (wrap64 (Z.of_nat p - 1)).
Proof.
  intros Hr Hp. unfold number_of, node. rewrite (ram_heap _ _ Hr). unfold ram_node. destruct p as [|p].
  - cbn. by vm_compute.
  - change ((preGenesis :: bs) !! S p) with (bs !! p). destruct (lookup_lt_is_Some_2 bs p) as [b Hb]; [lia|]. rewrite Hb. cbn.
    rewrite (ram_sequence _ _ Hr _ _ Hb). pose proof (ram_len _ _ Hr). rewrite wrap64_small by (unfold u64; lia). do 2 f_equal. lia.
Qed.

Lemma ram_block rl bs k b :
  ram_ok rl bs -> bs !! k = Some b ->
  node rl (S k) = Ok (mkNode (if decide (S k < length bs)%nat then Some (S (S k)) else None) (bool_decide (S k < length bs)%nat) b).
Proof.
  intros Hr Hb. unfold node. rewrite (ram_heap _ _ Hr). unfold ram_node.
  change ((preGenesis :: bs) !! S k) with (bs !! k). by rewrite Hb.
Qed.

Lemma ram_node_lookup rl bs p :
  ram_ok rl bs -> (p <= length bs)%nat ->
  exists b, node rl p = Ok (mkNode (if decide (p < length bs)%nat then Some (S p) else None) (bool_decide (p < length bs)%nat) b) /\
    Number (blk_Header b) = wrap64 (Z.of_nat p - 1).
Proof.
  intros Hr Hp. pose proof (ram_number _ _ _ Hr Hp) as Hn. unfold number_of in Hn. unfold node in *. rewrite (ram_heap _ _ Hr) in *.
  unfold ram_node in *. destruct ((preGenesis :: bs) !! p) as [b|] eqn:Eb; [|done]. cbn in *. injection Hn as Hn. by exists b.
Qed.

(** The walk finds the node before the block. *)
Lemma walk_spec rl bs fuel p n :
  ram_ok rl bs -> (p <= n <= length bs)%nat -> (n - p < fuel)%nat -> walk fuel rl p (Z.of_nat n) = Ok n.
Proof.
  intros Hr. revert p. induction fuel as [|fuel IH]; intros p Hp Hf; [lia|]. cbn [walk].
  destruct (ram_node_lookup _ _ p Hr) as (b & En & Hb); [lia|]. rewrite En, res_ret_bind. cbn [sl_block sl_next]. rewrite Hb.
  pose proof (ram_len _ _ Hr). destruct (decide (p = n)) as [->|Hne].
  - by rewrite Z.eqb_refl.
  - rewrite (proj2 (Z.eqb_neq _ _)).
    + rewrite decide_True by lia. apply IH; lia.
    + destruct p as [|p]; unfold wrap64; [rewrite (Z.mod_small (Z.of_nat n - 1)) by lia; change ((Z.of_nat 0 - 1) mod 2 ^ 64) with (2 ^ 64 - 1); lia|].
      rewrite !Z.mod_small by lia. lia.
Qed.

(** A cursor at the node [p] reads the block [p]. *)
Definition ram_reads (rl : ramLedger) (cu : cursor) (n : Z) : Prop :=
  exists p, n = Z.of_nat p /\ ((cu = At p /\ (p < length (heap rl))%nat) \/ (cu = Before (S p) /\ (S p < length (heap rl))%nat)).

Lemma ram_heap_length rl bs : ram_ok rl bs -> length (heap rl) = S (length bs).
Proof.
  intros Hr. pose proof (ram_heap _ _ Hr (length bs)) as H1. pose proof (ram_heap _ _ Hr (S (length bs))) as H2.
  unfold ram_node in *. rewrite (lookup_ge_None_2 (preGenesis :: bs)) in H2 by (cbn; lia). apply lookup_ge_None in H2.
  destruct (lookup_lt_is_Some_2 (preGenesis :: bs) (length bs)) as [b Hb]; [cbn; lia|]. rewrite Hb in H1. apply lookup_lt_Some in H1. lia.
Qed.

(** An iterator before the node [p], which is skipped if it is pre-genesis. *)
Lemma ram_before rl bs p :
  ram_ok rl bs -> (p <= length bs)%nat ->
  exists cu, skip_pre_genesis rl (Before p) (wrap64 (wrap64 (Z.of_nat p - 1) - 1)) = Ok (cu, Z.of_nat (p - 1)) /\ ram_reads rl cu (Z.of_nat (p - 1)).
Proof.
  intros Hr Hp. pose proof (ram_len _ _ Hr). pose proof (ram_heap_length _ _ Hr) as Hl. unfold skip_pre_genesis. destruct p as [|p].
  - destruct (ram_node_lookup _ _ 0 Hr) as (b & En & Hb); [lia|]. exists (At 0). split.
    + cbn [Next]. rewrite En. by vm_compute.
    + exists O. split; [done|]. left. split; [done|lia].
  - replace (Z.of_nat (S p) - 1) with (Z.of_nat p) by lia. rewrite (wrap64_small (Z.of_nat p)) by (unfold u64; lia).
    assert (wrap64 (wrap64 (Z.of_nat p - 1) + 1) = Z.of_nat p) as ->.
    { unfold wrap64. rewrite Zplus_mod_idemp_l. replace (Z.of_nat p - 1 + 1) with (Z.of_nat p) by lia. apply Z.mod_small. lia. }
    cbv zeta. rewrite (proj2 (Z.eqb_neq _ _)) by lia. exists (Before (S p)). split; [do 3 f_equal; lia|].
    exists p. split; [f_equal; lia|]. right. split; [done|lia].
Qed.

Lemma ram_seek rl bs n :
  ram_ok rl bs -> Z.of_nat (oldest rl - 1) <= n <= Z.of_nat (length bs) ->
  exists cu, Iterator rl (SeekSpecified n) = Ok (cu, n) /\ ram_reads rl cu n.
Proof.
  intros Hr Hn. pose proof (ram_len _ _ Hr). pose proof (ram_oldest _ _ Hr). pose proof (ram_heap_length _ _ Hr) as Hl.
  unfold Iterator, seek. rewrite (ram_newest _ _ Hr), (ram_number _ _ (oldest rl) Hr), (ram_number _ _ (length bs) Hr), !res_ret_bind by lia.
  assert (forall m, 0 <= m < 2 ^ 63 -> wrap64 (wrap64 (m - 1) + 1) = m) as Hw.
  { intros m Hm. unfold wrap64. rewrite Zplus_mod_idemp_l. replace (m - 1 + 1) with m by lia. apply Z.mod_small. lia. }
  rewrite !Hw, (wrap64_small (n + 1)), !(proj2 (Z.ltb_ge _ _)) by (unfold u64; lia). cbn [orb].
  destruct (Z.eqb_spec n (wrap64 (Z.of_nat (oldest rl) - 1))) as [En|Hne].
  - destruct (ram_before _ _ (oldest rl) Hr) as (cu & E & Hc); [lia|]. rewrite res_ret_bind, E. exists cu.
    destruct (oldest rl) as [|o] eqn:Eo; [change (wrap64 (Z.of_nat 0 - 1)) with (2 ^ 64 - 1) in En; lia|].
    rewrite wrap64_small in En by (unfold u64; lia). replace (Z.of_nat (S o - 1)) with n in * by lia. done.
  - assert (oldest rl <= Z.to_nat n)%nat by (destruct (oldest rl) as [|o]; [lia|]; rewrite wrap64_small in Hne by (unfold u64; lia); lia).
    rewrite <- (Z2Nat.id n) by lia. rewrite (walk_spec rl bs) by (done || lia).
    rewrite res_ret_bind, (ram_number _ _ (Z.to_nat n) Hr), !res_ret_bind by lia. unfold skip_pre_genesis. cbv zeta. rewrite Hw by lia.
    rewrite (proj2 (Z.eqb_neq _ _)) by lia. eexists. split; [done|]. exists (Z.to_nat n). split; [done|]. left. split; [done|lia].
Qed.

#[global, refine] Instance ram_reader_spec : LedgerReaderSpec ramLedger cursor := {
  lr_chain := ram_ok;
  lr_oldest rl := Z.of_nat (oldest rl - 1);
  lr_reads := ram_reads;
  lr_grows rl rl' := (length (heap rl) <= length (heap rl'))%nat
}.
Proof.
  - intros rl bs Hr. pose proof (ram_len _ _ Hr). pose proof (ram_oldest _ _ Hr). split; [apply (ram_sequence _ _ Hr)|]. lia.
  - intros rl bs Hr. pose proof (ram_len _ _ Hr). cbn. unfold Height. rewrite (ram_newest _ _ Hr), (ram_number _ _ _ Hr) by lia.
    unfold wrap64. rewrite Zplus_mod_idemp_l. replace (Z.of_nat (length bs) - 1 + 1) with (Z.of_nat (length bs)) by lia. apply Z.mod_small. lia.
  - intros rl bs Hr. pose proof (ram_oldest _ _ Hr). cbn. unfold Iterator, seek. rewrite (ram_number _ _ _ Hr), !res_ret_bind by lia.
    by apply (ram_before _ bs).
  - intros rl bs Hr Hne. assert (0 < length bs)%nat by (destruct bs; [done|cbn; lia]). cbn. unfold Iterator, seek.
    rewrite (ram_newest _ _ Hr), (ram_number _ _ _ Hr), !res_ret_bind by lia.
    destruct (ram_before _ _ (length bs) Hr) as (cu & E & Hc); [lia|].
    exists cu. rewrite E. replace (Z.of_nat (length bs - 1)) with (Z.of_nat (length bs) - 1) in * by lia. done.
  - intros rl bs n Hr Hn. by apply (ram_seek _ bs).
  - intros rl bs n Hr Hn Hlt. pose proof (ram_len _ _ Hr). pose proof (ram_oldest _ _ Hr). exists NotFound. repeat split. cbn. unfold Iterator, seek.
    rewrite (ram_newest _ _ Hr), (ram_number _ _ (oldest rl) Hr), (ram_number _ _ (length bs) Hr), !res_ret_bind by lia.
    assert (wrap64 (wrap64 (Z.of_nat (length bs) - 1) + 1) = Z.of_nat (length bs)) as ->.
    { unfold wrap64. rewrite Zplus_mod_idemp_l. replace (Z.of_nat (length bs) - 1 + 1) with (Z.of_nat (length bs)) by lia. apply Z.mod_small. lia. }
    by rewrite (proj2 (Z.ltb_lt (Z.of_nat (length bs)) n)), orb_true_r by lia.
  - intros rl bs cu n Hr Hne (p & -> & [[-> Hp]|[-> Hp]]); cbn; rewrite (ram_heap_length _ _ Hr) in Hp.
    + rewrite (ram_heap _ _ Hr). unfold ram_node. destruct (lookup_lt_is_Some_2 (preGenesis :: bs) p) as [b Hb]; [cbn; lia|]. rewrite Hb. cbn.
      apply bool_decide_ext. lia.
    + symmetry. apply bool_decide_eq_true. lia.
  - intros rl bs cu n Hr (p & -> & Hp). rewrite Nat2Z.id, (ram_heap_length _ _ Hr) in *. destruct Hp as [[-> Hp]|[-> Hp]]; cbn.
    + destruct (ram_node_lookup _ _ p Hr) as (b & En & _); [lia|]. rewrite En. cbn [sl_next]. destruct (bs !! p) as [block|] eqn:Eb.
      * pose proof (lookup_lt_Some _ _ _ Eb). rewrite decide_True by lia. rewrite (ram_block _ _ _ _ Hr Eb), res_ret_bind.
        eexists. split; [done|]. exists (S p). split; [lia|]. left. split; [done|]. rewrite (ram_heap_length _ _ Hr). lia.
      * apply lookup_ge_None in Eb. by rewrite decide_False by lia.
    + destruct (lookup_lt_is_Some_2 bs p) as [block Eb]; [lia|]. rewrite Eb, (ram_block _ _ _ _ Hr Eb), res_ret_bind.
      eexists. split; [done|]. exists (S p). split; [lia|]. left. split; [done|]. rewrite (ram_heap_length _ _ Hr). lia.
  - intros rl cu n (p & -> & _). lia.
  - intros rl rl' cu n Hg (p & -> & Hp). exists p. split; [done|]. destruct Hp as [[-> Hp]|[-> Hp]]; [left|right]; (split; [done|lia]).
  - intros rl rl' rl''. lia.
Defined.

Lemma ram_new maxSize : ram_ok (newChain maxSize) [].
Proof. split; cbn; try (done || lia). intros [|p]; cbn; [done|]. by destruct p. Qed.

Lemma in_sequence_snoc bs b : in_sequence bs -> Number (blk_Header b) = Z.of_nat (length bs) -> in_sequence (bs ++ [b]).
Proof.
  intros Hs Hn k b' Hk. apply lookup_app_Some in Hk as [Hk|[Hle Hk]]; [by apply Hs|].
  destruct (k - length bs)%nat eqn:E; [|done]. injection Hk as <-. rewrite Hn. lia.
Qed.

(** The nodes after an append. *)
Lemma append_nodes rl bs block :
  ram_ok rl bs ->
  exists b, node rl (newest rl) = Ok (mkNode None false b) /\
    forall p, (<[newest rl := mkNode (Some (length (heap rl))) true b]> (heap rl) ++ [mkNode None false block]) !! p = ram_node (bs ++ [block]) p.
Proof.
  intros Hr. pose proof (ram_heap_length _ _ Hr) as Hl. destruct (ram_node_lookup _ _ (length bs) Hr) as (b & En & _); [lia|].
  rewrite decide_False, bool_decide_eq_false_2 in En by lia. rewrite (ram_newest _ _ Hr), Hl. exists b. split; [done|]. intros p.
  unfold node in En. rewrite (ram_heap _ _ Hr) in En. unfold ram_node in En |- *.
  destruct ((preGenesis :: bs) !! length bs) as [b0|] eqn:Eb; [|done]. injection En as _ _ ->.
  change (preGenesis :: bs ++ [block]) with ((preGenesis :: bs) ++ [block]). rewrite length_app. cbn [length].
  destruct (Nat.lt_trichotomy p (length bs)) as [Hp|[->|Hp]].
  - rewrite !lookup_app_l, list_lookup_insert_ne, (ram_heap _ _ Hr) by (rewrite ?length_insert; cbn; lia). unfold ram_node.
    destruct ((preGenesis :: bs) !! p) as [b1|]; [|done]. cbn. by rewrite !decide_True, !bool_decide_eq_true_2 by lia.
  - rewrite !lookup_app_l, list_lookup_insert_eq, Eb by (rewrite ?length_insert; cbn; lia). cbn. by rewrite decide_True, bool_decide_eq_true_2 by lia.
  - rewrite !lookup_app_r by (rewrite ?length_insert; cbn; lia). rewrite length_insert, Hl. cbn [length].
    destruct (p - S (length bs))%nat as [|k] eqn:Ek; [|by destruct k].
    cbn. by rewrite decide_False, bool_decide_eq_false_2 by lia.
Qed.

Section Append.
Context `{CryptoHashSpec}.

(** The block that a chain takes next. *)
Definition follows (bs : list Block) (b : Block) : Prop :=
  Number (blk_Header b) = Z.of_nat (length bs) /\
  match last bs with Some l => header_Hash (blk_Header l) = Ok (PreviousHash (blk_Header b)) | None => True end.

#[global] Instance follows_dec bs b : Decision (follows bs b).
Proof. unfold follows. destruct (last bs); apply _. Defined.

Lemma ram_append_check rl bs block :
  ram_ok rl bs ->
  RamLedger.Append block rl =
  (if decide (follows bs block) then appendBlock block rl else
   if decide (Number (blk_Header block) = Z.of_nat (length bs)) then Err "Block should have had another previous hash"
   else Err "Block number should have been another one").
Proof.
  intros Hr. unfold RamLedger.Append. pose proof (ram_len _ _ Hr).
  destruct (ram_node_lookup _ _ (length bs) Hr) as (b & En & Hb); [lia|]. rewrite (ram_newest _ _ Hr), En, res_ret_bind. cbn [sl_block].
  assert (wrap64 (Number (blk_Header b) + 1) = Z.of_nat (length bs)) as Hw.
  { rewrite Hb. unfold wrap64. rewrite Zplus_mod_idemp_l. replace (Z.of_nat (length bs) - 1 + 1) with (Z.of_nat (length bs)) by lia. apply Z.mod_small. lia. }
  rewrite Hw. destruct (Z.eqb_spec (Number (blk_Header block)) (Z.of_nat (length bs))) as [Hn|Hn]; cbn [negb];
    [|rewrite (decide_False (P := follows _ _)) by (intros [? _]; done); by rewrite decide_False].
  destruct bs as [|b0 bs0 _] using rev_ind; cbn [length].
  { rewrite Z.eqb_refl, res_ret_bind. cbn [negb]. rewrite (decide_True (P := follows _ _)); [done|]. by split. }
  rewrite (proj2 (Z.eqb_neq _ _)) by (rewrite length_app; cbn; lia).
  assert (b = b0) as ->.
  { unfold node in En. rewrite (ram_heap _ _ Hr) in En. unfold ram_node in En. rewrite length_app, Nat.add_1_r in En.
    change ((preGenesis :: bs0 ++ [b0]) !! S (length bs0)) with ((bs0 ++ [b0]) !! length bs0) in En.
    rewrite list_lookup_middle in En by done. by injection En. }
  rewrite length_app in Hb. cbn [length] in Hb. rewrite wrap64_small in Hb by (unfold u64; rewrite length_app in *; cbn in *; lia).
  destruct (header_Hash_ok (blk_Header b0)) as (hb & _ & Hh); [rewrite length_app in *; cbn in *; lia|]. rewrite Hh, !res_ret_bind.
  clear En. case_bool_decide as Hp; cbn [negb].
  - rewrite (decide_True (P := follows _ _)); [done|]. split; [done|]. by rewrite last_snoc, Hh, Hp.
  - rewrite (decide_False (P := follows _ _)), decide_True; [done|done|]. intros [_ Hl]. apply Hp. rewrite last_snoc, Hh in Hl. by injection Hl.
Qed.

Lemma ram_append rl bs block :
  ram_ok rl bs -> follows bs block -> Z.of_nat (length bs) + 1 < 2 ^ 62 ->
  exists rl', RamLedger.Append block rl = Ok rl' /\ ram_ok rl' (bs ++ [block]) /\ lr_grows rl rl'.
Proof.
  intros Hr Hf Hlen. rewrite (ram_append_check _ _ _ Hr), decide_True by done. unfold appendBlock.
  destruct (append_nodes rl bs block Hr) as (b & En & Hnodes). rewrite En, res_ret_bind. cbn [sl_block].
  pose proof (ram_heap_length _ _ Hr) as Hl. pose proof (ram_oldest _ _ Hr) as Ho.
  assert (forall o z, (o <= S (length bs))%nat ->
    ram_ok (mkRam (maxSize rl) z (<[newest rl := mkNode (Some (length (heap rl))) true b]> (heap rl) ++ [mkNode None false block]) o (length (heap rl))) (bs ++ [block])) as Hok.
  { intros o z Hoz. split; cbn; [exact Hnodes|rewrite Hl, length_app; cbn; lia|rewrite length_app; cbn; lia| |rewrite length_app; cbn; lia].
    apply in_sequence_snoc; [apply (ram_sequence _ _ Hr)|apply Hf]. }
  destruct (_ <? _).
  - rewrite (Hnodes (oldest rl)). unfold ram_node. destruct (lookup_lt_is_Some_2 (preGenesis :: bs ++ [block]) (oldest rl)) as [bo Eo]; [cbn; rewrite length_app; cbn; lia|].
    rewrite Eo. cbn. rewrite length_app, decide_True by (cbn; lia). eexists. split; [done|]. split; [apply Hok; lia|].
    cbn. rewrite length_app, length_insert. cbn. lia.
  - eexists. split; [done|]. split; [apply Hok; lia|]. cbn. rewrite length_app, length_insert. cbn. lia.
Qed.

End Append.

End RamFacts.

(** ** The ledger in JSON files *)

Module JsonFacts.
Import JsonLedger.

Section JsonFacts.
Context `{CryptoHashSpec} `{JsonCodecSpec}.

Record json_ok (jl : jsonLedger) (bs : list Block) : Prop := {
  json_files : forall n, 0 <= n -> files jl !! n = json_Marshal <$> bs !! Z.to_nat n;
  json_negative : forall n, n < 0 -> files jl !! n = None;
  json_height : height jl = Z.of_nat (length bs);
  json_hash : match last bs with Some b => header_Hash (blk_Header b) = Ok (lastHash jl) | None => lastHash jl = [] end;
  json_sequence : in_sequence bs;
  json_len : Z.of_nat (length bs) < 2 ^ 62
}.

Lemma json_read jl bs n : json_ok jl bs -> 0 <= n -> readBlock jl n = (bs !! Z.to_nat n, bool_decide (is_Some (bs !! Z.to_nat n))).
Proof.
  intros Hj Hn. unfold readBlock. rewrite (json_files _ _ Hj) by done. destruct (bs !! Z.to_nat n) as [b|]; cbn; [|done]. by rewrite json_roundtrip.
Qed.

#[global, refine] Instance json_reader_spec : LedgerReaderSpec jsonLedger cursor := {
  lr_chain := json_ok;
  lr_oldest _ := 0;
  lr_reads _ cu n := cu = JsonCursor n /\ 0 <= n <= 2 ^ 62;
  lr_grows _ _ := True
}.
Proof.
  - intros jl bs Hj. pose proof (json_len _ _ Hj). split; [apply (json_sequence _ _ Hj)|]. lia.
  - intros jl bs Hj. apply (json_height _ _ Hj).
  - intros jl bs Hj. eexists. split; [done|]. split; [done|lia].
  - intros jl bs Hj Hne. pose proof (json_len _ _ Hj). assert (0 < length bs)%nat by (destruct bs; [done|cbn; lia]).
    cbn. rewrite (json_height _ _ Hj), wrap64_small by (unfold u64; lia). eexists. split; [done|]. split; [done|lia].
  - intros jl bs n Hj Hn. pose proof (json_len _ _ Hj). cbn. rewrite (json_height _ _ Hj), (proj2 (Z.ltb_ge _ _)) by lia.
    eexists. split; [done|]. split; [done|lia].
  - intros jl bs n Hj Hn Hlt. cbn. rewrite (json_height _ _ Hj), (proj2 (Z.ltb_lt _ _)) by lia. eexists. repeat split.
  - intros jl bs cu n Hj Hne [-> Hn]. cbn. rewrite (json_files _ _ Hj) by lia. apply bool_decide_ext. rewrite fmap_is_Some, lookup_lt_is_Some. lia.
  - intros jl bs cu n Hj [-> Hn]. cbn. rewrite (json_read _ _ _ Hj) by lia. pose proof (json_len _ _ Hj). destruct (bs !! Z.to_nat n) as [b|] eqn:Eb; [|done].
    cbn. pose proof (lookup_lt_Some _ _ _ Eb). eexists. split; [done|]. rewrite wrap64_small by (unfold u64; lia). split; [done|lia].
  - intros jl cu n [_ Hn]. lia.
  - intros jl jl' cu n _ Hr. exact Hr.
  - done.
Defined.

(** The genesis block has no previous hash. *)
Definition json_follows (bs : list Block) (b : Block) : Prop :=
  RamFacts.follows bs b /\ (bs = [] -> PreviousHash (blk_Header b) = []).

Lemma json_append jl bs block :
  json_ok jl bs -> json_follows bs block -> Z.of_nat (length bs) + 1 < 2 ^ 62 ->
  exists jl', JsonLedger.Append block jl = Ok jl' /\ json_ok jl' (bs ++ [block]).
Proof.
  intros Hj [[Hn Hp] H0'] Hlen. unfold JsonLedger.Append. rewrite (json_height _ _ Hj), Hn, Z.eqb_refl. cbn [negb].
  rewrite bool_decide_eq_true_2.
  - cbn [negb]. destruct (header_Hash_ok (blk_Header block)) as (hb & _ & Hh); [lia|]. cbv zeta. rewrite Hh, res_ret_bind.
    eexists. split; [done|]. cbn. rewrite (json_height _ _ Hj), Hn. split; cbn.
    + intros n Hnn. destruct (decide (n = Z.of_nat (length bs))) as [->|Hne].
      * rewrite lookup_insert, Nat2Z.id, decide_True, list_lookup_middle by done. done.
      * rewrite lookup_insert_ne, (json_files _ _ Hj) by done. destruct (decide (Z.to_nat n < length bs)%nat).
        { by rewrite lookup_app_l by done. }
        by rewrite !lookup_ge_None_2 by (rewrite ?length_app; cbn; lia).
    + intros n Hnn. rewrite lookup_insert_ne by lia. by apply (json_negative _ _ Hj).
    + rewrite length_app, wrap64_small by (unfold u64; lia). cbn. lia.
    + by rewrite last_snoc.
    + apply RamFacts.in_sequence_snoc; [apply (json_sequence _ _ Hj)|done].
    + rewrite length_app. cbn. lia.
  - pose proof (json_hash _ _ Hj) as Hl. destruct (last bs) as [b|] eqn:El.
    + rewrite Hl in Hp. by injection Hp.
    + rewrite Hl. apply H0'. by apply last_None.
Qed.

Lemma listing_seq jl bs : json_ok jl bs -> listing (files jl) = seqZ 0 (Z.of_nat (length bs)).
Proof.
  intros Hj. apply (StronglySorted_unique Z.le).
  - apply Sorted_StronglySorted; [apply _|]. apply Sorted_merge_sort. apply _.
  - apply Sorted_StronglySorted; [apply _|]. change 0 with (Z.of_nat 0). generalize O. induction (length bs) as [|n IH]; intros m; [constructor|].
    rewrite seqZ_cons by lia. replace (Z.pred (Z.of_nat (S n))) with (Z.of_nat n) by lia. replace (Z.succ (Z.of_nat m)) with (Z.of_nat (S m)) by lia.
    constructor; [apply IH|]. destruct n as [|n]; [constructor|]. rewrite seqZ_cons by lia. constructor. lia.
  - unfold listing. rewrite merge_sort_Permutation. apply NoDup_Permutation; [apply NoDup_fst_map_to_list|apply NoDup_seqZ|].
    intros n. rewrite elem_of_seqZ, list_elem_of_fmap. split.
    + intros ([n' f] & -> & Hin%elem_of_map_to_list). cbn. destruct (decide (n' < 0)); [by rewrite (json_negative _ _ Hj) in Hin|].
      rewrite (json_files _ _ Hj) in Hin by lia. apply fmap_Some in Hin as (b & Hb%lookup_lt_Some & _). lia.
    + intros Hn. destruct (lookup_lt_is_Some_2 bs (Z.to_nat n)) as [b Hb]; [lia|]. exists (n, json_Marshal b). split; [done|].
      apply elem_of_map_to_list. by rewrite (json_files _ _ Hj), Hb by lia.
Qed.

Lemma count_files_seq n m : (Z.of_nat m + Z.of_nat n < 2 ^ 62) -> count_files (seqZ (Z.of_nat m) (Z.of_nat n)) (Z.of_nat m) = Ok (Z.of_nat (m + n)).
Proof.
  revert m. induction n as [|n IH]; intros m Hm; [by rewrite Nat.add_0_r|]. rewrite seqZ_cons by lia. cbn [count_files]. rewrite Z.eqb_refl.
  rewrite wrap64_small by (unfold u64; lia). replace (Z.pred (Z.of_nat (S n))) with (Z.of_nat n) by lia.
  replace (Z.succ (Z.of_nat m)) with (Z.of_nat (S m)) by lia. replace (Z.of_nat m + 1) with (Z.of_nat (S m)) by lia. rewrite IH by lia. do 2 f_equal. lia.
Qed.

(** A ledger is opened again as it was. *)
Lemma json_reopen jl bs : json_ok jl bs -> newChain (files jl) = Ok jl.
Proof.
  intros Hj. pose proof (json_len _ _ Hj). unfold newChain. rewrite (listing_seq _ _ Hj).
  pose proof (count_files_seq (length bs) 0 ltac:(lia)) as Hc. change (Z.of_nat 0) with 0 in Hc. rewrite Hc, res_ret_bind. clear Hc. cbn [Nat.add].
  destruct bs as [|b bs _] using rev_ind.
  - cbn. pose proof (json_hash _ _ Hj) as Hh. pose proof (json_height _ _ Hj) as Hl. cbn in *. by destruct jl; cbn in *; subst.
  - rewrite (proj2 (Z.eqb_neq _ _)) by (rewrite length_app; cbn; lia). unfold readBlock. cbn [files].
    rewrite (json_files _ _ Hj) by (rewrite length_app; cbn; lia). rewrite length_app in *. cbn [length] in *.
    replace (Z.to_nat (Z.of_nat (length bs + 1) - 1)) with (length bs) by lia. rewrite list_lookup_middle by done. cbn. rewrite json_roundtrip.
    pose proof (json_hash _ _ Hj) as Hh. rewrite last_snoc in Hh. rewrite Hh, res_ret_bind. pose proof (json_height _ _ Hj) as Hl.
    rewrite length_app in Hl. cbn [length] in Hl. by rewrite <- Hl; destruct jl.
Qed.

End JsonFacts.
End JsonFacts.
