(* ===== verification/Deliver.v ===== *)
(** * Delivering the blocks of a channel

    orderer/common/deliver/deliver.go: the service that streams the blocks of a
    channel to a client.  The stream of a client is a machine whose events are a
    request and a look of the loop at the channel, which changes in between. *)

From stdpp Require Import base gmap strings list.
From Stdlib Require Import Ascii ZArith Lia.
From S2P Require Import Prelude Proto BlockMgr CAuthDSL Policies ConfigTx Filters OrdererChain OrdererLedgers.
Import ProtoUtils Policies ConfigManager OrdererLedger.
Local Open Scope Z_scope.

(** ** ab.pb.go *)

Inductive SeekBehavior := BLOCK_UNTIL_READY | FAIL_IF_NOT_READY | OtherBehavior (n : Z).

Record SeekInfo := mkSeekInfo {
  seek_Start : option SeekPosition;
  seek_Stop : option SeekPosition;
  seek_Behavior : SeekBehavior
}.

Inductive DeliverResponse := ReplyStatus (status : Status) | ReplyBlock (block : Block).

(** The generated code. *)
Class SeekCodec := {
  marshal_SeekInfo : SeekInfo -> bytes;
  unmarshal_SeekInfo : bytes -> res SeekInfo
}.

Class SeekCodecSpec `{SeekCodec} : Prop := { SeekInfo_roundtrip s : unmarshal_SeekInfo (marshal_SeekInfo s) = Ok s }.

(** ** deliver.go *)

Module Deliver.
Section Deliver.
Context {B It : Type} `{LedgerReader B It}.
Context `{ProtoCodec} `{SignatureCodec} `{SeekCodec}.

(** A channel at one time: whether the consenter has failed since the delivery
    started, the configuration, and the ledger. *)
Record support := mkSupport { sp_errored : bool; sp_config : configManager; sp_ledger : B }.

(** The loop of a request. *)
Record delivery := mkDelivery {
  dl_envelope : Envelope;
  dl_behavior : SeekBehavior;
  dl_cursor : It;
  dl_stopNum : Z;
  dl_lastConfigSequence : Z
}.

(** Waiting for a request, in the loop of one, or returned. *)
Inductive server := AwaitSeek | Sending (d : delivery) | Returned.

(** The reply ends the stream. *)
Definition refuse (status : Status) : res (server * list DeliverResponse) := Ok (Returned, [ReplyStatus status]).

Definition authorized (envelope : Envelope) (cm : configManager) : res bool :=
  action ← Filter.sigFilter ChannelReaders envelope cm;
  Ok match action with Filter.Forward => true | _ => false end.

(** Where to stop; the height is read after the iterator was made.  [None]: the
    end is before the start. *)
Definition stop_number (stop : SeekPosition) (number : Z) (later : support) : option Z :=
  match stop with
  | SeekOldest => Some number
  | SeekNewest => Some (wrap64 (rd_Height (sp_ledger later) - 1))
  | SeekSpecified n => if n <? number then None else Some n
  | SeekUnknown => Some 0
  end.

(** A request on the channels of the orderer. *)
Definition receive (GetChain later : string -> option support) (envelope : Envelope) : res (server * list DeliverResponse) :=
  match unmarshal_Payload (env_Payload envelope) with
  | Err _ => refuse BAD_REQUEST
  | Panic m => Panic m
  | OutOfFuel => OutOfFuel
  | Ok payload =>
      match pl_Header payload with
      | None => refuse BAD_REQUEST
      | Some hdr =>
          match UnmarshalChannelHeader (hdr_ChannelHeader hdr) with
          | Err _ => refuse BAD_REQUEST
          | Panic m => Panic m
          | OutOfFuel => OutOfFuel
          | Ok chdr =>
              match GetChain (ch_ChannelId chdr) with
              | None => refuse NOT_FOUND
              | Some chain =>
                  if sp_errored chain then refuse SERVICE_UNAVAILABLE
                  else
                    ok ← authorized envelope (sp_config chain);
                    if negb ok then refuse FORBIDDEN
                    else
                      match unmarshal_SeekInfo (pl_Data payload) with
                      | Err _ => refuse BAD_REQUEST
                      | Panic m => Panic m
                      | OutOfFuel => OutOfFuel
                      | Ok (mkSeekInfo (Some start) (Some stop) behavior) =>
                          '(cursor, number) ← rd_Iterator (sp_ledger chain) start;
                          match stop_number stop number (default chain (later (ch_ChannelId chdr))) with
                          | None => refuse BAD_REQUEST
                          | Some stopNum => Ok (Sending (mkDelivery envelope behavior cursor stopNum (Sequence (sp_config chain))), [])
                          end
                      | Ok _ => refuse BAD_REQUEST
                      end
              end
          end
      end
  end.

(** The select of the loop: to go on, to wait, or the status to end with.
    [abort]: what is taken when both channels are ready. *)
Inductive selected := Go | Wait | End_ (status : Status).

Definition select (d : delivery) (chain : support) (abort : bool) : selected :=
  let ready := rd_ready (sp_ledger chain) (dl_cursor d) in
  match dl_behavior d with
  | BLOCK_UNTIL_READY =>
      if sp_errored chain && (abort || negb ready) then End_ SERVICE_UNAVAILABLE
      else if ready then Go else Wait
  | _ => if ready then Go else End_ NOT_FOUND
  end.

(** The loop after the select, when the client is authorized still. *)
Definition send_next (d : delivery) (chain : support) (sent : bool * bool) (lastConfigSequence : Z) : res (server * list DeliverResponse) :=
  '(cursor, block, status) ← wait (rd_Next (sp_ledger chain) (dl_cursor d));
  match status, block with
  | SUCCESS, Some block =>
      if negb sent.1 then Ok (Returned, [])
      else if dl_stopNum d =? Number (blk_Header block) then
        Ok (if sent.2 then (AwaitSeek, [ReplyBlock block; ReplyStatus SUCCESS]) else (Returned, [ReplyBlock block]))
      else Ok (Sending (mkDelivery (dl_envelope d) (dl_behavior d) cursor (dl_stopNum d) lastConfigSequence), [ReplyBlock block])
  | SUCCESS, None => Panic "nil pointer dereference"
  | _, _ => refuse status
  end.

(** One round of the loop.  [sent]: whether sending the block, and the status
    after the last one, succeeds. *)
Definition look (d : delivery) (chain : support) (abort : bool) (sent : bool * bool) : res (server * list DeliverResponse) :=
  match select d chain abort with
  | Wait => Ok (Sending d, [])
  | End_ status => refuse status
  | Go =>
      let currentConfigSequence := Sequence (sp_config chain) in
      if dl_lastConfigSequence d <? currentConfigSequence then
        ok ← authorized (dl_envelope d) (sp_config chain);
        if negb ok then refuse FORBIDDEN else send_next d chain sent currentConfigSequence
      else send_next d chain sent (dl_lastConfigSequence d)
  end.

(** [None]: the client hung up, or the stream failed. *)
Inductive event :=
| Request (GetChain later : string -> option support) (envelope : option Envelope)
| Look (chain : support) (abort : bool) (sent : bool * bool).

Definition step (s : server) (e : event) : res (server * list DeliverResponse) :=
  match s, e with
  | AwaitSeek, Request GetChain later (Some envelope) => receive GetChain later envelope
  | AwaitSeek, Request _ _ None => Ok (Returned, [])
  | Sending d, Look chain abort sent => look d chain abort sent
  | _, _ => Ok (s, [])
  end.

(** [Handle]: the replies to a client. *)
Fixpoint Handle (es : list event) (s : server) : res (server * list DeliverResponse) :=
  match es with
  | [] => Ok (s, [])
  | e :: es => '(s, replies) ← step s e; '(s, more) ← Handle es s; Ok (s, replies ++ more)
  end.

End Deliver.
Arguments server : clear implicits.
Arguments delivery : clear implicits.
Arguments support : clear implicits.
Arguments event : clear implicits.
End Deliver.
