(* ===== verification/DeliverTheorems.v ===== *)
(** * What the delivery service sends

    Over any ledger that keeps the promise of [LedgerReaderSpec], a client gets
    the blocks that it asked for, in order and without gaps. *)

From stdpp Require Import base gmap strings list.
From Stdlib Require Import Ascii ZArith Lia.
From S2P Require Import Prelude Proto BlockHash BlockMgr CAuthDSL Policies ConfigTx Filters OrdererChain OrdererLedgers OrdererLedgerFacts Deliver.
From S2P Require Import EndorserTheorems.
Import ProtoUtils Policies ConfigManager OrdererLedger Deliver.
Local Open Scope Z_scope.

Module DeliverFacts.
Section DeliverFacts.
Context {B It : Type} `{LedgerReaderSpec B It}.
Context `{ProtoCodec} `{SignatureCodec} `{SeekCodec}.

Implicit Types (d : delivery It) (w : support B).

(** A look of the loop: the channel, the choice, and what is sent. *)
Local Abbreviation looked := (support B * bool * (bool * bool))%type.

Definition look_event (x : looked) : event B := Look x.1.1 x.1.2 x.2.

(** The ledgers of the looks have parts of the chain [bs], one after the other. *)
Fixpoint looking (bs : list Block) (l : B) (xs : list looked) : Prop :=
  match xs with
  | [] => True
  | x :: xs =>
      lr_grows l (sp_ledger x.1.1) /\
      (exists k, lr_chain (sp_ledger x.1.1) (take (S k) bs) /\ take (S k) bs <> []) /\ looking bs (sp_ledger x.1.1) xs
  end.

(** The client stays authorized, the consenter works, and sending succeeds. *)
Definition calm (envelope : Envelope) (x : looked) : Prop :=
  sp_errored x.1.1 = false /\ authorized envelope (sp_config x.1.1) = Ok true /\ x.2 = (true, true).

Definition blocks (bs : list Block) (n : Z) (k : nat) : list DeliverResponse := ReplyBlock <$> take k (drop (Z.to_nat n) bs).

Lemma blocks_S bs n k b :
  0 <= n -> bs !! Z.to_nat n = Some b -> blocks bs n (S k) = ReplyBlock b :: blocks bs (n + 1) k.
Proof.
  intros Hn Hb. unfold blocks. rewrite (drop_S _ _ _ Hb). by replace (Z.to_nat (n + 1)) with (S (Z.to_nat n)) by lia.
Qed.

Lemma lookup_part (bs : list Block) k n b : take k bs !! n = Some b -> bs !! n = Some b /\ (n < k)%nat.
Proof. intros Hb. apply lookup_take_Some in Hb as [? ?]. done. Qed.

(** What one look can do to a delivery that is at the block [n]. *)
Inductive look_result (bs : list Block) d w (n : Z) : server It * list DeliverResponse -> Prop :=
| lr_wait : look_result bs d w n (Sending d, [])
| lr_end st : st <> SUCCESS -> look_result bs d w n (Returned, [ReplyStatus st])
| lr_lost : look_result bs d w n (Returned, [])
| lr_block b c q : bs !! Z.to_nat n = Some b -> n <> dl_stopNum d -> lr_reads (sp_ledger w) c (n + 1) ->
    look_result bs d w n (Sending (mkDelivery (dl_envelope d) (dl_behavior d) c (dl_stopNum d) q), [ReplyBlock b])
| lr_last b : bs !! Z.to_nat n = Some b -> n = dl_stopNum d -> look_result bs d w n (AwaitSeek, [ReplyBlock b; ReplyStatus SUCCESS])
| lr_last_lost b : bs !! Z.to_nat n = Some b -> n = dl_stopNum d -> look_result bs d w n (Returned, [ReplyBlock b]).

Lemma send_next_cases bs d w n k sent q r :
  lr_chain (sp_ledger w) (take k bs) -> lr_reads (sp_ledger w) (dl_cursor d) n ->
  send_next d w sent q = Ok r -> look_result bs d w n r.
Proof.
  intros Hc Hr E. pose proof (lr_next _ _ _ _ Hc Hr) as Hn. pose proof (lr_position _ _ _ Hr) as Hpos.
  unfold send_next in E. destruct (take k bs !! Z.to_nat n) as [b|] eqn:Eb; [|by rewrite Hn in E].
  destruct Hn as (i' & En & Hi). rewrite En in E. cbn [wait] in E. rewrite res_ret_bind in E.
  pose proof (proj1 (lr_numbers _ _ Hc) _ _ Eb) as Hnum. rewrite Z2Nat.id in Hnum by done. rewrite Hnum in E.
  apply lookup_part in Eb as [Eb _]. destruct (negb sent.1); [injection E as <-; constructor|].
  destruct (Z.eqb_spec (dl_stopNum d) n) as [Hs|Hs]; injection E as <-.
  - destruct sent.2; [by apply lr_last|by apply lr_last_lost].
  - by apply lr_block.
Qed.

Lemma look_cases bs d w n k abort sent r :
  lr_chain (sp_ledger w) (take k bs) -> lr_reads (sp_ledger w) (dl_cursor d) n ->
  look d w abort sent = Ok r -> look_result bs d w n r.
Proof.
  intros Hc Hr E. unfold look in E. destruct (select d w abort) as [| |st] eqn:Es.
  - destruct (_ <? _); [|by eapply send_next_cases].
    apply res_bind_Ok in E as (ok & _ & E). destruct ok; cbn [negb] in E; [by eapply send_next_cases|]. injection E as <-. by constructor.
  - injection E as <-. constructor.
  - injection E as <-. constructor. intros ->. unfold select in Es. repeat case_match; congruence.
Qed.

(** *** Nothing but the blocks that follow, in order *)

Lemma Handle_ended es : Forall (fun e => exists x, e = look_event x) es -> forall s, (forall d, s <> Sending d) ->
  Handle (B := B) (It := It) es s = Ok (s, []).
Proof.
  induction 1 as [|e es [x ->] Hes IH]; intros s Hs; [done|]. cbn [Handle].
  assert (step s (look_event x) = Ok (s, [])) as -> by (destruct s as [|d|]; [done|by destruct (Hs d)|done]).
  by rewrite res_ret_bind, IH.
Qed.

Lemma looks_Forall xs : Forall (fun e => exists x, e = look_event x) (look_event <$> xs).
Proof. apply Forall_fmap, Forall_true. intros x. by exists x. Qed.

Lemma Handle_cons s r s1 es : (Handle (B := B) (It := It) es s1 = Ok (s, r)) ->
  forall s0 e rs, step s0 e = Ok (s1, rs) -> Handle (e :: es) s0 = Ok (s, rs ++ r).
Proof. intros E s0 e rs Es. cbn [Handle]. by rewrite Es, res_ret_bind, E, res_ret_bind. Qed.

(** The replies to a delivery that is at [n]: the next [k] blocks, and at most
    one status behind them, which is a success only after the last block. *)
Definition in_order (bs : list Block) (n stop : Z) (rs : list DeliverResponse) : Prop :=
  exists k tail, rs = blocks bs n k ++ tail /\ (k = 0%nat \/ n + Z.of_nat k <= stop + 1 \/ stop < n) /\
    (tail = [] \/ exists st, tail = [ReplyStatus st] /\ (st = SUCCESS -> n + Z.of_nat k = stop + 1)).

Lemma deliver_safe bs l d n xs s rs :
  lr_reads l (dl_cursor d) n -> looking bs l xs -> Handle (look_event <$> xs) (Sending d) = Ok (s, rs) ->
  in_order bs n (dl_stopNum d) rs.
Proof.
  revert l d n rs. induction xs as [|x xs IH]; intros l d n rs Hr Hl E.
  { injection E as <- <-. exists O, []. split; [done|]. split; [by left|by left]. }
  destruct Hl as (Hg & (k & Hc & _) & Hl). cbn [fmap list_fmap Handle] in E. apply res_bind_Ok in E as ([s1 r1] & Es & E).
  apply res_bind_Ok in E as ([s2 r2] & Eh & E). injection E as -> <-.
  pose proof (lr_stable _ _ _ _ Hg Hr) as Hr'. pose proof (lr_position _ _ _ Hr) as Hpos.
  cbn [look_event step] in Es. apply (look_cases bs _ _ n (S k)) in Es; [|done..]. inversion Es as [|st Hst| |b c q Hb Hne Hrc|b Hb Heq|b Hb Heq]; subst s1 r1; clear Es.
  - by apply (IH _ _ _ _ Hr' Hl).
  - rewrite Handle_ended in Eh by (done || apply looks_Forall). injection Eh as <- <-. exists O, [ReplyStatus st].
    split; [done|]. split; [by left|]. right. by exists st.
  - rewrite Handle_ended in Eh by (done || apply looks_Forall). injection Eh as <- <-. exists O, []. split; [done|]. split; [by left|by left].
  - destruct (IH _ (mkDelivery (dl_envelope d) (dl_behavior d) c (dl_stopNum d) q) _ _ Hrc Hl Eh) as (j & tail & -> & Hj & Ht). cbn [dl_stopNum] in *. exists (S j), tail.
    rewrite (blocks_S _ _ _ b) by done. split; [done|]. split; [lia|]. destruct Ht as [->|(st & -> & Hst)]; [by left|]. right. exists st. split; [done|].
    intros Hs. specialize (Hst Hs). lia.
  - rewrite Handle_ended in Eh by (done || apply looks_Forall). injection Eh as <- <-. exists 1%nat, [ReplyStatus SUCCESS].
    rewrite (blocks_S _ _ _ b) by done. split; [done|]. split; [lia|]. right. exists SUCCESS. split; [done|]. lia.
  - rewrite Handle_ended in Eh by (done || apply looks_Forall). injection Eh as <- <-. exists 1%nat, [].
    rewrite (blocks_S _ _ _ b) by done. split; [done|]. split; [lia|by left].
Qed.

(** *** All of them *)

(** The looks at a ledger that has the block [stop]. *)
Definition full (stop : Z) (xs : list looked) : list looked := filter (fun x => stop < rd_Height (sp_ledger x.1.1)) xs.

Lemma calm_look bs d x n k :
  calm (dl_envelope d) x -> dl_behavior d = BLOCK_UNTIL_READY -> take (S k) bs <> [] ->
  lr_chain (sp_ledger x.1.1) (take (S k) bs) -> lr_reads (sp_ledger x.1.1) (dl_cursor d) n ->
  match take (S k) bs !! Z.to_nat n with
  | None => step (Sending d) (look_event x) = Ok (Sending d, [])
  | Some b =>
      if decide (n = dl_stopNum d) then step (Sending d) (look_event x) = Ok (AwaitSeek, [ReplyBlock b; ReplyStatus SUCCESS])
      else exists c q, lr_reads (sp_ledger x.1.1) c (n + 1) /\
        step (Sending d) (look_event x) = Ok (Sending (mkDelivery (dl_envelope d) BLOCK_UNTIL_READY c (dl_stopNum d) q), [ReplyBlock b])
  end.
Proof.
  intros (He & Ha & Hs) Hb Hne Hc Hr. cbn [look_event step]. unfold look, select. rewrite Hb, He, Hs, (lr_ready _ _ _ _ Hc Hne Hr). cbn [andb].
  pose proof (lr_position _ _ _ Hr) as Hpos. pose proof (lr_next _ _ _ _ Hc Hr) as Hn.
  destruct (take (S k) bs !! Z.to_nat n) as [b|] eqn:Eb.
  - pose proof (lookup_lt_Some _ _ _ Eb). rewrite bool_decide_eq_true_2 by lia. destruct Hn as (c & En & Hrc).
    pose proof (proj1 (lr_numbers _ _ Hc) _ _ Eb) as Hnum. rewrite Z2Nat.id in Hnum by done.
    assert (forall q, send_next d x.1.1 (true, true) q = Ok (if decide (n = dl_stopNum d) then (AwaitSeek, [ReplyBlock b; ReplyStatus SUCCESS])
              else (Sending (mkDelivery (dl_envelope d) BLOCK_UNTIL_READY c (dl_stopNum d) q), [ReplyBlock b]))) as Hsend.
    { intros q. unfold send_next. rewrite En. cbn [wait]. rewrite res_ret_bind, Hnum, Hb. cbn. case_decide as Hd.
      - by rewrite Hd, Z.eqb_refl.
      - by rewrite (proj2 (Z.eqb_neq _ _)) by congruence. }
    rewrite !Hsend, Ha, res_ret_bind. cbn [negb]. case_decide; [by destruct (_ <? _)|].
    destruct (_ <? _); eauto.
  - apply lookup_ge_None in Eb. by rewrite bool_decide_eq_false_2 by lia.
Qed.

Lemma deliver_live bs l d n xs :
  lr_reads l (dl_cursor d) n -> looking bs l xs -> Forall (calm (dl_envelope d)) xs -> dl_behavior d = BLOCK_UNTIL_READY ->
  n <= dl_stopNum d -> dl_stopNum d - n < Z.of_nat (length (full (dl_stopNum d) xs)) ->
  Handle (look_event <$> xs) (Sending d) = Ok (AwaitSeek, blocks bs n (Z.to_nat (dl_stopNum d - n + 1)) ++ [ReplyStatus SUCCESS]).
Proof.
  revert l d n. induction xs as [|x xs IH]; intros l d n Hr Hl Hc Hb Hn Hf; [cbn in Hf; lia|].
  apply Forall_cons in Hc as [Hx Hc]. destruct Hl as (Hg & (k & Hch & Hne) & Hl).
  pose proof (lr_stable _ _ _ _ Hg Hr) as Hr'. pose proof (lr_position _ _ _ Hr) as Hpos.
  pose proof (calm_look bs d x n k Hx Hb Hne Hch Hr') as Hstep. change (full (dl_stopNum d) (x :: xs)) with
    (filter (fun x => dl_stopNum d < rd_Height (sp_ledger x.1.1)) (x :: xs)) in Hf. rewrite filter_cons in Hf.
  change (look_event <$> x :: xs) with (look_event x :: (look_event <$> xs)). destruct (take (S k) bs !! Z.to_nat n) as [b|] eqn:Eb.
  - apply lookup_part in Eb as [Eb _]. destruct (decide (n = dl_stopNum d)) as [Hd|Hd].
    + rewrite (Handle_cons _ _ _ _ (Handle_ended _ (looks_Forall xs) AwaitSeek ltac:(done)) _ _ _ Hstep), app_nil_r. rewrite <- Hd, Z.sub_diag.
      change (Z.to_nat (0 + 1)) with 1%nat. by rewrite (blocks_S _ _ _ b).
    + destruct Hstep as (c & q & Hrc & Hstep).
      assert (Handle (look_event <$> xs) (Sending (mkDelivery (dl_envelope d) BLOCK_UNTIL_READY c (dl_stopNum d) q)) = _) as E
        by (apply (IH (sp_ledger x.1.1) (mkDelivery (dl_envelope d) BLOCK_UNTIL_READY c (dl_stopNum d) q) (n + 1)); try done;
            cbn [dl_stopNum]; [lia|]; unfold full; case_decide; cbn [length] in Hf; lia).
      rewrite (Handle_cons _ _ _ _ E _ _ _ Hstep). cbn [dl_stopNum].
      replace (Z.to_nat (dl_stopNum d - n + 1)) with (S (Z.to_nat (dl_stopNum d - (n + 1) + 1))) by lia. by rewrite (blocks_S _ _ _ b).
  - rewrite decide_False in Hf by (rewrite (lr_height _ _ Hch); apply lookup_ge_None in Eb; lia).
    rewrite (Handle_cons _ _ _ _ (IH (sp_ledger x.1.1) d n Hr' Hl Hc Hb Hn Hf) _ _ _ Hstep). done.
Qed.

(** The request of a client for the blocks of a channel. *)
Definition requested (envelope : Envelope) (channel : string) (info : SeekInfo) : Prop :=
  exists payload hdr chdr, unmarshal_Payload (env_Payload envelope) = Ok payload /\ pl_Header payload = Some hdr /\
    UnmarshalChannelHeader (hdr_ChannelHeader hdr) = Ok chdr /\ ch_ChannelId chdr = channel /\ unmarshal_SeekInfo (pl_Data payload) = Ok info.

Lemma receive_requested GetChain later envelope channel chain bs n m behavior :
  requested envelope channel (mkSeekInfo (Some (SeekSpecified n)) (Some (SeekSpecified m)) behavior) -> n <= m ->
  GetChain channel = Some chain -> sp_errored chain = false -> authorized envelope (sp_config chain) = Ok true ->
  lr_chain (sp_ledger chain) bs -> lr_oldest (sp_ledger chain) <= n <= Z.of_nat (length bs) ->
  exists c q, lr_reads (sp_ledger chain) c n /\
    step (It := It) AwaitSeek (Request GetChain later (Some envelope)) = Ok (Sending (mkDelivery envelope behavior c m q), []).
Proof.
  intros (payload & hdr & chdr & Ep & Eh & Ec & Ech & Es) Hnm Hg He Ha Hc Hn. cbn [step]. unfold receive.
  rewrite Ep, Eh, Ec, Ech, Hg, He, Ha, res_ret_bind. cbn [negb]. rewrite Es.
  destruct (lr_seek _ _ n Hc Hn) as (c & Ei & Hr). rewrite Ei, res_ret_bind. cbn [stop_number]. rewrite (proj2 (Z.ltb_ge _ _)) by lia. eauto.
Qed.

End DeliverFacts.
End DeliverFacts.

(** ** The theorem *)

Module DeliverTheorems.
Import DeliverFacts.

Section DeliverTheorems.
Context {B It : Type} `{LedgerReaderSpec B It}.
Context `{ProtoCodec} `{SignatureCodec} `{SeekCodec}.

(** C16: Delivery.  A client that is authorized asks, with the behavior
    [BLOCK_UNTIL_READY], for the blocks from [n] to [m] of a channel whose
    consenter works, where [n] is not before the oldest block that the ledger
    delivers and not beyond its height; the ledger grows to the chain [bs] while
    the orderer looks at it.  Whatever happens then to the consenter, to the
    configuration and to the stream, the client gets blocks of the chain from [n]
    on, in order and without a gap, none behind [m], and at most one status after
    them, which tells success only behind the block [m].  If besides the consenter
    keeps working, the client stays authorized and the stream holds, and the
    orderer has looked at a ledger with the block [m] more than [m - n] times, the
    client has got all of them and the status of success. *)
Theorem blocks_delivered GetChain later envelope channel chain k bs n m (xs : list (support B * bool * (bool * bool))) :
  requested envelope channel (mkSeekInfo (Some (SeekSpecified n)) (Some (SeekSpecified m)) BLOCK_UNTIL_READY) -> n <= m ->
  GetChain channel = Some chain -> sp_errored chain = false -> authorized envelope (sp_config chain) = Ok true ->
  lr_chain (sp_ledger chain) (take k bs) -> lr_oldest (sp_ledger chain) <= n <= Z.of_nat (length (take k bs)) ->
  looking bs (sp_ledger chain) xs ->
  (forall s rs, Handle (It := It) (Request GetChain later (Some envelope) :: (look_event <$> xs)) AwaitSeek = Ok (s, rs) -> in_order bs n m rs) /\
  (Forall (calm envelope) xs -> m - n < Z.of_nat (length (full m xs)) ->
   Handle (It := It) (Request GetChain later (Some envelope) :: (look_event <$> xs)) AwaitSeek =
   Ok (AwaitSeek, blocks bs n (Z.to_nat (m - n + 1)) ++ [ReplyStatus SUCCESS])).
Proof.
  intros Hq Hnm Hg He Ha Hc Hn Hl. destruct (receive_requested GetChain later _ _ _ _ _ _ _ Hq Hnm Hg He Ha Hc Hn) as (c & q & Hr & Es). split.
  - intros s rs E. cbn [Handle] in E. rewrite Es, res_ret_bind in E. apply res_bind_Ok in E as ([s1 r1] & E & Er). injection Er as <- <-.
    by apply (deliver_safe bs (sp_ledger chain) (mkDelivery envelope BLOCK_UNTIL_READY c m q) n xs s1).
  - intros Hcalm Hf. by rewrite (Handle_cons _ _ _ _ (deliver_live bs (sp_ledger chain) (mkDelivery envelope BLOCK_UNTIL_READY c m q) n xs Hr Hl Hcalm eq_refl Hnm Hf) _ _ _ Es).
Qed.

End DeliverTheorems.
End DeliverTheorems.

(** ** A channel with a ledger in memory *)

Module DeliverDemo.
Import FieldCodec RamLedger RamFacts DeliverFacts.

#[export] Instance demo_seek : SeekCodec := {
  marshal_SeekInfo _ := [];
  unmarshal_SeekInfo b :=
    match b with
    | [n; m] => Ok (mkSeekInfo (Some (SeekSpecified (byte_val n))) (Some (SeekSpecified (byte_val m))) BLOCK_UNTIL_READY)
    | _ => Err "proto: SeekInfo"
    end
}.

#[export] Instance plain_hash : CryptoHash := { bccsp_Hash b := Ok b }.

#[export] Instance plain_hash_spec : CryptoHashSpec := { sha256 b := b; bccsp_Hash_spec _ := eq_refl }.

(** A chain of [n] blocks. *)
Fixpoint demo_chain (n : nat) : list Block :=
  match n with
  | O => []
  | S n =>
      let bs := demo_chain n in
      let prev := match last bs with Some b => match BlockHash.header_Hash (blk_Header b) with Ok h => h | _ => [] end | None => [] end in
      bs ++ [mkBlock (mkBlockHeader (Z.of_nat n) prev []) [] []]
  end.

Fixpoint demo_ledger (n : nat) : ramLedger :=
  match n with
  | O => newChain 2
  | S n => match RamLedger.Append (List.last (demo_chain (S n)) preGenesis) (demo_ledger n) with Ok l => l | _ => demo_ledger n end
  end.

Lemma demo_ledger_ok n : (n <= 4)%nat -> ram_ok (demo_ledger n) (demo_chain n).
Proof.
  assert (forall k b, ram_ok (demo_ledger k) (demo_chain k) -> demo_chain (S k) = demo_chain k ++ [b] -> follows (demo_chain k) b ->
    Z.of_nat (length (demo_chain k)) + 1 < 2 ^ 62 -> ram_ok (demo_ledger (S k)) (demo_chain (S k))) as Hs.
  { intros k b Hk Hb Hf Hl. destruct (ram_append _ _ _ Hk Hf Hl) as (l & El & Hok & _). cbn [demo_ledger]. rewrite Hb, List.last_last, El. done. }
  assert (forall k, (k < 4)%nat -> ram_ok (demo_ledger k) (demo_chain k) -> ram_ok (demo_ledger (S k)) (demo_chain (S k))) as Hk.
  { intros k Hk Hr. destruct k as [|[|[|[|k]]]]; [..|lia]; (eapply Hs; [exact Hr|reflexivity|apply (bool_decide_unpack _); by vm_compute|by vm_compute]). }
  induction n as [|n IH]; intros Hn; [apply ram_new|]. apply Hk; [lia|]. apply IH. lia.
Qed.

Definition demo_policies : ManagerImpl := mkManager "Channel" (mkPolicyConfig {[ "Readers" := ImpPolicy (mkImplicitMeta "Readers" ANY) 0 [] ]} [] []) None.

Definition demo_config : configManager := mkConfigManager demo_policies (mkConfigSet "ch" 1 ∅ (mkConfigEnvelope None None)).

Definition demo_support (n : nat) : support ramLedger := mkSupport false demo_config (demo_ledger n).

Definition demo_channel_header : ChannelHeader := mkChannelHeader CONFIG_UPDATE 0 "ch" "" 0 [].

Definition demo_header : Header := mkHeader (put demo_channel_header) (put (mkSignatureHeader [] [])).

Definition demo_request : Envelope := mkEnvelope (put (mkPayload (Some demo_header) [uint8 1; uint8 3])) [].

Lemma demo_requested : requested demo_request "ch" (mkSeekInfo (Some (SeekSpecified 1)) (Some (SeekSpecified 3)) BLOCK_UNTIL_READY).
Proof.
  exists (mkPayload (Some demo_header) [uint8 1; uint8 3]), demo_header, demo_channel_header.
  split; [by vm_compute|]. split; [done|]. split; [by vm_compute|]. split; [done|by vm_compute].
Qed.

(** Two looks at a ledger with two blocks, and three after it has four. *)
Definition demo_looks : list (support ramLedger * bool * (bool * bool)) :=
  (fun n => (demo_support n, true, (true, true))) <$> [2; 2; 4; 4; 4]%nat.

End DeliverDemo.

Module DeliverWitnesses.
Import FieldCodec RamLedger RamFacts DeliverFacts DeliverTheorems DeliverDemo.

Lemma demo_part n : (n <= 4)%nat -> demo_chain n = take n (demo_chain 4).
Proof. intros Hn. destruct n as [|[|[|[|[|n]]]]]; [..|lia]; by vm_compute. Qed.

Lemma demo_support_ok n : (n <= 4)%nat -> lr_chain (sp_ledger (demo_support n)) (take n (demo_chain 4)).
Proof. intros Hn. rewrite <- demo_part by done. by apply demo_ledger_ok. Qed.

Lemma demo_looking : looking (demo_chain 4) (sp_ledger (demo_support 2)) demo_looks.
Proof.
  assert (forall n, (1 <= n <= 4)%nat -> exists k, lr_chain (sp_ledger (demo_support n)) (take (S k) (demo_chain 4)) /\ take (S k) (demo_chain 4) <> []) as Hp.
  { intros n Hn. exists (n - 1)%nat. replace (S (n - 1)) with n by lia. split; [apply demo_support_ok; lia|]. by destruct n as [|[|[|[|[|n]]]]]; [lia|..]. }
  repeat (split; [vm_compute; lia|]; split; [apply Hp; lia|]). done.
Qed.

Lemma blocks_delivered_witness :
  match demo_chain 4 with
  | [b0; b1; b2; b3] =>
      Handle (It := RamLedger.cursor) (Request (fun _ => Some (demo_support 2)) (fun _ => None) (Some demo_request) :: (look_event <$> demo_looks)) AwaitSeek =
      Ok (AwaitSeek, [ReplyBlock b1; ReplyBlock b2; ReplyBlock b3; ReplyStatus SUCCESS])
  | _ => False
  end.
Proof.
  destruct (blocks_delivered (It := RamLedger.cursor) (fun _ => Some (demo_support 2)) (fun _ => None) demo_request "ch" (demo_support 2) 2 (demo_chain 4) 1 3 demo_looks
    demo_requested ltac:(lia) eq_refl eq_refl ltac:(by vm_compute) (demo_support_ok 2 ltac:(lia)) ltac:(split; by vm_compute) demo_looking) as [_ E].
  cbn [demo_chain app]. rewrite E.
  - by vm_compute.
  - repeat (apply Forall_cons; split; [split; [done|split; [by vm_compute|done]]|]). constructor.
  - by vm_compute.
Defined.

(** A position without a type finds nothing in a ledger of files; the ledger in
    memory dereferences nil. *)
Example untyped_seek_panics : RamLedger.Iterator (demo_ledger 4) SeekUnknown = Panic "nil pointer dereference".
Proof. reflexivity. Qed.

End DeliverWitnesses.
