(* ===== verification/DeliverClient.v ===== *)
(** * The delivery client of a peer

    core/deliverservice: the client of the ordering service, which connects
    again after a failure (client.go, deliveryclient.go), asks for the blocks
    behind the last one of the ledger (requester.go), and hands the blocks to
    the state transfer and to gossip (blocksprovider.go). *)

From stdpp Require Import base gmap strings list.
From Stdlib Require Import Ascii ZArith Lia.
From S2P Require Import Prelude Proto CAuthDSL OrdererChain Mcs Deliver GossipMsgs.
Import OrdererLedger.
Local Open Scope Z_scope.

(** ** protos/utils: envelopes that are signed *)

Module SignedEnvelope.
Section SignedEnvelope.
Context {G : Type} `{LocalSigner G} `{!Message ChannelHeader} `{!Message SignatureHeader} `{!Message Payload}.

(** [now]: the seconds of the clock *)
Definition MakeChannelHeader (headerType : HeaderType) (chainID : string) (epoch now : Z) : ChannelHeader :=
  mkChannelHeader headerType now chainID "" epoch [].

Definition MakePayloadHeader (ch : ChannelHeader) (sh : SignatureHeader) : res Header :=
  chb ← or_panic (marshal ch); shb ← or_panic (marshal sh); Ok (mkHeader chb shb).

(** Without a signer the header is empty, and there is no signature. *)
Definition CreateSignedEnvelope {T} `{!Message T} (txType : HeaderType) (channelID : string) (signed : bool) (dataMsg : T) (epoch now : Z) :
    ST G Envelope :=
  sh ← (if signed then NewSignatureHeader else mret (mkSignatureHeader [] []));
  data ← st_lift (marshal dataMsg);
  header ← st_lift (MakePayloadHeader (MakeChannelHeader txType channelID epoch now) sh);
  paylBytes ← st_lift (or_panic (marshal (mkPayload (Some header) data)));
  sig ← (if signed then Sign paylBytes else mret []);
  mret (mkEnvelope paylBytes sig).

End SignedEnvelope.
End SignedEnvelope.

(** ** The responses as they are unmarshalled *)

Inductive DeliverMessage := StatusMsg (status : Status) | BlockMsg (block : option RawBlock) | UnknownMsg.

(** ** client.go *)

(** What the client runs on: connections to one of the orderers, their streams,
    the clock, and the stop flag, which another goroutine may set between any
    two steps. *)
Class Network (W Cn : Type) := {
  NewConnection : ST W Cn;
  OpenDeliver : Cn -> ST W unit;
  CloseConn : Cn -> W -> W;
  StreamRecv : Cn -> ST W DeliverMessage;
  StreamSend : Cn -> Envelope -> ST W unit;
  shouldStop : W -> W * bool;
  setStop : W -> W;
  Sleep : Z -> W -> W;
  ClockNow : W -> W * Z;
  PeerHeight : ST W Z
}.

(** ** core/comm/producer.go *)

Module ConnProducer.

(** The endpoints in a random order: [indices] is the permutation. *)
Definition shuffle (indices : list nat) (a : list string) : list string := omap (fun i => a !! i) indices.

(** The first endpoint that can be reached. *)
Fixpoint first_connection {W Cn} (connect : string -> ST W Cn) (endpoints : list string) : ST W (Cn * string) := fun w =>
  match endpoints with
  | [] => (w, Err "Could not connect to any of the endpoints")
  | endpoint :: endpoints =>
      match connect endpoint w with
      | (w, Ok cn) => (w, Ok (cn, endpoint))
      | (w, Err _) => first_connection connect endpoints w
      | (w, Panic m) => (w, Panic m)
      | (w, OutOfFuel) => (w, OutOfFuel)
      end
  end.

Definition NewConnection {W Cn} (connect : string -> ST W Cn) (indices : list nat) (endpoints : list string) : ST W (Cn * string) :=
  first_connection connect (shuffle indices endpoints).

Definition UpdateEndpoints (endpoints current : list string) : list string :=
  if decide (endpoints = []) then current else endpoints.

End ConnProducer.

Module BroadcastClient.
Import SignedEnvelope.

Definition Millisecond : Z := 1000000.
Definition Second : Z := 1000 * Millisecond.
Definition reConnectTotalTimeThreshold : Z := Second * 60 * 5.
Definition reConnectBackoffThreshold : Z := Second * 3600.

(** [backoffPolicy] of [newClient]; [None]: no further attempt *)
Definition backoffPolicy (attemptNum elapsedTime : Z) : option Z :=
  if reConnectTotalTimeThreshold <? elapsedTime then None
  else Some (Z.min (2 ^ attemptNum * (Millisecond * 500)) reConnectBackoffThreshold).

Section BroadcastClient.
Context {W Cn G : Type} `{Network W Cn} `{LocalSigner G} `{SeekCodec}.
Context `{!Message ChannelHeader} `{!Message SignatureHeader} `{!Message Payload}.

(** [conn] with its stream; the requester has [chainID]. *)
Record client := mkClient { chainID : string; conn : option Cn; signer : G; net : W }.

Definition with_net {A} (f : ST W A) : ST client A := fun c =>
  let '(w, r) := f (net c) in (mkClient (chainID c) (conn c) (signer c) w, r).

Definition with_signer {A} (f : ST G A) : ST client A := fun c =>
  let '(g, r) := f (signer c) in (mkClient (chainID c) (conn c) g (net c), r).

Definition stopping : ST client bool := with_net (fun w => let '(w, b) := shouldStop w in (w, Ok b)).

Definition set_conn (cn : option Cn) : ST client unit := st_modify (fun c => mkClient (chainID c) cn (signer c) (net c)).

Definition Disconnect : ST client unit := fun c =>
  match conn c with
  | None => (c, Ok tt)
  | Some cn => (mkClient (chainID c) None (signer c) (CloseConn cn (net c)), Ok tt)
  end.

(** [conn.Close], without forgetting the connection *)
Definition close_conn : ST client unit := fun c =>
  match conn c with
  | None => (c, Ok tt)
  | Some cn => (mkClient (chainID c) (conn c) (signer c) (CloseConn cn (net c)), Ok tt)
  end.

Definition Close : ST client unit :=
  stop ← stopping;
  if (stop : bool) then mret tt
  else
    with_net (fun w => (setStop w, Ok tt));; close_conn.

(** A failure that is looked at. *)
Definition catch {A B} (m : ST client A) (ok : A -> ST client B) (failed : string -> ST client B) : ST client B := fun c =>
  match m c with
  | (c, Ok a) => ok a c
  | (c, Err e) => failed e c
  | (c, Panic p) => (c, Panic p)
  | (c, OutOfFuel) => (c, OutOfFuel)
  end.

Definition afterConnect (onConnect : ST client unit) (cn : Cn) : ST client unit :=
  set_conn (Some cn);;
  stop ← stopping;
  if (stop : bool) then st_lift (Err "closing")
  else
    let stopped_or (r : res unit) : ST client unit := stop ← stopping; if (stop : bool) then st_lift (Err "closing") else st_lift r in
    catch onConnect (fun _ => stopped_or (Ok tt)) (fun e => stopped_or (Err e)).

Definition connect (onConnect : ST client unit) : ST client unit :=
  cn ← with_net NewConnection;
  catch (with_net (OpenDeliver cn))
    (fun _ => catch (afterConnect onConnect cn) (fun _ => mret tt) (fun e => Disconnect;; st_lift (Err e)))
    (fun e => with_net (fun w => (CloseConn cn w, Ok tt));; st_lift (Err e)).

Definition doAction {A} (onConnect : ST client unit) (action : ST client A) : ST client A :=
  c ← st_get;
  (match conn c with None => connect onConnect | Some _ => mret tt end);;
  catch action mret (fun e => Disconnect;; st_lift (Err e)).

(** The actions of [Recv] and [Send]. *)
Definition on_stream {A} (f : Cn -> ST W A) : ST client A :=
  stop ← stopping;
  if (stop : bool) then st_lift (Err "closing")
  else
    c ← st_get;
    match conn c with None => st_lift (Panic "nil pointer dereference") | Some cn => with_net (f cn) end.

(** requester.go: the blocks behind the last one of the ledger, without end *)
Definition seek_from (height : Z) : SeekInfo :=
  mkSeekInfo (Some (if 0 <? height then SeekSpecified height else SeekOldest)) (Some (SeekSpecified (2 ^ 64 - 1))) BLOCK_UNTIL_READY.

#[export] Instance SeekInfo_message : Message SeekInfo := fun s => Ok (marshal_SeekInfo s).

Definition RequestBlocks (send : Envelope -> ST client unit) : ST client unit :=
  height ← with_net PeerHeight;
  now ← with_net (fun w => let '(w, t) := ClockNow w in (w, Ok t));
  c ← st_get;
  env ← with_signer (CreateSignedEnvelope CONFIG_UPDATE (chainID c) true (seek_from height) 0 now);
  send env.

(** The loop of [try]; connecting asks for the blocks, which is itself a [Send].
    [fuel] bounds the attempts, nested ones included. *)
Fixpoint try (fuel : nat) : forall A, Z -> Z -> ST client A -> ST client A := fun A attempt totalRetryTime action =>
  match fuel with
  | O => st_lift OutOfFuel
  | S fuel =>
      let finish : ST client A :=
        stop ← stopping;
        if (stop : bool) then st_lift (Err "Client is closing") else st_lift (Err "Attempts or elapsed time exhausted") in
      let onConnect := RequestBlocks (fun env => try fuel unit 0 0 (on_stream (fun cn => StreamSend cn env))) in
      stop ← stopping;
      if (stop : bool) then finish
      else
        catch (doAction onConnect action) mret
          (fun _ =>
             match backoffPolicy (attempt + 1) totalRetryTime with
             | None => finish
             | Some backoffDuration =>
                 with_net (fun w => (Sleep backoffDuration w, Ok tt));;
                 try fuel A (attempt + 1) (totalRetryTime + backoffDuration) action
             end)
  end.

Definition Recv (fuel : nat) : ST client DeliverMessage := try fuel DeliverMessage 0 0 (on_stream StreamRecv).

Definition Send (fuel : nat) (msg : Envelope) : ST client unit := try fuel unit 0 0 (on_stream (fun cn => StreamSend cn msg)).

End BroadcastClient.
Arguments client : clear implicits.
End BroadcastClient.

(** ** blocksprovider.go *)

(** [GossipServiceAdapter], the message crypto service, and the flag of
    [Stop]. *)
Class GossipAdapter (P : Type) := {
  ga_AddPayload : string -> BlockPayload -> ST P unit;
  ga_Gossip : GossipMessage -> P -> P;
  ga_VerifyBlock : P -> string -> Z -> bytes -> res unit;
  isDone : P -> P * bool
}.

Module BlocksProvider.
Import BroadcastClient.

Definition wrongStatusThreshold : Z := 10.
Definition MaxRetryDelay : Z := Second * 10.

Definition createPayload (seqNum : Z) (marshaledBlock : bytes) : BlockPayload := mkBlockPayload seqNum marshaledBlock.

Definition createGossipMsg (chainID : string) (payload : BlockPayload) : GossipMessage :=
  mkGossipMessage 0 (to_bytes chainID) CHAN_AND_ORG (DataMsg (Some payload)).

Record counters := mkCounters { errorStatusCounter : Z; statusCounter : Z }.

(** What a response makes the provider do: sleep and connect again, hand a block
    on, nothing, or return. *)
Inductive reaction :=
| Reconnect (delay : Z) (c : counters)
| HandOn (payload : BlockPayload) (c : counters)
| Skip (c : counters)
| Return.

Definition delay_of (statusCounter : Z) : Z := 2 ^ statusCounter * (100 * Millisecond).

Definition on_status (c : counters) (status : Status) : reaction :=
  let wait errors :=
    let currDelay := delay_of (statusCounter c) in
    Reconnect (Z.min MaxRetryDelay currDelay)
      (mkCounters errors (if currDelay <? MaxRetryDelay then statusCounter c + 1 else statusCounter c)) in
  match status with
  | SUCCESS => Return
  | BAD_REQUEST | FORBIDDEN =>
      if wrongStatusThreshold <? errorStatusCounter c + 1 then Return else wait (errorStatusCounter c + 1)
  | _ => wait 0
  end.

Section BlocksProvider.
Context `{BlockProto}.

Definition on_block (VerifyBlock : string -> Z -> bytes -> res unit) (chainID : string) (block : option RawBlock) : res reaction :=
  match block ≫= (fun raw => (fun header => (raw, header)) <$> rb_Header raw) with
  | None => Panic "nil pointer dereference"
  | Some (raw, header) =>
      let marshaledBlock := marshal_Block raw in
      match VerifyBlock chainID (Number header) marshaledBlock with
      | Ok _ => Ok (HandOn (createPayload (Number header) marshaledBlock) (mkCounters 0 0))
      | Err _ => Ok (Skip (mkCounters 0 0))
      | Panic m => Panic m
      | OutOfFuel => OutOfFuel
      end
  end.

Definition react (VerifyBlock : string -> Z -> bytes -> res unit) (chainID : string) (c : counters) (msg : DeliverMessage) : res reaction :=
  match msg with
  | StatusMsg status => Ok (on_status c status)
  | BlockMsg block => on_block VerifyBlock chainID block
  | UnknownMsg => Ok Return
  end.

Context {W Cn G P : Type} `{Network W Cn} `{LocalSigner G} `{SeekCodec} `{GossipAdapter P}.
Context `{!Message ChannelHeader} `{!Message SignatureHeader} `{!Message Payload}.

Record blocksProviderImpl := mkBlocksProvider { bp_chainID : string; bp_client : client W Cn G; bp_gossip : P }.

Definition on_client {A} (f : ST (client W Cn G) A) : ST blocksProviderImpl A := fun b =>
  let '(c, r) := f (bp_client b) in (mkBlocksProvider (bp_chainID b) c (bp_gossip b), r).

Definition on_gossip {A} (f : ST P A) : ST blocksProviderImpl A := fun b =>
  let '(p, r) := f (bp_gossip b) in (mkBlocksProvider (bp_chainID b) (bp_client b) p, r).

(** A payload that is refused is logged. *)
Definition hand_on (chainID : string) (payload : BlockPayload) : ST P unit := fun p =>
  match ga_AddPayload chainID payload p with
  | (p, Ok _) | (p, Err _) => (ga_Gossip (createGossipMsg chainID payload) p, Ok tt)
  | (p, Panic m) => (p, Panic m)
  | (p, OutOfFuel) => (p, OutOfFuel)
  end.

Definition sleep_for (delay : Z) : ST blocksProviderImpl unit := on_client (with_net (fun w => (Sleep delay w, Ok tt))).

(** The loop; [fuel] bounds the responses, and [attempts] those of one [Recv]. *)
Fixpoint deliver_loop (fuel attempts : nat) (c : counters) : ST blocksProviderImpl unit :=
  match fuel with
  | O => st_lift OutOfFuel
  | S fuel =>
      done ← on_gossip (fun p => let '(p, d) := isDone p in (p, Ok d));
      if (done : bool) then mret tt
      else fun b =>
        match on_client (Recv attempts) b with
        | (b, Err _) => (b, Ok tt)
        | (b, Panic m) => (b, Panic m)
        | (b, OutOfFuel) => (b, OutOfFuel)
        | (b, Ok msg) =>
            (r ← st_lift (react (ga_VerifyBlock (bp_gossip b)) (bp_chainID b) c msg);
             match r with
             | Return => mret tt
             | Skip c => deliver_loop fuel attempts c
             | Reconnect delay c => sleep_for delay;; on_client Disconnect;; deliver_loop fuel attempts c
             | HandOn payload c => on_gossip (hand_on (bp_chainID b) payload);; deliver_loop fuel attempts c
             end) b
        end
  end.

(** The client is closed when the loop returns. *)
Definition DeliverBlocks (fuel attempts : nat) : ST blocksProviderImpl unit :=
  deliver_loop fuel attempts (mkCounters 0 0);; on_client Close.

End BlocksProvider.
Arguments blocksProviderImpl : clear implicits.
End BlocksProvider.

(** ** deliveryclient.go *)

Module DeliverService.
Section DeliverService.
Context {BP : Type} (Stop : BP -> BP) (newProvider : string -> BP).

(** [finished]: the providers that were stopped and are not in the map *)
Record deliverServiceImpl := mkDeliverService { blockProviders : gmap string BP; stopping : bool; finished : list BP }.

(** [conf]: whether each of the parts is there *)
Record Config := mkConfig {
  cf_Endpoints : list string;
  cf_Gossip : bool;
  cf_ABCFactory : bool;
  cf_ConnFactory : bool;
  cf_CryptoSvc : bool
}.

Definition validateConfiguration (conf : Config) : res unit :=
  if decide (cf_Endpoints conf = []) then Err "No endpoints specified"
  else if negb (cf_Gossip conf) then Err "No gossip provider specified"
  else if negb (cf_ABCFactory conf) then Err "No AtomicBroadcast factory specified"
  else if negb (cf_ConnFactory conf) then Err "No connection factory specified"
  else if negb (cf_CryptoSvc conf) then Err "No crypto service specified"
  else Ok tt.

Definition NewDeliverService (conf : Config) : res deliverServiceImpl :=
  validateConfiguration conf;; Ok (mkDeliverService ∅ false []).

(** The provider runs in a goroutine of its own. *)
Definition StartDeliverForChannel (chainID : string) : ST deliverServiceImpl unit := fun d =>
  if stopping d then (d, Err "Delivery service is stopping cannot join a new channel")
  else
    match blockProviders d !! chainID with
    | Some _ => (d, Err "Delivery service - block provider already exists, can't start delivery")
    | None => (mkDeliverService (<[chainID := newProvider chainID]> (blockProviders d)) (stopping d) (finished d), Ok tt)
    end.

Definition StopDeliverForChannel (chainID : string) : ST deliverServiceImpl unit := fun d =>
  if stopping d then (d, Err "Delivery service is stopping, cannot stop delivery for channel")
  else
    match blockProviders d !! chainID with
    | Some client => (mkDeliverService (delete chainID (blockProviders d)) (stopping d) (Stop client :: finished d), Ok tt)
    | None => (d, Err "Delivery service - no block provider found, can't stop delivery")
    end.

Definition StopAll (d : deliverServiceImpl) : deliverServiceImpl :=
  mkDeliverService (Stop <$> blockProviders d) true (finished d).

End DeliverService.
Arguments deliverServiceImpl : clear implicits.
End DeliverService.
