(* ===== verification/DeliverClientTheorems.v ===== *)
(** * The delivery client gives up, or does not

    How long the client of the ordering service tries to get a response.  The
    steps of the client are reasoned about with triples that have one condition
    for a result and one for an error, and exclude that the call panics or that
    the fuel runs out. *)

From stdpp Require Import base gmap strings list.
From Stdlib Require Import Ascii ZArith Lia.
From S2P Require Import Prelude Proto CAuthDSL OrdererChain Mcs Deliver GossipMsgs DeliverClient.
Import OrdererLedger SignedEnvelope BroadcastClient.
Local Open Scope Z_scope.

(** A call that returned a result or an error. *)
Definition returned {A} (r : res A) : Prop := match r with Ok _ | Err _ => True | _ => False end.

(** What the client relies on: every operation of the network returns a result
    or an error, and the stop flag stays set. *)
Class NetworkSpec (W Cn : Type) `{Network W Cn} := {
  stopped : W -> Prop;
  stop_seen w w' : shouldStop w = (w', true) -> stopped w';
  stop_kept w w' b : stopped w -> shouldStop w = (w', b) -> b = true;
  stop_slept d w : stopped w -> stopped (Sleep d w);
  stop_closed cn w : stopped w -> stopped (CloseConn cn w);
  connection_returns w : returned (NewConnection w).2;
  deliver_returns cn w : returned (OpenDeliver cn w).2;
  recv_returns cn w : returned (StreamRecv cn w).2;
  height_returns w : returned (PeerHeight w).2
}.

(** [count] counts, in the state of the network, at most [nc] for a connection
    that is asked for, [nr] for a response that is asked for, and nothing for
    any other operation. *)
Record counts {W Cn : Type} `{Network W Cn} (count : W -> nat) (nc nr : nat) : Prop := {
  ct_connection w : (count (NewConnection w).1 <= count w + nc)%nat;
  ct_recv cn w : (count (StreamRecv cn w).1 <= count w + nr)%nat;
  ct_deliver cn w : (count (OpenDeliver cn w).1 <= count w)%nat;
  ct_send cn e w : (count (StreamSend cn e w).1 <= count w)%nat;
  ct_close cn w : (count (CloseConn cn w) <= count w)%nat;
  ct_stop w : (count (shouldStop w).1 <= count w)%nat;
  ct_sleep d w : (count (Sleep d w) <= count w)%nat;
  ct_clock w : (count (ClockNow w).1 <= count w)%nat;
  ct_height w : (count (PeerHeight w).1 <= count w)%nat
}.

Module Triples.
Section Triples.
Context {St : Type}.

(** From a state with [P] the call returns: a result with [Q], or an error with
    [E]. *)
Definition triple {A} (P : St -> Prop) (m : ST St A) (Q : A -> St -> Prop) (E : St -> Prop) : Prop := forall s, P s ->
  match m s with
  | (s', Ok a) => Q a s'
  | (s', Err _) => E s'
  | _ => False
  end.

Lemma triple_ret {A} (P : St -> Prop) (a : A) E : triple P (mret a) (fun _ => P) E.
Proof. by intros s Hs. Qed.

Lemma triple_err {A} P e Q : triple P (st_lift (Err e) : ST St A) Q P.
Proof. by intros s Hs. Qed.

Lemma triple_bind {A B} P (m : ST St A) (f : A -> ST St B) Q R E :
  triple P m Q E -> (forall a, triple (Q a) (f a) R E) -> triple P (mbind f m) R E.
Proof.
  intros Hm Hf s Hs. unfold mbind, st_bind. specialize (Hm s Hs). destruct (m s) as [s1 [a|e|p|]]; try done. by apply Hf.
Qed.

Lemma triple_conseq {A} (P P' : St -> Prop) (m : ST St A) (Q Q' : A -> St -> Prop) (E E' : St -> Prop) :
  triple P m Q E -> (forall s, P' s -> P s) -> (forall a s, Q a s -> Q' a s) -> (forall s, E s -> E' s) -> triple P' m Q' E'.
Proof. intros Hm HP HQ HE s Hs. specialize (Hm s (HP s Hs)). destruct (m s) as [s1 [a|e|p|]]; auto. Qed.

End Triples.
End Triples.

Module ClientFacts.
Import Triples.

(** The time that has passed after a number of attempts, in seconds. *)
Lemma backoff_sum k : 0 <= k <= 8 -> backoffPolicy (k + 1) ((2 ^ k - 1) * Second) = Some (2 ^ k * Second).
Proof. intros Hk. assert (k = 0 \/ k = 1 \/ k = 2 \/ k = 3 \/ k = 4 \/ k = 5 \/ k = 6 \/ k = 7 \/ k = 8) as Hc by lia. by destruct_or! Hc; subst. Qed.

Lemma backoff_ends k : backoffPolicy k ((2 ^ 9 - 1) * Second) = None.
Proof. done. Qed.

Section ClientFacts.
Context {W Cn G : Type} `{NetworkSpec W Cn} `{LocalSigner G} `{SeekCodec}.
Context `{!Message ChannelHeader} `{!Message SignatureHeader} `{!Message Payload}.

#[local] Abbreviation client := (client W Cn G).

(** Signing a request returns, and the request can be sent. *)
Context (Hsign : forall ch height now (g : G), returned (CreateSignedEnvelope CONFIG_UPDATE ch true (seek_from height) 0 now g).2).
Context (Hsend : forall cn e w, is_ok (StreamSend cn e w).2).

Context (count : W -> nat) (nc nr : nat) (Hcount : counts count nc nr).

Definition below (n : nat) (c : client) : Prop := (count (net c) <= n)%nat.
Definition opened (n : nat) (c : client) : Prop := is_Some (conn c) /\ below n c.
Definition ended (n : nat) (c : client) : Prop := stopped (net c) /\ below n c.

(** An operation of the network; the connection stays. *)
Lemma net_op {A} (f : ST W A) n d c :
  (forall w, returned (f w).2) -> (forall w, (count (f w).1 <= count w + d)%nat) -> below n c ->
  match with_net f c with (c', r) => conn c' = conn c /\ below (n + d) c' /\ returned r end.
Proof.
  intros Hf Hc Hb. unfold with_net, below in *. specialize (Hf (net c)). specialize (Hc (net c)).
  destruct (f (net c)) as [w r]. cbn in *. split; [done|]. split; [lia|done].
Qed.

Lemma stopping_op (c : client) :
  exists w b, stopping c = (mkClient (chainID c) (conn c) (signer c) w, Ok b) /\ (count w <= count (net c))%nat /\
    (b = true -> stopped w) /\ (stopped (net c) -> b = true).
Proof.
  unfold stopping, with_net. pose proof (ct_stop _ _ _ Hcount (net c)) as Hc. destruct (shouldStop (net c)) as [w b] eqn:E. cbn in Hc.
  exists w, b. split; [done|]. split; [done|]. split; [intros ->; by eapply stop_seen|]. intros Hs. by eapply stop_kept.
Qed.

(** A look at the stop flag. *)
Lemma stopping_then {A} (P : client -> Prop) n (yes no : ST client A) Q E :
  (forall c, P c -> below n c) -> (forall c w, P c -> (count w <= count (net c))%nat -> P (mkClient (chainID c) (conn c) (signer c) w)) ->
  triple (fun c => P c /\ ended n c) yes Q E -> triple P no Q E ->
  triple P (stop ← stopping; if (stop : bool) then yes else no) Q E.
Proof.
  intros Hb HP Hy Hn c Hc. unfold mbind, st_bind. destruct (stopping_op c) as (w & b & -> & Hle & Hs & _).
  pose proof (HP c w Hc Hle) as Hc'. destruct b; [|by apply Hn]. apply Hy. split; [done|]. split; [by apply Hs|by apply Hb].
Qed.

Lemma opened_kept n c w : opened n c -> (count w <= count (net c))%nat -> opened n (mkClient (chainID c) (conn c) (signer c) w).
Proof. intros [Ho Hb] Hw. split; [done|]. unfold below in *. cbn. lia. Qed.

Lemma below_kept n c w : below n c -> (count w <= count (net c))%nat -> below n (mkClient (chainID c) (conn c) (signer c) w).
Proof. unfold below. cbn. lia. Qed.

(** The end of [try]. *)
Lemma finish_below {A} n e1 e2 Q :
  triple (below n) (stop ← stopping; if (stop : bool) then st_lift (Err e1) else st_lift (Err e2) : ST client A) Q (below n).
Proof. eapply stopping_then; [done|apply below_kept|by intros c [Hc _]|by intros c Hc]. Qed.

Lemma Disconnect_op (P : client -> Prop) c : (forall w cn, P c -> (count w <= count (net c))%nat -> w = net c \/ w = CloseConn cn (net c) ->
  P (mkClient (chainID c) None (signer c) w)) -> P c -> exists c', Disconnect c = (c', Ok tt) /\ P c'.
Proof.
  intros HP Hc. unfold Disconnect. destruct (conn c) as [cn|] eqn:E.
  - eexists. split; [done|]. apply (HP _ cn); [done|apply ct_close with (1 := Hcount)|by right].
  - eauto.
Qed.

Lemma disconnect_below n e {A} (Q : A -> client -> Prop) : triple (below n) (Disconnect;; st_lift (Err e)) Q (below n).
Proof.
  intros c Hc. unfold mbind, st_bind. destruct (Disconnect_op (below n) c) as (c' & -> & Hc'); [|done|done].
  intros w cn Hb Hw _. unfold below in *. cbn. lia.
Qed.

Lemma disconnect_ended n e {A} (Q : A -> client -> Prop) : triple (ended n) (Disconnect;; st_lift (Err e)) Q (ended n).
Proof.
  intros c Hc. unfold mbind, st_bind. destruct (Disconnect_op (ended n) c) as (c' & -> & Hc'); [|done|done].
  intros w cn [Hs Hb] Hw Hor. unfold ended, below in *. cbn. split; [|lia]. destruct Hor as [-> | ->]; [done|by apply stop_closed].
Qed.

Lemma triple_catch {A B} P (m : ST client A) (ok : A -> ST client B) failed Q E R E' :
  triple P m Q E -> (forall a, triple (Q a) (ok a) R E') -> (forall e, triple E (failed e) R E') -> triple P (catch m ok failed) R E'.
Proof.
  intros Hm Ho Hf c Hc. unfold catch. specialize (Hm c Hc). destruct (m c) as [c1 [a|e|p|]]; try done; [by apply Ho|by apply Hf].
Qed.

(** Receiving on an open stream. *)
Lemma receive_opened n : triple (opened n) (on_stream StreamRecv) (fun _ => below (n + nr)) (below (n + nr)).
Proof.
  unfold on_stream. eapply stopping_then; [by intros c [_ Hb]|apply opened_kept|by intros c [[_ Hb] _]; unfold below in *; cbn; lia|].
  intros c [[cn Hc] Hb]. unfold mbind, st_bind, st_get. rewrite Hc.
  pose proof (net_op (StreamRecv cn) n nr c (recv_returns cn) (ct_recv _ _ _ Hcount cn) Hb) as Ho.
  destruct (with_net (StreamRecv cn) c) as [c' [a|e|p|]]; cbn in Ho; tauto.
Qed.

(** Sending on an open stream: the stream stays open, and the error of a client
    that is closing leaves it stopped. *)
Lemma send_opened n env : triple (opened n) (on_stream (fun cn => StreamSend cn env)) (fun _ => opened n) (ended n).
Proof.
  unfold on_stream. eapply stopping_then; [by intros c [_ Hb]|apply opened_kept|by intros c [_ He]|].
  intros c [[cn Hc] Hb]. unfold mbind, st_bind, st_get. rewrite Hc. unfold with_net.
  pose proof (Hsend cn env (net c)) as Ho. pose proof (ct_send _ _ _ Hcount cn env (net c)) as Hle.
  destruct (StreamSend cn env (net c)) as [w [a|e|p|]]; try done. cbn in Hle. split; [by exists cn|]. unfold below in *. cbn. lia.
Qed.

(** Sending on an open stream does not connect again. *)
Lemma send_open n fuel env :
  triple (opened n) (try (G := G) (S (S fuel)) unit 0 0 (on_stream (fun cn => StreamSend cn env))) (fun _ => opened n) (below n).
Proof.
  cbn [try]. eapply stopping_then; [by intros c [_ Hb]|apply opened_kept| |].
  { eapply triple_conseq; [apply (finish_below n _ _ (fun _ _ => False))|by intros c [_ [_ Hb]]|by intros a c []|done]. }
  eapply triple_catch with (Q := fun _ => opened n) (E := ended n); [|by intros ? s Hs|].
  - intros c [[cn Hc] Hb]. unfold doAction, mbind, st_bind, st_get. rewrite Hc. cbn [mret st_ret].
    eapply (triple_catch (opened n)); [apply send_opened|by intros ? s Hs|intros e; apply disconnect_ended|]. split; [by exists cn|done].
  - intros e. assert (backoffPolicy (0 + 1) 0 = Some Second) as -> by done. eapply triple_bind with (Q := fun _ => ended n).
    { intros c [Hs Hb]. split; [by apply stop_slept|]. unfold below in *. cbn. pose proof (ct_sleep _ _ _ Hcount Second (net c)). lia. }
    intros ?. cbn [try]. intros c [Hs Hb]. unfold mbind at 1, st_bind at 1. destruct (stopping_op c) as (w & b & -> & Hle & _ & Hb').
    rewrite (Hb' Hs). eapply (finish_below n). unfold below in *. cbn. lia.
Qed.

(** *** Connecting *)

Lemma request_open n fuel :
  triple (opened n) (RequestBlocks (fun env => try (G := G) (S (S fuel)) unit 0 0 (on_stream (fun cn => StreamSend cn env))))
    (fun _ => opened n) (below n).
Proof.
  unfold RequestBlocks. eapply triple_bind with (Q := fun _ => opened n).
  { intros c [Hc Hb]. pose proof (net_op PeerHeight n 0 c height_returns ltac:(intros w; pose proof (ct_height _ _ _ Hcount w); lia) Hb) as Ho.
    rewrite Nat.add_0_r in Ho. destruct (with_net PeerHeight c) as [c' [a|e|p|]]; cbn in Ho; try tauto.
    split; [|tauto]. by rewrite (proj1 Ho). }
  intros height. eapply triple_bind with (Q := fun _ => opened n).
  { intros c Hc. unfold with_net. pose proof (ct_clock _ _ _ Hcount (net c)) as Hle. destruct (ClockNow (net c)) as [w t]. by apply opened_kept. }
  intros now. eapply triple_bind with (Q := fun _ => opened n); [by intros c Hc|].
  intros c0. eapply triple_bind with (Q := fun _ => opened n).
  { intros c [Hc Hb]. unfold with_signer. pose proof (Hsign (chainID c0) height now (signer c)) as Hr.
    by destruct (CreateSignedEnvelope _ _ _ _ _ _ (signer c)) as [g [a|e|p|]]. }
  intros env. apply send_open.
Qed.

Lemma connect_opened n (onConnect : ST client unit) :
  (forall m, triple (opened m) onConnect (fun _ => opened m) (below m)) ->
  triple (below n) (connect onConnect) (fun _ => opened (n + nc)) (below (n + nc)).
Proof.
  intros Ho. unfold connect. eapply triple_bind with (Q := fun _ => below (n + nc)).
  { intros c Hb. pose proof (net_op NewConnection n nc c connection_returns (ct_connection _ _ _ Hcount) Hb) as Hc.
    destruct (with_net NewConnection c) as [c' [a|e|p|]]; cbn in Hc; tauto. }
  intros cn. apply triple_catch with (Q := fun _ => below (n + nc)) (E := below (n + nc)).
  - intros c Hb. pose proof (net_op (OpenDeliver cn) (n + nc) 0 c (deliver_returns cn)
      ltac:(intros w; pose proof (ct_deliver _ _ _ Hcount cn w); lia) Hb) as Hc. rewrite Nat.add_0_r in Hc.
    destruct (with_net (OpenDeliver cn) c) as [c' [a|e|p|]]; cbn in Hc; tauto.
  - intros ?. apply triple_catch with (Q := fun _ => opened (n + nc)) (E := below (n + nc)); [|by intros ? s Hs|intros e; apply disconnect_below].
    unfold afterConnect. eapply triple_bind with (Q := fun _ => opened (n + nc)); [intros c Hb; split; [by exists cn|done]|]. intros ?.
    eapply stopping_then; [by intros c [_ Hb]|apply opened_kept|by intros c [_ [_ Hb]]|].
    eapply triple_catch; [apply Ho| |]; intros x.
    + eapply stopping_then; [by intros c [_ Hb]|apply opened_kept|by intros c [_ [_ Hb]]|by intros c Hc].
    + eapply stopping_then; [done|apply below_kept|by intros c [_ [_ Hb]]|by intros c Hc].
  - intros e c Hb. unfold mbind, st_bind, with_net, below in *. cbn. pose proof (ct_close _ _ _ Hcount cn (net c)). lia.
Qed.

Lemma doAction_below {A} n (onConnect : ST client unit) (action : ST client A) :
  (forall m, triple (opened m) onConnect (fun _ => opened m) (below m)) ->
  (forall m, triple (opened m) action (fun _ => below (m + nr)) (below (m + nr))) ->
  triple (below n) (doAction onConnect action) (fun _ => below (n + nc + nr)) (below (n + nc + nr)).
Proof.
  intros Ho Ha c Hb. unfold doAction, mbind at 1, st_bind at 1, st_get.
  assert (triple (opened (n + nc)) (catch action mret (fun e => Disconnect;; st_lift (Err e)))
    (fun _ => below (n + nc + nr)) (below (n + nc + nr))) as Hact.
  { eapply triple_catch; [apply Ha|by intros ? s Hs|intros e; apply disconnect_below]. }
  destruct (conn c) as [cn|] eqn:Hc.
  - apply Hact. split; [by exists cn|]. unfold below in *. lia.
  - eapply (triple_bind (below n) (connect onConnect)); [|intros ?; exact Hact|exact Hb].
    eapply triple_conseq; [by apply connect_opened|done|done|]. intros s Hs. unfold below in *. lia.
Qed.

(** Nine attempts are followed by another one, and the tenth by none. *)
Lemma try_below {A} (action : ST client A) k fuel n :
  0 <= k <= 9 -> (11 <= fuel + Z.to_nat k)%nat ->
  (forall m, triple (opened m) action (fun _ => below (m + nr)) (below (m + nr))) ->
  let N := (n + (10 - Z.to_nat k) * (nc + nr))%nat in
  triple (below n) (try (S fuel) A k ((2 ^ k - 1) * Second) action) (fun _ => below N) (below N).
Proof.
  intros Hk Hf Ha. revert k n Hk Hf. induction fuel as [|fuel IH]; intros k n Hk Hf N; [lia|].
  assert (n + nc + nr <= N)%nat as HN by (unfold N; assert (exists j, (10 - Z.to_nat k = S j)%nat) as [j ->] by (exists (9 - Z.to_nat k)%nat; lia); lia).
  destruct fuel as [|fuel]; [lia|]. remember (S (S fuel)) as f eqn:Ef. cbn [try].
  eapply stopping_then; [done|apply below_kept| |].
  { eapply triple_conseq; [apply (finish_below n _ _ (fun _ _ => False))|by intros c [Hb _]|by intros a c []|]. intros c Hb. unfold below in *. lia. }
  apply triple_catch with (Q := fun _ => below (n + nc + nr)) (E := below (n + nc + nr)).
  - apply doAction_below; [|done]. intros m. rewrite Ef. apply request_open.
  - intros a c Hb. unfold below in *. cbn. lia.
  - intros e. destruct (Z.eq_dec k 9) as [->|Hne].
    { rewrite backoff_ends. eapply triple_conseq; [apply (finish_below (n + nc + nr) _ _ (fun _ _ => False))|done|by intros a c []|]. intros c Hb. unfold below in *. lia. }
    rewrite backoff_sum by lia. eapply triple_bind with (Q := fun _ => below (n + nc + nr)).
    { intros c Hb. unfold with_net, below in *. cbn. pose proof (ct_sleep _ _ _ Hcount (2 ^ k * Second) (net c)). lia. }
    intros ?. replace ((2 ^ k - 1) * Second + 2 ^ k * Second) with ((2 ^ (k + 1) - 1) * Second) by (rewrite Z.pow_add_r by lia; lia).
    pose proof (IH (k + 1) (n + nc + nr)%nat ltac:(lia) ltac:(lia)) as Ht. cbv zeta in Ht.
    replace (n + nc + nr + (10 - Z.to_nat (k + 1)) * (nc + nr))%nat with N in Ht; [exact Ht|].
    unfold N. replace (10 - Z.to_nat k)%nat with (S (10 - Z.to_nat (k + 1))) by lia. lia.
Qed.

End ClientFacts.

(** *** A stream that is opened and cannot be written *)

Section Diverges.
Context {W Cn G : Type} `{Network W Cn} `{LocalSigner G} `{SeekCodec}.
Context `{!Message ChannelHeader} `{!Message SignatureHeader} `{!Message Payload}.

(** Everything succeeds but sending, and nobody stops the client. *)
Record send_broken : Prop := {
  sb_stop w : (shouldStop w).2 = false;
  sb_connection w : is_ok (NewConnection w).2;
  sb_deliver cn w : is_ok (OpenDeliver cn w).2;
  sb_height w : is_ok (PeerHeight w).2;
  sb_sign ch height now (g : G) : is_ok (CreateSignedEnvelope CONFIG_UPDATE ch true (seek_from height) 0 now g).2;
  sb_send cn e w : exists m, (StreamSend cn e w).2 = Err m
}.

Context (Hb : send_broken).

#[local] Abbreviation client := (client W Cn G).

Lemma stopping_false (c : client) : exists w, stopping c = (mkClient (chainID c) (conn c) (signer c) w, Ok false).
Proof. unfold stopping, with_net. pose proof (sb_stop Hb (net c)) as E. destruct (shouldStop (net c)) as [w b]. cbn in E. subst b. by exists w. Qed.

(** Sending on the stream fails, and forgets it. *)
Lemma send_fails cn c e : conn c = Some cn ->
  exists c' m, catch (on_stream (fun cn => StreamSend cn e)) mret (fun e => Disconnect;; st_lift (Err e)) c = (c' : client, Err m) /\ conn c' = None.
Proof.
  intros Hc. unfold catch, on_stream, mbind, st_bind. destruct (stopping_false c) as (w & ->). unfold st_get. cbn. rewrite Hc. cbn.
  unfold with_net. cbn. pose proof (sb_send Hb cn e w) as (m & Em). destruct (StreamSend cn e w) as [w' r]. cbn in Em. subst r.
  unfold Disconnect. cbn. by eexists _, m.
Qed.

(** Asking for the blocks comes down to sending. *)
Lemma request_sends (send : Envelope -> ST client unit) c :
  exists e c', RequestBlocks send c = send e c' /\ conn c' = conn c.
Proof.
  unfold RequestBlocks, mbind, st_bind, with_net. pose proof (sb_height Hb (net c)) as Hh. destruct (PeerHeight (net c)) as [w1 [h| | |]]; try done.
  cbn -[CreateSignedEnvelope]. destruct (ClockNow w1) as [w2 now]. unfold st_get, with_signer. cbn -[CreateSignedEnvelope].
  pose proof (sb_sign Hb (chainID c) h now (signer c)) as Hs. destruct (CreateSignedEnvelope _ _ _ _ _ _ _) as [g [env| | |]]; try done.
  by eexists env, _.
Qed.

Lemma connects (onConnect : ST client unit) c :
  (forall c' cn, conn c' = Some cn -> (onConnect c').2 = OutOfFuel) -> (connect onConnect c).2 = OutOfFuel.
Proof.
  intros Ho. unfold connect, mbind, st_bind, with_net. pose proof (sb_connection Hb (net c)) as Hn.
  destruct (NewConnection (net c)) as [w1 [cn| | |]]; try done. unfold catch at 1. cbn. pose proof (sb_deliver Hb cn w1) as Hd.
  destruct (OpenDeliver cn w1) as [w2 [[]| | |]]; try done. unfold catch at 1, afterConnect, mbind, st_bind. unfold set_conn, st_modify. cbn.
  match goal with |- context [stopping ?c] => destruct (stopping_false c) as (w3 & ->) end. unfold catch. cbn.
  match goal with |- context [onConnect ?c] => specialize (Ho c cn eq_refl); destruct (onConnect c) as [c4 r] end. cbn in Ho. by subst r.
Qed.

(** Every attempt connects, and sends in attempts of its own. *)
Lemma try_forever fuel : forall A k t (action : ST client A) c, conn c = None -> (try fuel A k t action c).2 = OutOfFuel.
Proof.
  induction fuel as [fuel IH] using lt_wf_ind. intros A k t action c Hc. destruct fuel as [|f]; [done|]. cbn [try]. unfold mbind, st_bind.
  destruct (stopping_false c) as (w & ->). cbn beta iota. unfold catch at 1. unfold doAction at 1. unfold mbind at 1, st_bind at 1, st_get at 1. cbn [conn]. rewrite Hc.
  match goal with |- context [mbind _ (connect ?o) ?c0] => assert ((connect o c0).2 = OutOfFuel) as Hd end.
  { apply connects. intros c' cn Hc'. destruct (request_sends (fun env => try f unit 0 0 (on_stream (fun cn => StreamSend cn env))) c') as (e & c2 & -> & E2).
    rewrite Hc' in E2. destruct f as [|f]; [done|]. cbn [try]. unfold mbind, st_bind. destruct (stopping_false c2) as (w2 & ->). cbn beta iota.
    unfold catch at 1. unfold doAction at 1. unfold mbind at 1, st_bind at 1, st_get at 1. cbn [conn]. rewrite E2.
    unfold mbind at 1, st_bind at 1. cbn [mret st_ret].
    match goal with |- context [catch (on_stream _) mret _ ?c0] => destruct (send_fails cn c0 e eq_refl) as (c4 & m & -> & Hc4) end.
    assert (backoffPolicy (0 + 1) 0 = Some Second) as -> by done. cbn. by apply IH; [lia|]. }
  unfold mbind, st_bind. destruct (connect _ _) as [c5 r]. cbn in Hd. by subst r.
Qed.

End Diverges.
End ClientFacts.

Module DeliverClientTheorems.
Import Triples ClientFacts.
Section DeliverClientTheorems.
Context {W Cn G : Type} `{Network W Cn} `{LocalSigner G} `{SeekCodec}.
Context `{!Message ChannelHeader} `{!Message SignatureHeader} `{!Message Payload}.

(** C19: The delivery client gives up.  When the operations of the network and
    the signing of a request return (a result or an error), and the request for
    blocks can be sent on every stream that is opened, receiving a response
    returns, whatever else fails and whoever stops the client: with a response
    or an error, never a panic, after at most ten attempts.  Whatever is counted
    in the network, [nc] for each connection that is asked for and [nr] for each
    response that is asked for, grows by at most ten times [nc + nr]: there are
    at most ten connections and ten receptions. *)
Theorem recv_gives_up `{!NetworkSpec W Cn} (c : client W Cn G) :
  (forall ch height now (g : G), returned (CreateSignedEnvelope CONFIG_UPDATE ch true (seek_from height) 0 now g).2) ->
  (forall cn e w, is_ok (StreamSend cn e w).2) ->
  returned (Recv 12 c).2 /\
  forall count nc nr, counts count nc nr -> (count (net (Recv 12 c).1) <= count (net c) + 10 * (nc + nr))%nat.
Proof.
  intros Hsign Hsend.
  assert (forall count nc nr, counts count nc nr ->
    match Recv 12 c with (c', r) => returned r /\ (count (net c') <= count (net c) + 10 * (nc + nr))%nat end) as Hall.
  { intros count nc nr Hc. pose proof (try_below Hsign Hsend count nc nr Hc (on_stream StreamRecv) 0 11 (count (net c)) ltac:(lia) ltac:(lia)
      (receive_opened count nc nr Hc) c (Nat.le_refl _)) as Ht. cbv zeta in Ht.
    change ((2 ^ 0 - 1) * Second) with 0 in Ht. change (10 - Z.to_nat 0)%nat with 10%nat in Ht. unfold Recv.
    destruct (try 12 DeliverMessage 0 0 _ c) as [c' [m|e|p|]]; done. }
  split.
  - assert (counts (fun _ : W => 0%nat) 0 0) as Hz by (by split). specialize (Hall _ _ _ Hz). destruct (Recv 12 c). apply Hall.
  - intros count nc nr Hc. specialize (Hall _ _ _ Hc). destruct (Recv 12 c). apply Hall.
Qed.

(** When streams are opened but the request cannot be sent on them, the client
    never gives up: sending fails, which connects again, which sends, with
    attempts of its own each time. *)
Theorem reconnects_forever (c : client W Cn G) : send_broken -> conn c = None -> forall fuel, (Recv fuel c).2 = OutOfFuel.
Proof. intros Hb Hc fuel. by apply (try_forever Hb). Qed.

End DeliverClientTheorems.
End DeliverClientTheorems.

(** ** Networks on which nothing can be reached, or nothing sent *)

Module ClientDemo.
Import ClientFacts DeliverClientTheorems.

#[export] Instance no_messages {T} : Message T := fun _ => Ok [].
#[export] Instance no_seeks : SeekCodec := { marshal_SeekInfo _ := []; unmarshal_SeekInfo _ := Err "proto: SeekInfo" }.

#[export] Instance demo_signer : LocalSigner unit := {
  NewSignatureHeader g := (g, Ok (mkSignatureHeader [] []));
  Sign msg g := (g, Ok [])
}.

(** The seconds that have passed, and the attempts to connect; [reachable] and
    [writable] are what succeeds. *)
Definition demo_network (reachable writable : bool) : Network (Z * Z) unit := {|
  NewConnection '(t, n) := ((t, n + 1), if reachable then Ok tt else Err "unreachable");
  OpenDeliver _ w := (w, Ok tt);
  CloseConn _ w := w;
  StreamRecv _ w := (w, Err "closed");
  StreamSend _ _ w := (w, if writable then Ok tt else Err "EOF");
  shouldStop w := (w, false);
  setStop w := w;
  Sleep d '(t, n) := (t + d / Second, n);
  ClockNow w := (w, w.1);
  PeerHeight w := (w, Ok 1)
|}.

Definition demo_network_spec reachable : NetworkSpec (Z * Z) unit (H := demo_network reachable true).
Proof. refine {| stopped _ := False |}; try done; intros []; by destruct reachable. Defined.

Definition demo_client : client (Z * Z) unit unit := mkClient "ch" None tt (0, 0).

(** Ten attempts in 511 seconds. *)
Lemma recv_gives_up_witness :
  (Recv (H := demo_network false true) 12 demo_client) =
    (mkClient "ch" None tt (511, 10), Err "Attempts or elapsed time exhausted") /\
  returned (Recv (H := demo_network true true) 12 demo_client).2 /\
  (Z.to_nat (net (Recv (H := demo_network true true) 12 demo_client).1).2 <= 10)%nat.
Proof.
  split; [by vm_compute|].
  destruct (recv_gives_up (H := demo_network true true) (NetworkSpec0 := demo_network_spec true) demo_client) as [Hr Hc]; [done..|].
  split; [exact Hr|]. apply (Hc (fun w => Z.to_nat w.2) 1%nat 0%nat). split; intros; repeat match goal with w : Z * Z |- _ => destruct w end; cbn; lia.
Defined.

Lemma reconnects_forever_demo : forall fuel, (Recv (H := demo_network true false) fuel demo_client).2 = OutOfFuel.
Proof.
  apply (reconnects_forever (H := demo_network true false) demo_client); [|done]. split; try done; [by intros []|]. intros cn e w. by exists "EOF".
Qed.

End ClientDemo.
