(* ===== verification/GossipPeer.v ===== *)
(** * A peer on a channel

    The parts of a peer through which the blocks of a channel reach its ledger:
    the committer over the ledger (core/committer), the gossip channel, the state
    provider, and the blocks provider of the delivery client; the part of
    gossip/gossip/gossip_impl.go that connects them. *)

From stdpp Require Import base gmap strings list.
From Stdlib Require Import Ascii ZArith Lia.
From S2P Require Import Prelude StateDB LevelDB RWSet Merkle Proto BlockHash BlockMgr KVLedger.
From S2P Require Import CAuthDSL ConfigTx MsgValidation VSCC TxValidator PeerCommit.
From S2P Require Import Mcs GossipMsgs GossipState GossipPull GossipChannel DeliverClient.
Import BlockHash.
Local Open Scope Z_scope.

(** ** The committer of a channel: core/committer/committer_impl.go *)

Module LedgerCommitter.
Import KVLedger.
Section LedgerCommitter.
Context {DB : Type} `{VersionedDB DB} `{Merkle.Hashing} `{RWSetCodec} `{ProtoCodec}.
Context {S : Type} `{LevelDB S} {B : Type} `{BlockStore B}.
Context `{SignatureCodec} `{TxCodec} `{CryptoHash} `{MSPManagers} `{ConfigCodec}.
Context {C : Type}.
Context (SysCCVersion : string).
Context (ExecuteChaincode : string -> string -> string -> list bytes -> res VSCC.Response).
Context (GetMSPIDs : string -> list string).
Context (applyConfig : ConfigEnvelope -> ST C unit).
Context (range_upgrades range_names : list (nat * ChaincodeInstance) -> list (nat * ChaincodeInstance)).
Context (history : bool) (eventer : Block -> res unit).

(** The blocks that are found. *)
Fixpoint get_blocks (l : @kvLedger DB S B) (blockSeqs : list Z) : res (list Block) :=
  match blockSeqs with
  | [] => Ok []
  | seqNum :: blockSeqs =>
      match GetBlockByNumber l seqNum with
      | Ok block => blocks ← get_blocks l blockSeqs; Ok (block :: blocks)
      | Err _ => get_blocks l blockSeqs
      | Panic m => Panic m
      | OutOfFuel => OutOfFuel
      end
  end.

(** With the validator of the channel; the event that is sent after the commit is
    left out. *)
#[export] Instance ledger_committer : Committer (C * @kvLedger DB S B) := {
  LedgerHeight cl := Ok (BlockMgr.Height (ledger_GetBlockchainInfo cl.2));
  GetBlocks cl := get_blocks cl.2;
  Commit := PeerCommit.commit_block SysCCVersion ExecuteChaincode GetMSPIDs applyConfig range_upgrades range_names history eventer
}.

End LedgerCommitter.
End LedgerCommitter.

(** ** The parts together *)

Module GossipPeer.
Import GossipState GossipChannel BlocksProvider.
Section GossipPeer.
Context {L : Type} `{Committer L} `{BlockProto} `{GossipCodec} `{CryptoHash}.

(** The crypto service on the configuration that is committed. *)
Context (VerifyBlock : L -> string -> Z -> bytes -> res unit) (VerifyByChannel : L -> string -> bytes -> bytes -> bytes -> res unit).

(** The configuration of the peer. *)
Context (selfOrg : bytes) (MaxBlockCountToStore BlockExpirationInterval leaderTTL PropagateIterations : Z) (nonBlocking : bool).

(** [inbox]: the messages that the subscription of the state provider has not
    taken yet; [emitter]: the messages to gossip *)
Record peer := mkPeer {
  channel : gossipChannel;
  inbox : list GossipMessage;
  state : provider L;
  counts : counters;
  emitter : list SignedGossipMessage
}.

Definition with_channel (gc : gossipChannel) (p : peer) : peer := mkPeer gc (inbox p) (state p) (counts p) (emitter p).
Definition with_inbox (i : list GossipMessage) (p : peer) : peer := mkPeer (channel p) i (state p) (counts p) (emitter p).
Definition with_state (s : provider L) (p : peer) : peer := mkPeer (channel p) (inbox p) s (counts p) (emitter p).
Definition with_counts (c : counters) (p : peer) : peer := mkPeer (channel p) (inbox p) (state p) c (emitter p).
Definition emit (m : SignedGossipMessage) (p : peer) : peer := mkPeer (channel p) (inbox p) (state p) (counts p) (emitter p ++ [m]).

(** What the gossip layer knows, with the crypto service of now. *)
Definition adapter (a : Adapter) (p : peer) : Adapter :=
  mkAdapter (ad_now a) (ad_GetMembership a) (ad_Lookup a) (ad_ValidateStateInfoMessage a) (ad_GetOrgOfPeer a) (ad_GetIdentityByPKIID a)
    (VerifyBlock (committer (state p))) (VerifyByChannel (committer (state p))).

(** The subscription of the state provider. *)
Definition subscribed (chainID : string) (a : action) : option GossipMessage :=
  match a with
  | DeMultiplex m =>
      if IsDataMsg (gm_Content (sgm_Message m)) && bool_decide (gm_Channel (sgm_Message m) = to_bytes chainID) then Some (sgm_Message m) else None
  | _ => None
  end.

(** A message of another peer reaches the channel, and the state provider. *)
Definition from_peer (a : Adapter) (msg : ReceivedMessage) (p : peer) : res peer :=
  let ch := chainID (state p) in
  '(gc, acts) ← HandleMessage ch selfOrg MaxBlockCountToStore (adapter a p) msg (channel p);
  for_state ← remoteStateMsgFilter (VerifyByChannel (committer (state p))) msg;
  let p := with_inbox (inbox p ++ omap (subscribed ch) acts) (with_channel gc p) in
  Ok (if (for_state : bool) then with_state (directMessage msg (state p)) p else p).

(** [listen] takes a block. *)
Definition take_gossip (p : peer) : res peer :=
  match inbox p with
  | [] => Ok p
  | m :: i => s ← queueNewMessage m (state p); Ok (with_inbox i (with_state s p))
  end.

(** [Gossip] of a block. *)
Definition Gossip (a : Adapter) (msg : GossipMessage) (p : peer) : res peer :=
  or_panic (IsTagLegal msg);;
  let sMsg := NoopSign msg in
  gc ← (if IsChannelRestricted msg then AddToMsgStore MaxBlockCountToStore (adapter a p) sMsg (channel p) else Ok (channel p));
  let p := with_channel gc p in
  Ok (if PropagateIterations =? 0 then p else emit sMsg p).

(** A response of the orderer; the blocks provider stays when it returns. *)
Definition from_orderer (a : Adapter) (msg : DeliverMessage) (p : peer) : res peer :=
  r ← react (VerifyBlock (committer (state p))) (chainID (state p)) (counts p) msg;
  match r with
  | HandOn payload c =>
      s ← AddPayload nonBlocking (Some payload) (state p);
      Gossip a (createGossipMsg (chainID s) payload) (with_counts c (with_state s p))
  | Skip c | Reconnect _ c => Ok (with_counts c p)
  | Return => Ok p
  end.

(** The goroutines of the channel, and the calls of its other operations. *)
Inductive channel_work :=
| Expire (now : Z)
| SweepStateInfo (a : Adapter)
| PublishStateInfo (a : Adapter)
| Configure (join : Z * list bytes)
| Publish (a : Adapter) (msg : SignedGossipMessage)
| EndRound
| ExpireNonce (nonce : Z)
| StartRound (members : list NetworkMember) (indices : list nat) (nonces : list Z)
| SendRequests (members : list NetworkMember) (source : string -> nat)
| RunResponse (i : nat).

Definition on_puller (f : PullMediator.mediator -> PullMediator.mediator) (gc : gossipChannel) : gossipChannel :=
  with_blocks (blockMsgStore gc) (f (blocksPuller gc)) gc.

Definition channel_step (ch : string) (w : channel_work) (gc : gossipChannel) : res gossipChannel :=
  match w with
  | Expire now => Ok (leaders_expire leaderTTL now (blocks_expire BlockExpirationInterval now gc))
  | SweepStateInfo a => Ok (purge_state_info a gc)
  | PublishStateInfo a => Ok (publishStateInfo a gc).1
  | Configure join => Ok (ConfigureChannel join gc)
  | Publish a msg => UpdateStateInfo a msg gc
  | EndRound => Ok (on_puller (PullMediator.on_engine PullEngine.endPull) gc)
  | ExpireNonce nonce => Ok (on_puller (PullMediator.on_engine (PullEngine.expire_nonce nonce)) gc)
  | StartRound members indices nonces =>
      Ok (on_puller (fun p => (PullMediator.start_round (to_bytes ch) CHAN_AND_ORG BLOCK_MSG members indices nonces p).1) gc)
  | SendRequests members source => Ok (on_puller (fun p => (PullMediator.send_requests (to_bytes ch) CHAN_AND_ORG BLOCK_MSG members source p).1) gc)
  | RunResponse i => Ok (on_puller (fun p => (PullMediator.run_response (to_bytes ch) CHAN_AND_ORG BLOCK_MSG i p).1) gc)
  end.

(** What the goroutines of the state provider do by themselves. *)
Inductive state_work :=
| WorkMembers (members : list NetworkMember)
| WorkAdder (i : nat)
| WorkDelivery
| WorkRequests
| WorkTimer (nonce : Z)
| WorkTransfer (choice : nat) (nonce : Z) (timeout : bool).

Definition work_event (w : state_work) : event :=
  match w with
  | WorkMembers members => Members members
  | WorkAdder i => RunAdder i
  | WorkDelivery => RunDelivery
  | WorkRequests => RunRequests
  | WorkTimer nonce => Timer nonce
  | WorkTransfer choice nonce timeout => RunTransfer choice nonce timeout
  end.

Inductive input :=
| FromPeer (a : Adapter) (msg : ReceivedMessage)
| FromOrderer (a : Adapter) (msg : DeliverMessage)
| TakeGossip
| ChannelWork (w : channel_work)
| StateWork (w : state_work).

Definition peer_step (p : peer) (i : input) : res peer :=
  match i with
  | FromPeer a msg => from_peer a msg p
  | FromOrderer a msg => from_orderer a msg p
  | TakeGossip => take_gossip p
  | ChannelWork w => gc ← channel_step (chainID (state p)) w (channel p); Ok (with_channel gc p)
  | StateWork w => s ← step VerifyBlock (state p) (work_event w); Ok (with_state s p)
  end.

Fixpoint peer_run (inputs : list input) (p : peer) : res peer :=
  match inputs with [] => Ok p | i :: inputs => p ← peer_step p i; peer_run inputs p end.

(** A peer that joins the channel with a ledger. *)
Definition new_peer (chainID : string) (l : L) (join : Z * list bytes) : res peer :=
  s ← NewGossipStateProvider chainID l; Ok (mkPeer (NewGossipChannel join) [] s (mkCounters 0 0) []).

End GossipPeer.
Arguments peer : clear implicits.
End GossipPeer.
