(* ===== verification/GossipFacts.v ===== *)
(** * Facts about the state transfer

    What holds of every block that a state provider commits, and of the blocks
    that are waiting: the invariant of its goroutines. *)

From stdpp Require Import base gmap strings list.
From Stdlib Require Import Ascii ZArith Lia.
From S2P Require Import Prelude Version Proto Mcs GossipMsgs GossipState.
Local Open Scope Z_scope.

Lemma wrap64_plus_1 z : wrap64 (wrap64 z + 1) = wrap64 (z + 1).
Proof. unfold wrap64. by rewrite Zplus_mod_idemp_l. Qed.

Module StateFacts.
Import PayloadsBuffer GossipState.
Section StateFacts.
Context {L : Type} `{Committer L} `{BlockProto}.

(** The blocks that a committer takes, one after the other. *)
Inductive commits : L -> list Block -> L -> Prop :=
| commits_nil l : commits l [] l
| commits_snoc l bs l1 b l2 : commits l bs l1 -> Commit b l1 = (l2, Ok tt) -> commits l (bs ++ [b]) l2.

Context (VerifyBlock : L -> string -> Z -> bytes -> res unit).

(** What the state provider relies on: a block that is verified can be read, and
    has the number under which it was sent. *)
Definition verifier_sound : Prop := forall l ch n d, VerifyBlock l ch n d = Ok tt ->
  exists raw h, unmarshal_Block d = Ok raw /\ rb_Header raw = Some h /\ is_Some (rb_Data raw) /\ Number h = n.

Context (Hsound : verifier_sound).
Context (l0 : L) (h0 : Z) (ch : string).

(** The payload was verified on a ledger that the peer had, after a number of the
    blocks [bs]. *)
Definition attested (bs : list Block) (p : BlockPayload) : Prop :=
  exists j l, (j <= length bs)%nat /\ commits l0 (take j bs) l /\ VerifyBlock l ch (SeqNum p) (bp_Data p) = Ok tt.

(** The block that is committed for a payload. *)
Definition block_of (p : BlockPayload) (b : Block) : Prop :=
  exists raw h, unmarshal_Block (bp_Data p) = Ok raw /\ rb_Header raw = Some h /\ b = with_header raw h.

Definition adder_payload (a : adder) : BlockPayload := match a with AwaitRoom p | ToPush p => p end.

Definition transfer_adder (t : requester) : option adder := match t with Handling _ _ _ a => a | _ => None end.

(** Where the goroutine of the delivery is, after [n] blocks. *)
Definition delivery_ok (bs : list Block) (d : deliverer) (next : Z) : Prop :=
  match d with
  | Delivering p => SeqNum p = wrap64 (h0 + Z.of_nat (length bs)) /\ next = wrap64 (h0 + Z.of_nat (length bs) + 1) /\ attested bs p
  | _ => next = wrap64 (h0 + Z.of_nat (length bs))
  end.

(** The blocks have the numbers that follow, and were verified before. *)
Definition chain_ok (bs : list Block) : Prop := forall k b, bs !! k = Some b ->
  exists p, block_of p b /\ SeqNum p = wrap64 (h0 + Z.of_nat k) /\ Number (blk_Header b) = SeqNum p /\ attested (take k bs) p.

Record provider_ok (bs : list Block) (s : provider L) : Prop := {
  po_chain : chainID s = ch;
  po_commits : commits l0 bs (committer s);
  po_blocks : chain_ok bs;
  po_delivery : delivery_ok bs (delivery s) (next (payloads s));
  po_buffer k p : buf (payloads s) !! k = Some p -> SeqNum p = k /\ attested bs p;
  po_adding a : a ∈ adding s -> attested bs (adder_payload a);
  po_transfer a : transfer_adder (transfer s) = Some a -> attested bs (adder_payload a);
  po_wakeup : delivery s = Selecting -> is_Some (buf (payloads s) !! next (payloads s)) -> signals (payloads s) <> O
}.

Lemma attested_snoc bs b p : attested bs p -> attested (bs ++ [b]) p.
Proof.
  intros (j & l & Hj & Hc & Hv). exists j, l. split; [rewrite length_app; cbn; lia|]. by rewrite take_app_le.
Qed.

Lemma attested_take bs k p : (k <= length bs)%nat -> attested (take k bs) p -> attested bs p.
Proof.
  intros Hk (j & l & Hj & Hc & Hv). rewrite length_take_le in Hj by done. rewrite take_take, Nat.min_l in Hc by done. exists j, l. split; [lia|done].
Qed.

(** Verified now. *)
Lemma attested_now bs l p : commits l0 bs l -> VerifyBlock l ch (SeqNum p) (bp_Data p) = Ok tt -> attested bs p.
Proof. intros Hc Hv. exists (length bs), l. split; [done|]. by rewrite take_ge. Qed.

Lemma chain_ok_snoc bs b p :
  chain_ok bs -> block_of p b -> SeqNum p = wrap64 (h0 + Z.of_nat (length bs)) -> Number (blk_Header b) = SeqNum p -> attested bs p ->
  chain_ok (bs ++ [b]).
Proof.
  intros Hc Hb Hs Hn Ha k b' [Hk|[Hk Hb']]%lookup_app_Some.
  - destruct (Hc _ _ Hk) as (q & Q). exists q. apply lookup_lt_Some in Hk. by rewrite take_app_le by lia.
  - apply list_lookup_singleton_Some in Hb' as [Hk' <-]. assert (k = length bs) as -> by lia. exists p. by rewrite take_app_length.
Qed.

(** A state that differs in what the invariant does not speak of. *)
Lemma provider_ok_same bs (s s' : provider L) :
  provider_ok bs s -> chainID s' = chainID s -> committer s' = committer s -> delivery s' = delivery s -> payloads s' = payloads s ->
  (forall a, a ∈ adding s' -> a ∈ adding s \/ attested bs (adder_payload a)) ->
  (forall a, transfer_adder (transfer s') = Some a -> transfer_adder (transfer s) = Some a \/ attested bs (adder_payload a)) ->
  provider_ok bs s'.
Proof.
  intros [P1 P2 P3 P4 P5 P6 P7 P8] E1 E2 E3 E4 Ha Ht.
  split; rewrite ?E1, ?E2, ?E3, ?E4; try done.
  - intros a Hin. destruct (Ha a Hin); eauto.
  - intros a Hin. destruct (Ht a Hin); eauto.
Qed.

(** *** The buffer *)

Lemma push_ok bs (s : provider L) p b :
  provider_ok bs s -> attested bs p -> (Push p (payloads s)).1 = b -> provider_ok bs (with_payloads b s).
Proof.
  intros P Ha <-. unfold Push. destruct (_ || _) eqn:E; cbn [fst].
  { apply (provider_ok_same bs s); auto. }
  destruct P as [P1 P2 P3 P4 P5 P6 P7 P8]. split; cbn; try done.
  - intros k q [[<- <-]|[Hk Hq]]%lookup_insert_Some; eauto.
  - intros Hd Hn. destruct (Z.eqb_spec (SeqNum p) (next (payloads s))) as [Hs|Hs]; [done|]. rewrite lookup_insert_ne in Hn by done. eauto.
Qed.

Lemma adder_step_ok bs (s : provider L) a b a' :
  provider_ok bs s -> attested bs (adder_payload a) -> adder_step a (payloads s) = (b, a') ->
  provider_ok bs (with_payloads b s) /\ (forall x, a' = Some x -> attested bs (adder_payload x)).
Proof.
  intros P Ha E. destruct a as [p|p]; cbn in E; injection E as <- <-.
  - split; [by apply (provider_ok_same bs s); auto|]. intros x [= <-]. by destruct (_ <? _).
  - split; [by eapply push_ok|done].
Qed.

Lemma run_adder_ok bs s i : provider_ok bs s -> provider_ok bs (run_adder i s).
Proof.
  intros P. unfold run_adder. destruct (adding s !! i) as [a|] eqn:Ei; [|done].
  pose proof (po_adding _ _ P a (list_elem_of_lookup_2 _ _ _ Ei)) as Ha.
  destruct (adder_step a (payloads s)) as [b a'] eqn:Es. destruct (adder_step_ok _ _ _ _ _ P Ha Es) as [P' Ha'].
  apply (provider_ok_same bs (with_payloads b s)); auto. cbn. intros x Hx. destruct a' as [a'|].
  - apply list_elem_of_lookup in Hx as (j & Hj). apply list_lookup_insert_Some in Hj as [(_ & <- & _)|[_ Hj]]; [right; by apply Ha'|].
    left. by eapply list_elem_of_lookup_2.
  - left. apply list_elem_of_lookup in Hx as (j & Hj). rewrite list_lookup_delete in Hj. destruct (decide (j < i)%nat); by eapply list_elem_of_lookup_2.
Qed.

(** *** The delivery *)

(** A verified payload is never dropped: its block is committed. *)
Lemma deliver_payload_commits bs (s s' : provider L) p :
  attested bs p -> deliver_payload p s = Ok s' ->
  exists b l, block_of p b /\ Number (blk_Header b) = SeqNum p /\ Commit b (committer s) = (l, Ok tt) /\
    s' = with_committed l (Metastate.Bytes (Number (blk_Header b))) s.
Proof.
  intros (j & l & _ & _ & Hv) E. destruct (Hsound _ _ _ _ Hv) as (raw & h & Eu & Eh & [d Ed] & Hn).
  unfold deliver_payload in E. rewrite Eu, Eh, Ed in E. unfold commitBlock in E.
  exists (with_header raw h). destruct (Commit (with_header raw h) (committer s)) as [l' [[]| | |]]; try done. injection E as <-.
  exists l'. split; [by exists raw, h|]. done.
Qed.

Lemma selecting_ok bs s : provider_ok bs s -> delivery s = Selecting ->
  provider_ok bs match receive_ready (payloads s) with Some b => with_delivery Popping (with_payloads b s) | None => s end.
Proof.
  intros P Hd. unfold receive_ready. destruct (signals (payloads s)) as [|n] eqn:En; [done|].
  destruct P as [P1 P2 P3 P4 P5 P6 P7 P8]. rewrite Hd in P4. by split.
Qed.

Lemma popping_ok bs s b p : provider_ok bs s -> delivery s = Popping -> Pop (payloads s) = (b, p) ->
  provider_ok bs (with_delivery (match p with Some p => Delivering p | None => Selecting end) (with_payloads b s)).
Proof.
  intros [P1 P2 P3 P4 P5 P6 P7 P8] Hd E. rewrite Hd in P4. cbn in P4. unfold Pop in E.
  destruct (buf (payloads s) !! next (payloads s)) as [q|] eqn:Eq; injection E as <- <-.
  - split; cbn; try done.
    + destruct (P5 _ _ Eq) as [Hs Ha]. rewrite P4 in Hs. split; [done|]. split; [|done]. by rewrite P4, wrap64_plus_1.
    + intros k q' [_ Hq]%lookup_delete_Some. eauto.
  - split; cbn; try done. intros _ [x Hx]. congruence.
Qed.

Lemma delivering_ok bs s s' p : provider_ok bs s -> delivery s = Delivering p -> deliver_payload p s = Ok s' ->
  exists b, block_of p b /\ provider_ok (bs ++ [b]) (with_delivery Popping s').
Proof.
  intros [P1 P2 P3 P4 P5 P6 P7 P8] Hd E. rewrite Hd in P4. destruct P4 as (Hs & Hn & Ha).
  destruct (deliver_payload_commits _ _ _ _ Ha E) as (b & l & Hb & Hnum & Hc & ->). exists b. split; [done|]. split; cbn; try done.
  - by eapply commits_snoc.
  - by eapply chain_ok_snoc.
  - rewrite Hn, length_app. cbn. f_equal. lia.
  - intros k q Hq. destruct (P5 _ _ Hq). eauto using attested_snoc.
  - eauto using attested_snoc.
  - eauto using attested_snoc.
Qed.

Lemma deliverPayloads_ok bs s s' : provider_ok bs s -> deliverPayloads s = Ok s' -> exists bs', provider_ok (bs ++ bs') s'.
Proof.
  intros P E. unfold deliverPayloads in E. destruct (delivery s) as [| |p] eqn:Ed.
  - injection E as <-. exists []. rewrite app_nil_r. by apply selecting_ok.
  - destruct (Pop (payloads s)) as [b q] eqn:Eq. injection E as <-. exists []. rewrite app_nil_r. by apply popping_ok.
  - apply res_bind_Ok in E as (s1 & E & [= <-]). destruct (delivering_ok _ _ _ _ P Ed E) as (b & _ & P'). by exists [b].
Qed.

(** *** The other goroutines *)

Lemma addPayload_payload p mode s a : addPayload p mode s = Ok a -> p = Some (adder_payload a).
Proof.
  unfold addPayload. destruct p as [p|]; [|done]. intros E. inv_bind. destruct (_ && _); [done|]. injection E as <-. by destruct mode.
Qed.

Lemma start_adding_ok bs s s' p mode :
  provider_ok bs s -> (forall q, p = Some q -> attested bs q) -> start_adding p mode s = Ok s' -> provider_ok bs s'.
Proof.
  intros P Hp E. unfold start_adding in E. destruct (addPayload p mode s) as [a| | |] eqn:Ea; try done; injection E as <-; [|done].
  apply addPayload_payload in Ea. apply (provider_ok_same bs s); auto. cbn. intros x [->|Hx]%elem_of_cons; auto.
Qed.

Lemma directMessage_ok bs s m : provider_ok bs s -> provider_ok bs (directMessage m s).
Proof.
  intros P. unfold directMessage. destruct (negb _); [done|]. destruct (rm_Content m); try done.
  - destruct (_ <? _); [|done]. apply (provider_ok_same bs s); auto.
  - destruct (transfer s) eqn:Et; [done|..]; apply (provider_ok_same bs s); auto.
Qed.

Lemma processStateRequests_ok bs s s' : provider_ok bs s -> processStateRequests s = Ok s' -> provider_ok bs s'.
Proof.
  intros P E. unfold processStateRequests in E. destruct (serving s); [|by injection E as <-].
  destruct (stateRequestCh s) as [|m ms]; [by injection E as <-|].
  destruct (handleStateRequest _ _ _); try done; injection E as <-; apply (provider_ok_same bs s); auto.
Qed.

Lemma next_batch_idle n p e : transfer_adder (next_batch n p e) = None.
Proof. unfold next_batch. by destruct (_ <=? _). Qed.

Lemma with_transfer_ok bs s t : provider_ok bs s -> transfer_adder t = None -> provider_ok bs (with_transfer t s).
Proof. intros P E. apply (provider_ok_same bs s); auto. cbn. rewrite E. done. Qed.

Lemma antiEntropy_ok bs s s' n : provider_ok bs s -> antiEntropy n s = Ok s' -> provider_ok bs s'.
Proof.
  intros P E. unfold antiEntropy in E.
  destruct (transfer s), (LedgerHeight (committer s)); try done; try by injection E as <-.
  destruct (_ =? _); [by injection E as <-|]. destruct (_ <=? _); injection E as <-; [done|].
  apply with_transfer_ok; [done|]. apply next_batch_idle.
Qed.

Lemma handle_response_ok bs s s' n r found max a :
  provider_ok bs s -> transfer s = Handling r found max a -> handle_response VerifyBlock n r found max a s = Ok s' -> provider_ok bs s'.
Proof.
  intros P Et E. unfold handle_response in E. destruct a as [a|].
  { assert (attested bs (adder_payload a)) as Ha by (apply (po_transfer _ _ P); by rewrite Et).
    destruct (adder_step a (payloads s)) as [b a'] eqn:Es. injection E as <-. destruct (adder_step_ok _ _ _ _ _ P Ha Es) as [P' Ha'].
    apply (provider_ok_same bs (with_payloads b s)); auto. }
  destruct found as [|p found]; [injection E as <-; apply with_transfer_ok; [done|apply next_batch_idle]|].
  destruct (VerifyBlock _ _ _ _) as [[]| | |] eqn:Ev; try done; [|injection E as <-; by apply with_transfer_ok].
  rewrite (po_chain _ _ P) in Ev. pose proof (attested_now _ _ _ (po_commits _ _ P) Ev) as Ha.
  destruct (addPayload _ _ _) as [a| | |] eqn:Ea; try done; injection E as <-; [|by apply with_transfer_ok].
  apply addPayload_payload in Ea as [= ->]. apply (provider_ok_same bs s); auto. cbn. intros x [= <-]. by right.
Qed.

Lemma take_response_ok bs s r : provider_ok bs s -> transfer_adder (transfer s) = None -> provider_ok bs (take_response r s).
Proof.
  intros P Et. unfold take_response. destruct (stateResponseCh s) as [|m ms]; [done|].
  assert (forall t, transfer_adder t = None -> provider_ok bs (with_transfer t (with_channels (stateRequestCh s) ms s))) as Hw.
  { intros t E. apply with_transfer_ok; [|done]. apply (provider_ok_same bs s); auto. }
  destruct (negb _); [by apply Hw|]. destruct (rm_Content m) as [| | | | | | | | | | | | | |[]| | |]; by apply Hw.
Qed.

Lemma ask_ok bs s c r : provider_ok bs s -> provider_ok bs (ask c r s).
Proof.
  intros P. unfold ask. destruct (_ <? _); [by apply with_transfer_ok|].
  destruct (selectPeerToRequestFrom _ _ _); [|by apply with_transfer_ok]. apply with_transfer_ok; [|done]. apply (provider_ok_same bs s); auto.
Qed.

Lemma requestBlocksInRange_ok bs s s' c n t : provider_ok bs s -> requestBlocksInRange VerifyBlock c n t s = Ok s' -> provider_ok bs s'.
Proof.
  intros P E. unfold requestBlocksInRange in E. destruct (transfer s) as [|r|r|r found max a] eqn:Et.
  - by injection E as <-.
  - injection E as <-. by apply ask_ok.
  - injection E as <-. destruct t; [by apply with_transfer_ok|]. apply take_response_ok; [done|]. by rewrite Et.
  - by eapply handle_response_ok.
Qed.

(** *** Every step *)

(** The blocks that come from outside were verified. *)
Definition event_ok (bs : list Block) (e : event) : Prop :=
  match e with
  | Gossiped m => gm_Channel m = to_bytes ch -> forall p, gm_Content m = DataMsg (Some p) -> attested bs p
  | Ordered _ q => forall p, q = Some p -> attested bs p
  | _ => True
  end.

Lemma state_step_ok bs s s' e : provider_ok bs s -> event_ok bs e -> step VerifyBlock s e = Ok s' -> exists bs', provider_ok (bs ++ bs') s'.
Proof.
  intros P He E.
  assert (provider_ok bs s' -> exists bs', provider_ok (bs ++ bs') s') as Hsame by (exists []; by rewrite app_nil_r).
  destruct e; cbn in E.
  - apply Hsame. unfold queueNewMessage in E. case_bool_decide as Hch; cbn in E; [|by injection E as <-].
    rewrite (po_chain _ _ P) in Hch. destruct (gm_Content msg) eqn:Ec; try by injection E as <-.
    eapply start_adding_ok; [done| |done]. intros q ->. by apply He.
  - injection E as <-. by apply Hsame, directMessage_ok.
  - apply Hsame. by eapply start_adding_ok.
  - injection E as <-. apply Hsame, (provider_ok_same bs s); auto.
  - injection E as <-. by apply Hsame, run_adder_ok.
  - by eapply deliverPayloads_ok.
  - by eapply Hsame, processStateRequests_ok.
  - by eapply Hsame, antiEntropy_ok.
  - by eapply Hsame, requestBlocksInRange_ok.
Qed.

Lemma new_provider_ok s : LedgerHeight l0 = Ok h0 -> u64 h0 -> NewGossipStateProvider ch l0 = Ok s -> provider_ok [] s.
Proof.
  intros Hh Hu E. unfold NewGossipStateProvider in E. rewrite Hh in E. destruct (h0 =? 0); [done|]. injection E as <-. split; cbn; try done.
  - constructor.
  - by rewrite Z.add_0_r, wrap64_small.
  - intros a []%elem_of_nil.
  - by intros _ [? ?].
Qed.

(** *** Waiting blocks are committed *)

Lemma commits_inv l bs l' : commits l bs l' ->
  (bs = [] /\ l' = l) \/ (exists bs1 b l1, bs = bs1 ++ [b] /\ commits l bs1 l1 /\ Commit b l1 = (l', Ok tt)).
Proof. destruct 1; [by left|right; eauto 10]. Qed.

Lemma commits_cons l b bs l' : commits l (b :: bs) l' -> exists l1, Commit b l = (l1, Ok tt) /\ commits l1 bs l'.
Proof.
  revert l'. induction bs as [|x bs IH] using rev_ind; intros l' [[? _]|(bs1 & y & l1 & E & Hc & Hy)]%commits_inv; try done.
  - assert (bs1 = [] /\ y = b) as [-> ->] by (destruct bs1 as [|? [|]]; cbn in E; by simplify_eq).
    apply commits_inv in Hc as [[_ ->]|(bs1 & ? & ? & E1 & _)]; [|by destruct bs1]. exists l'. split; [done|constructor].
  - change (b :: bs ++ [x]) with ((b :: bs) ++ [x]) in E. apply app_inj_tail in E as [<- <-].
    destruct (IH _ Hc) as (l2 & Hb2 & Hc2). exists l2. split; [done|]. by eapply commits_snoc.
Qed.

(** The blocks wait in the buffer, the first one at [n]. *)
Definition waiting (b : PayloadsBufferImpl) (n : Z) (bl : list Block) : Prop :=
  forall k x, bl !! k = Some x -> exists p, buf b !! wrap64 (n + Z.of_nat k) = Some p /\ block_of p x.

Lemma block_of_unique p b b' : block_of p b -> block_of p b' -> b = b'.
Proof. intros (raw & h & E & Eh & ->) (raw' & h' & E' & Eh' & ->). congruence. Qed.

Lemma block_delivered bs s p x l1 :
  attested bs p -> block_of p x -> delivery s = Delivering p -> Commit x (committer s) = (l1, Ok tt) ->
  deliverPayloads s = Ok (with_delivery Popping (with_committed l1 (Metastate.Bytes (Number (blk_Header x))) s)).
Proof.
  intros (j & l & _ & _ & Hv) (raw & h & Eu & Eh & ->) Hd Hc. destruct (Hsound _ _ _ _ Hv) as (raw' & h' & Eu' & Eh' & [d Ed] & _).
  rewrite Eu in Eu'. injection Eu' as <-. unfold deliverPayloads, deliver_payload, commitBlock. by rewrite Hd, Eu, Eh, Ed, Hc.
Qed.

Lemma wrap64_shift n (k : nat) : wrap64 (wrap64 (n + 1) + Z.of_nat k) = wrap64 (n + Z.of_nat (S k)).
Proof. unfold wrap64. rewrite Zplus_mod_idemp_l. f_equal. lia. Qed.

Lemma wrap64_apart n k : u64 n -> 0 < k < 2 ^ 64 -> wrap64 (n + k) <> n.
Proof.
  intros [H1 H2] Hk E. unfold wrap64 in E. destruct (Z_lt_le_dec (n + k) (2 ^ 64)).
  - rewrite Z.mod_small in E; lia.
  - replace (n + k) with (n + k - 2 ^ 64 + 1 * 2 ^ 64) in E by lia. rewrite Z.mod_add, Z.mod_small in E; lia.
Qed.

Lemma drained bs s bl l' :
  provider_ok bs s -> delivery s = Popping -> waiting (payloads s) (next (payloads s)) bl -> Z.of_nat (length bl) < 2 ^ 64 ->
  commits (committer s) bl l' ->
  exists s', run VerifyBlock (replicate (2 * length bl) RunDelivery) s = Ok s' /\ committer s' = l' /\ provider_ok (bs ++ bl) s'.
Proof.
  revert bs s. induction bl as [|x bl IH]; intros bs s P Hd Hw Hlen Hc.
  { apply commits_inv in Hc as [[_ ->]|(bs1 & ? & ? & E & _)]; [|by destruct bs1]. exists s. by rewrite app_nil_r. }
  apply commits_cons in Hc as (l1 & Hx & Hc). destruct (Hw 0%nat x eq_refl) as (p & Hp & Hb).
  pose proof (po_delivery _ _ P) as Hn. rewrite Hd in Hn. cbn in Hn.
  assert (u64 (next (payloads s))) as Hu by (rewrite Hn; apply wrap64_u64).
  rewrite Z.add_0_r, wrap64_small in Hp by done.
  assert (Pop (payloads s) = (mkBuffer (wrap64 (next (payloads s) + 1)) (delete (next (payloads s)) (buf (payloads s))) (signals (payloads s)), Some p)) as Epop
    by (unfold Pop; by rewrite Hp).
  pose proof (popping_ok _ _ _ _ P Hd Epop) as P1. cbn in P1. set (s1 := with_delivery (Delivering p) _) in P1.
  destruct (po_buffer _ _ P _ _ Hp) as [_ Ha].
  pose proof (block_delivered bs s1 p x l1 Ha Hb eq_refl Hx) as E2. set (s2 := with_delivery Popping _) in E2.
  assert (provider_ok (bs ++ [x]) s2) as P2.
  { unfold deliverPayloads in E2. cbn [delivery s1 with_delivery] in E2. apply res_bind_Ok in E2 as (s3 & E3 & E4%Ok_inj).
    destruct (delivering_ok _ _ _ _ P1 eq_refl E3) as (x' & Hx' & P3). rewrite (block_of_unique _ _ _ Hb Hx'). by rewrite E4 in P3. }
  destruct (IH (bs ++ [x]) s2 P2 eq_refl) as (s' & Er & El & P'); [|cbn in Hlen; lia|done|].
  { intros k y Hk. destruct (Hw (S k) y Hk) as (q & Hq & Hqb). exists q. split; [|done]. cbn [payloads s2 s1 with_committed with_delivery with_payloads buf next].
    rewrite wrap64_shift, lookup_delete_ne; [done|]. intros E. symmetry in E. revert E. apply wrap64_apart; [done|].
    apply lookup_lt_Some in Hk. cbn in Hlen. lia. }
  exists s'. split; [|by rewrite <- app_assoc in P'].
  replace (2 * length (x :: bl))%nat with (S (S (2 * length bl))) by (cbn; lia). cbn [replicate run step].
  assert (deliverPayloads s = Ok s1) as E1 by (unfold deliverPayloads; by rewrite Hd, Epop).
  rewrite E1, res_ret_bind. by rewrite E2, res_ret_bind.
Qed.

(** The wake-up that was sent with the first of the blocks starts the loop. *)
Lemma po_delivery_starts bs s bl l' :
  provider_ok bs s -> delivery s = Selecting -> waiting (payloads s) (next (payloads s)) bl -> Z.of_nat (length bl) < 2 ^ 64 ->
  commits (committer s) bl l' ->
  exists s', run VerifyBlock (replicate (1 + 2 * length bl) RunDelivery) s = Ok s' /\ committer s' = l'.
Proof.
  intros P Hd Hw Hlen Hc. pose proof (selecting_ok _ _ P Hd) as P1.
  cbn [Nat.add replicate run step]. unfold deliverPayloads at 1. rewrite Hd, res_ret_bind.
  destruct bl as [|x bl].
  { apply commits_inv in Hc as [[_ ->]|(bs1 & ? & ? & E & _)]; [|by destruct bs1]. eexists. split; [done|].
    unfold receive_ready. by destruct (signals (payloads s)). }
  destruct (Hw 0%nat x eq_refl) as (p & Hp & _). pose proof (po_delivery _ _ P) as Hn. rewrite Hd in Hn. cbn in Hn.
  rewrite Z.add_0_r, wrap64_small in Hp by (rewrite Hn; apply wrap64_u64).
  pose proof (po_wakeup _ _ P Hd (mk_is_Some _ _ Hp)) as Hsig. unfold receive_ready in *. destruct (signals (payloads s)) as [|n]; [done|].
  destruct (drained bs _ (x :: bl) l' P1 eq_refl Hw Hlen Hc) as (s' & Es & El & _). by exists s'.
Qed.

End StateFacts.
End StateFacts.

(** ** Reading blocks for other peers *)

(** What a committer promises of its reads: [stored l bs] are its blocks.  The
    number [2^64 - 1] stands for the last block in the ledger. *)
Class CommitterSpec (L : Type) `{Committer L} := {
  stored : L -> list Block -> Prop;
  stored_len l bs : stored l bs -> Z.of_nat (length bs) < 2 ^ 62;
  stored_height l bs : stored l bs -> LedgerHeight l = Ok (Z.of_nat (length bs));
  stored_block l bs n : stored l bs -> 0 <= n < 2 ^ 64 - 1 -> GetBlocks l [n] = Ok (option_list (bs !! Z.to_nat n));
  stored_total l bs n : stored l bs -> u64 n -> is_ok (GetBlocks l [n])
}.

Module RequestFacts.
Import GossipState.

Lemma shiftr63 z : u64 z -> Z.shiftr z 63 = if z <? 2 ^ 63 then 0 else 1.
Proof.
  intros [H1 H2]. rewrite Z.shiftr_div_pow2 by lia. destruct (Z.ltb_spec z (2 ^ 63)); [by apply Z.div_small|].
  symmetry. apply (Z.div_unique z (2 ^ 63) 1 (z - 2 ^ 63)); lia.
Qed.

Lemma land_u64 z : u64 z -> Z.land z (2 ^ 64 - 1) = z.
Proof. intros [H1 H2]. replace (2 ^ 64 - 1) with (Z.ones 64) by done. rewrite Z.land_ones by lia. by apply Z.mod_small. Qed.

Lemma lxor_u64 a b : u64 a -> u64 b -> u64 (Z.lxor a b).
Proof.
  intros [H1 H2] [H3 H4]. unfold u64. split; [by apply Z.lxor_nonneg|].
  destruct (Z.eq_dec (Z.lxor a b) 0) as [->|Hne]; [done|]. assert (0 <= Z.lxor a b) by (by apply Z.lxor_nonneg).
  apply Z.log2_lt_pow2; [lia|]. pose proof (Z.log2_lxor a b H1 H3) as Hl.
  assert (forall z, 0 <= z < 2 ^ 64 -> Z.log2 z < 64) as Hlog.
  { intros z Hz. destruct (Z.eq_dec z 0) as [->|]; [done|]. apply Z.log2_lt_pow2; lia. }
  pose proof (Hlog a ltac:(lia)). pose proof (Hlog b ltac:(lia)). lia.
Qed.

(** The least of two numbers, as long as they are not too far apart. *)
Lemma min_spec a b : u64 a -> u64 b -> min a b = if wrap64 (a - b) <? 2 ^ 63 then b else a.
Proof.
  intros Ha Hb. unfold min. rewrite shiftr63 by apply wrap64_u64. destruct (_ <? _); cbn [Z.opp].
  - change (wrap64 0) with 0. by rewrite Z.land_0_r, Z.lxor_0_r.
  - change (wrap64 (-1)) with (2 ^ 64 - 1). rewrite land_u64 by (by apply lxor_u64).
    rewrite (Z.lxor_comm a b), <- Z.lxor_assoc, Z.lxor_nilpotent. apply Z.lxor_0_l.
Qed.

Lemma wrap64_sub a b : u64 a -> u64 b -> wrap64 (a - b) = if a <? b then a - b + 2 ^ 64 else a - b.
Proof.
  intros [H1 H2] [H3 H4]. unfold wrap64. destruct (Z.ltb_spec a b); [|by apply Z.mod_small; lia].
  replace (a - b) with (a - b + 2 ^ 64 + (-1) * 2 ^ 64) at 1 by lia. rewrite Z.mod_add by lia. apply Z.mod_small. lia.
Qed.

Section RequestFacts.
Context {L : Type} `{CommitterSpec L} `{BlockProto}.

(** The payload of a block that is there. *)
Definition payload_at (bs : list Block) (n : Z) : option BlockPayload :=
  (fun b => mkBlockPayload n (marshal_Block (raw_block b))) <$> bs !! Z.to_nat n.

(** The blocks that are there with the numbers from [start] to [end_]. *)
Definition blocks_between (bs : list Block) (start end_ : Z) : list BlockPayload := omap (payload_at bs) (seqZ start (end_ - start + 1)).

Lemma omap_None {A B} (f : A -> option B) l : (forall x, x ∈ l -> f x = None) -> omap f l = [].
Proof. induction l as [|x l IH]; intros Hf; [done|]. cbn. rewrite (Hf x) by (by left). apply IH. intros y Hy. apply Hf. by right. Qed.

(** Behind the last block there is nothing. *)
Lemma blocks_between_end bs start e e' :
  0 <= start -> Z.of_nat (length bs) <= e' + 1 -> e' <= e -> blocks_between bs start e' = blocks_between bs start e.
Proof.
  intros Hs He' He. unfold blocks_between. destruct (Z_lt_le_dec (e' + 1) start) as [Hlt|Hle].
  - rewrite !omap_None; [done|..]; intros n Hn%elem_of_seqZ; unfold payload_at; by rewrite lookup_ge_None_2 by lia.
  - replace (e - start + 1) with ((e' - start + 1) + (e - e')) by lia. rewrite (seqZ_app start (e' - start + 1) (e - e')) by lia.
    rewrite omap_app, (omap_None _ (seqZ (start + _) _)); [by rewrite app_nil_r|]. intros n Hn%elem_of_seqZ. unfold payload_at.
    by rewrite lookup_ge_None_2 by lia.
Qed.

Lemma read_blocks_spec fuel l bs start e :
  stored l bs -> 0 <= start -> e < 2 ^ 64 - 1 -> Z.max 0 (e - start + 1) < Z.of_nat fuel ->
  read_blocks fuel l start e = Ok (blocks_between bs start e).
Proof.
  intros Hl. revert start. induction fuel as [|fuel IH]; intros start Hs He Hf; [lia|]. cbn [read_blocks].
  destruct (Z.leb_spec start e) as [Hle|Hlt].
  - rewrite (stored_block l bs) by (done || lia). rewrite res_ret_bind, wrap64_small by (unfold u64; lia).
    rewrite IH by lia. rewrite res_ret_bind. f_equal. unfold blocks_between. rewrite (seqZ_cons start) by lia.
    replace (Z.pred (e - start + 1)) with (e - (start + 1) + 1) by lia. cbn. unfold payload_at at 3. by destruct (bs !! Z.to_nat start).
  - unfold blocks_between. by rewrite seqZ_nil by lia.
Qed.

(** Every number is at most the greatest one: the loop goes round. *)
Lemma read_blocks_forever fuel l bs start : stored l bs -> u64 start -> read_blocks fuel l start (2 ^ 64 - 1) = OutOfFuel.
Proof.
  intros Hl. revert start. induction fuel as [|fuel IH]; intros start Hs; [done|]. cbn [read_blocks].
  destruct (Z.leb_spec start (2 ^ 64 - 1)) as [Hle|Hlt]; [|destruct Hs; lia].
  pose proof (stored_total l bs start Hl Hs) as [r ->]%is_ok_iff. rewrite res_ret_bind, IH; [done|apply wrap64_u64].
Qed.

(** The end that is read to, for a ledger with less than [2^62] blocks. *)
Lemma request_end l bs e : stored l bs -> u64 e ->
  min (Z.of_nat (length bs)) e = if (Z.of_nat (length bs) <? e) && (e <=? Z.of_nat (length bs) + 2 ^ 63) then Z.of_nat (length bs) else e.
Proof.
  intros Hl He. pose proof (stored_len _ _ Hl). assert (u64 (Z.of_nat (length bs))) as Hu by (unfold u64; lia).
  rewrite min_spec, wrap64_sub by done. destruct He as [He1 He2].
  destruct (Z.ltb_spec (Z.of_nat (length bs)) e); cbn [andb].
  - destruct (Z.leb_spec e (Z.of_nat (length bs) + 2 ^ 63)), (Z.ltb_spec (Z.of_nat (length bs) - e + 2 ^ 64) (2 ^ 63)); lia || done.
  - destruct (Z.ltb_spec (Z.of_nat (length bs) - e) (2 ^ 63)); lia || done.
Qed.

Lemma request_read l bs start e :
  stored l bs -> 0 <= start -> u64 e -> e < 2 ^ 64 - 1 -> e <= start + 10 ->
  read_blocks 12 l start (min (Z.of_nat (length bs)) e) = Ok (blocks_between bs start e).
Proof.
  intros Hl Hs He He' Hb. rewrite (request_end l) by done. destruct (_ && _) eqn:E.
  - apply andb_true_iff in E as [E1%Z.ltb_lt E2%Z.leb_le]. rewrite (read_blocks_spec _ _ bs) by (done || lia).
    f_equal. apply blocks_between_end; lia.
  - apply read_blocks_spec; done || lia.
Qed.

Lemma request_forever fuel l bs start :
  stored l bs -> u64 start -> read_blocks fuel l start (min (Z.of_nat (length bs)) (2 ^ 64 - 1)) = OutOfFuel.
Proof.
  intros Hl Hs. pose proof (stored_len _ _ Hl). rewrite (request_end l) by (done || unfold u64; lia).
  destruct (Z.leb_spec (2 ^ 64 - 1) (Z.of_nat (length bs) + 2 ^ 63)); [lia|]. rewrite andb_false_r. by eapply read_blocks_forever.
Qed.

End RequestFacts.
End RequestFacts.
