(* ===== verification/GossipTheorems.v ===== *)
(** * What reaches the ledger of a peer

    The blocks that a peer on a channel commits are signed by the orderers of the
    channel and follow each other, whatever the other peers and the orderer send;
    blocks that wait are committed; and what a peer answers to a request for
    blocks. *)

From stdpp Require Import base gmap strings list.
From Stdlib Require Import Ascii ZArith Lia.
From S2P Require Import Prelude Proto BlockHash BlockMgr KVProvider CAuthDSL Policies OrdererChain MsgValidation.
From S2P Require Import Mcs GossipMsgs GossipState GossipPull GossipChannel DeliverClient GossipPeer GossipFacts OrdererTheorems EndorserTheorems.
Import CommonUtil BlockHash BlockMetadataUtils Policies.
Local Open Scope Z_scope.

(** ** The crypto service *)

Module McsFacts.
Section McsFacts.
Context `{ProtoCodec} `{SignatureCodec} `{TxCodec} `{CryptoHash} `{OrdererCodec} `{BlockProto}.

(** A block of the channel whose data is that of its header, and whose header is
    signed as the channel asks of its orderers. *)
Definition block_signed (Manager : string -> option ManagerImpl) (ch : string) (b : Block) : Prop :=
  BlockUtils.GetChainIDFromBlock b = Ok ch /\ data_Hash (blk_Data b) = Ok (DataHash (blk_Header b)) /\
  exists md cpm sds, GetMetadataFromBlock b SIGNATURES = Ok md /\ Manager ch = Some cpm /\
    mapM_res (MCS.block_signature md (blk_Header b)) (md_Signatures md) = Ok sds /\
    Policies.Evaluate (GetPolicy None cpm BlockValidation).1 sds = Ok tt.

Lemma verified_block Manager ch n d : MCS.VerifyBlock Manager ch n d = Ok tt ->
  exists raw h, unmarshal_Block d = Ok raw /\ rb_Header raw = Some h /\ is_Some (rb_Data raw) /\ Number h = n /\
    block_signed Manager ch (with_header raw h).
Proof.
  unfold MCS.VerifyBlock. intros E. apply res_bind_Ok in E as (raw & Er%or_fail_Ok & E). destruct (rb_Header raw) as [h|] eqn:Eh; [|done].
  destruct (Z.eqb_spec n (Number h)) as [->|]; cbn [negb] in E; [|done].
  apply res_bind_Ok in E as (c & Ec%or_fail_Ok & E). case_bool_decide as Hc; cbn [negb] in E; [subst c|done].
  destruct (decide _); [done|]. apply res_bind_Ok in E as (md & Em%or_fail_Ok & E). apply res_bind_Ok in E as (hash & Ehash & E).
  case_bool_decide as Hh; cbn [negb] in E; [subst hash|done]. destruct (Manager ch) as [cpm|] eqn:Ecpm; [|done].
  apply res_bind_Ok in E as (sds & Es & E). exists raw, h. split; [done|]. split; [done|]. split.
  { unfold BlockUtils.GetChainIDFromBlock in Ec. cbn in Ec. destruct (rb_Data raw); [by eexists|done]. }
  split; [done|]. split; [done|]. split; [done|]. by exists md, cpm, sds.
Qed.

End McsFacts.
End McsFacts.

(** ** The channel *)

Module ChannelFacts.
Import GossipChannel.
Section ChannelFacts.
Context `{GossipCodec} `{CryptoHash}.
Context (chainID : string) (selfOrg : bytes) (MaxBlockCountToStore : Z) (a : Adapter).

(** The message carries a block of the channel that was verified. *)
Definition block_verified (m : GossipMessage) : Prop :=
  gm_Channel m = to_bytes chainID -> forall p, gm_Content m = DataMsg (Some p) -> ad_VerifyBlock a chainID (SeqNum p) (bp_Data p) = Ok tt.

Lemma verifyBlock_Ok m : verifyBlock a m = Ok true -> block_verified m.
Proof.
  unfold verifyBlock. intros E Hc p Hp. rewrite Hc, Hp, String.string_of_list_ascii_of_string in E.
  by destruct (ad_VerifyBlock _ _ _ _) as [[]| | |].
Qed.

(** The blocks of an update that are left were verified. *)
Lemma filter_update_verified update data gc gc' l :
  filter_update chainID MaxBlockCountToStore a update data gc = Ok (gc', Some l) ->
  forall item m, item ∈ l -> ToGossipMessage item = Ok m -> block_verified (sgm_Message m).
Proof.
  revert gc gc' l. induction data as [|x data IH]; intros gc gc' l E item m Hin Hm.
  { cbn in E. simplify_eq. by apply elem_of_nil in Hin. }
  cbn in E. destruct (ToGossipMessage x) as [gm| | |] eqn:Ex; try done. destruct (negb (bool_decide _)); [done|].
  apply res_bind_Ok in E as (valid & _ & E). destruct (negb valid); [done|]. apply res_bind_Ok in E as (ok & Ev & E).
  destruct ok; cbn [negb] in E; [|done]. apply res_bind_Ok in E as ([gc1 added] & _ & E). apply res_bind_Ok in E as ([gc2 rest] & Er & E).
  destruct rest as [rest|]; [|done]. injection E as -> <-. specialize (IH _ _ _ Er item m).
  destruct added; [|by apply IH]. apply elem_of_cons in Hin as [->|Hin]; [|by apply IH]. rewrite Ex in Hm. injection Hm as ->.
  by apply verifyBlock_Ok.
Qed.

Lemma take_items_acts f data msgs msgs' acts ids ok m :
  PullMediator.take_items f data msgs = (msgs', acts, ids, ok) -> DeMultiplex m ∈ acts -> exists item, item ∈ data /\ ToGossipMessage item = Ok m.
Proof.
  revert msgs msgs' acts ids ok. induction data as [|x data IH]; intros msgs msgs' acts ids ok E Hin; cbn in E.
  { simplify_eq. by apply elem_of_nil in Hin. }
  destruct (ToGossipMessage x) as [gm| | |] eqn:Ex; try by (simplify_eq; apply elem_of_nil in Hin).
  destruct (PullMediator.take_items _ _ _) as [[[msgs1 acts1] ids1] ok1] eqn:Et. simplify_eq.
  apply elem_of_cons in Hin as [[= ->]|Hin]; [exists x; split; [by left|done]|].
  destruct (IH _ _ _ _ _ Et Hin) as (item & Hi & Em). exists item. split; [by right|done].
Qed.

(** What the puller gives to the subscribers are items of an update. *)
Lemma pulled_items msg gc m :
  DeMultiplex m ∈ (pull chainID msg gc).2 ->
  exists nonce data t item, rm_Content msg = DataUpdate nonce data t /\ item ∈ data /\ ToGossipMessage item = Ok m.
Proof.
  unfold pull, puller_HandleMessage, PullMediator.HandleMessage. destruct (_ || _); [by intros []%elem_of_nil|].
  destruct (rm_Content msg); cbn; try by intros []%elem_of_nil.
  - destruct (elements _); cbn; [by intros []%elem_of_nil|]. by intros [?|[]%elem_of_nil]%elem_of_cons.
  - destruct (PullEngine.OnReq _ _ _); by intros []%elem_of_nil.
  - destruct (PullMediator.take_items _ _ _) as [[[msgs acts] ids] ok] eqn:Et. cbn. intros Hin.
    destruct (take_items_acts _ _ _ _ _ _ _ _ Et Hin) as (item & Hi & Em). eauto 10.
Qed.

Lemma handle_pull_verified id msg gc gc' acts m :
  handle_pull chainID selfOrg MaxBlockCountToStore a id msg gc = Ok (gc', acts) -> DeMultiplex m ∈ acts -> block_verified (sgm_Message m).
Proof.
  unfold handle_pull. intros E Hin. destruct (MsgByID id gc); [|simplify_eq; by apply elem_of_nil in Hin].
  apply res_bind_Ok in E as (el & _ & E). destruct (negb el); [simplify_eq; by apply elem_of_nil in Hin|].
  assert (rm_Content msg = rm_Content msg) as Hc by done. destruct (rm_Content msg) eqn:Ec in E;
    try by (injection E as E; assert (acts = (pull chainID msg gc).2) as -> by (by rewrite E);
            apply pulled_items in Hin as (? & ? & ? & ? & Ed & _); congruence).
  apply res_bind_Ok in E as ([gc1 filtered] & Ef & E). destruct filtered as [l|]; [|simplify_eq; by apply elem_of_nil in Hin].
  injection E as E. assert (acts = (pull chainID (with_content (DataUpdate nonce l msgType) msg) gc1).2) as -> by (by rewrite E).
  apply pulled_items in Hin as (? & ? & ? & item & [= <- <- <-] & Hi & Em). by eapply filter_update_verified.
Qed.

Lemma handle_gossiped_verified m gc gc' acts m' :
  handle_gossiped MaxBlockCountToStore a m gc = Ok (gc', acts) -> DeMultiplex m' ∈ acts -> block_verified (sgm_Message m').
Proof.
  unfold handle_gossiped. intros E Hin.
  assert (IsDataMsg (gm_Content (sgm_Message m)) = false -> m' = m -> block_verified (sgm_Message m')) as Hother.
  { intros Hd -> _ p Hp. by rewrite Hp in Hd. }
  assert (forall b : bool, DeMultiplex m' ∈ (if b then [Forward m; DeMultiplex m] else []) -> m' = m) as Hm.
  { intros []; [|by intros []%elem_of_nil]. intros [?|[[= ->]|[]%elem_of_nil]%elem_of_cons]%elem_of_cons; done. }
  destruct (gm_Content (sgm_Message m)) as [| | |[payload|]| | | | | | | | | | | | | |] eqn:Ec;
    try (apply res_bind_Ok in E as ([gc1 added] & _ & [= _ <-]); apply Hm in Hin; by apply Hother).
  2: { simplify_eq. by apply elem_of_nil in Hin. }
  apply res_bind_Ok in E as (valid & _ & E). destruct (negb valid); [simplify_eq; by apply elem_of_nil in Hin|].
  apply res_bind_Ok in E as (ok & Ev & E). destruct ok; cbn [negb] in E; [|simplify_eq; by apply elem_of_nil in Hin].
  apply res_bind_Ok in E as ([gc1 added] & _ & E). assert (m' = m) as ->.
  { apply (Hm added). destruct added; by simplify_eq. }
  by apply verifyBlock_Ok.
Qed.

(** Every block that is given to the subscribers was verified. *)
Lemma channel_verified msg gc gc' acts m :
  HandleMessage chainID selfOrg MaxBlockCountToStore a msg gc = Ok (gc', acts) -> DeMultiplex m ∈ acts -> block_verified (sgm_Message m).
Proof.
  unfold HandleMessage. intros E Hin. apply res_bind_Ok in E as (v & _ & E).
  assert (forall gc1 : gossipChannel, Ok (gc1, @nil action) = Ok (gc', acts) -> block_verified (sgm_Message m)) as Hnil.
  { intros gc1 [= _ <-]. by apply elem_of_nil in Hin. }
  destruct (negb v); [by eapply Hnil|]. destruct (negb _); [by eapply Hnil|]. destruct (default [] _) as [|o os]; [by eapply Hnil|].
  destruct (negb _); [by eapply Hnil|].
  destruct (gm_Content (sgm_Message (rm_Message msg))) eqn:Ec; try by eapply Hnil.
  all: try (destruct (decide _); [by eapply handle_pull_verified|by eapply Hnil]).
  all: try by eapply handle_gossiped_verified.
  - apply res_bind_Ok in E as (gc1 & _ & E). by eapply Hnil.
  - injection E as <- <-. apply list_elem_of_singleton in Hin. done.
  - apply res_bind_Ok in E as ([[s inv] added] & _ & [= _ <-]). destruct added; [|by apply elem_of_nil in Hin].
    apply list_elem_of_singleton in Hin as [= ->]. intros _ p Hp. congruence.
Qed.

End ChannelFacts.
End ChannelFacts.

(** ** The peer *)

Module PeerFacts.
Import GossipState GossipChannel GossipPeer StateFacts ChannelFacts.
Section PeerFacts.
Context {L : Type} `{Committer L} `{BlockProto} `{GossipCodec} `{CryptoHash}.
Context (VerifyBlock : L -> string -> Z -> bytes -> res unit) (VerifyByChannel : L -> string -> bytes -> bytes -> bytes -> res unit).
Context (Hsound : verifier_sound VerifyBlock).
Context (selfOrg : bytes) (MaxBlockCountToStore BlockExpirationInterval leaderTTL PropagateIterations : Z) (nonBlocking : bool).
Context (l0 : L) (h0 : Z) (ch : string).

#[local] Abbreviation ok_state := (provider_ok VerifyBlock l0 h0 ch).
#[local] Abbreviation ok_payload := (attested VerifyBlock l0 ch).
#[local] Abbreviation peer_step := (peer_step VerifyBlock VerifyByChannel selfOrg MaxBlockCountToStore BlockExpirationInterval leaderTTL PropagateIterations nonBlocking).
#[local] Abbreviation peer_run := (peer_run VerifyBlock VerifyByChannel selfOrg MaxBlockCountToStore BlockExpirationInterval leaderTTL PropagateIterations nonBlocking).

(** The state is that after the blocks [bs], and the blocks that wait for the
    state provider were verified. *)
Record peer_ok (bs : list Block) (p : peer L) : Prop := {
  pk_state : ok_state bs (state p);
  pk_inbox m q : m ∈ inbox p -> gm_Content m = DataMsg (Some q) -> ok_payload bs q
}.

Lemma attested_app bs bs' p : ok_payload bs p -> ok_payload (bs ++ bs') p.
Proof.
  intros Hp. apply (attested_take _ _ _ (bs ++ bs') (length bs)); [rewrite length_app; lia|]. by rewrite take_app_length.
Qed.

Lemma peer_ok_state bs bs' p s : peer_ok bs p -> ok_state (bs ++ bs') s -> peer_ok (bs ++ bs') (with_state s p).
Proof. intros [P I] P'. split; [done|]. intros m q Hm Hq. cbn in Hm. eauto using attested_app. Qed.

Lemma peer_ok_with bs p s : peer_ok bs p -> ok_state bs s -> peer_ok bs (with_state s p).
Proof. intros P Hs. rewrite <- (app_nil_r bs). apply peer_ok_state; [done|]. by rewrite app_nil_r. Qed.

Lemma peer_ok_other bs p p' : peer_ok bs p -> state p' = state p -> inbox p' = inbox p -> peer_ok bs p'.
Proof. intros [P I] Es Ei. split; [by rewrite Es|]. by rewrite Ei. Qed.

Lemma from_peer_ok bs p p' a msg :
  peer_ok bs p -> from_peer VerifyBlock VerifyByChannel selfOrg MaxBlockCountToStore a msg p = Ok p' -> peer_ok bs p'.
Proof.
  intros P E. unfold from_peer in E. apply res_bind_Ok in E as ([gc acts] & Eh & E). apply res_bind_Ok in E as (fs & _ & [= <-]).
  pose proof (pk_state _ _ P) as Ps.
  assert (peer_ok bs (with_inbox (inbox p ++ omap (subscribed (chainID (state p))) acts) (with_channel gc p))) as P1.
  { split; [done|]. cbn. intros m q [Hm|Hm]%elem_of_app Hq; [by eapply pk_inbox|].
    apply list_elem_of_omap in Hm as (x & Hx & Hs). destruct x as [|? ?|?|y]; try done. cbn in Hs.
    destruct (_ && _) eqn:Eb; [|done]. injection Hs as <-. apply andb_true_iff in Eb as [_ Hc%bool_decide_eq_true].
    pose proof (channel_verified _ _ _ _ _ _ _ _ _ Eh Hx Hc q Hq) as Hv. cbn in Hv. rewrite (po_chain _ _ _ _ _ _ Ps) in Hv.
    eapply attested_now; [apply (po_commits _ _ _ _ _ _ Ps)|done]. }
  destruct fs; [|done]. apply peer_ok_with; [done|]. by apply directMessage_ok.
Qed.

Lemma status_no_block c st q c' : BlocksProvider.on_status c st <> BlocksProvider.HandOn q c'.
Proof. unfold BlocksProvider.on_status. destruct st; try destruct (_ <? BlocksProvider.errorStatusCounter _ + 1); done. Qed.

Lemma from_orderer_ok bs p p' a msg :
  peer_ok bs p -> from_orderer VerifyBlock VerifyByChannel MaxBlockCountToStore PropagateIterations nonBlocking a msg p = Ok p' -> peer_ok bs p'.
Proof.
  intros P E. pose proof (pk_state _ _ P) as Ps. unfold from_orderer in E. apply res_bind_Ok in E as (r & Er & E).
  destruct r as [d c|q c|c|]; try by (simplify_eq; eapply peer_ok_other).
  apply res_bind_Ok in E as (s & Ea & E).
  assert (ok_state bs s) as Hs.
  { eapply start_adding_ok; [done| |exact Ea]. intros q' [= <-]. destruct msg as [st|[raw|]|]; cbn in Er; try done.
    { by injection Er as []%status_no_block. }
    unfold BlocksProvider.on_block in Er. cbn in Er. destruct (rb_Header raw) as [h|]; [cbn in Er|done].
    destruct (VerifyBlock _ _ _ _) as [[]| | |] eqn:Ev; try done. injection Er as <- <-. rewrite (po_chain _ _ _ _ _ _ Ps) in Ev.
    eapply attested_now; [apply (po_commits _ _ _ _ _ _ Ps)|done]. }
  unfold Gossip in E. apply res_bind_Ok in E as (_ & _ & E). apply res_bind_Ok in E as (gc & _ & [= <-]).
  apply (peer_ok_other bs (with_state s p)); [by apply peer_ok_with|..]; by destruct (_ =? _).
Qed.

Lemma take_gossip_ok bs p p' : peer_ok bs p -> take_gossip p = Ok p' -> peer_ok bs p'.
Proof.
  intros [Ps I] E. unfold take_gossip in E. destruct (inbox p) as [|m i] eqn:Ei; [injection E as <-; split; [done|by rewrite Ei]|].
  apply res_bind_Ok in E as (s & Es & [= <-]). split; cbn; [|intros x q Hx; apply I; by right].
  unfold queueNewMessage in Es. destruct (negb _); [by injection Es as <-|].
  destruct (gm_Content m) eqn:Ec; try by injection Es as <-. eapply start_adding_ok; [done| |done]. intros q ->. eapply I; [by left|done].
Qed.

Lemma peer_step_ok bs p p' i : peer_ok bs p -> peer_step p i = Ok p' -> exists bs', peer_ok (bs ++ bs') p'.
Proof.
  intros P E. assert (peer_ok bs p' -> exists bs', peer_ok (bs ++ bs') p') as Hsame by (exists []; by rewrite app_nil_r).
  destruct i; cbn in E.
  - by eapply Hsame, from_peer_ok.
  - by eapply Hsame, from_orderer_ok.
  - by eapply Hsame, take_gossip_ok.
  - apply res_bind_Ok in E as (gc & _ & [= <-]). apply Hsame. by eapply peer_ok_other.
  - apply res_bind_Ok in E as (s & Es & [= <-]). 
    assert (event_ok VerifyBlock l0 ch bs (work_event w)) as Hw by (by destruct w).
    destruct (state_step_ok _ Hsound _ _ _ _ _ _ _ (pk_state _ _ P) Hw Es) as (bs' & Ps).
    exists bs'. by apply peer_ok_state.
Qed.

Lemma peer_run_ok ins bs p p' : peer_ok bs p -> peer_run ins p = Ok p' -> exists bs', peer_ok (bs ++ bs') p'.
Proof.
  revert bs p. induction ins as [|i ins IH]; intros bs p P E; cbn in E.
  - injection E as <-. exists []. by rewrite app_nil_r.
  - apply res_bind_Ok in E as (p1 & E1 & E). destruct (peer_step_ok _ _ _ _ P E1) as (bs1 & P1).
    destruct (IH _ _ P1 E) as (bs2 & P2). exists (bs1 ++ bs2). by rewrite app_assoc.
Qed.

Lemma new_peer_ok join p : LedgerHeight l0 = Ok h0 -> u64 h0 -> new_peer ch l0 join = Ok p -> peer_ok [] p.
Proof.
  intros Hh Hu E. unfold new_peer in E. apply res_bind_Ok in E as (s & Es & [= <-]). split; [by apply new_provider_ok|].
  intros m q []%elem_of_nil.
Qed.

(** The peers that are reached, with the blocks that they have committed. *)
Lemma reached_ok join ins p p0 :
  LedgerHeight l0 = Ok h0 -> u64 h0 -> new_peer ch l0 join = Ok p0 -> peer_run ins p0 = Ok p -> exists bs, peer_ok bs p.
Proof. intros Hh Hu En Er. apply (peer_run_ok ins [] p0 p); [by eapply new_peer_ok|done]. Qed.

(** The delivery of the state provider, in the peer. *)
Lemma run_delivery n p s' :
  run VerifyBlock (replicate n RunDelivery) (state p) = Ok s' ->
  peer_run (replicate n (StateWork WorkDelivery)) p = Ok (with_state s' p).
Proof.
  revert p. induction n as [|n IH]; intros p E; [cbn in E; injection E as <-; by destruct p|].
  cbn [replicate run] in E. apply res_bind_Ok in E as (s1 & E1 & E). cbn [replicate GossipPeer.peer_run GossipPeer.peer_step work_event].
  rewrite E1, !res_ret_bind. by rewrite (IH (with_state s1 p)).
Qed.

End PeerFacts.
End PeerFacts.

Module GossipTheorems.
Import GossipState GossipChannel GossipPeer StateFacts RequestFacts McsFacts PeerFacts.
Section GossipTheorems.
Context `{ProtoCodec} `{SignatureCodec} `{TxCodec} `{CryptoHash} `{OrdererCodec} `{BlockProto} `{GossipCodec}.
Context {L : Type} `{Committer L}.

(** The policies of the channels under a ledger. *)
Context (Manager : L -> string -> option ManagerImpl).
Context (selfOrg : bytes) (MaxBlockCountToStore BlockExpirationInterval leaderTTL PropagateIterations : Z) (nonBlocking : bool).

#[local] Abbreviation run_peer := (peer_run (fun l => MCS.VerifyBlock (Manager l)) (fun l => MCS.VerifyByChannel (Manager l))
  selfOrg MaxBlockCountToStore BlockExpirationInterval leaderTTL PropagateIterations nonBlocking).

Lemma mcs_sound : verifier_sound (fun l => MCS.VerifyBlock (Manager l)).
Proof. intros l ch n d Hv. apply verified_block in Hv as (raw & h & E & Eh & Hd & Hn & _). by exists raw, h. Qed.

(** C6: A peer commits only the blocks of its channel, in order.  Whatever other
    peers and the orderer send to a peer that joined a channel with a ledger, and
    however its goroutines interleave, the blocks that it commits have the
    numbers that follow its ledger, and each of them is a block of the channel
    whose data matches its header and whose signatures satisfy the policy of the
    channel for blocks, under a configuration that the peer had committed before
    that block. *)
Theorem committed_blocks_signed l0 h0 ch join p0 inputs p :
  LedgerHeight l0 = Ok h0 -> u64 h0 -> new_peer ch l0 join = Ok p0 -> run_peer inputs p0 = Ok p ->
  exists bs, commits l0 bs (committer (state p)) /\
    forall k b, bs !! k = Some b -> Number (blk_Header b) = wrap64 (h0 + Z.of_nat k) /\
      exists j l, (j <= k)%nat /\ commits l0 (take j bs) l /\ block_signed (Manager l) ch b.
Proof.
  intros Hh Hu En Er. destruct (reached_ok _ _ mcs_sound _ _ _ _ _ _ _ _ _ _ _ _ _ Hh Hu En Er) as (bs & [P _]).
  exists bs. split; [by eapply po_commits|]. intros k b Hk.
  destruct (po_blocks _ _ _ _ _ _ P k b Hk) as (q & (raw & h & Eu & Eh & ->) & Hs & Hn & (j & l & Hj & Hc & Hv)).
  split; [congruence|]. exists j, l. rewrite length_take in Hj. rewrite take_take, Nat.min_l in Hc by lia. split; [lia|]. split; [done|].
  apply verified_block in Hv as (raw' & h' & Eu' & Eh' & _ & _ & Hb). congruence.
Qed.

(** C17: Blocks that wait are committed.  When the peer waits for blocks and its
    buffer has the blocks that follow the ledger, then the goroutine of the
    delivery, which no wake-up is lost for, commits all of them in two steps
    each; only a failing commit could stop it. *)
Theorem waiting_blocks_committed l0 h0 ch join p0 inputs p bl l' :
  LedgerHeight l0 = Ok h0 -> u64 h0 -> new_peer ch l0 join = Ok p0 -> run_peer inputs p0 = Ok p ->
  delivery (state p) = Selecting -> waiting (payloads (state p)) (PayloadsBuffer.next (payloads (state p))) bl ->
  Z.of_nat (length bl) < 2 ^ 64 -> commits (committer (state p)) bl l' ->
  exists p', run_peer (replicate (1 + 2 * length bl) (StateWork WorkDelivery)) p = Ok p' /\ committer (state p') = l'.
Proof.
  intros Hh Hu En Er Hd Hw Hlen Hc. destruct (reached_ok _ _ mcs_sound _ _ _ _ _ _ _ _ _ _ _ _ _ Hh Hu En Er) as (bs & [P _]).
  destruct (po_delivery_starts _ mcs_sound _ _ _ _ _ bl l' P Hd Hw Hlen Hc) as (s' & Es & El).
  exists (with_state s' p). split; [by apply run_delivery|done].
Qed.

(** C18: What a peer answers to a request for blocks.  A request for at most
    eleven blocks, the last of which is not the greatest number, is answered with
    the blocks of the ledger that have these numbers; a request that ends with
    the greatest number keeps the peer in the loop for ever. *)
Theorem state_requests_answered `{!CommitterSpec L} (s : provider L) bs msg start end_ :
  stored (committer s) bs -> rm_Content msg = StateRequest start end_ -> u64 start -> u64 end_ -> start <= end_ <= start + 10 ->
  (end_ < 2 ^ 64 - 1 ->
    handleStateRequest 12 msg s = Ok (Some (mkGossipMessage (gm_Nonce (sgm_Message (rm_Message msg))) (to_bytes (chainID s)) CHAN_OR_ORG
      (StateResponse (blocks_between bs start end_))))) /\
  (end_ = 2 ^ 64 - 1 -> forall fuel, handleStateRequest fuel msg s = OutOfFuel).
Proof.
  intros Hst Hm Hs He Hle. pose proof Hs as [Hs1 Hs2]. pose proof He as [He1 He2].
  assert (forall fuel, handleStateRequest fuel msg s =
    (found ← read_blocks fuel (committer s) start (min (Z.of_nat (length bs)) end_);
     Ok (Some (mkGossipMessage (gm_Nonce (sgm_Message (rm_Message msg))) (to_bytes (chainID s)) CHAN_OR_ORG (StateResponse found))))) as E.
  { intros fuel. unfold handleStateRequest. rewrite Hm, (stored_height _ _ Hst), wrap64_small by (unfold u64; lia).
    unfold defAntiEntropyBatchSize. rewrite (proj2 (Z.ltb_ge 10 _)), (proj2 (Z.ltb_ge end_ _)) by lia. done. }
  split; [intros Hlt; by rewrite E, (request_read _ bs) by (done || lia)|]. intros -> fuel. by rewrite E, (request_forever _ _ bs).
Qed.

End GossipTheorems.
End GossipTheorems.

(** ** A peer that gets two blocks *)

Module GossipDemo.
Import OrdererDemo EndorserTheorems.FieldCodec GossipState GossipChannel GossipPeer StateFacts RequestFacts McsFacts.

#[export] Existing Instances field_proto field_signatures field_tx.

(** A committer over a list of blocks. *)
#[export] Instance list_committer : Committer (list Block) := {
  LedgerHeight l := Ok (Z.of_nat (length l));
  GetBlocks l ns := Ok (omap (fun n => if n =? 2 ^ 64 - 1 then last l else l !! Z.to_nat n) ns);
  Commit b l := if Number (blk_Header b) =? Z.of_nat (length l) then (l ++ [b], Ok tt) else (l, Err "unexpected block")
}.

#[export] Instance list_committer_spec : CommitterSpec (list Block).
Proof.
  refine {| stored l bs := l = bs /\ Z.of_nat (length l) < 2 ^ 62 |}.
  - by intros l bs [-> Hl].
  - by intros l bs [-> _].
  - intros l bs n [-> _] Hn. cbn. rewrite (proj2 (Z.eqb_neq _ _)) by lia. by destruct (bs !! Z.to_nat n).
  - done.
Defined.

Definition demo_envelope : bytes :=
  put (mkEnvelope (put (mkPayload (Some (mkHeader (put (mkChannelHeader ENDORSER_TRANSACTION 0 "ch" "" 0 [])) [])) [])) []).

Definition demo_signatures : bytes :=
  marshal_Metadata (mkMetadata [] [mkMetadataSignature (put (mkSignatureHeader (to_bytes "orderer") [])) (to_bytes "signed")]).

Definition demo_block (n : Z) : Block := mkBlock (mkBlockHeader n [] demo_envelope) [demo_envelope] [demo_signatures].

(** Blocks by their number. *)
#[export] Instance demo_block_proto : BlockProto := {
  marshal_Block r := match rb_Header r with Some h => [uint8 (Number h)] | None => [] end;
  unmarshal_Block b := match b with [n] => Ok (raw_block (demo_block (byte_val n))) | _ => Err "proto: Block" end
}.

#[export] Instance demo_gossip_codec : GossipCodec := { marshal_GossipMessage _ := []; unmarshal_GossipMessage _ := Err "proto: GossipMessage" }.

Definition demo_manager (l : list Block) (ch : string) : option ManagerImpl :=
  Some (mkManager "Channel" (mkPolicyConfig {[ "Orderer/BlockValidation" := ImpPolicy (mkImplicitMeta "Writers" ANY) 0 [] ]} [] []) None).

Definition demo_adapter : Adapter :=
  mkAdapter 0 [] (fun _ => None) (fun _ => Ok tt) (fun _ => Some (to_bytes "org")) (fun _ => None) (fun _ _ _ => Ok tt) (fun _ _ _ _ => Ok tt).

(** A block from the orderer, and the next one from another peer. *)
Definition demo_gossiped : ReceivedMessage :=
  mkReceivedMessage (NoopSign (mkGossipMessage 0 (to_bytes "ch") CHAN_AND_ORG (DataMsg (Some (mkBlockPayload 2 [uint8 2])))))
    (mkConnectionInfo (Some (to_bytes "peer2")) None [] "").

Definition demo_inputs : list input :=
  [FromPeer demo_adapter demo_gossiped; FromOrderer demo_adapter (BlockMsg (Some (raw_block (demo_block 1)))); TakeGossip;
   StateWork (WorkAdder 0); StateWork (WorkAdder 0)].

Definition demo_start : res (peer (list Block)) := new_peer "ch" [demo_block 0] (1, [to_bytes "org"]).

Definition demo_run (inputs : list input) (p : peer (list Block)) : res (peer (list Block)) :=
  peer_run (fun l => MCS.VerifyBlock (demo_manager l)) (fun l => MCS.VerifyByChannel (demo_manager l)) (to_bytes "org") 100 100 100 1 true inputs p.

Definition demo_peer : res (peer (list Block)) := p ← demo_start; demo_run demo_inputs p.

End GossipDemo.

Module GossipWitnesses.
Import OrdererDemo EndorserTheorems.FieldCodec GossipState GossipChannel GossipPeer StateFacts RequestFacts McsFacts GossipTheorems GossipDemo.

(** The blocks wait in the buffer of the peer; it has committed none yet. *)
Lemma demo_buffered :
  match demo_peer with
  | Ok p => committer (state p) = [demo_block 0] /\ delivery (state p) = Selecting /\ PayloadsBuffer.next (payloads (state p)) = 1 /\
      PayloadsBuffer.buf (payloads (state p)) !! 1 = Some (mkBlockPayload 1 [uint8 1]) /\
      PayloadsBuffer.buf (payloads (state p)) !! 2 = Some (mkBlockPayload 2 [uint8 2])
  | _ => False
  end.
Proof. vm_compute. done. Qed.

Lemma demo_payload n : 0 <= n < 256 -> block_of (mkBlockPayload n [uint8 n]) (demo_block n).
Proof.
  intros Hn. exists (raw_block (demo_block n)), (blk_Header (demo_block n)). split; [|done]. cbn. by rewrite byte_val_uint8, Z.mod_small.
Qed.

Lemma waiting_blocks_committed_witness :
  exists p0 p p', demo_start = Ok p0 /\ demo_run demo_inputs p0 = Ok p /\ demo_run (replicate 5 (StateWork WorkDelivery)) p = Ok p' /\
    committer (state p') = [demo_block 0; demo_block 1; demo_block 2].
Proof.
  pose proof demo_buffered as Hb. unfold demo_peer in Hb. destruct demo_start as [p0| | |] eqn:E0; try done. cbn [mbind res_bind] in Hb.
  destruct (demo_run demo_inputs p0) as [p| | |] eqn:E1; try done. destruct Hb as (Hl & Hd & Hn & H1 & H2).
  destruct (waiting_blocks_committed demo_manager (to_bytes "org") 100 100 100 1 true [demo_block 0] 1 "ch" (1, [to_bytes "org"]) p0 demo_inputs p
    [demo_block 1; demo_block 2] [demo_block 0; demo_block 1; demo_block 2]) as (p' & E & El); try done.
  - rewrite Hn. intros [|[|k]] x; cbn; [intros [= <-]|intros [= <-]|done].
    + exists (mkBlockPayload 1 [uint8 1]). split; [done|by apply demo_payload].
    + exists (mkBlockPayload 2 [uint8 2]). split; [done|by apply demo_payload].
  - rewrite Hl. apply (commits_snoc _ [demo_block 1] [demo_block 0; demo_block 1]); [|done].
    apply (commits_snoc _ [] [demo_block 0]); [constructor|done].
  - by exists p0, p, p'.
Defined.

Lemma committed_blocks_signed_witness :
  exists p0 p, demo_start = Ok p0 /\ demo_run (demo_inputs ++ replicate 5 (StateWork WorkDelivery)) p0 = Ok p /\
    exists bs, commits [demo_block 0] bs (committer (state p)) /\
      forall k b, bs !! k = Some b -> Number (blk_Header b) = wrap64 (1 + Z.of_nat k) /\
        exists j l, (j <= k)%nat /\ commits [demo_block 0] (take j bs) l /\ block_signed (demo_manager l) "ch" b.
Proof.
  assert (match demo_start with Ok p0 => is_ok (demo_run (demo_inputs ++ replicate 5 (StateWork WorkDelivery)) p0) | _ => False end) as Hr
    by (vm_compute; done).
  destruct demo_start as [p0| | |] eqn:E0; try done. apply is_ok_iff in Hr as [p E]. exists p0, p. split; [done|]. split; [done|].
  by apply (committed_blocks_signed demo_manager (to_bytes "org") 100 100 100 1 true [demo_block 0] 1 "ch" (1, [to_bytes "org"]) p0
    (demo_inputs ++ replicate 5 (StateWork WorkDelivery)) p).
Defined.

Definition demo_asked (start end_ : Z) : ReceivedMessage :=
  mkReceivedMessage (NoopSign (mkGossipMessage 7 (to_bytes "ch") CHAN_OR_ORG (StateRequest start end_))) (mkConnectionInfo None None [] "").

Definition demo_provider : res (provider (list Block)) := NewGossipStateProvider "ch" [demo_block 0; demo_block 1].

Lemma state_requests_answered_witness :
  match demo_provider with
  | Ok s =>
      handleStateRequest 12 (demo_asked 1 5) s =
        Ok (Some (mkGossipMessage 7 (to_bytes "ch") CHAN_OR_ORG (StateResponse [mkBlockPayload 1 [uint8 1]]))) /\
      forall fuel, handleStateRequest fuel (demo_asked (2 ^ 64 - 1) (2 ^ 64 - 1)) s = OutOfFuel
  | _ => False
  end.
Proof.
  assert (match demo_provider with Ok s => committer s = [demo_block 0; demo_block 1] /\ chainID s = "ch" | _ => False end) as Hp by (vm_compute; done).
  destruct demo_provider as [s| | |]; try done. destruct Hp as [Hc Hi].
  assert (stored (committer s) [demo_block 0; demo_block 1]) as Hs by (by rewrite Hc). split.
  - destruct (state_requests_answered s [demo_block 0; demo_block 1] (demo_asked 1 5) 1 5) as [E _]; try done. rewrite E, Hi by done. by vm_compute.
  - by apply (state_requests_answered s [demo_block 0; demo_block 1] (demo_asked (2 ^ 64 - 1) (2 ^ 64 - 1)) (2 ^ 64 - 1) (2 ^ 64 - 1)).
Defined.

(** A block with a number that has no encoding as a signed one. *)
Definition oversized : BlockProto := {| marshal_Block _ := []; unmarshal_Block _ := Ok (raw_block (demo_block (2 ^ 63))) |}.

(** It is not refused: the peer stops. *)
Example oversized_block_panics : MCS.VerifyBlock (H4 := oversized) (demo_manager []) "ch" (2 ^ 63) [] =
  Panic "Golang does not currently support encoding uint64 to asn1".
Proof. by vm_compute. Qed.

End GossipWitnesses.
